(* ===== verification/_CoqProject ===== *)
-Q . S2P
Prelude.v
Bytes.v
RtpWire.v
OrdMap.v
ReorderQueue.v
ReorderProps.v
Nack.v
RtcpNackWire.v
RtcpWire.v
RtcpProps.v
Twcc.v
SpscRing.v
Channel.v
Stun.v
StunLayout.v
StunProps.v
StunSafety.v
Affinity.v
WorkerPool.v
WorkerService.v
StateMachine.v
SocketAddr.v
IceAgent.v
IceProps.v
TurnCodec.v
TurnAuth.v
TurnRateLimiter.v
TurnServer.v
TurnInvariant.v
TurnServerProps.v
TurnAllocate.v
H264.v
H264Buffer.v
H264BufferInv.v
H264Frames.v
H264Delivery.v
H264Sender.v
H264Params.v
H264Depacketizer.v
H264Output.v
H264Stream.v
Audio.v
AudioProps.v
SenderTrack.v
SenderLayout.v
SenderTwcc.v
SenderInvariant.v
SenderProps.v
SendSide.v
SendSideProps.v
ResumeBuffer.v
ResumeProps.v
Downlink.v
DownlinkProps.v
MediaRegistry.v
MediaRegistryInv.v
MediaRegistryProps.v
FrameRouter.v
FrameRouterProps.v
Names.v
Participant.v
Room.v
RoomInv.v
RoomLoops.v
RoomOps.v
RoomProps.v
RoomMeeting.v
RoomSystem.v
RoomExamples.v
SfuEndpoint.v
SfuInv.v
SfuReplace.v
SfuProps.v
SfuLocal.v
SfuPool.v
SfuPoolProps.v
SfuExamples.v
RoomEndpoints.v
Conference.v
