(* ===== verification/Prelude.v ===== *)
(** * Packetia SFU: a verification development

    Packetia is a selective forwarding unit for real-time media.  Packets
    arrive from the network, are classified as STUN, RTP or RTCP, are posted
    to the worker that owns their stream, are reordered and checked for loss,
    and are forwarded to the endpoints of the participants that are subscribed to
    them in a room; loss and arrival times are reported back over RTCP.  A
    built-in TURN server relays for clients that cannot be reached directly.
    This library models the part of the server (the C++ sources under src/)
    that carries those decisions, and proves what each part promises.

    ** Parts of the program and where they are modelled

    The path of a packet through the server, and the file for each part:

    - integer access to byte buffers (utils/utils.cpp): Bytes.v;
    - ICE connectivity checks: the STUN codec (protocol/ice/stun/Stun.h,
      Stun.cpp): Stun.v (parser, decoders, integrity and fingerprint, message
      builders), StunLayout.v (the wire layout as a specification, and that
      the builders produce it), StunProps.v (round trips), StunSafety.v
      (arbitrary input);
    - the RTP header, payload bounds, RTX encapsulation, header extensions and
      the receivers' packet checks (Rtsp/Rtp.cpp, Rtsp/Rtp/RtpRtx.h,
      Rtsp/Rtp/RtpHeaderExtensions.h, Rtsp/RtpTransportCcExtension.cpp,
      Rtsp/RtpReceiver.cpp): RtpWire.v;
    - the choice of a worker for a packet (utils/MediaStreamAffinity.h):
      Affinity.v; the workers (class ShardedWorkerPool of
      utils/ShardedWorkerPool.cpp): WorkerPool.v; the registry that names the
      pools (class WorkerService of the same file): WorkerService.v;
    - hand-over between threads: the lock-free ring (Rtsp/RtpRingBuffer.h):
      SpscRing.v; the bounded channels over a shared budget
      (utils/BoundedChannel.h): Channel.v;
    - the reorder queue (Rtsp/RtpPacketReorderQueue.h): ReorderQueue.v (the
      operations and their invariant), ReorderProps.v (what clients rely on);
      std::map, which several parts iterate in key order: OrdMap.v;
    - loss recovery: the NACK requester (Rtsp/Rtp/NackRequester.cpp): Nack.v;
      its messages (protocol/Rtcp/RtcpNack.cpp): RtcpNackWire.v;
    - RTCP: headers, builders, routing inspection and the compound receiver
      (protocol/Rtcp/RtcpHealper.cpp, RtcpFeedback.cpp, RtcpContext.cpp,
      RtcpReciver.cpp): RtcpWire.v and RtcpProps.v;
    - transport-wide congestion control reports
      (protocol/Rtcp/TransportFeedbackGenerator.cpp): Twcc.v;
    - the table-driven state machine (utils/StateMachine.h,
      StateController.h): StateMachine.v;
    - the ICE-Lite agent and its context (protocol/ice/IceAgent.cpp,
      IceContext.cpp), a client of the STUN codec and of the state machine:
      IceAgent.v (the operations), IceProps.v (life cycle and authentication);
      addresses (network/UdpSocket.h): SocketAddr.v;
    - TURN (protocol/turn): the codec (TurnCodec.cpp): TurnCodec.v; long-term
      credentials (TurnAuth.cpp): TurnAuth.v; the limiter of unauthenticated
      responses (TurnAuthRateLimiter.cpp): TurnRateLimiter.v; the server
      (TurnServer.cpp): TurnServer.v (every handler), TurnInvariant.v (the
      invariant and the effect of each handler), TurnServerProps.v (what holds
      of every run), TurnAllocate.v (the way from a request to a relay through
      all four);
    - from packets to frames (Common/Depacketizer): H.264 payloads
      (H264Payload.h, H264RtpPayloadParser.cpp): H264.v; the packet buffer
      (H26xPacketBuffer.cpp): H264Buffer.v (every operation), H264BufferInv.v
      (its invariant, and the assembler as a function of the packets in order),
      H264Frames.v (what holds of every run), H264Delivery.v (any order of
      arrival), H264Sender.v (a sender's access unit comes back); parameter sets
      (H264ParameterSetTracker.cpp): H264Params.v; the depacketizer that joins
      them (H264Depacketizer.cpp, H264RtpDepacketizer.cpp): H264Depacketizer.v
      (the operations), H264Output.v (what it hands out), H264Stream.v (a whole
      stream, end to end); audio (AudioDepacketizer.cpp,
      AudioRtpDepacketizerFactory.cpp): Audio.v and AudioProps.v;
    - to the subscribers: the sender track (Rtsp/RtpSenderTrack.cpp) with the
      allocator of transport-wide sequence numbers: SenderTrack.v (every
      operation), SenderLayout.v (packets as parts, and what rewriting does to
      them), SenderTwcc.v (the transport sequence number in the header
      extension), SenderInvariant.v (the invariant), SenderProps.v (what holds
      of every run);
    - what subscribers report back: the history of sent packets, the feedback
      adapter and the controller that owns them (media/quality/PacketHistory.cpp,
      TransportFeedbackAdapter.cpp, SendSideController.cpp): SendSide.v and
      SendSideProps.v;
    - which videos the bandwidth of a subscriber is enough for
      (media/quality/DownlinkBandwidthAllocator.cpp): Downlink.v and DownlinkProps.v;
      resuming a paused video (Rtsp/Rtp/VideoResumeBuffer.cpp): ResumeBuffer.v and
      ResumeProps.v;
    - who publishes and who consumes: streams, tracks, their consumers and the
      directory of them (media/core/MediaStream.cpp, MediaStreamRegistry.cpp,
      MediaTrackSubscription.h): MediaRegistry.v (every operation),
      MediaRegistryInv.v (the invariant), MediaRegistryProps.v (what clients rely
      on); the router of encoded frames (media/frame/EncodedFrameRouter.cpp):
      FrameRouter.v and FrameRouterProps.v;
    - the endpoints that packets enter and leave by (media/endpoint/SfuEndpoint.cpp,
      SfuEndpointTracks.cpp, the tables of DownlinkTrackManager.cpp): SfuEndpoint.v
      (every operation on tracks, SSRCs and routes), SfuInv.v (the invariant of the
      tables), SfuReplace.v (renegotiation), SfuProps.v (what holds of every run of
      one endpoint); all endpoints with the routes between them: SfuLocal.v (what an
      operation of one may do to the others), SfuPool.v (subscription across
      endpoints, the steps and the invariant), SfuPoolProps.v (what holds of every
      run), SfuExamples.v (a run);
    - rooms (Room): participants (Participant.cpp): Participant.v, with names as
      strings of bytes in Names.v; rooms, the room manager and the command handler
      (Room.cpp): Room.v (every operation), RoomInv.v (the invariant of the tables),
      RoomLoops.v (the loops over them), RoomOps.v (the effect of each method),
      RoomProps.v (what holds of every run of a room), RoomMeeting.v (automatic
      subscription, signaling connections), RoomSystem.v (all rooms under the command
      handler), RoomExamples.v (a meeting);
    - rooms over endpoints: RoomEndpoints.v (what a room may do to the endpoints, for
      any implementation of them), Conference.v (the command handler over the pool).

    ** How the code is represented

    A class is a record of its members, an operation a function from the state
    to the new state and the results; definitions keep the source's names.  A
    callback is modelled by the values it is called with, returned in call
    order.  Unsigned [w]-bit integers are [Z] values with the wrap-around
    written out ([wrap], [u16], ...); where a counter is left unbounded, the
    file says so.  A pointer and a length are a list of bytes, and every read
    goes through [rd] of Bytes.v.  Code that threads share is a step relation:
    one step for each atomic access (SpscRing.v) or critical section
    (Channel.v, WorkerPool.v, FrameRouterProps.v), interleaved in any order.  Objects
    that several parties point to live in a store, with their identities as
    pointers (MediaRegistry.v, FrameRouter.v).

    Code that reads untrusted bytes or loops returns [mres]: [Ret], [Fault]
    (an access outside the buffer) or [NoFuel] (the loop's bound was too
    small).  Each loop's fuel is part of the definition: the length of the
    buffer for parsers (each iteration consumes at least a byte), the number of
    elements for loops that empty a container, the distance between two
    sequence numbers for loops over a range.  That the fuel suffices is proved:
    a theorem that concludes [= Ret _] or [returns _] excludes both a fault and
    a loop that does not end.

    ** Interfaces

    [IntCodec] (Bytes.v) states what the integer accessors promise (load after
    store, nothing else touched, in bounds); all eight are instances.  Code
    outside the repository is a class parameter with the documented facts the
    code relies on: [HmacSha1] (Stun.v) and [Md5] (TurnAuth.v) are OpenSSL's
    digests, [InetPton] (SocketAddr.v) the C library's address parser.  The
    clock, random bytes, port binding and the results of sends are arguments of
    the TURN handlers ([Env] of TurnServer.v).  RtcpProps.v uses the packing
    theorems of RtcpNackWire.v, Affinity.v those of the RTCP builders,
    WorkerService.v the operations of WorkerPool.v, IceAgent.v the STUN codec
    and the state machine, TurnServer.v the codec, the authentication and the
    limiter, H264Depacketizer.v the parser, the packet buffer and the tracker;
    SenderProps.v reads forwarded packets back with the readers of RtpWire.v;
    SendSideProps.v joins the generator of Twcc.v, the decoder of RtcpWire.v and
    the history of sent packets.  Rooms and participants reach endpoints through the
    class [SfuEndpointOps] (Participant.v), and the theorems on rooms hold for every
    instance; [EndpointLaw] (RoomEndpoints.v) says that every call respects a relation on
    the state of the endpoints, and then so does every operation of a room and every
    command.  Conference.v gives the instance [pool_ops] on the pool of SfuPool.v, proves the law
    for its steps, and joins the two developments.

    ** What is proved

    - C1: a sender track forwards what it accepts with only the header rewritten.
    - C3, C4: RTX encapsulation is undone by decapsulation; the header extension
      parsers end, stay in bounds and find values inside the extension only.
    - C2, C5: H.264.  From any packets only genuine frames are made; a sender's
      stream comes out as the same access units, in order, however the network
      shuffles it.
    - C40: AAC access units come out as a sender put them in.
    - C6-C8: the reorder queue emits in strictly increasing order, accounts for
      every packet, and holds a bounded number for a bounded time.
    - C9, C19, C38, C39: routes between endpoints.  Both ends agree; a packet reaches
      exactly the routes of its track; a subscription that is given up, or whose track
      is removed, is never used again.
    - C26, C33, C37: one endpoint.  Its tables stay consistent; an offer is applied as
      a whole or not at all; late packets of a removed track are ignored.
    - C23, C30: rooms.  The tables of every room agree with one another and with the
      records of its members; a command touches the room it names only.
    - C12: who has left a room neither sends nor receives.
    - C10: the NACK requester keeps its tracked set within its limits.
    - C11: the stream registry keeps names, tracks and consumers consistent under any
      calls.
    - C20, C28: the frame router calls exactly the sinks that a scan over all
      subscriptions would find; an ended subscription is not called again, whatever
      publishers run concurrently.
    - C15: the RTCP receiver is memory safe and all-or-nothing.
    - C22, C36: transport feedback.  A receiver's report tells the sender the fate
      of exactly the packets it covers; the estimator is told of a packet at most
      once and only on the path it was sent on, and the history stays bounded.
    - C21: the bandwidth allocator grants what fits, in the order of priority.
    - C34: the resume buffer hands out only whole access units with a key frame.
    - C25, C27: the ring is a FIFO queue under every interleaving and across
      index wrap-around; channels account exactly for the budget they share.
    - C29: STUN messages read back completely and verify.
    - C13, C24, C31: the ICE agent follows its life cycle, reacts only to
      authenticated checks, and completes for a peer with the right credentials.
    - C14, C16-C18, C32, C35: the TURN server keeps its limits and
      well-formed leases on any input, authorizes only who proves to know the
      password, forwards and relays only under a valid lease and without changing
      a byte, and gives a prepared client its relay.

    The conditions under which a property holds are part of its statement and of the
    comment before it.

    Beside these, theorems without a number give the answers of sender tracks to
    NACKs, the continuity of their sequence numbers, the order the reorder queue
    restores, the retries of the NACK requester, the removal of streams from the
    registry, the independence of the bandwidth allocator from the order of its
    demands, its delays and that it resumes a video there is room for, the delivery
    of a transmitted key frame by the resume buffer, what leaving and closing do to a
    room, automatic subscription, signaling connections that were replaced, the round trip of the RTP
    header, the detection of gaps by the NACK requester, the serial and ordered delivery of
    channels, that only its owner changes a TURN allocation, the rate of
    unauthenticated TURN responses, the safety of the STUN parser and of the audio depacketizers on arbitrary
    bytes, the invariant of the H.264 packet buffer, the round trip of sequence
    parameter sets, the exactness of transport feedback reports, H.264 frames handed out
    with the parameter sets they need, the parameter sets of the SDP, the expiry of
    everything the TURN server keeps, the wire round trips of NACK, PLI, receiver report, ICE request, success and error messages and of
    ChannelData, the contents of decoded transport feedback, the disjointness of
    generated reports, the priority of control packets in the ring buffer, what
    MESSAGE-INTEGRITY covers, the agreement of the RTCP inspection with the
    receiver, of the two payload bounds and of the two header extension parsers,
    the limits of a worker pool and the order of its keys, the expiry of packets
    that wait for a frame, the answers of the TURN server to retransmitted
    requests, the affinity of feedback, the routing of the
    worker registry, the steps of the state machine, the safety of the H.264
    payload and parameter set parsers, and the durations of Opus packets.

    Examples evaluate behaviour that comments of the source or the standards it
    follows rule out: [twcc_evicted_reported_lost] (a received packet that was
    evicted can be reported as lost before the first report),
    [fir_key_ignores_target] (a FIR is routed by SSRC 0 instead of its target),
    [sps_scaling_overflow] and [sps_crop_wraps] (arithmetic on received
    parameter sets overflows), [opus_silk60] (SILK frames of 60 ms are counted
    as 80 ms), [aac_empty_frame] (an audio frame without data), [padding_reorder]
    (padding between packets out of order makes two share a sequence number),
    [twcc_behind_15] (a reserved element hides the transport sequence number),
    [resume_without_parameters] (a key frame that overtakes its parameter sets is
    handed out without them), [resume_number_reused] (a packet is handed out as the
    key frame that a later one of the same number was), [doubled_identity],
    [doubled_identity_loses_route] and [doubled_index] (a track may be added under
    the identity or the index of a paused one, and open routes or the distinctness of
    indices are lost when that one comes back).

    ** What is not modelled

    Sockets, event loops, TLS, DTLS and SRTP, FFmpeg, databases, JSON, files,
    logging and metrics: operating-system or library calls without logic of
    their own to prove.  Estimators in floating point (jitter, rates, bandwidth).
    Weak memory: the ring's atomics are sequentially consistent here.

    Also left out: ICE candidates and the checklist, which the ICE-Lite agent does
    not use; the receive statistics; the time-driven part of the downlink track
    manager (Tick, Probe); SDP, RTSP and signaling messages. *)
From Stdlib Require Export ZArith Lia Bool Btauto.
From stdpp Require Export base numbers list option gmap.

#[global] Open Scope Z_scope.

(** ** Machine integers

    A [w]-bit unsigned value is a [Z] in [0, 2^w); [wrap w] is the conversion
    [static_cast<uintw_t>], [swrap w] the conversion to the signed type. *)

Definition wrap (w x : Z) : Z := x mod 2 ^ w.

Definition swrap (w x : Z) : Z :=
  let y := x mod 2 ^ w in
  if y <? 2 ^ (w - 1) then y else y - 2 ^ w.

Abbreviation u8 := (wrap 8).
Abbreviation u16 := (wrap 16).
Abbreviation u32 := (wrap 32).
Abbreviation u64 := (wrap 64).
Abbreviation s16 := (swrap 16).
Abbreviation s32 := (swrap 32).
Abbreviation s64 := (swrap 64).

Definition is_u (w x : Z) : Prop := 0 <= x < 2 ^ w.

Abbreviation is_u8 := (is_u 8).
Abbreviation is_u16 := (is_u 16).
Abbreviation is_u32 := (is_u 32).
Abbreviation is_u64 := (is_u 64).

(** Powers of two up to 64 bits as literals, so that [lia] sees them. *)
Lemma pow2_8 : 2 ^ 8 = 256. Proof. reflexivity. Qed.
Lemma pow2_15 : 2 ^ 15 = 32768. Proof. reflexivity. Qed.
Lemma pow2_16 : 2 ^ 16 = 65536. Proof. reflexivity. Qed.
Lemma pow2_31 : 2 ^ 31 = 2147483648. Proof. reflexivity. Qed.
Lemma pow2_32 : 2 ^ 32 = 4294967296. Proof. reflexivity. Qed.
Lemma pow2_63 : 2 ^ 63 = 9223372036854775808. Proof. reflexivity. Qed.
Lemma pow2_64 : 2 ^ 64 = 18446744073709551616. Proof. reflexivity. Qed.

Ltac pow2 :=
  rewrite ?pow2_8, ?pow2_15, ?pow2_16, ?pow2_31, ?pow2_32, ?pow2_63, ?pow2_64 in *.

(** Arithmetic on words: unfold the conversions and let [lia] see the
    euclidean equations of [mod] and [/] by constants. *)
Ltac words :=
  unfold wrap, swrap, is_u in *;
  change (16 - 1) with 15 in *; change (32 - 1) with 31 in *;
  change (64 - 1) with 63 in *;
  pow2; Z.div_mod_to_equations; lia.

Lemma wrap_range w x : 0 <= w -> 0 <= wrap w x < 2 ^ w.
Proof. intros. apply Z.mod_pos_bound. lia. Qed.

Lemma wrap_small w x : is_u w x -> wrap w x = x.
Proof. apply Z.mod_small. Qed.

Lemma wrap_wrap w x : wrap w (wrap w x) = wrap w x.
Proof. apply Zmod_mod. Qed.

Lemma wrap_add_l w x y : wrap w (wrap w x + y) = wrap w (x + y).
Proof. apply Zplus_mod_idemp_l. Qed.

Lemma wrap_sub_l w x y : wrap w (wrap w x - y) = wrap w (x - y).
Proof. apply Zminus_mod_idemp_l. Qed.

Lemma wrap_sub_r w x y : wrap w (x - wrap w y) = wrap w (x - y).
Proof. apply Zminus_mod_idemp_r. Qed.

(** ** Computations that read untrusted memory

    [Ret a] is a normal return, [Fault] an access outside the buffer, [NoFuel]
    a loop that did not finish within the bound it was given.  A theorem
    [exists a, f b = Ret a] therefore states both memory safety and
    termination of the modelled routine. *)
Inductive mres (A : Type) : Type :=
| Ret (a : A)
| Fault
| NoFuel.
Arguments Ret {A} a.
Arguments Fault {A}.
Arguments NoFuel {A}.

Definition mbnd {A B} (m : mres A) (k : A -> mres B) : mres B :=
  match m with
  | Ret a => k a
  | Fault => Fault
  | NoFuel => NoFuel
  end.

Declare Scope mres_scope.
Delimit Scope mres_scope with mres.
Notation "'let!' x ':=' m 'in' k" := (mbnd m (fun x => k))
  (at level 10, x name, m at level 100, k at level 200) : mres_scope.
Notation "'let!' ' p ':=' m 'in' k" := (mbnd m (fun x => match x with p => k end))
  (at level 10, p strict pattern, m at level 100, k at level 200) : mres_scope.
#[global] Open Scope mres_scope.

(** [returns m] : the computation neither faults nor runs out of fuel. *)
Definition returns {A} (m : mres A) : Prop := exists a, m = Ret a.

Lemma returns_ret {A} (a : A) : returns (Ret a).
Proof. by exists a. Qed.

Lemma returns_bind {A B} (m : mres A) (k : A -> mres B) :
  returns m -> (forall a, m = Ret a -> returns (k a)) -> returns (mbnd m k).
Proof. intros [a ->] H. simpl. by apply H. Qed.

Lemma mbnd_ret_inv {A B} (m : mres A) (k : A -> mres B) b :
  mbnd m k = Ret b -> exists a, m = Ret a /\ k a = Ret b.
Proof. destruct m; simpl; intros; try discriminate. eauto. Qed.

Lemma mbnd_assoc {A B C} (m : mres A) (f : A -> mres B) (g : B -> mres C) :
  mbnd (mbnd m f) g = mbnd m (fun x => mbnd (f x) g).
Proof. by destruct m. Qed.

Create HintDb safe.
#[export] Hint Resolve returns_ret : safe.

(** ** Generic list facts *)

Lemma firstn_skipn_nth {A} (n : nat) (l : list A) (x : A) :
  l !! n = Some x -> l = take n l ++ x :: drop (S n) l.
Proof. intros. by rewrite <- (take_drop_middle l n x) at 1. Qed.

Lemma filter_none {A} (f : A -> bool) (l : list A) :
  (forall x, x ∈ l -> f x = false) -> List.filter f l = [].
Proof.
  induction l as [|x l IH]; intros H; [done|]. simpl. rewrite (H x) by set_solver.
  apply IH. set_solver.
Qed.

Lemma filter_ext_elem {A} (f g : A -> bool) (l : list A) :
  (forall x, x ∈ l -> f x = g x) -> List.filter f l = List.filter g l.
Proof.
  induction l as [|x l IH]; intros H; [done|]. simpl. rewrite (H x), IH by set_solver. done.
Qed.

(** A boolean guard of the code, reflected. *)
Ltac split_if :=
  match goal with
  | |- context [if ?b then _ else _] => destruct b eqn:?
  end.

Ltac bool_hyps :=
  repeat match goal with
  | H : (_ && _) = true |- _ => apply andb_prop in H; destruct H
  | H : (_ || _) = false |- _ => apply orb_false_elim in H; destruct H
  | H : negb _ = true |- _ => apply negb_true_iff in H
  | H : negb _ = false |- _ => apply negb_false_iff in H
  | H : (_ <? _) = true |- _ => apply Z.ltb_lt in H
  | H : (_ <? _) = false |- _ => apply Z.ltb_ge in H
  | H : (_ <=? _) = true |- _ => apply Z.leb_le in H
  | H : (_ <=? _) = false |- _ => apply Z.leb_gt in H
  | H : (_ >? _) = _ |- _ => rewrite Z.gtb_ltb in H
  | H : (_ >=? _) = _ |- _ => rewrite Z.geb_leb in H
  | H : (_ =? _) = true |- _ => apply Z.eqb_eq in H
  | H : (_ =? _) = false |- _ => apply Z.eqb_neq in H
  end.
