(* ===== verification/Bytes.v ===== *)
(** * Byte buffers and big/little-endian integer access

    Models [utils/utils.cpp].  A buffer [const uint8_t* data, size_t len] is
    an [option (list Z)]: [None] is the null pointer, [Some b] a buffer of
    [blen b] bytes.  Reads go through [rd], which returns [Fault] outside the
    buffer, so the safety theorems of the parsers speak about every access. *)
From S2P Require Import Prelude.

Ltac bytes_list :=
  repeat first [apply Forall_nil_2 | apply Forall_cons_2]; auto with safe.

Definition cbuf := option (list Z).

Definition blen (b : list Z) : Z := Z.of_nat (length b).

Definition bytes_ok (b : list Z) : Prop := Forall is_u8 b.

(** [data[i]] *)
Definition rd (b : list Z) (i : Z) : mres Z :=
  if (0 <=? i) && (i <? blen b) then Ret (nth (Z.to_nat i) b 0) else Fault.

(** [data[i] = v] *)
Definition wr (b : list Z) (i v : Z) : mres (list Z) :=
  if (0 <=? i) && (i <? blen b) then Ret (<[Z.to_nat i := v]> b) else Fault.

(** The bytes [data + off, data + off + n). *)
Definition slice (b : list Z) (off n : Z) : list Z :=
  take (Z.to_nat n) (drop (Z.to_nat off) b).

(** The same bytes read by [memcpy], a range constructor or a loop; outside the buffer it is
    a fault. *)
Definition read_bytes (b : list Z) (off n : Z) : mres (list Z) :=
  if (0 <=? off) && (0 <=? n) && (off + n <=? blen b) then Ret (slice b off n) else Fault.

(** ** utils::Utils *)

Definition ReadUint8 (b : list Z) (off : Z) : mres Z := rd b off.

Definition ReadUint16BE (b : list Z) (off : Z) : mres Z :=
  let! b0 := rd b off in
  let! b1 := rd b (off + 1) in
  Ret (u16 (Z.lor (Z.shiftl b0 8) b1)).

Definition ReadUint24BE (b : list Z) (off : Z) : mres Z :=
  let! b0 := rd b off in
  let! b1 := rd b (off + 1) in
  let! b2 := rd b (off + 2) in
  Ret (Z.lor (Z.lor (Z.shiftl b0 16) (Z.shiftl b1 8)) b2).

Definition ReadUint32BE (b : list Z) (off : Z) : mres Z :=
  let! b0 := rd b off in
  let! b1 := rd b (off + 1) in
  let! b2 := rd b (off + 2) in
  let! b3 := rd b (off + 3) in
  Ret (Z.lor (Z.lor (Z.lor (Z.shiftl b0 24) (Z.shiftl b1 16)) (Z.shiftl b2 8)) b3).

Definition ReadUint64BE (b : list Z) (off : Z) : mres Z :=
  let! b0 := rd b off in
  let! b1 := rd b (off + 1) in
  let! b2 := rd b (off + 2) in
  let! b3 := rd b (off + 3) in
  let! b4 := rd b (off + 4) in
  let! b5 := rd b (off + 5) in
  let! b6 := rd b (off + 6) in
  let! b7 := rd b (off + 7) in
  Ret (Z.lor (Z.lor (Z.lor (Z.lor (Z.lor (Z.lor (Z.lor
    (Z.shiftl b0 56) (Z.shiftl b1 48)) (Z.shiftl b2 40)) (Z.shiftl b3 32))
    (Z.shiftl b4 24)) (Z.shiftl b5 16)) (Z.shiftl b6 8)) b7).

Definition ReadInt24BE (b : list Z) (off : Z) : mres Z :=
  let! value := ReadUint24BE b off in
  if negb (Z.land value 0x800000 =? 0) then Ret (value - 0x1000000) else Ret value.

Definition ReadUint16LE (b : list Z) (off : Z) : mres Z :=
  let! b0 := rd b off in
  let! b1 := rd b (off + 1) in
  Ret (u16 (Z.lor (Z.shiftl b1 8) b0)).

Definition ReadUint24LE (b : list Z) (off : Z) : mres Z :=
  let! b0 := rd b off in
  let! b1 := rd b (off + 1) in
  let! b2 := rd b (off + 2) in
  Ret (Z.lor (Z.lor (Z.shiftl b2 16) (Z.shiftl b1 8)) b0).

Definition ReadUint32LE (b : list Z) (off : Z) : mres Z :=
  let! b0 := rd b off in
  let! b1 := rd b (off + 1) in
  let! b2 := rd b (off + 2) in
  let! b3 := rd b (off + 3) in
  Ret (Z.lor (Z.lor (Z.lor (Z.shiftl b3 24) (Z.shiftl b2 16)) (Z.shiftl b1 8)) b0).

Definition ReadUint64LE (b : list Z) (off : Z) : mres Z :=
  let! b0 := rd b off in
  let! b1 := rd b (off + 1) in
  let! b2 := rd b (off + 2) in
  let! b3 := rd b (off + 3) in
  let! b4 := rd b (off + 4) in
  let! b5 := rd b (off + 5) in
  let! b6 := rd b (off + 6) in
  let! b7 := rd b (off + 7) in
  Ret (Z.lor (Z.lor (Z.lor (Z.lor (Z.lor (Z.lor (Z.lor
    (Z.shiftl b7 56) (Z.shiftl b6 48)) (Z.shiftl b5 40)) (Z.shiftl b4 32))
    (Z.shiftl b3 24)) (Z.shiftl b2 16)) (Z.shiftl b1 8)) b0).

(** One byte of [static_cast<uint8_t>((value >> k) & 0xFF)]. *)
Definition byte_of (value k : Z) : Z := u8 (Z.land (Z.shiftr value k) 0xFF).

Definition WriteUint16BE (b : list Z) (off value : Z) : mres (list Z) :=
  let! b := wr b off (byte_of value 8) in
  wr b (off + 1) (byte_of value 0).

Definition WriteUint24BE (b : list Z) (off value : Z) : mres (list Z) :=
  let value := Z.land value 0x00FFFFFF in
  let! b := wr b off (byte_of value 16) in
  let! b := wr b (off + 1) (byte_of value 8) in
  wr b (off + 2) (byte_of value 0).

Definition WriteUint32BE (b : list Z) (off value : Z) : mres (list Z) :=
  let! b := wr b off (byte_of value 24) in
  let! b := wr b (off + 1) (byte_of value 16) in
  let! b := wr b (off + 2) (byte_of value 8) in
  wr b (off + 3) (byte_of value 0).

Definition WriteUint64BE (b : list Z) (off value : Z) : mres (list Z) :=
  let! b := wr b off (byte_of value 56) in
  let! b := wr b (off + 1) (byte_of value 48) in
  let! b := wr b (off + 2) (byte_of value 40) in
  let! b := wr b (off + 3) (byte_of value 32) in
  let! b := wr b (off + 4) (byte_of value 24) in
  let! b := wr b (off + 5) (byte_of value 16) in
  let! b := wr b (off + 6) (byte_of value 8) in
  wr b (off + 7) (byte_of value 0).

Definition WriteUint16LE (b : list Z) (off value : Z) : mres (list Z) :=
  let! b := wr b off (byte_of value 0) in
  wr b (off + 1) (byte_of value 8).

Definition WriteUint24LE (b : list Z) (off value : Z) : mres (list Z) :=
  let value := Z.land value 0x00FFFFFF in
  let! b := wr b off (byte_of value 0) in
  let! b := wr b (off + 1) (byte_of value 8) in
  wr b (off + 2) (byte_of value 16).

Definition WriteUint32LE (b : list Z) (off value : Z) : mres (list Z) :=
  let! b := wr b off (byte_of value 0) in
  let! b := wr b (off + 1) (byte_of value 8) in
  let! b := wr b (off + 2) (byte_of value 16) in
  wr b (off + 3) (byte_of value 24).

Definition WriteUint64LE (b : list Z) (off value : Z) : mres (list Z) :=
  let! b := wr b off (byte_of value 0) in
  let! b := wr b (off + 1) (byte_of value 8) in
  let! b := wr b (off + 2) (byte_of value 16) in
  let! b := wr b (off + 3) (byte_of value 24) in
  let! b := wr b (off + 4) (byte_of value 32) in
  let! b := wr b (off + 5) (byte_of value 40) in
  let! b := wr b (off + 6) (byte_of value 48) in
  wr b (off + 7) (byte_of value 56).

(** ** Bits as arithmetic *)

Lemma lor_shiftl_add x y k :
  0 <= k -> 0 <= y < 2 ^ k -> Z.lor (Z.shiftl x k) y = x * 2 ^ k + y.
Proof.
  intros Hk Hy. pose proof (Z.add_lor_land (Z.shiftl x k) y) as E.
  assert (Z.land (Z.shiftl x k) y = 0) as L.
  { apply Z.bits_inj'. intros i Hi. rewrite Z.land_spec, Z.bits_0.
    destruct (Z.ltb_spec i k).
    - rewrite Z.shiftl_spec_low by lia. reflexivity.
    - assert (Z.testbit y i = false) as ->; [|btauto].
      rewrite <- (Z.mod_small y (2 ^ k)) by done. apply Z.mod_pow2_bits_high. lia. }
  rewrite Z.shiftl_mul_pow2 in * by lia. lia.
Qed.

Lemma land_ones_mod x k : 0 <= k -> Z.land x (2 ^ k - 1) = x mod 2 ^ k.
Proof. intros. rewrite <- Z.land_ones by lia. f_equal. rewrite Z.ones_equiv. lia. Qed.

(** Testing a single flag bit. *)
Lemma land_pow2 x k : 0 <= k -> Z.land x (2 ^ k) = (x / 2 ^ k) mod 2 * 2 ^ k.
Proof.
  intros Hk. rewrite <- Z.testbit_spec' by lia. apply Z.bits_inj'. intros i Hi.
  rewrite Z.land_spec, Z.pow2_bits_eqb by lia. destruct (Z.eqb_spec k i) as [<-|Hne].
  - destruct (Z.testbit x k) eqn:E; simpl Z.b2z.
    + by rewrite Z.mul_1_l, Z.pow2_bits_true by lia.
    + by rewrite Z.mul_0_l, Z.bits_0.
  - rewrite andb_false_r. destruct (Z.testbit x k); simpl Z.b2z.
    + by rewrite Z.mul_1_l, Z.pow2_bits_false by lia.
    + by rewrite Z.mul_0_l, Z.bits_0.
Qed.

Lemma land_ff x : Z.land x 0xFF = x mod 256.
Proof. apply (land_ones_mod x 8). lia. Qed.

Lemma byte_of_spec v k : 0 <= k -> byte_of v k = (v / 2 ^ k) mod 256.
Proof.
  intros. unfold byte_of, wrap. rewrite Z.shiftr_div_pow2, land_ff by lia.
  pow2. apply Zmod_mod.
Qed.

Lemma byte_of_u8 v k : is_u8 (byte_of v k).
Proof. apply wrap_range. lia. Qed.
#[export] Hint Resolve byte_of_u8 : safe.

(** ** Reads inside the buffer *)

(** The byte at index [i], total; meaningful for [0 <= i < blen b]. *)
Definition bget (b : list Z) (i : Z) : Z := nth (Z.to_nat i) b 0.

Lemma blen_nonneg b : 0 <= blen b.
Proof. unfold blen. lia. Qed.

Lemma blen_app a b : blen (a ++ b) = blen a + blen b.
Proof. unfold blen. rewrite length_app. lia. Qed.

Lemma blen_cons x b : blen (x :: b) = 1 + blen b.
Proof. unfold blen. simpl length. lia. Qed.

Lemma rd_ok b i : 0 <= i < blen b -> rd b i = Ret (bget b i).
Proof. intros. unfold rd. by rewrite (proj2 (Z.leb_le 0 i)), (proj2 (Z.ltb_lt i _)) by lia. Qed.

Lemma read_bytes_ok b off n : 0 <= off -> 0 <= n -> off + n <= blen b -> read_bytes b off n = Ret (slice b off n).
Proof. intros. unfold read_bytes. by rewrite !(proj2 (Z.leb_le _ _)) by lia. Qed.

Lemma rd_inv b i v : rd b i = Ret v -> 0 <= i < blen b /\ v = bget b i.
Proof.
  unfold rd. destruct (_ && _) eqn:E; [|discriminate]. intros [= <-]. bool_hyps. done.
Qed.

Lemma rd_returns b i : 0 <= i < blen b -> returns (rd b i).
Proof. intros. rewrite rd_ok by done. auto with safe. Qed.

Lemma bget_u8 b i : bytes_ok b -> is_u8 (bget b i).
Proof.
  intros H. unfold bget. destruct (nth_in_or_default (Z.to_nat i) b 0) as [Hin| ->].
  - unfold bytes_ok in H. rewrite List.Forall_forall in H. by apply H.
  - words.
Qed.

Lemma bget_range b i : bytes_ok b -> 0 <= bget b i < 256.
Proof. intros. by apply bget_u8. Qed.

Lemma bget_app_l a b i : 0 <= i < blen a -> bget (a ++ b) i = bget a i.
Proof. unfold bget, blen. intros. apply app_nth1. lia. Qed.

Lemma bget_app_r a b i : blen a <= i -> bget (a ++ b) i = bget b (i - blen a).
Proof.
  unfold bget, blen. intros. rewrite app_nth2 by lia. f_equal. lia.
Qed.

Lemma ReadUint16BE_ok b off :
  bytes_ok b -> 0 <= off -> off + 2 <= blen b ->
  ReadUint16BE b off = Ret (bget b off * 256 + bget b (off + 1)).
Proof.
  intros Hb H0 H1. unfold ReadUint16BE. rewrite !rd_ok by lia. simpl.
  pose proof (bget_range b off Hb). pose proof (bget_range b (off + 1) Hb).
  rewrite lor_shiftl_add by (pow2; lia). f_equal. words.
Qed.

Lemma ReadUint24BE_ok b off :
  bytes_ok b -> 0 <= off -> off + 3 <= blen b ->
  ReadUint24BE b off = Ret (bget b off * 65536 + bget b (off + 1) * 256 + bget b (off + 2)).
Proof.
  intros Hb H0 H1. unfold ReadUint24BE. rewrite !rd_ok by lia. simpl.
  pose proof (bget_range b off Hb). pose proof (bget_range b (off + 1) Hb).
  pose proof (bget_range b (off + 2) Hb).
  rewrite <- Z.lor_assoc, (lor_shiftl_add (bget b (off + 1))) by (pow2; lia).
  rewrite lor_shiftl_add by (pow2; lia). f_equal. pow2. lia.
Qed.

Lemma ReadUint32BE_ok b off :
  bytes_ok b -> 0 <= off -> off + 4 <= blen b ->
  ReadUint32BE b off =
  Ret (bget b off * 16777216 + bget b (off + 1) * 65536 +
       bget b (off + 2) * 256 + bget b (off + 3)).
Proof.
  intros Hb H0 H1. unfold ReadUint32BE. rewrite !rd_ok by lia. simpl.
  pose proof (bget_range b off Hb). pose proof (bget_range b (off + 1) Hb).
  pose proof (bget_range b (off + 2) Hb). pose proof (bget_range b (off + 3) Hb).
  change (2 ^ 24) with 16777216 in *.
  rewrite <- !Z.lor_assoc.
  rewrite (lor_shiftl_add (bget b (off + 2))) by (pow2; lia).
  rewrite (lor_shiftl_add (bget b (off + 1))) by (pow2; lia).
  rewrite lor_shiftl_add by (change (2 ^ 24) with 16777216; pow2; lia).
  f_equal. change (2 ^ 24) with 16777216. pow2. lia.
Qed.

Lemma ReadUint64BE_ok b off :
  bytes_ok b -> 0 <= off -> off + 8 <= blen b ->
  ReadUint64BE b off =
  Ret ((bget b off * 16777216 + bget b (off + 1) * 65536 +
        bget b (off + 2) * 256 + bget b (off + 3)) * 4294967296 +
       (bget b (off + 4) * 16777216 + bget b (off + 5) * 65536 +
        bget b (off + 6) * 256 + bget b (off + 7))).
Proof.
  intros Hb H0 H1. unfold ReadUint64BE. rewrite !rd_ok by lia. simpl.
  pose proof (fun i => bget_range b i Hb) as R.
  pose proof (R off); pose proof (R (off + 1)); pose proof (R (off + 2));
  pose proof (R (off + 3)); pose proof (R (off + 4)); pose proof (R (off + 5));
  pose proof (R (off + 6)); pose proof (R (off + 7)).
  rewrite <- !Z.lor_assoc.
  rewrite (lor_shiftl_add (bget b (off + 6))) by (pow2; lia).
  rewrite (lor_shiftl_add (bget b (off + 5))) by (pow2; lia).
  rewrite (lor_shiftl_add (bget b (off + 4)))
    by (change (2 ^ 24) with 16777216; pow2; lia).
  rewrite (lor_shiftl_add (bget b (off + 3)))
    by (change (2 ^ 24) with 16777216; pow2; lia).
  rewrite (lor_shiftl_add (bget b (off + 2)))
    by (change (2 ^ 24) with 16777216; change (2 ^ 40) with 1099511627776; pow2; lia).
  rewrite (lor_shiftl_add (bget b (off + 1)))
    by (change (2 ^ 24) with 16777216; change (2 ^ 40) with 1099511627776;
        change (2 ^ 48) with 281474976710656; pow2; lia).
  rewrite lor_shiftl_add
    by (change (2 ^ 24) with 16777216; change (2 ^ 40) with 1099511627776;
        change (2 ^ 48) with 281474976710656; change (2 ^ 56) with 72057594037927936; pow2; lia).
  f_equal. change (2 ^ 24) with 16777216; change (2 ^ 40) with 1099511627776;
        change (2 ^ 48) with 281474976710656; change (2 ^ 56) with 72057594037927936; pow2; lia.
Qed.

(** ** Writes *)

Definition be16 (v : Z) : list Z := [byte_of v 8; byte_of v 0].
Definition be24 (v : Z) : list Z := [byte_of v 16; byte_of v 8; byte_of v 0].
Definition be32 (v : Z) : list Z := [byte_of v 24; byte_of v 16; byte_of v 8; byte_of v 0].
Definition be64 (v : Z) : list Z := be32 (v / 2 ^ 32) ++ be32 v.

Lemma wr_ok b i v : 0 <= i < blen b -> wr b i v = Ret (<[Z.to_nat i := v]> b).
Proof. intros. unfold wr. by rewrite (proj2 (Z.leb_le 0 i)), (proj2 (Z.ltb_lt i _)) by lia. Qed.

Lemma wr_app a x c i v : i = blen a -> wr (a ++ x :: c) i v = Ret (a ++ v :: c).
Proof.
  intros ->. rewrite wr_ok by (rewrite blen_app, blen_cons; pose proof (blen_nonneg a);
    pose proof (blen_nonneg c); lia).
  unfold blen. rewrite Nat2Z.id. f_equal.
  replace (length a) with (length a + 0)%nat by lia. by rewrite insert_app_r.
Qed.

Lemma wr_app_in a b i v :
  blen a <= i < blen a + blen b ->
  exists b', wr (a ++ b) i v = Ret (a ++ b') /\ wr b (i - blen a) v = Ret b'.
Proof.
  intros H. pose proof (blen_nonneg a).
  rewrite (wr_ok (a ++ b)) by (rewrite blen_app; lia). rewrite (wr_ok b) by lia.
  eexists; split; [|reflexivity]. f_equal.
  replace (Z.to_nat i) with (length a + Z.to_nat (i - blen a))%nat by (unfold blen in *; lia).
  apply insert_app_r.
Qed.

Lemma blen_snoc a x : blen (a ++ [x]) = blen a + 1.
Proof. rewrite blen_app. unfold blen. simpl. lia. Qed.

(** [a ++ x :: l] seen as a longer prefix, to reach the next byte. *)
Lemma shift1 {A} (a : list A) x l : a ++ x :: l = (a ++ [x]) ++ l.
Proof. by rewrite <- app_assoc. Qed.

Ltac wr_next := rewrite wr_app by (rewrite ?blen_snoc; lia); simpl; try rewrite shift1.

Lemma WriteUint16BE_app a x0 x1 c off v :
  off = blen a -> WriteUint16BE (a ++ x0 :: x1 :: c) off v = Ret (a ++ be16 v ++ c).
Proof.
  intros ->. unfold WriteUint16BE. wr_next. rewrite wr_app by (rewrite ?blen_snoc; lia).
  unfold be16. by rewrite <- !app_assoc.
Qed.

Lemma WriteUint24BE_app a x0 x1 x2 c off v :
  off = blen a -> is_u 24 v ->
  WriteUint24BE (a ++ x0 :: x1 :: x2 :: c) off v = Ret (a ++ be24 v ++ c).
Proof.
  intros -> Hv. unfold WriteUint24BE.
  replace (Z.land v 16777215) with v
    by (symmetry; change 16777215 with (2 ^ 24 - 1); rewrite land_ones_mod by lia;
        by apply wrap_small).
  wr_next. wr_next. rewrite wr_app by (rewrite ?blen_snoc; lia).
  unfold be24. by rewrite <- !app_assoc.
Qed.

Lemma WriteUint32BE_app a x0 x1 x2 x3 c off v :
  off = blen a -> WriteUint32BE (a ++ x0 :: x1 :: x2 :: x3 :: c) off v = Ret (a ++ be32 v ++ c).
Proof.
  intros ->. unfold WriteUint32BE. wr_next. wr_next. wr_next.
  rewrite wr_app by (rewrite ?blen_snoc; lia).
  unfold be32. by rewrite <- !app_assoc.
Qed.

(** ** Reading back *)

Lemma rd_app a x c i : i = blen a -> rd (a ++ x :: c) i = Ret x.
Proof.
  intros ->. rewrite rd_ok by (rewrite blen_app, blen_cons; pose proof (blen_nonneg a);
    pose proof (blen_nonneg c); lia).
  rewrite bget_app_r by lia. by rewrite Z.sub_diag.
Qed.

Ltac rd_next := rewrite rd_app by (rewrite ?blen_snoc; lia); simpl; try rewrite shift1.

(** Four bytes of a 32-bit value recombine to it. *)
Lemma be32_value v : is_u32 v ->
  byte_of v 24 * 16777216 + byte_of v 16 * 65536 + byte_of v 8 * 256 + byte_of v 0 = v.
Proof.
  intros Hv. rewrite !byte_of_spec by lia. change (2 ^ 24) with 16777216.
  change (2 ^ 0) with 1. words.
Qed.

Lemma be16_value v : is_u16 v -> byte_of v 8 * 256 + byte_of v 0 = v.
Proof. intros Hv. rewrite !byte_of_spec by lia. change (2 ^ 0) with 1. words. Qed.

Lemma be24_value v : is_u 24 v ->
  byte_of v 16 * 65536 + byte_of v 8 * 256 + byte_of v 0 = v.
Proof.
  intros Hv. rewrite !byte_of_spec by lia. change (2 ^ 0) with 1.
  unfold is_u in Hv. change (2 ^ 24) with 16777216 in Hv. words.
Qed.

Lemma be64_value v : is_u64 v ->
  (byte_of v 56 * 16777216 + byte_of v 48 * 65536 + byte_of v 40 * 256 + byte_of v 32) *
    4294967296 +
  (byte_of v 24 * 16777216 + byte_of v 16 * 65536 + byte_of v 8 * 256 + byte_of v 0) = v.
Proof.
  intros Hv. rewrite !byte_of_spec by lia.
  assert (forall m, 0 < m -> v / (m * 256) = v / m / 256) as D.
  { intros. by rewrite Z.div_div by lia. }
  change (2 ^ 56) with (2 ^ 48 * 256). change (2 ^ 48) with (2 ^ 40 * 256).
  change (2 ^ 40) with (2 ^ 32 * 256). change (2 ^ 32) with (2 ^ 24 * 256).
  change (2 ^ 24) with (2 ^ 16 * 256). change (2 ^ 16) with (2 ^ 8 * 256).
  rewrite !D by lia. pow2.
  change (2 ^ 0) with 1. rewrite Z.div_1_r. words.
Qed.

Lemma ReadUint16BE_app a v c off :
  off = blen a -> is_u16 v -> ReadUint16BE (a ++ be16 v ++ c) off = Ret v.
Proof.
  intros -> Hv. unfold ReadUint16BE, be16. simpl app. rd_next. rd_next.
  rewrite lor_shiftl_add by (pow2; try apply byte_of_u8; lia).
  pow2. rewrite be16_value by done. by rewrite wrap_small.
Qed.

Lemma ReadUint24BE_app a v c off :
  off = blen a -> is_u 24 v -> ReadUint24BE (a ++ be24 v ++ c) off = Ret v.
Proof.
  intros -> Hv. unfold ReadUint24BE, be24. simpl app. rd_next. rd_next. rd_next.
  pose proof (byte_of_u8 v 0). pose proof (byte_of_u8 v 8). pose proof (byte_of_u8 v 16).
  unfold is_u in H, H0, H1. pow2.
  rewrite <- !Z.lor_assoc, (lor_shiftl_add (byte_of v 8)), lor_shiftl_add by (pow2; lia).
  f_equal. rewrite <- (be24_value v) at 4 by done. pow2. lia.
Qed.

Lemma ReadUint32BE_app a v c off :
  off = blen a -> is_u32 v -> ReadUint32BE (a ++ be32 v ++ c) off = Ret v.
Proof.
  intros -> Hv. unfold ReadUint32BE, be32. simpl app. rd_next. rd_next. rd_next. rd_next.
  pose proof (byte_of_u8 v 0). pose proof (byte_of_u8 v 8). pose proof (byte_of_u8 v 16).
  pose proof (byte_of_u8 v 24).
  unfold is_u in H, H0, H1, H2. pow2.
  rewrite <- !Z.lor_assoc, (lor_shiftl_add (byte_of v 8)), (lor_shiftl_add (byte_of v 16)),
    lor_shiftl_add by (change (2 ^ 24) with 16777216; pow2; lia).
  f_equal. rewrite <- (be32_value v) at 5 by done. change (2 ^ 24) with 16777216. pow2. lia.
Qed.

(** The same facts with the split of the buffer as an equation. *)
Lemma wr_at a x c b i v : b = a ++ x :: c -> i = blen a -> wr b i v = Ret (a ++ v :: c).
Proof. intros ->. apply wr_app. Qed.

Lemma rd_at a x c b i : b = a ++ x :: c -> i = blen a -> rd b i = Ret x.
Proof. intros ->. apply rd_app. Qed.

Lemma WriteUint16BE_at a x0 x1 c b off v :
  b = a ++ x0 :: x1 :: c -> off = blen a -> WriteUint16BE b off v = Ret (a ++ be16 v ++ c).
Proof. intros ->. apply WriteUint16BE_app. Qed.

Lemma WriteUint32BE_at a x0 x1 x2 x3 c b off v :
  b = a ++ x0 :: x1 :: x2 :: x3 :: c -> off = blen a -> WriteUint32BE b off v = Ret (a ++ be32 v ++ c).
Proof. intros ->. apply WriteUint32BE_app. Qed.

Lemma ReadUint16BE_at a v c b off :
  b = a ++ be16 v ++ c -> off = blen a -> is_u16 v -> ReadUint16BE b off = Ret v.
Proof. intros ->. apply ReadUint16BE_app. Qed.

Lemma ReadUint32BE_at a v c b off :
  b = a ++ be32 v ++ c -> off = blen a -> is_u32 v -> ReadUint32BE b off = Ret v.
Proof. intros ->. apply ReadUint32BE_app. Qed.

(** ** The fixed-width codecs as an interface

    [IntCodec n get put]: storing an [n]-byte value and loading it back gives
    the value, every other byte is untouched, and nothing is accessed outside
    the [n] bytes. *)

Lemma wr_spec b i v :
  0 <= i < blen b ->
  exists b', wr b i v = Ret b' /\ blen b' = blen b /\
    (forall j, 0 <= j -> bget b' j = if j =? i then v else bget b j) /\
    (bytes_ok b -> is_u8 v -> bytes_ok b').
Proof.
  intros H. rewrite wr_ok by done. eexists; split; [done|].
  unfold blen in *. rewrite length_insert. split; [done|]. split.
  - intros j Hj. unfold bget. rewrite !nth_lookup, list_lookup_insert.
    destruct (Z.eqb_spec j i) as [->|Hn].
    + rewrite decide_True by lia. done.
    + rewrite decide_False by lia. done.
  - intros Hb Hv. by apply Forall_insert.
Qed.

Class IntCodec (n : Z) (get : list Z -> Z -> mres Z) (put : list Z -> Z -> Z -> mres (list Z)) := {
  codec_roundtrip b off v :
    bytes_ok b -> 0 <= off -> off + n <= blen b -> is_u (8 * n) v ->
    exists b', put b off v = Ret b' /\ get b' off = Ret v /\ blen b' = blen b /\ bytes_ok b' /\
      forall i, 0 <= i < off \/ off + n <= i -> bget b' i = bget b i
}.

Ltac wr_step :=
  match goal with
  | |- context [wr ?b ?i ?v] =>
    let b' := fresh "b" in let L := fresh "L" in let G := fresh "G" in let K := fresh "K" in
    destruct (wr_spec b i v) as (b' & -> & L & G & K);
      [lia | specialize (K ltac:(assumption) (byte_of_u8 _ _)); simpl]
  end.

(** Look a byte up through a chain of single-byte stores. *)
Ltac wr_lookup :=
  repeat match goal with
  | G : (forall j, 0 <= j -> bget ?b j = _) |- context [bget ?b ?i] =>
    rewrite (G i) by lia;
    first [rewrite (proj2 (Z.eqb_eq _ _)) by lia | rewrite (proj2 (Z.eqb_neq _ _)) by lia]
  end.

Ltac codec get_ok value :=
  repeat wr_step; eexists; split; [reflexivity|]; split;
  [rewrite get_ok by (assumption || lia); wr_lookup; f_equal; by apply value
  | split; [lia|split; [assumption|intros; wr_lookup; reflexivity]]].

#[export] Instance codec16be : IntCodec 2 ReadUint16BE WriteUint16BE.
Proof. constructor; intros b off v Hb H0 H1 Hv. unfold WriteUint16BE. codec ReadUint16BE_ok be16_value. Qed.

#[export] Instance codec24be : IntCodec 3 ReadUint24BE WriteUint24BE.
Proof.
  constructor; intros b off v Hb H0 H1 Hv. unfold WriteUint24BE.
  replace (Z.land v 16777215) with v
    by (symmetry; change 16777215 with (2 ^ 24 - 1); rewrite land_ones_mod by lia;
        by apply wrap_small).
  codec ReadUint24BE_ok be24_value.
Qed.

#[export] Instance codec32be : IntCodec 4 ReadUint32BE WriteUint32BE.
Proof. constructor; intros b off v Hb H0 H1 Hv. unfold WriteUint32BE. codec ReadUint32BE_ok be32_value. Qed.

#[export] Instance codec64be : IntCodec 8 ReadUint64BE WriteUint64BE.
Proof. constructor; intros b off v Hb H0 H1 Hv. unfold WriteUint64BE. codec ReadUint64BE_ok be64_value. Qed.

(** The little-endian readers are the big-endian ones on the mirrored bytes. *)
Lemma ReadUint16LE_ok b off :
  bytes_ok b -> 0 <= off -> off + 2 <= blen b ->
  ReadUint16LE b off = Ret (bget b (off + 1) * 256 + bget b off).
Proof.
  intros Hb H0 H1. unfold ReadUint16LE. rewrite !rd_ok by lia. simpl.
  pose proof (bget_range b off Hb). pose proof (bget_range b (off + 1) Hb).
  rewrite lor_shiftl_add by (pow2; lia). f_equal. words.
Qed.

Lemma ReadUint24LE_ok b off :
  bytes_ok b -> 0 <= off -> off + 3 <= blen b ->
  ReadUint24LE b off = Ret (bget b (off + 2) * 65536 + bget b (off + 1) * 256 + bget b off).
Proof.
  intros Hb H0 H1. pose proof (ReadUint24BE_ok
    [bget b (off + 2); bget b (off + 1); bget b off] 0) as E.
  unfold ReadUint24LE. rewrite !rd_ok by lia. simpl. apply E; [|lia|compute; congruence].
  bytes_list; by apply bget_u8.
Qed.

Lemma ReadUint32LE_ok b off :
  bytes_ok b -> 0 <= off -> off + 4 <= blen b ->
  ReadUint32LE b off =
  Ret (bget b (off + 3) * 16777216 + bget b (off + 2) * 65536 +
       bget b (off + 1) * 256 + bget b off).
Proof.
  intros Hb H0 H1. pose proof (ReadUint32BE_ok
    [bget b (off + 3); bget b (off + 2); bget b (off + 1); bget b off] 0) as E.
  unfold ReadUint32LE. rewrite !rd_ok by lia. simpl. apply E; [|lia|compute; congruence].
  bytes_list; by apply bget_u8.
Qed.

Lemma ReadUint64LE_ok b off :
  bytes_ok b -> 0 <= off -> off + 8 <= blen b ->
  ReadUint64LE b off =
  Ret ((bget b (off + 7) * 16777216 + bget b (off + 6) * 65536 +
        bget b (off + 5) * 256 + bget b (off + 4)) * 4294967296 +
       (bget b (off + 3) * 16777216 + bget b (off + 2) * 65536 +
        bget b (off + 1) * 256 + bget b off)).
Proof.
  intros Hb H0 H1. pose proof (ReadUint64BE_ok
    [bget b (off + 7); bget b (off + 6); bget b (off + 5); bget b (off + 4);
     bget b (off + 3); bget b (off + 2); bget b (off + 1); bget b off] 0) as E.
  unfold ReadUint64LE. rewrite !rd_ok by lia. simpl. apply E; [|lia|compute; congruence].
  bytes_list; by apply bget_u8.
Qed.

#[export] Instance codec16le : IntCodec 2 ReadUint16LE WriteUint16LE.
Proof. constructor; intros b off v Hb H0 H1 Hv. unfold WriteUint16LE. codec ReadUint16LE_ok be16_value. Qed.

#[export] Instance codec24le : IntCodec 3 ReadUint24LE WriteUint24LE.
Proof.
  constructor; intros b off v Hb H0 H1 Hv. unfold WriteUint24LE.
  replace (Z.land v 16777215) with v
    by (symmetry; change 16777215 with (2 ^ 24 - 1); rewrite land_ones_mod by lia;
        by apply wrap_small).
  codec ReadUint24LE_ok be24_value.
Qed.

#[export] Instance codec32le : IntCodec 4 ReadUint32LE WriteUint32LE.
Proof. constructor; intros b off v Hb H0 H1 Hv. unfold WriteUint32LE. codec ReadUint32LE_ok be32_value. Qed.

#[export] Instance codec64le : IntCodec 8 ReadUint64LE WriteUint64LE.
Proof. constructor; intros b off v Hb H0 H1 Hv. unfold WriteUint64LE. codec ReadUint64LE_ok be64_value. Qed.

(** The 24-bit signed reader sign-extends: it is the two's-complement value. *)
Lemma ReadInt24BE_ok b off :
  bytes_ok b -> 0 <= off -> off + 3 <= blen b ->
  ReadInt24BE b off =
  Ret (swrap 24 (bget b off * 65536 + bget b (off + 1) * 256 + bget b (off + 2))).
Proof.
  intros Hb H0 H1. unfold ReadInt24BE. rewrite ReadUint24BE_ok by done. simpl.
  pose proof (bget_range b off Hb). pose proof (bget_range b (off + 1) Hb).
  pose proof (bget_range b (off + 2) Hb).
  set (x := bget b off * 65536 + bget b (off + 1) * 256 + bget b (off + 2)) in *.
  change 8388608 with (2 ^ 23). rewrite land_pow2 by lia. change (2 ^ 23) with 8388608.
  unfold swrap. change (2 ^ 24) with 16777216. change (2 ^ (24 - 1)) with 8388608.
  destruct (Z.ltb_spec (x mod 16777216) 8388608);
    destruct (Z.eqb_spec ((x / 8388608) mod 2 * 8388608) 0); simpl; f_equal; words.
Qed.

(** ** Flags: [x & mask] used as a condition *)

Definition flag (x mask : Z) : bool := negb (Z.land x mask =? 0).

Lemma flag_spec x k : 0 <= k -> flag x (2 ^ k) = ((x / 2 ^ k) mod 2 =? 1).
Proof.
  intros. unfold flag. rewrite land_pow2 by done.
  pose proof (Z.mod_pos_bound (x / 2 ^ k) 2 ltac:(lia)).
  assert (0 < 2 ^ k) by (apply Z.pow_pos_nonneg; lia).
  destruct (Z.eqb_spec ((x / 2 ^ k) mod 2) 1) as [->|].
  - rewrite Z.mul_1_l. destruct (Z.eqb_spec (2 ^ k) 0); [lia|done].
  - replace ((x / 2 ^ k) mod 2) with 0 by lia. done.
Qed.

Lemma land_15 x : Z.land x 15 = x mod 16.
Proof. apply (land_ones_mod x 4). lia. Qed.

Lemma land_7f x : Z.land x 0x7F = x mod 128.
Proof. apply (land_ones_mod x 7). lia. Qed.

Lemma land_80 x : is_u8 x -> Z.land x 0x80 = x / 128 * 128.
Proof.
  intros H. change 0x80 with (2 ^ 7). rewrite land_pow2 by lia. change (2 ^ 7) with 128. words.
Qed.

Lemma shiftr_div x k : 0 <= k -> Z.shiftr x k = x / 2 ^ k.
Proof. apply Z.shiftr_div_pow2. Qed.

(** [x & ~mask] for a single-bit mask. *)
Lemma ldiff_pow2 x k :
  0 <= k -> Z.land x (Z.lnot (2 ^ k)) = x - (x / 2 ^ k) mod 2 * 2 ^ k.
Proof.
  intros. rewrite <- land_pow2 by done. rewrite <- Z.ldiff_land.
  pose proof (Z.add_lor_land (Z.ldiff x (2 ^ k)) (Z.land x (2 ^ k))) as E.
  assert (Z.lor (Z.ldiff x (2 ^ k)) (Z.land x (2 ^ k)) = x) as E1.
  { apply Z.bits_inj'. intros. rewrite Z.lor_spec, Z.ldiff_spec, Z.land_spec. btauto. }
  assert (Z.land (Z.ldiff x (2 ^ k)) (Z.land x (2 ^ k)) = 0) as E2.
  { apply Z.bits_inj'. intros. rewrite !Z.land_spec, Z.ldiff_spec, Z.bits_0. btauto. }
  lia.
Qed.

(** Integer access.  For each of the eight fixed-width accessors of
    [utils::Utils], storing a value of that width and loading it back at the
    same offset gives the value, leaves every other byte of the buffer
    untouched and stays inside the buffer. *)
Theorem integer_codecs_roundtrip :
  IntCodec 2 ReadUint16BE WriteUint16BE /\ IntCodec 3 ReadUint24BE WriteUint24BE /\
  IntCodec 4 ReadUint32BE WriteUint32BE /\ IntCodec 8 ReadUint64BE WriteUint64BE /\
  IntCodec 2 ReadUint16LE WriteUint16LE /\ IntCodec 3 ReadUint24LE WriteUint24LE /\
  IntCodec 4 ReadUint32LE WriteUint32LE /\ IntCodec 8 ReadUint64LE WriteUint64LE.
Proof. repeat split; apply codec_roundtrip. Qed.
