(* ===== verification/RtpWire.v ===== *)
(** * RTP wire format

    Models the parsers and rewriters of plaintext RTP packets:
    [RtpHeader::InputFromBuffer] (Rtsp/Rtp.cpp), [RtpPayloadBounds],
    [EncapsulateRtx], [DecapsulateRtx] (Rtsp/Rtp/RtpRtx.h),
    [ReadRtpHeaderExtensions] (Rtsp/Rtp/RtpHeaderExtensions.h),
    [RtpTransportCcExtension::Read] (Rtsp/RtpTransportCcExtension.cpp) and the
    packet layout checks of [RtpVideoTracker::inputRtp] and
    [RtpAudioTracker::inputRtp] (Rtsp/RtpReceiver.cpp). *)
From S2P Require Import Prelude Bytes.

(** ** class RtpHeader *)
Record RtpHeader := mkRtpHeader {
  _version : Z;
  _padding : bool;
  _extension : bool;
  _csrc : Z;
  _marker : bool;
  _payload_type : Z;
  _seq : Z;
  _timestamp : Z;
  _ssrc : Z
}.

Definition kSize : Z := 12.

Definition RtpHeader_init : RtpHeader := mkRtpHeader 2 false false 0 false 0 0 0 0.

Definition InputFromBuffer (self : RtpHeader) (buf : cbuf) : mres (bool * RtpHeader) :=
  match buf with
  | None => Ret (false, self)
  | Some buf =>
    if blen buf <? kSize then Ret (false, self) else
    let! vpxcc := rd buf 0 in
    let! mpt := rd buf 1 in
    let! b2 := rd buf 2 in
    let! b3 := rd buf 3 in
    let! b4 := rd buf 4 in
    let! b5 := rd buf 5 in
    let! b6 := rd buf 6 in
    let! b7 := rd buf 7 in
    let! b8 := rd buf 8 in
    let! b9 := rd buf 9 in
    let! b10 := rd buf 10 in
    let! b11 := rd buf 11 in
    Ret (true, mkRtpHeader
      (Z.land (Z.shiftr vpxcc 6) 0x03)
      (negb (Z.land (Z.shiftr vpxcc 5) 0x01 =? 0))
      (negb (Z.land (Z.shiftr vpxcc 4) 0x01 =? 0))
      (Z.land vpxcc 0x0F)
      (negb (Z.land (Z.shiftr mpt 7) 0x01 =? 0))
      (Z.land mpt 0x7F)
      (Z.lor (Z.shiftl b2 8) b3)
      (Z.lor (Z.lor (Z.lor (Z.shiftl b4 24) (Z.shiftl b5 16)) (Z.shiftl b6 8)) b7)
      (Z.lor (Z.lor (Z.lor (Z.shiftl b8 24) (Z.shiftl b9 16)) (Z.shiftl b10 8)) b11))
  end.

Definition getHeaderSize (h : RtpHeader) : Z := kSize + _csrc h * 4.

(** ** RtpRtx.h *)

(** [Some (begin, end)] is [true] with the two out-parameters set. *)
Definition RtpPayloadBounds (data : cbuf) : mres (option (Z * Z)) :=
  match data with
  | None => Ret None
  | Some data =>
    let size := blen data in
    if size <? 12 then Ret None else
    let! b0 := rd data 0 in
    if negb (Z.shiftr b0 6 =? 2) then Ret None else
    let begin := 12 + 4 * Z.land b0 15 in
    if begin >? size then Ret None else
    let! begin' :=
      (if flag b0 0x10 then
         if size - begin <? 4 then Ret None else
         let! h := rd data (begin + 2) in
         let! l := rd data (begin + 3) in
         let begin := begin + (4 + 4 * Z.lor (Z.shiftl h 8) l) in
         if begin >? size then Ret None else Ret (Some begin)
       else Ret (Some begin)) in
    match begin' with
    | None => Ret None
    | Some begin =>
      if flag b0 0x20 then
        let! padding := rd data (size - 1) in
        if (padding =? 0) || (padding >? size - begin) then Ret None
        else Ret (Some (begin, size - padding))
      else Ret (Some (begin, size))
    end
  end.

(** [packet[8 + i] = uint8_t(ssrc >> (24 - 8 * i))] for [i] in 0..3. *)
Definition write_ssrc (packet : list Z) (ssrc : Z) : mres (list Z) :=
  let! p := wr packet 8 (u8 (Z.shiftr ssrc 24)) in
  let! p := wr p 9 (u8 (Z.shiftr ssrc 16)) in
  let! p := wr p 10 (u8 (Z.shiftr ssrc 8)) in
  wr p 11 (u8 (Z.shiftr ssrc 0)).

(** [Some packet'] is [true] with the vector updated in place. *)
Definition EncapsulateRtx (packet : list Z) (pt ssrc sequence : Z) : mres (option (list Z)) :=
  if (pt >? 127) || (ssrc =? 0) then Ret None else
  let! bounds := RtpPayloadBounds (Some packet) in
  match bounds with
  | None => Ret None
  | Some (begin, end_) =>
    if begin =? end_ then Ret None else
    let! osn0 := rd packet 2 in
    let! osn1 := rd packet 3 in
    let packet := take (Z.to_nat end_) packet in
    let packet := take (Z.to_nat begin) packet ++ [osn0; osn1] ++ drop (Z.to_nat begin) packet in
    let! b0 := rd packet 0 in
    let! p := wr packet 0 (u8 (Z.land b0 (Z.lnot 0x20))) in
    let! b1 := rd p 1 in
    let! p := wr p 1 (u8 (Z.lor (Z.land b1 0x80) pt)) in
    let! p := wr p 2 (u8 (Z.shiftr sequence 8)) in
    let! p := wr p 3 (u8 sequence) in
    let! p := write_ssrc p ssrc in
    Ret (Some p)
  end.

Definition DecapsulateRtx (packet : list Z) (primary_pt primary_ssrc : Z) : mres (option (list Z)) :=
  if (primary_pt >? 127) || (primary_ssrc =? 0) then Ret None else
  let! bounds := RtpPayloadBounds (Some packet) in
  match bounds with
  | None => Ret None
  | Some (begin, end_) =>
    if end_ - begin <=? 2 then Ret None else
    let! high := rd packet begin in
    let! low := rd packet (begin + 1) in
    let packet := take (Z.to_nat end_) packet in
    let packet := take (Z.to_nat begin) packet ++ drop (Z.to_nat (begin + 2)) packet in
    let! b0 := rd packet 0 in
    let! p := wr packet 0 (u8 (Z.land b0 (Z.lnot 0x20))) in
    let! b1 := rd p 1 in
    let! p := wr p 1 (u8 (Z.lor (Z.land b1 0x80) primary_pt)) in
    let! p := wr p 2 high in
    let! p := wr p 3 low in
    let! p := write_ssrc p primary_ssrc in
    Ret (Some p)
  end.

(** ** RtpHeaderExtensions.h *)

(** The [while (offset < end)] loop over the extension elements; [values] is
    the map filled so far.  The result is [(false, values)] for [return false]
    and [(true, values)] when the loop ends.  Every iteration consumes a byte,
    so [end - offset] iterations are enough. *)
Fixpoint ext_elements (fuel : nat) (packet : list Z) (profile end_ offset : Z)
    (values : gmap Z (list Z)) : mres (bool * gmap Z (list Z)) :=
  if negb (offset <? end_) then Ret (true, values) else
  match fuel with
  | O => NoFuel
  | S fuel =>
    let! id := rd packet offset in
    let offset := offset + 1 in
    if id =? 0 then ext_elements fuel packet profile end_ offset values else
    if profile =? 0xBEDE then
      let length := Z.land id 15 + 1 in
      let id := Z.shiftr id 4 in
      if id =? 15 then Ret (true, values) else
      if (offset + length >? end_) || bool_decide (is_Some (values !! id)) then Ret (false, values) else
      let! value := read_bytes packet offset length in
      ext_elements fuel packet profile end_ (offset + length) (<[id := value]> values)
    else
      if offset =? end_ then Ret (false, values) else
      let! length := rd packet offset in
      let offset := offset + 1 in
      if (offset + length >? end_) || bool_decide (is_Some (values !! id)) then Ret (false, values) else
      let! value := read_bytes packet offset length in
      ext_elements fuel packet profile end_ (offset + length) (<[id := value]> values)
  end.

Definition ReadRtpHeaderExtensions (packet : cbuf) (values : gmap Z (list Z))
    : mres (bool * gmap Z (list Z)) :=
  match packet with
  | None => Ret (false, values)
  | Some packet =>
    let size := blen packet in
    if size <? 12 then Ret (false, values) else
    let! b0 := rd packet 0 in
    if negb (Z.shiftr b0 6 =? 2) then Ret (false, values) else
    let offset := 12 + 4 * Z.land b0 15 in
    if offset >? size then Ret (false, values) else
    let! r :=
      (if flag b0 0x10 then
         if offset + 4 >? size then Ret (None, values) else
         let! p0 := rd packet offset in
         let! p1 := rd packet (offset + 1) in
         let! l0 := rd packet (offset + 2) in
         let! l1 := rd packet (offset + 3) in
         let profile := Z.lor (Z.shiftl p0 8) p1 in
         let end_ := offset + 4 + 4 * Z.lor (Z.shiftl l0 8) l1 in
         let offset := offset + 4 in
         if end_ >? size then Ret (None, values) else
         if (profile =? 0xBEDE) || (Z.land profile 0xFFF0 =? 0x1000) then
           let! ok := ext_elements (Z.to_nat (end_ - offset)) packet profile end_ offset values in
           Ret (if ok.1 then Some end_ else None, ok.2)
         else Ret (Some end_, values)
       else Ret (Some offset, values)) in
    match r with
    | (None, values) => Ret (false, values)
    | (Some offset, values) =>
      if flag b0 0x20 then
        let! padding := rd packet (size - 1) in
        if (padding =? 0) || (padding >? size - offset) then Ret (false, values)
        else Ret (true, values)
      else Ret (true, values)
    end
  end.

(** ** RtpTransportCcExtension.cpp *)

Fixpoint tcc_elements (fuel : nat) (packet : list Z) (extension_id end_ offset : Z)
    : mres (option Z) :=
  if negb (offset <? end_) then Ret None else
  match fuel with
  | O => NoFuel
  | S fuel =>
    let! header := rd packet offset in
    if header =? 0 then tcc_elements fuel packet extension_id end_ (offset + 1) else
    let id := Z.shiftr header 4 in
    if id =? 15 then Ret None else
    let value_size := Z.land header 0x0F + 1 in
    if offset + 1 + value_size >? end_ then Ret None else
    if id =? extension_id then
      if negb (value_size =? 2) then Ret None else
      let! h := rd packet (offset + 1) in
      let! l := rd packet (offset + 2) in
      Ret (Some (Z.lor (u16 (Z.shiftl h 8)) l))
    else tcc_elements fuel packet extension_id end_ (offset + (1 + value_size))
  end.

(** [RtpTransportCcExtension::Read]; [Some seq] is [true] with
    [*transport_sequence = seq].  The pointer to the result is never null in
    the callers. *)
Definition TransportCcRead (packet : cbuf) (extension_id : Z) : mres (option Z) :=
  match packet with
  | None => Ret None
  | Some packet =>
    let size := blen packet in
    if (size <? 12) || (extension_id =? 0) || (extension_id >? 14) then Ret None else
    let! b0 := rd packet 0 in
    if negb (Z.shiftr b0 6 =? 2) || (Z.land b0 0x10 =? 0) then Ret None else
    let base_header_size := 12 + Z.land b0 0x0F * 4 in
    if size <? base_header_size + 4 then Ret None else
    let! p0 := rd packet base_header_size in
    let! p1 := rd packet (base_header_size + 1) in
    if negb (Z.lor (u16 (Z.shiftl p0 8)) p1 =? 0xBEDE) then Ret None else
    let! w0 := rd packet (base_header_size + 2) in
    let! w1 := rd packet (base_header_size + 3) in
    let words := Z.lor (u16 (Z.shiftl w0 8)) w1 in
    let begin := base_header_size + 4 in
    let end_ := begin + words * 4 in
    if size <? end_ then Ret None else
    tcc_elements (Z.to_nat (end_ - begin)) packet extension_id end_ begin
  end.

(** ** Packet layout in RtpReceiver.cpp

    The part of [RtpVideoTracker::inputRtp] and [RtpAudioTracker::inputRtp]
    up to [acquirePacket]: header, ownership check, header length and payload
    length.  [info_payload_type = 0xFF] and [info_ssrc = 0] disable the
    respective ownership check. *)
Definition inputRtp_layout (audio : bool) (info_payload_type info_ssrc : Z) (ptr : cbuf)
    : mres (option (RtpHeader * Z * Z)) :=
  match ptr with
  | None => Ret None
  | Some b =>
    let len := blen b in
    if len <? kSize then Ret None else
    let! '(ok, hdr) := InputFromBuffer RtpHeader_init ptr in
    if negb ok then Ret None else
    if negb (_version hdr =? 2) then Ret None else
    if (negb (info_payload_type =? 0xFF) && negb (_payload_type hdr =? info_payload_type)) ||
       (negb (info_ssrc =? 0) && negb (_ssrc hdr =? info_ssrc)) then Ret None else
    let headerLen := getHeaderSize hdr in
    if len <? headerLen then Ret None else
    let! headerLen' :=
      (if _extension hdr then
         if len <? headerLen + 4 then Ret None else
         let! e0 := rd b (headerLen + 2) in
         let! e1 := rd b (headerLen + 3) in
         let extLenWords := Z.lor (Z.shiftl e0 8) e1 in
         let extTotalLen := 4 + extLenWords * 4 in
         if len <? headerLen + extTotalLen then Ret None else
         Ret (Some (headerLen + extTotalLen))
       else Ret (Some headerLen)) in
    match headerLen' with
    | None => Ret None
    | Some headerLen =>
      let payloadLen := len - headerLen in
      let! payloadLen' :=
        (if _padding hdr then
           let! padLen := rd b (len - 1) in
           if (padLen =? 0) || (padLen >? payloadLen) then Ret None
           else Ret (Some (payloadLen - padLen))
         else Ret (Some payloadLen)) in
      match payloadLen' with
      | None => Ret None
      | Some payloadLen =>
        if audio && (payloadLen =? 0) then Ret None
        else Ret (Some (hdr, headerLen, payloadLen))
      end
    end
  end.

(** ** The header layout of RFC 3550, as a specification *)

Definition header_ok (h : RtpHeader) : Prop :=
  0 <= _version h < 4 /\ 0 <= _csrc h < 16 /\ 0 <= _payload_type h < 128 /\
  is_u16 (_seq h) /\ is_u32 (_timestamp h) /\ is_u32 (_ssrc h).

Definition rfc3550_header (h : RtpHeader) : list Z :=
  [_version h * 64 + Z.b2z (_padding h) * 32 + Z.b2z (_extension h) * 16 + _csrc h;
   Z.b2z (_marker h) * 128 + _payload_type h] ++
  be16 (_seq h) ++ be32 (_timestamp h) ++ be32 (_ssrc h).

Lemma bit_test x k : 0 <= k ->
  negb (Z.land (Z.shiftr x k) 1 =? 0) = ((x / 2 ^ k) mod 2 =? 1).
Proof.
  intros. rewrite shiftr_div by done.
  pose proof (flag_spec (x / 2 ^ k) 0 ltac:(lia)) as E. unfold flag in E.
  change (2 ^ 0) with 1 in E. rewrite Z.div_1_r in E. exact E.
Qed.

Lemma bget_cons_0 x l : bget (x :: l) 0 = x. Proof. reflexivity. Qed.

Lemma lor_be32 b0 b1 b2 b3 : is_u8 b0 -> is_u8 b1 -> is_u8 b2 -> is_u8 b3 ->
  Z.lor (Z.lor (Z.lor (Z.shiftl b0 24) (Z.shiftl b1 16)) (Z.shiftl b2 8)) b3 =
  b0 * 16777216 + b1 * 65536 + b2 * 256 + b3.
Proof.
  intros. pose proof (ReadUint32BE_ok [b0; b1; b2; b3] 0) as E.
  assert (bytes_ok [b0; b1; b2; b3]) as Hb by bytes_list.
  specialize (E Hb ltac:(lia) ltac:(compute; congruence)).
  unfold ReadUint32BE in E. simpl in E. injection E as ->. reflexivity.
Qed.

Lemma lor_be16 b0 b1 : is_u8 b1 -> Z.lor (Z.shiftl b0 8) b1 = b0 * 256 + b1.
Proof. intros. by rewrite lor_shiftl_add by (pow2; unfold is_u in *; pow2; lia). Qed.

Lemma InputFromBuffer_ok self b :
  bytes_ok b -> 12 <= blen b ->
  InputFromBuffer self (Some b) = Ret (true, mkRtpHeader
    (bget b 0 / 64) ((bget b 0 / 32) mod 2 =? 1) ((bget b 0 / 16) mod 2 =? 1)
    (bget b 0 mod 16) ((bget b 1 / 128) mod 2 =? 1) (bget b 1 mod 128)
    (bget b 2 * 256 + bget b 3)
    (bget b 4 * 16777216 + bget b 5 * 65536 + bget b 6 * 256 + bget b 7)
    (bget b 8 * 16777216 + bget b 9 * 65536 + bget b 10 * 256 + bget b 11)).
Proof.
  intros Hb Hl. unfold InputFromBuffer, kSize. rewrite (proj2 (Z.ltb_ge _ _)) by lia.
  rewrite !rd_ok by lia. simpl. rewrite !bit_test by lia.
  rewrite !lor_be32 by (by apply bget_u8). rewrite lor_be16 by (by apply bget_u8).
  rewrite land_15, land_7f, shiftr_div by lia.
  change 3 with (2 ^ 2 - 1). rewrite land_ones_mod by lia.
  pose proof (bget_range b 0 Hb). rewrite (Z.mod_small (_ / 2 ^ 6)); [done|].
  change (2 ^ 6) with 64. change (2 ^ 2) with 4. words.
Qed.

Lemma rfc3550_header_length h : blen (rfc3550_header h) = 12.
Proof. reflexivity. Qed.

Lemma b2z_range (b : bool) : 0 <= Z.b2z b <= 1.
Proof. destruct b; simpl; lia. Qed.

Lemma rfc3550_header_bytes h : header_ok h -> bytes_ok (rfc3550_header h).
Proof.
  intros (Hv & Hc & Hp & _). unfold rfc3550_header, be16, be32. simpl. bytes_list.
  - destruct (_padding h), (_extension h); simpl; words.
  - destruct (_marker h); simpl; words.
Qed.

Lemma bytes_ok_app a b : bytes_ok a -> bytes_ok b -> bytes_ok (a ++ b).
Proof. apply Forall_app_2. Qed.

(** A buffer of at least twelve bytes, taken apart. *)
Lemma twelve b : 12 <= blen b ->
  exists b0 b1 b2 b3 b4 b5 b6 b7 b8 b9 b10 b11 r,
    b = b0 :: b1 :: b2 :: b3 :: b4 :: b5 :: b6 :: b7 :: b8 :: b9 :: b10 :: b11 :: r.
Proof.
  unfold blen. intros H.
  do 12 (destruct b as [|? b]; [simpl in H; lia|]). repeat eexists.
Qed.

Lemma bytes_ok_cons x l : bytes_ok (x :: l) <-> is_u8 x /\ bytes_ok l.
Proof. apply Forall_cons. Qed.

Lemma byte_of_24 v b0 b1 b2 b3 : is_u8 b0 -> is_u8 b1 -> is_u8 b2 -> is_u8 b3 ->
  v = b0 * 16777216 + b1 * 65536 + b2 * 256 + b3 -> be32 v = [b0; b1; b2; b3].
Proof.
  intros ???? ->. unfold be32. rewrite !byte_of_spec by lia.
  change (2 ^ 24) with 16777216. change (2 ^ 0) with 1. repeat f_equal; words.
Qed.

Lemma byte_of_16 v b0 b1 : is_u8 b0 -> is_u8 b1 -> v = b0 * 256 + b1 -> be16 v = [b0; b1].
Proof.
  intros ?? ->. unfold be16. rewrite !byte_of_spec by lia. change (2 ^ 0) with 1.
  repeat f_equal; words.
Qed.

Lemma b2z_eqb1 x : 0 <= x < 2 -> Z.b2z (x =? 1) = x.
Proof. intros. destruct (Z.eqb_spec x 1); simpl; lia. Qed.

(** [RtpHeader::InputFromBuffer] accepts a buffer exactly when it starts
    with the RFC 3550 fixed header of some header value, and then it returns
    that value: the parser is the inverse of the documented wire layout. *)
Theorem rtp_header_roundtrip self b h :
  bytes_ok b ->
  InputFromBuffer self (Some b) = Ret (true, h) <->
  header_ok h /\ exists rest, b = rfc3550_header h ++ rest.
Proof.
  intros Hb. split.
  - intros E. destruct (Z.ltb_spec (blen b) 12).
    { unfold InputFromBuffer, kSize in E. by rewrite (proj2 (Z.ltb_lt _ _)) in E by lia. }
    rewrite InputFromBuffer_ok in E by done. injection E as <-.
    destruct (twelve b) as (b0&b1&b2&b3&b4&b5&b6&b7&b8&b9&b10&b11&r&->); [done|].
    rewrite !bytes_ok_cons in Hb. destruct_and! Hb. unfold bget. simpl nth. split.
    + unfold header_ok. simpl. repeat split; words.
    + exists r. unfold rfc3550_header. simpl _seq. simpl _timestamp. simpl _ssrc.
      rewrite (byte_of_16 _ b2 b3), (byte_of_24 _ b4 b5 b6 b7), (byte_of_24 _ b8 b9 b10 b11) by done.
      simpl. rewrite !b2z_eqb1 by words. repeat f_equal; words.
  - intros [Hh [rest ->]].
    assert (12 <= blen (rfc3550_header h ++ rest))
      by (rewrite blen_app, rfc3550_header_length; pose proof (blen_nonneg rest); lia).
    rewrite InputFromBuffer_ok by done. unfold bget. simpl nth.
    destruct Hh as (Hv & Hc & Hp & Hs & Ht & Hr). destruct h as [v p x c m pt sq ts sr]. simpl in *.
    rewrite !be32_value, be16_value by done.
    do 3 f_equal; try (destruct p, x, m; simpl; words).
Qed.

(** ** Where the payload is *)

(** End of the variable-length header: CSRCs and the extension envelope. *)
Definition rtp_begin (b : list Z) : option Z :=
  if blen b <? 12 then None else
  if negb (bget b 0 / 64 =? 2) then None else
  let begin := 12 + 4 * (bget b 0 mod 16) in
  if begin >? blen b then None else
  if (bget b 0 / 16) mod 2 =? 1 then
    if blen b - begin <? 4 then None else
    let e := begin + (4 + 4 * (bget b (begin + 2) * 256 + bget b (begin + 3))) in
    if e >? blen b then None else Some e
  else Some begin.

Definition rtp_bounds (b : list Z) : option (Z * Z) :=
  match rtp_begin b with
  | None => None
  | Some begin =>
    if (bget b 0 / 32) mod 2 =? 1 then
      let padding := bget b (blen b - 1) in
      if (padding =? 0) || (padding >? blen b - begin) then None
      else Some (begin, blen b - padding)
    else Some (begin, blen b)
  end.

Lemma flag_10 x : flag x 0x10 = ((x / 16) mod 2 =? 1).
Proof. apply (flag_spec x 4). lia. Qed.

Lemma flag_20 x : flag x 0x20 = ((x / 32) mod 2 =? 1).
Proof. apply (flag_spec x 5). lia. Qed.

Lemma gtb_ltb x y : (x >? y) = (y <? x).
Proof. apply Z.gtb_ltb. Qed.

(** Discharge a read whose index is in range by the guards passed so far. *)
Ltac rd_in := rewrite rd_ok by lia; cbn [mbnd].

Ltac if_case :=
  match goal with
  | |- context [if ?b then _ else _] => destruct b eqn:?; bool_hyps; cbn [mbnd]; try done
  end.

Lemma RtpPayloadBounds_eq b : bytes_ok b -> RtpPayloadBounds (Some b) = Ret (rtp_bounds b).
Proof.
  intros Hb. unfold RtpPayloadBounds, rtp_bounds, rtp_begin.
  if_case. rd_in. rewrite shiftr_div, land_15, flag_10, flag_20 by lia.
  change (2 ^ 6) with 64. if_case.
  pose proof (bget_range b 0 Hb). if_case. if_case.
  - if_case. rewrite !rd_ok by words. simpl. rewrite lor_be16 by (by apply bget_u8).
    repeat first [rd_in | if_case].
  - repeat first [rd_in | if_case].
Qed.

Lemma rtp_begin_bounds b n : bytes_ok b -> rtp_begin b = Some n -> 12 <= n <= blen b.
Proof.
  intros Hb. unfold rtp_begin.
  set (m := 12 + 4 * (bget b 0 mod 16)).
  assert (12 <= m) by (subst m; pose proof (bget_range b 0 Hb); words).
  pose proof (bget_range b (m + 2) Hb). pose proof (bget_range b (m + 3) Hb).
  repeat if_case; intros [= <-]; lia.
Qed.

Lemma rtp_bounds_range b n e :
  bytes_ok b -> rtp_bounds b = Some (n, e) -> 12 <= n <= e /\ e <= blen b.
Proof.
  intros Hb. unfold rtp_bounds. destruct (rtp_begin b) eqn:E; [|done].
  pose proof (rtp_begin_bounds b _ Hb E). pose proof (bget_range b (blen b - 1) Hb).
  repeat if_case; intros [= <- <-]; lia.
Qed.

Definition header_of (b : list Z) : RtpHeader := mkRtpHeader
    (bget b 0 / 64) ((bget b 0 / 32) mod 2 =? 1) ((bget b 0 / 16) mod 2 =? 1)
    (bget b 0 mod 16) ((bget b 1 / 128) mod 2 =? 1) (bget b 1 mod 128)
    (bget b 2 * 256 + bget b 3)
    (bget b 4 * 16777216 + bget b 5 * 65536 + bget b 6 * 256 + bget b 7)
    (bget b 8 * 16777216 + bget b 9 * 65536 + bget b 10 * 256 + bget b 11).

(** Does the packet belong to the track?  0xFF and 0 are wildcards. *)
Definition owned (pt ssrc : Z) (h : RtpHeader) : bool :=
  ((pt =? 0xFF) || (_payload_type h =? pt)) && ((ssrc =? 0) || (_ssrc h =? ssrc)).

Lemma owned_guard pt ssrc h :
  (negb (pt =? 0xFF) && negb (_payload_type h =? pt)) ||
  (negb (ssrc =? 0) && negb (_ssrc h =? ssrc)) = negb (owned pt ssrc h).
Proof. unfold owned. btauto. Qed.

Lemma rtp_bounds_short b : blen b < 12 -> rtp_bounds b = None.
Proof. intros. unfold rtp_bounds, rtp_begin. by rewrite (proj2 (Z.ltb_lt _ _)). Qed.

(** The padding and payload checks, once the header length is known. *)
Lemma layout_tail audio b n (P : bool) (h : RtpHeader) :
  12 <= n -> n <= blen b ->
  (let! payloadLen' :=
     (if P then
        let! padLen := rd b (blen b - 1) in
        if (padLen =? 0) || (padLen >? blen b - n) then Ret None
        else Ret (Some (blen b - n - padLen))
      else Ret (Some (blen b - n))) in
   match payloadLen' with
   | None => Ret None
   | Some payloadLen =>
     if audio && (payloadLen =? 0) then Ret None else Ret (Some (h, n, payloadLen))
   end) =
  Ret (match (if P then
         let padding := bget b (blen b - 1) in
         if (padding =? 0) || (padding >? blen b - n) then None else Some (n, blen b - padding)
         else Some (n, blen b)) with
       | Some (n, e) => if negb (audio && (e - n =? 0)) then Some (h, n, e - n) else None
       | None => None
       end).
Proof.
  intros. destruct P.
  - rd_in. cbv zeta. if_case.
    replace (blen b - bget b (blen b - 1) - n) with (blen b - n - bget b (blen b - 1)) by lia.
    by destruct (audio && _).
  - cbn [mbnd]. by destruct (audio && _).
Qed.

Lemma inputRtp_layout_eq audio pt ssrc b :
  bytes_ok b ->
  inputRtp_layout audio pt ssrc (Some b) =
  Ret (match rtp_bounds b with
       | Some (n, e) =>
         if owned pt ssrc (header_of b) && negb (audio && (e - n =? 0))
         then Some (header_of b, n, e - n) else None
       | None => None
       end).
Proof.
  intros Hb. unfold inputRtp_layout, kSize.
  if_case. { by rewrite rtp_bounds_short. }
  rewrite InputFromBuffer_ok by done. fold (header_of b). cbn [mbnd]. cbv beta iota.
  rewrite owned_guard. destruct (owned pt ssrc (header_of b)) eqn:Ho; simpl negb.
  2:{ destruct (_version (header_of b) =? 2); cbn; repeat case_match; done. }
  unfold rtp_bounds, rtp_begin, getHeaderSize, kSize. simpl.
  pose proof (bget_range b 0 Hb). rewrite (Z.mul_comm (_ mod 16)).
  rewrite (proj2 (Z.ltb_ge (blen b) 12)) by lia. if_case.
  rewrite <- (Z.gtb_ltb _ (blen b)). if_case.
  set (m := 12 + 4 * (bget b 0 mod 16)) in *. assert (12 <= m) by (subst m; words).
  pose proof (bget_range b (m + 2) Hb). pose proof (bget_range b (m + 3) Hb).
  if_case.
  - replace (blen b <? m + 4) with (blen b - m <? 4) by (apply eq_true_iff_eq; lia). if_case.
    rewrite (rd_ok b (m + 2)), (rd_ok b (m + 3)) by lia. cbn [mbnd].
    rewrite lor_be16 by (by apply bget_u8).
    rewrite (Z.mul_comm _ 4), <- (Z.gtb_ltb _ (blen b)). if_case.
    set (k := m + (4 + _)) in *. apply layout_tail; lia.
  - apply layout_tail; lia.
Qed.

(** the layout computed by the receivers' [inputRtp] and the one of
    [RtpPayloadBounds] agree on every buffer: a packet is admitted with header
    length [n] and payload length [l] exactly when it belongs to the track, the
    retransmission helper reports the payload [n, n + l), and (audio only) the
    payload is not empty.  In particular neither parser reads outside the
    packet. *)
Theorem receiver_layout_agrees audio pt ssrc b h n l :
  bytes_ok b ->
  inputRtp_layout audio pt ssrc (Some b) = Ret (Some (h, n, l)) <->
  InputFromBuffer RtpHeader_init (Some b) = Ret (true, h) /\
  RtpPayloadBounds (Some b) = Ret (Some (n, n + l)) /\
  owned pt ssrc h = true /\ (audio = true -> 0 < l).
Proof.
  intros Hb. rewrite inputRtp_layout_eq, RtpPayloadBounds_eq by done.
  destruct (Z.ltb_spec (blen b) 12) as [Hs|Hs].
  { rewrite rtp_bounds_short by done. split; [done|]. by intros (_ & ? & _). }
  rewrite InputFromBuffer_ok by done. fold (header_of b).
  destruct (rtp_bounds b) as [[n' e]|] eqn:E; [|split; [done|]; by intros (_ & ? & _)].
  pose proof (rtp_bounds_range b n' e Hb E).
  destruct (owned pt ssrc (header_of b)) eqn:Ho; simpl.
  - destruct audio; simpl; [destruct (Z.eqb_spec (e - n') 0)|]; simpl; split.
    + done.
    + intros ([= <-] & [= <- ->] & _ & Hl). specialize (Hl eq_refl). lia.
    + intros [= <- <- <-]. repeat split; auto; [by rewrite Zplus_minus|lia].
    + intros ([= <-] & [= <- ->] & _). do 3 f_equal. lia.
    + intros [= <- <- <-]. repeat split; auto; [by rewrite Zplus_minus|done].
    + intros ([= <-] & [= <- ->] & _). do 3 f_equal. lia.
  - split; [done|]. intros ([= <-] & _ & Hc & _). congruence.
Qed.

(** ** Retransmission encapsulation *)

Definition clear_p (x : Z) : Z := x - (x / 32) mod 2 * 32.

Lemma clear_p_spec x : is_u8 x -> u8 (Z.land x (Z.lnot 0x20)) = clear_p x.
Proof.
  intros. change 0x20 with (2 ^ 5). rewrite ldiff_pow2 by lia. change (2 ^ 5) with 32.
  unfold clear_p. words.
Qed.

Lemma clear_p_facts x : is_u8 x ->
  is_u8 (clear_p x) /\ clear_p x / 64 = x / 64 /\ clear_p x mod 16 = x mod 16 /\
  (clear_p x / 16) mod 2 = (x / 16) mod 2 /\ (clear_p x / 32) mod 2 = 0.
Proof. intros. unfold clear_p. repeat split; words. Qed.

(** The header end only depends on the header bytes, and not on the P bit. *)
Lemma rtp_begin_prefix b q n :
  bytes_ok b -> rtp_begin b = Some n -> n <= blen q -> bget q 0 = clear_p (bget b 0) ->
  (forall i, 12 <= i < n -> bget q i = bget b i) -> rtp_begin q = Some n.
Proof.
  intros Hb E Hl H0 Hi. destruct (clear_p_facts (bget b 0)) as (_ & F1 & F2 & F3 & _);
    [by apply bget_u8|].
  pose proof (rtp_begin_bounds b n Hb E).
  unfold rtp_begin in *. rewrite H0, F1, F2, F3.
  destruct (blen b <? 12); [done|]. rewrite (proj2 (Z.ltb_ge (blen q) 12)) by lia.
  destruct (negb (_ =? 2)); [done|].
  set (m := 12 + 4 * (bget b 0 mod 16)) in *. pose proof (bget_range b 0 Hb).
  assert (12 <= m) by (subst m; words).
  pose proof (bget_range b (m + 2) Hb). pose proof (bget_range b (m + 3) Hb).
  destruct (m >? blen b); [done|]. destruct ((bget b 0 / 16) mod 2 =? 1).
  - destruct (blen b - m <? 4); [done|].
    destruct (_ >? blen b) eqn:G in E; [done|]. injection E as <-.
    rewrite (Hi (m + 2)), (Hi (m + 3)) by lia.
    destruct (Z.gtb_spec m (blen q)); [lia|].
    destruct (Z.ltb_spec (blen q - m) 4); [lia|].
    destruct (Z.gtb_spec (m + (4 + 4 * (bget b (m + 2) * 256 + bget b (m + 3)))) (blen q)); [lia|done].
  - injection E as <-. destruct (Z.gtb_spec m (blen q)); [lia|done].
Qed.

Lemma rtp_bounds_nopad q n :
  rtp_begin q = Some n -> (bget q 0 / 32) mod 2 = 0 -> rtp_bounds q = Some (n, blen q).
Proof. intros E H. unfold rtp_bounds. by rewrite E, H. Qed.

Lemma marker_pt x pt : is_u8 x -> 0 <= pt <= 127 ->
  u8 (Z.lor (Z.land x 0x80) pt) = x / 128 * 128 + pt.
Proof.
  intros Hx Hp. rewrite land_80 by done.
  change 128 with (2 ^ 7) at 2. rewrite <- Z.shiftl_mul_pow2 by lia.
  rewrite lor_shiftl_add by (change (2 ^ 7) with 128; lia). change (2 ^ 7) with 128. words.
Qed.

(** Byte stores into the fixed header of an explicit packet. *)
Ltac len12 := rewrite ?blen_cons;
  match goal with |- context [blen ?r] => is_var r; pose proof (blen_nonneg r) end; lia.

Lemma u8_shift v k : 0 <= k -> u8 (Z.shiftr v k) = byte_of v k.
Proof.
  intros. unfold byte_of, wrap. rewrite land_ff. by rewrite Zmod_mod.
Qed.

Lemma write_ssrc_ok b0 b1 b2 b3 b4 b5 b6 b7 b8 b9 b10 b11 r ssrc :
  write_ssrc (b0 :: b1 :: b2 :: b3 :: b4 :: b5 :: b6 :: b7 :: b8 :: b9 :: b10 :: b11 :: r) ssrc =
  Ret ([b0; b1; b2; b3; b4; b5; b6; b7] ++ be32 ssrc ++ r).
Proof.
  unfold write_ssrc.
  do 4 (rewrite wr_ok by len12; cbn [mbnd]; simpl insert). rewrite !u8_shift by lia. done.
Qed.

Lemma to_nat_12 n : 12 <= n -> Z.to_nat n = (12 + Z.to_nat (n - 12))%nat.
Proof. lia. Qed.

Ltac hdr_store := rewrite wr_ok by len12; cbn [mbnd]; simpl insert.
Ltac hdr_load := rewrite rd_ok by len12; cbn [mbnd]; unfold bget; simpl nth.

Lemma EncapsulateRtx_eq b0 b1 b2 b3 b4 b5 b6 b7 b8 b9 b10 b11 r n e pt ssrc sequence :
  let b := b0 :: b1 :: b2 :: b3 :: b4 :: b5 :: b6 :: b7 :: b8 :: b9 :: b10 :: b11 :: r in
  bytes_ok b -> rtp_bounds b = Some (n, e) -> n <> e -> 0 <= pt <= 127 -> ssrc <> 0 ->
  EncapsulateRtx b pt ssrc sequence =
  Ret (Some ([clear_p b0; b1 / 128 * 128 + pt] ++ be16 sequence ++ [b4; b5; b6; b7] ++ be32 ssrc ++
    take (Z.to_nat (n - 12)) r ++ [b2; b3] ++
    drop (Z.to_nat (n - 12)) (take (Z.to_nat (e - 12)) r))).
Proof.
  intros b Hb E Hne Hpt Hs. destruct (rtp_bounds_range b n e Hb E) as [Hn He].
  unfold EncapsulateRtx. rewrite (proj2 (Z.eqb_neq ssrc 0)) by done.
  destruct (Z.gtb_spec pt 127); [lia|]. cbn [orb].
  rewrite RtpPayloadBounds_eq, E by done. cbn [mbnd].
  rewrite (proj2 (Z.eqb_neq n e)) by done. subst b.
  do 2 hdr_load. rewrite (to_nat_12 n), (to_nat_12 e) by lia. simpl take. simpl drop.
  rewrite take_take, Nat.min_l by lia.
  set (h := take (Z.to_nat (n - 12)) r). set (pl := drop _ _).
  set (t := h ++ b2 :: b3 :: pl). simpl app. fold t.
  rewrite !bytes_ok_cons in Hb. destruct_and! Hb.
  hdr_load. hdr_store. hdr_load. do 3 hdr_store. rewrite write_ssrc_ok. cbn [mbnd].
  rewrite clear_p_spec, marker_pt by (done || lia).
  rewrite u8_shift by lia. rewrite <- (Z.shiftr_0_r sequence) at 2. rewrite u8_shift by lia.
  reflexivity.
Qed.

Lemma DecapsulateRtx_eq x0 x1 x2 x3 x4 x5 x6 x7 x8 x9 x10 x11 h hi lo pay pt ssrc :
  let q := x0 :: x1 :: x2 :: x3 :: x4 :: x5 :: x6 :: x7 :: x8 :: x9 :: x10 :: x11 ::
           h ++ hi :: lo :: pay in
  bytes_ok q -> rtp_bounds q = Some (12 + blen h, blen q) -> pay <> [] ->
  0 <= pt <= 127 -> ssrc <> 0 ->
  DecapsulateRtx q pt ssrc =
  Ret (Some ([clear_p x0; x1 / 128 * 128 + pt; hi; lo; x4; x5; x6; x7] ++ be32 ssrc ++ h ++ pay)).
Proof.
  intros q Hb E Hne Hpt Hs. pose proof (blen_nonneg h). pose proof (blen_nonneg pay).
  assert (blen q = 14 + blen h + blen pay) as Lq
    by (subst q; rewrite !blen_cons, blen_app, !blen_cons; lia).
  assert (0 < blen pay) by (destruct pay; [done|]; rewrite blen_cons; pose proof (blen_nonneg pay); lia).
  unfold DecapsulateRtx. rewrite (proj2 (Z.eqb_neq ssrc 0)) by done.
  destruct (Z.gtb_spec pt 127); [lia|]. cbn [orb].
  rewrite RtpPayloadBounds_eq, E by done. cbn [mbnd].
  destruct (Z.leb_spec (blen q - (12 + blen h)) 2); [lia|].
  assert (rd q (12 + blen h) = Ret hi) as ->.
  { subst q. rewrite !app_comm_cons. apply rd_app. rewrite !blen_cons; lia. }
  assert (rd q (12 + blen h + 1) = Ret lo) as ->.
  { subst q. rewrite (shift1 h hi), !app_comm_cons. apply (rd_app _ lo pay).
    rewrite <- !app_comm_cons, !blen_cons, blen_snoc. lia. }
  cbn [mbnd]. rewrite (take_ge q) by (unfold blen; lia).
  replace (Z.to_nat (12 + blen h)) with (12 + length h)%nat by (unfold blen; lia).
  replace (Z.to_nat (12 + blen h + 2)) with (12 + (length h + 2))%nat by (unfold blen; lia).
  subst q. simpl take. simpl drop.
  rewrite take_app_length, drop_app_add' by done. simpl drop. rewrite ?drop_0.
  rewrite !bytes_ok_cons in Hb. destruct_and! Hb. set (t := h ++ pay). simpl app. fold t.
  hdr_load. hdr_store. hdr_load. do 3 hdr_store. rewrite write_ssrc_ok. cbn [mbnd].
  by rewrite clear_p_spec, marker_pt by (done || lia).
Qed.

(** The packet without its RTP padding: [end] bytes, P bit cleared. *)
Definition strip_padding (b : list Z) (e : Z) : list Z :=
  clear_p (bget b 0) :: drop 1 (take (Z.to_nat e) b).

Lemma bytes_ok_take n b : bytes_ok b -> bytes_ok (take n b).
Proof. apply Forall_take. Qed.

Lemma bytes_ok_drop n b : bytes_ok b -> bytes_ok (drop n b).
Proof. apply Forall_drop. Qed.

Lemma be16_bytes v : bytes_ok (be16 v). Proof. unfold be16. bytes_list. Qed.
Lemma be32_bytes v : bytes_ok (be32 v). Proof. unfold be32. bytes_list. Qed.
#[export] Hint Resolve bytes_ok_take bytes_ok_drop be16_bytes be32_bytes bytes_ok_app : safe.

Lemma blen_take n b : 0 <= n <= blen b -> blen (take (Z.to_nat n) b) = n.
Proof. unfold blen. intros. rewrite length_take. lia. Qed.

Lemma blen_drop n b : 0 <= n <= blen b -> blen (drop (Z.to_nat n) b) = blen b - n.
Proof. unfold blen. intros. rewrite length_drop. lia. Qed.

Lemma bget_take n b i : 0 <= i < n -> bget (take (Z.to_nat n) b) i = bget b i.
Proof.
  intros. unfold bget. rewrite !nth_lookup, lookup_take. by rewrite decide_True by lia.
Qed.

(** The bounds of an encapsulated packet: same header, two more payload bytes. *)
Lemma rtx_bounds b0 b1 r n e x1 s ssrc mid osn :
  let b := b0 :: b1 :: r in
  let q := [clear_p b0; x1] ++ s ++ mid ++ be32 ssrc ++ take (Z.to_nat (n - 12)) (drop 10 r) ++
           osn ++ drop (Z.to_nat (n - 12)) (take (Z.to_nat (e - 12)) (drop 10 r)) in
  bytes_ok b -> rtp_bounds b = Some (n, e) -> blen s = 2 -> blen mid = 4 ->
  rtp_bounds q = Some (n, blen q).
Proof.
  intros b q Hb E Hs Hm. pose proof (rtp_bounds_range b n e Hb E) as [Hn He].
  assert (12 <= blen b) by lia.
  assert (blen (drop 10 r) = blen b - 12) as Lr.
  { change 10%nat with (Z.to_nat 10). subst b. rewrite !blen_cons in *. rewrite blen_drop by lia. lia. }
  assert (is_u8 b0) as H0 by (subst b; by rewrite bytes_ok_cons in Hb; destruct Hb).
  destruct (clear_p_facts b0 H0) as (_ & _ & _ & _ & F).
  assert (blen ([clear_p b0; x1] ++ s ++ mid ++ be32 ssrc) = 12) as L12.
  { rewrite !blen_app, Hs, Hm. reflexivity. }
  assert (q = ([clear_p b0; x1] ++ s ++ mid ++ be32 ssrc) ++
    take (Z.to_nat (n - 12)) (drop 10 r) ++ osn ++
    drop (Z.to_nat (n - 12)) (take (Z.to_nat (e - 12)) (drop 10 r))) as Eq
    by (subst q; by rewrite <- !app_assoc).
  set (P := [clear_p b0; x1] ++ s ++ mid ++ be32 ssrc) in *.
  unfold rtp_bounds in E. destruct (rtp_begin b) as [n'|] eqn:Eb; [|done].
  assert (n' = n) as -> by (repeat case_match; congruence).
  apply rtp_bounds_nopad; [|exact F].
  apply (rtp_begin_prefix b q n Hb Eb); [|done|].
  - rewrite Eq, !blen_app, L12, (blen_take (n - 12)) by lia.
    pose proof (blen_nonneg osn). match goal with |- context [blen (drop ?a ?b)] =>
      pose proof (blen_nonneg (drop a b)) end. lia.
  - intros i Hi. rewrite Eq, bget_app_r, L12 by lia.
    rewrite bget_app_l by (rewrite blen_take by lia; lia).
    rewrite bget_take by lia. unfold bget. rewrite !nth_lookup, lookup_drop.
    subst b. replace (Z.to_nat i) with (S (S (10 + Z.to_nat (i - 12)))) by lia. done.
Qed.

(** C3: RFC 4588 retransmission round trip.  Every packet with a payload can
    be encapsulated; the retransmission carries the given payload type, SSRC
    and sequence number, keeps version, CSRCs, extension, marker and timestamp
    and has no padding; and decapsulating it with the original payload type
    and SSRC gives back the original packet, padding removed. *)
Theorem rtx_roundtrip b h n e pt ssrc sequence :
  bytes_ok b ->
  InputFromBuffer RtpHeader_init (Some b) = Ret (true, h) ->
  RtpPayloadBounds (Some b) = Ret (Some (n, e)) -> n <> e -> _ssrc h <> 0 ->
  0 <= pt <= 127 -> is_u32 ssrc -> ssrc <> 0 -> is_u16 sequence ->
  exists q, EncapsulateRtx b pt ssrc sequence = Ret (Some q) /\
    InputFromBuffer RtpHeader_init (Some q) =
      Ret (true, mkRtpHeader (_version h) false (_extension h) (_csrc h) (_marker h) pt
                   sequence (_timestamp h) ssrc) /\
    DecapsulateRtx q (_payload_type h) (_ssrc h) = Ret (Some (strip_padding b e)).
Proof.
  intros Hb Hh E Hne Hs0 Hpt Hs Hsn Hq. rewrite RtpPayloadBounds_eq in E by done. injection E as E.
  pose proof (rtp_bounds_range b n e Hb E) as [Hn He].
  rewrite InputFromBuffer_ok in Hh by (done || lia). fold (header_of b) in Hh. injection Hh as <-.
  destruct (twelve b) as (b0&b1&b2&b3&b4&b5&b6&b7&b8&b9&b10&b11&r&->); [lia|].
  set (b := b0 :: _) in *. set (t := r) in *.
  assert (12 + blen t = blen b) as Lb by (subst b; rewrite !blen_cons; lia).
  set (hd := take (Z.to_nat (n - 12)) t).
  set (pay := drop (Z.to_nat (n - 12)) (take (Z.to_nat (e - 12)) t)).
  assert (blen hd = n - 12) as Lh by (subst hd; rewrite blen_take; lia).
  assert (blen pay = e - n) as Lp by (subst pay; rewrite blen_drop; rewrite blen_take; lia).
  pose proof Hb as Hb'. unfold b in Hb'. rewrite !bytes_ok_cons in Hb'. destruct_and! Hb'.
  destruct (clear_p_facts b0) as (U & F1 & F2 & F3 & F4); [done|].
  pose proof (rtx_bounds b0 b1 (drop 2 b) n e (b1 / 128 * 128 + pt) (be16 sequence) ssrc
    [b4; b5; b6; b7] [b2; b3] Hb E eq_refl eq_refl) as Eq. simpl drop in Eq.
  rewrite drop_0 in Eq. fold t hd pay in Eq.
  eexists. split; [by apply EncapsulateRtx_eq|]. fold t hd pay.
  assert (is_u8 (b1 / 128 * 128 + pt)) as U1 by words.
  match type of Eq with rtp_bounds ?l = _ => assert (bytes_ok l) as Hq' end.
  { unfold bytes_ok. simpl. bytes_list. apply bytes_ok_app; [subst hd; auto with safe|].
    bytes_list. subst pay. apply bytes_ok_drop, bytes_ok_take. done. }
  split.
  - rewrite InputFromBuffer_ok; [|done|simpl; rewrite !blen_cons; pose proof (blen_nonneg (hd ++ b2 :: b3 :: pay)); lia].
    unfold bget, header_of. simpl nth. simpl. unfold bget, b. simpl nth.
    rewrite F1, F2, F3, F4, be16_value, be32_value by done. do 3 f_equal; words.
  - assert (hd ++ pay = take (Z.to_nat (e - 12)) t) as Ht.
    { subst hd pay. rewrite <- (take_drop (Z.to_nat (n - 12)) (take (Z.to_nat (e - 12)) t)) at 2.
      by rewrite take_take, Nat.min_l by lia. }
    pose proof (DecapsulateRtx_eq (clear_p b0) (b1 / 128 * 128 + pt) (byte_of sequence 8)
      (byte_of sequence 0) b4 b5 b6 b7 (byte_of ssrc 24) (byte_of ssrc 16) (byte_of ssrc 8)
      (byte_of ssrc 0) hd b2 b3 pay (_payload_type (header_of b)) (_ssrc (header_of b))) as D.
    cbv zeta in D. etrans; [apply D; [exact Hq'| | | |done]|].
    + etrans; [exact Eq|]. do 2 f_equal. lia.
    + intros Hp. rewrite Hp in Lp. unfold blen in Lp. simpl in Lp. lia.
    + unfold header_of. simpl. pose proof (bget_range b 1 Hb). words.
    + unfold strip_padding. rewrite (to_nat_12 e) by lia. rewrite Ht. unfold header_of. cbn [_payload_type _ssrc].
      rewrite (byte_of_24 _ b8 b9 b10 b11) by done. unfold bget, b. simpl nth.
      do 2 f_equal. simpl. unfold clear_p at 1. rewrite F4, Z.mul_0_l, Z.sub_0_r.
      do 2 f_equal. words.
Qed.

(** ** Header extensions *)

Lemma ext_elements_mono fuel b profile end_ off vals vals' ok k v :
  ext_elements fuel b profile end_ off vals = Ret (ok, vals') ->
  vals !! k = Some v -> vals' !! k = Some v.
Proof.
  revert off vals. induction fuel as [|fuel IH]; intros off vals; simpl.
  { if_case. by intros [= <- <-]. }
  if_case; [by intros [= <- <-]|].
  intros E Hk. apply mbnd_ret_inv in E as (id & _ & E). revert E.
  repeat if_case; try (intros [= <- <-]; done); try (intros E; by eapply IH).
  - intros E. apply mbnd_ret_inv in E as (value & _ & E). eapply IH; [exact E|]. rewrite lookup_insert_ne; [done|].
    intros <-. rewrite bool_decide_eq_false in *. naive_solver.
  - intros E. apply mbnd_ret_inv in E as (l & _ & E). revert E. if_case.
    { by intros [= <- <-]. }
    intros E. apply mbnd_ret_inv in E as (value & _ & E). eapply IH; [exact E|]. rewrite lookup_insert_ne; [done|].
    intros <-. rewrite bool_decide_eq_false in *. naive_solver.
Qed.

Lemma land15_range x : 0 <= Z.land x 15 < 16.
Proof. rewrite land_15. apply Z.mod_pos_bound. lia. Qed.

Lemma ext_elements_returns fuel b profile end_ off vals :
  bytes_ok b -> 0 <= off -> end_ <= blen b -> end_ - off <= Z.of_nat fuel ->
  returns (ext_elements fuel b profile end_ off vals).
Proof.
  intros Hb. revert off vals. induction fuel as [|fuel IH]; intros off vals H0 He Hf; simpl.
  { if_case; [auto with safe|lia]. }
  if_case; [auto with safe|]. rd_in. pose proof (land15_range (bget b off)).
  repeat if_case; auto with safe; try (apply IH; lia).
  - rewrite read_bytes_ok by lia. cbn [mbnd]. apply IH; lia.
  - rd_in. pose proof (bget_range b (off + 1) Hb). if_case; auto with safe. rewrite read_bytes_ok by lia. cbn [mbnd]. apply IH; lia.
Qed.

(** The values come from between [off] and [end_]. *)
Lemma ext_elements_inside fuel b profile end_ off vals vals' ok k v :
  bytes_ok b -> 0 <= off -> end_ <= blen b -> ext_elements fuel b profile end_ off vals = Ret (ok, vals') -> vals' !! k = Some v ->
  vals !! k = Some v \/ exists o, off <= o /\ o + blen v <= end_ /\ v = slice b o (blen v).
Proof.
  intros Hb. revert off vals. induction fuel as [|fuel IH]; intros off vals H0 He E Hk; simpl in E.
  { revert E. if_case; intros [= <- <-]; by left. }
  revert E. if_case; [intros [= <- <-]; by left|].
  rd_in. pose proof (land15_range (bget b off)).
  assert (forall o n id, off <= o -> 0 <= n -> o + n <= end_ ->
    mbnd (read_bytes b o n) (fun value => ext_elements fuel b profile end_ (o + n) (<[id := value]> vals)) = Ret (ok, vals') ->
    vals !! k = Some v \/ exists o, off <= o /\ o + blen v <= end_ /\ v = slice b o (blen v)) as Hread.
  { intros o n id Ho Hn Hon E. rewrite read_bytes_ok in E by lia. cbn [mbnd] in E.
    destruct (IH (o + n) _ ltac:(lia) He E Hk) as [Hv|(p & Hp & Hv)]; [|right; exists p; split; [lia|done]].
    destruct (decide (id = k)) as [->|]; [|rewrite lookup_insert_ne in Hv by done; by left].
    rewrite lookup_insert_eq in Hv. injection Hv as <-. right. exists o.
    assert (blen (slice b o n) = n) as -> by (unfold slice, blen in *; rewrite length_take, length_drop; lia). done. }
  repeat if_case; try (intros [= <- <-]; by left).
  - intros E. destruct (IH (off + 1) _ ltac:(lia) He E Hk) as [?|(p & ? & ?)]; [by left|]. right. exists p. split; [lia|done].
  - intros E. eapply Hread; [..|exact E]; lia.
  - rd_in. pose proof (bget_range b (off + 1) Hb). if_case; [intros [= <- <-]; by left|]. intros E. eapply Hread; [..|exact E]; lia.
Qed.

Lemma slice2 b off : 0 <= off -> off + 2 <= blen b ->
  slice b off 2 = [bget b off; bget b (off + 1)].
Proof.
  intros H0 H1. unfold slice, blen, bget in *. rewrite !nth_lookup.
  destruct (lookup_lt_is_Some_2 b (Z.to_nat off)) as [x Hx]; [lia|].
  destruct (lookup_lt_is_Some_2 b (S (Z.to_nat off))) as [y Hy]; [lia|].
  replace (Z.to_nat (off + 1)) with (S (Z.to_nat off)) by lia.
  rewrite (drop_S b x) by done. rewrite (drop_S b y) by done. by rewrite Hx, Hy.
Qed.

Lemma slice_length b off n : 0 <= off -> 0 <= n -> off + n <= blen b ->
  length (slice b off n) = Z.to_nat n.
Proof. unfold slice, blen. intros. rewrite length_take, length_drop. lia. Qed.

(** The value of a two-byte element. *)
Definition tcc_value (v : option (list Z)) : option Z :=
  match v with
  | Some [h; l] => Some (h * 256 + l)
  | _ => None
  end.

Lemma tcc_value_len l : length l <> 2%nat -> tcc_value (Some l) = None.
Proof. destruct l as [|a [|b [|c l]]]; done. Qed.

Lemma tcc_elements_agree fuel b id end_ off vals vals' :
  bytes_ok b -> 0 <= off -> end_ <= blen b -> id <> 15 ->
  ext_elements fuel b 0xBEDE end_ off vals = Ret (true, vals') ->
  vals !! id = None ->
  tcc_elements fuel b id end_ off = Ret (tcc_value (vals' !! id)).
Proof.
  intros Hb. revert off vals. induction fuel as [|fuel IH]; intros off vals H0 He Hid E Hn.
  { simpl in *. destruct (negb _) eqn:G; [|done]. injection E as <-. by rewrite Hn. }
  simpl in *. destruct (negb _) eqn:G; bool_hyps. { injection E as <-. by rewrite Hn. }
  revert E. rd_in. pose proof (land15_range (bget b off)).
  if_case. { intros E. eapply IH; [lia..| |exact E|]; done. }
  if_case. { intros [= <-]. by rewrite Hn. }
  rewrite Z.add_assoc. if_case. rewrite read_bytes_ok by (rewrite ?bool_decide_eq_false in *; bool_hyps; lia). cbn [mbnd]. intros E.
  rewrite bool_decide_eq_false in *. bool_hyps.
  destruct (Z.gtb_spec (off + 1 + Z.land (bget b off) 15 + 1) end_); [lia|].
  replace (off + (1 + (Z.land (bget b off) 15 + 1)))
    with (off + 1 + Z.land (bget b off) 15 + 1) by lia.
  if_case.
  - subst id. erewrite (ext_elements_mono _ _ _ _ _ _ vals');
      [|exact E|by rewrite lookup_insert_eq].
    if_case.
    + symmetry. f_equal. apply tcc_value_len. rewrite slice_length by lia. lia.
    + rewrite !rd_ok by lia. cbn [mbnd]. match goal with H : Z.land _ _ + 1 = 2 |- _ => rewrite H end.
      rewrite slice2 by lia. simpl tcc_value.
      rewrite <- (Z.add_assoc off 1 1). f_equal. f_equal.
      rewrite wrap_small.
      * rewrite lor_be16 by (by apply bget_u8). done.
      * pose proof (bget_range b (off + 1) Hb). rewrite Z.shiftl_mul_pow2 by lia. words.
  - eapply IH; [lia|lia|done|exact E|]. by rewrite lookup_insert_ne.
Qed.

Lemma tcc_elements_returns fuel b id end_ off :
  bytes_ok b -> 0 <= off -> end_ <= blen b -> end_ - off <= Z.of_nat fuel ->
  returns (tcc_elements fuel b id end_ off).
Proof.
  intros Hb. revert off. induction fuel as [|fuel IH]; intros off H0 He Hf; simpl.
  { if_case; [auto with safe|lia]. }
  if_case; [auto with safe|]. rd_in. pose proof (land15_range (bget b off)).
  repeat if_case; auto with safe; try (apply IH; lia).
  rewrite !rd_ok by lia. cbn [mbnd]. auto with safe.
Qed.

Lemma cc_range x : 12 <= 12 + 4 * Z.land x 15.
Proof. pose proof (land15_range x). lia. Qed.

Lemma lor16_range h l : is_u8 h -> is_u8 l -> 0 <= Z.lor (Z.shiftl h 8) l.
Proof. intros. rewrite lor_be16 by done. words. Qed.

Lemma u16_shift8 x : is_u8 x -> u16 (Z.shiftl x 8) = Z.shiftl x 8.
Proof. intros. apply wrap_small. rewrite Z.shiftl_mul_pow2 by lia. words. Qed.

Lemma extension_reader_returns b vals : bytes_ok b -> returns (ReadRtpHeaderExtensions (Some b) vals).
Proof.
  intros Hb. unfold ReadRtpHeaderExtensions. if_case; [auto with safe|]. rd_in.
  pose proof (cc_range (bget b 0)). set (m := 12 + 4 * Z.land (bget b 0) 15) in *.
  if_case; [auto with safe|]. if_case; [auto with safe|].
  apply returns_bind.
  - if_case; [|auto with safe]. if_case; [auto with safe|]. rewrite !rd_ok by lia. cbn [mbnd].
    if_case; [auto with safe|]. if_case; [|auto with safe].
    apply returns_bind; [|auto with safe]. apply ext_elements_returns; try done; lia.
  - intros [[off|] vals'] _; [|auto with safe]. if_case; [|auto with safe]. rd_in.
    if_case; auto with safe.
Qed.

(** The extension block: behind its header, and its end. *)
Definition block_begin (b : list Z) : Z := 12 + 4 * (bget b 0 mod 16) + 4.
Definition block_end (b : list Z) : Z :=
  block_begin b + 4 * (bget b (block_begin b - 2) * 256 + bget b (block_begin b - 1)).

Lemma extension_reader_inside b vals ok vals' k v : bytes_ok b ->
  ReadRtpHeaderExtensions (Some b) vals = Ret (ok, vals') -> vals' !! k = Some v ->
  vals !! k = Some v \/ exists o, block_begin b <= o /\ o + blen v <= block_end b <= blen b /\ v = slice b o (blen v).
Proof.
  intros Hb. unfold ReadRtpHeaderExtensions. if_case; [intros [= <- <-]; by left|]. rd_in.
  pose proof (cc_range (bget b 0)). rewrite land_15 in *. set (m := 12 + 4 * (bget b 0 mod 16)) in *.
  if_case; [intros [= <- <-]; by left|]. if_case; [intros [= <- <-]; by left|]. intros E Hk.
  apply mbnd_ret_inv in E as ([off vals1] & E1 & E).
  assert (vals1 = vals') as ->.
  { destruct off; [|by injection E as _ <-]. revert E. if_case; [|by intros [= _ <-]]. rd_in. if_case; by intros [= _ <-]. }
  clear E. revert E1. if_case; [|intros [= _ <-]; by left]. if_case; [intros [= _ <-]; by left|].
  rewrite !rd_ok by lia. cbn [mbnd].
  assert (Z.lor (Z.shiftl (bget b (m + 2)) 8) (bget b (m + 3)) = bget b (m + 2) * 256 + bget b (m + 3)) as ->
    by (apply lor_be16; by apply bget_u8).
  assert (m + 4 + 4 * (bget b (m + 2) * 256 + bget b (m + 3)) = block_end b) as ->.
  { unfold block_end, block_begin. fold m. replace (m + 4 - 2) with (m + 2) by lia. by replace (m + 4 - 1) with (m + 3) by lia. }
  if_case; [intros [= _ <-]; by left|]. if_case; [|intros [= _ <-]; by left].
  intros E. apply mbnd_ret_inv in E as ([ok1 vals2] & E & E2). injection E2 as _ <-.
  apply (ext_elements_inside _ b _ _ _ vals _ _ k v) in E as [?|(o & ? & ? & ?)]; [by left| |done|lia|lia|done].
  right. exists o. unfold block_begin. fold m. done.
Qed.

(** C4: on any byte buffer the header-extension parser and the Transport-CC
    reader terminate and read only inside the packet, and each value the parser adds is a part
    of the packet that lies inside its extension block. *)
Theorem extension_parsers_safe b vals id :
  bytes_ok b ->
  (exists ok vals', ReadRtpHeaderExtensions (Some b) vals = Ret (ok, vals') /\
    forall k v, vals' !! k = Some v -> vals !! k = Some v \/
      exists o, block_begin b <= o /\ o + blen v <= block_end b <= blen b /\ v = slice b o (blen v)) /\
  returns (TransportCcRead (Some b) id).
Proof.
  intros Hb. split.
  { destruct (extension_reader_returns b vals Hb) as [[ok vals'] E]. exists ok, vals'. split; [done|].
    intros k v. by apply (extension_reader_inside b vals ok). }
  unfold TransportCcRead. if_case; [auto with safe|]. rd_in. if_case; [auto with safe|].
  pose proof (land15_range (bget b 0)). if_case; [auto with safe|]. rewrite !rd_ok by lia.
  cbn [mbnd]. if_case; [auto with safe|]. if_case; [auto with safe|].
  apply tcc_elements_returns; try done; lia.
Qed.

(** The packet has an extension block in the one-byte form of RFC 8285. *)
Definition one_byte_profile (b : list Z) : bool :=
  let m := 12 + 4 * (bget b 0 mod 16) in
  ((bget b 0 / 16) mod 2 =? 1) && (bget b m * 256 + bget b (m + 1) =? 0xBEDE).

(** the two independent extension parsers agree.  When
    [ReadRtpHeaderExtensions] accepts a packet, the payload bounds are defined
    and [RtpTransportCcExtension::Read] finds the sequence number under an id
    exactly when the one-byte form is used and the parsed map holds a two-byte
    value there. *)
Theorem header_extension_parsers_agree b vals id :
  bytes_ok b -> 1 <= id <= 14 ->
  ReadRtpHeaderExtensions (Some b) ∅ = Ret (true, vals) ->
  (exists n e, RtpPayloadBounds (Some b) = Ret (Some (n, e))) /\
  TransportCcRead (Some b) id =
    Ret (if one_byte_profile b then tcc_value (vals !! id) else None).
Proof.
  intros Hb Hid. rewrite RtpPayloadBounds_eq by done.
  unfold ReadRtpHeaderExtensions, TransportCcRead, rtp_bounds, rtp_begin, one_byte_profile.
  destruct (Z.ltb_spec (blen b) 12); [done|].
  rewrite (proj2 (Z.eqb_neq id 0)) by lia. destruct (Z.gtb_spec id 14); [lia|]. cbn [orb].
  rewrite !rd_ok by lia. cbn [mbnd]. rewrite shiftr_div by lia. change (2 ^ 6) with 64.
  destruct (negb (bget b 0 / 64 =? 2)); [done|]. cbn [orb].
  rewrite <- (negb_involutive (Z.land (bget b 0) 16 =? 0)).
  fold (flag (bget b 0) 16). rewrite flag_10, flag_20, land_15, (Z.mul_comm _ 4).
  pose proof (bget_range b 0 Hb). set (m := 12 + 4 * (bget b 0 mod 16)) in *.
  assert (12 <= m) by (subst m; words).
  destruct (Z.gtb_spec m (blen b)); [done|].
  set (pad := (bget b 0 / 32) mod 2 =? 1). set (pd := bget b (blen b - 1)).
  (* the padding check is common to all branches *)
  assert (forall n vals', n <= blen b ->
    (if pad then if (pd =? 0) || (pd >? blen b - n) then Ret (false, vals') else Ret (true, vals')
     else Ret (true, vals')) = Ret (true, vals) ->
    vals' = vals /\ exists n' e,
      Ret (if pad then if (pd =? 0) || (pd >? blen b - n) then None else Some (n, blen b - pd)
       else Some (n, blen b)) = Ret (Some (n', e))) as Tail.
  { intros n vals' _. destruct pad; [destruct (_ || _)|]; intros [= <-]; eauto. }
  destruct ((bget b 0 / 16) mod 2 =? 1); cbn [negb andb].
  2:{ cbn [mbnd]. intros E. apply Tail in E as [<- T]; [|lia]. by split. }
  destruct (Z.gtb_spec (m + 4) (blen b)); [done|]. rewrite !rd_ok by lia. cbn [mbnd].
  rewrite !u16_shift8 by (by apply bget_u8). rewrite !lor_be16 by (by apply bget_u8).
  pose proof (bget_range b (m + 2) Hb). pose proof (bget_range b (m + 3) Hb).
  replace (m + (4 + 4 * (bget b (m + 2) * 256 + bget b (m + 3))))
    with (m + 4 + 4 * (bget b (m + 2) * 256 + bget b (m + 3))) by lia.
  rewrite (Z.mul_comm _ 4). set (en := m + 4 + 4 * (bget b (m + 2) * 256 + bget b (m + 3))) in *.
  destruct (Z.ltb_spec (blen b - m) 4); [lia|]. destruct (Z.ltb_spec (blen b) (m + 4)); [lia|].
  destruct (Z.gtb_spec en (blen b)); [done|]. destruct (Z.ltb_spec (blen b) en); [lia|].
  destruct (Z.eqb_spec (bget b m * 256 + bget b (m + 1)) 48862) as [Ep|Ep]; cbn [orb negb].
  - rewrite Ep, mbnd_assoc. intros E. apply mbnd_ret_inv in E as ([ok vals'] & E1 & E).
    cbn [mbnd fst snd] in E. destruct ok; [|done]. apply Tail in E as [<- T]; [|done].
    split; [done|]. eapply tcc_elements_agree; try done; lia.
  - intros E. split; [|done]. destruct (_ =? 4096).
    + rewrite mbnd_assoc in E. apply mbnd_ret_inv in E as ([ok vals'] & E1 & E).
      cbn [mbnd fst snd] in E. destruct ok; [|done]. by apply Tail in E as [_ T].
    + cbn [mbnd] in E. by apply Tail in E as [_ T].
Qed.

(** ** Witnesses

    One packet with a one-byte header extension (id 3 carries the
    transport-wide number 0x1234), a payload and two bytes of padding. *)
Definition ex_rtp : list Z :=
  [176; 224; 255; 254; 0; 0; 16; 0; 0; 0; 0; 77; 190; 222; 0; 1; 49; 18; 52; 0; 1; 2; 3; 0; 2].

Definition ex_header : RtpHeader := mkRtpHeader 2 true true 0 true 96 65534 4096 77.

Lemma ex_rtp_ok : bytes_ok ex_rtp.
Proof. unfold ex_rtp, bytes_ok. repeat constructor; words. Qed.

Lemma rtp_header_roundtrip_witness :
  header_ok ex_header /\ exists rest, ex_rtp = rfc3550_header ex_header ++ rest.
Proof. exact (proj1 (rtp_header_roundtrip RtpHeader_init ex_rtp ex_header ex_rtp_ok) eq_refl). Defined.

Lemma receiver_layout_agrees_witness :
  RtpPayloadBounds (Some ex_rtp) = Ret (Some (20, 20 + 3)) /\ owned 96 77 ex_header = true.
Proof.
  destruct (proj1 (receiver_layout_agrees true 96 77 ex_rtp ex_header 20 3 ex_rtp_ok) eq_refl)
    as (_ & E & O & _).
  split; [exact E|exact O].
Defined.

Lemma rtx_roundtrip_witness :
  exists q, EncapsulateRtx ex_rtp 97 88 5 = Ret (Some q) /\
    DecapsulateRtx q 96 77 = Ret (Some (strip_padding ex_rtp 23)).
Proof.
  destruct (rtx_roundtrip ex_rtp ex_header 20 23 97 88 5) as (q & E & _ & D);
    [exact ex_rtp_ok|reflexivity|reflexivity|lia|simpl; lia|lia|words|lia|words|].
  exists q. split; [exact E|exact D].
Defined.

Lemma extension_parsers_safe_witness : returns (TransportCcRead (Some ex_rtp) 3).
Proof. exact (proj2 (extension_parsers_safe ex_rtp ∅ 3 ex_rtp_ok)). Defined.

Lemma header_extension_parsers_agree_witness :
  exists vals, ReadRtpHeaderExtensions (Some ex_rtp) ∅ = Ret (true, vals) /\
    TransportCcRead (Some ex_rtp) 3 = Ret (if one_byte_profile ex_rtp then tcc_value (vals !! 3) else None).
Proof.
  eexists. split; [reflexivity|].
  refine (proj2 (header_extension_parsers_agree ex_rtp _ 3 ex_rtp_ok _ eq_refl)). lia.
Defined.
