(* ===== verification/OrdMap.v ===== *)
(** * std::map with integer keys

    [std::map<K, V>] iterates in key order and several components depend on
    that order ([begin()], range loops, [upper_bound]).  The model is a list
    of pairs kept strictly sorted by key; the operations are the ones the
    sources use. *)
From S2P Require Import Prelude.

Definition omap (A : Type) : Type := list (Z * A).

Section OrdMap.
Context {A : Type}.
Implicit Types (m : list (Z * A)) (k : Z) (v : A).

(** [m.find(k)] *)
Fixpoint om_find k m : option A :=
  match m with
  | [] => None
  | (k', v) :: m => if k =? k' then Some v else om_find k m
  end.

(** [m.emplace(k, v)]: does nothing when the key is present. *)
Fixpoint om_emplace k v m : list (Z * A) :=
  match m with
  | [] => [(k, v)]
  | (k', v') :: m' =>
    if k <? k' then (k, v) :: m
    else if k =? k' then m
    else (k', v') :: om_emplace k v m'
  end.

(** [m.erase(k)] *)
Fixpoint om_erase k m : list (Z * A) :=
  match m with
  | [] => []
  | (k', v') :: m' => if k =? k' then m' else (k', v') :: om_erase k m'
  end.

Definition om_size m : Z := Z.of_nat (length m).

(** Strictly increasing keys. *)
Inductive om_ok : list (Z * A) -> Prop :=
| om_ok_nil : om_ok []
| om_ok_cons k v m :
    om_ok m -> (forall k' v', (k', v') ∈ m -> k < k') -> om_ok ((k, v) :: m).

Lemma om_ok_inv k v m :
  om_ok ((k, v) :: m) -> om_ok m /\ (forall k' v', (k', v') ∈ m -> k < k').
Proof. inversion 1; subst; eauto. Qed.

Lemma om_find_elem k v m : om_find k m = Some v -> (k, v) ∈ m.
Proof.
  induction m as [|[k' v'] m IH]; simpl; [done|].
  destruct (Z.eqb_spec k k') as [->|].
  - intros [= ->]. apply elem_of_cons. by left.
  - intros H. apply elem_of_cons. right. auto.
Qed.

Lemma om_elem_find k v m : om_ok m -> (k, v) ∈ m -> om_find k m = Some v.
Proof.
  induction 1 as [|k' v' m Hm IH Hlt]; [set_solver|]. rewrite elem_of_cons.
  intros [[= -> ->]|Hin]; simpl.
  - by rewrite Z.eqb_refl.
  - specialize (Hlt _ _ Hin). rewrite (proj2 (Z.eqb_neq k k')) by lia. auto.
Qed.

Lemma om_find_None k m : om_find k m = None <-> forall v, (k, v) ∉ m.
Proof.
  induction m as [|[k' v'] m IH]; simpl; [set_solver|].
  destruct (Z.eqb_spec k k') as [->|Hne].
  - split; [done|]. intros H. exfalso. apply (H v'). apply elem_of_cons. by left.
  - rewrite IH. split; intros H v Hin.
    + apply elem_of_cons in Hin as [[= -> ->]|Hin]; [done|]. by apply (H v).
    + apply (H v). apply elem_of_cons. by right.
Qed.

(** A key below the first one is absent. *)
Lemma om_find_below k m : (forall k' v', (k', v') ∈ m -> k < k') -> om_find k m = None.
Proof. intros H. apply om_find_None. intros v Hin. specialize (H _ _ Hin). lia. Qed.

Lemma om_find_emplace k v m k1 :
  om_ok m ->
  om_find k1 (om_emplace k v m) =
  if k1 =? k then Some (default v (om_find k m)) else om_find k1 m.
Proof.
  induction 1 as [|k' v' m Hm IH Hlt]; simpl.
  { destruct (k1 =? k); done. }
  destruct (Z.ltb_spec k k').
  - simpl. destruct (Z.eqb_spec k1 k) as [->|]; [|done].
    rewrite (proj2 (Z.eqb_neq k k')) by lia.
    rewrite om_find_below; [done|]. intros ?? Hin. specialize (Hlt _ _ Hin). lia.
  - destruct (Z.eqb_spec k k') as [->|]; simpl.
    + destruct (Z.eqb_spec k1 k'); done.
    + rewrite IH. destruct (Z.eqb_spec k1 k'), (Z.eqb_spec k1 k); subst; done.
Qed.

Lemma om_emplace_keys k v m k1 v1 :
  (k1, v1) ∈ om_emplace k v m -> k1 = k \/ (k1, v1) ∈ m.
Proof.
  induction m as [|[k' v'] m IH]; simpl.
  { intros H. apply list_elem_of_singleton in H as [= -> ->]. by left. }
  destruct (k <? k'). { intros [[= -> ->]|H']%elem_of_cons; auto. }
  destruct (k =? k'); [auto|]. rewrite !elem_of_cons. intros [H|H]; [auto|]. destruct (IH H); auto.
Qed.

Lemma om_ok_emplace k v m : om_ok m -> om_ok (om_emplace k v m).
Proof.
  induction 1 as [|k' v' m Hm IH Hlt]; simpl.
  { constructor; [constructor|set_solver]. }
  destruct (Z.ltb_spec k k').
  - constructor; [by constructor|]. intros k1 v1 [[= -> ->]|Hin]%elem_of_cons; [done|].
    specialize (Hlt _ _ Hin). lia.
  - destruct (Z.eqb_spec k k'); [by constructor|]. constructor; [done|].
    intros k1 v1 Hin. destruct (om_emplace_keys _ _ _ _ _ Hin) as [->|]; [lia|eauto].
Qed.

Lemma om_emplace_present k v m : om_ok m -> om_find k m <> None -> om_emplace k v m = m.
Proof.
  induction 1 as [|k' v' m Hm IH Hlt]; simpl; [done|].
  destruct (Z.eqb_spec k k') as [->|]. { by rewrite Z.ltb_irrefl. }
  intros Hf. destruct (Z.ltb_spec k k'); [|by rewrite IH].
  exfalso. apply Hf. apply om_find_below. intros ?? Hin. specialize (Hlt _ _ Hin). lia.
Qed.

Lemma om_emplace_size_absent k v m :
  om_find k m = None -> om_size (om_emplace k v m) = om_size m + 1.
Proof.
  unfold om_size. induction m as [|[k' v'] m IH]; simpl; [done|].
  destruct (Z.eqb_spec k k'); [done|]. intros Hf. destruct (k <? k'); simpl; [lia|].
  specialize (IH Hf). lia.
Qed.

Lemma om_erase_elem k m k1 v1 : (k1, v1) ∈ om_erase k m -> (k1, v1) ∈ m.
Proof.
  induction m as [|[k' v'] m IH]; simpl; [done|]. destruct (k =? k'); rewrite !elem_of_cons; tauto.
Qed.

Lemma om_ok_erase k m : om_ok m -> om_ok (om_erase k m).
Proof.
  induction 1 as [|k' v' m Hm IH Hlt]; simpl; [constructor|].
  destruct (k =? k'); [done|]. constructor; [done|]. intros ?? ?%om_erase_elem. eauto.
Qed.

Lemma om_find_erase k m k1 :
  om_ok m -> om_find k1 (om_erase k m) = if k1 =? k then None else om_find k1 m.
Proof.
  induction 1 as [|k' v' m Hm IH Hlt]; simpl; [by destruct (k1 =? k)|].
  destruct (Z.eqb_spec k k') as [->|].
  - destruct (Z.eqb_spec k1 k') as [->|]; [|done]. apply om_find_below. eauto.
  - simpl. rewrite IH. destruct (Z.eqb_spec k1 k'), (Z.eqb_spec k1 k); subst; done.
Qed.

Lemma om_erase_size k m v :
  om_find k m = Some v -> om_size (om_erase k m) = om_size m - 1.
Proof.
  unfold om_size. induction m as [|[k' v'] m IH]; simpl; [done|].
  destruct (k =? k'); simpl; intros; [lia|]. specialize (IH H). lia.
Qed.

(** Dropping entries while iterating keeps the order. *)
Lemma om_ok_filter (f : Z * A -> bool) m : om_ok m -> om_ok (List.filter f m).
Proof.
  induction 1 as [|k v m Hm IH Hlt]; simpl; [constructor|]. destruct (f (k, v)); [|done].
  constructor; [done|]. intros k' v' Hin. apply (Hlt k' v').
  rewrite list_elem_of_In in *. by apply List.filter_In in Hin as [? _].
Qed.

Lemma om_size_nonneg m : 0 <= om_size m.
Proof. unfold om_size. lia. Qed.

End OrdMap.

Create HintDb omap.
#[export] Hint Resolve om_ok_nil om_ok_emplace om_ok_erase om_ok_filter om_size_nonneg : omap.
