(* ===== verification/ReorderQueue.v ===== *)
(** * RTP packet reorder queue

    Models [RtpPacketReorderQueue] (Rtsp/RtpPacketReorderQueue.h), the jitter
    buffer of one SSRC.  Time points are nanoseconds of the steady clock.  The
    callback set by [setOnPacketSorted] is modelled by the list of emitted
    packets each operation returns; [em_ext] is the extended sequence number,
    which the code keeps in [next_] and does not pass to the callback.  The
    64-bit counters and [next_] are unbounded integers. *)
From S2P Require Import Prelude OrdMap.

Section ReorderQueue.
Context {Packet : Type}.

Record ResyncConfig := {
  consecutive_packets : Z;
  stalled_ms : Z;
  probation_ms : Z
}.

Definition ResyncConfig_default : ResyncConfig := {|
  consecutive_packets := 3; stalled_ms := 500; probation_ms := 100 |}.

Record Stats := mkStats {
  emitted : Z;
  lost : Z;
  duplicates : Z;
  late : Z;
  out_of_window : Z;
  timeouts : Z;
  overflows : Z;
  resync_attempts : Z;
  resyncs : Z
}.

Definition Stats_zero : Stats := mkStats 0 0 0 0 0 0 0 0 0.

Record Buffered := mkBuffered { packet : Packet; arrived : Z }.

(** The configuration members, constant after construction. *)
Record Config := mkConfig {
  max_gap_ : Z;
  max_cache_ : Z;
  timeout_ : Z;
  resync_ : ResyncConfig
}.

Record Queue := mkQueue {
  last_progress_ : Z;
  resync_started_ : Z;
  resync_last_ : Z;
  resync_count_ : Z;
  started_ : bool;
  next_ : Z;
  buffer_ : list (Z * Buffered);
  stats_ : Stats
}.

Record Emitted := mkEmitted { em_seq : Z; em_packet : Packet; em_ext : Z }.

Definition milliseconds (n : Z) : Z := n * 1000000.

(** The constructor throws [std::invalid_argument] where this is [None]. *)
Definition RtpPacketReorderQueue (max_gap max_cache flush_timeout_ms : Z) (resync : ResyncConfig)
    : option (Config * Queue) :=
  if (max_gap =? 0) || (max_gap >? 0x8000) || (max_cache >=? 0x8000) then None else
  if negb (consecutive_packets resync =? 0) &&
     ((consecutive_packets resync <? 2) || (consecutive_packets resync >=? 0x8000) ||
      (stalled_ms resync =? 0) || (probation_ms resync =? 0)) then None else
  Some (mkConfig max_gap max_cache (milliseconds flush_timeout_ms) resync,
        mkQueue 0 0 0 0 false 0 [] Stats_zero).

(** ** Field updates *)

Definition set_buffer (b : list (Z * Buffered)) (q : Queue) : Queue :=
  mkQueue (last_progress_ q) (resync_started_ q) (resync_last_ q) (resync_count_ q)
    (started_ q) (next_ q) b (stats_ q).
Definition set_stats (f : Stats -> Stats) (q : Queue) : Queue :=
  mkQueue (last_progress_ q) (resync_started_ q) (resync_last_ q) (resync_count_ q)
    (started_ q) (next_ q) (buffer_ q) (f (stats_ q)).
Definition set_next (n : Z) (q : Queue) : Queue :=
  mkQueue (last_progress_ q) (resync_started_ q) (resync_last_ q) (resync_count_ q)
    (started_ q) n (buffer_ q) (stats_ q).
Definition set_started (q : Queue) : Queue :=
  mkQueue (last_progress_ q) (resync_started_ q) (resync_last_ q) (resync_count_ q)
    true (next_ q) (buffer_ q) (stats_ q).
Definition set_progress (now : Z) (q : Queue) : Queue :=
  mkQueue now (resync_started_ q) (resync_last_ q) (resync_count_ q)
    (started_ q) (next_ q) (buffer_ q) (stats_ q).
Definition set_resync (started last count : Z) (q : Queue) : Queue :=
  mkQueue (last_progress_ q) started last count (started_ q) (next_ q) (buffer_ q) (stats_ q).

Definition add_emitted (s : Stats) : Stats :=
  mkStats (emitted s + 1) (lost s) (duplicates s) (late s) (out_of_window s) (timeouts s)
    (overflows s) (resync_attempts s) (resyncs s).
Definition add_lost (n : Z) (s : Stats) : Stats :=
  mkStats (emitted s) (lost s + n) (duplicates s) (late s) (out_of_window s) (timeouts s)
    (overflows s) (resync_attempts s) (resyncs s).
Definition add_duplicate (s : Stats) : Stats :=
  mkStats (emitted s) (lost s) (duplicates s + 1) (late s) (out_of_window s) (timeouts s)
    (overflows s) (resync_attempts s) (resyncs s).
Definition add_late (s : Stats) : Stats :=
  mkStats (emitted s) (lost s) (duplicates s) (late s + 1) (out_of_window s) (timeouts s)
    (overflows s) (resync_attempts s) (resyncs s).
Definition add_out_of_window (s : Stats) : Stats :=
  mkStats (emitted s) (lost s) (duplicates s) (late s) (out_of_window s + 1) (timeouts s)
    (overflows s) (resync_attempts s) (resyncs s).
Definition add_timeout (s : Stats) : Stats :=
  mkStats (emitted s) (lost s) (duplicates s) (late s) (out_of_window s) (timeouts s + 1)
    (overflows s) (resync_attempts s) (resyncs s).
Definition add_overflow (s : Stats) : Stats :=
  mkStats (emitted s) (lost s) (duplicates s) (late s) (out_of_window s) (timeouts s)
    (overflows s + 1) (resync_attempts s) (resyncs s).
Definition add_attempt (s : Stats) : Stats :=
  mkStats (emitted s) (lost s) (duplicates s) (late s) (out_of_window s) (timeouts s)
    (overflows s) (resync_attempts s + 1) (resyncs s).
Definition add_resync (s : Stats) : Stats :=
  mkStats (emitted s) (lost s) (duplicates s) (late s) (out_of_window s) (timeouts s)
    (overflows s) (resync_attempts s) (resyncs s + 1).

(** ** Private operations *)

Definition ClearResync (q : Queue) : Queue :=
  set_resync (resync_started_ q) (resync_last_ q) 0 q.

Definition Emit (extended : Z) (p : Packet) (now : Z) (q : Queue) : Queue * list Emitted :=
  (set_stats add_emitted (ClearResync (set_progress now (set_next (extended + 1) q))),
   [mkEmitted (u16 extended) p extended]).

(** Only called on a non-empty buffer. *)
Definition SkipToFirst (q : Queue) : Queue :=
  match buffer_ q with
  | [] => q
  | (first, _) :: _ => set_next first (set_stats (add_lost (first - next_ q)) q)
  end.

Definition ConfirmForwardResync (cfg : Config) (seq now : Z) (q : Queue) : bool * Queue :=
  if (consecutive_packets (resync_ cfg) =? 0) || negb (match buffer_ q with [] => true | _ => false end) ||
     (now <? last_progress_ q) ||
     (now - last_progress_ q <? milliseconds (stalled_ms (resync_ cfg)))
  then (false, ClearResync q)
  else if negb (resync_count_ q =? 0) && (seq =? resync_last_ q) then (false, q)
  else
    let q :=
      if (resync_count_ q =? 0) || negb (seq =? u16 (resync_last_ q + 1))
      then set_stats add_attempt (set_resync now (resync_last_ q) 1 q)
      else set_resync (resync_started_ q) (resync_last_ q) (u16 (resync_count_ q + 1)) q in
    let q := set_resync (resync_started_ q) seq (resync_count_ q) q in
    (consecutive_packets (resync_ cfg) <=? resync_count_ q, q).

(** ** Public operations *)

(** [while (!buffer_.empty() && buffer_.begin()->first == next_)] *)
Fixpoint flush_run (buf : list (Z * Buffered)) (now : Z) (q : Queue) : Queue * list Emitted :=
  match buf with
  | [] => (q, [])
  | (key, node) :: rest =>
    if key =? next_ q then
      let '(q1, o1) := Emit key (packet node) now (set_buffer rest q) in
      let '(q2, o2) := flush_run rest now q1 in
      (q2, o1 ++ o2)
    else (q, [])
  end.

Definition flushBuffered (now : Z) (q : Queue) : Queue * list Emitted :=
  flush_run (buffer_ q) now q.

(** The oldest arrival among the buffered packets. *)
Definition oldest_arrival (buf : list (Z * Buffered)) : Z :=
  match buf with
  | [] => 0
  | (_, b0) :: _ =>
    fold_left (fun oldest entry => if arrived entry.2 <? oldest then arrived entry.2 else oldest)
      buf (arrived b0)
  end.

(** The [while (!buffer_.empty())] loop of [flushExpired]. *)
Fixpoint expire_loop (fuel : nat) (cfg : Config) (now : Z) (q : Queue)
    : mres (Queue * list Emitted) :=
  match buffer_ q with
  | [] => Ret (q, [])
  | _ :: _ =>
    match fuel with
    | O => NoFuel
    | S fuel =>
      let oldest := oldest_arrival (buffer_ q) in
      if (now <? oldest) || (now - oldest <? timeout_ cfg) then Ret (q, []) else
      let '(q1, o1) := flushBuffered now (SkipToFirst (set_stats add_timeout q)) in
      let! '(q2, o2) := expire_loop fuel cfg now q1 in
      Ret (q2, o1 ++ o2)
    end
  end.

Definition flushExpired (cfg : Config) (now : Z) (q : Queue) : mres (Queue * list Emitted) :=
  let q :=
    if negb (resync_count_ q =? 0) &&
       ((now <? resync_started_ q) ||
        (milliseconds (probation_ms (resync_ cfg)) <=? now - resync_started_ q))
    then ClearResync q else q in
  expire_loop (length (buffer_ q)) cfg now q.

Fixpoint drain_loop (fuel : nat) (now : Z) (q : Queue) : mres (Queue * list Emitted) :=
  match buffer_ q with
  | [] => Ret (q, [])
  | _ :: _ =>
    match fuel with
    | O => NoFuel
    | S fuel =>
      let '(q1, o1) := flushBuffered now (SkipToFirst q) in
      let! '(q2, o2) := drain_loop fuel now q1 in
      Ret (q2, o1 ++ o2)
    end
  end.

Definition flushTimeout (now : Z) (q : Queue) : mres (Queue * list Emitted) :=
  let q := ClearResync q in
  drain_loop (length (buffer_ q)) now q.

(** [inputPacket] after its first [flushExpired]: classify the packet by its
    distance ahead of [next_]. *)
Definition admitPacket (cfg : Config) (seq : Z) (p : Packet) (now : Z) (q : Queue)
    : mres (Queue * list Emitted) :=
  let delta := u16 (seq - u16 (next_ q)) in
  if delta =? 0x8000 then Ret (set_stats add_out_of_window (ClearResync q), []) else
  if delta >? 0x8000 then Ret (set_stats add_late q, []) else
  if max_gap_ cfg <=? delta then
    let '(confirmed, q) := ConfirmForwardResync cfg seq now q in
    if confirmed then
      let q := set_stats (add_lost delta) (set_stats add_resync q) in
      Ret (Emit (next_ q + delta) p now q)
    else Ret (set_stats add_out_of_window q, [])
  else
  let q := ClearResync q in
  if delta =? 0 then
    let '(q, o1) := Emit (next_ q) p now q in
    let '(q, o2) := flushBuffered now q in
    Ret (q, o1 ++ o2)
  else
  let extended := next_ q + delta in
  match om_find extended (buffer_ q) with
  | Some _ => Ret (set_stats add_duplicate q, [])
  | None =>
    let q := set_buffer (om_emplace extended (mkBuffered p now) (buffer_ q)) q in
    let '(q, o1) :=
      if om_size (buffer_ q) >? max_cache_ cfg then
        flushBuffered now (SkipToFirst (set_stats add_overflow q))
      else (q, []) in
    let! '(q, o2) := flushExpired cfg now q in
    Ret (q, o1 ++ o2)
  end.

Definition inputPacket (cfg : Config) (seq : Z) (p : Packet) (now : Z) (q : Queue)
    : mres (Queue * list Emitted) :=
  if negb (started_ q) then
    Ret (Emit seq p now (set_next seq (set_started q)))
  else
    let! '(q, o0) := flushExpired cfg now q in
    let! '(q, o1) := admitPacket cfg seq p now q in
    Ret (q, o0 ++ o1).

Definition reset (q : Queue) : Queue :=
  mkQueue 0 (resync_started_ q) (resync_last_ q) 0 false 0 [] Stats_zero.

Definition getLostCount (q : Queue) : Z := lost (stats_ q).
Definition getDropCount (q : Queue) : Z :=
  duplicates (stats_ q) + late (stats_ q) + out_of_window (stats_ q).
Definition getBufferedCount (q : Queue) : Z := om_size (buffer_ q).

(** ** Invariant and progress relation

    [R seq p] is any relation between the sequence number of an input packet
    and the packet; showing that it is carried through the queue says that
    every emitted packet is an input packet, emitted under its own number. *)
Variable R : Z -> Packet -> Prop.

Fixpoint incr_from (a : Z) (l : list Z) (b : Z) : Prop :=
  match l with
  | [] => a <= b
  | x :: l => a <= x /\ incr_from (x + 1) l b
  end.

Lemma incr_from_le a l b : incr_from a l b -> a <= b.
Proof. revert a. induction l as [|x l IH]; simpl; [done|]. intros a [? H]. specialize (IH _ H). lia. Qed.

Lemma incr_from_weaken a a' l b : a' <= a -> incr_from a l b -> incr_from a' l b.
Proof. destruct l; simpl; [lia|]. intros ? [? ?]. split; [lia|done]. Qed.

Lemma incr_from_app a l b l' c : incr_from a l b -> incr_from b l' c -> incr_from a (l ++ l') c.
Proof.
  revert a. induction l as [|x l IH]; simpl; intros a.
  - intros. by eapply incr_from_weaken.
  - intros [? ?] ?. split; [done|]. by apply IH.
Qed.

(** An emitted packet carries the low 16 bits of its extended number. *)
Definition em_ok (e : Emitted) : Prop := em_seq e = u16 (em_ext e) /\ R (em_seq e) (em_packet e).

(** Buffered keys lie in the window ahead of [next_]; [strict] after a flush. *)
Record BInv (strict : bool) (gap : Z) (q : Queue) : Prop := {
  bi_ok : om_ok (buffer_ q);
  bi_window : forall k e, (k, e) ∈ buffer_ q ->
    (if strict then next_ q < k else next_ q <= k) /\ k < next_ q + gap /\ R (u16 k) (packet e)
}.

(** What flushing does: packets move from the buffer to the output, gaps are
    accounted as lost, nothing else changes. *)
Record Flushed (q q' : Queue) (o : list Emitted) : Prop := {
  fl_started : started_ q' = started_ q;
  fl_emitted : emitted (stats_ q') = emitted (stats_ q) + Z.of_nat (length o);
  fl_buffer : om_size (buffer_ q') + Z.of_nat (length o) = om_size (buffer_ q);
  fl_next : next_ q' - next_ q = Z.of_nat (length o) + (lost (stats_ q') - lost (stats_ q));
  fl_drop : getDropCount q' = getDropCount q;
  fl_out : incr_from (next_ q) (map em_ext o) (next_ q');
  fl_ok : Forall em_ok o;
  fl_sub : forall k e, (k, e) ∈ buffer_ q' -> (k, e) ∈ buffer_ q
}.

Lemma Flushed_refl q : Flushed q q [].
Proof. split; simpl; auto; lia. Qed.

Lemma Flushed_trans q1 q2 q3 o1 o2 :
  Flushed q1 q2 o1 -> Flushed q2 q3 o2 -> Flushed q1 q3 (o1 ++ o2).
Proof.
  intros [] []. split; rewrite ?length_app, ?map_app; try congruence; try lia.
  - by eapply incr_from_app.
  - by apply Forall_app_2.
  - eauto.
Qed.

Lemma BInv_weaken gap q : BInv true gap q -> BInv false gap q.
Proof. intros [Hok H]. split; [done|]. intros k e Hin. destruct (H k e Hin) as (? & ? & ?). auto with lia. Qed.

Lemma flush_run_spec gap buf now q q' o :
  buffer_ q = buf -> BInv false gap q -> flush_run buf now q = (q', o) ->
  Flushed q q' o /\ BInv true gap q' /\
  (match buf with (k, _) :: _ => k = next_ q -> o <> [] | [] => True end).
Proof.
  revert q q' o. induction buf as [|[k e] buf IH]; intros q q' o Hbuf HI; simpl.
  { intros [= <- <-]. split; [apply Flushed_refl|]. split; [|done].
    split; rewrite Hbuf; [constructor|set_solver]. }
  destruct HI as [Hok Hw]. rewrite Hbuf in Hok, Hw. apply om_ok_inv in Hok as [Hok Hlt].
  destruct (Hw k e) as (Hk1 & Hk2 & HR); [apply elem_of_cons; by left|].
  destruct (Z.eqb_spec k (next_ q)) as [->|Hne].
  2:{ intros [= <- <-]. split; [apply Flushed_refl|]. split; [|by intros].
      split; rewrite Hbuf; [by constructor|]. intros k' e' Hin.
      destruct (Hw k' e' Hin) as (? & ? & ?). split; [|auto].
      apply elem_of_cons in Hin as [[= -> ->]|Hin]; [lia|]. specialize (Hlt _ _ Hin). lia. }
  unfold Emit. match goal with |- context [flush_run buf now ?q1] => set (q1' := q1) end.
  destruct (flush_run buf now q1') as [q2 o2] eqn:E. intros [= <- <-].
  destruct (IH q1' q2 o2) as (HF & HB & _); [done| |done|].
  { split; [done|]. intros k' e' Hin. simpl in *. specialize (Hlt _ _ Hin).
    destruct (Hw k' e') as (? & ? & ?); [apply elem_of_cons; by right|]. auto with lia. }
  split; [|split; [done|by intros]].
  destruct HF as [? Fe Fb Fn ? ? ? Fs]. split; unfold om_size in *; simpl in *; rewrite ?Hbuf; simpl; auto; try lia.
  - constructor; [|done]. by split.
  - intros k' e' Hin. apply elem_of_cons. right. by apply Fs.
Qed.

(** Skipping to the first buffered packet and flushing makes progress. *)
Lemma skip_flush_spec gap now q q' o :
  buffer_ q <> [] -> BInv true gap q -> flushBuffered now (SkipToFirst q) = (q', o) ->
  Flushed q q' o /\ BInv true gap q' /\ o <> [].
Proof.
  intros Hne HI E. destruct (buffer_ q) as [|[k e] buf] eqn:Hbuf; [done|].
  set (q1 := SkipToFirst q).
  assert (buffer_ q1 = (k, e) :: buf) as Hb1 by (subst q1; unfold SkipToFirst; by rewrite Hbuf).
  assert (next_ q1 = k) as Hn1 by (subst q1; unfold SkipToFirst; by rewrite Hbuf).
  destruct HI as [Hok Hw]. rewrite Hbuf in Hok, Hw. pose proof (om_ok_inv _ _ _ Hok) as [Hok' Hlt].
  destruct (Hw k e) as (Hk1 & Hk2 & HR); [apply elem_of_cons; by left|].
  destruct (flush_run_spec gap ((k, e) :: buf) now q1 q' o) as (HF & HB & Hp); [done| | |].
  { split; rewrite Hb1; [done|]. rewrite Hn1. intros k' e' Hin.
    destruct (Hw k' e' Hin) as (? & ? & ?). apply elem_of_cons in Hin as [[= -> ->]|Hin].
    - auto with lia.
    - specialize (Hlt _ _ Hin). auto with lia. }
  { unfold flushBuffered in E. fold q1 in E. by rewrite Hb1 in E. }
  split; [|split; [done|by apply Hp]].
  destruct HF as [Fst Fe Fb Fn Fd Fo Fk Fs].
  assert (stats_ q1 = add_lost (k - next_ q) (stats_ q) /\ started_ q1 = started_ q) as [Hs Hst]
    by (subst q1; unfold SkipToFirst; by rewrite Hbuf).
  rewrite Hb1, Hn1, Hs, Hst in *. unfold getDropCount in *. rewrite Hs in *. simpl in *.
  split; unfold getDropCount; rewrite ?Hbuf; simpl; auto; try lia.
  eapply incr_from_weaken; [|done]. lia.
Qed.

Lemma expire_loop_spec cfg fuel now q :
  BInv true (max_gap_ cfg) q -> (length (buffer_ q) <= fuel)%nat ->
  exists q' o, expire_loop fuel cfg now q = Ret (q', o) /\
    Flushed q q' o /\ BInv true (max_gap_ cfg) q' /\
    (buffer_ q' = [] \/ let t := oldest_arrival (buffer_ q') in now < t \/ now - t < timeout_ cfg).
Proof.
  revert q. induction fuel as [|fuel IH]; intros q HI Hl; simpl.
  { destruct (buffer_ q) eqn:Hb; simpl in *; [|lia]. exists q, []. rewrite Hb.
    split; [done|]. auto using Flushed_refl. }
  destruct (buffer_ q) as [|x buf] eqn:Hb.
  { exists q, []. rewrite Hb. split; [done|]. auto using Flushed_refl. }
  rewrite <- Hb. destruct (_ || _) eqn:Ht.
  { exists q, []. split; [done|]. split; [apply Flushed_refl|]. split; [done|]. right.
    apply orb_prop in Ht as [?|?]; bool_hyps; auto. }
  set (q0 := set_stats add_timeout q).
  assert (buffer_ q0 <> []) as Hne by (simpl; by rewrite Hb).
  assert (BInv true (max_gap_ cfg) q0) as HI0 by (destruct HI; by split).
  destruct (flushBuffered now (SkipToFirst q0)) as [q1 o1] eqn:E1.
  destruct (skip_flush_spec _ _ _ _ _ Hne HI0 E1) as (HF & HB & Ho).
  assert (length (buffer_ q1) <= fuel)%nat as Hl1.
  { destruct HF as [_ _ Fb _ _ _ _ _]. unfold om_size in Fb. simpl in Fb. rewrite Hb in Fb.
    destruct o1; [done|]. simpl in *. lia. }
  destruct (IH q1 HB Hl1) as (q2 & o2 & E2 & HF2 & HB2 & Hx).
  exists q2, (o1 ++ o2). rewrite E2. split; [done|]. split; [|done].
  eapply Flushed_trans; [|done]. destruct HF; by split.
Qed.

Lemma fold_min_le (l : list (Z * Buffered)) a :
  let m := fold_left (fun oldest entry =>
    if arrived entry.2 <? oldest then arrived entry.2 else oldest) l a in
  m <= a /\ forall k e, (k, e) ∈ l -> m <= arrived e.
Proof.
  revert a. induction l as [|[k0 e0] l IH]; intros a; simpl; [split; [lia|set_solver]|].
  set (a' := if arrived e0 <? a then arrived e0 else a).
  assert (a' <= a /\ a' <= arrived e0) as [? ?] by (subst a'; destruct (Z.ltb_spec (arrived e0) a); lia).
  destruct (IH a') as [H1 H2]. split; [lia|].
  intros k e [[= -> ->]|Hin]%elem_of_cons; [lia|eauto].
Qed.

Lemma oldest_arrival_le buf k e : (k, e) ∈ buf -> oldest_arrival buf <= arrived e.
Proof. destruct buf as [|[k0 e0] buf]; [set_solver|]. intros H. by eapply fold_min_le. Qed.

(** No packet has waited for [timeout_] or longer. *)
Definition fresh (cfg : Config) (now : Z) (q : Queue) : Prop :=
  forall k e, (k, e) ∈ buffer_ q -> now - arrived e < timeout_ cfg.

Lemma flushExpired_spec cfg now q :
  0 <= timeout_ cfg -> BInv true (max_gap_ cfg) q ->
  exists q' o, flushExpired cfg now q = Ret (q', o) /\
    Flushed q q' o /\ BInv true (max_gap_ cfg) q' /\ fresh cfg now q'.
Proof.
  intros Ht HI. unfold flushExpired.
  match goal with |- context [expire_loop _ _ _ ?x] => set (q0 := x) end.
  assert (buffer_ q0 = buffer_ q /\ stats_ q0 = stats_ q /\ next_ q0 = next_ q /\
          started_ q0 = started_ q) as (Eb & Es & En & Est) by (subst q0; by destruct (_ && _)).
  assert (BInv true (max_gap_ cfg) q0) as HI0 by (destruct HI; split; rewrite Eb, ?En; done).
  destruct (expire_loop_spec cfg (length (buffer_ q0)) now q0 HI0 ltac:(lia)) as (q' & o & E & HF & HB & Hx).
  exists q', o. split; [done|]. split.
  { destruct HF. unfold getDropCount in *. rewrite Eb, Es, En, Est in *. by split. }
  split; [done|]. intros k e Hin. destruct Hx as [Hx|Hx]; [rewrite Hx in Hin; set_solver|].
  pose proof (oldest_arrival_le _ _ _ Hin). simpl in Hx. lia.
Qed.

Lemma drain_loop_spec gap fuel now q :
  BInv true gap q -> (length (buffer_ q) <= fuel)%nat ->
  exists q' o, drain_loop fuel now q = Ret (q', o) /\ Flushed q q' o /\ BInv true gap q' /\
    buffer_ q' = [].
Proof.
  revert q. induction fuel as [|fuel IH]; intros q HI Hl; simpl.
  { destruct (buffer_ q) eqn:Hb; simpl in *; [|lia]. exists q, []. auto using Flushed_refl. }
  destruct (buffer_ q) as [|x buf] eqn:Hb. { exists q, []. auto using Flushed_refl. }
  destruct (flushBuffered now (SkipToFirst q)) as [q1 o1] eqn:E1.
  destruct (skip_flush_spec gap now q q1 o1) as (HF & HB & Ho); [by rewrite Hb|done|done|].
  assert (length (buffer_ q1) <= fuel)%nat as Hl1.
  { destruct HF as [_ _ Fb _ _ _ _ _]. unfold om_size in Fb. rewrite Hb in Fb.
    destruct o1; [done|]. simpl in *. lia. }
  destruct (IH q1 HB Hl1) as (q2 & o2 & E2 & HF2 & HB2 & Hx).
  exists q2, (o1 ++ o2). rewrite E2. split; [done|]. split; [by eapply Flushed_trans|done].
Qed.

Record cfg_ok (cfg : Config) : Prop := {
  ck_gap : 0 < max_gap_ cfg <= 0x8000;
  ck_cache : 0 <= max_cache_ cfg;
  ck_timeout : 0 <= timeout_ cfg
}.

Record Inv (cfg : Config) (q : Queue) : Prop := {
  inv_buf : BInv true (max_gap_ cfg) q;
  inv_size : om_size (buffer_ q) <= max_cache_ cfg;
  inv_init : started_ q = false -> buffer_ q = []
}.

(** One input packet: it is emitted, buffered or counted as dropped, exactly
    one of these, and the output continues the increasing order. *)
Record Accepted (q q' : Queue) (o : list Emitted) : Prop := {
  ac_started : started_ q' = true;
  ac_emitted : emitted (stats_ q') = emitted (stats_ q) + Z.of_nat (length o);
  ac_account : emitted (stats_ q') + om_size (buffer_ q') + getDropCount q' =
               emitted (stats_ q) + om_size (buffer_ q) + getDropCount q + 1;
  ac_next : next_ q' - next_ q = Z.of_nat (length o) + (lost (stats_ q') - lost (stats_ q));
  ac_out : incr_from (next_ q) (map em_ext o) (next_ q');
  ac_ok : Forall em_ok o
}.

Lemma ext_seq n seq : is_u16 seq -> u16 (n + u16 (seq - u16 n)) = seq.
Proof. intros. words. Qed.

(** A state change that only touches the resynchronisation fields. *)
Definition same_core (q q' : Queue) : Prop :=
  buffer_ q' = buffer_ q /\ next_ q' = next_ q /\ started_ q' = started_ q /\
  emitted (stats_ q') = emitted (stats_ q) /\ lost (stats_ q') = lost (stats_ q) /\
  getDropCount q' = getDropCount q.

Lemma ConfirmForwardResync_core cfg seq now q c q' :
  ConfirmForwardResync cfg seq now q = (c, q') ->
  same_core q q' /\ (c = true -> buffer_ q = []).
Proof.
  unfold ConfirmForwardResync, same_core. destruct (buffer_ q) eqn:Hb.
  - repeat case_match; intros [= <- <-]; by repeat split.
  - rewrite orb_true_r. simpl. intros [= <- <-]. by repeat split.
Qed.

Lemma Inv_core cfg q q' : same_core q q' -> Inv cfg q -> Inv cfg q'.
Proof.
  intros (Hb & Hn & Hs & _) [[? ?] ? ?]. split; [split|..]; rewrite ?Hb, ?Hn, ?Hs; done.
Qed.

Lemma Flushed_Inv cfg q q' o :
  Flushed q q' o -> BInv true (max_gap_ cfg) q' -> started_ q = true ->
  om_size (buffer_ q) <= max_cache_ cfg -> Inv cfg q'.
Proof. intros [] ???. split; [done|lia|congruence]. Qed.

(** Closing a sequence of flushes and one direct change into [Accepted]. *)
Lemma Flushed_Accepted q q1 q2 q' o1 o2 o3 :
  Flushed q q1 o1 -> Accepted q1 q2 o2 -> Flushed q2 q' o3 ->
  Accepted q q' (o1 ++ o2 ++ o3).
Proof.
  intros [] [] []. split; rewrite ?length_app, ?map_app; try congruence; try lia.
  - by eapply incr_from_app; [|eapply incr_from_app].
  - by apply Forall_app_2; [|apply Forall_app_2].
Qed.

Lemma drop_Accepted q q' :
  started_ q = true -> started_ q' = true -> buffer_ q' = buffer_ q -> next_ q' = next_ q ->
  emitted (stats_ q') = emitted (stats_ q) -> lost (stats_ q') = lost (stats_ q) ->
  getDropCount q' = getDropCount q + 1 -> Accepted q q' [].
Proof. intros ?? Hb Hn He Hl Hd. split; rewrite ?Hb, ?Hn, ?He, ?Hl, ?Hd; simpl; auto; lia. Qed.

(** Emitting the input packet itself, [n] numbers ahead of [next_]. *)
Lemma Emit_Accepted q q1 seq p now n :
  same_core q q1 -> started_ q = true -> 0 <= n -> u16 (next_ q + n) = seq -> R seq p ->
  let q2 := set_stats (add_lost n) q1 in
  Accepted q (Emit (next_ q1 + n) p now q2).1 (Emit (next_ q1 + n) p now q2).2.
Proof.
  intros (Hb & Hn & Hs & He & Hl & Hd) Hst H0 Hseq HR.
  unfold getDropCount in Hd. split; unfold getDropCount; simpl; rewrite ?Hb, ?Hn; try congruence; try lia.
  constructor; [|constructor]. split; simpl; [done|]. by rewrite Hseq.
Qed.

(** Storing the input packet in the window. *)
Lemma insert_spec cfg q seq p now d :
  cfg_ok cfg -> Inv cfg q -> started_ q = true -> 0 < d < max_gap_ cfg ->
  u16 (next_ q + d) = seq -> R seq p -> om_find (next_ q + d) (buffer_ q) = None ->
  let q' := set_buffer (om_emplace (next_ q + d) (mkBuffered p now) (buffer_ q)) q in
  Accepted q q' [] /\ BInv true (max_gap_ cfg) q' /\
  om_size (buffer_ q') = om_size (buffer_ q) + 1.
Proof.
  intros Hc [[Hok Hw] Hsz _] Hst Hd Hseq HR Hf q'.
  pose proof (om_emplace_size_absent _ (mkBuffered p now) _ Hf) as Hlen.
  split; [|split; [|exact Hlen]].
  - split; simpl; auto; try lia. unfold getDropCount. simpl. rewrite Hlen. lia.
  - split; simpl; [by apply om_ok_emplace|]. intros k e Hin.
    apply om_elem_find in Hin; [|by apply om_ok_emplace]. rewrite om_find_emplace in Hin by done.
    destruct (Z.eqb_spec k (next_ q + d)) as [->|].
    + rewrite Hf in Hin. injection Hin as <-. simpl. rewrite Hseq. auto with lia.
    + apply om_find_elem in Hin. apply (Hw k e Hin).
Qed.

Lemma fresh_sub cfg now q q' :
  (forall k e, (k, e) ∈ buffer_ q' -> (k, e) ∈ buffer_ q) -> fresh cfg now q -> fresh cfg now q'.
Proof. intros H Hf k e Hin. eauto. Qed.

(** What one accepted packet leaves behind. *)
Definition Took (cfg : Config) (now : Z) (q q' : Queue) (o : list Emitted) : Prop :=
  Accepted q q' o /\ Inv cfg q' /\ fresh cfg now q'.

Lemma drop_ok cfg now q q1 q' :
  Inv cfg q -> fresh cfg now q -> started_ q = true -> same_core q q1 ->
  same_core (set_stats add_late q1) q' \/ same_core (set_stats add_duplicate q1) q' \/
  same_core (set_stats add_out_of_window q1) q' ->
  Took cfg now q q' [].
Proof.
  intros HI Hf Hst (Hb & Hn & Hs & He & Hl & Hd) H.
  assert (buffer_ q' = buffer_ q /\ next_ q' = next_ q /\ started_ q' = started_ q) as (Eb & En & Es)
    by (destruct H as [H|[H|H]]; destruct H as (?&?&?&_); simpl in *; repeat split; congruence).
  split; [|split].
  - apply drop_Accepted; try congruence;
      destruct H as [H|[H|H]]; destruct H as (?&?&?&?&?&?);
      unfold getDropCount in *; simpl in *; lia.
  - destruct HI as [[? ?] ? ?]. split; [split|..]; rewrite ?Eb, ?En, ?Es; done.
  - intros k e. rewrite Eb. apply Hf.
Qed.

Lemma same_core_refl q : same_core q q.
Proof. by repeat split. Qed.

Lemma resync_ok cfg now q q1 seq p d :
  cfg_ok cfg -> started_ q = true -> buffer_ q = [] -> same_core q q1 -> 0 <= d ->
  u16 (next_ q + d) = seq -> R seq p ->
  let q2 := set_stats (add_lost d) (set_stats add_resync q1) in
  Took cfg now q (Emit (next_ q2 + d) p now q2).1 (Emit (next_ q2 + d) p now q2).2.
Proof.
  intros Hc Hst Hb Hcore Hd Hseq HR q2.
  assert (same_core q (set_stats add_resync q1)) as Hcore' by done.
  split; [by apply (Emit_Accepted q (set_stats add_resync q1) seq p now d)|].
  assert (buffer_ (Emit (next_ q2 + d) p now q2).1 = []) as Hb3.
  { simpl. destruct Hcore as [-> _]. done. }
  split; [|intros ??; rewrite Hb3; set_solver].
  split; [split; rewrite Hb3; [constructor|set_solver]|rewrite Hb3; apply Hc|done].
Qed.

(** The expected packet, and whatever it unblocks. *)
Lemma next_ok cfg now q q1 seq p q' o2 :
  Inv cfg q -> fresh cfg now q -> started_ q = true -> same_core q q1 ->
  u16 (next_ q) = seq -> R seq p ->
  flushBuffered now (Emit (next_ q1) p now q1).1 = (q', o2) ->
  Took cfg now q q' ((Emit (next_ q1) p now q1).2 ++ o2).
Proof.
  intros HI Hf Hst Hcore Hseq HR E.
  pose proof Hcore as (Hb & Hn & Hs & He & Hl & Hd).
  destruct (flush_run_spec (max_gap_ cfg) (buffer_ q1) now (Emit (next_ q1) p now q1).1 q' o2)
    as (HF & HB & _); [done| |done|].
  { destruct HI as [[Hok Hw] _ _]. split; simpl; rewrite Hb; [done|]. intros k e Hin.
    destruct (Hw k e Hin) as (? & ? & ?). rewrite Hn. auto with lia. }
  assert (Accepted q (Emit (next_ q1) p now q1).1 (Emit (next_ q1) p now q1).2) as HA.
  { unfold getDropCount in *. split; unfold getDropCount; simpl; rewrite ?Hb, ?Hn; try congruence; try lia.
    constructor; [|constructor]. split; simpl; [done|]. by rewrite Hseq. }
  split; [|split].
  - change ((Emit (next_ q1) p now q1).2 ++ o2) with ([] ++ (Emit (next_ q1) p now q1).2 ++ o2).
    by eapply Flushed_Accepted; [apply Flushed_refl|..].
  - eapply Flushed_Inv; [done|done|simpl; congruence|]. simpl. rewrite Hb. apply HI.
  - intros k e Hin. apply (Hf k e). rewrite <- Hb. by apply (fl_sub _ _ _ HF).
Qed.

(** A packet ahead of a gap: stored, then overflow and expiry are handled. *)
Lemma insert_ok cfg now q q1 seq p d :
  cfg_ok cfg -> Inv cfg q -> started_ q = true -> same_core q q1 -> 0 < d < max_gap_ cfg ->
  u16 (next_ q + d) = seq -> R seq p -> om_find (next_ q + d) (buffer_ q1) = None ->
  let q2 := set_buffer (om_emplace (next_ q + d) (mkBuffered p now) (buffer_ q1)) q1 in
  let r := if om_size (buffer_ q2) >? max_cache_ cfg then
             flushBuffered now (SkipToFirst (set_stats add_overflow q2)) else (q2, []) in
  exists q' o2, flushExpired cfg now r.1 = Ret (q', o2) /\ Took cfg now q q' (r.2 ++ o2).
Proof.
  intros Hc HI Hst Hcore Hd Hseq HR Hf q2 r.
  pose proof (Inv_core _ _ _ Hcore HI) as HI1. pose proof Hcore as (Hb & Hn & Hs & He & Hl & Hdc).
  destruct (insert_spec cfg q1 seq p now d) as (HA & HB & Hsz);
    [done|done|congruence|done|congruence|done|congruence|].
  rewrite Hn in *. fold q2 in HA, HB, Hsz.
  assert (Accepted q q2 []) as HA2.
  { destruct HA. split; auto; try congruence; lia. }
  assert (Flushed q2 r.1 r.2 /\ BInv true (max_gap_ cfg) r.1 /\
          om_size (buffer_ r.1) <= max_cache_ cfg) as (HF & HBr & Hszr).
  { subst r. destruct (Z.gtb_spec (om_size (buffer_ q2)) (max_cache_ cfg)) as [Hgt|Hle].
    2:{ split; [apply Flushed_refl|]. split; [done|]. simpl in *. lia. }
    destruct (flushBuffered now _) as [q3 o] eqn:E.
    destruct (skip_flush_spec (max_gap_ cfg) now (set_stats add_overflow q2) q3 o) as (HF & HB3 & Hne).
    { intros H0. simpl in Hsz, H0. rewrite H0 in Hsz. pose proof (om_size_nonneg (buffer_ q1)).
      unfold om_size in *. simpl in *. lia. }
    { by destruct HB. }
    { done. }
    assert (Flushed q2 q3 o) as HF' by (destruct HF; by split).
    split; [done|]. split; [done|]. pose proof (fl_buffer _ _ _ HF') as Hfb.
    pose proof (inv_size _ _ HI1). simpl in *. destruct o; [done|]. simpl in *. lia. }
  destruct (flushExpired_spec cfg now r.1) as (q' & o2 & E & HF2 & HB2 & Hfr); [apply Hc|done|].
  exists q', o2. split; [done|]. split; [|split; [|done]].
  - change (r.2 ++ o2) with ([] ++ [] ++ (r.2 ++ o2)).
    eapply Flushed_Accepted; [apply Flushed_refl|done|]. by eapply Flushed_trans.
  - eapply Flushed_Inv; [done|done| |done]. pose proof (fl_started _ _ _ HF).
    pose proof (ac_started _ _ _ HA2). congruence.
Qed.

Lemma admitPacket_spec cfg seq p now q :
  cfg_ok cfg -> Inv cfg q -> fresh cfg now q -> is_u16 seq -> R seq p -> started_ q = true ->
  exists q' o, admitPacket cfg seq p now q = Ret (q', o) /\ Took cfg now q q' o.
Proof.
  intros Hc HI Hf Hseq HR Hst. unfold admitPacket.
  pose proof (ext_seq (next_ q) seq Hseq) as Hext. set (d := u16 (seq - u16 (next_ q))) in *.
  assert (0 <= d < 65536) as Hd by (subst d; words).
  assert (same_core q (ClearResync q)) as Hcl by (by repeat split).
  destruct (d =? 0x8000).
  { eexists _, _. split; [done|]. apply (drop_ok cfg now q (ClearResync q)); auto using same_core_refl. }
  destruct (Z.gtb_spec d 0x8000).
  { eexists _, _. split; [done|]. apply (drop_ok cfg now q (q)); auto using same_core_refl. }
  destruct (Z.leb_spec (max_gap_ cfg) d).
  { destruct (ConfirmForwardResync cfg seq now q) as [c q2] eqn:Ec.
    apply ConfirmForwardResync_core in Ec as [Hcore Hemp]. destruct c.
    - eexists _, _. split; [done|]. apply (resync_ok cfg now q q2 seq p d); auto; lia.
    - eexists _, _. split; [done|]. apply (drop_ok cfg now q (q2)); auto using same_core_refl. }
  destruct (Z.eqb_spec d 0) as [Hz|Hz].
  { rewrite Hz, Z.add_0_r in Hext. unfold Emit at 1.
    match goal with |- context [flushBuffered now ?x] =>
      destruct (flushBuffered now x) as [q' o2] eqn:E end.
    eexists _, _. split; [done|]. by apply (next_ok cfg now q (ClearResync q) seq p q' o2). }
  destruct (om_find _ _) eqn:Hfind.
  { eexists _, _. split; [done|]. apply (drop_ok cfg now q (ClearResync q)); auto using same_core_refl. }
  destruct (insert_ok cfg now q (ClearResync q) seq p d) as (q' & o2 & E & HA); auto; [lia|].
  exists q'. simpl in E, HA |- *. destruct (if _ >? _ then _ else _) as [q3 o1]. simpl in E, HA.
  exists (o1 ++ o2). rewrite E. done.
Qed.

Lemma inputPacket_started cfg seq p now q :
  cfg_ok cfg -> Inv cfg q -> is_u16 seq -> R seq p -> started_ q = true ->
  exists q' o, inputPacket cfg seq p now q = Ret (q', o) /\ Took cfg now q q' o.
Proof.
  intros Hc HI Hseq HR Hst. unfold inputPacket. rewrite Hst. cbn [negb].
  destruct (flushExpired_spec cfg now q) as (q1 & o0 & E0 & HF0 & HB0 & Hfr);
    [by apply Hc|apply HI|]. rewrite E0. cbn [mbnd].
  assert (started_ q1 = true) as Hst1 by (destruct HF0; congruence).
  assert (Inv cfg q1) as HI1 by (eapply Flushed_Inv; eauto; apply HI).
  destruct (admitPacket_spec cfg seq p now q1) as (q2 & o1 & E1 & HA & HI2 & Hf2); auto.
  exists q2, (o0 ++ o1). rewrite E1. split; [done|]. split; [|done].
  rewrite <- (app_nil_r o1). by eapply Flushed_Accepted; eauto using Flushed_refl.
Qed.

(** The other entry points. *)
Lemma inputPacket_first cfg seq p now q :
  cfg_ok cfg -> Inv cfg q -> is_u16 seq -> R seq p -> started_ q = false ->
  exists q' o, inputPacket cfg seq p now q = Ret (q', o) /\
    Took cfg now (set_next seq (set_started q)) q' o.
Proof.
  intros Hc HI Hseq HR Hst. unfold inputPacket. rewrite Hst. eexists _, _. split; [done|].
  pose proof (inv_init _ _ HI Hst) as Hb.
  split; [|split].
  - split; unfold getDropCount; simpl; try lia; auto.
    constructor; [|constructor]. split; simpl; [done|]. by rewrite wrap_small.
  - split; [split|..]; simpl; rewrite ?Hb; auto; [constructor|set_solver|apply Hc].
  - intros k e. simpl. rewrite Hb. set_solver.
Qed.

Lemma flushTimeout_spec cfg now q :
  Inv cfg q -> exists q' o, flushTimeout now q = Ret (q', o) /\ Flushed q q' o /\ Inv cfg q' /\
    buffer_ q' = [].
Proof.
  intros HI. unfold flushTimeout. set (q0 := ClearResync q).
  destruct (drain_loop_spec (max_gap_ cfg) (length (buffer_ q0)) now q0) as (q' & o & E & HF & HB & Hx);
    [by destruct (inv_buf _ _ HI)|lia|].
  exists q', o. split; [done|]. split; [by destruct HF|]. split; [|done].
  split; [done| |done]. rewrite Hx. pose proof (inv_size _ _ HI).
  pose proof (om_size_nonneg (buffer_ q)). unfold om_size in *. simpl in *. lia.
Qed.

Lemma flushBuffered_spec cfg now q q' o :
  Inv cfg q -> flushBuffered now q = (q', o) -> Flushed q q' o /\ Inv cfg q'.
Proof.
  intros HI E. destruct (flush_run_spec (max_gap_ cfg) (buffer_ q) now q q' o) as (HF & HB & _);
    [done|apply BInv_weaken, HI|done|].
  split; [done|]. pose proof (fl_started _ _ _ HF). pose proof (fl_buffer _ _ _ HF).
  split; [done|pose proof (inv_size _ _ HI); lia|]. intros Hs. rewrite Hs in *.
  pose proof (inv_init _ _ HI ltac:(congruence)) as Hb. rewrite Hb in *.
  destruct (buffer_ q'); [done|]. unfold om_size in *. simpl in *. lia.
Qed.

Lemma flushExpired_Inv cfg now q :
  cfg_ok cfg -> Inv cfg q -> exists q' o, flushExpired cfg now q = Ret (q', o) /\
    Flushed q q' o /\ Inv cfg q' /\ fresh cfg now q'.
Proof.
  intros Hc HI. destruct (flushExpired_spec cfg now q) as (q' & o & E & HF & HB & Hx);
    [apply Hc|apply HI|].
  exists q', o. split; [done|]. split; [done|]. split; [|done].
  pose proof (fl_started _ _ _ HF). pose proof (fl_buffer _ _ _ HF).
  split; [done|pose proof (inv_size _ _ HI); lia|]. intros Hs. rewrite Hs in *.
  pose proof (inv_init _ _ HI ltac:(congruence)) as Hb. rewrite Hb in *.
  destruct (buffer_ q'); [done|]. unfold om_size in *. simpl in *. lia.
Qed.

(** ** Sequences of operations *)

Inductive QueueOp :=
| OpInput (seq : Z) (p : Packet) (now : Z)
| OpTick (now : Z)
| OpFlush (now : Z)
| OpDrain (now : Z).

Definition exec (cfg : Config) (op : QueueOp) (q : Queue) : mres (Queue * list Emitted) :=
  match op with
  | OpInput seq p now => inputPacket cfg seq p now q
  | OpTick now => flushExpired cfg now q
  | OpFlush now => Ret (flushBuffered now q)
  | OpDrain now => flushTimeout now q
  end.

Fixpoint run (cfg : Config) (ops : list QueueOp) (q : Queue) : mres (Queue * list Emitted) :=
  match ops with
  | [] => Ret (q, [])
  | op :: ops =>
    let! '(q1, o1) := exec cfg op q in
    let! '(q2, o2) := run cfg ops q1 in
    Ret (q2, o1 ++ o2)
  end.

(** The packets handed to the queue, with the sequence number of each. *)
Fixpoint inputs (ops : list QueueOp) : list (Z * Packet) :=
  match ops with
  | [] => []
  | OpInput seq p _ :: ops => (seq, p) :: inputs ops
  | _ :: ops => inputs ops
  end.

(** The ledger of a run from a started queue: what came in is out, held or
    counted, and the numbers passed are emitted or counted as lost. *)
Record Ledger (n : Z) (q q' : Queue) (o : list Emitted) : Prop := {
  lg_started : started_ q' = true;
  lg_emitted : emitted (stats_ q') = emitted (stats_ q) + Z.of_nat (length o);
  lg_account : emitted (stats_ q') + om_size (buffer_ q') + getDropCount q' =
               emitted (stats_ q) + om_size (buffer_ q) + getDropCount q + n;
  lg_next : next_ q' - next_ q = Z.of_nat (length o) + (lost (stats_ q') - lost (stats_ q));
  lg_out : incr_from (next_ q) (map em_ext o) (next_ q');
  lg_ok : Forall em_ok o
}.

Lemma Ledger_trans n1 n2 q1 q2 q3 o1 o2 :
  Ledger n1 q1 q2 o1 -> Ledger n2 q2 q3 o2 -> Ledger (n1 + n2) q1 q3 (o1 ++ o2).
Proof.
  intros [] []. split; rewrite ?length_app, ?map_app; try congruence; try lia.
  - by eapply incr_from_app.
  - by apply Forall_app_2.
Qed.

Lemma Accepted_Ledger q q' o : Accepted q q' o -> Ledger 1 q q' o.
Proof. by intros []. Qed.

Lemma Flushed_Ledger q q' o : started_ q = true -> Flushed q q' o -> Ledger 0 q q' o.
Proof. intros ? []. split; auto; try congruence; lia. Qed.

Definition input_ok (op : QueueOp) : Prop :=
  match op with OpInput seq p _ => is_u16 seq /\ R seq p | _ => True end.

Definition input_count (op : QueueOp) : Z := match op with OpInput _ _ _ => 1 | _ => 0 end.

(** Every operation on a started queue. *)
Lemma exec_spec cfg op q :
  cfg_ok cfg -> Inv cfg q -> started_ q = true -> input_ok op ->
  exists q' o, exec cfg op q = Ret (q', o) /\ Inv cfg q' /\ Ledger (input_count op) q q' o.
Proof.
  intros Hc HI Hst Hop. destruct op as [seq p now|now|now|now]; simpl in *.
  - destruct Hop. destruct (inputPacket_started cfg seq p now q) as (q' & o & ? & HA & ? & _); auto.
    exists q', o. auto using Accepted_Ledger.
  - destruct (flushExpired_Inv cfg now q) as (q' & o & ? & ? & ? & _); auto.
    exists q', o. auto using Flushed_Ledger.
  - destruct (flushBuffered now q) as [q' o] eqn:E.
    apply (flushBuffered_spec cfg) in E as [? ?]; auto. exists q', o. auto using Flushed_Ledger.
  - destruct (flushTimeout_spec cfg now q) as (q' & o & ? & ? & ? & _); auto.
    exists q', o. auto using Flushed_Ledger.
Qed.

Lemma run_started cfg ops q :
  cfg_ok cfg -> Inv cfg q -> started_ q = true -> Forall input_ok ops ->
  exists q' o, run cfg ops q = Ret (q', o) /\ Inv cfg q' /\
    Ledger (Z.of_nat (length (inputs ops))) q q' o.
Proof.
  intros Hc. revert q. induction ops as [|op ops IH]; intros q HI Hst Hops; simpl.
  { exists q, []. split; [done|]. split; [done|]. split; simpl; auto; lia. }
  apply Forall_cons in Hops as [Hop Hops].
  destruct (exec_spec cfg op q) as (q1 & o1 & E1 & HI1 & HL1); auto. rewrite E1. simpl.
  destruct (IH q1) as (q2 & o2 & E2 & HI2 & HL2); auto; [apply HL1|]. rewrite E2. simpl.
  exists q2, (o1 ++ o2). split; [done|]. split; [done|].
  replace (Z.of_nat _) with (input_count op + Z.of_nat (length (inputs ops)))
    by (destruct op; simpl; lia).
  by eapply Ledger_trans.
Qed.

End ReorderQueue.
