(* ===== verification/ReorderProps.v ===== *)
(** * Correctness of the reorder queue

    What a client of [RtpPacketReorderQueue] relies on, for every sequence of
    [inputPacket], [flushExpired], [flushBuffered] and [flushTimeout] calls on
    a queue built by the constructor: the output order, the ledger of packets,
    the capacity and waiting bounds, and that a permutation inside the window
    is delivered completely and in order. *)
From S2P Require Import Prelude OrdMap ReorderQueue.

Section Props.
Context {Packet : Type}.
Implicit Types (q : @Queue Packet) (ops : list (@QueueOp Packet)).

(** Arguments of the constructor at their C++ types. *)
Record ctor_args (max_gap max_cache flush_timeout_ms : Z) : Prop := {
  ca_gap : is_u16 max_gap;
  ca_cache : is_u64 max_cache;
  ca_timeout : is_u32 flush_timeout_ms
}.

Lemma ctor_spec R mg mc ms rs cfg q :
  ctor_args mg mc ms -> RtpPacketReorderQueue mg mc ms rs = Some (cfg, q) ->
  cfg_ok cfg /\ Inv R cfg q /\ started_ q = false /\ stats_ q = Stats_zero /\
  max_gap_ cfg = mg /\ max_cache_ cfg = mc /\ timeout_ cfg = milliseconds ms /\ mc < 0x8000.
Proof.
  intros [Hg Hc Ht]. unfold RtpPacketReorderQueue. destruct (_ || _) eqn:E1; [done|].
  destruct (_ && _); [done|]. intros [= <- <-]. bool_hyps.
  unfold is_u in *. pow2. split; [split; simpl; unfold milliseconds; lia|].
  split; [split; [split; [constructor|set_solver]|simpl; unfold om_size; simpl; lia|done]|].
  repeat split; simpl; lia.
Qed.

(** Operations before the first packet leave the empty queue alone. *)
Lemma exec_idle R cfg op q :
  Inv R cfg q -> started_ q = false -> input_count op = 0 ->
  exists q', exec cfg op q = Ret (q', []) /\ same_core q q'.
Proof.
  intros HI Hst Hop. pose proof (inv_init _ _ _ HI Hst) as Hb.
  destruct op as [seq p now|now|now|now]; simpl in *; [lia|..].
  - unfold flushExpired. destruct (negb _ && _); simpl; rewrite Hb; simpl; rewrite ?Hb;
      (eexists; split; [done|by repeat split]).
  - unfold flushBuffered. rewrite Hb. simpl. eexists. split; [done|by repeat split].
  - unfold flushTimeout. simpl. rewrite Hb. simpl. rewrite Hb.
    eexists. split; [done|by repeat split].
Qed.

(** A run from the initial state: either no packet yet, or a ledger that
    starts at the first sequence number. *)
Lemma run_spec R cfg ops q :
  cfg_ok cfg -> Inv R cfg q -> started_ q = false -> Forall (input_ok R) ops ->
  exists q' o, run cfg ops q = Ret (q', o) /\ Inv R cfg q' /\
   ((inputs ops = [] /\ o = [] /\ same_core q q') \/
    exists base q1, same_core (set_next base (set_started q)) q1 /\
      is_u16 base /\ inputs ops !! 0%nat = (fun p => (base, p)) <$> (inputs ops).*2 !! 0%nat /\
      Ledger R (Z.of_nat (length (inputs ops))) q1 q' o).
Proof.
  intros Hc. revert q. induction ops as [|op ops IH]; intros q HI Hst Hops.
  { exists q, []. simpl. split; [done|]. split; [done|]. left. split; [done|]. by repeat split. }
  apply Forall_cons in Hops as [Hop Hops].
  destruct (decide (input_count op = 0)) as [Hin|Hin].
  - destruct (exec_idle R cfg op q) as (q1 & E1 & Hcore); auto. cbn [run]. rewrite E1. cbn [mbnd].
    assert (Inv R cfg q1) as HI1 by (by eapply Inv_core).
    assert (started_ q1 = false) as Hst1 by (destruct Hcore as (_ & _ & -> & _); done).
    destruct (IH q1) as (q2 & o2 & E2 & HI2 & Hcase); auto. rewrite E2. cbn [mbnd app].
    exists q2, o2. split; [done|]. split; [done|].
    assert (inputs (op :: ops) = inputs ops) as -> by (by destruct op).
    destruct Hcore as (Eb & En & Es & Ee & El & Ed). unfold getDropCount in *.
    destruct Hcase as [(? & ? & Hc2)|(base & q1' & Hc2 & ? & ? & HL)].
    + left. split; [done|]. split; [done|]. destruct Hc2 as (?&?&?&?&?&?).
      unfold getDropCount in *. repeat split; unfold getDropCount; congruence.
    + right. exists base, q1'. split; [|done]. destruct Hc2 as (?&?&?&?&?&?). simpl in *.
      unfold getDropCount in *. repeat split; unfold getDropCount; simpl in *; congruence.
  - destruct op as [seq p now| | |]; try done. destruct Hop as [Hseq HR].
    destruct (inputPacket_first R cfg seq p now q) as (q1 & o1 & E1 & HA & HI1 & _); auto.
    cbn [run exec]. rewrite E1. cbn [mbnd].
    destruct (run_started R cfg ops q1) as (q2 & o2 & E2 & HI2 & HL); auto; [apply HA|].
    rewrite E2. cbn [mbnd]. exists q2, (o1 ++ o2). split; [done|]. split; [done|]. right.
    exists seq, (set_next seq (set_started q)). split; [apply same_core_refl|].
    split; [done|]. split; [done|].
    replace (Z.of_nat _) with (1 + Z.of_nat (length (inputs ops))) by (simpl; lia).
    eapply Ledger_trans; [|done]. by apply Accepted_Ledger.
Qed.

Lemma inputs_ok (P : Z -> Packet -> Prop) ops :
  (forall s p, (s, p) ∈ inputs ops -> is_u16 s /\ P s p) -> Forall (input_ok P) ops.
Proof.
  induction ops as [|op ops IH]; intros H; constructor.
  - destruct op; simpl; auto. apply H. simpl. apply elem_of_cons. by left.
  - apply IH. intros s p Hin. apply H. destruct op; simpl; auto. apply elem_of_cons. by right.
Qed.

(** (C6) Output order.  Every run of a constructed queue returns (no loop
    runs forever), the packets come out with strictly increasing extended
    sequence numbers, each under the low 16 bits of its number, and each is an
    input packet handed in under that same number. *)
Theorem reorder_output_order mg mc ms rs cfg q0 ops :
  ctor_args mg mc ms -> RtpPacketReorderQueue mg mc ms rs = Some (cfg, q0) ->
  (forall s p, (s, p) ∈ inputs ops -> is_u16 s) ->
  exists q o base, run cfg ops q0 = Ret (q, o) /\
    incr_from base (map em_ext o) (next_ q) /\
    Forall (fun e => em_seq e = u16 (em_ext e) /\ (em_seq e, em_packet e) ∈ inputs ops) o.
Proof.
  intros Ha Hctor Hin. set (R := fun s p => (s, p) ∈ inputs ops).
  destruct (ctor_spec R _ _ _ _ _ _ Ha Hctor) as (Hc & HI & Hst & _).
  destruct (run_spec R cfg ops q0) as (q & o & E & HIq & Hcase); auto.
  { apply inputs_ok. intros s p H. split; [by eapply Hin|done]. }
  destruct Hcase as [(_ & -> & _)|(base & q1 & (_ & Hn & _) & _ & _ & HL)].
  - exists q, [], (next_ q). split; [done|]. split; [simpl; lia|constructor].
  - exists q, o, base. split; [done|]. simpl in Hn. rewrite <- Hn. split; [apply HL|apply HL].
Qed.

(** (C7) Ledger.  At the end of every run each input packet has been emitted,
    is still buffered, or is counted by exactly one of the drop counters
    ([duplicates], [late], [out_of_window]); [emitted] counts the callback
    invocations; and every sequence number passed since the first packet was
    either emitted or is counted in [lost]. *)
Theorem reorder_ledger mg mc ms rs cfg q0 ops q o :
  ctor_args mg mc ms -> RtpPacketReorderQueue mg mc ms rs = Some (cfg, q0) ->
  (forall s p, (s, p) ∈ inputs ops -> is_u16 s) -> run cfg ops q0 = Ret (q, o) ->
  Z.of_nat (length (inputs ops)) =
    emitted (stats_ q) + getBufferedCount q + getDropCount q /\
  emitted (stats_ q) = Z.of_nat (length o) /\
  (forall first p rest, inputs ops = (first, p) :: rest ->
     next_ q - first = emitted (stats_ q) + getLostCount q).
Proof.
  intros Ha Hctor Hin Hrun. set (R := fun (_ : Z) (_ : Packet) => True).
  destruct (ctor_spec R _ _ _ _ _ _ Ha Hctor) as (Hc & HI & Hst & Hs & _).
  pose proof (inv_init _ _ _ HI Hst) as Hb.
  destruct (run_spec R cfg ops q0) as (q' & o' & E & HIq & Hcase); auto.
  { apply inputs_ok. intros s p H. split; [by eapply Hin|done]. }
  rewrite Hrun in E. injection E as <- <-.
  assert (getDropCount q0 = 0 /\ om_size (buffer_ q0) = 0) as [Hd0 Hz0]
    by (unfold getDropCount; rewrite Hs, Hb; done).
  unfold getBufferedCount, getLostCount.
  destruct Hcase as [(Hnil & -> & Hbq & _ & _ & He & _ & Hd)|
                     (base & q1 & (Hb1 & Hn & _ & He & Hl & Hd) & _ & Hfst & [])].
  - rewrite Hnil, Hbq, He, Hd, Hd0, Hz0, Hs. simpl. split; [done|]. split; [done|]. done.
  - assert (getDropCount q1 = 0) as Hd1 by (rewrite Hd; exact Hd0).
    simpl in Hb1, Hn, He, Hl. rewrite Hs in He, Hl. simpl in He, Hl.
    rewrite Hb1 in *. split; [lia|]. split; [lia|].
    intros first p rest Heq. rewrite Heq in Hfst. simpl in Hfst. injection Hfst as ->. lia.
Qed.

(** (C8) Bounded memory and bounded waiting.  In every reachable state at
    most [max_cache] packets are held, all strictly ahead of [next_] and
    inside the window of [max_gap] numbers; and whenever [inputPacket] or
    [flushExpired] is called at time [now], it returns and no packet left in
    the queue has waited [flush_timeout_ms] or longer; [flushTimeout] leaves
    nothing in the queue. *)
Theorem reorder_bounds mg mc ms rs cfg q0 ops q o :
  ctor_args mg mc ms -> RtpPacketReorderQueue mg mc ms rs = Some (cfg, q0) ->
  (forall s p, (s, p) ∈ inputs ops -> is_u16 s) -> run cfg ops q0 = Ret (q, o) ->
  getBufferedCount q <= mc /\
  (forall k e, (k, e) ∈ buffer_ q -> next_ q < k < next_ q + mg) /\
  (forall now seq p, is_u16 seq -> exists q' o', inputPacket cfg seq p now q = Ret (q', o') /\
     forall k e, (k, e) ∈ buffer_ q' -> now - arrived e < ms * 1000000) /\
  (forall now, exists q' o', flushExpired cfg now q = Ret (q', o') /\
     forall k e, (k, e) ∈ buffer_ q' -> now - arrived e < ms * 1000000) /\
  (forall now, exists q' o', flushTimeout now q = Ret (q', o') /\ buffer_ q' = []).
Proof.
  intros Ha Hctor Hin Hrun. set (R := fun (_ : Z) (_ : Packet) => True).
  destruct (ctor_spec R _ _ _ _ _ _ Ha Hctor) as (Hc & HI & Hst & Hs & Hg & Hm & Ht & _).
  destruct (run_spec R cfg ops q0) as (q' & o' & E & HIq & Hcase); auto.
  { apply inputs_ok. intros s p H. split; [by eapply Hin|done]. }
  rewrite Hrun in E. injection E as <- <-. unfold fresh, milliseconds in *.
  split; [rewrite <- Hm; apply HIq|]. split.
  { intros k e Hk. destruct (bi_window _ _ _ _ (inv_buf _ _ _ HIq) k e Hk) as (? & ? & _).
    rewrite <- Hg. lia. }
  rewrite <- Ht. split; [|split].
  - intros now seq p Hseq. assert (R seq p) by done. destruct (started_ q) eqn:Hsq.
    + destruct (inputPacket_started R cfg seq p now q) as (q' & o' & ? & _ & _ & Hf); auto.
      by exists q', o'.
    + destruct (inputPacket_first R cfg seq p now q) as (q' & o' & ? & _ & _ & Hf); auto.
      by exists q', o'.
  - intros now. destruct (flushExpired_Inv R cfg now q) as (q' & o' & ? & _ & _ & Hf); auto.
    by exists q', o'.
  - intros now. destruct (flushTimeout_spec R cfg now q) as (q' & o' & ? & _ & _ & Hf); auto.
    by exists q', o'.
Qed.

(** ** A permutation inside the window

    The state of a run in which every number in [rcv] has arrived, nothing was
    skipped and nothing was dropped. *)
Record Perfect (base t0 : Z) (rcv : list Z) (q : @Queue Packet) : Prop := {
  pf_started : started_ q = true;
  pf_base : base < next_ q;
  pf_lost : lost (stats_ q) = 0;
  pf_drop : getDropCount q = 0;
  pf_below : forall x, base <= x < next_ q -> x ∈ rcv;
  pf_buffer : forall k e, (k, e) ∈ buffer_ q -> k ∈ rcv /\ t0 <= arrived e;
  pf_count : om_size (buffer_ q) + (next_ q - base) = Z.of_nat (length rcv)
}.

Lemma oldest_arrival_ge buf t : buf <> [] ->
  (forall k (e : @Buffered Packet), (k, e) ∈ buf -> t <= arrived e) -> t <= oldest_arrival buf.
Proof.
  destruct buf as [|[k0 e0] buf]; [done|]. intros _ H. unfold oldest_arrival.
  set (f := fun _ _ => _). generalize (H k0 e0 ltac:(apply elem_of_cons; by left)).
  generalize (arrived e0). revert H. generalize ((k0, e0) :: buf) as l.
  induction l as [|[k e] l IH]; intros H a Ha; simpl; [done|].
  apply IH; [intros; apply (H k1 e1); apply elem_of_cons; by right|].
  unfold f at 1. simpl. pose proof (H k e ltac:(apply elem_of_cons; by left)).
  destruct (_ <? _); lia.
Qed.

(** Expiry does nothing while every held packet is within its deadline. *)
Lemma flushExpired_idle cfg now t0 q :
  (forall k e, (k, e) ∈ buffer_ q -> t0 <= arrived e) -> now - t0 < timeout_ cfg ->
  exists q', flushExpired cfg now q = Ret (q', []) /\ same_core q q'.
Proof.
  intros Hb Ht. unfold flushExpired.
  match goal with |- context [expire_loop _ _ _ ?x] => set (q1 := x) end.
  assert (same_core q q1) as Hcore by (subst q1; destruct (_ && _); by repeat split).
  exists q1. split; [|done]. destruct Hcore as [Eb _]. rewrite <- Eb in Hb.
  destruct (buffer_ q1) as [|x buf] eqn:E; simpl; rewrite E; [done|].
  pose proof (oldest_arrival_ge (x :: buf) t0 ltac:(done) Hb).
  rewrite (proj2 (Z.ltb_lt (now - oldest_arrival (x :: buf)) (timeout_ cfg))) by lia.
  by rewrite orb_true_r.
Qed.

(** Flushing passes exactly the numbers it takes from the buffer. *)
Lemma flush_run_numbers buf now q q' o :
  buffer_ q = buf -> flush_run buf now q = (q', o) ->
  started_ q' = started_ q /\
  lost (stats_ q') = lost (stats_ q) /\ getDropCount q' = getDropCount q /\ next_ q <= next_ q' /\
  (forall x, next_ q <= x < next_ q' -> exists e, (x, e) ∈ buf) /\
  (forall k e, (k, e) ∈ buffer_ q' -> (k, e) ∈ buf).
Proof.
  revert q q' o. induction buf as [|[k e] buf IH]; intros q q' o Hb; simpl.
  { intros [= <- <-]. rewrite Hb. repeat split; auto; lia. }
  destruct (Z.eqb_spec k (next_ q)) as [->|].
  2:{ intros [= <- <-]. rewrite Hb. repeat split; auto; lia. }
  unfold Emit. match goal with |- context [flush_run buf now ?x] => set (q1 := x) end.
  destruct (flush_run buf now q1) as [q2 o2] eqn:E. intros [= <- <-].
  destruct (IH q1 q2 o2) as (? & Hl & Hd & Hn & Hx & Hs); [done|done|].
  unfold getDropCount in *. simpl in *. repeat split; auto; try lia.
  - intros x Hx'. destruct (decide (x = next_ q)) as [->|].
    + exists e. apply elem_of_cons. by left.
    + destruct (Hx x) as [e' He]; [lia|]. exists e'. apply elem_of_cons. by right.
  - intros k' e' Hin. apply elem_of_cons. right. eauto.
Qed.

Section Step.
Variables (R : Z -> Packet -> Prop) (cfg : Config) (base t0 n : Z).
Hypothesis Hcfg : cfg_ok cfg.
Hypothesis Hgap : n < max_gap_ cfg.
Hypothesis Hcache : n <= max_cache_ cfg.

Lemma Perfect_core rcv q q' : same_core q q' -> Perfect base t0 rcv q -> Perfect base t0 rcv q'.
Proof.
  intros (Hb & Hn & Hs & _ & Hl & Hd) []. split; rewrite ?Hb, ?Hn, ?Hs, ?Hl, ?Hd; done.
Qed.

(** An in-window packet that is not the next one is stored. *)
Lemma Perfect_insert rcv q x p now :
  Perfect base t0 rcv q -> Z.of_nat (length rcv) <= n -> x ∉ rcv -> t0 <= now -> om_ok (buffer_ q) ->
  let q' := set_buffer (om_emplace x (mkBuffered p now) (buffer_ q)) q in
  om_find x (buffer_ q) = None /\ om_size (buffer_ q') <= max_cache_ cfg /\
  Perfect base t0 (x :: rcv) q'.
Proof.
  intros [] Hlen Hx Ht Hok q'.
  assert (om_find x (buffer_ q) = None) as Hf.
  { apply om_find_None. intros v Hin. destruct (pf_buffer0 x v Hin). done. }
  pose proof (om_emplace_size_absent _ (mkBuffered p now) _ Hf) as Hsz.
  split; [done|]. subst q'. simpl. split; [lia|]. split; simpl; auto; try lia.
  - intros y Hy. apply elem_of_cons. right. auto.
  - intros k e Hin. apply om_elem_find in Hin; [|by apply om_ok_emplace].
    rewrite om_find_emplace in Hin by done. destruct (Z.eqb_spec k x) as [->|].
    + rewrite Hf in Hin. injection Hin as <-. split; [apply elem_of_cons; by left|done].
    + apply om_find_elem in Hin. destruct (pf_buffer0 k e Hin). split; [|done]. apply elem_of_cons. by right.
Qed.

(** One arrival keeps the state perfect. *)
Lemma Perfect_step rcv q x p now :
  Perfect base t0 rcv q -> Inv R cfg q -> R (u16 x) p ->
  Z.of_nat (length rcv) <= n -> x ∉ rcv -> base <= x <= base + n ->
  t0 <= now < t0 + timeout_ cfg ->
  exists q' o, inputPacket cfg (u16 x) p now q = Ret (q', o) /\ Perfect base t0 (x :: rcv) q' /\
    Took R cfg now q q' o.
Proof.
  intros HP HI HR Hlen Hx Hrange Ht.
  destruct (inputPacket_started R cfg (u16 x) p now q) as (q' & o & E & HT); auto;
    [words|apply HP|].
  exists q', o. split; [done|]. split; [|done].
  assert (lost (stats_ q') = 0 -> getDropCount q' = 0 ->
    om_size (buffer_ q') + (next_ q' - base) = Z.of_nat (length (x :: rcv))) as Hcount.
  { destruct HT as [[] _], HP. intros. simpl. lia. }
  revert E. unfold inputPacket. rewrite (pf_started _ _ _ _ HP). cbn [negb].
  destruct (flushExpired_idle cfg now t0 q) as (q1 & E1 & Hcore);
    [intros k e Hin; by eapply pf_buffer|lia|]. rewrite E1. cbn [mbnd].
  pose proof (Perfect_core _ _ _ Hcore HP) as HP1. pose proof (Inv_core _ _ _ _ Hcore HI) as HI1.
  assert (next_ q1 <= x) as Hge.
  { destruct (decide (next_ q1 <= x)); [done|]. destruct Hx. eapply pf_below; [done|lia]. }
  pose proof (pf_base _ _ _ _ HP1). pose proof (ck_gap _ Hcfg). unfold admitPacket.
  replace (u16 (u16 x - u16 (next_ q1))) with (x - next_ q1) by words.
  rewrite (proj2 (Z.eqb_neq (x - next_ q1) 0x8000)) by lia.
  rewrite Z.gtb_ltb, (proj2 (Z.ltb_ge 0x8000 (x - next_ q1))) by lia.
  rewrite (proj2 (Z.leb_gt (max_gap_ cfg) (x - next_ q1))) by lia.
  destruct (Z.eqb_spec (x - next_ q1) 0) as [Hz|Hz].
  - unfold Emit at 1. destruct (flushBuffered now _) as [q2 o2] eqn:E2. intros [= <- _].
    unfold flushBuffered in E2. apply flush_run_numbers in E2 as (Hs & Hl & Hd & Hn & Hnum & Hsub); [|done].
    unfold getDropCount in *. simpl in *. destruct HP1. unfold getDropCount in *.
    assert (x = next_ q1) as -> by lia.
    split; unfold getDropCount; auto; try lia; try congruence.
    + intros y Hy. apply elem_of_cons. destruct (decide (y = next_ q1)); [by left|right].
      destruct (decide (y < next_ q1)); [auto with lia|].
      destruct (Hnum y) as [e He]; [lia|]. by eapply pf_buffer0.
    + intros k e Hin. destruct (pf_buffer0 k e (Hsub _ _ Hin)). split; [|done]. apply elem_of_cons. by right.
    + apply Hcount; lia.
  - replace (next_ (ClearResync q1) + (x - next_ q1)) with x by (simpl; lia).
    destruct (Perfect_insert rcv (ClearResync q1) x p now) as (Hf & Hsz & HP2); auto; [by destruct HP1|lia|apply HI1|].
    cbv zeta. rewrite Hf.
    set (q2 := set_buffer _ _) in *.
    rewrite Z.gtb_ltb, (proj2 (Z.ltb_ge (max_cache_ cfg) _)) by done.
    destruct (flushExpired_idle cfg now t0 q2) as (q3 & E3 & Hcore3);
      [intros k e Hin; by eapply pf_buffer|lia|].
    rewrite E3. intros [= <- _]. by eapply Perfect_core.
Qed.

(** All arrivals. *)
Lemma Perfect_run l rcv q :
  Perfect base t0 rcv q -> Inv R cfg q -> Z.of_nat (length rcv) + Z.of_nat (length l) <= n + 1 ->
  NoDup ((map (fun '(x, _, _) => x) l) ++ rcv) ->
  (forall x p t, (x, p, t) ∈ l -> R (u16 x) p /\ base <= x <= base + n /\ t0 <= t < t0 + timeout_ cfg) ->
  exists q' o, run cfg (map (fun '(x, p, t) => OpInput (u16 x) p t) l) q = Ret (q', o) /\
    Inv R cfg q' /\ Ledger R (Z.of_nat (length l)) q q' o /\
    Perfect base t0 (rev (map (fun '(x, _, _) => x) l) ++ rcv) q'.
Proof.
  revert rcv q. induction l as [|[[x p] t] l IH]; intros rcv q HP HI Hlen Hnd Hl; simpl.
  { exists q, []. split; [done|]. split; [done|]. split; [|done]. split; simpl; auto; try lia. apply HP. }
  simpl in Hnd. apply NoDup_cons in Hnd as [Hx Hnd].
  destruct (Hl x p t) as (HR & Hr & Ht); [apply elem_of_cons; by left|].
  destruct (Perfect_step rcv q x p t) as (q1 & o1 & E1 & HP1 & HA & HI1 & _); auto;
    [simpl in Hlen; lia|set_solver|]. rewrite E1. cbn [mbnd].
  destruct (IH (x :: rcv) q1) as (q2 & o2 & E2 & HI2 & HL2 & HP2); auto.
  { simpl in *. lia. }
  { rewrite NoDup_app in Hnd |- *. destruct Hnd as (Hn1 & Hn2 & Hn3). split; [done|].
    split; [|apply NoDup_cons; split; [set_solver|done]]. intros y Hy. set_solver. }
  { intros. apply Hl. apply elem_of_cons. by right. }
  rewrite E2. cbn [mbnd]. exists q2, (o1 ++ o2). split; [done|]. split; [done|]. split.
  - replace (Z.of_nat (S (length l))) with (1 + Z.of_nat (length l)) by lia.
    eapply Ledger_trans; [|done]. by apply Accepted_Ledger.
  - by rewrite <- app_assoc.
Qed.

End Step.

Lemma om_size_range {A} a b (m : list (Z * A)) :
  om_ok m -> (forall k e, (k, e) ∈ m -> a < k <= b) -> om_size m <= Z.max 0 (b - a).
Proof.
  intros Hok. revert a. induction Hok as [|k v m Hm IH Hlt]; intros a H; unfold om_size in *; simpl; [lia|].
  destruct (H k v) as [? ?]; [apply elem_of_cons; by left|].
  assert (Z.of_nat (length m) <= Z.max 0 (b - k)); [|lia].
  apply IH. intros k' e' Hin. split; [eauto|]. apply (H k' e'). apply elem_of_cons. by right.
Qed.

(** Once all [n + 1] numbers have arrived nothing is left behind. *)
Lemma Perfect_complete R cfg base t0 n rcv q :
  Perfect base t0 rcv q -> Inv R cfg q -> Z.of_nat (length rcv) = n + 1 ->
  (forall x, x ∈ rcv -> x <= base + n) -> next_ q = base + n + 1 /\ buffer_ q = [].
Proof.
  intros [_ Hb0 _ _ _ Hkeys Hcnt] HI Hlen Hle.
  assert (om_size (buffer_ q) <= Z.max 0 (base + n - next_ q)) as Hsz.
  { apply om_size_range; [apply HI|]. intros k e Hin.
    destruct (bi_window _ _ _ _ (inv_buf _ _ _ HI) k e Hin) as (? & _).
    split; [done|]. apply Hle. by destruct (Hkeys k e Hin). }
  pose proof (om_size_nonneg (buffer_ q)). split; [lia|].
  destruct (buffer_ q); [done|]. unfold om_size in *. simpl in *. lia.
Qed.

Lemma incr_from_full l a b :
  incr_from a l b -> Z.of_nat (length l) = b - a -> l = seqZ a (b - a).
Proof.
  revert a. induction l as [|x l IH]; intros a; simpl.
  - intros _ H. rewrite <- H. done.
  - intros [Hx H] Hlen. pose proof (incr_from_le _ _ _ H) as Hle.
    assert (Z.of_nat (length l) <= b - (x + 1)).
    { clear -H. revert H. generalize (x + 1). induction l as [|y l IH]; intros c; simpl; [lia|].
      intros [? H]. specialize (IH _ H). lia. }
    assert (x = a) as -> by lia. rewrite seqZ_cons by lia. f_equal.
    rewrite (IH (a + 1)); [f_equal; lia|done|lia].
Qed.

(** The state behind the first packet. *)
Lemma Perfect_first R cfg q0 base p0 t0 q1 o1 :
  Inv R cfg q0 -> started_ q0 = false -> stats_ q0 = Stats_zero ->
  inputPacket cfg base p0 t0 q0 = Ret (q1, o1) -> Perfect base t0 [base] q1.
Proof.
  intros HI Hst Hs. unfold inputPacket. rewrite Hst. cbn [negb]. intros [= <- _].
  pose proof (inv_init _ _ _ HI Hst) as Hb.
  split; unfold getDropCount; simpl; rewrite ?Hs, ?Hb; simpl; auto; try lia.
  - intros x Hx. apply list_elem_of_singleton. lia.
  - set_solver.
  - unfold om_size. simpl. lia.
Qed.

(** A packet list whose numbers are a permutation of a range. *)
Lemma permuted_range (l : list (Z * Packet * Z)) a n :
  map (fun '(x, _, _) => x) l ≡ₚ seqZ a n ->
  length l = Z.to_nat n /\ NoDup (map (fun '(x, _, _) => x) l) /\
  forall x p t, (x, p, t) ∈ l -> a <= x < a + n.
Proof.
  intros Hperm. split; [|split].
  - rewrite <- (length_seqZ a n), <- Hperm. by rewrite length_map.
  - rewrite Hperm. apply NoDup_seqZ.
  - intros x p t Hin. apply elem_of_seqZ. rewrite <- Hperm.
    apply list_elem_of_In in Hin. apply (List.in_map (fun '(x, _, _) => x)) in Hin.
    by apply list_elem_of_In.
Qed.

(** Restoring the order.  When the first packet is followed, in any
    order, by exactly the next [n] numbers, with [n] inside the window and the
    cache and all arrivals within the flush timeout, the queue emits all
    [n + 1] packets in sequence order, each with its own payload; nothing is
    lost, dropped or left behind. *)
Theorem reorder_restores_order mg mc ms rs cfg q0 base p0 t0 n l :
  ctor_args mg mc ms -> RtpPacketReorderQueue mg mc ms rs = Some (cfg, q0) ->
  is_u16 base -> 0 <= n < mg -> n <= mc ->
  map (fun '(x, _, _) => x) l ≡ₚ seqZ (base + 1) n ->
  (forall x p t, (x, p, t) ∈ l -> t0 <= t < t0 + ms * 1000000) ->
  exists q o,
    run cfg (OpInput base p0 t0 :: map (fun '(x, p, t) => OpInput (u16 x) p t) l) q0 = Ret (q, o) /\
    map em_ext o = seqZ base (n + 1) /\
    Forall (fun e => em_seq e = u16 (em_ext e) /\
      (em_ext e, em_packet e) ∈ (base, p0) :: map (fun '(x, p, _) => (x, p)) l) o /\
    getLostCount q = 0 /\ getDropCount q = 0 /\ buffer_ q = [].
Proof.
  intros Ha Hctor Hbase Hn Hm Hperm Htimes.
  set (R := fun s p => exists x, s = u16 x /\ base <= x <= base + n /\
                         (x, p) ∈ (base, p0) :: map (fun '(x, p, _) => (x, p)) l).
  destruct (ctor_spec R _ _ _ _ _ _ Ha Hctor) as (Hc & HI & Hst & Hs & Hg & Hmc & Ht & Hmc').
  destruct (permuted_range l (base + 1) n Hperm) as (Hlen & Hnd & Hrange).
  assert (R base p0) as HR0.
  { exists base. rewrite wrap_small by done. split; [done|]. split; [lia|]. apply elem_of_cons. by left. }
  destruct (inputPacket_first R cfg base p0 t0 q0) as (q1 & o1 & E1 & HA & HI1 & _); auto.
  pose proof (Perfect_first R _ _ _ _ _ _ _ HI Hst Hs E1) as HP1.
  destruct (Perfect_run R cfg base t0 n Hc ltac:(lia) ltac:(lia) l [base] q1) as
    (q & o & E & HIq & HL & HP); auto.
  { simpl. lia. }
  { apply NoDup_app. split; [done|]. split; [|apply NoDup_singleton].
    intros x Hx Hx'. rewrite Hperm in Hx. apply elem_of_seqZ in Hx. apply list_elem_of_singleton in Hx'. lia. }
  { intros x p t Hin. pose proof (Hrange _ _ _ Hin). split; [|split; [lia|]].
    - exists x. split; [done|]. split; [lia|]. apply elem_of_cons. right.
      apply list_elem_of_In. apply list_elem_of_In in Hin.
      by apply (List.in_map (fun '(x, p, _) => (x, p))) in Hin.
    - rewrite Ht. unfold milliseconds. eauto. }
  set (rcv := rev _ ++ [base]) in *.
  assert (Z.of_nat (length rcv) = n + 1) as Hrl.
  { subst rcv. rewrite length_app, length_rev, length_map. simpl. lia. }
  destruct (Perfect_complete R cfg base t0 n rcv q HP HIq Hrl) as [Hnext Hbuf].
  { intros x Hx. subst rcv.
    apply elem_of_app in Hx as [Hx|Hx%list_elem_of_singleton]; [|lia].
    apply list_elem_of_In, in_rev, list_elem_of_In in Hx. rewrite Hperm in Hx.
    apply elem_of_seqZ in Hx. lia. }
  pose proof (Ledger_trans R _ _ _ _ _ _ _ (Accepted_Ledger R _ _ _ HA) HL) as [_ _ _ Gn Go Gk].
  simpl in Gn, Go. rewrite Hs in Gn. simpl in Gn. destruct HP as [_ _ Hlost Hdrop _ _ _].
  exists q, (o1 ++ o). cbn [run exec]. rewrite E1. cbn [mbnd]. rewrite E. split; [done|].
  assert (map em_ext (o1 ++ o) = seqZ base (n + 1)) as Hexts.
  { replace (n + 1) with (next_ q - base) by lia. apply incr_from_full; [done|]. rewrite length_map. lia. }
  split; [done|]. split; [|done].
  apply Forall_forall. intros e He. rewrite Forall_forall in Gk. destruct (Gk e He) as [Hes HRe].
  split; [done|]. destruct HRe as (x & Hx & Hxr & Hxin).
  assert (em_ext e ∈ seqZ base (n + 1)) as Hin%elem_of_seqZ.
  { rewrite <- Hexts. apply list_elem_of_In. apply in_map, list_elem_of_In. done. }
  assert (em_ext e = x) as ->; [|done]. pose proof (ck_gap _ Hc). words.
Qed.

End Props.

(** ** Witnesses *)

Definition ex_cfg : Config := mkConfig 1000 50 (milliseconds 100) ResyncConfig_default.
Definition ex_queue : @Queue Z := mkQueue 0 0 0 0 false 0 [] Stats_zero.
Definition ex_ops : list (@QueueOp Z) :=
  [OpTick 0; OpInput 65534 1 0; OpInput 0 3 5; OpInput 0 3 6; OpInput 65535 2 7; OpInput 9 4 8;
   OpInput 65533 0 9; OpDrain 10].

Lemma ex_ctor : RtpPacketReorderQueue 1000 50 100 ResyncConfig_default = Some (ex_cfg, ex_queue).
Proof. reflexivity. Qed.

Lemma ex_args : ctor_args 1000 50 100.
Proof. split; words. Qed.

Lemma ex_inputs s p : (s, p) ∈ inputs ex_ops -> is_u16 s.
Proof. simpl. rewrite !elem_of_cons. intros H. destruct_or?; simplify_eq; try words. set_solver. Qed.

Lemma reorder_output_order_witness :
  exists q o base, run ex_cfg ex_ops ex_queue = Ret (q, o) /\
    incr_from base (map em_ext o) (next_ q) /\
    Forall (fun e => em_seq e = u16 (em_ext e) /\ (em_seq e, em_packet e) ∈ inputs ex_ops) o.
Proof. exact (reorder_output_order 1000 50 100 _ _ _ ex_ops ex_args ex_ctor ex_inputs). Defined.

Definition ex_final : mres (@Queue Z * list (@Emitted Z)) := Eval vm_compute in run ex_cfg ex_ops ex_queue.

Lemma reorder_ledger_witness : exists q o, ex_final = Ret (q, o) /\
  Z.of_nat (length (inputs ex_ops)) = emitted (stats_ q) + getBufferedCount q + getDropCount q.
Proof.
  eexists _, _. split; [reflexivity|].
  exact (proj1 (reorder_ledger 1000 50 100 _ ex_cfg ex_queue ex_ops _ _ ex_args ex_ctor ex_inputs
    (eq_refl ex_final))).
Defined.

Lemma reorder_bounds_witness : exists q o, ex_final = Ret (q, o) /\ getBufferedCount q <= 50.
Proof.
  eexists _, _. split; [reflexivity|].
  exact (proj1 (reorder_bounds 1000 50 100 _ ex_cfg ex_queue ex_ops _ _ ex_args ex_ctor ex_inputs
    (eq_refl ex_final))).
Defined.

Lemma reorder_restores_order_witness :
  exists q o, run ex_cfg [OpInput 65534 1 0; OpInput 1 4 1; OpInput 65535 2 2; OpInput 0 3 3] ex_queue =
    Ret (q, o) /\ map em_ext o = [65534; 65535; 65536; 65537] /\ buffer_ q = [].
Proof.
  destruct (reorder_restores_order 1000 50 100 _ ex_cfg ex_queue 65534 1 0 3
    [(65537, 4, 1); (65535, 2, 2); (65536, 3, 3)] ex_args ex_ctor) as (q & o & E & Ho & _ & _ & _ & Hb).
  - words.
  - lia.
  - lia.
  - simpl. vm_compute seqZ. apply perm_trans with [65535; 65537; 65536].
    + apply perm_swap.
    + apply perm_skip. apply perm_swap.
  - intros x p t Hin. rewrite !elem_of_cons in Hin. destruct_or?; simplify_eq; try lia. set_solver.
  - exists q, o. split; [exact E|]. split; [exact Ho|exact Hb].
Defined.
