(* ===== verification/Nack.v ===== *)
(** * NACK requester

    Models [rtsp::NackRequester] (Rtsp/Rtp/NackRequester.h, NackRequester.cpp):
    the receiver-side bookkeeping of missing RTP sequence numbers and the
    policy that decides when a retransmission is requested and when it is
    given up.  [std::map<uint16_t, MissingPacket>] is an ordered map, so
    batches are in key order.  The callbacks are modelled by whether they are
    set and by the batches [Process] returns; the 64-bit statistics counters
    are unbounded. *)
From S2P Require Import Prelude OrdMap.

Module NackRequester.

Record Config := {
  reorder_wait_ms : Z;
  retry_interval_ms : Z;
  max_packet_age_ms : Z;
  max_retries : Z;
  max_nack_list_size : Z;
  max_batch_size : Z;
  max_sequence_gap : Z;
  min_retry_interval_ms : Z;
  max_retry_interval_ms : Z;
  failure_callback_interval_ms : Z
}.

Definition Config_default : Config := {|
  reorder_wait_ms := 20; retry_interval_ms := 50; max_packet_age_ms := 500; max_retries := 5;
  max_nack_list_size := 1000; max_batch_size := 50; max_sequence_gap := 100;
  min_retry_interval_ms := 20; max_retry_interval_ms := 200;
  failure_callback_interval_ms := 500 |}.

Record PacketResult := mkResult {
  was_missing : bool;
  recovered_after_nack : bool;
  times_nacked : Z;
  recovery_time_ms : Z
}.

Definition PacketResult_none : PacketResult := mkResult false false 0 0.

Record Stats := mkStats {
  missing_packets : Z;
  reordered_packets : Z;
  recovered_packets : Z;
  nack_requests : Z;
  abandoned_packets : Z;
  large_gap_resets : Z
}.

Definition Stats_zero : Stats := mkStats 0 0 0 0 0 0.

Record MissingPacket := mkMissing {
  first_missing_ms : Z;
  last_nack_ms : Z;
  nack_count : Z
}.

Record Requester := mkRequester {
  config_ : Config;
  initialized_ : bool;
  newest_seq_ : Z;
  missing_packets_ : list (Z * MissingPacket);
  rtt_ms_ : Z;
  last_failure_callback_ms_ : Z;
  has_failure_callback_time_ : bool;
  stats_ : Stats;
  nack_callback_ : bool;
  recovery_failure_callback_ : bool
}.

Definition construct (c : Config) : Requester :=
  let c := {|
    reorder_wait_ms := reorder_wait_ms c; retry_interval_ms := retry_interval_ms c;
    max_packet_age_ms := max_packet_age_ms c; max_retries := max_retries c;
    max_nack_list_size := max_nack_list_size c; max_batch_size := Z.max 1 (max_batch_size c);
    max_sequence_gap := max_sequence_gap c; min_retry_interval_ms := min_retry_interval_ms c;
    max_retry_interval_ms := Z.max (min_retry_interval_ms c) (max_retry_interval_ms c);
    failure_callback_interval_ms := failure_callback_interval_ms c |} in
  mkRequester c false 0 [] 0 0 false Stats_zero false false.

(** ** Field updates *)

Definition set_missing (m : list (Z * MissingPacket)) (r : Requester) : Requester :=
  mkRequester (config_ r) (initialized_ r) (newest_seq_ r) m (rtt_ms_ r)
    (last_failure_callback_ms_ r) (has_failure_callback_time_ r) (stats_ r)
    (nack_callback_ r) (recovery_failure_callback_ r).
Definition set_stats (s : Stats) (r : Requester) : Requester :=
  mkRequester (config_ r) (initialized_ r) (newest_seq_ r) (missing_packets_ r) (rtt_ms_ r)
    (last_failure_callback_ms_ r) (has_failure_callback_time_ r) s
    (nack_callback_ r) (recovery_failure_callback_ r).
Definition set_newest (n : Z) (r : Requester) : Requester :=
  mkRequester (config_ r) (initialized_ r) n (missing_packets_ r) (rtt_ms_ r)
    (last_failure_callback_ms_ r) (has_failure_callback_time_ r) (stats_ r)
    (nack_callback_ r) (recovery_failure_callback_ r).

Definition add_missing (s : Stats) : Stats :=
  mkStats (missing_packets s + 1) (reordered_packets s) (recovered_packets s) (nack_requests s)
    (abandoned_packets s) (large_gap_resets s).
Definition add_reordered (s : Stats) : Stats :=
  mkStats (missing_packets s) (reordered_packets s + 1) (recovered_packets s) (nack_requests s)
    (abandoned_packets s) (large_gap_resets s).
Definition add_recovered (s : Stats) : Stats :=
  mkStats (missing_packets s) (reordered_packets s) (recovered_packets s + 1) (nack_requests s)
    (abandoned_packets s) (large_gap_resets s).
Definition add_request (s : Stats) : Stats :=
  mkStats (missing_packets s) (reordered_packets s) (recovered_packets s) (nack_requests s + 1)
    (abandoned_packets s) (large_gap_resets s).
Definition add_abandoned (n : Z) (s : Stats) : Stats :=
  mkStats (missing_packets s) (reordered_packets s) (recovered_packets s) (nack_requests s)
    (abandoned_packets s + n) (large_gap_resets s).
Definition add_large_gap (s : Stats) : Stats :=
  mkStats (missing_packets s) (reordered_packets s) (recovered_packets s) (nack_requests s)
    (abandoned_packets s) (large_gap_resets s + 1).

(** ** Operations *)

(** Whether the callback passed to the setters is callable. *)
Definition SetNackCallback (cb : bool) (r : Requester) : Requester :=
  mkRequester (config_ r) (initialized_ r) (newest_seq_ r) (missing_packets_ r) (rtt_ms_ r)
    (last_failure_callback_ms_ r) (has_failure_callback_time_ r) (stats_ r)
    cb (recovery_failure_callback_ r).

Definition SetRecoveryFailureCallback (cb : bool) (r : Requester) : Requester :=
  mkRequester (config_ r) (initialized_ r) (newest_seq_ r) (missing_packets_ r) (rtt_ms_ r)
    (last_failure_callback_ms_ r) (has_failure_callback_time_ r) (stats_ r)
    (nack_callback_ r) cb.

Definition AbandonPending (r : Requester) : Requester :=
  set_missing [] (set_stats (add_abandoned (om_size (missing_packets_ r)) (stats_ r)) r).

Definition IsNewerSequenceNumber (seq reference : Z) : bool :=
  negb (seq =? reference) && (u16 (seq - reference) <? 0x8000).

(** [while (seq != end)]; the fuel is the number of sequence numbers between. *)
Fixpoint add_missing_loop (fuel : nat) (seq end_ now : Z) (r : Requester) : mres Requester :=
  if seq =? end_ then Ret r else
  match fuel with
  | O => NoFuel
  | S fuel =>
    if max_nack_list_size (config_ r) <=? om_size (missing_packets_ r) then Ret r else
    let r :=
      match om_find seq (missing_packets_ r) with
      | Some _ => r
      | None => set_stats (add_missing (stats_ r))
                  (set_missing (om_emplace seq (mkMissing now 0 0) (missing_packets_ r)) r)
      end in
    add_missing_loop fuel (u16 (seq + 1)) end_ now r
  end.

Definition AddMissingPackets (begin end_ now : Z) (r : Requester) : mres Requester :=
  add_missing_loop (Z.to_nat (u16 (end_ - begin))) begin end_ now r.

(** The first half of [OnReceivedPacket]: an arriving packet leaves the map. *)
Definition take_missing (seq now : Z) (recovered_by_fec : bool) (r : Requester)
    : PacketResult * Requester :=
  match om_find seq (missing_packets_ r) with
  | None => (PacketResult_none, r)
  | Some m =>
    let recovered := (0 <? nack_count m) || recovered_by_fec in
    let result := mkResult true recovered (nack_count m)
      (if first_missing_ms m <=? now then now - first_missing_ms m else 0) in
    (result,
     set_missing (om_erase seq (missing_packets_ r))
       (set_stats (if recovered then add_recovered (stats_ r) else add_reordered (stats_ r)) r))
  end.

Definition OnReceivedPacket (seq now : Z) (recovered_by_fec : bool) (r : Requester)
    : mres (PacketResult * Requester) :=
  if negb (initialized_ r) then
    Ret (PacketResult_none,
         mkRequester (config_ r) true seq (missing_packets_ r) (rtt_ms_ r)
           (last_failure_callback_ms_ r) (has_failure_callback_time_ r) (stats_ r)
           (nack_callback_ r) (recovery_failure_callback_ r))
  else
  let '(result, r) := take_missing seq now recovered_by_fec r in
  if negb (IsNewerSequenceNumber seq (newest_seq_ r)) then Ret (result, r) else
  let gap := u16 (seq - newest_seq_ r) in
  if max_sequence_gap (config_ r) <? gap then
    Ret (result, set_stats (add_large_gap (stats_ r)) (set_newest seq (set_missing [] r)))
  else
  let! r := if 1 <? gap then AddMissingPackets (u16 (newest_seq_ r + 1)) seq now r else Ret r in
  Ret (result, set_newest seq r).

(** [std::clamp], [std::max] *)
Definition RetryIntervalMs (r : Requester) : Z :=
  let c := config_ r in
  let fallback := Z.max (min_retry_interval_ms c)
    (Z.min (max_retry_interval_ms c) (retry_interval_ms c)) in
  if rtt_ms_ r =? 0 then fallback else Z.max (min_retry_interval_ms c) (rtt_ms_ r).

(** What the loop of [Process] does with one entry. *)
Inductive Fate := FErase | FAbandon | FKeep | FRequest.

Definition retry_due (r : Requester) (now : Z) (p : MissingPacket) : bool :=
  (nack_count p =? 0) ||
  ((last_nack_ms p <=? now) && (RetryIntervalMs r <=? now - last_nack_ms p)).

Definition fate (r : Requester) (now batch : Z) (p : MissingPacket) : Fate :=
  let c := config_ r in
  if now <? first_missing_ms p then FErase else
  let age := now - first_missing_ms p in
  let retry_due := retry_due r now p in
  let retries_exhausted := (max_retries c <=? nack_count p) && retry_due in
  let expired := max_packet_age_ms c <=? age in
  let too_late_to_request := negb expired && retry_due && negb (rtt_ms_ r =? 0) &&
    (max_packet_age_ms c - age <=? rtt_ms_ r) in
  if expired || retries_exhausted || too_late_to_request then FAbandon else
  if age <? reorder_wait_ms c then FKeep else
  if retry_due && nack_callback_ r && (batch <? max_batch_size c) then FRequest else FKeep.

(** The loop: remaining entries, the two batches and the statistics. *)
Fixpoint process_loop (r : Requester) (now : Z) (l : list (Z * MissingPacket))
    (nacks abandoned : list Z) (s : Stats)
    : list (Z * MissingPacket) * list Z * list Z * Stats :=
  match l with
  | [] => ([], nacks, abandoned, s)
  | (seq, p) :: l =>
    match fate r now (Z.of_nat (length nacks)) p with
    | FErase => process_loop r now l nacks abandoned s
    | FAbandon => process_loop r now l nacks (abandoned ++ [seq]) (add_abandoned 1 s)
    | FKeep =>
      let '(rest, n, a, s) := process_loop r now l nacks abandoned s in
      ((seq, p) :: rest, n, a, s)
    | FRequest =>
      let '(rest, n, a, s) := process_loop r now l (nacks ++ [seq]) abandoned (add_request s) in
      ((seq, mkMissing (first_missing_ms p) now (u32 (nack_count p + 1))) :: rest, n, a, s)
    end
  end.

(** The arguments of the two callbacks, where they are invoked. *)
Record Sent := mkSent { nack_batch : list Z; failure_batch : list Z }.

Definition Process (now : Z) (r : Requester) : Requester * Sent :=
  if negb (initialized_ r) || (match missing_packets_ r with [] => true | _ => false end)
  then (r, mkSent [] []) else
  let '(rest, nacks, abandoned, s) :=
    process_loop r now (missing_packets_ r) [] [] (stats_ r) in
  let r := set_stats s (set_missing rest r) in
  let sent_nacks := if nack_callback_ r then nacks else [] in
  if negb (match abandoned with [] => true | _ => false end) && recovery_failure_callback_ r &&
     (negb (has_failure_callback_time_ r) || (now <? last_failure_callback_ms_ r) ||
      (failure_callback_interval_ms (config_ r) <=? now - last_failure_callback_ms_ r))
  then (mkRequester (config_ r) (initialized_ r) (newest_seq_ r) (missing_packets_ r) (rtt_ms_ r)
          now true (stats_ r) (nack_callback_ r) (recovery_failure_callback_ r),
        mkSent sent_nacks abandoned)
  else (r, mkSent sent_nacks []).

Definition UpdateRtt (rtt : Z) (r : Requester) : Requester :=
  mkRequester (config_ r) (initialized_ r) (newest_seq_ r) (missing_packets_ r) rtt
    (last_failure_callback_ms_ r) (has_failure_callback_time_ r) (stats_ r)
    (nack_callback_ r) (recovery_failure_callback_ r).

Definition ClearUpTo (seq : Z) (r : Requester) : Requester :=
  set_missing (List.filter (fun '(k, _) => IsNewerSequenceNumber k seq) (missing_packets_ r)) r.

Definition Reset (r : Requester) : Requester :=
  mkRequester (config_ r) false 0 [] 0 0 false Stats_zero
    (nack_callback_ r) (recovery_failure_callback_ r).

(** ** Sequences of calls *)

Inductive Op :=
| Received (seq now : Z) (recovered_by_fec : bool)
| Tick (now : Z)
| Rtt (rtt : Z)
| Clear (seq : Z)
| Abandon
| Restarted
| OnNack (cb : bool)
| OnFailure (cb : bool).

Definition exec (op : Op) (r : Requester) : mres (Requester * Sent) :=
  match op with
  | Received seq now fec =>
    let! '(_, r) := OnReceivedPacket seq now fec r in Ret (r, mkSent [] [])
  | Tick now => Ret (Process now r)
  | Rtt rtt => Ret (UpdateRtt rtt r, mkSent [] [])
  | Clear seq => Ret (ClearUpTo seq r, mkSent [] [])
  | Abandon => Ret (AbandonPending r, mkSent [] [])
  | Restarted => Ret (Reset r, mkSent [] [])
  | OnNack cb => Ret (SetNackCallback cb r, mkSent [] [])
  | OnFailure cb => Ret (SetRecoveryFailureCallback cb r, mkSent [] [])
  end.

Fixpoint run (ops : list Op) (r : Requester) : mres (Requester * list Sent) :=
  match ops with
  | [] => Ret (r, [])
  | op :: ops =>
    let! '(r, s) := exec op r in
    let! '(r, ss) := run ops r in
    Ret (r, s :: ss)
  end.

(** ** Invariant *)

Definition total_nacks (l : list (Z * MissingPacket)) : Z :=
  fold_right (fun e n => nack_count e.2 + n) 0 l.

Record cfg_ok (c : Config) : Prop := {
  ck_retries : is_u32 (max_retries c);
  ck_list : 0 <= max_nack_list_size c;
  ck_batch : 1 <= max_batch_size c;
  ck_gap : is_u16 (max_sequence_gap c);
  ck_min : 0 <= min_retry_interval_ms c <= max_retry_interval_ms c
}.

(** What every entry of the map satisfies. *)
Definition entry_ok (c : Config) (newest : Z) (e : Z * MissingPacket) : Prop :=
  is_u16 e.1 /\ e.1 <> newest /\ 0 <= nack_count e.2 <= max_retries c.

Record Inv (r : Requester) : Prop := {
  iv_cfg : cfg_ok (config_ r);
  iv_ok : om_ok (missing_packets_ r);
  iv_entries : Forall (entry_ok (config_ r) (newest_seq_ r)) (missing_packets_ r);
  iv_newest : is_u16 (newest_seq_ r);
  iv_size : om_size (missing_packets_ r) <= max_nack_list_size (config_ r);
  iv_init : initialized_ r = false -> missing_packets_ r = [];
  iv_ledger : reordered_packets (stats_ r) + recovered_packets (stats_ r) +
    abandoned_packets (stats_ r) + om_size (missing_packets_ r) <= missing_packets (stats_ r);
  iv_requests : nack_requests (stats_ r) +
    max_retries (config_ r) * om_size (missing_packets_ r) <=
    max_retries (config_ r) * missing_packets (stats_ r) + total_nacks (missing_packets_ r)
}.

Lemma om_size_cons {A} (x : Z * A) l : om_size (x :: l) = om_size l + 1.
Proof. unfold om_size. simpl. lia. Qed.

Lemma total_nacks_cons e l : total_nacks (e :: l) = nack_count e.2 + total_nacks l.
Proof. reflexivity. Qed.

(** ** The loop of [Process] *)

Lemma fate_spec r now b p f :
  fate r now b p = f ->
  match f with
  | FErase => now < first_missing_ms p
  | FAbandon => first_missing_ms p <= now
  | FKeep => 0 <= now - first_missing_ms p < max_packet_age_ms (config_ r)
  | FRequest =>
      0 <= now - first_missing_ms p < max_packet_age_ms (config_ r) /\
      reorder_wait_ms (config_ r) <= now - first_missing_ms p /\
      retry_due r now p = true /\ nack_count p < max_retries (config_ r) /\
      b < max_batch_size (config_ r) /\ nack_callback_ r = true
  end.
Proof.
  unfold fate. intros <-. destruct (Z.ltb_spec now (first_missing_ms p)); [done|].
  destruct (Z.leb_spec (max_packet_age_ms (config_ r)) (now - first_missing_ms p)); [done|].
  cbn [orb negb andb].
  destruct (retry_due r now p); rewrite ?andb_false_r, ?andb_true_r; cbn [orb andb].
  2:{ destruct (_ <? _); lia. }
  destruct (Z.leb_spec (max_retries (config_ r)) (nack_count p)); [done|]. cbn [orb].
  destruct (_ && _); [done|]. destruct (Z.ltb_spec (now - first_missing_ms p) (reorder_wait_ms (config_ r))); [lia|].
  destruct (nack_callback_ r); cbn [andb]; [|lia].
  destruct (Z.ltb_spec b (max_batch_size (config_ r))); [|lia]. repeat split; lia.
Qed.

(** The entry a request leaves behind. *)
Definition requested (now : Z) (p : MissingPacket) : MissingPacket :=
  mkMissing (first_missing_ms p) now (nack_count p + 1).

(** The loop, entry by entry: [n] and [a] are the numbers it appends to the
    two batches, [b] the size of the request batch when it starts. *)
Inductive Scan (r : Requester) (now : Z) : Z -> list (Z * MissingPacket) ->
    list (Z * MissingPacket) -> list Z -> list Z -> Prop :=
| scan_nil b : Scan r now b [] [] [] []
| scan_erase b k p l l' n a :
    fate r now b p = FErase -> Scan r now b l l' n a -> Scan r now b ((k, p) :: l) l' n a
| scan_abandon b k p l l' n a :
    fate r now b p = FAbandon -> Scan r now b l l' n a -> Scan r now b ((k, p) :: l) l' n (k :: a)
| scan_keep b k p l l' n a :
    fate r now b p = FKeep -> Scan r now b l l' n a ->
    Scan r now b ((k, p) :: l) ((k, p) :: l') n a
| scan_request b k p l l' n a :
    fate r now b p = FRequest -> Scan r now (b + 1) l l' n a ->
    Scan r now b ((k, p) :: l) ((k, requested now p) :: l') (k :: n) a.

Definition scan_stats (n a : list Z) (s : Stats) : Stats :=
  mkStats (missing_packets s) (reordered_packets s) (recovered_packets s)
    (nack_requests s + Z.of_nat (length n)) (abandoned_packets s + Z.of_nat (length a))
    (large_gap_resets s).

Lemma scan_stats_nil s : scan_stats [] [] s = s.
Proof. destruct s. unfold scan_stats. simpl. f_equal; lia. Qed.

Lemma process_loop_scan r now l nacks ab s :
  is_u32 (max_retries (config_ r)) -> Forall (fun e => 0 <= nack_count e.2) l ->
  exists l' n a, Scan r now (Z.of_nat (length nacks)) l l' n a /\
    process_loop r now l nacks ab s = (l', nacks ++ n, ab ++ a, scan_stats n a s).
Proof.
  intros Hm. revert nacks ab s. induction l as [|[k p] l IH]; intros nacks ab s Hl; simpl.
  { exists [], [], []. split; [constructor|]. by rewrite !app_nil_r, scan_stats_nil. }
  apply Forall_cons in Hl as [Hp Hl]. simpl in Hp.
  destruct (fate r now (Z.of_nat (length nacks)) p) eqn:Hf.
  - destruct (IH nacks ab s Hl) as (l' & n & a & HS & ->). exists l', n, a. split; [by constructor|done].
  - destruct (IH nacks (ab ++ [k]) (add_abandoned 1 s) Hl) as (l' & n & a & HS & ->).
    exists l', n, (k :: a). split; [by constructor|]. rewrite <- app_assoc. f_equal.
    unfold scan_stats. simpl. f_equal. lia.
  - destruct (IH nacks ab s Hl) as (l' & n & a & HS & ->). exists ((k, p) :: l'), n, a. split; [by constructor|done].
  - destruct (IH (nacks ++ [k]) ab (add_request s) Hl) as (l' & n & a & HS & ->).
    pose proof (fate_spec _ _ _ _ _ Hf) as (_ & _ & _ & Hlt & _).
    rewrite (wrap_small 32) by (unfold is_u in *; lia).
    exists ((k, requested now p) :: l'), (k :: n), a. split.
    { rewrite length_app in HS. simpl in HS. constructor; [done|]. by rewrite Nat2Z.inj_add in HS. }
    rewrite <- app_assoc. f_equal. unfold scan_stats. simpl. f_equal. lia.
Qed.

(** What a scan keeps. *)
Lemma scan_kept r now b l l' n a k p' :
  Scan r now b l l' n a -> (k, p') ∈ l' ->
  exists p, (k, p) ∈ l /\ first_missing_ms p' = first_missing_ms p /\
    0 <= now - first_missing_ms p < max_packet_age_ms (config_ r) /\
    (p' = p \/ p' = requested now p /\ k ∈ n).
Proof.
  induction 1 as [|b k0 p0 l l' n a Hf HS IH|b k0 p0 l l' n a Hf HS IH|b k0 p0 l l' n a Hf HS IH|b k0 p0 l l' n a Hf HS IH];
    try set_solver; rewrite elem_of_cons; apply fate_spec in Hf.
  - intros [[= -> ->]|Hin].
    + exists p0. split; [set_solver|]. split; [done|]. split; [done|by left].
    + destruct (IH Hin) as (p & ? & ? & ? & ?). exists p. split; [set_solver|]. auto.
  - intros [[= -> ->]|Hin].
    + exists p0. split; [set_solver|]. split; [done|]. split; [by destruct Hf|right; split; [done|set_solver]].
    + destruct (IH Hin) as (p & ? & ? & ? & Hp). exists p. split; [set_solver|]. split; [done|].
      split; [done|]. destruct Hp as [?|[? ?]]; [by left|right; split; [done|set_solver]].
Qed.

Lemma scan_om_ok r now b l l' n a : Scan r now b l l' n a -> om_ok l -> om_ok l'.
Proof.
  induction 1 as [|? ? ? ? ? ? ? ? HS IH|? ? ? ? ? ? ? ? HS IH|? ? ? ? ? ? ? ? HS IH|? ? ? ? ? ? ? ? HS IH];
    intros Hok; try apply om_ok_inv in Hok as [Hok Hlt]; auto; constructor; auto;
    intros k' v' Hin; destruct (scan_kept _ _ _ _ _ _ _ _ _ HS Hin) as (p'' & Hin' & _); eauto.
Qed.

Lemma scan_size r now b l l' n a :
  Scan r now b l l' n a -> om_size l' + Z.of_nat (length a) <= om_size l.
Proof. induction 1; rewrite ?om_size_cons; simpl; try lia; done. Qed.

Lemma scan_batch r now b l l' n a :
  Scan r now b l l' n a -> b <= max_batch_size (config_ r) ->
  b + Z.of_nat (length n) <= max_batch_size (config_ r).
Proof.
  induction 1 as [| | | |b k p l l' n a Hf HS IH]; simpl; auto; try lia.
  apply fate_spec in Hf as (_ & _ & _ & _ & Hb & _). intros _. specialize (IH ltac:(lia)). lia.
Qed.

Lemma scan_entries r now b l l' n a newest :
  Scan r now b l l' n a -> Forall (entry_ok (config_ r) newest) l ->
  Forall (entry_ok (config_ r) newest) l'.
Proof.
  induction 1 as [|b k p l l' n a Hf HS IH|b k p l l' n a Hf HS IH|b k p l l' n a Hf HS IH|b k p l l' n a Hf HS IH];
    rewrite ?Forall_cons; try tauto.
  intros [(H1 & H2 & H3) Hl]. simpl in *. apply fate_spec in Hf as (_ & _ & _ & Hlt & _).
  split; [|auto]. split; [done|]. split; [done|]. simpl. lia.
Qed.

(** Each request uses up one of the [max_retries] of its entry. *)
Lemma scan_requests r now b l l' n a newest :
  Scan r now b l l' n a -> Forall (entry_ok (config_ r) newest) l ->
  Z.of_nat (length n) + max_retries (config_ r) * om_size l' + total_nacks l <=
  max_retries (config_ r) * om_size l + total_nacks l'.
Proof.
  induction 1 as [|b k p l l' n a Hf HS IH|b k p l l' n a Hf HS IH|b k p l l' n a Hf HS IH|b k p l l' n a Hf HS IH];
    rewrite ?Forall_cons, ?om_size_cons; simpl; [done|..];
    intros [(_ & _ & H3) Hl]; simpl in H3; specialize (IH Hl); lia.
Qed.

Lemma scan_request_of r now b l l' n a k :
  Scan r now b l l' n a -> k ∈ n ->
  exists p b', (k, p) ∈ l /\ fate r now b' p = FRequest /\ (k, requested now p) ∈ l'.
Proof.
  induction 1 as [|b k0 p0 l l' n a Hf HS IH|b k0 p0 l l' n a Hf HS IH|b k0 p0 l l' n a Hf HS IH|b k0 p0 l l' n a Hf HS IH];
    set_solver.
Qed.

Lemma scan_sublist r now b l l' n a : Scan r now b l l' n a -> n `sublist_of` l.*1.
Proof. induction 1; simpl; by constructor. Qed.

Lemma om_ok_keys {A} (m : list (Z * A)) : om_ok m -> NoDup m.*1.
Proof.
  induction 1 as [|k v m Hm IH Hlt]; simpl; constructor; [|done].
  intros Hin. apply list_elem_of_fmap in Hin as ([k' v'] & -> & Hin). specialize (Hlt _ _ Hin). simpl in *. lia.
Qed.

Lemma entries_nonneg c newest l :
  Forall (entry_ok c newest) l -> Forall (fun e => 0 <= nack_count e.2) l.
Proof. intros H. eapply Forall_impl; [exact H|]. intros e (_ & _ & ?). simpl in *. lia. Qed.

Lemma total_nacks_bound c newest l :
  Forall (entry_ok c newest) l -> total_nacks l <= max_retries c * om_size l.
Proof.
  induction 1 as [|e l (_ & _ & He) Hl IH]; [unfold om_size; simpl; lia|]. rewrite om_size_cons. simpl. lia.
Qed.

(** ** Preservation *)

Lemma Process_scan now r r' s :
  Inv r -> Process now r = (r', s) ->
  exists n a, Scan r now 0 (missing_packets_ r) (missing_packets_ r') n a /\
    stats_ r' = scan_stats n a (stats_ r) /\ config_ r' = config_ r /\
    initialized_ r' = initialized_ r /\ newest_seq_ r' = newest_seq_ r /\ nack_batch s = n /\
    (failure_batch s = [] \/ failure_batch s = a).
Proof.
  intros HI. unfold Process. destruct (_ || _) eqn:E0.
  { intros [= <- <-]. assert (missing_packets_ r = []) as Hnil.
    { apply orb_prop in E0 as [H|H]; [apply (iv_init _ HI); by apply negb_true_iff|].
      by destruct (missing_packets_ r). }
    exists [], []. rewrite scan_stats_nil, Hnil. split; [constructor|]. by auto 7. }
  destruct (process_loop_scan r now (missing_packets_ r) [] [] (stats_ r)) as (l' & n & a & HS & ->);
    [apply HI|eapply entries_nonneg, HI|].
  assert (nack_callback_ r = false -> n = []) as Hcb.
  { intros Hn. destruct n as [|k n]; [done|]. destruct (scan_request_of _ _ _ _ _ _ _ k HS) as (p & b' & _ & Hf & _);
      [set_solver|]. apply fate_spec in Hf as (_ & _ & _ & _ & _ & ?). congruence. }
  simpl. intros E. exists n, a.
  destruct (_ && _) in E; injection E as <- <-; (split; [exact HS|]); simpl;
    repeat split; auto; destruct (nack_callback_ r); auto; symmetry; auto.
Qed.

Lemma Process_Inv now r r' s : Inv r -> Process now r = (r', s) -> Inv r'.
Proof.
  intros HI E. pose proof (Process_scan _ _ _ _ HI E) as (n & a & HS & Hst & Hc & Hi & Hn & _).
  destruct HI. pose proof (scan_size _ _ _ _ _ _ _ HS).
  pose proof (scan_requests _ _ _ _ _ _ _ _ HS iv_entries0).
  split; rewrite ?Hc, ?Hn, ?Hi, ?Hst; simpl; auto; try lia.
  - by eapply scan_om_ok.
  - by eapply scan_entries.
  - intros H1. specialize (iv_init0 H1). rewrite iv_init0 in HS. by inversion HS.
Qed.

(** [u16 (k - begin) < u16 (end - begin)] : [k] is one of the numbers from
    [begin] up to [end], in sequence-number order. *)
Definition between (begin end_ k : Z) : Prop := is_u16 k /\ u16 (k - begin) < u16 (end_ - begin).

(** What adding numbers in [B] does to the map and the counters. *)
Record Added (B : Z -> Prop) (now : Z) (r r' : Requester) : Prop := {
  ad_frame : config_ r' = config_ r /\ initialized_ r' = initialized_ r /\
    newest_seq_ r' = newest_seq_ r /\ rtt_ms_ r' = rtt_ms_ r;
  ad_ok : om_ok (missing_packets_ r');
  ad_old : forall k p, om_find k (missing_packets_ r) = Some p ->
    om_find k (missing_packets_ r') = Some p;
  ad_new : forall k p, om_find k (missing_packets_ r') = Some p ->
    om_find k (missing_packets_ r) = Some p \/ (B k /\ p = mkMissing now 0 0);
  ad_size : om_size (missing_packets_ r') <=
    Z.max (om_size (missing_packets_ r)) (max_nack_list_size (config_ r));
  ad_count : missing_packets (stats_ r') - missing_packets (stats_ r) =
    om_size (missing_packets_ r') - om_size (missing_packets_ r);
  ad_stats : reordered_packets (stats_ r') = reordered_packets (stats_ r) /\
    recovered_packets (stats_ r') = recovered_packets (stats_ r) /\
    abandoned_packets (stats_ r') = abandoned_packets (stats_ r) /\
    nack_requests (stats_ r') = nack_requests (stats_ r);
  ad_nacks : total_nacks (missing_packets_ r') = total_nacks (missing_packets_ r)
}.

Lemma total_nacks_emplace k p m : om_find k m = None ->
  total_nacks (om_emplace k p m) = nack_count p + total_nacks m.
Proof.
  induction m as [|[k' p'] m IH]; simpl; [lia|]. destruct (Z.eqb_spec k k'); [done|].
  intros H. destruct (k <? k'); simpl; [lia|]. rewrite IH by done. lia.
Qed.

Lemma between_step begin end_ k :
  is_u16 begin -> is_u16 end_ -> begin <> end_ ->
  between begin end_ k <-> k = begin \/ between (u16 (begin + 1)) end_ k.
Proof.
  unfold between. intros Hb He Hne. split.
  - intros [Hk H]. destruct (decide (k = begin)); [by left|right]. split; [done|words].
  - intros [->|[Hk H]]; (split; [done|words]).
Qed.

Lemma between_empty begin k : ~ between begin begin k.
Proof. unfold between. intros [? ?]. words. Qed.

Lemma Added_refl B now r : om_ok (missing_packets_ r) -> Added B now r r.
Proof. split; auto; lia. Qed.

Lemma Added_trans (B1 B2 B : Z -> Prop) now r1 r2 r3 :
  Added B1 now r1 r2 -> Added B2 now r2 r3 -> (forall k, B1 k \/ B2 k -> B k) -> Added B now r1 r3.
Proof.
  intros [(c1 & i1 & n1 & t1) ? o1 nw1 ? ? (s1 & s2 & s3 & s4) ?]
         [(c2 & i2 & n2 & t2) ? o2 nw2 ? ? (s5 & s6 & s7 & s8) ?] HB.
  split; rewrite ?c1 in *; auto; try lia; try (repeat split; congruence).
  intros k p H. destruct (nw2 k p H) as [H'|[? ->]]; [|auto].
  destruct (nw1 k p H') as [?|[? ->]]; auto.
Qed.

Lemma Added_one k now r :
  om_ok (missing_packets_ r) -> om_size (missing_packets_ r) < max_nack_list_size (config_ r) ->
  let r1 := match om_find k (missing_packets_ r) with
            | Some _ => r
            | None => set_stats (add_missing (stats_ r))
                        (set_missing (om_emplace k (mkMissing now 0 0) (missing_packets_ r)) r)
            end in
  Added (eq k) now r r1 /\ om_find k (missing_packets_ r1) <> None.
Proof.
  intros Hok Hsz r1. subst r1. destruct (om_find k (missing_packets_ r)) eqn:E.
  { split; [by apply Added_refl|by rewrite E]. }
  pose proof (om_emplace_size_absent k (mkMissing now 0 0) _ E).
  split; simpl.
  - split; simpl; auto with omap; try lia.
    + intros k' p Hk'. rewrite om_find_emplace by done. destruct (Z.eqb_spec k' k) as [->|]; congruence.
    + intros k' p. rewrite om_find_emplace by done. rewrite E. simpl.
      destruct (Z.eqb_spec k' k) as [->|]; [|auto]. intros [= <-]. auto.
    + by rewrite total_nacks_emplace.
  - rewrite om_find_emplace, Z.eqb_refl by done. done.
Qed.

Lemma add_missing_loop_spec fuel begin end_ now r :
  is_u16 begin -> is_u16 end_ -> (Z.to_nat (u16 (end_ - begin)) <= fuel)%nat ->
  om_ok (missing_packets_ r) ->
  exists r', add_missing_loop fuel begin end_ now r = Ret r' /\ Added (between begin end_) now r r' /\
    (om_size (missing_packets_ r') < max_nack_list_size (config_ r) ->
     forall k, between begin end_ k -> om_find k (missing_packets_ r') <> None).
Proof.
  intros Hb He. revert begin Hb r. induction fuel as [|fuel IH]; intros begin Hb r Hf Hok;
    cbn [add_missing_loop]; destruct (Z.eqb_spec begin end_) as [->|Hne].
  1,3: exists r; split; [done|]; split; [by apply Added_refl|]; intros; exfalso; by eapply between_empty.
  { exfalso. words. }
  destruct (Z.leb_spec (max_nack_list_size (config_ r)) (om_size (missing_packets_ r))).
  { exists r. split; [done|]. split; [by apply Added_refl|]. lia. }
  destruct (Added_one begin now r Hok ltac:(lia)) as [H1 H1b].
  set (r1 := match om_find begin (missing_packets_ r) with Some _ => _ | None => _ end) in *.
  destruct (IH (u16 (begin + 1)) ltac:(words) r1) as (r' & E & HA & Hall); [words|apply H1|].
  exists r'. split; [done|]. split.
  - eapply Added_trans; [done|done|]. intros k Hk. apply between_step; [done|done|done|].
    destruct Hk as [<-|?]; auto.
  - destruct (ad_frame _ _ _ _ H1) as [Hcf _]. rewrite Hcf in Hall. intros Hsz k Hk.
    apply between_step in Hk as [->|Hk]; [|by apply Hall|done|done|done].
    destruct (om_find begin (missing_packets_ r1)) eqn:Ef; [|done].
    by rewrite (ad_old _ _ _ _ HA _ _ Ef).
Qed.

Lemma AddMissing_entries B now r r' c x :
  Added B now r r' -> om_ok (missing_packets_ r) ->
  (forall k, B k -> is_u16 k /\ k <> x) -> 0 <= max_retries c ->
  Forall (entry_ok c x) (missing_packets_ r) -> Forall (entry_ok c x) (missing_packets_ r').
Proof.
  intros HA Hok HB Hc H. apply Forall_forall. intros [k p] Hin. rewrite Forall_forall in H.
  apply om_elem_find in Hin; [|apply HA].
  destruct (ad_new _ _ _ _ HA k p Hin) as [Hold|[Hk ->]].
  - apply om_find_elem in Hold. by apply (H (k, p)).
  - destruct (HB k Hk). split; [done|]. split; [done|]. simpl. lia.
Qed.

(** Taking an arrived packet out of the map. *)
Lemma take_missing_spec seq now fec r res r' :
  Inv r -> initialized_ r = true -> take_missing seq now fec r = (res, r') ->
  Inv r' /\ config_ r' = config_ r /\ newest_seq_ r' = newest_seq_ r /\ initialized_ r' = true /\
  missing_packets (stats_ r') = missing_packets (stats_ r) /\
  (forall k, om_find k (missing_packets_ r') =
     if k =? seq then None else om_find k (missing_packets_ r)) /\
  (was_missing res = true <-> om_find seq (missing_packets_ r) <> None).
Proof.
  intros HI Hinit. unfold take_missing. destruct (om_find seq (missing_packets_ r)) as [m|] eqn:E.
  2:{ intros [= <- <-]. split; [done|]. do 4 (split; [done|]). split; [|done].
      intros k. destruct (Z.eqb_spec k seq) as [->|]; done. }
  intros [= <- <-]. pose proof (om_erase_size _ _ _ E) as Hsz. destruct HI.
  assert (nack_count m <= max_retries (config_ r) /\
    total_nacks (om_erase seq (missing_packets_ r)) = total_nacks (missing_packets_ r) - nack_count m) as [Hm Htot].
  { clear -E iv_entries0. induction (missing_packets_ r) as [|[k p] l IH]; [done|]. simpl in *.
    apply Forall_cons in iv_entries0 as [(_ & _ & Hk) Hl]. destruct (seq =? k).
    - injection E as ->. simpl in *. lia.
    - destruct (IH Hl E). simpl. lia. }
  split; [|split; [done|]; split; [done|]; split; [done|]; split; [by destruct (_ || _)|];
    split; [intros; by apply om_find_erase|done]].
  split; simpl; auto; try lia.
  - by apply om_ok_erase.
  - apply Forall_forall. intros [k p] Hin%om_erase_elem. rewrite Forall_forall in iv_entries0. by apply (iv_entries0 (k, p)).
  - congruence.
  - destruct (_ || _); simpl; lia.
  - destruct (_ || _); simpl; lia.
Qed.

Lemma Inv_clear r : Inv r -> Inv (set_missing [] r).
Proof.
  intros []. pose proof (om_size_nonneg (missing_packets_ r)).
  pose proof (total_nacks_bound _ _ _ iv_entries0).
  split; simpl; auto with omap; unfold om_size in *; simpl; try lia.
Qed.

(** [newest_seq_] moves to a number that is not missing. *)
Lemma Inv_newest r seq :
  Inv r -> is_u16 seq -> om_find seq (missing_packets_ r) = None -> Inv (set_newest seq r).
Proof.
  intros [] Hs Hf. split; simpl; auto. apply Forall_forall. intros [k p] Hin.
  rewrite Forall_forall in iv_entries0. destruct (iv_entries0 _ Hin) as (? & ? & ?).
  split; [done|]. split; [|done]. simpl. intros ->. by apply (proj1 (om_find_None seq _) Hf p).
Qed.

Lemma Inv_added B now r r' :
  Inv r -> initialized_ r = true -> Added B now r r' ->
  (forall k, B k -> is_u16 k /\ k <> newest_seq_ r) -> Inv r'.
Proof.
  intros HI Hi HA HB. pose proof HA as [(Hc & Hi' & Hn & _) ? _ _ Hsz Hcnt (s1 & s2 & s3 & s4) Htot].
  destruct HI. split; rewrite ?Hc, ?Hn, ?Hi'; auto; try lia.
  - eapply AddMissing_entries; eauto. apply iv_cfg0.
  - congruence.
Qed.

(** What [OnReceivedPacket] does once the first packet was seen. *)
Inductive Arrival (seq now : Z) (r r' : Requester) : Prop :=
| arrival_old :
    IsNewerSequenceNumber seq (newest_seq_ r) = false -> newest_seq_ r' = newest_seq_ r ->
    (forall k, om_find k (missing_packets_ r') =
       if k =? seq then None else om_find k (missing_packets_ r)) ->
    Arrival seq now r r'
| arrival_reset :
    IsNewerSequenceNumber seq (newest_seq_ r) = true -> newest_seq_ r' = seq ->
    max_sequence_gap (config_ r) < u16 (seq - newest_seq_ r) -> missing_packets_ r' = [] ->
    Arrival seq now r r'
| arrival_gap :
    IsNewerSequenceNumber seq (newest_seq_ r) = true -> newest_seq_ r' = seq ->
    u16 (seq - newest_seq_ r) <= max_sequence_gap (config_ r) ->
    (forall k p, om_find k (missing_packets_ r) = Some p -> k <> seq ->
       om_find k (missing_packets_ r') = Some p) ->
    (forall k p, om_find k (missing_packets_ r') = Some p ->
       k <> seq /\ (om_find k (missing_packets_ r) = Some p \/
         between (u16 (newest_seq_ r + 1)) seq k /\ p = mkMissing now 0 0)) ->
    (om_size (missing_packets_ r') < max_nack_list_size (config_ r) ->
     forall k, between (u16 (newest_seq_ r + 1)) seq k -> om_find k (missing_packets_ r') <> None) ->
    Arrival seq now r r'.

Lemma newer_spec seq ref : is_u16 seq -> is_u16 ref ->
  IsNewerSequenceNumber seq ref = true <-> 1 <= u16 (seq - ref) < 0x8000.
Proof.
  intros Hs Hr. unfold IsNewerSequenceNumber. rewrite andb_true_iff, negb_true_iff, Z.eqb_neq, Z.ltb_lt.
  split; intros [? ?]; (split; [|done]); words.
Qed.

Lemma between_next newest seq k :
  is_u16 newest -> is_u16 seq -> 1 <= u16 (seq - newest) < 0x8000 ->
  between (u16 (newest + 1)) seq k -> is_u16 k /\ k <> newest /\ k <> seq.
Proof. unfold between. intros Hn Hs Hg [Hk H]. split; [done|]. split; intros ->; words. Qed.

Lemma AddMissingPackets_gap seq now r :
  Inv r -> initialized_ r = true -> is_u16 seq -> om_find seq (missing_packets_ r) = None ->
  1 <= u16 (seq - newest_seq_ r) < 0x8000 ->
  exists r', (if 1 <? u16 (seq - newest_seq_ r)
              then AddMissingPackets (u16 (newest_seq_ r + 1)) seq now r else Ret r) = Ret r' /\
    Added (between (u16 (newest_seq_ r + 1)) seq) now r r' /\
    (om_size (missing_packets_ r') < max_nack_list_size (config_ r) ->
     forall k, between (u16 (newest_seq_ r + 1)) seq k -> om_find k (missing_packets_ r') <> None) /\
    om_find seq (missing_packets_ r') = None /\ Inv r'.
Proof.
  intros HI Hi Hs Hf Hg. pose proof (iv_newest _ HI) as Hn.
  assert (exists r', (if 1 <? u16 (seq - newest_seq_ r)
              then AddMissingPackets (u16 (newest_seq_ r + 1)) seq now r else Ret r) = Ret r' /\
    Added (between (u16 (newest_seq_ r + 1)) seq) now r r' /\
    (om_size (missing_packets_ r') < max_nack_list_size (config_ r) ->
     forall k, between (u16 (newest_seq_ r + 1)) seq k -> om_find k (missing_packets_ r') <> None))
    as (r' & E & HA & Hall).
  { destruct (Z.ltb_spec 1 (u16 (seq - newest_seq_ r))).
    - apply add_missing_loop_spec; auto; [words|apply HI].
    - exists r. split; [done|]. split; [apply Added_refl, HI|]. intros _ k [? ?]. exfalso. words. }
  exists r'. split; [done|]. split; [done|]. split; [done|]. split.
  - destruct (om_find seq (missing_packets_ r')) as [p|] eqn:E'; [|done].
    destruct (ad_new _ _ _ _ HA _ _ E') as [?|[Hb _]]; [congruence|].
    by destruct (between_next _ _ _ Hn Hs Hg Hb) as (_ & _ & ?).
  - eapply Inv_added; eauto. intros k Hb. apply between_next in Hb as (? & ? & ?); auto.
Qed.

Lemma OnReceivedPacket_spec seq now fec r :
  Inv r -> is_u16 seq -> initialized_ r = true ->
  exists res r', OnReceivedPacket seq now fec r = Ret (res, r') /\ Inv r' /\ Arrival seq now r r' /\
    config_ r' = config_ r /\ (was_missing res = true <-> om_find seq (missing_packets_ r) <> None).
Proof.
  intros HI Hs Hi. unfold OnReceivedPacket. rewrite Hi. cbn [negb].
  destruct (take_missing seq now fec r) as [res r1] eqn:E1.
  apply take_missing_spec in E1 as (HI1 & Hc & Hn & Hi1 & _ & Hf & Hw); auto.
  assert (om_find seq (missing_packets_ r1) = None) as Hf1 by (rewrite Hf, Z.eqb_refl; done).
  rewrite Hc, Hn. destruct (IsNewerSequenceNumber seq (newest_seq_ r)) eqn:Enew; cbn [negb].
  2:{ exists res, r1. split; [done|]. split; [done|]. split; [by apply arrival_old|]. by split. }
  pose proof (proj1 (newer_spec seq _ Hs (iv_newest _ HI)) Enew) as Hg.
  destruct (Z.ltb_spec (max_sequence_gap (config_ r)) (u16 (seq - newest_seq_ r))).
  { eexists _, _. split; [done|]. split; [|split; [by apply arrival_reset|by split]].
    assert (Inv (set_newest seq (set_missing [] r1))) as [] by (by apply Inv_newest; [apply Inv_clear|..]).
    by split. }
  rewrite <- Hn. destruct (AddMissingPackets_gap seq now r1) as (r2 & -> & HA & Hall & Hf2 & HI2); auto;
    [by rewrite Hn|]. cbn [mbnd].
  exists res, (set_newest seq r2). split; [done|]. split; [by apply Inv_newest|].
  destruct (ad_frame _ _ _ _ HA) as (Hc2 & _). split; [|split; [simpl; congruence|done]].
  rewrite Hn in *. apply arrival_gap; auto; simpl.
  - intros k p Hk Hne. apply (ad_old _ _ _ _ HA). rewrite Hf, (proj2 (Z.eqb_neq k seq)) by done. done.
  - intros k p Hk. split; [congruence|]. destruct (ad_new _ _ _ _ HA k p Hk) as [Hold|?]; [left|by right].
    rewrite Hf in Hold. by destruct (k =? seq).
  - by rewrite Hc in Hall.
Qed.

(** ** All operations *)

Definition op_ok (op : Op) : Prop :=
  match op with Received seq _ _ => is_u16 seq | _ => True end.

Lemma Inv_first seq r :
  Inv r -> is_u16 seq -> initialized_ r = false ->
  Inv (mkRequester (config_ r) true seq (missing_packets_ r) (rtt_ms_ r)
         (last_failure_callback_ms_ r) (has_failure_callback_time_ r) (stats_ r)
         (nack_callback_ r) (recovery_failure_callback_ r)).
Proof.
  intros [] Hs Hi. rewrite iv_init0 in * by done. split; simpl; auto.
Qed.

Lemma Inv_ClearUpTo seq r : Inv r -> Inv (ClearUpTo seq r).
Proof.
  intros []. unfold ClearUpTo. set (f := fun '(k, _) => _).
  assert (om_size (List.filter f (missing_packets_ r)) <= om_size (missing_packets_ r) /\
    max_retries (config_ r) * om_size (List.filter f (missing_packets_ r)) + total_nacks (missing_packets_ r) <=
    max_retries (config_ r) * om_size (missing_packets_ r) + total_nacks (List.filter f (missing_packets_ r)))
    as [Hsz Htot].
  { clear -iv_entries0. induction iv_entries0 as [|[k p] l (_ & _ & He) Hl IH]; [done|].
    cbn [List.filter]. destruct (f (k, p)); rewrite ?om_size_cons, ?total_nacks_cons; cbn [snd] in *; lia. }
  split; simpl; auto with omap; try lia.
  - apply Forall_forall. intros e Hin. apply list_elem_of_In, List.filter_In in Hin as [Hin _].
    rewrite Forall_forall in iv_entries0. apply iv_entries0. by apply list_elem_of_In.
  - intros Hi. by rewrite iv_init0.
Qed.

Lemma exec_Inv op r : Inv r -> op_ok op ->
  exists r' s, exec op r = Ret (r', s) /\ Inv r' /\ config_ r' = config_ r.
Proof.
  intros HI Hop. destruct op as [seq now fec|now|rtt|seq| | |cb|cb]; simpl in *.
  - destruct (initialized_ r) eqn:Hi.
    + destruct (OnReceivedPacket_spec seq now fec r) as (res & r' & E & HI' & HA & Hc & _); auto.
      rewrite E. eexists _, _. split; [done|]. by split.
    + unfold OnReceivedPacket. rewrite Hi. eexists _, _. split; [done|]. split; [|done]. by apply Inv_first.
  - destruct (Process now r) as [r' s] eqn:E. exists r', s. split; [done|].
    split; [by eapply Process_Inv|]. by destruct (Process_scan _ _ _ _ HI E) as (n & a & _ & _ & ? & _).
  - eexists _, _. split; [done|]. split; [|done]. by destruct HI.
  - eexists _, _. split; [done|]. split; [|done]. by apply Inv_ClearUpTo.
  - eexists _, _. split; [done|]. split; [|done]. pose proof (Inv_clear _ HI) as [].
    pose proof (iv_ledger _ HI). unfold om_size in *. split; simpl in *; auto; unfold om_size in *; simpl in *; lia.
  - eexists _, _. split; [done|]. split; [|done]. destruct HI.
    split; simpl; auto with omap; unfold om_size; simpl; try lia; try words. apply iv_cfg0.
  - eexists _, _. split; [done|]. split; [|done]. by destruct HI.
  - eexists _, _. split; [done|]. split; [|done]. by destruct HI.
Qed.

(** Configuration values at their C++ types. *)
Record config_args (c : Config) : Prop := {
  cg_retries : is_u32 (max_retries c);
  cg_list : is_u64 (max_nack_list_size c);
  cg_batch : is_u64 (max_batch_size c);
  cg_gap : is_u16 (max_sequence_gap c);
  cg_min : is_u32 (min_retry_interval_ms c)
}.

Lemma construct_Inv c : config_args c -> Inv (construct c).
Proof.
  intros []. unfold is_u in *. split; simpl; auto with omap; unfold om_size; simpl; try lia; try words.
  split; simpl; unfold is_u; lia.
Qed.

Lemma run_Inv ops r : Inv r -> Forall op_ok ops ->
  exists r' ss, run ops r = Ret (r', ss) /\ Inv r' /\ config_ r' = config_ r.
Proof.
  intros HI Hops. revert r HI. induction Hops as [|op ops Hop Hops IH]; intros r HI; simpl.
  { by exists r, []. }
  destruct (exec_Inv op r HI Hop) as (r1 & s & -> & HI1 & Hc1). simpl.
  destruct (IH r1 HI1) as (r2 & ss & -> & HI2 & Hc2). simpl. exists r2, (s :: ss).
  split; [done|]. split; [done|congruence].
Qed.

(** ** Claims *)

(** (C10) The tracked set.  Every sequence of calls on a constructed requester
    returns, and afterwards: the newest sequence number is not considered
    missing, at most [max_nack_list_size] numbers are tracked, each has been
    requested at most [max_retries] times, every number ever recorded as
    missing is accounted for at most once among reordered, recovered, abandoned
    and still tracked, and the total of requests sent never exceeds
    [max_retries] per missing number. *)
Theorem nack_tracking_invariant c ops :
  config_args c -> Forall op_ok ops ->
  exists r ss, run ops (construct c) = Ret (r, ss) /\
    om_find (newest_seq_ r) (missing_packets_ r) = None /\
    om_size (missing_packets_ r) <= max_nack_list_size c /\
    (forall k p, om_find k (missing_packets_ r) = Some p ->
       is_u16 k /\ 0 <= nack_count p <= max_retries c) /\
    reordered_packets (stats_ r) + recovered_packets (stats_ r) + abandoned_packets (stats_ r) +
      om_size (missing_packets_ r) <= missing_packets (stats_ r) /\
    nack_requests (stats_ r) <= max_retries c * missing_packets (stats_ r).
Proof.
  intros Hc Hops. destruct (run_Inv ops _ (construct_Inv c Hc) Hops) as (r & ss & E & HI & Hcf).
  exists r, ss. split; [done|]. pose proof (total_nacks_bound _ _ _ (iv_entries _ HI)).
  destruct HI. rewrite Hcf in *. rewrite Forall_forall in iv_entries0. simpl in *.
  split; [apply om_find_None; intros p Hin; by destruct (iv_entries0 _ Hin) as (_ & ? & _)|].
  split; [done|]. split; [|lia]. intros k p Hf%om_find_elem.
  by destruct (iv_entries0 _ Hf) as (? & _ & ?).
Qed.

(** Gap detection.  In every reachable state where a packet was seen, an
    arriving number leaves the tracked set and is reported as
    [was_missing] exactly when it was in it.  If it is not newer than the
    newest one, nothing else changes; if it is newer by more than
    [max_sequence_gap] the set is cleared; otherwise exactly the numbers
    strictly between are added (all of them while the list has room), with no
    requests yet and the arrival time as their first-missing time, and the
    entries already tracked are untouched. *)
Theorem nack_gap_detection c ops r ss seq now fec :
  config_args c -> Forall op_ok ops -> run ops (construct c) = Ret (r, ss) ->
  initialized_ r = true -> is_u16 seq ->
  exists res r', OnReceivedPacket seq now fec r = Ret (res, r') /\ Arrival seq now r r' /\
    (was_missing res = true <-> om_find seq (missing_packets_ r) <> None).
Proof.
  intros Hc Hops Hrun Hi Hs.
  destruct (run_Inv ops _ (construct_Inv c Hc) Hops) as (r0 & ss0 & E & HI & _).
  rewrite Hrun in E. injection E as <- <-.
  destruct (OnReceivedPacket_spec seq now fec r) as (res & r' & ? & _ & ? & _ & ?); eauto 10.
Qed.

(** Request policy.  In every reachable state [Process now] sends a batch
    of at most [max(1, max_batch_size)] distinct tracked numbers in increasing order; each
    one is older than the reorder wait and younger than the maximal age, has
    retries left, and was either never requested or last requested at least
    [RetryIntervalMs] ago, and is recorded as requested now; every other entry
    that stays is unchanged, and nothing older than the maximal age stays. *)
Theorem nack_request_policy c ops r ss now :
  config_args c -> Forall op_ok ops -> run ops (construct c) = Ret (r, ss) ->
  let '(r', s) := Process now r in
  Z.of_nat (length (nack_batch s)) <= Z.max 1 (max_batch_size c) /\
  nack_batch s `sublist_of` (missing_packets_ r).*1 /\ NoDup (nack_batch s) /\
  (forall k, k ∈ nack_batch s -> exists p, om_find k (missing_packets_ r) = Some p /\
     reorder_wait_ms c <= now - first_missing_ms p < max_packet_age_ms c /\
     nack_count p < max_retries c /\
     (nack_count p = 0 \/ RetryIntervalMs r <= now - last_nack_ms p) /\
     om_find k (missing_packets_ r') = Some (mkMissing (first_missing_ms p) now (nack_count p + 1))) /\
  (forall k p', om_find k (missing_packets_ r') = Some p' ->
     0 <= now - first_missing_ms p' < max_packet_age_ms c /\
     (k ∈ nack_batch s \/ om_find k (missing_packets_ r) = Some p')).
Proof.
  intros Hc Hops Hrun.
  destruct (run_Inv ops _ (construct_Inv c Hc) Hops) as (r0 & ss0 & E & HI & Hcf).
  rewrite Hrun in E. injection E as <- <-. simpl in Hcf.
  destruct (Process now r) as [r' s] eqn:EP.
  pose proof (Process_Inv _ _ _ _ HI EP) as HI'.
  apply Process_scan in EP as (n & a & HS & _ & _ & _ & _ & -> & _); auto.
  pose proof (iv_ok _ HI) as Hok. pose proof (iv_ok _ HI') as Hok'.
  pose proof (scan_sublist _ _ _ _ _ _ _ HS) as Hsub.
  split; [|split; [done|split; [|split]]].
  - pose proof (scan_batch _ _ _ _ _ _ _ HS) as Hb. rewrite Hcf in Hb. simpl in Hb. lia.
  - eapply sublist_NoDup; [|done]. by apply om_ok_keys.
  - intros k Hk. destruct (scan_request_of _ _ _ _ _ _ _ _ HS Hk) as (p & b & Hin & Hf & Hin').
    apply fate_spec in Hf as (Hage & Hwait & Hdue & Hcnt & _). rewrite Hcf in *. simpl in *.
    exists p. split; [by apply om_elem_find|]. split; [lia|]. split; [done|].
    split; [|by apply om_elem_find]. unfold retry_due in Hdue.
    apply orb_prop in Hdue as [?|?]; bool_hyps; auto.
  - intros k p' Hf%om_find_elem.
    destruct (scan_kept _ _ _ _ _ _ _ _ _ HS Hf) as (p & Hin & Hfm & Hage & Hp).
    rewrite Hcf in *. simpl in *. split; [lia|].
    destruct Hp as [->|[_ ?]]; [right; by apply om_elem_find|by left].
Qed.

End NackRequester.

(** ** Witnesses *)

Import NackRequester.

Definition ex_nack_ops : list Op :=
  [OnNack true; Received 65534 0 false; Received 1 5 false; Received 0 6 false; Tick 30; Rtt 40; Tick 60].

Definition ex_nack_run : mres (Requester * list Sent) :=
  Eval vm_compute in run ex_nack_ops (construct Config_default).

Lemma ex_nack_args : config_args Config_default.
Proof. split; simpl; words. Qed.

Lemma ex_nack_ops_ok : Forall op_ok ex_nack_ops.
Proof. repeat constructor; words. Qed.

Lemma nack_tracking_invariant_witness :
  exists r ss, run ex_nack_ops (construct Config_default) = Ret (r, ss) /\
    om_find (newest_seq_ r) (missing_packets_ r) = None.
Proof.
  destruct (nack_tracking_invariant Config_default ex_nack_ops ex_nack_args ex_nack_ops_ok)
    as (r & ss & E & H & _).
  exists r, ss. split; [exact E|exact H].
Defined.

Lemma nack_gap_detection_witness : exists r ss, ex_nack_run = Ret (r, ss) /\
  exists res r', OnReceivedPacket 65535 70 false r = Ret (res, r') /\ Arrival 65535 70 r r' /\
    (was_missing res = true <-> om_find 65535 (missing_packets_ r) <> None).
Proof.
  eexists _, _. split; [reflexivity|].
  apply (nack_gap_detection Config_default ex_nack_ops _ _ 65535 70 false ex_nack_args ex_nack_ops_ok
    (eq_refl ex_nack_run)); [reflexivity|words].
Defined.

Lemma nack_request_policy_witness : exists r ss, ex_nack_run = Ret (r, ss) /\
  nack_batch (Process 80 r).2 = [65535] /\ NoDup (nack_batch (Process 80 r).2).
Proof.
  eexists _, _. split; [reflexivity|]. split; [reflexivity|].
  apply (nack_request_policy Config_default ex_nack_ops _ _ 80 ex_nack_args ex_nack_ops_ok
    (eq_refl ex_nack_run)).
Defined.
