(* ===== verification/RtcpNackWire.v ===== *)
(** * Generic NACK messages

    Models [rtcpx::RtRtcpNack] (protocol/Rtcp/RtcpNack.h, RtcpNack.cpp): the
    PID/BLP packing of lost sequence numbers and the RTPFB packet around it.
    [std::vector] positions [i], [j] of the packing loops are modelled by the
    suffix of the vector they point at; [std::sort] is the library's merge
    sort and [std::unique] drops equal neighbours. *)
From S2P Require Import Prelude Bytes.
From stdpp Require Import sorting.
#[local] Open Scope Z_scope.

Module RtRtcpNack.

Definition RTCP_VERSION : Z := 2.
Definition RTCP_FMT_NACK : Z := 1.
Definition RTCP_PT_RTPFB : Z := 205.

Record NackPair := mkPair { pid : Z; blp : Z }.

Definition sort (l : list Z) : list Z := merge_sort Z.le l.

Fixpoint unique (l : list Z) : list Z :=
  match l with
  | [] => []
  | x :: l' =>
    match l' with
    | [] => [x]
    | y :: _ => if x =? y then unique l' else x :: unique l'
    end
  end.

(** The loop over [j]: collect the mask of the sixteen following numbers. *)
Fixpoint collect_blp (pid : Z) (seqs : list Z) (blp : Z) : Z :=
  match seqs with
  | [] => blp
  | s :: seqs =>
    let diff := u16 (s - pid) in
    if diff =? 0 then collect_blp pid seqs blp
    else if 16 <? diff then blp
    else collect_blp pid seqs (Z.lor blp (u16 (Z.shiftl 1 (diff - 1))))
  end.

(** The loop that advances [i] past the numbers just packed. *)
Fixpoint skip_packed (pid : Z) (seqs : list Z) : list Z :=
  match seqs with
  | [] => []
  | s :: rest =>
    let diff := u16 (s - pid) in
    if (diff =? 0) || (16 <? diff) then seqs else skip_packed pid rest
  end.

Fixpoint pack_loop (fuel : nat) (seqs : list Z) : mres (list NackPair) :=
  match seqs with
  | [] => Ret []
  | pid :: rest =>
    match fuel with
    | O => NoFuel
    | S fuel =>
      let blp := collect_blp pid rest 0 in
      let! pairs := pack_loop fuel (skip_packed pid rest) in
      Ret (mkPair pid blp :: pairs)
    end
  end.

Definition PackPairs (lost_seqs : list Z) : mres (list NackPair) :=
  match lost_seqs with
  | [] => Ret []
  | _ =>
    let seqs := unique (sort lost_seqs) in
    pack_loop (length seqs) seqs
  end.

Definition expand_pair (p : NackPair) : list Z :=
  pid p ::
  List.map (fun i => u16 (pid p + i + 1))
    (List.filter (fun i => negb (Z.land (blp p) (u16 (Z.shiftl 1 i)) =? 0)) (seqZ 0 16)).

Definition ExpandPairs (pairs : list NackPair) : list Z := List.flat_map expand_pair pairs.

Fixpoint write_pairs (packet : list Z) (offset : Z) (pairs : list NackPair) : mres (list Z) :=
  match pairs with
  | [] => Ret packet
  | p :: pairs =>
    let! packet := WriteUint16BE packet offset (pid p) in
    let! packet := WriteUint16BE packet (offset + 2) (blp p) in
    write_pairs packet (offset + 4) pairs
  end.

Definition Build (sender_ssrc media_ssrc : Z) (lost_seqs : list Z) : mres (list Z) :=
  let! pairs := PackPairs lost_seqs in
  match pairs with
  | [] => Ret []
  | _ =>
    let packet_size := 12 + Z.of_nat (length pairs) * 4 in
    let length_words_minus_one := u16 (packet_size / 4 - 1) in
    let packet := replicate (Z.to_nat packet_size) 0 in
    let! packet := wr packet 0 (u8 (Z.lor (Z.shiftl RTCP_VERSION 6) RTCP_FMT_NACK)) in
    let! packet := wr packet 1 RTCP_PT_RTPFB in
    let! packet := WriteUint16BE packet 2 length_words_minus_one in
    let! packet := WriteUint32BE packet 4 sender_ssrc in
    let! packet := WriteUint32BE packet 8 media_ssrc in
    write_pairs packet 12 pairs
  end.

(** [for (offset = 12; offset + 4 <= packet_size; offset += 4)] *)
Fixpoint read_pairs (fuel : nat) (data : list Z) (packet_size offset : Z) : mres (list NackPair) :=
  if offset + 4 <=? packet_size then
    match fuel with
    | O => NoFuel
    | S fuel =>
      let! p := ReadUint16BE data offset in
      let! b := ReadUint16BE data (offset + 2) in
      let! rest := read_pairs fuel data packet_size (offset + 4) in
      Ret (mkPair p b :: rest)
    end
  else Ret [].

(** [None] where the code returns [false]; otherwise the values stored through
    the three output pointers. *)
Definition Parse (data : cbuf) : mres (option (Z * Z * list Z)) :=
  match data with
  | None => Ret None
  | Some b =>
    if blen b <? 12 then Ret None else
    let! b0 := rd b 0 in
    let! pt := rd b 1 in
    let version := u8 (Z.shiftr b0 6) in
    let fmt := u8 (Z.land b0 0x1F) in
    if negb (version =? RTCP_VERSION) then Ret None else
    if negb (fmt =? RTCP_FMT_NACK) then Ret None else
    if negb (pt =? RTCP_PT_RTPFB) then Ret None else
    let! length_words_minus_one := ReadUint16BE b 2 in
    let packet_size := (length_words_minus_one + 1) * 4 in
    if (packet_size <? 12) || (blen b <? packet_size) then Ret None else
    if negb ((packet_size - 12) mod 4 =? 0) then Ret None else
    let! sender_ssrc := ReadUint32BE b 4 in
    let! media_ssrc := ReadUint32BE b 8 in
    let! pairs := read_pairs (length b) b packet_size 12 in
    Ret (Some (sender_ssrc, media_ssrc, ExpandPairs pairs))
  end.

(** ** Sorting *)

(** Strictly increasing above [a]. *)
Fixpoint above (a : Z) (l : list Z) : Prop :=
  match l with
  | [] => True
  | x :: l => a < x /\ above x l
  end.

Lemma above_elem a l x : above a l -> x ∈ l -> a < x.
Proof.
  revert a. induction l as [|y l IH]; intros a; [set_solver|]. intros [Ha Hl].
  intros [->|Hin]%elem_of_cons; [done|]. specialize (IH _ Hl Hin). lia.
Qed.

Lemma unique_elem l x : x ∈ unique l <-> x ∈ l.
Proof.
  induction l as [|y l IH]; [done|]. simpl. destruct l as [|z l]; [done|].
  destruct (Z.eqb_spec y z) as [->|]; [|set_solver].
  rewrite IH. set_solver.
Qed.

Lemma sorted_above l a :
  StronglySorted Z.le l -> (forall x, x ∈ l -> a < x) -> above a (unique l).
Proof.
  intros Hs. revert a. induction Hs as [|x l Hl IH Hx]; intros a Ha; [done|].
  simpl. destruct l as [|y l]; [split; [apply Ha; set_solver|done]|].
  destruct (Z.eqb_spec x y) as [->|Hne].
  - apply IH. intros z Hz. apply Ha. set_solver.
  - split; [apply Ha; set_solver|]. apply IH. intros z Hz.
    rewrite Forall_forall in Hx. pose proof (Hx z Hz).
    assert (y <= z); [|pose proof (Hx y ltac:(set_solver)); lia].
    apply elem_of_cons in Hz as [->|Hz]; [lia|]. inversion Hl as [|? ? _ Hy]; subst.
    rewrite Forall_forall in Hy. by apply Hy.
Qed.

(** The sorted set of the lost numbers: what a NACK stands for. *)
Lemma sort_unique_spec l : (forall x, x ∈ l -> is_u16 x) ->
  above (-1) (unique (sort l)) /\ (forall x, x ∈ unique (sort l) <-> x ∈ l).
Proof.
  intros Hl. assert (forall x, x ∈ unique (sort l) <-> x ∈ l) as He.
  { intros x. rewrite unique_elem. unfold sort. by rewrite merge_sort_Permutation. }
  split; [|done]. apply sorted_above.
  - apply StronglySorted_merge_sort; [typeclasses eauto|]. intros x y. lia.
  - intros x Hx. unfold sort in Hx. rewrite merge_sort_Permutation in Hx.
    destruct (Hl x Hx). lia.
Qed.

(** ** Packing and expanding *)

(** The numbers one pair stands for besides its [pid]. *)
Fixpoint packed (p : Z) (seqs : list Z) : list Z :=
  match seqs with
  | [] => []
  | s :: seqs => if s <=? p + 16 then s :: packed p seqs else []
  end.

Definition seq_list (a : Z) (l : list Z) : Prop := above a l /\ Forall is_u16 l.

Lemma seq_list_cons a x l : seq_list a (x :: l) <-> a < x /\ is_u16 x /\ seq_list x l.
Proof. unfold seq_list. simpl. rewrite Forall_cons. tauto. Qed.

Lemma above_weaken a b l : a <= b -> above b l -> above a l.
Proof. destruct l; simpl; [done|]. intros ? [? ?]. split; [lia|done]. Qed.

Lemma skip_packed_spec p l a :
  is_u16 p -> p <= a -> seq_list a l ->
  l = packed p l ++ skip_packed p l /\ seq_list (p + 16) (skip_packed p l).
Proof.
  intros Hp. revert a. induction l as [|s l IH]; intros a Ha Hl; simpl; [done|].
  apply seq_list_cons in Hl as (Hs & Hu & Hl).
  rewrite (wrap_small 16 (s - p)) by (unfold is_u in *; lia).
  rewrite (proj2 (Z.eqb_neq (s - p) 0)) by lia. cbn [orb].
  destruct (Z.leb_spec s (p + 16)), (Z.ltb_spec 16 (s - p)); try lia.
  - destruct (IH s ltac:(lia) Hl) as [E ?]. split; [simpl; by rewrite <- E|done].
  - split; [done|]. apply seq_list_cons. split; [lia|done].
Qed.

Lemma testbit_lor_pow2 x k i : 0 <= k -> 0 <= i ->
  Z.testbit (Z.lor x (2 ^ k)) i = (Z.testbit x i || (k =? i))%bool.
Proof. intros. rewrite Z.lor_spec, Z.pow2_bits_eqb by lia. done. Qed.

Lemma shiftl1 k : 0 <= k < 16 -> u16 (Z.shiftl 1 k) = 2 ^ k.
Proof.
  intros. rewrite Z.shiftl_mul_pow2, Z.mul_1_l by lia. apply wrap_small.
  split; [apply Z.pow_nonneg; lia|]. apply Z.pow_lt_mono_r; lia.
Qed.

(** Bit [i] of the collected mask is set exactly for [pid + i + 1]. *)
Lemma collect_blp_spec p l c m :
  is_u16 p -> 0 <= c <= 16 -> seq_list (p + c) l ->
  (forall i, c <= i -> Z.testbit m i = false) ->
  let r := collect_blp p l m in
  (forall i, 0 <= i < c -> Z.testbit r i = Z.testbit m i) /\
  (forall i, 16 <= i -> Z.testbit r i = false) /\
  List.map (fun i => p + i + 1) (List.filter (Z.testbit r) (seqZ c (16 - c))) = packed p l.
Proof.
  intros Hp. revert c m. induction l as [|s l IH]; intros c m Hc Hl Hm; simpl.
  { split; [done|]. split; [intros; apply Hm; lia|].
    rewrite filter_none; [done|]. intros x Hx%elem_of_seqZ. apply Hm. lia. }
  apply seq_list_cons in Hl as (Hs & Hu & Hl).
  rewrite (wrap_small 16 (s - p)) by (unfold is_u in *; lia).
  rewrite (proj2 (Z.eqb_neq (s - p) 0)) by lia.
  destruct (Z.leb_spec s (p + 16)), (Z.ltb_spec 16 (s - p)); try lia.
  2:{ split; [done|]. split; [intros; apply Hm; lia|].
      rewrite filter_none; [done|]. intros x Hx%elem_of_seqZ. apply Hm. lia. }
  rewrite shiftl1 by lia. set (m' := Z.lor m (2 ^ (s - p - 1))).
  destruct (IH (s - p) m') as (H1 & H2 & H3); [lia| | |].
  { replace (p + (s - p)) with s by lia. done. }
  { intros i Hi. unfold m'. rewrite testbit_lor_pow2, Hm by lia.
    by rewrite (proj2 (Z.eqb_neq (s - p - 1) i)) by lia. }
  set (r := collect_blp p l m') in *.
  assert (forall i, 0 <= i < s - p - 1 -> Z.testbit r i = Z.testbit m i) as Hlow.
  { intros i Hi. rewrite H1 by lia. unfold m'. rewrite testbit_lor_pow2 by lia.
    rewrite (proj2 (Z.eqb_neq (s - p - 1) i)) by lia. apply orb_false_r. }
  split; [intros i Hi; apply Hlow; lia|]. split; [done|].
  replace (16 - c) with ((s - p - 1 - c) + (1 + (16 - (s - p)))) by lia.
  rewrite seqZ_app, List.filter_app, filter_none by (lia || (intros x Hx%elem_of_seqZ; rewrite Hlow, Hm by lia; done)).
  replace (c + (s - p - 1 - c)) with (s - p - 1) by lia. rewrite app_nil_l.
  rewrite seqZ_app by lia. rewrite (seqZ_cons _ 1) by lia. change (seqZ _ (Z.pred 1)) with (@nil Z).
  cbn [app List.filter]. rewrite H1 by lia. unfold m' at 1. rewrite testbit_lor_pow2, Z.eqb_refl, orb_true_r by lia.
  cbn [List.map]. f_equal; [lia|]. rewrite <- H3. do 3 f_equal; lia.
Qed.

Lemma expand_bit b i : 0 <= i < 16 ->
  negb (Z.land b (u16 (Z.shiftl 1 i)) =? 0) = Z.testbit b i.
Proof.
  intros Hi. rewrite shiftl1 by done. change (flag b (2 ^ i) = Z.testbit b i).
  rewrite flag_spec by lia. rewrite Z.testbit_eqb by lia. done.
Qed.

(** Expanding the pair built for [pid] gives back what was packed. *)
Lemma expand_collect p l :
  is_u16 p -> seq_list p l -> expand_pair (mkPair p (collect_blp p l 0)) = p :: packed p l.
Proof.
  intros Hp Hl. unfold expand_pair. cbn [pid blp]. f_equal.
  destruct (collect_blp_spec p l 0 0) as (_ & _ & H3); [done|lia|by rewrite Z.add_0_r| |].
  { intros. apply Z.bits_0. }
  rewrite (filter_ext_elem _ (Z.testbit (collect_blp p l 0)))
    by (intros i Hi%elem_of_seqZ; apply expand_bit; lia).
  rewrite <- H3. change (16 - 0) with 16. apply List.map_ext_in. intros i Hi.
  assert (p + i + 1 ∈ packed p l) as Hin.
  { rewrite <- H3. apply list_elem_of_In. by apply (List.in_map (fun i => p + i + 1)). }
  apply wrap_small. destruct (skip_packed_spec p l p Hp ltac:(lia) Hl) as [E _].
  destruct Hl as [_ Hl]. rewrite E, Forall_app in Hl. destruct Hl as [Hl _].
  rewrite Forall_forall in Hl. by apply Hl.
Qed.

Lemma collect_blp_u16 p l : is_u16 p -> seq_list p l -> is_u16 (collect_blp p l 0).
Proof.
  intros Hp Hl. destruct (collect_blp_spec p l 0 0) as (_ & H2 & _); [done|lia|by rewrite Z.add_0_r| |].
  { intros. apply Z.bits_0. }
  set (r := collect_blp p l 0) in *. assert (r = r mod 2 ^ 16) as ->; [|apply wrap_range; lia].
  apply Z.bits_inj'. intros i Hi. destruct (decide (i < 16)).
  - by rewrite Z.mod_pow2_bits_low.
  - rewrite Z.mod_pow2_bits_high, H2 by lia. done.
Qed.

(** Packing loses nothing and invents nothing; the pairs are at most one in
    seventeen numbers. *)
Lemma pack_loop_spec fuel a l :
  (length l <= fuel)%nat -> -1 <= a <= 65551 -> seq_list a l ->
  exists pairs, pack_loop fuel l = Ret pairs /\ ExpandPairs pairs = l /\
    Forall (fun p => is_u16 (pid p) /\ is_u16 (blp p)) pairs /\
    17 * Z.of_nat (length pairs) <= 65535 - a + 16.
Proof.
  revert a l. induction fuel as [|fuel IH]; intros a l Hf Ha Hl; destruct l as [|p l]; simpl in *;
    try (exists []; split; [done|]; split; [done|]; split; [constructor|simpl; lia]); [lia|].
  apply seq_list_cons in Hl as (Hp & Hu & Hl).
  destruct (skip_packed_spec p l p Hu ltac:(lia) Hl) as [E Hs].
  destruct (IH (p + 16) (skip_packed p l)) as (pairs & -> & Hx & Hall & Hn); [|unfold is_u in *; pow2; lia|done|].
  { apply (f_equal length) in E. rewrite length_app in E. lia. }
  exists (mkPair p (collect_blp p l 0) :: pairs). cbn [mbnd]. split; [done|].
  split; [|split; [constructor; [split; [done|by apply collect_blp_u16]|done]|simpl; lia]].
  unfold ExpandPairs in *. cbn [List.flat_map]. rewrite expand_collect, Hx by done.
  cbn [app]. by rewrite <- E.
Qed.

Lemma PackPairs_spec l : (forall x, x ∈ l -> is_u16 x) ->
  exists pairs, PackPairs l = Ret pairs /\ ExpandPairs pairs = unique (sort l) /\
    Forall (fun p => is_u16 (pid p) /\ is_u16 (blp p)) pairs /\ 0 <= Z.of_nat (length pairs) <= 3856.
Proof.
  intros Hl. destruct l as [|x l]; [exists []; by split; [|split; [|split; [constructor|simpl; lia]]]|].
  set (l0 := x :: l) in *. change (PackPairs l0) with (pack_loop (length (unique (sort l0))) (unique (sort l0))).
  destruct (sort_unique_spec l0 Hl) as [Ha He].
  destruct (pack_loop_spec (length (unique (sort l0))) (-1) (unique (sort l0))) as (pairs & E & Hx & Hall & Hn).
  - done.
  - lia.
  - split; [done|]. apply Forall_forall. intros y Hy. apply Hl. by apply He.
  - exists pairs. repeat split; auto; lia.
Qed.

Lemma packed_nonempty l : l <> [] -> (forall x, x ∈ l -> is_u16 x) -> ExpandPairs [] <> unique (sort l).
Proof.
  destruct l as [|x l]; [done|]. intros _ Hl E. destruct (sort_unique_spec (x :: l) Hl) as [_ He].
  rewrite <- E in He. specialize (He x). set_solver.
Qed.

(** ** The packet *)

Definition pair_bytes (p : NackPair) : list Z := be16 (pid p) ++ be16 (blp p).

Definition nack_bytes (sender media : Z) (pairs : list NackPair) : list Z :=
  [129; 205] ++ be16 (Z.of_nat (length pairs) + 2) ++ be32 sender ++ be32 media ++
  List.flat_map pair_bytes pairs.

Lemma write_pairs_app pairs a :
  write_pairs (a ++ replicate (length pairs * 4) 0) (blen a) pairs =
  Ret (a ++ List.flat_map pair_bytes pairs).
Proof.
  revert a. induction pairs as [|p pairs IH]; intros a; [done|].
  cbn [length Nat.mul replicate Nat.add write_pairs].
  rewrite WriteUint16BE_app by done. cbn [mbnd].
  replace (a ++ be16 (pid p) ++ 0 :: 0 :: replicate (length pairs * 4) 0)
    with ((a ++ be16 (pid p)) ++ 0 :: 0 :: replicate (length pairs * 4) 0) by (by rewrite <- app_assoc).
  rewrite WriteUint16BE_app by (rewrite blen_app; reflexivity). cbn [mbnd].
  replace ((a ++ be16 (pid p)) ++ be16 (blp p) ++ replicate (length pairs * 4) 0)
    with ((a ++ pair_bytes p) ++ replicate (length pairs * 4) 0)
    by (unfold pair_bytes; by rewrite <- !app_assoc).
  replace (blen a + 4) with (blen (a ++ pair_bytes p)) by (rewrite blen_app; reflexivity).
  rewrite IH. cbn [List.flat_map]. by rewrite <- app_assoc.
Qed.

Lemma Build_bytes sender media l pairs :
  PackPairs l = Ret pairs -> pairs <> [] -> Z.of_nat (length pairs) <= 3856 ->
  Build sender media l = Ret (nack_bytes sender media pairs).
Proof.
  intros E Hne Hn. unfold Build. rewrite E. cbn [mbnd]. destruct pairs as [|p0 ps]; [done|].
  set (pairs := p0 :: ps) in *.
  replace (Z.to_nat (12 + Z.of_nat (length pairs) * 4)) with (12 + length pairs * 4)%nat by lia.
  rewrite replicate_add. set (tail := replicate (length pairs * 4) 0).
  replace (u16 ((12 + Z.of_nat (length pairs) * 4) / 4 - 1)) with (Z.of_nat (length pairs) + 2) by words.
  set (n := Z.of_nat (length pairs) + 2). cbn [replicate app].
  erewrite (wr_at []) by reflexivity. cbn [mbnd app].
  erewrite (wr_at [_]) by reflexivity. cbn [mbnd app].
  change (u8 (Z.lor (Z.shiftl RTCP_VERSION 6) RTCP_FMT_NACK)) with 129.
  change RTCP_PT_RTPFB with 205.
  erewrite (WriteUint16BE_at [129; 205]) by reflexivity. cbn [mbnd].
  erewrite (WriteUint32BE_at ([129; 205] ++ be16 n)) by reflexivity. cbn [mbnd].
  erewrite (WriteUint32BE_at (([129; 205] ++ be16 n) ++ be32 sender)) by reflexivity. cbn [mbnd].
  rewrite (app_assoc _ (be32 media)).
  change 12 with (blen ((([129; 205] ++ be16 n) ++ be32 sender) ++ be32 media)).
  unfold tail. rewrite write_pairs_app. unfold nack_bytes. fold n. by rewrite <- !app_assoc.
Qed.

Lemma flat_map_pair_len pairs : blen (List.flat_map pair_bytes pairs) = 4 * Z.of_nat (length pairs).
Proof.
  induction pairs as [|p pairs IH]; [done|]. cbn [List.flat_map length]. rewrite blen_app, IH.
  change (blen (pair_bytes p)) with 4. lia.
Qed.

(** Reading the pairs back from the middle of a buffer. *)
Lemma read_pairs_app fuel pairs a size :
  Forall (fun p => is_u16 (pid p) /\ is_u16 (blp p)) pairs -> (length pairs <= fuel)%nat ->
  size = blen a + 4 * Z.of_nat (length pairs) ->
  read_pairs fuel (a ++ List.flat_map pair_bytes pairs) size (blen a) = Ret pairs.
Proof.
  intros Hp. revert fuel a. induction Hp as [|p pairs [H1 H2] Hp IH]; intros fuel a Hf Hs.
  { simpl in *. destruct fuel; simpl; rewrite (proj2 (Z.leb_gt (blen a + 4) size)) by lia; done. }
  destruct fuel as [|fuel]; simpl in Hf; [lia|]. cbn [read_pairs List.flat_map length] in *.
  rewrite (proj2 (Z.leb_le (blen a + 4) size)) by lia.
  set (rest := List.flat_map pair_bytes pairs).
  assert (a ++ pair_bytes p ++ rest = a ++ be16 (pid p) ++ be16 (blp p) ++ rest /\
          a ++ pair_bytes p ++ rest = (a ++ be16 (pid p)) ++ be16 (blp p) ++ rest /\
          a ++ pair_bytes p ++ rest = (a ++ pair_bytes p) ++ rest) as (E1 & E2 & E3)
    by (unfold pair_bytes; by rewrite <- !app_assoc).
  rewrite (ReadUint16BE_at _ _ _ _ _ E1) by done. cbn [mbnd].
  rewrite (ReadUint16BE_at _ _ _ _ _ E2) by (rewrite ?blen_app; done). cbn [mbnd].
  replace (blen a + 4) with (blen (a ++ pair_bytes p)) by (rewrite blen_app; reflexivity).
  rewrite E3. unfold rest. rewrite IH; [by destruct p|lia|]. rewrite blen_app.
  change (blen (pair_bytes p)) with 4. lia.
Qed.

Lemma nack_bytes_len sender media pairs :
  blen (nack_bytes sender media pairs) = 12 + 4 * Z.of_nat (length pairs).
Proof.
  unfold nack_bytes. rewrite !blen_app, flat_map_pair_len.
  change (blen [129; 205]) with 2. change (blen (be16 _)) with 2. change (blen (be32 _)) with 4. lia.
Qed.

(** The fields of the packet, read back. *)
Lemma nack_bytes_fields sender media pairs :
  is_u32 sender -> is_u32 media -> Forall (fun p => is_u16 (pid p) /\ is_u16 (blp p)) pairs ->
  let b := nack_bytes sender media pairs in
  ReadUint32BE b 4 = Ret sender /\ ReadUint32BE b 8 = Ret media /\
  read_pairs (length b) b (blen b) 12 = Ret pairs.
Proof.
  intros Hs Hm Hp b. pose proof (nack_bytes_len sender media pairs) as Hlen. fold b in Hlen.
  split; [|split].
  - apply (ReadUint32BE_app ([129; 205] ++ be16 (Z.of_nat (length pairs) + 2))); done.
  - unfold b, nack_bytes. rewrite !app_assoc. rewrite <- (app_assoc _ (be32 media)).
    apply ReadUint32BE_app; done.
  - rewrite Hlen. unfold b, nack_bytes. rewrite !app_assoc.
    apply (read_pairs_app _ pairs ((([129; 205] ++ be16 _) ++ be32 sender) ++ be32 media)).
    + done.
    + unfold blen in Hlen. unfold b, nack_bytes in Hlen. rewrite !app_assoc in Hlen. lia.
    + change (blen ((([129; 205] ++ be16 ?n) ++ be32 sender) ++ be32 media)) with 12. lia.
Qed.

Lemma Parse_bytes sender media pairs :
  is_u32 sender -> is_u32 media -> Forall (fun p => is_u16 (pid p) /\ is_u16 (blp p)) pairs ->
  Z.of_nat (length pairs) <= 3856 ->
  Parse (Some (nack_bytes sender media pairs)) = Ret (Some (sender, media, ExpandPairs pairs)).
Proof.
  intros Hs Hm Hp Hn. pose proof (nack_bytes_len sender media pairs) as Hlen.
  destruct (nack_bytes_fields sender media pairs Hs Hm Hp) as (E4 & E8 & Ep).
  set (b := nack_bytes sender media pairs) in *.
  unfold Parse. rewrite (proj2 (Z.ltb_ge (blen b) 12)) by lia.
  erewrite (rd_at [] 129) by reflexivity. erewrite (rd_at [129] 205) by reflexivity. cbn [mbnd].
  cbv zeta. change (u8 (Z.shiftr 129 6)) with 2. change (u8 (Z.land 129 0x1F)) with 1.
  cbn [Z.eqb Pos.eqb negb RTCP_VERSION RTCP_FMT_NACK RTCP_PT_RTPFB].
  assert (ReadUint16BE b 2 = Ret (Z.of_nat (length pairs) + 2)) as ->.
  { apply (ReadUint16BE_app [129; 205]); [done|]. unfold is_u. pow2. lia. }
  cbn [mbnd]. cbv zeta. replace ((Z.of_nat (length pairs) + 2 + 1) * 4) with (blen b) by lia.
  rewrite (proj2 (Z.ltb_ge (blen b) 12)), Z.ltb_irrefl by lia. cbn [orb].
  replace ((blen b - 12) mod 4) with 0 by (rewrite Hlen; words). cbn [Z.eqb negb].
  by rewrite E4, E8, Ep.
Qed.

Lemma nack_bytes_ok sender media pairs : bytes_ok (nack_bytes sender media pairs).
Proof.
  unfold nack_bytes, bytes_ok. repeat apply Forall_app_2; unfold be16, be32; try bytes_list; try words.
  induction pairs as [|p pairs IH]; [constructor|]. apply Forall_app_2; [|done].
  unfold pair_bytes, be16. bytes_list.
Qed.

(** Reading pairs from an arbitrary buffer stays inside it. *)
Lemma read_pairs_returns fuel b size off :
  bytes_ok b -> 0 <= off -> size <= blen b -> size - off <= 4 * Z.of_nat fuel ->
  returns (read_pairs fuel b size off).
Proof.
  intros Hb. revert off. induction fuel as [|fuel IH]; intros off H0 Hs Hf; cbn [read_pairs];
    destruct (Z.leb_spec (off + 4) size); auto with safe; [lia|].
  rewrite !ReadUint16BE_ok by (done || lia). cbn [mbnd]. apply returns_bind; auto with safe.
  apply IH; lia.
Qed.

Lemma Parse_returns b : bytes_ok b -> returns (Parse (Some b)).
Proof.
  intros Hb. unfold Parse. split_if; auto with safe. bool_hyps.
  rewrite !rd_ok by lia. cbn [mbnd]. cbv zeta. repeat (split_if; [auto with safe|]).
  rewrite ReadUint16BE_ok by (done || lia). cbn [mbnd]. cbv zeta.
  repeat (split_if; [auto with safe|]). bool_hyps.
  rewrite !ReadUint32BE_ok by (done || lia). cbn [mbnd].
  apply returns_bind; auto with safe. apply read_pairs_returns; auto; unfold blen in *; lia.
Qed.

(** PID/BLP packing.  For any list of 16-bit sequence numbers [PackPairs]
    terminates, and expanding the pairs gives exactly the sorted list of the
    distinct numbers: nothing is lost, nothing is added, nothing is repeated.
    At most 3856 pairs are produced. *)
Theorem nack_pairs_roundtrip l : (forall x, x ∈ l -> is_u16 x) ->
  exists pairs, PackPairs l = Ret pairs /\
    above (-1) (ExpandPairs pairs) /\ (forall x, x ∈ ExpandPairs pairs <-> x ∈ l) /\
    Z.of_nat (length pairs) <= 3856.
Proof.
  intros Hl. destruct (PackPairs_spec l Hl) as (pairs & E & Hx & _ & Hn).
  exists pairs. rewrite Hx. destruct (sort_unique_spec l Hl) as [Ha He]. repeat split; auto; try apply He; lia.
Qed.

(** NACK message.  Building a NACK for a non-empty list of lost numbers
    and parsing the bytes gives back both SSRCs and the sorted distinct
    numbers; the 16-bit RTCP length field never wraps; and [Parse] neither
    reads outside its buffer nor loops on any input. *)
Theorem nack_message_roundtrip sender media l :
  is_u32 sender -> is_u32 media -> l <> [] -> (forall x, x ∈ l -> is_u16 x) ->
  (exists b, Build sender media l = Ret b /\
     Parse (Some b) = Ret (Some (sender, media, unique (sort l)))) /\
  (forall b, bytes_ok b -> returns (Parse (Some b))).
Proof.
  intros Hs Hm Hne Hl. split; [|apply Parse_returns].
  destruct (PackPairs_spec l Hl) as (pairs & E & Hx & Hall & Hn).
  assert (pairs <> []) as Hp by (intros ->; by eapply packed_nonempty).
  exists (nack_bytes sender media pairs). split; [apply Build_bytes; auto; lia|].
  rewrite Parse_bytes by (done || lia). by rewrite Hx.
Qed.

Lemma ex_lost x : x ∈ [65535; 3; 20; 3; 19] -> is_u16 x.
Proof. rewrite !elem_of_cons. intros H. destruct_or?; subst; try words. set_solver. Qed.

Lemma nack_pairs_roundtrip_witness :
  exists pairs, PackPairs [65535; 3; 20; 3; 19] = Ret pairs /\
    (forall x, x ∈ ExpandPairs pairs <-> x ∈ [65535; 3; 20; 3; 19]).
Proof.
  destruct (nack_pairs_roundtrip [65535; 3; 20; 3; 19] ex_lost) as (pairs & E & _ & H & _).
  exists pairs. split; [exact E|exact H].
Defined.

Lemma nack_message_roundtrip_witness :
  exists b, Build 7 9 [65535; 3; 20; 3; 19] = Ret b /\
    Parse (Some b) = Ret (Some (7, 9, [3; 19; 20; 65535])).
Proof.
  assert (is_u32 7 /\ is_u32 9) as [H7 H9] by (split; words).
  apply (nack_message_roundtrip 7 9 [65535; 3; 20; 3; 19] H7 H9); [discriminate|exact ex_lost].
Defined.

End RtRtcpNack.
