(* ===== verification/RtcpWire.v ===== *)
(** * RTCP compound packets

    Models the RTCP side of the wire: the common header ([RtcpHealper.h],
    [RtcpHealper.cpp]), the packets the server builds ([RtcpFeedback.cpp],
    [RtcpSenderImpl] of [RtcpContext.cpp]), the routing inspection
    ([InspectRtcpPacket]) and the receiver ([RtcpReciver.cpp]).  Calls on
    [IRtcpObserver] are the events an operation returns, in order.  A callee
    that is handed [(p, len)] is given exactly the [len] bytes it may read, so
    a read past them is a [Fault] even where the allocation goes on. *)
From S2P Require Import Prelude Bytes RtcpNackWire.

(** ** Packet types and feedback formats *)

Inductive RtcpPacketType :=
| RTCP_PT_SR | RTCP_PT_RR | RTCP_PT_SDES | RTCP_PT_BYE | RTCP_PT_APP
| RTCP_PT_RTPFB | RTCP_PT_PSFB | RTCP_PT_XR.

Definition pt_value (t : RtcpPacketType) : Z :=
  match t with
  | RTCP_PT_SR => 200 | RTCP_PT_RR => 201 | RTCP_PT_SDES => 202 | RTCP_PT_BYE => 203
  | RTCP_PT_APP => 204 | RTCP_PT_RTPFB => 205 | RTCP_PT_PSFB => 206 | RTCP_PT_XR => 207
  end.

Definition kRtpFbNack : Z := 1.
Definition kRtpFbTransportCc : Z := 15.
Definition kPsFbPli : Z := 1.
Definition kPsFbFir : Z := 4.

(** ** RtcpHeader *)

Record RtcpHeader := mkHeader {
  data_ : cbuf;
  buffer_size_ : Z;
  valid_ : bool;
  version_ : Z;
  padding_ : bool;
  count_or_fmt_ : Z;
  packet_type_ : Z;
  words_minus_one_ : Z;
  packet_size_ : Z;
  content_size_ : Z
}.

Definition kRtcpCommonHeaderSize : Z := 4.

(** [Reset], also the default member initialisers. *)
Definition header_reset : RtcpHeader := mkHeader None 0 false 0 false 0 0 0 0 0.

Definition PayloadSize (h : RtcpHeader) : Z :=
  if kRtcpCommonHeaderSize <? content_size_ h then content_size_ h - kRtcpCommonHeaderSize else 0.

(** [Parse] with the members it leaves behind on every return. *)
Definition header_Parse (data : cbuf) : mres (bool * RtcpHeader) :=
  match data with
  | None => Ret (false, header_reset)
  | Some b =>
    if blen b <? kRtcpCommonHeaderSize then Ret (false, header_reset) else
    let! b0 := rd b 0 in
    let! b1 := rd b 1 in
    let! b2 := rd b 2 in
    let! b3 := rd b 3 in
    let version := u8 (Z.shiftr b0 6) in
    let padding := negb (Z.land b0 0x20 =? 0) in
    let count := u8 (Z.land b0 0x1F) in
    let words := u16 (Z.lor (Z.shiftl b2 8) b3) in
    let h := mkHeader (Some b) (blen b) false version padding count b1 words in
    if negb (version =? 2) then Ret (false, h 0 0) else
    let packet_size := (words + 1) * 4 in
    if packet_size <? kRtcpCommonHeaderSize then Ret (false, h packet_size 0) else
    if blen b <? packet_size then Ret (false, h packet_size 0) else
    let valid := mkHeader (Some b) (blen b) true version padding count b1 words packet_size in
    if padding then
      let! padding_size := rd b (packet_size - 1) in
      if padding_size =? 0 then Ret (false, h packet_size packet_size) else
      if packet_size <? padding_size then Ret (false, h packet_size packet_size) else
      let content := packet_size - padding_size in
      if content <? kRtcpCommonHeaderSize then Ret (false, h packet_size content) else
      Ret (true, valid content)
    else Ret (true, valid packet_size)
  end.

(** ** Packets the server builds *)

Record RrBlock := mkRr {
  rr_ssrc : Z;
  rr_fraction_lost : Z;
  rr_cumulative_lost : Z;
  rr_extended_highest_seq : Z;
  rr_jitter : Z;
  rr_lsr : Z;
  rr_dlsr : Z
}.

Definition BuildPli (sender_ssrc media_ssrc : Z) : mres (list Z) :=
  let packet := replicate 12 0 in
  let! packet := wr packet 0 (u8 (Z.lor (Z.shiftl 2 6) 1)) in
  let! packet := wr packet 1 (pt_value RTCP_PT_PSFB) in
  let! packet := WriteUint16BE packet 2 2 in
  let! packet := WriteUint32BE packet 4 sender_ssrc in
  WriteUint32BE packet 8 media_ssrc.

Definition ParsePli (data : cbuf) : mres (option (Z * Z)) :=
  match data with
  | None => Ret None
  | Some b =>
    if blen b <? 12 then Ret None else
    let! b0 := rd b 0 in
    if negb (Z.shiftr b0 6 =? 2) then Ret None else
    if negb (Z.land b0 0x1F =? 1) then Ret None else
    let! b1 := rd b 1 in
    if negb (b1 =? pt_value RTCP_PT_PSFB) then Ret None else
    let! words := ReadUint16BE b 2 in
    let packet_size := (words + 1) * 4 in
    if negb (packet_size =? 12) || (blen b <? packet_size) then Ret None else
    let! sender_ssrc := ReadUint32BE b 4 in
    let! media_ssrc := ReadUint32BE b 8 in
    Ret (Some (sender_ssrc, media_ssrc))
  end.

Definition GenerateRtcp (media_ssrc : Z) : mres (list Z) :=
  let out := replicate 8 0 in
  let! out := wr out 0 (u8 (Z.shiftl 2 6)) in
  let! out := wr out 1 (pt_value RTCP_PT_RR) in
  let! out := WriteUint16BE out 2 1 in
  WriteUint32BE out 4 media_ssrc.

Definition BuildReceiverReport (sender_ssrc : Z) (block : RrBlock) : mres (list Z) :=
  let out := replicate 32 0 in
  let! out := wr out 0 (u8 (Z.lor (Z.shiftl 2 6) 1)) in
  let! out := wr out 1 (pt_value RTCP_PT_RR) in
  let! out := WriteUint16BE out 2 7 in
  let! out := WriteUint32BE out 4 sender_ssrc in
  let! out := WriteUint32BE out 8 (rr_ssrc block) in
  let! out := wr out 12 (rr_fraction_lost block) in
  let cumulative := Z.max (- 0x800000) (Z.min (rr_cumulative_lost block) 0x7FFFFF) in
  let loss24 := Z.land (u32 cumulative) 0x00FFFFFF in
  let! out := wr out 13 (u8 (Z.shiftr loss24 16)) in
  let! out := wr out 14 (u8 (Z.shiftr loss24 8)) in
  let! out := wr out 15 (u8 loss24) in
  let! out := WriteUint32BE out 16 (rr_extended_highest_seq block) in
  let! out := WriteUint32BE out 20 (rr_jitter block) in
  let! out := WriteUint32BE out 24 (rr_lsr block) in
  WriteUint32BE out 28 (rr_dlsr block).

(** ** Transport-wide congestion control feedback *)

Record TransportFeedbackPacket := mkTfPacket {
  transport_sequence : Z;
  received : bool;
  receive_time_us : Z;
  receive_time_ms : Z
}.

Record TransportFeedbackReport := mkReport {
  tf_sender_ssrc : Z;
  tf_media_ssrc : Z;
  base_sequence : Z;
  packet_status_count : Z;
  feedback_packet_count : Z;
  reference_time_ms : Z;
  packets : list TransportFeedbackPacket
}.

(** One packet status chunk: the symbols it stands for. *)
Definition chunk_symbols (chunk : Z) : list Z :=
  if Z.land chunk 0x8000 =? 0 then
    replicate (Z.to_nat (u16 (Z.land chunk 0x1FFF))) (u8 (Z.land (Z.shiftr chunk 13) 0x03))
  else if negb (Z.land chunk 0x4000 =? 0) then
    List.map (fun shift => u8 (Z.land (Z.shiftr chunk shift) 0x03)) [12; 10; 8; 6; 4; 2; 0]
  else
    List.map (fun shift => u8 (Z.land (Z.shiftr chunk shift) 0x01))
      [13; 12; 11; 10; 9; 8; 7; 6; 5; 4; 3; 2; 1; 0].

(** The status loop; every inner loop stops at [packet_status_count]. *)
Fixpoint read_statuses (fuel : nat) (p : list Z) (count off : Z) (statuses : list Z)
    : mres (list Z * Z) :=
  if (Z.of_nat (length statuses) <? count) && (off + 2 <=? blen p) then
    match fuel with
    | O => NoFuel
    | S fuel =>
      let! chunk := ReadUint16BE p off in
      let room := (Z.to_nat count - length statuses)%nat in
      read_statuses fuel p count (off + 2) (statuses ++ take room (chunk_symbols chunk))
    end
  else Ret (statuses, off).

(** The delta loop over the statuses from index [i]; [None] is [return false]. *)
Fixpoint read_deltas (p : list Z) (base reference_ms : Z) (statuses : list Z) (i off delta_sum : Z)
    : mres (option (list TransportFeedbackPacket)) :=
  match statuses with
  | [] => Ret (Some [])
  | status :: statuses =>
    let seq := u16 (base + u16 i) in
    let continue_ off delta_sum packet :=
      let! rest := read_deltas p base reference_ms statuses (i + 1) off delta_sum in
      Ret (option_map (cons packet) rest) in
    let received_at off delta_us :=
      let delta_sum := delta_sum + delta_us in
      let time_us := reference_ms * 1000 + delta_sum in
      continue_ off delta_sum
        (mkTfPacket seq true time_us (if 0 <? time_us then time_us / 1000 else 0)) in
    if status =? 0 then continue_ off delta_sum (mkTfPacket seq false 0 0)
    else if status =? 1 then
      if blen p <? off + 1 then Ret None else
      let! d := rd p off in
      received_at (off + 1) (d * 250)
    else if status =? 2 then
      if blen p <? off + 2 then Ret None else
      let! d := ReadUint16BE p off in
      received_at (off + 2) (s16 d * 250)
    else Ret None
  end.

Definition ParseTransportFeedback (p : list Z) : mres (option TransportFeedbackReport) :=
  if blen p <? 20 then Ret None else
  let! sender := ReadUint32BE p 4 in
  let! media := ReadUint32BE p 8 in
  let! base := ReadUint16BE p 12 in
  let! count := ReadUint16BE p 14 in
  let! ref24 := ReadUint24BE p 16 in
  let reference_ms := ref24 * 64 in
  let! fb_count := rd p 19 in
  let! '(statuses, off) := read_statuses (length p) p count 20 [] in
  if Z.of_nat (length statuses) <? count then Ret None else
  let! pkts := read_deltas p base reference_ms statuses 0 off 0 in
  Ret (option_map (mkReport sender media base count fb_count reference_ms) pkts).

(** ** The receiver *)

Inductive RtcpEvent :=
| OnReceiverReport (sender_ssrc media_ssrc fraction_lost cumulative_lost highest_seq jitter lsr dlsr : Z)
| OnSenderReport (sender_ssrc ntp rtp_ts packet_count octet_count : Z)
| OnNack (sender_ssrc media_ssrc : Z) (seqs : list Z)
| OnPli (sender_ssrc media_ssrc : Z)
| OnFir (sender_ssrc media_ssrc seq_nr : Z)
| OnTransportFeedback (report : TransportFeedbackReport)
| OnBye (sender_ssrc : Z).

(** The receiver's own 24-bit reader (file-local in RtcpReciver.cpp). *)
Definition receiver_ReadInt24BE (b : list Z) (off : Z) : mres Z :=
  let! value := ReadUint24BE b off in
  let value := if negb (Z.land value 0x00800000 =? 0) then Z.lor value 0xFF000000 else value in
  Ret (s32 value).

(** [for (i = 0; i < fmt && off + 24 <= len; ++i, off += 24)] *)
Fixpoint report_blocks (n : nat) (p : list Z) (sender_ssrc off : Z) : mres (list RtcpEvent) :=
  match n with
  | O => Ret []
  | S n =>
    if off + 24 <=? blen p then
      let! ssrc := ReadUint32BE p off in
      let! fraction := rd p (off + 4) in
      let! lost := receiver_ReadInt24BE p (off + 5) in
      let! highest := ReadUint32BE p (off + 8) in
      let! jitter := ReadUint32BE p (off + 12) in
      let! lsr := ReadUint32BE p (off + 16) in
      let! dlsr := ReadUint32BE p (off + 20) in
      let! rest := report_blocks n p sender_ssrc (off + 24) in
      Ret (OnReceiverReport sender_ssrc ssrc fraction lost highest jitter lsr dlsr :: rest)
    else Ret []
  end.

Fixpoint bye_sources (n : nat) (p : list Z) (off : Z) : mres (list RtcpEvent) :=
  match n with
  | O => Ret []
  | S n =>
    if off + 4 <=? blen p then
      let! ssrc := ReadUint32BE p off in
      let! rest := bye_sources n p (off + 4) in
      Ret (OnBye ssrc :: rest)
    else Ret []
  end.

Fixpoint fir_entries (fuel : nat) (p : list Z) (sender_ssrc media_ssrc off : Z) : mres (list RtcpEvent) :=
  if off + 8 <=? blen p then
    match fuel with
    | O => NoFuel
    | S fuel =>
      let! ssrc := ReadUint32BE p off in
      let! seq_nr := rd p (off + 4) in
      let! rest := fir_entries fuel p sender_ssrc media_ssrc (off + 8) in
      Ret (OnFir sender_ssrc (if negb (ssrc =? 0) then ssrc else media_ssrc) seq_nr :: rest)
    end
  else Ret [].

(** [observer_] is not null; [p] holds the [len] bytes of the packet. *)
Definition HandleSingleRtcpPacket (p : list Z) (fmt pt : Z) : mres (list RtcpEvent) :=
  let len := blen p in
  if len <? 4 then Ret [] else
  if pt =? 200 then
    if 28 <=? len then
      let! sender := ReadUint32BE p 4 in
      let! ntp := ReadUint64BE p 8 in
      let! rtp_ts := ReadUint32BE p 16 in
      let! packet_count := ReadUint32BE p 20 in
      let! octet_count := ReadUint32BE p 24 in
      let! blocks := report_blocks (Z.to_nat fmt) p sender 28 in
      Ret (OnSenderReport sender ntp rtp_ts packet_count octet_count :: blocks)
    else Ret []
  else if pt =? 201 then
    if 8 <=? len then
      let! sender := ReadUint32BE p 4 in
      report_blocks (Z.to_nat fmt) p sender 8
    else Ret []
  else if pt =? 202 then Ret []
  else if pt =? 203 then bye_sources (Z.to_nat fmt) p 4
  else if pt =? 205 then
    if (12 <=? len) && (fmt =? 1) then
      let! sender := ReadUint32BE p 4 in
      let! media := ReadUint32BE p 8 in
      let! pairs := RtRtcpNack.read_pairs (length p) p len 12 in
      let seqs := RtRtcpNack.ExpandPairs pairs in
      Ret (match seqs with [] => [] | _ => [OnNack sender media seqs] end)
    else if (20 <=? len) && (fmt =? 15) then
      let! report := ParseTransportFeedback p in
      Ret (match report with Some r => [OnTransportFeedback r] | None => [] end)
    else Ret []
  else if pt =? 206 then
    if 12 <=? len then
      let! sender := ReadUint32BE p 4 in
      let! media := ReadUint32BE p 8 in
      if fmt =? 1 then Ret [OnPli sender media]
      else if fmt =? 4 then fir_entries (length p) p sender media 12
      else Ret []
    else Ret []
  else Ret [].

Record PendingPacket := mkPending {
  header : RtcpHeader;
  content : list Z;
  transport_feedback : option TransportFeedbackReport
}.

(** The validation loop of [OnRtcpPacket]; [None] is [return false]. *)
Fixpoint collect_packets (fuel : nat) (b : list Z) (offset : Z) : mres (option (list PendingPacket)) :=
  if offset + 4 <=? blen b then
    match fuel with
    | O => NoFuel
    | S fuel =>
      let sub := drop (Z.to_nat offset) b in
      let! '(ok, h) := header_Parse (Some sub) in
      if negb ok then Ret None else
      let body := take (Z.to_nat (content_size_ h)) sub in
      let next tf :=
        let! rest := collect_packets fuel b (offset + packet_size_ h) in
        Ret (option_map (cons (mkPending h body tf)) rest) in
      if (packet_type_ h =? pt_value RTCP_PT_RTPFB) && (count_or_fmt_ h =? 15) then
        let! report := ParseTransportFeedback body in
        match report with
        | None => Ret None
        | Some r => next (Some r)
        end
      else next None
    end
  else if offset =? blen b then Ret (Some []) else Ret None.

Fixpoint publish (ps : list PendingPacket) : mres (list RtcpEvent) :=
  match ps with
  | [] => Ret []
  | p :: ps =>
    let! evs :=
      match transport_feedback p with
      | Some r => Ret [OnTransportFeedback r]
      | None => HandleSingleRtcpPacket (content p) (count_or_fmt_ (header p)) (packet_type_ (header p))
      end in
    let! rest := publish ps in
    Ret (evs ++ rest)
  end.

(** Result and the events published to a non-null observer. *)
Definition OnRtcpPacket (data : cbuf) : mres (bool * list RtcpEvent) :=
  match data with
  | None => Ret (false, [])
  | Some b =>
    if blen b <? 4 then Ret (false, []) else
    let! ps := collect_packets (length b) b 0 in
    match ps with
    | None | Some [] => Ret (false, [])
    | Some ps => let! evs := publish ps in Ret (true, evs)
    end
  end.

(** ** Routing inspection *)

Record RtcpPacketInfo := mkInfo {
  info_valid : bool;
  has_media_ssrc : bool;
  has_sender_ssrc : bool;
  first_packet_type : Z;
  first_count_or_fmt : Z;
  info_sender_ssrc : Z;
  info_media_ssrc : Z
}.

Definition info_zero : RtcpPacketInfo := mkInfo false false false 0 0 0 0.

Definition set_sender (s : Z) (i : RtcpPacketInfo) : RtcpPacketInfo :=
  mkInfo (info_valid i) (has_media_ssrc i) true (first_packet_type i) (first_count_or_fmt i) s (info_media_ssrc i).
Definition set_media (m : Z) (i : RtcpPacketInfo) : RtcpPacketInfo :=
  mkInfo (info_valid i) true (has_sender_ssrc i) (first_packet_type i) (first_count_or_fmt i) (info_sender_ssrc i) m.

(** What one sub-packet contributes. *)
Definition inspect_one (packet : list Z) (pt count : Z) (info : RtcpPacketInfo) : mres RtcpPacketInfo :=
  let len := blen packet in
  let! info :=
    if ((pt =? 200) || (pt =? 201) || (pt =? 205) || (pt =? 206)) && (8 <=? len) then
      let! s := ReadUint32BE packet 4 in Ret (set_sender s info)
    else Ret info in
  if ((pt =? 205) || (pt =? 206)) && (12 <=? len) then
    let! m := ReadUint32BE packet 8 in
    if (pt =? 206) && (count =? kPsFbFir) && (m =? 0) && (20 <=? len) then
      let! m := ReadUint32BE packet 12 in Ret (set_media m info)
    else Ret (set_media m info)
  else if (pt =? 201) && (0 <? count) && (8 + 24 <=? len) then
    let! m := ReadUint32BE packet 8 in Ret (set_media m info)
  else if (pt =? 200) && (0 <? count) && (28 + 24 <=? len) then
    let! m := ReadUint32BE packet 28 in Ret (set_media m info)
  else if (pt =? 200) && (8 <=? len) then
    let! m := ReadUint32BE packet 4 in Ret (set_media m info)
  else if (pt =? 203) && (0 <? count) && (8 <=? len) then
    let! s := ReadUint32BE packet 4 in Ret (set_media s (set_sender s info))
  else Ret info.

Fixpoint inspect_loop (fuel : nat) (b : list Z) (offset : Z) (parsed_any : bool) (info : RtcpPacketInfo)
    : mres (option RtcpPacketInfo) :=
  if offset <? blen b then
    match fuel with
    | O => NoFuel
    | S fuel =>
      let sub := drop (Z.to_nat offset) b in
      let! '(ok, h) := header_Parse (Some sub) in
      if negb ok then Ret None else
      let info :=
        if negb parsed_any then
          mkInfo (info_valid info) (has_media_ssrc info) (has_sender_ssrc info)
            (packet_type_ h) (count_or_fmt_ h) (info_sender_ssrc info) (info_media_ssrc info)
        else info in
      let! info := inspect_one (take (Z.to_nat (content_size_ h)) sub) (packet_type_ h) (count_or_fmt_ h) info in
      inspect_loop fuel b (offset + packet_size_ h) true info
    end
  else if negb parsed_any || negb (offset =? blen b) then Ret None
  else Ret (Some (mkInfo true (has_media_ssrc info) (has_sender_ssrc info)
         (first_packet_type info) (first_count_or_fmt info) (info_sender_ssrc info) (info_media_ssrc info))).

(** [None] where the code returns [false] (it then stores a cleared info). *)
Definition InspectRtcpPacket (data : cbuf) : mres (option RtcpPacketInfo) :=
  match data with
  | None => Ret None
  | Some b => if blen b <? 4 then Ret None else inspect_loop (length b) b 0 false info_zero
  end.
