(* ===== verification/RtcpProps.v ===== *)
(** * Correctness of the RTCP receiver and sender

    Memory safety and termination on arbitrary bytes, the framing of compound
    packets, all-or-nothing publication, and the round trips of the packets
    the server builds through its own receiver. *)
From S2P Require Import Prelude Bytes RtpWire RtcpNackWire RtcpWire.

(** ** The common header *)

(** What a successful [Parse] establishes. *)
Record framed (b : list Z) (h : RtcpHeader) : Prop := {
  fr_valid : valid_ h = true;
  fr_data : data_ h = Some b;
  fr_version : version_ h = 2;
  fr_words : is_u16 (words_minus_one_ h);
  fr_size : packet_size_ h = 4 * (words_minus_one_ h + 1);
  fr_packet : packet_size_ h <= blen b;
  fr_content : 4 <= content_size_ h <= packet_size_ h;
  fr_count : 0 <= count_or_fmt_ h < 32;
  fr_type : is_u8 (packet_type_ h)
}.

Lemma land_1f x : Z.land x 0x1F = x mod 32.
Proof. apply (land_ones_mod x 5). lia. Qed.

Lemma header_Parse_spec b : bytes_ok b ->
  exists ok h, header_Parse (Some b) = Ret (ok, h) /\ (ok = true -> framed b h).
Proof.
  intros Hb. unfold header_Parse, kRtcpCommonHeaderSize.
  destruct (Z.ltb_spec (blen b) 4); [by eexists _, _|].
  rewrite !rd_ok by lia. cbn [mbnd]. cbv zeta.
  pose proof (bget_u8 b 0 Hb) as B0. pose proof (bget_u8 b 1 Hb) as B1.
  pose proof (bget_u8 b 2 Hb) as B2. pose proof (bget_u8 b 3 Hb) as B3.
  set (words := u16 _). assert (is_u16 words) as Hw by (subst words; apply wrap_range; lia).
  rewrite land_1f. rewrite (wrap_small 8 (bget b 0 mod 32)) by words.
  destruct (Z.eqb_spec (u8 (Z.shiftr (bget b 0) 6)) 2) as [Hv|]; cbn [negb]; [|by eexists _, _].
  destruct (Z.ltb_spec ((words + 1) * 4) 4); [by eexists _, _|].
  destruct (Z.ltb_spec (blen b) ((words + 1) * 4)); [by eexists _, _|].
  assert (0 <= bget b 0 mod 32 < 32) as Hc by (apply Z.mod_pos_bound; lia).
  split_if.
  - unfold is_u in Hw. rewrite rd_ok by lia. cbn [mbnd].
    pose proof (bget_range b ((words + 1) * 4 - 1) Hb).
    destruct (Z.eqb_spec (bget b ((words + 1) * 4 - 1)) 0); [by eexists _, _|].
    destruct (Z.ltb_spec ((words + 1) * 4) (bget b ((words + 1) * 4 - 1))); [by eexists _, _|].
    destruct (Z.ltb_spec ((words + 1) * 4 - bget b ((words + 1) * 4 - 1)) 4); [by eexists _, _|].
    eexists _, _. split; [done|]. intros _. split; simpl; auto; lia.
  - eexists _, _. split; [done|]. intros _. split; simpl; auto; unfold is_u in *; lia.
Qed.

(** ** Safety of the packet handlers *)

(** Sign extension by mask and by subtraction agree. *)
Lemma sign24 v : is_u 24 v ->
  s32 (if negb (Z.land v 0x00800000 =? 0) then Z.lor v 0xFF000000 else v) = swrap 24 v.
Proof.
  intros Hv. assert (Z.lor v 0xFF000000 = 0xFF000000 + v) as E.
  { rewrite Z.lor_comm. change 0xFF000000 with (Z.shiftl 255 24) at 1. by rewrite lor_shiftl_add by (done || lia). }
  change 0x00800000 with (2 ^ 23). rewrite land_pow2 by lia. change (2 ^ 23) with 8388608. rewrite E.
  unfold is_u, swrap in *. change (2 ^ 24) with 16777216 in *. change (2 ^ (24 - 1)) with 8388608.
  change (32 - 1) with 31. pow2.
  destruct (Z.eqb_spec ((v / 8388608) mod 2 * 8388608) 0); cbn [negb];
    repeat match goal with |- context [?a <? ?b] => destruct (Z.ltb_spec a b) end; words.
Qed.

Lemma receiver_ReadInt24BE_ok b off :
  bytes_ok b -> 0 <= off -> off + 3 <= blen b ->
  receiver_ReadInt24BE b off =
  Ret (swrap 24 (bget b off * 65536 + bget b (off + 1) * 256 + bget b (off + 2))).
Proof.
  intros Hb H0 H1. unfold receiver_ReadInt24BE. rewrite ReadUint24BE_ok by done. cbn [mbnd]. cbv zeta.
  rewrite sign24; [done|]. pose proof (bget_range b off Hb). pose proof (bget_range b (off + 1) Hb).
  pose proof (bget_range b (off + 2) Hb). unfold is_u. change (2 ^ 24) with 16777216. lia.
Qed.

Lemma report_blocks_returns n p s off :
  bytes_ok p -> 0 <= off -> returns (report_blocks n p s off).
Proof.
  intros Hb. revert off. induction n as [|n IH]; intros off H0; simpl; auto with safe.
  split_if; auto with safe. bool_hyps.
  rewrite !ReadUint32BE_ok, rd_ok, receiver_ReadInt24BE_ok by (done || lia). cbn [mbnd].
  apply returns_bind; auto with safe. apply IH. lia.
Qed.

Lemma bye_sources_returns n p off : bytes_ok p -> 0 <= off -> returns (bye_sources n p off).
Proof.
  intros Hb. revert off. induction n as [|n IH]; intros off H0; simpl; auto with safe.
  split_if; auto with safe. bool_hyps. rewrite ReadUint32BE_ok by (done || lia). cbn [mbnd].
  apply returns_bind; auto with safe. apply IH. lia.
Qed.

Lemma fir_entries_returns fuel p s m off :
  bytes_ok p -> 0 <= off -> blen p - off <= 8 * Z.of_nat fuel -> returns (fir_entries fuel p s m off).
Proof.
  intros Hb. revert off. induction fuel as [|fuel IH]; intros off H0 Hf; cbn [fir_entries];
    split_if; auto with safe; bool_hyps; [lia|].
  rewrite ReadUint32BE_ok, rd_ok by (done || lia). cbn [mbnd].
  apply returns_bind; auto with safe. apply IH; lia.
Qed.

(** The status list never exceeds the announced count. *)
Lemma read_statuses_count fuel p count off st :
  bytes_ok p -> 0 <= off -> blen p - off <= 2 * Z.of_nat fuel -> Z.of_nat (length st) <= count ->
  exists st' off', read_statuses fuel p count off st = Ret (st', off') /\ off <= off' /\
    Z.of_nat (length st') <= count.
Proof.
  intros Hb. revert off st. induction fuel as [|fuel IH]; intros off st H0 Hf Hc; cbn [read_statuses];
    split_if; bool_hyps; try lia; try (eexists _, _; split; [done|lia]).
  rewrite ReadUint16BE_ok by (done || lia). cbn [mbnd]. cbv zeta.
  destruct (IH (off + 2) (st ++ take (Z.to_nat count - length st)
    (chunk_symbols (bget p off * 256 + bget p (off + 1))))) as (st' & off' & E & ? & ?); [lia|lia| |].
  { rewrite length_app, length_take. lia. }
  exists st', off'. split; [done|lia].
Qed.

Lemma read_deltas_returns p base ref st i off sum :
  bytes_ok p -> 0 <= off -> returns (read_deltas p base ref st i off sum).
Proof.
  intros Hb. revert i off sum. induction st as [|s st IH]; intros i off sum H0; simpl; auto with safe.
  split_if; [apply returns_bind; auto with safe|].
  split_if; [split_if; auto with safe; bool_hyps; rewrite rd_ok by lia; cbn [mbnd];
    apply returns_bind; auto with safe; apply IH; lia|].
  split_if; auto with safe. split_if; auto with safe; bool_hyps.
  rewrite ReadUint16BE_ok by (done || lia). cbn [mbnd]. apply returns_bind; auto with safe. apply IH; lia.
Qed.

Lemma ParseTransportFeedback_returns p : bytes_ok p -> returns (ParseTransportFeedback p).
Proof.
  intros Hb. unfold ParseTransportFeedback. split_if; auto with safe. bool_hyps.
  rewrite !ReadUint32BE_ok, !ReadUint16BE_ok, ReadUint24BE_ok, rd_ok by (done || lia). cbn [mbnd].
  match goal with |- context [read_statuses ?f ?p ?c ?o ?s] =>
    destruct (read_statuses_count f p c o s) as (st & off & -> & ? & _);
      [done|lia|unfold blen; lia|simpl; pose proof (bget_range p 14 Hb); pose proof (bget_range p (14 + 1) Hb); lia|] end.
  cbn [mbnd]. split_if; auto with safe. apply returns_bind; auto with safe.
  apply read_deltas_returns; [done|lia].
Qed.

Lemma HandleSingle_returns p fmt pt : bytes_ok p -> returns (HandleSingleRtcpPacket p fmt pt).
Proof.
  intros Hb. unfold HandleSingleRtcpPacket. cbv zeta.
  repeat (split_if; bool_hyps; auto with safe);
    rewrite ?ReadUint32BE_ok, ?ReadUint64BE_ok by (done || lia); cbn [mbnd];
    eauto using returns_bind, returns_ret, report_blocks_returns, bye_sources_returns with lia.
  - apply returns_bind; auto with safe. apply RtRtcpNack.read_pairs_returns; auto; unfold blen; lia.
  - apply returns_bind; auto with safe. by apply ParseTransportFeedback_returns.
  - apply fir_entries_returns; auto; unfold blen; lia.
Qed.

(** ** Compound packets

    The events of one packet, [None] when it is a malformed transport
    feedback, and the specification of a compound: a sequence of packets that
    exactly fills the buffer. *)
Definition packet_events (p : list Z) (fmt pt : Z) : mres (option (list RtcpEvent)) :=
  if (pt =? 205) && (fmt =? 15) then
    let! r := ParseTransportFeedback p in
    Ret (option_map (fun r => [OnTransportFeedback r]) r)
  else let! evs := HandleSingleRtcpPacket p fmt pt in Ret (Some evs).

Inductive Compound : list Z -> list RtcpEvent -> Prop :=
| compound_nil : Compound [] []
| compound_cons b h evs rest :
    header_Parse (Some b) = Ret (true, h) ->
    packet_events (take (Z.to_nat (content_size_ h)) b) (count_or_fmt_ h) (packet_type_ h) = Ret (Some evs) ->
    Compound (drop (Z.to_nat (packet_size_ h)) b) rest ->
    Compound b (evs ++ rest).

Lemma compound_inv b evs : Compound b evs -> b <> [] ->
  exists h evs1 evs2, evs = evs1 ++ evs2 /\ header_Parse (Some b) = Ret (true, h) /\
    packet_events (take (Z.to_nat (content_size_ h)) b) (count_or_fmt_ h) (packet_type_ h) = Ret (Some evs1) /\
    Compound (drop (Z.to_nat (packet_size_ h)) b) evs2.
Proof. intros [|b' h evs1 rest ? ? ?] Hne; [done|]. by exists h, evs1, rest. Qed.

Lemma packet_events_returns p fmt pt : bytes_ok p -> returns (packet_events p fmt pt).
Proof.
  intros Hb. unfold packet_events. split_if; apply returns_bind; auto with safe.
  - by apply ParseTransportFeedback_returns.
  - by apply HandleSingle_returns.
Qed.

Lemma header_Parse_short b : blen b < 4 -> header_Parse (Some b) = Ret (false, header_reset).
Proof. intros. unfold header_Parse, kRtcpCommonHeaderSize. by rewrite (proj2 (Z.ltb_lt (blen b) 4)). Qed.

(** The receiver's own shape of one packet: validated first, published later. *)
Definition pending_events (p : PendingPacket) : mres (list RtcpEvent) :=
  match transport_feedback p with
  | Some r => Ret [OnTransportFeedback r]
  | None => HandleSingleRtcpPacket (content p) (count_or_fmt_ (header p)) (packet_type_ (header p))
  end.

Lemma drop_drop_Z (b : list Z) m n : 0 <= m -> 0 <= n ->
  drop (Z.to_nat n) (drop (Z.to_nat m) b) = drop (Z.to_nat (m + n)) b.
Proof. intros. rewrite drop_drop. f_equal. lia. Qed.

Lemma collect_end b off :
  0 <= off <= blen b -> blen b < off + 4 ->
  exists r, (if off =? blen b then Ret (Some []) else Ret None) = Ret r /\
    match r with
    | Some ps => exists evs, publish ps = Ret evs /\ Compound (drop (Z.to_nat off) b) evs /\
        (ps = [] -> drop (Z.to_nat off) b = [])
    | None => forall evs, ~ Compound (drop (Z.to_nat off) b) evs
    end.
Proof.
  intros H0 H1. pose proof (blen_drop off b H0) as Hd. destruct (Z.eqb_spec off (blen b)) as [->|Hne].
  - eexists. split; [done|]. exists []. split; [done|].
    destruct (drop _ b); [split; [constructor|done]|]. unfold blen in Hd. simpl in Hd. lia.
  - eexists. split; [done|]. intros evs (h & ? & ? & _ & E & _)%compound_inv.
    + rewrite header_Parse_short in E by lia. done.
    + intros E. rewrite E in Hd. unfold blen in *. simpl in *. lia.
Qed.

Lemma collect_packets_spec fuel b off :
  bytes_ok b -> 0 <= off <= blen b -> blen b - off <= Z.of_nat fuel ->
  exists r, collect_packets fuel b off = Ret r /\
    match r with
    | Some ps => exists evs, publish ps = Ret evs /\ Compound (drop (Z.to_nat off) b) evs /\
        (ps = [] -> drop (Z.to_nat off) b = [])
    | None => forall evs, ~ Compound (drop (Z.to_nat off) b) evs
    end.
Proof.
  intros Hb. revert off. induction fuel as [|fuel IH]; intros off H0 Hf; cbn [collect_packets];
    destruct (Z.leb_spec (off + 4) (blen b)); try lia.
  1,3: by apply collect_end.
  set (sub := drop (Z.to_nat off) b). assert (bytes_ok sub) as Hsub by (by apply bytes_ok_drop).
  assert (blen sub = blen b - off) as Hlen by (by apply blen_drop).
  assert (sub <> []) as Hne by (intros E; rewrite E in Hlen; unfold blen in *; simpl in *; lia).
  destruct (header_Parse_spec sub Hsub) as (ok & h & E & Hfr). rewrite E. cbn [mbnd].
  destruct ok; cbn [negb].
  2:{ eexists. split; [done|]. intros evs (h' & ? & ? & _ & E' & _)%compound_inv; [congruence|done]. }
  specialize (Hfr eq_refl). set (body := take (Z.to_nat (content_size_ h)) sub).
  assert (bytes_ok body) as Hbody by (by apply bytes_ok_take).
  pose proof (fr_packet _ _ Hfr). pose proof (fr_content _ _ Hfr).
  destruct (IH (off + packet_size_ h)) as (r & Er & Hr); [lia|lia|].
  rewrite <- drop_drop_Z in Hr by lia. fold sub in Hr. rewrite Er. cbn [mbnd].
  destruct (packet_events_returns body (count_or_fmt_ h) (packet_type_ h) Hbody) as [pe Hpe].
  assert (forall tf, pending_events (mkPending h body tf) = (let! o := Ret pe in Ret (default [] o)) ->
     (exists es, pe = Some es) ->
     match option_map (cons (mkPending h body tf)) r with
     | Some ps => exists evs, publish ps = Ret evs /\ Compound sub evs /\ (ps = [] -> sub = [])
     | None => forall evs, ~ Compound sub evs
     end) as Hnext.
  { intros tf Hev [es ->]. cbn [mbnd default] in Hev. destruct r as [ps|]; cbn [option_map].
    - destruct Hr as (evs & Ep & Hc & _). exists (es ++ evs). cbn [publish].
      change (match transport_feedback (mkPending h body tf) with Some _ => _ | None => _ end)
        with (pending_events (mkPending h body tf)). rewrite Hev, Ep. split; [done|].
      split; [by eapply compound_cons|done].
    - intros evs (h' & e1 & e2 & _ & E' & _ & Hc)%compound_inv; [|done].
      rewrite E in E'. injection E' as <-. by eapply Hr. }
  unfold packet_events in Hpe. cbn [pt_value].
  destruct ((packet_type_ h =? 205) && (count_or_fmt_ h =? 15)) eqn:Htw.
  - destruct (ParseTransportFeedback body) as [[rep|]| |] eqn:Etf; try done; injection Hpe as <-.
    + eexists. split; [done|]. apply Hnext; [done|by eexists].
    + eexists. split; [done|]. intros evs (h' & e1 & e2 & _ & E' & He & _)%compound_inv; [|done].
      rewrite E in E'. injection E' as <-. unfold packet_events in He. fold body in He.
      rewrite Htw, Etf in He. done.
  - destruct (HandleSingleRtcpPacket body (count_or_fmt_ h) (packet_type_ h)) as [es| |] eqn:Eh; try done.
    injection Hpe as <-. eexists. split; [done|]. apply Hnext; [exact Eh|by eexists].
Qed.

(** Suffixes do not disturb the header of the packet in front of them. *)
Lemma header_Parse_app a b h : bytes_ok a ->
  header_Parse (Some a) = Ret (true, h) ->
  exists h', header_Parse (Some (a ++ b)) = Ret (true, h') /\
    packet_size_ h' = packet_size_ h /\ content_size_ h' = content_size_ h /\
    count_or_fmt_ h' = count_or_fmt_ h /\ packet_type_ h' = packet_type_ h.
Proof.
  intros Ha. destruct (header_Parse_spec a Ha) as (ok & h0 & E0 & Hf). intros E.
  rewrite E in E0. injection E0 as <- <-. specialize (Hf eq_refl).
  pose proof (fr_packet _ _ Hf). pose proof (fr_content _ _ Hf). pose proof (fr_size _ _ Hf).
  pose proof (blen_nonneg b). revert E. unfold header_Parse, kRtcpCommonHeaderSize.
  rewrite !blen_app. rewrite (proj2 (Z.ltb_ge (blen a) 4)), (proj2 (Z.ltb_ge (blen a + blen b) 4)) by lia.
  rewrite !rd_ok by (rewrite ?blen_app; lia). cbn [mbnd]. cbv zeta. rewrite !bget_app_l by lia.
  destruct (_ =? 2); cbn [negb]; [|done]. set (words := u16 (Z.lor _ _)).
  destruct (_ <? 4); [done|]. destruct (Z.ltb_spec (blen a) ((words + 1) * 4)); [done|].
  rewrite (proj2 (Z.ltb_ge (blen a + blen b) _)) by lia.
  destruct (negb _).
  - assert (is_u16 words) as Hw by (apply wrap_range; lia). unfold is_u in Hw.
    rewrite !rd_ok by (rewrite ?blen_app; lia). rewrite bget_app_l by lia. cbn [mbnd].
    repeat (split_if; [done|]). intros [= <-]. by eexists.
  - intros [= <-]. by eexists.
Qed.

Lemma Compound_app a e1 b e2 : bytes_ok a ->
  Compound a e1 -> Compound b e2 -> Compound (a ++ b) (e1 ++ e2).
Proof.
  intros Ha Hc. induction Hc as [|a h evs rest E He Hc IH]; intros Hb; [done|].
  destruct (header_Parse_spec a Ha) as (ok & h0 & E0 & Hf). rewrite E in E0.
  injection E0 as <- <-. specialize (Hf eq_refl).
  pose proof (fr_packet _ _ Hf). pose proof (fr_content _ _ Hf).
  destruct (header_Parse_app a b h Ha E) as (h' & E' & Hp & Hct & Hk & Ht).
  rewrite <- app_assoc. eapply compound_cons; [exact E'| |].
  - rewrite Hct, Hk, Ht. rewrite take_app_le by (unfold blen in *; lia). exact He.
  - rewrite Hp. rewrite drop_app_le by (unfold blen in *; lia). apply IH; [by apply bytes_ok_drop|done].
Qed.

Lemma Compound_det b e1 : Compound b e1 -> forall e2, Compound b e2 -> e1 = e2.
Proof.
  induction 1 as [|b h evs rest E He Hc IH]; intros e2 H2.
  - inversion H2 as [|b' h ? ? E]; [done|]. subst. by rewrite header_Parse_short in E.
  - destruct (decide (b = [])) as [->|Hne]; [by rewrite header_Parse_short in E|].
    apply compound_inv in H2 as (h' & e1' & e2' & -> & E' & He' & Hc'); [|done].
    rewrite E in E'. injection E' as <-. rewrite He in He'. injection He' as <-.
    f_equal. by apply IH.
Qed.

Lemma OnRtcpPacket_spec b : bytes_ok b ->
  exists ok evs, OnRtcpPacket (Some b) = Ret (ok, evs) /\
    (ok = true -> b <> [] /\ Compound b evs) /\
    (ok = false -> evs = [] /\ (b = [] \/ forall e, ~ Compound b e)).
Proof.
  intros Hb. unfold OnRtcpPacket. destruct (Z.ltb_spec (blen b) 4) as [Hs|Hs].
  { exists false, []. split; [done|]. split; [done|]. intros _. split; [done|].
    destruct (decide (b = [])) as [|Hne]; [by left|right]. intros e (h & ? & ? & _ & E & _)%compound_inv; [|done].
    by rewrite header_Parse_short in E. }
  destruct (collect_packets_spec (length b) b 0) as (r & -> & Hr); [done|lia|unfold blen; lia|].
  cbn [mbnd]. change (drop (Z.to_nat 0) b) with b in Hr.
  assert (b <> []) as Hne by (intros ->; unfold blen in Hs; simpl in Hs; lia).
  destruct r as [ps|].
  - destruct Hr as (evs & Ep & Hc & Hz). destruct ps as [|p ps]; [by destruct (Hne (Hz eq_refl))|].
    rewrite Ep. cbn [mbnd]. by exists true, evs.
  - exists false, []. split; [done|]. split; [done|]. intros _. split; [done|by right].
Qed.

(** (C15) The RTCP receiver.  On any bytes [OnRtcpPacket] returns without
    reading outside the buffer; it accepts exactly the non-empty buffers that
    are a sequence of well-formed packets filling them to the last byte (all
    transport feedback parsed), and then publishes the events of the packets in
    order; otherwise it returns [false] and publishes nothing, so a bad suffix
    never takes effect through a good prefix. *)
Theorem rtcp_receiver_all_or_nothing b : bytes_ok b ->
  exists ok evs, OnRtcpPacket (Some b) = Ret (ok, evs) /\
    (ok = true <-> b <> [] /\ exists e, Compound b e) /\
    (ok = true -> Compound b evs) /\ (ok = false -> evs = []).
Proof.
  intros Hb. destruct (OnRtcpPacket_spec b Hb) as (ok & evs & E & Ht & Hf).
  exists ok, evs. split; [done|]. split; [|split; intros H; [by apply Ht|by apply Hf]].
  split; [intros H; destruct (Ht H); eauto|]. intros [Hne [e He]]. destruct ok; [done|].
  destruct (Hf eq_refl) as [_ [?|Hno]]; [done|]. by destruct (Hno e).
Qed.

(** Compounds concatenate: two accepted buffers sent as one are accepted
    and publish the events of the first followed by those of the second. *)
Theorem rtcp_compound_concat a b e1 e2 : bytes_ok a -> bytes_ok b ->
  OnRtcpPacket (Some a) = Ret (true, e1) -> OnRtcpPacket (Some b) = Ret (true, e2) ->
  OnRtcpPacket (Some (a ++ b)) = Ret (true, e1 ++ e2).
Proof.
  intros Ha Hb E1 E2.
  destruct (OnRtcpPacket_spec a Ha) as (ok1 & ev1 & E1' & H1 & _). rewrite E1 in E1'. injection E1' as <- <-.
  destruct (OnRtcpPacket_spec b Hb) as (ok2 & ev2 & E2' & H2 & _). rewrite E2 in E2'. injection E2' as <- <-.
  destruct (H1 eq_refl) as [Hne Hc1]. destruct (H2 eq_refl) as [_ Hc2].
  pose proof (Compound_app a e1 b e2 Ha Hc1 Hc2) as Hc.
  destruct (OnRtcpPacket_spec (a ++ b)) as (ok & ev & E & Ht & Hf); [by apply bytes_ok_app|].
  rewrite E. destruct ok.
  - destruct (Ht eq_refl) as [_ Hc']. by rewrite (Compound_det _ _ Hc' _ Hc).
  - destruct (Hf eq_refl) as [_ [Hz|Hno]]; [destruct a; done|]. by destruct (Hno (e1 ++ e2)).
Qed.

(** ** Inspection *)

Lemma inspect_one_returns p pt c i : bytes_ok p -> returns (inspect_one p pt c i).
Proof.
  intros Hb. unfold inspect_one. cbv zeta. apply returns_bind.
  - split_if; auto with safe. bool_hyps. rewrite ReadUint32BE_ok by (done || lia). cbn [mbnd]. auto with safe.
  - intros info _. repeat (split_if; bool_hyps; auto with safe);
      rewrite ?ReadUint32BE_ok by (done || lia); cbn [mbnd]; auto with safe.
    split_if; bool_hyps; auto with safe. rewrite ?ReadUint32BE_ok by (done || lia). cbn [mbnd]. auto with safe.
Qed.

Lemma inspect_loop_spec fuel b off any info :
  bytes_ok b -> 0 <= off <= blen b -> blen b - off <= Z.of_nat fuel ->
  exists r, inspect_loop fuel b off any info = Ret r /\
    (forall evs, Compound (drop (Z.to_nat off) b) evs ->
       any = true \/ off < blen b -> exists i, r = Some i /\ info_valid i = true).
Proof.
  intros Hb. revert off any info. induction fuel as [|fuel IH]; intros off any info H0 Hf;
    cbn [inspect_loop]; destruct (Z.ltb_spec off (blen b)); try lia.
  1,3: assert (off = blen b) as -> by lia; rewrite Z.eqb_refl; destruct any; cbn [negb orb];
    eexists; (split; [done|]); intros ? ? [?|?]; try done; try lia; by eexists.
  set (sub := drop (Z.to_nat off) b). assert (bytes_ok sub) as Hsub by (by apply bytes_ok_drop).
  assert (blen sub = blen b - off) as Hlen by (by apply blen_drop).
  assert (sub <> []) as Hne by (intros E; rewrite E in Hlen; unfold blen in *; simpl in *; lia).
  destruct (header_Parse_spec sub Hsub) as (ok & h & E & Hfr). rewrite E. cbn [mbnd].
  destruct ok; cbn [negb].
  2:{ eexists. split; [done|]. intros evs (h' & ? & ? & _ & E' & _)%compound_inv; [congruence|done]. }
  specialize (Hfr eq_refl). pose proof (fr_packet _ _ Hfr). pose proof (fr_content _ _ Hfr).
  match goal with |- context [inspect_one ?p ?t ?c ?i] =>
    destruct (inspect_one_returns p t c i) as [i' ->]; [by apply bytes_ok_take|] end.
  cbn [mbnd]. destruct (IH (off + packet_size_ h) true i') as (r & Er & Hr); [lia|lia|].
  exists r. split; [done|]. intros evs (h' & e1 & e2 & _ & E' & _ & Hc)%compound_inv _; [|done].
  rewrite E in E'. injection E' as <-. rewrite <- drop_drop_Z in Hr by lia. eauto.
Qed.

(** Routing agrees with dispatch.  [InspectRtcpPacket] is memory safe and
    terminates on any bytes, and every compound the receiver would accept is
    reported valid by it, so no acceptable packet is dropped by routing. *)
Theorem rtcp_inspect_accepts b : bytes_ok b ->
  returns (InspectRtcpPacket (Some b)) /\
  (forall evs, OnRtcpPacket (Some b) = Ret (true, evs) ->
     exists i, InspectRtcpPacket (Some b) = Ret (Some i) /\ info_valid i = true).
Proof.
  intros Hb. unfold InspectRtcpPacket. destruct (Z.ltb_spec (blen b) 4) as [Hs|Hs].
  - split; [auto with safe|]. intros evs. unfold OnRtcpPacket.
    by rewrite (proj2 (Z.ltb_lt (blen b) 4)).
  - destruct (inspect_loop_spec (length b) b 0 false info_zero) as (r & E & Hr); [done|lia|unfold blen; lia|].
    rewrite E. split; [auto with safe|]. intros evs Ho.
    destruct (OnRtcpPacket_spec b Hb) as (ok & ev & E' & Ht & _). rewrite Ho in E'. injection E' as <- <-.
    destruct (Ht eq_refl) as [_ Hc]. destruct (Hr evs Hc) as (i & -> & ?); [right; lia|]. eauto.
Qed.

(** ** Packets the server builds, through its own receiver *)

Lemma header_Parse_plain c pt w rest b :
  b = (128 + c) :: pt :: be16 w ++ rest -> 0 <= c < 32 -> is_u8 pt -> is_u16 w ->
  blen b = 4 * (w + 1) ->
  header_Parse (Some b) = Ret (true, mkHeader (Some b) (blen b) true 2 false c pt w (blen b) (blen b)).
Proof.
  intros Hb Hc Hpt Hw Hlen. unfold header_Parse, kRtcpCommonHeaderSize.
  assert (bytes_ok (be16 w)) as Hbw by apply be16_bytes.
  unfold is_u in Hw. pow2. rewrite (proj2 (Z.ltb_ge (blen b) 4)) by lia.
  rewrite (rd_at [] (128 + c) (pt :: be16 w ++ rest)) by done.
  rewrite (rd_at [128 + c] pt (be16 w ++ rest)) by done.
  rewrite (rd_at [128 + c; pt] (byte_of w 8) (byte_of w 0 :: rest)) by done.
  rewrite (rd_at [128 + c; pt; byte_of w 8] (byte_of w 0) rest) by done.
  cbn [mbnd]. cbv zeta.
  rewrite lor_be16 by apply byte_of_u8. rewrite be16_value by (unfold is_u; pow2; lia).
  rewrite (wrap_small 16 w) by (unfold is_u; pow2; lia).
  rewrite land_1f. replace ((128 + c) mod 32) with c by words.
  rewrite (wrap_small 8 c) by (unfold is_u; pow2; lia).
  rewrite shiftr_div by lia. change (2 ^ 6) with 64.
  replace (u8 ((128 + c) / 64)) with 2 by words. cbn [Z.eqb Pos.eqb negb].
  rewrite (proj2 (Z.ltb_ge _ 4)) by lia. rewrite (proj2 (Z.ltb_ge (blen b) _)) by lia.
  change (negb (Z.land (128 + c) 32 =? 0)) with (flag (128 + c) (2 ^ 5)).
  rewrite flag_spec by lia. change (2 ^ 5) with 32.
  replace (((128 + c) / 32) mod 2) with 0 by words. cbn [Z.eqb].
  by replace ((w + 1) * 4) with (blen b) by lia.
Qed.

Lemma OnRtcpPacket_single c pt w rest b evs :
  b = (128 + c) :: pt :: be16 w ++ rest -> 0 <= c < 32 -> is_u8 pt -> is_u16 w ->
  blen b = 4 * (w + 1) -> bytes_ok b -> packet_events b c pt = Ret (Some evs) ->
  OnRtcpPacket (Some b) = Ret (true, evs).
Proof.
  intros Hb Hc Hpt Hw Hlen Hok He.
  assert (Compound b (evs ++ [])) as Hcomp.
  { eapply compound_cons; [by eapply header_Parse_plain| |]; cbn [content_size_ count_or_fmt_ packet_type_ packet_size_].
    - unfold blen. by rewrite Nat2Z.id, firstn_all.
    - unfold blen. rewrite Nat2Z.id, drop_all. constructor. }
  rewrite app_nil_r in Hcomp.
  destruct (OnRtcpPacket_spec b Hok) as (ok & ev & E & Ht & Hf). rewrite E. destruct ok.
  - destruct (Ht eq_refl) as [_ Hc']. by rewrite (Compound_det _ _ Hc' _ Hcomp).
  - destruct (Hf eq_refl) as [_ [Hz|Hno]]; [by rewrite Hz in Hb|]. by destruct (Hno evs).
Qed.

Definition pli_bytes (sender media : Z) : list Z := 129 :: 206 :: be16 2 ++ be32 sender ++ be32 media.

Lemma BuildPli_bytes s m : BuildPli s m = Ret (pli_bytes s m).
Proof. reflexivity. Qed.

Definition rr_block_ok (r : RrBlock) : Prop :=
  is_u32 (rr_ssrc r) /\ is_u8 (rr_fraction_lost r) /\ is_u32 (rr_extended_highest_seq r) /\
  is_u32 (rr_jitter r) /\ is_u32 (rr_lsr r) /\ is_u32 (rr_dlsr r).

(** The cumulative loss as the 24-bit field can carry it. *)
Definition clamp24 (x : Z) : Z := Z.max (- 0x800000) (Z.min x 0x7FFFFF).

Definition rr_bytes (s : Z) (r : RrBlock) : list Z :=
  129 :: 201 :: be16 7 ++ be32 s ++ be32 (rr_ssrc r) ++ [rr_fraction_lost r] ++
  be24 (clamp24 (rr_cumulative_lost r) mod 2 ^ 24) ++ be32 (rr_extended_highest_seq r) ++
  be32 (rr_jitter r) ++ be32 (rr_lsr r) ++ be32 (rr_dlsr r).

Lemma BuildReceiverReport_bytes s r : BuildReceiverReport s r = Ret (rr_bytes s r).
Proof.
  unfold BuildReceiverReport, rr_bytes. fold (clamp24 (rr_cumulative_lost r)). set (c := clamp24 _).
  assert (Z.land (u32 c) 0x00FFFFFF = c mod 2 ^ 24) as ->.
  { change 0x00FFFFFF with (2 ^ 24 - 1). rewrite land_ones_mod by lia.
    change (2 ^ 24) with 16777216. words. }
  set (l := c mod 2 ^ 24). cbv zeta. rewrite !u8_shift by lia.
  replace (u8 l) with (byte_of l 0) by (rewrite <- u8_shift by lia; by rewrite Z.shiftr_0_r).
  reflexivity.
Qed.

Lemma receiver_ReadInt24BE_at a v c b off :
  b = a ++ be24 v ++ c -> off = blen a -> is_u 24 v -> receiver_ReadInt24BE b off = Ret (swrap 24 v).
Proof.
  intros -> Hoff Hv. unfold receiver_ReadInt24BE. rewrite ReadUint24BE_app by done. cbn [mbnd]. cbv zeta.
  by rewrite sign24.
Qed.

Lemma clamp24_value x : swrap 24 (clamp24 x mod 2 ^ 24) = clamp24 x.
Proof.
  unfold swrap, clamp24. change (2 ^ 24) with 16777216. change (2 ^ (24 - 1)) with 8388608.
  destruct (Z.ltb_spec (((Z.max (- 8388608) (Z.min x 8388607)) mod 16777216) mod 16777216) 8388608); words.
Qed.

Lemma be24_bytes v : bytes_ok (be24 v). Proof. unfold be24. bytes_list. Qed.

(** Well-formedness of a buffer written as a concatenation of fields. *)
Ltac fields_ok :=
  repeat match goal with
  | |- bytes_ok (_ :: _) => apply bytes_ok_cons; split; [try assumption; words|]
  | |- bytes_ok (_ ++ _) => apply bytes_ok_app
  | |- bytes_ok (be16 _) => apply be16_bytes
  | |- bytes_ok (be24 _) => apply be24_bytes
  | |- bytes_ok (be32 _) => apply be32_bytes
  | |- bytes_ok [] => apply Forall_nil_2
  end.

Lemma rr_events s r : is_u32 s -> rr_block_ok r ->
  packet_events (rr_bytes s r) 1 201 = Ret (Some
    [OnReceiverReport s (rr_ssrc r) (rr_fraction_lost r) (clamp24 (rr_cumulative_lost r))
       (rr_extended_highest_seq r) (rr_jitter r) (rr_lsr r) (rr_dlsr r)]).
Proof.
  intros Hs (H1 & H2 & H3 & H4 & H5 & H6). unfold packet_events, HandleSingleRtcpPacket.
  change (blen (rr_bytes s r)) with 32. cbv zeta. cbn [Z.eqb Pos.eqb andb Z.ltb Z.leb Z.compare Pos.compare Pos.compare_cont].
  set (b := rr_bytes s r). set (l := clamp24 (rr_cumulative_lost r) mod 2 ^ 24).
  set (p4 := [129; 201] ++ be16 7). set (p8 := p4 ++ be32 s). set (p12 := p8 ++ be32 (rr_ssrc r)).
  set (p13 := p12 ++ [rr_fraction_lost r]). set (p16 := p13 ++ be24 l).
  set (p20 := p16 ++ be32 (rr_extended_highest_seq r)). set (p24 := p20 ++ be32 (rr_jitter r)).
  set (p28 := p24 ++ be32 (rr_lsr r)).
  erewrite (ReadUint32BE_at p4 s) by (reflexivity || done). cbn [mbnd].
  change (Z.to_nat 1) with 1%nat. cbn [report_blocks]. change (blen b) with 32.
  change (8 + 24 <=? 32) with true. cbv iota.
  erewrite (ReadUint32BE_at p8 (rr_ssrc r)) by (reflexivity || done). cbn [mbnd].
  erewrite (rd_at p12 (rr_fraction_lost r)) by reflexivity. cbn [mbnd].
  erewrite (receiver_ReadInt24BE_at p13 l) by (reflexivity || (apply wrap_range; lia)). cbn [mbnd].
  erewrite (ReadUint32BE_at p16 (rr_extended_highest_seq r)) by (reflexivity || done). cbn [mbnd].
  erewrite (ReadUint32BE_at p20 (rr_jitter r)) by (reflexivity || done). cbn [mbnd].
  erewrite (ReadUint32BE_at p24 (rr_lsr r)) by (reflexivity || done). cbn [mbnd].
  erewrite (ReadUint32BE_at p28 (rr_dlsr r)) by (reflexivity || done). cbn [mbnd].
  unfold l. by rewrite clamp24_value.
Qed.

(** Receiver reports.  A report block built by [BuildReceiverReport] is
    delivered by the receiver as exactly one [OnReceiverReport] with the same
    values, the cumulative loss clamped to the signed 24-bit range. *)
Theorem receiver_report_roundtrip s r : is_u32 s -> rr_block_ok r ->
  exists b, BuildReceiverReport s r = Ret b /\
    OnRtcpPacket (Some b) = Ret (true,
      [OnReceiverReport s (rr_ssrc r) (rr_fraction_lost r) (clamp24 (rr_cumulative_lost r))
         (rr_extended_highest_seq r) (rr_jitter r) (rr_lsr r) (rr_dlsr r)]).
Proof.
  intros Hs Hr. exists (rr_bytes s r). split; [apply BuildReceiverReport_bytes|].
  eapply (OnRtcpPacket_single 1 201 7); [reflexivity|lia|words|words|reflexivity| |by apply rr_events].
  destruct Hr as (_ & H2 & _). unfold rr_bytes. fields_ok.
Qed.

Lemma pli_received s m : is_u32 s -> is_u32 m ->
  ParsePli (Some (pli_bytes s m)) = Ret (Some (s, m)) /\
  OnRtcpPacket (Some (pli_bytes s m)) = Ret (true, [OnPli s m]).
Proof.
  intros Hs Hm.
  assert (ReadUint32BE (pli_bytes s m) 4 = Ret s) as E4
    by (eapply (ReadUint32BE_at ([129; 206] ++ be16 2)); [reflexivity|reflexivity|done]).
  assert (ReadUint32BE (pli_bytes s m) 8 = Ret m) as E8
    by (eapply (ReadUint32BE_at ([129; 206] ++ be16 2 ++ be32 s) m []); [reflexivity|reflexivity|done]).
  split.
  - unfold ParsePli. change (blen (pli_bytes s m)) with 12.
    change (rd (pli_bytes s m) 0) with (@Ret Z 129). change (rd (pli_bytes s m) 1) with (@Ret Z 206).
    change (ReadUint16BE (pli_bytes s m) 2) with (@Ret Z 2). rewrite E4, E8. reflexivity.
  - eapply (OnRtcpPacket_single 1 206 2); [reflexivity|lia|words|words|reflexivity| |].
    + unfold pli_bytes. fields_ok.
    + unfold packet_events, HandleSingleRtcpPacket. change (blen (pli_bytes s m)) with 12.
      rewrite E4, E8. reflexivity.
Qed.

Lemma nack_received s m pairs : is_u32 s -> is_u32 m -> pairs <> [] ->
  Forall (fun p => is_u16 (RtRtcpNack.pid p) /\ is_u16 (RtRtcpNack.blp p)) pairs ->
  Z.of_nat (length pairs) <= 3856 ->
  OnRtcpPacket (Some (RtRtcpNack.nack_bytes s m pairs)) =
  Ret (true, [OnNack s m (RtRtcpNack.ExpandPairs pairs)]).
Proof.
  intros Hs Hm Hne Hp Hn. pose proof (RtRtcpNack.nack_bytes_len s m pairs) as Hlen.
  destruct (RtRtcpNack.nack_bytes_fields s m pairs Hs Hm Hp) as (E4 & E8 & Ep).
  eapply (OnRtcpPacket_single 1 205 (Z.of_nat (length pairs) + 2));
    [reflexivity|lia|words|unfold is_u; pow2; lia|lia|apply RtRtcpNack.nack_bytes_ok|].
  set (b := RtRtcpNack.nack_bytes s m pairs) in *.
  unfold packet_events, HandleSingleRtcpPacket. cbn [Z.eqb Pos.eqb andb]. cbv zeta.
  rewrite (proj2 (Z.ltb_ge (blen b) 4)), (proj2 (Z.leb_le 12 (blen b))) by lia. cbn [andb].
  rewrite E4, E8, Ep. cbn [mbnd]. destruct pairs as [|p pairs]; [done|]. reflexivity.
Qed.

Lemma empty_report_received s : is_u32 s ->
  exists b, GenerateRtcp s = Ret b /\ OnRtcpPacket (Some b) = Ret (true, []).
Proof.
  intros Hs. exists (128 :: 201 :: be16 1 ++ be32 s). split; [reflexivity|].
  eapply (OnRtcpPacket_single 0 201 1); [reflexivity|lia|words|words|reflexivity| |].
  - fields_ok.
  - unfold packet_events, HandleSingleRtcpPacket. change (blen (128 :: 201 :: be16 1 ++ be32 s)) with 8.
    erewrite (ReadUint32BE_at ([128; 201] ++ be16 1) s []) by (reflexivity || done). reflexivity.
Qed.

(** Key-frame requests and NACKs.  A PLI built by [BuildPli] is read back
    by [ParsePli] and delivered as one [OnPli]; a NACK built for a non-empty
    list of lost numbers is delivered as one [OnNack] carrying the sorted
    distinct numbers, through a path that does not share code with
    [RtRtcpNack::Parse]; the periodic empty report is accepted and silent. *)
Theorem feedback_roundtrip s m lost : is_u32 s -> is_u32 m ->
  lost <> [] -> (forall x, x ∈ lost -> is_u16 x) ->
  (exists b, BuildPli s m = Ret b /\ ParsePli (Some b) = Ret (Some (s, m)) /\
     OnRtcpPacket (Some b) = Ret (true, [OnPli s m])) /\
  (exists b, RtRtcpNack.Build s m lost = Ret b /\
     OnRtcpPacket (Some b) = Ret (true, [OnNack s m (RtRtcpNack.unique (RtRtcpNack.sort lost))])) /\
  (exists b, GenerateRtcp s = Ret b /\ OnRtcpPacket (Some b) = Ret (true, [])).
Proof.
  intros Hs Hm Hne Hl. split; [|split].
  - exists (pli_bytes s m). split; [apply BuildPli_bytes|]. by apply pli_received.
  - destruct (RtRtcpNack.PackPairs_spec lost Hl) as (pairs & E & Hx & Hall & Hn).
    assert (pairs <> []) as Hp by (intros ->; by eapply RtRtcpNack.packed_nonempty).
    exists (RtRtcpNack.nack_bytes s m pairs). split; [apply RtRtcpNack.Build_bytes; auto; lia|].
    rewrite <- Hx. apply nack_received; auto; lia.
  - by apply empty_report_received.
Qed.

(** ** The transport feedback report *)

(** One decoded packet against its status symbol. *)
Definition decoded (base ref i bound : Z) (status : Z) (pk : TransportFeedbackPacket) : Prop :=
  transport_sequence pk = u16 (base + i) /\ received pk = negb (status =? 0) /\
  (received pk = true -> Z.abs (receive_time_us pk - ref * 1000) <= bound /\
     receive_time_ms pk = Z.max 0 (receive_time_us pk / 1000)).

(** The largest step between two received packets: [-32768 * 250] us. *)
Definition max_delta_us : Z := 8192000.

Lemma u16_add_l base i : u16 (base + u16 i) = u16 (base + i).
Proof. words. Qed.

Lemma s16_range x : -32768 <= s16 x <= 32767.
Proof. unfold swrap. change (16 - 1) with 15. pow2. destruct (Z.ltb_spec (x mod 65536) 32768); words. Qed.

Lemma decoded_received base ref seq sum d i bound status :
  seq = u16 (base + i) -> Z.abs (sum + d) <= bound -> status <> 0 ->
  decoded base ref i bound status
    (mkTfPacket seq true (ref * 1000 + (sum + d))
       (if 0 <? ref * 1000 + (sum + d) then (ref * 1000 + (sum + d)) / 1000 else 0)).
Proof.
  intros -> Hb Hs. unfold decoded. cbn. rewrite (proj2 (Z.eqb_neq status 0)) by done.
  split; [done|]. split; [done|]. intros _. split; [lia|].
  destruct (Z.ltb_spec 0 (ref * 1000 + (sum + d))); Z.div_mod_to_equations; lia.
Qed.

Lemma read_deltas_decoded p base ref st i off sum n l :
  bytes_ok p -> 0 <= off -> Z.abs sum <= max_delta_us * n -> 0 <= n ->
  read_deltas p base ref st i off sum = Ret (Some l) ->
  length l = length st /\
  forall j s pk, st !! j = Some s -> l !! j = Some pk ->
    decoded base ref (i + Z.of_nat j) (max_delta_us * (n + Z.of_nat j + 1)) s pk.
Proof.
  intros Hb. revert i off sum n l.
  induction st as [|s st IH]; intros i off sum n l H0 Hs Hn; cbn [read_deltas].
  { intros [= <-]. split; [done|]. intros j ? ?. by rewrite lookup_nil. }
  assert (forall off' sum' pk, 0 <= off' -> Z.abs sum' <= max_delta_us * (n + 1) ->
    decoded base ref i (max_delta_us * (n + 1)) s pk ->
    (let! rest := read_deltas p base ref st (i + 1) off' sum' in
     Ret (option_map (cons pk) rest)) = Ret (Some l) ->
    length l = length (s :: st) /\ forall j s0 pk0, (s :: st) !! j = Some s0 -> l !! j = Some pk0 ->
      decoded base ref (i + Z.of_nat j) (max_delta_us * (n + Z.of_nat j + 1)) s0 pk0) as Hnext.
  { intros off' sum' pk Ho Hsum Hd E. apply mbnd_ret_inv in E as ([rest|] & E & E'); [|done].
    injection E' as <-. destruct (IH (i + 1) off' sum' (n + 1) rest) as [Hl Hall]; auto; [lia|].
    split; [simpl; lia|]. intros [|j] s0 pk0; simpl.
    - intros [= <-] [= <-]. rewrite Z.add_0_r, Z.add_0_r. done.
    - intros Hst Hrest. specialize (Hall j s0 pk0 Hst Hrest).
      replace (i + Z.of_nat (S j)) with (i + 1 + Z.of_nat j) by lia.
      replace (n + Z.of_nat (S j) + 1) with (n + 1 + Z.of_nat j + 1) by lia. done. }
  rewrite u16_add_l. cbv zeta. unfold max_delta_us in *. destruct (Z.eqb_spec s 0) as [->|Hs0].
  { apply Hnext; [done|lia|]. split; [done|]. split; [done|]. done. }
  destruct (Z.eqb_spec s 1) as [->|].
  { split_if; [done|]. bool_hyps. rewrite rd_ok by lia. cbn [mbnd]. pose proof (bget_range p off Hb).
    apply Hnext; [lia|lia|]. apply decoded_received; [done|lia|done]. }
  destruct (Z.eqb_spec s 2) as [->|]; [|done]. split_if; [done|]. bool_hyps.
  rewrite ReadUint16BE_ok by (done || lia). cbn [mbnd].
  match goal with |- context [s16 ?x] => pose proof (s16_range x) end.
  apply Hnext; [lia|lia|]. apply decoded_received; [done|lia|done].
Qed.

(** Transport feedback.  A decoded report holds exactly
    [packet_status_count] packets, numbered consecutively from the base
    sequence (modulo 2^16); every received packet's time is within 2^40 us of
    the reference time, so the signed 64-bit sums never overflow, and its
    millisecond value is the non-negative part of the microsecond value. *)
Theorem transport_feedback_report p r : bytes_ok p ->
  ParseTransportFeedback p = Ret (Some r) ->
  Z.of_nat (length (packets r)) = packet_status_count r /\ is_u16 (packet_status_count r) /\
  0 <= reference_time_ms r < 2 ^ 30 /\
  forall j pk, packets r !! j = Some pk ->
    transport_sequence pk = u16 (base_sequence r + Z.of_nat j) /\
    (received pk = true ->
       Z.abs (receive_time_us pk - reference_time_ms r * 1000) < 2 ^ 40 /\
       receive_time_ms pk = Z.max 0 (receive_time_us pk / 1000)).
Proof.
  intros Hb. unfold ParseTransportFeedback. split_if; [done|]. bool_hyps.
  rewrite !ReadUint32BE_ok, !ReadUint16BE_ok, ReadUint24BE_ok, rd_ok by (done || lia). cbn [mbnd].
  pose proof (fun i => bget_range p i Hb) as Rg.
  set (count := bget p 14 * 256 + bget p (14 + 1)).
  set (ref24 := bget p 16 * 65536 + bget p (16 + 1) * 256 + bget p (16 + 2)).
  assert (is_u16 count) as Hc by (pose proof (Rg 14); pose proof (Rg (14 + 1)); unfold is_u; pow2; lia).
  assert (0 <= ref24 < 2 ^ 24) as Href.
  { pose proof (Rg 16); pose proof (Rg (16 + 1)); pose proof (Rg (16 + 2)). change (2 ^ 24) with 16777216. lia. }
  destruct (read_statuses_count (length p) p count 20 []) as (st & off & -> & Hoff & Hle);
    [done|lia|unfold blen; lia|unfold is_u in Hc; simpl; lia|].
  cbn [mbnd]. split_if; [done|]. bool_hyps. intros E.
  apply mbnd_ret_inv in E as ([l|] & E & E'); [|done]. injection E' as <-. cbn -[Z.pow].
  apply (read_deltas_decoded _ _ _ _ _ _ _ 0) in E as [Hl Hall]; [|done|lia|simpl; lia|lia].
  split; [lia|]. split; [done|]. split; [change (2 ^ 30) with (2 ^ 24 * 64); lia|].
  intros j pk Hj. destruct (lookup_lt_is_Some_2 st j) as [s Hs]; [rewrite <- Hl; by eapply lookup_lt_Some|].
  apply lookup_lt_Some in Hj as Hjl. destruct (Hall j s pk Hs Hj) as (Hseq & _ & Ht).
  split; [done|]. intros Hr. destruct (Ht Hr) as [Hb1 Hb2]. split; [|done].
  unfold max_delta_us, is_u in *. pow2. change (2 ^ 40) with 1099511627776. lia.
Qed.

Definition ex_rr : RrBlock := mkRr 77 12 (-9000000) 70000 5 6 7.

Lemma ex_rr_ok : rr_block_ok ex_rr.
Proof. unfold rr_block_ok, ex_rr. simpl. repeat split; words. Qed.

Lemma ex_u32 : is_u32 7.
Proof. words. Qed.

Lemma receiver_report_roundtrip_witness :
  exists b, BuildReceiverReport 7 ex_rr = Ret b /\
    OnRtcpPacket (Some b) = Ret (true, [OnReceiverReport 7 77 12 (-8388608) 70000 5 6 7]).
Proof. exact (receiver_report_roundtrip 7 ex_rr ex_u32 ex_rr_ok). Defined.

Lemma feedback_roundtrip_witness :
  exists b, RtRtcpNack.Build 7 7 [65535; 3; 20; 3; 19] = Ret b /\
    OnRtcpPacket (Some b) = Ret (true, [OnNack 7 7 [3; 19; 20; 65535]]).
Proof.
  exact (proj1 (proj2 (feedback_roundtrip 7 7 [65535; 3; 20; 3; 19] ex_u32 ex_u32
    ltac:(discriminate) RtRtcpNack.ex_lost))).
Defined.

(** An empty receiver report followed by a PLI. *)
Definition ex_rr_bytes : list Z := [128; 201; 0; 1; 0; 0; 0; 7].
Definition ex_pli_bytes : list Z := [129; 206; 0; 2; 0; 0; 0; 7; 0; 0; 0; 9].

Lemma ex_rr_bytes_ok : bytes_ok ex_rr_bytes.
Proof. unfold ex_rr_bytes, bytes_ok. repeat constructor; words. Qed.
Lemma ex_pli_bytes_ok : bytes_ok ex_pli_bytes.
Proof. unfold ex_pli_bytes, bytes_ok. repeat constructor; words. Qed.

Lemma rtcp_receiver_all_or_nothing_witness :
  exists ok evs, OnRtcpPacket (Some ex_pli_bytes) = Ret (ok, evs) /\ (ok = false -> evs = []).
Proof.
  destruct (rtcp_receiver_all_or_nothing ex_pli_bytes ex_pli_bytes_ok) as (ok & evs & E & _ & _ & H).
  exists ok, evs. split; [exact E|exact H].
Defined.

Lemma rtcp_compound_concat_witness :
  OnRtcpPacket (Some (ex_rr_bytes ++ ex_pli_bytes)) = Ret (true, [] ++ [OnPli 7 9]).
Proof.
  exact (rtcp_compound_concat ex_rr_bytes ex_pli_bytes [] [OnPli 7 9] ex_rr_bytes_ok ex_pli_bytes_ok
    eq_refl eq_refl).
Defined.

Lemma rtcp_inspect_accepts_witness :
  exists i, InspectRtcpPacket (Some ex_pli_bytes) = Ret (Some i) /\ info_valid i = true.
Proof. exact (proj2 (rtcp_inspect_accepts ex_pli_bytes ex_pli_bytes_ok) [OnPli 7 9] eq_refl). Defined.

(** Two packets from sequence 65535, the first lost, the second received with
    a negative delta. *)
Definition ex_twcc : list Z :=
  [143; 205; 0; 5; 0; 0; 0; 1; 0; 0; 0; 2; 255; 255; 0; 2; 0; 0; 1; 9; 200; 0; 255; 254].

Lemma ex_twcc_ok : bytes_ok ex_twcc.
Proof. unfold ex_twcc, bytes_ok. repeat constructor; words. Qed.

Lemma transport_feedback_report_witness :
  exists r, ParseTransportFeedback ex_twcc = Ret (Some r) /\ length (packets r) = 2%nat /\
    Z.of_nat (length (packets r)) = packet_status_count r.
Proof.
  eexists. split; [reflexivity|]. split; [reflexivity|].
  exact (proj1 (transport_feedback_report ex_twcc _ ex_twcc_ok (eq_refl (ParseTransportFeedback ex_twcc)))).
Defined.
