(* ===== verification/Twcc.v ===== *)
(** * Transport-wide congestion control: arrival recorder and report generator

    Models [rtcpx::TransportFeedbackGenerator]
    (protocol/Rtcp/TransportFeedbackGenerator.h, .cpp): arrivals are kept
    under their 64-bit extended sequence number, and a report covers the next
    run of numbers, gaps included.  Extended numbers and microsecond times are
    unbounded integers; the 8-bit report counter and the 16-bit fields of the
    report wrap as in the code. *)
From S2P Require Import Prelude Bytes OrdMap RtcpWire.

Module TransportFeedbackGenerator.

Record Config := mkConfig {
  feedback_interval_ms : Z;
  max_packet_status_count : Z;
  max_history_packets : Z
}.

Definition Config_default : Config := mkConfig 100 512 4096.

Record Generator := mkGen {
  config_ : Config;
  arrivals_us_ : list (Z * Z);
  has_sequence_ : bool;
  highest_extended_sequence_ : Z;
  next_feedback_sequence_ : Z;
  last_feedback_time_us_ : Z;
  feedback_packet_count_ : Z
}.

Definition construct (c : Config) : Generator :=
  let status := Z.max 1 (max_packet_status_count c) in
  mkGen (mkConfig (Z.max 1 (feedback_interval_ms c)) status (Z.max status (max_history_packets c)))
    [] false 0 0 0 0.

Definition Unwrap (sequence : Z) (g : Generator) : Z :=
  if negb (has_sequence_ g) then sequence else
  let highest := highest_extended_sequence_ g in
  let candidate := Z.lor (Z.land highest (Z.lnot 0xFFFF)) sequence in
  if candidate + 0x8000 <? highest then candidate + 0x10000
  else if highest + 0x8000 <? candidate then candidate - 0x10000
  else candidate.

(** [while (arrivals_us_.size() > max_history_packets)] *)
Fixpoint evict (fuel : nat) (max_history : Z) (arrivals : list (Z * Z)) (next : Z)
    : mres (list (Z * Z) * Z) :=
  if max_history <? om_size arrivals then
    match fuel, arrivals with
    | S fuel, (discarded, _) :: rest => evict fuel max_history rest (Z.max next (discarded + 1))
    | _, _ => NoFuel
    end
  else Ret (arrivals, next).

Definition OnPacket (transport_sequence arrival_time_us : Z) (g : Generator) : mres (bool * Generator) :=
  if arrival_time_us <? 0 then Ret (false, g) else
  let extended := Unwrap transport_sequence g in
  let record highest next :=
    let arrivals := om_emplace extended arrival_time_us (arrivals_us_ g) in
    let! '(arrivals, next) := evict (length arrivals) (max_history_packets (config_ g)) arrivals next in
    Ret (true, mkGen (config_ g) arrivals true highest next
                 (last_feedback_time_us_ g) (feedback_packet_count_ g)) in
  if negb (has_sequence_ g) then record extended extended
  else if (extended <? next_feedback_sequence_ g) && negb (last_feedback_time_us_ g =? 0)
  then Ret (false, g)
  else record (Z.max (highest_extended_sequence_ g) extended)
         (if last_feedback_time_us_ g =? 0 then Z.min (next_feedback_sequence_ g) extended
          else next_feedback_sequence_ g).

Definition ShouldSendFeedback (now_us : Z) (g : Generator) : bool :=
  if negb (has_sequence_ g) || (highest_extended_sequence_ g <? next_feedback_sequence_ g) then false
  else if max_packet_status_count (config_ g) <=?
          highest_extended_sequence_ g - next_feedback_sequence_ g + 1 then true
  else (last_feedback_time_us_ g =? 0) ||
       (feedback_interval_ms (config_ g) * 1000 <=? now_us - last_feedback_time_us_ g).

(** The status of one number. *)
Definition status_of (arrivals : list (Z * Z)) (extended : Z) : TransportFeedbackPacket :=
  match om_find extended arrivals with
  | Some t => mkTfPacket (u16 (Z.land extended 0xFFFF)) true t (u64 (Z.quot t 1000))
  | None => mkTfPacket (u16 (Z.land extended 0xFFFF)) false 0 0
  end.

(** The first arrival time in the range, [-1] when there is none. *)
Fixpoint first_arrival (arrivals : list (Z * Z)) (range : list Z) : Z :=
  match range with
  | [] => -1
  | x :: range =>
    match om_find x arrivals with
    | Some t => if t <? 0 then first_arrival arrivals range else t
    | None => first_arrival arrivals range
    end
  end.

Definition BuildFeedback (sender_ssrc media_ssrc now_us : Z) (g : Generator)
    : option TransportFeedbackReport * Generator :=
  if negb (ShouldSendFeedback now_us g) then (None, g) else
  let base := next_feedback_sequence_ g in
  let end_ := Z.min (highest_extended_sequence_ g)
                (base + max_packet_status_count (config_ g) - 1) in
  let range := seqZ base (end_ - base + 1) in
  let first := first_arrival (arrivals_us_ g) range in
  let report := mkReport sender_ssrc media_ssrc (u16 (Z.land base 0xFFFF)) (u16 (end_ - base + 1))
    (feedback_packet_count_ g)
    (if 0 <=? first then u64 (u64 (Z.quot first 64000) * 64) else 0)
    (List.map (status_of (arrivals_us_ g)) range) in
  (Some report,
   mkGen (config_ g) (List.filter (fun '(k, _) => end_ <? k) (arrivals_us_ g)) (has_sequence_ g)
     (highest_extended_sequence_ g) (end_ + 1) now_us (u8 (feedback_packet_count_ g + 1))).

Definition Reset (g : Generator) : Generator := mkGen (config_ g) [] false 0 0 0 0.

Definition PendingPacketCount (g : Generator) : Z := om_size (arrivals_us_ g).

(** ** Unwrapping *)

Lemma land_hi16 x : Z.land x (Z.lnot 0xFFFF) = x - x mod 65536.
Proof.
  rewrite <- Z.ldiff_land. change 0xFFFF with (Z.ones 16).
  rewrite Z.ldiff_ones_r, Z.shiftr_div_pow2, Z.shiftl_mul_pow2 by lia.
  change (2 ^ 16) with 65536. Z.div_mod_to_equations; lia.
Qed.

Lemma lor_low16 x s : is_u16 s -> Z.lor (x - x mod 65536) s = x - x mod 65536 + s.
Proof.
  intros Hs. replace (x - x mod 65536) with (Z.shiftl (x / 65536) 16)
    by (rewrite Z.shiftl_mul_pow2 by lia; change (2 ^ 16) with 65536; Z.div_mod_to_equations; lia).
  rewrite lor_shiftl_add by (done || lia). by rewrite Z.shiftl_mul_pow2 by lia.
Qed.

Lemma Unwrap_spec s g : is_u16 s ->
  u16 (Unwrap s g) = s /\
  (has_sequence_ g = true ->
     highest_extended_sequence_ g - 0x8000 <= Unwrap s g <= highest_extended_sequence_ g + 0x8000).
Proof.
  intros Hs. unfold Unwrap. destruct (has_sequence_ g); cbn [negb]; [|split; [by apply wrap_small|done]].
  rewrite land_hi16, lor_low16 by done. set (h := highest_extended_sequence_ g). cbv zeta.
  destruct (Z.ltb_spec (h - h mod 65536 + s + 0x8000) h);
    [|destruct (Z.ltb_spec (h + 0x8000) (h - h mod 65536 + s))]; split; try intros _; words.
Qed.

(** ** Invariant *)

Record Inv (g : Generator) : Prop := {
  iv_cfg : 1 <= max_packet_status_count (config_ g) <= max_history_packets (config_ g);
  iv_ok : om_ok (arrivals_us_ g);
  iv_size : om_size (arrivals_us_ g) <= max_history_packets (config_ g);
  iv_keys : forall k t, (k, t) ∈ arrivals_us_ g ->
    next_feedback_sequence_ g <= k <= highest_extended_sequence_ g /\ 0 <= t;
  iv_empty : has_sequence_ g = false -> arrivals_us_ g = [] /\ last_feedback_time_us_ g = 0;
  iv_next : has_sequence_ g = true -> next_feedback_sequence_ g <= highest_extended_sequence_ g + 1;
  iv_count : is_u8 (feedback_packet_count_ g)
}.

(** Eviction drops the lowest numbers and moves [next] past them. *)
Lemma evict_spec fuel mh m next :
  0 <= mh -> om_ok m -> (length m <= fuel)%nat ->
  exists m' next', evict fuel mh m next = Ret (m', next') /\ om_ok m' /\ om_size m' <= mh /\
    next <= next' /\
    (forall k t, (k, t) ∈ m' -> (k, t) ∈ m) /\
    (forall k t, (k, t) ∈ m -> (k, t) ∈ m' \/ k < next') /\
    (forall k t, (k, t) ∈ m' -> next <= k -> next' <= k) /\
    (next' = next \/ exists k t, (k, t) ∈ m /\ next' = k + 1) /\
    (om_size m <= mh -> m' = m /\ next' = next).
Proof.
  intros Hmh Hok. revert fuel next. induction Hok as [|k t m Hok IH Hlt]; intros fuel next Hf.
  { destruct fuel; cbn [evict]; rewrite (proj2 (Z.ltb_ge mh (om_size (@nil (Z*Z))))) by (unfold om_size; simpl; lia);
      exists [], next; repeat split; auto; try constructor; try set_solver; unfold om_size; simpl; lia. }
  destruct fuel as [|fuel]; cbn [evict]; destruct (Z.ltb_spec mh (om_size ((k, t) :: m))) as [Hg|Hg].
  1: simpl in Hf; lia.
  1,3: exists ((k, t) :: m), next; repeat split; auto; try lia; by constructor.
  destruct (IH fuel (Z.max next (k + 1))) as (m' & n' & E & Hok' & Hsz & Hn & H1 & H2 & H3 & H4 & _);
    [simpl in Hf; lia|].
  exists m', n'. split; [done|]. split; [done|]. split; [done|]. split; [lia|].
  split; [intros; apply elem_of_cons; right; auto|].
  split. { intros k' t' [[= -> ->]|Hin]%elem_of_cons; [right; lia|auto]. }
  split. { intros k' t' Hin Hk. apply (H3 k' t' Hin). specialize (Hlt _ _ (H1 _ _ Hin)). lia. }
  split; [|lia].
  destruct H4 as [->|(k' & t' & Hin & ->)].
  - destruct (decide (next <= k + 1)); [right; exists k, t; split; [set_solver|lia]|left; lia].
  - right. exists k', t'. split; [set_solver|done].
Qed.

(** Recording one arrival under its extended number. *)
Lemma record_spec g ext t highest next :
  Inv g -> 0 <= t -> highest_extended_sequence_ g <= highest \/ arrivals_us_ g = [] ->
  next <= ext <= highest -> (next <= next_feedback_sequence_ g \/ arrivals_us_ g = []) ->
  (has_sequence_ g = false -> last_feedback_time_us_ g = 0) ->
  exists arrivals next',
    evict (length (om_emplace ext t (arrivals_us_ g))) (max_history_packets (config_ g))
      (om_emplace ext t (arrivals_us_ g)) next = Ret (arrivals, next') /\
    Inv (mkGen (config_ g) arrivals true highest next' (last_feedback_time_us_ g) (feedback_packet_count_ g)) /\
    next <= next' /\
    (forall k t', (k, t') ∈ arrivals -> (k, t') ∈ om_emplace ext t (arrivals_us_ g)) /\
    (forall k t', (k, t') ∈ om_emplace ext t (arrivals_us_ g) -> (k, t') ∈ arrivals \/ k < next') /\
    (om_size (om_emplace ext t (arrivals_us_ g)) <= max_history_packets (config_ g) ->
       arrivals = om_emplace ext t (arrivals_us_ g) /\ next' = next).
Proof.
  intros HI Ht Hh He Hn Hl. pose proof HI as [Hc Hok Hsz Hk Hemp Hnx Hcnt].
  assert (om_ok (om_emplace ext t (arrivals_us_ g))) as Hok' by (by apply om_ok_emplace).
  assert (forall k t', (k, t') ∈ om_emplace ext t (arrivals_us_ g) -> next <= k <= highest /\ 0 <= t') as Hrange.
  { intros k t' Hin. apply om_elem_find in Hin; [|done]. rewrite om_find_emplace in Hin by done.
    destruct (Z.eqb_spec k ext) as [->|Hne].
    - split; [done|]. injection Hin as <-. destruct (om_find ext (arrivals_us_ g)) eqn:E; [|done].
      apply om_find_elem in E. by apply (Hk ext).
    - apply om_find_elem in Hin. destruct (Hk k t' Hin).
      destruct Hh as [?|E]; [|rewrite E in Hin; set_solver].
      destruct Hn as [?|E]; [|rewrite E in Hin; set_solver]. lia. }
  destruct (evict_spec (length (om_emplace ext t (arrivals_us_ g))) (max_history_packets (config_ g))
    (om_emplace ext t (arrivals_us_ g)) next) as (m' & n' & E & Hm & Hms & Hnn & H1 & H2 & H3 & H4 & H5);
    [lia|done|lia|].
  exists m', n'. split; [done|]. split; [|auto 7]. split; simpl; auto; try done.
  - intros k t' Hin. destruct (Hrange k t' (H1 _ _ Hin)). split; [|done]. split; [|lia].
    apply (H3 k t'); [done|lia].
  - intros _. destruct H4 as [->|(k & t' & Hin & ->)]; [lia|]. destruct (Hrange k t' Hin). lia.
Qed.

(** What [OnPacket] does. *)
Record Recorded (ext t : Z) (g g' : Generator) : Prop := {
  rc_frame : config_ g' = config_ g /\ has_sequence_ g' = true /\
    last_feedback_time_us_ g' = last_feedback_time_us_ g /\
    feedback_packet_count_ g' = feedback_packet_count_ g;
  rc_highest : ext <= highest_extended_sequence_ g';
  rc_next : last_feedback_time_us_ g <> 0 -> next_feedback_sequence_ g <= next_feedback_sequence_ g';
  rc_only : forall k t', (k, t') ∈ arrivals_us_ g' -> (k, t') ∈ om_emplace ext t (arrivals_us_ g);
  rc_kept : forall k t', (k, t') ∈ om_emplace ext t (arrivals_us_ g) ->
    (k, t') ∈ arrivals_us_ g' \/ k < next_feedback_sequence_ g';
  rc_room : om_size (arrivals_us_ g) < max_history_packets (config_ g) ->
    arrivals_us_ g' = om_emplace ext t (arrivals_us_ g)
}.

Lemma om_emplace_size_le {A} k (v : A) m : om_ok m -> om_size (om_emplace k v m) <= om_size m + 1.
Proof.
  intros Hok. destruct (om_find k m) eqn:E.
  - rewrite om_emplace_present; [lia|done|congruence].
  - rewrite om_emplace_size_absent by done. lia.
Qed.

Lemma OnPacket_spec s t g : Inv g -> is_u16 s ->
  exists ok g', OnPacket s t g = Ret (ok, g') /\ Inv g' /\
    (ok = false -> g' = g /\ (t < 0 \/ (has_sequence_ g = true /\
       Unwrap s g < next_feedback_sequence_ g /\ last_feedback_time_us_ g <> 0))) /\
    (ok = true -> Recorded (Unwrap s g) t g g').
Proof.
  intros HI Hs. unfold OnPacket. destruct (Z.ltb_spec t 0).
  { exists false, g. split; [done|]. split; [done|]. split; [auto|done]. }
  set (ext := Unwrap s g). pose proof (iv_ok _ HI) as Hok.
  pose proof (om_emplace_size_le ext t _ Hok) as Hsz.
  destruct (has_sequence_ g) eqn:Hseq; cbn [negb].
  - destruct ((ext <? next_feedback_sequence_ g) && negb (last_feedback_time_us_ g =? 0)) eqn:Hlate.
    { bool_hyps. exists false, g. split; [done|]. split; [done|]. split; [auto|done]. }
    set (next := if last_feedback_time_us_ g =? 0 then _ else _).
    assert (next <= ext /\ next <= next_feedback_sequence_ g /\
      (last_feedback_time_us_ g <> 0 -> next = next_feedback_sequence_ g)) as (Hn1 & Hn2 & Hn3).
    { subst next. destruct (Z.eqb_spec (last_feedback_time_us_ g) 0); [lia|].
      cbn [negb] in Hlate. rewrite andb_true_r in Hlate. bool_hyps. lia. }
    destruct (record_spec g ext t (Z.max (highest_extended_sequence_ g) ext) next)
      as (m' & n' & -> & HI' & Hn & H1 & H2 & H3); [done|done|left; lia|lia|by left|congruence|].
    cbn [mbnd]. eexists _, _. split; [done|]. split; [done|]. split; [done|]. intros _.
    split; simpl; auto; try lia. intros Hroom. apply H3. lia.
  - destruct (iv_empty _ HI Hseq) as [Hnil Hlast].
    destruct (record_spec g ext t ext ext) as (m' & n' & -> & HI' & Hn & H1 & H2 & H3);
      [done|done|by right|lia|by right|done|].
    cbn [mbnd]. eexists _, _. split; [done|]. split; [done|]. split; [done|]. intros _.
    split; simpl; auto; try lia; try done. intros Hroom. apply H3. lia.
Qed.

Lemma ShouldSend_spec now g : ShouldSendFeedback now g = true ->
  has_sequence_ g = true /\ next_feedback_sequence_ g <= highest_extended_sequence_ g.
Proof.
  unfold ShouldSendFeedback. destruct (_ || _) eqn:E; [done|]. bool_hyps. done.
Qed.

(** The last number a report covers. *)
Definition report_end (g : Generator) : Z :=
  Z.min (highest_extended_sequence_ g)
    (next_feedback_sequence_ g + max_packet_status_count (config_ g) - 1).

Lemma BuildFeedback_Inv s m now g r g' : Inv g -> BuildFeedback s m now g = (r, g') -> Inv g'.
Proof.
  intros HI. unfold BuildFeedback. destruct (ShouldSendFeedback now g) eqn:Hs; cbn [negb];
    [|by intros [= <- <-]].
  fold (report_end g). intros [= <- <-]. apply ShouldSend_spec in Hs as [Hseq Hle].
  destruct HI as [Hc Hok Hsz Hk Hemp Hnx Hcnt].
  assert (om_size (List.filter (fun '(k, _) => report_end g <? k) (arrivals_us_ g)) <= om_size (arrivals_us_ g)).
  { unfold om_size. clear. induction (arrivals_us_ g) as [|[k t] l IH]; simpl; [lia|].
    destruct (report_end g <? k); simpl; lia. }
  split; simpl; auto with omap; try lia.
  - intros k t Hin. apply list_elem_of_In, List.filter_In in Hin as [Hin Hf].
    apply list_elem_of_In in Hin. destruct (Hk k t Hin). bool_hyps. split; [lia|done].
  - congruence.
  - intros _. unfold report_end. lia.
  - apply wrap_range. lia.
Qed.

(** ** Sequences of calls *)

Inductive Op :=
| Packet (sequence time_us : Z)
| Feedback (sender media now_us : Z)
| Restarted.

(** The numbers a call reported, as extended first and last number, with the
    report. *)
Definition exec (op : Op) (g : Generator)
    : mres (Generator * list (Z * Z * TransportFeedbackReport)) :=
  match op with
  | Packet s t => let! '(_, g') := OnPacket s t g in Ret (g', [])
  | Feedback s m now =>
    let '(r, g') := BuildFeedback s m now g in
    Ret (g', match r with
             | Some r => [(next_feedback_sequence_ g, next_feedback_sequence_ g' - 1, r)]
             | None => []
             end)
  | Restarted => Ret (Reset g, [])
  end.

Fixpoint run (ops : list Op) (g : Generator)
    : mres (Generator * list (Z * Z * TransportFeedbackReport)) :=
  match ops with
  | [] => Ret (g, [])
  | op :: ops =>
    let! '(g, r) := exec op g in
    let! '(g, rs) := run ops g in
    Ret (g, r ++ rs)
  end.

Definition op_ok (op : Op) : Prop := match op with Packet s _ => is_u16 s | _ => True end.

Lemma twcc_construct_Inv c : Inv (construct c).
Proof.
  split; simpl; auto with omap; try done; try (unfold om_size; simpl; lia); try set_solver; try words; lia.
Qed.

Lemma twcc_exec_Inv op g : Inv g -> op_ok op ->
  exists g' rs, exec op g = Ret (g', rs) /\ Inv g' /\ config_ g' = config_ g.
Proof.
  intros HI Hop. destruct op as [s t|s m now|]; simpl in *.
  - destruct (OnPacket_spec s t g HI Hop) as (ok & g' & -> & HI' & Hf & Ht). cbn [mbnd].
    eexists _, _. split; [done|]. split; [done|].
    destruct ok; [by destruct (rc_frame _ _ _ _ (Ht eq_refl)) as [? _]|by destruct (Hf eq_refl) as [-> _]].
  - destruct (BuildFeedback s m now g) as [r g'] eqn:E. eexists _, _. split; [done|].
    split; [by eapply BuildFeedback_Inv|]. revert E. unfold BuildFeedback.
    destruct (negb _); by intros [= <- <-].
  - eexists _, _. split; [done|]. split; [|done]. destruct HI.
    split; simpl; auto with omap; try done; try (unfold om_size; simpl; lia); try set_solver; try words; lia.
Qed.

Lemma twcc_run_Inv ops g : Inv g -> Forall op_ok ops ->
  exists g' rs, run ops g = Ret (g', rs) /\ Inv g' /\ config_ g' = config_ g.
Proof.
  intros HI Hops. revert g HI. induction Hops as [|op ops Hop Hops IH]; intros g HI; simpl.
  { by exists g, []. }
  destruct (twcc_exec_Inv op g HI Hop) as (g1 & r & -> & HI1 & Hc1). simpl.
  destruct (IH g1 HI1) as (g2 & rs & -> & HI2 & Hc2). simpl. exists g2, (r ++ rs).
  split; [done|]. split; [done|congruence].
Qed.

(** Arrival records.  Every sequence of calls on a constructed generator
    returns; afterwards at most [max_history_packets] arrivals are held, each
    under a number that is still to be reported; and an incoming 16-bit number
    is extended to the number congruent to it that lies within half a cycle of
    the highest one seen. *)
Theorem twcc_arrivals_invariant c ops : Forall op_ok ops ->
  exists g rs, run ops (construct c) = Ret (g, rs) /\
    PendingPacketCount g <= max_history_packets (config_ (construct c)) /\
    (forall k t, om_find k (arrivals_us_ g) = Some t ->
       next_feedback_sequence_ g <= k <= highest_extended_sequence_ g) /\
    (forall s, is_u16 s -> u16 (Unwrap s g) = s /\
       (has_sequence_ g = true -> Z.abs (Unwrap s g - highest_extended_sequence_ g) <= 0x8000)).
Proof.
  intros Hops. destruct (twcc_run_Inv ops _ (twcc_construct_Inv c) Hops) as (g & rs & E & HI & Hc).
  exists g, rs. split; [done|]. split; [rewrite <- Hc; apply HI|]. split.
  - intros k t Hf%om_find_elem. by apply (iv_keys _ HI k t).
  - intros s Hs. destruct (Unwrap_spec s g Hs) as [? Hu]. split; [done|].
    intros Hq. specialize (Hu Hq). lia.
Qed.

Lemma first_arrival_spec m range : (forall k t, om_find k m = Some t -> 0 <= t) ->
  match first_arrival m range with
  | t => (t = -1 /\ forall k, k ∈ range -> om_find k m = None) \/
         (0 <= t /\ exists k, k ∈ range /\ om_find k m = Some t)
  end.
Proof.
  intros Hm. induction range as [|x range IH]; simpl; [left; split; [done|set_solver]|].
  destruct (om_find x m) as [t|] eqn:E.
  - rewrite (proj2 (Z.ltb_ge t 0)) by eauto. right. split; [eauto|]. exists x. set_solver.
  - destruct IH as [[-> H]|(H & k & ? & ?)].
    + left. split; [done|]. intros k [->|?]%elem_of_cons; auto.
    + right. split; [done|]. exists k. set_solver.
Qed.

(** [erase(begin(), upper_bound(e))] *)
Lemma find_filter_above e k (m : list (Z * Z)) : om_ok m ->
  om_find k (List.filter (fun '(k, _) => e <? k) m) = if k <=? e then None else om_find k m.
Proof.
  induction 1 as [|k0 t0 l Hl IH Hlt]; simpl; [by destruct (k <=? e)|].
  destruct (Z.ltb_spec e k0); simpl; rewrite IH;
    destruct (Z.eqb_spec k k0), (Z.leb_spec k e); done || lia.
Qed.

(** Report contents.  A report built in a reachable state covers the
    numbers from the first unreported one up to the highest seen, at most
    [max_packet_status_count] of them; entry [j] carries the low 16 bits of
    the [j]-th number and is marked received exactly when an arrival is
    recorded, with the recorded time; the reported arrivals are forgotten, all
    others are kept, and the report counter advances modulo 256. *)
Theorem twcc_report_exact c ops g rs s m now r g' :
  Forall op_ok ops -> run ops (construct c) = Ret (g, rs) ->
  BuildFeedback s m now g = (Some r, g') ->
  let base := next_feedback_sequence_ g in
  let end_ := report_end g in
  base <= end_ /\ end_ - base + 1 <= Z.max 1 (max_packet_status_count c) /\
  base_sequence r = u16 base /\ Z.of_nat (length (packets r)) = end_ - base + 1 /\
  (forall j, 0 <= j <= end_ - base -> exists pk, packets r !! Z.to_nat j = Some pk /\
     transport_sequence pk = u16 (base + j) /\
     (received pk = true <-> om_find (base + j) (arrivals_us_ g) <> None) /\
     (forall t, om_find (base + j) (arrivals_us_ g) = Some t -> receive_time_us pk = t)) /\
  (forall k, om_find k (arrivals_us_ g') = if k <=? end_ then None else om_find k (arrivals_us_ g)) /\
  next_feedback_sequence_ g' = end_ + 1 /\
  feedback_packet_count_ g' = u8 (feedback_packet_count r + 1).
Proof.
  intros Hops Hrun. destruct (twcc_run_Inv ops _ (twcc_construct_Inv c) Hops) as (g0 & rs0 & E & HI & Hc).
  rewrite Hrun in E. injection E as <- <-. unfold BuildFeedback.
  destruct (ShouldSendFeedback now g) eqn:Hs; cbn [negb]; [|done]. fold (report_end g).
  intros [= <- <-]. apply ShouldSend_spec in Hs as [Hseq Hle]. cbn -[Z.land].
  pose proof (iv_cfg _ HI) as Hcf. assert (max_packet_status_count (config_ g) = Z.max 1 (max_packet_status_count c)) as Hmx
    by (rewrite Hc; done).
  assert (next_feedback_sequence_ g <= report_end g) as Hbe by (unfold report_end; lia).
  assert (forall x, u16 (Z.land x 0xFFFF) = u16 x) as Hland
    by (intros; change 0xFFFF with (2 ^ 16 - 1); rewrite land_ones_mod by lia; apply wrap_wrap).
  split; [done|]. split; [unfold report_end; lia|]. split; [apply Hland|].
  split; [rewrite length_map, length_seqZ; lia|]. split; [|split; [|done]].
  - intros j Hj. set (x := next_feedback_sequence_ g + j). exists (status_of (arrivals_us_ g) x).
    split; [|unfold status_of; destruct (om_find x (arrivals_us_ g)) as [t|]; simpl; rewrite Hland;
      repeat split; try done; by intros ? [= <-]].
    change (List.map ?f ?l) with (f <$> l). rewrite list_lookup_fmap, lookup_seqZ_lt by lia. cbn. do 2 f_equal.
    unfold x. lia.
  - intros k. apply find_filter_above, HI.
Qed.

(** Ranges of reports in order, each starting after the previous one ends. *)
Fixpoint ordered_from (a : Z) (l : list (Z * Z * TransportFeedbackReport)) : Prop :=
  match l with
  | [] => True
  | (b, e, _) :: l => a <= b /\ b <= e /\ ordered_from (e + 1) l
  end.

(** No restart, and clock values that are positive. *)
Definition op_live (op : Op) : Prop :=
  match op with Packet s _ => is_u16 s | Feedback _ _ now => 0 < now | Restarted => False end.

Lemma op_live_ok ops : Forall op_live ops -> Forall op_ok ops.
Proof. intros H. eapply Forall_impl; [exact H|]. by intros []. Qed.

Lemma ordered_weaken a b l : a <= b -> ordered_from b l -> ordered_from a l.
Proof. destruct l as [|[[x y] r] l]; simpl; [done|]. intros ? (? & ? & ?). split; [lia|done]. Qed.

(** After the first report the numbers reported only grow. *)
Lemma run_ordered ops g g' rs : Inv g -> last_feedback_time_us_ g <> 0 -> Forall op_live ops ->
  run ops g = Ret (g', rs) -> ordered_from (next_feedback_sequence_ g) rs.
Proof.
  intros HI Hl Hops. revert g rs HI Hl. induction Hops as [|op ops Hop Hops IH]; intros g rs HI Hl.
  { by intros [= <- <-]. }
  cbn [run]. intros E. apply mbnd_ret_inv in E as ([g1 r] & E1 & E). 
  apply mbnd_ret_inv in E as ([g2 rs2] & E2 & E). injection E as <- <-.
  destruct op as [s t|s m now|]; cbn [exec op_live] in *; [| |done].
  - destruct (OnPacket_spec s t g HI Hop) as (ok & g1' & Ep & HI1 & Hf & Ht). rewrite Ep in E1.
    injection E1 as <- <-. cbn [app]. destruct ok.
    + destruct (Ht eq_refl) as [(_ & _ & Hlast & _) _ Hn _ _ _].
      eapply ordered_weaken; [apply Hn, Hl|]. apply IH; congruence.
    + destruct (Hf eq_refl) as [-> _]. by apply IH.
  - destruct (BuildFeedback s m now g) as [o g1'] eqn:Eb. injection E1 as <- <-.
    pose proof (BuildFeedback_Inv _ _ _ _ _ _ HI Eb) as HI1.
    revert Eb. unfold BuildFeedback. destruct (ShouldSendFeedback now g) eqn:Hs; cbn [negb].
    + fold (report_end g). intros [= <- Hg]. apply ShouldSend_spec in Hs as [_ Hle].
      pose proof (iv_cfg _ HI) as Hc.
      assert (next_feedback_sequence_ g1' = report_end g + 1 /\ last_feedback_time_us_ g1' = now) as [Hn Hlt]
        by (by rewrite <- Hg). cbn [app ordered_from]. rewrite Hn.
      split; [lia|]. split; [unfold report_end; lia|].
      replace (report_end g + 1 - 1 + 1) with (next_feedback_sequence_ g1') by lia.
      apply IH; [done|rewrite Hlt; lia|done].
    + intros [= <- <-]. by apply IH.
Qed.

(** No number is reported twice.  Along any run without a reset, in which
    the clock values passed to [BuildFeedback] are positive, the ranges of
    consecutive reports are increasing and disjoint. *)
Theorem twcc_reports_disjoint c ops g rs :
  Forall op_live ops -> run ops (construct c) = Ret (g, rs) ->
  exists a, ordered_from a rs.
Proof.
  intros Hops. pose proof (twcc_construct_Inv c) as HI. revert HI. generalize (construct c) as g0.
  revert rs. induction Hops as [|op ops Hop Hops IH]; intros rs g0 HI.
  { intros [= <- <-]. by exists 0. }
  destruct (decide (last_feedback_time_us_ g0 = 0)) as [Hz|Hnz].
  2:{ intros E. eexists. eapply run_ordered; [done|done| |done]. by constructor. }
  cbn [run]. intros E. apply mbnd_ret_inv in E as ([g1 r] & E1 & E).
  apply mbnd_ret_inv in E as ([g2 rs2] & E2 & E). injection E as <- <-.
  assert (op_ok op) as Hopk by (by destruct op).
  destruct (twcc_exec_Inv op g0 HI Hopk) as (g1' & r' & E1' & HI1 & _). rewrite E1 in E1'. injection E1' as <- <-.
  destruct op as [s t|s m now|]; cbn [exec op_live] in *; [| |done].
  - destruct (OnPacket s t g0) as [[ok gx]| |]; try done. injection E1 as _ <-. by eapply IH.
  - destruct (BuildFeedback s m now g0) as [o gx] eqn:Eb. injection E1 as <- <-.
    destruct o as [rep|]; [|by eapply IH].
    revert Eb. unfold BuildFeedback. destruct (ShouldSendFeedback now g0) eqn:Hs; cbn [negb]; [|done].
    fold (report_end g0). intros [= _ Hg]. apply ShouldSend_spec in Hs as [_ Hle].
    pose proof (iv_cfg _ HI) as Hc.
    assert (next_feedback_sequence_ gx = report_end g0 + 1 /\ last_feedback_time_us_ gx = now) as [Hn Hlt]
      by (by rewrite <- Hg).
    exists (next_feedback_sequence_ g0). cbn [app ordered_from]. rewrite Hn. split; [lia|].
    split; [unfold report_end; lia|]. replace (report_end g0 + 1 - 1 + 1) with (next_feedback_sequence_ gx) by lia.
    eapply run_ordered; [done|lia|done|done].
Qed.

(** ** The arrivals behind the records *)

(** The packets accepted since the last reset, in order: extended number and time. *)
Definition note (op : Op) (g : Generator) (acc : list (Z * Z)) : list (Z * Z) :=
  match op with
  | Packet s t => match OnPacket s t g with Ret (true, _) => acc ++ [(Unwrap s g, t)] | _ => acc end
  | Feedback _ _ _ => acc
  | Restarted => []
  end.

Fixpoint accepted (ops : list Op) (g : Generator) (acc : list (Z * Z)) : list (Z * Z) :=
  match ops with
  | [] => acc
  | op :: ops => match exec op g with Ret (g', _) => accepted ops g' (note op g acc) | _ => acc end
  end.

(** Until a report has been built, there is room for each packet. *)
Fixpoint roomy (ops : list Op) (g : Generator) : Prop :=
  match ops with
  | [] => True
  | op :: ops =>
    (match op with
     | Packet _ _ => last_feedback_time_us_ g = 0 -> PendingPacketCount g < max_history_packets (config_ g)
     | _ => True
     end) /\
    match exec op g with Ret (g', _) => roomy ops g' | _ => True end
  end.

(** When the packet of number [k] came first. *)
Fixpoint first_time (k : Z) (acc : list (Z * Z)) : option Z :=
  match acc with
  | [] => None
  | (k', t) :: acc => if k =? k' then Some t else first_time k acc
  end.

Lemma first_time_snoc k acc k' t :
  first_time k (acc ++ [(k', t)]) =
  match first_time k acc with Some t0 => Some t0 | None => if k =? k' then Some t else None end.
Proof. induction acc as [|[a b] acc IH]; simpl; [done|]. by destruct (k =? a). Qed.

(** The records are among the arrivals; with [full], they are all those still to be reported. *)
Definition genuine (acc : list (Z * Z)) (g : Generator) : Prop :=
  forall k t, om_find k (arrivals_us_ g) = Some t -> (k, t) ∈ acc.

Definition full (acc : list (Z * Z)) (g : Generator) : Prop :=
  forall k, last_feedback_time_us_ g = 0 \/ next_feedback_sequence_ g <= k -> om_find k (arrivals_us_ g) = first_time k acc.

Definition clocked (op : Op) : Prop :=
  match op with Packet s _ => is_u16 s | Feedback _ _ now => 0 < now | Restarted => True end.

Lemma find_recorded ext t g g' k : Inv g -> Inv g' -> Recorded ext t g g' ->
  next_feedback_sequence_ g' <= k -> om_find k (arrivals_us_ g') = om_find k (om_emplace ext t (arrivals_us_ g)).
Proof.
  intros HI HI' HR Hk. pose proof (om_ok_emplace ext t _ (iv_ok _ HI)) as Hok.
  destruct (om_find k (om_emplace ext t (arrivals_us_ g))) as [t'|] eqn:E.
  - apply om_elem_find; [apply HI'|]. destruct (rc_kept _ _ _ _ HR k t' (om_find_elem _ _ _ E)) as [?|?]; [done|lia].
  - apply om_find_None. intros v Hv. apply (rc_only _ _ _ _ HR) in Hv. by apply (proj1 (om_find_None _ _) E v).
Qed.

Lemma note_genuine op g g' r acc : Inv g -> clocked op -> exec op g = Ret (g', r) -> genuine acc g -> genuine (note op g acc) g'.
Proof.
  intros HI Hop. destruct op as [s t|s m now|]; cbn [exec clocked note] in *.
  - destruct (OnPacket_spec s t g HI Hop) as (ok & g1 & -> & HI1 & Hf & Ht). cbn [mbnd]. intros [= <- <-] Hg.
    destruct ok; [|by destruct (Hf eq_refl) as [-> _]]. intros k t' Hk. apply om_find_elem in Hk.
    apply (rc_only _ _ _ _ (Ht eq_refl)) in Hk. apply om_elem_find in Hk; [|apply om_ok_emplace, HI].
    rewrite om_find_emplace in Hk by apply HI. apply elem_of_app. destruct (Z.eqb_spec k (Unwrap s g)) as [->|].
    + destruct (om_find (Unwrap s g) (arrivals_us_ g)) eqn:E; injection Hk as <-; [left; by apply Hg|right; by apply list_elem_of_singleton].
    + left. by apply Hg.
  - destruct (BuildFeedback s m now g) as [o g1] eqn:E. intros [= <- _] Hg. revert E. unfold BuildFeedback.
    destruct (negb _); intros [= _ <-]; [done|]. intros k t Hk. cbn in Hk.
    apply om_find_elem, list_elem_of_In, List.filter_In in Hk as [Hk _]. apply Hg, om_elem_find; [apply HI|by apply list_elem_of_In].
  - intros [= <- _] _ k t. done.
Qed.

Lemma note_full op g g' r acc : Inv g -> clocked op -> exec op g = Ret (g', r) ->
  match op with
  | Packet _ _ => last_feedback_time_us_ g = 0 -> PendingPacketCount g < max_history_packets (config_ g)
  | _ => True
  end -> full acc g -> full (note op g acc) g'.
Proof.
  intros HI Hop. destruct op as [s t|s m now|]; cbn [exec clocked note] in *.
  - destruct (OnPacket_spec s t g HI Hop) as (ok & g1 & -> & HI1 & Hf & Ht). cbn [mbnd]. intros [= <- <-] Hroom Hg.
    destruct ok; [|by destruct (Hf eq_refl) as [-> _]]. specialize (Ht eq_refl). intros k Hk.
    pose proof (rc_frame _ _ _ _ Ht) as (_ & _ & Hlast & _). rewrite Hlast in Hk.
    assert (om_find k (arrivals_us_ g1) = om_find k (om_emplace (Unwrap s g) t (arrivals_us_ g))) as ->.
    { destruct (decide (last_feedback_time_us_ g = 0)) as [E0|N0].
      - by rewrite (rc_room _ _ _ _ Ht (Hroom E0)).
      - destruct Hk as [?|Hk]; [done|]. by apply (find_recorded _ t g). }
    assert (last_feedback_time_us_ g = 0 \/ next_feedback_sequence_ g <= k) as Hk'.
    { destruct (decide (last_feedback_time_us_ g = 0)) as [E0|N0]; [by left|]. right.
      destruct Hk as [?|Hk]; [done|]. pose proof (rc_next _ _ _ _ Ht N0). lia. }
    rewrite om_find_emplace by apply HI. rewrite first_time_snoc, <- (Hg k Hk').
    destruct (Z.eqb_spec k (Unwrap s g)) as [->|]; [by destruct (om_find _ _)|by destruct (om_find k _)].
  - destruct (BuildFeedback s m now g) as [o g1] eqn:E. intros [= <- _] _ Hg. revert E. unfold BuildFeedback.
    destruct (ShouldSendFeedback now g) eqn:Hs; cbn [negb]; intros [= _ <-]; [|done]. apply ShouldSend_spec in Hs as [_ Hle].
    pose proof (iv_cfg _ HI). intros k Hk. cbn in Hk |- *. rewrite find_filter_above by apply HI.
    destruct Hk as [?|Hk]; [lia|]. rewrite (proj2 (Z.leb_gt _ _)) by lia. apply Hg. right. lia.
  - intros [= <- _] _ _ k _. done.
Qed.

Lemma clocked_ok ops : Forall clocked ops -> Forall op_ok ops.
Proof. intros H. eapply Forall_impl; [exact H|]. by intros []. Qed.

Lemma run_records ops : Forall clocked ops -> forall g g' rs acc, Inv g -> run ops g = Ret (g', rs) -> genuine acc g ->
  genuine (accepted ops g acc) g' /\ (roomy ops g -> full acc g -> full (accepted ops g acc) g').
Proof.
  induction 1 as [|op ops Hop Hops IH]; intros g g' rs acc HI E Hg; cbn [run accepted roomy] in *; [by injection E as <- <-|].
  apply mbnd_ret_inv in E as ([g1 r] & E1 & E). apply mbnd_ret_inv in E as ([g2 rs2] & E2 & E). injection E as <- <-. rewrite E1.
  assert (op_ok op) as Hopk by (by destruct op).
  destruct (twcc_exec_Inv op g HI Hopk) as (g1' & r' & E1' & HI1 & _). rewrite E1 in E1'. injection E1' as <- <-.
  destruct (IH g1 g2 rs2 (note op g acc) HI1 E2) as [H1 H2]; [by eapply note_genuine|]. split; [done|].
  intros [Hr Hrs] Hf. apply H2; [done|]. by eapply note_full.
Qed.

(** ** An evicted arrival reported as lost

    With three arrivals of history: packets 10, 11, 12, 13 arrive before the
    first report, so the arrival of 10 is evicted and the next report starts
    at 11.  A late packet 8 then pulls the start back; it is evicted at once
    itself, which leaves the start at 9, and the report marks 10 as not
    received although [OnPacket] accepted it. *)
Lemma twcc_evicted_reported_lost :
  match run [Packet 10 1; Packet 11 2; Packet 12 3; Packet 13 4; Packet 8 5; Feedback 0 0 6]
          (construct (mkConfig 100 3 3)) with
  | Ret (_, [(_, _, r)]) =>
    List.map (fun p => (transport_sequence p, received p)) (packets r) =
      [(9, false); (10, false); (11, true)]
  | _ => False
  end.
Proof. vm_compute. reflexivity. Qed.

(** ** Witnesses *)

Definition ex_ops : list Op :=
  [Packet 65535 1000; Packet 1 2500; Feedback 1 2 3000; Packet 0 4000; Packet 2 5000].

Lemma ex_ops_live : Forall op_live ex_ops.
Proof. repeat constructor; words. Qed.

Definition ex_run : mres (Generator * list (Z * Z * TransportFeedbackReport)) :=
  Eval vm_compute in run ex_ops (construct Config_default).

Lemma twcc_arrivals_invariant_witness :
  exists g rs, run ex_ops (construct Config_default) = Ret (g, rs) /\ PendingPacketCount g <= 4096.
Proof.
  destruct (twcc_arrivals_invariant Config_default ex_ops (op_live_ok _ ex_ops_live)) as (g & rs & E & H & _).
  exists g, rs. split; [exact E|exact H].
Defined.

Lemma twcc_report_exact_witness : exists g rs, ex_run = Ret (g, rs) /\
  next_feedback_sequence_ (BuildFeedback 1 2 200000 g).2 = report_end g + 1.
Proof.
  eexists _, _. split; [reflexivity|].
  eapply (twcc_report_exact Config_default ex_ops _ _ 1 2 200000 _ _ (op_live_ok _ ex_ops_live)
    (eq_refl ex_run)). vm_compute. reflexivity.
Defined.

Lemma twcc_reports_disjoint_witness : exists g rs, ex_run = Ret (g, rs) /\ exists a, ordered_from a rs.
Proof.
  eexists _, _. split; [reflexivity|].
  exact (twcc_reports_disjoint Config_default ex_ops _ _ ex_ops_live (eq_refl ex_run)).
Defined.

End TransportFeedbackGenerator.
