(* ===== verification/SpscRing.v ===== *)
(** * Single-producer single-consumer ring

    Models [SpscRing] and [RtpRingBuffer] (Rtsp/RtpRingBuffer.h).  [push] and
    [pop] are given twice: as the functions one thread executes, and as the
    sequence of atomic accesses to [read_], [write_] and the slot, so that the
    two threads can interleave between any two of them.  Atomic accesses are
    sequentially consistent here; the release stores and acquire loads of the
    code order exactly the accesses whose order the proof uses (the slot before
    the index that publishes it).  The index words are 32 bits wide and wrap. *)
From S2P Require Import Prelude Bytes.

Section SpscRing.
Context {T : Type}.

(** [CapacityPow2 = 2 ^ K], at least 2 and within the index words. *)
Variable K : Z.
Hypothesis HK : 1 <= K <= 31.

Definition CapacityPow2 : Z := 2 ^ K.
Definition mask_ : Z := u32 (CapacityPow2 - 1).

Record RtpQueueStats := mkQueueStats {
  pushed : Z;
  popped : Z;
  dropped : Z;
  max_depth_seen : Z
}.

Definition stats_zero : RtpQueueStats := mkQueueStats 0 0 0 0.

Record Ring := mkRing {
  buf_ : list T;
  read_ : Z;
  write_ : Z;
  st_ : RtpQueueStats
}.

Definition count_dropped (s : RtpQueueStats) : RtpQueueStats :=
  mkQueueStats (pushed s) (popped s) (dropped s + 1) (max_depth_seen s).
Definition count_popped (s : RtpQueueStats) : RtpQueueStats :=
  mkQueueStats (pushed s) (popped s + 1) (dropped s) (max_depth_seen s).
Definition count_pushed (depth : Z) (s : RtpQueueStats) : RtpQueueStats :=
  mkQueueStats (pushed s + 1) (popped s) (dropped s)
    (if max_depth_seen s <? depth then depth else max_depth_seen s).

Definition is_full (w r : Z) : bool := Z.land (u32 (w + 1)) mask_ =? Z.land r mask_.

Definition push (item : T) (q : Ring) : bool * Ring :=
  let w := write_ q in
  let r := read_ q in
  if is_full w r then (false, mkRing (buf_ q) (read_ q) (write_ q) (count_dropped (st_ q)))
  else (true, mkRing (<[Z.to_nat (Z.land w mask_) := item]> (buf_ q)) (read_ q) (u32 (w + 1))
                (count_pushed (u32 (w + 1 - r)) (st_ q))).

Definition pop (q : Ring) : option T * Ring :=
  let r := read_ q in
  let w := write_ q in
  if r =? w then (None, q)
  else (buf_ q !! Z.to_nat (Z.land r mask_),
        mkRing (buf_ q) (u32 (r + 1)) (write_ q) (count_popped (st_ q))).

Definition approx_size (q : Ring) : Z := u32 (write_ q - read_ q).

Definition reset_stats (q : Ring) : Ring := mkRing (buf_ q) (read_ q) (write_ q) stats_zero.

(** ** The same operations as atomic steps *)

Inductive Producer :=
| PIdle
| PLoadedW (item : T) (w : Z)
| PLoadedR (item : T) (w r : Z)
| PStored (item : T) (w r : Z)
| PPublished (w r : Z).

Inductive Consumer :=
| CIdle
| CLoadedR (r : Z)
| CLoadedW (r w : Z)
| CTaken (r : Z) (out : option T)
| CReleased.

(** [accepted] and [delivered] record the pushes and pops that took effect, in
    order; they are not part of the program state. *)
Record Sys := mkSys {
  ring : Ring;
  prod : Producer;
  cons_ : Consumer;
  accepted : list T;
  delivered : list (option T)
}.

Inductive step : Sys -> Sys -> Prop :=
(** producer *)
| push_load_write x q c a d :
    step (mkSys q PIdle c a d) (mkSys q (PLoadedW x (write_ q)) c a d)
| push_load_read x w q c a d :
    step (mkSys q (PLoadedW x w) c a d) (mkSys q (PLoadedR x w (read_ q)) c a d)
| push_full x w r q c a d :
    is_full w r = true ->
    step (mkSys q (PLoadedR x w r) c a d)
         (mkSys (mkRing (buf_ q) (read_ q) (write_ q) (count_dropped (st_ q))) PIdle c a d)
| push_store x w r q c a d :
    is_full w r = false ->
    step (mkSys q (PLoadedR x w r) c a d)
         (mkSys (mkRing (<[Z.to_nat (Z.land w mask_) := x]> (buf_ q)) (read_ q) (write_ q) (st_ q))
            (PStored x w r) c a d)
| push_publish x w r q c a d :
    step (mkSys q (PStored x w r) c a d)
         (mkSys (mkRing (buf_ q) (read_ q) (u32 (w + 1)) (st_ q)) (PPublished w r) c (a ++ [x]) d)
| push_return w r q c a d :
    step (mkSys q (PPublished w r) c a d)
         (mkSys (mkRing (buf_ q) (read_ q) (write_ q) (count_pushed (u32 (w + 1 - r)) (st_ q))) PIdle c a d)
(** consumer *)
| pop_load_read q p a d :
    step (mkSys q p CIdle a d) (mkSys q p (CLoadedR (read_ q)) a d)
| pop_load_write r q p a d :
    step (mkSys q p (CLoadedR r) a d) (mkSys q p (CLoadedW r (write_ q)) a d)
| pop_empty r q p a d :
    step (mkSys q p (CLoadedW r r) a d) (mkSys q p CIdle a d)
| pop_take r w q p a d :
    r <> w ->
    step (mkSys q p (CLoadedW r w) a d)
         (mkSys q p (CTaken r (buf_ q !! Z.to_nat (Z.land r mask_))) a d)
| pop_release r x q p a d :
    step (mkSys q p (CTaken r x) a d)
         (mkSys (mkRing (buf_ q) (u32 (r + 1)) (write_ q) (st_ q)) p CReleased a (d ++ [x]))
| pop_return q p a d :
    step (mkSys q p CReleased a d)
         (mkSys (mkRing (buf_ q) (read_ q) (write_ q) (count_popped (st_ q))) p CIdle a d).

Definition ring_init (buf : list T) : Ring := mkRing buf 0 0 stats_zero.
Definition sys_init (buf : list T) : Sys := mkSys (ring_init buf) PIdle CIdle [] [].

(** ** Index arithmetic *)

Lemma cap_range : 2 <= CapacityPow2 <= 2147483648.
Proof.
  unfold CapacityPow2. split; [apply (Z.pow_le_mono_r 2 1 K); lia|].
  change 2147483648 with (2 ^ 31). apply Z.pow_le_mono_r; lia.
Qed.

Lemma mask_eq : mask_ = CapacityPow2 - 1.
Proof. pose proof cap_range. unfold mask_. apply wrap_small. unfold is_u. pow2. lia. Qed.

Lemma land_mask x : Z.land x mask_ = x mod CapacityPow2.
Proof. rewrite mask_eq. unfold CapacityPow2. apply land_ones_mod. lia. Qed.

(** Masking forgets the wrap of the index word. *)
Lemma u32_mod_cap x : (u32 x) mod CapacityPow2 = x mod CapacityPow2.
Proof.
  unfold wrap, CapacityPow2. symmetry. apply Znumtheory.Zmod_div_mod; try (apply Z.pow_pos_nonneg; lia).
  exists (2 ^ (32 - K)). rewrite <- Z.pow_add_r by lia. f_equal. lia.
Qed.

Lemma is_full_spec W R : R <= W <= R + CapacityPow2 - 1 ->
  is_full (u32 W) (u32 R) = (W - R =? CapacityPow2 - 1).
Proof.
  intros H. pose proof cap_range. unfold is_full. rewrite !land_mask, wrap_add_l, !u32_mod_cap.
  assert ((W + 1) mod CapacityPow2 = R mod CapacityPow2 <-> W - R = CapacityPow2 - 1) as Hiff.
  { split.
    - intros E. assert ((W + 1 - R) mod CapacityPow2 = 0) as E0.
      { rewrite Zminus_mod, E, Z.sub_diag. apply Zmod_0_l. }
      destruct (decide (W + 1 - R = CapacityPow2)) as [|Hne]; [lia|].
      rewrite Z.mod_small in E0 by lia. lia.
    - intros E. replace (W + 1) with (R + 1 * CapacityPow2) by lia. apply Z_mod_plus_full. }
  destruct (Z.eqb_spec (W - R) (CapacityPow2 - 1)); destruct (Z.eqb_spec ((W + 1) mod CapacityPow2) (R mod CapacityPow2)); tauto.
Qed.

(** Distinct live indices use distinct slots. *)
Lemma slot_inj i j : i <= j -> j - i < CapacityPow2 ->
  i mod CapacityPow2 = j mod CapacityPow2 -> i = j.
Proof.
  intros H1 H2 E. pose proof cap_range.
  assert ((j - i) mod CapacityPow2 = 0) as E0 by (rewrite Zminus_mod, E, Z.sub_diag; apply Zmod_0_l).
  rewrite Z.mod_small in E0 by lia. lia.
Qed.

Lemma slot_range i : 0 <= i mod CapacityPow2 < CapacityPow2.
Proof. pose proof cap_range. apply Z.mod_pos_bound. lia. Qed.

(** ** Invariant of all interleavings *)

Definition R_of (s : Sys) : Z := Z.of_nat (length (delivered s)).
Definition W_of (s : Sys) : Z := Z.of_nat (length (accepted s)).

(** The slot of the [i]-th element ever pushed. *)
Definition slot (q : Ring) (i : Z) : option T := buf_ q !! Z.to_nat (i mod CapacityPow2).

Definition prod_ok (s : Sys) : Prop :=
  match prod s with
  | PIdle => True
  | PLoadedW _ w => w = u32 (W_of s)
  | PLoadedR _ w r => w = u32 (W_of s) /\ exists R0, r = u32 R0 /\ R0 <= R_of s /\
      R0 <= W_of s <= R0 + CapacityPow2 - 1
  | PStored x w _ => w = u32 (W_of s) /\ W_of s - R_of s < CapacityPow2 - 1 /\
      slot (ring s) (W_of s) = Some x
  | PPublished _ _ => True
  end.

Definition cons_ok (s : Sys) : Prop :=
  match cons_ s with
  | CIdle | CReleased => True
  | CLoadedR r => r = u32 (R_of s)
  | CLoadedW r w => r = u32 (R_of s) /\ exists W0, w = u32 W0 /\ R_of s <= W0 <= W_of s
  | CTaken r x => r = u32 (R_of s) /\ R_of s < W_of s /\ x = accepted s !! Z.to_nat (R_of s)
  end.

Record SysInv (s : Sys) : Prop := {
  si_read : read_ (ring s) = u32 (R_of s);
  si_write : write_ (ring s) = u32 (W_of s);
  si_range : R_of s <= W_of s <= R_of s + CapacityPow2 - 1;
  si_len : Z.of_nat (length (buf_ (ring s))) = CapacityPow2;
  si_slots : forall i, R_of s <= i < W_of s -> slot (ring s) i = accepted s !! Z.to_nat i;
  si_delivered : forall i, 0 <= i < R_of s -> delivered s !! Z.to_nat i = Some (accepted s !! Z.to_nat i);
  si_prod : prod_ok s;
  si_cons : cons_ok s
}.

Lemma slot_store q x W i :
  Z.of_nat (length (buf_ q)) = CapacityPow2 ->
  slot (mkRing (<[Z.to_nat (Z.land (u32 W) mask_) := x]> (buf_ q)) (read_ q) (write_ q) (st_ q)) i =
  if (W mod CapacityPow2 =? i mod CapacityPow2) then Some x else slot q i.
Proof.
  intros Hlen. unfold slot. simpl. rewrite land_mask, u32_mod_cap.
  pose proof (slot_range W). pose proof (slot_range i).
  destruct (Z.eqb_spec (W mod CapacityPow2) (i mod CapacityPow2)) as [->|Hne].
  - apply list_lookup_insert_eq. lia.
  - apply list_lookup_insert_ne. lia.
Qed.

(** Publishing the stored element. *)
Lemma publish_inv x w r q c a d :
  SysInv (mkSys q (PStored x w r) c a d) ->
  SysInv (mkSys (mkRing (buf_ q) (read_ q) (u32 (w + 1)) (st_ q)) (PPublished w r) c (a ++ [x]) d).
Proof.
  pose proof cap_range as Hcap. intros [Hr Hw Hrg Hlen Hsl Hdl Hp Hc].
  unfold prod_ok, cons_ok, R_of, W_of in *; simpl in *. destruct Hp as (-> & Hlt & Hslot).
  assert (Z.of_nat (length (a ++ [x])) = Z.of_nat (length a) + 1) as HW by (rewrite length_app; simpl; lia).
  assert (forall i, 0 <= i < Z.of_nat (length a) -> (a ++ [x]) !! Z.to_nat i = a !! Z.to_nat i) as Ha
    by (intros i Hi; apply lookup_app_l; lia).
  split; unfold prod_ok, cons_ok, R_of, W_of; cbn [ring prod cons_ accepted delivered buf_ read_ write_ st_];
    rewrite ?HW; auto; try lia.
  - by rewrite wrap_add_l.
  - intros i Hi. change (slot q i = (a ++ [x]) !! Z.to_nat i).
    destruct (decide (i = Z.of_nat (length a))) as [->|].
    + rewrite Hslot, Nat2Z.id. symmetry. by apply list_lookup_middle.
    + rewrite Ha by lia. apply Hsl. lia.
  - intros i Hi. rewrite Ha by lia. by apply Hdl.
  - destruct c; auto.
    + destruct Hc as (-> & W0 & -> & ?). split; [done|]. exists W0. split; [done|lia].
    + destruct Hc as (-> & ? & ->). split; [done|]. split; [lia|]. symmetry. apply Ha. lia.
Qed.

(** Releasing the slot of the taken element. *)
Lemma release_inv x r q p a d :
  SysInv (mkSys q p (CTaken r x) a d) ->
  SysInv (mkSys (mkRing (buf_ q) (u32 (r + 1)) (write_ q) (st_ q)) p CReleased a (d ++ [x])).
Proof.
  pose proof cap_range as Hcap. intros [Hr Hw Hrg Hlen Hsl Hdl Hp Hc].
  unfold prod_ok, cons_ok, R_of, W_of in *; simpl in *. destruct Hc as (-> & Hlt & ->).
  set (x := a !! Z.to_nat (Z.of_nat (length d))) in *.
  assert (Z.of_nat (length (d ++ [x])) = Z.of_nat (length d) + 1) as HR by (rewrite length_app; simpl; lia).
  split; unfold prod_ok, cons_ok, R_of, W_of; cbn [ring prod cons_ accepted delivered buf_ read_ write_ st_];
    rewrite ?HR; auto; try lia.
  - by rewrite wrap_add_l.
  - intros i Hi. change (slot q i = a !! Z.to_nat i). apply Hsl. lia.
  - intros i Hi. destruct (decide (i = Z.of_nat (length d))) as [->|].
    + rewrite Nat2Z.id. rewrite list_lookup_middle by done. unfold x. by rewrite Nat2Z.id.
    + rewrite lookup_app_l by lia. apply Hdl. lia.
  - destruct p; auto.
    + destruct Hp as (-> & R0 & -> & ? & ?). split; [done|]. exists R0. split; [done|lia].
    + destruct Hp as (-> & ? & ?). split; [done|]. split; [lia|done].
Qed.

(** Storing into the slot a not-full check has shown to be free. *)
Lemma store_inv x w r q c a d :
  is_full w r = false -> SysInv (mkSys q (PLoadedR x w r) c a d) ->
  SysInv (mkSys (mkRing (<[Z.to_nat (Z.land w mask_) := x]> (buf_ q)) (read_ q) (write_ q) (st_ q))
            (PStored x w r) c a d).
Proof.
  pose proof cap_range as Hcap. intros Hfull [Hr Hw Hrg Hlen Hsl Hdl Hp Hc].
  unfold prod_ok, cons_ok, R_of, W_of in *; simpl in *.
  destruct Hp as (-> & R0 & -> & HR0 & HW0). rewrite is_full_spec in Hfull by lia. bool_hyps.
  split; unfold prod_ok, cons_ok, R_of, W_of; simpl; auto.
  - by rewrite length_insert.
  - intros i Hi. rewrite slot_store by done. rewrite (proj2 (Z.eqb_neq _ _)); [auto|].
    intros E. symmetry in E. apply slot_inj in E; lia.
  - split; [done|]. split; [lia|]. rewrite slot_store by done. by rewrite Z.eqb_refl.
Qed.

Lemma step_inv s s' : step s s' -> SysInv s -> SysInv s'.
Proof.
  pose proof cap_range as Hcap. destruct 1; auto using publish_inv, release_inv, store_inv;
    intros [Hr Hw Hrg Hlen Hsl Hdl Hp Hc]; unfold prod_ok, cons_ok, R_of, W_of in *; simpl in *;
    (split; unfold prod_ok, cons_ok, R_of, W_of; simpl; auto).
  - split; [done|]. eexists. split; [done|]. lia.
  - split; [done|]. eexists. split; [done|]. lia.
  - destruct Hc as (-> & W0 & -> & HW). split; [done|].
    assert (Z.of_nat (length d) < Z.of_nat (length a)) as Hlt.
    { destruct (decide (W0 = Z.of_nat (length d))) as [->|]; [done|lia]. }
    split; [done|]. rewrite land_mask, u32_mod_cap. apply Hsl. lia.
Qed.

Lemma init_inv buf : Z.of_nat (length buf) = CapacityPow2 -> SysInv (sys_init buf).
Proof.
  intros Hl. pose proof cap_range. split; unfold prod_ok, cons_ok, R_of, W_of; simpl; auto; try lia; done.
Qed.

Lemma rtc_inv s0 s : rtc step s0 s -> SysInv s0 -> SysInv s.
Proof. induction 1; eauto using step_inv. Qed.

Lemma reachable_inv buf s :
  Z.of_nat (length buf) = CapacityPow2 -> rtc step (sys_init buf) s -> SysInv s.
Proof. intros Hl Hr. eapply rtc_inv; [done|]. by apply init_inv. Qed.

(** (C25) Lock-free FIFO.  In every state reachable by any interleaving of the
    producer's and the consumer's atomic steps, also across the wrap of the
    32-bit indices: the elements taken so far are exactly the first elements
    pushed, in order (no loss, duplication or tearing), at most
    [CapacityPow2 - 1] elements are in the ring, and [approx_size] read between
    steps is their number. *)
Theorem spsc_fifo buf s :
  Z.of_nat (length buf) = CapacityPow2 -> rtc step (sys_init buf) s ->
  delivered s = List.map Some (take (length (delivered s)) (accepted s)) /\
  (length (delivered s) <= length (accepted s))%nat /\
  Z.of_nat (length (accepted s)) - Z.of_nat (length (delivered s)) <= CapacityPow2 - 1 /\
  approx_size (ring s) = Z.of_nat (length (accepted s)) - Z.of_nat (length (delivered s)).
Proof.
  intros Hl Hr. pose proof cap_range. destruct (reachable_inv buf s Hl Hr) as [Hrd Hwr Hrg Hlen Hsl Hdl _ _].
  unfold R_of, W_of in *. split; [|split; [lia|split; [lia|]]].
  - apply list_eq. intros i. change (List.map Some ?l) with (Some <$> l). rewrite list_lookup_fmap.
    destruct (decide (i < length (delivered s))%nat) as [Hi|Hi].
    + specialize (Hdl (Z.of_nat i) ltac:(lia)). rewrite Nat2Z.id in Hdl. rewrite Hdl.
      rewrite lookup_take_lt by done. destruct (accepted s !! i) eqn:E; [done|].
      apply lookup_ge_None in E. lia.
    + rewrite lookup_ge_None_2 by lia. rewrite lookup_take_ge by lia. done.
  - unfold approx_size. rewrite Hrd, Hwr, wrap_sub_l, wrap_sub_r. apply wrap_small. unfold is_u. pow2. lia.
Qed.

(** ** The functions as runs of their steps *)

Lemma push_steps x q c a d ok q' :
  push x q = (ok, q') ->
  rtc step (mkSys q PIdle c a d) (mkSys q' PIdle c (if ok then a ++ [x] else a) d).
Proof.
  unfold push. destruct (is_full (write_ q) (read_ q)) eqn:E; intros [= <- <-].
  - eapply rtc_l; [apply (push_load_write x)|]. eapply rtc_l; [apply push_load_read|].
    eapply rtc_l; [by apply push_full|]. done.
  - eapply rtc_l; [apply (push_load_write x)|]. eapply rtc_l; [apply push_load_read|].
    eapply rtc_l; [by apply push_store|]. eapply rtc_l; [apply push_publish|].
    eapply rtc_l; [apply push_return|]. done.
Qed.

Lemma pop_steps q p a d o q' :
  pop q = (o, q') ->
  rtc step (mkSys q p CIdle a d)
    (mkSys q' p CIdle a (if read_ q =? write_ q then d else d ++ [o])).
Proof.
  unfold pop. destruct (Z.eqb_spec (read_ q) (write_ q)) as [E|Hne]; intros [= <- <-].
  - eapply rtc_l; [apply pop_load_read|]. eapply rtc_l; [apply pop_load_write|].
    rewrite <- E. eapply rtc_l; [apply pop_empty|]. done.
  - eapply rtc_l; [apply pop_load_read|]. eapply rtc_l; [apply pop_load_write|].
    eapply rtc_l; [by apply pop_take|]. eapply rtc_l; [apply pop_release|].
    eapply rtc_l; [apply pop_return|]. done.
Qed.

(** ** Between operations the ring is a bounded queue *)

Definition holds (q : Ring) (l : list T) : Prop :=
  exists a d, SysInv (mkSys q PIdle CIdle a d) /\ l = drop (length d) a.

Lemma holds_init buf : Z.of_nat (length buf) = CapacityPow2 -> holds (ring_init buf) [].
Proof. intros Hl. exists [], []. split; [by apply init_inv|done]. Qed.

Lemma push_holds x q l : holds q l ->
  exists ok q', push x q = (ok, q') /\ ok = (Z.of_nat (length l) <? CapacityPow2 - 1) /\
    holds q' (if ok then l ++ [x] else l).
Proof.
  intros (a & d & HI & ->). destruct (push x q) as [ok q'] eqn:E. exists ok, q'. split; [done|].
  pose proof (rtc_inv _ _ (push_steps x q CIdle a d ok q' E) HI) as HI'.
  destruct HI as [Hr Hw Hrg _ _ _ _ _]. unfold R_of, W_of in *. cbn [ring accepted delivered] in *.
  assert (ok = (Z.of_nat (length (drop (length d) a)) <? CapacityPow2 - 1)) as Hok.
  { revert E. unfold push. rewrite Hr, Hw, is_full_spec by lia. rewrite length_drop.
    destruct (Z.eqb_spec (Z.of_nat (length a) - Z.of_nat (length d)) (CapacityPow2 - 1)); intros [= <- _];
      symmetry; [apply Z.ltb_ge|apply Z.ltb_lt]; lia. }
  split; [done|]. destruct ok; eexists _, _; (split; [exact HI'|]); [|done].
  by rewrite drop_app_le by lia.
Qed.

Lemma pop_holds q l : holds q l ->
  match l with
  | [] => pop q = (None, q)
  | x :: l' => exists q', pop q = (Some x, q') /\ holds q' l'
  end.
Proof.
  intros (a & d & HI & ->). pose proof cap_range.
  assert (read_ q = write_ q <-> length d = length a) as Hemp.
  { destruct HI as [Hr Hw Hrg _ _ _ _ _]. unfold R_of, W_of in *. cbn [ring accepted delivered] in *.
    rewrite Hr, Hw. split; [|intros ->; done]. intros E. words. }
  destruct (drop (length d) a) as [|x l'] eqn:Hd.
  - assert (length d = length a) as E.
    { apply (f_equal length) in Hd. rewrite length_drop in Hd. simpl in Hd.
      destruct HI as [_ _ Hrg _ _ _ _ _]. unfold R_of, W_of in Hrg. cbn in Hrg. lia. }
    unfold pop. by rewrite (proj2 (Z.eqb_eq _ _) (proj2 Hemp E)).
  - assert (read_ q <> write_ q) as Hne.
    { intros E. apply Hemp in E. rewrite E, drop_all in Hd. done. }
    destruct (pop q) as [o q'] eqn:E. pose proof (pop_steps q PIdle a d o q' E) as Hst.
    rewrite (proj2 (Z.eqb_neq _ _) Hne) in Hst. pose proof (rtc_inv _ _ Hst HI) as HI'.
    assert (a !! length d = Some x) as Hx.
    { rewrite <- (Nat.add_0_r (length d)), <- lookup_drop, Hd. done. }
    assert (o = Some x) as ->.
    { destruct HI' as [_ _ _ _ _ Hdl _ _]. unfold R_of in Hdl. cbn [delivered accepted] in Hdl.
      specialize (Hdl (Z.of_nat (length d))). rewrite length_app, Nat2Z.id in Hdl. simpl in Hdl.
      rewrite list_lookup_middle in Hdl by done. specialize (Hdl ltac:(lia)). congruence. }
    exists q'. split; [done|]. eexists _, _. split; [exact HI'|].
    rewrite length_app. simpl. rewrite <- drop_drop, Hd. done.
Qed.

End SpscRing.

(** ** RtpRingBuffer: media and control jobs in two rings *)

(** [payload] is the address of the packet, never followed here. *)
Record RtpWorkJob := mkJob { key : Z; type : Z; payload : Z; payload_len : Z; enqueue_ts : Z }.

Definition RTP_JOB_RTP : Z := 0.
Definition RTP_JOB_RTCP : Z := 1.

Definition set_type (t : Z) (j : RtpWorkJob) : RtpWorkJob :=
  mkJob (key j) t (payload j) (payload_len j) (enqueue_ts j).

Section RtpRingBuffer.
Variables RtpK RtcpK : Z.
Hypothesis HRtp : 1 <= RtpK <= 31.
Hypothesis HRtcp : 1 <= RtcpK <= 31.

Record RtpRingBuffer := mkRings { rtp_ : @Ring RtpWorkJob; rtcp_ : @Ring RtpWorkJob }.

Definition push_rtp (job : RtpWorkJob) (b : RtpRingBuffer) : bool * RtpRingBuffer :=
  let '(ok, q) := push RtpK (set_type RTP_JOB_RTP job) (rtp_ b) in (ok, mkRings q (rtcp_ b)).

Definition push_rtcp (job : RtpWorkJob) (b : RtpRingBuffer) : bool * RtpRingBuffer :=
  let '(ok, q) := push RtcpK (set_type RTP_JOB_RTCP job) (rtcp_ b) in (ok, mkRings (rtp_ b) q).

Definition try_pop (b : RtpRingBuffer) : option RtpWorkJob * RtpRingBuffer :=
  match pop RtcpK (rtcp_ b) with
  | (Some j, q) => (Some j, mkRings (rtp_ b) q)
  | (None, q) => let '(o, q') := pop RtpK (rtp_ b) in (o, mkRings q' q)
  end.

(** The two queues the buffer stands for. *)
Definition jobs (b : RtpRingBuffer) (media control : list RtpWorkJob) : Prop :=
  holds RtpK (rtp_ b) media /\ holds RtcpK (rtcp_ b) control.

(** Two bounded queues with control first.  [RtpRingBuffer] refines a
    pair of FIFO queues bounded by one less than their capacities: a push
    appends the job, stamped with its class, exactly when there is room; a pop
    takes the oldest control job if there is one, otherwise the oldest media
    job, otherwise nothing. *)
Theorem ring_buffer_priority b media control job : jobs b media control ->
  (let ok := Z.of_nat (length media) <? 2 ^ RtpK - 1 in
   exists b', push_rtp job b = (ok, b') /\
     jobs b' (if ok then media ++ [set_type RTP_JOB_RTP job] else media) control) /\
  (let ok := Z.of_nat (length control) <? 2 ^ RtcpK - 1 in
   exists b', push_rtcp job b = (ok, b') /\
     jobs b' media (if ok then control ++ [set_type RTP_JOB_RTCP job] else control)) /\
  match control, media with
  | c :: control', _ => exists b', try_pop b = (Some c, b') /\ jobs b' media control'
  | [], m :: media' => exists b', try_pop b = (Some m, b') /\ jobs b' media' []
  | [], [] => try_pop b = (None, b)
  end.
Proof.
  intros [Hm Hc]. split; [|split].
  - destruct (push_holds RtpK HRtp (set_type RTP_JOB_RTP job) _ _ Hm) as (ok & q' & E & -> & Hh).
    unfold push_rtp. rewrite E. eexists. split; [done|]. by split.
  - destruct (push_holds RtcpK HRtcp (set_type RTP_JOB_RTCP job) _ _ Hc) as (ok & q' & E & -> & Hh).
    unfold push_rtcp. rewrite E. eexists. split; [done|]. by split.
  - pose proof (pop_holds RtcpK HRtcp _ _ Hc) as Pc. pose proof (pop_holds RtpK HRtp _ _ Hm) as Pm.
    unfold try_pop. destruct control as [|c control].
    + rewrite Pc. destruct media as [|m media].
      * rewrite Pm. by destruct b.
      * destruct Pm as (q' & -> & Hh). eexists. split; [done|]. by split.
    + destruct Pc as (q' & -> & Hh). eexists. split; [done|]. by split.
Qed.

End RtpRingBuffer.

(** ** Witnesses *)

Definition ex_sys : @Sys Z :=
  mkSys (mkRing [7; 0] 0 1 stats_zero) (PPublished 0 0) CIdle [7] [].

Lemma spsc_fifo_witness :
  rtc (step 1) (sys_init [0; 0]) ex_sys /\ approx_size (ring ex_sys) = 1.
Proof.
  assert (rtc (step 1) (sys_init [0; 0]) ex_sys) as Hr.
  { eapply rtc_l; [apply (push_load_write 1 7)|]. eapply rtc_l; [apply push_load_read|].
    eapply rtc_l; [apply push_store; reflexivity|]. eapply rtc_l; [apply push_publish|]. apply rtc_refl. }
  split; [exact Hr|]. apply (spsc_fifo 1 ltac:(lia) [0; 0] ex_sys); [reflexivity|exact Hr].
Defined.

Definition ex_rings : RtpRingBuffer :=
  mkRings (ring_init [mkJob 0 0 0 0 0; mkJob 0 0 0 0 0]) (ring_init [mkJob 0 0 0 0 0; mkJob 0 0 0 0 0]).

Lemma ring_buffer_priority_witness :
  try_pop 1 1 ex_rings = (None, ex_rings) /\
  exists b', push_rtcp 1 (mkJob 9 0 0 0 0) ex_rings = (true, b') /\ jobs 1 1 b' [] [mkJob 9 1 0 0 0].
Proof.
  assert (jobs 1 1 ex_rings [] []) as Hj by (split; apply holds_init; (lia || reflexivity)).
  destruct (ring_buffer_priority 1 1 ltac:(lia) ltac:(lia) ex_rings [] [] (mkJob 9 0 0 0 0) Hj) as (_ & Hp & Ht).
  split; [exact Ht|exact Hp].
Defined.
