(* ===== verification/Channel.v ===== *)
(** * Bounded channels over a shared budget

    Models [utils::ChannelBudget] and [utils::BoundedChannel]
    (utils/BoundedChannel.h).  Every critical section is one atomic step; the
    steps of any number of senders, of the executor that runs [Pump] and of
    the completions interleave freely, over any number of channels that share
    one budget.  What runs outside the lock is recorded per channel: senders
    and pumps about to call [post], pump tasks posted but not started, pumps
    in their loop and asynchronous consumptions not yet completed.  The result
    of [post] and of the consume callback are choices of the environment. *)
From S2P Require Import Prelude.

Section Channel.
Context {Message : Type}.

Inductive ChannelResult := Accepted | Full | Closed | Cancelled.
Inductive ChannelDelivery := Ready | Deferred | OpenGate.

#[export] Instance ChannelResult_eq_dec : EqDecision ChannelResult.
Proof. solve_decision. Defined.

Definition is_accepted (r : ChannelResult) : bool := match r with Accepted => true | _ => false end.

(** ** ChannelBudget *)

Record ChannelBudget := mkBudget {
  budget_max_bytes : Z;
  budget_max_messages : Z;
  budget_bytes : Z;
  budget_messages : Z
}.

(** [bytes > max_bytes_ - bytes_] is unsigned subtraction. *)
Definition Reserve (bytes : Z) (b : ChannelBudget) : option ChannelBudget :=
  if (budget_max_messages b <=? budget_messages b) ||
     (u64 (budget_max_bytes b - budget_bytes b) <? bytes) then None
  else Some (mkBudget (budget_max_bytes b) (budget_max_messages b)
               (budget_bytes b + bytes) (budget_messages b + 1)).

Definition Release (bytes : Z) (b : ChannelBudget) : ChannelBudget :=
  mkBudget (budget_max_bytes b) (budget_max_messages b)
    (u64 (budget_bytes b - bytes)) (u64 (budget_messages b - 1)).

(** ** The channel state *)

Record Item := mkItem { message : Message; item_bytes : Z }.

Inductive Pump :=
| PumpTake (batch : nat)
| PumpConsume (batch : nat) (item : Item)
| PumpFailed.

Record Channel := mkChannel {
  max_bytes : Z;
  max_messages : Z;
  bytes : Z;
  messages : Z;
  queue : list Item;
  deferred : list Item;
  scheduled : bool;
  ready : bool;
  status : ChannelResult;
  is_async : bool;
  (** outside the lock *)
  to_post : nat;
  posted : nat;
  pumps : list Pump;
  asyncs : list Item;
  (** history: items in the order they entered [queue], and in the order the
      consumer got them *)
  entered : list Item;
  consumed : list Item
}.

Definition channel_init (mb mm : Z) (gated async : bool) : Channel :=
  mkChannel mb mm 0 0 [] [] false (negb gated) Accepted async 0 0 [] [] [] [].

(** [Stop]: release everything still queued or deferred. *)
Fixpoint release_all (items : list Item) (c_bytes c_messages : Z) (b : ChannelBudget)
    : Z * Z * ChannelBudget :=
  match items with
  | [] => (c_bytes, c_messages, b)
  | it :: items =>
    release_all items (u64 (c_bytes - item_bytes it)) (u64 (c_messages - 1)) (Release (item_bytes it) b)
  end.

Definition Stop (result : ChannelResult) (c : Channel) (b : ChannelBudget) : Channel * ChannelBudget :=
  if negb (is_accepted (status c)) then (c, b) else
  let '(by1, ms1, b1) := release_all (queue c) (bytes c) (messages c) b in
  let '(by2, ms2, b2) := release_all (deferred c) by1 ms1 b1 in
  (mkChannel (max_bytes c) (max_messages c) by2 ms2 [] [] (scheduled c) (ready c) result (is_async c)
     (to_post c) (posted c) (pumps c) (asyncs c) (entered c) (consumed c), b2).

(** The locked part of [Send]. *)
Definition Send (m : Message) (n : Z) (d : ChannelDelivery) (c : Channel) (b : ChannelBudget)
    : ChannelResult * Channel * ChannelBudget :=
  if negb (is_accepted (status c)) then (status c, c, b) else
  if (max_messages c <=? messages c) || (u64 (max_bytes c - bytes c) <? n) then (Full, c, b) else
  match Reserve n b with
  | None => (Full, c, b)
  | Some b =>
    let it := mkItem m n in
    let defer := match d with Deferred => negb (ready c) | _ => false end in
    let opening := match d with OpenGate => true | _ => false end in
    let queue1 := if defer then queue c else queue c ++ [it] in
    let deferred1 := if defer then deferred c ++ [it] else deferred c in
    let released := if opening then deferred1 else [] in
    let queue2 := queue1 ++ released in
    let schedule := negb (scheduled c) && negb (match queue2 with [] => true | _ => false end) in
    (Accepted,
     mkChannel (max_bytes c) (max_messages c) (bytes c + n) (messages c + 1)
       queue2 (if opening then [] else deferred1)
       (scheduled c || schedule) (ready c || opening) (status c) (is_async c)
       (if schedule then S (to_post c) else to_post c) (posted c) (pumps c) (asyncs c)
       (entered c ++ (if defer then [] else [it]) ++ released) (consumed c),
     b)
  end.

Definition ResetGate (c : Channel) : Channel :=
  mkChannel (max_bytes c) (max_messages c) (bytes c) (messages c) (queue c) (deferred c) (scheduled c)
    false (status c) (is_async c) (to_post c) (posted c) (pumps c) (asyncs c) (entered c) (consumed c).

(** Updates of the part outside the lock. *)
Definition set_threads (tp po : nat) (ps : list Pump) (asy : list Item) (c : Channel) : Channel :=
  mkChannel (max_bytes c) (max_messages c) (bytes c) (messages c) (queue c) (deferred c) (scheduled c)
    (ready c) (status c) (is_async c) tp po ps asy (entered c) (consumed c).

Definition set_scheduled (s : bool) (c : Channel) : Channel :=
  mkChannel (max_bytes c) (max_messages c) (bytes c) (messages c) (queue c) (deferred c) s
    (ready c) (status c) (is_async c) (to_post c) (posted c) (pumps c) (asyncs c) (entered c) (consumed c).

(** The critical section that ends a consumption. *)
Definition finish (it : Item) (c : Channel) (b : ChannelBudget) : Channel * ChannelBudget :=
  (mkChannel (max_bytes c) (max_messages c) (u64 (bytes c - item_bytes it)) (u64 (messages c - 1))
     (queue c) (deferred c) (scheduled c) (ready c) (status c) (is_async c)
     (to_post c) (posted c) (pumps c) (asyncs c) (entered c) (consumed c),
   Release (item_bytes it) b).

(** The critical section at the top of the pump loop. *)
Definition take_front (c : Channel) : option Item * Channel :=
  match queue c with
  | it :: rest =>
    if is_accepted (status c) then
      (Some it,
       mkChannel (max_bytes c) (max_messages c) (bytes c) (messages c) rest (deferred c) (scheduled c)
         (ready c) (status c) (is_async c) (to_post c) (posted c) (pumps c) (asyncs c)
         (entered c) (consumed c ++ [it]))
    else (None, set_scheduled false c)
  | [] => (None, set_scheduled false c)
  end.

Definition kBatch : nat := 16.

(** One atomic step of one channel and the budget. *)
Inductive step : Channel * ChannelBudget -> Channel * ChannelBudget -> Prop :=
| step_send m n d c b r c' b' :
    is_u64 n -> Send m n d c b = (r, c', b') -> step (c, b) (c', b')
| step_stop r c b c' b' :
    r = Closed \/ r = Cancelled -> Stop r c b = (c', b') -> step (c, b) (c', b')
| step_reset c b : step (c, b) (ResetGate c, b)
| step_posted c b n :
    to_post c = S n -> step (c, b) (set_threads n (S (posted c)) (pumps c) (asyncs c) c, b)
| step_post_failed c b n c' b' :
    to_post c = S n -> Stop Cancelled (set_threads n (posted c) (pumps c) (asyncs c) c) b = (c', b') ->
    step (c, b) (c', b')
| step_pump_start c b n :
    posted c = S n ->
    step (c, b) (set_threads (to_post c) n (pumps c ++ [PumpTake 0]) (asyncs c) c, b)
| step_pump_empty c b ps1 k ps2 c' :
    pumps c = ps1 ++ PumpTake k :: ps2 -> take_front c = (None, c') ->
    step (c, b) (set_threads (to_post c) (posted c) (ps1 ++ ps2) (asyncs c) c', b)
| step_pump_take c b ps1 k ps2 it c' :
    pumps c = ps1 ++ PumpTake k :: ps2 -> take_front c = (Some it, c') -> is_async c = false ->
    step (c, b) (set_threads (to_post c) (posted c) (ps1 ++ PumpConsume k it :: ps2) (asyncs c) c', b)
| step_pump_async c b ps1 k ps2 it c' :
    pumps c = ps1 ++ PumpTake k :: ps2 -> take_front c = (Some it, c') -> is_async c = true ->
    step (c, b) (set_threads (to_post c) (posted c) (ps1 ++ ps2) (asyncs c ++ [it]) c', b)
| step_consumed c b ps1 k it ps2 c' b' :
    pumps c = ps1 ++ PumpConsume k it :: ps2 ->
    finish it c b = (c', b') ->
    step (c, b)
      ((if (S k <? kBatch)%nat
        then set_threads (to_post c) (posted c) (ps1 ++ PumpTake (S k) :: ps2) (asyncs c) c'
        else set_threads (S (to_post c)) (posted c) (ps1 ++ ps2) (asyncs c) c'), b')
| step_failed c b ps1 k it ps2 c' b' :
    pumps c = ps1 ++ PumpConsume k it :: ps2 ->
    finish it c b = (c', b') ->
    step (c, b) (set_threads (to_post c) (posted c) (ps1 ++ PumpFailed :: ps2) (asyncs c) c', b')
| step_fail_stop c b ps1 ps2 c' b' :
    pumps c = ps1 ++ PumpFailed :: ps2 ->
    Stop Cancelled (set_threads (to_post c) (posted c) (ps1 ++ ps2) (asyncs c) c) b = (c', b') ->
    step (c, b) (c', b')
| step_completed c b as1 it as2 c' b' :
    asyncs c = as1 ++ it :: as2 ->
    finish it c b = (c', b') ->
    step (c, b)
      ((if is_accepted (status c')
        then set_threads (S (to_post c)) (posted c) (pumps c) (as1 ++ as2) c'
        else set_scheduled false (set_threads (to_post c) (posted c) (pumps c) (as1 ++ as2) c')), b').

(** ** Several channels on one budget *)

Inductive sys_step : list Channel * ChannelBudget -> list Channel * ChannelBudget -> Prop :=
| channel_step i cs b c c' b' :
    cs !! i = Some c -> step (c, b) (c', b') -> sys_step (cs, b) (<[i := c']> cs, b').

(** ** Invariant of one channel *)

Definition isum (l : list Item) : Z := fold_right (fun it n => item_bytes it + n) 0 l.

Definition pump_items (p : Pump) : list Item :=
  match p with PumpConsume _ it => [it] | _ => [] end.

(** Taken out of the queue, not yet released. *)
Definition in_flight (c : Channel) : list Item := List.flat_map pump_items (pumps c) ++ asyncs c.

Definition items (c : Channel) : list Item := queue c ++ deferred c ++ in_flight c.

(** Threads that will look at the queue again. *)
Definition tokens (c : Channel) : nat := to_post c + posted c + length (pumps c) + length (asyncs c).

Record CInv (c : Channel) : Prop := {
  ci_limits : is_u64 (max_bytes c) /\ is_u64 (max_messages c);
  ci_sizes : Forall (fun it => 0 <= item_bytes it) (items c);
  ci_bytes : bytes c = isum (items c);
  ci_messages : messages c = Z.of_nat (length (items c));
  ci_bounds : bytes c <= max_bytes c /\ messages c <= max_messages c;
  ci_stopped : status c <> Accepted -> queue c = [] /\ deferred c = [];
  ci_one : (tokens c <= 1)%nat;
  ci_idle : scheduled c = false -> tokens c = 0%nat;
  ci_awake : status c = Accepted -> queue c <> [] -> scheduled c = true;
  ci_live : status c = Accepted -> scheduled c = true -> tokens c = 1%nat;
  ci_order : status c = Accepted -> entered c = consumed c ++ queue c;
  ci_prefix : consumed c `prefix_of` entered c
}.

Lemma isum_app l1 l2 : isum (l1 ++ l2) = isum l1 + isum l2.
Proof. induction l1 as [|x l1 IH]; simpl; [done|]. lia. Qed.

Lemma isum_nonneg l : Forall (fun it => 0 <= item_bytes it) l -> 0 <= isum l.
Proof. induction 1; simpl; lia. Qed.

Lemma isum_le l1 l2 l3 : Forall (fun it => 0 <= item_bytes it) (l1 ++ l2 ++ l3) ->
  0 <= isum l1 /\ 0 <= isum l2 /\ 0 <= isum l3.
Proof. rewrite !Forall_app. intros (? & ? & ?). auto using isum_nonneg. Qed.

(** The budget covers the channel and stays within its limits. *)
Record BInv (c : Channel) (b : ChannelBudget) : Prop := {
  bi_limits : is_u64 (budget_max_bytes b) /\ is_u64 (budget_max_messages b);
  bi_bytes : bytes c <= budget_bytes b <= budget_max_bytes b;
  bi_messages : messages c <= budget_messages b <= budget_max_messages b
}.

(** A step changes the budget by what it changes in the channel. *)
Definition moved (c : Channel) (b : ChannelBudget) (c' : Channel) (b' : ChannelBudget) : Prop :=
  budget_bytes b' - budget_bytes b = bytes c' - bytes c /\
  budget_messages b' - budget_messages b = messages c' - messages c /\
  budget_max_bytes b' = budget_max_bytes b /\ budget_max_messages b' = budget_max_messages b /\
  budget_bytes b' <= budget_max_bytes b /\ budget_messages b' <= budget_max_messages b.

Lemma u64_sub x y : is_u64 x -> 0 <= y <= x -> u64 (x - y) = x - y.
Proof. intros H1 H2. apply wrap_small. unfold is_u in *. lia. Qed.

Lemma release_all_spec l cb cm b :
  Forall (fun it => 0 <= item_bytes it) l ->
  is_u64 cb -> is_u64 cm -> is_u64 (budget_bytes b) -> is_u64 (budget_messages b) ->
  isum l <= cb -> Z.of_nat (length l) <= cm -> isum l <= budget_bytes b ->
  Z.of_nat (length l) <= budget_messages b ->
  release_all l cb cm b = (cb - isum l, cm - Z.of_nat (length l),
    mkBudget (budget_max_bytes b) (budget_max_messages b) (budget_bytes b - isum l)
      (budget_messages b - Z.of_nat (length l))).
Proof.
  intros Hl. revert cb cm b. induction Hl as [|it l Hit Hl IH]; intros cb cm b H1 H2 H3 H4 H5 H6 H7 H8; simpl.
  { destruct b. simpl. rewrite !Z.sub_0_r. done. }
  pose proof (isum_nonneg _ Hl). simpl in *. unfold Release. rewrite !u64_sub by (done || lia).
  rewrite IH; simpl; unfold is_u in *; try lia.
  f_equal; [f_equal; lia|f_equal; lia].
Qed.

Lemma Stop_spec r c b c' b' :
  CInv c -> BInv c b -> r <> Accepted -> Stop r c b = (c', b') ->
  CInv c' /\ moved c b c' b' /\ BInv c' b'.
Proof.
  intros HI HB Hr. unfold Stop. destruct (status c) eqn:Hst; cbn [is_accepted negb].
  2-4: intros [= <- <-]; split; [done|]; split; [|done]; destruct HB; unfold moved; lia.
  pose proof HI as [[Hl1 Hl2] Hsz Hby Hms [Hb1 Hb2] Hsp H1 H2 H3 H4 H5 H6]. pose proof HB as [[Hm1 Hm2] Hbb Hbm].
  unfold items in *. pose proof (isum_le _ _ _ Hsz) as (Hq & Hd & Hf).
  rewrite !isum_app in Hby. rewrite !length_app in Hms. rewrite !Forall_app in Hsz. destruct Hsz as (Sq & Sd & Sf).
  rewrite release_all_spec by (done || unfold is_u in *; lia).
  rewrite release_all_spec by (done || (simpl; unfold is_u in *; lia)). simpl. intros [= <- <-].
  split; [|split; [unfold moved; simpl; lia|split; simpl; [done|lia|lia]]].
  split; unfold items, tokens, in_flight in *; simpl; auto; try done; try lia.
Qed.

(** The totals of a channel as sums over its four places. *)
Ltac totals :=
  unfold items, tokens, in_flight in *; simpl in *;
  rewrite ?List.flat_map_app, ?Forall_app, ?isum_app, ?length_app in *; simpl in *;
  rewrite ?List.flat_map_app, ?Forall_app, ?isum_app, ?length_app, ?Forall_cons, ?Forall_nil in *; simpl in *.

Lemma Reserve_spec n b b' : is_u64 (budget_max_bytes b) -> 0 <= budget_bytes b <= budget_max_bytes b ->
  Reserve n b = Some b' ->
  budget_bytes b' = budget_bytes b + n /\ budget_messages b' = budget_messages b + 1 /\
  budget_max_bytes b' = budget_max_bytes b /\ budget_max_messages b' = budget_max_messages b /\
  budget_bytes b' <= budget_max_bytes b /\ budget_messages b' <= budget_max_messages b.
Proof.
  intros Hm Hb. unfold Reserve. destruct (_ || _) eqn:E; [done|]. bool_hyps. intros [= <-]. simpl.
  rewrite u64_sub in * by (done || lia). lia.
Qed.

Lemma Send_spec m n d c b r c' b' :
  CInv c -> BInv c b -> is_u64 n -> Send m n d c b = (r, c', b') ->
  CInv c' /\ moved c b c' b' /\ BInv c' b'.
Proof.
  intros HI HB Hn. assert (CInv c /\ moved c b c b /\ BInv c b) as Hsame.
  { split; [done|]. split; [|done]. destruct HB. unfold moved. lia. }
  unfold Send. destruct (status c) eqn:Hst; cbn [is_accepted negb]; [|by intros [= <- <- <-]..].
  destruct (_ || _) eqn:Hfull; [by intros [= <- <- <-]|]. bool_hyps.
  destruct (Reserve n b) as [b1|] eqn:Hres; [|by intros [= <- <- <-]]. intros [= <- <- <-]. clear Hsame.
  pose proof HI as [[Hl1 Hl2] Hsz Hby Hms [Hb1 Hb2] Hsp H1 H2 H3 H4 H5 H6]. pose proof HB as [[Hm1 Hm2] Hbb Hbm].
  pose proof (isum_nonneg _ Hsz). rewrite <- Hby in *. unfold is_u in Hn.
  rewrite u64_sub in * by (done || lia).
  apply Reserve_spec in Hres as (E1 & E2 & E3 & E4 & E5 & E6); [|done|lia].
  specialize (H5 Hst). set (it := mkItem m n) in *.
  assert (0 <= item_bytes it) as Hit by (simpl; lia).
  set (defer := match d with Deferred => negb (ready c) | _ => false end).
  set (opening := match d with OpenGate => true | _ => false end).
  set (q2 := (if defer then queue c else queue c ++ [it]) ++ (if opening then _ else [])).
  assert (queue c = [] \/ q2 <> []) as Hq2.
  { destruct (queue c); [by left|right]. subst q2. by destruct defer. }
  split; [|split; [unfold moved; simpl; lia|split; simpl; rewrite ?E3, ?E4; done || lia]].
  split; simpl; auto; try done.
  - subst q2. destruct defer, opening; totals; tauto.
  - subst q2. destruct defer, opening; totals; lia.
  - subst q2. destruct defer, opening; totals; lia.
  - lia.
  - unfold tokens in *. simpl. destruct (scheduled c); simpl; [lia|]. rewrite (H2 eq_refl) in *.
    specialize (H2 eq_refl). destruct q2; simpl; lia.
  - unfold tokens in *. simpl. destruct (scheduled c); simpl; [done|]. destruct q2; simpl; [|done]. auto.
  - intros _ Hne. destruct (scheduled c); [done|]. by destruct q2.
  - unfold tokens in *. simpl. destruct (scheduled c); simpl; [auto|]. destruct q2; simpl; [done|].
    specialize (H2 eq_refl). lia.
  - intros _. rewrite H5. subst q2. destruct defer; by rewrite <- ?app_assoc.
  - by apply prefix_app_r.
Qed.

(** Taking the front item: it moves from the queue to the consumer. *)
Lemma take_front_spec c it c' : take_front c = (Some it, c') ->
  exists rest, queue c = it :: rest /\ status c = Accepted /\
    c' = mkChannel (max_bytes c) (max_messages c) (bytes c) (messages c) rest (deferred c) (scheduled c)
         (ready c) (status c) (is_async c) (to_post c) (posted c) (pumps c) (asyncs c)
         (entered c) (consumed c ++ [it]).
Proof.
  unfold take_front. destruct (queue c) as [|x rest]; [done|].
  destruct (status c) eqn:E; try done. intros [= <- <-]. by exists rest.
Qed.

Lemma take_front_none c c' : take_front c = (None, c') ->
  c' = set_scheduled false c /\ (status c <> Accepted \/ queue c = []).
Proof.
  unfold take_front. destruct (queue c) as [|x rest]; [intros [= <-]; by split; [|right]|].
  destruct (status c) eqn:E; try done; intros [= <-]; (split; [done|by left]).
Qed.

(** Ending a consumption gives its bytes back. *)
Lemma finish_spec it c b c' b' :
  BInv c b -> is_u64 (max_bytes c) -> is_u64 (max_messages c) ->
  0 <= item_bytes it <= bytes c -> 1 <= messages c ->
  bytes c <= max_bytes c -> messages c <= max_messages c ->
  finish it c b = (c', b') ->
  bytes c' = bytes c - item_bytes it /\ messages c' = messages c - 1 /\ moved c b c' b' /\ BInv c' b' /\
  c' = mkChannel (max_bytes c) (max_messages c) (bytes c - item_bytes it) (messages c - 1)
     (queue c) (deferred c) (scheduled c) (ready c) (status c) (is_async c)
     (to_post c) (posted c) (pumps c) (asyncs c) (entered c) (consumed c).
Proof.
  intros [[Hm1 Hm2] Hbb Hbm] H1 H2 H3 H4 H5 H6. unfold finish, Release.
  rewrite !u64_sub by (unfold is_u in *; lia). intros [= <- <-]. simpl.
  split; [done|]. split; [done|]. split; [unfold moved; simpl; lia|]. split; [|done].
  split; simpl; [done|lia|lia].
Qed.

(** A thread outside the lock holds the only token. *)
Lemma token_scheduled c : CInv c -> (0 < tokens c)%nat -> scheduled c = true /\ tokens c = 1%nat.
Proof.
  intros [_ _ _ _ _ _ H1 H2 _ _ _ _] Ht. destruct (scheduled c); [split; [done|lia]|].
  specialize (H2 eq_refl). lia.
Qed.

(** The token moves, nothing else changes. *)
Lemma set_threads_CInv tp po ps asy c :
  CInv c -> (0 < tokens c)%nat -> (tp + po + length ps + length asy = 1)%nat ->
  List.flat_map pump_items ps ++ asy = in_flight c -> CInv (set_threads tp po ps asy c).
Proof.
  intros HI Ht Htok Hfl. destruct (token_scheduled c HI Ht) as [Hs H1t].
  pose proof HI as [Hl Hsz Hby Hms Hbd Hsp H1 H2 H3 H4 H5 H6].
  split; auto; unfold items, tokens, in_flight in *; simpl; rewrite ?Hfl; auto; try lia; congruence.
Qed.

(** The pump's critical section with nothing to take: it gives up the token. *)
Lemma pump_empty_CInv ps1 k ps2 c c' : CInv c -> pumps c = ps1 ++ PumpTake k :: ps2 ->
  take_front c = (None, c') -> CInv (set_threads (to_post c) (posted c) (ps1 ++ ps2) (asyncs c) c').
Proof.
  intros HI Hps E. apply take_front_none in E as [-> Hq].
  assert (0 < tokens c)%nat as Ht by (unfold tokens; rewrite Hps, length_app; simpl; lia).
  destruct (token_scheduled c HI Ht) as [Hs H1t].
  pose proof HI as [Hl Hsz Hby Hms Hbd Hsp H1 H2 H3 H4 H5 H6].
  split; auto; unfold items, tokens, in_flight in *; rewrite ?Hps in *; totals; auto; try lia; try done.
  intros ? Hne. destruct Hq; done.
Qed.

(** Taking an item: the queue's item becomes the token's item. *)
Lemma pump_take_CInv c it rest tp po ps asy :
  CInv c -> queue c = it :: rest -> status c = Accepted -> (0 < tokens c)%nat ->
  (tp + po + length ps + length asy = 1)%nat ->
  List.flat_map pump_items ps ++ asy = [it] -> in_flight c = [] ->
  CInv (set_threads tp po ps asy
    (mkChannel (max_bytes c) (max_messages c) (bytes c) (messages c) rest (deferred c) (scheduled c)
         (ready c) (status c) (is_async c) (to_post c) (posted c) (pumps c) (asyncs c)
         (entered c) (consumed c ++ [it]))).
Proof.
  intros HI Hq Hst Ht Htok Hfl Hnil. destruct (token_scheduled c HI Ht) as [Hs H1t].
  match goal with |- CInv ?x => set (c' := x) end.
  assert (items c = (it :: rest) ++ deferred c) as Hi by (unfold items; by rewrite Hq, Hnil, app_nil_r).
  assert (items c' = rest ++ deferred c ++ [it]) as Hi' by (unfold items, in_flight; simpl; by rewrite Hfl).
  assert (tokens c' = 1%nat) as Htk by (unfold tokens; simpl; lia).
  destruct HI as [Hl Hsz Hby Hms Hbd Hsp H1 H2 H3 H4 H5 H6]. specialize (H5 Hst).
  rewrite Hi in *. rewrite Forall_app, Forall_cons in Hsz. rewrite isum_app in Hby. rewrite length_app in Hms.
  simpl in Hby, Hms.
  split; rewrite ?Hi', ?Htk; simpl; auto; try congruence.
  - rewrite !Forall_app, Forall_singleton. tauto.
  - rewrite !isum_app. simpl. lia.
  - rewrite !length_app. simpl. lia.
  - intros _. by rewrite H5, Hq, <- app_assoc.
  - rewrite H5, Hq. exists rest. by rewrite <- app_assoc.
Qed.

(** Ending a consumption. *)
Lemma finish_CInv it c tp po ps asy :
  CInv c -> (0 < tokens c)%nat -> (tp + po + length ps + length asy = 1)%nat ->
  List.flat_map pump_items ps ++ asy = [] -> in_flight c = [it] ->
  CInv (set_threads tp po ps asy
    (mkChannel (max_bytes c) (max_messages c) (bytes c - item_bytes it) (messages c - 1)
     (queue c) (deferred c) (scheduled c) (ready c) (status c) (is_async c)
     (to_post c) (posted c) (pumps c) (asyncs c) (entered c) (consumed c))).
Proof.
  intros HI Ht Htok Hfl Hone. destruct (token_scheduled c HI Ht) as [Hs H1t].
  match goal with |- CInv ?x => set (c' := x) end.
  assert (items c = queue c ++ deferred c ++ [it]) as Hi by (unfold items; by rewrite Hone).
  assert (items c' = queue c ++ deferred c) as Hi'
    by (unfold items, in_flight; simpl; by rewrite Hfl, app_nil_r).
  assert (tokens c' = 1%nat) as Htk by (unfold tokens; simpl; lia).
  destruct HI as [Hl Hsz Hby Hms [Hb1 Hb2] Hsp H1 H2 H3 H4 H5 H6].
  rewrite Hi in *. rewrite !Forall_app, Forall_singleton in Hsz. rewrite !isum_app in Hby.
  rewrite !length_app in Hms. simpl in Hby, Hms.
  split; rewrite ?Hi', ?Htk; simpl; auto; try congruence.
  - rewrite Forall_app. tauto.
  - rewrite isum_app. lia.
  - rewrite length_app. lia.
  - lia.
Qed.

(** The only token pins down what is in flight. *)
Lemma one_pump c ps1 p ps2 : CInv c -> pumps c = ps1 ++ p :: ps2 ->
  ps1 = [] /\ ps2 = [] /\ to_post c = 0%nat /\ posted c = 0%nat /\ asyncs c = [] /\
  in_flight c = pump_items p /\ (0 < tokens c)%nat.
Proof.
  intros [_ _ _ _ _ _ H1 _ _ _ _ _] Hps. unfold tokens, in_flight in *. rewrite Hps in *.
  rewrite length_app in *. simpl in *.
  destruct ps1; [|simpl in *; lia]. destruct ps2; [|simpl in *; lia]. destruct (asyncs c); [|simpl in *; lia].
  simpl in *. rewrite !app_nil_r. repeat split; lia.
Qed.

Lemma one_async c as1 it as2 : CInv c -> asyncs c = as1 ++ it :: as2 ->
  as1 = [] /\ as2 = [] /\ to_post c = 0%nat /\ posted c = 0%nat /\ pumps c = [] /\
  in_flight c = [it] /\ (0 < tokens c)%nat.
Proof.
  intros [_ _ _ _ _ _ H1 _ _ _ _ _] Has. unfold tokens, in_flight in *. rewrite Has in *.
  rewrite length_app in *. simpl in *.
  destruct as1; [|simpl in *; lia]. destruct as2; [|simpl in *; lia]. destruct (pumps c); [|simpl in *; lia].
  simpl in *. repeat split; lia.
Qed.

(** What is in flight is covered by the channel's counters. *)
Lemma in_flight_counted c it : CInv c -> in_flight c = [it] ->
  0 <= item_bytes it <= bytes c /\ 1 <= messages c.
Proof.
  intros [_ Hsz Hby Hms _ _ _ _ _ _ _ _] Hone. unfold items in *. rewrite Hone in *.
  rewrite !Forall_app, Forall_singleton in Hsz. destruct Hsz as (Sq & Sd & Sf).
  rewrite !isum_app in Hby. rewrite !length_app in Hms. simpl in *.
  pose proof (isum_nonneg _ Sq). pose proof (isum_nonneg _ Sd). lia.
Qed.

Lemma finish_ok it c b c' b' :
  CInv c -> BInv c b -> in_flight c = [it] -> finish it c b = (c', b') ->
  moved c b c' b' /\ BInv c' b' /\
  c' = mkChannel (max_bytes c) (max_messages c) (bytes c - item_bytes it) (messages c - 1)
     (queue c) (deferred c) (scheduled c) (ready c) (status c) (is_async c)
     (to_post c) (posted c) (pumps c) (asyncs c) (entered c) (consumed c).
Proof.
  intros HI HB Hone E. destruct (in_flight_counted c it HI Hone).
  destruct HI as [[? ?] _ _ _ [? ?] _ _ _ _ _ _ _].
  destruct (finish_spec it c b c' b') as (_ & _ & ? & ? & ?); auto.
Qed.

(** [Stop] does not look at the threads, and they may leave a stopped channel. *)
Lemma Stop_threads r tp po ps asy c b :
  Stop r (set_threads tp po ps asy c) b =
  (set_threads tp po ps asy (Stop r c b).1, (Stop r c b).2).
Proof.
  unfold Stop. cbn [set_threads status queue deferred bytes messages]. destruct (is_accepted (status c)); [|done].
  cbn [negb]. destruct (release_all (queue c) (bytes c) (messages c) b) as [[? ?] ?].
  by destruct (release_all (deferred c) _ _ _) as [[? ?] ?].
Qed.

Lemma Stop_status r c b : r <> Accepted -> status (Stop r c b).1 <> Accepted.
Proof.
  intros Hr. unfold Stop. destruct (status c) eqn:E; cbn [is_accepted negb fst]; rewrite ?E; try done.
  destruct (release_all (queue c) (bytes c) (messages c) b) as [[? ?] ?].
  by destruct (release_all (deferred c) _ _ _) as [[? ?] ?].
Qed.

Lemma Stop_frame r c b : in_flight (Stop r c b).1 = in_flight c /\ tokens (Stop r c b).1 = tokens c.
Proof.
  unfold Stop. destruct (negb _); [done|].
  destruct (release_all (queue c) (bytes c) (messages c) b) as [[? ?] ?].
  by destruct (release_all (deferred c) _ _ _) as [[? ?] ?].
Qed.

Lemma stopped_threads_CInv tp po ps asy c :
  CInv c -> status c <> Accepted -> (tp + po + length ps + length asy <= tokens c)%nat ->
  List.flat_map pump_items ps ++ asy = in_flight c -> CInv (set_threads tp po ps asy c).
Proof.
  intros [Hl Hsz Hby Hms Hbd Hsp H1 H2 H3 H4 H5 H6] Hst Htok Hfl.
  split; auto; unfold items, tokens, in_flight in *; simpl; rewrite ?Hfl; auto; try lia; try done.
  intros Hs. specialize (H2 Hs). lia.
Qed.

(** Leaving the pump or failing to post, then stopping. *)
Lemma leave_and_stop r tp po ps asy c b c' b' :
  CInv c -> BInv c b -> r <> Accepted -> (tp + po + length ps + length asy <= tokens c)%nat ->
  List.flat_map pump_items ps ++ asy = in_flight c ->
  Stop r (set_threads tp po ps asy c) b = (c', b') -> CInv c' /\ moved c b c' b' /\ BInv c' b'.
Proof.
  intros HI HB Hr Htok Hfl. rewrite Stop_threads. intros [= <- <-].
  pose proof (Stop_status r c b Hr) as Hst. destruct (Stop_frame r c b) as [Hff Htt].
  destruct (Stop r c b) as [c1 b1] eqn:E. simpl in *.
  destruct (Stop_spec r c b c1 b1 HI HB Hr E) as (HI1 & Hm & HB1).
  split; [apply stopped_threads_CInv; auto; congruence || lia|]. split; [done|]. by destruct HB1.
Qed.

(** The last consumption of a stopped channel. *)
Lemma finish_stopped_CInv it c :
  CInv c -> status c <> Accepted -> in_flight c = [it] ->
  CInv (set_scheduled false (set_threads 0 0 [] []
    (mkChannel (max_bytes c) (max_messages c) (bytes c - item_bytes it) (messages c - 1)
     (queue c) (deferred c) (scheduled c) (ready c) (status c) (is_async c)
     (to_post c) (posted c) (pumps c) (asyncs c) (entered c) (consumed c)))).
Proof.
  intros [Hl Hsz Hby Hms [Hb1 Hb2] Hsp H1 H2 H3 H4 H5 H6] Hst Hone.
  destruct (Hsp Hst) as [Hq Hd]. unfold items in *. rewrite Hone, Hq, Hd in *. simpl in *.
  rewrite Forall_singleton in Hsz.
  split; unfold items, tokens, in_flight; simpl; rewrite ?Hq, ?Hd; simpl; auto; try done; lia.
Qed.

Lemma step_spec c b c' b' :
  CInv c -> BInv c b -> step (c, b) (c', b') -> CInv c' /\ moved c b c' b' /\ BInv c' b'.
Proof.
  intros HI HB Hs. assert (moved c b c b) as Hmv by (destruct HB; unfold moved; lia).
  inversion Hs as [m n d ? ? r ? ? Hn E|r ? ? ? ? Hr E|? ?|? ? n Htp|? ? n ? ? Htp E|? ? n Hpo|
    ? ? ps1 k ps2 c1 Hps E|? ? ps1 k ps2 it c1 Hps E Has|? ? ps1 k ps2 it c1 Hps E Has|
    ? ? ps1 k it ps2 c1 ? Hps E|? ? ps1 k it ps2 c1 ? Hps E|? ? ps1 ps2 ? ? Hps E|? ? as1 it as2 c1 ? Has E]; subst.
  - by eapply Send_spec.
  - eapply Stop_spec; [done|done| |done]. by destruct Hr as [-> | ->].
  - split; [|by split; [|destruct HB]]. destruct HI. by split.
  - split; [|by split; [|destruct HB]]. pose proof (ci_one _ HI). unfold tokens in *.
    apply set_threads_CInv; auto; unfold tokens; lia.
  - eapply leave_and_stop; [done|done| | |done|done]; [done|]. unfold tokens. lia.
  - split; [|by split; [|destruct HB]]. pose proof (ci_one _ HI). unfold tokens in *.
    apply set_threads_CInv; auto; unfold tokens; rewrite ?length_app; simpl; [lia|lia|].
    unfold in_flight. by rewrite List.flat_map_app, app_nil_r.
  - split; [by eapply pump_empty_CInv|]. apply take_front_none in E as [-> _].
    split; [by destruct HB|by destruct HB].
  - destruct (one_pump c ps1 _ ps2 HI Hps) as (-> & -> & E1 & E2 & E3 & E4 & E5).
    apply take_front_spec in E as (rest & Hq & Hst & ->).
    split; [|by split; [|destruct HB]]. cbn [pumps asyncs to_post posted app].
    apply pump_take_CInv; auto; rewrite ?E1, ?E2, ?E3; simpl; auto.
  - destruct (one_pump c ps1 _ ps2 HI Hps) as (-> & -> & E1 & E2 & E3 & E4 & E5).
    apply take_front_spec in E as (rest & Hq & Hst & ->).
    split; [|by split; [|destruct HB]]. cbn [pumps asyncs to_post posted app].
    apply pump_take_CInv; auto; rewrite ?E1, ?E2, ?E3; simpl; auto.
  - destruct (one_pump c ps1 _ ps2 HI Hps) as (-> & -> & E1 & E2 & E3 & E4 & E5).
    destruct (finish_ok it c b c1 b' HI HB E4 E) as (Hm & Hb & ->).
    destruct (S k <? kBatch)%nat; (split; [|by split; [|destruct Hb]]);
      apply finish_CInv; auto; rewrite ?E1, ?E2, ?E3; simpl; auto.
  - destruct (one_pump c ps1 _ ps2 HI Hps) as (-> & -> & E1 & E2 & E3 & E4 & E5).
    destruct (finish_ok it c b c1 b' HI HB E4 E) as (Hm & Hb & ->).
    split; [|by split; [|destruct Hb]]. apply finish_CInv; auto; rewrite ?E1, ?E2, ?E3; simpl; auto.
  - destruct (one_pump c ps1 _ ps2 HI Hps) as (-> & -> & E1 & E2 & E3 & E4 & E5).
    eapply leave_and_stop; [done|done| | | |done]; [done|unfold tokens; simpl; lia|]. by rewrite E4, E3.
  - destruct (one_async c as1 it as2 HI Has) as (-> & -> & E1 & E2 & E3 & E4 & E5).
    destruct (finish_ok it c b c1 b' HI HB E4 E) as (Hm & Hb & ->). cbn [status].
    assert (status c = Accepted \/ status c <> Accepted) as [Hst|Hst] by (destruct (status c); auto).
    + rewrite Hst. cbn [is_accepted]. split; [|by split; [|destruct Hb]]. rewrite <- Hst.
      apply finish_CInv; auto; rewrite ?E1, ?E2, ?E3; simpl; auto.
    + assert (is_accepted (status c) = false) as -> by (by destruct (status c)).
      split; [|by split; [|destruct Hb]]. rewrite E1, E2, E3. by apply finish_stopped_CInv.
Qed.

(** ** The system *)

Definition total (f : Channel -> Z) (cs : list Channel) : Z := fold_right (fun c n => f c + n) 0 cs.

Record SInv (cs : list Channel) (b : ChannelBudget) : Prop := {
  sv_channels : Forall CInv cs;
  sv_limits : is_u64 (budget_max_bytes b) /\ is_u64 (budget_max_messages b);
  sv_bytes : budget_bytes b = total bytes cs;
  sv_messages : budget_messages b = total messages cs;
  sv_bounds : budget_bytes b <= budget_max_bytes b /\ budget_messages b <= budget_max_messages b
}.

Lemma total_insert f cs i c c' : cs !! i = Some c ->
  total f (<[i := c']> cs) = total f cs - f c + f c'.
Proof.
  revert i. induction cs as [|x cs IH]; intros [|i]; simpl; try done.
  - intros [= ->]. lia.
  - intros H. rewrite IH by done. lia.
Qed.

Lemma CInv_nonneg c : CInv c -> 0 <= bytes c /\ 0 <= messages c.
Proof. intros [_ Hsz -> -> _ _ _ _ _ _ _ _]. split; [by apply isum_nonneg|lia]. Qed.

Lemma total_ge f cs i c : (forall c, CInv c -> 0 <= f c) -> Forall CInv cs -> cs !! i = Some c ->
  f c <= total f cs.
Proof.
  intros Hf. revert i. induction cs as [|x cs IH]; intros i Hcs; [done|].
  apply Forall_cons in Hcs as [Hx Hcs]. pose proof (Hf x Hx).
  assert (0 <= total f cs) by (clear -Hf Hcs; induction Hcs as [|y l Hy Hl IHl]; simpl; [lia|pose proof (Hf y Hy); lia]).
  destruct i as [|i]; simpl; [intros [= ->]; lia|]. intros Hi. specialize (IH i Hcs Hi). lia.
Qed.

Lemma sys_step_inv cs b cs' b' : sys_step (cs, b) (cs', b') -> SInv cs b -> SInv cs' b'.
Proof.
  intros Hs [Hcs [Hl1 Hl2] Hb Hm [Hb1 Hb2]]. inversion Hs as [i ? ? c c' ? Hi Hst]; subst.
  pose proof (total_ge bytes cs i c (fun c H => proj1 (CInv_nonneg c H)) Hcs Hi).
  pose proof (total_ge messages cs i c (fun c H => proj2 (CInv_nonneg c H)) Hcs Hi).
  assert (CInv c) as HI by (by eapply Forall_lookup_1).
  assert (BInv c b) as HB by (split; [done|lia|lia]).
  destruct (step_spec c b c' b' HI HB Hst) as (HI' & (M1 & M2 & M3 & M4 & M5 & M6) & _).
  split; [by apply Forall_insert|by rewrite M3, M4|..].
  - rewrite (total_insert bytes cs i c c' Hi). lia.
  - rewrite (total_insert messages cs i c c' Hi). lia.
  - rewrite M3, M4. lia.
Qed.

(** Open channels and an unused budget. *)
Definition init_ok (cs : list Channel) (b : ChannelBudget) : Prop :=
  Forall (fun c => exists mb mm gated async, is_u64 mb /\ is_u64 mm /\ c = channel_init mb mm gated async) cs /\
  is_u64 (budget_max_bytes b) /\ is_u64 (budget_max_messages b) /\
  budget_bytes b = 0 /\ budget_messages b = 0.

Lemma channel_init_inv cs b : init_ok cs b -> SInv cs b.
Proof.
  intros (Hcs & H1 & H2 & H3 & H4).
  assert (total bytes cs = 0 /\ total messages cs = 0 /\ Forall CInv cs) as (Hb & Hm & HI).
  { induction Hcs as [|c cs (mb & mm & g & a & Hmb & Hmm & ->) Hcs IH]; [split; [done|split; [done|constructor]]|].
    destruct IH as (E1 & E2 & E3). simpl. split; [lia|]. split; [lia|]. constructor; [|done].
    split; unfold items, tokens, in_flight, is_u in *; simpl; auto; try done; lia. }
  split; auto; unfold is_u in *; lia.
Qed.

Lemma channel_reachable_inv cs0 b0 cs b :
  init_ok cs0 b0 -> rtc sys_step (cs0, b0) (cs, b) -> SInv cs b /\
    budget_max_bytes b = budget_max_bytes b0 /\ budget_max_messages b = budget_max_messages b0.
Proof.
  intros H0%channel_init_inv Hr. remember (cs0, b0) as s0 eqn:E0. remember (cs, b) as s eqn:E.
  revert cs0 b0 cs b E0 E H0. induction Hr as [s|s [cs1 b1] s' Hst Hr IH]; intros cs0 b0 cs b -> E H0.
  - by injection E as <- <-.
  - pose proof (sys_step_inv _ _ _ _ Hst H0) as H1.
    destruct (IH cs1 b1 cs b eq_refl E H1) as (? & -> & ->). split; [done|].
    inversion Hst as [i ? ? c c' ? Hi Hstp]; subst. destruct H0 as [Hcs [Hl1 Hl2] Hb Hm [Hb1 Hb2]].
    pose proof (total_ge bytes _ i c (fun c H => proj1 (CInv_nonneg c H)) Hcs Hi).
    pose proof (total_ge messages _ i c (fun c H => proj2 (CInv_nonneg c H)) Hcs Hi).
    destruct (step_spec c b0 c' b1) as (_ & (_ & _ & ? & ? & _) & _); auto;
      [by eapply Forall_lookup_1|split; [done|lia|lia]].
Qed.

(** (C27) Channel accounting.  In every state reachable by any interleaving of
    sends, pumps, completions and stops over any channels sharing a budget:
    each channel's byte and message counts are exactly the items queued,
    deferred or being consumed, and within its limits; the budget counts
    exactly the sum over the channels and never exceeds its limits, so no
    unsigned subtraction wraps; and a stopped channel with no consumption in
    progress has given everything back. *)
Theorem channel_accounting cs0 b0 cs b :
  init_ok cs0 b0 -> rtc sys_step (cs0, b0) (cs, b) ->
  budget_bytes b = total bytes cs /\ budget_messages b = total messages cs /\
  budget_bytes b <= budget_max_bytes b0 /\ budget_messages b <= budget_max_messages b0 /\
  Forall (fun c =>
    bytes c = isum (queue c ++ deferred c ++ in_flight c) /\
    messages c = Z.of_nat (length (queue c ++ deferred c ++ in_flight c)) /\
    bytes c <= max_bytes c /\ messages c <= max_messages c /\
    (status c <> Accepted -> in_flight c = [] -> bytes c = 0 /\ messages c = 0)) cs.
Proof.
  intros H0 Hr. destruct (channel_reachable_inv cs0 b0 cs b H0 Hr) as ([Hcs _ Hb Hm [Hb1 Hb2]] & E1 & E2).
  rewrite E1, E2 in *. repeat split; auto. eapply Forall_impl; [exact Hcs|].
  intros c [_ _ Hby Hms [? ?] Hsp _ _ _ _ _ _]. repeat split; auto;
    destruct (Hsp ltac:(assumption)) as [Hq Hd]; rewrite ?Hby, ?Hms; unfold items; by rewrite Hq, Hd, H3.
Qed.

(** Serial, ordered delivery without lost wake-ups.  In every reachable
    state and for every channel: at most one thread is posting, pumping or
    consuming, so the consumer is never entered concurrently; the consumer has
    received exactly the oldest items that entered the queue, in order; and an
    open channel with queued items always has a thread that will come back for
    them. *)
Theorem channel_delivery cs0 b0 cs b :
  init_ok cs0 b0 -> rtc sys_step (cs0, b0) (cs, b) ->
  Forall (fun c =>
    (to_post c + posted c + length (pumps c) + length (asyncs c) <= 1)%nat /\
    consumed c `prefix_of` entered c /\
    (status c = Accepted -> entered c = consumed c ++ queue c) /\
    (status c = Accepted -> queue c <> [] ->
       (to_post c + posted c + length (pumps c) + length (asyncs c))%nat = 1%nat)) cs.
Proof.
  intros H0 Hr. destruct (channel_reachable_inv cs0 b0 cs b H0 Hr) as ([Hcs _ _ _ _] & _).
  eapply Forall_impl; [exact Hcs|]. intros c [_ _ _ _ _ _ H1 _ H3 H4 H5 H6].
  split; [done|]. split; [done|]. split; [done|]. intros Hs Hq. apply H4; auto.
Qed.

End Channel.

(** ** Witnesses *)

Definition ex_budget : ChannelBudget := mkBudget 100 10 0 0.
Definition ex_channel : @Channel Z := channel_init 50 4 true false.

Lemma ex_channel_init : init_ok [ex_channel] ex_budget.
Proof.
  split; [|split; [simpl; words|split; [simpl; words|split; reflexivity]]].
  constructor; [|constructor]. exists 50, 4, true, false. repeat split; words.
Qed.

(** One deferred message, then the message that opens the gate. *)
Definition ex_sent : (@Channel Z * ChannelBudget) :=
  Eval vm_compute in
    let '(_, c1, b1) := Send 1 20 Deferred ex_channel ex_budget in
    let '(_, c2, b2) := Send 2 30 OpenGate c1 b1 in (c2, b2).

Lemma ex_channel_run : rtc sys_step ([ex_channel], ex_budget) ([ex_sent.1], ex_sent.2).
Proof.
  eapply rtc_l.
  { eapply (channel_step 0); [reflexivity|]. eapply (step_send 1 20 Deferred); [words|reflexivity]. }
  eapply rtc_l.
  { eapply (channel_step 0); [reflexivity|]. eapply (step_send 2 30 OpenGate); [words|reflexivity]. }
  apply rtc_refl.
Qed.

Lemma channel_accounting_witness :
  budget_bytes ex_sent.2 = 50 /\ budget_bytes ex_sent.2 <= 100.
Proof.
  split; [reflexivity|].
  apply (channel_accounting [ex_channel] ex_budget [ex_sent.1] ex_sent.2 ex_channel_init ex_channel_run).
Defined.

Lemma channel_delivery_witness :
  List.map message (entered ex_sent.1) = [2; 1] /\ consumed ex_sent.1 `prefix_of` entered ex_sent.1.
Proof.
  split; [reflexivity|].
  pose proof (channel_delivery [ex_channel] ex_budget [ex_sent.1] ex_sent.2 ex_channel_init ex_channel_run) as H.
  apply Forall_cons in H as [(_ & H & _) _]. exact H.
Defined.
