(* ===== verification/Stun.v ===== *)
(** * STUN codec

    Models [protocol::StunCodec] (protocol/ice/stun/Stun.h, Stun.cpp): the
    message parser, the attribute decoders, the integrity and fingerprint
    checks and the message builders.  An [enum class] with a fixed underlying
    type holds every value of that type, so the fields [method], [klass] and
    [family] are integers; the enumerators are given by the inductive types.

    HMAC-SHA1 is OpenSSL's: the class [HmacSha1] is its interface ([None] is a
    null result), with the one documented fact the codec relies on, the size of
    the digest.  A builder that returns [false] leaves its buffer unused, so
    builders return [None] there.  The fields a decoder leaves in its [out]
    argument when it returns [false] are not modelled either. *)
From S2P Require Import Prelude Bytes.

Module StunCodec.

(** ** Stun.h *)

Definition kMagicCookie : Z := 0x2112A442.
Definition kFingerprintXor : Z := 0x5354554e.
Definition kHeaderSize : Z := 20.
Definition kAttrHeaderSize : Z := 4.
Definition kMessageIntegritySize : Z := 20.

Inductive StunClass := Request | Indication | SuccessResponse | ErrorResponse.

Definition class_value (c : StunClass) : Z :=
  match c with Request => 0 | Indication => 1 | SuccessResponse => 2 | ErrorResponse => 3 end.

Inductive StunMethod :=
| Binding | Allocate | Refresh | Send | Data | CreatePermission | ChannelBind.

Definition method_value (m : StunMethod) : Z :=
  match m with
  | Binding => 0x001 | Allocate => 0x003 | Refresh => 0x004 | Send => 0x006 | Data => 0x007
  | CreatePermission => 0x008 | ChannelBind => 0x009
  end.

Inductive AttrType :=
| MAPPED_ADDRESS | USERNAME | MESSAGE_INTEGRITY | ERROR_CODE | UNKNOWN_ATTRIBUTES
| CHANNEL_NUMBER | LIFETIME | XOR_PEER_ADDRESS | DATA | REALM | NONCE | XOR_RELAYED_ADDRESS
| REQUESTED_ADDRESS_FAMILY | REQUESTED_TRANSPORT | MESSAGE_INTEGRITY_SHA256
| XOR_MAPPED_ADDRESS | PRIORITY | USE_CANDIDATE | SOFTWARE | ALTERNATE_SERVER | FINGERPRINT
| ICE_CONTROLLED | ICE_CONTROLLING.

Definition attr_value (t : AttrType) : Z :=
  match t with
  | MAPPED_ADDRESS => 0x0001 | USERNAME => 0x0006 | MESSAGE_INTEGRITY => 0x0008
  | ERROR_CODE => 0x0009 | UNKNOWN_ATTRIBUTES => 0x000A | CHANNEL_NUMBER => 0x000C
  | LIFETIME => 0x000D | XOR_PEER_ADDRESS => 0x0012 | DATA => 0x0013 | REALM => 0x0014
  | NONCE => 0x0015 | XOR_RELAYED_ADDRESS => 0x0016 | REQUESTED_ADDRESS_FAMILY => 0x0017
  | REQUESTED_TRANSPORT => 0x0019 | MESSAGE_INTEGRITY_SHA256 => 0x001C
  | XOR_MAPPED_ADDRESS => 0x0020 | PRIORITY => 0x0024 | USE_CANDIDATE => 0x0025
  | SOFTWARE => 0x8022 | ALTERNATE_SERVER => 0x8023 | FINGERPRINT => 0x8028
  | ICE_CONTROLLED => 0x8029 | ICE_CONTROLLING => 0x802A
  end.
Coercion attr_value : AttrType >-> Z.

#[export] Instance AttrType_eq_dec : EqDecision AttrType.
Proof. solve_decision. Defined.

Inductive IpFamily := IPv4 | IPv6.
Definition family_value (f : IpFamily) : Z := match f with IPv4 => 4 | IPv6 => 6 end.

(** [ip] is a [std::array<uint8_t, 16>]; IPv4 uses the first four bytes. *)
Record XorMappedAddress := mkXorAddress { is_ipv6 : bool; xor_port : Z; xor_ip : list Z }.
Record IpEndpoint := mkEndpoint { family : Z; port : Z; ip : list Z }.
Record AttrView := mkView { av_type : Z; av_len : Z; value_offset : Z }.
Record StunAttribute := mkAttr { attr_type : Z; value : list Z }.

Record StunMessageInfo := mkInfo {
  type_raw : Z;
  length_ : Z;
  magic_cookie : Z;
  txid : list Z;
  method : Z;
  klass : Z;
  attrs : list AttrView;
  raw : cbuf;
  raw_len : Z
}.

Definition info_zero : StunMessageInfo := mkInfo 0 0 0 (repeat 0 12) 0 0 [] None 0.

(** [memcpy(b + off, v, size of v)] *)
Definition write_bytes (b : list Z) (off : Z) (v : list Z) : mres (list Z) :=
  if (0 <=? off) && (off + blen v <=? blen b)
  then Ret (take (Z.to_nat off) b ++ v ++ drop (Z.to_nat (off + blen v)) b) else Fault.

Definition AttrValue (m : StunMessageInfo) (a : AttrView) : mres (list Z) :=
  match raw m with
  | None => Ret []
  | Some b =>
    if value_offset a + av_len a >? raw_len m then Ret []
    else read_bytes b (value_offset a) (av_len a)
  end.

Fixpoint find_attr (l : list AttrView) (t : Z) : option AttrView :=
  match l with
  | [] => None
  | a :: l =>
    if av_type a =? t then Some a else
    if (av_type a =? MESSAGE_INTEGRITY) && negb (t =? FINGERPRINT) then None
    else find_attr l t
  end.

Definition FindAttr (m : StunMessageInfo) (t : Z) : option AttrView := find_attr (attrs m) t.

Definition HasAttr (m : StunMessageInfo) (t : Z) : bool :=
  match FindAttr m t with Some _ => true | None => false end.

Definition IsBindingRequest (m : StunMessageInfo) : bool :=
  (method m =? method_value Binding) && (klass m =? class_value Request).
Definition IsBindingResponse (m : StunMessageInfo) : bool :=
  (method m =? method_value Binding) && (klass m =? class_value SuccessResponse).
Definition IsBindingErrorResponse (m : StunMessageInfo) : bool :=
  (method m =? method_value Binding) && (klass m =? class_value ErrorResponse).

Record IceRequestParams := mkRequest {
  rq_txid : list Z;
  username : list Z;
  priority : Z;
  controlling : bool;
  tie_breaker : Z;
  use_candidate : bool;
  rq_password : list Z;
  rq_add_fingerprint : bool
}.

Record IceSuccessParams := mkSuccess {
  req : option StunMessageInfo;
  mapped_addr : IpEndpoint;
  sc_password : list Z;
  sc_add_fingerprint : bool
}.

Record StunErrorCode := mkError { code : Z; reason : list Z; unknown_attributes : list Z }.

(** Same bodies as the [Utils] accessors. *)
Definition ReadBE16 := ReadUint16BE.
Definition ReadBE32 := ReadUint32BE.
Definition ReadBE64 := ReadUint64BE.
Definition WriteBE16_at := WriteUint16BE.
Definition WriteBE32_at := WriteUint32BE.

Definition WriteBE16 (out : list Z) (v : Z) : list Z := out ++ [byte_of v 8; byte_of v 0].
Definition WriteBE32 (out : list Z) (v : Z) : list Z :=
  out ++ [byte_of v 24; byte_of v 16; byte_of v 8; byte_of v 0].
Definition WriteBE64 (out : list Z) (v : Z) : list Z :=
  out ++ [byte_of v 56; byte_of v 48; byte_of v 40; byte_of v 32;
          byte_of v 24; byte_of v 16; byte_of v 8; byte_of v 0].

(** [~3u] is a 32-bit constant: the mask also clears bits 32 and above. *)
Definition Pad4 (x : Z) : Z := Z.land (x + 3) 0xFFFFFFFC.

(** ** Stun.cpp: message types, CRC and bounds *)

Definition EncodeType (m c : Z) : Z :=
  let type := Z.land m 0x000F in
  let type := Z.lor type (Z.shiftl (Z.land m 0x0070) 1) in
  let type := Z.lor type (Z.shiftl (Z.land m 0x0F80) 2) in
  let type := Z.lor type (Z.shiftl (Z.land c 0x1) 4) in
  Z.lor type (Z.shiftl (Z.land (Z.shiftr c 1) 0x1) 8).

Definition DecodeType (type_raw : Z) : Z * Z :=
  let m := Z.land type_raw 0x000F in
  let m := Z.lor m (Z.shiftr (Z.land type_raw 0x00E0) 1) in
  let m := Z.lor m (Z.shiftr (Z.land type_raw 0x3E00) 2) in
  let c0 := Z.land (Z.shiftr type_raw 4) 0x1 in
  let c1 := Z.land (Z.shiftr type_raw 8) 0x1 in
  (m, Z.lor (Z.shiftl c1 1) c0).

Definition crc_bit (crc : Z) : Z :=
  let mask := u32 (- Z.land crc 1) in
  Z.lxor (Z.shiftr crc 1) (Z.land 0xEDB88320 mask).

Definition crc_byte (crc d : Z) : Z := Nat.iter 8 crc_bit (Z.lxor crc d).

Definition Crc32 (data : list Z) : Z := u32 (Z.lnot (fold_left crc_byte data 0xFFFFFFFF)).

Definition IsAttrInBounds (m : StunMessageInfo) (a : AttrView) : bool :=
  match raw m with
  | None => false
  | Some _ =>
    if value_offset a >? raw_len m then false else
    if value_offset a + av_len a >? raw_len m then false else true
  end.

Definition FindLastAttr (m : StunMessageInfo) (t : Z) : option AttrView :=
  List.find (fun a => av_type a =? t) (rev (attrs m)).

(** ** Parser *)

Definition IsStun (p : cbuf) : mres bool :=
  match p with
  | None => Ret false
  | Some b =>
    let n := blen b in
    if n <? kHeaderSize then Ret false else
    let! b0 := rd b 0 in
    if negb (Z.land b0 0xC0 =? 0) then Ret false else
    let! cookie := ReadBE32 b 4 in
    if negb (cookie =? kMagicCookie) then Ret false else
    let! len := ReadBE16 b 2 in
    if negb (Z.land len 0x3 =? 0) then Ret false else
    if kHeaderSize + len >? n then Ret false else
    Ret true
  end.

(** The attribute loop of [Parse]; each iteration advances by at least four. *)
Fixpoint parse_attrs (fuel : nat) (b : list Z) (end_ off : Z) (attrs : list AttrView)
    : mres (bool * list AttrView) :=
  if off <? end_ then
    match fuel with
    | O => NoFuel
    | S fuel =>
      if off + kAttrHeaderSize >? end_ then Ret (false, attrs) else
      let! type := ReadBE16 b off in
      let! len := ReadBE16 b (off + 2) in
      let a := mkView type len (u32 (off + kAttrHeaderSize)) in
      let padded := Pad4 len in
      if off + kAttrHeaderSize + padded >? end_ then Ret (false, attrs) else
      parse_attrs fuel b end_ (off + (kAttrHeaderSize + padded)) (attrs ++ [a])
    end
  else Ret (off =? end_, attrs).

Definition Parse (p : cbuf) : mres (bool * StunMessageInfo) :=
  let! ok := IsStun p in
  match ok, p with
  | true, Some b =>
    let! type_raw := ReadBE16 b 0 in
    let! length := ReadBE16 b 2 in
    let! cookie := ReadBE32 b 4 in
    let! txid := read_bytes b 8 12 in
    let '(m, c) := DecodeType type_raw in
    let end_ := kHeaderSize + length in
    let! '(ok, attrs) := parse_attrs (Z.to_nat length) b end_ kHeaderSize [] in
    Ret (ok, mkInfo type_raw length cookie txid m c attrs p (kHeaderSize + length))
  | _, _ => Ret (false, info_zero)
  end.

(** ** Attribute decoders *)

(** The attribute [t] where it is present and inside the message, with the
    message bytes. *)
Definition bounded_attr (m : StunMessageInfo) (t : Z) : option (AttrView * list Z) :=
  match FindAttr m t, raw m with
  | Some a, Some b => if IsAttrInBounds m a then Some (a, b) else None
  | _, _ => None
  end.

Definition DecodeUsername (m : StunMessageInfo) : mres (option (list Z)) :=
  match bounded_attr m USERNAME with
  | None => Ret None
  | Some (a, _) =>
    let! v := AttrValue m a in
    Ret (match v with [] => None | _ => Some v end)
  end.

Definition DecodePriority (m : StunMessageInfo) : mres (option Z) :=
  match bounded_attr m PRIORITY with
  | None => Ret None
  | Some (a, b) =>
    if negb (av_len a =? 4) then Ret None else
    let! v := ReadBE32 b (value_offset a) in Ret (Some v)
  end.

Definition DecodeIceControlling (m : StunMessageInfo) : mres (option Z) :=
  match bounded_attr m ICE_CONTROLLING with
  | None => Ret None
  | Some (a, b) =>
    if negb (av_len a =? 8) then Ret None else
    let! v := ReadBE64 b (value_offset a) in Ret (Some v)
  end.

Definition DecodeIceControlled (m : StunMessageInfo) : mres (option Z) :=
  match bounded_attr m ICE_CONTROLLED with
  | None => Ret None
  | Some (a, b) =>
    if negb (av_len a =? 8) then Ret None else
    let! v := ReadBE64 b (value_offset a) in Ret (Some v)
  end.

Definition cookie_bytes : list Z :=
  [byte_of kMagicCookie 24; byte_of kMagicCookie 16; byte_of kMagicCookie 8; byte_of kMagicCookie 0].

Definition DecodeXorAddress (m : StunMessageInfo) (type : AttrType) : mres (option XorMappedAddress) :=
  if bool_decide (type <> XOR_MAPPED_ADDRESS) && bool_decide (type <> XOR_PEER_ADDRESS) &&
     bool_decide (type <> XOR_RELAYED_ADDRESS) then Ret None else
  match bounded_attr m type with
  | None => Ret None
  | Some (a, b) =>
    let v := value_offset a in
    if av_len a <? 4 then Ret None else
    let! fam := rd b (v + 1) in
    let! xport := ReadBE16 b (v + 2) in
    let port := u16 (Z.lxor xport (u16 (Z.shiftr kMagicCookie 16))) in
    if fam =? 0x01 then
      if negb (av_len a =? 8) then Ret None else
      let! x := read_bytes b (v + 4) 4 in
      Ret (Some (mkXorAddress false port (zip_with Z.lxor x cookie_bytes ++ repeat 0 12)))
    else if fam =? 0x02 then
      if negb (av_len a =? 20) then Ret None else
      let! x := read_bytes b (v + 4) 4 in
      let! y := read_bytes b (v + 8) 12 in
      Ret (Some (mkXorAddress true port
                   (zip_with Z.lxor x cookie_bytes ++ zip_with Z.lxor y (txid m))))
    else Ret None
  end.

Definition DecodeXorMappedAddress (m : StunMessageInfo) : mres (option XorMappedAddress) :=
  DecodeXorAddress m XOR_MAPPED_ADDRESS.

Definition HasUseCandidate (m : StunMessageInfo) : bool :=
  match FindAttr m USE_CANDIDATE with Some _ => true | None => false end.

Definition DecodeErrorCode (m : StunMessageInfo) : mres (option StunErrorCode) :=
  match bounded_attr m ERROR_CODE with
  | None => Ret None
  | Some (a, b) =>
    if av_len a <? 4 then Ret None else
    let v := value_offset a in
    let! v2 := rd b (v + 2) in
    let! num := rd b (v + 3) in
    let cls := Z.land v2 0x07 in
    let! reason := (if av_len a >? 4 then read_bytes b (v + 4) (av_len a - 4) else Ret []) in
    Ret (Some (mkError (u16 (cls * 100 + num)) reason []))
  end.

(** ** Fingerprint and integrity *)

Definition ComputeFingerprint (data : list Z) : Z := Z.lxor (Crc32 data) kFingerprintXor.

Definition VerifyFingerprint (m : StunMessageInfo) : mres bool :=
  match FindLastAttr m FINGERPRINT, raw m with
  | Some a, Some b =>
    if negb (IsAttrInBounds m a) || negb (av_len a =? 4) then Ret false else
    let attr_start := value_offset a - kAttrHeaderSize in
    if negb (attr_start + kAttrHeaderSize + 4 =? raw_len m) then Ret false else
    let! actual := ReadBE32 b (value_offset a) in
    let! covered := read_bytes b 0 attr_start in
    Ret (actual =? ComputeFingerprint covered)
  | _, _ => Ret false
  end.

(** OpenSSL's [HMAC(EVP_sha1(), key, data)]. *)
Class HmacSha1 := {
  HMAC : list Z -> list Z -> option (list Z);
  HMAC_size : forall key data h, HMAC key data = Some h -> length h = 20%nat /\ bytes_ok h
}.

Section Integrity.
Context `{HmacSha1}.

Definition ComputeMessageIntegrity (data key : list Z) : option (list Z) := HMAC key data.

Definition VerifyMessageIntegrity (m : StunMessageInfo) (key : list Z) : mres bool :=
  match bounded_attr m MESSAGE_INTEGRITY with
  | None => Ret false
  | Some (a, b) =>
    if negb (av_len a =? 20) then Ret false else
    let mi_attr_start := value_offset a - kAttrHeaderSize in
    if mi_attr_start + kAttrHeaderSize + 20 >? raw_len m then Ret false else
    let! tmp := read_bytes b 0 mi_attr_start in
    let! tmp := WriteBE16_at tmp 2 (u16 (mi_attr_start + 24 - kHeaderSize)) in
    match ComputeMessageIntegrity tmp key with
    | None => Ret false
    | Some digest =>
      let! actual := read_bytes b (value_offset a) 20 in
      Ret (bool_decide (digest = actual))
    end
  end.

(** ** Builders *)

(** [out = None] is [return false]; [val = None] the null pointer. *)
Definition AppendAttr (out : list Z) (type : Z) (val : cbuf) (len : Z) : mres (option (list Z)) :=
  let out := WriteBE16 (WriteBE16 out type) len in
  let! body :=
    match val with
    | None => Ret (if len >? 0 then None else Some [])
    | Some p => let! v := read_bytes p 0 len in Ret (Some v)
    end in
  Ret (match body with
       | None => None
       | Some v => Some (out ++ v ++ repeat 0 (Z.to_nat (Pad4 len - len)))
       end).

Definition AppendUInt32Attr (out : list Z) (type val : Z) : mres (option (list Z)) :=
  AppendAttr out type (Some (WriteBE32 [] val)) 4.

Definition AppendUInt64Attr (out : list Z) (type val : Z) : mres (option (list Z)) :=
  AppendAttr out type (Some (WriteBE64 [] val)) 8.

Definition AppendUsernameAttr (out username : list Z) : mres (option (list Z)) :=
  AppendAttr out USERNAME (Some username) (u16 (blen username)).

Definition AppendUseCandidateAttr (out : list Z) : mres (option (list Z)) :=
  AppendAttr out USE_CANDIDATE None 0.

Definition EncodeXorAddress (ep : IpEndpoint) (txid : list Z) : option (list Z) :=
  let xport := u16 (Z.lxor (port ep) (u16 (Z.shiftr kMagicCookie 16))) in
  if family ep =? family_value IPv4 then
    Some (WriteBE16 [0; 0x01] xport ++ zip_with Z.lxor (take 4 (ip ep)) cookie_bytes)
  else if family ep =? family_value IPv6 then
    Some (WriteBE16 [0; 0x02] xport ++ zip_with Z.lxor (take 4 (ip ep)) cookie_bytes ++
          zip_with Z.lxor (take 12 (drop 4 (ip ep))) txid)
  else None.

Definition AppendXorMappedAddressAttr (out : list Z) (ep : IpEndpoint) (txid : list Z)
    : mres (option (list Z)) :=
  match EncodeXorAddress ep txid with
  | None => Ret None
  | Some v => AppendAttr out XOR_MAPPED_ADDRESS (Some v) (u16 (blen v))
  end.

Definition UpdateMessageLength (out : list Z) : mres (option (list Z)) :=
  if blen out <? kHeaderSize then Ret None else
  let len := blen out - kHeaderSize in
  if len >? 0xFFFF then Ret None else
  let! out := WriteBE16_at out 2 (u16 len) in
  Ret (Some out).

Definition AppendMessageIntegrityAttr (out key : list Z) : mres (option (list Z)) :=
  let mi_attr_start := blen out in
  let out := WriteBE16 (WriteBE16 out MESSAGE_INTEGRITY) kMessageIntegritySize in
  let out := out ++ repeat 0 20 in
  let! updated := UpdateMessageLength out in
  match updated with
  | None => Ret None
  | Some out =>
    let! covered := read_bytes out 0 mi_attr_start in
    match ComputeMessageIntegrity covered key with
    | None => Ret None
    | Some digest =>
      let! out := write_bytes out (mi_attr_start + kAttrHeaderSize) digest in
      Ret (Some out)
    end
  end.

Definition AppendFingerprintAttr (out : list Z) : mres (option (list Z)) :=
  let fp_attr_start := blen out in
  let out := WriteBE16 (WriteBE16 out FINGERPRINT) 4 in
  let out := out ++ repeat 0 4 in
  let! updated := UpdateMessageLength out in
  match updated with
  | None => Ret None
  | Some out =>
    let! covered := read_bytes out 0 fp_attr_start in
    let! out := WriteBE32_at out (fp_attr_start + kAttrHeaderSize) (ComputeFingerprint covered) in
    Ret (Some out)
  end.

Definition header_bytes (type : Z) (txid : list Z) : list Z :=
  WriteBE32 (WriteBE16 (WriteBE16 [] type) 0) kMagicCookie ++ txid.

Definition BuildBindingRequest (txid : list Z) : list Z :=
  header_bytes (EncodeType (method_value Binding) (class_value Request)) txid.

(** A chain of [if (!Append...(buf)) return false;]. *)
Definition then_append (m : mres (option (list Z))) (k : list Z -> mres (option (list Z)))
    : mres (option (list Z)) :=
  let! r := m in match r with None => Ret None | Some buf => k buf end.

Fixpoint append_attributes (buf : list Z) (l : list StunAttribute) : mres (option (list Z)) :=
  match l with
  | [] => Ret (Some buf)
  | a :: l =>
    then_append (AppendAttr buf (attr_type a) (Some (value a)) (u16 (blen (value a))))
      (fun buf => append_attributes buf l)
  end.

(** The validation loop of [BuildMessage]. *)
Fixpoint check_attributes (body_size : Z) (l : list StunAttribute) : bool :=
  match l with
  | [] => true
  | a :: l =>
    if (attr_type a =? MESSAGE_INTEGRITY) || (attr_type a =? MESSAGE_INTEGRITY_SHA256) ||
       (attr_type a =? FINGERPRINT) || (blen (value a) >? 0xFFFF) then false else
    let body_size := body_size + (4 + Pad4 (blen (value a))) in
    if body_size >? 0xFFFF then false else check_attributes body_size l
  end.

Definition with_integrity (key : list Z) (buf : list Z) : mres (option (list Z)) :=
  match key with [] => Ret (Some buf) | _ => AppendMessageIntegrityAttr buf key end.

Definition with_fingerprint (add : bool) (buf : list Z) : mres (option (list Z)) :=
  if add then AppendFingerprintAttr buf else Ret (Some buf).

Definition BuildMessage (method klass : Z) (txid : list Z) (attributes : list StunAttribute)
    (integrity_key : list Z) (add_fingerprint : bool) : mres (option (list Z)) :=
  if (method >? 0x0FFF) || (klass >? 3) || (blen integrity_key >? 0x7FFFFFFF) then Ret None else
  let body_size := (match integrity_key with [] => 0 | _ => 24 end) + (if add_fingerprint then 8 else 0) in
  if negb (check_attributes body_size attributes) then Ret None else
  let! buf := WriteBE16_at (BuildBindingRequest txid) 0 (EncodeType method klass) in
  then_append (append_attributes buf attributes) (fun buf =>
  then_append (with_integrity integrity_key buf) (fun buf =>
  then_append (with_fingerprint add_fingerprint buf) UpdateMessageLength)).

(** [memcpy(out, buf.data(), buf.size())] into a buffer of [cap] bytes. *)
Definition copy_out (cap : Z) (buf : list Z) : mres (option (list Z)) :=
  if blen buf >? cap then Ret None else Ret (Some buf).

Definition BuildIceBindingRequest (i : IceRequestParams) (cap : Z) : mres (option (list Z)) :=
  let buf := BuildBindingRequest (rq_txid i) in
  then_append (AppendUsernameAttr buf (username i)) (fun buf =>
  then_append (AppendUInt32Attr buf PRIORITY (priority i)) (fun buf =>
  then_append (if controlling i then AppendUInt64Attr buf ICE_CONTROLLING (tie_breaker i)
               else AppendUInt64Attr buf ICE_CONTROLLED (tie_breaker i)) (fun buf =>
  then_append (if use_candidate i then AppendUseCandidateAttr buf else Ret (Some buf)) (fun buf =>
  then_append (with_integrity (rq_password i) buf) (fun buf =>
  then_append (with_fingerprint (rq_add_fingerprint i) buf) (fun buf =>
  then_append (UpdateMessageLength buf) (copy_out cap))))))).

Definition BuildIceBindingSuccess (i : IceSuccessParams) (cap : Z) : mres (option (list Z)) :=
  match req i with
  | None => Ret None
  | Some r =>
    let buf := header_bytes (EncodeType (method_value Binding) (class_value SuccessResponse)) (txid r) in
    then_append (AppendXorMappedAddressAttr buf (mapped_addr i) (txid r)) (fun buf =>
    then_append (with_integrity (sc_password i) buf) (fun buf =>
    then_append (with_fingerprint (sc_add_fingerprint i) buf) (fun buf =>
    then_append (UpdateMessageLength buf) (copy_out cap))))
  end.

Definition error_value (e : StunErrorCode) : list Z :=
  [0; 0; u8 (u16 (code e / 100)); u8 (u16 (code e mod 100))] ++ reason e.

Definition BuildBindingError (r : StunMessageInfo) (e : StunErrorCode) (password : list Z) (cap : Z)
    : mres (option (list Z)) :=
  let buf := header_bytes (EncodeType (method_value Binding) (class_value ErrorResponse)) (txid r) in
  let val := error_value e in
  then_append (AppendAttr buf ERROR_CODE (Some val) (u16 (blen val))) (fun buf =>
  then_append
    (match unknown_attributes e with
     | [] => Ret (Some buf)
     | l => let unknown := fold_left WriteBE16 l [] in
            AppendAttr buf UNKNOWN_ATTRIBUTES (Some unknown) (u16 (blen unknown))
     end) (fun buf =>
  then_append (with_integrity password buf) (fun buf =>
  then_append (AppendFingerprintAttr buf) (fun buf =>
  then_append (UpdateMessageLength buf) (copy_out cap))))).

End Integrity.
End StunCodec.
