(* ===== verification/StunLayout.v ===== *)
(** * Layout of STUN messages

    The layout of a message is given as a specification ([attr_bytes], [body],
    [message]); the builders are shown to produce exactly that layout, the
    parser to recover it, and the decoders to read the values back. *)
From S2P Require Import Prelude Bytes Stun.
Import StunCodec.

(** The CRC's published check value. *)
Example crc32_check : Crc32 [0x31;0x32;0x33;0x34;0x35;0x36;0x37;0x38;0x39] = 0xCBF43926.
Proof. reflexivity. Qed.

(** ** Generic facts *)

Lemma land_fffffffc y : 0 <= y < 2 ^ 32 -> Z.land y 0xFFFFFFFC = y / 4 * 4.
Proof.
  intros Hy. change 0xFFFFFFFC with (Z.shiftl (Z.ones 30) 2).
  change 4 with (2 ^ 2). rewrite <- Z.shiftr_div_pow2, <- Z.shiftl_mul_pow2 by lia.
  rewrite <- (Z.mod_small (Z.shiftr y 2) (2 ^ 30)), <- Z.land_ones by
    (rewrite ?Z.shiftr_div_pow2 by lia; words || lia).
  apply Z.bits_inj'. intros i Hi. rewrite Z.land_spec. destruct (Z.ltb_spec i 2).
  - rewrite !Z.shiftl_spec_low by lia. btauto.
  - rewrite !Z.shiftl_spec, Z.land_spec, Z.shiftr_spec by lia. f_equal. f_equal. lia.
Qed.

Lemma Pad4_spec x : 0 <= x <= 0xFFFF -> Pad4 x = (x + 3) / 4 * 4.
Proof. intros. apply land_fffffffc. lia. Qed.

Lemma lxor_range n a b : 0 <= n -> 0 <= a < 2 ^ n -> 0 <= b < 2 ^ n -> 0 <= Z.lxor a b < 2 ^ n.
Proof.
  intros Hn Ha Hb. rewrite <- (Z.mod_small a (2 ^ n)), <- (Z.mod_small b (2 ^ n)) by done.
  rewrite <- !Z.land_ones by done.
  replace (Z.lxor (Z.land a (Z.ones n)) (Z.land b (Z.ones n)))
    with (Z.land (Z.lxor a b) (Z.ones n)).
  - rewrite Z.land_ones by done. apply Z.mod_pos_bound. lia.
  - apply Z.bits_inj'. intros i _. rewrite !Z.lxor_spec, !Z.land_spec, Z.lxor_spec. btauto.
Qed.

Lemma lxor_cancel a b : Z.lxor (Z.lxor a b) b = a.
Proof. by rewrite Z.lxor_assoc, Z.lxor_nilpotent, Z.lxor_0_r. Qed.

Lemma zip_lxor_cancel (x k : list Z) :
  length x = length k -> zip_with Z.lxor (zip_with Z.lxor x k) k = x.
Proof.
  revert k. induction x as [|a x IH]; intros [|b k]; simpl; intros E; try done.
  rewrite lxor_cancel, IH by lia. done.
Qed.

Lemma zip_lxor_bytes (x k : list Z) : bytes_ok x -> bytes_ok k -> bytes_ok (zip_with Z.lxor x k).
Proof.
  intros Hx. revert k. induction Hx as [|a x Ha Hx IH]; intros k Hk; [constructor|].
  destruct Hk as [|b k Hb Hk]; [constructor|]. constructor; [|by apply IH].
  by apply (lxor_range 8).
Qed.

Lemma crc_bit_u32 c : is_u32 c -> is_u32 (crc_bit c).
Proof.
  intros Hc. unfold crc_bit. apply (lxor_range 32); [lia| |].
  - rewrite shiftr_div by lia. words.
  - assert (u32 (- Z.land c 1) = 0 \/ u32 (- Z.land c 1) = 0xFFFFFFFF) as [-> | ->]; [|done|done].
    change 1 with (2 ^ 1 - 1) at 2. change (Z.land c 1) with (Z.land c (2 ^ 1 - 1)).
    rewrite land_ones_mod by lia. change (2 ^ 1) with 2.
    pose proof (Z.mod_pos_bound c 2 ltac:(lia)).
    assert (c mod 2 = 0 \/ c mod 2 = 1) as [-> | ->] by lia; auto.
Qed.

Lemma crc_byte_u32 c d : is_u32 c -> is_u8 d -> is_u32 (crc_byte c d).
Proof.
  intros Hc Hd. unfold crc_byte. simpl Nat.iter. do 8 apply crc_bit_u32.
  apply (lxor_range 32); [lia|done|]. unfold is_u in Hd. words.
Qed.

Lemma Crc32_u32 l : is_u32 (Crc32 l).
Proof. apply wrap_range. lia. Qed.

Lemma ComputeFingerprint_u32 l : is_u32 (ComputeFingerprint l).
Proof. apply (lxor_range 32); [lia|apply Crc32_u32|]. by compute. Qed.

Lemma slice_mid a v c n : n = blen v -> slice (a ++ v ++ c) (blen a) n = v.
Proof.
  intros ->. unfold slice, blen. rewrite !Nat2Z.id, drop_app_length, take_app_length. done.
Qed.

Lemma read_bytes_at a v c b off n :
  b = a ++ v ++ c -> off = blen a -> n = blen v -> read_bytes b off n = Ret v.
Proof.
  intros -> -> ->. unfold read_bytes. pose proof (blen_nonneg a). pose proof (blen_nonneg v).
  pose proof (blen_nonneg c). rewrite !blen_app.
  rewrite (proj2 (Z.leb_le 0 (blen a))), (proj2 (Z.leb_le 0 (blen v))),
    (proj2 (Z.leb_le (blen a + blen v) _)) by lia. simpl. by rewrite slice_mid.
Qed.

Lemma write_bytes_at a v w c b off :
  b = a ++ v ++ c -> off = blen a -> blen w = blen v -> write_bytes b off w = Ret (a ++ w ++ c).
Proof.
  intros -> -> E. unfold write_bytes. pose proof (blen_nonneg a). pose proof (blen_nonneg c).
  pose proof (blen_nonneg v). rewrite !blen_app, E.
  rewrite (proj2 (Z.leb_le 0 (blen a))), (proj2 (Z.leb_le (blen a + blen v) _)) by lia. simpl.
  unfold blen in *. rewrite Nat2Z.id, take_app_length. do 3 f_equal.
  rewrite <- Nat2Z.inj_add, Nat2Z.id, app_assoc.
  rewrite <- length_app. by rewrite drop_app_length.
Qed.

Lemma read_bytes_returns b off n : 0 <= off -> 0 <= n -> off + n <= blen b -> returns (read_bytes b off n).
Proof.
  intros. unfold read_bytes.
  rewrite (proj2 (Z.leb_le 0 off)), (proj2 (Z.leb_le 0 n)), (proj2 (Z.leb_le (off + n) _)) by lia.
  apply returns_ret.
Qed.

(** ** Layout of a message *)

Definition attr_bytes (a : StunAttribute) : list Z :=
  be16 (attr_type a) ++ be16 (blen (value a)) ++ value a ++
  repeat 0 (Z.to_nat (Pad4 (blen (value a)) - blen (value a))).

Definition body (l : list StunAttribute) : list Z := List.concat (map attr_bytes l).

(** Everything after the length field. *)
Definition tail_bytes (txid : list Z) (l : list StunAttribute) : list Z :=
  be32 kMagicCookie ++ txid ++ body l.

Definition message (type len : Z) (txid : list Z) (l : list StunAttribute) : list Z :=
  be16 type ++ be16 len ++ tail_bytes txid l.

Definition attr_ok (a : StunAttribute) : Prop := is_u16 (attr_type a) /\ blen (value a) <= 0xFFFF.

Fixpoint views (off : Z) (l : list StunAttribute) : list AttrView :=
  match l with
  | [] => []
  | a :: l => mkView (attr_type a) (blen (value a)) (off + 4) :: views (off + blen (attr_bytes a)) l
  end.

Lemma blen_be16 v : blen (be16 v) = 2. Proof. done. Qed.
Lemma blen_be32 v : blen (be32 v) = 4. Proof. done. Qed.

Lemma blen_attr a : attr_ok a -> blen (attr_bytes a) = 4 + Pad4 (blen (value a)).
Proof.
  intros [_ H]. unfold attr_bytes. rewrite !blen_app, !blen_be16. pose proof (blen_nonneg (value a)).
  unfold blen at 2. rewrite repeat_length. rewrite Pad4_spec by lia. words.
Qed.

Lemma blen_attr_pos a : attr_ok a -> 4 <= blen (attr_bytes a).
Proof.
  intros H. rewrite blen_attr by done. destruct H as [_ H]. pose proof (blen_nonneg (value a)).
  rewrite Pad4_spec by lia. words.
Qed.

Lemma blen_attr_mod a : attr_ok a -> blen (attr_bytes a) mod 4 = 0.
Proof.
  intros H. rewrite blen_attr by done. destruct H as [_ H]. pose proof (blen_nonneg (value a)).
  rewrite Pad4_spec by lia. words.
Qed.

Lemma body_cons a l : body (a :: l) = attr_bytes a ++ body l.
Proof. done. Qed.

Lemma body_app l1 l2 : body (l1 ++ l2) = body l1 ++ body l2.
Proof. unfold body. by rewrite map_app, concat_app. Qed.

Lemma body_mod l : Forall attr_ok l -> blen (body l) mod 4 = 0.
Proof.
  induction 1 as [|a l Ha _ IH]; [done|]. rewrite body_cons, blen_app.
  pose proof (blen_attr_mod a Ha). words.
Qed.

Lemma parse_attrs_body fuel pre l post acc :
  Forall attr_ok l -> 0 <= blen pre + blen (body l) < 2 ^ 32 ->
  (Z.to_nat (blen (body l)) <= fuel)%nat ->
  parse_attrs fuel (pre ++ body l ++ post) (blen pre + blen (body l)) (blen pre) acc
  = Ret (true, acc ++ views (blen pre) l).
Proof.
  intros Hl. revert fuel pre acc. induction Hl as [|a l Ha Hl IH]; intros fuel pre acc Hr Hf.
  - change (blen (body [])) with 0. replace (blen pre + 0) with (blen pre) by lia.
    destruct fuel; simpl; rewrite Z.ltb_irrefl, Z.eqb_refl; by rewrite app_nil_r.
  - rewrite body_cons, blen_app in *. pose proof (blen_attr_pos a Ha). pose proof (blen_nonneg (body l)).
    pose proof (blen_nonneg pre).
    destruct fuel as [|fuel]; [lia|]. cbn [parse_attrs].
    rewrite (proj2 (Z.ltb_lt _ _)) by lia.
    rewrite Z.gtb_ltb, (proj2 (Z.ltb_ge _ _)) by (unfold kAttrHeaderSize; lia).
    set (rest := body l ++ post).
    assert (pre ++ (attr_bytes a ++ body l) ++ post =
            pre ++ be16 (attr_type a) ++ be16 (blen (value a)) ++
              (value a ++ repeat 0 (Z.to_nat (Pad4 (blen (value a)) - blen (value a)))) ++ rest) as E.
    { unfold attr_bytes, rest. by rewrite <- !app_assoc. }
    destruct Ha as [Ht Hv]. pose proof (blen_nonneg (value a)).
    unfold ReadBE16. erewrite (ReadUint16BE_at pre (attr_type a)) by (exact E || done). cbn [mbnd].
    erewrite (ReadUint16BE_at (pre ++ be16 (attr_type a)) (blen (value a)));
      [|rewrite E, (app_assoc pre); reflexivity|rewrite blen_app, blen_be16; lia|words]. cbn [mbnd].
    rewrite blen_attr in * by done. unfold kAttrHeaderSize.
    rewrite Z.gtb_ltb, (proj2 (Z.ltb_ge _ _)) by lia.
    replace (blen pre + (4 + Pad4 (blen (value a)))) with (blen (pre ++ attr_bytes a))
      by (rewrite blen_app, blen_attr by done; lia).
    replace (pre ++ (attr_bytes a ++ body l) ++ post) with ((pre ++ attr_bytes a) ++ body l ++ post)
      by (by rewrite <- !app_assoc).
    replace (blen pre + (4 + Pad4 (blen (value a)) + blen (body l)))
      with (blen (pre ++ attr_bytes a) + blen (body l)) by (rewrite blen_app, blen_attr by done; lia).
    rewrite IH; [|rewrite blen_app, blen_attr by done; lia|lia].
    rewrite <- app_assoc, (wrap_small 32) by (unfold is_u; lia).
    cbn [views app]. by rewrite blen_app.
Qed.

(** ** Message types *)

Definition type_ok (m c : Z) : bool :=
  let t := EncodeType m c in
  bool_decide (DecodeType t = (m, c)) && (0 <=? t) && (t <? 0x4000).

Lemma type_table :
  forallb (fun m => forallb (type_ok m) [0; 1; 2; 3]) (seqZ 0 4096) = true.
Proof. vm_compute. reflexivity. Qed.

Lemma type_roundtrip m c :
  0 <= m <= 0xFFF -> 0 <= c <= 3 ->
  DecodeType (EncodeType m c) = (m, c) /\ 0 <= EncodeType m c < 0x4000.
Proof.
  intros Hm Hc. pose proof (proj1 (forallb_forall _ _) type_table m) as H.
  assert (In m (seqZ 0 4096)) as Hi by (apply list_elem_of_In, elem_of_seqZ; lia).
  specialize (H Hi). cbv beta in H. pose proof (proj1 (forallb_forall _ _) H c) as Ht.
  assert (In c [0; 1; 2; 3]) as Hj by (simpl; lia). specialize (Ht Hj).
  unfold type_ok in Ht. bool_hyps. case_bool_decide; [|done]. split; [done|lia].
Qed.

(** ** Parsing the layout *)

Lemma message_split type len txid l :
  message type len txid l = be16 type ++ be16 len ++ be32 kMagicCookie ++ txid ++ body l.
Proof. done. Qed.

Lemma blen_message type len txid l :
  length txid = 12%nat -> blen (message type len txid l) = 20 + blen (body l).
Proof. intros H. rewrite message_split, !blen_app, !blen_be16, blen_be32. unfold blen at 1. rewrite H. lia. Qed.

(** The message the layout stands for. *)
Definition parsed (type : Z) (txid : list Z) (l : list StunAttribute) (trail : list Z)
    : StunMessageInfo :=
  mkInfo type (blen (body l)) kMagicCookie txid (DecodeType type).1 (DecodeType type).2
    (views 20 l) (Some (message type (blen (body l)) txid l ++ trail)) (20 + blen (body l)).

Record msg_ok (type : Z) (txid : list Z) (l : list StunAttribute) : Prop := {
  mo_type : 0 <= type < 0x4000;
  mo_txid : length txid = 12%nat;
  mo_attrs : Forall attr_ok l;
  mo_size : blen (body l) <= 0xFFFF
}.

Lemma IsStun_message type txid l trail :
  msg_ok type txid l -> IsStun (Some (message type (blen (body l)) txid l ++ trail)) = Ret true.
Proof.
  intros [Ht Hx Hl Hs]. unfold IsStun. rewrite blen_app, blen_message by done.
  pose proof (blen_nonneg (body l)). pose proof (blen_nonneg trail).
  unfold kHeaderSize. rewrite (proj2 (Z.ltb_ge _ _)) by lia.
  rewrite message_split, <- !app_assoc. set (rest := txid ++ body l ++ trail).
  erewrite (rd_at [] (byte_of type 8)) by done. cbn [mbnd].
  assert (Z.land (byte_of type 8) 0xC0 = 0) as ->.
  { rewrite byte_of_spec by lia. assert (0 <= (type / 2 ^ 8) mod 256 < 64) by words.
    set (x := (type / 2 ^ 8) mod 256) in *. clearbody x.
    change 0xC0 with (Z.shiftl 3 6). apply Z.bits_inj'. intros i Hi.
    rewrite Z.land_spec, Z.bits_0. destruct (Z.ltb_spec i 6).
    - rewrite Z.shiftl_spec_low by lia. btauto.
    - rewrite <- (Z.mod_small x (2 ^ 6)), Z.mod_pow2_bits_high by lia. done. }
  cbn [negb Z.eqb]. unfold ReadBE32, ReadBE16.
  erewrite (ReadUint32BE_at (be16 type ++ be16 (blen (body l))) kMagicCookie);
    [|by rewrite <- app_assoc|done|by compute]. cbn [mbnd].
  rewrite Z.eqb_refl. cbn [negb].
  erewrite (ReadUint16BE_at (be16 type) (blen (body l))); [|reflexivity|done|words]. cbn [mbnd].
  change 0x3 with (2 ^ 2 - 1). rewrite land_ones_mod by lia. change (2 ^ 2) with 4.
  rewrite body_mod by done. cbn [negb Z.eqb].
  rewrite Z.gtb_ltb, (proj2 (Z.ltb_ge _ _)) by lia. done.
Qed.

Lemma Parse_message type txid l trail :
  msg_ok type txid l ->
  Parse (Some (message type (blen (body l)) txid l ++ trail)) = Ret (true, parsed type txid l trail).
Proof.
  intros Hok. unfold Parse. rewrite IsStun_message by done. destruct Hok as [Ht Hx Hl Hs].
  cbn [mbnd]. pose proof (blen_nonneg (body l)).
  set (raw := message type (blen (body l)) txid l ++ trail).
  assert (raw = be16 type ++ be16 (blen (body l)) ++ be32 kMagicCookie ++ txid ++ body l ++ trail) as E.
  { unfold raw. rewrite message_split. by rewrite <- !app_assoc. }
  unfold ReadBE32, ReadBE16.
  erewrite (ReadUint16BE_at [] type); [|exact E|done|words]. cbn [mbnd].
  erewrite (ReadUint16BE_at (be16 type) (blen (body l))); [|exact E|done|words]. cbn [mbnd].
  erewrite (ReadUint32BE_at (be16 type ++ be16 (blen (body l))) kMagicCookie);
    [|rewrite E; by rewrite <- app_assoc|done|by compute]. cbn [mbnd].
  erewrite (read_bytes_at (be16 type ++ be16 (blen (body l)) ++ be32 kMagicCookie) txid);
    [|rewrite E; by rewrite <- !app_assoc|done|unfold blen; by rewrite Hx]. cbn [mbnd].
  destruct (DecodeType type) as [m c] eqn:ED.
  set (pre := be16 type ++ be16 (blen (body l)) ++ be32 kMagicCookie ++ txid).
  assert (blen pre = 20) as Hpre.
  { unfold pre. rewrite !blen_app, !blen_be16, blen_be32. unfold blen at 1. rewrite Hx. lia. }
  replace raw with (pre ++ body l ++ trail) at 1 by (rewrite E; unfold pre; by rewrite <- !app_assoc).
  unfold kHeaderSize. rewrite <- Hpre at 1 2.
  rewrite parse_attrs_body by (try done; lia). cbn [mbnd].
  unfold parsed. rewrite ED, Hpre. done.
Qed.

(** ** Finding an attribute *)

(** [FindAttr] on attributes: the first of the type, not behind the first
    MESSAGE-INTEGRITY (FINGERPRINT excepted). *)
Fixpoint split_attr (l : list StunAttribute) (t : Z)
    : option (list StunAttribute * StunAttribute * list StunAttribute) :=
  match l with
  | [] => None
  | a :: l =>
    if attr_type a =? t then Some ([], a, l) else
    if (attr_type a =? MESSAGE_INTEGRITY) && negb (t =? FINGERPRINT) then None else
    match split_attr l t with
    | Some (l1, b, l2) => Some (a :: l1, b, l2)
    | None => None
    end
  end.

Lemma split_attr_spec l t l1 a l2 :
  split_attr l t = Some (l1, a, l2) -> l = l1 ++ a :: l2 /\ attr_type a = t.
Proof.
  revert l1. induction l as [|x l IH]; intros l1; simpl; [done|]. split_if.
  - intros [= <- <- <-]. bool_hyps. done.
  - split_if; [done|]. destruct (split_attr l t) as [[[k1 b] k2]|]; [|done].
    intros [= <- <- <-]. destruct (IH k1 eq_refl) as [-> ->]. done.
Qed.

Lemma split_attr_app l a l2 t :
  Forall (fun x => attr_type x <> t /\ attr_type x <> MESSAGE_INTEGRITY) l -> attr_type a = t ->
  split_attr (l ++ a :: l2) t = Some (l, a, l2).
Proof.
  intros Hl Ha. induction Hl as [|x l [H1 H2] _ IH]; cbn [app split_attr].
  - by rewrite Ha, Z.eqb_refl.
  - by rewrite (proj2 (Z.eqb_neq _ _) H1), (proj2 (Z.eqb_neq _ _) H2), IH.
Qed.

Lemma find_attr_views l t off :
  find_attr (views off l) t =
  match split_attr l t with
  | Some (l1, a, _) => Some (mkView t (blen (value a)) (off + blen (body l1) + 4))
  | None => None
  end.
Proof.
  revert off. induction l as [|a l IH]; intros off; simpl; [done|].
  split_if.
  - bool_hyps. subst. unfold body, blen at 3. simpl. do 2 f_equal. lia.
  - split_if; [done|]. rewrite IH. destruct (split_attr l t) as [[[l1 b] l2]|]; [|done].
    rewrite body_cons, blen_app. do 2 f_equal. lia.
Qed.

(** Where the value of one attribute of the message lies. *)
Lemma slot type txid l trail l1 a l2 :
  msg_ok type txid l -> l = l1 ++ a :: l2 ->
  let m := parsed type txid l trail in
  let b := message type (blen (body l)) txid l ++ trail in
  let off := 20 + blen (body l1) + 4 in
  exists pre post,
    b = pre ++ value a ++ post /\ blen pre = off /\
    0 <= blen (value a) <= Pad4 (blen (value a)) /\ 24 <= off /\
    off + Pad4 (blen (value a)) <= raw_len m <= blen b.
Proof.
  intros [Ht Hx Hl Hsz] El m b off.
  exists (message type (blen (body l)) txid l1 ++ be16 (attr_type a) ++ be16 (blen (value a))),
    ((repeat 0 (Z.to_nat (Pad4 (blen (value a)) - blen (value a))) ++ body l2) ++ trail).
  assert (attr_ok a) as Ha by (rewrite El, Forall_app, Forall_cons in Hl; tauto).
  pose proof (blen_nonneg (body l1)). pose proof (blen_nonneg (body l2)).
  pose proof (blen_nonneg (value a)). pose proof (blen_nonneg trail).
  assert (blen (value a) <= Pad4 (blen (value a))) as Hp.
  { destruct Ha. rewrite Pad4_spec by lia. words. }
  assert (off + Pad4 (blen (value a)) <= 20 + blen (body l)) as Hr.
  { rewrite El, body_app, body_cons, !blen_app, blen_attr by done. unfold off. lia. }
  split; [|split].
  - unfold b. rewrite !message_split, El, body_app, body_cons. unfold attr_bytes.
    by rewrite <- !app_assoc.
  - unfold off. rewrite blen_app, blen_message by done. rewrite blen_app, !blen_be16. lia.
  - change (raw_len m) with (20 + blen (body l)). unfold b.
    rewrite blen_app, blen_message by done. unfold off in *. lia.
Qed.

(** A found attribute passes the bounds checks. *)
Lemma found type txid l trail t l1 a l2 :
  msg_ok type txid l -> split_attr l t = Some (l1, a, l2) ->
  bounded_attr (parsed type txid l trail) t =
  Some (mkView t (blen (value a)) (20 + blen (body l1) + 4),
        message type (blen (body l)) txid l ++ trail).
Proof.
  intros Hok Hs. destruct (split_attr_spec _ _ _ _ _ Hs) as [El _].
  destruct (slot _ _ _ trail _ _ _ Hok El) as (pre & post & _ & _ & H1 & H2 & H3).
  unfold bounded_attr, FindAttr, IsAttrInBounds. set (m := parsed type txid l trail) in *.
  change (attrs m) with (views 20 l). change (raw m) with (Some (message type (blen (body l)) txid l ++ trail)).
  rewrite find_attr_views, Hs. cbn [value_offset av_len].
  rewrite !Z.gtb_ltb. rewrite !(proj2 (Z.ltb_ge _ _)) by lia. done.
Qed.

Lemma not_found type txid l trail t :
  split_attr l t = None -> bounded_attr (parsed type txid l trail) t = None.
Proof. intros Hs. unfold bounded_attr, FindAttr. simpl attrs. by rewrite find_attr_views, Hs. Qed.

(** Every attribute of the message reads back. *)
Definition reads_as (m : StunMessageInfo) (a : StunAttribute) (v : AttrView) : Prop :=
  av_type v = attr_type a /\ AttrValue m v = Ret (value a).

Lemma AttrValue_slot type txid l trail l1 a l2 t :
  msg_ok type txid l -> l = l1 ++ a :: l2 ->
  AttrValue (parsed type txid l trail) (mkView t (blen (value a)) (20 + blen (body l1) + 4)) =
  Ret (value a).
Proof.
  intros Hok El. destruct (slot _ _ _ trail _ _ _ Hok El) as (pre & post & Eb & Ep & H1 & H2 & H3).
  unfold AttrValue. cbn [value_offset av_len]. set (m := parsed type txid l trail) in *.
  change (raw m) with (Some (message type (blen (body l)) txid l ++ trail)).
  rewrite Z.gtb_ltb, (proj2 (Z.ltb_ge _ _)) by lia. by eapply read_bytes_at.
Qed.

Lemma views_read type txid l trail :
  msg_ok type txid l ->
  Forall2 (reads_as (parsed type txid l trail)) l (attrs (parsed type txid l trail)).
Proof.
  intros Hok. change (attrs _) with (views 20 l).
  enough (forall l2 l1, l = l1 ++ l2 ->
    Forall2 (reads_as (parsed type txid l trail)) l2 (views (20 + blen (body l1)) l2)) as H.
  { apply (H l []). done. }
  induction l2 as [|a l2 IH]; intros l1 El; [constructor|]. cbn [views]. constructor.
  - split; [done|]. by eapply AttrValue_slot.
  - replace (20 + blen (body l1) + blen (attr_bytes a)) with (20 + blen (body (l1 ++ [a]))).
    + apply IH. by rewrite <- app_assoc.
    + rewrite body_app, blen_app, body_cons, blen_app. change (blen (body [])) with 0. lia.
Qed.

(** ** Builders produce the layout *)

Lemma read_bytes_all v n : n = blen v -> read_bytes v 0 n = Ret v.
Proof. intros ->. apply (read_bytes_at [] v []); by rewrite ?app_nil_r. Qed.

Lemma AppendAttr_spec out t v n :
  n = blen v -> n <= 0xFFFF ->
  AppendAttr out t (Some v) n = Ret (Some (out ++ attr_bytes (mkAttr t v))).
Proof.
  intros -> _. unfold AppendAttr, WriteBE16. rewrite read_bytes_all by done. cbn [mbnd].
  unfold attr_bytes. cbn [attr_type value]. rewrite <- !app_assoc. done.
Qed.

Lemma message_snoc type len txid l a :
  message type len txid l ++ attr_bytes a = message type len txid (l ++ [a]).
Proof.
  rewrite !message_split, body_app, body_cons. change (body []) with (@nil Z).
  by rewrite <- !app_assoc, app_nil_r.
Qed.

Lemma UpdateMessageLength_spec type len txid l :
  length txid = 12%nat -> blen (body l) <= 0xFFFF ->
  UpdateMessageLength (message type len txid l) = Ret (Some (message type (blen (body l)) txid l)).
Proof.
  intros Hx Hs. unfold UpdateMessageLength. rewrite blen_message by done.
  pose proof (blen_nonneg (body l)). unfold kHeaderSize.
  rewrite (proj2 (Z.ltb_ge _ _)) by lia.
  replace (20 + blen (body l) - 20) with (blen (body l)) by lia.
  rewrite Z.gtb_ltb, (proj2 (Z.ltb_ge _ _)) by lia. rewrite (wrap_small 16) by words.
  unfold WriteBE16_at. erewrite (WriteUint16BE_at (be16 type)); [|reflexivity|done]. done.
Qed.

Section Sealed.
Context `{HmacSha1}.

(** The attributes the builders add behind [l]. *)
Definition seal_mi (type : Z) (txid : list Z) (l : list StunAttribute) (key : list Z)
    : option (list StunAttribute) :=
  match key with
  | [] => Some []
  | _ =>
    match HMAC key (message type (blen (body l) + 24) txid l) with
    | Some h => Some [mkAttr MESSAGE_INTEGRITY h]
    | None => None
    end
  end.

Definition seal_fp (add : bool) (type : Z) (txid : list Z) (l : list StunAttribute) : list StunAttribute :=
  if add then [mkAttr FINGERPRINT (be32 (ComputeFingerprint (message type (blen (body l) + 8) txid l)))]
  else [].

Definition mi_size (key : list Z) : Z := match key with [] => 0 | _ => 24 end.
Definition fp_size (add : bool) : Z := if add then 8 else 0.

Lemma blen_mi h : length h = 20%nat -> blen (attr_bytes (mkAttr MESSAGE_INTEGRITY h)) = 24.
Proof.
  intros Hh. assert (blen h = 20) as E by (unfold blen; lia).
  rewrite blen_attr; cbn [value]; rewrite ?E; [done|]. split; cbn [value attr_type]; [by compute|lia].
Qed.

Lemma with_integrity_spec type len txid l key :
  length txid = 12%nat -> blen (body l) + mi_size key <= 0xFFFF ->
  with_integrity key (message type len txid l) =
  Ret (match seal_mi type txid l key with
       | Some mi => Some (message type (match key with [] => len | _ => blen (body l) + 24 end) txid (l ++ mi))
       | None => None
       end).
Proof.
  intros Hx Hs. destruct key as [|k0 key]; [by cbn; rewrite app_nil_r|].
  unfold with_integrity, seal_mi, AppendMessageIntegrityAttr. set (k := k0 :: key) in *.
  simpl mi_size in Hs. unfold WriteBE16, kMessageIntegritySize.
  assert (((message type len txid l ++ [byte_of MESSAGE_INTEGRITY 8; byte_of MESSAGE_INTEGRITY 0]) ++
           [byte_of 20 8; byte_of 20 0]) ++ repeat 0 20 =
          message type len txid (l ++ [mkAttr MESSAGE_INTEGRITY (repeat 0 20)])) as ->.
  { rewrite <- message_snoc. unfold attr_bytes. cbn [attr_type value].
    change (blen (repeat 0 20)) with 20. rewrite <- !app_assoc. done. }
  assert (blen (body (l ++ [mkAttr MESSAGE_INTEGRITY (repeat 0 20)])) = blen (body l) + 24) as E.
  { by rewrite body_app, blen_app, body_cons, blen_app, blen_mi. }
  rewrite UpdateMessageLength_spec by (try done; lia). cbn [mbnd]. rewrite E.
  set (len' := blen (body l) + 24).
  erewrite (read_bytes_at [] (message type len' txid l));
    [|rewrite <- message_snoc; reflexivity|done|by rewrite !blen_message]. cbn [mbnd].
  unfold ComputeMessageIntegrity. destruct (HMAC k _) as [h|] eqn:Eh; [|done].
  apply HMAC_size in Eh as [Hh _].
  erewrite (write_bytes_at (message type len' txid l ++ be16 MESSAGE_INTEGRITY ++ be16 20) (repeat 0 20) h []).
  - cbn [mbnd]. do 2 f_equal. rewrite <- message_snoc. unfold attr_bytes. cbn [attr_type value].
    assert (blen h = 20) as -> by (unfold blen; lia). rewrite <- !app_assoc. done.
  - rewrite <- message_snoc. unfold attr_bytes. cbn [attr_type value]. rewrite <- !app_assoc. done.
  - unfold kAttrHeaderSize. rewrite blen_app, !blen_message by done. rewrite blen_app, !blen_be16. lia.
  - unfold blen. rewrite Hh. done.
Qed.

Lemma blen_fp v : blen (attr_bytes (mkAttr FINGERPRINT (be32 v))) = 8.
Proof. done. Qed.

Lemma with_fingerprint_spec type len txid l add :
  length txid = 12%nat -> blen (body l) + fp_size add <= 0xFFFF ->
  with_fingerprint add (message type len txid l) =
  Ret (Some (message type (if add then blen (body l) + 8 else len) txid (l ++ seal_fp add type txid l))).
Proof.
  intros Hx Hs. destruct add; [|by cbn; rewrite app_nil_r]. simpl fp_size in Hs.
  unfold with_fingerprint, seal_fp, AppendFingerprintAttr, WriteBE16.
  assert (((message type len txid l ++ [byte_of FINGERPRINT 8; byte_of FINGERPRINT 0]) ++
           [byte_of 4 8; byte_of 4 0]) ++ repeat 0 4 =
          message type len txid (l ++ [mkAttr FINGERPRINT (be32 0)])) as ->.
  { rewrite <- message_snoc, <- !app_assoc. done. }
  assert (blen (body (l ++ [mkAttr FINGERPRINT (be32 0)])) = blen (body l) + 8) as E.
  { by rewrite body_app, blen_app, body_cons, blen_app, blen_fp. }
  rewrite UpdateMessageLength_spec by (try done; lia). cbn [mbnd]. rewrite E.
  set (len' := blen (body l) + 8).
  erewrite (read_bytes_at [] (message type len' txid l));
    [|rewrite <- message_snoc; reflexivity|done|by rewrite !blen_message]. cbn [mbnd].
  unfold WriteBE32_at.
  erewrite (WriteUint32BE_at (message type len' txid l ++ be16 FINGERPRINT ++ be16 4) 0 0 0 0 []).
  - cbn [mbnd]. do 2 f_equal. rewrite <- message_snoc, <- !app_assoc. done.
  - rewrite <- message_snoc, <- !app_assoc. done.
  - unfold kAttrHeaderSize. rewrite blen_app, !blen_message by done. rewrite blen_app, !blen_be16. lia.
Qed.

Definition sealed (type : Z) (txid : list Z) (l : list StunAttribute) (key : list Z) (add : bool)
    : option (list StunAttribute) :=
  match seal_mi type txid l key with
  | Some mi => Some (l ++ mi ++ seal_fp add type txid (l ++ mi))
  | None => None
  end.

Lemma seal_mi_size type txid l key mi :
  seal_mi type txid l key = Some mi -> blen (body (l ++ mi)) = blen (body l) + mi_size key.
Proof.
  unfold seal_mi. destruct key as [|k0 key].
  - intros [= <-]. rewrite app_nil_r. simpl. lia.
  - destruct (HMAC _ _) as [h|] eqn:Eh; [|done]. intros [= <-]. apply HMAC_size in Eh as [Hh _].
    by rewrite body_app, blen_app, body_cons, blen_app, blen_mi.
Qed.

(** The common end of the builders. *)
Lemma seal_spec type len txid l key add :
  length txid = 12%nat -> blen (body l) + mi_size key + fp_size add <= 0xFFFF ->
  then_append (with_integrity key (message type len txid l)) (fun buf =>
  then_append (with_fingerprint add buf) UpdateMessageLength) =
  Ret (match sealed type txid l key add with
       | Some l' => Some (message type (blen (body l')) txid l')
       | None => None
       end).
Proof.
  intros Hx Hs. assert (0 <= mi_size key /\ 0 <= fp_size add) as [? ?] by (destruct key, add; simpl; lia).
  rewrite with_integrity_spec by (try done; lia). unfold sealed.
  destruct (seal_mi type txid l key) as [mi|] eqn:Em; [|done]. cbn [then_append mbnd].
  pose proof (seal_mi_size _ _ _ _ _ Em) as E.
  rewrite with_fingerprint_spec by (try done; lia). cbn [then_append mbnd].
  rewrite <- app_assoc. apply UpdateMessageLength_spec; [done|].
  rewrite app_assoc, body_app, blen_app, E.
  destruct add; cbn [seal_fp fp_size] in *; [rewrite body_cons, blen_app, blen_fp|];
    change (blen (body [])) with 0; lia.
Qed.
End Sealed.

(** ** Verification of sealed messages *)

Lemma views_snoc off l a :
  views off (l ++ [a]) = views off l ++ [mkView (attr_type a) (blen (value a)) (off + blen (body l) + 4)].
Proof.
  revert off. induction l as [|x l IH]; intros off; cbn [app views].
  - change (blen (body [])) with 0. by rewrite Z.add_0_r.
  - rewrite IH, body_cons, blen_app. do 4 f_equal. lia.
Qed.

Lemma VerifyFingerprint_spec type txid k trail fp :
  fp = mkAttr FINGERPRINT (be32 (ComputeFingerprint (message type (blen (body k) + 8) txid k))) ->
  msg_ok type txid (k ++ [fp]) ->
  VerifyFingerprint (parsed type txid (k ++ [fp]) trail) = Ret true.
Proof.
  intros Efp Hok. destruct (slot _ _ _ trail k fp [] Hok eq_refl) as (pre & post & Eb & Ep & H1 & H2 & H3).
  set (m := parsed type txid (k ++ [fp]) trail) in *. unfold VerifyFingerprint, FindLastAttr.
  change (attrs m) with (views 20 (k ++ [fp])). rewrite views_snoc, rev_app_distr.
  set (b := message type (blen (body (k ++ [fp]))) txid (k ++ [fp]) ++ trail) in *.
  change (raw m) with (Some b). rewrite Efp at 1 2. cbn [rev app List.find av_type attr_type value].
  rewrite Z.eqb_refl. change (blen (be32 _)) with 4. unfold IsAttrInBounds.
  change (raw m) with (Some b). cbn [value_offset av_len].
  assert (raw_len m = 20 + blen (body k) + 8) as Hr.
  { change (raw_len m) with (20 + blen (body (k ++ [fp]))). rewrite body_app, blen_app, Efp, body_cons, blen_app, blen_fp.
    change (blen (body [])) with 0. lia. }
  rewrite !Z.gtb_ltb, !(proj2 (Z.ltb_ge _ _)) by lia. cbn [negb orb Z.eqb].
  unfold kAttrHeaderSize. rewrite Hr, (proj2 (Z.eqb_eq _ _)) by lia. cbn [negb].
  assert (value fp = be32 (ComputeFingerprint (message type (blen (body k) + 8) txid k))) as Ev by (by rewrite Efp).
  rewrite Ev in Eb.
  unfold ReadBE32. erewrite (ReadUint32BE_at pre); [|exact Eb|done|apply ComputeFingerprint_u32].
  cbn [mbnd]. pose proof (mo_txid _ _ _ Hok) as Hx.
  erewrite (read_bytes_at [] (message type (blen (body k) + 8) txid k) (attr_bytes fp ++ trail)).
  - cbn [mbnd]. by rewrite Z.eqb_refl.
  - unfold b. rewrite <- message_snoc, <- app_assoc.
    replace (blen (body (k ++ [fp]))) with (blen (body k) + 8); [done|].
    change (raw_len m) with (20 + blen (body (k ++ [fp]))) in Hr. lia.
  - done.
  - rewrite blen_message by done. lia.
Qed.

Section Integrity.
Context `{HmacSha1}.

Lemma VerifyMessageIntegrity_spec type txid l trail h key l2 :
  HMAC key (message type (blen (body l) + 24) txid l) = Some h ->
  Forall (fun a => attr_type a <> MESSAGE_INTEGRITY) l ->
  msg_ok type txid (l ++ mkAttr MESSAGE_INTEGRITY h :: l2) ->
  VerifyMessageIntegrity (parsed type txid (l ++ mkAttr MESSAGE_INTEGRITY h :: l2) trail) key = Ret true.
Proof.
  intros Eh Hl Hok. set (k := l ++ _ :: l2) in *.
  assert (split_attr k MESSAGE_INTEGRITY = Some (l, mkAttr MESSAGE_INTEGRITY h, l2)) as Hs.
  { apply split_attr_app; [|done]. eapply Forall_impl; [exact Hl|]. done. }
  destruct (slot _ _ _ trail l _ l2 Hok eq_refl) as (pre & post & Eb & Ep & H1 & H2 & H3).
  unfold VerifyMessageIntegrity. rewrite (found _ _ _ trail _ _ _ _ Hok Hs).
  set (m := parsed type txid k trail) in *. cbn [av_len value_offset value] in *.
  destruct (HMAC_size _ _ _ Eh) as [Hh _]. assert (blen h = 20) as E20 by (unfold blen; lia).
  rewrite E20 in *. cbn [Z.eqb negb Pos.eqb]. change (Pad4 20) with 20 in H3.
  unfold kAttrHeaderSize, kHeaderSize. rewrite Z.gtb_ltb, (proj2 (Z.ltb_ge _ _)) by lia.
  pose proof (mo_txid _ _ _ Hok) as Hx. pose proof (blen_nonneg (body l)).
  erewrite (read_bytes_at [] (message type (blen (body k)) txid l)
    (attr_bytes (mkAttr MESSAGE_INTEGRITY h) ++ body l2 ++ trail)).
  - cbn [mbnd]. unfold WriteBE16_at. erewrite (WriteUint16BE_at (be16 type)); [|reflexivity|done].
    cbn [mbnd].
    assert (u16 (20 + blen (body l) + 4 - 4 + 24 - 20) = blen (body l) + 24) as ->.
    { rewrite wrap_small; [lia|]. unfold is_u. change (raw_len m) with (20 + blen (body k)) in H3.
      pose proof (mo_size _ _ _ Hok). words. }
    change (be16 type ++ be16 (blen (body l) + 24) ++ _)
      with (message type (blen (body l) + 24) txid l).
    unfold ComputeMessageIntegrity. rewrite Eh.
    erewrite (read_bytes_at pre h); [|exact Eb|lia|lia]. cbn [mbnd].
    by rewrite bool_decide_eq_true_2.
  - unfold k at 2. rewrite !message_split, body_app, body_cons, <- !app_assoc. done.
  - done.
  - rewrite blen_message by done. lia.
Qed.

Lemma attr_ok_mi h : length h = 20%nat -> attr_ok (mkAttr MESSAGE_INTEGRITY h).
Proof. intros Hh. split; cbn; [by compute|]. unfold blen. rewrite Hh. done. Qed.

(** What a receiver establishes on a sealed message. *)
Record accepts (type : Z) (txid : list Z) (l l' : list StunAttribute) (key : list Z) (add : bool)
    (m : StunMessageInfo) : Prop := {
  ac_type : (method m, klass m) = DecodeType type;
  ac_txid : StunCodec.txid m = txid;
  ac_attrs : Forall2 (reads_as m) l' (attrs m);
  ac_prefix : l `prefix_of` l';
  ac_integrity : key <> [] -> VerifyMessageIntegrity m key = Ret true;
  ac_fingerprint : add = true -> VerifyFingerprint m = Ret true
}.

Lemma sealed_ok type txid l key add l' :
  msg_ok type txid l -> Forall (fun a => attr_type a <> MESSAGE_INTEGRITY) l ->
  blen (body l) + mi_size key + fp_size add <= 0xFFFF ->
  sealed type txid l key add = Some l' ->
  msg_ok type txid l' /\
  forall trail, accepts type txid l l' key add (parsed type txid l' trail).
Proof.
  intros [Ht Hx Hl Hs] Hmi Hsz. unfold sealed.
  destruct (seal_mi type txid l key) as [mi|] eqn:Em; [|done]. intros [= <-].
  pose proof (seal_mi_size _ _ _ _ _ Em) as E.
  assert (Forall attr_ok mi) as Hmiok.
  { unfold seal_mi in Em. destruct key; [injection Em as <-; constructor|].
    destruct (HMAC _ _) as [h|] eqn:Eh; [|done]. injection Em as <-.
    constructor; [|constructor]. apply attr_ok_mi. by eapply HMAC_size. }
  assert (msg_ok type txid (l ++ mi ++ seal_fp add type txid (l ++ mi))) as Hok.
  { split; [done|done| |].
    - rewrite !Forall_app. split; [done|]. split; [done|]. destruct add; [|constructor].
      constructor; [|constructor]. split; cbn; [by compute|by compute].
    - rewrite app_assoc, body_app, blen_app, E. destruct add; cbn [seal_fp fp_size] in *;
        [rewrite body_cons, blen_app, blen_fp|]; change (blen (body [])) with 0; lia. }
  split; [done|]. intros trail. split.
  - unfold parsed. cbn [method klass]. by destruct (DecodeType type).
  - done.
  - by apply views_read.
  - by eexists.
  - intros Hk. unfold seal_mi in Em. destruct key as [|k0 key]; [done|].
    destruct (HMAC _ _) as [h|] eqn:Eh; [|done]. injection Em as <-. cbn [app] in *.
    by apply VerifyMessageIntegrity_spec.
  - intros ->. rewrite app_assoc in Hok |- *. by apply VerifyFingerprint_spec.
Qed.
End Integrity.

(** ** Decoders on the layout *)

Lemma rd_mid a v c i : 0 <= i < blen v -> rd (a ++ v ++ c) (blen a + i) = rd v i.
Proof.
  intros Hi. pose proof (blen_nonneg a). pose proof (blen_nonneg c).
  rewrite !rd_ok by (rewrite ?blen_app; lia).
  rewrite bget_app_r by lia. replace (blen a + i - blen a) with i by lia.
  by rewrite bget_app_l.
Qed.

Lemma ReadBE64_at a v c b off :
  b = a ++ WriteBE64 [] v ++ c -> off = blen a -> is_u64 v -> ReadBE64 b off = Ret v.
Proof.
  intros -> -> Hv. set (w := WriteBE64 [] v).
  assert (blen w = 8) as E8 by done.
  assert (ReadBE64 (a ++ w ++ c) (blen a) = ReadBE64 w 0) as ->.
  { unfold ReadBE64, ReadUint64BE. rewrite <- (Z.add_0_r (blen a)) at 1.
    rewrite !rd_mid by lia. done. }
  unfold ReadBE64. rewrite ReadUint64BE_ok; [|unfold w, WriteBE64; bytes_list|lia|lia].
  f_equal. exact (be64_value v Hv).
Qed.

Section Decode.
Context (type : Z) (txid : list Z) (l : list StunAttribute) (trail : list Z).
Hypothesis Hok : msg_ok type txid l.
Let m := parsed type txid l trail.

Lemma DecodeUsername_spec l1 v l2 :
  v <> [] -> split_attr l USERNAME = Some (l1, mkAttr USERNAME v, l2) -> DecodeUsername m = Ret (Some v).
Proof.
  intros Hv Hs. unfold DecodeUsername, m. rewrite (found _ _ _ _ _ _ _ _ Hok Hs).
  destruct (split_attr_spec _ _ _ _ _ Hs) as [El _].
  rewrite (AttrValue_slot type txid l trail l1 (mkAttr USERNAME v) l2) by done.
  cbn [mbnd]. by destruct v.
Qed.

Lemma DecodePriority_spec l1 v l2 :
  is_u32 v -> split_attr l PRIORITY = Some (l1, mkAttr PRIORITY (WriteBE32 [] v), l2) ->
  DecodePriority m = Ret (Some v).
Proof.
  intros Hv Hs. unfold DecodePriority, m. rewrite (found _ _ _ _ _ _ _ _ Hok Hs).
  destruct (split_attr_spec _ _ _ _ _ Hs) as [El _].
  destruct (slot _ _ _ trail _ _ _ Hok El) as (pre & post & Eb & Ep & _).
  cbn [av_len value_offset value negb Z.eqb].
  unfold ReadBE32. erewrite (ReadUint32BE_at pre v); [done|exact Eb|done|done].
Qed.

Lemma decode_u64 (t : AttrType) l1 v l2 :
  is_u64 v -> split_attr l t = Some (l1, mkAttr t (WriteBE64 [] v), l2) ->
  match bounded_attr m t with
  | None => Ret None
  | Some (a, b) =>
    if negb (av_len a =? 8) then Ret None else
    let! v := ReadBE64 b (value_offset a) in Ret (Some v)
  end = Ret (Some v).
Proof.
  intros Hv Hs. unfold m. rewrite (found _ _ _ _ _ _ _ _ Hok Hs).
  destruct (split_attr_spec _ _ _ _ _ Hs) as [El _].
  destruct (slot _ _ _ trail _ _ _ Hok El) as (pre & post & Eb & Ep & _).
  cbn [av_len value_offset value negb Z.eqb].
  erewrite (ReadBE64_at pre v); [done|exact Eb|done|done].
Qed.

Lemma DecodeIceControlling_spec l1 v l2 :
  is_u64 v -> split_attr l ICE_CONTROLLING = Some (l1, mkAttr ICE_CONTROLLING (WriteBE64 [] v), l2) ->
  DecodeIceControlling m = Ret (Some v).
Proof. apply decode_u64. Qed.

Lemma DecodeIceControlled_spec l1 v l2 :
  is_u64 v -> split_attr l ICE_CONTROLLED = Some (l1, mkAttr ICE_CONTROLLED (WriteBE64 [] v), l2) ->
  DecodeIceControlled m = Ret (Some v).
Proof. apply decode_u64. Qed.

Lemma HasUseCandidate_spec : HasUseCandidate m = match split_attr l USE_CANDIDATE with Some _ => true | None => false end.
Proof.
  unfold HasUseCandidate, FindAttr. change (attrs m) with (views 20 l). rewrite find_attr_views.
  by destruct (split_attr l USE_CANDIDATE) as [[[? ?] ?]|].
Qed.

(** The address an endpoint stands for. *)
Definition address_of (ep : IpEndpoint) : XorMappedAddress :=
  if family ep =? family_value IPv4 then mkXorAddress false (port ep) (take 4 (ip ep) ++ repeat 0 12)
  else mkXorAddress true (port ep) (ip ep).

Record endpoint_ok (ep : IpEndpoint) : Prop := {
  eo_family : family ep = family_value IPv4 \/ family ep = family_value IPv6;
  eo_port : is_u16 (port ep);
  eo_ip : length (ip ep) = 16%nat
}.

Lemma port_xor p : is_u16 p ->
  let x := u16 (Z.shiftr kMagicCookie 16) in is_u16 (Z.lxor p x) /\ u16 (Z.lxor (Z.lxor p x) x) = p.
Proof.
  intros Hp x. split; [apply (lxor_range 16); [lia|done|by compute]|].
  by rewrite lxor_cancel, wrap_small.
Qed.

(** The fields of an address value in place. *)
Lemma addr_reads b pre post f p x y :
  b = pre ++ ([0; f] ++ be16 p ++ x ++ y) ++ post -> is_u16 p ->
  rd b (blen pre + 1) = Ret f /\ ReadBE16 b (blen pre + 2) = Ret p /\
  read_bytes b (blen pre + 4) (blen x) = Ret x /\
  read_bytes b (blen pre + 4 + blen x) (blen y) = Ret y.
Proof.
  intros Eb Hp. rewrite <- !app_assoc in Eb. split_and!.
  - eapply (rd_at (pre ++ [0])); [rewrite Eb, <- app_assoc; reflexivity|by rewrite blen_snoc].
  - eapply (ReadUint16BE_at (pre ++ [0; f])); [rewrite Eb, <- app_assoc; reflexivity|by rewrite blen_app|done].
  - eapply (read_bytes_at (pre ++ [0; f] ++ be16 p)); [rewrite Eb, <- !app_assoc; reflexivity| |done].
    rewrite !blen_app, blen_be16. unfold blen at 3. simpl. lia.
  - eapply (read_bytes_at (pre ++ [0; f] ++ be16 p ++ x)); [rewrite Eb, <- !app_assoc; reflexivity| |done].
    rewrite !blen_app, blen_be16. unfold blen at 4. simpl. lia.
Qed.

Lemma DecodeXorAddress_spec (t : AttrType) ep v l1 l2 :
  t = XOR_MAPPED_ADDRESS \/ t = XOR_PEER_ADDRESS \/ t = XOR_RELAYED_ADDRESS ->
  endpoint_ok ep -> EncodeXorAddress ep txid = Some v ->
  split_attr l t = Some (l1, mkAttr t v, l2) ->
  DecodeXorAddress m t = Ret (Some (address_of ep)).
Proof.
  intros Ht [Hf Hp Hi] Hv Hs. unfold DecodeXorAddress, m.
  replace (bool_decide (t <> XOR_MAPPED_ADDRESS) && bool_decide (t <> XOR_PEER_ADDRESS) &&
           bool_decide (t <> XOR_RELAYED_ADDRESS)) with false
    by (by destruct Ht as [->|[->| ->]]).
  rewrite (found _ _ _ _ _ _ _ _ Hok Hs). destruct (split_attr_spec _ _ _ _ _ Hs) as [El _].
  destruct (slot _ _ _ trail _ _ _ Hok El) as (pre & post & Eb & Ep & _).
  cbn [av_len value_offset value] in *. rewrite <- Ep. unfold EncodeXorAddress in Hv.
  destruct (port_xor (port ep) Hp) as [Hx1 Hx2].
  set (x := u16 (Z.shiftr kMagicCookie 16)) in *. rewrite (wrap_small 16) in Hv by done.
  pose proof (mo_txid _ _ _ Hok) as Htx.
  assert (length (take 4 (ip ep)) = length cookie_bytes) as L4 by (rewrite length_take, Hi; done).
  assert (length (take 12 (drop 4 (ip ep))) = length txid) as L12
    by (rewrite length_take, length_drop, Hi, Htx; done).
  set (x4 := zip_with Z.lxor (take 4 (ip ep)) cookie_bytes) in *.
  set (x12 := zip_with Z.lxor (take 12 (drop 4 (ip ep))) txid) in *.
  assert (blen x4 = 4) as B4 by (unfold x4, blen; rewrite length_zip_with_l_eq, L4 by done; done).
  assert (blen x12 = 12) as B12
    by (unfold x12, blen; rewrite length_zip_with_l_eq, L12, Htx by done; done).
  unfold address_of. destruct Hf as [Hf|Hf]; rewrite Hf in *;
    cbn [family_value Z.eqb Pos.eqb] in *; injection Hv as Hv.
  - assert (v = [0; 1] ++ be16 (Z.lxor (port ep) x) ++ x4 ++ []) as Ev by (rewrite <- Hv, app_nil_r; done).
    rewrite Ev in Eb |- *. destruct (addr_reads _ _ _ _ _ _ _ Eb Hx1) as (-> & -> & R1 & _).
    rewrite !blen_app, blen_be16, B4 in *. cbn [mbnd]. rewrite Hx2.
    change (blen [0; 1] + (2 + (4 + blen []))) with 8. change (8 <? 4) with false.
    cbn [Z.eqb Pos.eqb negb]. rewrite R1. cbn [mbnd]. unfold x4. by rewrite zip_lxor_cancel.
  - assert (v = [0; 2] ++ be16 (Z.lxor (port ep) x) ++ x4 ++ x12) as Ev by (by rewrite <- Hv).
    rewrite Ev in Eb |- *. destruct (addr_reads _ _ _ _ _ _ _ Eb Hx1) as (-> & -> & R1 & R2).
    rewrite !blen_app, blen_be16, B4, B12 in *. rewrite <- Z.add_assoc in R2. cbn [mbnd]. rewrite Hx2.
    change (blen [0; 2] + (2 + (4 + 12))) with 20. change (20 <? 4) with false.
    cbn [Z.eqb Pos.eqb negb]. rewrite R1. cbn [mbnd]. change (4 + 4) with 8 in R2. rewrite R2. cbn [mbnd].
    unfold x4, x12. rewrite !zip_lxor_cancel by done. do 3 f_equal.
    rewrite (take_ge (drop 4 (ip ep))) by (rewrite length_drop; lia). apply take_drop.
Qed.

Lemma DecodeErrorCode_spec e l1 l2 :
  0 <= code e < 800 -> split_attr l ERROR_CODE = Some (l1, mkAttr ERROR_CODE (error_value e), l2) ->
  DecodeErrorCode m = Ret (Some (mkError (code e) (reason e) [])).
Proof.
  intros Hc Hs. unfold DecodeErrorCode, m. rewrite (found _ _ _ _ _ _ _ _ Hok Hs).
  destruct (split_attr_spec _ _ _ _ _ Hs) as [El _].
  destruct (slot _ _ _ trail _ _ _ Hok El) as (pre & post & Eb & Ep & _).
  cbn [value] in *. set (off := 20 + blen (body l1) + 4) in *. cbn [av_len value_offset].
  unfold error_value in *. set (c1 := u8 (u16 (code e / 100))) in *. set (c2 := u8 (u16 (code e mod 100))) in *.
  assert (c1 = code e / 100 /\ c2 = code e mod 100 /\ 0 <= code e / 100 < 8) as (E1 & E2 & Hr) by (unfold c1, c2; words).
  rewrite blen_app. change (blen [0; 0; c1; c2]) with 4. pose proof (blen_nonneg (reason e)).
  rewrite (proj2 (Z.ltb_ge _ _)) by lia. rewrite <- !app_assoc in Eb. cbn [app] in Eb.
  erewrite (rd_at (pre ++ [0; 0]) c1);
    [|rewrite Eb, <- app_assoc; reflexivity|rewrite blen_app; unfold blen at 2; simpl; lia]. cbn [mbnd].
  erewrite (rd_at (pre ++ [0; 0; c1]) c2);
    [|rewrite Eb, <- app_assoc; reflexivity|rewrite blen_app; unfold blen at 2; simpl; lia]. cbn [mbnd].
  assert (u16 (Z.land c1 7 * 100 + c2) = code e) as ->.
  { change 7 with (2 ^ 3 - 1). rewrite land_ones_mod by lia. change (2 ^ 3) with 8. words. }
  rewrite Z.gtb_ltb. destruct (Z.ltb_spec 4 (4 + blen (reason e))).
  - erewrite (read_bytes_at (pre ++ [0; 0; c1; c2]) (reason e));
      [done|rewrite Eb, <- app_assoc; reflexivity|rewrite blen_app; unfold blen at 2; simpl; lia|lia].
  - destruct (reason e); [done|]. rewrite blen_cons in *. pose proof (blen_nonneg l0). lia.
Qed.
End Decode.
