(* ===== verification/StunProps.v ===== *)
(** * Round trips of STUN messages

    What the builders of [StunCodec] produce is accepted by its parser, reads
    back unchanged through its decoders, and passes its integrity and
    fingerprint checks.  HMAC-SHA1 is the interface [HmacSha1]; where a
    builder must succeed, the hypothesis is that OpenSSL returns a digest. *)
From S2P Require Import Prelude Bytes Stun StunLayout.
Import StunCodec.

(** ** Whole messages *)

Section Messages.
Context `{HmacSha1}.

Lemma header_message type txid : header_bytes type txid = message type 0 txid [].
Proof. unfold header_bytes. rewrite message_split, app_nil_r. done. Qed.

Lemma append_attributes_spec type len txid k l :
  Forall attr_ok l ->
  append_attributes (message type len txid k) l = Ret (Some (message type len txid (k ++ l))).
Proof.
  intros Hl. revert k. induction Hl as [|[t v] l [_ Hv] Hl IH]; intros k; cbn [append_attributes].
  - by rewrite app_nil_r.
  - cbn [attr_type value] in *. pose proof (blen_nonneg v). rewrite (wrap_small 16) by words.
    rewrite AppendAttr_spec, message_snoc by lia. cbn [then_append mbnd].
    rewrite IH, <- app_assoc. done.
Qed.

Lemma check_attributes_spec s l :
  check_attributes s l = true -> Forall (fun a => is_u16 (attr_type a)) l -> s <= 0xFFFF ->
  Forall attr_ok l /\ Forall (fun a => attr_type a <> MESSAGE_INTEGRITY) l /\
  s + blen (body l) <= 0xFFFF.
Proof.
  intros Hc Hl. revert s Hc. induction Hl as [|a l Ha Hl IH]; intros s; cbn [check_attributes]; cbv zeta.
  - intros _ Hs. split; [constructor|]. split; [constructor|]. change (blen (body [])) with 0. lia.
  - split_if; [discriminate|]. split_if; [discriminate|]. intros Hc Hs. bool_hyps.
    destruct (IH _ Hc) as (I1 & I2 & I3); [lia|].
    assert (attr_ok a) by (split; [done|lia]).
    split; [by constructor|]. split; [by constructor|].
    rewrite body_cons, blen_app, blen_attr by done. lia.
Qed.

(** A message the builder accepts is the sealed message with its attributes. *)
Lemma message_built m c txid l key add :
  0 <= m <= 0xFFF -> 0 <= c <= 3 -> length txid = 12%nat ->
  Forall (fun a => is_u16 (attr_type a)) l -> blen key <= 0x7FFFFFFF ->
  (key <> [] -> forall data, HMAC key data <> None) ->
  check_attributes (mi_size key + fp_size add) l = true ->
  exists out l',
    BuildMessage m c txid l key add = Ret (Some out) /\ blen out = 20 + blen (body l') /\
    out = message (EncodeType m c) (blen (body l')) txid l' /\
    sealed (EncodeType m c) txid l key add = Some l' /\ msg_ok (EncodeType m c) txid l' /\
    forall trail,
      Parse (Some (out ++ trail)) = Ret (true, parsed (EncodeType m c) txid l' trail) /\
      (method (parsed (EncodeType m c) txid l' trail), klass (parsed (EncodeType m c) txid l' trail)) = (m, c) /\
      accepts (EncodeType m c) txid l l' key add (parsed (EncodeType m c) txid l' trail).
Proof.
  intros Hm Hc Hx Hl Hk Hmac Hchk. destruct (type_roundtrip m c Hm Hc) as [Ed Hr].
  assert (mi_size key + fp_size add <= 32 /\ 0 <= mi_size key /\ 0 <= fp_size add) as (Hs & ? & ?)
    by (destruct key, add; simpl; lia).
  destruct (check_attributes_spec _ _ Hchk Hl) as (Hok & Hmi & Hsz); [lia|].
  pose proof (blen_nonneg (body l)).
  assert (exists l', sealed (EncodeType m c) txid l key add = Some l') as [l' El'].
  { unfold sealed, seal_mi. destruct key; [by eexists|].
    destruct (HMAC _ _) eqn:E; [by eexists|]. by apply Hmac in E. }
  destruct (sealed_ok (EncodeType m c) txid l key add l') as [Hok' Hacc]; try done; [|lia|].
  { by split; [| | |lia]. }
  exists (message (EncodeType m c) (blen (body l')) txid l'), l'.
  split; [|split; [by apply blen_message|split; [done|split; [done|split; [done|]]]]].
  - unfold BuildMessage. rewrite !Z.gtb_ltb. rewrite !(proj2 (Z.ltb_ge _ _)) by lia. cbn [orb].
    fold (mi_size key). fold (fp_size add). rewrite Hchk. cbn [negb].
    unfold WriteBE16_at, BuildBindingRequest. rewrite header_message.
    erewrite (WriteUint16BE_at []); [|reflexivity|done]. cbn [mbnd app].
    change (be16 (EncodeType m c) ++ _) with (message (EncodeType m c) 0 txid []).
    rewrite append_attributes_spec by done. cbn [then_append mbnd app].
    rewrite seal_spec by (try done; lia). by rewrite El'.
  - intros trail. rewrite Parse_message by done. split; [done|]. split; [|apply Hacc].
    by rewrite (ac_type _ _ _ _ _ _ _ (Hacc trail)).
Qed.

(** C29.  A message built by [BuildMessage] is accepted by [Parse], alone or
    at the front of a longer buffer, and reads back completely: method, class
    and transaction id, every attribute with its type and value in order
    (followed by the attributes the builder adds), a MESSAGE-INTEGRITY that
    verifies under the key and a FINGERPRINT that verifies.  The builder
    succeeds whenever its own validation of the attributes does. *)
Theorem stun_message_roundtrip m c txid l key add :
  0 <= m <= 0xFFF -> 0 <= c <= 3 -> length txid = 12%nat ->
  Forall (fun a => is_u16 (attr_type a)) l -> blen key <= 0x7FFFFFFF ->
  (forall data, HMAC key data <> None) ->
  check_attributes (mi_size key + fp_size add) l = true ->
  exists out l',
    BuildMessage m c txid l key add = Ret (Some out) /\
    forall trail, exists i,
      Parse (Some (out ++ trail)) = Ret (true, i) /\
      (method i, klass i) = (m, c) /\ StunCodec.txid i = txid /\
      l `prefix_of` l' /\ Forall2 (reads_as i) l' (attrs i) /\
      (key <> [] -> VerifyMessageIntegrity i key = Ret true) /\
      (add = true -> VerifyFingerprint i = Ret true).
Proof.
  intros Hm Hc Hx Hl Hk Hmac Hchk.
  destruct (message_built m c txid l key add) as (out & l' & HB & _ & _ & _ & _ & HP); try done.
  exists out, l'. split; [done|]. intros trail. destruct (HP trail) as (P1 & P2 & [A1 A2 A3 A4 A5 A6]).
  by exists (parsed (EncodeType m c) txid l' trail).
Qed.

Lemma copy_seal key add buf cap :
  then_append (with_integrity key buf) (fun buf =>
  then_append (with_fingerprint add buf) (fun buf =>
  then_append (UpdateMessageLength buf) (copy_out cap))) =
  then_append (then_append (with_integrity key buf) (fun buf =>
               then_append (with_fingerprint add buf) UpdateMessageLength)) (copy_out cap).
Proof.
  unfold then_append. destruct (with_integrity key buf) as [[b|]| |]; try done. cbn [mbnd].
  by destruct (with_fingerprint add b) as [[d|]| |].
Qed.

(** The common argument of the fixed-shape builders: the attributes [l], then
    the seal, then the copy. *)
Lemma build_sealed m c txid l key add cap (buf : list Z) :
  0 <= m <= 0xFFF -> 0 <= c <= 3 -> length txid = 12%nat ->
  Forall attr_ok l -> Forall (fun a => attr_type a <> MESSAGE_INTEGRITY) l ->
  (forall data, HMAC key data <> None) ->
  blen (body l) + mi_size key + fp_size add <= 0xFFFF ->
  20 + blen (body l) + mi_size key + fp_size add <= cap ->
  buf = message (EncodeType m c) 0 txid l ->
  exists out l',
    then_append (with_integrity key buf) (fun buf =>
    then_append (with_fingerprint add buf) (fun buf =>
    then_append (UpdateMessageLength buf) (copy_out cap))) = Ret (Some out) /\ blen out <= cap /\
    blen out = 20 + blen (body l') /\
    sealed (EncodeType m c) txid l key add = Some l' /\
    msg_ok (EncodeType m c) txid l' /\
    forall trail,
      Parse (Some (out ++ trail)) = Ret (true, parsed (EncodeType m c) txid l' trail) /\
      accepts (EncodeType m c) txid l l' key add (parsed (EncodeType m c) txid l' trail).
Proof.
  intros Hm Hc Hx Hok Hmi Hmac Hsz Hcap ->. destruct (type_roundtrip m c Hm Hc) as [Ed Hr].
  assert (0 <= mi_size key /\ 0 <= fp_size add) as (? & ?) by (destruct key, add; simpl; lia).
  assert (exists l', sealed (EncodeType m c) txid l key add = Some l') as [l' El'].
  { unfold sealed, seal_mi. destruct key; [by eexists|].
    destruct (HMAC _ _) eqn:E; [by eexists|]. by apply Hmac in E. }
  destruct (sealed_ok (EncodeType m c) txid l key add l') as [Hok' Hacc]; try done.
  { by split; [| | |lia]. }
  exists (message (EncodeType m c) (blen (body l')) txid l'), l'.
  assert (blen (body l') = blen (body l) + mi_size key + fp_size add) as E.
  { unfold sealed in El'. destruct (seal_mi _ _ _ _) as [mi|] eqn:Em; [|done].
    injection El' as <-. pose proof (seal_mi_size _ _ _ _ _ Em) as E.
    rewrite app_assoc, body_app, blen_app, E. destruct add; cbn [seal_fp fp_size];
      [rewrite body_cons, blen_app, blen_fp|]; change (blen (body [])) with 0; lia. }
  split; [|split; [rewrite blen_message by done; lia|]; split; [by rewrite blen_message|]; split; [done|]; split; [done|];
           intros trail; split; [by apply Parse_message|apply Hacc]].
  rewrite copy_seal, seal_spec, El' by done. cbn [then_append mbnd]. unfold copy_out.
  rewrite blen_message, E by done. rewrite Z.gtb_ltb, (proj2 (Z.ltb_ge _ _)) by lia. done.
Qed.

(** Which attribute of [l' = l ++ seal] is found. *)
Lemma split_sealed type txid l key add l' (t : Z) :
  sealed type txid l key add = Some l' -> t <> MESSAGE_INTEGRITY -> t <> FINGERPRINT ->
  Forall (fun a => attr_type a <> MESSAGE_INTEGRITY) l ->
  match split_attr l t with
  | Some (l1, a, l2) => exists l3, split_attr l' t = Some (l1, a, l3)
  | None => split_attr l' t = None
  end.
Proof.
  unfold sealed. destruct (seal_mi _ _ _ _) as [mi|] eqn:Em; [|done]. intros [= <-] H1 H2 Hl.
  assert (split_attr (mi ++ seal_fp add type txid (l ++ mi)) t = None) as Hn.
  { unfold seal_mi in Em. destruct key.
    - injection Em as <-. destruct add; [|done]. cbn [app seal_fp split_attr attr_type].
      rewrite (proj2 (Z.eqb_neq FINGERPRINT t)) by congruence. done.
    - destruct (HMAC _ _); [|done]. injection Em as <-. cbn [app split_attr attr_type].
      rewrite (proj2 (Z.eqb_neq 8 t)), (proj2 (Z.eqb_neq t FINGERPRINT)) by (try apply not_eq_sym; done).
      done. }
  revert Hn. generalize (mi ++ seal_fp add type txid (l ++ mi)) as s. clear Em. intros s Hn.
  induction Hl as [|a l Ha Hl IH]; cbn [app split_attr]; [done|].
  destruct (attr_type a =? t); [by eexists|].
  rewrite (proj2 (Z.eqb_neq _ _) Ha). cbn [andb].
  destruct (split_attr l t) as [[[l1 x] l2]|].
  - destruct IH as [l3 ->]. by eexists.
  - by rewrite IH.
Qed.

Ltac attrs_ok := repeat (apply Forall_cons_2 || apply Forall_nil_2); try done;
  split; cbn [attr_type value]; (by compute) || lia || (unfold blen; simpl; lia).

(** The attributes of a connectivity check. *)
Definition request_attrs (i : IceRequestParams) : list StunAttribute :=
  [mkAttr USERNAME (username i); mkAttr PRIORITY (WriteBE32 [] (priority i));
   mkAttr (if controlling i then ICE_CONTROLLING else ICE_CONTROLLED) (WriteBE64 [] (tie_breaker i))] ++
  (if use_candidate i then [mkAttr USE_CANDIDATE []] else []).

Record request_ok (i : IceRequestParams) (cap : Z) : Prop := {
  ro_txid : length (rq_txid i) = 12%nat;
  ro_name : username i <> [];
  ro_priority : is_u32 (priority i);
  ro_tie : is_u64 (tie_breaker i);
  ro_size : blen (username i) + 80 <= 0xFFFF;
  ro_cap : blen (username i) + 100 <= cap
}.

Lemma request_attrs_size i :
  blen (username i) <= 0xFFFF -> blen (body (request_attrs i)) <= blen (username i) + 31.
Proof.
  intros Hu. unfold request_attrs. rewrite body_app, blen_app, !body_cons, !blen_app.
  pose proof (blen_nonneg (username i)).
  rewrite !blen_attr by (split; cbn [attr_type value]; [by destruct (controlling i); compute|];
    try (unfold blen; simpl; lia); lia).
  cbn [value]. change (Pad4 (blen (WriteBE32 _ _))) with 4. change (Pad4 (blen (WriteBE64 _ _))) with 8.
  change (blen (body [])) with 0.
  assert (blen (body (if use_candidate i then [mkAttr USE_CANDIDATE []] else [])) <= 4)
    by (destruct (use_candidate i); by compute).
  rewrite Pad4_spec by lia. words.
Qed.

Lemma AppendAttr_null out t : AppendAttr out t None 0 = Ret (Some (out ++ attr_bytes (mkAttr t []))).
Proof. unfold AppendAttr, WriteBE16. cbn [mbnd Z.gtb Z.compare]. rewrite <- !app_assoc. done. Qed.

(** The builder's append calls, without the seal. *)
Lemma request_prefix i cap :
  request_ok i cap ->
  BuildIceBindingRequest i cap =
  then_append (with_integrity (rq_password i) (message (EncodeType 1 0) 0 (rq_txid i) (request_attrs i)))
    (fun buf => then_append (with_fingerprint (rq_add_fingerprint i) buf) (fun buf =>
    then_append (UpdateMessageLength buf) (copy_out cap))).
Proof.
  intros [Hx _ _ _ Hs _]. unfold BuildIceBindingRequest, BuildBindingRequest. rewrite header_message.
  pose proof (blen_nonneg (username i)).
  unfold AppendUsernameAttr. rewrite (wrap_small 16) by words.
  rewrite AppendAttr_spec, message_snoc by lia. cbn [then_append mbnd app].
  unfold AppendUInt32Attr. rewrite AppendAttr_spec, message_snoc by done. cbn [then_append mbnd app].
  unfold AppendUInt64Attr, request_attrs. destruct (controlling i), (use_candidate i);
    (rewrite AppendAttr_spec, message_snoc by done); cbn [then_append mbnd app]; try done;
    unfold AppendUseCandidateAttr; rewrite AppendAttr_null, message_snoc; done.
Qed.

Lemma request_attrs_ok i :
  blen (username i) <= 0xFFFF ->
  Forall attr_ok (request_attrs i) /\ Forall (fun a => attr_type a <> MESSAGE_INTEGRITY) (request_attrs i).
Proof.
  intros Hs. unfold request_attrs. split; destruct (controlling i), (use_candidate i); try attrs_ok;
    repeat (apply Forall_cons_2 || apply Forall_nil_2); done.
Qed.

(** A connectivity check is the sealed message with its attributes. *)
Lemma request_built i cap :
  request_ok i cap -> (forall data, HMAC (rq_password i) data <> None) ->
  exists out l', BuildIceBindingRequest i cap = Ret (Some out) /\ blen out <= cap /\
    blen out = 20 + blen (body l') /\
    sealed (EncodeType 1 0) (rq_txid i) (request_attrs i) (rq_password i) (rq_add_fingerprint i) = Some l' /\
    msg_ok (EncodeType 1 0) (rq_txid i) l' /\
    forall trail,
      Parse (Some (out ++ trail)) = Ret (true, parsed (EncodeType 1 0) (rq_txid i) l' trail) /\
      accepts (EncodeType 1 0) (rq_txid i) (request_attrs i) l' (rq_password i) (rq_add_fingerprint i)
        (parsed (EncodeType 1 0) (rq_txid i) l' trail).
Proof.
  intros Hok Hmac. pose proof Hok as [Hx Hn Hp Ht Hs Hc]. pose proof (blen_nonneg (username i)).
  pose proof (request_attrs_size i ltac:(lia)) as Hsz.
  destruct (request_attrs_ok i ltac:(lia)) as [Hattrs Hmi].
  assert (mi_size (rq_password i) <= 24 /\ fp_size (rq_add_fingerprint i) <= 8) as [? ?]
    by (destruct (rq_password i), (rq_add_fingerprint i); simpl; lia).
  destruct (build_sealed 1 0 (rq_txid i) (request_attrs i) (rq_password i) (rq_add_fingerprint i) cap _
    ltac:(lia) ltac:(lia) Hx Hattrs Hmi Hmac ltac:(lia) ltac:(lia) eq_refl)
    as (out & l' & Eb & Ecap & Esz & El' & Hok' & Hacc).
  exists out, l'. rewrite request_prefix by done. done.
Qed.

(** What the decoders read from it. *)
Lemma request_decodes i cap l' trail :
  request_ok i cap ->
  sealed (EncodeType 1 0) (rq_txid i) (request_attrs i) (rq_password i) (rq_add_fingerprint i) = Some l' ->
  msg_ok (EncodeType 1 0) (rq_txid i) l' ->
  let m := parsed (EncodeType 1 0) (rq_txid i) l' trail in
  DecodeUsername m = Ret (Some (username i)) /\ DecodePriority m = Ret (Some (priority i)) /\
  DecodeIceControlling m = Ret (if controlling i then Some (tie_breaker i) else None) /\
  DecodeIceControlled m = Ret (if controlling i then None else Some (tie_breaker i)) /\
  HasUseCandidate m = use_candidate i.
Proof.
  intros [Hx Hn Hp Ht Hs Hc] El' Hok' m. destruct (request_attrs_ok i ltac:(lia)) as [_ Hmi].
  pose proof (fun t H1 H2 => split_sealed _ _ _ _ _ _ t El' H1 H2 Hmi) as HS.
  pose proof (HS USERNAME ltac:(done) ltac:(done)) as S1.
  pose proof (HS PRIORITY ltac:(done) ltac:(done)) as S2.
  pose proof (HS ICE_CONTROLLING ltac:(done) ltac:(done)) as S3.
  pose proof (HS ICE_CONTROLLED ltac:(done) ltac:(done)) as S4.
  pose proof (HS USE_CANDIDATE ltac:(done) ltac:(done)) as S5. subst m.
  assert (HasUseCandidate (parsed (EncodeType 1 0) (rq_txid i) l' trail) = use_candidate i) as ->.
  { rewrite HasUseCandidate_spec. unfold request_attrs in S5. cbn [attr_value].
    destruct (controlling i), (use_candidate i); cbn in S5; (rewrite S5 || destruct S5 as [? ->]); done. }
  unfold request_attrs in S1, S2. cbn in S1, S2. destruct S1 as [k1 S1], S2 as [k2 S2].
  rewrite (DecodeUsername_spec _ _ _ _ Hok' _ _ _ Hn S1).
  rewrite (DecodePriority_spec _ _ _ _ Hok' _ _ _ Hp S2).
  unfold request_attrs in S3, S4. destruct (controlling i), (use_candidate i); cbn in S3, S4;
    (destruct S3 as [k3 S3]; rewrite (DecodeIceControlling_spec _ _ _ _ Hok' _ _ _ Ht S3);
     unfold DecodeIceControlled; rewrite (not_found _ _ _ _ _ S4); done) ||
    (destruct S4 as [k4 S4]; rewrite (DecodeIceControlled_spec _ _ _ _ Hok' _ _ _ Ht S4);
     unfold DecodeIceControlling; rewrite (not_found _ _ _ _ _ S3); done).
Qed.

(** A connectivity check built by [BuildIceBindingRequest] is parsed by
    the peer as a Binding request with the sender's transaction id, user name,
    priority and role (with its tie-breaker), nominates exactly when
    [use_candidate] is set, and verifies under the password and against its
    fingerprint. *)
Theorem ice_request_roundtrip i cap :
  request_ok i cap -> (forall data, HMAC (rq_password i) data <> None) ->
  exists out, BuildIceBindingRequest i cap = Ret (Some out) /\ blen out <= cap /\
  forall trail, exists m,
    Parse (Some (out ++ trail)) = Ret (true, m) /\
    IsBindingRequest m = true /\ StunCodec.txid m = rq_txid i /\
    DecodeUsername m = Ret (Some (username i)) /\ DecodePriority m = Ret (Some (priority i)) /\
    DecodeIceControlling m = Ret (if controlling i then Some (tie_breaker i) else None) /\
    DecodeIceControlled m = Ret (if controlling i then None else Some (tie_breaker i)) /\
    HasUseCandidate m = use_candidate i /\
    (rq_password i <> [] -> VerifyMessageIntegrity m (rq_password i) = Ret true) /\
    (rq_add_fingerprint i = true -> VerifyFingerprint m = Ret true).
Proof.
  intros Hok Hmac.
  destruct (request_built i cap Hok Hmac) as (out & l' & HB & Hc & _ & El' & Hok' & Hacc).
  exists out. split; [done|]. split; [done|].
  intros trail. destruct (Hacc trail) as [HP [A1 A2 A3 A4 A5 A6]].
  destruct (request_decodes i cap l' trail Hok El' Hok') as (D1 & D2 & D3 & D4 & D5).
  exists (parsed (EncodeType 1 0) (rq_txid i) l' trail). by split_and!.
Qed.

Lemma EncodeXorAddress_size ep txid :
  endpoint_ok ep -> length txid = 12%nat ->
  exists v, EncodeXorAddress ep txid = Some v /\ blen v <= 20.
Proof.
  intros [Hf _ Hi] Hx. unfold EncodeXorAddress.
  assert (length (zip_with Z.lxor (take 4 (ip ep)) cookie_bytes) <= 4)%nat
    by (rewrite length_zip_with; cbn; lia).
  assert (length (zip_with Z.lxor (take 12 (drop 4 (ip ep))) txid) <= 12)%nat
    by (rewrite length_zip_with; lia).
  destruct Hf as [-> | ->]; cbn [family_value Z.eqb Pos.eqb]; eexists; (split; [done|]);
    unfold WriteBE16, blen; rewrite !length_app; simpl length; lia.
Qed.

(** A success response built by [BuildIceBindingSuccess] echoes the
    request's transaction id, is parsed as a Binding success response, carries
    the mapped address through the XOR encoding unchanged (IPv4 and IPv6), and
    verifies under the password and against its fingerprint. *)
Lemma ice_success_roundtrip i r cap :
  req i = Some r -> length (StunCodec.txid r) = 12%nat -> endpoint_ok (mapped_addr i) ->
  (forall data, HMAC (sc_password i) data <> None) -> 76 <= cap ->
  exists out, BuildIceBindingSuccess i cap = Ret (Some out) /\
  forall trail, exists m,
    Parse (Some (out ++ trail)) = Ret (true, m) /\
    IsBindingResponse m = true /\ StunCodec.txid m = StunCodec.txid r /\
    DecodeXorMappedAddress m = Ret (Some (address_of (mapped_addr i))) /\
    (sc_password i <> [] -> VerifyMessageIntegrity m (sc_password i) = Ret true) /\
    (sc_add_fingerprint i = true -> VerifyFingerprint m = Ret true).
Proof.
  intros Hr Hx Hep Hmac Hcap. destruct (EncodeXorAddress_size _ _ Hep Hx) as (v & Ev & Hv).
  set (l := [mkAttr XOR_MAPPED_ADDRESS v]). pose proof (blen_nonneg v).
  assert (attr_ok (mkAttr XOR_MAPPED_ADDRESS v)) as Ha by (split; cbn [attr_type value]; [by compute|lia]).
  assert (blen (body l) <= 24) as Hs.
  { unfold l. rewrite body_cons, blen_app, blen_attr by done. cbn [value].
    change (blen (body [])) with 0. rewrite Pad4_spec by lia. words. }
  assert (mi_size (sc_password i) <= 24 /\ fp_size (sc_add_fingerprint i) <= 8) as [? ?]
    by (destruct (sc_password i), (sc_add_fingerprint i); simpl; lia).
  assert (Forall (fun a => attr_type a <> MESSAGE_INTEGRITY) l) as Hmi by (by constructor; [|constructor]).
  destruct (build_sealed 1 2 (StunCodec.txid r) l (sc_password i) (sc_add_fingerprint i) cap _
    ltac:(lia) ltac:(lia) Hx ltac:(by constructor; [|constructor]) Hmi Hmac ltac:(lia) ltac:(lia) eq_refl)
    as (out & l' & Eb & Ecap & _ & El' & Hok' & Hacc).
  exists out. split.
  - unfold BuildIceBindingSuccess. rewrite Hr, header_message. unfold AppendXorMappedAddressAttr.
    rewrite Ev, (wrap_small 16) by words. rewrite AppendAttr_spec, message_snoc by lia. exact Eb.
  - intros trail. destruct (Hacc trail) as [HP [A1 A2 A3 A4 A5 A6]].
    exists (parsed (EncodeType 1 2) (StunCodec.txid r) l' trail). split; [done|]. split; [done|]. split; [done|].
    split; [|done].
    pose proof (split_sealed _ _ _ _ _ _ XOR_MAPPED_ADDRESS El' ltac:(done) ltac:(done) Hmi) as S1.
    cbn in S1. destruct S1 as [k S1].
    apply (DecodeXorAddress_spec _ _ _ trail Hok' XOR_MAPPED_ADDRESS _ v [] k); auto.
Qed.

Definition error_attrs (e : StunErrorCode) : list StunAttribute :=
  mkAttr ERROR_CODE (error_value e) ::
  match unknown_attributes e with
  | [] => []
  | _ => [mkAttr UNKNOWN_ATTRIBUTES (List.concat (map be16 (unknown_attributes e)))]
  end.

Lemma fold_WriteBE16 l acc : fold_left WriteBE16 l acc = acc ++ List.concat (map be16 l).
Proof.
  revert acc. induction l as [|v l IH]; intros acc; [by rewrite app_nil_r|].
  simpl fold_left. rewrite IH. unfold WriteBE16. by rewrite <- app_assoc.
Qed.

(** An error response built by [BuildBindingError] is parsed as a
    Binding error response with the request's transaction id; the error code
    (any code below 800) and the reason decode unchanged, and the unknown
    attribute list is carried behind it; the response verifies under the
    password and against its fingerprint. *)
Theorem binding_error_roundtrip r e password cap :
  length (StunCodec.txid r) = 12%nat -> 0 <= code e < 800 ->
  blen (reason e) <= 1000 -> blen (List.concat (map be16 (unknown_attributes e))) <= 1000 ->
  (forall data, HMAC password data <> None) -> 2100 <= cap ->
  exists out, BuildBindingError r e password cap = Ret (Some out) /\
  forall trail, exists m l',
    Parse (Some (out ++ trail)) = Ret (true, m) /\
    IsBindingErrorResponse m = true /\ StunCodec.txid m = StunCodec.txid r /\
    DecodeErrorCode m = Ret (Some (mkError (code e) (reason e) [])) /\
    error_attrs e `prefix_of` l' /\ Forall2 (reads_as m) l' (attrs m) /\
    (password <> [] -> VerifyMessageIntegrity m password = Ret true) /\
    VerifyFingerprint m = Ret true.
Proof.
  intros Hx Hc Hre Hun Hmac Hcap. pose proof (blen_nonneg (reason e)).
  set (u := List.concat (map be16 (unknown_attributes e))) in *. pose proof (blen_nonneg u).
  assert (blen (error_value e) = 4 + blen (reason e)) as Hv by (unfold error_value; by rewrite blen_app).
  assert (attr_ok (mkAttr ERROR_CODE (error_value e)) /\ attr_ok (mkAttr UNKNOWN_ATTRIBUTES u)) as [Ha1 Ha2]
    by (split; split; cbn [attr_type value]; first [lia | by compute]).
  assert (Forall attr_ok (error_attrs e)) as Hok.
  { unfold error_attrs. constructor; [done|]. fold u. destruct (unknown_attributes e); [constructor|].
    constructor; [done|constructor]. }
  assert (blen (body (error_attrs e)) <= 2030) as Hs.
  { unfold error_attrs. fold u. rewrite body_cons, blen_app, blen_attr by done. cbn [value].
    rewrite Pad4_spec by lia. destruct (unknown_attributes e);
      [change (blen (body [])) with 0; words|].
    rewrite body_cons, blen_app, blen_attr by done. cbn [value]. change (blen (body [])) with 0.
    rewrite Pad4_spec by lia. words. }
  assert (Forall (fun a => attr_type a <> MESSAGE_INTEGRITY) (error_attrs e)) as Hmi.
  { unfold error_attrs. constructor; [done|]. destruct (unknown_attributes e); [constructor|].
    by constructor; [|constructor]. }
  assert (mi_size password <= 24) by (destruct password; simpl; lia).
  destruct (build_sealed 1 3 (StunCodec.txid r) (error_attrs e) password true cap _
    ltac:(lia) ltac:(lia) Hx Hok Hmi Hmac ltac:(simpl fp_size; lia) ltac:(simpl fp_size; lia) eq_refl)
    as (out & l' & Eb & Ecap & _ & El' & Hok' & Hacc).
  exists out. split.
  - unfold BuildBindingError. rewrite header_message, (wrap_small 16) by words.
    rewrite AppendAttr_spec, message_snoc by lia. cbn [then_append mbnd app]. rewrite <- Eb.
    unfold error_attrs. fold u. destruct (unknown_attributes e) as [|z k] eqn:Eu; [done|].
    rewrite fold_WriteBE16. cbn [app]. fold u.
    rewrite (wrap_small 16) by words. rewrite AppendAttr_spec, message_snoc by lia. done.
  - intros trail. destruct (Hacc trail) as [HP [A1 A2 A3 A4 A5 A6]].
    exists (parsed (EncodeType 1 3) (StunCodec.txid r) l' trail), l'.
    split; [done|]. split; [done|]. split; [done|].
    pose proof (split_sealed _ _ _ _ _ _ ERROR_CODE El' ltac:(done) ltac:(done) Hmi) as S1.
    cbn in S1. destruct S1 as [k S1].
    rewrite (DecodeErrorCode_spec _ _ _ trail Hok' e [] k) by done. split_and!; auto.
Qed.
End Messages.

(** ** Witnesses *)

(** A digest of the right size, for evaluation: the length of the key and of
    the data. *)
Definition ex_digest (key data : list Z) : list Z :=
  u8 (blen key) :: u8 (blen data) :: repeat 7 18.

Definition ex_hmac : HmacSha1.
Proof.
  refine {| HMAC := fun key data => Some (ex_digest key data) |}.
  intros key data h [= <-]. split; [done|]. unfold ex_digest, bytes_ok.
  constructor; [apply wrap_range; lia|]. constructor; [apply wrap_range; lia|].
  apply Forall_forall. intros x Hx. apply list_elem_of_In, repeat_spec in Hx as ->. by compute.
Defined.

Definition ex_txid : list Z := [1; 2; 3; 4; 5; 6; 7; 8; 9; 10; 11; 12].
Definition ex_attrs : list StunAttribute := [mkAttr SOFTWARE [112; 107; 116]; mkAttr LIFETIME [0; 0; 2; 88]].

Lemma stun_message_roundtrip_witness :
  exists out l', @BuildMessage ex_hmac 3 0 ex_txid ex_attrs [1; 2] true = Ret (Some out) /\
    ex_attrs `prefix_of` l' /\
    exists i, Parse (Some out) = Ret (true, i) /\ method i = 3 /\
      @VerifyMessageIntegrity ex_hmac i [1; 2] = Ret true.
Proof.
  destruct (@stun_message_roundtrip ex_hmac 3 0 ex_txid ex_attrs [1; 2] true) as (out & l' & HB & HP).
  - lia.
  - lia.
  - reflexivity.
  - repeat constructor; by compute.
  - by compute.
  - discriminate.
  - reflexivity.
  - exists out, l'. destruct (HP []) as (i & H1 & H2 & _ & H4 & _ & H6 & _). rewrite app_nil_r in H1.
    split; [exact HB|]. split; [exact H4|]. exists i. injection H2 as H2 _.
    split; [exact H1|]. split; [exact H2|]. apply H6. discriminate.
Defined.

Definition ex_request : IceRequestParams :=
  mkRequest ex_txid [97; 58; 98] 1845501695 true 0x1122334455667788 true [115; 101; 99] true.

Lemma ice_request_roundtrip_witness :
  exists out m, @BuildIceBindingRequest ex_hmac ex_request 200 = Ret (Some out) /\
    Parse (Some out) = Ret (true, m) /\ IsBindingRequest m = true /\
    DecodePriority m = Ret (Some 1845501695) /\ HasUseCandidate m = true.
Proof.
  destruct (@ice_request_roundtrip ex_hmac ex_request 200) as (out & HB & _ & HP).
  - split; try reflexivity; try discriminate; by compute.
  - discriminate.
  - destruct (HP []) as (m & H1 & H2 & _ & _ & H5 & _ & _ & H8 & _). rewrite app_nil_r in H1.
    exists out, m. auto.
Defined.

Definition ex_received : StunMessageInfo := mkInfo 1 0 kMagicCookie ex_txid 1 0 [] None 20.
Definition ex_endpoint : IpEndpoint := mkEndpoint 6 40000 (32 :: 1 :: repeat 0 13 ++ [5]).

Lemma ice_success_example :
  exists out m, @BuildIceBindingSuccess ex_hmac (mkSuccess (Some ex_received) ex_endpoint [9] true) 100 = Ret (Some out) /\
    Parse (Some out) = Ret (true, m) /\
    DecodeXorMappedAddress m = Ret (Some (mkXorAddress true 40000 (32 :: 1 :: repeat 0 13 ++ [5]))).
Proof.
  destruct (@ice_success_roundtrip ex_hmac (mkSuccess (Some ex_received) ex_endpoint [9] true) ex_received 100)
    as (out & HB & HP).
  - reflexivity.
  - reflexivity.
  - split; [by right|by compute|reflexivity].
  - discriminate.
  - lia.
  - destruct (HP []) as (m & H1 & _ & _ & H4 & _). rewrite app_nil_r in H1. exists out, m. auto.
Defined.

Lemma binding_error_roundtrip_witness :
  exists out m, @BuildBindingError ex_hmac ex_received (mkError 487 [82; 67] [0x7777]) [9] 4000 = Ret (Some out) /\
    Parse (Some out) = Ret (true, m) /\
    DecodeErrorCode m = Ret (Some (mkError 487 [82; 67] [])).
Proof.
  destruct (@binding_error_roundtrip ex_hmac ex_received (mkError 487 [82; 67] [0x7777]) [9] 4000)
    as (out & HB & HP).
  - reflexivity.
  - simpl. lia.
  - by compute.
  - by compute.
  - discriminate.
  - lia.
  - destruct (HP []) as (m & l' & H1 & _ & _ & H4 & _). rewrite app_nil_r in H1. exists out, m. auto.
Defined.
