(* ===== verification/StunSafety.v ===== *)
(** * STUN codec on arbitrary input

    Memory safety and termination of the parser and of every decoder on
    untrusted bytes and of the builders on any arguments, and the authentication property of [FindAttr]: what a
    receiver decodes is determined by the bytes MESSAGE-INTEGRITY covers. *)
From S2P Require Import Prelude Bytes Stun StunLayout.
Import StunCodec.

(** The attributes tile the bytes from [off] to [end_]. *)
Fixpoint tiled (off : Z) (l : list AttrView) (end_ : Z) : Prop :=
  match l with
  | [] => off = end_
  | a :: l =>
    value_offset a = off + 4 /\ is_u16 (av_type a) /\ is_u16 (av_len a) /\
    off + 4 + Pad4 (av_len a) <= end_ /\ tiled (off + 4 + Pad4 (av_len a)) l end_
  end.

(** Type and length of the attributes as the bytes give them. *)
Fixpoint at_bytes (b : list Z) (off : Z) (l : list AttrView) : Prop :=
  match l with
  | [] => True
  | a :: l =>
    av_type a = bget b off * 256 + bget b (off + 1) /\
    av_len a = bget b (off + 2) * 256 + bget b (off + 3) /\
    at_bytes b (off + 4 + Pad4 (av_len a)) l
  end.

Lemma Pad4_range x : is_u16 x -> x <= Pad4 x <= x + 3 /\ Pad4 x mod 4 = 0.
Proof. intros Hx. unfold is_u in Hx. pow2. rewrite Pad4_spec by lia. words. Qed.

Lemma ReadBE16_range b off : bytes_ok b -> 0 <= off -> off + 2 <= blen b ->
  exists v, ReadBE16 b off = Ret v /\ is_u16 v /\ v = bget b off * 256 + bget b (off + 1).
Proof.
  intros Hb H0 H1. unfold ReadBE16. rewrite ReadUint16BE_ok by done. eexists. split; [done|].
  split; [|done].
  pose proof (bget_range b off Hb). pose proof (bget_range b (off + 1) Hb). words.
Qed.

Lemma parse_attrs_total fuel b end_ off acc :
  bytes_ok b -> 0 <= off -> end_ <= blen b -> end_ < 2 ^ 32 -> (Z.to_nat (end_ - off) <= fuel)%nat ->
  exists ok r, parse_attrs fuel b end_ off acc = Ret (ok, acc ++ r) /\
    (ok = true -> tiled off r end_) /\ at_bytes b off r.
Proof.
  intros Hb. revert off acc. induction fuel as [|fuel IH]; intros off acc H0 H1 H2 Hf; cbn [parse_attrs].
  - rewrite (proj2 (Z.ltb_ge _ _)) by lia. exists (off =? end_), []. rewrite app_nil_r.
    split; [done|]. split; [|done]. intros E. bool_hyps. done.
  - destruct (Z.ltb_spec off end_) as [Hlt|Hge].
    2: { exists (off =? end_), []. rewrite app_nil_r. split; [done|]. split; [|done]. intros E. bool_hyps. done. }
    unfold kAttrHeaderSize. split_if; [exists false, []; by rewrite app_nil_r|]. bool_hyps.
    destruct (ReadBE16_range b off Hb) as (t & -> & Ht & Et); [lia|lia|].
    destruct (ReadBE16_range b (off + 2) Hb) as (n & -> & Hn & En); [lia|lia|]. cbn [mbnd].
    destruct (Pad4_range n Hn) as [Hp _]. unfold is_u in Hn.
    split_if; [exists false, []; by rewrite app_nil_r|]. bool_hyps.
    edestruct (IH (off + (4 + Pad4 n)) (acc ++ [mkView t n (u32 (off + 4))])) as (ok & r & -> & Hr & Ha); try lia.
    exists ok, (mkView t n (u32 (off + 4)) :: r). split; [by rewrite <- app_assoc|].
    replace (off + (4 + Pad4 n)) with (off + 4 + Pad4 n) in * by lia.
    replace (off + 2 + 1) with (off + 3) in En by lia. split; [|done].
    intros Eok. cbn [tiled value_offset av_len av_type]. rewrite wrap_small by (unfold is_u; lia).
    split; [done|]. split; [done|]. split; [done|]. split; [lia|auto].
Qed.

Lemma read_bytes_inv b off n v :
  read_bytes b off n = Ret v -> 0 <= off /\ 0 <= n /\ off + n <= blen b /\ v = slice b off n.
Proof. unfold read_bytes. split_if; [|done]. intros [= <-]. bool_hyps. done. Qed.

(** A message the parser accepted. *)
Record well_formed (b : list Z) (m : StunMessageInfo) : Prop := {
  wf_raw : raw m = Some b;
  wf_bytes : bytes_ok b;
  wf_len : 20 <= raw_len m <= blen b /\ raw_len m <= 20 + 0xFFFF;
  wf_attrs : tiled 20 (attrs m) (raw_len m);
  wf_at : at_bytes b 20 (attrs m);
  wf_type : type_raw m = bget b 0 * 256 + bget b 1 /\ (method m, klass m) = DecodeType (type_raw m);
  wf_txid : txid m = slice b 8 12
}.

Lemma IsStun_true b :
  bytes_ok b -> exists ok, IsStun (Some b) = Ret ok /\
  (ok = true -> 20 <= blen b /\ 20 + (bget b 2 * 256 + bget b 3) <= blen b).
Proof.
  intros Hb. unfold IsStun, kHeaderSize. split_if; [exists false; done|]. bool_hyps.
  rewrite rd_ok by lia. cbn [mbnd]. split_if; [exists false; done|].
  unfold ReadBE32, ReadBE16. rewrite ReadUint32BE_ok by (done || lia). cbn [mbnd].
  split_if; [exists false; done|]. rewrite ReadUint16BE_ok by (done || lia). cbn [mbnd].
  split_if; [exists false; done|]. split_if; [exists false; done|]. bool_hyps.
  exists true. split; [done|]. intros _. split; [done|]. change (2 + 1) with 3 in *. lia.
Qed.

Lemma Parse_total p :
  (forall b, p = Some b -> bytes_ok b) ->
  exists ok m, Parse p = Ret (ok, m) /\ (ok = true -> exists b, p = Some b /\ well_formed b m).
Proof.
  intros Hp. destruct p as [b|]; [|exists false, info_zero; done].
  specialize (Hp b eq_refl). unfold Parse. destruct (IsStun_true b Hp) as (ok & -> & Hok). cbn [mbnd].
  destruct ok; [|exists false, info_zero; done]. destruct (Hok eq_refl) as [H1 H2].
  pose proof (bget_range b 2 Hp). pose proof (bget_range b 3 Hp).
  unfold ReadBE16, ReadBE32. rewrite (ReadUint16BE_ok b 0), (ReadUint16BE_ok b 2), ReadUint32BE_ok by (done || lia).
  cbn [mbnd]. change (2 + 1) with 3. set (len := bget b 2 * 256 + bget b 3) in *.
  destruct (read_bytes_returns b 8 12) as [x Ex]; [lia|lia|lia|]. rewrite Ex. cbn [mbnd].
  apply read_bytes_inv in Ex as (_ & _ & _ & ->).
  destruct (DecodeType _) as [me c] eqn:ED.
  destruct (parse_attrs_total (Z.to_nat len) b (kHeaderSize + len) kHeaderSize []) as (ok & r & -> & Hr & Ha);
    unfold kHeaderSize in *; try lia; try done. cbn [mbnd app].
  eexists ok, _. split; [done|]. intros ->. exists b. split; [done|].
  split; cbn [raw raw_len attrs type_raw method klass txid]; auto with lia.
Qed.

Lemma tiled_in off l end_ a :
  tiled off l end_ -> a ∈ l ->
  off + 4 <= value_offset a /\ is_u16 (av_len a) /\ value_offset a + Pad4 (av_len a) <= end_ /\
  (value_offset a - off) mod 4 = 0.
Proof.
  revert off. induction l as [|x l IH]; intros off; [set_solver|].
  intros (H1 & _ & H3 & H4 & H5) [-> | Hin]%elem_of_cons.
  - rewrite H1. split_and!; [lia|done|lia|]. replace (off + 4 - off) with 4 by lia. done.
  - destruct (Pad4_range _ H3) as [? Hm]. destruct (IH _ H5 Hin) as (I1 & I2 & I3 & I4).
    unfold is_u in H3. split_and!; [lia|done|done|]. words.
Qed.

Lemma find_attr_in l t a : find_attr l t = Some a -> a ∈ l /\ av_type a = t.
Proof.
  induction l as [|x l IH]; cbn [find_attr]; [done|]. split_if.
  - intros [= <-]. bool_hyps. set_solver.
  - split_if; [done|]. intros E. destruct (IH E). set_solver.
Qed.

(** Where a bounded attribute of a well-formed message lies. *)
Lemma bounded_range b m t a b' :
  well_formed b m -> bounded_attr m t = Some (a, b') ->
  b' = b /\ 24 <= value_offset a /\ 0 <= av_len a /\ value_offset a + av_len a <= raw_len m <= blen b.
Proof.
  intros [Hr _ Hl Ht _ _ _]. unfold bounded_attr, FindAttr. destruct (find_attr _ _) as [x|] eqn:E; [|done].
  rewrite Hr. split_if; [|done]. intros [= <- <-].
  destruct (find_attr_in _ _ _ E) as [Hin _]. destruct (tiled_in _ _ _ _ Ht Hin) as (H1 & H2 & H3 & _).
  destruct (Pad4_range _ H2). unfold is_u in H2. split_and!; [done|lia|lia|lia|lia].
Qed.

Ltac decode_safe Hw :=
  match goal with
  | |- returns (match bounded_attr ?m ?t with _ => _ end) =>
    let E := fresh in destruct (bounded_attr m t) as [[? ?]|] eqn:E; [|apply returns_ret];
    destruct (bounded_range _ _ _ _ _ Hw E) as (-> & ? & ? & ?)
  end.

Lemma read16_returns b off : bytes_ok b -> 0 <= off -> off + 2 <= blen b -> returns (ReadBE16 b off).
Proof. intros. destruct (ReadBE16_range b off) as (v & -> & _ & _); try done. apply returns_ret. Qed.
Lemma read32_returns b off : bytes_ok b -> 0 <= off -> off + 4 <= blen b -> returns (ReadBE32 b off).
Proof. intros. unfold ReadBE32. rewrite ReadUint32BE_ok by done. apply returns_ret. Qed.
Lemma read64_returns b off : bytes_ok b -> 0 <= off -> off + 8 <= blen b -> returns (ReadBE64 b off).
Proof. intros. unfold ReadBE64. rewrite ReadUint64BE_ok by done. apply returns_ret. Qed.
#[local] Hint Resolve read16_returns read32_returns read64_returns read_bytes_returns rd_returns : safe.

Lemma read_bytes_len b off n v : read_bytes b off n = Ret v -> blen v = n.
Proof.
  intros E. destruct (read_bytes_inv _ _ _ _ E) as (H0 & H1 & H2 & ->). unfold slice, blen in *.
  rewrite length_take, length_drop. lia.
Qed.

Lemma write16_returns b off v : 0 <= off -> off + 2 <= blen b -> returns (WriteBE16_at b off v).
Proof.
  intros H0 H1. unfold WriteBE16_at, WriteUint16BE.
  destruct (wr_spec b off (byte_of v 8)) as (b' & -> & El & _); [lia|]. cbn [mbnd].
  destruct (wr_spec b' (off + 1) (byte_of v 0)) as (b'' & -> & _); [lia|]. apply returns_ret.
Qed.

Section Safe.
Context `{HmacSha1} (b : list Z) (m : StunMessageInfo) (Hw : well_formed b m).
Let Hb : bytes_ok b := wf_bytes b m Hw.

Lemma DecodeUsername_safe : returns (DecodeUsername m).
Proof.
  unfold DecodeUsername. decode_safe Hw. unfold AttrValue. rewrite (wf_raw _ _ Hw).
  apply returns_bind; [|intros; apply returns_ret]. split_if; [apply returns_ret|]. auto with safe lia.
Qed.

Lemma DecodePriority_safe : returns (DecodePriority m).
Proof.
  unfold DecodePriority. decode_safe Hw. split_if; [apply returns_ret|]. bool_hyps.
  apply returns_bind; [apply read32_returns; done || lia|intros; apply returns_ret].
Qed.

Lemma DecodeIceControlling_safe : returns (DecodeIceControlling m).
Proof.
  unfold DecodeIceControlling. decode_safe Hw. split_if; [apply returns_ret|]. bool_hyps.
  apply returns_bind; [apply read64_returns; done || lia|intros; apply returns_ret].
Qed.

Lemma DecodeIceControlled_safe : returns (DecodeIceControlled m).
Proof.
  unfold DecodeIceControlled. decode_safe Hw. split_if; [apply returns_ret|]. bool_hyps.
  apply returns_bind; [apply read64_returns; done || lia|intros; apply returns_ret].
Qed.

Lemma DecodeXorAddress_safe t : returns (DecodeXorAddress m t).
Proof.
  unfold DecodeXorAddress. split_if; [apply returns_ret|]. decode_safe Hw.
  split_if; [apply returns_ret|]. bool_hyps.
  apply returns_bind; [apply rd_returns; lia|intros ? _].
  apply returns_bind; [apply read16_returns; done || lia|intros ? _].
  split_if; [|split_if; [|apply returns_ret]]; (split_if; [apply returns_ret|]; bool_hyps);
    repeat (apply returns_bind; [apply read_bytes_returns; lia|intros ? _]); apply returns_ret.
Qed.

Lemma DecodeErrorCode_safe : returns (DecodeErrorCode m).
Proof.
  unfold DecodeErrorCode. decode_safe Hw. split_if; [apply returns_ret|]. bool_hyps.
  do 2 (apply returns_bind; [apply rd_returns; lia|intros ? _]).
  apply returns_bind; [|intros; apply returns_ret]. split_if; [|apply returns_ret]. bool_hyps.
  apply read_bytes_returns; lia.
Qed.

Lemma VerifyFingerprint_safe : returns (VerifyFingerprint m).
Proof.
  unfold VerifyFingerprint. destruct (FindLastAttr m FINGERPRINT) as [a|] eqn:E; [|apply returns_ret].
  rewrite (wf_raw _ _ Hw). split_if; [apply returns_ret|]. split_if; [apply returns_ret|]. bool_hyps.
  unfold FindLastAttr in E. apply find_some in E as [Hin _]. rewrite <- in_rev in Hin.
  apply list_elem_of_In in Hin. destruct (tiled_in _ _ _ _ (wf_attrs _ _ Hw) Hin) as (? & ? & _).
  destruct (wf_len _ _ Hw). unfold kAttrHeaderSize in *.
  apply returns_bind; [apply read32_returns; done || lia|intros ? _].
  apply returns_bind; [apply read_bytes_returns; lia|intros; apply returns_ret].
Qed.

Lemma VerifyMessageIntegrity_safe key : returns (VerifyMessageIntegrity m key).
Proof.
  unfold VerifyMessageIntegrity. decode_safe Hw. unfold kAttrHeaderSize in *.
  split_if; [apply returns_ret|]. split_if; [apply returns_ret|]. bool_hyps.
  destruct (read_bytes_returns b 0 (value_offset a - 4)) as [tmp Et]; [lia|lia|lia|].
  rewrite Et. cbn [mbnd]. apply read_bytes_len in Et.
  apply returns_bind; [apply write16_returns; lia|intros tmp' _].
  destruct (ComputeMessageIntegrity tmp' key); [|apply returns_ret].
  apply returns_bind; [apply read_bytes_returns; lia|intros; apply returns_ret].
Qed.
End Safe.

(** On arbitrary bytes [Parse] returns without reading outside the
    buffer.  When it accepts, the attributes tile the message body exactly
    (each value starts four bytes behind the previous end, inside the message
    and inside the buffer), and every decoder and both verifications return
    without reading outside the buffer. *)
Theorem stun_parse_safe `{HmacSha1} p :
  (forall b, p = Some b -> bytes_ok b) ->
  exists ok m, Parse p = Ret (ok, m) /\
  (ok = true -> exists b, p = Some b /\
    tiled 20 (attrs m) (raw_len m) /\ 20 <= raw_len m <= blen b /\
    returns (DecodeUsername m) /\ returns (DecodePriority m) /\
    returns (DecodeIceControlling m) /\ returns (DecodeIceControlled m) /\
    (forall t, returns (DecodeXorAddress m t)) /\ returns (DecodeErrorCode m) /\
    returns (VerifyFingerprint m) /\ (forall key, returns (VerifyMessageIntegrity m key))).
Proof.
  intros Hp. destruct (Parse_total p Hp) as (ok & m & -> & Hok). exists ok, m. split; [done|].
  intros Eok. destruct (Hok Eok) as (b & -> & Hw). exists b. destruct (wf_len _ _ Hw).
  split_and!; try done; try lia; try apply (wf_attrs _ _ Hw).
  - by apply (DecodeUsername_safe b).
  - by apply (DecodePriority_safe b).
  - by apply (DecodeIceControlling_safe b).
  - by apply (DecodeIceControlled_safe b).
  - intros t. by apply (DecodeXorAddress_safe b).
  - by apply (DecodeErrorCode_safe b).
  - by apply (VerifyFingerprint_safe b).
  - intros key. by apply (VerifyMessageIntegrity_safe b).
Qed.

(** ** Builders never fault *)

Lemma then_returns m k : returns m -> (forall buf, returns (k buf)) -> returns (then_append m k).
Proof. intros [r ->] Hk. unfold then_append. cbn [mbnd]. destruct r; [apply Hk|apply returns_ret]. Qed.

Lemma AppendAttr_returns out t v : returns (AppendAttr out t (Some v) (u16 (blen v))).
Proof.
  unfold AppendAttr. pose proof (blen_nonneg v).
  destruct (read_bytes_returns v 0 (u16 (blen v))) as [x ->]; [lia|words|words|]. apply returns_ret.
Qed.

Lemma WriteBE16_at_size b off v :
  0 <= off -> off + 2 <= blen b -> exists b', WriteBE16_at b off v = Ret b' /\ blen b' = blen b.
Proof.
  intros H0 H1. unfold WriteBE16_at, WriteUint16BE.
  destruct (wr_spec b off (byte_of v 8)) as (b1 & -> & E1 & _); [lia|]. cbn [mbnd].
  destruct (wr_spec b1 (off + 1) (byte_of v 0)) as (b2 & -> & E2 & _); [lia|]. exists b2. split; [done|lia].
Qed.

Lemma UpdateMessageLength_size out :
  exists r, UpdateMessageLength out = Ret r /\ forall o, r = Some o -> blen o = blen out.
Proof.
  unfold UpdateMessageLength, kHeaderSize. split_if; [by eexists|]. split_if; [by eexists|]. bool_hyps.
  destruct (WriteBE16_at_size out 2 (u16 (blen out - 20))) as (o & -> & E); [lia|lia|].
  eexists. split; [done|]. by intros ? [= <-].
Qed.

Section Builders.
Context `{HmacSha1}.

Lemma with_integrity_returns key out : returns (with_integrity key out).
Proof.
  unfold with_integrity. destruct key as [|k key]; [apply returns_ret|].
  unfold AppendMessageIntegrityAttr, kMessageIntegritySize, WriteBE16. pose proof (blen_nonneg out).
  destruct (UpdateMessageLength_size (((out ++ [byte_of MESSAGE_INTEGRITY 8; byte_of MESSAGE_INTEGRITY 0]) ++
    [byte_of 20 8; byte_of 20 0]) ++ repeat 0 20)) as (r & -> & Hr). cbn [mbnd].
  destruct r as [o|]; [|apply returns_ret]. specialize (Hr o eq_refl). rewrite !blen_app in Hr.
  change (blen (repeat 0 20)) with 20 in Hr. change (blen [_; _]) with 2 in Hr.
  destruct (read_bytes_returns o 0 (blen out)) as [cov ->]; [lia|lia|lia|]. cbn [mbnd].
  destruct (ComputeMessageIntegrity cov (k :: key)) as [h|] eqn:E; [|apply returns_ret].
  destruct (HMAC_size _ _ _ E) as [Eh _]. assert (blen h = 20) by (unfold blen; lia).
  unfold write_bytes, kAttrHeaderSize. rewrite !(proj2 (Z.leb_le _ _)) by lia. cbn [andb mbnd].
  apply returns_ret.
Qed.

Lemma AppendFingerprintAttr_returns out : returns (AppendFingerprintAttr out).
Proof.
  unfold AppendFingerprintAttr, WriteBE16. pose proof (blen_nonneg out).
  destruct (UpdateMessageLength_size (((out ++ [byte_of FINGERPRINT 8; byte_of FINGERPRINT 0]) ++
    [byte_of 4 8; byte_of 4 0]) ++ repeat 0 4)) as (r & -> & Hr). cbn [mbnd].
  destruct r as [o|]; [|apply returns_ret]. specialize (Hr o eq_refl). rewrite !blen_app in Hr.
  change (blen (repeat 0 4)) with 4 in Hr. change (blen [_; _]) with 2 in Hr.
  destruct (read_bytes_returns o 0 (blen out)) as [cov ->]; [lia|lia|lia|]. cbn [mbnd].
  apply returns_bind; [|intros; apply returns_ret]. unfold WriteBE32_at, WriteUint32BE, kAttrHeaderSize.
  set (v := ComputeFingerprint cov).
  destruct (wr_spec o (blen out + 4) (byte_of v 24)) as (b1 & -> & E1 & _); [lia|]. cbn [mbnd].
  destruct (wr_spec b1 (blen out + 4 + 1) (byte_of v 16)) as (b2 & -> & E2 & _); [lia|]. cbn [mbnd].
  destruct (wr_spec b2 (blen out + 4 + 2) (byte_of v 8)) as (b3 & -> & E3 & _); [lia|]. cbn [mbnd].
  destruct (wr_spec b3 (blen out + 4 + 3) (byte_of v 0)) as (b4 & -> & E4 & _); [lia|]. apply returns_ret.
Qed.

(** The common end of the builders. *)
Lemma seal_returns key (fp : list Z -> mres (option (list Z))) cap buf :
  (forall buf, returns (fp buf)) ->
  returns (then_append (with_integrity key buf) (fun buf => then_append (fp buf) (fun buf =>
    then_append (UpdateMessageLength buf) (copy_out cap)))).
Proof.
  intros Hf. apply then_returns; [apply with_integrity_returns|]. intros b1.
  apply then_returns; [apply Hf|]. intros b2. apply then_returns.
  - destruct (UpdateMessageLength_size b2) as (r & -> & _). apply returns_ret.
  - intros b3. unfold copy_out. split_if; apply returns_ret.
Qed.

Lemma BuildBindingError_returns r e password cap : returns (BuildBindingError r e password cap).
Proof.
  unfold BuildBindingError. apply then_returns; [apply AppendAttr_returns|]. intros b1.
  apply then_returns.
  - destruct (unknown_attributes e); [apply returns_ret|apply AppendAttr_returns].
  - intros b2. apply seal_returns, AppendFingerprintAttr_returns.
Qed.

Lemma BuildIceBindingSuccess_returns i cap : returns (BuildIceBindingSuccess i cap).
Proof.
  unfold BuildIceBindingSuccess. destruct (req i); [|apply returns_ret].
  apply then_returns.
  - unfold AppendXorMappedAddressAttr. destruct (EncodeXorAddress _ _); [|apply returns_ret].
    apply AppendAttr_returns.
  - intros buf. apply seal_returns. intros b. unfold with_fingerprint.
    destruct (sc_add_fingerprint i); [apply AppendFingerprintAttr_returns|apply returns_ret].
Qed.
End Builders.

(** ** Only authenticated bytes decide *)

Lemma agree_attrs b1 b2 M (t : Z) l1 : forall off l2 e1 e2 a1 a2,
  tiled off l1 e1 -> tiled off l2 e2 -> at_bytes b1 off l1 -> at_bytes b2 off l2 ->
  find_attr l1 MESSAGE_INTEGRITY = Some a1 -> find_attr l2 MESSAGE_INTEGRITY = Some a2 ->
  value_offset a1 = M + 4 -> value_offset a2 = M + 4 ->
  (forall i, off <= i < M -> bget b1 i = bget b2 i) ->
  t <> MESSAGE_INTEGRITY -> t <> FINGERPRINT ->
  find_attr l1 t = find_attr l2 t /\
  (forall a, find_attr l1 t = Some a -> off + 4 <= value_offset a /\ value_offset a + av_len a <= M).
Proof.
  induction l1 as [|x l1 IH]; intros off l2 e1 e2 a1 a2 T1 T2 B1 B2 F1 F2 V1 V2 Hag H1 H2; [done|].
  destruct l2 as [|y l2]; [done|].
  destruct T1 as (X1 & X2 & X3 & X4 & T1), T2 as (Y1 & Y2 & Y3 & Y4 & T2).
  destruct B1 as (BX1 & BX2 & B1), B2 as (BY1 & BY2 & B2).
  destruct (Pad4_range _ X3) as [PX _], (Pad4_range _ Y3) as [PY _].
  unfold is_u in X3, Y3. cbn [find_attr] in *.
  destruct (Z.eqb_spec (av_type x) MESSAGE_INTEGRITY) as [Ex|Ex].
  - injection F1 as <-. destruct (Z.eqb_spec (av_type y) MESSAGE_INTEGRITY) as [Ey|Ey].
    + rewrite Ex, Ey, (proj2 (Z.eqb_neq MESSAGE_INTEGRITY t)), (proj2 (Z.eqb_neq t FINGERPRINT)) by congruence.
      by split.
    + cbn [andb] in F2. destruct (find_attr_in _ _ _ F2) as [Hin _].
      destruct (tiled_in _ _ _ _ T2 Hin) as (? & _). lia.
  - cbn [andb] in F1. destruct (find_attr_in _ _ _ F1) as [Hin _].
    destruct (tiled_in _ _ _ _ T1 Hin) as (HM & _).
    rewrite !Hag in BX1, BX2 by lia.
    assert (x = y) as <- by (destruct x, y; simpl in *; f_equal; lia).
    rewrite (proj2 (Z.eqb_neq _ _) Ex) in F2 |- *. cbn [andb] in F2 |- *.
    split_if; [split; [done|]; intros a [= <-]; lia|].
    destruct (IH _ l2 e1 e2 a1 a2 T1 T2 B1 B2 F1 F2 V1 V2) as [I1 I2]; try done.
    { intros i Hi. apply Hag. lia. }
    split; [done|]. intros a Ha. destruct (I2 a Ha). lia.
Qed.

Lemma bget_slice b off n i : 0 <= off -> off + n <= blen b -> 0 <= i < n -> bget (slice b off n) i = bget b (off + i).
Proof.
  intros H0 H1 Hi. unfold bget, slice, blen in *. rewrite nth_firstn.
  rewrite (proj2 (Nat.ltb_lt _ _)) by lia. rewrite nth_skipn. f_equal. lia.
Qed.

Lemma list_ext_bget l1 l2 : blen l1 = blen l2 -> (forall i, 0 <= i < blen l1 -> bget l1 i = bget l2 i) -> l1 = l2.
Proof.
  intros El H. apply (nth_ext _ _ 0 0); [unfold blen in El; lia|]. intros n Hn.
  specialize (H (Z.of_nat n)). unfold bget, blen in H. rewrite Nat2Z.id in H. apply H. lia.
Qed.

Lemma slice_agree b1 b2 off n :
  0 <= off -> 0 <= n -> off + n <= blen b1 -> off + n <= blen b2 ->
  (forall i, off <= i < off + n -> bget b1 i = bget b2 i) -> slice b1 off n = slice b2 off n.
Proof.
  intros H0 Hn H1 H2 H.
  assert (forall b, off + n <= blen b -> blen (slice b off n) = n) as L.
  { intros b Hb. unfold slice, blen in *. rewrite length_take, length_drop. lia. }
  apply list_ext_bget; rewrite !L by done; [done|]. intros i Hi.
  rewrite !bget_slice by lia. apply H. lia.
Qed.

(** What a receiver learns from a message is determined by the bytes
    its MESSAGE-INTEGRITY covers.  Take two accepted messages whose first
    MESSAGE-INTEGRITY attributes start at the same place and which agree on
    every byte before it, the length field apart (the verifier overwrites it);
    whatever follows, they have the same method, class, transaction id and,
    for every type other than MESSAGE-INTEGRITY and FINGERPRINT, the same
    attribute with the same value. *)
Theorem stun_integrity_covers b1 b2 m1 m2 a1 a2 :
  bytes_ok b1 -> bytes_ok b2 ->
  Parse (Some b1) = Ret (true, m1) -> Parse (Some b2) = Ret (true, m2) ->
  FindAttr m1 MESSAGE_INTEGRITY = Some a1 -> FindAttr m2 MESSAGE_INTEGRITY = Some a2 ->
  value_offset a1 = value_offset a2 ->
  (forall i, 0 <= i < value_offset a1 - 4 -> i <> 2 -> i <> 3 -> bget b1 i = bget b2 i) ->
  (method m1, klass m1, txid m1) = (method m2, klass m2, txid m2) /\
  forall t : Z, t <> MESSAGE_INTEGRITY -> t <> FINGERPRINT ->
    FindAttr m1 t = FindAttr m2 t /\
    forall a, FindAttr m1 t = Some a -> AttrValue m1 a = AttrValue m2 a.
Proof.
  intros Hb1 Hb2 P1 P2 F1 F2 V Hag.
  destruct (Parse_total (Some b1)) as (ok1 & m1' & E1 & W1); [by intros ? [= <-]|].
  destruct (Parse_total (Some b2)) as (ok2 & m2' & E2 & W2); [by intros ? [= <-]|].
  rewrite P1 in E1. rewrite P2 in E2. injection E1 as <- <-. injection E2 as <- <-.
  destruct (W1 eq_refl) as (b & [= <-] & [R1 _ L1 T1 A1 [Y1 D1] X1]).
  destruct (W2 eq_refl) as (b & [= <-] & [R2 _ L2 T2 A2 [Y2 D2] X2]).
  destruct (tiled_in _ _ _ _ T1 (proj1 (find_attr_in _ _ _ F1))) as (O1 & N1 & Q1 & _).
  destruct (tiled_in _ _ _ _ T2 (proj1 (find_attr_in _ _ _ F2))) as (O2 & N2 & Q2 & _).
  destruct (Pad4_range _ N1) as [? _], (Pad4_range _ N2) as [? _]. unfold is_u in N1, N2.
  set (M := value_offset a1 - 4) in *. split.
  - assert (type_raw m1 = type_raw m2) as Et by (rewrite Y1, Y2, !Hag by lia; done).
    assert (txid m1 = txid m2) as Ex.
    { rewrite X1, X2. apply slice_agree; try lia. intros i Hi. apply Hag; lia. }
    rewrite Et, <- D2 in D1. injection D1 as -> ->. by rewrite Ex.
  - intros t H1 H2. unfold FindAttr in *.
    destruct (agree_attrs b1 b2 M t _ 20 _ _ _ a1 a2 T1 T2 A1 A2 F1 F2) as [I1 I2];
      try done; try (unfold M; lia).
    { intros i Hi. apply Hag; lia. }
    split; [done|]. intros a Ha. destruct (I2 a Ha) as [J1 J2].
    rewrite I1 in Ha. destruct (tiled_in _ _ _ _ T2 (proj1 (find_attr_in _ _ _ Ha))) as (_ & Nn & _).
    unfold is_u in Nn. unfold AttrValue. rewrite R1, R2, !Z.gtb_ltb, !(proj2 (Z.ltb_ge _ _)) by lia.
    unfold read_bytes. rewrite !(proj2 (Z.leb_le _ _)) by lia. cbn [andb]. f_equal.
    apply slice_agree; try lia. intros i Hi. apply Hag; lia.
Qed.

(** ** Witnesses *)

(** A request with USERNAME, MESSAGE-INTEGRITY and FINGERPRINT. *)
Definition ex_prefix : list Z :=
  [0; 1; 0; 40; 0x21; 0x12; 0xA4; 0x42; 1; 2; 3; 4; 5; 6; 7; 8; 9; 10; 11; 12; 0; 6; 0; 2; 97; 98; 0; 0] ++
  [0; 8; 0; 20] ++ repeat 5 20.
Definition ex_stun : list Z := ex_prefix ++ [0x80; 0x28; 0; 4; 1; 2; 3; 4].

(** The same with a forged PRIORITY behind MESSAGE-INTEGRITY. *)
Definition ex_forged : list Z := ex_prefix ++ [0; 0x24; 0; 4; 255; 255; 255; 255].

Definition ex_info (b : list Z) : StunMessageInfo :=
  match Parse (Some b) with Ret (_, m) => m | _ => info_zero end.

Lemma stun_parse_safe_witness :
  exists m, Parse (Some ex_stun) = Ret (true, m) /\ tiled 20 (attrs m) 60.
Proof.
  destruct (@stun_parse_safe (Build_HmacSha1 (fun _ _ => None) ltac:(discriminate)) (Some ex_stun))
    as (ok & m & HP & Hok).
  - intros b [= <-]. repeat constructor; by compute.
  - exists m. assert (ok = true /\ raw_len m = 60) as [-> Hl].
    { vm_compute in HP. injection HP as <- <-. done. }
    split; [exact HP|]. destruct (Hok eq_refl) as (b & _ & Ht & _). rewrite Hl in Ht. exact Ht.
Defined.

Lemma stun_integrity_covers_witness :
  FindAttr (ex_info ex_stun) PRIORITY = FindAttr (ex_info ex_forged) PRIORITY /\
  FindAttr (ex_info ex_stun) USERNAME = FindAttr (ex_info ex_forged) USERNAME.
Proof.
  destruct (stun_integrity_covers ex_stun ex_forged (ex_info ex_stun) (ex_info ex_forged)
    (mkView 8 20 32) (mkView 8 20 32)) as [_ H].
  - repeat constructor; by compute.
  - repeat constructor; by compute.
  - vm_compute. reflexivity.
  - vm_compute. reflexivity.
  - vm_compute. reflexivity.
  - vm_compute. reflexivity.
  - reflexivity.
  - intros i Hi _ _. unfold ex_stun, ex_forged. cbn [value_offset] in Hi.
    rewrite !bget_app_l by (change (blen ex_prefix) with 52; lia). reflexivity.
  - split; apply H; discriminate.
Defined.
