(* ===== verification/Affinity.v ===== *)
(** * Stream affinity

    Models [media_affinity] (utils/MediaStreamAffinity.h) and the hash that
    selects a worker (utils/ShardedWorkerPool.cpp): the SSRC a packet belongs
    to, the 64-bit key of an (endpoint, SSRC) pair, and the shard of a key. *)
From S2P Require Import Prelude Bytes RtpWire RtcpNackWire RtcpWire RtcpProps.

(** ** SSRC of a packet *)

(** [ReadUint16BE] and [ReadUint32BE] of this header have the bodies of the
    [Utils] functions of the same names.  [out] is written only on success. *)
Definition TryGetRtpSsrc (data : cbuf) : mres (option Z) :=
  match data with
  | None => Ret None
  | Some b =>
    if blen b <? 12 then Ret None else
    let! b0 := rd b 0 in
    if negb (Z.shiftr b0 6 =? 2) then Ret None else
    let! ssrc := ReadUint32BE b 8 in
    Ret (Some ssrc)
  end.

(** The loop over the sub-packets; [fallback] is [Some] once [has_fallback]. *)
Fixpoint media_ssrc_loop (fuel : nat) (b : list Z) (offset : Z) (fallback : option Z)
    : mres (option Z) :=
  let len := blen b in
  if offset + 4 <=? len then
    match fuel with
    | O => NoFuel
    | S fuel =>
      let! p0 := rd b offset in
      if negb (Z.shiftr p0 6 =? 2) then Ret None else
      let count_or_fmt := Z.land p0 0x1F in
      let! packet_type := rd b (offset + 1) in
      let! words := ReadUint16BE b (offset + 2) in
      let packet_len := (words + 1) * 4 in
      if (packet_len <? 4) || (offset + packet_len >? len) then Ret None else
      if ((packet_type =? 205) || (packet_type =? 206)) && (12 <=? packet_len) then
        let! ssrc := ReadUint32BE b (offset + 8) in Ret (Some ssrc)
      else if (packet_type =? 201) && (0 <? count_or_fmt) && (32 <=? packet_len) then
        let! ssrc := ReadUint32BE b (offset + 8) in Ret (Some ssrc)
      else if (packet_type =? 200) && (0 <? count_or_fmt) && (52 <=? packet_len) then
        let! ssrc := ReadUint32BE b (offset + 28) in Ret (Some ssrc)
      else
      let! fallback :=
        (if negb (match fallback with Some _ => true | None => false end) &&
            ((packet_type =? 200) || (packet_type =? 201) || (packet_type =? 203)) && (8 <=? packet_len)
         then let! f := ReadUint32BE b (offset + 4) in Ret (Some f)
         else Ret fallback) in
      media_ssrc_loop fuel b (offset + packet_len) fallback
    end
  else if negb (offset =? len) then Ret None else Ret fallback.

Definition TryGetRtcpMediaSsrc (data : cbuf) : mres (option Z) :=
  match data with
  | None => Ret None
  | Some b => if blen b <? 4 then Ret None else media_ssrc_loop (length b) b 0 None
  end.

(** ** Keys *)

Definition MakeStreamKey (endpoint_id ssrc : Z) : Z :=
  let value := Z.lxor endpoint_id (u64 (ssrc + 0x9e3779b97f4a7c15)) in
  let value := u64 (Z.lxor value (Z.shiftr value 30) * 0xbf58476d1ce4e5b9) in
  let value := u64 (Z.lxor value (Z.shiftr value 27) * 0x94d049bb133111eb) in
  Z.lxor value (Z.shiftr value 31).

Record MediaStreamHandle := mkHandle { endpoint_id : Z; ssrc : Z; affinity_key : Z }.

Definition MakeStreamHandle (endpoint ssrc : Z) : MediaStreamHandle :=
  mkHandle endpoint ssrc (MakeStreamKey endpoint ssrc).

Definition ResolveRtpKey (endpoint_id : Z) (data : cbuf) : mres Z :=
  let! r := TryGetRtpSsrc data in
  Ret (match r with Some ssrc => MakeStreamKey endpoint_id ssrc | None => endpoint_id end).

Definition ResolveRtcpKey (endpoint_id : Z) (data : cbuf) : mres Z :=
  let! r := TryGetRtcpMediaSsrc data in
  Ret (match r with Some ssrc => MakeStreamKey endpoint_id ssrc | None => endpoint_id end).

(** ** The shard of a key *)

Definition simple_hash_u64 (x : Z) : Z :=
  let x := Z.lxor x (Z.shiftr x 33) in
  let x := u64 (x * 0xff51afd7ed558ccd) in
  let x := Z.lxor x (Z.shiftr x 33) in
  let x := u64 (x * 0xc4ceb9fe1a85ec53) in
  Z.lxor x (Z.shiftr x 33).

Definition shard_index (workers : Z) (key : Z) : Z := simple_hash_u64 key mod workers.

(** ** Mixing steps are bijections of 64-bit words *)

Lemma lxor_u64 a b : is_u64 a -> is_u64 b -> is_u64 (Z.lxor a b).
Proof.
  intros Ha Hb. unfold is_u in *. destruct (Z.eq_dec (Z.lxor a b) 0) as [->|Hne]; [pow2; lia|].
  assert (0 <= Z.lxor a b) by (apply Z.lxor_nonneg; lia). split; [done|].
  apply Z.log2_lt_pow2; [lia|]. eapply Z.le_lt_trans; [apply Z.log2_lxor; lia|].
  apply Z.max_lub_lt.
  - destruct (Z.eq_dec a 0) as [->|]; [by compute|]. apply Z.log2_lt_pow2; lia.
  - destruct (Z.eq_dec b 0) as [->|]; [by compute|]. apply Z.log2_lt_pow2; lia.
Qed.

Lemma shiftr_u64 a k : 0 <= k -> is_u64 a -> is_u64 (Z.shiftr a k).
Proof.
  intros Hk Ha. unfold is_u in *. rewrite Z.shiftr_div_pow2 by done.
  assert (0 < 2 ^ k) by lia. split; [apply Z.div_pos; lia|].
  apply Z.le_lt_trans with a; [|lia]. apply Z.div_le_upper_bound; nia.
Qed.

Lemma shiftr_zero a k : 64 <= k -> is_u64 a -> Z.shiftr a k = 0.
Proof.
  intros Hk Ha. unfold is_u in *. rewrite Z.shiftr_div_pow2 by lia. apply Z.div_small.
  split; [lia|]. eapply Z.lt_le_trans; [apply Ha|]. apply Z.pow_le_mono_r; lia.
Qed.

(** [x ^ (x >> k)] *)
Definition xorshift (k x : Z) : Z := Z.lxor x (Z.shiftr x k).

Lemma xorshift_u64 k x : 0 <= k -> is_u64 x -> is_u64 (xorshift k x).
Proof. intros. apply lxor_u64; [done|]. by apply shiftr_u64. Qed.

(** Three rounds undo a shift by at least 22 bits. *)
Lemma xorshift_undo k x :
  22 <= k -> is_u64 x ->
  Z.lxor (Z.lxor (xorshift k x) (Z.shiftr (xorshift k x) k)) (Z.shiftr (xorshift k x) (2 * k)) = x.
Proof.
  intros Hk Hx. unfold xorshift. rewrite !Z.shiftr_lxor, !Z.shiftr_shiftr by lia.
  rewrite (shiftr_zero x (k + 2 * k)) by (done || lia).
  replace (k + k) with (2 * k) by lia. apply Z.bits_inj'. intros i Hi.
  rewrite !Z.lxor_spec, Z.bits_0. btauto.
Qed.

Lemma xorshift_inj k x y : 22 <= k -> is_u64 x -> is_u64 y -> xorshift k x = xorshift k y -> x = y.
Proof.
  intros Hk Hx Hy E. rewrite <- (xorshift_undo k x), <- (xorshift_undo k y) by done. by rewrite E.
Qed.

(** Multiplication by a unit modulo [2 ^ 64]. *)
Lemma mul_inj c d x y : u64 (c * d) = 1 -> is_u64 x -> is_u64 y -> u64 (x * c) = u64 (y * c) -> x = y.
Proof.
  intros Hd Hx Hy E. unfold wrap in *.
  rewrite <- (Z.mod_small x (2 ^ 64)), <- (Z.mod_small y (2 ^ 64)) by done.
  assert (forall z, z mod 2 ^ 64 = (z * c mod 2 ^ 64 * d) mod 2 ^ 64) as F.
  { intros z. rewrite Zmult_mod_idemp_l, <- Z.mul_assoc, <- Zmult_mod_idemp_r, Hd. by rewrite Z.mul_1_r. }
  rewrite (F x), (F y), E. done.
Qed.

Definition finalizer (k1 c1 k2 c2 k3 x : Z) : Z :=
  xorshift k3 (u64 (xorshift k2 (u64 (xorshift k1 x * c1)) * c2)).

Lemma u64_range x : is_u64 (u64 x).
Proof. apply wrap_range. lia. Qed.
#[local] Hint Resolve u64_range : core.

Lemma finalizer_inj k1 c1 d1 k2 c2 d2 k3 x y :
  22 <= k1 -> 22 <= k2 -> 22 <= k3 -> u64 (c1 * d1) = 1 -> u64 (c2 * d2) = 1 ->
  is_u64 x -> is_u64 y -> finalizer k1 c1 k2 c2 k3 x = finalizer k1 c1 k2 c2 k3 y -> x = y.
Proof.
  intros H1 H2 H3 D1 D2 Hx Hy E. unfold finalizer in E.
  apply xorshift_inj in E; auto. apply (mul_inj _ _ _ _ D2) in E; auto using xorshift_u64 with lia.
  apply xorshift_inj in E; auto. apply (mul_inj _ _ _ _ D1) in E; auto using xorshift_u64 with lia.
  by apply xorshift_inj in E.
Qed.

(** Stream keys.  Within one endpoint no two SSRCs share a key, for one
    SSRC no two endpoints do, and the hash that selects the shard is injective
    on keys: the two mixing functions lose no information. *)
Theorem stream_key_injective :
  (forall e s1 s2, is_u64 e -> is_u32 s1 -> is_u32 s2 ->
     MakeStreamKey e s1 = MakeStreamKey e s2 -> s1 = s2) /\
  (forall e1 e2 s, is_u64 e1 -> is_u64 e2 -> is_u32 s ->
     MakeStreamKey e1 s = MakeStreamKey e2 s -> e1 = e2) /\
  (forall x y, is_u64 x -> is_u64 y -> simple_hash_u64 x = simple_hash_u64 y -> x = y) /\
  (forall e s, is_u64 e -> is_u64 (MakeStreamKey e s)).
Proof.
  assert (forall e1 s1 e2 s2, is_u64 e1 -> is_u64 e2 ->
    MakeStreamKey e1 s1 = MakeStreamKey e2 s2 ->
    Z.lxor e1 (u64 (s1 + 0x9e3779b97f4a7c15)) = Z.lxor e2 (u64 (s2 + 0x9e3779b97f4a7c15))) as K.
  { intros e1 s1 e2 s2 H1 H2 E.
    refine (finalizer_inj 30 _ 0x96de1b173f119089 27 _ 0x319642b2d24d8ec3 31 _ _ _ _ _ _ _ _ _ E);
      try lia; try reflexivity; apply lxor_u64; auto. }
  split_and!.
  - intros e s1 s2 He H1 H2 E. apply K in E; [|done..].
    apply (f_equal (Z.lxor e)) in E. rewrite <- !Z.lxor_assoc, !Z.lxor_nilpotent, !Z.lxor_0_l in E.
    words.
  - intros e1 e2 s He1 He2 Hs E. apply K in E; [|done..].
    apply (f_equal (fun v => Z.lxor v (u64 (s + 0x9e3779b97f4a7c15)))) in E.
    by rewrite !Z.lxor_assoc, !Z.lxor_nilpotent, !Z.lxor_0_r in E.
  - intros x y Hx Hy E.
    refine (finalizer_inj 33 _ 0x4f74430c22a54005 33 _ 0x9cb4b2f8129337db 33 _ _ _ _ _ _ _ _ _ E);
      try lia; try reflexivity; done.
  - intros e s He. apply (xorshift_u64 31); [lia|apply u64_range].
Qed.

(** ** Reads stay inside *)

Lemma media_ssrc_loop_returns fuel b off f :
  bytes_ok b -> 0 <= off -> (Z.to_nat (blen b - off) <= fuel)%nat -> returns (media_ssrc_loop fuel b off f).
Proof.
  intros Hb. revert off f. induction fuel as [|fuel IH]; intros off f H0 Hf; cbn [media_ssrc_loop].
  - destruct (Z.leb_spec (off + 4) (blen b)); [lia|]. split_if; apply returns_ret.
  - destruct (Z.leb_spec (off + 4) (blen b)); [|split_if; apply returns_ret].
    rewrite !rd_ok by lia. cbn [mbnd]. split_if; [apply returns_ret|].
    rewrite ReadUint16BE_ok by (done || lia). cbn [mbnd].
    pose proof (bget_range b (off + 2) Hb). pose proof (bget_range b (off + 2 + 1) Hb).
    split_if; [apply returns_ret|]. bool_hyps.
    repeat (split_if; bool_hyps; [rewrite ReadUint32BE_ok by (done || lia); apply returns_ret|]).
    apply returns_bind.
    + split_if; [|apply returns_ret]. bool_hyps. rewrite ReadUint32BE_ok by (done || lia). apply returns_ret.
    + intros f' _. apply IH; lia.
Qed.

Lemma TryGetRtcpMediaSsrc_returns b : bytes_ok b -> returns (TryGetRtcpMediaSsrc (Some b)).
Proof.
  intros Hb. unfold TryGetRtcpMediaSsrc. split_if; [apply returns_ret|].
  apply media_ssrc_loop_returns; [done|lia|]. unfold blen. lia.
Qed.

(** ** Feedback reaches the worker of its stream *)

(** A packet whose first header names the media SSRC behind the sender's. *)
Lemma media_first c pt w sender media rest b :
  b = [c; pt] ++ be16 w ++ be32 sender ++ be32 media ++ rest ->
  Z.shiftr c 6 = 2 -> 0 < Z.land c 0x1F -> is_u16 w -> is_u32 media -> blen b = (w + 1) * 4 ->
  (pt = 205 \/ pt = 206) /\ 2 <= w \/ pt = 201 /\ 7 <= w ->
  TryGetRtcpMediaSsrc (Some b) = Ret (Some media).
Proof.
  intros Eb Hc Hn Hw Hm Hl Hpt. unfold TryGetRtcpMediaSsrc. unfold is_u in Hw.
  rewrite (proj2 (Z.ltb_ge _ _)) by lia.
  assert (exists fuel, length b = S fuel) as [fuel ->].
  { exists (pred (length b)). unfold blen in Hl. lia. }
  cbn [media_ssrc_loop]. rewrite (proj2 (Z.leb_le _ _)) by lia.
  erewrite (rd_at [] c) by (exact Eb || done). cbn [mbnd].
  rewrite Hc. cbn [Z.eqb Pos.eqb negb].
  erewrite (rd_at [c] pt) by (exact Eb || done). cbn [mbnd].
  erewrite (ReadUint16BE_at [c; pt] w) by (exact Eb || done). cbn [mbnd].
  rewrite (proj2 (Z.ltb_ge _ _)), Z.gtb_ltb, (proj2 (Z.ltb_ge _ _)) by lia. cbn [orb].
  assert (ReadUint32BE b 8 = Ret media) as R.
  { eapply (ReadUint32BE_at ([c; pt] ++ be16 w ++ be32 sender)); [rewrite Eb, <- !app_assoc; reflexivity|done|done]. }
  rewrite !Z.add_0_l, R, (proj2 (Z.ltb_lt 0 _)) by done.
  destruct Hpt as [[[-> | ->] H2] | [-> H7]]; cbn [Z.eqb Pos.eqb orb andb];
    rewrite (proj2 (Z.leb_le _ _)) by lia; done.
Qed.

Lemma TryGetRtpSsrc_header b h :
  bytes_ok b -> InputFromBuffer RtpHeader_init (Some b) = Ret (true, h) -> _version h = 2 ->
  TryGetRtpSsrc (Some b) = Ret (Some (_ssrc h)).
Proof.
  intros Hb E Hv. unfold TryGetRtpSsrc. destruct (Z.ltb_spec (blen b) 12) as [Hs|Hl].
  - unfold InputFromBuffer, kSize in E. rewrite (proj2 (Z.ltb_lt _ _) Hs) in E. done.
  - rewrite InputFromBuffer_ok in E by done. injection E as <-. cbn [_version _ssrc] in *.
    rewrite rd_ok by lia. cbn [mbnd]. rewrite shiftr_div by lia. change (2 ^ 6) with 64. rewrite Hv.
    cbn [Z.eqb Pos.eqb negb]. rewrite ReadUint32BE_ok by (done || lia). done.
Qed.

Lemma header_ssrc b h :
  bytes_ok b -> InputFromBuffer RtpHeader_init (Some b) = Ret (true, h) -> is_u32 (_ssrc h).
Proof.
  intros Hb E. destruct (Z.ltb_spec (blen b) 12) as [Hs|Hl].
  - unfold InputFromBuffer, kSize in E. rewrite (proj2 (Z.ltb_lt _ _) Hs) in E. done.
  - rewrite InputFromBuffer_ok in E by done. injection E as <-. cbn [_ssrc].
    pose proof (bget_range b 8 Hb). pose proof (bget_range b 9 Hb). pose proof (bget_range b 10 Hb).
    pose proof (bget_range b 11 Hb). words.
Qed.

(** What a receiver sends back about the stream [media]. *)
Inductive feedback_on (media : Z) : list Z -> Prop :=
| nack_on sender lost b :
    lost <> [] -> (forall x, x ∈ lost -> is_u16 x) ->
    RtRtcpNack.Build sender media lost = Ret b -> feedback_on media b
| pli_on sender b : BuildPli sender media = Ret b -> feedback_on media b
| report_on sender block b :
    rr_ssrc block = media -> BuildReceiverReport sender block = Ret b -> feedback_on media b.

Lemma feedback_media media b :
  is_u32 media -> feedback_on media b -> TryGetRtcpMediaSsrc (Some b) = Ret (Some media).
Proof.
  intros Hm [sender lost b' Hne Hl E|sender b' E|sender block b' Er E].
  - destruct (RtRtcpNack.PackPairs_spec lost Hl) as (pairs & Ep & Hx & _ & Hn).
    assert (pairs <> []) as Hp by (intros ->; by eapply RtRtcpNack.packed_nonempty).
    rewrite (RtRtcpNack.Build_bytes sender media lost pairs) in E by (auto; lia). injection E as <-.
    eapply (media_first 129 205); [reflexivity|done|done|words|done| |left; split; [auto|lia]].
    rewrite RtRtcpNack.nack_bytes_len. lia.
  - rewrite BuildPli_bytes in E. injection E as <-.
    eapply (media_first 129 206 2 sender media []); [unfold pli_bytes; by rewrite app_nil_r|done|done|words|done|done|].
    left. auto with lia.
  - rewrite BuildReceiverReport_bytes in E. injection E as <-. rewrite <- Er in *.
    eapply (media_first 129 201 7 sender); [reflexivity|done|done|words|done|done|]. right. lia.
Qed.

(** Affinity of feedback.  Whatever RTP packet a stream consists of and
    whatever NACK, PLI or receiver report about its SSRC arrives, both resolve
    to the key of the (endpoint, SSRC) pair and hence to the same worker of a
    pool of any size; and classification of arbitrary RTCP bytes neither reads
    outside the buffer nor loops. *)
Theorem feedback_shares_worker e b h r n :
  bytes_ok b -> InputFromBuffer RtpHeader_init (Some b) = Ret (true, h) -> _version h = 2 ->
  feedback_on (_ssrc h) r ->
  (exists k, ResolveRtpKey e (Some b) = Ret k /\ ResolveRtcpKey e (Some r) = Ret k /\
     k = MakeStreamKey e (_ssrc h) /\ (0 < n -> 0 <= shard_index n k < n)) /\
  (forall c, bytes_ok c -> returns (ResolveRtcpKey e (Some c))).
Proof.
  intros Hb E Hv Hf. split.
  - exists (MakeStreamKey e (_ssrc h)). unfold ResolveRtpKey, ResolveRtcpKey.
    rewrite (TryGetRtpSsrc_header b h), (feedback_media (_ssrc h)); try done.
    + cbn [mbnd]. split_and!; try done; apply Z.mod_pos_bound; done.
    + by eapply header_ssrc.
  - intros c Hc. unfold ResolveRtcpKey. destruct (TryGetRtcpMediaSsrc_returns c Hc) as [x ->].
    apply returns_ret.
Qed.

(** FIR is the exception: RFC 5104 leaves the packet-level media SSRC zero and
    names the target in the entry, which [InspectRtcpPacket] and
    [HandleSingleRtcpPacket] use; the affinity key is that of SSRC zero. *)
Definition ex_fir : list Z :=
  [132; 206; 0; 4; 0; 0; 0; 7; 0; 0; 0; 0; 0; 0; 0; 9; 1; 0; 0; 0].

Lemma fir_key_ignores_target :
  OnRtcpPacket (Some ex_fir) = Ret (true, [OnFir 7 9 1]) /\
  TryGetRtcpMediaSsrc (Some ex_fir) = Ret (Some 0).
Proof. split; vm_compute; reflexivity. Qed.

(** ** Witnesses *)

Lemma stream_key_injective_witness : MakeStreamKey 5 1 <> MakeStreamKey 5 2.
Proof.
  assert (is_u64 5 /\ is_u32 1 /\ is_u32 2) as (H5 & H1 & H2) by words.
  intros E. pose proof (proj1 stream_key_injective 5 1 2 H5 H1 H2 E) as F. clear E. lia.
Defined.

Definition ex_rtp_packet : list Z := [128; 96; 0; 1; 0; 0; 0; 2; 0; 0; 0; 9].

Lemma feedback_shares_worker_witness :
  exists k, ResolveRtpKey 77 (Some ex_rtp_packet) = Ret k /\
    ResolveRtcpKey 77 (Some [129; 206; 0; 2; 0; 0; 0; 7; 0; 0; 0; 9]) = Ret k /\ 0 <= shard_index 4 k < 4.
Proof.
  destruct (feedback_shares_worker 77 ex_rtp_packet (mkRtpHeader 2 false false 0 false 96 1 2 9)
    [129; 206; 0; 2; 0; 0; 0; 7; 0; 0; 0; 9] 4) as [(k & H1 & H2 & _ & H3) _].
  - repeat constructor; by compute.
  - reflexivity.
  - reflexivity.
  - apply (pli_on _ 7). reflexivity.
  - exists k. split; [exact H1|]. split; [exact H2|]. apply H3. lia.
Defined.
