(* ===== verification/WorkerPool.v ===== *)
(** * Sharded worker pool

    Models [ShardedWorkerPool] (utils/ShardedWorkerPool.h, .cpp).  A job is
    given by the fields the pool looks at (key, type, the storage size of its
    payload) and an abstract body.  [post] and one iteration of [worker_loop]
    hold the worker's mutex while they touch its queue, so each is one atomic
    step; [shutdown] is the step that stops the workers and the step after
    [Join], with the workers' iterations in between.  [start] and [shutdown]
    of one pool are called by its owner, one after the other.  Byte counts are
    64-bit words; the statistics counters are unbounded.  Metrics, logging,
    latency traces and the handler's own effects are not modelled. *)
From S2P Require Import Prelude Affinity.

Inductive WorkType :=
| WInvalid | WRtp | WRtcp | WStun | WDtls | WRawTcp | WRawUdp | WTimer | WControl | WFunction | WRecording.

Inductive DropPolicy := DropHead | DropTail.

Section Pool.
Context {Body : Type}.

(** [storage_size] is [payload.StorageSize()]. *)
Record WorkJob := mkJob { key : Z; target_id : Z; type : WorkType; storage_size : Z; body : Body }.

Record ThreadStats := mkStats {
  enqueued : Z;
  dequeued : Z;
  dropped : Z;
  max_depth_seen : Z;
  queue_depth : Z;
  queue_bytes : Z;
  max_bytes_seen : Z;
  worker_count : Z
}.

Definition stats_zero : ThreadStats := mkStats 0 0 0 0 0 0 0 0.

Record Worker := mkWorker {
  q : list WorkJob;
  running : bool;
  draining : bool;
  exited : bool;
  st : ThreadStats
}.

Record Pool := mkPool {
  workers_ : list Worker;
  handler_ : bool;
  max_queue_len_ : Z;
  max_queue_bytes_ : Z;
  drop_policy_ : DropPolicy;
  started_ : bool
}.

Definition kDefaultMaxQueueBytes : Z := 16 * 1024 * 1024.

Definition pool_init : Pool := mkPool [] false 4096 kDefaultMaxQueueBytes DropHead false.

(** ** Statistics updates *)

Definition count_drop (s : ThreadStats) : ThreadStats :=
  mkStats (enqueued s) (dequeued s) (dropped s + 1) (max_depth_seen s) (queue_depth s)
    (queue_bytes s) (max_bytes_seen s) (worker_count s).
Definition sub_bytes (n : Z) (s : ThreadStats) : ThreadStats :=
  mkStats (enqueued s) (dequeued s) (dropped s) (max_depth_seen s) (queue_depth s)
    (u64 (queue_bytes s - n)) (max_bytes_seen s) (worker_count s).
Definition count_dequeue (s : ThreadStats) : ThreadStats :=
  mkStats (enqueued s) (dequeued s + 1) (dropped s) (max_depth_seen s) (queue_depth s)
    (queue_bytes s) (max_bytes_seen s) (worker_count s).
Definition count_enqueue (n depth : Z) (s : ThreadStats) : ThreadStats :=
  let bytes := u64 (queue_bytes s + n) in
  mkStats (enqueued s + 1) (dequeued s) (dropped s)
    (if depth >? max_depth_seen s then depth else max_depth_seen s) (queue_depth s)
    bytes (Z.max (max_bytes_seen s) bytes) (worker_count s).

(** ** post *)

(** The [while] loop that makes room.  [None] is the early [return -1] of
    [DropTail]; [q.front()] of an empty queue is a fault. *)
Fixpoint make_room (p : Pool) (bytes : Z) (queue : list WorkJob) (s : ThreadStats)
    : mres (option (list WorkJob) * ThreadStats) :=
  if (max_queue_len_ p <=? Z.of_nat (length queue)) ||
     (bytes >? u64 (max_queue_bytes_ p - queue_bytes s)) then
    let s := count_drop s in
    match drop_policy_ p with
    | DropTail => Ret (None, s)
    | DropHead =>
      match queue with
      | [] => Fault
      | front :: queue => make_room p bytes queue (sub_bytes (storage_size front) s)
      end
    end
  else Ret (Some queue, s).

(** The critical section of [post] on the chosen worker: the return code and
    the worker afterwards. *)
Definition post_worker (p : Pool) (job : WorkJob) (w : Worker) : mres (Z * Worker) :=
  if negb (running w) then Ret (-1, w) else
  let bytes := storage_size job in
  if bytes >? max_queue_bytes_ p then
    Ret (-1, mkWorker (q w) (running w) (draining w) (exited w) (count_drop (st w)))
  else
  let! '(room, s) := make_room p bytes (q w) (st w) in
  match room with
  | None => Ret (-1, mkWorker (q w) (running w) (draining w) (exited w) s)
  | Some queue =>
    let queue := queue ++ [job] in
    Ret (0, mkWorker queue (running w) (draining w) (exited w)
              (count_enqueue bytes (Z.of_nat (length queue)) s))
  end.

Definition set_workers (ws : list Worker) (p : Pool) : Pool :=
  mkPool ws (handler_ p) (max_queue_len_ p) (max_queue_bytes_ p) (drop_policy_ p) (started_ p).

Definition pool_shard (p : Pool) (k : Z) : nat :=
  Z.to_nat (shard_index (Z.of_nat (length (workers_ p))) k).

Definition post (job : WorkJob) (p : Pool) : mres (Z * Pool) :=
  if negb (started_ p) || (match workers_ p with [] => true | _ => false end) then Ret (-1, p) else
  let idx := pool_shard p (key job) in
  match workers_ p !! idx with
  | None => Fault
  | Some w =>
    let! '(code, w) := post_worker p job w in
    Ret (code, set_workers (<[idx := w]> (workers_ p)) p)
  end.

(** ** start, worker_loop, shutdown *)

Definition new_worker : Worker := mkWorker [] true false false stats_zero.

(** [threads_ok = false] is an exception while the threads are created. *)
Definition start (worker_count : Z) (handler : bool) (max_queue_len : Z) (drop : DropPolicy)
    (max_queue_bytes : Z) (threads_ok : bool) (p : Pool) : Z * Pool :=
  if worker_count =? 0 then (-1, p) else
  if started_ p then (-1, p) else
  let len := if max_queue_len =? 0 then 1 else max_queue_len in
  if threads_ok then
    (0, mkPool (workers_ p ++ replicate (Z.to_nat worker_count) new_worker) handler len max_queue_bytes drop true)
  else (-1, mkPool [] false len max_queue_bytes drop false).

(** One pass of [worker_loop] under the mutex. *)
Inductive Iteration := Exit | Tick | Handle (job : WorkJob).

Definition worker_iteration (w : Worker) : Iteration * Worker :=
  if negb (running w) && (match q w with [] => true | _ => false end) then
    (Exit, mkWorker (q w) (running w) (draining w) true (st w))
  else
  match q w with
  | [] => (Tick, w)
  | job :: rest =>
    (Handle job, mkWorker rest (running w) (draining w) (exited w)
                   (count_dequeue (sub_bytes (storage_size job) (st w))))
  end.

(** The loop of [shutdown(false)] that discards the queue. *)
Fixpoint discard (queue : list WorkJob) (s : ThreadStats) : ThreadStats :=
  match queue with
  | [] => s
  | job :: queue => discard queue (count_drop (sub_bytes (storage_size job) s))
  end.

Definition stop_worker (drain : bool) (w : Worker) : Worker :=
  if drain then mkWorker (q w) false true (exited w) (st w)
  else mkWorker [] false false (exited w) (discard (q w) (st w)).

(** [shutdown] up to [Join], and after it. *)
Definition shutdown_begin (drain : bool) (p : Pool) : Pool :=
  if negb (started_ p) then p else
  mkPool (map (stop_worker drain) (workers_ p)) (handler_ p) (max_queue_len_ p)
    (max_queue_bytes_ p) (drop_policy_ p) false.

Definition shutdown_end (p : Pool) : Pool :=
  mkPool [] false (max_queue_len_ p) (max_queue_bytes_ p) (drop_policy_ p) (started_ p).

Definition add_worker (sum : ThreadStats) (w : Worker) : ThreadStats :=
  mkStats (enqueued sum + enqueued (st w)) (dequeued sum + dequeued (st w))
    (dropped sum + dropped (st w))
    (if max_depth_seen (st w) >? max_depth_seen sum then max_depth_seen (st w) else max_depth_seen sum)
    (queue_depth sum + Z.of_nat (length (q w))) (queue_bytes sum + queue_bytes (st w))
    (Z.max (max_bytes_seen sum) (max_bytes_seen (st w))) (worker_count sum).

Definition Status (p : Pool) : ThreadStats :=
  fold_left add_worker (workers_ p) (mkStats 0 0 0 0 0 0 0 (Z.of_nat (length (workers_ p)))).

(** ** The pool with its history

    Per worker: the posts that reached it while it ran, the jobs its queue
    accepted and the jobs it handed to the handler, in order. *)

Record Ghost := mkGhost { offered : Z; accepted : list WorkJob; handled : list WorkJob }.
Definition ghost_init : Ghost := mkGhost 0 [] [].

Definition note_post (job : WorkJob) (code : Z) (w : Worker) (g : Ghost) : Ghost :=
  if running w then
    mkGhost (offered g + 1) (if code =? 0 then accepted g ++ [job] else accepted g) (handled g)
  else g.

Definition note_iteration (it : Iteration) (g : Ghost) : Ghost :=
  match it with Handle job => mkGhost (offered g) (accepted g) (handled g ++ [job]) | _ => g end.

Definition job_ok (job : WorkJob) : Prop := is_u64 (storage_size job).

Inductive step : Pool * list Ghost -> Pool * list Ghost -> Prop :=
| step_start n h len drop bytes ok p :
    workers_ p = [] -> 0 <= n -> 0 <= len -> is_u64 bytes ->
    step (p, []) ((start n h len drop bytes ok p).2,
                  replicate (length (workers_ (start n h len drop bytes ok p).2)) ghost_init)
| step_post_refused job p gs code :
    job_ok job -> started_ p = false \/ workers_ p = [] ->
    post job p = Ret (code, p) -> step (p, gs) (p, gs)
| step_post job p gs w g code p' :
    job_ok job -> started_ p = true ->
    workers_ p !! pool_shard p (key job) = Some w -> gs !! pool_shard p (key job) = Some g ->
    post job p = Ret (code, p') ->
    step (p, gs) (p', <[pool_shard p (key job) := note_post job code w g]> gs)
| step_worker i w g it w' p gs :
    workers_ p !! i = Some w -> gs !! i = Some g -> exited w = false ->
    worker_iteration w = (it, w') ->
    step (p, gs) (set_workers (<[i := w']> (workers_ p)) p, <[i := note_iteration it g]> gs)
| step_stop drain p gs : step (p, gs) (shutdown_begin drain p, gs)
| step_join p gs :
    started_ p = false -> Forall (fun w => exited w = true) (workers_ p) ->
    step (p, gs) (shutdown_end p, []).

(** ** Invariant *)

Definition jsum (l : list WorkJob) : Z := fold_right (fun j n => storage_size j + n) 0 l.

Record WInv (p : Pool) (i : nat) (w : Worker) (g : Ghost) : Prop := {
  wi_bytes : queue_bytes (st w) = jsum (q w);
  wi_max : jsum (q w) <= max_queue_bytes_ p;
  wi_len : Z.of_nat (length (q w)) <= max_queue_len_ p;
  wi_jobs : Forall job_ok (q w);
  wi_shard : Forall (fun j => pool_shard p (key j) = i) (accepted g);
  wi_ledger : offered g = dequeued (st w) + Z.of_nat (length (q w)) + dropped (st w);
  wi_enqueued : enqueued (st w) = Z.of_nat (length (accepted g));
  wi_dequeued : dequeued (st w) = Z.of_nat (length (handled g));
  wi_fifo : handled g ++ q w `sublist_of` accepted g;
  wi_exact : drop_policy_ p = DropTail -> running w = true \/ draining w = true ->
    handled g ++ q w = accepted g;
  wi_depth_seen : 0 <= max_depth_seen (st w) <= max_queue_len_ p;
  wi_bytes_seen : 0 <= max_bytes_seen (st w) <= max_queue_bytes_ p
}.

Record PInv (s : Pool * list Ghost) : Prop := {
  pi_len : 1 <= max_queue_len_ s.1;
  pi_bytes : is_u64 (max_queue_bytes_ s.1);
  pi_ghosts : length s.2 = length (workers_ s.1);
  pi_running : started_ s.1 = true -> Forall (fun w => running w = true) (workers_ s.1);
  pi_workers : forall i w g, workers_ s.1 !! i = Some w -> s.2 !! i = Some g -> WInv s.1 i w g
}.

Lemma jsum_nonneg l : Forall job_ok l -> 0 <= jsum l.
Proof. induction 1 as [|j l Hj _ IH]; simpl; [lia|]. unfold job_ok, is_u in Hj. lia. Qed.

Lemma jsum_app a b : jsum (a ++ b) = jsum a + jsum b.
Proof. induction a as [|j a IH]; simpl; lia. Qed.

Lemma pool_shard_lt p k : workers_ p <> [] -> (pool_shard p k < length (workers_ p))%nat.
Proof.
  intros Hne. unfold pool_shard, shard_index. destruct (workers_ p) as [|w ws]; [done|].
  pose proof (Z.mod_pos_bound (simple_hash_u64 k) (Z.of_nat (length (w :: ws)))). simpl length in *. lia.
Qed.

Lemma room_left p s queue :
  is_u64 (max_queue_bytes_ p) -> Forall job_ok queue -> queue_bytes s = jsum queue ->
  jsum queue <= max_queue_bytes_ p ->
  u64 (max_queue_bytes_ p - queue_bytes s) = max_queue_bytes_ p - jsum queue.
Proof.
  intros Hm Hq -> Hs. apply wrap_small. pose proof (jsum_nonneg _ Hq). unfold is_u in *. lia.
Qed.

(** What the loop of [post] leaves: a suffix of the queue with room. *)
Lemma make_room_spec p bytes queue s :
  1 <= max_queue_len_ p -> is_u64 (max_queue_bytes_ p) -> 0 <= bytes <= max_queue_bytes_ p ->
  Forall job_ok queue -> queue_bytes s = jsum queue -> jsum queue <= max_queue_bytes_ p ->
  exists r s', make_room p bytes queue s = Ret (r, s') /\
  match r with
  | None => drop_policy_ p = DropTail /\ s' = count_drop s
  | Some rest => exists k,
      rest = drop k queue /\ (k <= length queue)%nat /\ (drop_policy_ p = DropTail -> k = 0%nat) /\
      queue_bytes s' = jsum rest /\ bytes + jsum rest <= max_queue_bytes_ p /\
      Z.of_nat (length rest) < max_queue_len_ p /\
      dropped s' = dropped s + Z.of_nat k /\ enqueued s' = enqueued s /\ dequeued s' = dequeued s /\
      max_depth_seen s' = max_depth_seen s /\ max_bytes_seen s' = max_bytes_seen s
  end.
Proof.
  intros Hl Hm Hb Hq. revert s. induction Hq as [|front queue Hf Hq IH]; intros s Es Hs; cbn [make_room].
  - rewrite (room_left p s []) by (done || constructor).
    rewrite (proj2 (Z.leb_gt _ _)), Z.gtb_ltb, (proj2 (Z.ltb_ge _ _)) by (simpl in *; lia). cbn [orb].
    exists (Some []), s. split; [done|]. exists 0%nat. rewrite Es. simpl. split_and!; auto; lia.
  - rewrite (room_left p s (front :: queue)) by (done || by constructor). split_if.
    + destruct (drop_policy_ p) eqn:Ed.
      * destruct (IH (sub_bytes (storage_size front) (count_drop s))) as (r & s' & E & H).
        { cbn [sub_bytes count_drop queue_bytes]. rewrite Es. cbn [jsum fold_right] in *.
          pose proof (jsum_nonneg _ Hq). unfold job_ok, is_u in Hf. fold (jsum queue) in *.
          rewrite wrap_small by (unfold is_u in *; lia). lia. }
        { cbn [jsum fold_right] in Hs. unfold job_ok, is_u in Hf. fold (jsum queue) in *. lia. }
        exists r, s'. split; [done|]. destruct r as [rest|]; [|by destruct H].
        destruct H as (k & -> & Hk & Hk0 & H1 & H2 & H3 & H4 & H5 & H6 & H7 & H8). exists (S k).
        cbn [count_drop sub_bytes dropped enqueued dequeued max_depth_seen max_bytes_seen] in *.
        simpl length. split_and!; auto; try lia. intros; congruence.
      * exists None, (count_drop s). done.
    + bool_hyps. exists (Some (front :: queue)), s. split; [done|]. exists 0%nat.
      split_and!; auto; simpl in *; lia.
Qed.

Lemma post_worker_inv p i w g job :
  1 <= max_queue_len_ p -> is_u64 (max_queue_bytes_ p) -> job_ok job -> pool_shard p (key job) = i ->
  WInv p i w g ->
  exists code w', post_worker p job w = Ret (code, w') /\ WInv p i w' (note_post job code w g) /\
    running w' = running w.
Proof.
  intros Hl Hm Hj Hi HW. pose proof HW as [W1 W2 W3 W4 W5 W6 W7 W8 W9 W10 W11 W12].
  unfold post_worker, note_post.
  destruct (running w) eqn:Er; cbn [negb]; [|by exists (-1), w].
  destruct (storage_size job >? max_queue_bytes_ p) eqn:Eb.
  { eexists (-1), _. split; [done|]. split; [|done].
    split; cbn [q st running draining count_drop queue_bytes dropped dequeued enqueued
      max_depth_seen max_bytes_seen offered accepted handled Z.eqb]; auto; lia. }
  bool_hyps. unfold job_ok in Hj.
  destruct (make_room_spec p (storage_size job) (q w) (st w)) as (r & s' & E & H); auto;
    [unfold is_u in Hj; lia|]. rewrite E. cbn [mbnd]. destruct r as [rest|].
  - destruct H as (k & -> & Hk & Hk0 & H1 & H2 & H3 & H4 & H5 & H6 & H7 & H8).
    eexists 0, _. split; [done|]. split; [|done].
    assert (Forall job_ok (drop k (q w))) as Hd by (by apply Forall_drop).
    pose proof (jsum_nonneg _ Hd).
    assert (length (drop k (q w)) + k = length (q w))%nat as Hlen by (rewrite length_drop; lia).
    assert (u64 (queue_bytes s' + storage_size job) = jsum (drop k (q w)) + storage_size job) as Eu.
    { rewrite H1. apply wrap_small. unfold is_u in *. lia. }
    split; cbn [q st running draining count_enqueue queue_bytes dropped dequeued enqueued
      max_depth_seen max_bytes_seen offered accepted handled Z.eqb];
      rewrite ?jsum_app, ?length_app, ?Eu; cbn [jsum fold_right length]; try lia.
    + apply Forall_app. split; [done|]. by constructor.
    + apply Forall_app. split; [done|]. by constructor.
    + rewrite app_assoc. apply sublist_app; [|done]. etrans; [|exact W9].
      apply sublist_app; [done|]. apply sublist_drop.
    + intros Ht Ho. rewrite app_assoc, (Hk0 Ht), drop_0, W10 by auto. done.
    + rewrite Z.gtb_ltb. destruct (Z.ltb_spec (max_depth_seen s') (Z.of_nat (length (drop k (q w)) + 1))); lia.
  - destruct H as [Ht ->]. eexists (-1), _. split; [done|]. split; [|done].
    split; cbn [q st running draining count_drop queue_bytes dropped dequeued enqueued
      max_depth_seen max_bytes_seen offered accepted handled Z.eqb]; auto; lia.
Qed.

Lemma iteration_inv p i w g it w' :
  is_u64 (max_queue_bytes_ p) -> WInv p i w g -> worker_iteration w = (it, w') ->
  WInv p i w' (note_iteration it g).
Proof.
  intros Hm [W1 W2 W3 W4 W5 W6 W7 W8 W9 W10 W11 W12]. unfold worker_iteration.
  destruct (_ && _); [intros [= <- <-]; split; auto|].
  destruct (q w) as [|job rest] eqn:Eq; intros [= <- <-]; [split; rewrite ?Eq; auto|].
  apply Forall_cons in W4 as [Hj Hr]. pose proof (jsum_nonneg _ Hr).
  cbn [jsum fold_right length] in *. fold (jsum rest) in *. unfold job_ok, is_u in Hj.
  split; cbn [q st running draining note_iteration count_dequeue sub_bytes queue_bytes dropped dequeued
    enqueued max_depth_seen max_bytes_seen offered accepted handled]; auto; rewrite ?length_app;
    cbn [length]; try lia.
  - rewrite W1, wrap_small; [lia|]. unfold is_u in *. lia.
  - rewrite <- app_assoc. exact W9.
  - intros Ht Ho. rewrite <- app_assoc. auto.
Qed.

Lemma discard_spec queue s :
  Forall job_ok queue -> queue_bytes s = jsum queue -> jsum queue < 2 ^ 64 ->
  discard queue s = mkStats (enqueued s) (dequeued s) (dropped s + Z.of_nat (length queue))
    (max_depth_seen s) (queue_depth s) 0 (max_bytes_seen s) (worker_count s).
Proof.
  intros Hq. revert s. induction Hq as [|j queue Hj Hq IH]; intros s Es Hs; cbn [discard].
  - destruct s; simpl in *. by rewrite Es, Z.add_0_r.
  - cbn [jsum fold_right length] in *. fold (jsum queue) in *. pose proof (jsum_nonneg _ Hq).
    unfold job_ok, is_u in Hj. rewrite IH; cbn; rewrite ?Es; [f_equal; lia| |lia].
    rewrite wrap_small by (unfold is_u; lia). lia.
Qed.

Lemma stop_inv p i drain w g :
  1 <= max_queue_len_ p -> is_u64 (max_queue_bytes_ p) -> running w = true -> WInv p i w g ->
  WInv p i (stop_worker drain w) g.
Proof.
  intros Hl Hm Hr [W1 W2 W3 W4 W5 W6 W7 W8 W9 W10 W11 W12]. unfold is_u in Hm. destruct drain; cbn [stop_worker].
  - split; cbn [q st running draining]; auto.
  - rewrite discard_spec by (done || lia). split; cbn; auto; try lia.
    + etrans; [|exact W9]. apply sublist_app; [done|]. apply sublist_nil_l.
Qed.

(** The invariant of a worker only looks at the configuration. *)
Lemma WInv_ext p p' i w g :
  length (workers_ p') = length (workers_ p) -> max_queue_len_ p' = max_queue_len_ p ->
  max_queue_bytes_ p' = max_queue_bytes_ p -> drop_policy_ p' = drop_policy_ p ->
  WInv p i w g -> WInv p' i w g.
Proof.
  intros H1 H2 H3 H4 [W1 W2 W3 W4 W5 W6 W7 W8 W9 W10 W11 W12].
  split; rewrite ?H2, ?H3, ?H4; auto. unfold pool_shard in *. by rewrite H1.
Qed.

Lemma PInv_update p gs i w g w' g' :
  PInv (p, gs) -> workers_ p !! i = Some w -> gs !! i = Some g ->
  WInv p i w' g' -> (started_ p = true -> running w' = true) ->
  PInv (set_workers (<[i := w']> (workers_ p)) p, <[i := g']> gs).
Proof.
  intros [P1 P2 P3 P4 P5] Hw Hg HW Hr. cbn [fst snd] in *. split; cbn [fst snd set_workers workers_
    max_queue_len_ max_queue_bytes_ started_]; auto.
  - by rewrite !length_insert.
  - intros Hs. apply Forall_insert; auto.
  - intros j wj gj Hj Gj. apply (WInv_ext p); cbn [workers_ max_queue_len_ max_queue_bytes_ drop_policy_ set_workers];
      rewrite ?length_insert; auto.
    apply list_lookup_insert_Some in Hj as [(<- & -> & Hi) | [Hne Hj]].
    + rewrite list_lookup_insert_eq in Gj by (by eapply lookup_lt_Some). by injection Gj as <-.
    + rewrite list_lookup_insert_ne in Gj by done. by apply P5.
Qed.

(** [post] always returns: it never looks at the front of an empty queue and
    its loop ends. *)
Lemma post_total p gs job :
  PInv (p, gs) -> job_ok job ->
  exists code p', post job p = Ret (code, p') /\
    (started_ p = true -> workers_ p <> [] -> exists w g, 
       workers_ p !! pool_shard p (key job) = Some w /\ gs !! pool_shard p (key job) = Some g /\
       PInv (p', <[pool_shard p (key job) := note_post job code w g]> gs)).
Proof.
  intros HI Hj. pose proof HI as [P1 P2 P3 P4 P5]. cbn [fst snd] in *. unfold post.
  destruct (started_ p) eqn:Es; cbn [negb orb]; [|by exists (-1), p].
  destruct (workers_ p) as [|w0 ws] eqn:Ew; [by exists (-1), p|]. rewrite <- Ew in *.
  assert (workers_ p <> []) as Hne by (by rewrite Ew).
  set (i := pool_shard p (key job)).
  destruct (lookup_lt_is_Some_2 (workers_ p) i (pool_shard_lt p (key job) Hne)) as [w Hw].
  destruct (lookup_lt_is_Some_2 gs i) as [g Hg]; [rewrite P3; by apply pool_shard_lt|].
  rewrite Hw. destruct (post_worker_inv p i w g job) as (code & w' & -> & HW & Hr); auto.
  cbn [mbnd]. eexists code, _. split; [done|]. intros _ _. exists w, g. split; [done|]. split; [done|].
  eapply PInv_update; eauto. intros _. rewrite Hr. specialize (P4 eq_refl).
  rewrite Forall_lookup in P4. by eapply P4.
Qed.

Lemma pool_step_inv s s' : step s s' -> PInv s -> PInv s'.
Proof.
  intros Hs HI. destruct Hs as
    [n h len drop bytes ok p Hw Hn Hl Hb|job p gs code Hj Hd Hp|job p gs w g code p' Hj Hst Hw Hg Hp
    |i w g it w' p gs Hw Hg He Hit|drain p gs|p gs Hst He].
  - unfold start. destruct HI as [P1 P2 P3 P4 P5]. cbn [fst snd] in *.
    destruct (n =? 0); [cbn [snd]; rewrite Hw; by split|].
    destruct (started_ p) eqn:Est; [cbn [snd]; rewrite Hw; by split; cbn [fst]; auto|].
    assert (1 <= (if len =? 0 then 1 else len)) by (destruct (Z.eqb_spec len 0); lia).
    destruct ok; cbn [snd workers_]; [|split; cbn; auto; done].
    rewrite Hw. cbn [app]. rewrite length_replicate. split; cbn [fst snd workers_ max_queue_len_
      max_queue_bytes_ started_]; auto.
    + by rewrite !length_replicate.
    + intros _. apply Forall_replicate. done.
    + intros i w g Hi Gi. apply lookup_replicate in Hi as [-> _]. apply lookup_replicate in Gi as [-> _].
      unfold is_u in Hb. split; cbn; auto; try lia; try constructor.
  - done.
  - destruct (post_total p gs job HI Hj) as (c & p2 & E & H). rewrite Hp in E. injection E as <- <-.
    destruct H as (w2 & g2 & E1 & E2 & H); [done| |].
    { intros E. by rewrite E in Hw. }
    rewrite Hw in E1. rewrite Hg in E2. by injection E1 as <-; injection E2 as <-.
  - pose proof HI as [P1 P2 P3 P4 P5]. cbn [fst snd] in *. eapply PInv_update; eauto.
    + by eapply iteration_inv; eauto.
    + intros Hst. specialize (P4 Hst). rewrite Forall_lookup in P4. specialize (P4 i w Hw).
      unfold worker_iteration in Hit. destruct (_ && _); [by injection Hit as _ <-|].
      destruct (q w); by injection Hit as _ <-.
  - unfold shutdown_begin. destruct (started_ p) eqn:Es; [|done]. cbn [negb].
    destruct HI as [P1 P2 P3 P4 P5]. cbn [fst snd] in *. specialize (P4 Es). rewrite Forall_lookup in P4.
    split; cbn [fst snd workers_ max_queue_len_ max_queue_bytes_ started_]; auto.
    + by rewrite length_map.
    + done.
    + intros i w g Hi Gi. rewrite list_lookup_fmap in Hi. apply fmap_Some in Hi as (w0 & Hi & ->).
      apply (WInv_ext p); cbn; rewrite ?length_map; auto. apply stop_inv; eauto.
  - destruct HI as [P1 P2 P3 P4 P5]. cbn [fst snd] in *. split; cbn; auto; try done.
Qed.

Lemma pool_init_inv : PInv (pool_init, []).
Proof. split; cbn; auto; try done; try lia. Qed.

Lemma pool_reachable_inv s : rtc step (pool_init, []) s -> PInv s.
Proof.
  intros H. remember (pool_init, []) as s0 eqn:E. assert (PInv s0) as HI by (subst; apply pool_init_inv).
  clear E. induction H as [|? ? ? Hs _ IH]; [done|]. eauto using pool_step_inv.
Qed.

(** ** What the pool promises *)

Definition zsum (l : list Z) : Z := fold_right Z.add 0 l.

Lemma status_ledger ws gs sum :
  length gs = length ws ->
  (forall i w g, ws !! i = Some w -> gs !! i = Some g ->
     offered g = dequeued (st w) + Z.of_nat (length (q w)) + dropped (st w)) ->
  let s := fold_left add_worker ws sum in
  dequeued s + queue_depth s + dropped s =
  dequeued sum + queue_depth sum + dropped sum + zsum (map offered gs).
Proof.
  revert gs sum. induction ws as [|w ws IH]; intros [|g gs] sum Hl H; try done; cbn [fold_left map zsum fold_right].
  - lia.
  - rewrite (IH gs); [|simpl in Hl; lia|intros i; apply (H (S i))].
    rewrite (H 0%nat w g eq_refl eq_refl). cbn [add_worker dequeued queue_depth dropped]. fold (zsum (map offered gs)). lia.
Qed.

(** Bounds of the pool.  After any sequence of starts, posts, worker
    iterations and shutdowns, posting any job returns: the loop that makes
    room never looks at the front of an empty queue and ends.  Each queue is
    within the configured length and byte limits, its byte count is exactly
    the sum of its jobs' sizes, and [Status] loses no job: the jobs offered to
    running workers are those dequeued, queued or counted as dropped. *)
Theorem worker_pool_bounds p gs :
  rtc step (pool_init, []) (p, gs) ->
  (forall job, job_ok job -> returns (post job p)) /\
  Forall (fun w => queue_bytes (st w) = jsum (q w) /\ jsum (q w) <= max_queue_bytes_ p /\
    Z.of_nat (length (q w)) <= max_queue_len_ p /\
    max_depth_seen (st w) <= max_queue_len_ p /\ max_bytes_seen (st w) <= max_queue_bytes_ p) (workers_ p) /\
  zsum (map offered gs) =
    dequeued (Status p) + queue_depth (Status p) + dropped (Status p).
Proof.
  intros Hr. pose proof (pool_reachable_inv _ Hr) as HI. split; [|split].
  - intros job Hj. destruct (post_total p gs job HI Hj) as (c & p' & -> & _). apply returns_ret.
  - destruct HI as [_ _ P3 _ P5]. cbn [fst snd] in *. apply Forall_lookup. intros i w Hw.
    destruct (lookup_lt_is_Some_2 gs i) as [g Hg]; [rewrite P3; by eapply lookup_lt_Some|].
    destruct (P5 i w g Hw Hg). repeat split; try done; lia.
  - destruct HI as [_ _ P3 _ P5]. cbn [fst snd] in *. unfold Status. erewrite status_ledger; [|exact P3|].
    + cbn [dequeued queue_depth dropped]. lia.
    + intros i w g Hw Hg. by destruct (P5 i w g Hw Hg).
Qed.

(** Ownership and order.  Every job a worker accepted has a key of that
    worker's shard, so one worker owns each key; what it has handled, followed
    by what is queued, is a subsequence of what it accepted, in order; under
    [DropTail] nothing accepted is lost, in order, unless [shutdown(false)]
    discarded it; the counters count exactly these jobs. *)
Theorem worker_pool_fifo p gs i w g :
  rtc step (pool_init, []) (p, gs) -> workers_ p !! i = Some w -> gs !! i = Some g ->
  Forall (fun job => pool_shard p (key job) = i) (accepted g) /\
  handled g ++ q w `sublist_of` accepted g /\
  (drop_policy_ p = DropTail -> running w = true \/ draining w = true -> handled g ++ q w = accepted g) /\
  enqueued (st w) = Z.of_nat (length (accepted g)) /\ dequeued (st w) = Z.of_nat (length (handled g)).
Proof.
  intros Hr Hw Hg. destruct (pool_reachable_inv _ Hr) as [_ _ _ _ P5]. cbn [fst snd] in *.
  by destruct (P5 i w g Hw Hg).
Qed.
End Pool.

(** ** Witnesses *)

Definition ex_job (k n : Z) : @WorkJob unit := mkJob k 0 WRtp n tt.
Definition ex_pool0 : @Pool unit := (start 2 true 2 DropHead 100 true pool_init).2.

(** Three jobs of one key on a queue of two: the first is evicted. *)
Definition ex_posts : list (@WorkJob unit) := [ex_job 5 40; ex_job 5 30; ex_job 5 20].

Definition ex_after (p : @Pool unit) (job : @WorkJob unit) : @Pool unit :=
  match post job p with Ret (_, p') => p' | _ => p end.
Definition ex_pool : @Pool unit := fold_left ex_after ex_posts ex_pool0.
Definition ex_ghost : @Ghost unit := mkGhost 3 ex_posts [].
Definition ex_ghosts : list (@Ghost unit) := <[pool_shard ex_pool0 5 := ex_ghost]> [ghost_init; ghost_init].

Lemma ex_pool_run : rtc step (pool_init, []) (ex_pool, ex_ghosts).
Proof.
  eapply rtc_l; [apply (step_start 2 true 2 DropHead 100 true); [done|lia|lia|by compute]|].
  vm_compute (_, _) at 1.
  eapply rtc_l; [eapply (step_post (ex_job 5 40)); [by compute|vm_compute; reflexivity..]|].
  eapply rtc_l; [eapply (step_post (ex_job 5 30)); [by compute|vm_compute; reflexivity..]|].
  eapply rtc_l; [eapply (step_post (ex_job 5 20)); [by compute|vm_compute; reflexivity..]|].
  match goal with |- rtc _ ?a ?b => replace b with a; [apply rtc_refl|vm_compute; reflexivity] end.
Qed.

Lemma worker_pool_bounds_witness :
  dropped (Status ex_pool) = 1 /\ queue_bytes (Status ex_pool) = 50 /\
  zsum (map offered ex_ghosts) = 3 /\ returns (post (ex_job 7 100) ex_pool).
Proof.
  split; [vm_compute; reflexivity|]. split; [vm_compute; reflexivity|].
  split; [vm_compute; reflexivity|].
  apply (worker_pool_bounds ex_pool ex_ghosts ex_pool_run). by compute.
Defined.

Definition ex_worker : @Worker unit :=
  Eval vm_compute in match workers_ ex_pool !! pool_shard ex_pool0 5 with Some w => w | None => new_worker end.

Lemma worker_pool_fifo_witness :
  q ex_worker = [ex_job 5 30; ex_job 5 20] /\ handled ex_ghost ++ q ex_worker `sublist_of` accepted ex_ghost.
Proof.
  split; [reflexivity|].
  apply (worker_pool_fifo ex_pool ex_ghosts (pool_shard ex_pool0 5) ex_worker ex_ghost ex_pool_run);
    vm_compute; reflexivity.
Defined.
