(* ===== verification/WorkerService.v ===== *)
(** * Registry of worker pools

    Models [WorkerService] (utils/ShardedWorkerPool.h, .cpp).  A pool is a
    shared object: [pools_] maps normalized names to references, [heap] holds
    the pools, so that a caller that obtained a pool from [get_pool_shared]
    keeps reaching it after the name is bound to another one.  Names are byte
    strings; [std::tolower] is that of the C locale.  [shutdown] is the step up
    to [Join]; what the workers do meanwhile is in WorkerPool.v. *)
From S2P Require Import Prelude Affinity WorkerPool.

Section Service.
Context {Body : Type}.

Definition Name := list Z.

(** POOL_ENDPOINT_ALIAS "endpointpool" and POOL_ENDPOINT "endpoint_pool" *)
Definition POOL_ENDPOINT_ALIAS : Name := [101; 110; 100; 112; 111; 105; 110; 116; 112; 111; 111; 108].
Definition POOL_ENDPOINT : Name := [101; 110; 100; 112; 111; 105; 110; 116; 95; 112; 111; 111; 108].

Definition tolower (ch : Z) : Z := if (65 <=? ch) && (ch <=? 90) then ch + 32 else ch.

Definition NormalizeName (name : Name) : Name :=
  let normalized := map tolower name in
  if bool_decide (normalized = POOL_ENDPOINT_ALIAS) then POOL_ENDPOINT else normalized.

Record Service := mkService {
  pools_ : gmap Name nat;
  heap : list (@Pool Body)
}.

(** [pools_.try_emplace], [std::exchange] and [old_pool->shutdown(true)]. *)
Definition publish (name : Name) (p : @Pool Body) (s : Service) : Service :=
  let id := length (heap s) in
  let heap' := heap s ++ [p] in
  match pools_ s !! name with
  | None => mkService (<[name := id]> (pools_ s)) heap'
  | Some old => mkService (<[name := id]> (pools_ s)) (alter (shutdown_begin true) old heap')
  end.

Definition create_pool (name : Name) (worker_count : Z) (handler : bool) (max_queue_len : Z)
    (drop : DropPolicy) (max_queue_bytes : Z) (threads_ok : bool) (s : Service) : Z * Service :=
  let normalized_name := NormalizeName name in
  if (match normalized_name with [] => true | _ => false end) || negb handler then (-1, s) else
  let '(ret, p) := start worker_count handler max_queue_len drop max_queue_bytes threads_ok pool_init in
  if negb (ret =? 0) then (ret, s) else (0, publish normalized_name p s).

Definition create_function_pool (name : Name) (worker_count max_queue_len : Z) (drop : DropPolicy)
    (threads_ok : bool) (s : Service) : Z * Service :=
  let normalized_name := NormalizeName name in
  if match normalized_name with [] => true | _ => false end then (-1, s) else
  let '(ret, p) := start worker_count false max_queue_len drop kDefaultMaxQueueBytes threads_ok pool_init in
  if negb (ret =? 0) then (ret, s) else (0, publish normalized_name p s).

Definition destroy_pool (name : Name) (drain : bool) (s : Service) : Service :=
  let normalized_name := NormalizeName name in
  match pools_ s !! normalized_name with
  | None => s
  | Some id => mkService (delete normalized_name (pools_ s)) (alter (shutdown_begin drain) id (heap s))
  end.

(** The swapped-out map is traversed in the order [ids]. *)
Definition destroy_all (drain : bool) (s : Service) : Service :=
  mkService ∅ (fold_left (fun h id => alter (shutdown_begin drain) id h)
                 (map snd (map_to_list (pools_ s))) (heap s)).

Definition get_pool_shared (name : Name) (s : Service) : option nat := pools_ s !! NormalizeName name.

Definition exists_ (name : Name) (s : Service) : bool :=
  match pools_ s !! NormalizeName name with Some _ => true | None => false end.

(** [pool->post] through a reference. *)
Definition post_ref (id : nat) (job : WorkJob) (s : Service) : mres (Z * Service) :=
  match heap s !! id with
  | None => Fault
  | Some p => let! '(code, p) := WorkerPool.post job p in
              Ret (code, mkService (pools_ s) (<[id := p]> (heap s)))
  end.

Definition post (name : Name) (job : WorkJob) (s : Service) : mres (Z * Service) :=
  match get_pool_shared name s with
  | None => Ret (-1, s)
  | Some id => post_ref id job s
  end.

(** [fn = None] is an empty [std::function]. *)
Definition post_fn (name : Name) (affinity_key : Z) (fn : option Body) (s : Service) : mres (Z * Service) :=
  match fn with
  | None => Ret (-1, s)
  | Some f => post name (mkJob affinity_key 0 WFunction 0 f) s
  end.

(** ** Invariant: names refer to distinct pools of the heap *)

Record Inv (s : Service) : Prop := {
  inv_bound : forall n id, pools_ s !! n = Some id -> (id < length (heap s))%nat;
  inv_inj : forall n1 n2 id, pools_ s !! n1 = Some id -> pools_ s !! n2 = Some id -> n1 = n2
}.

Lemma registry_publish_inv n p s : Inv s -> Inv (publish n p s).
Proof.
  intros [B J]. unfold publish.
  assert (forall h, length h = S (length (heap s)) -> Inv (mkService (<[n := length (heap s)]> (pools_ s)) h)) as K.
  { intros h Hh. split; cbn [pools_ heap].
    - intros k id [[_ <-] | [_ Hk]]%lookup_insert_Some; [lia|]. apply B in Hk. lia.
    - intros n1 n2 id [[<- <-] | [Hn1 H1]]%lookup_insert_Some [[<- E] | [Hn2 H2]]%lookup_insert_Some;
        try done; eauto; (apply B in H1 || apply B in H2); lia. }
  destruct (pools_ s !! n); apply K; rewrite ?length_alter, length_app; simpl; lia.
Qed.

Lemma NormalizeName_idem n : NormalizeName (NormalizeName n) = NormalizeName n.
Proof.
  assert (forall c, tolower (tolower c) = tolower c) as T.
  { intros c. unfold tolower. destruct ((65 <=? c) && (c <=? 90)) eqn:E; [|by rewrite E].
    bool_hyps. rewrite (proj2 (Z.leb_gt (c + 32) 90)) by lia. by rewrite andb_false_r. }
  unfold NormalizeName at 2 3. destruct (bool_decide (map tolower n = POOL_ENDPOINT_ALIAS)) eqn:E; [reflexivity|].
  unfold NormalizeName. assert (map tolower (map tolower n) = map tolower n) as ->.
  { rewrite map_map. apply map_ext. exact T. }
  by rewrite E.
Qed.

Lemma stopped_refuses drain job (p : @Pool Body) : WorkerPool.post job (shutdown_begin drain p) = Ret (-1, shutdown_begin drain p).
Proof.
  unfold shutdown_begin. destruct (started_ p) eqn:E; cbn [negb]; [done|].
  unfold WorkerPool.post. by rewrite E.
Qed.

(** Pool registry.  A pool created under a name is reached by every
    spelling of that name (case and the legacy endpoint spelling ignored), is
    running, and leaves every other name bound as it was; a pool it displaces
    is stopped, so that a caller still holding it gets [-1] from every post.
    After [destroy_pool] the name is unknown, posts to it return [-1], and the
    pool itself refuses posts through any reference that is still held. *)
Theorem worker_service_routes name wc len drop bytes s s' :
  Inv s -> create_pool name wc true len drop bytes true s = (0, s') ->
  let n := NormalizeName name in
  Inv s' /\
  (exists id p, (forall name', NormalizeName name' = n -> get_pool_shared name' s' = Some id) /\
     heap s' !! id = Some p /\ started_ p = true /\
     length (workers_ p) = Z.to_nat wc /\
     (forall old job, get_pool_shared name s = Some old -> exists q, heap s' !! old = Some q /\
        WorkerPool.post job q = Ret (-1, q))) /\
  (forall name', NormalizeName name' <> n -> get_pool_shared name' s' = get_pool_shared name' s) /\
  (forall drain job, let d := destroy_pool name drain s' in
     (forall name', NormalizeName name' = n -> post name' job d = Ret (-1, d)) /\
     (forall id, get_pool_shared name s' = Some id -> exists q, heap d !! id = Some q /\
        WorkerPool.post job q = Ret (-1, q))).
Proof.
  intros HI. pose proof HI as [B J]. unfold create_pool. cbn [negb]. rewrite orb_false_r.
  set (n := NormalizeName name). destruct n as [|z zs] eqn:En; [done|]. rewrite <- En.
  unfold start. cbn [started_ pool_init]. destruct (wc =? 0); [done|]. cbn [Z.eqb negb].
  set (p := mkPool _ _ _ _ _ _). intros [= <-]. cbv zeta. change (NormalizeName name) with n.
  assert (get_pool_shared name (publish n p s) = Some (length (heap s))) as G.
  { unfold get_pool_shared, publish. fold n. destruct (pools_ s !! n); cbn; by rewrite lookup_insert_eq. }
  assert (heap (publish n p s) !! length (heap s) = Some p) as Hp.
  { unfold publish. destruct (pools_ s !! n) as [old|] eqn:Eo; cbn [heap].
    - rewrite list_lookup_alter_ne; [by rewrite list_lookup_middle|]. apply B in Eo. lia.
    - by rewrite list_lookup_middle. }
  split; [by apply registry_publish_inv|]. split; [|split].
  - exists (length (heap s)), p. split; [intros name' E; unfold get_pool_shared in *; by rewrite E|].
    split; [done|]. split; [done|]. split; [by cbn; rewrite length_replicate|].
    intros old job Ho. unfold get_pool_shared in Ho. fold n in Ho. unfold publish. rewrite Ho. cbn [heap].
    destruct (lookup_lt_is_Some_2 (heap s) old (B _ _ Ho)) as [q Hq].
    exists (shutdown_begin true q). split; [|apply stopped_refuses].
    rewrite list_lookup_alter_eq, lookup_app_l, Hq by (by eapply B). done.
  - intros name' Hne. unfold get_pool_shared, publish.
    destruct (pools_ s !! n); cbn [pools_];
      (rewrite lookup_insert_ne by congruence); done.
  - intros drain job. unfold destroy_pool. fold n. unfold get_pool_shared in G. fold n in G. rewrite G. split.
    + intros name' E. unfold post, get_pool_shared. cbn [pools_]. by rewrite E, lookup_delete_eq.
    + intros id Hid. unfold get_pool_shared in Hid. fold n in Hid. rewrite G in Hid. injection Hid as <-.
      exists (shutdown_begin drain p). split; [|apply stopped_refuses]. cbn [heap].
      by rewrite list_lookup_alter_eq, Hp.
Qed.
End Service.

(** ** Witness *)

Definition ex_service : @Service unit := mkService ∅ [].

(** "Media", then "MEDIA" again. *)
Definition ex_created : @Service unit :=
  (create_pool [77; 101; 100; 105; 97] 2 true 16 DropHead 1000 true ex_service).2.

Lemma ex_created_inv : Inv ex_created.
Proof.
  apply registry_publish_inv. split; cbn; intros; by rewrite lookup_empty in *.
Qed.

Lemma worker_service_routes_witness :
  exists s', create_pool [77; 69; 68; 73; 65] 3 true 16 DropTail 1000 true ex_created = (0, s') /\
    get_pool_shared [109; 101; 100; 105; 97] s' = Some 1%nat /\
    exists q, heap s' !! 0%nat = Some q /\ WorkerPool.post (ex_job 5 1) q = Ret (-1, q).
Proof.
  eexists. split; [vm_compute; reflexivity|].
  edestruct (worker_service_routes [77; 69; 68; 73; 65] 3 16 DropTail 1000 ex_created)
    as (_ & (id & p & H1 & H2 & _ & _ & H5) & _); [apply ex_created_inv|vm_compute; reflexivity|].
  split; [vm_compute; reflexivity|]. apply H5. vm_compute. reflexivity.
Defined.
