(* ===== verification/StateMachine.v ===== *)
(** * Table-driven state machine

    Models [utils::StateMachine] (utils/StateMachine.h) and the facade
    [utils::StateController] (utils/StateController.h).  Guards and actions
    are user callbacks: a guard reads the context and may throw; an action
    changes the context, may throw, and may call [Process] on the machine it
    runs in.  An action is therefore a function of the machine and the context
    that returns both and whether it threw; the fields it can reach are the
    ones [Process] changes. *)
From S2P Require Import Prelude.

Section StateMachine.
Context {State Event Context_ Payload : Type} `{EqDecision State} `{EqDecision Event}.

Inductive Status := Applied | Unhandled | GuardRejected | Busy.

Record Result := mkResult { before : State; event : Event; after : State; status : Status }.

Definition Accepted (r : Result) : bool := match status r with Applied => true | _ => false end.
Definition Changed (r : Result) : bool := Accepted r && bool_decide (before r <> after r).

(** The mutable members; the table is constant. *)
Record Machine := mkMachine { state_ : State; processing_ : bool }.

(** [None] is a thrown exception. *)
Definition Guard := Context_ -> Payload -> option bool.
Definition Action := Context_ -> Payload -> Machine -> Context_ * Machine * bool.

Record Transition := mkTransition {
  from : State;
  on : Event;
  to : State;
  guard_ : option Guard;
  action : option Action
}.

(** The constructor's check; [false] is [std::invalid_argument]. *)
Definition same_trigger (a b : Transition) : bool := bool_decide (from a = from b /\ on a = on b).

Fixpoint no_duplicates (seen rest : list Transition) : bool :=
  match rest with
  | [] => true
  | t :: rest => negb (existsb (same_trigger t) seen) && no_duplicates (seen ++ [t]) rest
  end.

Definition construct (initial : State) (table : list Transition) : option Machine :=
  if no_duplicates [] table then Some (mkMachine initial false) else None.

(** The first row of the table for the state and event. *)
Definition matches (s : State) (e : Event) (t : Transition) : bool :=
  negb (bool_decide (from t <> s) || bool_decide (on t <> e)).

(** What a call ends with: a result, or an exception that propagates. *)
Inductive Outcome := Returned (r : Result) | Threw.

Definition set_processing (b : bool) (m : Machine) : Machine := mkMachine (state_ m) b.

Definition Process (table : list Transition) (e : Event) (payload : Payload) (c : Context_) (m : Machine)
    : Outcome * Context_ * Machine :=
  let before := state_ m in
  if processing_ m then (Returned (mkResult before e before Busy), c, m) else
  let m := set_processing true m in
  match List.find (matches before e) table with
  | None => (Returned (mkResult before e before Unhandled), c, set_processing false m)
  | Some t =>
    match (match guard_ t with None => Some true | Some g => g c payload end) with
    | None => (Threw, c, set_processing false m)
    | Some false => (Returned (mkResult before e before GuardRejected), c, set_processing false m)
    | Some true =>
      let m := mkMachine (to t) true in
      let '(c, m, threw) := match action t with None => (c, m, false) | Some a => a c payload m end in
      if threw then (Threw, c, set_processing false m)
      else (Returned (mkResult before e (state_ m) Applied), c, set_processing false m)
    end
  end.

(** ** StateController.h *)

Definition On (from : State) (event : Event) (to : State) (action : option Action) (guard : option Guard)
    : Transition := mkTransition from event to guard action.

Definition Stay (state : State) (event : Event) (action : option Action) (guard : option Guard)
    : Transition := On state event state action guard.

Definition Dispatch (table : list Transition) (event : Event) (payload : Payload) (context : Context_)
    (machine : Machine) : Outcome * Context_ * Machine :=
  Process table event payload context machine.

(** An action reaches the machine only through [Process]; while it runs the
    machine is busy. *)
Inductive nested (table : list Transition) : Context_ * Machine -> Context_ * Machine -> Prop :=
| nested_refl x : nested table x x
| nested_context c c' m : nested table (c, m) (c', m)
| nested_process e payload c m o c' m' :
    Process table e payload c m = (o, c', m') -> nested table (c, m) (c', m')
| nested_trans x y z : nested table x y -> nested table y z -> nested table x z.

Definition actions_ok (table : list Transition) : Prop :=
  Forall (fun t => forall a c p m c' m' threw,
    action t = Some a -> processing_ m = true -> a c p m = (c', m', threw) ->
    nested table (c, m) (c', m')) table.

Lemma nested_busy table x y : nested table x y -> processing_ x.2 = true -> y.2 = x.2.
Proof.
  induction 1 as [x|c c' m|e p c m o c' m' E|x y z _ IH1 _ IH2]; simpl in *; intros Hp; try done.
  - unfold Process in E. rewrite Hp in E. by injection E as _ <- <-.
  - rewrite IH2; [by apply IH1|]. by rewrite IH1.
Qed.

Lemma no_duplicates_spec seen rest :
  no_duplicates seen rest = true ->
  forall l1 t l2, rest = l1 ++ t :: l2 -> forall u, u ∈ seen ++ l1 -> same_trigger t u = false.
Proof.
  revert seen. induction rest as [|x rest IH]; intros seen H l1 t l2 E; [by destruct l1|].
  cbn [no_duplicates] in H. apply andb_prop in H as [H1 H2]. apply negb_true_iff in H1.
  destruct l1 as [|y l1]; injection E as -> E.
  - rewrite app_nil_r. intros u Hu. destruct (same_trigger t u) eqn:Es; [|done].
    assert (existsb (same_trigger t) seen = true) as Hx; [|congruence].
    apply existsb_exists. exists u. split; [by apply list_elem_of_In|done].
  - intros u Hu. eapply (IH _ H2 l1 t l2 E). rewrite <- app_assoc. exact Hu.
Qed.

(** In an accepted table at most one row matches a state and event. *)
Lemma unique_row table initial m s e t u :
  construct initial table = Some m -> t ∈ table -> u ∈ table ->
  matches s e t = true -> matches s e u = true -> t = u.
Proof.
  unfold construct. destruct (no_duplicates [] table) eqn:Ed; [|done]. intros _ Ht Hu Mt Mu.
  assert (same_trigger t u = true /\ same_trigger u t = true) as [Stu Sut].
  { unfold matches, same_trigger in *. apply negb_true_iff, orb_false_elim in Mt as [M1 M2].
    apply negb_true_iff, orb_false_elim in Mu as [M3 M4].
    apply bool_decide_eq_false in M1, M2, M3, M4. apply dec_stable in M1, M2, M3, M4.
    split; apply bool_decide_eq_true; split; congruence. }
  apply list_elem_of_lookup in Ht as [i Hi]. apply list_elem_of_lookup in Hu as [j Hj].
  assert (forall i j a b, (i < j)%nat -> table !! i = Some a -> table !! j = Some b -> same_trigger b a = false) as K.
  { clear -Ed. intros i j a b Hij Ha Hb.
    apply (no_duplicates_spec [] table Ed (take j table) b (drop (S j) table)).
    - by rewrite take_drop_middle.
    - simpl. apply list_elem_of_lookup. exists i. by rewrite lookup_take_lt. }
  destruct (Nat.lt_total i j) as [Hlt|[->|Hgt]]; [|congruence|].
  - specialize (K i j t u Hlt Hi Hj). congruence.
  - specialize (K j i u t Hgt Hj Hi). congruence.
Qed.

(** State machine.  On an accepted table and an idle machine, [Process]
    takes exactly the one row for the current state and event: it leaves the
    state alone when there is no such row, when the guard refuses or throws,
    and otherwise commits the row's target, also when the action throws and
    whatever the action does to the machine from inside (every nested call is
    refused as busy); the call throws exactly when the action does, and the
    action, run on the committed state, decides the context.  The machine is idle again afterwards on every path,
    exceptions included. *)
Theorem state_machine_process table initial m0 m e payload c o c' m' :
  construct initial table = Some m0 -> actions_ok table -> processing_ m = false ->
  Process table e payload c m = (o, c', m') ->
  processing_ m' = false /\
  match List.find (matches (state_ m) e) table with
  | None => o = Returned (mkResult (state_ m) e (state_ m) Unhandled) /\ state_ m' = state_ m /\ c' = c
  | Some t =>
    (forall u, u ∈ table -> matches (state_ m) e u = true -> u = t) /\
    match (match guard_ t with None => Some true | Some g => g c payload end) with
    | None => o = Threw /\ state_ m' = state_ m /\ c' = c
    | Some false => o = Returned (mkResult (state_ m) e (state_ m) GuardRejected) /\ state_ m' = state_ m /\ c' = c
    | Some true => state_ m' = to t /\
        match action t with
        | None => c' = c /\ o = Returned (mkResult (state_ m) e (to t) Applied)
        | Some a =>
          let '(c1, _, threw) := a c payload (mkMachine (to t) true) in
          c' = c1 /\ o = if threw then Threw else Returned (mkResult (state_ m) e (to t) Applied)
        end
    end
  end.
Proof.
  intros Hc Ha Hp. unfold Process. rewrite Hp.
  destruct (List.find _ table) as [t|] eqn:Ef; [|by intros [= <- <- <-]].
  apply find_some in Ef as [Hin Hm]. apply list_elem_of_In in Hin.
  assert (forall u, u ∈ table -> matches (state_ m) e u = true -> u = t) as Hu
    by (intros u Hu Mu; by eapply unique_row).
  destruct (match guard_ t with None => _ | _ => _ end) as [[|]|]; [|by intros [= <- <- <-]..].
  destruct (action t) as [a|] eqn:Ea; [|by intros [= <- <- <-]; auto].
  destruct (a c payload (mkMachine (to t) true)) as [[c1 m1] threw] eqn:E.
  assert (m1 = mkMachine (to t) true) as ->.
  { unfold actions_ok in Ha. rewrite Forall_forall in Ha.
    apply (nested_busy table (c, mkMachine (to t) true) (c1, m1)); [|done]. by eapply Ha. }
  destruct threw; intros [= <- <- <-]; auto.
Qed.
End StateMachine.

(** A connection of two states: opening adds the payload to the context, and
    the guard of closing wants a positive context. *)
Definition door_table : list (@Transition bool bool Z Z) :=
  [ mkTransition false true true None (Some (fun c p m => (c + p, m, false)));
    mkTransition true false false (Some (fun c _ => Some (0 <? c))) None ].

Lemma door_actions : actions_ok door_table.
Proof.
  repeat constructor; simpl; intros a c p m c' m' threw; [intros [= <-] _ [= <- <- _]|done].
  apply nested_context.
Qed.

Lemma state_machine_process_witness :
  state_ (Process door_table true 5 1 (mkMachine false false)).2 = true /\
  (Process door_table true 5 1 (mkMachine false false)).1.2 = 6.
Proof.
  destruct (Process door_table true 5 1 (mkMachine false false)) as [[o c'] m'] eqn:E.
  pose proof (state_machine_process door_table false (mkMachine false false) (mkMachine false false)
    true 5 1 o c' m' eq_refl door_actions eq_refl E) as [_ H].
  cbv beta iota delta [List.find door_table matches state_] in H. simpl in H.
  destruct H as [_ [Hs [Hc _]]]. split; assumption.
Defined.
