(* ===== verification/SocketAddr.v ===== *)
(** * Socket addresses

    Models [network::SocketAddr] (network/UdpSocket.h): the family of [ss] and
    the fields the sources read, the port in host order and the address as
    bytes.  [AF_none] is the value-initialized address; an address of one of
    the two families has the length its family requires.  [inet_pton] is the C
    library's and a parameter of [FromIPPort]. *)
From S2P Require Import Prelude Bytes.

Inductive SocketAddr :=
| AF_none
| AF_inet (sin_port : Z) (sin_addr : list Z)
| AF_inet6 (sin6_port : Z) (sin6_addr : list Z) (sin6_scope_id : Z).

#[export] Instance SocketAddr_eq_dec : EqDecision SocketAddr.
Proof. solve_decision. Defined.

#[export] Instance SocketAddr_countable : Countable SocketAddr.
Proof.
  refine (inj_countable'
    (fun a => match a with
              | AF_none => None
              | AF_inet p x => Some (p, x, None)
              | AF_inet6 p x s => Some (p, x, Some s)
              end)
    (fun o => match o with
              | None => AF_none
              | Some (p, x, None) => AF_inet p x
              | Some (p, x, Some s) => AF_inet6 p x s
              end) _).
  by intros [].
Defined.

(** [operator==] *)
Definition addr_eq (a b : SocketAddr) : bool :=
  match a, b with
  | AF_inet p x, AF_inet q y => (p =? q) && bool_decide (x = y)
  | AF_inet6 p x s, AF_inet6 q y t => (p =? q) && (s =? t) && bool_decide (x = y)
  | _, _ => false
  end.

Definition IsV4 (a : SocketAddr) : bool := match a with AF_inet _ _ => true | _ => false end.
Definition IsV6 (a : SocketAddr) : bool := match a with AF_inet6 _ _ _ => true | _ => false end.
Definition IsValid (a : SocketAddr) : bool := IsV4 a || IsV6 a.

Definition Port (a : SocketAddr) : Z :=
  match a with AF_inet p _ => p | AF_inet6 p _ _ => p | AF_none => 0 end.

Definition IPv4Bytes (a : SocketAddr) : list Z := match a with AF_inet _ x => x | _ => [] end.
Definition IPv6Bytes (a : SocketAddr) : list Z := match a with AF_inet6 _ x _ => x | _ => [] end.

(** The classification macros of netinet/in.h on the sixteen bytes. *)
Definition IN6_IS_ADDR_UNSPECIFIED (x : list Z) : bool := bool_decide (x = repeat 0 16).
Definition IN6_IS_ADDR_LOOPBACK (x : list Z) : bool := bool_decide (x = repeat 0 15 ++ [1]).
Definition IN6_IS_ADDR_MULTICAST (x : list Z) : bool := bget x 0 =? 0xff.
Definition IN6_IS_ADDR_LINKLOCAL (x : list Z) : bool := (bget x 0 =? 0xfe) && (Z.land (bget x 1) 0xc0 =? 0x80).
Definition IN6_IS_ADDR_V4MAPPED (x : list Z) : bool := bool_decide (take 12 x = repeat 0 10 ++ [0xff; 0xff]).

Definition Normalized (a : SocketAddr) : SocketAddr :=
  match a with
  | AF_inet6 p x _ => if IN6_IS_ADDR_V4MAPPED x then AF_inet p (take 4 (drop 12 x)) else a
  | _ => a
  end.

(** [inet_pton] for the two families: the address bytes of a text. *)
Class InetPton := {
  inet_pton4 : list Z -> option (list Z);
  inet_pton6 : list Z -> option (list Z);
  inet_pton4_size : forall s x, inet_pton4 s = Some x -> length x = 4%nat;
  inet_pton6_size : forall s x, inet_pton6 s = Some x -> length x = 16%nat
}.

Definition FromIPPort `{InetPton} (ip : list Z) (port : Z) : SocketAddr :=
  match inet_pton4 ip with
  | Some x => AF_inet port x
  | None =>
    match inet_pton6 ip with
    | Some x => AF_inet6 port x 0
    | None => AF_none
    end
  end.

(** ** Facts *)

Definition is_inet (p : SocketAddr) : bool := match p with AF_none => false | _ => true end.

(** The sizes the families prescribe. *)
Definition addr_ok (src : SocketAddr) : Prop :=
  match src with
  | AF_inet p x => is_u16 p /\ blen x = 4
  | AF_inet6 p x _ => is_u16 p /\ blen x = 16
  | AF_none => False
  end.

Lemma addr_eq_spec a b : addr_eq a b = true <-> a = b /\ is_inet a = true.
Proof.
  destruct a, b; cbn; split; intros E; try done; try (by destruct E).
  - bool_hyps. apply bool_decide_eq_true in H0 as ->. by subst.
  - destruct E as [[= -> ->] _]. by rewrite Z.eqb_refl, bool_decide_eq_true_2.
  - bool_hyps. apply bool_decide_eq_true in H0 as ->. by subst.
  - destruct E as [[= -> -> ->] _]. by rewrite !Z.eqb_refl, bool_decide_eq_true_2.
Qed.

Lemma addr_eq_refl src : is_inet src = true -> addr_eq src src = true.
Proof. intros. by apply addr_eq_spec. Qed.
