(* ===== verification/IceAgent.v ===== *)
(** * ICE agent

    Models [ice::IceAgent] (protocol/ice/IceAgent.h, IceAgent.cpp), the passive
    ICE-Lite responder of a session, over the STUN codec and the state machine,
    with [IceContext] (protocol/ice/IceContext.h).

    The callback [on_selected_peer_] is modelled by whether it is set and by
    the address it is called with; it does not call the agent back.  [clock_] is
    read once in [CheckLiveness] and once when the watchdog is refreshed; the
    values it returns are arguments.  Strings are byte lists. *)
From Stdlib Require Import Ascii String.
From S2P Require Import Prelude Bytes Stun StunLayout StunProps StunSafety StateMachine SocketAddr.
Import StunCodec.

Definition bytes_of (s : string) : list Z :=
  map (fun c => Z.of_N (N_of_ascii c)) (list_ascii_of_string s).

(** ** IceContext *)
Inductive Role := Controlling | Controlled.

Record IceContext := mkContext {
  local_ufrag_ : list Z;
  local_pwd_ : list Z;
  remote_ufrag_ : list Z;
  remote_pwd_ : list Z;
  role_ : Role;
  tie_breaker_ : Z
}.

Definition IceContext_init : IceContext := mkContext [] [] [] [] Controlled 0.

Definition ctx_SetLocalCredentials (ufrag pwd : list Z) (c : IceContext) : IceContext :=
  mkContext ufrag pwd (remote_ufrag_ c) (remote_pwd_ c) (role_ c) (tie_breaker_ c).
Definition ctx_SetRemoteCredentials (ufrag pwd : list Z) (c : IceContext) : IceContext :=
  mkContext (local_ufrag_ c) (local_pwd_ c) ufrag pwd (role_ c) (tie_breaker_ c).
Definition ctx_SetRole (r : Role) (c : IceContext) : IceContext :=
  mkContext (local_ufrag_ c) (local_pwd_ c) (remote_ufrag_ c) (remote_pwd_ c) r (tie_breaker_ c).
Definition ctx_SetTieBreaker (v : Z) (c : IceContext) : IceContext :=
  mkContext (local_ufrag_ c) (local_pwd_ c) (remote_ufrag_ c) (remote_pwd_ c) (role_ c) v.

Definition empty (s : list Z) : bool := match s with [] => true | _ => false end.

Definition IsControlling (c : IceContext) : bool :=
  match role_ c with Controlling => true | Controlled => false end.
Definition HasLocalCredentials (c : IceContext) : bool :=
  negb (empty (local_ufrag_ c)) && negb (empty (local_pwd_ c)).
Definition InboundIntegrityKey (c : IceContext) : list Z := local_pwd_ c.

(** ** Life cycle *)
Inductive State := New | Checking | Completed | Failed | Closed.
Inductive Event := Start | Check_ | Nominate | CredentialsChanged | Timeout_ | Close_.

#[export] Instance State_eq_dec : EqDecision State.
Proof. solve_decision. Defined.
#[export] Instance Event_eq_dec : EqDecision Event.
Proof. solve_decision. Defined.

(** [==] on the enumeration *)
Definition State_eqb (s t : State) : bool :=
  match s, t with
  | New, New | Checking, Checking | Completed, Completed | Failed, Failed | Closed, Closed => true
  | _, _ => false
  end.

(** No row has a guard or an action, so the context is not touched. *)
Definition lifecycle_table : list (@StateMachine.Transition State Event unit Event) :=
  [ On New Start Checking None None;
    On Checking Start Checking None None;
    On Completed Start Checking None None;
    On Failed Start Checking None None;
    On New Check_ Checking None None;
    Stay Checking Check_ None None;
    Stay Completed Check_ None None;
    On Checking Nominate Completed None None;
    Stay Completed Nominate None None;
    Stay New CredentialsChanged None None;
    Stay Checking CredentialsChanged None None;
    On Completed CredentialsChanged Checking None None;
    On Checking Timeout_ Failed None None;
    On Completed Timeout_ Failed None None;
    On New Close_ Closed None None;
    On Checking Close_ Closed None None;
    On Completed Close_ Closed None None;
    On Failed Close_ Closed None None;
    Stay Closed Close_ None None ].

Record IceAgent := mkAgent {
  ctx_ : IceContext;
  timeout_ms_ : Z;
  last_check_ms_ : Z;
  selected_peer_ : SocketAddr;
  on_selected_peer_ : bool;
  lifecycle_ : @Machine State
}.

Definition set_ctx (c : IceContext) (a : IceAgent) : IceAgent :=
  mkAgent c (timeout_ms_ a) (last_check_ms_ a) (selected_peer_ a) (on_selected_peer_ a) (lifecycle_ a).
Definition set_timeout (t : Z) (a : IceAgent) : IceAgent :=
  mkAgent (ctx_ a) t (last_check_ms_ a) (selected_peer_ a) (on_selected_peer_ a) (lifecycle_ a).
Definition set_last_check (t : Z) (a : IceAgent) : IceAgent :=
  mkAgent (ctx_ a) (timeout_ms_ a) t (selected_peer_ a) (on_selected_peer_ a) (lifecycle_ a).
Definition set_peer (p : SocketAddr) (a : IceAgent) : IceAgent :=
  mkAgent (ctx_ a) (timeout_ms_ a) (last_check_ms_ a) p (on_selected_peer_ a) (lifecycle_ a).
Definition set_callback (b : bool) (a : IceAgent) : IceAgent :=
  mkAgent (ctx_ a) (timeout_ms_ a) (last_check_ms_ a) (selected_peer_ a) b (lifecycle_ a).
Definition set_lifecycle (m : @Machine State) (a : IceAgent) : IceAgent :=
  mkAgent (ctx_ a) (timeout_ms_ a) (last_check_ms_ a) (selected_peer_ a) (on_selected_peer_ a) m.

(** [None] where the constructor of the state machine rejects the table. *)
Definition construct_agent : option IceAgent :=
  match construct New lifecycle_table with
  | None => None
  | Some m => Some (mkAgent (ctx_SetRole Controlled IceContext_init) 0 0 AF_none false m)
  end.

Definition CurrentState (a : IceAgent) : State := state_ (lifecycle_ a).

Definition HasSelectedPeer (a : IceAgent) : bool := State_eqb (CurrentState a) Completed.

Definition Transition (event : Event) (a : IceAgent) : bool * IceAgent :=
  match Dispatch lifecycle_table event event tt (lifecycle_ a) with
  | (Returned result, _, m) =>
    let a := set_lifecycle m a in
    if negb (Accepted result) then (false, a) else
    (true, if bool_decide (event <> Check_) && bool_decide (event <> Nominate)
           then set_peer AF_none a else a)
  | (Threw, _, m) => (false, set_lifecycle m a)
  end.

Definition StartLiveness (timeout_ms now : Z) (a : IceAgent) : bool * IceAgent :=
  if timeout_ms =? 0 then (false, a) else
  let '(ok, a) := Transition Start a in
  if negb ok then (false, a) else
  (true, set_last_check now (set_timeout timeout_ms a)).

Definition Close (a : IceAgent) : IceAgent := (Transition Close_ (set_timeout 0 a)).2.

Definition StopLiveness (a : IceAgent) : IceAgent := Close a.

Definition CheckLiveness (now : Z) (a : IceAgent) : bool * IceAgent :=
  if State_eqb (CurrentState a) Failed || State_eqb (CurrentState a) Closed then (false, a) else
  if timeout_ms_ a =? 0 then (true, a) else
  if (last_check_ms_ a <=? now) && (timeout_ms_ a <=? now - last_check_ms_ a)
  then (false, (Transition Timeout_ a).2)
  else (true, a).

Definition SetLocalCredentials (ufrag pwd : list Z) (a : IceAgent) : IceAgent :=
  let a :=
    if bool_decide (ufrag <> local_ufrag_ (ctx_ a)) || bool_decide (pwd <> local_pwd_ (ctx_ a))
    then (Transition CredentialsChanged a).2 else a in
  set_ctx (ctx_SetLocalCredentials ufrag pwd (ctx_ a)) a.

Definition SetRemoteCredentials (ufrag pwd : list Z) (a : IceAgent) : IceAgent :=
  let a :=
    if bool_decide (ufrag <> remote_ufrag_ (ctx_ a)) || bool_decide (pwd <> remote_pwd_ (ctx_ a))
    then (Transition CredentialsChanged a).2 else a in
  set_ctx (ctx_SetRemoteCredentials ufrag pwd (ctx_ a)) a.

Definition SetRole (r : Role) (a : IceAgent) : IceAgent := set_ctx (ctx_SetRole r (ctx_ a)) a.
Definition SetTieBreaker (v : Z) (a : IceAgent) : IceAgent := set_ctx (ctx_SetTieBreaker v (ctx_ a)) a.
Definition SetOnSelectedPeer (cb : bool) (a : IceAgent) : IceAgent := set_callback cb a.

(** ** Handling a datagram *)

Definition kMaxStunPacketSize : Z := 1500.
Definition kBadRequest : Z := 400.
Definition kUnauthorized : Z := 401.
Definition kRoleConflict : Z := 487.

Inductive HandleResult := NotStun | Ignored | ErrorResponse | SuccessResponse.

Definition colon : Z := 58.

(** [find(':')], then [substr(0, pos)] and [substr(pos + 1)]. *)
Fixpoint split_colon (s : list Z) : option (list Z * list Z) :=
  match s with
  | [] => None
  | c :: s =>
    if c =? colon then Some ([], s) else
    match split_colon s with
    | Some (l, r) => Some (c :: l, r)
    | None => None
    end
  end.

(** [Some remote_ufrag] is [true] with the out-parameter set. *)
Definition ValidateUsername (c : IceContext) (m : StunMessageInfo) : mres (option (list Z)) :=
  let! username := DecodeUsername m in
  match username with
  | None => Ret None
  | Some username =>
    match split_colon username with
    | None => Ret None
    | Some (local, remote) =>
      if bool_decide (local <> local_ufrag_ c) || empty remote ||
         bool_decide (is_Some (split_colon remote)) then Ret None else
      if negb (empty (remote_ufrag_ c)) && bool_decide (remote <> remote_ufrag_ c) then Ret None else
      Ret (Some remote)
    end
  end.

Definition HasRoleConflict (c : IceContext) (m : StunMessageInfo) : mres bool :=
  if IsControlling c then let! v := DecodeIceControlling m in Ret (bool_decide (is_Some v))
  else let! v := DecodeIceControlled m in Ret (bool_decide (is_Some v)).

Definition SocketAddrToIpEndpoint (src : SocketAddr) : option IpEndpoint :=
  match src with
  | AF_inet p x =>
    if negb (blen x =? 4) then None else
    Some (mkEndpoint (family_value IPv4) p (x ++ repeat 0 12))
  | AF_inet6 p x _ =>
    if negb (blen x =? 16) then None else
    Some (mkEndpoint (family_value IPv6) p x)
  | AF_none => None
  end.

(** The comprehension-required attributes in front of MESSAGE-INTEGRITY that
    the agent does not know, without repetition. *)
Fixpoint unknown_loop (l : list AttrView) (unknown : list Z) : list Z :=
  match l with
  | [] => unknown
  | attr :: l =>
    if av_type attr =? MESSAGE_INTEGRITY then unknown else
    if (av_type attr <? 0x8000) && negb (av_type attr =? USERNAME) &&
       negb (av_type attr =? PRIORITY) && negb (av_type attr =? USE_CANDIDATE) &&
       negb (bool_decide (av_type attr ∈ unknown))
    then unknown_loop l (unknown ++ [av_type attr])
    else unknown_loop l unknown
  end.

Section Handle.
Context `{HmacSha1}.

(** The response vector stays cleared where a builder fails. *)
Definition BuildError (c : IceContext) (m : StunMessageInfo) (code : Z) (reason : string)
    (unknown : list Z) : mres (list Z) :=
  let! out := BuildBindingError m (mkError code (bytes_of reason) unknown)
    (if (code =? kBadRequest) || (code =? kUnauthorized) then [] else InboundIntegrityKey c)
    kMaxStunPacketSize in
  Ret (match out with Some out => out | None => [] end).

Definition BuildSuccess (c : IceContext) (src : SocketAddr) (m : StunMessageInfo)
    : mres (option (list Z)) :=
  match SocketAddrToIpEndpoint src with
  | None => Ret None
  | Some mapped =>
    BuildIceBindingSuccess (mkSuccess (Some m) mapped (InboundIntegrityKey c) true) kMaxStunPacketSize
  end.

(** What the checks of [HandleBindingRequest] up to [BuildSuccess] decide. *)
Inductive Verdict :=
| Drop
| Refuse (code : Z) (reason : string) (unknown : list Z)
| Admit (remote_ufrag : list Z).

Definition CheckRequest (c : IceContext) (m : StunMessageInfo) : mres Verdict :=
  if negb (HasLocalCredentials c) then Ret Drop else
  let! fingerprint := (if HasAttr m FINGERPRINT then VerifyFingerprint m else Ret false) in
  if negb fingerprint then Ret Drop else
  if negb (HasAttr m USERNAME) || negb (HasAttr m MESSAGE_INTEGRITY)
  then Ret (Refuse kBadRequest "Missing credentials" []) else
  let! user := ValidateUsername c m in
  match user with
  | None => Ret (Refuse kUnauthorized "Bad USERNAME" [])
  | Some remote_ufrag =>
    let! integrity := VerifyMessageIntegrity m (InboundIntegrityKey c) in
    if negb integrity then Ret (Refuse kUnauthorized "Bad MESSAGE-INTEGRITY" []) else
    let! controlling := DecodeIceControlling m in
    let! controlled := DecodeIceControlled m in
    let has_controlling := bool_decide (is_Some controlling) in
    let has_controlled := bool_decide (is_Some controlled) in
    let nomination := FindAttr m USE_CANDIDATE in
    let both_roles := HasAttr m ICE_CONTROLLING && HasAttr m ICE_CONTROLLED in
    let! priority := DecodePriority m in
    if bool_decide (priority = None) || bool_decide (priority = Some 0) || both_roles ||
       eqb has_controlling has_controlled ||
       match nomination with
       | Some n => negb (av_len n =? 0) || negb has_controlling
       | None => false
       end
    then Ret (Refuse kBadRequest "Bad ICE attributes" []) else
    let unknown := unknown_loop (attrs m) [] in
    if negb (empty unknown) then Ret (Refuse 420 "Unknown Attribute" unknown) else
    let! conflict := HasRoleConflict c m in
    if conflict then Ret (Refuse kRoleConflict "Role Conflict" []) else
    Ret (Admit remote_ufrag)
  end.

(** The result, the response, the argument of the callback where it is called,
    and the agent. *)
Definition Handled : Type := HandleResult * list Z * option SocketAddr * IceAgent.

(** [HandleBindingRequest] behind [BuildSuccess]: nothing before it changes
    the agent. *)
Definition Accept (src : SocketAddr) (m : StunMessageInfo) (remote_ufrag : list Z) (now : Z)
    (a : IceAgent) : option SocketAddr * IceAgent :=
  let a := (Transition Check_ a).2 in
  let a :=
    if empty (remote_ufrag_ (ctx_ a))
    then set_ctx (ctx_SetRemoteCredentials remote_ufrag (remote_pwd_ (ctx_ a)) (ctx_ a)) a else a in
  let '(cb, a) :=
    if negb (IsControlling (ctx_ a)) && HasUseCandidate m &&
       (negb (HasSelectedPeer a) || negb (addr_eq (selected_peer_ a) src))
    then
      let a := set_peer src a in
      let a := (Transition Nominate a).2 in
      (if on_selected_peer_ a then Some (selected_peer_ a) else None, a)
    else (None, a) in
  (cb, if negb (timeout_ms_ a =? 0) && HasSelectedPeer a && addr_eq (selected_peer_ a) src
       then set_last_check now a else a).

Definition HandleBindingRequest (src : SocketAddr) (m : StunMessageInfo) (now : Z) (a : IceAgent)
    : mres Handled :=
  let! verdict := CheckRequest (ctx_ a) m in
  match verdict with
  | Drop => Ret (Ignored, [], None, a)
  | Refuse code reason unknown =>
    let! response := BuildError (ctx_ a) m code reason unknown in
    Ret (ErrorResponse, response, None, a)
  | Admit remote_ufrag =>
    let! response := BuildSuccess (ctx_ a) src m in
    match response with
    | None => Ret (Ignored, [], None, a)
    | Some response =>
      let '(cb, a) := Accept src m remote_ufrag now a in
      Ret (SuccessResponse, response, cb, a)
    end
  end.

(** [now] and [now'] are the two readings of the clock. *)
Definition HandleDatagram (src : SocketAddr) (data : cbuf) (now now' : Z) (a : IceAgent) : mres Handled :=
  let '(live, a) := CheckLiveness now a in
  if negb live then Ret (Ignored, [], None, a) else
  let! '(ok, msg) := Parse data in
  if negb ok then Ret (NotStun, [], None, a) else
  if negb (raw_len msg =? match data with Some b => blen b | None => 0 end) || negb (IsBindingRequest msg)
  then Ret (Ignored, [], None, a) else
  HandleBindingRequest src msg now' a.
End Handle.
