(* ===== verification/IceProps.v ===== *)
(** * Correctness of the ICE agent

    The life cycle under every sequence of calls, that only authenticated
    connectivity checks have an effect, and that a peer with the right
    credentials completes. *)
From Stdlib Require Import Ascii String.
From S2P Require Import Prelude Bytes Stun StunLayout StunProps StunSafety StateMachine SocketAddr.
Import StunCodec.
From S2P Require Import IceAgent.

(** ** Life cycle facts *)

(** The state behind an event, [None] where it is not handled. *)
Definition next_state (s : State) (e : Event) : option State :=
  match e, s with
  | Start, (New | Checking | Completed | Failed) => Some Checking
  | Check_, (New | Checking) => Some Checking
  | Check_, Completed => Some Completed
  | Nominate, (Checking | Completed) => Some Completed
  | CredentialsChanged, New => Some New
  | CredentialsChanged, (Checking | Completed) => Some Checking
  | Timeout_, (Checking | Completed) => Some Failed
  | Close_, _ => Some Closed
  | _, _ => None
  end.

Definition keeps_peer (e : Event) : bool := match e with Check_ | Nominate => true | _ => false end.

Lemma Transition_spec e a :
  processing_ (lifecycle_ a) = false ->
  Transition e a =
  match next_state (CurrentState a) e with
  | Some s => (true, mkAgent (ctx_ a) (timeout_ms_ a) (last_check_ms_ a)
                (if keeps_peer e then selected_peer_ a else AF_none) (on_selected_peer_ a) (mkMachine s false))
  | None => (false, a)
  end.
Proof.
  destruct a as [c t l p o [s b]]. cbn [lifecycle_ processing_ CurrentState]. intros ->.
  destruct s, e; reflexivity.
Qed.

(** A peer is selected exactly in [Completed]; the watchdog runs only after
    [StartLiveness] and before [Close]. *)
Record Inv (a : IceAgent) : Prop := {
  iv_idle : processing_ (lifecycle_ a) = false;
  iv_peer : if State_eqb (CurrentState a) Completed then is_inet (selected_peer_ a) = true
            else selected_peer_ a = AF_none;
  iv_timeout : 0 <= timeout_ms_ a;
  iv_off : CurrentState a = New \/ CurrentState a = Closed -> timeout_ms_ a = 0
}.

Lemma next_new s e : next_state s e = Some New -> s = New.
Proof. by destruct s, e. Qed.

Lemma next_closed e s' : next_state Closed e = Some s' -> s' = Closed.
Proof. by destruct e; intros [= <-]. Qed.

Lemma agent_init : exists a, construct_agent = Some a /\ Inv a /\ CurrentState a = New.
Proof. eexists. split; [reflexivity|]. split; [by split|done]. Qed.

(** Every transition but a nomination keeps the invariant, once [Close] has
    stopped the watchdog. *)
Lemma Transition_Inv e a :
  Inv a -> e <> Nominate -> (e = Close_ -> timeout_ms_ a = 0) -> Inv (Transition e a).2.
Proof.
  intros [Hi Hp Ht Ho] Hn Hc. rewrite Transition_spec by done.
  destruct (next_state (CurrentState a) e) as [s|] eqn:E; [|by split].
  destruct a as [c t l p o [s0 b]]. unfold CurrentState in *. cbn in *.
  destruct s0, e; try done; injection E as <-; split; cbn; try done; intros [?|?]; try done; auto.
Qed.

Definition is_dead (a : IceAgent) : bool :=
  State_eqb (CurrentState a) Failed || State_eqb (CurrentState a) Closed.

Definition is_live (now : Z) (a : IceAgent) : bool :=
  negb (is_dead a) && ((timeout_ms_ a =? 0) || (now <? last_check_ms_ a + timeout_ms_ a)).

Lemma CheckLiveness_dead now a : is_dead a = true -> CheckLiveness now a = (false, a).
Proof. unfold CheckLiveness, is_dead. by intros ->. Qed.

Lemma CheckLiveness_live now a : Inv a -> is_live now a = true -> CheckLiveness now a = (true, a).
Proof.
  intros [Hi Hp Ht Ho]. unfold is_live, is_dead, CheckLiveness. intros E.
  apply andb_prop in E as [Ed E]. apply negb_true_iff in Ed. rewrite Ed. destruct (timeout_ms_ a =? 0); [done|]. cbn [orb] in *. bool_hyps.
  destruct (_ && _) eqn:E2; [|done]. bool_hyps. lia.
Qed.

(** A failed check leaves the agent dead, without a peer. *)
Lemma CheckLiveness_fails now a :
  Inv a -> is_live now a = false ->
  exists a', CheckLiveness now a = (false, a') /\ Inv a' /\ is_dead a' = true /\ (is_dead a = true -> a' = a).
Proof.
  intros HI E. destruct (is_dead a) eqn:Ed; [exists a; by rewrite CheckLiveness_dead|].
  unfold is_live in E. rewrite Ed in E. cbn [negb andb] in E. bool_hyps.
  pose proof HI as [Hi Hp Ht Ho].
  unfold CheckLiveness. unfold is_dead in Ed. rewrite Ed, (proj2 (Z.eqb_neq _ _)) by done.
  rewrite !(proj2 (Z.leb_le _ _)) by lia. cbn [andb]. eexists. split; [done|].
  split; [by apply Transition_Inv|]. split; [|done]. rewrite Transition_spec by done. unfold is_dead.
  destruct (CurrentState a); try done; exfalso; auto.
Qed.

Lemma dead_spec a : Inv a -> is_dead a = true -> (CurrentState a = Failed \/ CurrentState a = Closed) /\ selected_peer_ a = AF_none.
Proof. intros [_ Hp _ _]. unfold is_dead. destruct (CurrentState a); cbn in *; auto; done. Qed.

Lemma is_live_spec now a :
  is_live now a = true <->
  CurrentState a <> Failed /\ CurrentState a <> Closed /\ (timeout_ms_ a = 0 \/ now < last_check_ms_ a + timeout_ms_ a).
Proof.
  unfold is_live, is_dead. rewrite andb_true_iff, orb_true_iff, Z.eqb_eq, Z.ltb_lt.
  destruct (CurrentState a); cbn; naive_solver.
Qed.

(** What accepting an authenticated check does. *)
Record Accepted_ (src : SocketAddr) (nominate : bool) (ru : list Z) (a : IceAgent)
    (cb : option SocketAddr) (a' : IceAgent) : Prop := {
  ao_ctx : ctx_ a' = if empty (remote_ufrag_ (ctx_ a))
                     then ctx_SetRemoteCredentials ru (remote_pwd_ (ctx_ a)) (ctx_ a) else ctx_ a;
  ao_state : CurrentState a' = if nominate || State_eqb (CurrentState a) Completed then Completed else Checking;
  ao_peer : selected_peer_ a' = if nominate then src else selected_peer_ a;
  ao_cb : cb = if nominate && on_selected_peer_ a && negb (addr_eq (selected_peer_ a) src) then Some src else None;
  ao_timeout : timeout_ms_ a' = timeout_ms_ a
}.

Lemma Accept_spec src m ru now a :
  Inv a -> is_inet src = true -> is_dead a = false ->
  Accepted_ src (HasUseCandidate m && negb (IsControlling (ctx_ a))) ru a
    (Accept src m ru now a).1 (Accept src m ru now a).2 /\ Inv (Accept src m ru now a).2 /\
  last_check_ms_ (Accept src m ru now a).2 =
    (if negb (timeout_ms_ a =? 0) && addr_eq (selected_peer_ (Accept src m ru now a).2) src
     then now else last_check_ms_ a).
Proof.
  intros [Hi Hp Ht Ho] Hs Hd. pose proof (addr_eq_refl src Hs) as Hr.
  destruct a as [c t l p o [s b]]. unfold CurrentState, is_dead in *. cbn in Hi, Hp, Ht, Ho, Hd. subst b.
  unfold Accept. rewrite Transition_spec by done.
  assert (addr_eq AF_none src = false) as Hn by done.
  destruct s; try done; cbn in Hp; subst; cbn -[addr_eq Z.eqb Transition HasUseCandidate];
  destruct c as [lu lp [|r0 ru0] rp [] tb], (HasUseCandidate m); cbn -[addr_eq Z.eqb Transition];
  try destruct (addr_eq p src) eqn:Ea; rewrite ?Transition_spec by done; cbn -[addr_eq Z.eqb];
  rewrite ?Hr, ?Hn, ?Ea; try apply addr_eq_spec in Ea as [-> _]; 
  destruct (t =? 0) eqn:Et; cbn -[addr_eq Z.eqb];
  (split; [split; cbn -[addr_eq]; rewrite ?Hr, ?Hn, ?Ea; try done; by destruct o|]);
  (split; [split; cbn; try done; intros [?|?]; done|]); cbn -[addr_eq Z.eqb]; rewrite ?Hr, ?Hn, ?Ea; done.
Qed.

(** ** Requests *)

Ltac guard_in E :=
  let Hg := fresh "Hg" in
  match type of E with
  | context [if ?b then _ else _] => destruct b eqn:Hg; [discriminate E|]
  end.

Lemma split_colon_some s l r : split_colon s = Some (l, r) -> s = l ++ colon :: r /\ colon ∉ l.
Proof.
  revert l. induction s as [|c s IH]; intros l; cbn [split_colon]; [done|].
  destruct (Z.eqb_spec c colon) as [->|Hc]; [intros [= <- <-]; split; [done|set_solver]|].
  destruct (split_colon s) as [[l' r']|]; [|done]. intros [= <- <-].
  destruct (IH l' eq_refl) as [-> Hl]. split; [done|]. set_solver.
Qed.

Lemma split_colon_app l r : colon ∉ l -> split_colon (l ++ colon :: r) = Some (l, r).
Proof.
  induction l as [|c l IH]; cbn [split_colon app]; [by rewrite Z.eqb_refl|].
  intros Hc. rewrite (proj2 (Z.eqb_neq c colon)) by set_solver. rewrite IH by set_solver. done.
Qed.

Lemma split_colon_none s : split_colon s = None <-> colon ∉ s.
Proof.
  split.
  - induction s as [|c s IH]; cbn [split_colon]; [set_solver|].
    destruct (Z.eqb_spec c colon); [done|]. destruct (split_colon s) as [[? ?]|]; [done|]. set_solver.
  - intros Hs. destruct (split_colon s) as [[l r]|] eqn:E; [|done].
    apply split_colon_some in E as [-> _]. set_solver.
Qed.

Section Requests.
Context `{HmacSha1}.

(** What an admitted request has been checked for. *)
Record authentic (c : IceContext) (m : StunMessageInfo) (ru : list Z) : Prop := {
  au_local : local_ufrag_ c <> [] /\ local_pwd_ c <> [];
  au_fingerprint : VerifyFingerprint m = Ret true;
  au_integrity : VerifyMessageIntegrity m (local_pwd_ c) = Ret true;
  au_username : DecodeUsername m = Ret (Some (local_ufrag_ c ++ colon :: ru));
  au_remote : ru <> [] /\ colon ∉ ru /\ (remote_ufrag_ c <> [] -> ru = remote_ufrag_ c);
  au_priority : exists p, DecodePriority m = Ret (Some p) /\ p <> 0;
  au_role : if IsControlling c then DecodeIceControlling m = Ret None else DecodeIceControlled m = Ret None
}.

Lemma ValidateUsername_some c m ru :
  ValidateUsername c m = Ret (Some ru) ->
  DecodeUsername m = Ret (Some (local_ufrag_ c ++ colon :: ru)) /\
  ru <> [] /\ colon ∉ ru /\ (remote_ufrag_ c <> [] -> ru = remote_ufrag_ c).
Proof.
  unfold ValidateUsername. intros E. apply mbnd_ret_inv in E as (u & -> & E). destruct u as [u|]; [|done].
  destruct (split_colon u) as [[l r]|] eqn:Es; [|done]. apply split_colon_some in Es as [-> _].
  guard_in E. guard_in E. injection E as <-.
  apply orb_false_elim in Hg as [Hg Hc]. apply orb_false_elim in Hg as [Hl He].
  apply bool_decide_eq_false in Hl, Hc. apply dec_stable in Hl as <-.
  split; [done|]. split; [by destruct r|]. split.
  { apply split_colon_none. by destruct (split_colon r); [exfalso; eauto|]. }
  intros Hr. apply andb_false_iff in Hg0 as [Hg0|Hg0].
  - by destruct (remote_ufrag_ c).
  - apply bool_decide_eq_false in Hg0. by apply dec_stable in Hg0.
Qed.

Lemma CheckRequest_admit c m ru : CheckRequest c m = Ret (Admit ru) -> authentic c m ru.
Proof.
  unfold CheckRequest. destruct (HasLocalCredentials c) eqn:Hl; [|done]. cbn [negb]. intros E.
  apply mbnd_ret_inv in E as (fp & Ef & E). destruct fp; [|done]. cbn [negb] in E.
  guard_in E. apply mbnd_ret_inv in E as (u & Eu & E). destruct u as [ru'|]; [|done].
  apply mbnd_ret_inv in E as (mi & Em & E). destruct mi; [|done]. cbn [negb] in E.
  apply mbnd_ret_inv in E as (cg & Ecg & E). apply mbnd_ret_inv in E as (cd & Ecd & E).
  apply mbnd_ret_inv in E as (pr & Ep & E). cbv zeta in E. guard_in E. guard_in E.
  apply mbnd_ret_inv in E as (cf & Ec & E). destruct cf; [done|]. injection E as ->.
  destruct (ValidateUsername_some _ _ _ Eu) as [U1 U2].
  repeat apply orb_false_elim in Hg0 as [Hg0 ?]. apply bool_decide_eq_false in Hg0.
  split; try done.
  - unfold HasLocalCredentials in Hl. by destruct (local_ufrag_ c), (local_pwd_ c).
  - by destruct (HasAttr m FINGERPRINT).
  - destruct pr as [p|]; [|done]. exists p. split; [done|]. intros ->. by apply bool_decide_eq_false in H3.
  - unfold HasRoleConflict in Ec. destruct (IsControlling c).
    + rewrite Ecg in Ec |- *. destruct cg; [done|done].
    + rewrite Ecd in Ec |- *. by destruct cd.
Qed.

Lemma CheckRequest_returns b c m : well_formed b m -> returns (CheckRequest c m).
Proof.
  intros Hw. unfold CheckRequest. split_if; [apply returns_ret|].
  apply returns_bind; [split_if; [by apply (VerifyFingerprint_safe b)|apply returns_ret]|intros fp _].
  split_if; [apply returns_ret|]. split_if; [apply returns_ret|].
  apply returns_bind.
  { unfold ValidateUsername. apply returns_bind; [by apply (DecodeUsername_safe b)|intros [u|] _; [|apply returns_ret]].
    destruct (split_colon u) as [[? ?]|]; [|apply returns_ret]. repeat (split_if; [apply returns_ret|]). apply returns_ret. }
  intros [u|] _; [|apply returns_ret].
  apply returns_bind; [by apply (VerifyMessageIntegrity_safe b)|intros mi _]. split_if; [apply returns_ret|].
  apply returns_bind; [by apply (DecodeIceControlling_safe b)|intros cg _].
  apply returns_bind; [by apply (DecodeIceControlled_safe b)|intros cd _].
  apply returns_bind; [by apply (DecodePriority_safe b)|intros pr _]. cbv zeta.
  split_if; [apply returns_ret|]. split_if; [apply returns_ret|].
  apply returns_bind; [|intros cf _; split_if; apply returns_ret].
  unfold HasRoleConflict. split_if;
    (apply returns_bind; [first [by apply (DecodeIceControlling_safe b) | by apply (DecodeIceControlled_safe b)]|
     intros; apply returns_ret]).
Qed.

Lemma BuildError_returns c m code reason unknown : returns (BuildError c m code reason unknown).
Proof. apply returns_bind; [apply BuildBindingError_returns|intros; apply returns_ret]. Qed.

Lemma BuildSuccess_returns c src m : returns (BuildSuccess c src m).
Proof.
  unfold BuildSuccess. destruct (SocketAddrToIpEndpoint src); [apply BuildIceBindingSuccess_returns|apply returns_ret].
Qed.

Lemma BuildSuccess_inet c src m out : BuildSuccess c src m = Ret (Some out) -> is_inet src = true.
Proof. by destruct src. Qed.
End Requests.

(** ** Runs *)

Inductive Op :=
| OpStartLiveness (timeout_ms now : Z)
| OpClose
| OpCheckLiveness (now : Z)
| OpSetLocalCredentials (ufrag pwd : list Z)
| OpSetRemoteCredentials (ufrag pwd : list Z)
| OpSetRole (r : Role)
| OpSetTieBreaker (v : Z)
| OpSetOnSelectedPeer (cb : bool)
| OpHandleDatagram (src : SocketAddr) (data : cbuf) (now now' : Z).

Definition op_ok (o : Op) : Prop :=
  match o with
  | OpStartLiveness t _ => 0 <= t
  | OpHandleDatagram _ (Some b) _ _ => bytes_ok b
  | _ => True
  end.

Section Agent.
Context `{HmacSha1}.

Definition exec (o : Op) (a : IceAgent) : mres IceAgent :=
  match o with
  | OpStartLiveness t now => Ret (StartLiveness t now a).2
  | OpClose => Ret (Close a)
  | OpCheckLiveness now => Ret (CheckLiveness now a).2
  | OpSetLocalCredentials u p => Ret (SetLocalCredentials u p a)
  | OpSetRemoteCredentials u p => Ret (SetRemoteCredentials u p a)
  | OpSetRole r => Ret (SetRole r a)
  | OpSetTieBreaker v => Ret (SetTieBreaker v a)
  | OpSetOnSelectedPeer cb => Ret (SetOnSelectedPeer cb a)
  | OpHandleDatagram src data now now' => let! h := HandleDatagram src data now now' a in Ret h.2
  end.

Fixpoint run (ops : list Op) (a : IceAgent) : mres IceAgent :=
  match ops with
  | [] => Ret a
  | o :: ops => let! a := exec o a in run ops a
  end.

(** What handling a datagram amounts to. *)
Inductive Effect (src : SocketAddr) (data : cbuf) (now now' : Z) (a : IceAgent) : Handled -> Prop :=
| E_dead a' :
    is_live now a = false -> CheckLiveness now a = (false, a') ->
    Effect src data now now' a (Ignored, [], None, a')
| E_inert r response :
    is_live now a = true -> r <> SuccessResponse -> (r <> ErrorResponse -> response = []) ->
    Effect src data now now' a (r, response, None, a)
| E_accept b m ru response :
    is_live now a = true -> data = Some b -> Parse data = Ret (true, m) -> raw_len m = blen b ->
    IsBindingRequest m = true -> authentic (ctx_ a) m ru ->
    BuildSuccess (ctx_ a) src m = Ret (Some response) ->
    Effect src data now now' a
      (SuccessResponse, response, (Accept src m ru now' a).1, (Accept src m ru now' a).2).

Lemma HandleDatagram_effect src data now now' a :
  Inv a -> (forall b, data = Some b -> bytes_ok b) ->
  exists h, HandleDatagram src data now now' a = Ret h /\ Effect src data now now' a h.
Proof.
  intros HI Hd. unfold HandleDatagram. destruct (is_live now a) eqn:El.
  2: { destruct (CheckLiveness_fails now a HI El) as (a' & E & _). rewrite E. eexists. split; [done|]. by constructor. }
  rewrite CheckLiveness_live by done. cbn [negb].
  destruct (Parse_total data Hd) as (ok & m & EP & Hok). rewrite EP. cbn [mbnd].
  destruct ok; cbn [negb]; [|eexists; split; [done|]; by constructor].
  destruct (Hok eq_refl) as (b & -> & Hw).
  destruct (negb (raw_len m =? blen b) || negb (IsBindingRequest m)) eqn:Eg;
    [eexists; split; [done|]; by constructor|].
  unfold HandleBindingRequest. destruct (CheckRequest_returns b (ctx_ a) m Hw) as [v Ev]. rewrite Ev. cbn [mbnd].
  destruct v as [|code reason unknown|ru].
  - eexists. split; [done|]. by constructor.
  - destruct (BuildError_returns (ctx_ a) m code reason unknown) as [resp ->]. cbn [mbnd].
    eexists. split; [done|]. by constructor.
  - destruct (BuildSuccess_returns (ctx_ a) src m) as [resp Er]. rewrite Er. cbn [mbnd].
    destruct resp as [resp|]; [|eexists; split; [done|]; by constructor].
    destruct (Accept src m ru now' a) as [cb a'] eqn:Ea. eexists. split; [done|].
    apply orb_false_elim in Eg as [E1 E2]. apply negb_false_iff in E1, E2. apply Z.eqb_eq in E1.
    replace cb with (Accept src m ru now' a).1 by (by rewrite Ea).
    replace a' with (Accept src m ru now' a).2 by (by rewrite Ea).
    eapply E_accept; eauto. by apply CheckRequest_admit.
Qed.

Lemma live_not_dead now a : is_live now a = true -> is_dead a = false.
Proof. unfold is_live. by destruct (is_dead a). Qed.

Lemma Effect_Inv src data now now' a h : Inv a -> Effect src data now now' a h -> Inv h.2.
Proof.
  intros HI E. destruct E as [a' El EC|r resp El|b m ru resp El _ _ _ _ _ Er]; cbn [snd].
  - destruct (CheckLiveness_fails now a HI El) as (x & EC' & Hx & _). rewrite EC in EC'. by injection EC' as ->.
  - done.
  - apply Accept_spec; [done|by eapply BuildSuccess_inet|by eapply live_not_dead].
Qed.

Lemma set_ctx_Inv c a : Inv a -> Inv (set_ctx c a).
Proof. by intros []. Qed.

Lemma Close_spec a : Inv a -> Inv (Close a) /\ CurrentState (Close a) = Closed.
Proof.
  intros HI. assert (Inv (set_timeout 0 a)) as HI' by (destruct HI; by split).
  unfold Close. split; [by apply Transition_Inv|]. rewrite Transition_spec by apply HI'. by destruct (CurrentState (set_timeout 0 a)).
Qed.

Lemma StartLiveness_Inv t now a : 0 <= t -> Inv a -> Inv (StartLiveness t now a).2.
Proof.
  intros Ht HI. unfold StartLiveness. destruct (t =? 0); [done|].
  pose proof (Transition_Inv Start a HI ltac:(done) ltac:(done)) as HT.
  rewrite Transition_spec in * by apply HI. destruct (next_state _ _) as [s|] eqn:E; [|done]. cbn [negb snd] in *.
  destruct HT. assert (s = Checking) as -> by (destruct (CurrentState a); by inversion E).
  split; cbn in *; try done. by intros [?|?].
Qed.

Lemma exec_agent o a :
  op_ok o -> Inv a -> exists a', exec o a = Ret a' /\ Inv a' /\ (CurrentState a = Closed -> CurrentState a' = Closed).
Proof.
  intros Ho HI. pose proof HI as [Hi _ _ _].
  assert (CurrentState a = Closed -> is_dead a = true) as Hdead by (unfold is_dead; by intros ->).
  assert (forall e, CurrentState a = Closed -> CurrentState (Transition e a).2 = Closed) as HC.
  { intros e E. rewrite Transition_spec, E by done. by destruct e. }
  destruct o as [t now| |now|u p|u p|r|v|cb|src data now now']; cbn [exec op_ok] in *;
    try (eexists; split; [reflexivity|]).
  - split; [by apply StartLiveness_Inv|]. intros E. unfold StartLiveness. destruct (t =? 0); [done|].
    rewrite Transition_spec, E by done. done.
  - split; [by apply Close_spec|]. intros _. by apply Close_spec.
  - destruct (is_live now a) eqn:El; [by rewrite CheckLiveness_live|].
    destruct (CheckLiveness_fails now a HI El) as (a' & -> & Ha & _ & Hs). split; [done|]. cbn [snd]. intros E.
    by rewrite Hs by auto.
  - unfold SetLocalCredentials. split; [apply set_ctx_Inv; split_if; [by apply Transition_Inv|done]|].
    intros E. cbn. split_if; [by apply HC|done].
  - unfold SetRemoteCredentials. split; [apply set_ctx_Inv; split_if; [by apply Transition_Inv|done]|].
    intros E. cbn. split_if; [by apply HC|done].
  - split; [by apply set_ctx_Inv|done].
  - split; [by apply set_ctx_Inv|done].
  - split; [by destruct HI|done].
  - destruct (HandleDatagram_effect src data now now' a HI) as (h & -> & HE).
    { intros b ->. done. }
    eexists. split; [done|]. split; [by eapply Effect_Inv|]. intros E. pose proof (Hdead E) as Ed.
    assert (is_live now a = false) as El by (unfold is_live; by rewrite Ed).
    destruct HE as [a' _ EC| |]; [|congruence..]. rewrite CheckLiveness_dead in EC by done. by injection EC as <-.
Qed.

Lemma run_agent ops a :
  Forall op_ok ops -> Inv a -> exists a', run ops a = Ret a' /\ Inv a' /\ (CurrentState a = Closed -> CurrentState a' = Closed).
Proof.
  intros Ho. revert a. induction Ho as [|o ops H1 H2 IH]; intros a HI; [by exists a|]. cbn [run].
  destruct (exec_agent o a H1 HI) as (a1 & -> & HI1 & C1). cbn [mbnd].
  destruct (IH a1 HI1) as (a2 & E2 & HI2 & C2). exists a2. auto.
Qed.

(** (C13) Life cycle of the agent.  After any sequence of calls on a constructed
    agent, malformed datagrams included: an address is selected exactly in
    [Completed]; [Closed] is terminal; the liveness check fails exactly when
    the agent has failed or was closed, or when the watchdog runs and no valid
    check refreshed it for [timeout_ms_]; and after a failed check there is no
    selected peer and every datagram is ignored without an answer. *)
Theorem ice_agent_lifecycle a0 ops :
  construct_agent = Some a0 -> Forall op_ok ops ->
  exists a, run ops a0 = Ret a /\
  is_inet (selected_peer_ a) = HasSelectedPeer a /\
  (forall ops', Forall op_ok ops' -> CurrentState a = Closed ->
    exists a', run ops' a = Ret a' /\ CurrentState a' = Closed) /\
  (forall now, (CheckLiveness now a).1 = true <->
    CurrentState a <> Failed /\ CurrentState a <> Closed /\
    (timeout_ms_ a = 0 \/ now < last_check_ms_ a + timeout_ms_ a)) /\
  (forall now a', CheckLiveness now a = (false, a') ->
    (CurrentState a' = Failed \/ CurrentState a' = Closed) /\ selected_peer_ a' = AF_none /\
    forall src data now1 now2, HandleDatagram src data now1 now2 a' = Ret (Ignored, [], None, a')).
Proof.
  intros Ec Ho. destruct agent_init as (a0' & Ec' & HI0 & _). rewrite Ec in Ec'. injection Ec' as <-.
  destruct (run_agent ops a0 Ho HI0) as (a & Er & HI & _). exists a. split; [done|].
  split; [|split; [|split]].
  - pose proof (iv_peer a HI) as Hp. unfold HasSelectedPeer. destruct (State_eqb _ _); [done|by rewrite Hp].
  - intros ops' Ho' E. destruct (run_agent ops' a Ho' HI) as (a' & Er' & _ & Hc). eauto.
  - intros now. rewrite <- is_live_spec. destruct (is_live now a) eqn:El.
    + by rewrite CheckLiveness_live.
    + destruct (CheckLiveness_fails now a HI El) as (a' & -> & _). done.
  - intros now a' EC. destruct (is_live now a) eqn:El; [by rewrite CheckLiveness_live in EC|].
    destruct (CheckLiveness_fails now a HI El) as (x & EC' & HI' & Hd & _). rewrite EC in EC'. injection EC' as <-.
    destruct (dead_spec a' HI' Hd) as [Hst Hp]. split; [done|]. split; [done|].
    intros. unfold HandleDatagram. by rewrite CheckLiveness_dead.
Qed.

(** (C24) Only authenticated checks have an effect.  Handling any datagram in
    any reachable state returns.  Unless it is answered with success, it
    changes nothing beyond what the liveness check does, and the callback is
    not called.  If it is, the datagram is one whole Binding request whose
    MESSAGE-INTEGRITY verifies under the local password and whose FINGERPRINT
    verifies, its user name is the local fragment and the expected remote one;
    then the remote fragment is learned if it was not known, the selected
    address becomes the source exactly when the request nominates and the agent
    is controlled, and the callback is told exactly of a change. *)
Theorem ice_agent_authenticated a0 ops a src data now now' :
  construct_agent = Some a0 -> Forall op_ok ops -> run ops a0 = Ret a -> bytes_ok data ->
  exists r response cb a',
    HandleDatagram src (Some data) now now' a = Ret (r, response, cb, a') /\
    (r <> SuccessResponse -> cb = None /\ a' = (CheckLiveness now a).2 /\ (r <> ErrorResponse -> response = [])) /\
    (r = SuccessResponse -> exists m ru,
      Parse (Some data) = Ret (true, m) /\ raw_len m = blen data /\ IsBindingRequest m = true /\
      authentic (ctx_ a) m ru /\
      let nominate := HasUseCandidate m && negb (IsControlling (ctx_ a)) in
      ctx_ a' = (if empty (remote_ufrag_ (ctx_ a))
                 then ctx_SetRemoteCredentials ru (remote_pwd_ (ctx_ a)) (ctx_ a) else ctx_ a) /\
      selected_peer_ a' = (if nominate then src else selected_peer_ a) /\
      CurrentState a' = (if nominate || HasSelectedPeer a then Completed else Checking) /\
      cb = (if nominate && on_selected_peer_ a && negb (addr_eq (selected_peer_ a) src) then Some src else None)).
Proof.
  intros Ec Ho Er Hb. destruct agent_init as (a0' & Ec' & HI0 & _). rewrite Ec in Ec'. injection Ec' as <-.
  destruct (run_agent ops a0 Ho HI0) as (x & Er' & HI & _). rewrite Er in Er'. injection Er' as <-.
  destruct (HandleDatagram_effect src (Some data) now now' a HI) as (h & -> & HE); [by intros b [= <-]|].
  destruct HE as [a' El EC|r resp El Hr Hresp|b m ru resp El [= <-] EP Hl Hreq Hau Hs]; do 4 eexists; split; try done.
  - split; [|done]. intros _. by rewrite EC.
  - split; [|done]. intros _. by rewrite CheckLiveness_live.
  - split; [done|]. intros _. exists m, ru.
    destruct (Accept_spec src m ru now' a HI) as ([C1 C2 C3 C4 _] & _ & _);
      [by eapply BuildSuccess_inet|by eapply live_not_dead|]. by split_and!.
Qed.

(** The attributes of a sealed nominating check, as the agent sees them. *)
Lemma nominating_attrs i l' m :
  sealed (EncodeType 1 0) (rq_txid i) (request_attrs i) (rq_password i) (rq_add_fingerprint i) = Some l' ->
  controlling i = true -> use_candidate i = true -> rq_password i <> [] -> rq_add_fingerprint i = true ->
  attrs m = views 20 l' ->
  HasAttr m FINGERPRINT = true /\ HasAttr m USERNAME = true /\ HasAttr m MESSAGE_INTEGRITY = true /\
  HasAttr m ICE_CONTROLLED = false /\ unknown_loop (attrs m) [] = [] /\
  exists n, FindAttr m USE_CANDIDATE = Some n /\ av_len n = 0.
Proof.
  unfold sealed, seal_mi, seal_fp, request_attrs. intros El Hc Hu Hp Hf Ha. rewrite Hc, Hu, Hf in El.
  destruct (rq_password i) as [|k key]; [done|]. destruct (HMAC _ _) as [h|]; [|done]. injection El as <-.
  unfold HasAttr, FindAttr. rewrite Ha. cbn [app views attr_type value].
  repeat split; try reflexivity. eexists. split; reflexivity.
Qed.

Lemma nominating_admitted c i l' m ru :
  sealed (EncodeType 1 0) (rq_txid i) (request_attrs i) (rq_password i) (rq_add_fingerprint i) = Some l' ->
  msg_ok (EncodeType 1 0) (rq_txid i) l' -> request_ok i kMaxStunPacketSize ->
  m = parsed (EncodeType 1 0) (rq_txid i) l' [] ->
  VerifyMessageIntegrity m (rq_password i) = Ret true -> VerifyFingerprint m = Ret true ->
  controlling i = true -> use_candidate i = true -> rq_add_fingerprint i = true -> priority i <> 0 ->
  HasLocalCredentials c = true -> role_ c = Controlled -> rq_password i = local_pwd_ c ->
  username i = local_ufrag_ c ++ colon :: ru -> colon ∉ local_ufrag_ c -> ru <> [] -> colon ∉ ru ->
  (remote_ufrag_ c = [] \/ remote_ufrag_ c = ru) ->
  CheckRequest c m = Ret (Admit ru).
Proof.
  intros El Hok Hro -> Hmi Hfp Hc Hu Hf Hp Hl Hr Hpw Hun Hcl Hne Hcr Hrem.
  assert (rq_password i <> []) as Hpn.
  { rewrite Hpw. unfold HasLocalCredentials in Hl. by destruct (local_ufrag_ c), (local_pwd_ c). }
  destruct (request_decodes i _ l' [] Hro El Hok) as (D1 & D2 & D3 & D4 & _). cbv zeta in *.
  set (m := parsed _ _ l' []) in *.
  destruct (nominating_attrs i l' m El Hc Hu Hpn Hf eq_refl) as (A1 & A2 & A3 & A4 & A5 & n & A6 & A7).
  unfold CheckRequest. rewrite Hl, A1, Hfp, A2, A3. cbn [negb mbnd orb].
  unfold ValidateUsername. rewrite D1. cbn [mbnd]. rewrite Hun, split_colon_app by done.
  rewrite (bool_decide_eq_false_2 (local_ufrag_ c <> local_ufrag_ c)) by (intros F; by apply F).
  rewrite (proj2 (split_colon_none ru) Hcr). rewrite (bool_decide_eq_false_2 (is_Some None)) by (by intros []).
  assert (empty ru = false) as -> by (by destruct ru). cbn [orb].
  assert (negb (empty (remote_ufrag_ c)) && bool_decide (ru <> remote_ufrag_ c) = false) as ->.
  { destruct Hrem as [-> | ->]; [done|]. rewrite (bool_decide_eq_false_2 (ru <> ru)) by (intros F; by apply F).
    by rewrite andb_false_r. }
  cbn [mbnd]. unfold InboundIntegrityKey. rewrite <- Hpw, Hmi. cbn [mbnd negb].
  rewrite D3, D4, D2, Hc, A4, A5, A6, A7. cbn [mbnd].
  rewrite (bool_decide_eq_false_2 (Some (priority i) = None)) by done.
  rewrite (bool_decide_eq_false_2 (Some (priority i) = Some 0)) by congruence.
  rewrite (bool_decide_eq_true_2 (is_Some (Some (tie_breaker i)))) by eauto.
  rewrite (bool_decide_eq_false_2 (is_Some None)) by (by intros []).
  rewrite andb_false_r. cbn [orb negb eqb Z.eqb empty mbnd].
  unfold HasRoleConflict, IsControlling. rewrite Hr, D4, Hc. cbn [mbnd].
  by rewrite (bool_decide_eq_false_2 (is_Some None)) by (by intros []).
Qed.

(** What the peer reads from XOR-MAPPED-ADDRESS. *)
Definition mapped_of (src : SocketAddr) : XorMappedAddress :=
  match src with
  | AF_inet p x => mkXorAddress false p (x ++ repeat 0 12)
  | AF_inet6 p x _ => mkXorAddress true p x
  | AF_none => mkXorAddress false 0 []
  end.

Lemma SocketAddrToIpEndpoint_ok src :
  addr_ok src ->
  exists ep, SocketAddrToIpEndpoint src = Some ep /\ endpoint_ok ep /\ address_of ep = mapped_of src.
Proof.
  destruct src as [|p x|p x s]; cbn [addr_ok]; [done|intros [Hp Hx]..];
    cbn [SocketAddrToIpEndpoint]; rewrite Hx; cbn [Z.eqb Pos.eqb negb]; (eexists; split; [reflexivity|]);
    unfold blen in Hx; (split; [split; cbn; auto|]).
  - rewrite length_app. simpl. lia.
  - unfold address_of. cbn. replace 4%nat with (length x) by lia. by rewrite take_app_length.
  - lia.
  - done.
Qed.

(** (C31) A peer with the right credentials gets through.  Take any reachable,
    live agent in the controlled role.  A nominating check that the peer builds
    with [BuildIceBindingRequest] from the two user name fragments and the
    agent's password is answered with success: the agent is [Completed] with the
    peer's address selected and its watchdog refreshed, and the peer parses the
    response as a Binding success with its transaction id, its own address as
    seen by the agent, and a valid integrity and fingerprint. *)
Theorem ice_agent_completes a0 ops a i ru src now now' :
  construct_agent = Some a0 -> Forall op_ok ops -> run ops a0 = Ret a ->
  (CheckLiveness now a).1 = true -> HasLocalCredentials (ctx_ a) = true -> role_ (ctx_ a) = Controlled ->
  request_ok i kMaxStunPacketSize -> controlling i = true -> use_candidate i = true ->
  rq_add_fingerprint i = true -> priority i <> 0 -> rq_password i = local_pwd_ (ctx_ a) ->
  username i = local_ufrag_ (ctx_ a) ++ colon :: ru -> colon ∉ local_ufrag_ (ctx_ a) -> ru <> [] -> colon ∉ ru ->
  (remote_ufrag_ (ctx_ a) = [] \/ remote_ufrag_ (ctx_ a) = ru) ->
  addr_ok src -> (forall data, HMAC (rq_password i) data <> None) ->
  exists request response cb a' m,
    BuildIceBindingRequest i kMaxStunPacketSize = Ret (Some request) /\
    HandleDatagram src (Some request) now now' a = Ret (SuccessResponse, response, cb, a') /\
    CurrentState a' = Completed /\ selected_peer_ a' = src /\ remote_ufrag_ (ctx_ a') = ru /\
    (timeout_ms_ a <> 0 -> last_check_ms_ a' = now') /\
    Parse (Some response) = Ret (true, m) /\ IsBindingResponse m = true /\ txid m = rq_txid i /\
    DecodeXorMappedAddress m = Ret (Some (mapped_of src)) /\
    VerifyMessageIntegrity m (rq_password i) = Ret true /\ VerifyFingerprint m = Ret true.
Proof.
  intros Ec Ho Er Hl Hlc Hr Hro Hc Hu Hf Hp Hpw Hun Hcl Hne Hcr Hrem Hsrc Hmac.
  destruct agent_init as (a0' & Ec' & HI0 & _). rewrite Ec in Ec'. injection Ec' as <-.
  destruct (run_agent ops a0 Ho HI0) as (x & Er' & HI & _). rewrite Er in Er'. injection Er' as <-.
  assert (is_live now a = true) as El.
  { destruct (is_live now a) eqn:E; [done|]. destruct (CheckLiveness_fails now a HI E) as (? & EC & _).
    by rewrite EC in Hl. }
  destruct (request_built i _ Hro Hmac) as (req & l' & HB & _ & Esz & El' & Hok & Hacc).
  destruct (Hacc []) as [HP [A1 A2 A3 A4 A5 A6]]. rewrite app_nil_r in HP. set (q := parsed _ _ l' []) in *.
  assert (rq_password i <> []) as Hpn.
  { rewrite Hpw. unfold HasLocalCredentials in Hlc. by destruct (local_ufrag_ _), (local_pwd_ _). }
  destruct (SocketAddrToIpEndpoint_ok src Hsrc) as (ep & Eep & Hep & Eaddr).
  destruct (ice_success_roundtrip (mkSuccess (Some q) ep (rq_password i) true) q kMaxStunPacketSize
    eq_refl (ro_txid _ _ Hro) Hep Hmac ltac:(done)) as (resp & HR & HRP).
  destruct (HRP []) as (m & P1 & P2 & P3 & P4 & P5 & P6). rewrite app_nil_r in P1.
  assert (is_inet src = true) as Hin by (by destruct src).
  destruct (Accept_spec src q ru now' a HI Hin (live_not_dead _ _ El)) as ([C1 C2 C3 _ C5] & _ & C6).
  destruct (request_decodes i _ l' [] Hro El' Hok) as (_ & _ & _ & _ & D5). cbv zeta in D5. fold q in D5.
  rewrite D5, Hu in C2, C3. unfold IsControlling in C2, C3. rewrite Hr in C2, C3. cbn [andb negb orb] in C2, C3.
  exists req, resp, (Accept src q ru now' a).1, (Accept src q ru now' a).2, m. split; [done|]. split.
  { unfold HandleDatagram. rewrite CheckLiveness_live by done. cbn [negb]. rewrite HP. cbn [mbnd negb].
    change (raw_len q) with (20 + blen (body l')). rewrite Esz, Z.eqb_refl. cbn [negb orb].
    unfold HandleBindingRequest. change (IsBindingRequest q) with true. cbn [negb].
    rewrite (nominating_admitted (ctx_ a) i l' q ru) by auto. cbn [mbnd].
    unfold BuildSuccess, InboundIntegrityKey. rewrite Eep, <- Hpw, HR. cbn [mbnd].
    by destruct (Accept src q ru now' a). }
  rewrite P4. cbn [mapped_addr]. rewrite Eaddr. split_and!; auto.
  - rewrite C1. destruct Hrem as [E|E]; rewrite E; [done|]. by destruct ru.
  - intros Ht. rewrite C6, C3, addr_eq_refl, (proj2 (Z.eqb_neq _ _) Ht) by done. done.
Qed.
End Agent.

(** ** Witnesses *)

Definition ex_agent : IceAgent :=
  mkAgent (ctx_SetRole Controlled IceContext_init) 0 0 AF_none false (mkMachine New false).
Definition ex_ice_ops : list Op :=
  [OpSetLocalCredentials (bytes_of "a") (bytes_of "sec"); OpSetOnSelectedPeer true; OpStartLiveness 5000 100].
Definition ex_started : IceAgent :=
  mkAgent (mkContext (bytes_of "a") (bytes_of "sec") [] [] Controlled 0) 5000 100 AF_none true (mkMachine Checking false).
Definition ex_src : SocketAddr := AF_inet 40000 [192; 0; 2; 7].

Lemma ex_ice_ops_ok : Forall op_ok ex_ice_ops.
Proof. repeat constructor; by compute. Qed.

Lemma ice_agent_lifecycle_witness :
  exists a, @run ex_hmac (ex_ice_ops ++ [OpClose]) ex_agent = Ret a /\
    (CheckLiveness 200 a).1 = false /\ selected_peer_ (CheckLiveness 200 a).2 = AF_none.
Proof.
  destruct (@ice_agent_lifecycle ex_hmac ex_agent (ex_ice_ops ++ [OpClose])) as (a & Hr & _ & _ & _ & HD).
  - vm_compute. reflexivity.
  - apply Forall_app_2; [exact ex_ice_ops_ok|]. repeat constructor.
  - exists a. split; [exact Hr|]. vm_compute in Hr. injection Hr as <-. split; [reflexivity|].
    exact (proj1 (proj2 (HD 200 _ eq_refl))).
Defined.

Lemma ice_agent_authenticated_witness :
  exists r response cb a',
    @HandleDatagram ex_hmac ex_src (Some ex_stun) 200 200 ex_started = Ret (r, response, cb, a') /\
    r <> SuccessResponse /\ a' = ex_started.
Proof.
  destruct (@ice_agent_authenticated ex_hmac ex_agent ex_ice_ops ex_started ex_src ex_stun 200 200)
    as (r & resp & cb & a' & Hh & Hn & _).
  - vm_compute. reflexivity.
  - exact ex_ice_ops_ok.
  - vm_compute. reflexivity.
  - repeat constructor; by compute.
  - exists r, resp, cb, a'. split; [exact Hh|].
    assert (r = Ignored) as -> by (vm_compute in Hh; by injection Hh as <- _ _ _).
    split; [discriminate|]. apply Hn. discriminate.
Defined.

Lemma ice_agent_completes_witness :
  exists request response cb a' m,
    @BuildIceBindingRequest ex_hmac ex_request kMaxStunPacketSize = Ret (Some request) /\
    @HandleDatagram ex_hmac ex_src (Some request) 200 201 ex_started = Ret (SuccessResponse, response, cb, a') /\
    CurrentState a' = Completed /\ selected_peer_ a' = ex_src /\ last_check_ms_ a' = 201 /\
    Parse (Some response) = Ret (true, m) /\
    DecodeXorMappedAddress m = Ret (Some (mkXorAddress false 40000 ([192; 0; 2; 7] ++ repeat 0 12))).
Proof.
  destruct (@ice_agent_completes ex_hmac ex_agent ex_ice_ops ex_started ex_request (bytes_of "b") ex_src 200 201)
    as (req & resp & cb & a' & m & H1 & H2 & H3 & H4 & _ & H6 & H7 & _ & _ & H10 & _).
  all: try reflexivity; try discriminate.
  - exact ex_ice_ops_ok.
  - split; try reflexivity; try discriminate; by compute.
  - vm_compute. intros F. inversion F as [|? ? ? F']; inversion F'.
  - vm_compute. intros F. inversion F as [|? ? ? F']; inversion F'.
  - by left.
  - split; [by compute|reflexivity].
  - exists req, resp, cb, a', m. repeat (split; [first [exact H1|exact H2|exact H3|exact H4|exact H7|apply H6; discriminate]|]).
    exact H10.
Defined.
