(* ===== verification/TurnCodec.v ===== *)
(** * TURN codec

    Models [protocol::TurnCodec] (protocol/turn/TurnCodec.h, TurnCodec.cpp):
    ChannelData messages and the attributes TURN adds to STUN, over the STUN
    codec.  An out-parameter set with [return true] is [Some]. *)
From S2P Require Import Prelude Bytes Stun StunLayout StunProps StunSafety.
Import StunCodec.

(** ** TurnConstants.h *)
Definition kFirstChannel : Z := 0x4000.
Definition kLastChannel : Z := 0x4FFF.
Definition kUdpTransport : Z := 17.
Definition CHANNEL_HEADER_BYTES : Z := 4.
Definition CHANNEL_LENGTH_OFFSET : Z := 2.
Definition CHANNEL_MAX_PAYLOAD_BYTES : Z := 0xFFFF.

Record TurnChannelDataView := mkChannelData { channel : Z; cd_data : list Z }.

Definition ValidChannel (channel : Z) : bool := (kFirstChannel <=? channel) && (channel <=? kLastChannel).

Definition FourByteAttribute (m : StunMessageInfo) (type : AttrType) : mres (option AttrView) :=
  match FindAttr m type with
  | None => Ret None
  | Some attr =>
    if negb (av_len attr =? 4) then Ret None else
    let! v := AttrValue m attr in
    if negb (blen v =? 4) then Ret None else Ret (Some attr)
  end.

Definition ParseStunDatagram (data : cbuf) : mres (option StunMessageInfo) :=
  let! '(ok, parsed) := Parse data in
  if negb ok || negb (raw_len parsed =? match data with Some b => blen b | None => 0 end)
  then Ret None else Ret (Some parsed).

Definition ParseChannelDataDatagram (data : cbuf) : mres (option TurnChannelDataView) :=
  match data with
  | None => Ret None
  | Some b =>
    if blen b <? CHANNEL_HEADER_BYTES then Ret None else
    let! channel := ReadUint16BE b 0 in
    let! payload_size := ReadUint16BE b CHANNEL_LENGTH_OFFSET in
    if negb (ValidChannel channel) || (payload_size >? blen b - CHANNEL_HEADER_BYTES) then Ret None else
    let! v := read_bytes b CHANNEL_HEADER_BYTES payload_size in
    Ret (Some (mkChannelData channel v))
  end.

Definition BuildChannelData (channel : Z) (data : list Z) (pad_to_four : bool) : mres (option (list Z)) :=
  if negb (ValidChannel channel) || (blen data >? CHANNEL_MAX_PAYLOAD_BYTES) then Ret None else
  let! buf := WriteUint16BE (repeat 0 4) 0 channel in
  let! buf := WriteUint16BE buf CHANNEL_LENGTH_OFFSET (u16 (blen data)) in
  let buf := buf ++ data in
  Ret (Some (if pad_to_four
             then buf ++ repeat 0 (Z.to_nat (Z.land (blen buf + 3) (Z.lnot 3) - blen buf)) else buf)).

Definition UInt32Attribute (type : AttrType) (value : Z) : mres StunAttribute :=
  let! v := WriteUint32BE (repeat 0 4) 0 value in Ret (mkAttr type v).

Definition RequestedTransportAttribute (transport : Z) : StunAttribute :=
  mkAttr REQUESTED_TRANSPORT [transport; 0; 0; 0].

Definition ChannelNumberAttribute (channel : Z) : mres (option StunAttribute) :=
  if negb (ValidChannel channel) then Ret None else
  let! v := WriteUint16BE (repeat 0 4) 0 channel in Ret (Some (mkAttr CHANNEL_NUMBER v)).

Definition XorAddressAttribute (type : AttrType) (ep : IpEndpoint) (txid : list Z) : option StunAttribute :=
  if bool_decide (type <> XOR_MAPPED_ADDRESS) && bool_decide (type <> XOR_PEER_ADDRESS) &&
     bool_decide (type <> XOR_RELAYED_ADDRESS) then None else
  match EncodeXorAddress ep txid with
  | None => None
  | Some v => Some (mkAttr type v)
  end.

(** [msg.raw + offset] of a message that was parsed. *)
Definition raw_bytes (m : StunMessageInfo) : list Z := match raw m with Some b => b | None => [] end.

Definition DecodeUInt32 (m : StunMessageInfo) (type : AttrType) : mres (option Z) :=
  let! attr := FourByteAttribute m type in
  match attr with
  | None => Ret None
  | Some attr => let! v := ReadUint32BE (raw_bytes m) (value_offset attr) in Ret (Some v)
  end.

Definition DecodeRequestedTransport (m : StunMessageInfo) : mres (option Z) :=
  let! attr := FourByteAttribute m REQUESTED_TRANSPORT in
  match attr with
  | None => Ret None
  | Some attr => let! v := rd (raw_bytes m) (value_offset attr) in Ret (Some v)
  end.

Definition DecodeChannelNumber (m : StunMessageInfo) : mres (option Z) :=
  let! attr := FourByteAttribute m CHANNEL_NUMBER in
  match attr with
  | None => Ret None
  | Some attr =>
    let! channel := ReadUint16BE (raw_bytes m) (value_offset attr) in
    if negb (ValidChannel channel) then Ret None else Ret (Some channel)
  end.

(** ** Safety *)

Section Safe.
Context (b : list Z) (m : StunMessageInfo) (Hw : well_formed b m).

(** An attribute of a parsed message lies inside it. *)
Lemma attr_inside a : a ∈ attrs m -> 24 <= value_offset a /\ 0 <= av_len a /\ value_offset a + av_len a <= raw_len m <= blen b.
Proof using Hw.
  intros Hin. destruct (tiled_in _ _ _ _ (wf_attrs _ _ Hw) Hin) as (H1 & H2 & H3 & _).
  destruct (Pad4_range _ H2). unfold is_u in H2. destruct (wf_len _ _ Hw). split_and!; lia.
Qed.

Lemma AttrValue_inside a : a ∈ attrs m -> exists v, AttrValue m a = Ret v /\ blen v = av_len a.
Proof using Hw.
  intros Hin. destruct (attr_inside a Hin) as (H1 & H2 & H3).
  unfold AttrValue. rewrite (wf_raw _ _ Hw). rewrite Z.gtb_ltb, (proj2 (Z.ltb_ge _ _)) by lia.
  destruct (read_bytes_returns b (value_offset a) (av_len a)) as [v Ev]; [lia|lia|lia|].
  rewrite Ev. exists v. split; [done|]. by apply read_bytes_len in Ev.
Qed.

Lemma FourByteAttribute_safe type :
  exists r, FourByteAttribute m type = Ret r /\
    forall a, r = Some a -> a ∈ attrs m /\ av_type a = type /\ value_offset a + 4 <= blen b /\ 24 <= value_offset a.
Proof using Hw.
  unfold FourByteAttribute. destruct (FindAttr m type) as [a|] eqn:E; [|by eexists].
  destruct (find_attr_in _ _ _ E) as [Hin Ht]. destruct (attr_inside a Hin) as (H1 & H2 & H3).
  destruct (Z.eqb_spec (av_len a) 4) as [El|]; [|by eexists]. cbn [negb].
  destruct (AttrValue_inside a Hin) as (v & -> & Ev). cbn [mbnd]. rewrite Ev, El. cbn [Z.eqb Pos.eqb negb].
  eexists. split; [done|]. intros ? [= <-]. split_and!; [done|done|lia|lia].
Qed.

Lemma DecodeUInt32_safe type : returns (DecodeUInt32 m type).
Proof using Hw.
  unfold DecodeUInt32. destruct (FourByteAttribute_safe type) as (r & -> & Hr). cbn [mbnd].
  destruct r as [a|]; [|apply returns_ret]. destruct (Hr a eq_refl) as (_ & _ & H3 & H4).
  unfold raw_bytes. rewrite (wf_raw _ _ Hw). rewrite ReadUint32BE_ok by (try apply Hw; lia). apply returns_ret.
Qed.

Lemma DecodeRequestedTransport_safe : returns (DecodeRequestedTransport m).
Proof using Hw.
  unfold DecodeRequestedTransport. destruct (FourByteAttribute_safe REQUESTED_TRANSPORT) as (r & -> & Hr). cbn [mbnd].
  destruct r as [a|]; [|apply returns_ret]. destruct (Hr a eq_refl) as (_ & _ & H3 & H4).
  unfold raw_bytes. rewrite (wf_raw _ _ Hw), rd_ok by lia. apply returns_ret.
Qed.

Lemma DecodeChannelNumber_safe :
  exists r, DecodeChannelNumber m = Ret r /\ forall c, r = Some c -> ValidChannel c = true.
Proof using Hw.
  unfold DecodeChannelNumber. destruct (FourByteAttribute_safe CHANNEL_NUMBER) as (r & -> & Hr). cbn [mbnd].
  destruct r as [a|]; [|by eexists]. destruct (Hr a eq_refl) as (_ & _ & H3 & H4).
  unfold raw_bytes. rewrite (wf_raw _ _ Hw). rewrite ReadUint16BE_ok by (try apply Hw; lia). cbn [mbnd].
  split_if; [by eexists|]. eexists. split; [done|]. intros c [= <-]. by apply negb_false_iff.
Qed.
End Safe.

Lemma ParseStunDatagram_safe data :
  (forall b, data = Some b -> bytes_ok b) ->
  exists r, ParseStunDatagram data = Ret r /\
    forall m, r = Some m -> exists b, data = Some b /\ well_formed b m /\ raw_len m = blen b /\ Parse data = Ret (true, m).
Proof.
  intros Hd. unfold ParseStunDatagram. destruct (Parse_total data Hd) as (ok & m & -> & Hok). cbn [mbnd].
  split_if; [by eexists|]. apply orb_false_elim in Heqb as [E1 E2]. apply negb_false_iff in E1, E2. subst ok.
  destruct (Hok eq_refl) as (b & -> & Hw). apply Z.eqb_eq in E2.
  eexists. split; [done|]. intros ? [= <-]. by exists b.
Qed.

Lemma ParseChannelDataDatagram_safe data :
  (forall b, data = Some b -> bytes_ok b) ->
  exists r, ParseChannelDataDatagram data = Ret r /\
    forall v, r = Some v -> ValidChannel (channel v) = true /\
      exists b, data = Some b /\ blen (cd_data v) + 4 <= blen b /\ cd_data v = slice b 4 (blen (cd_data v)).
Proof.
  intros Hd. destruct data as [b|]; [|by eexists]. specialize (Hd b eq_refl). cbn [ParseChannelDataDatagram].
  unfold CHANNEL_HEADER_BYTES, CHANNEL_LENGTH_OFFSET. split_if; [by eexists|]. bool_hyps.
  rewrite !ReadUint16BE_ok by (done || lia). cbn [mbnd]. split_if; [by eexists|].
  apply orb_false_elim in Heqb1 as [E1 E2]. apply negb_false_iff in E1. bool_hyps.
  pose proof (bget_range b 2 Hd). pose proof (bget_range b (2 + 1) Hd).
  destruct (read_bytes_returns b 4 (bget b 2 * 256 + bget b (2 + 1))) as [v Ev]; [lia|lia|lia|]. rewrite Ev. cbn [mbnd].
  eexists. split; [done|]. intros ? [= <-]. cbn [channel cd_data]. split; [done|]. exists b. split; [done|].
  pose proof (read_bytes_len _ _ _ _ Ev) as El. apply read_bytes_inv in Ev as (_ & _ & H2 & ->). rewrite El. split; [lia|done].
Qed.

(** A datagram is never both ChannelData and STUN: the first byte decides. *)
Lemma channel_data_not_stun b v :
  bytes_ok b -> ParseChannelDataDatagram (Some b) = Ret (Some v) -> ParseStunDatagram (Some b) = Ret None.
Proof.
  intros Hb E. cbn [ParseChannelDataDatagram] in E. unfold CHANNEL_HEADER_BYTES, CHANNEL_LENGTH_OFFSET in E.
  destruct (Z.ltb_spec (blen b) 4) as [|Hl]; [done|]. rewrite !ReadUint16BE_ok in E by (done || lia). cbn [mbnd] in E.
  destruct (ValidChannel _) eqn:Ev; [|done]. clear E. unfold ValidChannel, kFirstChannel, kLastChannel in Ev. bool_hyps.
  pose proof (bget_range b 0 Hb). pose proof (bget_range b (0 + 1) Hb).
  assert (64 <= bget b 0 < 80) as Hr by lia.
  assert (IsStun (Some b) = Ret false) as Hs.
  { unfold IsStun, kHeaderSize. split_if; [done|]. rewrite rd_ok by lia. cbn [mbnd].
    change 0xC0 with (Z.shiftl 3 6). rewrite (proj2 (Z.eqb_neq _ _)); [done|].
    intros E. apply (f_equal (fun x => Z.testbit x 6)) in E. rewrite Z.land_spec, Z.bits_0 in E.
    change (Z.testbit (Z.shiftl 3 6) 6) with true in E. rewrite andb_true_r in E.
    rewrite Z.testbit_eqb in E by lia. change (2 ^ 6) with 64 in E.
    assert (bget b 0 / 64 = 1) as Hd by words. by rewrite Hd in E. }
  unfold ParseStunDatagram, Parse. rewrite Hs. done.
Qed.

(** ChannelData round trip, with and without padding, whatever follows. *)
Lemma channel_data_roundtrip c data pad trail :
  ValidChannel c = true -> bytes_ok data -> blen data <= 0xFFFF ->
  exists out, BuildChannelData c data pad = Ret (Some out) /\ bytes_ok out /\
    (pad = true -> blen out mod 4 = 0) /\
    ParseChannelDataDatagram (Some (out ++ trail)) = Ret (Some (mkChannelData c data)).
Proof.
  intros Hc Hb Hl. pose proof (blen_nonneg data). unfold BuildChannelData, CHANNEL_MAX_PAYLOAD_BYTES.
  rewrite Hc, Z.gtb_ltb, (proj2 (Z.ltb_ge _ _)) by lia. cbn [negb orb].
  change (repeat 0 4) with [0; 0; 0; 0].
  rewrite (WriteUint16BE_at [] 0 0 [0; 0] [0; 0; 0; 0] 0 c) by done. cbn [mbnd app].
  rewrite (wrap_small 16) by words.
  rewrite (WriteUint16BE_at (be16 c) 0 0 [] (be16 c ++ [0; 0]) CHANNEL_LENGTH_OFFSET (blen data)) by done. cbn [mbnd].
  rewrite app_nil_r. set (head := (be16 c ++ be16 (blen data)) ++ data).
  assert (blen head = 4 + blen data) as Eh by (unfold head; rewrite !blen_app; done).
  assert (exists p, (if pad then head ++ repeat 0 (Z.to_nat (Z.land (blen head + 3) (Z.lnot 3) - blen head)) else head) = head ++ p /\
    bytes_ok p /\ (pad = true -> (blen head + blen p) mod 4 = 0)) as (p & -> & Hp & Hm).
  { destruct pad; [|exists []; rewrite app_nil_r; split; [done|]; split; [constructor|done]].
    eexists. split; [done|]. split.
    - apply Forall_forall. intros x Hx. apply list_elem_of_In, repeat_spec in Hx as ->. by compute.
    - intros _. unfold blen at 2. rewrite repeat_length. change (Z.lnot 3) with (Z.lnot (Z.ones 2)).
      rewrite <- Z.ldiff_land, Z.ldiff_ones_r, Z.shiftr_div_pow2, Z.shiftl_mul_pow2 by lia. change (2 ^ 2) with 4.
      rewrite Z2Nat.id by words. words. }
  eexists. split; [done|]. split; [|split].
  - apply Forall_app_2; [|done]. unfold head. apply Forall_app_2; [|done]. repeat (apply Forall_cons_2 || apply Forall_nil_2 || apply Forall_app_2); apply byte_of_u8.
  - intros Ep. rewrite blen_app. by apply Hm.
  - cbn [ParseChannelDataDatagram]. unfold CHANNEL_HEADER_BYTES, CHANNEL_LENGTH_OFFSET.
    pose proof (blen_nonneg p). pose proof (blen_nonneg trail).
    rewrite (proj2 (Z.ltb_ge _ _)) by (rewrite !blen_app, Eh; lia).
    assert (is_u16 c) as Hcu by (unfold ValidChannel, kFirstChannel, kLastChannel in Hc; bool_hyps; words).
    unfold head. rewrite (ReadUint16BE_at [] c ((be16 (blen data) ++ data ++ p ++ trail))) by (rewrite <- ?app_assoc; done).
    rewrite (ReadUint16BE_at (be16 c) (blen data) (data ++ p ++ trail)) by (rewrite <- ?app_assoc; done || words).
    cbn [mbnd]. rewrite Hc, Z.gtb_ltb, (proj2 (Z.ltb_ge _ _)).
    2: { fold head. rewrite !blen_app, Eh. lia. }
    cbn [negb orb]. rewrite (read_bytes_at (be16 c ++ be16 (blen data)) data (p ++ trail)); try done.
    by rewrite <- !app_assoc.
Qed.
