(* ===== verification/TurnAuth.v ===== *)
(** * TURN authentication

    Models [protocol::TurnAuth] (protocol/turn/TurnAuth.h, TurnAuth.cpp): long
    term credentials with a nonce per session.  MD5 is OpenSSL's [EVP_Digest]
    and a class parameter ([None] is a failed call).  The password lookup is a
    function of the configuration; what the nonce generator returns in a call
    is an argument, since one call draws at most one nonce.  Wiping key
    material has no effect on the results. *)
From Stdlib Require Import Ascii String.
From S2P Require Import Prelude Bytes Stun StunLayout StunProps StunSafety TurnCodec.
Import StunCodec.

Class Md5 := { MD5 : list Z -> option (list Z) }.

Definition USERNAME_MAX_BYTES : Z := 512.
Definition TEXT_MAX_BYTES : Z := 763.
Definition REALM_MAX_BYTES : Z := 127.
Definition LEGACY_KEY_BYTES : Z := 16.
Definition NONCE_LIFETIME_MS : Z := 600000.

Definition ERROR_BAD_REQUEST : Z := 400.
Definition ERROR_UNAUTHORIZED : Z := 401.
Definition ERROR_STALE_NONCE : Z := 438.
Definition ERROR_SERVER_ERROR : Z := 500.

(** The text of a string literal. *)
Definition text (s : string) : list Z :=
  map (fun c => Z.of_N (N_of_ascii c)) (list_ascii_of_string s).

Record TurnAuthContext := mkAuthContext { nonce_ : list Z; nonce_issued_ms_ : Z }.
Definition AuthContext_init : TurnAuthContext := mkAuthContext [] 0.

Inductive AuthStatus := Auth_Ignored | Auth_Authorized | Auth_Response | Auth_InternalError.

Record TurnAuthResult := mkAuthResult {
  status : AuthStatus;
  error_code : Z;
  auth_response : list Z;
  auth_username : list Z;
  integrity_key : list Z
}.

Definition AuthResult_init : TurnAuthResult := mkAuthResult Auth_Ignored 0 [] [] [].

Record TurnAuth := mkTurnAuth {
  realm_ : list Z;
  lookup_ : option (list Z -> option (list Z));
  nonce_lifetime_ms_ : Z
}.

Definition IsPrintableAscii (s : list Z) : bool := forallb (fun c => (0x20 <=? c) && (c <=? 0x7E)) s.

Definition is_empty (s : list Z) : bool := match s with [] => true | _ => false end.

Definition ValidAsciiText (text : list Z) (limit : Z) (allow_empty : bool) : bool :=
  (allow_empty || negb (is_empty text)) && (blen text <=? limit) && IsPrintableAscii text.

Definition TextAttribute (type : AttrType) (value : list Z) : StunAttribute := mkAttr type value.

Definition InternalError : TurnAuthResult := mkAuthResult Auth_InternalError ERROR_SERVER_ERROR [] [] [].

Definition SupportedRequest (m : StunMessageInfo) : bool :=
  if negb (klass m =? class_value Request) then false else
  (method m =? method_value Allocate) || (method m =? method_value Refresh) ||
  (method m =? method_value CreatePermission) || (method m =? method_value ChannelBind).

(** [find('\0') != npos] *)
Definition has_nul (s : list Z) : bool := existsb (fun c => c =? 0) s.

Definition NonceExpired (auth : TurnAuth) (context : TurnAuthContext) (now : Z) : bool :=
  is_empty (nonce_ context) ||
  ((nonce_issued_ms_ context <=? now) && (nonce_lifetime_ms_ auth <=? now - nonce_issued_ms_ context)).

(** [fresh] is what the generator returns. *)
Definition EnsureNonce (auth : TurnAuth) (fresh : option (list Z)) (context : TurnAuthContext) (now : Z)
    : bool * TurnAuthContext :=
  if negb (NonceExpired auth context now) then (true, context) else
  match fresh with
  | None => (false, context)
  | Some nonce =>
    if negb (ValidAsciiText nonce TEXT_MAX_BYTES false) || bool_decide (nonce = nonce_ context)
    then (false, context)
    else (true, mkAuthContext nonce now)
  end.

Definition IsConfigured (auth : TurnAuth) : bool :=
  ValidAsciiText (realm_ auth) REALM_MAX_BYTES false && bool_decide (is_Some (lookup_ auth)) &&
  negb (nonce_lifetime_ms_ auth =? 0).

(** The number of attributes of a type. *)
Definition count_type (l : list AttrView) (t : Z) : nat :=
  length (List.filter (fun a => av_type a =? t) l).

(** The attributes in front of MESSAGE-INTEGRITY. *)
Fixpoint before_integrity (l : list AttrView) : list AttrView :=
  match l with
  | [] => []
  | a :: l => if av_type a =? MESSAGE_INTEGRITY then [] else a :: before_integrity l
  end.

(** [msg.AttrValue( *msg.FindAttr(t))]; a missing attribute is a null
    dereference. *)
Definition value_of (m : StunMessageInfo) (t : AttrType) : mres (list Z) :=
  match FindAttr m t with
  | None => Fault
  | Some a => AttrValue m a
  end.

Section Authenticate.
Context `{HmacSha1} `{Md5}.

Definition DerivePreparedLegacyKey (username realm password : list Z) : option (list Z) :=
  if is_empty username || is_empty realm || (blen username >? USERNAME_MAX_BYTES) ||
     (blen realm >? TEXT_MAX_BYTES) || (blen password >? TEXT_MAX_BYTES) ||
     has_nul username || has_nul realm || has_nul password then None else
  match MD5 (username ++ text ":" ++ realm ++ text ":" ++ password) with
  | Some digest => if blen digest =? LEGACY_KEY_BYTES then Some digest else None
  | None => None
  end.

Definition ErrorResponse (auth : TurnAuth) (fresh : option (list Z)) (request : StunMessageInfo)
    (code : Z) (reason : string) (context : TurnAuthContext) (now : Z) : mres (TurnAuthResult * TurnAuthContext) :=
  let error := [0; 0; u8 (code / 100); u8 (code mod 100)] ++ text reason in
  let attributes := [mkAttr ERROR_CODE error] in
  let challenge := (code =? ERROR_UNAUTHORIZED) || (code =? ERROR_STALE_NONCE) in
  let '(ok, context) := if challenge then EnsureNonce auth fresh context now else (true, context) in
  if negb ok then Ret (InternalError, context) else
  let attributes :=
    if challenge then attributes ++ [TextAttribute REALM (realm_ auth); TextAttribute NONCE (nonce_ context)]
    else attributes in
  let! response := BuildMessage (method request) (class_value StunCodec.ErrorResponse) (txid request) attributes [] true in
  match response with
  | None => Ret (InternalError, context)
  | Some response => Ret (mkAuthResult Auth_Response code response [] [], context)
  end.

Definition Authenticate (auth : TurnAuth) (fresh : option (list Z)) (now : Z) (data : cbuf)
    (context : TurnAuthContext) : mres (TurnAuthResult * TurnAuthContext) :=
  let! parsed := ParseStunDatagram data in
  match parsed with
  | None => Ret (AuthResult_init, context)
  | Some msg =>
    if negb (SupportedRequest msg) then Ret (AuthResult_init, context) else
    if negb (IsConfigured auth) then Ret (InternalError, context) else
    let error code reason := ErrorResponse auth fresh msg code reason context now in
    let fingerprints := count_type (attrs msg) FINGERPRINT in
    let integrities := count_type (attrs msg) MESSAGE_INTEGRITY in
    let! fingerprint := (if bool_decide (fingerprints = 1%nat) then VerifyFingerprint msg
                         else Ret (bool_decide (fingerprints = 0%nat))) in
    if negb fingerprint then Ret (AuthResult_init, context) else
    if bool_decide (1 < integrities)%nat || HasAttr msg MESSAGE_INTEGRITY_SHA256
    then error ERROR_BAD_REQUEST "Unsupported integrity attributes"%string else
    match FindAttr msg MESSAGE_INTEGRITY with
    | None => error ERROR_UNAUTHORIZED "Unauthorized"%string
    | Some integrity =>
      if negb (av_len integrity =? 20) then error ERROR_BAD_REQUEST "Bad MESSAGE-INTEGRITY"%string else
      let covered := before_integrity (attrs msg) in
      if bool_decide (count_type covered USERNAME <> 1%nat) || bool_decide (count_type covered REALM <> 1%nat) ||
         bool_decide (count_type covered NONCE <> 1%nat)
      then error ERROR_BAD_REQUEST "Missing or duplicate credentials"%string else
      let! username := value_of msg USERNAME in
      let! realm := value_of msg REALM in
      let! nonce := value_of msg NONCE in
      if negb (ValidAsciiText username USERNAME_MAX_BYTES false) ||
         negb (ValidAsciiText realm REALM_MAX_BYTES false) || negb (ValidAsciiText nonce TEXT_MAX_BYTES false)
      then error ERROR_BAD_REQUEST "Bad credential encoding"%string else
      if bool_decide (realm <> realm_ auth) then error ERROR_UNAUTHORIZED "Unauthorized"%string else
      if NonceExpired auth context now || bool_decide (nonce <> nonce_ context)
      then error ERROR_STALE_NONCE "Stale Nonce"%string else
      match (match lookup_ auth with Some lookup => lookup username | None => None end) with
      | None => error ERROR_UNAUTHORIZED "Unauthorized"%string
      | Some password =>
        match (if ValidAsciiText password TEXT_MAX_BYTES true
               then DerivePreparedLegacyKey username (realm_ auth) password else None) with
        | None => Ret (InternalError, context)
        | Some key =>
          let! verified := VerifyMessageIntegrity msg key in
          if negb verified then error ERROR_UNAUTHORIZED "Unauthorized"%string else
          Ret (mkAuthResult Auth_Authorized 0 [] username key, context)
        end
      end
    end
  end.
End Authenticate.

(** ** Safety *)

Lemma find_covered l (t : Z) :
  t <> MESSAGE_INTEGRITY -> count_type (before_integrity l) t <> 0%nat -> exists a, find_attr l t = Some a.
Proof.
  intros Ht. induction l as [|a l IH]; [done|]. cbn [before_integrity find_attr].
  destruct (Z.eqb_spec (av_type a) MESSAGE_INTEGRITY) as [E|E]; [done|].
  unfold count_type. cbn [List.filter]. destruct (av_type a =? t); [by eexists|]. cbn [andb]. exact IH.
Qed.

Section Safe.
Context `{HmacSha1} `{Md5}.

Lemma append_attributes_returns buf l : returns (append_attributes buf l).
Proof.
  revert buf. induction l as [|a l IH]; intros buf; [apply returns_ret|]. cbn [append_attributes].
  apply then_returns; [apply AppendAttr_returns|done].
Qed.

Lemma BuildMessage_returns m c txid l key add : returns (BuildMessage m c txid l key add).
Proof.
  unfold BuildMessage. split_if; [apply returns_ret|]. split_if; [apply returns_ret|].
  apply returns_bind.
  { apply write16_returns; [lia|]. unfold BuildBindingRequest, header_bytes. rewrite blen_app.
    pose proof (blen_nonneg txid). change (blen (WriteBE32 _ _)) with 8. lia. }
  intros buf _. apply then_returns; [apply append_attributes_returns|]. intros b1.
  apply then_returns; [apply with_integrity_returns|]. intros b2. apply then_returns.
  - unfold with_fingerprint. destruct add; [apply AppendFingerprintAttr_returns|apply returns_ret].
  - intros b3. destruct (UpdateMessageLength_size b3) as (r & -> & _). apply returns_ret.
Qed.

Lemma value_of_safe b m (t : AttrType) :
  well_formed b m -> t <> MESSAGE_INTEGRITY :> Z -> count_type (before_integrity (attrs m)) t <> 0%nat ->
  returns (value_of m t).
Proof.
  intros Hw Ht Hc. destruct (find_covered _ _ Ht Hc) as [a Ea]. unfold value_of, FindAttr. rewrite Ea.
  destruct (AttrValue_inside b m Hw a) as (v & -> & _); [by eapply find_attr_in|]. apply returns_ret.
Qed.

(** What a refusal looks like: never authorized, and at most a fresh nonce. *)
Definition refused (auth : TurnAuth) (fresh : option (list Z)) (now : Z) (context : TurnAuthContext)
    (x : TurnAuthResult * TurnAuthContext) : Prop :=
  status x.1 <> Auth_Authorized /\ auth_username x.1 = [] /\ integrity_key x.1 = [] /\
  (x.2 = context \/ exists n, fresh = Some n /\ x.2 = mkAuthContext n now /\
                    NonceExpired auth context now = true /\ ValidAsciiText n TEXT_MAX_BYTES false = true).

Lemma EnsureNonce_spec auth fresh context now :
  let '(ok, context') := EnsureNonce auth fresh context now in
  context' = context \/ exists n, fresh = Some n /\ context' = mkAuthContext n now /\
    NonceExpired auth context now = true /\ ValidAsciiText n TEXT_MAX_BYTES false = true.
Proof.
  unfold EnsureNonce. destruct (NonceExpired auth context now) eqn:E; [|by left]. cbn [negb].
  destruct fresh as [n|]; [|by left]. destruct (ValidAsciiText n TEXT_MAX_BYTES false) eqn:En; [|by left]. cbn [negb orb].
  case_bool_decide; [by left|]. right. by exists n.
Qed.

Lemma ErrorResponse_refused auth fresh m code reason context now :
  exists x, ErrorResponse auth fresh m code reason context now = Ret x /\ refused auth fresh now context x.
Proof.
  unfold ErrorResponse. pose proof (EnsureNonce_spec auth fresh context now) as HE.
  set (p := if (code =? ERROR_UNAUTHORIZED) || (code =? ERROR_STALE_NONCE) then EnsureNonce auth fresh context now else (true, context)).
  assert (p.2 = context \/ exists n, fresh = Some n /\ p.2 = mkAuthContext n now /\
    NonceExpired auth context now = true /\ ValidAsciiText n TEXT_MAX_BYTES false = true) as Hp.
  { unfold p. destruct ((code =? ERROR_UNAUTHORIZED) || (code =? ERROR_STALE_NONCE)); [|by left]. by destruct (EnsureNonce auth fresh context now). }
  destruct p as [ok c']. cbn [snd] in Hp. destruct ok; cbn [negb]; [|by eexists].
  edestruct BuildMessage_returns as [r ->]. cbn [mbnd]. destruct r; by eexists.
Qed.

(** What an authorized request has been checked for. *)
Record authorized (auth : TurnAuth) (context : TurnAuthContext) (now : Z) (data : cbuf) (r : TurnAuthResult) : Prop := {
  az_message : exists b m password, data = Some b /\ Parse data = Ret (true, m) /\ raw_len m = blen b /\
    SupportedRequest m = true /\
    value_of m USERNAME = Ret (auth_username r) /\ value_of m REALM = Ret (realm_ auth) /\
    value_of m NONCE = Ret (nonce_ context) /\
    (exists lookup, lookup_ auth = Some lookup /\ lookup (auth_username r) = Some password) /\
    DerivePreparedLegacyKey (auth_username r) (realm_ auth) password = Some (integrity_key r) /\
    VerifyMessageIntegrity m (integrity_key r) = Ret true;
  az_nonce : NonceExpired auth context now = false;
  az_name : ValidAsciiText (auth_username r) USERNAME_MAX_BYTES false = true
}.

Lemma Authenticate_spec auth fresh now data context :
  (forall b, data = Some b -> bytes_ok b) ->
  exists x, Authenticate auth fresh now data context = Ret x /\
    ((status x.1 = Auth_Authorized /\ x.2 = context /\ authorized auth context now data x.1) \/
     refused auth fresh now context x).
Proof.
  intros Hd. unfold Authenticate. destruct (ParseStunDatagram_safe data Hd) as (r & -> & Hr). cbn [mbnd].
  assert (refused auth fresh now context (AuthResult_init, context) /\ refused auth fresh now context (InternalError, context)) as [R1 R2]
    by (unfold refused; split_and!; try done; by left).
  destruct r as [m|]; [|eexists; split; [done|by right]]. destruct (Hr m eq_refl) as (b & -> & Hw & Hl & HP).
  destruct (SupportedRequest m) eqn:Es; [|eexists; split; [done|by right]]. cbn [negb].
  destruct (IsConfigured auth) eqn:Ec; [|eexists; split; [done|by right]]. cbn [negb].
  assert (forall code reason, exists x, ErrorResponse auth fresh m code reason context now = Ret x /\
    ((status x.1 = Auth_Authorized /\ x.2 = context /\ authorized auth context now (Some b) x.1) \/ refused auth fresh now context x)) as HE.
  { intros c s. destruct (ErrorResponse_refused auth fresh m c s context now) as (x & Ex & Hx). eauto. }
  assert (exists v, (if bool_decide (count_type (attrs m) FINGERPRINT = 1%nat) then VerifyFingerprint m
                     else Ret (bool_decide (count_type (attrs m) FINGERPRINT = 0%nat))) = Ret v) as [fp ->].
  { split_if; [by apply (VerifyFingerprint_safe b)|by eexists]. }
  cbn [mbnd]. destruct fp; cbn [negb]; [|eexists; split; [done|by right]].
  split_if; [apply HE|]. destruct (FindAttr m MESSAGE_INTEGRITY) as [mi|]; [|apply HE].
  split_if; [apply HE|]. cbv zeta. destruct (_ || _ || _) eqn:Ecount; [apply HE|].
  apply orb_false_elim in Ecount as [Ecount C3]. apply orb_false_elim in Ecount as [C1 C2].
  apply bool_decide_eq_false in C1, C2, C3. apply dec_stable in C1, C2, C3.
  destruct (value_of_safe b m USERNAME Hw ltac:(done) ltac:(by rewrite C1)) as [u Eu].
  destruct (value_of_safe b m REALM Hw ltac:(done) ltac:(by rewrite C2)) as [re Ere].
  destruct (value_of_safe b m NONCE Hw ltac:(done) ltac:(by rewrite C3)) as [n En].
  rewrite Eu, Ere, En. cbn [mbnd]. split_if; [apply HE|]. apply orb_false_elim in Heqb2 as [Ea _].
  apply orb_false_elim in Ea as [Ea _]. apply negb_false_iff in Ea.
  destruct (bool_decide (re <> realm_ auth)) eqn:Er; [apply HE|]. apply bool_decide_eq_false, dec_stable in Er as ->.
  destruct (NonceExpired auth context now) eqn:Ene; [apply HE|]. cbn [orb].
  destruct (bool_decide (n <> nonce_ context)) eqn:Enn; [apply HE|]. apply bool_decide_eq_false, dec_stable in Enn as ->.
  destruct (lookup_ auth) as [lookup|] eqn:Elk; [|apply HE]. destruct (lookup u) as [pw|] eqn:Epw; [|apply HE].
  destruct (ValidAsciiText pw _ _); [|eexists; split; [done|by right]].
  destruct (DerivePreparedLegacyKey u (realm_ auth) pw) as [key|] eqn:Ek; [|eexists; split; [done|by right]].
  destruct (VerifyMessageIntegrity_safe b m Hw key) as [v Ev]. rewrite Ev. cbn [mbnd].
  destruct v; cbn [negb]; [|apply HE]. eexists. split; [done|]. left. split; [done|]. split; [done|].
  split; [|done|done]. exists b, m, pw. cbn [auth_username integrity_key]. split_and!; eauto.
Qed.
End Safe.

(** ** A client that answers the challenge *)

(** Attributes that play no part in authentication. *)
Definition plain (a : StunAttribute) : Prop :=
  attr_type a <> USERNAME /\ attr_type a <> REALM /\ attr_type a <> NONCE /\
  attr_type a <> MESSAGE_INTEGRITY /\ attr_type a <> MESSAGE_INTEGRITY_SHA256 /\ attr_type a <> FINGERPRINT.

Definition credential_attrs (username realm nonce : list Z) (extra : list StunAttribute) : list StunAttribute :=
  [mkAttr USERNAME username; mkAttr REALM realm; mkAttr NONCE nonce] ++ extra.

Lemma count_type_app l1 l2 t : count_type (l1 ++ l2) t = (count_type l1 t + count_type l2 t)%nat.
Proof. unfold count_type. by rewrite List.filter_app, length_app. Qed.

Lemma views_app off l1 l2 : views off (l1 ++ l2) = views off l1 ++ views (off + blen (body l1)) l2.
Proof.
  revert off. induction l1 as [|a l1 IH]; intros off; cbn [app views].
  - change (blen (body [])) with 0. by rewrite Z.add_0_r.
  - rewrite IH, body_cons, blen_app. by rewrite Z.add_assoc.
Qed.

Lemma count_views off l t : Forall (fun a => attr_type a <> t) l -> count_type (views off l) t = 0%nat.
Proof.
  intros Hl. revert off. induction Hl as [|a l Ha Hl IH]; intros off; [done|].
  unfold count_type in *. cbn [views List.filter av_type]. rewrite (proj2 (Z.eqb_neq _ _) Ha). apply IH.
Qed.

Lemma before_integrity_views off l rest :
  Forall (fun a => attr_type a <> MESSAGE_INTEGRITY) l ->
  before_integrity (views off l ++ rest) = views off l ++ before_integrity rest.
Proof.
  intros Hl. revert off. induction Hl as [|a l Ha Hl IH]; intros off; [done|].
  cbn [views app before_integrity av_type]. rewrite (proj2 (Z.eqb_neq _ _) Ha). by rewrite IH.
Qed.

Lemma value_of_found type txid l (t : AttrType) l1 a l2 :
  msg_ok type txid l -> split_attr l t = Some (l1, a, l2) -> value_of (parsed type txid l []) t = Ret (value a).
Proof.
  intros Hok Hs. unfold value_of, FindAttr. change (attrs _) with (views 20 l). rewrite find_attr_views, Hs.
  destruct (split_attr_spec _ _ _ _ _ Hs) as [El _]. by eapply AttrValue_slot.
Qed.

Lemma find_attr_stops (t : Z) off l len o rest :
  t <> MESSAGE_INTEGRITY -> t <> FINGERPRINT ->
  Forall (fun a => attr_type a <> t /\ attr_type a <> MESSAGE_INTEGRITY) l ->
  find_attr (views off l ++ mkView MESSAGE_INTEGRITY len o :: rest) t = None.
Proof.
  intros Ht Hf Hl. revert off. induction Hl as [|a l [H1 H2] _ IH]; intros off; cbn [views app find_attr av_type].
  - rewrite (proj2 (Z.eqb_neq MESSAGE_INTEGRITY t)) by congruence. by rewrite Z.eqb_refl, (proj2 (Z.eqb_neq t FINGERPRINT) Hf).
  - rewrite (proj2 (Z.eqb_neq _ _) H1), (proj2 (Z.eqb_neq _ _) H2). apply IH.
Qed.

Section Complete.
Context `{HmacSha1} `{Md5}.

(** The shape of the sealed request: what the server counts and reads. *)
Lemma sealed_credentials type txid u r n extra key add l' :
  Forall plain extra -> key <> [] ->
  sealed type txid (credential_attrs u r n extra) key add = Some l' -> msg_ok type txid l' ->
  let m := parsed type txid l' [] in
  value_of m USERNAME = Ret u /\ value_of m REALM = Ret r /\ value_of m NONCE = Ret n /\
  count_type (attrs m) FINGERPRINT = (if add then 1 else 0)%nat /\ count_type (attrs m) MESSAGE_INTEGRITY = 1%nat /\
  HasAttr m MESSAGE_INTEGRITY_SHA256 = false /\
  (exists mi, FindAttr m MESSAGE_INTEGRITY = Some mi /\ av_len mi = 20) /\
  let covered := before_integrity (attrs m) in
  count_type covered USERNAME = 1%nat /\ count_type covered REALM = 1%nat /\ count_type covered NONCE = 1%nat.
Proof.
  intros Hp Hk. unfold sealed, seal_mi. destruct key as [|k0 key]; [done|].
  destruct (HMAC _ _) as [h|] eqn:Eh; [|done]. intros E Hok. injection E as <-. set (m := parsed _ _ _ _). destruct (HMAC_size _ _ _ Eh) as [Hh _].
  set (tail := seal_fp add type txid _) in *.
  assert (forall t : Z, Forall (fun a => attr_type a <> t) extra -> 
    t <> USERNAME -> t <> REALM -> t <> NONCE ->
    Forall (fun a => attr_type a <> t) (credential_attrs u r n extra)) as HF.
  { intros t He H1 H2 H3. by repeat (apply Forall_cons; split; [intros F; by apply H1 + apply H2 + apply H3|]). }
  assert (forall P : StunAttribute -> Prop, (forall a, plain a -> P a) -> Forall P extra) as HX
    by (intros P HP; eapply Forall_impl; [exact Hp|exact HP]).
  unfold plain in HX.
  assert (Forall (fun a => attr_type a <> MESSAGE_INTEGRITY) (credential_attrs u r n extra)) as HMI
    by (apply HF; try done; apply HX; tauto).
  assert (Forall (fun a => attr_type a <> FINGERPRINT) (credential_attrs u r n extra)) as HFP
    by (apply HF; try done; apply HX; tauto).
  assert (attrs m = views 20 (credential_attrs u r n extra) ++
    mkView MESSAGE_INTEGRITY (blen h) (20 + blen (body (credential_attrs u r n extra)) + 4) ::
    views (20 + blen (body (credential_attrs u r n extra)) + blen (attr_bytes (mkAttr MESSAGE_INTEGRITY h))) tail) as Ea.
  { exact (views_app 20 (credential_attrs u r n extra) (mkAttr MESSAGE_INTEGRITY h :: tail)). }
  split; [eapply (value_of_found _ _ _ USERNAME _ (mkAttr USERNAME u)); [exact Hok|reflexivity]|].
  split; [eapply (value_of_found _ _ _ REALM _ (mkAttr REALM r)); [exact Hok|reflexivity]|].
  split; [eapply (value_of_found _ _ _ NONCE _ (mkAttr NONCE n)); [exact Hok|reflexivity]|]. rewrite Ea.
  split; [|split; [|split; [|split]]].
  - rewrite count_type_app, (count_views _ _ _ HFP). unfold count_type. cbn [List.filter av_type]. cbn.
    unfold tail, seal_fp. by destruct add.
  - rewrite count_type_app, (count_views _ _ _ HMI). unfold count_type. cbn. unfold tail, seal_fp. by destruct add.
  - unfold HasAttr, FindAttr. rewrite Ea, find_attr_stops; [done|done|done|].
    apply Forall_and. split; [apply HF; try done; apply HX; tauto|done].
  - unfold FindAttr. change (attrs m) with (views 20 (credential_attrs u r n extra ++ mkAttr MESSAGE_INTEGRITY h :: tail)).
    rewrite find_attr_views, split_attr_app; [|eapply Forall_impl; [exact HMI|]; auto|done].
    eexists. split; [done|]. cbn. unfold blen. lia.
  - cbv zeta. rewrite before_integrity_views by done. cbn [before_integrity av_type]. rewrite Z.eqb_refl, app_nil_r.
    unfold credential_attrs. 
    assert (forall t : Z, Forall (fun a => attr_type a <> t) extra -> forall off, count_type (views off extra) t = 0%nat) as HC
      by (intros; by apply count_views).
    unfold count_type in *. cbn [app views List.filter av_type]. cbn.
    rewrite !HC by (apply HX; tauto). done.
Qed.

Lemma DerivePreparedLegacyKey_size u r pw key : DerivePreparedLegacyKey u r pw = Some key -> blen key = 16 /\ key <> [].
Proof.
  unfold DerivePreparedLegacyKey. destruct (_ || _ || _ || _ || _ || _ || _ || _); [done|].
  destruct (MD5 _) as [d|]; [|done]. destruct (Z.eqb_spec (blen d) LEGACY_KEY_BYTES) as [E|]; [|done].
  intros [= <-]. split; [done|]. by intros ->.
Qed.

(** A request that carries the current nonce and is signed with the derived
    key is authorized. *)
Lemma Authenticate_complete auth fresh now ctx meth txid u pw key lookup extra add :
  IsConfigured auth = true -> NonceExpired auth ctx now = false ->
  ValidAsciiText (nonce_ ctx) TEXT_MAX_BYTES false = true -> ValidAsciiText u USERNAME_MAX_BYTES false = true ->
  lookup_ auth = Some lookup -> lookup u = Some pw -> ValidAsciiText pw TEXT_MAX_BYTES true = true ->
  DerivePreparedLegacyKey u (realm_ auth) pw = Some key ->
  meth = Allocate \/ meth = Refresh \/ meth = CreatePermission \/ meth = ChannelBind ->
  length txid = 12%nat -> Forall plain extra -> Forall (fun a => is_u16 (attr_type a)) extra ->
  check_attributes (24 + fp_size add) (credential_attrs u (realm_ auth) (nonce_ ctx) extra) = true ->
  (forall data, HMAC key data <> None) ->
  exists out l', BuildMessage (method_value meth) (class_value Request) txid
      (credential_attrs u (realm_ auth) (nonce_ ctx) extra) key add = Ret (Some out) /\
    blen out = 20 + blen (body l') /\
    out = message (EncodeType (method_value meth) 0) (blen (body l')) txid l' /\
    sealed (EncodeType (method_value meth) 0) txid (credential_attrs u (realm_ auth) (nonce_ ctx) extra) key add = Some l' /\
    msg_ok (EncodeType (method_value meth) 0) txid l' /\
    Parse (Some out) = Ret (true, parsed (EncodeType (method_value meth) 0) txid l' []) /\
    (method (parsed (EncodeType (method_value meth) 0) txid l' []), klass (parsed (EncodeType (method_value meth) 0) txid l' [])) = (method_value meth, 0) /\
    (add = true -> VerifyFingerprint (parsed (EncodeType (method_value meth) 0) txid l' []) = Ret true) /\
    Authenticate auth fresh now (Some out) ctx = Ret (mkAuthResult Auth_Authorized 0 [] u key, ctx).
Proof.
  intros Hcfg Hexp Hn Hu Hlk Hpw Hpwv Hkey Hmeth Hx Hpl Hty Hchk Hmac.
  destruct (DerivePreparedLegacyKey_size _ _ _ _ Hkey) as [Hk16 Hkn].
  assert (0 <= method_value meth <= 0xFFF) as Hmv by (destruct Hmeth as [-> | [-> | [-> | ->]]]; cbn; lia).
  assert (mi_size key = 24) as Hmi by (by destruct key).
  destruct (message_built (method_value meth) 0 txid (credential_attrs u (realm_ auth) (nonce_ ctx) extra) key add)
    as (out & l' & HB & Hsz & Hout & Hse & Hok & HP); try done; try lia.
  { repeat (apply Forall_cons_2; [by compute|]). done. }
  { by rewrite Hmi. }
  destruct (HP []) as (P1 & P2 & [A1 A2 A3 A4 A5 A6]). rewrite app_nil_r in P1.
  exists out, l'. do 8 (split; [done|]).
  destruct (sealed_credentials _ _ _ _ _ _ _ _ _ Hpl Hkn Hse Hok) as (V1 & V2 & V3 & C1 & C2 & C3 & (mi & F1 & F2) & D1 & D2 & D3).
  set (m := parsed _ _ l' []) in *.
  unfold Authenticate, ParseStunDatagram. rewrite P1. cbn [mbnd negb orb].
  change (raw_len m) with (20 + blen (body l')). rewrite Hsz, Z.eqb_refl. cbn [negb mbnd].
  assert (SupportedRequest m = true) as ->.
  { unfold SupportedRequest. rewrite (f_equal fst P2 : method m = _), (f_equal snd P2 : klass m = _). cbn [fst snd]. destruct Hmeth as [-> | [-> | [-> | ->]]]; done. }
  rewrite Hcfg. cbn [negb]. cbv zeta. rewrite C1, C2, C3.
  assert ((if bool_decide ((if add then 1 else 0)%nat = 1%nat) then VerifyFingerprint m
           else Ret (bool_decide ((if add then 1 else 0)%nat = 0%nat))) = Ret true) as ->.
  { destruct add; [by apply A6|done]. }
  cbn [mbnd negb]. rewrite (bool_decide_eq_false_2 (1 < 1)%nat) by lia. cbn [orb].
  rewrite F1, F2. cbn [Z.eqb Pos.eqb negb]. rewrite D1, D2, D3.
  rewrite (bool_decide_eq_false_2 (1%nat <> 1%nat)) by lia. cbn [orb]. rewrite V1, V2, V3. cbn [mbnd].
  rewrite Hu, Hn. unfold IsConfigured in Hcfg. apply andb_prop in Hcfg as [Hcfg _]. apply andb_prop in Hcfg as [Hre _].
  rewrite Hre. cbn [negb orb]. rewrite (bool_decide_eq_false_2 (realm_ auth <> realm_ auth)) by (intros F; by apply F).
  rewrite Hexp, (bool_decide_eq_false_2 (nonce_ ctx <> nonce_ ctx)) by (intros F; by apply F). cbn [orb].
  rewrite Hlk, Hpw, Hpwv, Hkey. rewrite A5 by done. done.
Qed.
End Complete.

(** ** The claims *)

Section Claims.
Context `{HmacSha1} `{Md5}.

(** (C16) What authorization means.  On any datagram [Authenticate] returns.
    It authorizes only a request for one of the four TURN methods that fills
    the datagram, carries the server's realm and the session's current,
    unexpired nonce, names a user the password lookup knows, and whose
    MESSAGE-INTEGRITY verifies under the key derived from that user's password;
    the session's nonce is left alone.  Every other outcome hands out neither a
    user name nor a key, and replaces the nonce only when the old one has
    expired, by a valid fresh one stamped with the current time. *)
Theorem turn_auth_sound auth fresh now data context :
  (forall b, data = Some b -> bytes_ok b) ->
  exists r context', Authenticate auth fresh now data context = Ret (r, context') /\
    (status r = Auth_Authorized ->
       context' = context /\ NonceExpired auth context now = false /\
       exists b m lookup password, data = Some b /\ Parse data = Ret (true, m) /\ raw_len m = blen b /\
         SupportedRequest m = true /\ value_of m USERNAME = Ret (auth_username r) /\
         value_of m REALM = Ret (realm_ auth) /\ value_of m NONCE = Ret (nonce_ context) /\
         lookup_ auth = Some lookup /\ lookup (auth_username r) = Some password /\
         DerivePreparedLegacyKey (auth_username r) (realm_ auth) password = Some (integrity_key r) /\
         VerifyMessageIntegrity m (integrity_key r) = Ret true) /\
    (status r <> Auth_Authorized ->
       auth_username r = [] /\ integrity_key r = [] /\
       (context' = context \/
        exists n, fresh = Some n /\ context' = mkAuthContext n now /\
          NonceExpired auth context now = true /\ ValidAsciiText n TEXT_MAX_BYTES false = true)).
Proof.
  intros Hd. destruct (Authenticate_spec auth fresh now data context Hd) as ([r c'] & HA & Hx).
  exists r, c'. split; [done|]. cbn [fst snd] in Hx. destruct Hx as [(Hs & -> & [(b & m & pw & HM) Hn _])|(Hs & HR)]; [|done].
  split; [intros _|done]. split; [done|]. split; [done|]. exists b, m.
  destruct HM as (? & ? & ? & ? & ? & ? & ? & (lookup & ? & ?) & ? & ?). exists lookup, pw. by split_and!.
Qed.
End Claims.

(** ** Examples *)

Definition ex_md5 : Md5 := {| MD5 := fun data => Some (u8 (blen data) :: repeat 5 15) |}.
Definition ex_lookup (u : list Z) : option (list Z) := if bool_decide (u = text "alice") then Some (text "secret") else None.
Definition ex_auth : TurnAuth := mkTurnAuth (text "packetia") (Some ex_lookup) NONCE_LIFETIME_MS.
Definition ex_context : TurnAuthContext := mkAuthContext (text "n0nce") 1000.
Definition ex_extra : list StunAttribute := [RequestedTransportAttribute kUdpTransport].
Definition ex_key : list Z := u8 (blen (text "alice:packetia:secret")) :: repeat 5 15.

(** An Allocate request without credentials is challenged with a new nonce. *)
Definition ex_bare : list Z := [0; 3; 0; 0; 33; 18; 164; 66] ++ ex_txid.

Lemma turn_auth_sound_witness :
  exists r context', @Authenticate ex_hmac ex_md5 ex_auth (Some (text "fresh")) 700000 (Some ex_bare) ex_context = Ret (r, context') /\
    status r = Auth_Response /\ error_code r = 401 /\ integrity_key r = [] /\ context' = mkAuthContext (text "fresh") 700000.
Proof.
  destruct (@turn_auth_sound ex_hmac ex_md5 ex_auth (Some (text "fresh")) 700000 (Some ex_bare) ex_context) as (r & c' & HA & _ & HR).
  - intros b [= <-]. repeat constructor; by compute.
  - assert (status r = Auth_Response /\ error_code r = 401 /\ c' = mkAuthContext (text "fresh") 700000) as (E1 & E2 & E3)
      by (vm_compute in HA; injection HA as <- <-; by vm_compute).
    exists r, c'. destruct HR as (_ & HK & _); [by rewrite E1|]. auto.
Defined.
