(* ===== verification/TurnRateLimiter.v ===== *)
(** * Rate limiter of unauthenticated TURN responses

    Models [protocol::TurnAuthRateLimiter] (protocol/turn/TurnAuthRateLimiter.h,
    .cpp): a direct-mapped table of fixed windows, indexed by a hash of the
    source address without its port.  Hashes and counters are 32-bit words,
    times 64-bit words that are compared before they are subtracted. *)
From S2P Require Import Prelude Bytes SocketAddr.

Definition kBucketCount : Z := 4096.
Definition RATELIMIT_WINDOW_MS : Z := 1000.

Record Decision := mkDecision {
  suppressed : bool;
  collision : bool;
  first_drop : bool;
  first_collision : bool
}.

Record Bucket := mkBucket {
  window_start_ms : Z;
  tag : Z;
  count : Z;
  drop_logged : bool;
  collision_logged : bool
}.

Definition Bucket_zero : Bucket := mkBucket 0 0 0 false false.

Notation Limiter := (list Bucket).
Definition Reset : Limiter := repeat Bucket_zero (Z.to_nat kBucketCount).

(** FNV-1a, then the MurmurHash3 finalizer. *)
Definition fnv_step (hash byte : Z) : Z := u32 (Z.lxor hash byte * 16777619).

Definition fmix (hash : Z) : Z :=
  let hash := Z.lxor hash (Z.shiftr hash 16) in
  let hash := u32 (hash * 0x85ebca6b) in
  let hash := Z.lxor hash (Z.shiftr hash 13) in
  let hash := u32 (hash * 0xc2b2ae35) in
  Z.lxor hash (Z.shiftr hash 16).

Definition AddressTag (source : SocketAddr) : Z :=
  let address := Normalized source in
  let bytes := if IsV4 address then IPv4Bytes address else IPv6Bytes address in
  let size := if IsV4 address then 4 else 16 in
  let hash := fmix (fold_left fnv_step bytes (fnv_step 2166136261 size)) in
  if hash =? 0 then 1 else hash.

Definition Live (start now : Z) : bool := (start <=? now) && (now - start <? RATELIMIT_WINDOW_MS).

Definition bucket_index (tag : Z) : nat := Z.to_nat (Z.land tag (kBucketCount - 1)).

(** The part of [Consume] that works on the bucket of the source. *)
Definition consume_bucket (tag' now_ms max_per_second : Z) (b : Bucket) : Decision * Bucket :=
  let b := if (tag b =? 0) || negb (Live (window_start_ms b) now_ms)
           then mkBucket now_ms tag' 0 false false else b in
  let collides := negb (tag b =? tag') in
  let first_collision := collides && negb (collision_logged b) in
  let b := if collides then mkBucket (window_start_ms b) (tag b) (count b) (drop_logged b) true else b in
  if count b <? max_per_second
  then (mkDecision false collides false first_collision,
        mkBucket (window_start_ms b) (tag b) (u32 (count b + 1)) (drop_logged b) (collision_logged b))
  else (mkDecision true collides (negb (drop_logged b)) first_collision,
        mkBucket (window_start_ms b) (tag b) (count b) true (collision_logged b)).

Definition Consume (source : SocketAddr) (now_ms max_per_second : Z) (l : Limiter) : Decision * Limiter :=
  if negb (IsValid source) || (max_per_second =? 0) then (mkDecision true false false false, l) else
  let tag := AddressTag source in
  match l !! bucket_index tag with
  | None => (mkDecision true false false false, l)
  | Some b =>
    let '(d, b) := consume_bucket tag now_ms max_per_second b in
    (d, <[bucket_index tag := b]> l)
  end.

Definition OccupiedBuckets (now_ms : Z) (l : Limiter) : Z :=
  Z.of_nat (length (List.filter (fun b => negb (tag b =? 0) && Live (window_start_ms b) now_ms) l)).

(** ** How many responses get through *)

(** A call: the source and the time. *)
Definition Call : Type := SocketAddr * Z.

Fixpoint consume_all (max : Z) (calls : list Call) (l : Limiter) : list bool * Limiter :=
  match calls with
  | [] => ([], l)
  | (s, now) :: calls =>
    let '(d, l) := Consume s now max l in
    let '(ds, l) := consume_all max calls l in
    (suppressed d :: ds, l)
  end.

(** The calls that were let through for the bucket [k]. *)
Fixpoint passed (k : nat) (calls : list Call) (ds : list bool) : Z :=
  match calls, ds with
  | (s, _) :: calls, d :: ds =>
    (if negb d && bool_decide (bucket_index (AddressTag s) = k) then 1 else 0) + passed k calls ds
  | _, _ => 0
  end.

(** Non-decreasing times, from [t] on. *)
Fixpoint monotone (t : Z) (calls : list Call) : Prop :=
  match calls with
  | [] => True
  | (_, now) :: calls => t <= now /\ monotone now calls
  end.

Fixpoint last_time (t : Z) (calls : list Call) : Z :=
  match calls with
  | [] => t
  | (_, now) :: calls => last_time now calls
  end.

Definition table_ok (max : Z) (l : Limiter) : Prop :=
  length l = Z.to_nat kBucketCount /\ Forall (fun b => 0 <= count b <= max) l.

(** What is left for a bucket in the interval that starts at [t]: a window
    that opened in it is the last one. *)
Definition allowance (t max : Z) (b : Bucket) : Z :=
  if (tag b =? 0) || (window_start_ms b <? t) then 2 * max - (if tag b =? 0 then 0 else count b) else max - count b.

Lemma AddressTag_pos s : AddressTag s <> 0.
Proof. unfold AddressTag. split_if; [done|]. by apply Z.eqb_neq. Qed.

Lemma bucket_index_lt tag : (bucket_index tag < Z.to_nat kBucketCount)%nat.
Proof.
  unfold bucket_index, kBucketCount. change (4096 - 1) with (Z.ones 12).
  rewrite Z.land_ones by lia. change (2 ^ 12) with 4096. words.
Qed.

Lemma consume_bucket_spec t tag' now max b :
  tag' <> 0 -> 0 <= max < 2 ^ 32 -> 0 <= count b <= max -> t <= now < t + RATELIMIT_WINDOW_MS ->
  (tag b <> 0 -> window_start_ms b <= now) ->
  let '(d, b') := consume_bucket tag' now max b in
  0 <= count b' <= max /\ tag b' <> 0 /\ window_start_ms b' <= now /\
  (if suppressed d then 0 else 1) + allowance t max b' <= allowance t max b.
Proof.
  intros Ht Hm Hc Hn Hw. unfold consume_bucket, RATELIMIT_WINDOW_MS in *.
  destruct ((tag b =? 0) || negb (Live (window_start_ms b) now)) eqn:E.
  - cbn [tag collision_logged count drop_logged window_start_ms]. rewrite Z.eqb_refl. cbn [negb andb].
    assert (max <= allowance t max b) as Ha.
    { unfold allowance. destruct (tag b =? 0) eqn:E0; cbn [orb] in *; [lia|].
      apply negb_true_iff in E. unfold Live, RATELIMIT_WINDOW_MS in E. bool_hyps. specialize (Hw E0).
      rewrite (proj2 (Z.leb_le _ _)) in E by lia. cbn [andb] in E. bool_hyps.
      rewrite (proj2 (Z.ltb_lt _ _)) by lia. lia. }
    cbn [count tag window_start_ms]. destruct (Z.ltb_spec 0 max); cbn [suppressed count tag window_start_ms].
    + rewrite (wrap_small 32) by words. unfold allowance at 1. cbn [tag window_start_ms count].
      rewrite (proj2 (Z.eqb_neq _ _) Ht), (proj2 (Z.ltb_ge _ _)) by lia. cbn [orb]. split_and!; [lia|lia|done|lia|lia].
    + unfold allowance at 1. cbn [tag window_start_ms count].
      rewrite (proj2 (Z.eqb_neq _ _) Ht), (proj2 (Z.ltb_ge _ _)) by lia. cbn [orb]. split_and!; [lia|lia|done|lia|lia].
  - apply orb_false_elim in E as [E0 El]. bool_hyps. specialize (Hw E0).
    set (b1 := if negb (tag b =? tag') then _ else b).
    assert (tag b1 = tag b /\ count b1 = count b /\ window_start_ms b1 = window_start_ms b) as (E1 & E2 & E3).
    { unfold b1. by destruct (negb (tag b =? tag')). }
    destruct (Z.ltb_spec (count b1) max) as [Hlt|Hge]; cbn [suppressed count tag window_start_ms].
    + rewrite (wrap_small 32) by words. unfold allowance. cbn [tag window_start_ms count].
      rewrite E1, E2, E3, (proj2 (Z.eqb_neq _ _) E0). cbn [orb]. split_and!; [lia|lia|done|lia|].
      destruct (_ <? t); lia.
    + unfold allowance. cbn [tag window_start_ms count]. rewrite E1, E2, E3. split_and!; [lia|lia|done|lia|lia].
Qed.

(** The buckets were opened before [now]. *)
Definition opened (now : Z) (l : Limiter) : Prop := Forall (fun b => tag b <> 0 -> window_start_ms b <= now) l.

Lemma Forall_opened now now' l : now <= now' -> opened now l -> opened now' l.
Proof. intros Hn H. eapply Forall_impl; [exact H|]. cbn. intros b H1 H2. specialize (H1 H2). lia. Qed.

(** One call costs the allowance of its own bucket and of no other. *)
Lemma Consume_spec t max s now l k b :
  0 <= max < 2 ^ 32 -> table_ok max l -> opened now l -> t <= now < t + RATELIMIT_WINDOW_MS ->
  l !! k = Some b ->
  let '(d, l') := Consume s now max l in
  table_ok max l' /\ opened now l' /\
  exists b', l' !! k = Some b' /\
    (if negb (suppressed d) && bool_decide (bucket_index (AddressTag s) = k) then 1 else 0) + allowance t max b'
      <= allowance t max b.
Proof.
  intros Hm [Hlen Hcount] Hop Hn Hk. unfold Consume. split_if.
  { split; [done|]. split; [done|]. exists b. split; [done|]. cbn [suppressed negb andb]. lia. }
  destruct (lookup_lt_is_Some_2 l (bucket_index (AddressTag s))) as [x Hx]; [rewrite Hlen; apply bucket_index_lt|].
  rewrite Hx. destruct (consume_bucket (AddressTag s) now max x) as [d x'] eqn:E.
  unfold opened in Hop. rewrite !Forall_lookup in Hop, Hcount.
  pose proof (consume_bucket_spec t (AddressTag s) now max x (AddressTag_pos s) Hm (Hcount _ _ Hx) Hn (Hop _ _ Hx)) as HS.
  rewrite E in HS. destruct HS as (S1 & S2 & S3 & S4).
  split; [split; [by rewrite length_insert|]|split].
  - apply Forall_insert; [by apply Forall_lookup|done].
  - apply Forall_insert; [by apply Forall_lookup|done].
  - case_bool_decide as Ei.
    + subst k. rewrite Hk in Hx. injection Hx as <-. exists x'.
      rewrite list_lookup_insert_eq by (eapply lookup_lt_Some; done). split; [done|].
      rewrite andb_true_r. by destruct (suppressed d).
    + exists b. rewrite list_lookup_insert_ne by done. split; [done|]. rewrite andb_false_r. lia.
Qed.

Lemma consume_all_spec t max k calls : forall now l b,
  0 <= max < 2 ^ 32 -> table_ok max l -> opened now l -> t <= now -> monotone now calls ->
  Forall (fun c => c.2 < t + RATELIMIT_WINDOW_MS) calls -> l !! k = Some b ->
  let '(ds, l') := consume_all max calls l in
  table_ok max l' /\ passed k calls ds <= allowance t max b.
Proof.
  induction calls as [|[s now'] calls IH]; intros now l b Hm Hl Hop Ht Hmon Hw Hk; cbn [consume_all].
  - split; [done|]. cbn [passed]. unfold allowance. destruct Hl as [_ Hc]. rewrite Forall_lookup in Hc.
    specialize (Hc _ _ Hk). simpl in Hc. destruct (_ || _), (tag b =? 0); lia.
  - destruct Hmon as [Hle Hmon]. apply Forall_cons in Hw as [Hlt Hw]. cbn [snd] in Hlt.
    apply (Forall_opened now now') in Hop; [|done].
    pose proof (Consume_spec t max s now' l k b Hm Hl Hop ltac:(lia) Hk) as HC.
    destruct (Consume s now' max l) as [d l1]. destruct HC as (Hl1 & Hop1 & b1 & Hk1 & HA).
    specialize (IH now' l1 b1 Hm Hl1 Hop1 ltac:(lia) Hmon Hw Hk1).
    destruct (consume_all max calls l1) as [ds l']. destruct IH as [I1 I2]. split; [done|]. cbn [passed]. lia.
Qed.

Lemma table_reset max : 0 <= max -> table_ok max Reset.
Proof.
  intros Hm. split; [apply repeat_length|]. apply Forall_forall. intros b Hb.
  apply list_elem_of_In, repeat_spec in Hb as ->. cbn. lia.
Qed.

Definition with_port (p : Z) (s : SocketAddr) : SocketAddr :=
  match s with AF_none => AF_none | AF_inet _ x => AF_inet p x | AF_inet6 _ x i => AF_inet6 p x i end.

Lemma AddressTag_port p s : AddressTag (with_port p s) = AddressTag s.
Proof. destruct s as [|q x|q x i]; [done|done|]. unfold AddressTag. cbn. by destruct (IN6_IS_ADDR_V4MAPPED x). Qed.

Lemma opened_all max calls : forall now l,
  0 <= max < 2 ^ 32 -> table_ok max l -> opened now l -> monotone now calls ->
  table_ok max (consume_all max calls l).2 /\ opened (last_time now calls) (consume_all max calls l).2.
Proof.
  induction calls as [|[s now'] calls IH]; intros now l Hm Hl Hop Hmon; [done|].
  destruct Hmon as [Hle Hmon]. cbn [consume_all last_time].
  apply (Forall_opened now now') in Hop; [|done].
  destruct (lookup_lt_is_Some_2 l 0%nat) as [b Hb]; [destruct Hl as [-> _]; by compute; lia|].
  pose proof (Consume_spec now' max s now' l 0%nat b Hm Hl Hop ltac:(unfold RATELIMIT_WINDOW_MS; lia) Hb) as HC.
  destruct (Consume s now' max l) as [d l1]. destruct HC as (Hl1 & Hop1 & _).
  specialize (IH now' l1 Hm Hl1 Hop1 Hmon). by destruct (consume_all max calls l1).
Qed.

(** Rate limit of 401 responses.  After any history of calls with a clock
    that does not run backwards, and for any source: whatever ports it uses and
    whatever other traffic there is, at most [2 * max_per_second] of the calls
    in any span of one second are let through to its bucket; no counter exceeds
    the limit, so none wraps; and a source whose bucket is free is answered. *)
Theorem turn_rate_limit max src t history calls :
  0 < max < 2 ^ 32 -> IsValid src = true -> monotone 0 history -> last_time 0 history <= t ->
  monotone t calls -> Forall (fun c => c.2 < t + RATELIMIT_WINDOW_MS) calls ->
  let l := (consume_all max history Reset).2 in
  let k := bucket_index (AddressTag src) in
  passed k calls (consume_all max calls l).1 <= 2 * max /\
  (forall p, AddressTag (with_port p src) = AddressTag src) /\
  Forall (fun b => count b <= max) l /\
  exists b, l !! k = Some b /\
    forall now, tag b = 0 \/ Live (window_start_ms b) now = false -> suppressed (Consume src now max l).1 = false.
Proof.
  intros Hm Hv Hh Ht Hc Hw l k.
  destruct (opened_all max history 0 Reset ltac:(lia) (table_reset max ltac:(lia))) as [Hl Hop]; [|done|].
  { apply Forall_forall. intros b Hb. apply list_elem_of_In, repeat_spec in Hb as ->. by cbn. }
  fold l in Hl, Hop. destruct (lookup_lt_is_Some_2 l k) as [b Hb]; [destruct Hl as [-> _]; apply bucket_index_lt|].
  pose proof (consume_all_spec t max k calls t l b ltac:(lia) Hl (Forall_opened _ t _ Ht Hop) ltac:(lia) Hc Hw Hb) as HS.
  destruct (consume_all max calls l) as [ds l']. destruct HS as [_ HS].
  assert (0 <= count b) as Hcb by (destruct Hl as [_ Hl]; rewrite Forall_lookup in Hl; apply (Hl _ _ Hb)).
  split; [|split; [|split]].
  - cbn [fst]. unfold allowance in HS. destruct (_ || _), (tag b =? 0); lia.
  - intros p. apply AddressTag_port.
  - destruct Hl as [_ Hl]. eapply Forall_impl; [exact Hl|]. cbn. lia.
  - exists b. split; [done|]. intros now Hf. unfold Consume. rewrite Hv. cbn [negb orb].
    rewrite (proj2 (Z.eqb_neq _ _)) by lia. fold k. rewrite Hb. unfold consume_bucket.
    assert ((tag b =? 0) || negb (Live (window_start_ms b) now) = true) as ->.
    { destruct Hf as [-> | ->]; [done|]. by rewrite orb_true_r. }
    cbn [tag]. rewrite Z.eqb_refl. cbn [negb count andb]. by rewrite (proj2 (Z.ltb_lt 0 max)) by lia.
Qed.

(** ** Witness *)

Definition ex_flood : list Call := repeat (AF_inet 4000 [203; 0; 113; 9], 5100) 3.

Lemma turn_rate_limit_witness :
  passed (bucket_index (AddressTag (AF_inet 1 [203; 0; 113; 9]))) ex_flood
    (consume_all 1 ex_flood (consume_all 1 [(AF_inet 7 [203; 0; 113; 9], 5000)] Reset).2).1 <= 2.
Proof.
  refine (proj1 (turn_rate_limit 1 (AF_inet 1 [203; 0; 113; 9]) 5050 [(AF_inet 7 [203; 0; 113; 9], 5000)] ex_flood
    _ _ _ _ _ _)).
  - lia.
  - reflexivity.
  - cbn. lia.
  - cbn. lia.
  - cbn. lia.
  - repeat constructor; cbn; unfold RATELIMIT_WINDOW_MS; lia.
Defined.
