(* ===== verification/TurnServer.v ===== *)
(** * TURN server

    Models [protocol::TurnServer] (protocol/turn/TurnServer.h, TurnServer.cpp):
    sessions by client address, allocations with permissions and channels, the
    response cache, and the two data paths.  All handlers run on the scheduler
    thread, so an operation is one state transition.

    What the outside contributes to a call is an argument ([Env]): a reading
    for each place the code reads its clock, the fresh nonce, the random
    transaction id, which ports a relay socket can be bound to (and the local
    port it then has), and whether the datagram that is sent was accepted by
    its socket.  Sent datagrams are [Event]s.  A vector that is empty when
    nothing was built is the empty list.  Dereferencing the control socket
    when there is none is a [Fault].  [bad_alloc] is not modelled. *)
From S2P Require Import Prelude Bytes Stun StunLayout StunProps StunSafety SocketAddr TurnCodec TurnAuth TurnRateLimiter.
Import StunCodec.

(** ** Constants (TurnConstants.h, StunConstants.h, StunErrorCodes.h) *)
Definition kPermissionMs : Z := 300000.
Definition kChannelMs : Z := 600000.
Definition kSessionIdleMs : Z := 60000.
Definition kCacheMs : Z := 40000.
Definition kMaxCachedResponses : Z := 8.
Definition kMaxControlBytes : Z := 4096.
Definition kDefaultLifetime : Z := 600.
Definition kMaxLifetime : Z := 3600.
Definition MS_PER_SECOND : Z := 1000.
Definition MAX_UDP_DATAGRAM_BYTES : Z := 65507.
Definition OPTIONAL_ATTRIBUTE_START : Z := 0x8000.

Definition ERROR_FORBIDDEN : Z := 403.
Definition ERROR_UNKNOWN_ATTRIBUTE : Z := 420.
Definition ERROR_ALLOCATION_MISMATCH : Z := 437.
Definition ERROR_ADDRESS_FAMILY_NOT_SUPPORTED : Z := 440.
Definition ERROR_WRONG_CREDENTIALS : Z := 441.
Definition ERROR_UNSUPPORTED_TRANSPORT_PROTOCOL : Z := 442.
Definition ERROR_PEER_ADDRESS_FAMILY_MISMATCH : Z := 443.
Definition ERROR_ALLOCATION_QUOTA_REACHED : Z := 486.
Definition ERROR_INSUFFICIENT_CAPACITY : Z := 508.

(** ** Address policy *)

(** [ntohl] of the four address bytes. *)
Definition host_order (x : list Z) : Z := bget x 0 * 2 ^ 24 + bget x 1 * 2 ^ 16 + bget x 2 * 2 ^ 8 + bget x 3.

Definition UnicastV4 (host_ip : Z) : bool :=
  negb (Z.shiftr host_ip 24 =? 0) && (Z.shiftr host_ip 28 <? 14).

Definition Unicast (a : SocketAddr) : bool :=
  match a with
  | AF_none => false
  | AF_inet _ x => UnicastV4 (host_order x)
  | AF_inet6 _ x scope =>
    (scope =? 0) && negb (IN6_IS_ADDR_UNSPECIFIED x) && negb (IN6_IS_ADDR_MULTICAST x) && negb (IN6_IS_ADDR_V4MAPPED x)
  end.

Definition PublicPeer (peer : SocketAddr) : bool :=
  match peer with
  | AF_inet6 _ x _ =>
    let site_local := (bget x 0 =? 0xfe) && (Z.land (bget x 1) 0xc0 =? 0xc0) in
    Unicast peer && negb (IN6_IS_ADDR_LOOPBACK x) && negb (IN6_IS_ADDR_LINKLOCAL x) &&
    negb (Z.land (bget x 0) 0xfe =? 0xfc) && negb site_local &&
    negb (forallb (fun b => b =? 0) (take 12 x))
  | _ =>
    let ip := host_order (IPv4Bytes peer) in
    let first_octet := Z.shiftr ip 24 in
    UnicastV4 ip && negb (first_octet =? 10) && negb (first_octet =? 127) &&
    negb (Z.land ip 0xFFF00000 =? 0xAC100000) && negb (Z.land ip 0xFFFF0000 =? 0xC0A80000) &&
    negb (Z.land ip 0xFFFF0000 =? 0xA9FE0000) && negb (Z.land ip 0xFFC00000 =? 0x64400000) &&
    negb (Z.land ip 0xFFFE0000 =? 0xC6120000)
  end.

Definition PeerIp (peer : SocketAddr) : SocketAddr :=
  match peer with
  | AF_inet _ x => AF_inet 0 x
  | AF_inet6 _ x s => AF_inet6 0 x s
  | AF_none => AF_none
  end.

Definition Endpoint (a : SocketAddr) : IpEndpoint :=
  if IsV6 a then mkEndpoint (family_value IPv6) (Port a) (IPv6Bytes a)
  else mkEndpoint (family_value IPv4) (Port a) (IPv4Bytes a ++ repeat 0 (16 - length (IPv4Bytes a))).

(** [now + duration], saturating *)
Definition Deadline (now duration : Z) : Z :=
  if duration >? 2 ^ 64 - 1 - now then 2 ^ 64 - 1 else now + duration.

(** ** Attributes of a request *)

Fixpoint attribute_count (l : list AttrView) (t : Z) : nat :=
  match l with
  | [] => 0
  | a :: l => (if av_type a =? t then 1 else 0) + (if av_type a =? MESSAGE_INTEGRITY then 0 else attribute_count l t)
  end.

Definition AttributeCount (m : StunMessageInfo) (t : AttrType) : nat := attribute_count (attrs m) t.

Definition ValidFingerprint (m : StunMessageInfo) : mres bool :=
  match count_type (attrs m) FINGERPRINT with
  | 0%nat => Ret true
  | 1%nat => VerifyFingerprint m
  | _ => Ret false
  end.

Definition one_of (raw : Z) (l : list AttrType) : bool := existsb (fun t => raw =? attr_value t) l.

Definition AllowedAttribute (method raw : Z) : bool :=
  if method =? method_value Binding then
    one_of raw [MAPPED_ADDRESS; USERNAME; MESSAGE_INTEGRITY; MESSAGE_INTEGRITY_SHA256; ERROR_CODE; UNKNOWN_ATTRIBUTES;
                CHANNEL_NUMBER; LIFETIME; XOR_PEER_ADDRESS; DATA; REALM; NONCE; XOR_RELAYED_ADDRESS;
                REQUESTED_ADDRESS_FAMILY; REQUESTED_TRANSPORT; XOR_MAPPED_ADDRESS; PRIORITY; USE_CANDIDATE]
  else if negb (method =? method_value Send) && one_of raw [USERNAME; REALM; NONCE] then true
  else if method =? method_value Allocate then one_of raw [REQUESTED_TRANSPORT; LIFETIME; REQUESTED_ADDRESS_FAMILY]
  else if method =? method_value Refresh then one_of raw [LIFETIME]
  else if method =? method_value CreatePermission then one_of raw [XOR_PEER_ADDRESS]
  else if method =? method_value ChannelBind then one_of raw [XOR_PEER_ADDRESS; CHANNEL_NUMBER]
  else if method =? method_value Send then one_of raw [XOR_PEER_ADDRESS; DATA]
  else false.

(** The loop, with the types found so far. *)
Fixpoint unknown_loop (method : Z) (l : list AttrView) (result : list Z) : list Z :=
  match l with
  | [] => result
  | a :: l =>
    if (av_type a =? MESSAGE_INTEGRITY) ||
       ((method =? method_value Binding) && (av_type a =? MESSAGE_INTEGRITY_SHA256)) then result else
    unknown_loop method l
      (if (av_type a <? OPTIONAL_ATTRIBUTE_START) && negb (AllowedAttribute method (av_type a)) &&
          negb (bool_decide (av_type a ∈ result))
       then result ++ [av_type a] else result)
  end.

Definition UnknownAttributes (m : StunMessageInfo) : list Z := unknown_loop (method m) (attrs m) [].

(** ** State *)

Record TurnServerOptions := mkOptions {
  listen_ip : list Z;
  listen_port : Z;
  dual_stack : bool;
  relay_bind_ip : list Z;
  advertised_ip : list Z;
  relay_bind_ip_v6 : list Z;
  advertised_ip_v6 : list Z;
  realm : list Z;
  relay_port_min : Z;
  relay_port_max : Z;
  max_sessions : Z;
  max_allocations : Z;
  max_allocations_per_user : Z;
  max_permissions : Z;
  max_channels : Z;
  unauthorized_ratelimit : bool;
  unauthorized_ratelimit_rps : Z;
  allow_peer : option (SocketAddr -> bool)
}.

Record Channel := mkChannel { peer : SocketAddr; ch_expires : Z }.

Record Allocation := mkAllocation {
  relay : Z;                       (* local port of the relay socket *)
  advertised : SocketAddr;
  al_username : list Z;
  transaction : list Z;
  request : list Z;
  al_generation : Z;
  expires : Z;
  permissions : gmap SocketAddr Z;
  channels : gmap Z Channel
}.

Record CachedResponse := mkCached {
  ca_transaction : list Z;
  ca_request : list Z;
  ca_response : list Z;
  ca_expires : Z;
  unauthorized : bool
}.

Record Session := mkSession {
  s_auth : TurnAuthContext;
  allocation : option Allocation;
  cache : list CachedResponse;
  last_activity : Z
}.

Definition Session_init : Session := mkSession AuthContext_init None [] 0.

Record Stats := mkStats {
  client_to_peer : Z;
  peer_to_client : Z;
  unauthorized_401_requests : Z;
  unauthorized_401_responses : Z;
  unauthorized_401_dropped : Z;
  ratelimit_hash_collisions : Z
}.

Record Impl := mkImpl {
  sessions : gmap SocketAddr Session;
  control : bool;                  (* the control socket exists *)
  timer : bool;
  next_port : Z;
  generation : Z;
  stats : Stats;
  unauthorized_limiter : Limiter;
  started : bool
}.

Definition Impl_init (o : TurnServerOptions) : Impl :=
  mkImpl ∅ false false (relay_port_min o) 0 (mkStats 0 0 0 0 0 0) Reset false.

Definition with_sessions (st : Impl) (s : gmap SocketAddr Session) : Impl :=
  mkImpl s (control st) (timer st) (next_port st) (generation st) (stats st) (unauthorized_limiter st) (started st).
Definition with_stats (st : Impl) (s : Stats) : Impl :=
  mkImpl (sessions st) (control st) (timer st) (next_port st) (generation st) s (unauthorized_limiter st) (started st).
Definition with_limiter (st : Impl) (l : Limiter) : Impl :=
  mkImpl (sessions st) (control st) (timer st) (next_port st) (generation st) (stats st) l (started st).
Definition with_next_port (st : Impl) (p : Z) : Impl :=
  mkImpl (sessions st) (control st) (timer st) p (generation st) (stats st) (unauthorized_limiter st) (started st).
Definition with_generation (st : Impl) (g : Z) : Impl :=
  mkImpl (sessions st) (control st) (timer st) (next_port st) g (stats st) (unauthorized_limiter st) (started st).

Definition set_allocation (s : Session) (a : option Allocation) : Session :=
  mkSession (s_auth s) a (cache s) (last_activity s).
Definition set_auth (s : Session) (c : TurnAuthContext) : Session :=
  mkSession c (allocation s) (cache s) (last_activity s).
Definition set_cache (s : Session) (l : list CachedResponse) : Session :=
  mkSession (s_auth s) (allocation s) l (last_activity s).
Definition set_activity (s : Session) (t : Z) : Session :=
  mkSession (s_auth s) (allocation s) (cache s) t.
Definition set_leases (a : Allocation) (e : Z) (p : gmap SocketAddr Z) (c : gmap Z Channel) : Allocation :=
  mkAllocation (relay a) (advertised a) (al_username a) (transaction a) (request a) (al_generation a) e p c.

Definition count_to_peer (s : Stats) : Stats :=
  mkStats (u64 (client_to_peer s + 1)) (peer_to_client s) (unauthorized_401_requests s)
    (unauthorized_401_responses s) (unauthorized_401_dropped s) (ratelimit_hash_collisions s).
Definition count_to_client (s : Stats) : Stats :=
  mkStats (client_to_peer s) (u64 (peer_to_client s + 1)) (unauthorized_401_requests s)
    (unauthorized_401_responses s) (unauthorized_401_dropped s) (ratelimit_hash_collisions s).
Definition count_401 (s : Stats) : Stats :=
  mkStats (client_to_peer s) (peer_to_client s) (u64 (unauthorized_401_requests s + 1))
    (unauthorized_401_responses s) (unauthorized_401_dropped s) (ratelimit_hash_collisions s).
Definition count_401_response (s : Stats) : Stats :=
  mkStats (client_to_peer s) (peer_to_client s) (unauthorized_401_requests s)
    (u64 (unauthorized_401_responses s + 1)) (unauthorized_401_dropped s) (ratelimit_hash_collisions s).
Definition count_401_limit (s : Stats) (d : Decision) : Stats :=
  mkStats (client_to_peer s) (peer_to_client s) (unauthorized_401_requests s) (unauthorized_401_responses s)
    (if suppressed d then u64 (unauthorized_401_dropped s + 1) else unauthorized_401_dropped s)
    (if collision d then u64 (ratelimit_hash_collisions s + 1) else ratelimit_hash_collisions s).

(** What a call sees of the outside. *)
Record Env := mkEnv {
  clock_prune : Z;
  clock_auth : Z;
  clock_request : Z;
  clock_permission : Z;
  clock_limit : Z;
  fresh_nonce : option (list Z);
  random_txid : option (list Z);
  relay_start : list Z -> Z -> option Z;
  sent : bool
}.

Inductive Event :=
| ToClient (dst : SocketAddr) (bytes : list Z)
| ToPeer (relay : Z) (dst : SocketAddr) (bytes : list Z).

(** ** Operations *)

Definition is_allocated (username : list Z) (s : Session) : bool :=
  match allocation s with
  | Some a => is_empty username || bool_decide (al_username a = username)
  | None => false
  end.

(** [username] is empty by default: every allocation counts. *)
Definition AllocationCount (st : Impl) (username : list Z) : Z :=
  Z.of_nat (size (filter (fun '(_, s) => is_allocated username s = true) (sessions st))).

Fixpoint pop_expired (now : Z) (l : list CachedResponse) : list CachedResponse :=
  match l with
  | c :: rest => if ca_expires c <=? now then pop_expired now rest else l
  | [] => []
  end.

Definition prune_allocation (now : Z) (a : Allocation) : option Allocation :=
  if expires a <=? now then None else
  Some (set_leases a (expires a) (filter (fun '(_, t) => now < t) (permissions a))
          (filter (fun '(_, c) => now < ch_expires c) (channels a))).

Definition prune_session (now : Z) (s : Session) : option Session :=
  let s := set_cache s (pop_expired now (cache s)) in
  let s := set_allocation s (match allocation s with Some a => prune_allocation now a | None => None end) in
  match allocation s with
  | None => if (last_activity s <=? now) && (kSessionIdleMs <=? now - last_activity s) then None else Some s
  | Some _ => Some s
  end.

Definition Prune (now : Z) (st : Impl) : Impl := with_sessions st (omap (prune_session now) (sessions st)).

Section Server.
Context `{HmacSha1} `{Md5} `{InetPton}.
Context (options : TurnServerOptions) (lookup : option (list Z -> option (list Z))).

(** [auth(options.realm, lookup, PACKETIA_TURN_NONCE_LIFETIME_MS, clock)] *)
Definition auth : TurnAuth := mkTurnAuth (realm options) lookup NONCE_LIFETIME_MS.

Definition PeerAllowed (p : SocketAddr) (require_port : bool) : bool :=
  Unicast p && (negb require_port || negb (Port p =? 0)) &&
  match allow_peer options with Some f => f p | None => PublicPeer p end.

Definition HasPermission (now : Z) (a : Allocation) (p : SocketAddr) : bool :=
  match permissions a !! PeerIp p with
  | Some t => now <? t
  | None => false
  end.

(** The error code (0 on success) and [out]. *)
Definition DecodePeer (m : StunMessageInfo) (attr : AttrView) (a : Allocation) : mres (Z * SocketAddr) :=
  let view := mkInfo (type_raw m) (length_ m) (magic_cookie m) (txid m) (method m) (klass m) [attr] (raw m) (raw_len m) in
  let! decoded := DecodeXorAddress view XOR_PEER_ADDRESS in
  match decoded with
  | None => Ret (ERROR_BAD_REQUEST, AF_none)
  | Some d =>
    if bool_decide (is_ipv6 d <> IsV6 (advertised a)) then Ret (ERROR_PEER_ADDRESS_FAMILY_MISMATCH, AF_none) else
    let out := if is_ipv6 d then AF_inet6 (xor_port d) (take 16 (xor_ip d)) 0
               else AF_inet (xor_port d) (take 4 (xor_ip d)) in
    Ret (if PeerAllowed out (negb (method m =? method_value CreatePermission)) then 0 else ERROR_FORBIDDEN, out)
  end.

(** [BuildMessage] leaves its vector empty when it fails. *)
Definition or_empty (r : option (list Z)) : list Z := match r with Some b => b | None => [] end.

Definition Success (m : StunMessageInfo) (key : list Z) (attributes : list StunAttribute) : mres (list Z) :=
  let! r := BuildMessage (method m) (class_value SuccessResponse) (txid m) attributes key true in
  Ret (or_empty r).

Definition Error (m : StunMessageInfo) (code : Z) (key : list Z) (unknown : list Z) : mres (list Z) :=
  let attributes := [mkAttr ERROR_CODE [0; 0; u8 (code / 100); u8 (code mod 100)]] in
  let attributes :=
    if is_empty unknown then attributes
    else attributes ++ [mkAttr UNKNOWN_ATTRIBUTES (flat_map (fun v => [u8 (Z.shiftr v 8); u8 v]) unknown)] in
  let! r := BuildMessage (method m) (class_value StunCodec.ErrorResponse) (txid m) attributes key true in
  Ret (or_empty r).

Definition control_send (st : Impl) (client : SocketAddr) (bytes : list Z) : mres (list Event) :=
  if control st then Ret [ToClient client bytes] else Fault.

Definition SendResponse (env : Env) (client : SocketAddr) (response : list Z) (unauthorized : bool) (st : Impl)
    : mres (list Event * Impl) :=
  let st := if unauthorized then with_stats st (count_401 (stats st)) else st in
  let '(drop, st) :=
    if unauthorized && unauthorized_ratelimit options then
      let '(d, l) := Consume client (clock_limit env) (unauthorized_ratelimit_rps options) (unauthorized_limiter st) in
      (suppressed d, with_limiter (with_stats st (count_401_limit (stats st) d)) l)
    else (false, st) in
  if drop then Ret ([], st) else
  let! events := control_send st client response in
  Ret (events, if sent env && unauthorized then with_stats st (count_401_response (stats st)) else st).

(** The loop of [OpenRelay]: the socket bound, if any, and [next_port]. *)
Fixpoint open_loop (env : Env) (bind_ip : list Z) (attempts : nat) (next : Z) : option Z * Z :=
  match attempts with
  | O => (None, next)
  | S attempts =>
    let port := u16 next in
    let next := if negb (relay_port_min options =? 0)
                then (if next =? relay_port_max options then relay_port_min options else u32 (next + 1)) else next in
    match relay_start env bind_ip port with
    | Some local => (Some local, next)
    | None => open_loop env bind_ip attempts next
    end
  end.

Definition attempts : Z :=
  if relay_port_min options =? 0 then 1 else u32 (relay_port_max options - relay_port_min options + 1).

Definition OpenRelay (env : Env) (family : IpFamily) (st : Impl) : option Z * Impl :=
  let bind_ip := match family with IPv6 => relay_bind_ip_v6 options | IPv4 => relay_bind_ip options end in
  let '(r, next) := open_loop env bind_ip (Z.to_nat attempts) (next_port st) in
  (r, with_next_port st next).

Definition clamp (v lo hi : Z) : Z := if v <? lo then lo else if hi <? v then hi else v.

Definition HandleRefresh (m : StunMessageInfo) (key : list Z) (now lifetime : Z) (s : Session) (st : Impl)
    : mres (list Z * Session * Impl) :=
  match allocation s with
  | None => let! e := Error m ERROR_ALLOCATION_MISMATCH key [] in Ret (e, s, st)
  | Some a =>
    let lifetime := if negb (lifetime =? 0) then clamp lifetime kDefaultLifetime kMaxLifetime else lifetime in
    let! attr := UInt32Attribute LIFETIME lifetime in
    let! response := Success m key [attr] in
    if is_empty response then Ret ([], s, st) else
    let a := if lifetime =? 0 then None
             else Some (set_leases a (Deadline now (lifetime * MS_PER_SECOND)) (permissions a) (channels a)) in
    Ret (response, set_allocation s a, st)
  end.

(** REQUESTED-ADDRESS-FAMILY; [None] is a bad request. *)
Definition requested_family (m : StunMessageInfo) : mres (option IpFamily) :=
  if bool_decide (1 < AttributeCount m REQUESTED_ADDRESS_FAMILY)%nat then Ret None else
  match FindAttr m REQUESTED_ADDRESS_FAMILY with
  | None => Ret (Some IPv4)
  | Some f =>
    if negb (av_len f =? 4) then Ret None else
    let! v := rd (raw_bytes m) (value_offset f) in
    if negb (v =? 1) && negb (v =? 2) then Ret None else
    Ret (Some (if v =? 2 then IPv6 else IPv4))
  end.

(** The answer to an Allocate request for the allocation [a]. *)
Definition allocate_response (client : SocketAddr) (m : StunMessageInfo) (key : list Z) (a : Allocation) (lifetime : Z)
    : mres (list Z) :=
  match XorAddressAttribute XOR_RELAYED_ADDRESS (Endpoint (advertised a)) (txid m),
        XorAddressAttribute XOR_MAPPED_ADDRESS (Endpoint client) (txid m) with
  | Some relayed, Some mapped =>
    let! attr := UInt32Attribute LIFETIME lifetime in
    Success m key [relayed; mapped; attr]
  | _, _ => Ret []
  end.

Definition HandleAllocate (env : Env) (client : SocketAddr) (m : StunMessageInfo) (username key data : list Z)
    (now lifetime : Z) (s : Session) (st : Impl) : mres (list Z * Session * Impl) :=
  let error code := let! e := Error m code key [] in Ret (e, s, st) in
  if bool_decide (AttributeCount m REQUESTED_TRANSPORT <> 1%nat) then error ERROR_BAD_REQUEST else
  let! transport := DecodeRequestedTransport m in
  match transport with
  | None => error ERROR_BAD_REQUEST
  | Some transport =>
    if negb (transport =? kUdpTransport) then error ERROR_UNSUPPORTED_TRANSPORT_PROTOCOL else
    let! family := requested_family m in
    match family with
    | None => error ERROR_BAD_REQUEST
    | Some family =>
      let public_ip := match family with IPv6 => advertised_ip_v6 options | IPv4 => advertised_ip options end in
      if is_empty public_ip then error ERROR_ADDRESS_FAMILY_NOT_SUPPORTED else
      let lifetime := clamp lifetime kDefaultLifetime kMaxLifetime in
      match allocation s with
      | Some a =>
        if bool_decide (transaction a <> txid m) then error ERROR_ALLOCATION_MISMATCH else
        if bool_decide (request a <> data) then error ERROR_BAD_REQUEST else
        let lifetime := u32 (u64 (u64 (expires a - now) + (MS_PER_SECOND - 1)) / MS_PER_SECOND) in
        let! response := allocate_response client m key a lifetime in
        Ret (response, s, st)
      | None =>
        if (max_allocations options <=? AllocationCount st []) ||
           (max_allocations_per_user options <=? AllocationCount st username)
        then error ERROR_ALLOCATION_QUOTA_REACHED else
        let '(r, st) := OpenRelay env family st in
        match r with
        | None => let! e := Error m ERROR_INSUFFICIENT_CAPACITY key [] in Ret (e, s, st)
        | Some local =>
          let g := u64 (generation st + 1) in
          let a := mkAllocation local (FromIPPort public_ip local) username (txid m) data g
                     (Deadline now (lifetime * MS_PER_SECOND)) ∅ ∅ in
          let st := with_generation st g in
          let! response := allocate_response client m key a lifetime in
          Ret (response, if is_empty response then s else set_allocation s (Some a), st)
        end
      end
    end
  end.

(** The peers of a request, or the error code of the first bad one. *)
Fixpoint peers_loop (m : StunMessageInfo) (a : Allocation) (l : list AttrView) (peers : list SocketAddr)
    : mres (Z + list SocketAddr) :=
  match l with
  | [] => Ret (inr peers)
  | attr :: l =>
    if av_type attr =? MESSAGE_INTEGRITY then Ret (inr peers) else
    if negb (av_type attr =? XOR_PEER_ADDRESS) then peers_loop m a l peers else
    let! '(error, p) := DecodePeer m attr a in
    if negb (error =? 0) then Ret (inl error) else peers_loop m a l (peers ++ [p])
  end.

(** A binding of another channel to the same peer. *)
Definition bound_elsewhere (chans : gmap Z Channel) (ch : Z) (p : SocketAddr) : bool :=
  existsb (fun '(k, c) => negb (k =? ch) && addr_eq (peer c) p) (map_to_list chans).

Definition HandlePeers (m : StunMessageInfo) (key : list Z) (now : Z) (s : Session) (st : Impl)
    : mres (list Z * Session * Impl) :=
  let error code := let! e := Error m code key [] in Ret (e, s, st) in
  match allocation s with
  | None => error ERROR_ALLOCATION_MISMATCH
  | Some a =>
    let! decoded := peers_loop m a (attrs m) [] in
    match decoded with
    | inl code => error code
    | inr [] => error ERROR_BAD_REQUEST
    | inr (front :: rest) =>
      if (method m =? method_value ChannelBind) && bool_decide (length (front :: rest) <> 1%nat) then error ERROR_BAD_REQUEST else
      let perms := fold_left (fun ps p => <[PeerIp p := Deadline now kPermissionMs]> ps) (front :: rest) (permissions a) in
      if Z.of_nat (size perms) >? max_permissions options then error ERROR_INSUFFICIENT_CAPACITY else
      if method m =? method_value ChannelBind then
        if bool_decide (AttributeCount m CHANNEL_NUMBER <> 1%nat) then error ERROR_BAD_REQUEST else
        let! number := DecodeChannelNumber m in
        match number with
        | None => error ERROR_BAD_REQUEST
        | Some ch =>
          if match channels a !! ch with Some c => negb (addr_eq (peer c) front) | None => false end
          then error ERROR_BAD_REQUEST else
          if bound_elsewhere (channels a) ch front then error ERROR_BAD_REQUEST else
          let chans := <[ch := mkChannel front (Deadline now kChannelMs)]> (channels a) in
          if Z.of_nat (size chans) >? max_channels options then error ERROR_INSUFFICIENT_CAPACITY else
          let! response := Success m key [] in
          if is_empty response then Ret ([], s, st) else
          Ret (response, set_allocation s (Some (set_leases a (expires a) perms chans)), st)
        end
      else
        let! response := Success m key [] in
        Ret (response, if is_empty response then s
                       else set_allocation s (Some (set_leases a (expires a) perms (channels a))), st)
    end
  end.

(** [authenticated] gives [username] and [key]. *)
Definition HandleRequest (env : Env) (client : SocketAddr) (m : StunMessageInfo) (username key data : list Z)
    (s : Session) (st : Impl) : mres (list Z * Session * Impl) :=
  let error code unknown := let! e := Error m code key unknown in Ret (e, s, st) in
  if match allocation s with Some a => negb (bool_decide (al_username a = username)) | None => false end
  then error (if method m =? method_value Allocate then ERROR_ALLOCATION_MISMATCH else ERROR_WRONG_CREDENTIALS) [] else
  let unknown := UnknownAttributes m in
  if negb (is_empty unknown) then error ERROR_UNKNOWN_ATTRIBUTE unknown else
  let now := clock_request env in
  if (method m =? method_value Allocate) || (method m =? method_value Refresh) then
    if bool_decide (1 < AttributeCount m LIFETIME)%nat then error ERROR_BAD_REQUEST [] else
    let! lifetime := (if bool_decide (AttributeCount m LIFETIME = 0%nat) then Ret (Some kDefaultLifetime)
                      else DecodeUInt32 m LIFETIME) in
    match lifetime with
    | None => error ERROR_BAD_REQUEST []
    | Some lifetime =>
      if method m =? method_value Refresh then HandleRefresh m key now lifetime s st
      else HandleAllocate env client m username key data now lifetime s st
    end
  else HandlePeers m key now s st.

(** ChannelData from a client. *)
Definition on_channel_data (env : Env) (client : SocketAddr) (cd : TurnChannelDataView) (st : Impl)
    : list Event * Impl :=
  match sessions st !! client with
  | Some (mkSession _ (Some a) _ _) =>
    match channels a !! channel cd with
    | Some binding =>
      if negb (PeerAllowed (peer binding) true) then ([], st) else
      ([ToPeer (relay a) (peer binding) (cd_data cd)],
       if sent env then with_stats st (count_to_peer (stats st)) else st)
    | None => ([], st)
    end
  | _ => ([], st)
  end.

(** A Binding request: address discovery, no session. *)
Definition on_binding (client : SocketAddr) (len : Z) (m : StunMessageInfo) (st : Impl) : mres (list Event * Impl) :=
  if negb (IsBindingRequest m) || (len >? kMaxControlBytes) then Ret ([], st) else
  let unknown := UnknownAttributes m in
  let! response :=
    (if negb (is_empty unknown) then Error m ERROR_UNKNOWN_ATTRIBUTE [] unknown
     else match XorAddressAttribute XOR_MAPPED_ADDRESS (Endpoint client) (txid m) with
          | None => Ret []
          | Some mapped => Success m [] [mapped]
          end) in
  if is_empty response then Ret ([], st) else
  let! events := control_send st client response in Ret (events, st).

(** A Send indication. *)
Definition on_send (env : Env) (client : SocketAddr) (m : StunMessageInfo) (st : Impl) : mres (list Event * Impl) :=
  match sessions st !! client with
  | Some (mkSession _ (Some a) _ _) =>
    if negb (is_empty (UnknownAttributes m)) || bool_decide (AttributeCount m XOR_PEER_ADDRESS <> 1%nat) ||
       bool_decide (AttributeCount m DATA <> 1%nat) then Ret ([], st) else
    match FindAttr m XOR_PEER_ADDRESS with
    | None => Fault
    | Some attr =>
      let! '(error, p) := DecodePeer m attr a in
      if negb (error =? 0) || negb (HasPermission (clock_permission env) a p) then Ret ([], st) else
      let! payload := value_of m DATA in
      Ret ([ToPeer (relay a) p payload], if sent env then with_stats st (count_to_peer (stats st)) else st)
    end
  | _ => Ret ([], st)
  end.

Definition is_turn_method (m : StunMessageInfo) : bool :=
  (method m =? method_value Allocate) || (method m =? method_value Refresh) ||
  (method m =? method_value CreatePermission) || (method m =? method_value ChannelBind).

(** The cached answer to a transaction id. *)
Definition find_cached (tx : list Z) (l : list CachedResponse) : option CachedResponse :=
  List.find (fun c => bool_decide (ca_transaction c = tx)) l.

(** [push_back], then [pop_front] beyond the limit. *)
Definition push_cached (l : list CachedResponse) (c : CachedResponse) : list CachedResponse :=
  let l := l ++ [c] in if Z.of_nat (length l) >? kMaxCachedResponses then tail l else l.

(** [authenticated] decides who answers. *)
Definition answer (env : Env) (client : SocketAddr) (m : StunMessageInfo) (data : list Z) (authenticated : TurnAuthResult)
    (s : Session) (st : Impl) : mres (list Z * Session * Impl) :=
  match status authenticated with
  | Auth_Response => Ret (auth_response authenticated, s, st)
  | Auth_Authorized =>
    HandleRequest env client m (auth_username authenticated) (integrity_key authenticated) data s st
  | _ => Ret ([], s, st)
  end.

Definition is_unauthorized (authenticated : TurnAuthResult) : bool :=
  match status authenticated with
  | Auth_Response => error_code authenticated =? ERROR_UNAUTHORIZED
  | _ => false
  end.

(** [try_emplace], then [last_activity = now]. *)
Definition session_of (st : Impl) (k : SocketAddr) : Session :=
  match sessions st !! k with Some s => s | None => Session_init end.
Definition touch (st : Impl) (k : SocketAddr) (now : Z) : Impl :=
  with_sessions st (<[k := set_activity (session_of st k) now]> (sessions st)).

(** A request: the session is created, the cache consulted, the sender
    authenticated, the request handled, the answer cached and sent. *)
Definition on_request (env : Env) (client : SocketAddr) (data : list Z) (m : StunMessageInfo) (st : Impl)
    : mres (list Event * Impl) :=
  if bool_decide (sessions st !! client = None) && (max_sessions options <=? Z.of_nat (size (sessions st)))
  then Ret ([], st) else
  let now := clock_prune env in
  let s := set_activity (session_of st client) now in
  let st := touch st client now in
  match find_cached (txid m) (cache s) with
  | Some c => if bool_decide (ca_request c = data) then SendResponse env client (ca_response c) (unauthorized c) st
              else Ret ([], st)
  | None =>
    let! '(authenticated, ctx) := Authenticate auth (fresh_nonce env) (clock_auth env) (Some data) (s_auth s) in
    let! '(response, s, st) := answer env client m data authenticated (set_auth s ctx) st in
    if is_empty response then Ret ([], with_sessions st (<[client := s]> (sessions st))) else
    let unauth := is_unauthorized authenticated in
    let s := set_cache s (push_cached (cache s) (mkCached (txid m) data response (Deadline now kCacheMs) unauth)) in
    SendResponse env client response unauth (with_sessions st (<[client := s]> (sessions st)))
  end.

Definition OnControl (env : Env) (client : SocketAddr) (data : cbuf) (st : Impl) : mres (list Event * Impl) :=
  match data with
  | None => Ret ([], st)
  | Some b =>
    if negb (started st) || (blen b =? 0) || (blen b >? MAX_UDP_DATAGRAM_BYTES) || negb (IsValid client)
    then Ret ([], st) else
    let st := Prune (clock_prune env) st in
    let! cd := ParseChannelDataDatagram data in
    match cd with
    | Some cd => Ret (on_channel_data env client cd st)
    | None =>
      let! parsed := ParseStunDatagram data in
      match parsed with
      | None => Ret ([], st)
      | Some m =>
        let! ok := ValidFingerprint m in
        if negb ok then Ret ([], st) else
        if method m =? method_value Binding then on_binding client (blen b) m st else
        if (method m =? method_value Send) && (klass m =? class_value Indication) then on_send env client m st else
        if negb (klass m =? class_value Request) || (blen b >? kMaxControlBytes) || negb (is_turn_method m)
        then Ret ([], st) else on_request env client b m st
      end
    end
  end.

(** The message that carries a peer's datagram to the client, if any. *)
Definition relayed_packet (env : Env) (a : Allocation) (p : SocketAddr) (data : list Z) : mres (option (list Z)) :=
  match List.find (fun '(_, c) => addr_eq (peer c) p) (map_to_list (channels a)) with
  | Some (number, _) => BuildChannelData number data false
  | None =>
    match random_txid env with
    | None => Ret None
    | Some tx =>
      match XorAddressAttribute XOR_PEER_ADDRESS (Endpoint p) tx with
      | None => Ret None
      | Some address =>
        BuildMessage (method_value Data) (class_value Indication) tx [address; mkAttr DATA data] [] false
      end
    end
  end.

Definition OnRelay (env : Env) (client : SocketAddr) (id : Z) (p : SocketAddr) (data : list Z) (st : Impl)
    : mres (list Event * Impl) :=
  if negb (started st) || negb (PeerAllowed p true) then Ret ([], st) else
  let st := Prune (clock_prune env) st in
  match sessions st !! client with
  | Some (mkSession _ (Some a) _ _) =>
    if negb (al_generation a =? id) || negb (HasPermission (clock_permission env) a p) then Ret ([], st) else
    let! packet := relayed_packet env a p data in
    match packet with
    | None => Ret ([], st)
    | Some packet =>
      let! events := control_send st client packet in
      Ret (events, if sent env then with_stats st (count_to_client (stats st)) else st)
    end
  | _ => Ret ([], st)
  end.

Definition RelayConfigValid (bind_ip public_ip : list Z) (v6 : bool) : bool :=
  if is_empty bind_ip && is_empty public_ip then true else
  let bind := FromIPPort bind_ip 0 in
  let advertised := FromIPPort public_ip 0 in
  let family a := if v6 then IsV6 a else IsV4 a in
  IsValid bind && family bind && family advertised && Unicast advertised &&
  (negb v6 || negb (IN6_IS_ADDR_V4MAPPED (IPv6Bytes bind))).

(** The configuration checks of [Start]. *)
Definition config_ok : bool :=
  let listen := FromIPPort (listen_ip options) (listen_port options) in
  IsConfigured auth && IsValid listen &&
  negb (dual_stack options && (negb (IsV6 listen) || negb (IN6_IS_ADDR_UNSPECIFIED (IPv6Bytes listen)))) &&
  RelayConfigValid (relay_bind_ip options) (advertised_ip options) false &&
  RelayConfigValid (relay_bind_ip_v6 options) (advertised_ip_v6 options) true &&
  negb (is_empty (advertised_ip options) && is_empty (advertised_ip_v6 options)) &&
  (if relay_port_min options =? 0 then relay_port_max options =? 0 else relay_port_min options <=? relay_port_max options) &&
  negb (max_sessions options =? 0) && negb (max_allocations options =? 0) && negb (max_allocations_per_user options =? 0) &&
  negb (max_permissions options =? 0) && negb (max_channels options =? 0) && negb (unauthorized_ratelimit_rps options =? 0).

Definition Stop (st : Impl) : Impl :=
  mkImpl ∅ false false (next_port st) (generation st) (stats st) Reset false.

(** [bound]: the control socket could be started; [timed]: the timer could be
    added.  The scheduler is running and the server is shared. *)
Definition Start (bound timed : bool) (st : Impl) : bool * Impl :=
  if started st || negb config_ok then (false, st) else
  let set c t s := mkImpl (sessions st) c t (next_port st) (generation st) (stats st) (unauthorized_limiter st) s in
  if negb bound then (false, set true (timer st) false) else
  if negb timed then (false, Stop (set true false true)) else
  (true, set true true true).

Definition Tick (now : Z) (st : Impl) : Impl := Prune now st.

(** The gauges [GetStats] adds to the counters: sessions, allocations and
    occupied buckets of the limiter. *)
Definition GetStats (now : Z) (st : Impl) : Z * Z * Z :=
  (Z.of_nat (size (sessions st)), AllocationCount st [], OccupiedBuckets now (unauthorized_limiter st)).

(** ** Runs *)

Inductive Op :=
| OpControl (env : Env) (client : SocketAddr) (data : cbuf)
| OpRelay (env : Env) (client : SocketAddr) (id : Z) (p : SocketAddr) (data : list Z)
| OpTick (now : Z)
| OpStart (bound timed : bool)
| OpStop.

Definition step (o : Op) (st : Impl) : mres (list Event * Impl) :=
  match o with
  | OpControl env client data => OnControl env client data st
  | OpRelay env client id p data => OnRelay env client id p data st
  | OpTick now => Ret ([], Tick now st)
  | OpStart bound timed => Ret ([], snd (Start bound timed st))
  | OpStop => Ret ([], Stop st)
  end.

Fixpoint run (ops : list Op) (st : Impl) : mres (list Event * Impl) :=
  match ops with
  | [] => Ret ([], st)
  | o :: ops =>
    let! '(e, st) := step o st in
    let! '(es, st) := run ops st in
    Ret (e ++ es, st)
  end.
End Server.
