(* ===== verification/TurnInvariant.v ===== *)
(** * TURN server: what it promises

    Over TurnServer: an invariant of every reachable state (resource limits,
    well-formed leases, deadlines), who may change an allocation, what is
    relayed, retransmissions and expiry.

    [T] bounds the clock readings of a run. *)
From S2P Require Import Prelude Bytes Stun StunLayout StunProps StunSafety SocketAddr TurnCodec TurnAuth TurnRateLimiter.
From S2P Require Import TurnServer.
Import StunCodec.

(** ** Counting sessions *)

Section Count.
Context {K A : Type} `{Countable K}.
Implicit Types m : gmap K A.

Lemma size_mono m1 m2 : (forall k, is_Some (m1 !! k) -> is_Some (m2 !! k)) -> (size m1 <= size m2)%nat.
Proof.
  intros Hs. rewrite <- !(size_dom (D := gset K)). apply subseteq_size. intros k.
  rewrite !elem_of_dom. apply Hs.
Qed.

Lemma size_filter_mono (P : A -> bool) m1 m2 :
  (forall k x, m1 !! k = Some x -> P x = true -> exists y, m2 !! k = Some y /\ P y = true) ->
  (size (filter (fun '(_, x) => P x = true) m1) <= size (filter (fun '(_, x) => P x = true) m2))%nat.
Proof.
  intros Hm. apply size_mono. intros k [x Hx]. apply map_lookup_filter_Some in Hx as [Hx Px].
  destruct (Hm k x Hx Px) as (y & Hy & Py). exists y. by apply map_lookup_filter_Some.
Qed.

Lemma size_filter_insert (P : A -> bool) m k x :
  (size (filter (fun '(_, x) => P x = true) (<[k := x]> m)) <= S (size (filter (fun '(_, x) => P x = true) m)))%nat.
Proof.
  transitivity (size (<[k := x]> (filter (fun '(_, x) => P x = true) m))).
  - apply size_mono. intros j [y Hy]. apply map_lookup_filter_Some in Hy as [Hy Py].
    destruct (decide (k = j)) as [<-|Hne]; [rewrite lookup_insert_eq; by eexists|].
    rewrite lookup_insert_ne in Hy |- * by done. exists y. by apply map_lookup_filter_Some.
  - rewrite map_size_insert. destruct (_ !! k); simpl; lia.
Qed.

Lemma size_omap (f : A -> option A) m : (size (omap f m) <= size m)%nat.
Proof.
  apply size_mono. intros k [x Hx]. apply lookup_omap_Some in Hx as (y & _ & Hy). by exists y.
Qed.
End Count.

Lemma count_mono st st' u :
  (forall k s', sessions st' !! k = Some s' -> is_allocated u s' = true ->
     exists s, sessions st !! k = Some s /\ is_allocated u s = true) ->
  AllocationCount st' u <= AllocationCount st u.
Proof. intros Hm. unfold AllocationCount. apply inj_le. by apply size_filter_mono. Qed.

Lemma count_insert st k s u :
  AllocationCount (with_sessions st (<[k := s]> (sessions st))) u <= AllocationCount st u + 1.
Proof. unfold AllocationCount. cbn [sessions with_sessions]. pose proof (size_filter_insert (is_allocated u) (sessions st) k s). lia. Qed.

(** ** Deadlines *)

Lemma Deadline_le now d T : now <= T -> Deadline now d <= T + d.
Proof. intros. unfold Deadline. split_if; bool_hyps; lia. Qed.

Lemma clamp_range v lo hi : lo <= hi -> lo <= clamp v lo hi <= hi.
Proof. intros. unfold clamp. repeat split_if; bool_hyps; lia. Qed.

(** ** Peers *)

Section Peers.
Context (options : TurnServerOptions) (b : list Z) (m : StunMessageInfo) (Hw : well_formed b m).

Lemma DecodeXorAddress_one attr t :
  attr ∈ attrs m ->
  exists r, DecodeXorAddress (mkInfo (type_raw m) (length_ m) (magic_cookie m) (txid m) (method m) (klass m) [attr] (raw m) (raw_len m)) t = Ret r /\
    forall d, r = Some d -> is_u16 (xor_port d) /\ length (xor_ip d) = 16%nat.
Proof using Hw.
  intros Hin. destruct (attr_inside b m Hw attr Hin) as (H1 & H2 & H3). pose proof (wf_bytes _ _ Hw) as Hb.
  unfold DecodeXorAddress. split_if; [by eexists|]. unfold bounded_attr, FindAttr. cbn [attrs raw find_attr].
  rewrite (wf_raw _ _ Hw). destruct (av_type attr =? t); [|destruct ((av_type attr =? MESSAGE_INTEGRITY) && negb (t =? FINGERPRINT)); by exists None].
  destruct (IsAttrInBounds _ _); [|by eexists]. split_if; [by eexists|]. bool_hyps.
  rewrite rd_ok by lia. cbn [mbnd]. destruct (read16_returns b (value_offset attr + 2)) as [xp ->]; [done|lia|lia|]. cbn [mbnd].
  split_if; [|split_if; [|by eexists]]; (split_if; [by eexists|]; bool_hyps).
  - destruct (read_bytes_returns b (value_offset attr + 4) 4) as [v Ev]; [lia|lia|lia|]. rewrite Ev. cbn [mbnd].
    eexists. split; [done|]. intros d [= <-]. cbn [xor_port xor_ip]. split; [apply wrap_range; lia|].
    apply read_bytes_len in Ev. unfold blen in Ev. rewrite length_app, length_zip_with. cbn [repeat length].
    change (length cookie_bytes) with 4%nat. lia.
  - destruct (read_bytes_returns b (value_offset attr + 4) 4) as [v Ev]; [lia|lia|lia|]. rewrite Ev.
    destruct (read_bytes_returns b (value_offset attr + 8) 12) as [w Ew]; [lia|lia|lia|]. rewrite Ew. cbn [mbnd].
    eexists. split; [done|]. intros d [= <-]. cbn [xor_port xor_ip]. split; [apply wrap_range; lia|].
    apply read_bytes_len in Ev, Ew. unfold blen in Ev, Ew. rewrite length_app, !length_zip_with. cbn [txid].
    rewrite (wf_txid _ _ Hw). unfold slice. rewrite length_take, length_drop. change (length cookie_bytes) with 4%nat.
    pose proof (wf_len _ _ Hw). unfold blen in *. lia.
Qed.

(** A peer that was decoded without error. *)
Record peer_ok (require_port : bool) (adv p : SocketAddr) : Prop := {
  po_allowed : PeerAllowed options p require_port = true;
  po_family : IsV6 p = IsV6 adv;
  po_addr : addr_ok p
}.

Lemma DecodePeer_spec attr a :
  attr ∈ attrs m ->
  exists e p, DecodePeer options m attr a = Ret (e, p) /\
    (e = 0 -> peer_ok (negb (method m =? method_value CreatePermission)) (advertised a) p).
Proof using Hw.
  intros Hin. unfold DecodePeer. destruct (DecodeXorAddress_one attr XOR_PEER_ADDRESS Hin) as (r & -> & Hr). cbn [mbnd].
  destruct r as [d|]; [|by do 2 eexists]. destruct (Hr d eq_refl) as [Hp Hi].
  case_bool_decide as E; [by do 2 eexists|]. do 2 eexists. split; [done|].
  destruct (PeerAllowed _ _ _) eqn:EA; [intros _|done]. split; [done|by destruct (is_ipv6 d)|].
  destruct (is_ipv6 d); cbn [addr_ok]; (split; [done|]); unfold blen; rewrite length_take; lia.
Qed.

(** *** The peer that an XOR-PEER-ADDRESS names *)

Lemma slice_cons (l : list Z) off n : 0 <= off -> 0 < n -> off + n <= blen l -> slice l off n = bget l off :: slice l (off + 1) (n - 1).
Proof.
  clear. intros H0 Hn Hl. unfold slice, blen, bget in *. rewrite nth_lookup.
  destruct (lookup_lt_is_Some_2 l (Z.to_nat off)) as [x Hx]; [lia|].
  rewrite (drop_S l x) by done. replace (Z.to_nat n) with (S (Z.to_nat (n - 1))) by lia. simpl. rewrite Hx.
  by replace (Z.to_nat (off + 1)) with (S (Z.to_nat off)) by lia.
Qed.

Lemma slice_app (l : list Z) off n k : 0 <= off -> 0 <= n -> 0 <= k -> slice l off (n + k) = slice l off n ++ slice l (off + n) k.
Proof.
  clear. intros H0 Hn Hk. unfold slice. rewrite !Z2Nat.inj_add by lia. rewrite Nat.add_comm, <- drop_drop.
  rewrite (Nat.add_comm (Z.to_nat k)). by rewrite take_take_drop.
Qed.

(** Section 14.2 of RFC 8489: a byte that is ignored, the family, and port and address XORed with the
    magic cookie and the transaction id. *)
Definition xor_value (tx : list Z) (p : SocketAddr) (v : list Z) : Prop :=
  match p with
  | AF_none => False
  | AF_inet port ip => exists r, v = [r; 1] ++ be16 (Z.lxor port 0x2112) ++ zip_with Z.lxor ip [0x21; 0x12; 0xA4; 0x42]
  | AF_inet6 port ip scope =>
    scope = 0 /\ exists r, v = [r; 2] ++ be16 (Z.lxor port 0x2112) ++ zip_with Z.lxor ip ([0x21; 0x12; 0xA4; 0x42] ++ tx)
  end.

Definition names_peer (m : StunMessageInfo) (p : SocketAddr) : Prop :=
  exists v, value_of m XOR_PEER_ADDRESS = Ret v /\ xor_value (txid m) p v.

Lemma xor_port_back xp : is_u16 xp -> be16 (Z.lxor (u16 (Z.lxor xp (u16 (Z.shiftr kMagicCookie 16)))) 0x2112) = be16 xp.
Proof.
  clear. intros Hx. change (u16 (Z.shiftr kMagicCookie 16)) with 0x2112. rewrite wrap_small; [by rewrite lxor_cancel|].
  apply (lxor_range 16); [lia|done|by compute].
Qed.

Lemma be16_pair x y : is_u8 x -> is_u8 y -> be16 (x * 256 + y) = [x; y].
Proof.
  clear. intros Hx Hy. unfold be16. rewrite !byte_of_spec by lia. change (2 ^ 0) with 1.
  f_equal; [|f_equal]; words.
Qed.

Lemma DecodePeer_names attr a p : FindAttr m XOR_PEER_ADDRESS = Some attr -> attr ∈ attrs m ->
  DecodePeer options m attr a = Ret (0, p) -> names_peer m p.
Proof using Hw.
  intros Hf Hin. destruct (attr_inside b m Hw attr Hin) as (H1 & H2 & H3). pose proof (wf_bytes _ _ Hw) as Hb.
  unfold names_peer, value_of. rewrite Hf. unfold AttrValue. rewrite (wf_raw _ _ Hw), Z.gtb_ltb, (proj2 (Z.ltb_ge _ _)) by lia.
  rewrite read_bytes_ok by lia. unfold DecodePeer, DecodeXorAddress. cbn [bool_decide]. 
  rewrite (bool_decide_eq_false_2 (XOR_PEER_ADDRESS <> XOR_PEER_ADDRESS)) by (intros Hn; by apply Hn). rewrite andb_false_r. cbn [andb].
  unfold bounded_attr, FindAttr. cbn [attrs raw find_attr]. rewrite (wf_raw _ _ Hw).
  destruct (find_attr_in _ _ _ Hf) as [_ Ht]. rewrite Ht, Z.eqb_refl. destruct (IsAttrInBounds _ _); [|done]. cbn [mbnd].
  destruct (Z.ltb_spec (av_len attr) 4); [done|]. rewrite rd_ok by lia. cbn [mbnd]. unfold ReadBE16.
  rewrite ReadUint16BE_ok by (done || lia). cbn [mbnd]. set (o := value_offset attr) in *. cbn [txid].
  assert (is_u16 (bget b (o + 2) * 256 + bget b (o + 2 + 1))) as Hp.
  { pose proof (bget_range b (o + 2) Hb). pose proof (bget_range b (o + 2 + 1) Hb). unfold is_u. pow2. lia. }
  assert (forall n, 4 <= n -> o + n <= blen b -> slice b o n =
    [bget b o; bget b (o + 1)] ++ be16 (bget b (o + 2) * 256 + bget b (o + 2 + 1)) ++ slice b (o + 4) (n - 4)) as Hs.
  { intros n Hn Ho. rewrite be16_pair by (by apply bget_u8). rewrite !(slice_cons b) by lia.
    replace (o + 1 + 1) with (o + 2) by lia. replace (o + 2 + 1 + 1) with (o + 4) by lia. by replace (n - 1 - 1 - 1 - 1) with (n - 4) by lia. }
  assert (forall off n, 0 <= off -> 0 <= n -> off + n <= blen b -> length (slice b off n) = Z.to_nat n) as Hl
    by (intros off n ? ? ?; unfold slice, blen in *; rewrite length_take, length_drop; lia).
  destruct (Z.eqb_spec (bget b (o + 1)) 1) as [E1|_]; [|destruct (Z.eqb_spec (bget b (o + 1)) 2) as [E2|_]; [|done]].
  - destruct (Z.eqb_spec (av_len attr) 8) as [El|]; cbn [negb]; [|done]. rewrite read_bytes_ok by lia. cbn [mbnd is_ipv6 xor_port xor_ip].
    case_bool_decide; [done|]. destruct (PeerAllowed _ _ _); [|done]. intros [= <-]. eexists. split; [done|].
    cbn [xor_value]. exists (bget b o). rewrite Hs, E1, El by lia. f_equal. rewrite xor_port_back by done. f_equal.
    assert (length (zip_with Z.lxor (slice b (o + 4) 4) cookie_bytes) = 4%nat) as L
      by (rewrite length_zip_with, Hl by lia; done).
    rewrite (take_app_le _ _ 4) by lia. rewrite take_ge by lia. change [0x21; 0x12; 0xA4; 0x42] with cookie_bytes.
    rewrite zip_lxor_cancel; [done|]. by rewrite Hl by lia.
  - destruct (Z.eqb_spec (av_len attr) 20) as [El|]; cbn [negb]; [|done]. rewrite !read_bytes_ok by lia. cbn [mbnd is_ipv6 xor_port xor_ip].
    case_bool_decide; [done|]. destruct (PeerAllowed _ _ _); [|done]. intros [= <-]. eexists. split; [done|].
    cbn [xor_value]. split; [done|]. exists (bget b o). rewrite Hs, E2, El by lia. f_equal. rewrite xor_port_back by done. f_equal.
    assert (length (txid m) = 12%nat) as Ltx by (rewrite (wf_txid _ _ Hw), Hl; [done|lia|lia|]; destruct (wf_len _ _ Hw); lia).
    assert (length (zip_with Z.lxor (slice b (o + 4) 4) cookie_bytes) = 4%nat) as L by (rewrite length_zip_with, Hl by lia; done).
    assert (length (zip_with Z.lxor (slice b (o + 8) 12) (txid m)) = 12%nat) as L2
      by (rewrite length_zip_with, Ltx, Hl by lia; done).
    rewrite take_ge by (rewrite length_app; lia). change [0x21; 0x12; 0xA4; 0x42] with cookie_bytes.
    rewrite zip_with_app by (by rewrite L). rewrite !zip_lxor_cancel by (rewrite ?Ltx, Hl by lia; done).
    change (20 - 4) with (4 + 12). rewrite slice_app by lia. by replace (o + 4 + 4) with (o + 8) by lia.
Qed.

Lemma peers_loop_spec a l peers :
  (forall x, x ∈ l -> x ∈ attrs m) -> Forall (peer_ok (negb (method m =? method_value CreatePermission)) (advertised a)) peers ->
  exists r, peers_loop options m a l peers = Ret r /\
    forall ps, r = inr ps -> Forall (peer_ok (negb (method m =? method_value CreatePermission)) (advertised a)) ps.
Proof using Hw.
  revert peers. induction l as [|x l IH]; intros peers Hin Hp; cbn [peers_loop].
  - eexists. split; [done|]. by intros ps [= <-].
  - split_if; [eexists; split; [done|]; by intros ps [= <-]|]. split_if; [apply IH; [set_solver|done]|].
    destruct (DecodePeer_spec x a) as (e & p & -> & He); [set_solver|]. cbn [mbnd].
    destruct (Z.eqb_spec e 0) as [E|]; cbn [negb]; [|by eexists].
    apply IH; [set_solver|]. apply Forall_app_2; [done|]. constructor; [by apply He|done].
Qed.
End Peers.

(** ** The invariant *)

Section Invariant.
Context {HS : HmacSha1} {MD : Md5} {IP : InetPton}.
Context (options : TurnServerOptions) (lookup : option (list Z -> option (list Z))).

(** The limits are [size_t], the ports [uint16_t]. *)
Record options_ok : Prop := {
  oo_sessions : 0 <= max_sessions options;
  oo_allocations : 0 <= max_allocations options;
  oo_per_user : 0 <= max_allocations_per_user options;
  oo_permissions : 0 <= max_permissions options;
  oo_channels : 0 <= max_channels options;
  oo_ports : is_u16 (relay_port_min options) /\ is_u16 (relay_port_max options)
}.

(** The next relay port to try is in the configured range, if there is one. *)
Definition port_ok (p : Z) : Prop :=
  (relay_port_min options = 0 -> p = 0) /\
  (relay_port_min options <> 0 -> relay_port_min options <= relay_port_max options ->
   relay_port_min options <= p <= relay_port_max options).

Record alloc_ok (T : Z) (a : Allocation) : Prop := {
  ao_user : al_username a <> [];
  ao_expires : expires a <= T + kMaxLifetime * MS_PER_SECOND;
  ao_permissions : Z.of_nat (size (permissions a)) <= max_permissions options;
  ao_channels : Z.of_nat (size (channels a)) <= max_channels options;
  ao_permission : forall p t, permissions a !! p = Some t ->
    t <= T + kPermissionMs /\ exists q, p = PeerIp q /\ peer_ok options false (advertised a) q;
  ao_channel : forall k c, channels a !! k = Some c ->
    ValidChannel k = true /\ ch_expires c <= T + kChannelMs /\ peer_ok options true (advertised a) (peer c);
  ao_injective : forall k1 k2 c1 c2, channels a !! k1 = Some c1 -> channels a !! k2 = Some c2 -> peer c1 = peer c2 -> k1 = k2
}.

Record session_ok (T : Z) (s : Session) : Prop := {
  so_allocation : forall a, allocation s = Some a -> alloc_ok T a;
  so_cache : Z.of_nat (length (cache s)) <= kMaxCachedResponses;
  so_cached : Forall (fun c => ca_expires c <= T + kCacheMs /\ ca_response c <> []) (cache s);
  so_activity : last_activity s <= T
}.

Record server_ok (T : Z) (st : Impl) : Prop := {
  sv_sessions : Z.of_nat (size (sessions st)) <= max_sessions options;
  sv_allocations : AllocationCount st [] <= max_allocations options;
  sv_per_user : forall u, u <> [] -> AllocationCount st u <= max_allocations_per_user options;
  sv_session : forall k s, sessions st !! k = Some s -> IsValid k = true /\ session_ok T s;
  sv_limiter : length (unauthorized_limiter st) = Z.to_nat kBucketCount;
  sv_control : started st = true -> control st = true;
  sv_config : started st = true -> config_ok options lookup = true;
  sv_stopped : started st = false -> sessions st = ∅;
  sv_port : port_ok (next_port st)
}.

Lemma peer_ok_weaken a p r : peer_ok options r a p -> peer_ok options false a p.
Proof.
  intros [H1 H2 H3]. split; [|done|done]. unfold PeerAllowed in *. cbn [negb orb].
  apply andb_prop in H1 as [H1 ->]. apply andb_prop in H1 as [-> _]. done.
Qed.

(** Dropping leases keeps an allocation well formed. *)
Lemma alloc_ok_shrink T a e p c :
  alloc_ok T a -> e <= T + kMaxLifetime * MS_PER_SECOND -> p ⊆ permissions a -> c ⊆ channels a -> alloc_ok T (set_leases a e p c).
Proof.
  intros [A1 A2 A3 A4 A5 A6 A7] He Hp Hc.
  pose proof (map_subseteq_size _ _ Hp). pose proof (map_subseteq_size _ _ Hc).
  split; cbn [al_username expires permissions channels set_leases]; try done; try lia.
  - intros q t Hq. apply (A5 q t). by eapply lookup_weaken.
  - intros k x Hk. apply (A6 k x). by eapply lookup_weaken.
  - intros k1 k2 c1 c2 H1' H2'. apply A7; by eapply lookup_weaken.
Qed.

Lemma prune_allocation_ok T now a a' : alloc_ok T a -> prune_allocation now a = Some a' -> alloc_ok T a' /\ al_username a' = al_username a.
Proof.
  intros Ha. unfold prune_allocation. split_if; [done|]. intros [= <-]. split; [|done].
  apply alloc_ok_shrink; [done|apply Ha|apply map_filter_subseteq|apply map_filter_subseteq].
Qed.

Lemma pop_expired_suffix now l : pop_expired now l `suffix_of` l.
Proof.
  induction l as [|c l IH]; cbn [pop_expired]; [done|]. split_if; [|done].
  by apply suffix_cons_r.
Qed.

Lemma prune_session_spec now s s' :
  prune_session now s = Some s' ->
  s_auth s' = s_auth s /\ last_activity s' = last_activity s /\ cache s' = pop_expired now (cache s) /\
  allocation s' = match allocation s with Some a => prune_allocation now a | None => None end.
Proof.
  unfold prune_session. cbn [set_cache set_allocation allocation cache last_activity s_auth].
  destruct (match allocation s with Some a => prune_allocation now a | None => None end) as [a|] eqn:E.
  - intros [= <-]. done.
  - split_if; [done|]. intros [= <-]. done.
Qed.

Lemma prune_session_ok T now s s' : session_ok T s -> prune_session now s = Some s' -> session_ok T s'.
Proof.
  intros [S1 S2 S3 S4] E. destruct (prune_session_spec _ _ _ E) as (_ & Hl & Hc & Ha).
  destruct (pop_expired_suffix now (cache s)) as [pre Hpre].
  split; rewrite ?Ha, ?Hc, ?Hl; [|..|done].
  - intros a' Ea. destruct (allocation s) as [a|] eqn:Es; [|done]. by eapply prune_allocation_ok; [apply S1|].
  - rewrite Hpre, length_app in S2. lia.
  - rewrite Hpre in S3. by apply Forall_app in S3 as [_ ?].
Qed.

Lemma prune_allocated now u s s' : prune_session now s = Some s' -> is_allocated u s' = true -> is_allocated u s = true.
Proof.
  intros E. destruct (prune_session_spec _ _ _ E) as (_ & _ & _ & Ha). unfold is_allocated. rewrite Ha.
  destruct (allocation s) as [a|]; [|done]. unfold prune_allocation. by destruct (expires a <=? now).
Qed.

Lemma Prune_ok T now st : server_ok T st -> server_ok T (Prune now st).
Proof.
  intros [V1 V2 V3 V4 V5 V6 V7 V8 V9]. unfold Prune.
  assert (forall u, AllocationCount (with_sessions st (omap (prune_session now) (sessions st))) u <= AllocationCount st u) as HC.
  { intros u. apply count_mono. cbn [sessions with_sessions]. intros k s' Hk Hu.
    apply lookup_omap_Some in Hk as (s & Hs & Hk). exists s. split; [done|]. by eapply prune_allocated. }
  split; cbn [sessions with_sessions control started unauthorized_limiter]; try done.
  - pose proof (size_omap (prune_session now) (sessions st)). lia.
  - pose proof (HC []). lia.
  - intros u Hu. pose proof (HC u). specialize (V3 u Hu). lia.
  - intros k s' Hk. apply lookup_omap_Some in Hk as (s & Hs & Hk). destruct (V4 k s Hk) as [? ?]. split; [done|].
    by eapply prune_session_ok.
  - intros Hs. rewrite (V8 Hs). apply omap_empty.
Qed.

(** ** Who may change the leases of a session *)

Inductive lease_step (username : list Z) (st : Impl) : option Allocation -> option Allocation -> Prop :=
| ls_same o : lease_step username st o o
| ls_release a : al_username a = username -> lease_step username st (Some a) None
| ls_update a e p c : al_username a = username -> lease_step username st (Some a) (Some (set_leases a e p c))
| ls_new a : al_username a = username -> AllocationCount st [] < max_allocations options ->
    AllocationCount st username < max_allocations_per_user options -> lease_step username st None (Some a).

(** What handling a request may do. *)
Definition handled (T : Z) (username : list Z) (s : Session) (st : Impl) (r : list Z * Session * Impl) : Prop :=
  let '(_, s', st') := r in
  s' = set_allocation s (allocation s') /\ (exists np g, st' = with_generation (with_next_port st np) g /\ (port_ok (next_port st) -> port_ok np)) /\
  lease_step username st (allocation s) (allocation s') /\ (forall a, allocation s' = Some a -> alloc_ok T a).

Lemma set_allocation_same s : set_allocation s (allocation s) = s.
Proof. by destruct s. Qed.

Lemma Success_returns m key l : returns (Success m key l).
Proof. unfold Success. destruct (BuildMessage_returns (method m) (class_value SuccessResponse) (txid m) l key true) as [r ->]. by eexists. Qed.

Lemma Error_returns m code key l : returns (Error m code key l).
Proof.
  unfold Error. edestruct BuildMessage_returns as [r ->]. by eexists.
Qed.

Lemma handled_same T username s st e np g :
  (forall a, allocation s = Some a -> alloc_ok T a) -> (port_ok (next_port st) -> port_ok np) ->
  handled T username s st (e, s, with_generation (with_next_port st np) g).
Proof. intros Ha Hnp. split; [by rewrite set_allocation_same|]. split; [by do 2 eexists|]. split; [constructor|done]. Qed.

Lemma with_nothing st : with_generation (with_next_port st (next_port st)) (generation st) = st.
Proof. by destruct st. Qed.

Lemma same_counters st :
  exists np g, st = with_generation (with_next_port st np) g /\ (port_ok (next_port st) -> port_ok np).
Proof. exists (next_port st), (generation st). by rewrite with_nothing. Qed.

Lemma handled_unchanged T username s st e :
  (forall a, allocation s = Some a -> alloc_ok T a) -> handled T username s st (e, s, st).
Proof. intros Ha. rewrite <- (with_nothing st) at 2. by apply handled_same. Qed.

(** The loop of [OpenRelay] goes round the range. *)
Lemma open_loop_port env ip k next : options_ok -> port_ok next -> port_ok (snd (open_loop options env ip k next)).
Proof.
  intros Ho. revert next. induction k as [|k IH]; intros next Hp; cbn [open_loop]; [done|].
  set (next' := if negb _ then _ else _). assert (port_ok next') as Hp'.
  { destruct Hp as [H0 Hp]. split; [intros E; unfold next'; rewrite E; by apply H0|].
    intros H1 H2. specialize (Hp H1 H2). unfold next'. rewrite (proj2 (Z.eqb_neq _ _) H1). cbn [negb].
    destruct (oo_ports Ho) as [P1 P2]. destruct (Z.eqb_spec next (relay_port_max options)); [lia|].
    rewrite (wrap_small 32) by words. lia. }
  destruct (relay_start env ip (u16 next)); [done|]. by apply IH.
Qed.

Lemma refused_ok T username s st m code key l :
  (forall a, allocation s = Some a -> alloc_ok T a) ->
  exists r, (let! e := Error m code key l in Ret (e, s, st)) = Ret r /\ handled T username s st r.
Proof.
  intros Ha. destruct (Error_returns m code key l) as [e ->]. eexists. split; [done|].
  by apply handled_unchanged.
Qed.

Lemma UInt32Attribute_returns t v : returns (UInt32Attribute t v).
Proof.
  unfold UInt32Attribute. change (repeat 0 4) with [0; 0; 0; 0].
  rewrite (WriteUint32BE_at [] 0 0 0 0 [] [0; 0; 0; 0] 0 v) by done. by eexists.
Qed.

Section Handlers.
Context (T : Z) (b : list Z) (m : StunMessageInfo) (Hw : well_formed b m).
Context (username key : list Z) (s : Session) (st : Impl).
Context (Hs : forall a, allocation s = Some a -> alloc_ok T a).
Context (Hu : forall a, allocation s = Some a -> al_username a = username).

Lemma HandleRefresh_ok now lifetime :
  now <= T -> exists r, HandleRefresh m key now lifetime s st = Ret r /\ handled T username s st r.
Proof using Hs Hu.
  intros Hn. unfold HandleRefresh. destruct (allocation s) as [a|] eqn:Ea; [|by apply refused_ok; rewrite Ea].
  set (lt := if negb _ then _ else _).
  assert (lt = 0 \/ kDefaultLifetime <= lt <= kMaxLifetime) as Hlt.
  { unfold lt. destruct (Z.eqb_spec lifetime 0); [by left|]. right. by apply clamp_range. }
  destruct (UInt32Attribute_returns LIFETIME lt) as [attr ->]. cbn [mbnd].
  destruct (Success_returns m key [attr]) as [resp ->]. cbn [mbnd]. split_if.
  - eexists. split; [done|]. apply handled_unchanged. by rewrite Ea.
  - eexists. split; [done|]. split; [done|]. split; [apply same_counters|].
    cbn [set_allocation allocation]. rewrite Ea. destruct (Z.eqb_spec lt 0).
    + split; [by constructor; apply Hu|done].
    + split; [by constructor; apply Hu|]. intros ? [= <-]. apply alloc_ok_shrink; [by apply Hs| |done|done].
      destruct Hlt; [done|]. transitivity (T + lt * MS_PER_SECOND); [by apply Deadline_le|]. unfold MS_PER_SECOND. lia.
Qed.

Lemma allocate_response_returns client a lifetime : returns (allocate_response client m key a lifetime).
Proof.
  unfold allocate_response. do 2 (destruct (XorAddressAttribute _ _ _); [|apply returns_ret]).
  destruct (UInt32Attribute_returns LIFETIME lifetime) as [attr ->]. cbn [mbnd]. apply Success_returns.
Qed.

Lemma requested_family_returns : returns (requested_family m).
Proof using Hw.
  unfold requested_family. split_if; [apply returns_ret|].
  destruct (FindAttr m REQUESTED_ADDRESS_FAMILY) as [f|] eqn:Ef; [|apply returns_ret].
  destruct (find_attr_in _ _ _ Ef) as [Hin _]. destruct (attr_inside b m Hw f Hin) as (? & ? & ?).
  split_if; [apply returns_ret|]. bool_hyps. unfold raw_bytes. rewrite (wf_raw _ _ Hw), rd_ok by lia. cbn [mbnd].
  split_if; apply returns_ret.
Qed.

Lemma fresh_allocation_ok local adv data g now lifetime :
  options_ok -> username <> [] -> now <= T ->
  alloc_ok T (mkAllocation local adv username (txid m) data g
    (Deadline now (clamp lifetime kDefaultLifetime kMaxLifetime * MS_PER_SECOND)) ∅ ∅).
Proof.
  intros [] Hne Hn. split; cbn [al_username expires permissions channels]; rewrite ?map_size_empty; try done.
  etransitivity; [by apply Deadline_le|]. pose proof (clamp_range lifetime kDefaultLifetime kMaxLifetime).
  unfold kDefaultLifetime, kMaxLifetime, MS_PER_SECOND in *. lia.
Qed.

Lemma HandleAllocate_ok env client data now lifetime :
  options_ok -> username <> [] -> now <= T ->
  exists r, HandleAllocate options env client m username key data now lifetime s st = Ret r /\ handled T username s st r.
Proof using Hs Hu Hw.
  intros Ho Hne Hn. unfold HandleAllocate.
  assert (forall code, exists r, (let! e := Error m code key [] in Ret (e, s, st)) = Ret r /\ handled T username s st r) as HE.
  { intros code. by apply refused_ok. }
  split_if; [apply HE|]. destruct (DecodeRequestedTransport_safe b m Hw) as [tr ->]. cbn [mbnd].
  destruct tr as [tr|]; [|apply HE]. split_if; [apply HE|].
  destruct requested_family_returns as [fam ->]. cbn [mbnd]. destruct fam as [fam|]; [|apply HE].
  cbv zeta. split_if; [apply HE|]. destruct (allocation s) as [a|] eqn:Ea.
  - split_if; [apply HE|]. split_if; [apply HE|]. edestruct allocate_response_returns as [resp ->]. cbn [mbnd].
    eexists. split; [done|]. apply handled_unchanged. by rewrite Ea.
  - split_if; [apply HE|]. bool_hyps. destruct (OpenRelay _ _ _ _) as [r st'] eqn:EO.
    assert (exists np, st' = with_next_port st np /\ (port_ok (next_port st) -> port_ok np)) as (np & -> & Hnp).
    { unfold OpenRelay in EO. match type of EO with context [open_loop options env ?ip ?k ?n] =>
        pose proof (open_loop_port env ip k n Ho) as HL; destruct (open_loop options env ip k n) as [? np] end.
      injection EO as _ <-. by exists np. }
    destruct r as [local|].
    + edestruct allocate_response_returns as [resp ->]. cbn [mbnd]. eexists. split; [done|].
      destruct (is_empty resp); [apply handled_same; [by rewrite Ea|done]|].
      split; [done|]. split; [by do 2 eexists|]. cbn [set_allocation allocation]. rewrite Ea.
      split; [by constructor|]. intros ? [= <-]. by apply fresh_allocation_ok.
    + destruct (Error_returns m ERROR_INSUFFICIENT_CAPACITY key []) as [e ->]. cbn [mbnd]. eexists. split; [done|].
      assert (with_next_port st np = with_generation (with_next_port st np) (generation st)) as -> by (by destruct st).
      apply handled_same; [by rewrite Ea|done].
Qed.

Lemma fold_permissions_ok a now ps (perms : gmap SocketAddr Z) :
  now <= T -> Forall (peer_ok options false (advertised a)) ps ->
  (forall p t, perms !! p = Some t -> t <= T + kPermissionMs /\ exists q, p = PeerIp q /\ peer_ok options false (advertised a) q) ->
  forall p t, fold_left (fun ps p => <[PeerIp p := Deadline now kPermissionMs]> ps) ps perms !! p = Some t ->
    t <= T + kPermissionMs /\ exists q, p = PeerIp q /\ peer_ok options false (advertised a) q.
Proof.
  intros Hn Hps. revert perms. induction Hps as [|q ps Hq Hps IH]; intros perms Hp; cbn [fold_left]; [done|].
  apply IH. intros p t. destruct (decide (PeerIp q = p)) as [<-|Hne].
  - rewrite lookup_insert_eq. intros [= <-]. split; [by apply Deadline_le|eauto].
  - rewrite lookup_insert_ne by done. apply Hp.
Qed.

Lemma bound_elsewhere_false chans ch p k c :
  bound_elsewhere chans ch p = false -> chans !! k = Some c -> peer c = p -> is_inet p = true -> k = ch.
Proof.
  intros Hb Hk Hp Hi. destruct (Z.eq_dec k ch) as [|Hne]; [done|]. exfalso.
  unfold bound_elsewhere in Hb. assert (existsb (fun '(k, c) => negb (k =? ch) && addr_eq (peer c) p) (map_to_list chans) = true) as E.
  { apply existsb_exists. exists (k, c). split; [by apply list_elem_of_In, elem_of_map_to_list|].
    rewrite (proj2 (Z.eqb_neq _ _) Hne), Hp. by apply addr_eq_refl. }
  congruence.
Qed.

Lemma addr_ok_inet p : addr_ok p -> is_inet p = true.
Proof. by destruct p. Qed.

(** A new binding keeps the leases well formed. *)
Lemma bind_channel_ok a now front (perms : gmap SocketAddr Z) ch :
  alloc_ok T a -> now <= T -> peer_ok options true (advertised a) front ->
  (forall p t, perms !! p = Some t -> t <= T + kPermissionMs /\ exists q, p = PeerIp q /\ peer_ok options false (advertised a) q) ->
  Z.of_nat (size perms) <= max_permissions options -> ValidChannel ch = true ->
  bound_elsewhere (channels a) ch front = false ->
  Z.of_nat (size (<[ch := mkChannel front (Deadline now kChannelMs)]> (channels a))) <= max_channels options ->
  alloc_ok T (set_leases a (expires a) perms (<[ch := mkChannel front (Deadline now kChannelMs)]> (channels a))).
Proof.
  intros [A1 A2 A3 A4 A5 A6 A7] Hn Hf Hp Hsz Hv Hb Hc.
  split; cbn [al_username expires permissions channels set_leases advertised]; try done.
  - intros k c. destruct (decide (ch = k)) as [<-|Hne].
    + rewrite lookup_insert_eq. intros [= <-]. cbn [ch_expires peer]. split; [done|]. split; [by apply Deadline_le|done].
    + rewrite lookup_insert_ne by done. apply A6.
  - pose proof (addr_ok_inet _ (po_addr _ _ _ _ Hf)) as Hi.
    intros k1 k2 c1 c2. destruct (decide (ch = k1)) as [<-|N1], (decide (ch = k2)) as [<-|N2]; [done|..].
    + rewrite lookup_insert_eq, lookup_insert_ne by done. intros [= <-] E2 Ep. symmetry.
      by eapply bound_elsewhere_false.
    + rewrite lookup_insert_eq, lookup_insert_ne by done. intros E1 [= <-] Ep. by eapply bound_elsewhere_false.
    + rewrite !lookup_insert_ne by done. apply A7.
Qed.

Lemma HandlePeers_ok now :
  now <= T -> exists r, HandlePeers options m key now s st = Ret r /\ handled T username s st r.
Proof using Hs Hu Hw.
  intros Hn. unfold HandlePeers.
  assert (forall code, exists r, (let! e := Error m code key [] in Ret (e, s, st)) = Ret r /\ handled T username s st r) as HE.
  { intros code. by apply refused_ok. }
  destruct (allocation s) as [a|] eqn:Ea; [|apply HE]. pose proof (Hs a eq_refl) as Ha.
  destruct (peers_loop_spec options b m Hw a (attrs m) []) as (r & -> & Hr); [done|constructor|]. cbn [mbnd].
  destruct r as [code|[|front rest]]; [apply HE|apply HE|]. specialize (Hr _ eq_refl).
  split_if; [apply HE|]. cbv zeta. set (perms := fold_left _ _ _).
  assert (forall p t, perms !! p = Some t -> t <= T + kPermissionMs /\ exists q, p = PeerIp q /\ peer_ok options false (advertised a) q) as Hp.
  { apply fold_permissions_ok; [done| |apply Ha]. eapply Forall_impl; [exact Hr|]. intros p. apply peer_ok_weaken. }
  split_if; [apply HE|]. bool_hyps.
  assert (forall resp a', al_username a = username -> alloc_ok T a' -> (exists e p c, a' = set_leases a e p c) ->
    handled T username s st (resp, set_allocation s (Some a'), st)) as HH.
  { intros resp a' E1 E2 (e & p & c & ->). split; [done|]. split; [apply same_counters|].
    cbn [allocation set_allocation]. rewrite Ea. split; [by constructor|]. by intros ? [= <-]. }
  assert (forall resp, handled T username s st (resp, s, st)) as HN.
  { intros resp. apply handled_unchanged. by rewrite Ea. }
  destruct (Success_returns m key []) as [resp ->]. split_if.
  - split_if; [apply HE|]. destruct (DecodeChannelNumber_safe b m Hw) as (num & -> & Hnum). cbn [mbnd].
    destruct num as [ch|]; [|apply HE]. split_if; [apply HE|]. split_if; [apply HE|]. split_if; [apply HE|]. bool_hyps.
    destruct (is_empty resp); [by eexists|]. eexists. split; [done|]. apply HH; [by apply Hu|..|by do 3 eexists].
    apply bind_channel_ok; try done; [|by apply Hnum]. apply Forall_inv in Hr.
    assert (method m =? method_value CreatePermission = false) as E by (apply Z.eqb_neq; intros Em; by rewrite Em in *).
    by rewrite E in Hr.
  - cbn [mbnd]. eexists. split; [done|]. destruct (is_empty resp); [apply HN|].
    apply HH; [by apply Hu|..|by do 3 eexists]. destruct Ha. split; try done.
Qed.

Lemma DecodeLifetime_returns :
  returns (if bool_decide (AttributeCount m LIFETIME = 0%nat) then Ret (Some kDefaultLifetime) else DecodeUInt32 m LIFETIME).
Proof using Hw. split_if; [apply returns_ret|by apply (DecodeUInt32_safe b)]. Qed.
End Handlers.

Lemma HandleRequest_ok T b m env client username key data s st :
  well_formed b m -> options_ok -> username <> [] -> clock_request env <= T ->
  (forall a, allocation s = Some a -> alloc_ok T a) ->
  exists r, HandleRequest options env client m username key data s st = Ret r /\ handled T username s st r.
Proof.
  intros Hw Ho Hne Hc Hs. unfold HandleRequest.
  destruct (match allocation s with Some a => negb (bool_decide (al_username a = username)) | None => false end) eqn:Eu;
    [by apply refused_ok|].
  assert (forall a, allocation s = Some a -> al_username a = username) as Hu.
  { intros a Ea. rewrite Ea in Eu. by apply negb_false_iff, bool_decide_eq_true in Eu. }
  cbv zeta. split_if; [by apply refused_ok|]. split_if; [|by eapply HandlePeers_ok].
  split_if; [by apply refused_ok|]. destruct (DecodeLifetime_returns b m Hw) as [lt ->]. cbn [mbnd].
  destruct lt as [lt|]; [|by apply refused_ok]. split_if; [by eapply HandleRefresh_ok|by eapply HandleAllocate_ok].
Qed.

(** ** Sessions *)

(** The invariant sees the sessions, the sockets and the size of the table. *)
Lemma server_ok_ext T st st' :
  server_ok T st -> sessions st' = sessions st -> control st' = control st -> started st' = started st ->
  length (unauthorized_limiter st') = length (unauthorized_limiter st) ->
  (port_ok (next_port st) -> port_ok (next_port st')) -> server_ok T st'.
Proof.
  intros [V1 V2 V3 V4 V5 V6 V7 V8 V9] E1 E2 E3 E4 E5. unfold AllocationCount in *.
  split; unfold AllocationCount; rewrite ?E1, ?E2, ?E3, ?E4; auto.
Qed.

Lemma lease_step_count u v st k s s' :
  u <> [] -> sessions st !! k = Some s -> lease_step u st (allocation s) (allocation s') ->
  AllocationCount (with_sessions st (<[k := s']> (sessions st))) v <= AllocationCount st v \/
  ((v = [] \/ v = u) /\ AllocationCount st [] < max_allocations options /\ AllocationCount st u < max_allocations_per_user options).
Proof.
  intros Hu Hk Hl.
  assert ((is_allocated v s' = true -> is_allocated v s = true) \/
    ((v = [] \/ v = u) /\ AllocationCount st [] < max_allocations options /\ AllocationCount st u < max_allocations_per_user options))
    as [Hv|Hv]; [|left|by right].
  { unfold is_allocated. inversion Hl as [o E1 E2|a Ha E1 E2|a e p c Ha E1 E2|a Ha Q1 Q2 E1 E2]; [by left|by left|by left|].
    destruct v as [|v0 v]; [by right; eauto|]. case_bool_decide as Ev; [right|by left]. split; [right; congruence|done]. }
  apply count_mono. cbn [sessions with_sessions]. intros j x. destruct (decide (k = j)) as [<-|Hne].
  - rewrite lookup_insert_eq. intros [= <-] Hx. exists s. auto.
  - rewrite lookup_insert_ne by done. eauto.
Qed.

Lemma update_session_ok T st k s s' u :
  server_ok T st -> u <> [] -> sessions st !! k = Some s -> session_ok T s' ->
  lease_step u st (allocation s) (allocation s') -> server_ok T (with_sessions st (<[k := s']> (sessions st))).
Proof.
  intros [V1 V2 V3 V4 V5 V6 V7 V8 V9] Hu Hk Hs' Hl.
  pose proof (fun v => lease_step_count u v st k s s' Hu Hk Hl) as HC. pose proof (fun v => count_insert st k s' v) as HI.
  split; cbn [sessions with_sessions control started unauthorized_limiter]; try done.
  - rewrite map_size_insert_Some; [done|by eexists].
  - destruct (HC []) as [?|(_ & ? & _)]; [lia|]. specialize (HI []). lia.
  - intros v Hv. specialize (V3 v Hv). destruct (HC v) as [?|([?| ->] & _ & ?)]; [lia|done|]. specialize (HI u). lia.
  - intros j x. destruct (decide (k = j)) as [<-|Hne].
    + rewrite lookup_insert_eq. intros [= <-]. split; [by apply (V4 k s)|done].
    + rewrite lookup_insert_ne by done. apply V4.
  - intros Hst. rewrite (V8 Hst) in Hk. done.
Qed.

(** A session is entered, or an old one marked active. *)
Lemma touch_session_ok T st k now :
  server_ok T st -> started st = true -> IsValid k = true -> now <= T ->
  (sessions st !! k = None -> Z.of_nat (size (sessions st)) < max_sessions options) ->
  session_ok T (set_activity (session_of st k) now) /\ server_ok T (touch st k now).
Proof.
  intros Hok Hst Hk Hn Hroom. unfold touch, session_of. destruct (sessions st !! k) as [s|] eqn:Es.
  - assert (session_ok T (set_activity s now)) as Hs by (destruct (sv_session _ _ Hok _ _ Es) as [_ Hso]; destruct Hso; by split).
    split; [done|]. apply (update_session_ok T st k s _ [0]); [done|done|done|done|]. cbn. constructor.
  - assert (session_ok T (set_activity Session_init now)) as Hs by (by split; cbn; [|compute|constructor|]).
    split; [done|]. destruct Hok as [V1 V2 V3 V4 V5 V6 V7 V8 V9].
    assert (forall u, AllocationCount (with_sessions st (<[k := set_activity Session_init now]> (sessions st))) u <= AllocationCount st u) as HC.
    { intros u. apply count_mono. cbn [sessions with_sessions]. intros j x. destruct (decide (k = j)) as [<-|Hne].
      - rewrite lookup_insert_eq. by intros [= <-].
      - rewrite lookup_insert_ne by done. eauto. }
    split; cbn [sessions with_sessions control started unauthorized_limiter]; try done.
    + rewrite map_size_insert_None by done. specialize (Hroom eq_refl). lia.
    + specialize (HC []). lia.
    + intros u Hu. specialize (HC u). specialize (V3 u Hu). lia.
    + intros j x. destruct (decide (k = j)) as [<-|Hne].
      * rewrite lookup_insert_eq. by intros [= <-].
      * rewrite lookup_insert_ne by done. apply V4.
    + by rewrite Hst.
Qed.

(** Apart from the sessions, only counters and the table change. *)
Record sent_state (st st' : Impl) : Prop := {
  ss_sessions : sessions st' = sessions st;
  ss_control : control st' = control st;
  ss_started : started st' = started st;
  ss_limiter : length (unauthorized_limiter st') = length (unauthorized_limiter st);
  ss_port : next_port st' = next_port st
}.

Lemma sent_state_ok T st st' : server_ok T st -> sent_state st st' -> server_ok T st'.
Proof. intros Hok [E1 E2 E3 E4 E5]. eapply server_ok_ext; [done..|]. by rewrite E5. Qed.

Lemma sent_state_refl st : sent_state st st.
Proof. by split. Qed.

Lemma Consume_length src now max l : length (snd (Consume src now max l)) = length l.
Proof.
  unfold Consume. split_if; [done|]. destruct (l !! _) as [x|]; [|done].
  destruct (consume_bucket _ _ _ _). cbn [snd]. apply length_insert.
Qed.

Lemma SendResponse_spec env client resp un st :
  control st = true ->
  exists ev st', SendResponse options env client resp un st = Ret (ev, st') /\ sent_state st st' /\
    (ev = [] \/ ev = [ToClient client resp]) /\ (un && unauthorized_ratelimit options = false -> ev = [ToClient client resp]).
Proof.
  intros Hc. unfold SendResponse. destruct un; cbn [andb].
  - destruct (unauthorized_ratelimit options).
    + pose proof (Consume_length client (clock_limit env) (unauthorized_ratelimit_rps options) (unauthorized_limiter st)) as HL.
      cbn [unauthorized_limiter with_stats]. destruct (Consume _ _ _ _) as [d l] eqn:Ec. cbn [snd] in HL.
      destruct (suppressed d); [by do 2 eexists; split; [done|]; split; [by split|]; split; [by left|]|].
      unfold control_send. cbn [control with_limiter with_stats]. rewrite Hc. cbn [mbnd].
      do 2 eexists. split; [done|]. split; [by destruct (sent env)|]. split; [by right|done].
    + unfold control_send. cbn [control with_stats]. rewrite Hc. cbn [mbnd].
      do 2 eexists. split; [done|]. split; [by destruct (sent env)|]. split; [by right|done].
  - unfold control_send. rewrite Hc. cbn [mbnd]. rewrite andb_false_r. do 2 eexists. split; [done|]. split; [by split|]. split; [by right|done].
Qed.

Lemma push_cached_ok T l c :
  Z.of_nat (length l) <= kMaxCachedResponses -> Forall (fun c => ca_expires c <= T + kCacheMs /\ ca_response c <> []) (l ++ [c]) ->
  Z.of_nat (length (push_cached l c)) <= kMaxCachedResponses /\
  Forall (fun c => ca_expires c <= T + kCacheMs /\ ca_response c <> []) (push_cached l c).
Proof.
  intros Hl Hf. unfold push_cached. rewrite Z.gtb_ltb. destruct (Z.ltb_spec kMaxCachedResponses (Z.of_nat (length (l ++ [c])))) as [|Hs]; [|done].
  rewrite length_app in *. cbn [length] in *. destruct l as [|x l]; [by compute in *|]. cbn [app tail length] in *.
  split; [rewrite length_app; cbn [length]; lia|by inversion Hf].
Qed.

(** What a request does to the session of its sender. *)
Inductive request_effect (env : Env) (data : list Z) (client : SocketAddr) (st st' : Impl) : Prop :=
| re_none : sessions st' = sessions st -> request_effect env data client st st'
| re_session s s' :
    s = session_of st client ->
    sessions st' = <[client := s']> (sessions st) ->
    (allocation s' = allocation s \/
     exists r, Authenticate (auth options lookup) (fresh_nonce env) (clock_auth env) (Some data) (s_auth s) = Ret (r, s_auth s) /\
       status r = Auth_Authorized /\ s_auth s' = s_auth s /\ lease_step (auth_username r) st (allocation s) (allocation s')) ->
    request_effect env data client st st'.

Definition env_ok (T : Z) (env : Env) : Prop :=
  clock_prune env <= T /\ clock_auth env <= T /\ clock_request env <= T /\ clock_permission env <= T /\ clock_limit env <= T.

(** The effect of finding an answer on the session [s] of the state [st]. *)
Record answered (T : Z) (s : Session) (st : Impl) (r : TurnAuthResult) (ctx : TurnAuthContext) (s' : Session) (st' : Impl) : Prop := {
  an_step : exists u, u <> [] /\ lease_step u st (allocation s) (allocation s');
  an_alloc : forall a, allocation s' = Some a -> alloc_ok T a;
  an_cache : cache s' = cache s;
  an_activity : last_activity s' = last_activity s;
  an_state : exists np g, st' = with_generation (with_next_port st np) g /\ (port_ok (next_port st) -> port_ok np);
  an_owner : allocation s' = allocation s \/
    (status r = Auth_Authorized /\ ctx = s_auth s /\ s_auth s' = s_auth s /\
     lease_step (auth_username r) st (allocation s) (allocation s'))
}.

Lemma answered_same T s st r ctx :
  (forall a, allocation s = Some a -> alloc_ok T a) -> answered T s st r ctx (set_auth s ctx) st.
Proof.
  intros Hs. split; try done; [exists [0]; split; [done|constructor]|apply same_counters|by left].
Qed.

Lemma answer_spec T env client b m data s st :
  options_ok -> well_formed b m -> env_ok T env -> bytes_ok data -> (forall a, allocation s = Some a -> alloc_ok T a) ->
  exists r ctx resp s' st',
    Authenticate (auth options lookup) (fresh_nonce env) (clock_auth env) (Some data) (s_auth s) = Ret (r, ctx) /\
    answer options env client m data r (set_auth s ctx) st = Ret (resp, s', st') /\ answered T s st r ctx s' st'.
Proof.
  intros Ho Hw He Hb Hs. destruct (Authenticate_spec (auth options lookup) (fresh_nonce env) (clock_auth env) (Some data) (s_auth s))
    as ([r ctx] & HA & Hr); [by intros ? [= <-]|]. cbn [fst snd] in Hr. exists r, ctx. unfold answer.
  pose proof (answered_same T s st r ctx Hs) as HN. destruct (status r) eqn:Es; [by do 3 eexists| |by do 3 eexists|by do 3 eexists].
  destruct Hr as [(_ & -> & HZ)|(Hno & _)]; [|exfalso; by apply Hno].
  assert (auth_username r <> []) as Hne by (pose proof (az_name _ _ _ _ _ HZ) as Hv; by destruct (auth_username r)).
  destruct (HandleRequest_ok T b m env client (auth_username r) (integrity_key r) data (set_auth s (s_auth s)) st Hw Ho Hne)
    as ([[resp s'] st'] & HH & E1 & E2 & E3 & E4); [apply He|done|].
  exists resp, s', st'. split; [done|]. split; [done|]. split; try done; [by eauto|by rewrite E1|by rewrite E1|].
  right. split; [done|]. split; [done|]. split; [by rewrite E1|done].
Qed.

Lemma lease_step_st u st st' o o' :
  (forall v, AllocationCount st' v = AllocationCount st v) -> lease_step u st o o' -> lease_step u st' o o'.
Proof. intros HC []; constructor; rewrite ?HC; done. Qed.

(** Marking a session active does not change the counts. *)
Lemma touch_count st k now v : AllocationCount (touch st k now) v = AllocationCount st v.
Proof.
  apply Z.le_antisymm; apply count_mono; unfold touch, session_of; cbn [sessions with_sessions]; intros j x;
    destruct (decide (k = j)) as [<-|Hne]; rewrite ?lookup_insert_eq, ?lookup_insert_ne by done; eauto.
  - destruct (sessions st !! k) as [s|]; [|by intros [= <-]]. intros [= <-] Hx. by exists s.
  - intros E Hx. rewrite E. by eexists.
Qed.

(** The answer is stored with the session. *)
Lemma store_ok T st s st' s' k r ctx l :
  server_ok T st -> sessions st !! k = Some s -> session_ok T s -> answered T s st r ctx s' st' ->
  Z.of_nat (length l) <= kMaxCachedResponses -> Forall (fun c => ca_expires c <= T + kCacheMs /\ ca_response c <> []) l ->
  server_ok T (with_sessions st' (<[k := set_cache s' l]> (sessions st'))) /\ control st' = control st /\ started st' = started st /\
  sessions st' = sessions st.
Proof.
  intros Hok Hk Hs [(u & Hu & Hl) A2 A3 A4 (np & g & -> & Hnp) A6] H1 H2. split; [|done].
  apply (server_ok_ext T (with_sessions st (<[k := set_cache s' l]> (sessions st)))); [|done..].
  apply (update_session_ok T st k s (set_cache s' l) u); [done|done|done| |done].
  split; cbn [set_cache allocation cache last_activity]; try done. rewrite A4. apply Hs.
Qed.

Lemma answered_effect T env client b st s' st' st2 r ctx l now :
  let s := set_activity (session_of st client) now in
  Authenticate (auth options lookup) (fresh_nonce env) (clock_auth env) (Some b) (s_auth s) = Ret (r, ctx) ->
  answered T s (touch st client now) r ctx s' st' ->
  sessions st2 = <[client := set_cache s' l]> (sessions st') -> request_effect env b client st st2.
Proof.
  intros s HA [_ _ _ _ (np & g & -> & Hnp) Hown] E2. eapply (re_session _ _ _ _ _ (session_of st client) (set_cache s' l)); [done| |].
  { rewrite E2. unfold touch. cbn [sessions with_sessions with_generation with_next_port]. apply insert_insert_eq. }
  destruct Hown as [Hown|(O1 & -> & O3 & O4)]; [by left|right]. exists r. cbn [set_cache s_auth allocation]. split_and!; try done.
  eapply lease_step_st; [|exact O4]. intros v. symmetry. apply touch_count.
Qed.

(** There is room for the session of the client. *)
Definition has_room (st : Impl) (client : SocketAddr) : bool :=
  negb (bool_decide (sessions st !! client = None) && (max_sessions options <=? Z.of_nat (size (sessions st)))).

Lemma touched T env client st :
  server_ok T st -> started st = true -> IsValid client = true -> env_ok T env -> has_room st client = true ->
  session_ok T (set_activity (session_of st client) (clock_prune env)) /\ server_ok T (touch st client (clock_prune env)).
Proof.
  intros Hok Hst Hcl He Hroom. apply touch_session_ok; [done|done|done|apply He|]. intros En. unfold has_room in Hroom.
  rewrite En in Hroom. cbn in Hroom. bool_hyps. lia.
Qed.

(** A request without a cached answer. *)
Record fresh_result (T : Z) (env : Env) (client : SocketAddr) (b : list Z) (m : StunMessageInfo) (st : Impl)
    (ev : list Event) (st2 : Impl) (resp : list Z) (s2 : Session) : Prop := {
  fr_ok : server_ok T st2;
  fr_started : started st2 = true;
  fr_events : ev = [] \/ ev = [ToClient client resp] /\ resp <> [];
  fr_session : sessions st2 !! client = Some s2;
  fr_activity : last_activity s2 = clock_prune env;
  fr_cache : resp <> [] -> exists un,
    cache s2 = push_cached (cache (session_of st client)) (mkCached (txid m) b resp (Deadline (clock_prune env) kCacheMs) un);
  fr_effect : request_effect env b client st st2
}.

Lemma on_request_fresh T env client b m st :
  options_ok -> server_ok T st -> started st = true -> IsValid client = true -> well_formed b m -> env_ok T env ->
  has_room st client = true -> find_cached (txid m) (cache (session_of st client)) = None ->
  exists ev st2 resp s2, on_request options lookup env client b m st = Ret (ev, st2) /\
    fresh_result T env client b m st ev st2 resp s2.
Proof.
  intros Ho Hok Hst Hcl Hw He Hroom Hnone. destruct (touched T env client st Hok Hst Hcl He Hroom) as [Hs Hok1].
  unfold on_request. unfold has_room in Hroom. apply negb_true_iff in Hroom as ->. cbv zeta.
  set (s := set_activity (session_of st client) (clock_prune env)) in *.
  set (st1 := touch st client (clock_prune env)) in *.
  change (cache s) with (cache (session_of st client)). rewrite Hnone.
  assert (sessions st1 !! client = Some s) as Hk by apply lookup_insert_eq.
  destruct (answer_spec T env client b m b s st1) as (r & ctx & resp & s' & st' & HA & HH & Han);
    [done|done|done|apply Hw|by apply Hs|]. rewrite HA. cbn [mbnd]. rewrite HH. cbn [mbnd].
  pose proof (an_cache _ _ _ _ _ _ _ Han) as Hca. pose proof (an_activity _ _ _ _ _ _ _ Han) as Hla.
  destruct (is_empty resp) eqn:Er.
  - destruct resp; [|done]. eexists [], _, [], s'. split; [done|].
    assert (set_cache s' (cache s) = s') as Ecs by (rewrite <- Hca; by destruct s').
    destruct (store_ok T st1 s st' s' client r ctx (cache s) Hok1 Hk Hs Han) as (HO & _ & Hst' & _); [apply Hs|apply Hs|].
    rewrite Ecs in HO. split; [done|by transitivity (started st1)|by left|apply lookup_insert_eq|done|done|].
    apply (answered_effect T env client b st s' st' _ r ctx (cache s) _ HA Han). by rewrite Ecs.
  - set (c := mkCached _ _ _ _ _). rewrite Hca.
    destruct (push_cached_ok T (cache s) c) as [HL HF]; [apply Hs| |].
    { apply Forall_app_2; [apply Hs|]. constructor; [|constructor]. split; [apply Deadline_le, He|by destruct resp]. }
    destruct (store_ok T st1 s st' s' client r ctx _ Hok1 Hk Hs Han HL HF) as (HO & Hct & Hst' & _).
    destruct (SendResponse_spec env client resp (is_unauthorized r)
      (with_sessions st' (<[client := set_cache s' (push_cached (cache s) c)]> (sessions st')))) as (ev & st2 & -> & HSd & Hev & _).
    { cbn [control with_sessions]. rewrite Hct. by apply Hok1. }
    exists ev, st2, resp, (set_cache s' (push_cached (cache s) c)). split; [done|]. split.
    + by eapply sent_state_ok.
    + rewrite (ss_started _ _ HSd). by transitivity (started st1).
    + destruct Hev as [?|?]; [by left|right]. split; [done|]. by destruct resp.
    + rewrite (ss_sessions _ _ HSd). apply lookup_insert_eq.
    + done.
    + intros _. by exists (is_unauthorized r).
    + apply (answered_effect T env client b st s' st' _ r ctx (push_cached (cache s) c) _ HA Han). by rewrite (ss_sessions _ _ HSd).
Qed.

Lemma on_request_cached T env client b m st c :
  server_ok T st -> started st = true -> IsValid client = true -> env_ok T env ->
  has_room st client = true -> find_cached (txid m) (cache (session_of st client)) = Some c ->
  exists ev st2, on_request options lookup env client b m st = Ret (ev, st2) /\ server_ok T st2 /\ started st2 = true /\
    (ev = [] \/ ev = [ToClient client (ca_response c)]) /\
    sessions st2 = sessions (touch st client (clock_prune env)) /\
    (ca_request c = b -> unauthorized c && unauthorized_ratelimit options = false -> ev = [ToClient client (ca_response c)]).
Proof.
  intros Hok Hst Hcl He Hroom Hc. destruct (touched T env client st Hok Hst Hcl He Hroom) as [Hs Hok1].
  unfold on_request. unfold has_room in Hroom. apply negb_true_iff in Hroom as ->. cbv zeta.
  change (cache (set_activity (session_of st client) (clock_prune env))) with (cache (session_of st client)). rewrite Hc.
  case_bool_decide as Eb; [|do 2 eexists; split_and!; try done; by left].
  destruct (SendResponse_spec env client (ca_response c) (unauthorized c) (touch st client (clock_prune env)))
    as (ev & st' & -> & HSd & Hev & Hun); [by apply Hok1|].
  exists ev, st'. split; [done|]. split; [by eapply sent_state_ok|]. split; [by rewrite (ss_started _ _ HSd)|]. split; [done|].
  split; [apply HSd|]. intros _. apply Hun.
Qed.

Lemma on_request_ok T env client b m st :
  options_ok -> server_ok T st -> started st = true -> IsValid client = true -> well_formed b m -> env_ok T env ->
  exists ev st', on_request options lookup env client b m st = Ret (ev, st') /\ server_ok T st' /\ started st' = true /\
    (ev = [] \/ exists resp, ev = [ToClient client resp]) /\ request_effect env b client st st'.
Proof.
  intros Ho Hok Hst Hcl Hw He. destruct (has_room st client) eqn:Eroom.
  - destruct (find_cached (txid m) (cache (session_of st client))) as [c|] eqn:Ec.
    + destruct (on_request_cached T env client b m st c) as (ev & st' & E & H1 & H2 & H3 & H4 & _); try done.
      exists ev, st'. split_and!; try done; [naive_solver|].
      by eapply (re_session _ _ _ _ _ _ (set_activity (session_of st client) (clock_prune env))); [|exact H4|left].
    + destruct (on_request_fresh T env client b m st) as (ev & st' & resp & s2 & E & []); try done.
      exists ev, st'. split_and!; try done. naive_solver.
  - unfold on_request. unfold has_room in Eroom. apply negb_false_iff in Eroom as ->.
    do 2 eexists. split; [done|]. split; [done|]. split; [done|]. split; [by left|by apply re_none].
Qed.

(** ** What is forwarded *)

(** An allocation of the client that has not expired. *)
Definition live_allocation (st : Impl) (client : SocketAddr) (now : Z) (a : Allocation) : Prop :=
  exists s, sessions st !! client = Some s /\ allocation s = Some a /\ now < expires a.

(** A permission for the address of [p] that is valid at [now]. *)
Definition permitted (a : Allocation) (p : SocketAddr) (now : Z) : Prop :=
  exists t, permissions a !! PeerIp p = Some t /\ now < t.

Inductive forwards (env : Env) (client : SocketAddr) (data : cbuf) (st : Impl) : Event -> Prop :=
| fw_reply bytes : forwards env client data st (ToClient client bytes)
| fw_channel a cd c :
    live_allocation st client (clock_prune env) a -> ParseChannelDataDatagram data = Ret (Some cd) ->
    channels a !! channel cd = Some c -> clock_prune env < ch_expires c -> PeerAllowed options (peer c) true = true ->
    forwards env client data st (ToPeer (relay a) (peer c) (cd_data cd))
| fw_send a m attr p payload :
    live_allocation st client (clock_prune env) a -> ParseStunDatagram data = Ret (Some m) ->
    method m = method_value Send -> klass m = class_value Indication ->
    attr ∈ attrs m -> DecodePeer options m attr a = Ret (0, p) -> names_peer m p -> PeerAllowed options p true = true ->
    permitted a p (clock_prune env) -> permitted a p (clock_permission env) -> value_of m DATA = Ret payload ->
    forwards env client data st (ToPeer (relay a) p payload).

Lemma pruned_lookup st client now s' a' :
  sessions (Prune now st) !! client = Some s' -> allocation s' = Some a' ->
  exists a, live_allocation st client now a /\
    a' = set_leases a (expires a) (permissions a') (channels a') /\
    (forall k c, channels a' !! k = Some c <-> channels a !! k = Some c /\ now < ch_expires c) /\
    (forall p t, permissions a' !! p = Some t <-> permissions a !! p = Some t /\ now < t).
Proof.
  unfold Prune. cbn [sessions with_sessions]. intros Hk Ha. apply lookup_omap_Some in Hk as (s & Hp & Hk).
  destruct (prune_session_spec _ _ _ Hp) as (_ & _ & _ & E). rewrite Ha in E. destruct (allocation s) as [a|] eqn:Ea; [|done].
  unfold prune_allocation in E. destruct (Z.leb_spec (expires a) now) as [|Hlt]; [done|]. injection E as ->.
  exists a. split; [by exists s|]. split; [done|]. cbn [channels permissions set_leases].
  split; intros; apply map_lookup_filter_Some.
Qed.

Lemma count_find l (t : Z) : t <> MESSAGE_INTEGRITY -> attribute_count l t <> 0%nat -> exists a, find_attr l t = Some a.
Proof.
  intros Ht. induction l as [|a l IH]; [done|]. cbn [attribute_count find_attr].
  destruct (Z.eqb_spec (av_type a) t) as [E|E]; [by eexists|].
  destruct (av_type a =? MESSAGE_INTEGRITY); [done|]. exact IH.
Qed.

Lemma on_send_spec env client b m st :
  well_formed b m -> ParseStunDatagram (Some b) = Ret (Some m) -> method m = method_value Send -> klass m = class_value Indication ->
  exists ev st', on_send options env client m (Prune (clock_prune env) st) = Ret (ev, st') /\
    sent_state (Prune (clock_prune env) st) st' /\ Forall (forwards env client (Some b) st) ev.
Proof.
  intros Hw HP Hm Hk. unfold on_send.
  assert (exists ev st', Ret ([] : list Event, Prune (clock_prune env) st) = Ret (ev, st') /\
    sent_state (Prune (clock_prune env) st) st' /\ Forall (forwards env client (Some b) st) ev) as HN.
  { do 2 eexists. split; [done|]. split; [by split|constructor]. }
  destruct (sessions (Prune _ st) !! client) as [s'|] eqn:Es; [|done]. destruct s' as [au [a'|] ca la]; [|done].
  destruct (pruned_lookup _ _ _ _ a' Es eq_refl) as (a & Hlive & Ea & _ & Hperm).
  split_if; [done|]. apply orb_false_elim in Heqb0 as [E1 E2]. apply orb_false_elim in E1 as [_ E1].
  apply bool_decide_eq_false in E1, E2. apply dec_stable in E1, E2. unfold AttributeCount in E1, E2.
  destruct (count_find (attrs m) XOR_PEER_ADDRESS) as [attr Ef]; [done|by rewrite E1|]. unfold FindAttr. rewrite Ef.
  destruct (find_attr_in _ _ _ Ef) as [Hin _].
  destruct (DecodePeer_spec options b m Hw attr a' Hin) as (e & p & HD & He). rewrite HD. cbn [mbnd].
  destruct (Z.eqb_spec e 0) as [->|]; cbn [negb orb]; [|done].
  destruct (HasPermission (clock_permission env) a' p) eqn:EP; cbn [negb]; [|done].
  destruct (count_find (attrs m) DATA) as [da Ed]; [done|by rewrite E2|].
  destruct (find_attr_in _ _ _ Ed) as [Hin' _]. destruct (AttrValue_inside b m Hw da Hin') as (payload & Ev & _).
  assert (value_of m DATA = Ret payload) as HV by (unfold value_of, FindAttr; by rewrite Ed).
  rewrite HV. cbn [mbnd]. do 2 eexists. split; [done|]. split; [by destruct (sent env)|]. constructor; [|constructor].
  unfold HasPermission in EP. destruct (permissions a' !! PeerIp p) as [t|] eqn:Et; [|done]. apply Z.ltb_lt in EP.
  destruct (proj1 (Hperm _ _) Et) as [Et1 Et2]. destruct (He eq_refl) as [Hpa _ _]. rewrite Hm in Hpa.
  assert (relay a' = relay a) as -> by (by rewrite Ea). rewrite Ea in HD.
  apply (fw_send _ _ _ _ a m attr p payload); try done; [by eapply DecodePeer_names|by exists t..].
Qed.

Lemma on_channel_data_spec env client b cd st :
  ParseChannelDataDatagram (Some b) = Ret (Some cd) ->
  let '(ev, st') := on_channel_data options env client cd (Prune (clock_prune env) st) in
  sent_state (Prune (clock_prune env) st) st' /\ Forall (forwards env client (Some b) st) ev.
Proof.
  intros HP. unfold on_channel_data.
  destruct (sessions (Prune _ st) !! client) as [s'|] eqn:Es; [|by split]. destruct s' as [au [a'|] ca la]; [|by split].
  destruct (pruned_lookup _ _ _ _ a' Es eq_refl) as (a & Hlive & Ea & Hch & _).
  destruct (channels a' !! channel cd) as [c|] eqn:Ec; [|by split]. destruct (proj1 (Hch _ _) Ec) as [Hc1 Hc2].
  split_if; [by split|]. apply negb_false_iff in Heqb0. split; [by destruct (sent env)|]. constructor; [|constructor].
  assert (relay a' = relay a) as -> by (by rewrite Ea). by eapply fw_channel.
Qed.

Lemma on_binding_spec env client len m st st0 data :
  control st = true ->
  exists ev, on_binding client len m st = Ret (ev, st) /\ Forall (forwards env client data st0) ev.
Proof.
  intros Hc. unfold on_binding. split_if; [by eexists|]. cbv zeta.
  assert (returns (if negb (is_empty (UnknownAttributes m)) then Error m ERROR_UNKNOWN_ATTRIBUTE [] (UnknownAttributes m)
     else match XorAddressAttribute XOR_MAPPED_ADDRESS (Endpoint client) (txid m) with
          | None => Ret []
          | Some mapped => Success m [] [mapped]
          end)) as [resp ->].
  { split_if; [apply Error_returns|]. destruct (XorAddressAttribute _ _ _); [apply Success_returns|apply returns_ret]. }
  cbn [mbnd]. split_if; [by eexists|]. unfold control_send. rewrite Hc. cbn [mbnd]. eexists. split; [done|].
  constructor; [apply fw_reply|constructor].
Qed.

Lemma ValidFingerprint_returns b m : well_formed b m -> returns (ValidFingerprint m).
Proof.
  intros Hw. unfold ValidFingerprint. destruct (count_type _ _) as [|[|?]]; [apply returns_ret| |apply returns_ret].
  by apply (VerifyFingerprint_safe b).
Qed.

(** What a datagram from a client does. *)
Record control_result (T : Z) (env : Env) (client : SocketAddr) (data : cbuf) (st : Impl) (ev : list Event) (st' : Impl) : Prop := {
  cr_ok : server_ok T st';
  cr_started : started st' = started st;
  cr_events : Forall (forwards env client data st) ev;
  cr_sessions : st' = st \/ exists b, data = Some b /\ request_effect env b client (Prune (clock_prune env) st) st'
}.

Lemma OnControl_ok T env client data st :
  options_ok -> server_ok T st -> env_ok T env -> (forall b, data = Some b -> bytes_ok b) ->
  exists ev st', OnControl options lookup env client data st = Ret (ev, st') /\ control_result T env client data st ev st'.
Proof.
  intros Ho Hok He Hd.
  assert (exists ev st', Ret ([] : list Event, st) = Ret (ev, st') /\ control_result T env client data st ev st') as HN.
  { do 2 eexists. split; [done|]. split; [done|done|constructor|by left]. }
  destruct data as [b|]; [|done]. specialize (Hd b eq_refl) as Hb. cbn [OnControl].
  destruct (_ || _ || _ || _) eqn:Eg; [done|]. clear HN. apply orb_false_elim in Eg as [Eg Ecl]. apply orb_false_elim in Eg as [Eg _].
  apply orb_false_elim in Eg as [Est _]. apply negb_false_iff in Est, Ecl. cbv zeta.
  pose proof (Prune_ok T (clock_prune env) st Hok) as Hok1.
  assert (forall ev st', sent_state (Prune (clock_prune env) st) st' -> Forall (forwards env client (Some b) st) ev ->
    control_result T env client (Some b) st ev st') as HS1.
  { intros ev st' Hs Hf. split; [by eapply sent_state_ok|by rewrite (ss_started _ _ Hs)|done|].
    right. exists b. split; [done|]. apply re_none. apply Hs. }
  assert (exists ev st', Ret ([] : list Event, Prune (clock_prune env) st) = Ret (ev, st') /\ control_result T env client (Some b) st ev st') as HN.
  { do 2 eexists. split; [done|]. apply HS1; [apply sent_state_refl|constructor]. }
  destruct (ParseChannelDataDatagram_safe (Some b) Hd) as (cd & Ecd & _). rewrite Ecd. cbn [mbnd]. destruct cd as [cd|].
  { pose proof (on_channel_data_spec env client b cd st Ecd) as Hc. destruct (on_channel_data _ _ _ _ _) as [ev st']. destruct Hc.
    exists ev, st'. split; [done|]. by apply HS1. }
  destruct (ParseStunDatagram_safe (Some b) Hd) as (r & Er & Hr). rewrite Er. cbn [mbnd]. destruct r as [m|]; [|done].
  destruct (Hr m eq_refl) as (b' & [= <-] & Hw & _ & _). destruct (ValidFingerprint_returns b m Hw) as [ok ->]. cbn [mbnd].
  destruct ok; cbn [negb]; [|done]. assert (control (Prune (clock_prune env) st) = true) as Hc by (by apply Hok1).
  destruct (Z.eqb_spec (method m) (method_value Binding)).
  { destruct (on_binding_spec env client (blen b) m (Prune (clock_prune env) st) st (Some b) Hc) as (ev & -> & Hev).
    do 2 eexists. split; [done|]. apply HS1; [apply sent_state_refl|done]. }
  destruct ((method m =? method_value Send) && (klass m =? class_value Indication)) eqn:Esend.
  { apply andb_prop in Esend as [E1 E2]. apply Z.eqb_eq in E1, E2.
    destruct (on_send_spec env client b m st Hw Er E1 E2) as (ev & st' & -> & Hs & Hf). do 2 eexists. split; [done|]. by apply HS1. }
  split_if; [done|]. destruct (on_request_ok T env client b m (Prune (clock_prune env) st)) as (ev & st' & -> & R1 & R2 & R3 & R4); try done.
  exists ev, st'. split; [done|]. split; [done|by rewrite R2| |right; eauto].
  destruct R3 as [-> | [resp ->]]; constructor; [apply fw_reply|constructor].
Qed.

(** ** From the peer to the client *)

Lemma Endpoint_ok p : addr_ok p -> endpoint_ok (Endpoint p).
Proof.
  destruct p as [|pt x|pt x sc]; [done|intros [Hp Hx]..]; unfold Endpoint; cbn [IsV6 Port IPv4Bytes IPv6Bytes]; unfold blen in Hx.
  - split; cbn [family port ip]; [by left|done|]. rewrite length_app, repeat_length. lia.
  - split; cbn [family port ip]; [by right|done|lia].
Qed.

(** A Data indication is read by the client as the peer's address and the
    peer's bytes. *)
Lemma data_indication_roundtrip tx p address data packet :
  length tx = 12%nat -> addr_ok p -> XorAddressAttribute XOR_PEER_ADDRESS (Endpoint p) tx = Some address ->
  BuildMessage (method_value Data) (class_value Indication) tx [address; mkAttr DATA data] [] false = Ret (Some packet) ->
  exists m, Parse (Some packet) = Ret (true, m) /\ method m = method_value Data /\ klass m = class_value Indication /\
    DecodeXorAddress m XOR_PEER_ADDRESS = Ret (Some (address_of (Endpoint p))) /\ value_of m DATA = Ret data.
Proof.
  intros Hx Hp Ha HB. unfold XorAddressAttribute in Ha.
  change (bool_decide _ && bool_decide _ && bool_decide _) with false in Ha. destruct (EncodeXorAddress (Endpoint p) tx) as [v|] eqn:Ev; [|done].
  assert (address = mkAttr XOR_PEER_ADDRESS v) as -> by congruence.
  set (l := [mkAttr XOR_PEER_ADDRESS v; mkAttr DATA data]) in *.
  destruct (check_attributes (mi_size [] + fp_size false) l) eqn:Ec.
  2: { exfalso. revert HB. unfold BuildMessage. change (check_attributes (0 + 0) l) with (check_attributes (mi_size [] + fp_size false) l). by rewrite Ec. }
  destruct (message_built (method_value Data) (class_value Indication) tx l [] false) as (out & l' & HB' & Hsz & _ & Hse & Hok & HP);
    try done; [repeat constructor; by compute|]. rewrite HB in HB'. injection HB' as <-.
  destruct (HP []) as (P1 & P2 & _). rewrite app_nil_r in P1.
  assert (l' = l) as -> by (assert (Some l = Some l') as E by exact Hse; congruence).
  eexists. split; [exact P1|]. split; [exact (f_equal fst P2)|]. split; [exact (f_equal snd P2)|]. split.
  - eapply (DecodeXorAddress_spec _ _ _ [] Hok XOR_PEER_ADDRESS (Endpoint p) v []); [auto|by apply Endpoint_ok|done|done].
  - eapply (value_of_found _ _ _ DATA _ (mkAttr DATA data)); [done|reflexivity].
Qed.

(** How a packet carries the peer's datagram: on the channel bound to the
    peer, or in a Data indication when there is none. *)
Definition carries (a : Allocation) (now : Z) (p : SocketAddr) (data packet : list Z) : Prop :=
  (exists k c, channels a !! k = Some c /\ now < ch_expires c /\ peer c = p /\
     ParseChannelDataDatagram (Some packet) = Ret (Some (mkChannelData k data))) \/
  ((forall k c, channels a !! k = Some c -> now < ch_expires c -> peer c <> p) /\
   exists m, Parse (Some packet) = Ret (true, m) /\ method m = method_value Data /\ klass m = class_value Indication /\
     DecodeXorAddress m XOR_PEER_ADDRESS = Ret (Some (address_of (Endpoint p))) /\ value_of m DATA = Ret data).

Record relay_event (env : Env) (client : SocketAddr) (id : Z) (p : SocketAddr) (data : list Z) (st : Impl) (e : Event) : Prop := {
  rv_allocation : exists a packet, live_allocation st client (clock_prune env) a /\ al_generation a = id /\
    permitted a p (clock_prune env) /\ permitted a p (clock_permission env) /\
    e = ToClient client packet /\ carries a (clock_prune env) p data packet;
  rv_allowed : PeerAllowed options p true = true
}.

Lemma relayed_packet_spec T env a p data :
  alloc_ok T a -> addr_ok p -> bytes_ok data -> (forall tx, random_txid env = Some tx -> length tx = 12%nat) ->
  exists r, relayed_packet env a p data = Ret r /\ forall packet, r = Some packet ->
    (exists k c, channels a !! k = Some c /\ peer c = p /\ ParseChannelDataDatagram (Some packet) = Ret (Some (mkChannelData k data))) \/
    ((forall k c, channels a !! k = Some c -> peer c <> p) /\
     exists m, Parse (Some packet) = Ret (true, m) /\ method m = method_value Data /\ klass m = class_value Indication /\
     DecodeXorAddress m XOR_PEER_ADDRESS = Ret (Some (address_of (Endpoint p))) /\ value_of m DATA = Ret data).
Proof.
  intros Ha Hp Hb Htx. unfold relayed_packet. destruct (List.find _ _) as [[k c]|] eqn:Ef.
  - apply find_some in Ef as [Hin Hc]. apply list_elem_of_In, elem_of_map_to_list in Hin. apply addr_eq_spec in Hc as [Hc _].
    destruct (ao_channel _ _ Ha _ _ Hin) as (Hv & _ & _). destruct (Z.leb_spec (blen data) 0xFFFF) as [Hl|Hl].
    + destruct (channel_data_roundtrip k data false [] Hv Hb Hl) as (out & -> & _ & _ & HP). rewrite app_nil_r in HP.
      eexists. split; [done|]. intros ? [= <-]. left. eauto.
    + unfold BuildChannelData, CHANNEL_MAX_PAYLOAD_BYTES. rewrite Z.gtb_ltb, (proj2 (Z.ltb_lt _ _)) by lia. rewrite orb_true_r. by eexists.
  - assert (forall k c, channels a !! k = Some c -> peer c <> p) as Hno.
    { intros k c Hk Hc. eapply find_none in Ef; [|by apply list_elem_of_In, elem_of_map_to_list].
      cbn in Ef. rewrite Hc, addr_eq_refl in Ef; [done|by apply addr_ok_inet]. }
    destruct (random_txid env) as [tx|]; [|by eexists]. destruct (XorAddressAttribute _ _ _) as [address|] eqn:Ea; [|by eexists].
    edestruct BuildMessage_returns as [r Hr]. rewrite Hr. eexists. split; [done|]. intros packet ->. right. split; [done|].
    by eapply data_indication_roundtrip; eauto.
Qed.

Lemma OnRelay_ok T env client id p data st :
  server_ok T st -> addr_ok p -> bytes_ok data -> (forall tx, random_txid env = Some tx -> length tx = 12%nat) ->
  exists ev st', OnRelay options env client id p data st = Ret (ev, st') /\ server_ok T st' /\ started st' = started st /\
    Forall (relay_event env client id p data st) ev /\ (st' = st \/ sent_state (Prune (clock_prune env) st) st').
Proof.
  intros Hok Hp Hb Htx. unfold OnRelay. destruct (_ || _) eqn:Eg.
  { do 2 eexists. split; [done|]. split; [done|]. split; [done|]. split; [constructor|by left]. }
  apply orb_false_elim in Eg as [Est EA]. apply negb_false_iff in Est, EA. cbv zeta.
  pose proof (Prune_ok T (clock_prune env) st Hok) as Hok1.
  assert (exists ev st', Ret ([] : list Event, Prune (clock_prune env) st) = Ret (ev, st') /\ server_ok T st' /\ started st' = started st /\
    Forall (relay_event env client id p data st) ev /\ (st' = st \/ sent_state (Prune (clock_prune env) st) st')) as HN.
  { do 2 eexists. split; [done|]. split; [done|]. split; [done|]. split; [constructor|right; apply sent_state_refl]. }
  destruct (sessions (Prune _ st) !! client) as [s'|] eqn:Es; [|done]. destruct s' as [au [a'|] ca la]; [|done].
  destruct (pruned_lookup _ _ _ _ a' Es eq_refl) as (a & Hlive & Ea & Hch & Hperm).
  destruct (sv_session _ _ Hok1 _ _ Es) as [_ Hso]. pose proof (so_allocation _ _ Hso a' eq_refl) as Ha'.
  destruct (_ || _) eqn:Eg2; [done|]. apply orb_false_elim in Eg2 as [Eid EP]. apply negb_false_iff in Eid, EP. apply Z.eqb_eq in Eid.
  destruct (relayed_packet_spec T env a' p data Ha' Hp Hb Htx) as (r & -> & Hr). cbn [mbnd]. destruct r as [packet|]; [|done].
  unfold control_send. rewrite (sv_control _ _ Hok1 Est). cbn [mbnd]. do 2 eexists. split; [done|].
  assert (forall x, sent_state (Prune (clock_prune env) st) (if sent env then with_stats (Prune (clock_prune env) st) x else Prune (clock_prune env) st)) as Hss
    by (intros x; by destruct (sent env)).
  split; [by eapply sent_state_ok|]. split; [by destruct (sent env)|]. split; [|by right]. constructor; [|constructor]. split; [|done].
  exists a, packet. split; [done|]. split; [by rewrite Ea in Eid|].
  unfold HasPermission in EP. destruct (permissions a' !! PeerIp p) as [t|] eqn:Et; [|done]. apply Z.ltb_lt in EP.
  destruct (proj1 (Hperm _ _) Et) as [Et1 Et2]. split; [by exists t|]. split; [by exists t|]. split; [done|].
  assert (forall k c, channels a !! k = Some c -> clock_prune env < ch_expires c -> channels a' !! k = Some c) as Hback.
  { intros. by apply Hch. }
  destruct (Hr packet eq_refl) as [(k & c & Hk & Hc & HP)|[Hno HP]]; [left|right].
  - exists k, c. destruct (proj1 (Hch _ _) Hk). done.
  - split; [|done]. intros k c Hk Hl. by apply (Hno k), Hback.
Qed.

(** ** Runs *)

Definition op_ok (T : Z) (o : Op) : Prop :=
  match o with
  | OpControl env _ data => env_ok T env /\ forall b, data = Some b -> bytes_ok b
  | OpRelay env _ _ p data =>
    env_ok T env /\ addr_ok p /\ bytes_ok data /\ forall tx, random_txid env = Some tx -> length tx = 12%nat
  | _ => True
  end.

Lemma init_ok T : options_ok -> server_ok T (Impl_init options).
Proof.
  intros []. split; cbn [sessions Impl_init started control unauthorized_limiter next_port]; done.
Qed.

Lemma Stop_ok T st : options_ok -> port_ok (next_port st) -> server_ok T (Stop st).
Proof. intros Ho Hp. eapply server_ok_ext; [by apply (init_ok T)|done..]. Qed.

Lemma Start_ok T bound timed st : options_ok -> server_ok T st -> server_ok T (snd (Start options lookup bound timed st)).
Proof.
  intros Ho Hok. unfold Start. destruct (started st) eqn:Est; cbn [orb snd]; [done|].
  destruct (config_ok options lookup) eqn:Ec; cbn [negb orb snd]; [|done]. cbv zeta.
  pose proof (sv_stopped _ _ Hok Est) as He. destruct Hok as [V1 V2 V3 V4 V5 V6 V7 V8 V9]. unfold AllocationCount in *.
  destruct bound; cbn [negb snd]; [|by split]. destruct timed; cbn [negb snd]; [|by apply Stop_ok]. by split.
Qed.

Lemma step_ok T o st :
  options_ok -> server_ok T st -> op_ok T o -> exists ev st', step options lookup o st = Ret (ev, st') /\ server_ok T st'.
Proof.
  intros Ho Hok Hop. destruct o as [env client data|env client id p data|now|bound timed|]; cbn [step op_ok] in *.
  - destruct Hop as [He Hd]. destruct (OnControl_ok T env client data st Ho Hok He Hd) as (ev & st' & -> & []). eauto.
  - destruct Hop as (He & Hp & Hb & Htx). destruct (OnRelay_ok T env client id p data st Hok Hp Hb Htx) as (ev & st' & -> & ? & _). eauto.
  - do 2 eexists. split; [done|]. by apply Prune_ok.
  - do 2 eexists. split; [done|]. by apply Start_ok.
  - do 2 eexists. split; [done|]. by apply Stop_ok, Hok.
Qed.

Lemma run_ok T ops st :
  options_ok -> server_ok T st -> Forall (op_ok T) ops -> exists ev st', run options lookup ops st = Ret (ev, st') /\ server_ok T st'.
Proof.
  intros Ho Hok Hops. revert st Hok. induction Hops as [|o ops Hop Hops IH]; intros st Hok; cbn [run]; [eauto|].
  destruct (step_ok T o st Ho Hok Hop) as (ev & st1 & -> & Hok1). cbn [mbnd].
  destruct (IH st1 Hok1) as (evs & st2 & -> & Hok2). cbn [mbnd]. eauto.
Qed.

Lemma reachable_ok T ops ev st :
  options_ok -> Forall (op_ok T) ops -> run options lookup ops (Impl_init options) = Ret (ev, st) -> server_ok T st.
Proof.
  intros Ho Hops Hr. destruct (run_ok T ops (Impl_init options) Ho (init_ok T Ho) Hops) as (ev' & st' & E & Hok). congruence.
Qed.

(** ** Expiry *)

Lemma pruned_empty T now st :
  server_ok T st -> 0 <= T -> T + kMaxLifetime * MS_PER_SECOND <= now -> sessions (Prune now st) = ∅.
Proof.
  intros Hok HT Hn. apply map_empty. intros k. unfold Prune. cbn [sessions with_sessions].
  destruct (omap _ _ !! k) as [s'|] eqn:E; [|done]. apply lookup_omap_Some in E as (s & Hp & Hk).
  destruct (sv_session _ _ Hok _ _ Hk) as [_ [S1 _ _ S4]]. unfold kMaxLifetime, MS_PER_SECOND in *.
  assert (match allocation s with Some a => prune_allocation now a | None => None end = None) as EN.
  { destruct (allocation s) as [a|] eqn:Ea; [|done]. pose proof (ao_expires _ _ (S1 a eq_refl)) as He. unfold prune_allocation.
    by rewrite (proj2 (Z.leb_le _ _)) by (unfold kMaxLifetime, MS_PER_SECOND in He; lia). }
  unfold prune_session in Hp. cbn [set_cache set_allocation allocation last_activity] in Hp. rewrite EN in Hp.
  unfold kSessionIdleMs in Hp. rewrite (proj2 (Z.leb_le _ _)), (proj2 (Z.leb_le 60000 _)) in Hp by lia. done.
Qed.

(** ** Retransmissions *)

Lemma find_cached_app tx l1 l2 : find_cached tx l1 = None -> find_cached tx (l1 ++ l2) = find_cached tx l2.
Proof.
  unfold find_cached. induction l1 as [|c l1 IH]; cbn [app List.find]; [done|]. destruct (bool_decide _); [done|]. exact IH.
Qed.

Lemma find_cached_tail tx c l : find_cached tx (c :: l) = None -> find_cached tx l = None.
Proof. unfold find_cached. cbn [List.find]. by destruct (bool_decide _). Qed.

(** The entry just stored stays in front of later ones until it expires. *)
Lemma find_pushed now l c :
  find_cached (ca_transaction c) l = None -> now < ca_expires c ->
  find_cached (ca_transaction c) (pop_expired now (push_cached l c)) = Some c.
Proof.
  intros Hl Hc.
  assert (forall l, find_cached (ca_transaction c) l = None ->
    find_cached (ca_transaction c) (pop_expired now (l ++ [c])) = Some c) as HP.
  { clear l Hl. intros l. induction l as [|x l IH]; intros Hl; cbn [app pop_expired].
    - rewrite (proj2 (Z.leb_gt _ _) Hc). unfold find_cached. cbn [List.find]. by rewrite bool_decide_eq_true_2.
    - split_if; [apply IH; by eapply find_cached_tail|]. change (x :: l ++ [c]) with ((x :: l) ++ [c]).
      rewrite find_cached_app by done. unfold find_cached. cbn [List.find]. by rewrite bool_decide_eq_true_2. }
  unfold push_cached. split_if; [|by apply HP]. destruct l as [|x l]; [|by apply HP, (find_cached_tail _ x)].
  cbn [app length] in Heqb. done.
Qed.


(** A datagram that reaches the request handler. *)
Record turn_request (b : list Z) (m : StunMessageInfo) : Prop := {
  tr_parsed : ParseStunDatagram (Some b) = Ret (Some m);
  tr_fingerprint : ValidFingerprint m = Ret true;
  tr_class : klass m = class_value Request;
  tr_method : is_turn_method m = true;
  tr_size : 0 < blen b <= kMaxControlBytes
}.

Lemma OnControl_stun env client b m st :
  ParseChannelDataDatagram (Some b) = Ret None -> turn_request b m -> started st = true -> IsValid client = true ->
  OnControl options lookup env client (Some b) st = on_request options lookup env client b m (Prune (clock_prune env) st).
Proof.
  intros Ecd [HP HF HC HM HZ] Hst Hcl. unfold kMaxControlBytes in HZ. cbn [OnControl]. rewrite Hst, Hcl.
  unfold MAX_UDP_DATAGRAM_BYTES. rewrite !Z.gtb_ltb. rewrite (proj2 (Z.eqb_neq _ _)), (proj2 (Z.ltb_ge _ _)) by lia. cbn [negb orb].
  rewrite Ecd. cbn [mbnd]. rewrite HP. cbn [mbnd]. rewrite HF. cbn [mbnd negb]. rewrite HC.
  assert (method m =? method_value Binding = false /\ method m =? method_value Send = false) as [-> ->].
  { unfold is_turn_method in HM. rewrite !orb_true_iff, !Z.eqb_eq in HM.
    destruct HM as [[[-> | ->] | ->] | ->]; done. }
  rewrite HM. unfold kMaxControlBytes. rewrite (proj2 (Z.ltb_ge _ _)) by lia. done.
Qed.

Lemma OnControl_request env client b m st :
  bytes_ok b -> turn_request b m -> started st = true -> IsValid client = true ->
  OnControl options lookup env client (Some b) st = on_request options lookup env client b m (Prune (clock_prune env) st).
Proof.
  intros Hb Htr. apply OnControl_stun; [|done].
  destruct (ParseChannelDataDatagram_safe (Some b)) as (cd & Ecd & _); [by intros ? [= <-]|].
  destruct cd as [cd|]; [|done]. exfalso. apply channel_data_not_stun in Ecd; [|done]. destruct Htr. congruence.
Qed.

(** What makes the server look at a datagram at all. *)
Lemma OnControl_listening env client data st e ev st' :
  OnControl options lookup env client data st = Ret (e :: ev, st') -> started st = true /\ IsValid client = true.
Proof.
  unfold OnControl. destruct data as [b|]; [|done]. destruct (_ || _ || _ || _) eqn:E; [done|]. intros _.
  apply orb_false_elim in E as [E E4]. apply orb_false_elim in E as [E _]. apply orb_false_elim in E as [E1 _].
  by apply negb_false_iff in E1, E4.
Qed.

Lemma prune_survives now s :
  last_activity s <= now < last_activity s + kSessionIdleMs -> exists s', prune_session now s = Some s'.
Proof.
  intros Hn. unfold prune_session. destruct (allocation (set_allocation _ _)); [by eexists|].
  cbn [last_activity set_allocation set_cache]. rewrite (proj2 (Z.leb_gt kSessionIdleMs _)) by lia. rewrite andb_false_r. by eexists.
Qed.

Lemma retransmission_ok T st env env2 client b m resp st1 :
  options_ok -> server_ok T st -> env_ok T env -> env_ok T env2 -> bytes_ok b -> turn_request b m ->
  find_cached (txid m) (cache (session_of (Prune (clock_prune env) st) client)) = None ->
  OnControl options lookup env client (Some b) st = Ret ([ToClient client resp], st1) ->
  clock_prune env <= clock_prune env2 < Deadline (clock_prune env) kCacheMs ->
  exists ev st2, OnControl options lookup env2 client (Some b) st1 = Ret (ev, st2) /\
    (ev = [] \/ ev = [ToClient client resp]) /\ (unauthorized_ratelimit options = false -> ev = [ToClient client resp]) /\
    forall k, allocation (session_of st2 k) = allocation (session_of (Prune (clock_prune env2) st1) k).
Proof.
  intros Ho Hok He He2 Hb Htr Hnone HO Ht. destruct (OnControl_listening _ _ _ _ _ _ _ HO) as [Hst Hcl].
  destruct (ParseStunDatagram_safe (Some b)) as (r & Er & Hr); [by intros ? [= <-]|].
  rewrite (tr_parsed _ _ Htr) in Er. injection Er as <-. destruct (Hr m eq_refl) as (b' & [= <-] & Hw & _ & _).
  rewrite (OnControl_request env client b m st Hb Htr Hst Hcl) in HO. pose proof (Prune_ok T (clock_prune env) st Hok) as Hok0.
  set (st0 := Prune (clock_prune env) st) in *. destruct (has_room st0 client) eqn:Eroom.
  2: { exfalso. unfold on_request in HO. unfold has_room in Eroom. apply negb_false_iff in Eroom. by rewrite Eroom in HO. }
  destruct (on_request_fresh T env client b m st0) as (ev & st1' & resp' & s2 & E & [F1 F2 F3 F4 F5 F6 _]); try done.
  rewrite HO in E. injection E as <- <-. destruct F3 as [|[[= ->] Hne]]; [done|]. destruct (F6 Hne) as [un Hc].
  assert (Deadline (clock_prune env) kCacheMs <= clock_prune env + kCacheMs) as HD by (by apply Deadline_le).
  destruct (prune_survives (clock_prune env2) s2) as [s3 Hs3]; [unfold kSessionIdleMs, kCacheMs in *; lia|].
  destruct (prune_session_spec _ _ _ Hs3) as (_ & _ & Hc3 & _).
  assert (sessions (Prune (clock_prune env2) st1) !! client = Some s3) as Hk3.
  { unfold Prune. cbn [sessions with_sessions]. rewrite lookup_omap, F4. exact Hs3. }
  rewrite (OnControl_request env2 client b m st1 Hb Htr F2 Hcl).
  set (c := mkCached (txid m) b resp' (Deadline (clock_prune env) kCacheMs) un) in *.
  destruct (on_request_cached T env2 client b m (Prune (clock_prune env2) st1) c) as (ev2 & st2 & E2 & _ & _ & Hev & Hses & Hun); try done.
  - by apply Prune_ok.
  - unfold has_room. by rewrite Hk3.
  - unfold session_of. rewrite Hk3, Hc3, Hc. apply (find_pushed (clock_prune env2) _ c); [done|apply Ht].
  - exists ev2, st2. split; [done|]. split; [done|]. split; [intros El; apply Hun; [done|by rewrite El, andb_false_r]|].
    intros k. unfold session_of at 1. rewrite Hses. unfold touch. cbn [sessions with_sessions].
    destruct (decide (client = k)) as [<-|Hk]; [by rewrite lookup_insert_eq|by rewrite lookup_insert_ne].
Qed.

(** Owner of the leases before and after. *)
Lemma lease_step_owner u st o o' :
  lease_step u st o o' -> o' = o \/
  ((forall a, o = Some a -> al_username a = u) /\ (forall a, o' = Some a -> al_username a = u) /\
   (forall a a', o = Some a -> o' = Some a' -> relay a' = relay a /\ advertised a' = advertised a /\ al_generation a' = al_generation a) /\
   (o = None -> AllocationCount st [] < max_allocations options /\ AllocationCount st u < max_allocations_per_user options)).
Proof.
  intros [o0|a Ha|a e p c Ha|a Ha Q1 Q2]; [by left|right..]; split_and!; try done.
  - by intros ? [= <-].
  - by intros ? [= <-].
  - by intros ? [= <-].
  - by intros ? ? [= <-] [= <-].
  - by intros ? [= <-].
Qed.

Lemma owner_ok T st env client b :
  options_ok -> server_ok T st -> env_ok T env -> bytes_ok b ->
  exists ev st', OnControl options lookup env client (Some b) st = Ret (ev, st') /\
    (st' = st \/
     let st0 := Prune (clock_prune env) st in
     let s := session_of st0 client in
     let s' := session_of st' client in
     (forall k, k <> client -> sessions st' !! k = sessions st0 !! k) /\
     (allocation s' = allocation s \/
      exists r, Authenticate (auth options lookup) (fresh_nonce env) (clock_auth env) (Some b) (s_auth s) = Ret (r, s_auth s) /\
        status r = Auth_Authorized /\
        (forall a, allocation s = Some a -> al_username a = auth_username r) /\
        (forall a', allocation s' = Some a' -> al_username a' = auth_username r) /\
        (forall a a', allocation s = Some a -> allocation s' = Some a' ->
           relay a' = relay a /\ advertised a' = advertised a /\ al_generation a' = al_generation a) /\
        (allocation s = None -> AllocationCount st0 [] < max_allocations options /\
           AllocationCount st0 (auth_username r) < max_allocations_per_user options))).
Proof.
  intros Ho Hok He Hb. destruct (OnControl_ok T env client (Some b) st Ho Hok He) as (ev & st' & -> & [_ _ _ HE]); [by intros ? [= <-]|].
  exists ev, st'. split; [done|]. destruct HE as [->|(b' & [= <-] & HE)]; [by left|right]. cbv zeta.
  destruct HE as [HE|s s' -> HE Hown]; [unfold session_of; rewrite HE; auto|].
  assert (session_of st' client = s') as -> by (unfold session_of; by rewrite HE, lookup_insert_eq).
  split; [intros k Hk; by rewrite HE, lookup_insert_ne|]. destruct Hown as [Hown|(r & HA & Hs & _ & Hl)]; [by left|].
  destruct (lease_step_owner _ _ _ _ Hl) as [?|(L1 & L2 & L3 & L4)]; [by left|right]. exists r. done.
Qed.
End Invariant.
