(* ===== verification/TurnServerProps.v ===== *)
(** * TURN server: theorems

    The claims about TurnServer, each for every state reachable by any
    sequence of datagrams, ticks, starts and stops whose clock readings are at
    most [T] ([op_ok]); proved from the lemmas of TurnInvariant. *)
From Stdlib Require Import Ascii String.
From S2P Require Import Prelude Bytes Stun StunLayout StunProps StunSafety SocketAddr TurnCodec TurnAuth TurnRateLimiter.
From S2P Require Import TurnServer TurnInvariant.
Import StunCodec.

Section Claims.
Context {HS : HmacSha1} {MD : Md5} {IP : InetPton}.
Context (options : TurnServerOptions) (lookup : option (list Z -> option (list Z))).

(** (C35) Limits.  Every run of the server returns, whatever datagrams it is
    sent: no read outside a buffer, no null socket.  Afterwards the number of
    sessions, of allocations and of allocations of one user is within the
    configured limits, and so are the permissions and channels of every
    allocation; a session caches at most eight answers. *)
Theorem turn_server_bounds T ops :
  options_ok options -> Forall (op_ok T) ops ->
  exists ev st, run options lookup ops (Impl_init options) = Ret (ev, st) /\
    Z.of_nat (size (sessions st)) <= max_sessions options /\
    AllocationCount st [] <= max_allocations options /\
    (forall u, u <> [] -> AllocationCount st u <= max_allocations_per_user options) /\
    forall k s, sessions st !! k = Some s ->
      Z.of_nat (length (cache s)) <= kMaxCachedResponses /\
      forall a, allocation s = Some a ->
        Z.of_nat (size (permissions a)) <= max_permissions options /\ Z.of_nat (size (channels a)) <= max_channels options.
Proof.
  intros Ho Hops. destruct (run_ok options lookup T ops (Impl_init options) Ho (init_ok options lookup T Ho) Hops) as (ev & st & E & Hok).
  exists ev, st. split; [done|]. destruct Hok as [V1 V2 V3 V4 _ _ _ _]. do 3 (split; [done|]).
  intros k s Hk. destruct (V4 k s Hk) as [_ [S1 S2 _ _]]. split; [done|]. intros a Ha. destruct (S1 a Ha). done.
Qed.


(** (C17) What a client can make the server send.  In every reachable state a
    datagram from a client is handled without a fault, and each datagram sent
    in return goes either back to that client or, unchanged, from the relay of
    that client's own unexpired allocation to a peer the policy admits: on a
    channel, to the peer of that channel's unexpired binding; for a Send
    indication, to the peer that its XOR-PEER-ADDRESS encodes, if the address of that peer has a
    permission that is valid when the datagram arrives and when it is sent. *)
Theorem turn_forwards_safely T ops es st env client b :
  options_ok options -> Forall (op_ok T) ops -> run options lookup ops (Impl_init options) = Ret (es, st) ->
  env_ok T env -> bytes_ok b ->
  exists ev st', OnControl options lookup env client (Some b) st = Ret (ev, st') /\
    forall e, e ∈ ev ->
      (exists bytes, e = ToClient client bytes) \/
      exists s a p payload, e = ToPeer (relay a) p payload /\ PeerAllowed options p true = true /\
        sessions st !! client = Some s /\ allocation s = Some a /\ clock_prune env < expires a /\
        ((exists n c, ParseChannelDataDatagram (Some b) = Ret (Some (mkChannelData n payload)) /\
            channels a !! n = Some c /\ peer c = p /\ clock_prune env < ch_expires c) \/
         (exists m t, ParseStunDatagram (Some b) = Ret (Some m) /\ method m = method_value Send /\
            klass m = class_value Indication /\ value_of m DATA = Ret payload /\ names_peer m p /\
            permissions a !! PeerIp p = Some t /\ clock_prune env < t /\ clock_permission env < t)).
Proof.
  intros Ho Hops Hr He Hb. pose proof (reachable_ok options lookup T ops es st Ho Hops Hr) as Hok.
  destruct (OnControl_ok options lookup T env client (Some b) st Ho Hok He) as (ev & st' & -> & [_ _ HF _]); [by intros ? [= <-]|].
  exists ev, st'. split; [done|]. intros e Hin. rewrite Forall_forall in HF. destruct (HF e Hin) as [bytes|a cd c Hl HP Hc Ht HA|a m at_ p pl Hl HP Hm Hk _ _ HN HA (t & Ht & H1) (t' & Ht' & H2) HV].
  - left. eauto.
  - right. destruct Hl as (s & Hs & Ha & Hx). exists s, a, (peer c), (cd_data cd). do 5 (split; [done|]). left.
    exists (channel cd), c. destruct cd. done.
  - right. destruct Hl as (s & Hs & Ha & Hx). exists s, a, p, pl. do 5 (split; [done|]). right.
    exists m, t. rewrite Ht in Ht'. injection Ht' as <-. done.
Qed.

(** (C14) What a peer can make the server send.  In every reachable state a
    datagram that arrives on the relay socket created as generation [id] for
    [client] is handled without a fault; at most it is passed on to that
    client, and only if the client's current, unexpired allocation is that
    generation, the policy admits the peer and the peer's address has a valid
    permission.  The client reads back exactly the peer's bytes: as ChannelData
    on the channel bound to that peer, or, when no channel is, as a Data
    indication with the peer's address. *)
Theorem turn_relays_faithfully T ops es st env client id p data :
  options_ok options -> Forall (op_ok T) ops -> run options lookup ops (Impl_init options) = Ret (es, st) ->
  addr_ok p -> bytes_ok data -> (forall tx, random_txid env = Some tx -> length tx = 12%nat) ->
  exists ev st', OnRelay options env client id p data st = Ret (ev, st') /\
    forall e, e ∈ ev -> exists s a packet, e = ToClient client packet /\ PeerAllowed options p true = true /\
      sessions st !! client = Some s /\ allocation s = Some a /\ clock_prune env < expires a /\ al_generation a = id /\
      (exists t, permissions a !! PeerIp p = Some t /\ clock_prune env < t /\ clock_permission env < t) /\
      ((exists n c, channels a !! n = Some c /\ clock_prune env < ch_expires c /\ peer c = p /\
          ParseChannelDataDatagram (Some packet) = Ret (Some (mkChannelData n data))) \/
       ((forall n c, channels a !! n = Some c -> clock_prune env < ch_expires c -> peer c <> p) /\
        exists m, Parse (Some packet) = Ret (true, m) /\ method m = method_value Data /\ klass m = class_value Indication /\
          DecodeXorAddress m XOR_PEER_ADDRESS = Ret (Some (address_of (Endpoint p))) /\ value_of m DATA = Ret data)).
Proof.
  intros Ho Hops Hr Hp Hb Htx. pose proof (reachable_ok options lookup T ops es st Ho Hops Hr) as Hok.
  destruct (OnRelay_ok options lookup T env client id p data st Hok Hp Hb Htx) as (ev & st' & -> & _ & _ & HF & _).
  exists ev, st'. split; [done|]. intros e Hin. rewrite Forall_forall in HF. destruct (HF e Hin) as [(a & pk & Hl & Hg & (t & Ht & H1) & (t' & Ht' & H2) & -> & HC) HA].
  destruct Hl as (s & Hs & Ha & Hx). exists s, a, pk. do 6 (split; [done|]). split; [|done].
  rewrite Ht in Ht'. injection Ht' as <-. eauto.
Qed.

(** Only its owner changes an allocation.  In every reachable state a
    datagram from a client changes no session but that client's own (expired
    leases of others are dropped).  The client's allocation changes only if the
    datagram was authorized, by the user who owns the allocation that was there
    and the one that is there afterwards; a refreshed allocation keeps its
    relay, advertised address and generation, and a new one is made only while
    the limits leave room for it. *)
Theorem turn_owner_only T ops es st env client b :
  options_ok options -> Forall (op_ok T) ops -> run options lookup ops (Impl_init options) = Ret (es, st) ->
  env_ok T env -> bytes_ok b ->
  exists ev st', OnControl options lookup env client (Some b) st = Ret (ev, st') /\
    (st' = st \/
     let st0 := Prune (clock_prune env) st in
     let s := session_of st0 client in
     let s' := session_of st' client in
     (forall k, k <> client -> sessions st' !! k = sessions st0 !! k) /\
     (allocation s' = allocation s \/
      exists r, Authenticate (auth options lookup) (fresh_nonce env) (clock_auth env) (Some b) (s_auth s) = Ret (r, s_auth s) /\
        status r = Auth_Authorized /\
        (forall a, allocation s = Some a -> al_username a = auth_username r) /\
        (forall a', allocation s' = Some a' -> al_username a' = auth_username r) /\
        (forall a a', allocation s = Some a -> allocation s' = Some a' ->
           relay a' = relay a /\ advertised a' = advertised a /\ al_generation a' = al_generation a) /\
        (allocation s = None -> AllocationCount st0 [] < max_allocations options /\
           AllocationCount st0 (auth_username r) < max_allocations_per_user options))).
Proof. intros Ho Hops Hr He Hb. eapply owner_ok; try done. by eapply reachable_ok. Qed.

(** Retransmissions.  When a request was just answered, the same bytes
    from the same client within 40 seconds are answered with the same bytes
    and change no allocation; only a 401 may be withheld, and only when the
    rate limit is on. *)
Theorem turn_retransmission T ops es st env env2 client b m resp st1 :
  options_ok options -> Forall (op_ok T) ops -> run options lookup ops (Impl_init options) = Ret (es, st) ->
  env_ok T env -> env_ok T env2 -> bytes_ok b -> turn_request b m ->
  find_cached (txid m) (cache (session_of (Prune (clock_prune env) st) client)) = None ->
  OnControl options lookup env client (Some b) st = Ret ([ToClient client resp], st1) ->
  clock_prune env <= clock_prune env2 < Deadline (clock_prune env) kCacheMs ->
  exists ev st2, OnControl options lookup env2 client (Some b) st1 = Ret (ev, st2) /\
    (ev = [] \/ ev = [ToClient client resp]) /\ (unauthorized_ratelimit options = false -> ev = [ToClient client resp]) /\
    forall k, allocation (session_of st2 k) = allocation (session_of (Prune (clock_prune env2) st1) k).
Proof. intros Ho Hops Hr. eapply retransmission_ok; [done|]. by eapply reachable_ok. Qed.

(** Everything expires.  After any run, a tick at [now] leaves only
    leases that end later than [now]; and a tick an hour after the last clock
    reading leaves nothing: no session, so no allocation and no open relay. *)
Theorem turn_everything_expires T ops es st now :
  options_ok options -> Forall (op_ok T) ops -> run options lookup ops (Impl_init options) = Ret (es, st) ->
  (forall k s a, sessions (Tick now st) !! k = Some s -> allocation s = Some a ->
     now < expires a /\ (forall p t, permissions a !! p = Some t -> now < t) /\
     (forall n c, channels a !! n = Some c -> now < ch_expires c)) /\
  (0 <= T -> T + 3600000 <= now -> sessions (Tick now st) = ∅).
Proof.
  intros Ho Hops Hr. split.
  - intros k s a Hk Ha. destruct (pruned_lookup st k now s a Hk Ha) as (a0 & (s0 & _ & _ & Hx) & -> & H1 & H2).
    split; [done|]. split; intros ? ? E; [by apply H2 in E as [_ ?]|by apply H1 in E as [_ ?]].
  - intros HT Hn. eapply pruned_empty; [by eapply reachable_ok|done|done].
Qed.
End Claims.

(** ** Examples *)

Definition ex_inet : InetPton.
Proof.
  refine {| inet_pton4 := fun s => if bool_decide (s = text "198.51.100.1") then Some [198; 51; 100; 1] else None;
            inet_pton6 := fun _ => None |}; [|done].
  intros s x. case_bool_decide; [by intros [= <-]|done].
Defined.

Definition ex_options : TurnServerOptions :=
  mkOptions (text "198.51.100.1") 3478 false (text "198.51.100.1") (text "198.51.100.1") [] [] (text "packetia")
    50000 50003 2 2 1 2 2 true 10 None.

Definition ex_client : SocketAddr := AF_inet 40000 [192; 0; 2; 7].
Definition ex_peer : SocketAddr := AF_inet 5000 [8; 8; 8; 8].

(** At time [t], with the ports from 50001 free. *)
Definition ex_env (t : Z) : Env :=
  mkEnv t t t t t (Some (text "n0nce")) (Some ex_txid)
    (fun _ p => if (50001 <=? p) && (p <=? 65535) then Some p else None) true.

Definition ex_sent (r : mres (option (list Z))) : cbuf := match r with Ret o => o | _ => None end.

(** A request signed by alice. *)
Definition ex_signed (meth : StunMethod) (tx : list Z) (extra : list StunAttribute) : cbuf :=
  ex_sent (@BuildMessage ex_hmac (method_value meth) (class_value Request) tx
    (credential_attrs (text "alice") (text "packetia") (text "n0nce") extra) ex_key true).

Definition ex_tx (n : Z) : list Z := n :: tail ex_txid.
Definition ex_peer_attr (n : Z) : StunAttribute :=
  match XorAddressAttribute XOR_PEER_ADDRESS (Endpoint ex_peer) (ex_tx n) with Some a => a | None => mkAttr 0 [] end.

Definition ex_allocate : cbuf := ex_signed Allocate (ex_tx 2) ex_extra.
Definition ex_bind : cbuf := ex_signed ChannelBind (ex_tx 3) [mkAttr CHANNEL_NUMBER [0x40; 1; 0; 0]; ex_peer_attr 3].

Definition ex_ops : list Op :=
  [OpStart true true; OpControl (ex_env 1000) ex_client (Some ex_bare); OpControl (ex_env 2000) ex_client ex_allocate;
   OpControl (ex_env 3000) ex_client ex_bind].

Definition ex_run : mres (list Event * Impl) := @run ex_hmac ex_md5 ex_inet ex_options (Some ex_lookup) ex_ops (Impl_init ex_options).
Definition ex_state : Impl := match ex_run with Ret (_, st) => st | _ => Impl_init ex_options end.
Definition ex_events : list Event := match ex_run with Ret (ev, _) => ev | _ => [] end.

Lemma ex_run_ret : ex_run = Ret (ex_events, ex_state).
Proof. vm_compute. reflexivity. Qed.

Definition bytes_okb (b : list Z) : bool := forallb (fun x => (0 <=? x) && (x <? 256)) b.

Lemma bytes_okb_spec b : bytes_okb b = true -> bytes_ok b.
Proof.
  unfold bytes_okb, bytes_ok. rewrite forallb_forall, Forall_forall. intros Hb x Hx. apply list_elem_of_In in Hx.
  specialize (Hb x Hx). bool_hyps. split; lia.
Qed.

Lemma ex_options_ok : options_ok ex_options.
Proof. by split. Qed.

Lemma ex_env_ok t T : t <= T -> env_ok T (ex_env t).
Proof. intros. unfold env_ok. cbn. lia. Qed.

Lemma ex_ops_ok : Forall (op_ok 3000) ex_ops.
Proof.
  repeat constructor; cbn [clock_prune clock_auth clock_request clock_permission clock_limit ex_env]; try lia;
    intros b; vm_compute; intros [= <-]; by apply bytes_okb_spec.
Qed.

Definition ex_session : Session := session_of ex_state ex_client.
Definition ex_allocation : Allocation :=
  match allocation ex_session with Some a => a | None => mkAllocation 0 AF_none [] [] [] 0 0 ∅ ∅ end.

Lemma turn_server_bounds_witness :
  exists ev st, @run ex_hmac ex_md5 ex_inet ex_options (Some ex_lookup) ex_ops (Impl_init ex_options) = Ret (ev, st) /\
    AllocationCount st [] <= 2 /\ AllocationCount st (text "alice") <= 1 /\ AllocationCount ex_state (text "alice") = 1.
Proof.
  destruct (@turn_server_bounds ex_hmac ex_md5 ex_inet ex_options (Some ex_lookup) 3000 ex_ops ex_options_ok ex_ops_ok)
    as (ev & st & E & _ & H1 & H2 & _).
  exists ev, st. split; [exact E|]. split; [exact H1|]. split; [apply (H2 (text "alice")); discriminate|]. vm_compute. reflexivity.
Defined.


(** ChannelData from the client reaches the peer from port 50001. *)
Lemma turn_forwards_safely_witness :
  exists st', @OnControl ex_hmac ex_md5 ex_inet ex_options (Some ex_lookup) (ex_env 3000) ex_client (Some [0x40; 1; 0; 2; 7; 9]) ex_state =
      Ret ([ToPeer 50001 ex_peer [7; 9]], st') /\ PeerAllowed ex_options ex_peer true = true.
Proof.
  destruct (@turn_forwards_safely ex_hmac ex_md5 ex_inet ex_options (Some ex_lookup) 3000 ex_ops ex_events ex_state (ex_env 3000)
    ex_client [0x40; 1; 0; 2; 7; 9]) as (ev & st' & E & HF).
  - exact ex_options_ok.
  - exact ex_ops_ok.
  - exact ex_run_ret.
  - apply ex_env_ok. lia.
  - apply bytes_okb_spec. reflexivity.
  - assert (ev = [ToPeer 50001 ex_peer [7; 9]]) as -> by (vm_compute in E; by injection E as <- _).
    exists st'. split; [exact E|]. destruct (HF (ToPeer 50001 ex_peer [7; 9])) as [[? ?]|(s & a & p & pl & E' & HA & _)].
    + apply list_elem_of_here.
    + discriminate.
    + injection E' as _ <- _. exact HA.
Defined.

(** And the peer's answer comes back on the channel. *)
Lemma turn_relays_faithfully_witness :
  exists st', @OnRelay ex_hmac ex_options (ex_env 3000) ex_client 1 ex_peer [5] ex_state =
      Ret ([ToClient ex_client [0x40; 1; 0; 1; 5]], st') /\ al_generation ex_allocation = 1.
Proof.
  destruct (@turn_relays_faithfully ex_hmac ex_md5 ex_inet ex_options (Some ex_lookup) 3000 ex_ops ex_events ex_state (ex_env 3000)
    ex_client 1 ex_peer [5]) as (ev & st' & E & HF).
  - exact ex_options_ok.
  - exact ex_ops_ok.
  - exact ex_run_ret.
  - by compute.
  - apply bytes_okb_spec. reflexivity.
  - intros tx [= <-]. reflexivity.
  - assert (ev = [ToClient ex_client [0x40; 1; 0; 1; 5]]) as -> by (vm_compute in E; by injection E as <- _).
    exists st'. split; [exact E|]. destruct (HF (ToClient ex_client [0x40; 1; 0; 1; 5])) as (s & a & pk & _ & _ & Hs & Ha & _ & Hg & _).
    + apply list_elem_of_here.
    + assert (sessions ex_state !! ex_client = Some ex_session) as E1 by (vm_compute; reflexivity).
      rewrite E1 in Hs. apply Some_inj in Hs as <-.
      assert (allocation ex_session = Some ex_allocation) as E2 by (vm_compute; reflexivity).
      rewrite E2 in Ha. apply Some_inj in Ha as <-. exact Hg.
Defined.

(** A request of an unknown user changes nothing that alice holds. *)
Lemma turn_owner_only_witness :
  exists ev st', @OnControl ex_hmac ex_md5 ex_inet ex_options (Some ex_lookup) (ex_env 3000) (AF_inet 1 [192; 0; 2; 8]) (Some ex_bare) ex_state =
      Ret (ev, st') /\ sessions st' !! ex_client = sessions (Prune 3000 ex_state) !! ex_client.
Proof.
  destruct (@turn_owner_only ex_hmac ex_md5 ex_inet ex_options (Some ex_lookup) 3000 ex_ops ex_events ex_state (ex_env 3000)
    (AF_inet 1 [192; 0; 2; 8]) ex_bare) as (ev & st' & E & HO).
  - exact ex_options_ok.
  - exact ex_ops_ok.
  - exact ex_run_ret.
  - apply ex_env_ok. lia.
  - apply bytes_okb_spec. reflexivity.
  - exists ev, st'. split; [exact E|]. destruct HO as [-> | [HO _]].
    + vm_compute. reflexivity.
    + apply HO. discriminate.
Defined.

Definition ex_first : list Op := [OpStart true true; OpControl (ex_env 1000) ex_client (Some ex_bare)].
Definition ex_run1 : mres (list Event * Impl) :=
  @run ex_hmac ex_md5 ex_inet ex_options (Some ex_lookup) ex_first (Impl_init ex_options).
Definition ex_state1 : Impl := match ex_run1 with Ret (_, st) => st | _ => Impl_init ex_options end.
Definition ex_events1 : list Event := match ex_run1 with Ret (ev, _) => ev | _ => [] end.
Definition ex_request_bytes : list Z := match ex_allocate with Some b => b | None => [] end.
Definition ex_message : StunMessageInfo := match Parse ex_allocate with Ret (_, m) => m | _ => info_zero end.

Lemma turn_retransmission_witness :
  exists resp st1 ev st2,
    @OnControl ex_hmac ex_md5 ex_inet ex_options (Some ex_lookup) (ex_env 2000) ex_client (Some ex_request_bytes) ex_state1 = Ret ([ToClient ex_client resp], st1) /\
    @OnControl ex_hmac ex_md5 ex_inet ex_options (Some ex_lookup) (ex_env 9000) ex_client (Some ex_request_bytes) st1 = Ret (ev, st2) /\
    (ev = [] \/ ev = [ToClient ex_client resp]).
Proof.
  destruct (@OnControl ex_hmac ex_md5 ex_inet ex_options (Some ex_lookup) (ex_env 2000) ex_client (Some ex_request_bytes) ex_state1) as [[ev1 st1]| |] eqn:E1;
    [|by vm_compute in E1|by vm_compute in E1].
  assert (exists resp, ev1 = [ToClient ex_client resp]) as [resp ->] by (vm_compute in E1; injection E1 as <- _; by eexists).
  destruct (@turn_retransmission ex_hmac ex_md5 ex_inet ex_options (Some ex_lookup) 9000 ex_first ex_events1 ex_state1
    (ex_env 2000) (ex_env 9000) ex_client ex_request_bytes ex_message resp st1) as (ev & st2 & E2 & Hev & _).
  - exact ex_options_ok.
  - repeat constructor; cbn [clock_prune clock_auth clock_request clock_permission clock_limit ex_env]; try lia;
      intros b [= <-]; by apply bytes_okb_spec.
  - vm_compute. reflexivity.
  - apply (ex_env_ok 2000). lia.
  - apply (ex_env_ok 9000). lia.
  - apply (bytes_okb_spec ex_request_bytes). vm_compute. reflexivity.
  - apply (@Build_turn_request _ ex_message); vm_compute; try reflexivity. split; [reflexivity|discriminate].
  - vm_compute. reflexivity.
  - exact E1.
  - vm_compute. split; [discriminate|reflexivity].
  - exists resp, st1, ev, st2. auto.
Defined.

Lemma turn_everything_expires_witness :
  sessions (Tick 3603000 ex_state) = ∅ /\ size (sessions (Tick 3000 ex_state)) = 1%nat.
Proof.
  split; [|vm_compute; reflexivity].
  destruct (@turn_everything_expires ex_hmac ex_md5 ex_inet ex_options (Some ex_lookup) 3000 ex_ops ex_events ex_state 3603000) as [_ HT].
  - exact ex_options_ok.
  - exact ex_ops_ok.
  - exact ex_run_ret.
  - apply HT; lia.
Defined.
