(* ===== verification/TurnAllocate.v ===== *)
(** * TURN: a client gets its relay

    The composition of the STUN codec, the TURN codec, the authentication and
    the server on the path that matters most to a client: an Allocate request
    that answers the server's challenge.  Everything a caller has to provide is
    a hypothesis of the section; the rest is computed. *)
From Stdlib Require Import Ascii String.
From S2P Require Import Prelude Bytes Stun StunLayout StunProps StunSafety SocketAddr TurnCodec TurnAuth TurnRateLimiter.
From S2P Require Import TurnServer TurnInvariant TurnServerProps.
Import StunCodec.

(** ** Four-byte attributes of a built message *)

Section FourByte.
Context (type : Z) (tx : list Z) (l : list StunAttribute) (Hok : msg_ok type tx l).
Context (t : AttrType) (l1 : list StunAttribute) (a : StunAttribute) (l2 : list StunAttribute).
Context (Hs : split_attr l t = Some (l1, a, l2)) (H4 : blen (value a) = 4).

Lemma FourByteAttribute_found :
  FourByteAttribute (parsed type tx l []) t = Ret (Some (mkView t 4 (20 + blen (body l1) + 4))).
Proof using Hok Hs H4.
  unfold FourByteAttribute, FindAttr. change (attrs _) with (views 20 l). rewrite find_attr_views, Hs. cbn [av_len].
  rewrite H4. cbn [Z.eqb Pos.eqb negb]. destruct (split_attr_spec _ _ _ _ _ Hs) as [El _].
  pose proof (AttrValue_slot _ _ _ [] _ _ _ t Hok El) as E. rewrite H4 in E. rewrite E. cbn [mbnd]. by rewrite H4.
Qed.

Lemma value_in_place :
  exists pre post, raw_bytes (parsed type tx l []) = pre ++ value a ++ post /\ blen pre = 20 + blen (body l1) + 4.
Proof using Hok Hs.
  destruct (split_attr_spec _ _ _ _ _ Hs) as [El _].
  destruct (slot _ _ _ [] _ _ _ Hok El) as (pre & post & Eb & Ep & _). by exists pre, post.
Qed.

Lemma DecodeUInt32_found v : value a = be32 v -> is_u32 v -> DecodeUInt32 (parsed type tx l []) t = Ret (Some v).
Proof using Hok Hs H4.
  intros Ev Hv. unfold DecodeUInt32. rewrite FourByteAttribute_found. cbn [mbnd value_offset].
  destruct value_in_place as (pre & post & Eb & Ep). rewrite Ev in Eb. by rewrite (ReadUint32BE_at pre v post).
Qed.
End FourByte.

Lemma DecodeRequestedTransport_found type tx l l1 l2 x y :
  msg_ok type tx l -> split_attr l REQUESTED_TRANSPORT = Some (l1, mkAttr REQUESTED_TRANSPORT (x :: y), l2) -> blen y = 3 ->
  DecodeRequestedTransport (parsed type tx l []) = Ret (Some x).
Proof.
  intros Hok Hs Hy. assert (blen (x :: y) = 4) as H4 by (unfold blen in *; cbn [length]; lia).
  unfold DecodeRequestedTransport. rewrite (FourByteAttribute_found type tx l Hok _ l1 _ l2 Hs H4). cbn [mbnd value_offset].
  destruct (value_in_place type tx l Hok _ l1 _ l2 Hs) as (pre & post & Eb & Ep). cbn [value app] in Eb.
  by rewrite (rd_at pre x (y ++ post)).
Qed.

(** Attributes of bounded size fit into a message. *)
Lemma check_attributes_fits n s l :
  Forall (fun a => attr_type a <> MESSAGE_INTEGRITY /\ attr_type a <> MESSAGE_INTEGRITY_SHA256 /\ attr_type a <> FINGERPRINT /\
                   blen (value a) <= n) l ->
  n <= 0xFF00 -> s + Z.of_nat (length l) * (n + 7) <= 0xFFFF -> check_attributes s l = true.
Proof.
  intros Hl Hn. revert s. induction Hl as [|a l (T1 & T2 & T3 & Hv) Hl IH]; intros s Hs; cbn [check_attributes]; [done|].
  rewrite !(proj2 (Z.eqb_neq _ _)) by done. pose proof (blen_nonneg (value a)) as H0. cbn [length] in Hs.
  assert (Pad4 (blen (value a)) <= n + 3) as HP by (rewrite Pad4_spec by lia; words).
  assert (0 <= Z.of_nat (length l) * (n + 7)) by nia.
  rewrite !Z.gtb_ltb, !(proj2 (Z.ltb_ge _ _)) by nia. cbn [orb]. apply IH. nia.
Qed.

Section Allocate.
Context {HS : HmacSha1} {MD : Md5} {IP : InetPton}.

(** ** The answer *)

Lemma UInt32Attribute_eq t v : UInt32Attribute t v = Ret (mkAttr t (be32 v)).
Proof.
  unfold UInt32Attribute. change (repeat 0 4) with [0; 0; 0; 0].
  by rewrite (WriteUint32BE_at [] 0 0 0 0 [] [0; 0; 0; 0] 0 v).
Qed.

Lemma XorAddressAttribute_eq (t : AttrType) p tx :
  t = XOR_MAPPED_ADDRESS \/ t = XOR_PEER_ADDRESS \/ t = XOR_RELAYED_ADDRESS -> addr_ok p -> length tx = 12%nat ->
  exists v, EncodeXorAddress (Endpoint p) tx = Some v /\ XorAddressAttribute t (Endpoint p) tx = Some (mkAttr t v) /\ blen v <= 20.
Proof.
  intros Ht Hp Hx. destruct (EncodeXorAddress_size (Endpoint p) tx (Endpoint_ok p Hp) Hx) as (v & Ev & Hv). exists v.
  split; [done|]. split; [|done]. unfold XorAddressAttribute. rewrite Ev. by destruct Ht as [->|[->| ->]].
Qed.

(** What the client reads in the answer. *)
Record allocate_answer (client adv : SocketAddr) (tx key : list Z) (lifetime : Z) (resp : list Z) (r : StunMessageInfo) : Prop := {
  aa_parsed : Parse (Some resp) = Ret (true, r);
  aa_type : method r = method_value Allocate /\ klass r = class_value SuccessResponse;
  aa_txid : txid r = tx;
  aa_integrity : VerifyMessageIntegrity r key = Ret true;
  aa_relayed : DecodeXorAddress r XOR_RELAYED_ADDRESS = Ret (Some (address_of (Endpoint adv)));
  aa_mapped : DecodeXorAddress r XOR_MAPPED_ADDRESS = Ret (Some (address_of (Endpoint client)));
  aa_lifetime : DecodeUInt32 r LIFETIME = Ret (Some lifetime)
}.

Lemma allocate_response_built client m key a lifetime :
  length (txid m) = 12%nat -> method m = method_value Allocate -> addr_ok client -> addr_ok (advertised a) ->
  key <> [] -> blen key <= 0x7FFFFFFF -> (forall data, HMAC key data <> None) -> is_u32 lifetime ->
  exists resp r, allocate_response client m key a lifetime = Ret resp /\ resp <> [] /\
    allocate_answer client (advertised a) (txid m) key lifetime resp r.
Proof.
  intros Hx Hm Hc Ha Hk Hks Hmac Hl. unfold allocate_response.
  destruct (XorAddressAttribute_eq XOR_RELAYED_ADDRESS (advertised a) (txid m)) as (v1 & E1 & -> & S1); [auto|done|done|].
  destruct (XorAddressAttribute_eq XOR_MAPPED_ADDRESS client (txid m)) as (v2 & E2 & -> & S2); [auto|done|done|].
  rewrite UInt32Attribute_eq. cbn [mbnd]. unfold Success. rewrite Hm.
  set (l := [mkAttr XOR_RELAYED_ADDRESS v1; mkAttr XOR_MAPPED_ADDRESS v2; mkAttr LIFETIME (be32 lifetime)]).
  assert (mi_size key = 24) as Hmi by (by destruct key). pose proof (blen_nonneg v1). pose proof (blen_nonneg v2).
  assert (check_attributes (mi_size key + fp_size true) l = true) as Hchk.
  { apply (check_attributes_fits 20); [|done|rewrite Hmi; by compute].
    repeat (apply Forall_cons_2; [by split_and!|]). constructor. }
  destruct (message_built (method_value Allocate) (class_value SuccessResponse) (txid m) l key true)
    as (out & l' & HB & Hsz & _ & Hse & Hok & HP); try done; [repeat constructor; by compute|].
  rewrite HB. cbn [mbnd or_empty]. destruct (HP []) as (P1 & P2 & [_ A2 _ _ A5 _]). rewrite app_nil_r in P1.
  exists out. eexists. split; [done|]. split; [intros ->; pose proof (blen_nonneg (body l')); change (blen []) with 0 in Hsz; lia|].
  assert (Forall (fun a => attr_type a <> MESSAGE_INTEGRITY) l) as HF by (repeat constructor; done).
  pose proof (fun (t : AttrType) H1 H2 => split_sealed _ _ _ _ _ _ t Hse H1 H2 HF) as HX.
  destruct (HX XOR_RELAYED_ADDRESS) as [k1 K1]; [done|done|]. destruct (HX XOR_MAPPED_ADDRESS) as [k2 K2]; [done|done|].
  destruct (HX LIFETIME) as [k3 K3]; [done|done|].
  split; [exact P1|split; [exact (f_equal fst P2)|exact (f_equal snd P2)]|done|by apply A5|..].
  - eapply (DecodeXorAddress_spec _ _ _ [] Hok XOR_RELAYED_ADDRESS _ v1); [auto|by apply Endpoint_ok|done|exact K1].
  - eapply (DecodeXorAddress_spec _ _ _ [] Hok XOR_MAPPED_ADDRESS _ v2); [auto|by apply Endpoint_ok|done|exact K2].
  - by eapply (DecodeUInt32_found _ _ _ Hok LIFETIME _ _ _ K3).
Qed.

(** ** The request as the server sees it *)

Lemma message_not_channel type len tx l :
  0 <= type < 0x4000 -> is_u16 len -> ParseChannelDataDatagram (Some (message type len tx l)) = Ret None.
Proof.
  intros Ht Hn. cbn [ParseChannelDataDatagram]. unfold CHANNEL_HEADER_BYTES, CHANNEL_LENGTH_OFFSET. split_if; [done|]. bool_hyps.
  unfold message. rewrite (ReadUint16BE_at [] type (be16 len ++ tail_bytes tx l)) by (done || words). cbn [mbnd].
  rewrite (ReadUint16BE_at (be16 type) len (tail_bytes tx l)) by done. cbn [mbnd].
  unfold ValidChannel, kFirstChannel. rewrite (proj2 (Z.leb_gt _ _)) by lia. done.
Qed.

Definition transport_attr : StunAttribute := RequestedTransportAttribute kUdpTransport.

Lemma allocate_seen tx u r n key l' :
  key <> [] -> sealed (EncodeType (method_value Allocate) 0) tx (credential_attrs u r n [transport_attr]) key true = Some l' ->
  msg_ok (EncodeType (method_value Allocate) 0) tx l' ->
  let m := parsed (EncodeType (method_value Allocate) 0) tx l' [] in
  UnknownAttributes m = [] /\ AttributeCount m LIFETIME = 0%nat /\ AttributeCount m REQUESTED_TRANSPORT = 1%nat /\
  requested_family m = Ret (Some IPv4) /\ DecodeRequestedTransport m = Ret (Some kUdpTransport).
Proof.
  intros Hk Hse Hok. assert (exists h tl, l' = credential_attrs u r n [transport_attr] ++ mkAttr MESSAGE_INTEGRITY h :: tl) as (h & tl & ->).
  { unfold sealed, seal_mi in Hse. destruct key as [|k0 key]; [done|]. destruct (HMAC _ _) as [h|]; [|done]. injection Hse as <-. by do 2 eexists. }
  cbv zeta. split; [reflexivity|]. split; [reflexivity|]. split; [reflexivity|]. split; [reflexivity|].
  eapply DecodeRequestedTransport_found; [done|reflexivity|reflexivity].
Qed.

Lemma body_bound n l :
  Forall (fun a => attr_ok a /\ blen (value a) <= n) l -> blen (body l) <= Z.of_nat (length l) * (n + 7).
Proof.
  intros Hl. induction Hl as [|a l [Ha Hv] _ IH]; [done|]. rewrite body_cons, blen_app, blen_attr by done.
  cbn [length]. destruct Ha as [_ Ha]. pose proof (blen_nonneg (value a)). rewrite Pad4_spec by lia. words.
Qed.

(** ** Finding a port *)

Section Port.
Context (options : TurnServerOptions) (Ho : options_ok options) (env : Env) (ip : list Z) (p : Z).
Context (Hmin : relay_port_min options <> 0) (Hp : relay_port_min options <= p <= relay_port_max options).
Context (Hbind : relay_start env ip p <> None).

(** How many ports are tried before [p]. *)
Definition port_distance (next : Z) : Z :=
  if next <=? p then p - next else p - next + (relay_port_max options - relay_port_min options + 1).

Lemma open_loop_finds k : forall next,
  relay_port_min options <= next <= relay_port_max options -> port_distance next < Z.of_nat k ->
  exists local, fst (open_loop options env ip k next) = Some local.
Proof using Ho Hmin Hp Hbind.
  destruct (oo_ports _ Ho) as [P1 P2]. unfold port_distance.
  induction k as [|k IH]; intros next Hn Hd; [destruct (Z.leb_spec next p); lia|]. cbn [open_loop].
  rewrite (proj2 (Z.eqb_neq _ _) Hmin), (wrap_small 16) by words. cbn [negb].
  destruct (relay_start env ip next) as [local|] eqn:E; [by exists local|].
  assert (next <> p) as Hne by congruence. apply IH.
  - destruct (Z.eqb_spec next (relay_port_max options)); [lia|]. rewrite (wrap_small 32) by words. lia.
  - destruct (Z.eqb_spec next (relay_port_max options)) as [->|].
    + rewrite (proj2 (Z.leb_le (relay_port_min options) p)) by lia. destruct (Z.leb_spec (relay_port_max options) p); lia.
    + rewrite (wrap_small 32) by words. destruct (Z.leb_spec next p), (Z.leb_spec (next + 1) p); lia.
Qed.
End Port.

(** One of the ports the server may use can be bound. *)
Definition port_free (options : TurnServerOptions) (env : Env) : Prop :=
  exists p, (if relay_port_min options =? 0 then p = 0 else relay_port_min options <= p <= relay_port_max options) /\
    relay_start env (relay_bind_ip options) p <> None.

Lemma OpenRelay_finds options env st :
  options_ok options -> port_ok options (next_port st) -> port_free options env ->
  exists local np, OpenRelay options env IPv4 st = (Some local, with_next_port st np).
Proof.
  intros Ho [H0 Hpo] (p & Hp & Hb). unfold OpenRelay, attempts.
  enough (exists local, fst (open_loop options env (relay_bind_ip options)
    (Z.to_nat (if relay_port_min options =? 0 then 1 else u32 (relay_port_max options - relay_port_min options + 1))) (next_port st)) = Some local)
    as [local E] by (destruct (open_loop _ _ _ _ _) as [r np]; cbn [fst] in E; subst r; by do 2 eexists).
  destruct (oo_ports _ Ho) as [P1 P2]. destruct (Z.eqb_spec (relay_port_min options) 0) as [E0|E0].
  - rewrite (H0 E0). change (Z.to_nat 1) with 1%nat. cbn [open_loop]. change (u16 0) with 0. subst p.
    destruct (relay_start _ _ _); [by eexists|done].
  - specialize (Hpo E0 ltac:(lia)). apply (open_loop_finds options Ho env _ p E0 Hp Hb); [done|].
    unfold port_distance. rewrite (wrap_small 32) by words. rewrite Z2Nat.id by lia. destruct (Z.leb_spec (next_port st) p); lia.
Qed.

Lemma advertised_ok options lookup local :
  config_ok options lookup = true -> is_empty (advertised_ip options) = false -> is_u16 local ->
  addr_ok (FromIPPort (advertised_ip options) local).
Proof.
  intros Hc Hne Hl. assert (RelayConfigValid (relay_bind_ip options) (advertised_ip options) false = true) as HR.
  { unfold config_ok in Hc. rewrite !andb_true_iff in Hc. tauto. }
  unfold RelayConfigValid in HR. rewrite Hne, andb_false_r in HR. unfold FromIPPort in HR |- *.
  destruct (inet_pton4 (advertised_ip options)) as [x|] eqn:E4.
  - split; [done|]. apply inet_pton4_size in E4. unfold blen. lia.
  - exfalso. destruct (inet_pton6 (advertised_ip options)); cbn [IsV4] in HR; rewrite ?andb_false_r in HR; done.
Qed.

(** ** The request handled *)

(** The allocation a user is given. *)
Definition granted (options : TurnServerOptions) (env : Env) (username : list Z) (a : Allocation) : Prop :=
  al_username a = username /\ advertised a = FromIPPort (advertised_ip options) (relay a) /\
  expires a = Deadline (clock_request env) 600000 /\ permissions a = ∅ /\ channels a = ∅.

Lemma HandleRequest_allocates options lookup T env client tx u r n key l' data s st :
  let m := parsed (EncodeType (method_value Allocate) 0) tx l' [] in
  options_ok options -> server_ok options lookup T st -> started st = true -> addr_ok client -> length tx = 12%nat ->
  (forall ip p q, relay_start env ip p = Some q -> is_u16 q) ->
  key <> [] -> blen key <= 0x7FFFFFFF -> (forall data, HMAC key data <> None) ->
  sealed (EncodeType (method_value Allocate) 0) tx (credential_attrs u r n [transport_attr]) key true = Some l' ->
  msg_ok (EncodeType (method_value Allocate) 0) tx l' -> method m = method_value Allocate -> allocation s = None ->
  AllocationCount st [] < max_allocations options -> AllocationCount st u < max_allocations_per_user options ->
  is_empty (advertised_ip options) = false -> port_free options env ->
  exists a resp ans st', HandleRequest options env client m u key data s st = Ret (resp, set_allocation s (Some a), st') /\
    sessions st' = sessions st /\ control st' = control st /\ granted options env u a /\ resp <> [] /\
    allocate_answer client (advertised a) tx key 600 resp ans.
Proof.
  intros m Ho Hok Hst Hcl Hx Hu16 Hk Hks Hmac Hse Hmok Hm Ha C1 C2 Hadv Hfree.
  destruct (allocate_seen tx u r n key l' Hk Hse Hmok) as (U1 & U2 & U3 & U4 & U5). fold m in U1, U2, U3, U4, U5.
  unfold HandleRequest. rewrite Ha, U1, Hm, U2. cbn [is_empty negb]. change (method_value Allocate =? method_value Allocate) with true.
  change (method_value Allocate =? method_value Refresh) with false. cbn [orb].
  rewrite (bool_decide_eq_false_2 (1 < 0)%nat) by lia. rewrite bool_decide_eq_true_2 by done. cbn [mbnd].
  unfold HandleAllocate. rewrite U3, bool_decide_eq_false_2 by (intros F; by apply F). rewrite U5. cbn [mbnd].
  change (kUdpTransport =? kUdpTransport) with true. cbn [negb]. rewrite U4. cbn [mbnd]. rewrite Hadv, Ha.
  rewrite !(proj2 (Z.leb_gt _ _)) by done. cbn [orb].
  destruct (OpenRelay_finds options env st Ho (sv_port _ _ _ _ Hok) Hfree) as (local & np & EO). rewrite EO.
  change (clamp kDefaultLifetime kDefaultLifetime kMaxLifetime) with 600. change (600 * MS_PER_SECOND) with 600000.
  set (a := mkAllocation _ _ _ _ _ _ _ _ _).
  assert (is_u16 local) as Hloc.
  { unfold OpenRelay in EO. clear -EO Hu16. revert EO. generalize (next_port st). generalize (Z.to_nat (attempts options)).
    intros k. induction k as [|k IH]; intros nx; cbn [open_loop]; [done|].
    destruct (relay_start env _ _) as [q|] eqn:E; [intros [= <- _]; by eapply Hu16|apply IH]. }
  destruct (allocate_response_built client m key a 600) as (resp & ans & -> & Hne & Hans); try done.
  { apply (advertised_ok options lookup); [by apply (sv_config _ _ _ _ Hok)|done|done]. }
  cbn [mbnd]. exists a, resp, ans. eexists. destruct resp; [done|]. cbn [is_empty]. split; [done|]. done.
Qed.

(** What the client has to bring: a session with a current nonce, known
    credentials and a fresh transaction id. *)
Record prepared (options : TurnServerOptions) (lookup : option (list Z -> option (list Z))) (env : Env) (s : Session)
    (tx username key : list Z) : Prop := {
  pr_session : allocation s = None /\ find_cached tx (cache s) = None;
  pr_nonce : NonceExpired (auth options lookup) (s_auth s) (clock_auth env) = false /\
    ValidAsciiText (nonce_ (s_auth s)) TEXT_MAX_BYTES false = true;
  pr_user : ValidAsciiText username USERNAME_MAX_BYTES false = true;
  pr_password : exists f password, lookup = Some f /\ f username = Some password /\
    ValidAsciiText password TEXT_MAX_BYTES true = true /\
    DerivePreparedLegacyKey username (realm options) password = Some key;
  pr_txid : length tx = 12%nat;
  pr_hmac : forall data, HMAC key data <> None
}.

Lemma ascii_size s limit allow : ValidAsciiText s limit allow = true -> blen s <= limit.
Proof. unfold ValidAsciiText. intros E. bool_hyps. lia. Qed.

Lemma extra_plain : Forall plain [transport_attr].
Proof. repeat constructor; discriminate. Qed.

Lemma credentials_fit u r n :
  blen u <= 763 -> blen r <= 763 -> blen n <= 763 ->
  check_attributes (24 + fp_size true) (credential_attrs u r n [transport_attr]) = true.
Proof.
  intros. apply (check_attributes_fits 763); [|done|by compute].
  repeat (apply Forall_cons_2; [by split_and!|]). constructor.
Qed.

Lemma credentials_size tx u r n key l' :
  blen u <= 763 -> blen r <= 763 -> blen n <= 763 -> key <> [] ->
  sealed (EncodeType (method_value Allocate) 0) tx (credential_attrs u r n [transport_attr]) key true = Some l' ->
  0 <= blen (body l') <= 4 * 770 + 32.
Proof.
  intros Hu Hr Hn Hk Hse. split; [apply blen_nonneg|].
  assert (blen (body (credential_attrs u r n [transport_attr])) <= 4 * 770) as HB.
  { apply (body_bound 763). repeat (apply Forall_cons_2; [split; [split; [by compute|]|]; cbn [value]; first [lia|by compute]|]). constructor. }
  unfold sealed in Hse. destruct (seal_mi _ _ _ _) as [mi|] eqn:Em; [|done]. apply Some_inj in Hse as <-.
  apply seal_mi_size in Em. rewrite app_assoc, body_app, blen_app, Em. cbn [seal_fp].
  assert (mi_size key = 24) as -> by (by destruct key). rewrite body_cons, blen_app, blen_fp. change (blen (body [])) with 0. lia.
Qed.

(** The request reaches the request handler. *)
Lemma allocate_is_request tx u r n key l' out :
  let m := parsed (EncodeType (method_value Allocate) 0) tx l' [] in
  key <> [] -> sealed (EncodeType (method_value Allocate) 0) tx (credential_attrs u r n [transport_attr]) key true = Some l' ->
  msg_ok (EncodeType (method_value Allocate) 0) tx l' -> Parse (Some out) = Ret (true, m) ->
  (method m, klass m) = (method_value Allocate, 0) -> VerifyFingerprint m = Ret true ->
  blen out = 20 + blen (body l') -> 0 <= blen (body l') <= 4000 -> turn_request out m.
Proof.
  intros m Hk Hse Hok HP HM HF Hsz Hbl. destruct (sealed_credentials _ _ _ _ _ _ _ _ _ extra_plain Hk Hse Hok) as (_ & _ & _ & CF & _). split.
  - unfold ParseStunDatagram. rewrite HP. cbn [mbnd negb orb]. change (raw_len m) with (20 + blen (body l')). by rewrite Hsz, Z.eqb_refl.
  - unfold ValidFingerprint. fold m in CF. by rewrite CF.
  - exact (f_equal snd HM).
  - unfold is_turn_method. by rewrite (f_equal fst HM : method m = _).
  - unfold kMaxControlBytes. lia.
Qed.

(** (C32) A client gets its relay.  Take any reachable state of a started
    server in which the client has a session with a current nonce and no
    allocation.  A client that knows a user's password builds an Allocate
    request that answers the challenge; if the limits leave room, the server
    advertises an IPv4 address and some port of its range can be bound, then
    the server answers at once: the session now holds an allocation of that
    user for ten minutes without permissions or channels, and the client reads
    in the answer, which verifies under its key, the relayed address, its own
    reflexive address and the lifetime of 600 seconds. *)
Theorem turn_allocate_succeeds options lookup T ops es st env client tx username key :
  options_ok options -> Forall (op_ok T) ops -> run options lookup ops (Impl_init options) = Ret (es, st) -> env_ok T env ->
  started st = true -> addr_ok client -> (forall ip p q, relay_start env ip p = Some q -> is_u16 q) ->
  let st0 := Prune (clock_prune env) st in
  let s := session_of st0 client in
  is_Some (sessions st0 !! client) -> prepared options lookup env s tx username key ->
  AllocationCount st0 [] < max_allocations options -> AllocationCount st0 username < max_allocations_per_user options ->
  is_empty (advertised_ip options) = false -> port_free options env ->
  exists out resp ans st' a,
    BuildMessage (method_value Allocate) (class_value Request) tx
      (credential_attrs username (realm options) (nonce_ (s_auth s)) [transport_attr]) key true = Ret (Some out) /\
    OnControl options lookup env client (Some out) st = Ret ([ToClient client resp], st') /\
    allocation (session_of st' client) = Some a /\ granted options env username a /\
    allocate_answer client (advertised a) tx key 600 resp ans.
Proof.
  intros Ho Hops Hrun He Hst Hcl Hu16 st0 s Hses [[Ha Hca] [Hn1 Hn2] Hu (f & pw & -> & Hf & Hpw & Hkey) Hx Hmac] C1 C2 Hadv Hfree.
  pose proof (reachable_ok options _ T ops es st Ho Hops Hrun) as Hok. pose proof (Prune_ok _ _ T (clock_prune env) st Hok) as Hok0. fold st0 in Hok0.
  assert (IsConfigured (auth options (Some f)) = true) as Hcfg.
  { pose proof (sv_config _ _ _ _ Hok Hst) as Hc. unfold config_ok in Hc. rewrite !andb_true_iff in Hc. tauto. }
  assert (blen (realm options) <= 127) as Hre.
  { unfold IsConfigured in Hcfg. rewrite !andb_true_iff in Hcfg. apply (ascii_size _ REALM_MAX_BYTES false). tauto. }
  pose proof (ascii_size _ _ _ Hu) as Hus. pose proof (ascii_size _ _ _ Hn2) as Hns. unfold USERNAME_MAX_BYTES, TEXT_MAX_BYTES in *.
  destruct (Authenticate_complete (auth options (Some f)) (fresh_nonce env) (clock_auth env) (s_auth s) Allocate tx username pw key f
    [transport_attr] true) as (out & l' & HB & Hsz & Hout & Hse & Hmok & HP & HM & HFP & HA);
    [done|done|done|done|done|done|done|done|by left|done|exact extra_plain|repeat constructor; by compute| |done|].
  { apply credentials_fit; cbn [realm_ auth]; lia. }
  set (m := parsed _ tx l' []) in *. destruct (DerivePreparedLegacyKey_size _ _ _ _ Hkey) as [Hk16 Hkn].
  pose proof (credentials_size tx username (realm options) (nonce_ (s_auth s)) key l' ltac:(lia) ltac:(lia) ltac:(lia) Hkn Hse) as Hbl.
  assert (turn_request out m) as Htr by (eapply allocate_is_request; try done; [by apply HFP|lia]).
  assert (ParseChannelDataDatagram (Some out) = Ret None) as Hnc.
  { rewrite Hout. apply message_not_channel; [by compute|words]. }
  assert (IsValid client = true) as Hv by (by destruct client).
  assert (has_room options st0 client = true) as Hroom by (unfold has_room; destruct Hses as [x ->]; done).
  destruct (touched options (Some f) T env client st0 Hok0 Hst Hv He Hroom) as [_ Hok1].
  destruct (HandleRequest_allocates options (Some f) T env client tx username (realm options) (nonce_ (s_auth s)) key l' out
    (set_auth (set_activity s (clock_prune env)) (s_auth s)) (touch st0 client (clock_prune env)))
    as (a & resp & ans & st1 & HH & E1 & E2 & HG & Hne & Hans); rewrite ?touch_count; try done; [lia|].
  set (s2 := set_cache (set_allocation (set_auth (set_activity s (clock_prune env)) (s_auth s)) (Some a))
    (push_cached (cache s) (mkCached tx out resp (Deadline (clock_prune env) kCacheMs) false))).
  destruct (SendResponse_spec options env client resp false (with_sessions st1 (<[client := s2]> (sessions st1))))
    as (ev & st' & HSR & HSd & _ & Hev); [cbn [control with_sessions]; rewrite E2; by apply (sv_control _ _ _ _ Hok1)|].
  exists out, resp, ans, st', a. split; [done|]. split; [|split; [|done]].
  - rewrite (OnControl_stun options _ env client out m st Hnc Htr Hst Hv). fold st0. unfold on_request.
    unfold has_room in Hroom. apply negb_true_iff in Hroom as ->. cbv zeta. fold s.
    change (cache (set_activity s _)) with (cache s). change (txid m) with tx. rewrite Hca.
    change (s_auth (set_activity s _)) with (s_auth s). rewrite HA. cbn [mbnd]. unfold answer. cbn [status auth_username integrity_key].
    fold m in HH. rewrite HH. cbn [mbnd]. destruct resp; [done|]. cbn [is_empty]. change (is_unauthorized _) with false.
    rewrite <- (Hev eq_refl). exact HSR.
  - unfold session_of. by rewrite (ss_sessions _ _ HSd); cbn [sessions with_sessions]; rewrite lookup_insert_eq.
Qed.
End Allocate.

Lemma turn_allocate_succeeds_witness :
  exists out resp ans st' a,
    @BuildMessage ex_hmac (method_value Allocate) (class_value Request) (ex_tx 2)
      (credential_attrs (text "alice") (text "packetia") (text "n0nce") [transport_attr]) ex_key true = Ret (Some out) /\
    @OnControl ex_hmac ex_md5 ex_inet ex_options (Some ex_lookup) (ex_env 2000) ex_client (Some out) ex_state1 =
      Ret ([ToClient ex_client resp], st') /\
    allocation (session_of st' ex_client) = Some a /\ al_username a = text "alice" /\
    DecodeUInt32 ans LIFETIME = Ret (Some 600).
Proof.
  destruct (@turn_allocate_succeeds ex_hmac ex_md5 ex_inet ex_options (Some ex_lookup) 2000 ex_first ex_events1 ex_state1 (ex_env 2000)
    ex_client (ex_tx 2) (text "alice") ex_key) as (out & resp & ans & st' & a & H1 & H2 & H3 & H4 & H5).
  - exact ex_options_ok.
  - repeat constructor; cbn [clock_prune clock_auth clock_request clock_permission clock_limit ex_env]; try lia;
      intros b [= <-]; by apply bytes_okb_spec.
  - vm_compute. reflexivity.
  - apply ex_env_ok. lia.
  - vm_compute. reflexivity.
  - by compute.
  - intros ip p q. cbn [relay_start ex_env]. destruct (_ && _) eqn:E; [|done]. intros [= <-]. bool_hyps. words.
  - vm_compute. eexists. reflexivity.
  - split.
    + by vm_compute.
    + by vm_compute.
    + by vm_compute.
    + exists ex_lookup, (text "secret"). by vm_compute.
    + reflexivity.
    + discriminate.
  - vm_compute. reflexivity.
  - vm_compute. reflexivity.
  - vm_compute. reflexivity.
  - exists 50002. by vm_compute.
  - exists out, resp, ans, st', a. split; [exact H1|]. split; [exact H2|]. split; [exact H3|]. split; [apply H4|apply H5].
Defined.
