(* ===== verification/H264.v ===== *)
(** * H.264 RTP payloads

    Models [Common/Depacketizer/H264Payload.h] (the data), [RtpView] of
    [Depacketizer.h] and [H264RtpPayloadParser.cpp] (single NAL units, STAP-A
    aggregates and FU-A fragments).  The second half states the RFC 6184 layout
    a sender follows as a function, [packet_bytes], and proves that the parser
    recovers what was put into it, and that it is safe and ends on any bytes. *)
From S2P Require Import Prelude Bytes.

(** ** Data *)

Inductive H264PayloadUnitType : Type :=
| UnitUnknown
| SingleNalu
| StapANalu
| FuAFragment.

(** The values of [enum class H264NalType] the code compares with. *)
Definition nal_NonIdr : Z := 1.
Definition nal_Idr : Z := 5.
Definition nal_Sps : Z := 7.
Definition nal_Pps : Z := 8.
Definition nal_StapA : Z := 24.
Definition nal_FuA : Z := 28.

Definition H264GetNalType (nal_header : Z) : Z := Z.land nal_header 0x1F.

Definition H264IsKeyNaluType (type : Z) : bool :=
  (type =? nal_Idr) || (type =? nal_Sps) || (type =? nal_Pps).

Record H264PayloadUnit : Type := mkUnit {
  unit_type : H264PayloadUnitType;
  nal_type : Z;
  udata : list Z;
  fu_start : bool;
  fu_end : bool;
  reconstructed_nal_header : Z;
  first_slice : bool;
  is_sps : bool;
  is_pps : bool;
  is_idr : bool;
  is_key : bool }.

Record H264ParsedPacket : Type := mkParsed {
  pvalid : bool;
  pmalformed : bool;
  pssrc : Z;
  pseq : Z;
  ptimestamp : Z;
  preceive_time_ms : Z;
  pmarker : bool;
  begins_frame : bool;
  ends_frame : bool;
  phas_key_nalu : bool;
  phas_sps : bool;
  phas_pps : bool;
  phas_idr : bool;
  punits : list H264PayloadUnit }.

Definition empty_parsed : H264ParsedPacket :=
  mkParsed false false 0 0 0 0 false false false false false false false [].

Record H264AccessUnit : Type := mkAU {
  fssrc : Z;
  ftimestamp : Z;
  freceive_time_ms : Z;
  first_seq : Z;
  last_seq : Z;
  fcomplete : bool;
  fbroken : bool;
  fmarker : bool;
  fkeyframe : bool;
  fhas_sps : bool;
  fhas_pps : bool;
  fhas_idr : bool;
  fnalus : list (list Z) }.

Definition empty_au : H264AccessUnit :=
  mkAU 0 0 0 0 0 false false false false false false false [].

Definition SizeBytes (au : H264AccessUnit) : Z :=
  foldl (fun total nalu => u64 (total + blen nalu)) 0 (fnalus au).

Definition start_code : list Z := [0; 0; 0; 1].

Definition ToAnnexB (au : H264AccessUnit) : list Z :=
  foldl (fun out nalu => (out ++ start_code) ++ nalu) [] (fnalus au).

(** [payload] and [payload_len] are one buffer; [None] is the null pointer. *)
Record RtpView : Type := mkView {
  vseq : Z;
  vts : Z;
  vmarker : bool;
  vpayload : cbuf;
  vssrc : Z;
  vreceive_time_ms : Z }.

Definition payload_len (v : RtpView) : Z := from_option blen 0 (vpayload v).

Definition view_valid (v : RtpView) : bool :=
  match vpayload v with None => false | Some b => negb (blen b =? 0) end.

(** ** H264RtpPayloadParser

    [out] is the caller's packet, passed along as the code does; the result
    pairs it with the returned flag. *)

Definition FillCommon (v : RtpView) (out : H264ParsedPacket) : H264ParsedPacket :=
  mkParsed (pvalid out) (pmalformed out) (vssrc v) (vseq v) (vts v)
    (vreceive_time_ms v) (vmarker v) (begins_frame out) (ends_frame out)
    (phas_key_nalu out) (phas_sps out) (phas_pps out) (phas_idr out) (punits out).

Definition set_malformed (out : H264ParsedPacket) : H264ParsedPacket :=
  mkParsed (pvalid out) true (pssrc out) (pseq out) (ptimestamp out)
    (preceive_time_ms out) (pmarker out) (begins_frame out) (ends_frame out)
    (phas_key_nalu out) (phas_sps out) (phas_pps out) (phas_idr out) (punits out).

(** [out.valid = true; out.begins_frame = b; out.ends_frame = e]. *)
Definition set_valid (out : H264ParsedPacket) (b e : bool) : H264ParsedPacket :=
  mkParsed true (pmalformed out) (pssrc out) (pseq out) (ptimestamp out)
    (preceive_time_ms out) (pmarker out) b e
    (phas_key_nalu out) (phas_sps out) (phas_pps out) (phas_idr out) (punits out).

(** [UpdateKeyInfo(out, unit)], which updates both. *)
Definition UpdateKeyInfo (out : H264ParsedPacket) (u : H264PayloadUnit)
  : H264ParsedPacket * H264PayloadUnit :=
  let sps := nal_type u =? nal_Sps in
  let pps := nal_type u =? nal_Pps in
  let idr := nal_type u =? nal_Idr in
  let key := H264IsKeyNaluType (nal_type u) in
  (mkParsed (pvalid out) (pmalformed out) (pssrc out) (pseq out) (ptimestamp out)
     (preceive_time_ms out) (pmarker out) (begins_frame out) (ends_frame out)
     (phas_key_nalu out || key) (phas_sps out || sps) (phas_pps out || pps)
     (phas_idr out || idr) (punits out),
   mkUnit (unit_type u) (nal_type u) (udata u) (fu_start u) (fu_end u)
     (reconstructed_nal_header u) (first_slice u) sps pps idr key).

(** [out.units.emplace_back(std::move(unit))]. *)
Definition push_unit (out : H264ParsedPacket) (u : H264PayloadUnit) : H264ParsedPacket :=
  mkParsed (pvalid out) (pmalformed out) (pssrc out) (pseq out) (ptimestamp out)
    (preceive_time_ms out) (pmarker out) (begins_frame out) (ends_frame out)
    (phas_key_nalu out) (phas_sps out) (phas_pps out) (phas_idr out)
    (punits out ++ [u]).

Definition add_unit (out : H264ParsedPacket) (u : H264PayloadUnit) : H264ParsedPacket :=
  let '(out, u) := UpdateKeyInfo out u in push_unit out u.

(** [nal_type == 1 || nal_type == 5]: an ordinary slice. *)
Definition is_slice (t : Z) : bool := (t =? nal_NonIdr) || (t =? nal_Idr).

(** [c && (payload[i] & 0x80)]: the byte is read only when [c] holds. *)
Definition first_slice_bit (c : bool) (b : list Z) (i : Z) : mres bool :=
  if c then let! x := rd b i in Ret (negb (Z.land x 0x80 =? 0)) else Ret false.

Definition ParseSingleNalu (v : RtpView) (b : list Z) (out : H264ParsedPacket)
  : mres (bool * H264ParsedPacket) :=
  let! h := rd b 0 in
  let t := H264GetNalType h in
  if is_slice t && (blen b <? 2) then Ret (false, set_malformed out) else
  let! fs := first_slice_bit (is_slice t) b 1 in
  let u := mkUnit SingleNalu t b false false 0 fs false false false false in
  Ret (true, set_valid (add_unit out u) false (vmarker v)).

(** The [while] of [ParseStapA]: the flag says whether it ended at its condition
    ([true]) or by [return false]. *)
Fixpoint stap_loop (fuel : nat) (b : list Z) (offset : Z) (out : H264ParsedPacket)
  : mres (bool * Z * H264ParsedPacket) :=
  match fuel with
  | O => NoFuel
  | S fuel =>
    if negb (offset + 2 <=? blen b) then Ret (true, offset, out) else
    let! hi := rd b offset in
    let! lo := rd b (offset + 1) in
    let nalu_size := Z.lor (Z.shiftl hi 8) lo in
    let offset := offset + 2 in
    if (nalu_size =? 0) || (blen b <? offset + nalu_size)
    then Ret (false, offset, set_malformed out) else
    let! h := rd b offset in
    let t := H264GetNalType h in
    if negb (Z.land h 0x80 =? 0) || (t =? 0) || (24 <=? t) ||
       (is_slice t && (nalu_size <? 2))
    then Ret (false, offset, set_malformed out) else
    let! fs := first_slice_bit (is_slice t) b (offset + 1) in
    let! data := read_bytes b offset nalu_size in
    let u := mkUnit StapANalu t data false false 0 fs false false false false in
    stap_loop fuel b (offset + nalu_size) (add_unit out u)
  end.

Definition ParseStapA (v : RtpView) (b : list Z) (out : H264ParsedPacket)
  : mres (bool * H264ParsedPacket) :=
  let! '(ok, offset, out) := stap_loop (S (length b)) b 1 out in
  if negb ok then Ret (false, out) else
  if negb (offset =? blen b) || match punits out with [] => true | _ => false end
  then Ret (false, set_malformed out)
  else Ret (true, set_valid out (begins_frame out) (vmarker v)).

Definition ParseFuA (v : RtpView) (b : list Z) (out : H264ParsedPacket)
  : mres (bool * H264ParsedPacket) :=
  if blen b <? 3 then Ret (false, set_malformed out) else
  let! indicator := rd b 0 in
  let! header := rd b 1 in
  let start := negb (Z.land header 0x80 =? 0) in
  let fin := negb (Z.land header 0x40 =? 0) in
  let t := Z.land header 0x1F in
  if negb (Z.land header 0x20 =? 0) || (start && fin) || (t =? 0) || (24 <=? t)
  then Ret (false, set_malformed out) else
  let! fs := first_slice_bit (start && is_slice t) b 2 in
  let! data := read_bytes b 2 (blen b - 2) in
  let u := mkUnit FuAFragment t data start fin
             (u8 (Z.lor (Z.land indicator 0xE0) t)) fs false false false false in
  Ret (true, set_valid (add_unit out u) start (fin && vmarker v)).

Definition Parse (v : RtpView) : mres (bool * H264ParsedPacket) :=
  let out := FillCommon v empty_parsed in
  if negb (view_valid v) then Ret (false, set_malformed out) else
  match vpayload v with
  | None => Ret (false, set_malformed out)
  | Some b =>
    if blen b =? 0 then Ret (false, set_malformed out) else
    let! nal_header := rd b 0 in
    if negb (Z.land nal_header 0x80 =? 0) then Ret (false, set_malformed out) else
    let t := H264GetNalType nal_header in
    if (1 <=? t) && (t <=? 23) then ParseSingleNalu v b out
    else if t =? nal_StapA then ParseStapA v b out
    else if t =? nal_FuA then ParseFuA v b out
    else Ret (false, set_malformed out)
  end.

(** ** What a sender puts into a packet (RFC 6184)

    A NAL unit alone, an aggregate of several, or a fragment of one. *)
Inductive rtp_unit : Type :=
| PkSingle (nalu : list Z)
| PkStap (nri : Z) (nalus : list (list Z))
| PkFu (header : Z) (start fin : bool) (chunk : list Z).

Definition flag (b : bool) (v : Z) : Z := if b then v else 0.

Definition packet_bytes (p : rtp_unit) : list Z :=
  match p with
  | PkSingle nalu => nalu
  | PkStap nri nalus => (nri * 32 + 24) :: concat (map (fun n => be16 (blen n) ++ n) nalus)
  | PkFu header start fin chunk =>
    [Z.lor (Z.land header 0xE0) 28; flag start 128 + flag fin 64 + header mod 32] ++ chunk
  end.

(** A NAL unit that can travel on its own: forbidden bit clear, an ordinary type,
    and a slice has at least the first byte of its header. *)
Definition nalu_ok (n : list Z) : Prop :=
  bytes_ok n /\ n <> [] /\ bget n 0 < 128 /\ 1 <= bget n 0 mod 32 <= 23 /\
  (is_slice (bget n 0 mod 32) = true -> 2 <= blen n).

Definition fu_header_ok (h : Z) : Prop := 0 <= h < 128 /\ 1 <= h mod 32 <= 23.

Definition rtp_unit_ok (p : rtp_unit) : Prop :=
  match p with
  | PkSingle n => nalu_ok n
  | PkStap nri ns =>
    0 <= nri < 4 /\ ns <> [] /\ Forall (fun n => nalu_ok n /\ blen n < 65536) ns
  | PkFu h s e c =>
    fu_header_ok h /\ s && e = false /\ bytes_ok c /\ c <> []
  end.

(** The first bit of the byte at [i], for a slice. *)
Definition slice_bit (t : Z) (b : list Z) (i : Z) : bool :=
  is_slice t && (128 <=? bget b i).

Definition nalu_unit (ty : H264PayloadUnitType) (n : list Z) : H264PayloadUnit :=
  let t := bget n 0 mod 32 in
  mkUnit ty t n false false 0 (slice_bit t n 1)
    (t =? nal_Sps) (t =? nal_Pps) (t =? nal_Idr) (H264IsKeyNaluType t).

Definition fu_unit (h : Z) (s e : bool) (c : list Z) : H264PayloadUnit :=
  let t := h mod 32 in
  mkUnit FuAFragment t c s e h (s && slice_bit t c 0)
    (t =? nal_Sps) (t =? nal_Pps) (t =? nal_Idr) (H264IsKeyNaluType t).

Definition units_of (p : rtp_unit) : list H264PayloadUnit :=
  match p with
  | PkSingle n => [nalu_unit SingleNalu n]
  | PkStap _ ns => map (nalu_unit StapANalu) ns
  | PkFu h s e c => [fu_unit h s e c]
  end.

(** The parsed packet the receiver must end up with. *)
Definition parsed_of (v : RtpView) (p : rtp_unit) : H264ParsedPacket :=
  let us := units_of p in
  mkParsed true false (vssrc v) (vseq v) (vts v) (vreceive_time_ms v) (vmarker v)
    (match p with PkFu _ s _ _ => s | _ => false end)
    (match p with PkFu _ _ e _ => e && vmarker v | _ => vmarker v end)
    (existsb is_key us) (existsb is_sps us) (existsb is_pps us) (existsb is_idr us) us.

(** ** Bits *)

Lemma nal_type_mod h : H264GetNalType h = h mod 32.
Proof. apply (land_ones_mod h 5). lia. Qed.

Lemma high_bit h : 0 <= h < 256 -> negb (Z.land h 0x80 =? 0) = (128 <=? h).
Proof.
  intros Hh. change 0x80 with (2 ^ 7). rewrite land_pow2 by lia. change (2 ^ 7) with 128.
  destruct (Z.leb_spec 128 h), (Z.eqb_spec ((h / 128) mod 2 * 128) 0); auto;
    exfalso; Z.div_mod_to_equations; lia.
Qed.

Lemma slice_of_app a b c : slice (a ++ b ++ c) (blen a) (blen b) = b.
Proof.
  unfold slice, blen. rewrite !Nat2Z.id, drop_app_length. apply take_app_length.
Qed.

Lemma first_slice_bit_ok c b i :
  bytes_ok b -> (c = true -> 0 <= i < blen b) ->
  first_slice_bit c b i = Ret (c && (128 <=? bget b i)).
Proof.
  intros Hb Hi. unfold first_slice_bit. destruct c; [|done].
  rewrite rd_ok by auto. simpl. by rewrite high_bit by (by apply bget_range).
Qed.

Lemma blen_pos n : n <> [] -> 1 <= blen n.
Proof. destruct n; [done|]. intros _. rewrite blen_cons. pose proof (blen_nonneg n). lia. Qed.

(** ** The key flags accumulate *)

(** [out] after [add_unit] for each of [us], every flag the disjunction. *)
Definition with_units (out : H264ParsedPacket) (us : list H264PayloadUnit) : H264ParsedPacket :=
  mkParsed (pvalid out) (pmalformed out) (pssrc out) (pseq out) (ptimestamp out)
    (preceive_time_ms out) (pmarker out) (begins_frame out) (ends_frame out)
    (phas_key_nalu out || existsb is_key us) (phas_sps out || existsb is_sps us)
    (phas_pps out || existsb is_pps us) (phas_idr out || existsb is_idr us)
    (punits out ++ us).

Lemma with_units_nil out : with_units out [] = out.
Proof. destruct out. unfold with_units. simpl. by rewrite !orb_false_r, app_nil_r. Qed.

Lemma with_units_snoc out us u :
  with_units (with_units out us) [u] = with_units out (us ++ [u]).
Proof.
  unfold with_units. simpl. rewrite !existsb_app. simpl.
  by rewrite !orb_false_r, !orb_assoc, app_assoc.
Qed.

Lemma add_nalu_unit out ty n fs :
  fs = slice_bit (bget n 0 mod 32) n 1 ->
  add_unit out (mkUnit ty (bget n 0 mod 32) n false false 0 fs false false false false) =
  with_units out [nalu_unit ty n].
Proof. intros ->. unfold add_unit, with_units. simpl. by rewrite !orb_false_r. Qed.

(** ** Parsing what a sender built *)

Lemma nalu_bounds n : nalu_ok n -> 0 <= bget n 0 < 128 /\ 1 <= blen n.
Proof.
  intros (Hb & Hn & Hh & _). pose proof (bget_range n 0 Hb). pose proof (blen_pos n Hn). lia.
Qed.

Lemma ParseSingleNalu_ok v n out :
  nalu_ok n ->
  ParseSingleNalu v n out =
  Ret (true, set_valid (with_units out [nalu_unit SingleNalu n]) false (vmarker v)).
Proof.
  intros Hok. pose proof (nalu_bounds n Hok). destruct Hok as (Hb & Hn & Hh & Ht & Hs).
  unfold ParseSingleNalu. rewrite rd_ok by lia. simpl. rewrite nal_type_mod.
  replace (is_slice (bget n 0 mod 32) && (blen n <? 2)) with false
    by (destruct (is_slice _); [|done]; simpl; symmetry; apply Z.ltb_ge; auto).
  rewrite first_slice_bit_ok by (auto; intros; specialize (Hs ltac:(done)); lia). simpl.
  by rewrite add_nalu_unit.
Qed.

Definition stap_body (ns : list (list Z)) : list Z := concat (map (fun n => be16 (blen n) ++ n) ns).

Lemma be16_len v : blen (be16 v) = 2.
Proof. done. Qed.

Lemma stap_body_cons n ns : stap_body (n :: ns) = (be16 (blen n) ++ n) ++ stap_body ns.
Proof. done. Qed.

Lemma stap_body_ok ns :
  Forall (fun n => nalu_ok n /\ blen n < 65536) ns -> bytes_ok (stap_body ns).
Proof.
  induction 1 as [|n ns [[Hn _] _] _ IH]; [apply Forall_nil_2|]. rewrite stap_body_cons.
  repeat apply Forall_app_2; auto. unfold be16. bytes_list.
Qed.

Lemma stap_body_len ns : Z.of_nat (length ns) <= blen (stap_body ns).
Proof.
  induction ns as [|n ns IH]; [done|]. rewrite stap_body_cons, !blen_app, be16_len.
  pose proof (blen_nonneg n). simpl length. lia.
Qed.

(** One aggregated unit is consumed per iteration. *)
Lemma stap_loop_step fuel pre n rest out :
  bytes_ok (pre ++ (be16 (blen n) ++ n) ++ rest) -> nalu_ok n -> blen n < 65536 ->
  stap_loop (S fuel) (pre ++ (be16 (blen n) ++ n) ++ rest) (blen pre) out =
  stap_loop fuel (pre ++ (be16 (blen n) ++ n) ++ rest) (blen pre + 2 + blen n)
    (with_units out [nalu_unit StapANalu n]).
Proof.
  intros Hb Hok Hlen. pose proof (nalu_bounds n Hok) as [Hh Hl].
  destruct Hok as (Hn & _ & _ & Ht & Hs). set (b := pre ++ _) in *.
  assert (blen b = blen pre + 2 + blen n + blen rest) as Eb
    by (unfold b; rewrite !blen_app, be16_len; lia).
  pose proof (blen_nonneg pre). pose proof (blen_nonneg rest).
  assert (forall i, 0 <= i < blen n -> bget b (blen pre + 2 + i) = bget n i) as En.
  { intros i Hi. unfold b. rewrite bget_app_r by lia. rewrite bget_app_l
      by (rewrite blen_app, be16_len; lia). rewrite bget_app_r by (rewrite be16_len; lia).
    f_equal. rewrite be16_len. lia. }
  assert (slice b (blen pre + 2) (blen n) = n) as Es.
  { unfold b. rewrite <- app_assoc, (app_assoc pre).
    replace (blen pre + 2) with (blen (pre ++ be16 (blen n))) by (by rewrite blen_app).
    apply slice_of_app. }
  assert (Z.lor (Z.shiftl (bget b (blen pre)) 8) (bget b (blen pre + 1)) = blen n) as Esz.
  { unfold b. rewrite !(bget_app_r pre), Z.sub_diag by lia.
    replace (blen pre + 1 - blen pre) with 1 by lia.
    change (bget _ 0) with (byte_of (blen n) 8). change (bget _ 1) with (byte_of (blen n) 0).
    rewrite lor_shiftl_add by (pow2; try lia; apply byte_of_u8).
    change (2 ^ 8) with 256. apply be16_value. words. }
  cbn [stap_loop].
  rewrite (proj2 (Z.leb_le _ _)) by lia. cbn [negb].
  rewrite !rd_ok by lia. cbn [mbnd]. rewrite Esz, ?rd_ok by lia.
  pose proof (En 0 ltac:(lia)) as En0. rewrite Z.add_0_r in En0. rewrite En0.
  rewrite (proj2 (Z.eqb_neq (blen n) 0)), (proj2 (Z.ltb_ge (blen b) _)) by lia.
  cbn [orb mbnd]. rewrite nal_type_mod, high_bit by lia.
  rewrite (proj2 (Z.leb_gt 128 _)), (proj2 (Z.eqb_neq (bget n 0 mod 32) 0)),
    (proj2 (Z.leb_gt 24 _)) by lia.
  replace (is_slice (bget n 0 mod 32) && (blen n <? 2)) with false
    by (destruct (is_slice _); [|done]; simpl; symmetry; apply Z.ltb_ge; auto).
  cbn [orb]. rewrite first_slice_bit_ok
    by (auto; intros E; specialize (Hs E); lia). cbn [mbnd]. rewrite read_bytes_ok by lia. cbn [mbnd]. rewrite Es.
  rewrite add_nalu_unit; [done|]. unfold slice_bit. destruct (is_slice _) eqn:E; [|done].
  specialize (Hs eq_refl). rewrite <- (En 1) by lia. do 2 f_equal; try lia.
Qed.

Lemma stap_loop_ok ns : forall fuel pre out,
  (length ns < fuel)%nat ->
  bytes_ok (pre ++ stap_body ns) -> Forall (fun n => nalu_ok n /\ blen n < 65536) ns ->
  stap_loop fuel (pre ++ stap_body ns) (blen pre) out =
  Ret (true, blen (pre ++ stap_body ns), with_units out (map (nalu_unit StapANalu) ns)).
Proof.
  induction ns as [|n ns IH]; intros fuel pre out Hf Hb Hns;
    (destruct fuel as [|fuel]; [simpl in Hf; lia|]).
  - cbn [stap_loop map]. change (stap_body []) with ([] : list Z).
    rewrite (app_nil_r pre), with_units_nil.
    by rewrite (proj2 (Z.leb_gt _ _)) by lia.
  - apply Forall_cons in Hns as [[Hn Hl] Hns]. rewrite stap_body_cons in *.
    rewrite stap_loop_step by done.
    replace (pre ++ (be16 (blen n) ++ n) ++ stap_body ns)
      with ((pre ++ be16 (blen n) ++ n) ++ stap_body ns) in * by (by rewrite <- !app_assoc).
    replace (blen pre + 2 + blen n) with (blen (pre ++ be16 (blen n) ++ n))
      by (rewrite !blen_app, be16_len; lia).
    rewrite IH by (auto; simpl in Hf; lia). simpl map.
    f_equal. f_equal. unfold with_units. simpl.
    by rewrite !orb_false_r, <- !orb_assoc, <- app_assoc.
Qed.

Lemma ParseStapA_ok v nri ns out :
  punits out = [] -> rtp_unit_ok (PkStap nri ns) ->
  ParseStapA v (packet_bytes (PkStap nri ns)) out =
  Ret (true, set_valid (with_units out (map (nalu_unit StapANalu) ns))
                       (begins_frame out) (vmarker v)).
Proof.
  intros Hu (Hnri & Hne & Hns). unfold ParseStapA. cbn [packet_bytes].
  change (concat _) with (stap_body ns). change (_ :: stap_body ns)
    with ([nri * 32 + 24] ++ stap_body ns).
  assert (bytes_ok ([nri * 32 + 24] ++ stap_body ns)) as Hb.
  { apply Forall_app_2; [|by apply stap_body_ok]. bytes_list. words. }
  change 1 with (blen [nri * 32 + 24]) at 1.
  rewrite stap_loop_ok by
    (auto; pose proof (stap_body_len ns); unfold blen in *; rewrite length_app; simpl; lia).
  cbn [mbnd negb]. rewrite Z.eqb_refl. simpl. rewrite Hu. by destruct ns.
Qed.

Lemma fu_header_bits (s e : bool) t :
  0 <= t < 32 ->
  let h := flag s 128 + flag e 64 + t in
  0 <= h < 256 /\
  negb (Z.land h 0x80 =? 0) = s /\ negb (Z.land h 0x40 =? 0) = e /\
  Z.land h 0x20 = 0 /\ Z.land h 0x1F = t.
Proof.
  intros Ht h. assert (0 <= h < 256) by (destruct s, e; simpl in *; lia). split; [done|].
  change (Z.land h 0x80) with (Z.land h (2 ^ 7)). change (Z.land h 0x40) with (Z.land h (2 ^ 6)).
  change (Z.land h 0x20) with (Z.land h (2 ^ 5)). rewrite !land_pow2 by lia.
  change (Z.land h 0x1F) with (H264GetNalType h). rewrite nal_type_mod.
  change (2 ^ 7) with 128. change (2 ^ 6) with 64. change (2 ^ 5) with 32.
  repeat split; subst h; destruct s, e; cbn [flag] in *;
    try (apply negb_true_iff, Z.eqb_neq); try (apply negb_false_iff, Z.eqb_eq);
    Z.div_mod_to_equations; lia.
Qed.

(** The two halves of a fragmented NAL header come back together. *)
Lemma fu_indicator h :
  0 <= h < 128 ->
  0 <= Z.lor (Z.land h 0xE0) 28 < 128 /\ H264GetNalType (Z.lor (Z.land h 0xE0) 28) = 28 /\
  u8 (Z.lor (Z.land (Z.lor (Z.land h 0xE0) 28) 0xE0) (h mod 32)) = h.
Proof.
  intros Hh.
  assert (forall n : nat, (n < 128)%nat ->
    let h := Z.of_nat n in
    0 <= Z.lor (Z.land h 0xE0) 28 < 128 /\ H264GetNalType (Z.lor (Z.land h 0xE0) 28) = 28 /\
    u8 (Z.lor (Z.land (Z.lor (Z.land h 0xE0) 28) 0xE0) (h mod 32)) = h) as A.
  { intros n Hn. do 128 (destruct n as [|n]; [vm_compute; repeat split; congruence|]). lia. }
  specialize (A (Z.to_nat h) ltac:(lia)). by rewrite Z2Nat.id in A by lia.
Qed.

Lemma ParseFuA_ok v h s e c out :
  rtp_unit_ok (PkFu h s e c) ->
  ParseFuA v (packet_bytes (PkFu h s e c)) out =
  Ret (true, set_valid (with_units out [fu_unit h s e c]) s (e && vmarker v)).
Proof.
  intros ([Hh Ht] & Hse & Hc & Hne). unfold ParseFuA. cbn [packet_bytes app].
  set (i := Z.lor _ 28). set (b := i :: _).
  pose proof (blen_pos c Hne). assert (blen b = blen c + 2) as Eb
    by (unfold b; rewrite !blen_cons; lia).
  destruct (fu_header_bits s e (h mod 32) ltac:(lia)) as (Hr & Es & Ee & E0 & Et).
  set (x := _ + _) in b, Hr, Es, Ee, E0, Et.
  assert (bytes_ok b) as Hb.
  { unfold b. apply Forall_cons_2; [|apply Forall_cons_2; [|done]]; unfold is_u; pow2.
    - subst i. pose proof (fu_indicator h Hh). lia.
    - lia. }
  rewrite (proj2 (Z.ltb_ge _ _)), !rd_ok by lia. cbn [mbnd].
  change (bget b 0) with i. change (bget b 1) with x.
  rewrite Es, Ee, E0, Et, Hse. cbn [Z.eqb negb orb].
  rewrite (proj2 (Z.eqb_neq _ _)), (proj2 (Z.leb_gt _ _)) by lia. cbn [orb].
  rewrite first_slice_bit_ok by (auto; lia). cbn [mbnd]. rewrite read_bytes_ok by lia. cbn [mbnd].
  replace (slice b 2 (blen b - 2)) with c.
  2: { rewrite Eb. replace (blen c + 2 - 2) with (blen c) by lia.
       pose proof (slice_of_app [i; x] c []) as E. rewrite app_nil_r in E. exact (eq_sym E). }
  subst i. rewrite (proj2 (proj2 (fu_indicator h Hh))).
  f_equal. f_equal. f_equal. unfold add_unit, with_units, fu_unit, slice_bit. simpl.
  rewrite !orb_false_r, andb_assoc. done.
Qed.


(** The parser recovers exactly the units a sender put into the packet. *)
Theorem h264_parse_inverts v p :
  vpayload v = Some (packet_bytes p) -> rtp_unit_ok p ->
  Parse v = Ret (true, parsed_of v p).
Proof.
  intros Ev Hok. unfold Parse, view_valid. rewrite Ev.
  assert (exists h, rd (packet_bytes p) 0 = Ret h /\ 0 <= h < 128 /\
    h mod 32 = match p with PkSingle n => bget n 0 mod 32 | PkStap _ _ => 24 | _ => 28 end /\
    0 < blen (packet_bytes p)) as (h & Erd & Hh & Hm & Hl).
  { destruct p as [n|nri ns|h s e c]; cbn [packet_bytes] in *.
    - pose proof (nalu_bounds n Hok). exists (bget n 0). rewrite rd_ok by lia.
      repeat split; lia.
    - exists (nri * 32 + 24). destruct Hok as [Hn _]. rewrite rd_ok
        by (rewrite blen_cons; pose proof (blen_nonneg (stap_body ns)); unfold stap_body in *; lia).
      rewrite blen_cons. pose proof (blen_nonneg (stap_body ns)). unfold stap_body in *.
      repeat split; try lia. rewrite Z.add_comm, Z_mod_plus_full. done.
    - destruct Hok as [[Hh _] _]. pose proof (fu_indicator h Hh) as (Hi & Ht & _).
      exists (Z.lor (Z.land h 0xE0) 28). rewrite nal_type_mod in Ht.
      split; [by apply (rd_app [])|].
      rewrite !blen_app, !blen_cons. pose proof (blen_nonneg c). pose proof (blen_nonneg []).
      repeat split; lia. }
  rewrite (proj2 (Z.eqb_neq _ _)) by lia. cbn [negb]. rewrite Erd. cbn [mbnd].
  rewrite high_bit, (proj2 (Z.leb_gt 128 h)), nal_type_mod, Hm by lia.
  destruct p as [n|nri ns|h' s e c].
  - assert (nalu_ok n) as (_ & _ & _ & Ht & _) by done.
    rewrite (proj2 (Z.leb_le 1 _)), (proj2 (Z.leb_le _ 23)) by lia. cbn [andb packet_bytes].
    rewrite ParseSingleNalu_ok by done. done.
  - cbn [Z.leb Z.eqb]. simpl ((1 <=? 24) && _). cbv iota.
    rewrite ParseStapA_ok by done. done.
  - simpl ((1 <=? 28) && _). cbv iota. simpl (28 =? _). cbv iota.
    rewrite ParseFuA_ok by done. done.
Qed.

(** ** Arbitrary bytes *)

(** What the buffer relies on: an accepted packet has units, none of them empty. *)
Definition unit_ok (u : H264PayloadUnit) : Prop :=
  udata u <> [] /\ bytes_ok (udata u) /\ 1 <= nal_type u <= 23 /\
  unit_type u <> UnitUnknown /\ is_u8 (reconstructed_nal_header u).

Definition packet_ok (p : H264ParsedPacket) : Prop :=
  pvalid p = true /\ pmalformed p = false /\ punits p <> [] /\ Forall unit_ok (punits p).

Lemma slice_bytes_ok b off n : bytes_ok b -> bytes_ok (slice b off n).
Proof. intros. unfold slice, bytes_ok. by apply Forall_take, Forall_drop. Qed.

Lemma slice_nonempty b off n :
  0 <= off -> 0 < n -> off + n <= blen b -> slice b off n <> [].
Proof.
  unfold slice, blen. intros H0 Hn Hl E%(f_equal length).
  rewrite length_take, length_drop in E. simpl in E. lia.
Qed.

Lemma read16_range hi lo :
  is_u8 hi -> is_u8 lo -> 0 <= Z.lor (Z.shiftl hi 8) lo < 65536.
Proof. intros Hh Hl. rewrite lor_shiftl_add by (auto; lia). words. Qed.

Lemma stap_loop_safe fuel : forall b offset out,
  bytes_ok b -> 0 <= offset <= blen b -> blen b - offset < Z.of_nat fuel ->
  pmalformed out = false -> Forall unit_ok (punits out) ->
  exists ok off out', stap_loop fuel b offset out = Ret (ok, off, out') /\
    (if ok then pmalformed out' = false /\ Forall unit_ok (punits out')
     else pmalformed out' = true).
Proof.
  induction fuel as [|fuel IH]; intros b offset out Hb H0 Hf Hm Hu; simpl.
  { lia. }
  destruct (Z.leb_spec (offset + 2) (blen b)) as [Hle|Hgt]; cbn [negb]; [|by do 3 eexists].
  rewrite !rd_ok by lia. cbn [mbnd]. set (sz := Z.lor _ _).
  assert (0 <= sz < 65536) by (apply read16_range; by apply bget_u8).
  destruct ((sz =? 0) || _) eqn:E; [by do 3 eexists|]. bool_hyps.
  rewrite rd_ok by lia. cbn [mbnd]. rewrite nal_type_mod.
  destruct (_ || (is_slice _ && _)) eqn:E2; [by do 3 eexists|]. bool_hyps.
  rewrite first_slice_bit_ok.
  2: done.
  2: { intros Es. rewrite Es in *. simpl in *. bool_hyps. lia. }
  cbn [mbnd]. rewrite read_bytes_ok by lia. cbn [mbnd]. apply IH; auto; try lia.
  simpl. apply Forall_app_2; [done|]. apply Forall_cons_2; [|apply Forall_nil_2].
  unfold unit_ok. simpl. pose proof (Z.mod_pos_bound (bget b (offset + 2)) 32 ltac:(lia)).
  repeat split; try lia; try done; [apply slice_nonempty; lia|by apply slice_bytes_ok].
Qed.

(** *** The header of a parsed packet is the one of the RTP packet *)

Definition same_header (v : RtpView) (p : H264ParsedPacket) : Prop :=
  pssrc p = vssrc v /\ pseq p = vseq v /\ ptimestamp p = vts v /\ pmarker p = vmarker v.

Lemma stap_loop_header v fuel b : forall offset out ok off out',
  stap_loop fuel b offset out = Ret (ok, off, out') -> same_header v out -> same_header v out'.
Proof.
  induction fuel as [|fuel IH]; intros offset out ok off out'; cbn [stap_loop]; [done|].
  destruct (negb _); [by intros [= <- <- <-]|]. intros E.
  apply mbnd_ret_inv in E as (hi & _ & E). apply mbnd_ret_inv in E as (lo & _ & E). cbn zeta in E.
  destruct (_ || _); [by injection E as <- <- <-|]. apply mbnd_ret_inv in E as (h & _ & E).
  destruct (_ || (is_slice _ && _)); [by injection E as <- <- <-|].
  apply mbnd_ret_inv in E as (fs & _ & E). apply mbnd_ret_inv in E as (d & _ & E). intros Hh. by eapply IH.
Qed.

Lemma Parse_header v p : Parse v = Ret (true, p) -> same_header v p.
Proof.
  unfold Parse. destruct (negb (view_valid v)); [done|]. destruct (vpayload v) as [b|]; [|done]. destruct (blen b =? 0); [done|].
  intros E. apply mbnd_ret_inv in E as (h & _ & E). destruct (negb _); [done|].
  destruct (_ && _); [|destruct (_ =? nal_StapA); [|destruct (_ =? nal_FuA); [|done]]].
  - unfold ParseSingleNalu in E. apply mbnd_ret_inv in E as (x & _ & E). destruct (_ && _); [done|].
    apply mbnd_ret_inv in E as (fs & _ & E). by injection E as <-.
  - unfold ParseStapA in E. apply mbnd_ret_inv in E as ([[ok off] out] & E1 & E). destruct (negb ok); [done|]. destruct (_ || _); [done|].
    injection E as <-. by apply (stap_loop_header v) in E1.
  - unfold ParseFuA in E. destruct (_ <? 3); [done|]. apply mbnd_ret_inv in E as (i & _ & E). apply mbnd_ret_inv in E as (x & _ & E).
    cbn zeta in E. destruct (_ || (24 <=? _)); [done|]. apply mbnd_ret_inv in E as (fs & _ & E). apply mbnd_ret_inv in E as (d & _ & E).
    by injection E as <-.
Qed.

(** A branch that returns [false]. *)
Ltac refused := do 2 eexists; split; [reflexivity|]; split; [discriminate|done].

(** The parser returns on any payload, in bounds, and what it accepts is well
    formed; what it refuses is marked. *)
Theorem h264_parse_safe v :
  from_option bytes_ok True (vpayload v) ->
  exists ok p, Parse v = Ret (ok, p) /\
    (ok = true -> packet_ok p) /\ (ok = false -> pmalformed p = true).
Proof.
  intros Hv. unfold Parse, view_valid.
  destruct (vpayload v) as [b|] eqn:Ev; simpl in Hv; [|refused].
  destruct (Z.eqb_spec (blen b) 0) as [|Hne]; cbn [negb]; [refused|].
  pose proof (blen_nonneg b). rewrite rd_ok by lia. cbn [mbnd].
  destruct (negb _); [refused|]. rewrite nal_type_mod.
  destruct ((1 <=? _) && _) eqn:E1; bool_hyps; [|destruct (_ =? nal_StapA); [|destruct (_ =? nal_FuA)]].
  - unfold ParseSingleNalu. rewrite rd_ok by lia. cbn [mbnd]. rewrite nal_type_mod.
    destruct (is_slice _ && _) eqn:E2; [refused|].
    rewrite first_slice_bit_ok.
    2: done.
    2: { intros Es. rewrite Es in *. simpl in *. bool_hyps. lia. }
    cbn [mbnd]. do 2 eexists. split; [reflexivity|]. split; [|done]. intros _.
    repeat split; try done. simpl. apply Forall_cons_2; [|apply Forall_nil_2].
    unfold unit_ok. simpl. repeat split; try lia; try done. intros ->. done.
  - unfold ParseStapA.
    destruct (stap_loop_safe (S (length b)) b 1 (FillCommon v empty_parsed))
      as (ok & off & out & E & Hok); auto; try (unfold blen in *; lia).
    rewrite E. cbn [mbnd]. destruct ok; cbn [negb].
    + destruct Hok as [Hm Hu].
      destruct (negb _ || _) eqn:E3; [refused|]. apply orb_false_elim in E3 as [_ E3].
      do 2 eexists. split; [reflexivity|]. split; [|done]. intros _.
      repeat split; try done. simpl. by destruct (punits out).
    + do 2 eexists. split; [reflexivity|]. by split.
  - unfold ParseFuA. destruct (Z.ltb_spec (blen b) 3) as [|Hl]; [refused|].
    rewrite !rd_ok by lia. cbn [mbnd]. change (Z.land (bget b 1) 31) with (H264GetNalType (bget b 1)).
    rewrite nal_type_mod. destruct (_ || (24 <=? _)) eqn:E3; [refused|]. bool_hyps.
    rewrite first_slice_bit_ok by (auto; lia). cbn [mbnd]. rewrite read_bytes_ok by lia.
    cbn [mbnd]. do 2 eexists. split; [reflexivity|]. split; [|done]. intros _.
    repeat split; try done. simpl. apply Forall_cons_2; [|apply Forall_nil_2].
    unfold unit_ok. simpl. pose proof (Z.mod_pos_bound (bget b 1) 32 ltac:(lia)).
    repeat split; try lia; try done; try (apply wrap_range; lia);
      [apply slice_nonempty; lia|by apply slice_bytes_ok].
  - refused.
Qed.
