(* ===== verification/H264Buffer.v ===== *)
(** * The H.264 packet buffer

    Models [Common/Depacketizer/H26xPacketBuffer.h] and [.cpp]: the sequence
    number unwrapper and [H264PacketBuffer], a ring of 2048 slots in which packets
    wait until the access unit they belong to can be assembled in order.

    The slots are a finite map from slot index to the object the [unique_ptr] of
    the slot owns (no entry: null).  A raw pointer into the buffer is the sequence
    number it was obtained for, looked up again at each use: using one whose object
    is gone is a [Fault], and so is erasing an arrival through an iterator whose
    node is gone.  [arrivals_] is the list of the multimap's entries in iteration
    order; an iterator is the entry it points to.  Time points are nanoseconds.
    Unwrapped sequence numbers are [int64_t] in the code, unbounded here: one packet
    moves them by at most 2^15.  [reserve] calls and allocation failure are left
    out. *)
From S2P Require Import Prelude Bytes H264.

(** ** RtpSequenceNumberUnwrapper *)

Record Unwrapper : Type := mkUnwrapper {
  initialized_ : bool;
  latest_unwrapped_seq_ : Z }.

Definition Unwrapper_Reset : Unwrapper := mkUnwrapper false 0.

Definition kModulo : Z := 65536.
Definition kHalf : Z := 32768.

Definition Unwrap (u : Unwrapper) (sequence_number : Z) : Unwrapper * Z :=
  if negb (initialized_ u) then (mkUnwrapper true sequence_number, sequence_number) else
  let latest := latest_unwrapped_seq_ u in
  let cycle_base := Z.land latest (Z.lnot 0xFFFF) in
  let candidate := cycle_base + sequence_number in
  let candidate :=
    if kHalf <? candidate - latest then candidate - kModulo
    else if kHalf <? latest - candidate then candidate + kModulo
    else candidate in
  (mkUnwrapper true (if latest <? candidate then candidate else latest), candidate).

(** ** State *)

Definition kBufferSize : Z := 2048.

Record Config : Type := mkConfig {
  max_frame_packets : Z;
  idr_only_keyframes_allowed : bool;
  max_wait_ms : Z }.

Definition default_config : Config := mkConfig 512 true 100.

(** The constructor's clamp. *)
Definition init_config (c : Config) : Config :=
  if (max_frame_packets c =? 0) || (kBufferSize <? max_frame_packets c)
  then mkConfig kBufferSize (idr_only_keyframes_allowed c) (max_wait_ms c)
  else c.

Record BufferedPacket : Type := mkBuffered {
  unwrapped_seq : Z;
  packet : H264ParsedPacket;
  arrival : Z * Z }.

Record PacketBuffer : Type := mkBuffer {
  config_ : Config;
  buffer_ : gmap Z BufferedPacket;
  arrivals_ : list (Z * Z);
  seq_unwrapper_ : Unwrapper;
  last_continuous_unwrapped_seq_ : option Z;
  last_continuous_timestamp_ : option Z;
  current_frame_start_ : option Z;
  current_frame_timestamp_ : Z;
  discarding_frame_ : bool;
  waiting_for_recovery_ : bool;
  buffered_packet_count_ : Z }.

Definition set_store (s : PacketBuffer) b a n : PacketBuffer :=
  mkBuffer (config_ s) b a (seq_unwrapper_ s) (last_continuous_unwrapped_seq_ s)
    (last_continuous_timestamp_ s) (current_frame_start_ s) (current_frame_timestamp_ s)
    (discarding_frame_ s) (waiting_for_recovery_ s) n.

Definition set_unwrapper (s : PacketBuffer) u : PacketBuffer :=
  mkBuffer (config_ s) (buffer_ s) (arrivals_ s) u (last_continuous_unwrapped_seq_ s)
    (last_continuous_timestamp_ s) (current_frame_start_ s) (current_frame_timestamp_ s)
    (discarding_frame_ s) (waiting_for_recovery_ s) (buffered_packet_count_ s).

Definition set_last (s : PacketBuffer) q t : PacketBuffer :=
  mkBuffer (config_ s) (buffer_ s) (arrivals_ s) (seq_unwrapper_ s) q t
    (current_frame_start_ s) (current_frame_timestamp_ s)
    (discarding_frame_ s) (waiting_for_recovery_ s) (buffered_packet_count_ s).

Definition set_frame (s : PacketBuffer) st ts d : PacketBuffer :=
  mkBuffer (config_ s) (buffer_ s) (arrivals_ s) (seq_unwrapper_ s)
    (last_continuous_unwrapped_seq_ s) (last_continuous_timestamp_ s) st ts d
    (waiting_for_recovery_ s) (buffered_packet_count_ s).

Definition set_waiting (s : PacketBuffer) w : PacketBuffer :=
  mkBuffer (config_ s) (buffer_ s) (arrivals_ s) (seq_unwrapper_ s)
    (last_continuous_unwrapped_seq_ s) (last_continuous_timestamp_ s)
    (current_frame_start_ s) (current_frame_timestamp_ s) (discarding_frame_ s) w
    (buffered_packet_count_ s).

Record InsertResult : Type := mkResult {
  inserted : bool;
  duplicate : bool;
  late : bool;
  buffer_collision : bool;
  expired_packets : Z;
  frames : list H264AccessUnit }.

(** ** Slots and arrivals *)

Definition BufferIndex (seq : Z) : Z := Z.land (u64 seq) (kBufferSize - 1).

Definition GetPacket (s : PacketBuffer) (seq : Z) : option BufferedPacket :=
  match buffer_ s !! BufferIndex seq with
  | Some p => if unwrapped_seq p =? seq then Some p else None
  | None => None
  end.

(** [multimap::emplace]: after the entries with the same key. *)
Fixpoint arrivals_emplace (e : Z * Z) (l : list (Z * Z)) : list (Z * Z) :=
  match l with
  | [] => [e]
  | x :: l => if fst e <? fst x then e :: x :: l else x :: arrivals_emplace e l
  end.

(** [multimap::erase(iterator)]; [None] when the node is not there. *)
Fixpoint arrivals_erase (e : Z * Z) (l : list (Z * Z)) : option (list (Z * Z)) :=
  match l with
  | [] => None
  | x :: l => if decide (x = e) then Some l else option_map (cons x) (arrivals_erase e l)
  end.

(** A range [for] whose body may fault. *)
Fixpoint for_each {A S} (body : S -> A -> mres S) (l : list A) (s : S) : mres S :=
  match l with
  | [] => Ret s
  | x :: l => let! s := body s x in for_each body l s
  end.

(** All slots, in the order of [for (auto& packet : buffer_)]. *)
Definition slots : list Z := seqZ 0 kBufferSize.

Definition ErasePacket (s : PacketBuffer) (i : Z) : mres PacketBuffer :=
  match buffer_ s !! i with
  | None => Fault
  | Some p =>
    match arrivals_erase (arrival p) (arrivals_ s) with
    | None => Fault
    | Some a => Ret (set_store s (delete i (buffer_ s)) a (u64 (buffered_packet_count_ s - 1)))
    end
  end.

(** [if (packet && c(packet->unwrapped_seq)) ErasePacket(packet)] at slot [i]. *)
Definition erase_if (c : Z -> bool) (s : PacketBuffer) (i : Z) : mres PacketBuffer :=
  match buffer_ s !! i with
  | Some p => if c (unwrapped_seq p) then ErasePacket s i else Ret s
  | None => Ret s
  end.

Definition RemovePackets (s : PacketBuffer) (start_seq end_seq : Z) : mres PacketBuffer :=
  if kBufferSize <=? end_seq - start_seq
  then for_each (erase_if (fun q => (start_seq <=? q) && (q <=? end_seq))) slots s
  else for_each (fun s seq => erase_if (fun q => q =? seq) s (BufferIndex seq))
         (seqZ start_seq (end_seq - start_seq + 1)) s.

Definition RemovePacketsBefore (s : PacketBuffer) (seq : Z) : mres PacketBuffer :=
  for_each (erase_if (fun q => q <? seq)) slots s.

Definition DropCurrentFrame (s : PacketBuffer) (end_seq : Z) : mres PacketBuffer :=
  let! s := match current_frame_start_ s with
            | Some st => RemovePackets s st end_seq
            | None => Ret s
            end in
  Ret (set_frame s None (current_frame_timestamp_ s) false).

Definition ClearInternal (s : PacketBuffer) : PacketBuffer :=
  mkBuffer (config_ s) ∅ [] (seq_unwrapper_ s) None None None 0 false false 0.

Definition Reset (s : PacketBuffer) : PacketBuffer :=
  set_unwrapper (ClearInternal s) Unwrapper_Reset.

Definition H264PacketBuffer (c : Config) : PacketBuffer :=
  mkBuffer (init_config c) ∅ [] Unwrapper_Reset None None None 0 false false 0.

(** ** FlushExpired *)

(** One round of the loop that raises the sequence floor. *)
Definition flush_floor (s : PacketBuffer) (acc : option Z * option Z) (e : Z * Z)
  : mres (option Z * option Z) :=
  let take :=
    match GetPacket s (snd e) with
    | Some p => Ret (Some (snd e), Some (ptimestamp (packet p)))
    | None => Fault
    end in
  match fst acc with
  | None => take
  | Some f => if f <=? snd e then take else Ret acc
  end.

Definition FlushExpired (s : PacketBuffer) (now : Z) : mres (PacketBuffer * Z) :=
  match arrivals_ s with
  | [] => Ret (s, 0)
  | e :: _ =>
    if (now <? fst e) || (now - fst e <? max_wait_ms (config_ s) * 1000000) then Ret (s, 0) else
    let discarded := buffered_packet_count_ s in
    let! '(floor, timestamp) :=
      for_each (flush_floor s) (arrivals_ s)
        (last_continuous_unwrapped_seq_ s, last_continuous_timestamp_ s) in
    Ret (set_waiting (set_last (ClearInternal s) floor timestamp) true, discarded)
  end.

(** ** Where a run may begin *)

Definition BeginningOfStream (s : PacketBuffer) (p : H264ParsedPacket) : bool :=
  existsb (fun u =>
    if match unit_type u with FuAFragment => true | _ => false end && negb (fu_start u)
    then false
    else is_sps u || (idr_only_keyframes_allowed (config_ s) && is_idr u && first_slice u))
    (punits p).

Definition CanAdvanceFrom (s : PacketBuffer) (inserted_seq : Z) (p : H264ParsedPacket)
  : mres (PacketBuffer * bool) :=
  let begin (s : PacketBuffer) :=
    if negb (BeginningOfStream s p) then Ret (s, false) else
    let! s := RemovePacketsBefore s inserted_seq in
    let s := set_frame s None (current_frame_timestamp_ s) false in
    let s := set_last s (Some (inserted_seq - 1)) (last_continuous_timestamp_ s) in
    Ret (set_waiting s false, true) in
  match last_continuous_unwrapped_seq_ s with
  | Some last =>
    if inserted_seq <=? last then Ret (s, false)
    else if negb (waiting_for_recovery_ s) && (inserted_seq =? last + 1) then Ret (s, true)
    else if bool_decide (last_continuous_timestamp_ s = Some (ptimestamp p)) then Ret (s, false)
    else begin s
  | None => begin s
  end.

(** ** Assembling an access unit *)

(** [ValidatePacketUnits]: the open fragment's header afterwards, or [None] for
    [return false]. *)
Fixpoint ValidatePacketUnits (us : list H264PayloadUnit) (fu_header : option Z)
  : option (option Z) :=
  match us with
  | [] => Some fu_header
  | u :: us =>
    match unit_type u with
    | SingleNalu | StapANalu =>
      match fu_header, udata u with
      | None, _ :: _ => ValidatePacketUnits us fu_header
      | _, _ => None
      end
    | UnitUnknown => None
    | FuAFragment =>
      match udata u with
      | [] => None
      | _ :: _ =>
        match (if fu_start u
               then match fu_header with
                    | Some _ => None
                    | None => Some (reconstructed_nal_header u)
                    end
               else fu_header) with
        | None => None
        | Some h =>
          if negb (h =? reconstructed_nal_header u) then None
          else ValidatePacketUnits us (if fu_end u then None else Some h)
        end
      end
    end
  end.

(** [unit.data] after [std::move]. *)
Definition moved_out (u : H264PayloadUnit) : H264PayloadUnit :=
  mkUnit (unit_type u) (nal_type u) [] (fu_start u) (fu_end u)
    (reconstructed_nal_header u) (first_slice u) (is_sps u) (is_pps u) (is_idr u) (is_key u).

(** The variables [AppendPacketUnits] works on beside the packet. *)
Record AppendState : Type := mkAppend {
  fu_active : bool;
  fu_nalu : list Z;
  nalus : list (list Z) }.

(** [AppendPacketUnits]: the returned flag, the packet's units afterwards (data that
    was moved into the frame is gone from them) and the variables. *)
Fixpoint AppendPacketUnits (us : list H264PayloadUnit) (st : AppendState)
  : mres (bool * list H264PayloadUnit * AppendState) :=
  match us with
  | [] => Ret (true, [], st)
  | u :: us =>
    match unit_type u with
    | SingleNalu | StapANalu =>
      if fu_active st || match udata u with [] => true | _ => false end
      then Ret (false, u :: us, st)
      else
        let! '(ok, us', st') := AppendPacketUnits us
          (mkAppend (fu_active st) (fu_nalu st) (nalus st ++ [udata u])) in
        Ret (ok, moved_out u :: us', st')
    | UnitUnknown => Ret (false, u :: us, st)
    | FuAFragment =>
      if match udata u with [] => true | _ => false end then Ret (false, u :: us, st) else
      if fu_start u && fu_active st then Ret (false, u :: us, st) else
      if negb (fu_start u) && negb (fu_active st) then Ret (false, u :: us, st) else
      let st := if fu_start u then mkAppend true [reconstructed_nal_header u] (nalus st) else st in
      match fu_nalu st with
      | [] => Fault
      | front :: _ =>
        if negb (front =? reconstructed_nal_header u) then Ret (false, u :: us, st) else
        let st := mkAppend (fu_active st) (fu_nalu st ++ udata u) (nalus st) in
        let st := if fu_end u then mkAppend false [] (nalus st ++ [fu_nalu st]) else st in
        let! '(ok, us', st') := AppendPacketUnits us st in
        Ret (ok, u :: us', st')
      end
    end
  end.

(** The inner loop over the units: [saw_vcl] afterwards, [None] for [return false]. *)
Fixpoint scan_units (us : list H264PayloadUnit) (saw_vcl : bool) : option bool :=
  match us with
  | [] => Some saw_vcl
  | u :: us =>
    if negb saw_vcl && is_slice (nal_type u)
    then if first_slice u then scan_units us true else None
    else scan_units us saw_vcl
  end.

Definition merge_packet (f : H264AccessUnit) (p : H264ParsedPacket) : H264AccessUnit :=
  mkAU (fssrc f) (ftimestamp f) (Z.max (freceive_time_ms f) (preceive_time_ms p))
    (first_seq f) (last_seq f) (fcomplete f) (fbroken f) (fmarker f)
    (fkeyframe f || phas_key_nalu p) (fhas_sps f || phas_sps p)
    (fhas_pps f || phas_pps p) (fhas_idr f || phas_idr p) (fnalus f).

(** The first loop of [MaybeAssembleFrame], over the packets the pointers of
    [GetPacket] lead to ([None] for null). *)
Fixpoint scan_packets (ps : list (option H264ParsedPacket)) (f : H264AccessUnit)
    (validating_fu : option Z) (saw_vcl : bool) : option (H264AccessUnit * option Z) :=
  match ps with
  | [] => Some (f, validating_fu)
  | None :: _ => None
  | Some p :: ps =>
    if negb (pssrc p =? fssrc f) || negb (ptimestamp p =? ftimestamp f) then None else
    let f := merge_packet f p in
    match scan_units (punits p) saw_vcl with
    | None => None
    | Some saw_vcl =>
      match ValidatePacketUnits (punits p) validating_fu with
      | None => None
      | Some fu => scan_packets ps f fu saw_vcl
      end
    end
  end.

Definition set_units (p : H264ParsedPacket) (us : list H264PayloadUnit) : H264ParsedPacket :=
  mkParsed (pvalid p) (pmalformed p) (pssrc p) (pseq p) (ptimestamp p)
    (preceive_time_ms p) (pmarker p) (begins_frame p) (ends_frame p)
    (phas_key_nalu p) (phas_sps p) (phas_pps p) (phas_idr p) us.

(** The second loop: appends the units of the packets [seqs], whose data it moves out
    of the buffer. *)
Fixpoint append_packets (seqs : list Z) (s : PacketBuffer) (st : AppendState)
  : mres (bool * PacketBuffer * AppendState) :=
  match seqs with
  | [] => Ret (true, s, st)
  | seq :: seqs =>
    match GetPacket s seq with
    | None => Fault
    | Some b =>
      let! '(ok, us, st) := AppendPacketUnits (punits (packet b)) st in
      let b := mkBuffered (unwrapped_seq b) (set_units (packet b) us) (arrival b) in
      let s := set_store s (<[BufferIndex seq := b]> (buffer_ s)) (arrivals_ s)
                 (buffered_packet_count_ s) in
      if negb ok then Ret (false, s, st) else append_packets seqs s st
    end
  end.

Definition complete_frame (f : H264AccessUnit) (ns : list (list Z)) : H264AccessUnit :=
  mkAU (fssrc f) (ftimestamp f) (freceive_time_ms f) (first_seq f) (last_seq f) true
    (fbroken f) (fmarker f) (fkeyframe f) (fhas_sps f) (fhas_pps f) (fhas_idr f) ns.

Definition option_list {A} (o : option A) : list A :=
  match o with Some x => [x] | None => [] end.

(** [static_cast<uint64_t>(n) > limit]: a negative [n] would be huge. *)
Definition exceeds (n limit : Z) : bool := (n <? 0) || (limit <? n).

(** [Some frame] when the code returns [true] and leaves [frame]. *)
Definition MaybeAssembleFrame (s : PacketBuffer) (start_seq end_seq : Z)
  : mres (PacketBuffer * option H264AccessUnit) :=
  if (end_seq <? start_seq) ||
     exceeds (end_seq - start_seq + 1) (max_frame_packets (config_ s)) then Ret (s, None) else
  match GetPacket s start_seq with
  | None => Ret (s, None)
  | Some first =>
    let seqs := seqZ start_seq (end_seq - start_seq + 1) in
    let frame := mkAU (pssrc (packet first)) (ptimestamp (packet first)) 0
      (u16 start_seq) (u16 end_seq) false false true false false false false [] in
    match scan_packets (map (fun q => option_map packet (GetPacket s q)) seqs)
            frame None false with
    | None => Ret (s, None)
    | Some (_, Some _) => Ret (s, None)
    | Some (frame, None) =>
      if fhas_idr frame && negb (idr_only_keyframes_allowed (config_ s)) &&
         (negb (fhas_sps frame) || negb (fhas_pps frame)) then Ret (s, None) else
      let! '(ok, s, st) := append_packets seqs s (mkAppend false [] []) in
      if negb ok then Ret (s, None) else
      if fu_active st || match nalus st with [] => true | _ => false end then Ret (s, None) else
      let! s := RemovePackets s start_seq end_seq in
      Ret (s, Some (complete_frame frame (nalus st)))
    end
  end.

(** ** Finding frames *)

(** One iteration for the packet at [seq], which is buffered: the frame it belongs to
    is entered, its size is checked, and a marker closes it. *)
Definition enter_frame (s : PacketBuffer) (seq : Z) (p : BufferedPacket) : mres PacketBuffer :=
  let s := set_last s (Some seq) (Some (ptimestamp (packet p))) in
  let! s := match current_frame_start_ s with
            | Some _ => if negb (current_frame_timestamp_ s =? ptimestamp (packet p))
                        then DropCurrentFrame s (seq - 1) else Ret s
            | None => Ret s
            end in
  match current_frame_start_ s with
  | Some _ => Ret s
  | None =>
    match GetPacket s seq with
    | None => Fault
    | Some p => Ret (set_frame s (Some seq) (ptimestamp (packet p)) (discarding_frame_ s))
    end
  end.

Definition limit_frame (s : PacketBuffer) (seq : Z) : mres PacketBuffer :=
  match current_frame_start_ s with
  | None => Fault
  | Some st =>
    if exceeds (seq - st + 1) (max_frame_packets (config_ s)) then
      let! s := if negb (discarding_frame_ s) then RemovePackets s st seq
                else RemovePackets s seq seq in
      Ret (set_frame s (current_frame_start_ s) (current_frame_timestamp_ s) true)
    else Ret s
  end.

Definition close_frame (s : PacketBuffer) (seq : Z) : mres (PacketBuffer * list H264AccessUnit) :=
  match current_frame_start_ s with
  | None => Fault
  | Some st =>
    let! '(s, frame) :=
      if negb (discarding_frame_ s) then MaybeAssembleFrame s st seq else Ret (s, None) in
    let! s := DropCurrentFrame s seq in
    Ret (s, option_list frame)
  end.

Definition advance (s : PacketBuffer) (seq : Z) (p : BufferedPacket)
  : mres (PacketBuffer * list H264AccessUnit) :=
  let! s := enter_frame s seq p in
  match GetPacket s seq with
  | None => Fault
  | Some p =>
    let marker := pmarker (packet p) in
    let! s := limit_frame s seq in
    if negb marker then Ret (s, []) else close_frame s seq
  end.

(** The [for] of [FindFrames], at most [n] rounds from [seq] on. *)
Fixpoint find_loop (n : nat) (s : PacketBuffer) (seq : Z)
  : mres (PacketBuffer * list H264AccessUnit) :=
  match n with
  | O => Ret (s, [])
  | S n =>
    match GetPacket s seq with
    | None => Ret (s, [])
    | Some p =>
      let! '(s, fs) := advance s seq p in
      let! '(s, fs') := find_loop n s (seq + 1) in
      Ret (s, fs ++ fs')
    end
  end.

Definition FindFrames (s : PacketBuffer) (inserted_seq : Z)
  : mres (PacketBuffer * list H264AccessUnit) :=
  match GetPacket s inserted_seq with
  | None => Ret (s, [])
  | Some p =>
    let! '(s, ok) := CanAdvanceFrom s inserted_seq (packet p) in
    if negb ok then Ret (s, []) else find_loop (Z.to_nat kBufferSize) s inserted_seq
  end.

(** ** InsertPacket *)

Definition InsertPacket (s : PacketBuffer) (p : H264ParsedPacket) (now : Z)
  : mres (PacketBuffer * InsertResult) :=
  if negb (pvalid p) || pmalformed p then Ret (s, mkResult false false false false 0 []) else
  let! '(s, expired) := FlushExpired s now in
  let '(u, seq) := Unwrap (seq_unwrapper_ s) (pseq p) in
  let s := set_unwrapper s u in
  if match last_continuous_unwrapped_seq_ s with Some l => seq <=? l | None => false end
  then Ret (s, mkResult false false true false expired []) else
  let store (s : PacketBuffer) (collision : bool) :=
    let b := mkBuffered seq p (now, seq) in
    let s := set_store s (<[BufferIndex seq := b]> (buffer_ s))
               (arrivals_emplace (now, seq) (arrivals_ s))
               (u64 (buffered_packet_count_ s + 1)) in
    let! '(s, fs) := FindFrames s seq in
    Ret (s, mkResult true false false collision expired fs) in
  match buffer_ s !! BufferIndex seq with
  | Some old =>
    if unwrapped_seq old =? seq then Ret (s, mkResult false true false false expired [])
    else if seq <? unwrapped_seq old then Ret (s, mkResult false false true false expired [])
    else let! s := ErasePacket s (BufferIndex seq) in store s true
  | None => store s false
  end.
