(* ===== verification/H264BufferInv.v ===== *)
(** * The invariant of the H.264 packet buffer

    [store_ok] ties the slots, the arrival list and the counter together; the first
    half gives the effect of every removal as a statement about [GetPacket].  The
    second half describes one step of [FindFrames] by a reference assembler that
    works on the list of the packets of a frame, and proves that the whole buffer
    never faults. *)
From Stdlib Require Import Sorted.
From S2P Require Import Prelude Bytes H264 H264Buffer.

(** ** Slots *)

Lemma BufferIndex_mod q : BufferIndex q = q mod 2048.
Proof.
  unfold BufferIndex, kBufferSize, wrap. change (2048 - 1) with (2 ^ 11 - 1).
  rewrite land_ones_mod by lia. change (2 ^ 11) with 2048.
  pow2. Z.div_mod_to_equations. lia.
Qed.

Lemma BufferIndex_range q : 0 <= BufferIndex q < 2048.
Proof. rewrite BufferIndex_mod. apply Z.mod_pos_bound. lia. Qed.

(** Two numbers in one slot are equal or at least a ring apart. *)
Lemma BufferIndex_inj q r : BufferIndex q = BufferIndex r -> Z.abs (q - r) < 2048 -> q = r.
Proof. rewrite !BufferIndex_mod. intros. Z.div_mod_to_equations. lia. Qed.

Lemma BufferIndex_next q : BufferIndex (q + 2048) = BufferIndex q.
Proof. rewrite !BufferIndex_mod. Z.div_mod_to_equations. lia. Qed.

(** ** The store *)

Record store_ok (s : PacketBuffer) : Prop := {
  so_slot : forall i b, buffer_ s !! i = Some b ->
    i = BufferIndex (unwrapped_seq b) /\ snd (arrival b) = unwrapped_seq b /\
    arrival b ∈ arrivals_ s;
  so_arrival : forall e, e ∈ arrivals_ s ->
    exists b, GetPacket s (snd e) = Some b /\ arrival b = e;
  so_nodup : NoDup (snd <$> arrivals_ s);
  so_sorted : StronglySorted (fun a b => fst a <= fst b) (arrivals_ s);
  so_count : buffered_packet_count_ s = Z.of_nat (size (buffer_ s)) }.

(** Everything but the store. *)
Definition rest (s : PacketBuffer) :=
  (config_ s, seq_unwrapper_ s, (last_continuous_unwrapped_seq_ s, last_continuous_timestamp_ s),
   (current_frame_start_ s, current_frame_timestamp_ s, discarding_frame_ s),
   waiting_for_recovery_ s).

Lemma GetPacket_seq s q b : GetPacket s q = Some b -> unwrapped_seq b = q.
Proof.
  unfold GetPacket. destruct (buffer_ s !! _) as [x|]; [|done].
  destruct (Z.eqb_spec (unwrapped_seq x) q); [|done]. by intros [= <-].
Qed.

Lemma GetPacket_slot s q b : GetPacket s q = Some b -> buffer_ s !! BufferIndex q = Some b.
Proof.
  unfold GetPacket. destruct (buffer_ s !! _) as [x|]; [|done].
  destruct (Z.eqb_spec (unwrapped_seq x) q); [|done]. by intros [= <-].
Qed.

Lemma slot_GetPacket s i b :
  store_ok s -> buffer_ s !! i = Some b -> GetPacket s (unwrapped_seq b) = Some b.
Proof.
  intros Hs E. destruct (so_slot s Hs i b E) as [-> _]. unfold GetPacket.
  by rewrite E, Z.eqb_refl.
Qed.

(** Two buffered packets never share a slot. *)
Lemma GetPacket_same_slot s q r b c :
  GetPacket s q = Some b -> GetPacket s r = Some c ->
  BufferIndex q = BufferIndex r -> q = r.
Proof.
  intros Hb Hc E. pose proof (GetPacket_slot _ _ _ Hb) as Eb.
  pose proof (GetPacket_slot _ _ _ Hc) as Ec. rewrite E, Ec in Eb. simplify_eq.
  rewrite <- (GetPacket_seq _ _ _ Hb). apply (GetPacket_seq _ _ _ Hc).
Qed.

Lemma count_bound s : store_ok s -> 0 <= buffered_packet_count_ s <= 2048.
Proof.
  intros Hs. rewrite (so_count s Hs). rewrite <- size_dom.
  assert (dom (buffer_ s) ⊆ list_to_set (C := gset Z) (seqZ 0 2048)) as Hd.
  { intros i [b E]%elem_of_dom. destruct (so_slot s Hs i b E) as [-> _].
    apply elem_of_list_to_set, elem_of_seqZ. pose proof (BufferIndex_range (unwrapped_seq b)). lia. }
  apply subseteq_size in Hd. rewrite size_list_to_set in Hd by apply NoDup_seqZ.
  rewrite length_seqZ in Hd. lia.
Qed.

(** ** The arrival list *)

Lemma arrivals_erase_spec e l :
  e ∈ l -> NoDup (snd <$> l) ->
  exists l', arrivals_erase e l = Some l' /\
    (forall x, x ∈ l' <-> x ∈ l /\ snd x <> snd e) /\ sublist l' l.
Proof.
  induction l as [|x l IH]; [by intros ?%elem_of_nil|].
  intros Hin Hnd. simpl in *. apply NoDup_cons in Hnd as [Hx Hnd].
  destruct (decide (x = e)) as [->|Hne].
  - exists l. repeat split; [by right| |set_solver|by apply sublist_cons].
    intros E. apply Hx. rewrite <- E. by apply list_elem_of_fmap_2.
  - apply elem_of_cons in Hin as [->|Hin]; [done|].
    destruct (IH Hin Hnd) as (l' & -> & Hl & Hsub). exists (x :: l'). simpl.
    split; [done|]. split; [|by apply sublist_skip]. intros y. rewrite !elem_of_cons, Hl.
    split; [|tauto]. intros [->|?]; [|tauto]. split; [by left|].
    intros E. apply Hx. rewrite E. by apply list_elem_of_fmap_2.
Qed.

Lemma arrivals_emplace_perm e l : arrivals_emplace e l ≡ₚ e :: l.
Proof.
  induction l as [|x l IH]; [done|]. simpl. destruct (_ <? _); [done|].
  rewrite IH. apply Permutation_swap.
Qed.

Lemma arrivals_emplace_sorted e l :
  StronglySorted (fun a b : Z * Z => fst a <= fst b) l ->
  StronglySorted (fun a b : Z * Z => fst a <= fst b) (arrivals_emplace e l).
Proof.
  induction 1 as [|x l Hl IH Hx]; simpl; [by repeat constructor|].
  destruct (Z.ltb_spec (fst e) (fst x)).
  - repeat constructor; auto; [lia|]. eapply Forall_impl; [exact Hx|]. simpl. intros; lia.
  - constructor; [done|]. rewrite arrivals_emplace_perm. constructor; [lia|done].
Qed.

Lemma sublist_sorted {A} (R : A -> A -> Prop) l k :
  sublist l k -> StronglySorted R k -> StronglySorted R l.
Proof.
  induction 1 as [|x l k Hs IH|x l k Hs IH]; intros Hk; auto;
    apply StronglySorted_inv in Hk as [Hk Hx]; auto. constructor; auto.
  rewrite Forall_forall in *. intros y Hy. apply Hx. by eapply elem_of_sublist.
Qed.

(** ** Removing packets *)

(** [s'] is [s] without the packets whose number satisfies [P]. *)
Definition removed (P : Z -> bool) (s s' : PacketBuffer) : Prop :=
  store_ok s' /\ (rest s' = rest s /\ arrivals_ s' ⊆ arrivals_ s) /\
  forall q, GetPacket s' q = if P q then None else GetPacket s q.

Lemma removed_none s P : store_ok s -> (forall q, P q = true -> GetPacket s q = None) -> removed P s s.
Proof.
  intros Hs HP. split; [done|]. split; [done|]. intros q.
  destruct (P q) eqn:E; [by apply HP|done].
Qed.

Lemma removed_trans P Q R s t u :
  (forall q, R q = P q || Q q) -> removed P s t -> removed Q t u -> removed R s u.
Proof.
  intros E (_ & [R1 A1] & G1) (Hu & [R2 A2] & G2). split; [done|].
  split; [split; [congruence|by transitivity (arrivals_ t)]|].
  intros q. rewrite G2, G1, E. by destruct (P q), (Q q).
Qed.

Lemma removed_ext P Q s s' : (forall q, P q = Q q) -> removed P s s' -> removed Q s s'.
Proof. intros E (H1 & H2 & H3). split; [done|]. split; [done|]. intros q. by rewrite H3, E. Qed.

Lemma ErasePacket_removed s i b :
  store_ok s -> buffer_ s !! i = Some b ->
  exists s', ErasePacket s i = Ret s' /\ removed (fun q => q =? unwrapped_seq b) s s'.
Proof.
  intros Hs E. unfold ErasePacket. rewrite E.
  destruct (so_slot s Hs i b E) as (Hi & Ha & Hin).
  destruct (arrivals_erase_spec _ _ Hin (so_nodup s Hs)) as (l & -> & Hl & Hsub).
  eexists. split; [reflexivity|].
  assert (forall q, GetPacket (set_store s (delete i (buffer_ s)) l
            (u64 (buffered_packet_count_ s - 1))) q =
          if q =? unwrapped_seq b then None else GetPacket s q) as G.
  { intros q. unfold GetPacket. simpl. destruct (decide (BufferIndex q = i)) as [<-|Hne].
    - rewrite lookup_delete_eq, E. rewrite Z.eqb_sym. by destruct (_ =? _).
    - rewrite lookup_delete_ne by done. destruct (Z.eqb_spec q (unwrapped_seq b)); [|done].
      by subst. }
  split; [|split; [split; [done|]|done]].
  2: { intros x Hx. by apply Hl. }
  constructor; simpl.
  - intros j c [Hne Ec]%lookup_delete_Some. destruct (so_slot s Hs j c Ec) as (Hj & Hc & Hinc).
    split; [done|]. split; [done|]. apply Hl. split; [done|]. rewrite Hc, Ha. congruence.
  - intros e [He Hne]%Hl. destruct (so_arrival s Hs e He) as (c & Ec & Hc).
    exists c. rewrite G. by rewrite (proj2 (Z.eqb_neq _ _)) by congruence.
  - eapply sublist_NoDup; [apply (so_nodup s Hs)|by apply fmap_sublist].
  - eapply sublist_sorted; [exact Hsub|apply (so_sorted s Hs)].
  - pose proof (count_bound s Hs). rewrite (so_count s Hs) in *.
    rewrite map_size_delete_Some by (by rewrite E).
    assert (size (buffer_ s) <> 0%nat) by (intros E0%map_size_empty_iff; by rewrite E0 in E).
    words.
Qed.

(** Every removal is a loop of conditional erasures. *)
Lemma for_each_erase {A} (c : A -> Z -> bool) (ix : A -> Z) (l : list A) : forall s,
  store_ok s ->
  exists s', for_each (fun s x => erase_if (c x) s (ix x)) l s = Ret s' /\
    removed (fun q => existsb (fun x => (ix x =? BufferIndex q) && c x q) l) s s'.
Proof.
  induction l as [|x l IH]; intros s Hs; simpl.
  { exists s. split; [done|]. by apply removed_none. }
  assert (exists t, erase_if (c x) s (ix x) = Ret t /\
    removed (fun q => (ix x =? BufferIndex q) && c x q) s t) as (t & -> & Ht).
  { unfold erase_if. destruct (buffer_ s !! ix x) as [b|] eqn:E.
    - destruct (so_slot s Hs _ _ E) as (Hi & _). destruct (c x (unwrapped_seq b)) eqn:Ec.
      + destruct (ErasePacket_removed s _ b Hs E) as (t & -> & Ht & Rt & Gt).
        exists t. split; [done|]. split; [done|]. split; [done|]. intros q. rewrite Gt, Hi.
        destruct (Z.eqb_spec q (unwrapped_seq b)) as [->|Hne].
        * by rewrite Z.eqb_refl, Ec.
        * destruct (GetPacket s q) as [d|] eqn:Eq; [|by destruct (_ && _)].
          destruct (Z.eqb_spec (BufferIndex (unwrapped_seq b)) (BufferIndex q)) as [E2|]; [|done].
          by pose proof (GetPacket_same_slot s _ _ _ _ (slot_GetPacket s _ _ Hs E) Eq E2); subst.
      + exists s. split; [done|]. apply removed_none; [done|]. intros q [Eq Cq]%andb_prop.
        apply Z.eqb_eq in Eq. unfold GetPacket. rewrite <- Eq, E.
        destruct (Z.eqb_spec (unwrapped_seq b) q); [|done]. by subst; rewrite Ec in Cq.
    - exists s. split; [done|]. apply removed_none; [done|]. intros q [Eq _]%andb_prop.
      apply Z.eqb_eq in Eq. unfold GetPacket. by rewrite <- Eq, E. }
  simpl. destruct (IH t (proj1 Ht)) as (u & -> & Hu). exists u. split; [done|].
  by eapply removed_trans; [|exact Ht|exact Hu].
Qed.

Lemma existsb_elem {A} (f : A -> bool) l : existsb f l = true <-> exists x, x ∈ l /\ f x = true.
Proof.
  rewrite existsb_exists. split; intros (x & Hx & Hf); exists x; by rewrite list_elem_of_In in *.
Qed.

Lemma bool_ext (a b : bool) : (a = true <-> b = true) -> a = b.
Proof. destruct a, b; intuition congruence. Qed.

Lemma slots_cover c q : existsb (fun x => (x =? BufferIndex q) && c q) slots = c q.
Proof.
  apply bool_ext. rewrite existsb_elem. split.
  - by intros (x & _ & [_ ?]%andb_prop).
  - intros Hc. exists (BufferIndex q). rewrite Z.eqb_refl, Hc. split; [|done].
    apply elem_of_seqZ. pose proof (BufferIndex_range q). unfold kBufferSize. lia.
Qed.

Definition in_range (a b q : Z) : bool := (a <=? q) && (q <=? b).

Lemma RemovePackets_removed s a b :
  store_ok s ->
  exists s', RemovePackets s a b = Ret s' /\ removed (in_range a b) s s'.
Proof.
  intros Hs. unfold RemovePackets. destruct (_ <=? _).
  - destruct (for_each_erase (fun _ => in_range a b) (fun x => x) slots s Hs) as (s' & E & H).
    exists s'. split; [exact E|]. eapply removed_ext; [|exact H]. intros q. apply slots_cover.
  - destruct (for_each_erase (fun x q => q =? x) BufferIndex
               (seqZ a (b - a + 1)) s Hs) as (s' & E & H).
    exists s'. split; [exact E|]. eapply removed_ext; [|exact H]. intros q.
    apply bool_ext. rewrite existsb_elem. unfold in_range. split.
    + intros (x & Hx%elem_of_seqZ & Hc). bool_hyps. subst.
      apply andb_true_intro. rewrite !Z.leb_le. lia.
    + intros Hc. bool_hyps. exists q. rewrite elem_of_seqZ, !Z.eqb_refl. split; [lia|done].
Qed.

Lemma RemovePacketsBefore_removed s q :
  store_ok s ->
  exists s', RemovePacketsBefore s q = Ret s' /\ removed (fun r => r <? q) s s'.
Proof.
  intros Hs. destruct (for_each_erase (fun _ r => r <? q) (fun x => x) slots s Hs) as (s' & E & H).
  exists s'. split; [exact E|]. eapply removed_ext; [|exact H]. intros r.
  apply (slots_cover (fun r => r <? q)).
Qed.

(** ** The reference assembler

    A frame is a function of the list of its packets ([None]: a packet that is
    missing). *)

(** The NAL units of a sequence of payload units, fragments joined; [open] is the
    NAL unit under construction. *)
Fixpoint reassemble (us : list H264PayloadUnit) (open : list Z) : list (list Z) :=
  match us with
  | [] => []
  | u :: us =>
    match unit_type u with
    | FuAFragment =>
      let n := (if fu_start u then [reconstructed_nal_header u] else open) ++ udata u in
      if fu_end u then n :: reassemble us [] else reassemble us n
    | _ => udata u :: reassemble us open
    end
  end.

Definition units_in (items : list (option H264ParsedPacket)) : list H264PayloadUnit :=
  concat (map (from_option punits []) items).

Definition frame0 (p : H264ParsedPacket) (st en : Z) : H264AccessUnit :=
  mkAU (pssrc p) (ptimestamp p) 0 (u16 st) (u16 en) false false true false false false false [].

Definition assemble_from (c : Config) (p0 : H264ParsedPacket) (st en : Z)
    (items : list (option H264ParsedPacket)) : option H264AccessUnit :=
  match scan_packets items (frame0 p0 st en) None false with
  | Some (f, None) =>
    if fhas_idr f && negb (idr_only_keyframes_allowed c) &&
       (negb (fhas_sps f) || negb (fhas_pps f)) then None else
    match reassemble (units_in items) [] with
    | [] => None
    | ns => Some (complete_frame f ns)
    end
  | _ => None
  end.

Definition assemble (c : Config) (st en : Z) (items : list (option H264ParsedPacket))
  : option H264AccessUnit :=
  match items with
  | Some p0 :: _ => assemble_from c p0 st en items
  | _ => None
  end.

(** ** Appending after validation *)

(** The validator's open fragment and the appender's variables agree. *)
Definition fu_rel (fu : option Z) (st : AppendState) : Prop :=
  match fu with
  | None => fu_active st = false /\ fu_nalu st = []
  | Some h => fu_active st = true /\ exists t, fu_nalu st = h :: t
  end.

(** Units that were validated are appended without an error, and what is appended is
    what [reassemble] says. *)
Lemma append_validated us : forall fu fu' st,
  ValidatePacketUnits us fu = Some fu' -> fu_rel fu st ->
  exists us' st', AppendPacketUnits us st = Ret (true, us', st') /\ fu_rel fu' st' /\
    forall more, nalus st' ++ reassemble more (fu_nalu st') =
                 nalus st ++ reassemble (us ++ more) (fu_nalu st).
Proof.
  induction us as [|u us IH]; intros fu fu' st Hv Hr; 
    remember reassemble as R eqn:ER; simpl in Hv |- *.
  { injection Hv as <-. eauto. }
  assert (forall fu1 st1 w, ValidatePacketUnits us fu1 = Some fu' -> fu_rel fu1 st1 ->
    (forall more, nalus st1 ++ R more (fu_nalu st1) =
                  nalus st ++ R (u :: more) (fu_nalu st)) ->
    exists us' st', (let! '(ok, us', st') := AppendPacketUnits us st1 in
                     Ret (ok, w :: us', st')) = Ret (true, us', st') /\ fu_rel fu' st' /\
      forall more, nalus st' ++ R more (fu_nalu st') =
                   nalus st ++ R (u :: us ++ more) (fu_nalu st)) as Step.
  { intros fu1 st1 w Hv1 Hr1 Hm. destruct (IH fu1 fu' st1 Hv1 Hr1) as (us' & st' & -> & Hf & E).
    do 2 eexists. split; [reflexivity|]. split; [done|]. intros more. by rewrite E, Hm. }
  destruct (unit_type u) eqn:Et; [done| | |].
  1,2: destruct fu as [h|]; [done|]; destruct (udata u) as [|x d] eqn:Ed; [done|];
    destruct Hr as [Ha Hn]; rewrite Ha; simpl; eapply Step; [exact Hv|done|];
    intros more; subst R; simpl; by rewrite Et, Ed, <- app_assoc.
  destruct (udata u) as [|x d] eqn:Ed; [done|].
  destruct (fu_start u) eqn:Es; simpl.
  - destruct fu as [h|]; [done|]. destruct Hr as [Ha Hn]. rewrite Ha. simpl.
    rewrite Z.eqb_refl in *. simpl in *.
    destruct (fu_end u) eqn:Ee; (eapply Step; [exact Hv|simpl; eauto|]);
      intros more; subst R; simpl; rewrite Et, Es, Ee, Ed; by rewrite <- ?app_assoc.
  - destruct fu as [h|]; [|done]. destruct Hr as (Ha & t & Hn). rewrite Ha, Hn in *. simpl.
    destruct (Z.eqb_spec h (reconstructed_nal_header u)) as [->|]; [|done]. simpl in *.
    destruct (fu_end u) eqn:Ee; (eapply Step; [exact Hv|simpl; eauto|]);
      intros more; subst R; simpl; rewrite Et, Es, Ee, Ed; by rewrite <- ?app_assoc.
Qed.

(** ** Appending the packets of a frame *)

(** Same packets at the same numbers, apart from the contents of those in [l]. *)
Definition mutated (l : list Z) (s s' : PacketBuffer) : Prop :=
  store_ok s' /\ (rest s' = rest s /\ arrivals_ s' ⊆ arrivals_ s) /\
  forall q, q ∉ l -> GetPacket s' q = GetPacket s q.

Lemma replace_packet s q b p :
  store_ok s -> GetPacket s q = Some b ->
  mutated [q] s (set_store s (<[BufferIndex q := mkBuffered (unwrapped_seq b) p (arrival b)]>
                               (buffer_ s)) (arrivals_ s) (buffered_packet_count_ s)).
Proof.
  intros Hs Hb. pose proof (GetPacket_slot _ _ _ Hb) as E. pose proof (GetPacket_seq _ _ _ Hb) as Eq.
  set (b' := mkBuffered _ _ _). set (s' := set_store _ _ _ _).
  assert (forall r, GetPacket s' r = if r =? q then Some b' else GetPacket s r) as G.
  { intros r. unfold GetPacket. simpl. destruct (decide (BufferIndex r = BufferIndex q)) as [Ei|Hne].
    - rewrite Ei, lookup_insert_eq, E. simpl. rewrite Eq, Z.eqb_sym.
      by destruct (Z.eqb_spec r q).
    - rewrite lookup_insert_ne by done. destruct (Z.eqb_spec r q); [|done]. by subst. }
  split; [|split; [done|]].
  - constructor; simpl; try apply Hs.
    + intros i c [[<- <-]|[Hne Ec]]%lookup_insert_Some; [|by apply (so_slot s Hs)].
      apply (so_slot s Hs _ _ E).
    + intros e He. destruct (so_arrival s Hs e He) as (c & Ec & Hc). rewrite G.
      destruct (Z.eqb_spec (snd e) q) as [Ee|]; [|by eauto].
      exists b'. split; [done|]. simpl. rewrite Ee, Hb in Ec. by simplify_eq.
    + rewrite map_size_insert_Some by (by rewrite E). apply Hs.
  - intros r Hr. rewrite G. destruct (Z.eqb_spec r q); [|done]. subst. set_solver.
Qed.

Lemma mutated_trans l1 l2 s t u : mutated l1 s t -> mutated l2 t u -> mutated (l1 ++ l2) s u.
Proof.
  intros (_ & [R1 A1] & G1) (Hu & [R2 A2] & G2). split; [done|].
  split; [split; [congruence|by transitivity (arrivals_ t)]|].
  intros q Hq. rewrite G2, G1; set_solver.
Qed.

(** The packet at a number, as the assembler sees it. *)
Definition pkt (s : PacketBuffer) (q : Z) : option H264ParsedPacket := packet <$> GetPacket s q.

Lemma append_packets_ok seqs : forall s st f f' fu fu' saw,
  store_ok s -> NoDup seqs ->
  scan_packets (map (pkt s) seqs) f fu saw = Some (f', fu') -> fu_rel fu st ->
  exists s' st', append_packets seqs s st = Ret (true, s', st') /\ mutated seqs s s' /\
    fu_rel fu' st' /\ nalus st' = nalus st ++ reassemble (units_in (map (pkt s) seqs)) (fu_nalu st).
Proof.
  induction seqs as [|q seqs IH]; intros s st f f' fu fu' saw Hs Hnd Hsc Hr; simpl in *.
  { injection Hsc as <- <-. do 2 eexists. split; [done|]. split; [done|].
    split; [done|]. by rewrite app_nil_r. }
  apply NoDup_cons in Hnd as [Hq Hnd]. unfold pkt in Hsc at 1.
  destruct (GetPacket s q) as [b|] eqn:Eb; simpl in Hsc; [|done].
  destruct (_ || _); [done|].
  destruct (scan_units _ _) as [saw1|]; [|done].
  destruct (ValidatePacketUnits _ _) as [fu1|] eqn:Ev; [|done].
  destruct (append_validated _ _ _ _ Ev Hr) as (us & st1 & -> & Hr1 & En). simpl.
  pose proof (replace_packet s q b (set_units (packet b) us) Hs Eb) as Hm.
  set (s1 := set_store _ _ _ _) in *.
  assert (map (pkt s1) seqs = map (pkt s) seqs) as Em.
  { apply list_fmap_ext. intros i r Hi. unfold pkt. rewrite (proj2 (proj2 Hm)); [done|].
    apply list_elem_of_lookup_2 in Hi. set_solver. }
  rewrite <- Em in Hsc.
  destruct (IH s1 st1 _ _ _ _ _ (proj1 Hm) Hnd Hsc Hr1) as (s' & st' & -> & Hm' & Hf & Es).
  do 2 eexists. split; [reflexivity|].
  split; [by apply (mutated_trans [q] seqs _ _ _ Hm Hm')|]. split; [done|].
  assert (pkt s q = Some (packet b)) as Ep by (unfold pkt; by rewrite Eb).
  rewrite Es, En, Em. unfold units_in. simpl. by rewrite Ep.
Qed.

(** ** Assembling a frame *)

Lemma store_ok_ext s t :
  buffer_ t = buffer_ s -> arrivals_ t = arrivals_ s ->
  buffered_packet_count_ t = buffered_packet_count_ s -> store_ok s -> store_ok t.
Proof.
  intros Eb Ea Ec [H1 H2 H3 H4 H5].
  constructor; rewrite ?Eb, ?Ea, ?Ec; auto. intros e He. destruct (H2 e He) as (b & Hb & He').
  exists b. unfold GetPacket. by rewrite Eb.
Qed.

Lemma set_frame_ok s a b c : store_ok s -> store_ok (set_frame s a b c).
Proof. by apply store_ok_ext. Qed.

Lemma set_last_ok s a b : store_ok s -> store_ok (set_last s a b).
Proof. by apply store_ok_ext. Qed.

#[local] Hint Resolve set_frame_ok set_last_ok : core.

Lemma MaybeAssembleFrame_spec s st en :
  store_ok s -> st <= en -> en - st + 1 <= max_frame_packets (config_ s) ->
  exists s',
    MaybeAssembleFrame s st en =
      Ret (s', assemble (config_ s) st en (map (pkt s) (seqZ st (en - st + 1)))) /\
    mutated (seqZ st (en - st + 1)) s s'.
Proof.
  intros Hs Hle Hmax. unfold MaybeAssembleFrame, exceeds.
  rewrite (proj2 (Z.ltb_ge en st)), (proj2 (Z.ltb_ge _ 0)), (proj2 (Z.ltb_ge _ _)) by lia.
  cbn [orb].
  assert (mutated (seqZ st (en - st + 1)) s s) as Hid by done.
  assert (map (pkt s) (seqZ st (en - st + 1)) = pkt s st :: map (pkt s) (seqZ (Z.succ st) (en - st)))
    as Econs by (rewrite seqZ_cons by lia; simpl; do 2 f_equal; f_equal; lia).
  assert (pkt s st = packet <$> GetPacket s st) as Ep by done.
  destruct (GetPacket s st) as [b|] eqn:Eb; simpl in Ep; rewrite Ep in Econs.
  2: { exists s. split; [|done]. by rewrite Econs. }
  assert (assemble (config_ s) st en (map (pkt s) (seqZ st (en - st + 1))) =
          assemble_from (config_ s) (packet b) st en (map (pkt s) (seqZ st (en - st + 1)))) as ->.
  { by rewrite Econs. }
  unfold assemble_from.
  change (map (fun q => option_map packet (GetPacket s q)) ?l) with (map (pkt s) l).
  change (mkAU _ _ 0 _ _ _ _ _ _ _ _ _ _) with (frame0 (packet b) st en).
  destruct (scan_packets _ _ _ _) as [[f [h|]]|] eqn:Esc.
  1,3: by exists s.
  destruct (_ && (_ || _)) eqn:Eidr.
  { by exists s. }
  destruct (append_packets_ok (seqZ st (en - st + 1)) s (mkAppend false [] []) _ _ _ _ _
              Hs (NoDup_seqZ _ _) Esc) as (s1 & st1 & -> & Hm & [Hfa _] & En); [done|].
  simpl. rewrite Hfa. simpl. simpl in En. rewrite En.
  destruct (reassemble _ _) as [|n ns] eqn:Er.
  { by exists s1. }
  destruct (RemovePackets_removed s1 st en (proj1 Hm)) as (s2 & -> & Hs2 & [R2 A2] & G2).
  exists s2. simpl. split; [done|]. destruct Hm as (Hs1 & [R1 A1] & G1).
  split; [done|]. split; [split; [congruence|by transitivity (arrivals_ s1)]|]. intros q Hq. rewrite G2.
  rewrite elem_of_seqZ in Hq. unfold in_range.
  destruct ((st <=? q) && (q <=? en)) eqn:E; [bool_hyps; lia|]. apply G1.
  rewrite elem_of_seqZ. lia.
Qed.

Definition frame_range (o : option Z) (en : Z) : Z -> bool :=
  match o with Some st => in_range st en | None => fun _ => false end.

Lemma DropCurrentFrame_spec s en :
  store_ok s ->
  exists t, DropCurrentFrame s en = Ret (set_frame t None (current_frame_timestamp_ t) false) /\
    removed (frame_range (current_frame_start_ s) en) s t.
Proof.
  intros Hs. unfold DropCurrentFrame. destruct (current_frame_start_ s) as [st|]; simpl.
  - destruct (RemovePackets_removed s st en Hs) as (t & -> & H). simpl. eauto.
  - eexists. split; [done|]. by apply removed_none.
Qed.

(** ** One packet in order

    The frame under construction: its timestamp, whether it outgrew the limit, and
    its packets so far. *)
Record Asm : Type := mkAsm {
  a_ts : Z;
  a_disc : bool;
  a_items : list (option H264ParsedPacket) }.

(** The reference: packet [q] arrives in order. *)
Definition asm_step (c : Config) (a : option Asm) (q : Z) (p : H264ParsedPacket)
  : option Asm * list H264AccessUnit :=
  let a := match a with
           | Some x => if a_ts x =? ptimestamp p then x else mkAsm (ptimestamp p) false []
           | None => mkAsm (ptimestamp p) false []
           end in
  let items := a_items a ++ [Some p] in
  let n := Z.of_nat (length items) in
  let disc := a_disc a || (max_frame_packets c <? n) in
  if pmarker p
  then (None, if disc then [] else option_list (assemble c (q - n + 1) q items))
  else (Some (mkAsm (ptimestamp p) disc items), []).

(** The frame [start, c] of the buffer is the one the reference has under
    construction; what is not of it lies after [c]. *)
Definition frame_rel (s : PacketBuffer) (c st : Z) (x : Asm) : Prop :=
  st <= c + 1 /\ current_frame_timestamp_ s = a_ts x /\ discarding_frame_ s = a_disc x /\
  Z.of_nat (length (a_items x)) = c - st + 1 /\
  (if a_disc x then max_frame_packets (config_ s) < c - st + 1
   else c - st + 1 <= max_frame_packets (config_ s) /\
        a_items x = map (pkt s) (seqZ st (c - st + 1))) /\
  forall q, is_Some (GetPacket s q) -> c < q \/ (a_disc x = false /\ st <= q).

Definition sim (s : PacketBuffer) (c : Z) (a : option Asm) : Prop :=
  store_ok s /\ 1 <= max_frame_packets (config_ s) <= 2048 /\
  last_continuous_unwrapped_seq_ s = Some c /\ waiting_for_recovery_ s = false /\
  match current_frame_start_ s, a with
  | None, None => discarding_frame_ s = false /\ forall q, is_Some (GetPacket s q) -> c < q
  | Some st, Some x => st <= c /\ frame_rel s c st x
  | _, _ => False
  end.

(** What in-order processing leaves alone. *)
Definition kept (s s' : PacketBuffer) : Prop :=
  config_ s' = config_ s /\ seq_unwrapper_ s' = seq_unwrapper_ s /\
  waiting_for_recovery_ s' = waiting_for_recovery_ s /\ arrivals_ s' ⊆ arrivals_ s.

Lemma kept_refl s : kept s s.
Proof. by repeat split. Qed.

Lemma kept_trans s t u : kept s t -> kept t u -> kept s u.
Proof.
  intros (? & ? & ? & A1) (? & ? & ? & A2). repeat (split; [congruence|]).
  by transitivity (arrivals_ t).
Qed.

Lemma rest_fields s t :
  rest s = rest t ->
  config_ s = config_ t /\ seq_unwrapper_ s = seq_unwrapper_ t /\
  last_continuous_unwrapped_seq_ s = last_continuous_unwrapped_seq_ t /\
  last_continuous_timestamp_ s = last_continuous_timestamp_ t /\
  current_frame_start_ s = current_frame_start_ t /\
  current_frame_timestamp_ s = current_frame_timestamp_ t /\
  discarding_frame_ s = discarding_frame_ t /\
  waiting_for_recovery_ s = waiting_for_recovery_ t.
Proof. unfold rest. intros [=]. repeat split; congruence. Qed.

(** Entering the frame of packet [c + 1]: the reference before it appends the packet. *)
Definition asm_enter (a : option Asm) (ts : Z) : Asm :=
  match a with
  | Some x => if a_ts x =? ts then x else mkAsm ts false []
  | None => mkAsm ts false []
  end.

Lemma map_pkt_ext s t l :
  (forall q, q ∈ l -> GetPacket s q = GetPacket t q) -> map (pkt s) l = map (pkt t) l.
Proof.
  intros H. apply list_fmap_ext. intros i q Hq%list_elem_of_lookup_2.
  unfold pkt. by rewrite H.
Qed.

Lemma fresh_frame_rel s c ts :
  1 <= max_frame_packets (config_ s) ->
  current_frame_timestamp_ s = ts -> discarding_frame_ s = false ->
  (forall q, is_Some (GetPacket s q) -> c < q) -> frame_rel s c (c + 1) (mkAsm ts false []).
Proof.
  intros Hm Ht Hd Hq. unfold frame_rel. simpl. replace (c - (c + 1) + 1) with 0 by lia.
  repeat split; auto; lia.
Qed.

Lemma enter_frame_spec s c a b :
  sim s c a -> GetPacket s (c + 1) = Some b ->
  exists s' st,
    enter_frame s (c + 1) b = Ret s' /\ store_ok s' /\ kept s s' /\
    last_continuous_unwrapped_seq_ s' = Some (c + 1) /\
    last_continuous_timestamp_ s' = Some (ptimestamp (packet b)) /\
    current_frame_start_ s' = Some st /\
    frame_rel s' c st (asm_enter a (ptimestamp (packet b))) /\
    a_ts (asm_enter a (ptimestamp (packet b))) = ptimestamp (packet b) /\
    forall q, c < q -> GetPacket s' q = GetPacket s q.
Proof.
  intros (Hs & Hm & Hl & Hw & Hf) Hb. unfold enter_frame.
  set (s0 := set_last _ _ _). assert (store_ok s0) as Hs0 by (by apply set_last_ok).
  change (current_frame_start_ s0) with (current_frame_start_ s).
  change (current_frame_timestamp_ s0) with (current_frame_timestamp_ s).
  set (ts := ptimestamp (packet b)).
  destruct (current_frame_start_ s) as [st|] eqn:Est; destruct a as [x|]; try done.
  - destruct Hf as (Hstc & Hrel). pose proof Hrel as (Hst & Hts & Hd & Hlen & Hi & Hq).
    rewrite Hts. simpl.
    destruct (Z.eqb_spec (a_ts x) ts) as [E|Hne]; cbn [negb].
    + simpl. rewrite Est. exists s0, st. repeat (split; [done|]). by split.
    + destruct (DropCurrentFrame_spec s0 (c + 1 - 1) Hs0) as (t & -> & Ht & Rt & Gt).
      cbn [mbnd]. simpl current_frame_start_. cbn iota.
      change (current_frame_start_ s0) with (current_frame_start_ s) in Gt.
      rewrite Est in Gt. simpl in Gt. unfold in_range in Gt.
      destruct Rt as [Rt At]. apply rest_fields in Rt as (Rc & Ru & Rl & Rlt & _ & _ & _ & Rw).
      assert (forall q, c < q -> GetPacket t q = GetPacket s q) as Gq.
      { intros q Hc. rewrite Gt. by rewrite (proj2 (Z.leb_gt q _)), andb_false_r by lia. }
      change (GetPacket (set_frame ?u _ _ _) ?q) with (GetPacket u q).
      rewrite Gq, Hb by lia. eexists _, (c + 1). split; [reflexivity|].
      split; [auto|]. split; [by repeat (split; [done|])|].
      simpl. split; [by rewrite Rl|]. split; [by rewrite Rlt|]. split; [done|].
      split; [|by split]. apply fresh_frame_rel; auto; [simpl; rewrite Rc; apply Hm|].
      intros q [d E]. change (GetPacket t q = Some d) in E.
      rewrite Gt in E. destruct (_ && _) eqn:Ein; [done|].
      destruct (Hq q ltac:(by eexists)) as [|[_ ?]]; [done|].
      apply andb_false_iff in Ein as [?|?]; bool_hyps; lia.
  - destruct Hf as [Hd Hq]. simpl. rewrite Est.
    change (GetPacket s0 (c + 1)) with (GetPacket s (c + 1)). rewrite Hb.
    eexists _, (c + 1). split; [reflexivity|]. split; [auto|].
    split; [by repeat (split; [done|])|]. repeat (split; [done|]). split; [|by split].
    apply fresh_frame_rel; auto. simpl. lia.
Qed.

(** The frame with packet [c + 1] appended. *)
Definition asm_push (c : Config) (a : Asm) (p : H264ParsedPacket) : Asm :=
  let items := a_items a ++ [Some p] in
  mkAsm (a_ts a) (a_disc a || (max_frame_packets c <? Z.of_nat (length items))) items.

Lemma limit_frame_spec s c st x b :
  store_ok s -> 1 <= max_frame_packets (config_ s) ->
  current_frame_start_ s = Some st -> frame_rel s c st x ->
  GetPacket s (c + 1) = Some b ->
  exists s', limit_frame s (c + 1) = Ret s' /\ store_ok s' /\ kept s s' /\
    last_continuous_unwrapped_seq_ s' = last_continuous_unwrapped_seq_ s /\
    last_continuous_timestamp_ s' = last_continuous_timestamp_ s /\
    current_frame_start_ s' = Some st /\
    frame_rel s' (c + 1) st (asm_push (config_ s) x (packet b)) /\
    forall q, c + 1 < q -> GetPacket s' q = GetPacket s q.
Proof.
  intros Hs Hm Est (Hst & Hts & Hd & Hlen & Hi & Hq) Hb.
  assert (Z.of_nat (length (a_items x ++ [Some (packet b)])) = c + 1 - st + 1) as Hlen'
    by (rewrite length_app; simpl; lia).
  unfold limit_frame. rewrite Est. unfold exceeds.
  rewrite (proj2 (Z.ltb_ge _ 0)) by lia. cbn [orb].
  destruct (Z.ltb_spec (max_frame_packets (config_ s)) (c + 1 - st + 1)) as [Hbig|Hsmall].
  - assert (exists t r, (if negb (discarding_frame_ s) then RemovePackets s st (c + 1)
                         else RemovePackets s (c + 1) (c + 1)) = Ret t /\
      removed (in_range r (c + 1)) s t /\ (a_disc x = true \/ r = st) /\ r <= c + 1)
      as (t & r & -> & (Ht & Rt & Gt) & Hr & Hrle).
    { rewrite Hd. destruct (a_disc x); cbn [negb].
      - destruct (RemovePackets_removed s (c + 1) (c + 1) Hs) as (t & -> & H).
        exists t, (c + 1). repeat (split; [done|]). split; [by left|lia].
      - destruct (RemovePackets_removed s st (c + 1) Hs) as (t & -> & H).
        exists t, st. repeat (split; [done|]). split; [by right|done]. }
    cbn [mbnd]. destruct Rt as [Rt At].
    apply rest_fields in Rt as (Rc & Ru & Rl & Rlt & Rst & Rts & _ & Rw).
    eexists. split; [reflexivity|]. split; [auto|]. simpl.
    split; [by repeat (split; [done|])|]. split; [done|]. split; [done|]. split; [congruence|].
    split; [|intros q ?; change (GetPacket t q = GetPacket s q); rewrite Gt; unfold in_range;
             by rewrite (proj2 (Z.leb_gt q _)), andb_false_r by lia].
    unfold frame_rel, asm_push. simpl. rewrite Hlen', Rts, Rc, (proj2 (Z.ltb_lt _ _)), orb_true_r by lia.
    repeat split; try lia; auto. intros q [d E]. left.
    change (GetPacket t q = Some d) in E. rewrite Gt in E. unfold in_range in E.
    destruct (_ && _) eqn:Ein; [done|]. apply andb_false_iff in Ein.
    destruct (Hq q ltac:(by eexists)) as [Hc|[Hx Hc]].
    + destruct (Z.eqb_spec q (c + 1)) as [->|]; [|lia].
      destruct Ein; bool_hyps; lia.
    + destruct Hr as [Hr| ->]; [congruence|]. destruct Ein; bool_hyps; lia.
  - exists s. split; [done|]. split; [done|]. repeat (split; [done|]).
    split; [|done]. unfold frame_rel, asm_push. simpl.
    rewrite Hlen', (proj2 (Z.ltb_ge _ _)), orb_false_r by lia.
    assert (a_disc x = false) as Ed by (destruct (a_disc x); [lia|done]).
    rewrite Ed in *. destruct Hi as [Hi1 Hi2].
    repeat split; try lia; auto.
    + rewrite Hi2. replace (c + 1 - st + 1) with ((c - st + 1) + 1) by lia.
      rewrite (seqZ_app st (c - st + 1) 1) by lia. rewrite map_app. f_equal.
      replace (st + (c - st + 1)) with (c + 1) by lia.
      change (map (pkt s) (seqZ (c + 1) 1)) with [pkt s (c + 1)].
      unfold pkt. by rewrite Hb.
    + intros q Hsq. destruct (Hq q Hsq) as [|[_ ?]]; [|by right].
      destruct (decide (q = c + 1)); [right; split; [done|lia]|left; lia].
Qed.

Lemma asm_step_push c a q p :
  asm_step c a q p =
  let x := asm_push c (asm_enter a (ptimestamp p)) p in
  let n := Z.of_nat (length (a_items x)) in
  if pmarker p
  then (None, if a_disc x then [] else option_list (assemble c (q - n + 1) q (a_items x)))
  else (Some (mkAsm (ptimestamp p) (a_disc x) (a_items x)), []).
Proof. unfold asm_step, asm_push, asm_enter. destruct a as [x|]; [|done]. by destruct (_ =? _). Qed.

Lemma close_frame_spec s c st x :
  store_ok s -> current_frame_start_ s = Some st -> st <= c -> frame_rel s c st x ->
  exists s', close_frame s c =
      Ret (s', if a_disc x then [] else option_list (assemble (config_ s) st c (a_items x))) /\
    store_ok s' /\ kept s s' /\
    last_continuous_unwrapped_seq_ s' = last_continuous_unwrapped_seq_ s /\
    last_continuous_timestamp_ s' = last_continuous_timestamp_ s /\
    current_frame_start_ s' = None /\ discarding_frame_ s' = false /\
    (forall q, is_Some (GetPacket s' q) -> c < q) /\
    forall q, c < q -> GetPacket s' q = GetPacket s q.
Proof.
  intros Hs Est Hle (Hst & Hts & Hd & Hlen & Hi & Hq). unfold close_frame. rewrite Est.
  assert (exists t, (if negb (discarding_frame_ s) then MaybeAssembleFrame s st c else Ret (s, None)) =
      Ret (t, if a_disc x then None else assemble (config_ s) st c (a_items x)) /\
    mutated (seqZ st (c - st + 1)) s t) as (t & -> & Ht & [Rt At] & Gt).
  { rewrite Hd. destruct (a_disc x); cbn [negb]; [by exists s|]. destruct Hi as [Hi1 ->].
    by apply MaybeAssembleFrame_spec. }
  cbn [mbnd]. destruct (DropCurrentFrame_spec t c Ht) as (u & -> & Hu & [Ru Au] & Gu).
  assert (rest u = rest s) as Rus by congruence.
  apply rest_fields in Rt as (_ & _ & _ & _ & Rst & _). rewrite Rst, Est in Gu. simpl in Gu.
  apply rest_fields in Rus as (Rc & Rn & Rl & Rlt & _ & _ & _ & Rw).
  assert (forall q, GetPacket u q = if in_range st c q then None else GetPacket s q) as G.
  { intros q. rewrite Gu. destruct (in_range st c q) eqn:E; [done|]. apply Gt.
    rewrite elem_of_seqZ. unfold in_range in E. apply andb_false_iff in E.
    destruct E; bool_hyps; lia. }
  cbn [mbnd]. eexists. split; [by destruct (a_disc x)|]. split; [auto|]. simpl.
  split; [repeat (split; [done|]); by transitivity (arrivals_ t)|].
  repeat (split; [done|]). split.
  - intros q [d E]. change (GetPacket u q = Some d) in E. rewrite G in E.
    destruct (in_range st c q) eqn:Ein; [done|]. unfold in_range in Ein.
    apply andb_false_iff in Ein.
    destruct (Hq q ltac:(by eexists)) as [|[_ ?]]; [done|]. destruct Ein; bool_hyps; lia.
  - intros q Hc. change (GetPacket u q = GetPacket s q). rewrite G. unfold in_range.
    by rewrite (proj2 (Z.leb_gt q c)), andb_false_r by lia.
Qed.

(** One iteration of [FindFrames] is one step of the reference. *)
Lemma advance_spec s c a b :
  sim s c a -> GetPacket s (c + 1) = Some b ->
  exists s', advance s (c + 1) b = Ret (s', snd (asm_step (config_ s) a (c + 1) (packet b))) /\
    sim s' (c + 1) (fst (asm_step (config_ s) a (c + 1) (packet b))) /\ kept s s' /\
    last_continuous_timestamp_ s' = Some (ptimestamp (packet b)) /\
    forall q, c + 1 < q -> GetPacket s' q = GetPacket s q.
Proof.
  intros Hsim Hb. pose proof Hsim as (_ & Hm & _ & Hw & _).
  destruct (enter_frame_spec s c a b Hsim Hb)
    as (s1 & st & E1 & Hs1 & K1 & Hl1 & Hlt1 & Est1 & Hf1 & Hts1 & G1).
  pose proof K1 as (Kc & _ & Kw & _).
  assert (GetPacket s1 (c + 1) = Some b) as Hb1 by (rewrite G1; [done|lia]).
  unfold advance. rewrite E1. cbn [mbnd]. rewrite Hb1.
  destruct (limit_frame_spec s1 c st _ b Hs1 ltac:(rewrite Kc; lia) Est1 Hf1 Hb1)
    as (s2 & -> & Hs2 & L2 & Hl2 & Hlt2 & Est2 & Hf2 & G2).
  pose proof L2 as (Lc & _ & Lw & _). pose proof (kept_trans _ _ _ K1 L2) as K2.
  rewrite Kc in *. cbn [mbnd]. rewrite asm_step_push. cbn zeta.
  set (x := asm_push _ _ _) in *.
  assert (st <= c + 1) as Hst by apply Hf1.
  destruct (pmarker (packet b)); cbn [negb fst snd].
  - destruct (close_frame_spec s2 (c + 1) st x Hs2 Est2 Hst Hf2)
      as (s3 & -> & Hs3 & M3 & Hl3 & Hlt3 & Est3 & Hd3 & Hq3 & G3).
    pose proof M3 as (Mc & _ & Mw & _).
    destruct Hf2 as (_ & _ & _ & Hlen & _). rewrite Hlen, Lc.
    replace (c + 1 - (c + 1 - st + 1) + 1) with st by lia.
    exists s3. split; [done|]. split; [|split; [by apply (kept_trans _ _ _ K2)|]].
    + split; [done|]. split; [by rewrite Mc, Lc|]. do 2 (split; [congruence|]). by rewrite Est3.
    + split; [congruence|]. intros q Hc. rewrite G3, G2, G1 by lia. done.
  - exists s2. split; [done|]. split; [|split; [done|]].
    + split; [done|]. split; [by rewrite Lc|]. do 2 (split; [congruence|]).
      rewrite Est2. split; [done|].
      destruct Hf2 as (H1 & H2 & H3). split; [done|]. split; [|done]. simpl.
      by rewrite H2.
    + split; [congruence|]. intros q Hc. rewrite G2, G1 by lia. done.
Qed.

(** ** A run of packets in order *)

Fixpoint asm_run (c : Config) (a : option Asm) (q : Z) (ps : list H264ParsedPacket)
  : option Asm * list H264AccessUnit :=
  match ps with
  | [] => (a, [])
  | p :: ps =>
    let '(a1, fs) := asm_step c a q p in
    let '(a2, fs') := asm_run c a1 (q + 1) ps in
    (a2, fs ++ fs')
  end.

Lemma asm_run_app c a q ps ps' :
  asm_run c a q (ps ++ ps') =
  let '(a1, fs) := asm_run c a q ps in
  let '(a2, fs') := asm_run c a1 (q + Z.of_nat (length ps)) ps' in (a2, fs ++ fs').
Proof.
  revert a q. induction ps as [|p ps IH]; intros a q; simpl.
  - rewrite Z.add_0_r. by destruct (asm_run _ _ _ _).
  - destruct (asm_step _ _ _ _) as [a1 fs]. rewrite IH.
    destruct (asm_run _ _ _ ps) as [a2 fs2].
    replace (q + 1 + Z.of_nat (length ps)) with (q + Z.of_nat (S (length ps))) by lia.
    destruct (asm_run _ _ _ ps') as [a3 fs3]. by rewrite app_assoc.
Qed.

(** The packets buffered at [q], [q + 1], ... *)
Definition buffered_at (s : PacketBuffer) (q : Z) (ps : list H264ParsedPacket) : Prop :=
  forall i p, ps !! i = Some p -> pkt s (q + Z.of_nat i) = Some p.

Lemma find_loop_spec n : forall s c a,
  sim s c a ->
  exists s' ps, find_loop n s (c + 1) = Ret (s', snd (asm_run (config_ s) a (c + 1) ps)) /\
    (length ps <= n)%nat /\ buffered_at s (c + 1) ps /\
    sim s' (c + Z.of_nat (length ps)) (fst (asm_run (config_ s) a (c + 1) ps)) /\ kept s s' /\
    (length ps = n \/ GetPacket s (c + 1 + Z.of_nat (length ps)) = None) /\
    last_continuous_timestamp_ s' =
      match last ps with Some p => Some (ptimestamp p) | None => last_continuous_timestamp_ s end /\
    forall q, c + Z.of_nat (length ps) < q -> GetPacket s' q = GetPacket s q.
Proof.
  induction n as [|n IH]; intros s c a Hsim; simpl.
  { exists s, []. simpl. rewrite Z.add_0_r. repeat (split; [done || by left|]). done. }
  destruct (GetPacket s (c + 1)) as [b|] eqn:Eb.
  2: { exists s, []. simpl. rewrite !Z.add_0_r. split; [done|]. split; [lia|].
       repeat (split; [done || by right|]). done. }
  destruct (advance_spec s c a b Hsim Eb) as (s1 & -> & Hsim1 & K1 & Hlt & G1).
  pose proof K1 as (Kc & _).
  cbn [mbnd]. destruct (asm_step (config_ s) a (c + 1) (packet b)) as [a1 fs1] eqn:Ea.
  cbn [fst snd] in *.
  destruct (IH s1 (c + 1) a1 Hsim1)
    as (s2 & ps & -> & Hlen & Hat & Hsim2 & L2 & Hend & Hlt2 & G2).
  cbn [mbnd]. rewrite Kc in *. exists s2, (packet b :: ps). simpl. rewrite Ea.
  destruct (asm_run (config_ s) a1 (c + 1 + 1) ps) as [a2 fs2]. cbn [fst snd] in *.
  split; [done|]. split; [lia|]. split.
  { intros [|i] p Hi; simpl in Hi.
    - injection Hi as <-. rewrite Z.add_0_r. unfold pkt. by rewrite Eb.
    - rewrite <- (Hat i p Hi). unfold pkt. rewrite <- G1 by lia. do 2 f_equal. lia. }
  replace (c + Z.of_nat (S (length ps))) with (c + 1 + Z.of_nat (length ps)) by lia.
  split; [done|]. split; [by apply (kept_trans _ _ _ K1)|].
  split.
  { destruct Hend as [->|E]; [by left|right]. rewrite <- E, G1 by lia. f_equal. lia. }
  split; [|intros q Hq; rewrite G2, G1 by lia; done].
  rewrite Hlt2, Hlt, last_cons. by destruct (last ps).
Qed.

(** ** Storing a packet *)

Lemma stored s q p now :
  store_ok s -> buffer_ s !! BufferIndex q = None ->
  let s' := set_store s (<[BufferIndex q := mkBuffered q p (now, q)]> (buffer_ s))
              (arrivals_emplace (now, q) (arrivals_ s)) (u64 (buffered_packet_count_ s + 1)) in
  store_ok s' /\ rest s' = rest s /\
  forall r, GetPacket s' r = if r =? q then Some (mkBuffered q p (now, q)) else GetPacket s r.
Proof.
  intros Hs E s'.
  assert (forall r, GetPacket s' r = if r =? q then Some (mkBuffered q p (now, q)) else GetPacket s r) as G.
  { intros r. unfold GetPacket. simpl. destruct (decide (BufferIndex r = BufferIndex q)) as [Ei|Hne].
    - rewrite Ei, lookup_insert_eq, E. simpl. by rewrite Z.eqb_sym.
    - rewrite lookup_insert_ne by done. destruct (Z.eqb_spec r q); [|done]. by subst. }
  split; [|by split]. constructor; simpl.
  - intros i c [[<- <-]|[Hne Ec]]%lookup_insert_Some.
    + simpl. repeat split. rewrite arrivals_emplace_perm. set_solver.
    + destruct (so_slot s Hs i c Ec) as (-> & Hc & Hin). repeat split; auto.
      rewrite arrivals_emplace_perm. set_solver.
  - intros e. rewrite arrivals_emplace_perm, elem_of_cons. intros [->|He]; rewrite G.
    + exists (mkBuffered q p (now, q)). simpl. by rewrite Z.eqb_refl.
    + destruct (so_arrival s Hs e He) as (c & Ec & Hc). exists c.
      destruct (Z.eqb_spec (snd e) q) as [Ee|]; [|done]. exfalso. rewrite Ee in Ec.
      apply GetPacket_slot in Ec. congruence.
  - rewrite arrivals_emplace_perm. simpl. apply NoDup_cons. split; [|apply Hs].
    intros (e & Ee & He)%list_elem_of_fmap. destruct (so_arrival s Hs e He) as (c & Ec & _).
    apply GetPacket_slot in Ec. congruence.
  - apply arrivals_emplace_sorted, Hs.
  - rewrite map_size_insert_None by done. pose proof (count_bound s Hs).
    rewrite (so_count s Hs) in *. words.
Qed.
