(* ===== verification/H264Frames.v ===== *)
(** * What the H.264 packet buffer emits

    Every run of the buffer returns, keeps its invariant, and emits only frames that
    were assembled from consecutive packets it was given: complete, of one stream and
    one timestamp, closed by a marker, and never overlapping. *)
From S2P Require Import Prelude Bytes H264 H264Buffer H264BufferInv.

(** ** Frames of the reference assembler *)

(** Packets accepted so far, with their unwrapped numbers. *)
Abbreviation history := (list (Z * H264ParsedPacket)).

(** The payload units of a frame and its NAL units: each is whole in a unit of its own, or in
    fragments, from one with the start bit to one with the end bit, all under one header. *)
Inductive joined : list H264PayloadUnit -> list (list Z) -> Prop :=
| joined_nil : joined [] []
| joined_whole u us ns : unit_type u = SingleNalu \/ unit_type u = StapANalu -> udata u <> [] ->
    joined us ns -> joined (u :: us) (udata u :: ns)
| joined_fragments h fr us ns : fr <> [] ->
    Forall (fun u => unit_type u = FuAFragment /\ reconstructed_nal_header u = h /\ udata u <> []) fr ->
    (forall i u, fr !! i = Some u -> fu_start u = bool_decide (i = 0%nat) /\ fu_end u = bool_decide (S i = length fr)) ->
    joined us ns -> joined (fr ++ us) ((h :: concat (map udata fr)) :: ns).

(** [f] was assembled from the packets [st .. en] of the history. *)
Definition frame_sound (c : Config) (h : history) (f : H264AccessUnit) (r : Z * Z) : Prop :=
  let '(st, en) := r in
  exists ps, ps <> [] /\ en = st + Z.of_nat (length ps) - 1 /\
    Z.of_nat (length ps) <= max_frame_packets c /\
    (forall i p, ps !! i = Some p -> (st + Z.of_nat i, p) ∈ h) /\
    Forall (fun p => pssrc p = fssrc f /\ ptimestamp p = ftimestamp f) ps /\
    (exists p, last ps = Some p /\ pmarker p = true) /\
    joined (concat (map punits ps)) (fnalus f) /\ fnalus f <> [] /\
    fcomplete f = true /\ fbroken f = false /\ first_seq f = u16 st /\ last_seq f = u16 en.

Definition after (e : option Z) (x : Z) : Prop := match e with None => True | Some v => v < x end.

(** The ranges follow each other from [e] on and leave the frontier at [e']. *)
Fixpoint chain (e : option Z) (rs : list (Z * Z)) (e' : option Z) : Prop :=
  match rs with
  | [] => e' = e
  | (st, en) :: rs => after e st /\ st <= en /\ chain (Some en) rs e'
  end.

Lemma chain_app e rs e1 rs' e' : chain e rs e1 -> chain e1 rs' e' -> chain e (rs ++ rs') e'.
Proof.
  revert e. induction rs as [|[st en] rs IH]; intros e; simpl; [by intros ->|].
  intros (? & ? & ?) ?. auto.
Qed.

Lemma frame_sound_mono c h h' f r : (forall x, x ∈ h -> x ∈ h') -> frame_sound c h f r -> frame_sound c h' f r.
Proof. intros Hh. destruct r. intros (ps & H). exists ps. naive_solver. Qed.

Lemma validate_app us us' fu fu1 : ValidatePacketUnits us fu = Some fu1 ->
  ValidatePacketUnits (us ++ us') fu = ValidatePacketUnits us' fu1.
Proof.
  revert fu. induction us as [|u us IH]; intros fu; cbn [ValidatePacketUnits app]; [by intros [= ->]|].
  repeat case_match; try done; apply IH.
Qed.

(** Fragments of one NAL unit so far: the start, and no end yet. *)
Definition fragments_of (h : Z) (fr : list H264PayloadUnit) : Prop :=
  fr <> [] /\ Forall (fun u => unit_type u = FuAFragment /\ reconstructed_nal_header u = h /\ udata u <> []) fr /\
  forall i u, fr !! i = Some u -> fu_start u = bool_decide (i = 0%nat) /\ fu_end u = false.

Lemma fragments_start u : unit_type u = FuAFragment -> udata u <> [] -> fu_start u = true -> fu_end u = false ->
  fragments_of (reconstructed_nal_header u) [u].
Proof. intros. split; [done|]. split; [by apply Forall_singleton|]. intros i v [-> ->]%list_lookup_singleton_Some. done. Qed.

Lemma fragments_more h fr u : fragments_of h fr -> unit_type u = FuAFragment -> reconstructed_nal_header u = h -> udata u <> [] ->
  fu_start u = false -> fu_end u = false -> fragments_of h (fr ++ [u]).
Proof.
  intros (H1 & H2 & H3) ? ? ? ? ?. split; [by destruct fr|]. split; [apply Forall_app; split; [done|by apply Forall_singleton]|].
  intros i v [Hv|[Hi Hv]]%lookup_app_Some; [by apply H3|]. apply list_lookup_singleton_Some in Hv as [Hv ->].
  rewrite bool_decide_eq_false_2; [done|]. destruct fr; [done|]. simpl in Hi. lia.
Qed.

Lemma fragments_end h fr u us ns : fragments_of h fr \/ fr = [] -> unit_type u = FuAFragment -> reconstructed_nal_header u = h -> udata u <> [] ->
  fu_start u = bool_decide (fr = []) -> fu_end u = true -> joined us ns ->
  joined ((fr ++ [u]) ++ us) ((h :: concat (map udata fr) ++ udata u) :: ns).
Proof.
  intros Hfr ? ? ? Hs He Hj.
  replace (concat (map udata fr) ++ udata u) with (concat (map udata (fr ++ [u]))) by (rewrite map_app, concat_app; simpl; by rewrite app_nil_r).
  assert (Forall (fun u => unit_type u = FuAFragment /\ reconstructed_nal_header u = h /\ udata u <> []) fr /\
    forall i v, fr !! i = Some v -> fu_start v = bool_decide (i = 0%nat) /\ fu_end v = false) as [H2 H3]
    by (destruct Hfr as [(_ & ?)| ->]; [done|]; split; [apply Forall_nil_2|done]).
  apply joined_fragments; [by destruct fr|apply Forall_app; split; [done|by apply Forall_singleton]| |done].
  intros i v [Hv|[Hi Hv]]%lookup_app_Some; rewrite length_app; simpl length.
  - destruct (H3 i v Hv) as [-> ->]. apply lookup_lt_Some in Hv. split; [done|]. rewrite bool_decide_eq_false_2; [done|lia].
  - apply list_lookup_singleton_Some in Hv as [Hv ->]. rewrite Hs, He, (bool_decide_eq_true_2 (S i = _)) by lia. split; [|done].
    destruct fr; simpl in *; [by rewrite !bool_decide_eq_true_2 by (done || lia)|by rewrite !bool_decide_eq_false_2 by (done || lia)].
Qed.

(** What the validation accepts is joined without a fragment missing. *)
Lemma validate_joined us :
  (ValidatePacketUnits us None = Some None -> joined us (reassemble us [])) /\
  forall h fr, fragments_of h fr -> ValidatePacketUnits us (Some h) = Some None ->
    joined (fr ++ us) (reassemble us (h :: concat (map udata fr))).
Proof.
  induction us as [|u us [IH1 IH2]]; [split; [constructor|done]|]. split.
  - cbn [ValidatePacketUnits reassemble]. destruct (unit_type u) eqn:Eu; [done|..|destruct (udata u) eqn:Ed; [done|]].
    + destruct (udata u) eqn:Ed; [done|]. intros E. rewrite <- Ed. constructor; [by left|by rewrite Ed|auto].
    + destruct (udata u) eqn:Ed; [done|]. intros E. rewrite <- Ed. constructor; [by right|by rewrite Ed|auto].
    + rewrite <- Ed. assert (udata u <> []) as Hd by (by rewrite Ed). destruct (fu_start u) eqn:Es; [|done].
      rewrite Z.eqb_refl. cbn [negb]. destruct (fu_end u) eqn:Ee; intros E.
      * apply (fragments_end _ []); auto.
      * pose proof (IH2 _ [u] (fragments_start u Eu Hd Es Ee) E) as H.
        simpl in H. by rewrite app_nil_r in H.
  - intros h fr Hfr. cbn [ValidatePacketUnits reassemble]. destruct (unit_type u) eqn:Eu; [done|..|destruct (udata u) eqn:Ed; [done|]]; [done|done|].
    rewrite <- Ed. assert (udata u <> []) as Hd by (by rewrite Ed). destruct (fu_start u) eqn:Es; [done|].
    destruct (Z.eqb_spec h (reconstructed_nal_header u)) as [Eh|]; [|done]. cbn [negb].
    replace (fr ++ u :: us) with ((fr ++ [u]) ++ us) by (by rewrite <- app_assoc).
    replace ((h :: concat (map udata fr)) ++ udata u) with (h :: concat (map udata (fr ++ [u])))
      by (rewrite map_app, concat_app; simpl; by rewrite app_nil_r).
    destruct (fu_end u) eqn:Ee; intros E.
    + replace (concat (map udata (fr ++ [u]))) with (concat (map udata fr) ++ udata u) by (rewrite map_app, concat_app; simpl; by rewrite app_nil_r).
      apply fragments_end; auto. rewrite Es. symmetry. apply bool_decide_eq_false_2. apply Hfr.
    + apply IH2; [|done]. by apply fragments_more.
Qed.

(** The first loop only looks at packets of the frame's stream and timestamp, and
    needs all of them. *)
Lemma scan_packets_all items : forall f fu saw f' fu',
  scan_packets items f fu saw = Some (f', fu') ->
  exists ps, items = map Some ps /\ ValidatePacketUnits (concat (map punits ps)) fu = Some fu' /\
    Forall (fun p => pssrc p = fssrc f /\ ptimestamp p = ftimestamp f) ps /\
    fssrc f' = fssrc f /\ ftimestamp f' = ftimestamp f /\ first_seq f' = first_seq f /\
    last_seq f' = last_seq f /\ fbroken f' = fbroken f.
Proof.
  induction items as [|[p|] items IH]; intros f fu saw f' fu'; simpl; [|..|done].
  - intros [= <- <-]. by exists [].
  - destruct (_ || _) eqn:E; [done|]. bool_hyps.
    destruct (scan_units _ _); [|done]. destruct (ValidatePacketUnits (punits p) fu) as [fu1|] eqn:Ev; [|done].
    intros (ps & -> & Hv & Hps & Hr)%IH. exists (p :: ps). split; [done|]. split; [simpl; by rewrite (validate_app _ _ _ _ Ev)|].
    by split; [constructor|].
Qed.

Lemma units_in_some ps : units_in (map Some ps) = concat (map punits ps).
Proof. unfold units_in. by rewrite map_map. Qed.

Lemma assemble_sound c h st en items f p0 :
  assemble c st en items = Some f -> last items = Some (Some p0) -> pmarker p0 = true ->
  en = st + Z.of_nat (length items) - 1 -> Z.of_nat (length items) <= max_frame_packets c ->
  (forall i p, items !! i = Some (Some p) -> (st + Z.of_nat i, p) ∈ h) ->
  frame_sound c h f (st, en).
Proof.
  intros Ha Hlast Hmk Hen Hmax Hin. unfold assemble in Ha.
  destruct items as [|[q0|] items']; try done. unfold assemble_from in Ha.
  destruct (scan_packets _ _ _ _) as [[f1 [x|]]|] eqn:Es; try done.
  destruct (_ && _); [done|].
  destruct (scan_packets_all _ _ _ _ _ _ Es) as (ps & Eps & Hval & Hps & H1 & H2 & H3 & H4 & H5).
  rewrite Eps, units_in_some in Ha. rewrite Eps in Hlast, Hen, Hmax, Hin.
  rewrite length_map in Hen, Hmax.
  destruct (reassemble _ _) as [|n ns] eqn:Er; [done|]. injection Ha as <-.
  exists ps. simpl in *. rewrite H1, H2, H3, H4, H5. simpl.
  split; [by destruct ps|]. repeat (split; [done|]).
  split; [intros i p Hi; apply Hin; rewrite list_lookup_fmap, Hi; done|].
  split; [done|]. split; [|rewrite <- Er; split; [by apply validate_joined|]; by rewrite Er].
  exists p0. split; [|done]. change (map Some ps) with (Some <$> ps) in Hlast.
  rewrite fmap_last in Hlast. destruct (last ps); naive_solver.
Qed.

(** ** The reference run is sound *)

(** The frame under construction lies after the frontier, and its packets are in the
    history. *)
Definition asm_wf (h : history) (c : Z) (e : option Z) (a : option Asm) : Prop :=
  after e (c + 1) /\
  match a with
  | None => True
  | Some x =>
    after e (c - Z.of_nat (length (a_items x)) + 1) /\
    (a_disc x = false -> forall i p, a_items x !! i = Some (Some p) ->
       (c - Z.of_nat (length (a_items x)) + 1 + Z.of_nat i, p) ∈ h)
  end.

Lemma asm_enter_wf h c e a ts : asm_wf h c e a -> asm_wf h c e (Some (asm_enter a ts)).
Proof.
  intros [He Ha]. split; [done|].
  assert (after e (c - Z.of_nat (length (@nil (option H264ParsedPacket))) + 1)) as Hn
    by (simpl; by rewrite Z.sub_0_r).
  destruct a as [x|]; simpl; [destruct (_ =? _); [done|]|]; by split.
Qed.

Lemma asm_step_sound cf h c e a p :
  asm_wf h c e a -> (c + 1, p) ∈ h ->
  exists e' rs, asm_wf h (c + 1) e' (fst (asm_step cf a (c + 1) p)) /\
    chain e rs e' /\ Forall2 (frame_sound cf h) (snd (asm_step cf a (c + 1) p)) rs.
Proof.
  intros Hwf Hp. rewrite asm_step_push. cbn zeta.
  apply (asm_enter_wf _ _ _ _ (ptimestamp p)) in Hwf as [He [Hst Hin]].
  set (y := asm_enter _ _) in *. set (x := asm_push cf y p).
  assert (a_items x = a_items y ++ [Some p]) as Ei by done.
  assert (Z.of_nat (length (a_items x)) = Z.of_nat (length (a_items y)) + 1) as El
    by (rewrite Ei, length_app; simpl; lia).
  assert (a_disc x = false -> forall i p', a_items x !! i = Some (Some p') ->
    (c + 1 - Z.of_nat (length (a_items x)) + 1 + Z.of_nat i, p') ∈ h) as Hx.
  { intros Hd i p' Hi. rewrite Ei, lookup_app in Hi. rewrite El.
    replace (c + 1 - (Z.of_nat (length (a_items y)) + 1) + 1) with
      (c - Z.of_nat (length (a_items y)) + 1) by lia.
    apply orb_false_elim in Hd as [Hd _].
    destruct (a_items y !! i) eqn:E; [apply Hin; [done|congruence]|].
    apply lookup_ge_None_1 in E. apply list_lookup_singleton_Some in Hi as [Hi [= ->]].
    replace (_ + Z.of_nat i) with (c + 1) by lia. done. }
  assert (after e (c + 1 - Z.of_nat (length (a_items x)) + 1)) as Hst'
    by (rewrite El; by replace (c + 1 - (_ + 1) + 1) with
          (c - Z.of_nat (length (a_items y)) + 1) by lia).
  assert (after e (c + 1 + 1)) as He' by (destruct e; simpl in *; lia).
  destruct (pmarker p) eqn:Em; cbn [fst snd].
  - destruct (a_disc x) eqn:Ed.
    { exists e, []. split; [by split|]. by split. }
    destruct (assemble _ _ _ _) as [f|] eqn:Ea; simpl.
    2: { exists e, []. split; [by split|]. by split. }
    set (st := c + 1 - Z.of_nat (length (a_items x)) + 1) in *.
    exists (Some (c + 1)), [(st, c + 1)].
    split; [split; [simpl; lia|done]|]. split; [simpl; split; [done|]; split; [lia|done]|].
    apply Forall2_cons. split; [|done]. eapply assemble_sound; eauto.
    + rewrite Ei. apply last_snoc.
    + lia.
    + apply orb_false_elim in Ed as [_ Ed]. bool_hyps. exact Ed.
  - exists e, []. split; [|by split]. split; [done|]. simpl. split; [done|]. exact Hx.
Qed.

Lemma asm_run_sound cf h ps : forall c e a,
  asm_wf h c e a -> (forall i p, ps !! i = Some p -> (c + 1 + Z.of_nat i, p) ∈ h) ->
  exists e' rs, asm_wf h (c + Z.of_nat (length ps)) e' (fst (asm_run cf a (c + 1) ps)) /\
    chain e rs e' /\ Forall2 (frame_sound cf h) (snd (asm_run cf a (c + 1) ps)) rs.
Proof.
  induction ps as [|p ps IH]; intros c e a Hwf Hin; simpl.
  { exists e, []. rewrite Z.add_0_r. by repeat split; try apply Hwf. }
  destruct (asm_step_sound cf h c e a p Hwf) as (e1 & rs1 & Hwf1 & Hc1 & Hf1).
  { specialize (Hin 0%nat p eq_refl). by rewrite Z.add_0_r in Hin. }
  destruct (asm_step _ _ _ _) as [a1 fs1]. cbn [fst snd] in *.
  destruct (IH (c + 1) e1 a1 Hwf1) as (e2 & rs2 & Hwf2 & Hc2 & Hf2).
  { intros i q Hi. specialize (Hin (S i) q Hi). by replace (c + 1 + 1 + Z.of_nat i)
      with (c + 1 + Z.of_nat (S i)) by lia. }
  destruct (asm_run _ _ _ ps) as [a2 fs2]. cbn [fst snd] in *.
  exists e2, (rs1 ++ rs2). split; [by replace (c + Z.of_nat (S (length ps)))
    with (c + 1 + Z.of_nat (length ps)) by lia|].
  split; [by eapply chain_app|]. by apply Forall2_app.
Qed.

(** ** The invariant *)

Definition base_ok (s : PacketBuffer) : Prop :=
  store_ok s /\ 1 <= max_frame_packets (config_ s) <= 2048 /\
  match last_continuous_unwrapped_seq_ s with
  | None => current_frame_start_ s = None /\ waiting_for_recovery_ s = false /\
            discarding_frame_ s = false
  | Some c =>
    if waiting_for_recovery_ s
    then current_frame_start_ s = None /\ discarding_frame_ s = false /\
         forall q, is_Some (GetPacket s q) -> c < q
    else exists a, sim s c a
  end.

(** The packet after the last continuous one is missing: nothing was left behind. *)
Definition buffer_ok (s : PacketBuffer) : Prop :=
  base_ok s /\
  forall c, last_continuous_unwrapped_seq_ s = Some c -> waiting_for_recovery_ s = false ->
    GetPacket s (c + 1) = None.

(** The history and the frontier of what was emitted. *)
Definition traced (h : history) (e : option Z) (s : PacketBuffer) : Prop :=
  (forall q b, GetPacket s q = Some b -> (q, packet b) ∈ h) /\
  match last_continuous_unwrapped_seq_ s with
  | None => e = None
  | Some c => after e (c + 1)
  end /\
  forall st, current_frame_start_ s = Some st -> after e st.

Lemma traced_mono h h' e s : (forall x, x ∈ h -> x ∈ h') -> traced h e s -> traced h' e s.
Proof. intros Hh (H1 & H2). split; [eauto|done]. Qed.

(** A frame under construction, seen through the history. *)
Lemma sim_wf h e s c a : sim s c a -> traced h e s -> asm_wf h c e a.
Proof.
  intros (_ & _ & El & _ & Hf) (Hh & He & Hst). rewrite El in He. split; [done|].
  destruct a as [x|]; [|done].
  destruct (current_frame_start_ s) as [st|] eqn:Est; [|done].
  destruct Hf as (_ & _ & _ & _ & Hlen & Hi & _). rewrite Hlen.
  replace (c - (c - st + 1) + 1) with st by lia. split; [by apply Hst|].
  intros Hd i p Hip. rewrite Hd in Hi. destruct Hi as [_ Hi]. rewrite Hi in Hip.
  change (map (pkt s) ?l) with (pkt s <$> l) in Hip.
  apply list_lookup_fmap_Some in Hip as (q & Hp & Hq). apply lookup_seqZ in Hq as [-> _].
  symmetry in Hp. apply fmap_Some in Hp as (b & Hb & ->). by apply Hh.
Qed.

(** Conversely, a simulated state whose frame is in the history is traced. *)
Lemma sim_traced h e s c a :
  sim s c a -> asm_wf h c e a ->
  (forall q b, c < q -> GetPacket s q = Some b -> (q, packet b) ∈ h) -> traced h e s.
Proof.
  intros (_ & _ & El & _ & Hf) (He & Hwf) Hh. split; [|rewrite El; split; [done|]].
  - intros q b Hb. destruct (current_frame_start_ s) as [st|] eqn:Est; destruct a as [x|]; try done.
    + destruct Hf as (_ & _ & _ & _ & Hlen & Hi & Hq).
      destruct (Hq q ltac:(by eexists)) as [|[Hd Hge]]; [by apply Hh|].
      destruct (Z.le_gt_cases q c); [|by apply Hh].
      destruct Hwf as [_ Hwf]. specialize (Hwf Hd (Z.to_nat (q - st)) (packet b)).
      rewrite Hlen in Hwf. replace (c - (c - st + 1) + 1 + Z.of_nat (Z.to_nat (q - st)))
        with q in Hwf by lia.
      apply Hwf. rewrite Hd in Hi. destruct Hi as [_ ->].
      change (map (pkt s) ?l) with (pkt s <$> l). rewrite list_lookup_fmap.
      rewrite (proj2 (lookup_seqZ st (c - st + 1) (Z.to_nat (q - st)) q)) by lia.
      simpl. unfold pkt. by rewrite Hb.
    + apply Hh; [|done]. apply Hf. by eexists.
  - intros st Est. rewrite Est in Hf. destruct a as [x|]; [|done].
    destruct Hf as (_ & _ & _ & _ & Hlen & _). destruct Hwf as [Hwf _].
    rewrite Hlen in Hwf. by replace (c - (c - st + 1) + 1) with st in Hwf by lia.
Qed.

(** ** Finding frames *)

(** What an operation promises: it returns, keeps the invariant, and what it emits is
    sound and follows what was emitted before. *)
Definition emits (s : PacketBuffer) (h : history) (e : option Z)
    (m : mres (PacketBuffer * list H264AccessUnit)) : Prop :=
  exists s' fs e' rs, m = Ret (s', fs) /\ buffer_ok s' /\ traced h e' s' /\
    config_ s' = config_ s /\ arrivals_ s' ⊆ arrivals_ s /\
    chain e rs e' /\ Forall2 (frame_sound (config_ s) h) fs rs.

Lemma find_loop_emits s c a h e q b :
  sim s c a -> traced h e s -> q = c + 1 -> GetPacket s q = Some b ->
  emits s h e (find_loop (Z.to_nat kBufferSize) s q).
Proof.
  intros Hsim Ht -> Hb.
  destruct (find_loop_spec (Z.to_nat kBufferSize) s c a Hsim)
    as (s' & ps & -> & Hlen & Hat & Hsim' & (Kc & _ & _ & Ka) & Hend & _ & G).
  destruct (asm_run_sound (config_ s) h ps c e a) as (e' & rs & Hwf & Hch & Hfs).
  { by apply (sim_wf h e s). }
  { intros i p Hi. specialize (Hat i p Hi). unfold pkt in Hat.
    apply fmap_Some in Hat as (d & Hd & ->). by apply Ht. }
  do 4 eexists. split; [reflexivity|]. split; [|split; [|done]].
  - pose proof Hsim' as (Hs' & Hm' & El' & Hw' & _). split.
    + split; [done|]. split; [done|]. rewrite El', Hw'. eauto.
    + intros c' Ec _. rewrite El' in Ec. injection Ec as <-. rewrite G by lia.
      destruct Hend as [E|E]; [|by rewrite <- E; f_equal; lia].
      destruct (GetPacket s (c + Z.of_nat (length ps) + 1)) as [d|] eqn:Ed; [|done]. exfalso.
      assert (c + Z.of_nat (length ps) + 1 = c + 1); [|change (Z.to_nat kBufferSize) with 2048%nat in *; lia].
      eapply GetPacket_same_slot; [exact Ed|exact Hb|].
      rewrite E. change (Z.of_nat (Z.to_nat kBufferSize)) with 2048.
      rewrite <- (BufferIndex_next (c + 1)). f_equal. lia.
  - eapply sim_traced; [exact Hsim'|exact Hwf|]. intros q d Hq Hd. rewrite G in Hd by done.
    by apply Ht.
Qed.

(** A recovery point: everything before it is given up. *)
Lemma begin_sim s q b :
  store_ok s -> 1 <= max_frame_packets (config_ s) <= 2048 -> GetPacket s q = Some b ->
  exists t, RemovePacketsBefore s q = Ret t /\
    let s' := set_waiting (set_last (set_frame t None (current_frame_timestamp_ t) false)
                (Some (q - 1)) (last_continuous_timestamp_ t)) false in
    sim s' (q - 1) None /\ config_ s' = config_ s /\ seq_unwrapper_ s' = seq_unwrapper_ s /\
    arrivals_ s' ⊆ arrivals_ s /\
    forall r, GetPacket s' r = if r <? q then None else GetPacket s r.
Proof.
  intros Hs Hm Hb. destruct (RemovePacketsBefore_removed s q Hs) as (t & -> & Ht & [Rt At] & Gt).
  exists t. split; [done|]. apply rest_fields in Rt as (Rc & Ru & _). cbn zeta.
  split; [|by repeat (split; [done|])]. split; [by eapply store_ok_ext; [..|exact Ht]|].
  simpl. rewrite Rc. repeat (split; [done|]). intros r [d E].
  change (GetPacket t r = Some d) in E. rewrite Gt in E.
  destruct (Z.ltb_spec r q); [done|lia].
Qed.

Lemma FindFrames_emits s h e q b :
  base_ok s -> traced h e s -> GetPacket s q = Some b ->
  (forall c, last_continuous_unwrapped_seq_ s = Some c ->
     c < q /\ (waiting_for_recovery_ s = false -> q = c + 1 \/ GetPacket s (c + 1) = None)) ->
  emits s h e (FindFrames s q).
Proof.
  intros Hok Ht Hb Hq. unfold FindFrames. rewrite Hb.
  pose proof Hok as (Hs & Hm & Hpos). pose proof Ht as (Hh & He & _).
  assert ((forall c, last_continuous_unwrapped_seq_ s = Some c ->
             waiting_for_recovery_ s = false -> q <> c + 1) -> emits s h e (Ret (s, []))) as Hstay.
  { intros Hne. exists s, [], e, []. split; [done|]. split; [|by repeat (split; [done|])].
    split; [done|]. intros c Ec Hw. destruct (Hq c Ec) as [_ [->|]]; auto. by specialize (Hne c Ec Hw). }
  assert (emits s h e (let! '(s, ok) :=
     (let! s := RemovePacketsBefore s q in
      let s := set_frame s None (current_frame_timestamp_ s) false in
      let s := set_last s (Some (q - 1)) (last_continuous_timestamp_ s) in
      Ret (set_waiting s false, true)) in
     if negb ok then Ret (s, []) else find_loop (Z.to_nat kBufferSize) s q)) as Hbegin.
  { destruct (begin_sim s q b Hs Hm Hb) as (t & -> & Hsim & Kc & _ & Ka & G). cbn [mbnd negb].
    cbn zeta in *. set (s' := set_waiting _ _) in *.
    destruct (find_loop_emits s' (q - 1) None h e q b) as (s2 & fs & e' & rs & H1 & H2 & H3 & H4 & H5 & H6);
      [done| |lia|rewrite G; by rewrite (proj2 (Z.ltb_ge _ _)) by lia|].
    - split; [|split; [|done]].
      + intros r d Hd. rewrite G in Hd. destruct (_ <? _); [done|]. by apply Hh.
      + simpl. destruct (last_continuous_unwrapped_seq_ s) as [c|] eqn:El; [|by subst].
        destruct (Hq c eq_refl) as [Hc _]. destruct e; simpl in *; lia.
    - exists s2, fs, e', rs. rewrite H4, Kc in *. repeat (split; [done|]).
      split; [by transitivity (arrivals_ s')|done]. }
  unfold CanAdvanceFrom. destruct (last_continuous_unwrapped_seq_ s) as [c|] eqn:El.
  - destruct (Hq c eq_refl) as [Hc Hd]. rewrite (proj2 (Z.leb_gt q c)) by lia.
    destruct (negb _ && _) eqn:Ew; cbn [mbnd negb].
    { bool_hyps. subst q. rewrite H in Hpos. destruct Hpos as [a Hsim].
      by eapply find_loop_emits. }
    assert (forall c', Some c = Some c' -> waiting_for_recovery_ s = false -> q <> c' + 1) as Hne.
    { intros c' [= <-] Hw E. rewrite Hw in Ew. simpl in Ew. bool_hyps. lia. }
    destruct (bool_decide _); [by apply Hstay|].
    destruct (BeginningOfStream _ _); [exact Hbegin|by apply Hstay].
  - destruct (BeginningOfStream _ _); [exact Hbegin|by apply Hstay].
Qed.

(** ** Changing the store *)

Definition same_pos (s t : PacketBuffer) : Prop :=
  config_ t = config_ s /\
  last_continuous_unwrapped_seq_ t = last_continuous_unwrapped_seq_ s /\
  last_continuous_timestamp_ t = last_continuous_timestamp_ s /\
  current_frame_start_ t = current_frame_start_ s /\
  current_frame_timestamp_ t = current_frame_timestamp_ s /\
  discarding_frame_ t = discarding_frame_ s /\
  waiting_for_recovery_ t = waiting_for_recovery_ s.

Lemma rest_same_pos s t : rest t = rest s -> same_pos s t.
Proof. intros (? & ? & ? & ? & ? & ? & ? & ?)%rest_fields. by repeat split. Qed.

Lemma same_pos_trans s t u : same_pos s t -> same_pos t u -> same_pos s u.
Proof. unfold same_pos. intuition congruence. Qed.

(** A frame survives any change of the store, possibly with holes; it is untouched
    when the change lies after [c]. *)
Lemma sim_change s t c a :
  sim s c a -> store_ok t -> same_pos s t ->
  (forall r b, r <= c -> GetPacket t r = Some b -> GetPacket s r = Some b) ->
  exists a', sim t c a' /\ ((forall r, r <= c -> GetPacket t r = GetPacket s r) -> a' = a).
Proof.
  intros (_ & Hm & El & Hw & Hf) Ht (Pc & Pl & _ & Pst & Pts & Pd & Pw) Hsub.
  destruct (current_frame_start_ s) as [st|] eqn:Est; destruct a as [x|]; try done.
  - destruct Hf as (Hle & H1 & H2 & H3 & H4 & H5 & H6).
    set (items := if a_disc x then a_items x else map (pkt t) (seqZ st (c - st + 1))).
    exists (Some (mkAsm (a_ts x) (a_disc x) items)). split.
    + split; [done|]. rewrite Pc, Pl, Pst, Pw. repeat (split; [done|]).
      unfold frame_rel. simpl. rewrite Pts, Pd, Pc. repeat (split; [done|]).
      split; [|split].
      * unfold items. destruct (a_disc x); [done|]. rewrite length_map, length_seqZ. lia.
      * unfold items. destruct (a_disc x); [done|]. by split; [apply H5|].
      * intros q [d E]. destruct (Z.le_gt_cases q c); [|by left].
        apply H6. exists d. by apply Hsub.
    + intros Heq. unfold items. destruct x as [ts d its]. simpl in *. destruct d; [done|].
      destruct H5 as [_ ->]. do 2 f_equal. apply map_pkt_ext. intros q Hq%elem_of_seqZ.
      apply Heq. lia.
  - exists None. split; [|done]. split; [done|]. rewrite Pc, Pl, Pst, Pw, Pd.
    repeat (split; [done|]). split; [apply Hf|]. intros q [d E].
    destruct (Z.le_gt_cases q c); [|done]. apply Hf. exists d. by apply Hsub.
Qed.

Lemma base_change s t :
  base_ok s -> store_ok t -> same_pos s t ->
  (forall r b, GetPacket t r = Some b ->
     GetPacket s r = Some b \/ forall c, last_continuous_unwrapped_seq_ s = Some c -> c < r) ->
  base_ok t.
Proof.
  intros (_ & Hm & Hp) Ht Hpos Hsub. pose proof Hpos as (Pc & Pl & _ & Pst & _ & Pd & Pw).
  split; [done|]. rewrite Pc, Pl, Pst, Pd, Pw. split; [done|].
  destruct (last_continuous_unwrapped_seq_ s) as [c|]; [|done].
  destruct (waiting_for_recovery_ s).
  - destruct Hp as (H1 & H2 & H3). repeat (split; [done|]). intros q [d E].
    destruct (Hsub q d E) as [|Hc]; [apply H3; by eexists|by apply Hc].
  - destruct Hp as [a Hsim]. destruct (sim_change s t c a Hsim Ht Hpos) as (a' & Ha' & _); [|by eauto].
    intros r b Hr E. destruct (Hsub r b E) as [|Hc]; [done|]. specialize (Hc c eq_refl). lia.
Qed.

(** ** FlushExpired *)

Lemma flush_floor_loop s l : forall f t,
  (forall x, x ∈ l -> is_Some (GetPacket s (snd x))) ->
  exists f' t', for_each (flush_floor s) l (f, t) = Ret (f', t') /\
    (forall v, f = Some v -> exists w, f' = Some w /\ v <= w) /\
    forall x, x ∈ l -> exists w, f' = Some w /\ snd x <= w.
Proof.
  induction l as [|x l IH]; intros f t Hl; simpl.
  { exists f, t. split; [done|]. split; [intros v ->; exists v; split; [done|lia]|set_solver]. }
  destruct (Hl x ltac:(set_solver)) as [b Hb].
  assert (exists f1 t1, flush_floor s (f, t) x = Ret (f1, t1) /\
    (forall v, f = Some v -> exists w, f1 = Some w /\ v <= w) /\
    exists w, f1 = Some w /\ snd x <= w) as (f1 & t1 & -> & H1 & H2).
  { unfold flush_floor. rewrite Hb. simpl. destruct f as [v|].
    - destruct (Z.leb_spec v (snd x)).
      + do 2 eexists. split; [done|]. split; [|by eexists].
        intros ? [= <-]. by eexists.
      + exists (Some v), t. split; [done|]. split; [|exists v; split; [done|lia]].
        intros ? [= <-]. exists v. split; [done|lia].
    - do 2 eexists. split; [done|]. split; [done|]. by eexists. }
  simpl. destruct (IH f1 t1) as (f2 & t2 & -> & H3 & H4); [set_solver|].
  exists f2, t2. split; [done|]. split.
  - intros v Hv. destruct (H1 v Hv) as (w & Hw & ?). destruct (H3 w Hw) as (w' & -> & ?).
    exists w'. split; [done|lia].
  - intros y [->|Hy]%elem_of_cons; [|by apply H4]. destruct H2 as (w & Hw & ?).
    destruct (H3 w Hw) as (w' & -> & ?). exists w'. split; [done|lia].
Qed.

(** The waiting time in nanoseconds. *)
Definition wait_ns (s : PacketBuffer) : Z := max_wait_ms (config_ s) * 1000000.

(** Either nothing has waited too long, and nothing happens, or everything is dropped
    and the floor is raised to the newest number that was buffered. *)
Lemma FlushExpired_spec s now :
  store_ok s ->
  (FlushExpired s now = Ret (s, 0) /\
   forall e, e ∈ arrivals_ s -> now - fst e < Z.max 1 (wait_ns s)) \/
  (exists w ts, FlushExpired s now =
     Ret (set_waiting (set_last (ClearInternal s) (Some w) ts) true, buffered_packet_count_ s) /\
   (exists e, e ∈ arrivals_ s /\ wait_ns s <= now - fst e) /\
   (forall c, last_continuous_unwrapped_seq_ s = Some c -> c <= w) /\
   forall q, is_Some (GetPacket s q) -> q <= w).
Proof.
  intros Hs. unfold FlushExpired. destruct (arrivals_ s) as [|x l] eqn:Ea.
  { left. split; [done|]. by intros e ?%elem_of_nil. }
  destruct (_ || _) eqn:E.
  - left. split; [done|]. intros e He. pose proof (so_sorted s Hs) as Hsort. rewrite Ea in Hsort.
    assert (fst x <= fst e) as Hle.
    { apply elem_of_cons in He as [->|He]; [lia|]. apply Sorted.StronglySorted_inv in Hsort as [_ Hf].
      rewrite Forall_forall in Hf. by apply Hf. }
    unfold wait_ns. apply orb_true_iff in E as [E|E]; bool_hyps; lia.
  - right. destruct (flush_floor_loop s (x :: l) (last_continuous_unwrapped_seq_ s)
      (last_continuous_timestamp_ s)) as (f & t & -> & H1 & H2).
    { intros e He. rewrite <- Ea in He. destruct (so_arrival s Hs e He) as (b & Hb & _). by eexists. }
    destruct (H2 x ltac:(set_solver)) as (w & -> & Hw).
    cbn [mbnd]. exists w, t. split; [done|]. bool_hyps. split.
    { exists x. split; [set_solver|]. unfold wait_ns. lia. }
    split.
    + intros c Hc. destruct (H1 c Hc) as (? & [= <-] & ?). done.
    + intros q [b Hb]. pose proof (GetPacket_slot _ _ _ Hb) as Eb.
      destruct (so_slot s Hs _ _ Eb) as (_ & Hsq & Hin). rewrite Ea in Hin.
      destruct (H2 _ Hin) as (? & [= <-] & ?). rewrite <- (GetPacket_seq _ _ _ Hb). lia.
Qed.

Lemma cleared_ok s w ts :
  1 <= max_frame_packets (config_ s) <= 2048 ->
  buffer_ok (set_waiting (set_last (ClearInternal s) (Some w) ts) true).
Proof.
  intros Hm. split; [|done]. split.
  - constructor; simpl; try done.
    + by intros e ?%elem_of_nil.
    + constructor.
    + constructor.
  - split; [done|]. simpl. repeat (split; [done|]). intros q [d E].
    unfold GetPacket in E. simpl in E. by rewrite lookup_empty in E.
Qed.

(** ** InsertPacket *)

(** What an insertion adds to the history. *)
Definition accepted (s : PacketBuffer) (p : H264ParsedPacket) (r : InsertResult) : history :=
  if inserted r then [(snd (Unwrap (seq_unwrapper_ s) (pseq p)), p)] else [].

Definition insert_emits (s : PacketBuffer) (p : H264ParsedPacket) (now : Z) (h : history)
    (e : option Z) (m : mres (PacketBuffer * InsertResult)) : Prop :=
  exists s' r e' rs, m = Ret (s', r) /\ buffer_ok s' /\ config_ s' = config_ s /\
    (forall x, x ∈ arrivals_ s' -> fst x = now \/ x ∈ arrivals_ s /\
       (pvalid p && negb (pmalformed p) = true -> now - fst x < Z.max 1 (wait_ns s))) /\
    traced (h ++ accepted s p r) e' s' /\ chain e rs e' /\
    Forall2 (frame_sound (config_ s) (h ++ accepted s p r)) (frames r) rs.

(** After the slot is free: the packet is stored and frames are looked for. *)
Lemma store_emits s0 s p now h e collision expired :
  config_ s0 = config_ s ->
  (forall x, x ∈ arrivals_ s -> x ∈ arrivals_ s0 /\ now - fst x < Z.max 1 (wait_ns s0)) ->
  base_ok s -> traced h e s ->
  let q := snd (Unwrap (seq_unwrapper_ s0) (pseq p)) in
  buffer_ s !! BufferIndex q = None ->
  (forall c, last_continuous_unwrapped_seq_ s = Some c -> c < q /\
     (waiting_for_recovery_ s = false -> GetPacket s (c + 1) = None)) ->
  insert_emits s0 p now h e
    (let b := mkBuffered q p (now, q) in
     let s := set_store s (<[BufferIndex q := b]> (buffer_ s))
                (arrivals_emplace (now, q) (arrivals_ s)) (u64 (buffered_packet_count_ s + 1)) in
     let! '(s, fs) := FindFrames s q in
     Ret (s, mkResult true false false collision expired fs)).
Proof.
  intros Ec Hage Hok (Hh & He & Hst) q Hslot Hq. cbn zeta.
  destruct (stored s q p now (proj1 Hok) Hslot) as (Hs' & Hr & G).
  set (s' := set_store _ _ _ _) in *. pose proof (rest_same_pos _ _ Hr) as Hp.
  pose proof Hp as (Pc & Pl & _ & Pst & _ & _ & Pw).
  destruct (FindFrames_emits s' (h ++ [(q, p)]) e q (mkBuffered q p (now, q)))
    as (s2 & fs & e' & rs & -> & H2 & H3 & H4 & H5 & H6 & H7).
  - eapply base_change; [exact Hok|done|done|]. intros r b. rewrite G.
    destruct (Z.eqb_spec r q) as [->|]; [|by left]. intros _. right. intros c Hc.
    by destruct (Hq c Hc).
  - split; [|rewrite Pl, Pst; by split]. intros r b. rewrite G.
    destruct (Z.eqb_spec r q) as [->|]; [intros [= <-]; set_solver|].
    intros Hb. specialize (Hh r b Hb). set_solver.
  - rewrite G. by rewrite Z.eqb_refl.
  - rewrite Pl, Pw. intros c Hc. destruct (Hq c Hc) as [Hlt Hn]. split; [done|]. intros Hw.
    rewrite G. destruct (Z.eqb_spec (c + 1) q); [by left|right; by apply Hn].
  - cbn [mbnd]. do 4 eexists. split; [reflexivity|]. split; [done|].
    split; [congruence|]. split.
    { intros x Hx%H5. unfold s' in Hx. simpl in Hx. rewrite arrivals_emplace_perm in Hx.
      apply elem_of_cons in Hx as [->|Hx]; [by left|right].
      destruct (Hage x Hx). by split. }
    unfold accepted. simpl. split; [done|]. split; [done|].
    by rewrite Ec, <- Pc.
Qed.

Lemma flush_emits s now h e :
  buffer_ok s -> traced h e s ->
  exists s' n, FlushExpired s now = Ret (s', n) /\ buffer_ok s' /\ traced h e s' /\
    config_ s' = config_ s /\ seq_unwrapper_ s' = seq_unwrapper_ s /\
    forall x, x ∈ arrivals_ s' -> x ∈ arrivals_ s /\ now - fst x < Z.max 1 (wait_ns s).
Proof.
  intros Hok Ht.
  destruct (FlushExpired_spec s now (proj1 (proj1 Hok))) as [[-> Hage]|(w & ts & -> & _ & Hw & _)].
  - exists s, 0. repeat (split; [done|]). auto.
  - do 2 eexists. split; [reflexivity|]. split; [apply cleared_ok, Hok|].
    split; [|repeat (split; [done|]); by intros x ?%elem_of_nil].
    destruct Ht as (_ & He & _). split; [|split; [|done]].
    + intros q b E. unfold GetPacket in E. simpl in E. by rewrite lookup_empty in E.
    + simpl. destruct (last_continuous_unwrapped_seq_ s) as [c|]; [|by subst].
      specialize (Hw c eq_refl). destruct e; simpl in *; lia.
Qed.

Lemma InsertPacket_emits s p now h e :
  buffer_ok s -> traced h e s -> insert_emits s p now h e (InsertPacket s p now).
Proof.
  intros Hok Ht. unfold InsertPacket.
  assert (forall t r, inserted r = false -> frames r = [] -> buffer_ok t -> config_ t = config_ s ->
            (forall x, x ∈ arrivals_ t -> x ∈ arrivals_ s /\
              (pvalid p && negb (pmalformed p) = true -> now - fst x < Z.max 1 (wait_ns s))) ->
            traced h e t -> insert_emits s p now h e (Ret (t, r))) as Hno.
  { intros t r Hi Hf Htok Hc Hage Htt. exists t, r, e, []. unfold accepted. rewrite Hi, Hf, app_nil_r.
    repeat (split; [done|]). split; [by right; apply Hage|]. by repeat (split; [done|]). }
  destruct (_ || _) eqn:Ev.
  { apply Hno; auto. intros x Hx. split; [done|]. apply orb_true_iff in Ev.
    destruct (pvalid p), (pmalformed p); by destruct Ev. }
  destruct (flush_emits s now h e Hok Ht) as (s1 & n & -> & Hok1 & Ht1 & Hc1 & Hu1 & Hage).
  cbn [mbnd]. rewrite Hu1. destruct (Unwrap (seq_unwrapper_ s) (pseq p)) as [u q] eqn:Eu.
  set (s2 := set_unwrapper s1 u).
  assert (store_ok s2) as Hs2 by (eapply store_ok_ext; [..|exact (proj1 (proj1 Hok1))]; done).
  assert (base_ok s2) as Hb2
    by (eapply base_change; [exact (proj1 Hok1)|done|done|by left]).
  assert (buffer_ok s2) as Hok2 by (split; [done|exact (proj2 Hok1)]).
  assert (traced h e s2) as Ht2 by exact Ht1.
  change (last_continuous_unwrapped_seq_ s2) with (last_continuous_unwrapped_seq_ s1).
  destruct (match last_continuous_unwrapped_seq_ s1 with Some l => q <=? l | None => false end)
    eqn:Elate; [apply Hno; auto; naive_solver|].
  assert (forall c, last_continuous_unwrapped_seq_ s2 = Some c -> c < q /\
     (waiting_for_recovery_ s2 = false -> GetPacket s2 (c + 1) = None)) as Hq.
  { intros c Hc. change (last_continuous_unwrapped_seq_ s1 = Some c) in Hc. rewrite Hc in Elate.
    bool_hyps. split; [done|]. by apply Hok2. }
  assert (q = snd (Unwrap (seq_unwrapper_ s) (pseq p))) as Eq by (by rewrite Eu).
  destruct (buffer_ s2 !! BufferIndex q) as [old|] eqn:Eold.
  2: { rewrite Eq in *. by apply store_emits. }
  destruct (Z.eqb_spec (unwrapped_seq old) q) as [|Hne]; [apply Hno; auto; naive_solver|].
  destruct (q <? unwrapped_seq old); [apply Hno; auto; naive_solver|].
  destruct (ErasePacket_removed s2 _ old Hs2 Eold) as (t & -> & Ht' & [Rt At] & Gt). cbn [mbnd].
  pose proof (rest_same_pos _ _ Rt) as Hpos. pose proof Hpos as (Pc & Pl & _ & Pst & _ & _ & Pw).
  rewrite Eq. apply store_emits; rewrite <- ?Eq.
  - rewrite Pc. by symmetry.
  - intros x Hx%At. by apply Hage.
  - eapply base_change; [exact Hb2|done|done|]. intros r b E. rewrite Gt in E.
    destruct (_ =? _); [done|by left].
  - destruct Ht2 as (Hh & He & Hst). split; [|rewrite Pl, Pst; by split].
    intros r b E. rewrite Gt in E. destruct (_ =? _); [done|by apply Hh].
  - destruct (buffer_ t !! BufferIndex q) as [d|] eqn:Ed; [exfalso|done].
    pose proof (slot_GetPacket t _ _ Ht' Ed) as Gd. rewrite Gt in Gd.
    destruct (Z.eqb_spec (unwrapped_seq d) (unwrapped_seq old)) as [|Hd]; [done|].
    apply Hd. eapply GetPacket_same_slot; [exact Gd|by eapply slot_GetPacket|].
    rewrite <- (proj1 (so_slot t Ht' _ _ Ed)). apply (so_slot s2 Hs2 _ _ Eold).
  - rewrite Pl, Pw. intros c Hc. destruct (Hq c Hc) as [? Hn]. split; [done|]. intros Hw.
    rewrite Gt. destruct (_ =? _); [done|by apply Hn].
Qed.

(** ** Runs of the buffer *)

Inductive BufferOp : Type :=
| OpInsert (p : H264ParsedPacket) (now : Z)
| OpFlush (now : Z).

Definition buffer_step (s : PacketBuffer) (op : BufferOp)
  : mres (PacketBuffer * list H264AccessUnit * history) :=
  match op with
  | OpInsert p now => let! '(s', r) := InsertPacket s p now in Ret (s', frames r, accepted s p r)
  | OpFlush now => let! '(s', _) := FlushExpired s now in Ret (s', [], [])
  end.

Fixpoint buffer_run (s : PacketBuffer) (ops : list BufferOp)
  : mres (PacketBuffer * list H264AccessUnit * history) :=
  match ops with
  | [] => Ret (s, [], [])
  | op :: ops =>
    let! '(s1, fs, h) := buffer_step s op in
    let! '(s2, fs', h') := buffer_run s1 ops in
    Ret (s2, fs ++ fs', h ++ h')
  end.

Lemma Forall2_sound_mono c h h' fs rs :
  (forall x, x ∈ h -> x ∈ h') -> Forall2 (frame_sound c h) fs rs -> Forall2 (frame_sound c h') fs rs.
Proof. intros Hh H. eapply Forall2_impl; [exact H|]. intros f r. by apply frame_sound_mono. Qed.

Lemma buffer_run_emits ops : forall s h e,
  buffer_ok s -> traced h e s ->
  exists s' fs hn e' rs, buffer_run s ops = Ret (s', fs, hn) /\ buffer_ok s' /\
    config_ s' = config_ s /\ traced (h ++ hn) e' s' /\ chain e rs e' /\
    Forall2 (frame_sound (config_ s) (h ++ hn)) fs rs.
Proof.
  induction ops as [|op ops IH]; intros s h e Hok Ht; simpl.
  { exists s, [], [], e, []. rewrite app_nil_r. by repeat (split; [done|]). }
  assert (exists s1 fs h1 e1 rs, buffer_step s op = Ret (s1, fs, h1) /\ buffer_ok s1 /\
    config_ s1 = config_ s /\ traced (h ++ h1) e1 s1 /\ chain e rs e1 /\
    Forall2 (frame_sound (config_ s) (h ++ h1)) fs rs)
    as (s1 & fs1 & h1 & e1 & rs1 & -> & Hok1 & Hc1 & Ht1 & Hch1 & Hf1).
  { destruct op as [p now|now]; simpl.
    - destruct (InsertPacket_emits s p now h e Hok Ht) as (s1 & r & e1 & rs & -> & H1 & H2 & _ & H3).
      cbn [mbnd]. do 5 eexists. split; [reflexivity|]. done.
    - destruct (flush_emits s now h e Hok Ht) as (s1 & n & -> & H1 & H2 & H3 & _). cbn [mbnd].
      exists s1, [], [], e, []. rewrite app_nil_r. by repeat (split; [done|]). }
  cbn [mbnd]. destruct (IH s1 (h ++ h1) e1 Hok1 Ht1)
    as (s2 & fs2 & h2 & e2 & rs2 & -> & Hok2 & Hc2 & Ht2 & Hch2 & Hf2).
  cbn [mbnd]. exists s2, (fs1 ++ fs2), (h1 ++ h2), e2, (rs1 ++ rs2).
  rewrite app_assoc. split; [done|]. split; [done|]. split; [congruence|]. split; [done|].
  split; [by eapply chain_app|]. apply Forall2_app.
  - eapply Forall2_sound_mono; [|exact Hf1]. intros x Hx. set_solver.
  - by rewrite <- Hc1.
Qed.

Lemma fresh_buffer_ok c :
  0 <= max_frame_packets c -> buffer_ok (H264PacketBuffer c) /\ traced [] None (H264PacketBuffer c).
Proof.
  intros Hc. assert (forall q, GetPacket (H264PacketBuffer c) q = None) as G
    by (intros q; unfold GetPacket; simpl; by rewrite lookup_empty).
  split; [split; [|done]|split; [|done]].
  - split.
    + constructor; simpl; try done; try constructor. by intros e ?%elem_of_nil.
    + split; [|done]. simpl. unfold init_config, kBufferSize.
      destruct (_ || _) eqn:E; simpl; [lia|]. bool_hyps. lia.
  - intros q b. by rewrite G.
Qed.

(** [Reset] gives a new buffer with the same configuration. *)
Lemma Reset_fresh s : buffer_ok s -> Reset s = H264PacketBuffer (config_ s).
Proof.
  intros [(_ & Hm & _) _]. unfold Reset, H264PacketBuffer, set_unwrapper, ClearInternal. simpl.
  f_equal. unfold init_config, kBufferSize.
  by rewrite (proj2 (Z.eqb_neq _ _)), (proj2 (Z.ltb_ge _ _)) by lia.
Qed.

(** As many arrivals as packets. *)
Lemma arrivals_count s : store_ok s -> buffered_packet_count_ s = Z.of_nat (length (arrivals_ s)).
Proof.
  intros Hs. rewrite (so_count s Hs), <- size_dom. f_equal.
  set (l := BufferIndex <$> (snd <$> arrivals_ s)).
  assert (NoDup l) as Hnd.
  { apply NoDup_fmap_2_strong; [|apply (so_nodup s Hs)].
    intros q r (x & -> & Hx)%list_elem_of_fmap (y & -> & Hy)%list_elem_of_fmap E.
    destruct (so_arrival s Hs x Hx) as (b & Hb & _). destruct (so_arrival s Hs y Hy) as (d & Hd & _).
    by eapply GetPacket_same_slot. }
  assert (dom (buffer_ s) = list_to_set (C := gset Z) l) as ->.
  { apply set_eq. intros i. rewrite elem_of_dom, elem_of_list_to_set. unfold l.
    rewrite list_elem_of_fmap. split.
    - intros [b Hb]. destruct (so_slot s Hs i b Hb) as (-> & Hq & Hin).
      exists (unwrapped_seq b). split; [done|]. rewrite <- Hq. by apply list_elem_of_fmap_2.
    - intros (q & -> & (x & -> & Hx)%list_elem_of_fmap).
      destruct (so_arrival s Hs x Hx) as (b & Hb & _). exists b. by apply GetPacket_slot. }
  rewrite size_list_to_set by done. unfold l. by rewrite !length_fmap.
Qed.

(** The packet buffer's invariant. Whatever parsed packets are inserted in whatever
    order and with whatever clock values, and whenever it is flushed, the buffer never
    faults: no empty slot is dereferenced and no arrival entry is missing. At most 2048
    packets are held; the packet count, the slots and the arrival order describe the same
    packets, all of which were accepted; a packet at or before the last continuous one is
    part of the frame being collected, which never exceeds the frame limit, except that
    while waiting for recovery the next packet itself may be held; and [Reset] gives back a
    newly constructed buffer. *)
Theorem h264_buffer_safe c ops :
  0 <= max_frame_packets c ->
  exists s fs h, buffer_run (H264PacketBuffer c) ops = Ret (s, fs, h) /\
    0 <= buffered_packet_count_ s <= kBufferSize /\
    buffered_packet_count_ s = Z.of_nat (length (arrivals_ s)) /\
    (forall q b, GetPacket s q = Some b -> arrival b ∈ arrivals_ s /\ (q, packet b) ∈ h) /\
    (forall e, e ∈ arrivals_ s -> exists b, GetPacket s (snd e) = Some b /\ arrival b = e) /\
    (forall l q, last_continuous_unwrapped_seq_ s = Some l -> is_Some (GetPacket s q) ->
       q <= l + 1 ->
       waiting_for_recovery_ s = true /\ q = l + 1 \/
       exists st, current_frame_start_ s = Some st /\ st <= q <= l /\
         l - st + 1 <= max_frame_packets (init_config c)) /\
    Reset s = H264PacketBuffer (init_config c).
Proof.
  intros Hc. destruct (fresh_buffer_ok c Hc) as [Hok Ht].
  destruct (buffer_run_emits ops _ _ _ Hok Ht)
    as (s & fs & h & e & rs & E & Hok' & Hcf & (Hh & _) & _).
  pose proof Hok' as [(Hs & Hm & Hpos) Hdr].
  exists s, fs, h. split; [done|]. split; [by apply count_bound|].
  split; [by apply arrivals_count|]. split; [|split; [apply Hs|split]].
  - intros q b Hb. split; [|by apply Hh]. apply (so_slot s Hs _ b (GetPacket_slot _ _ _ Hb)).
  - intros l q Hl Hq Hle. rewrite Hl in Hpos. destruct (waiting_for_recovery_ s).
    { destruct Hpos as (_ & _ & Hgt). specialize (Hgt q Hq). left. split; [done|lia]. }
    right. destruct Hpos as (a & _ & _ & _ & _ & Hf). specialize (Hdr l Hl eq_refl).
    assert (q <= l) as Hql.
    { destruct (decide (q = l + 1)) as [->|]; [|lia]. rewrite Hdr in Hq. by destruct Hq. }
    destruct (current_frame_start_ s) as [st|]; destruct a as [x|]; try done.
    + destruct Hf as (_ & _ & _ & _ & _ & Hi & Hb). exists st. split; [done|].
      destruct (Hb q Hq) as [|[Hd ?]]; [lia|]. rewrite Hd in Hi. simpl in Hcf. rewrite <- Hcf.
      split; [done|]. apply Hi.
    + destruct Hf as [_ Hb]. specialize (Hb q Hq). lia.
  - rewrite Reset_fresh by done. by rewrite Hcf.
Qed.

(** The time of an operation that looks at the clock. *)
Definition op_time (op : BufferOp) : option Z :=
  match op with
  | OpInsert p now => if pvalid p && negb (pmalformed p) then Some now else None
  | OpFlush now => Some now
  end.

Lemma buffer_run_snoc ops op : forall s,
  buffer_run s (ops ++ [op]) =
  let! '(s1, fs, h) := buffer_run s ops in
  let! '(s2, fs', h') := buffer_step s1 op in Ret (s2, fs ++ fs', h ++ h').
Proof.
  induction ops as [|o ops IH]; intros s; simpl.
  - destruct (buffer_step s op) as [[[s1 fs] h]| |]; simpl; [|done..]. by rewrite !app_nil_r.
  - destruct (buffer_step s o) as [[[s1 fs] h]| |]; simpl; [|done..]. rewrite IH.
    destruct (buffer_run s1 ops) as [[[s2 fs2] h2]| |]; simpl; [|done..].
    destruct (buffer_step s2 op) as [[[s3 fs3] h3]| |]; simpl; [|done..].
    by rewrite !app_assoc.
Qed.

(** Bounded waiting. After any history and one more call that looks at the clock (an
    accepted insertion or a flush) at time [now], every packet still held arrived less than
    the configured waiting time before [now]: an incomplete frame cannot hold packets for
    longer. *)
Theorem h264_packets_expire c ops op now s fs h :
  0 <= max_frame_packets c -> op_time op = Some now ->
  buffer_run (H264PacketBuffer c) (ops ++ [op]) = Ret (s, fs, h) ->
  forall q b, GetPacket s q = Some b -> now - fst (arrival b) < Z.max 1 (wait_ns s).
Proof.
  intros Hc Ho Hrun q b Hb. rewrite buffer_run_snoc in Hrun.
  destruct (fresh_buffer_ok c Hc) as [Hok Ht].
  destruct (buffer_run_emits ops _ _ _ Hok Ht) as (s1 & fs1 & h1 & e & rs & E & Hok1 & _ & Ht1 & _).
  rewrite E in Hrun. simpl in Hrun.
  assert (store_ok s -> forall x, x ∈ arrivals_ s -> now - fst x < Z.max 1 (wait_ns s)) as Hall.
  2: { assert (store_ok s) as Hs.
       { destruct (buffer_run_emits (ops ++ [op]) _ _ _ Hok Ht) as (s' & ? & ? & ? & ? & E' & Hok' & _).
         rewrite buffer_run_snoc, E in E'. simpl in E'. rewrite E' in Hrun. simplify_eq. apply Hok'. }
       apply (Hall Hs). apply (so_slot s Hs _ b (GetPacket_slot _ _ _ Hb)). }
  intros Hs x Hx. destruct op as [p t|t]; simpl in Hrun, Ho.
  - destruct (pvalid p && negb (pmalformed p)) eqn:Ev; [|done]. injection Ho as ->.
    destruct (InsertPacket_emits s1 p now _ e Hok1 Ht1) as (s' & r & e' & rs' & E' & _ & Hcf & Hage & _).
    rewrite E' in Hrun. simpl in Hrun. simplify_eq. unfold wait_ns. rewrite Hcf.
    destruct (Hage x Hx) as [->|[_ Ha]]; [lia|by apply Ha].
  - injection Ho as ->. destruct (flush_emits s1 now _ e Hok1 Ht1) as (s' & n & E' & _ & _ & Hcf & _ & Hage).
    rewrite E' in Hrun. simpl in Hrun. simplify_eq. unfold wait_ns. rewrite Hcf. by apply Hage.
Qed.

(** What comes out of the buffer: every frame was assembled from consecutive accepted
    packets, and the frames follow each other in sequence number order. *)
Lemma buffer_run_sound c ops :
  0 <= max_frame_packets c ->
  exists s fs h rs e, buffer_run (H264PacketBuffer c) ops = Ret (s, fs, h) /\
    Forall2 (frame_sound (init_config c) h) fs rs /\ chain None rs e.
Proof.
  intros Hc. destruct (fresh_buffer_ok c Hc) as [Hok Ht].
  destruct (buffer_run_emits ops _ _ _ Hok Ht)
    as (s & fs & h & e & rs & E & _ & _ & _ & Hch & Hf). by exists s, fs, h, rs, e.
Qed.

Lemma Unwrap_congruent u seq : u16 (snd (Unwrap u seq)) = u16 seq.
Proof.
  unfold Unwrap. destruct (initialized_ u); cbn [negb]; [|done]. cbn zeta. unfold kHalf, kModulo, wrap. cbn [snd].
  assert (Z.land (latest_unwrapped_seq_ u) (Z.lnot 0xFFFF) = latest_unwrapped_seq_ u / 65536 * 65536) as ->.
  { rewrite <- Z.ldiff_land. change 0xFFFF with (Z.ones 16). rewrite Z.ldiff_ones_r, Z.shiftl_mul_pow2, Z.shiftr_div_pow2 by lia. done. }
  repeat case_match; pow2; Z.div_mod_to_equations; lia.
Qed.

(** The history holds only packets that were inserted, under a number that continues their
    sequence number. *)
Lemma buffer_run_origin ops : forall s s' fs h q p,
  buffer_run s ops = Ret (s', fs, h) -> (q, p) ∈ h -> u16 q = u16 (pseq p) /\ exists now, OpInsert p now ∈ ops.
Proof.
  induction ops as [|op ops IH]; intros s s' fs h q p Hrun Hin; simpl in Hrun.
  { injection Hrun as _ _ <-. by apply elem_of_nil in Hin. }
  destruct (buffer_step s op) as [[[s1 fs1] h1]| |] eqn:E1; simpl in Hrun; [|done..].
  destruct (buffer_run s1 ops) as [[[s2 fs2] h2]| |] eqn:E2; simpl in Hrun; [|done..].
  injection Hrun as _ _ <-. apply elem_of_app in Hin as [Hin|Hin].
  - destruct op as [p' now|now]; simpl in E1.
    + destruct (InsertPacket s p' now) as [[s3 r]| |]; simpl in E1; [|done..].
      injection E1 as _ _ <-. unfold accepted in Hin.
      destruct (inserted r); [|by apply elem_of_nil in Hin].
      apply list_elem_of_singleton in Hin. injection Hin as -> ->. split; [apply Unwrap_congruent|].
      exists now. apply elem_of_cons. by left.
    + destruct (FlushExpired s now) as [[s3 n]| |]; simpl in E1; [|done..].
      injection E1 as _ _ <-. by apply elem_of_nil in Hin.
  - destruct (IH _ _ _ _ _ _ E2 Hin) as [Hq [now Hnow]]. split; [done|]. exists now. apply elem_of_cons. by right.
Qed.

(** A stored packet: an SPS without the marker, so that its frame stays open. *)
Definition sample_packet : H264ParsedPacket :=
  parsed_of (mkView 7 90000 false (Some [0x67; 66; 0; 30]) 5 0) (PkSingle [0x67; 66; 0; 30]).

Lemma h264_buffer_safe_witness :
  let ops := [OpInsert sample_packet 10; OpFlush 20; OpInsert empty_parsed 30] in
  exists s fs h, buffer_run (H264PacketBuffer default_config) ops = Ret (s, fs, h) /\
    0 <= buffered_packet_count_ s <= kBufferSize.
Proof.
  intros ops. destruct (h264_buffer_safe default_config ops ltac:(done)) as (s & fs & h & E & H & _).
  exists s, fs, h. split; [exact E|exact H].
Defined.

Lemma h264_packets_expire_witness :
  let run := buffer_run (H264PacketBuffer default_config) ([OpInsert sample_packet 10] ++ [OpFlush 20]) in
  match run with Ret (s, _, _) => bool_decide (is_Some (GetPacket s 7)) | _ => false end = true /\
  forall s fs h, run = Ret (s, fs, h) ->
    forall q b, GetPacket s q = Some b -> 20 - fst (arrival b) < Z.max 1 (wait_ns s).
Proof.
  split; [vm_compute; reflexivity|]. intros s fs h E.
  exact (h264_packets_expire default_config [OpInsert sample_packet 10] (OpFlush 20) 20 s fs h
    ltac:(done) eq_refl E).
Defined.
