(* ===== verification/H264Delivery.v ===== *)
(** * Delivery of H.264 access units

    Packets of a window that arrive in any order, and in time, give exactly the frames
    they would give in order; for an access unit split by a sender following RFC 6184,
    that is one frame with the sender's NAL units. *)
From S2P Require Import Prelude Bytes H264 H264Buffer H264BufferInv H264Frames.

(** ** Unwrapping *)

Lemma cycle_base_mod x : Z.land x (Z.lnot 0xFFFF) = x - x mod 65536.
Proof.
  change 0xFFFF with (Z.ones 16). change (Z.land x (Z.lnot (Z.ones 16))) with (Z.ldiff x (Z.ones 16)).
  rewrite Z.ldiff_ones_r, Z.shiftl_mul_pow2, Z.shiftr_div_pow2 by lia.
  change (2 ^ 16) with 65536. Z.div_mod_to_equations. lia.
Qed.

(** Numbers less than half a cycle apart are unwrapped correctly. *)
Lemma Unwrap_window l q :
  Z.abs (q - l) < 32768 ->
  Unwrap (mkUnwrapper true l) (u16 q) = (mkUnwrapper true (Z.max l q), q).
Proof.
  intros H. unfold Unwrap. simpl. rewrite cycle_base_mod. unfold kHalf, kModulo, wrap.
  change (2 ^ 16) with 65536.
  set (cand := l - l mod 65536 + q mod 65536).
  assert ((if 32768 <? cand - l then cand - 65536
           else if 32768 <? l - cand then cand + 65536 else cand) = q) as ->.
  { subst cand. destruct (Z.ltb_spec 32768 (l - l mod 65536 + q mod 65536 - l));
      [|destruct (Z.ltb_spec 32768 (l - (l - l mod 65536 + q mod 65536)))];
      Z.div_mod_to_equations; lia. }
  f_equal. f_equal. destruct (Z.ltb_spec l q); lia.
Qed.

(** ** A window of packets *)

Section Window.
Context (cf : Config) (c : Z) (ps : list H264ParsedPacket) (t0 : Z) (lts : option Z).

Let n := Z.of_nat (length ps).

(** The window fits the ring; packets are accepted ones with the right numbers; if one of
    them could begin a stream, they all have its timestamp. *)
Hypothesis Hn : n <= 2048.
Hypothesis Hvalid : forall i p, ps !! i = Some p ->
  pvalid p = true /\ pmalformed p = false /\ pseq p = u16 (c + 1 + Z.of_nat i).
Hypothesis Hstay : forall p, p ∈ ps -> forall s, config_ s = cf ->
  BeginningOfStream s p = true -> forall p', p' ∈ ps -> ptimestamp p' = ptimestamp p.

(** No packet makes the buffer give up those before it, even when it comes first. *)
Definition calm : Prop :=
  forall p, p ∈ ps -> forall s, config_ s = cf -> BeginningOfStream s p = true ->
    lts = Some (ptimestamp p).

(** The packet with number [q]. *)
Definition in_window (q : Z) (p : H264ParsedPacket) : Prop :=
  c < q /\ ps !! Z.to_nat (q - c - 1) = Some p.

Lemma in_window_bounds q p : in_window q p -> c < q <= c + n.
Proof. intros [Hc Hp]. apply lookup_lt_Some in Hp. unfold n. lia. Qed.

Lemma in_window_inj q p p' : in_window q p -> in_window q p' -> p = p'.
Proof. intros [_ H] [_ H']. congruence. Qed.

(** The packets with the numbers [got] are there and the first [k] are processed. *)
Definition win_core (got : list Z) (s : PacketBuffer) (k : nat) : Prop :=
  config_ s = cf /\ (k <= length ps)%nat /\
  sim s (c + Z.of_nat k) (fst (asm_run cf None (c + 1) (take k ps))) /\
  (forall q, c < q <= c + Z.of_nat k -> q ∈ got) /\
  (forall q b, GetPacket s q = Some b -> c < q /\ q ∈ got) /\
  (forall q p, q ∈ got -> c + Z.of_nat k < q -> in_window q p -> pkt s q = Some p) /\
  (exists l, seq_unwrapper_ s = mkUnwrapper true l /\ c <= l <= c + n /\ forall q, q ∈ got -> q <= l) /\
  (forall x, x ∈ arrivals_ s -> t0 <= fst x) /\
  last_continuous_timestamp_ s =
    match last (take k ps) with Some p => Some (ptimestamp p) | None => lts end.

(** Between two insertions: the next packet is missing, and the frames are those of the
    packets processed. *)
Definition win_inv (got : list Z) (s : PacketBuffer) (fs : list H264AccessUnit) : Prop :=
  exists k, win_core got s k /\ c + Z.of_nat k + 1 ∉ got /\
    fs = snd (asm_run cf None (c + 1) (take k ps)).

(** What [FindFrames] finds are the next packets of the window. *)
Lemma found_prefix s (got : list Z) k (qs : list H264ParsedPacket) :
  (k <= length ps)%nat ->
  (forall q b, GetPacket s q = Some b -> c < q /\ q ∈ got) ->
  (forall q, q ∈ got -> q <= c + n) ->
  (forall q p, q ∈ got -> c + Z.of_nat k < q -> in_window q p -> pkt s q = Some p) ->
  buffered_at s (c + Z.of_nat k + 1) qs ->
  qs = take (length qs) (drop k ps) /\ (k + length qs <= length ps)%nat.
Proof.
  intros Hk Hgot Hbound Hwin Hat.
  assert (forall i p, qs !! i = Some p -> drop k ps !! i = Some p) as Hpre.
  { intros i p Hi. specialize (Hat i p Hi). pose proof Hat as Hat'. unfold pkt in Hat'.
    apply fmap_Some in Hat' as (b & Hb & ->). destruct (Hgot _ _ Hb) as [Hc Hin].
    specialize (Hbound _ Hin).
    destruct (lookup_lt_is_Some_2 (drop k ps) i) as [p' Hp'].
    { rewrite length_drop. unfold n in Hbound. lia. }
    assert (in_window (c + Z.of_nat k + 1 + Z.of_nat i) p') as Hw.
    { split; [lia|]. rewrite <- Hp', lookup_drop. f_equal. lia. }
    rewrite (Hwin _ p' Hin ltac:(lia) Hw) in Hat. congruence. }
  assert (length qs <= length (drop k ps))%nat as Hl.
  { destruct (decide (length qs = 0)%nat) as [->|Hne]; [lia|].
    destruct (lookup_lt_is_Some_2 qs (length qs - 1)) as [p Hp]; [lia|].
    apply Hpre, lookup_lt_Some in Hp. lia. }
  split; [|rewrite length_drop in Hl; lia].
  apply list_eq. intros i. destruct (qs !! i) as [p|] eqn:E.
  - pose proof (lookup_lt_Some _ _ _ E). rewrite lookup_take_lt by done. symmetry. by apply Hpre.
  - apply lookup_ge_None_1 in E. symmetry. apply lookup_ge_None_2. rewrite length_take. lia.
Qed.

(** Out of order: the packet waits. *)
Lemma window_waits s q p k :
  config_ s = cf -> in_window q p -> c + Z.of_nat k + 1 < q -> (k <= length ps)%nat ->
  calm \/ (0 < k)%nat ->
  last_continuous_unwrapped_seq_ s = Some (c + Z.of_nat k) ->
  last_continuous_timestamp_ s =
    match last (take k ps) with Some p => Some (ptimestamp p) | None => lts end ->
  CanAdvanceFrom s q p = Ret (s, false).
Proof.
  intros Hcf Hw Hq Hk Hcalm Hl Hlt. unfold CanAdvanceFrom. rewrite Hl, Hlt.
  rewrite (proj2 (Z.leb_gt q _)), (proj2 (Z.eqb_neq q _)), andb_false_r by lia.
  destruct (bool_decide _) eqn:Ed; [done|]. apply bool_decide_eq_false in Ed.
  destruct (BeginningOfStream s p) eqn:Eb; [exfalso|done]. apply Ed.
  assert (p ∈ ps) as Hp by (eapply list_elem_of_lookup_2, Hw).
  pose proof (Hstay p Hp s Hcf Eb) as Hsame.
  destruct (last (take k ps)) as [p'|] eqn:El.
  2: { destruct Hcalm as [Hc|Hk0]; [by eapply Hc|]. apply last_None in El.
       apply (f_equal length) in El. rewrite length_take in El. simpl in El. lia. }
  f_equal. apply Hsame.
  apply last_Some in El as [l E]. assert (p' ∈ take k ps) as Hin by (rewrite E; set_solver).
  apply elem_of_take in Hin as (i & Hi & _). by eapply list_elem_of_lookup_2.
Qed.

(** The loop from the next missing number processes what has become contiguous. *)
Lemma window_loop got s k :
  win_core got s k ->
  exists s' fs, find_loop (Z.to_nat kBufferSize) s (c + Z.of_nat k + 1) = Ret (s', fs) /\
    win_inv got s' (snd (asm_run cf None (c + 1) (take k ps)) ++ fs).
Proof.
  intros Hcore. pose proof Hcore as (Hcf & Hk & Hsim & Hdone & Hbuf & Hwin & Hu & Harr & Hts).
  destruct (find_loop_spec (Z.to_nat kBufferSize) s _ _ Hsim)
    as (s' & qs & -> & Hlen & Hat & Hsim' & (Kc & Ku & _ & Ka) & Hend & Hlt' & G).
  destruct Hu as (l & Hu & Hl & Hgl).
  destruct (found_prefix s got k qs) as [Eqs Hkq]; auto.
  { intros r Hr. specialize (Hgl r Hr). lia. }
  set (m := length qs) in *.
  assert (take (k + m) ps = take k ps ++ qs) as Etake by (rewrite Eqs; by rewrite take_take_drop).
  assert (asm_run cf None (c + 1) (take (k + m) ps) =
    (fst (asm_run cf (fst (asm_run cf None (c + 1) (take k ps))) (c + Z.of_nat k + 1) qs),
     snd (asm_run cf None (c + 1) (take k ps)) ++
     snd (asm_run cf (fst (asm_run cf None (c + 1) (take k ps))) (c + Z.of_nat k + 1) qs))) as Erun.
  { rewrite Etake, asm_run_app, length_take. destruct (asm_run cf None _ _) as [a fs]. simpl.
    replace (c + 1 + Z.of_nat (k `min` length ps)) with (c + Z.of_nat k + 1) by lia.
    by destruct (asm_run cf a _ _). }
  rewrite Hcf in *. do 2 eexists. split; [reflexivity|]. exists (k + m)%nat.
  split; [|rewrite Erun; split; [|done]].
  - repeat (split; [done|]). rewrite Erun. simpl fst.
    split; [by replace (c + Z.of_nat (k + m)) with (c + Z.of_nat k + Z.of_nat m) by lia|].
    split; [|split; [|split; [|split; [|split]]]].
    + intros r Hr. destruct (Z.le_gt_cases r (c + Z.of_nat k)); [by apply Hdone; lia|].
      destruct (lookup_lt_is_Some_2 qs (Z.to_nat (r - c - Z.of_nat k - 1))) as [p' Hp'].
      { fold m. lia. }
      specialize (Hat _ _ Hp'). unfold pkt in Hat. apply fmap_Some in Hat as (d & Hd & _).
      apply Hbuf in Hd as [_ Hd]. by replace r with
        (c + Z.of_nat k + 1 + Z.of_nat (Z.to_nat (r - c - Z.of_nat k - 1))) by lia.
    + intros r d Hd. pose proof (GetPacket_slot _ _ _ Hd) as Ed.
      destruct (so_slot s' (proj1 Hsim') _ _ Ed) as (_ & Hsq & Hx).
      destruct (so_arrival s (proj1 Hsim) _ (Ka _ Hx)) as (d' & Hd' & _).
      apply (Hbuf r d'). by rewrite <- (GetPacket_seq _ _ _ Hd), <- Hsq.
    + intros r p' Hr Hkr Hw'. unfold pkt. rewrite G by lia. apply Hwin; [done|lia|done].
    + exists l. by rewrite Ku.
    + intros x Hx%Ka. by apply Harr.
    + rewrite Hlt', Hts, Etake, last_app. by destruct (last qs).
  - intros Hbad. specialize (Hgl _ Hbad).
    destruct (lookup_lt_is_Some_2 ps (k + m)) as [p' Hp'].
    { unfold n in Hl. lia. }
    assert (pkt s (c + Z.of_nat (k + m) + 1) = Some p') as Hp''.
    { apply Hwin; [done|lia|]. split; [lia|]. rewrite <- Hp'. f_equal. lia. }
    unfold pkt in Hp''. apply fmap_Some in Hp'' as (d & Hd & _).
    destruct Hend as [E|E].
    + change (Z.to_nat kBufferSize) with 2048%nat in E. unfold n in *. lia.
    + replace (c + Z.of_nat k + 1 + Z.of_nat m) with (c + Z.of_nat (k + m) + 1) in E by lia.
      congruence.
Qed.

(** Looking for frames after packet [q] has arrived. *)
Lemma window_find got s k q p :
  win_core got s k -> in_window q p -> q ∈ got -> c + Z.of_nat k < q ->
  (q = c + Z.of_nat k + 1 \/ c + Z.of_nat k + 1 ∉ got /\ (calm \/ (0 < k)%nat)) ->
  exists s' fs, FindFrames s q = Ret (s', fs) /\
    win_inv got s' (snd (asm_run cf None (c + 1) (take k ps)) ++ fs).
Proof.
  intros Hcore Hq Hin Hlt Hnext. pose proof Hcore as (Hcf & Hk & Hsim & _ & _ & Hwin & _ & _ & Hts).
  pose proof (Hwin q p Hin Hlt Hq) as Hp. unfold pkt in Hp. apply fmap_Some in Hp as (b & Hb & ->).
  unfold FindFrames. rewrite Hb. pose proof Hsim as (_ & _ & Elast & Hw & _).
  destruct (decide (q = c + Z.of_nat k + 1)) as [->|Hne].
  - assert (CanAdvanceFrom s (c + Z.of_nat k + 1) (packet b) = Ret (s, true)) as ->.
    { unfold CanAdvanceFrom. rewrite Elast, Hw, (proj2 (Z.leb_gt _ _)) by lia.
      by rewrite Z.eqb_refl. }
    by apply window_loop.
  - destruct Hnext as [|[Hnext Hcalm]]; [done|].
    rewrite (window_waits s q (packet b) k) by (done || lia). cbn [mbnd negb].
    exists s, []. split; [done|]. exists k. by rewrite app_nil_r.
Qed.

(** One insertion. *)
Lemma window_insert got s fs q p now :
  win_inv got s fs -> in_window q p -> q ∉ got -> calm \/ c + 1 ∈ got \/ q = c + 1 ->
  t0 <= now -> now - t0 < max_wait_ms cf * 1000000 ->
  exists s' r, InsertPacket s p now = Ret (s', r) /\ inserted r = true /\
    win_inv (q :: got) s' (fs ++ frames r).
Proof.
  intros (k & (Hcf & Hk & Hsim & Hdone & Hbuf & Hwin & (l & Hu & Hl & Hgl) & Harr & Hlt) & Hnext & ->)
    Hq Hnew Hcalm Ht0 Hnow.
  pose proof Hsim as (Hs & _ & Elast & Hwait & _).
  assert (q < c + n + 1 /\ c < q) as Hqb by (pose proof (in_window_bounds q p Hq); lia).
  assert (c + Z.of_nat k < q) as Hqk.
  { destruct (Z.le_gt_cases q (c + Z.of_nat k)); [|done]. destruct Hnew. apply Hdone. lia. }
  destruct (Hvalid _ _ (proj2 Hq)) as (Hv & Hm & Hseq).
  replace (c + 1 + Z.of_nat (Z.to_nat (q - c - 1))) with q in Hseq by lia.
  unfold InsertPacket. rewrite Hv, Hm. cbn [negb orb].
  assert (FlushExpired s now = Ret (s, 0)) as ->.
  { destruct (FlushExpired_spec s now Hs) as [[-> _]|(w & ts & _ & (x & Hx & Hage) & _)]; [done|].
    specialize (Harr x Hx). unfold wait_ns in Hage. rewrite Hcf in Hage. lia. }
  cbn [mbnd]. rewrite Hu, Hseq, Unwrap_window by lia.
  set (s1 := set_unwrapper s _). change (last_continuous_unwrapped_seq_ s1)
    with (last_continuous_unwrapped_seq_ s). rewrite Elast, (proj2 (Z.leb_gt q _)) by lia.
  assert (buffer_ s1 !! BufferIndex q = None) as Hslot.
  { destruct (buffer_ s1 !! BufferIndex q) as [d|] eqn:Ed; [exfalso|done].
    change (buffer_ s !! BufferIndex q = Some d) in Ed.
    pose proof (slot_GetPacket s _ _ Hs Ed) as Gd. destruct (Hbuf _ _ Gd) as [Hcd Hgd].
    specialize (Hgl _ Hgd). destruct (so_slot s Hs _ _ Ed) as [Ei _].
    apply Hnew. by rewrite (BufferIndex_inj q (unwrapped_seq d) Ei ltac:(lia)). }
  rewrite Hslot. assert (store_ok s1) as Hs1 by (by eapply store_ok_ext; [..|exact Hs]).
  destruct (stored s1 q p now Hs1 Hslot) as (Hs2 & Hr2 & G). set (s2 := set_store _ _ _ _) in *.
  apply rest_fields in Hr2 as (Rc & Ru & Rl & Rlt & Rst & Rts & Rd & Rw).
  assert (win_core (q :: got) s2 k) as Hcore.
  { assert (forall r, r <= c + Z.of_nat k -> GetPacket s2 r = GetPacket s r) as Glow.
    { intros r Hr. rewrite G. by rewrite (proj2 (Z.eqb_neq r q)) by lia. }
    split; [done|]. split; [done|].
    split; [|split; [|split; [|split; [|split; [|split]]]]].
    - destruct (sim_change s s2 _ _ Hsim Hs2) as (a' & Hsim2 & Ha'); [by repeat split|..].
      { intros r b Hr. by rewrite Glow. }
      by rewrite Ha' in Hsim2.
    - intros r Hr. right. by apply Hdone.
    - intros r b. rewrite G. destruct (Z.eqb_spec r q) as [->|].
      + intros _. split; [lia|set_solver].
      + intros Hb. destruct (Hbuf r b Hb). split; [done|set_solver].
    - intros r p' Hr Hkr Hw. unfold pkt. rewrite G. destruct (Z.eqb_spec r q) as [->|Hne].
      + simpl. f_equal. by eapply in_window_inj.
      + apply elem_of_cons in Hr as [->|Hr]; [done|]. by apply Hwin.
    - exists (Z.max l q). split; [done|]. split; [lia|].
      intros r [->|Hr]%elem_of_cons; [lia|]. specialize (Hgl r Hr). lia.
    - intros x Hx. unfold s2 in Hx. simpl in Hx. rewrite arrivals_emplace_perm in Hx.
      apply elem_of_cons in Hx as [->|Hx]; [done|by apply Harr].
    - done. }
  destruct (window_find (q :: got) s2 k q p Hcore Hq ltac:(set_solver) Hqk) as (s' & fs & -> & Hinv).
  { destruct (decide (q = c + Z.of_nat k + 1)) as [|Hne]; [by left|right]. split; [set_solver|].
    destruct Hcalm as [|Hcalm]; [by left|right].
    destruct k; [exfalso|lia]. rewrite Z.add_0_r in *. by destruct Hcalm. }
  cbn [mbnd]. do 2 eexists. split; [reflexivity|]. by split.
Qed.

(** Packets and arrival times: the frames, and whether every packet was stored. *)
Fixpoint insert_all (s : PacketBuffer) (l : list (H264ParsedPacket * Z))
  : mres (PacketBuffer * list H264AccessUnit * bool) :=
  match l with
  | [] => Ret (s, [], true)
  | (p, now) :: l =>
    let! '(s, r) := InsertPacket s p now in
    let! '(s, fs, ok) := insert_all s l in Ret (s, frames r ++ fs, inserted r && ok)
  end.

(** The arrivals: number, packet and time, each number of the window at most once. *)
Lemma window_insert_all (l : list (Z * H264ParsedPacket * Z)) : forall got s fs,
  win_inv got s fs ->
  NoDup (map (fun x => fst (fst x)) l) ->
  calm \/ c + 1 ∈ got \/ (forall x, head l = Some x -> fst (fst x) = c + 1) ->
  (forall x, x ∈ l -> fst (fst x) ∉ got /\ in_window (fst (fst x)) (snd (fst x)) /\
     t0 <= snd x /\ snd x - t0 < max_wait_ms cf * 1000000) ->
  exists s' fs', insert_all s (map (fun x => (snd (fst x), snd x)) l) = Ret (s', fs', true) /\
    win_inv (rev (map (fun x => fst (fst x)) l) ++ got) s' (fs ++ fs').
Proof.
  induction l as [|[[q p] now] l IH]; intros got s fs Hinv Hnd Hcalm Hl; simpl.
  { exists s, []. by rewrite app_nil_r. }
  simpl in Hnd. apply NoDup_cons in Hnd as [Hq Hnd].
  destruct (Hl (q, p, now) ltac:(set_solver)) as (H1 & H2 & H3 & H4). simpl in *.
  destruct (window_insert got s fs q p now Hinv H2 H1) as (s1 & r & -> & Hins & Hinv1); [|done..|].
  { destruct Hcalm as [|[|Hf]]; [by left|by right; left|right; right]. by apply (Hf (q, p, now)). }
  cbn [mbnd]. destruct (IH (q :: got) s1 (fs ++ frames r) Hinv1 Hnd) as (s2 & fs2 & -> & Hinv2).
  { destruct Hcalm as [|Hcalm]; [by left|right; left].
    destruct Hcalm as [|Hf]; [set_solver|]. rewrite (Hf (q, p, now) eq_refl : q = c + 1). set_solver. }
  { intros x Hx. destruct (Hl x ltac:(set_solver)) as (? & ? & ?). split; [|done].
    intros [E|?]%elem_of_cons; [|done]. apply Hq. rewrite <- E.
    by apply (list_elem_of_fmap_2 (fun x => fst (fst x))). }
  cbn [mbnd]. rewrite Hins. do 2 eexists. split; [reflexivity|].
  by rewrite <- (app_assoc (rev _)), (app_assoc fs).
Qed.

(** When all have arrived, the whole window is processed. *)
Lemma window_complete got s fs :
  win_inv got s fs -> (forall q, c < q <= c + n -> q ∈ got) ->
  win_core got s (length ps) /\ fs = snd (asm_run cf None (c + 1) ps).
Proof.
  intros (k & Hcore & Hnext & ->) Hall. pose proof Hcore as (_ & Hk & _).
  assert (k = length ps) as ->.
  { destruct (decide (k = length ps)); [done|]. exfalso. apply Hnext, Hall. unfold n. lia. }
  split; [done|]. by rewrite take_ge.
Qed.

End Window.

(** ** Any order *)

(** Between access units: everything up to [c] is done and nothing waits. *)
Definition ready (s : PacketBuffer) (c : Z) : Prop :=
  buffer_ s = ∅ /\ arrivals_ s = [] /\ buffered_packet_count_ s = 0 /\
  seq_unwrapper_ s = mkUnwrapper true c /\ last_continuous_unwrapped_seq_ s = Some c /\
  current_frame_start_ s = None /\ discarding_frame_ s = false /\
  waiting_for_recovery_ s = false /\ 1 <= max_frame_packets (config_ s) <= 2048.

Lemma empty_GetPacket s q : buffer_ s = ∅ -> GetPacket s q = None.
Proof. intros E. unfold GetPacket. by rewrite E, lookup_empty. Qed.

Lemma empty_store s :
  buffer_ s = ∅ -> arrivals_ s = [] -> buffered_packet_count_ s = 0 -> store_ok s.
Proof.
  intros Eb Ea Ec. constructor; rewrite ?Eb, ?Ea, ?Ec; try done; try constructor.
  by intros e ?%elem_of_nil.
Qed.

Lemma ready_window s c ps t0 :
  ready s c -> win_inv (config_ s) c ps t0 (last_continuous_timestamp_ s) [] s [].
Proof.
  intros (Eb & Ea & Ec & Eu & El & Est & Ed & Ew & Hm). exists 0%nat.
  assert (forall q, GetPacket s q = None) as G by (intros; by apply empty_GetPacket).
  split; [|by split; [set_solver|]]. split; [done|]. split; [lia|]. simpl. rewrite Z.add_0_r.
  split; [|split; [lia|split; [|split; [set_solver|split; [|split; [|done]]]]]].
  - split; [by apply empty_store|]. split; [done|]. split; [done|]. split; [done|].
    rewrite Est. split; [done|]. intros q [b Hb]. by rewrite G in Hb.
  - intros q b Hb. by rewrite G in Hb.
  - exists c. split; [done|]. split; [lia|set_solver].
  - rewrite Ea. by intros x ?%elem_of_nil.
Qed.

(** The arrivals [l] (number, packet, time) bring the packets [ps], numbered from [c + 1],
    in some order, all within the waiting time. *)
Definition arrive (cf : Config) (c : Z) (ps : list H264ParsedPacket)
    (l : list (Z * H264ParsedPacket * Z)) : Prop :=
  map fst l ≡ₚ zip (seqZ (c + 1) (Z.of_nat (length ps))) ps /\
  exists t0, Forall (fun x => t0 <= snd x /\ snd x - t0 < max_wait_ms cf * 1000000) l.

Definition untimed (l : list (Z * H264ParsedPacket * Z)) : list (H264ParsedPacket * Z) :=
  map (fun x => (snd (fst x), snd x)) l.

Lemma zip_window c ps q p :
  (q, p) ∈ zip (seqZ (c + 1) (Z.of_nat (length ps))) ps <-> in_window c ps q p.
Proof.
  rewrite list_elem_of_lookup. unfold in_window. split.
  - intros [i Hi]. apply lookup_zip_Some in Hi as [H1 H2]. apply lookup_seqZ in H1 as [-> _].
    split; [lia|]. rewrite <- H2. f_equal. lia.
  - intros [Hq Hp]. exists (Z.to_nat (q - c - 1)). apply lookup_zip_Some. split; [|done].
    apply lookup_seqZ. apply lookup_lt_Some in Hp. lia.
Qed.

(** The conditions of the section on the packets. *)
Definition window_packets (cf : Config) (c : Z) (ps : list H264ParsedPacket) : Prop :=
  Z.of_nat (length ps) <= 2048 /\
  (forall i p, ps !! i = Some p ->
     pvalid p = true /\ pmalformed p = false /\ pseq p = u16 (c + 1 + Z.of_nat i)) /\
  (forall p, p ∈ ps -> forall s, config_ s = cf -> BeginningOfStream s p = true ->
     forall p', p' ∈ ps -> ptimestamp p' = ptimestamp p).

Lemma arrive_nodup cf c ps l : arrive cf c ps l -> NoDup (map (fun x => fst (fst x)) l).
Proof.
  intros [Hp _]. rewrite <- (map_map fst fst), Hp.
  change (NoDup (zip (seqZ (c + 1) (Z.of_nat (length ps))) ps).*1).
  rewrite fst_zip by (rewrite length_seqZ; lia). apply NoDup_seqZ.
Qed.

Lemma arrive_all cf c ps l q :
  arrive cf c ps l -> c < q <= c + Z.of_nat (length ps) -> q ∈ map (fun x => fst (fst x)) l.
Proof.
  intros [Hp _] Hq. destruct (lookup_lt_is_Some_2 ps (Z.to_nat (q - c - 1))) as [p Ep]; [lia|].
  assert ((q, p) ∈ map fst l) as Hin.
  { rewrite Hp. apply zip_window. by split; [lia|]. }
  apply list_elem_of_fmap in Hin as (x & E & Hx). apply list_elem_of_fmap. exists x.
  by rewrite <- E.
Qed.

Lemma arrive_elem cf c ps l x :
  arrive cf c ps l -> x ∈ l -> in_window c ps (fst (fst x)) (snd (fst x)).
Proof.
  intros [Hp _] Hx. apply zip_window. rewrite <- Hp, <- surjective_pairing.
  by apply list_elem_of_fmap_2.
Qed.

(** Finishing: a window processed to its end leaves the buffer between access units. *)
Lemma window_ready cf c ps t0 lts got s :
  win_core cf c ps t0 lts got s (length ps) -> (0 < length ps)%nat ->
  (forall q, q ∈ got <-> c < q <= c + Z.of_nat (length ps)) ->
  fst (asm_run cf None (c + 1) ps) = None ->
  ready s (c + Z.of_nat (length ps)) /\ config_ s = cf /\
  last_continuous_timestamp_ s = ptimestamp <$> last ps.
Proof.
  intros (Hcf & _ & Hsim & _ & Hbuf & _ & (l & Hu & Hl & Hgl) & _ & Hts) Hne Hgot Hnone.
  rewrite take_ge in Hsim, Hts by lia. rewrite Hnone in Hsim.
  destruct Hsim as (Hs & Hm & El & Hw & Hf).
  destruct (current_frame_start_ s) eqn:Est; [done|]. destruct Hf as [Hd Hq].
  assert (forall q, GetPacket s q = None) as G.
  { intros q. destruct (GetPacket s q) as [b|] eqn:E; [exfalso|done].
    destruct (Hbuf q b E) as [_ Hin%Hgot]. specialize (Hq q ltac:(by eexists)). lia. }
  assert (buffer_ s = ∅) as Eb.
  { apply map_eq. intros i. rewrite lookup_empty. destruct (buffer_ s !! i) as [b|] eqn:E; [|done].
    by rewrite <- (slot_GetPacket s i b Hs E), G. }
  assert (arrivals_ s = []) as Ea.
  { destruct (arrivals_ s) as [|x r] eqn:E; [done|]. exfalso.
    destruct (so_arrival s Hs x ltac:(rewrite E; set_solver)) as (b & Hb & _). by rewrite G in Hb. }
  split; [|split; [done|]].
  - repeat (split; [done|]). split; [rewrite (so_count s Hs), Eb; done|].
    split; [|done]. rewrite Hu. f_equal. 
    specialize (Hgl (c + Z.of_nat (length ps)) ltac:(apply Hgot; lia)). lia.
  - rewrite Hts. destruct (last ps) eqn:E; [done|]. apply last_None in E.
    subst. simpl in Hne. lia.
Qed.

(** The packets of an access unit arrive in any order, the first one first when it could
    begin a stream: all are taken, and the frames are those of the packets in order. *)
Theorem h264_any_order s c ps l :
  ready s c -> window_packets (config_ s) c ps ->
  calm (config_ s) ps (last_continuous_timestamp_ s) \/
    (forall x, head l = Some x -> fst (fst x) = c + 1) ->
  arrive (config_ s) c ps l ->
  exists s', insert_all s (untimed l) = Ret (s', snd (asm_run (config_ s) None (c + 1) ps), true) /\
    (ps <> [] -> fst (asm_run (config_ s) None (c + 1) ps) = None ->
     ready s' (c + Z.of_nat (length ps)) /\ config_ s' = config_ s /\
     last_continuous_timestamp_ s' = ptimestamp <$> last ps).
Proof.
  intros Hr (Hn & Hv & Hst) Hcalm Harr. pose proof Harr as [_ [t0 Ht]].
  destruct (window_insert_all (config_ s) c ps t0 (last_continuous_timestamp_ s) Hn Hv Hst l [] s [])
    as (s' & fs & E & Hinv).
  - by apply ready_window.
  - by eapply arrive_nodup.
  - destruct Hcalm; [by left|by right; right].
  - intros x Hx. rewrite Forall_forall in Ht. destruct (Ht x Hx).
    split; [set_solver|]. split; [by eapply arrive_elem|done].
  - simpl in Hinv. rewrite app_nil_r in Hinv.
    assert (forall q, q ∈ rev (map (fun x => fst (fst x)) l) <-> c < q <= c + Z.of_nat (length ps)) as Hgot.
    { intros q. rewrite list_elem_of_In, <- in_rev, <- list_elem_of_In. split.
      - intros (x & -> & Hx)%list_elem_of_fmap.
        pose proof (in_window_bounds c ps _ _ (arrive_elem _ _ _ _ _ Harr Hx)). lia.
      - by apply (arrive_all _ _ _ _ _ Harr). }
    destruct (window_complete _ _ _ _ _ _ _ _ Hinv) as [Hcore ->]; [intros q ?; by apply Hgot|].
    exists s'. split; [done|]. intros Hne Hnone.
    eapply window_ready; eauto. destruct ps; [done|simpl; lia].
Qed.

(** ** The first packet of a stream *)

(** Just before its packets are processed, a buffer that begins at [c + 1] holds only
    that packet. *)
Lemma begin_core cf c p0 rest t0 s :
  config_ s = cf -> sim s c None ->
  (forall r, pkt s r = if r =? c + 1 then Some p0 else None) ->
  seq_unwrapper_ s = mkUnwrapper true (c + 1) -> (forall x, x ∈ arrivals_ s -> t0 <= fst x) ->
  last_continuous_timestamp_ s = None ->
  win_core cf c (p0 :: rest) t0 None [c + 1] s 0.
Proof.
  intros Hcf Hsim Hp Hu Harr Hts. split; [done|]. split; [lia|]. rewrite Z.add_0_r.
  split; [done|]. split; [lia|]. split; [|split; [|split; [|done]]].
  - intros r b Hb. specialize (Hp r). unfold pkt in Hp. rewrite Hb in Hp.
    destruct (Z.eqb_spec r (c + 1)) as [->|]; [split; [lia|set_solver]|done].
  - intros r p Hr _ [_ Hin]. apply list_elem_of_singleton in Hr as ->. rewrite Hp, Z.eqb_refl.
    by replace (Z.to_nat (c + 1 - c - 1)) with 0%nat in Hin by lia.
  - exists (c + 1). split; [done|]. split; [simpl; lia|set_solver].
Qed.

(** A new buffer starts at a packet that can begin a stream. *)
Lemma first_packet c0 c p0 rest now t0 :
  0 <= max_frame_packets c0 -> t0 <= now -> is_u16 (c + 1) ->
  window_packets (init_config c0) c (p0 :: rest) ->
  BeginningOfStream (H264PacketBuffer c0) p0 = true ->
  exists s r, InsertPacket (H264PacketBuffer c0) p0 now = Ret (s, r) /\ inserted r = true /\
    win_inv (init_config c0) c (p0 :: rest) t0 None [c + 1] s (frames r).
Proof.
  intros Hm0 Ht0 Hc (Hn & Hv & Hst) Hbegin.
  destruct (fresh_buffer_ok c0 Hm0) as [[(Hs0 & Hm & _) _] _].
  destruct (Hv 0%nat p0 eq_refl) as (Hva & Hma & Hseq). rewrite Z.add_0_r, wrap_small in Hseq by done.
  set (s0 := H264PacketBuffer c0) in *. unfold InsertPacket. rewrite Hva, Hma, Hseq. cbn [negb orb].
  change (FlushExpired s0 now) with (Ret (s0, 0)). cbn [mbnd].
  change (Unwrap (seq_unwrapper_ s0) (c + 1)) with (mkUnwrapper true (c + 1), c + 1). cbn zeta iota.
  set (s1 := set_unwrapper s0 _). change (last_continuous_unwrapped_seq_ s1) with (@None Z). cbn iota.
  assert (buffer_ s1 !! BufferIndex (c + 1) = None) as Hslot by apply lookup_empty. rewrite Hslot.
  assert (store_ok s1) as Hs1 by (by eapply store_ok_ext; [..|exact Hs0]).
  destruct (stored s1 (c + 1) p0 now Hs1 Hslot) as (Hs2 & Hr2 & G). set (s2 := set_store _ _ _ _) in *.
  apply rest_fields in Hr2 as (Rc & Ru & Rl & Rlt & _).
  assert (GetPacket s2 (c + 1) = Some (mkBuffered (c + 1) p0 (now, c + 1))) as Gq
    by (rewrite G; by rewrite Z.eqb_refl).
  unfold FindFrames. rewrite Gq. unfold CanAdvanceFrom. rewrite Rl.
  change (last_continuous_unwrapped_seq_ s1) with (@None Z). cbn zeta iota.
  change (BeginningOfStream s2 (packet (mkBuffered (c + 1) p0 (now, c + 1))))
    with (BeginningOfStream s0 p0). rewrite Hbegin. cbn [negb].
  destruct (begin_sim s2 (c + 1) _ Hs2 ltac:(rewrite Rc; exact Hm) Gq)
    as (t & Et & Hsim & Kc & Ku & Ka & G3). rewrite Et. cbn [mbnd negb]. cbn zeta in *.
  set (s3 := set_waiting _ _) in *.
  assert (win_core (init_config c0) c (p0 :: rest) t0 None [c + 1] s3 0) as Hcore.
  { apply begin_core; [by rewrite Kc, Rc|by replace (c + 1 - 1) with c in Hsim by lia| |
      by rewrite Ku, Ru|intros x Hx%Ka; by apply list_elem_of_singleton in Hx as ->|].
    - intros r. unfold pkt. rewrite G3. destruct (Z.ltb_spec r (c + 1)).
      + by rewrite (proj2 (Z.eqb_neq _ _)) by lia.
      + rewrite G. destruct (_ =? _); [done|]. change (GetPacket s1 r) with (GetPacket s0 r).
        by rewrite empty_GetPacket.
    - change (last_continuous_timestamp_ s3) with (last_continuous_timestamp_ t).
      destruct (RemovePacketsBefore_removed s2 (c + 1) Hs2) as (t' & Et' & _ & [Rt _] & _).
      rewrite Et in Et'. injection Et' as <-. apply rest_fields in Rt as (_ & _ & _ & Rt & _).
      by rewrite Rt, Rlt. }
  destruct (window_loop (init_config c0) c (p0 :: rest) t0 None Hn [c + 1] s3 0 Hcore)
    as (s4 & fs & E & Hinv).
  rewrite Z.add_0_r in E. rewrite E. cbn [mbnd]. do 2 eexists. split; [reflexivity|]. by split.
Qed.

(** The packets of the first window, the beginning first and the others in any order. *)
Lemma first_window c0 c p0 rest now l :
  0 <= max_frame_packets c0 -> is_u16 (c + 1) ->
  window_packets (init_config c0) c (p0 :: rest) ->
  BeginningOfStream (H264PacketBuffer c0) p0 = true ->
  arrive (init_config c0) c (p0 :: rest) ((c + 1, p0, now) :: l) ->
  exists s, insert_all (H264PacketBuffer c0) (untimed ((c + 1, p0, now) :: l)) =
      Ret (s, snd (asm_run (init_config c0) None (c + 1) (p0 :: rest)), true) /\
    (fst (asm_run (init_config c0) None (c + 1) (p0 :: rest)) = None ->
     ready s (c + Z.of_nat (length (p0 :: rest))) /\ config_ s = init_config c0 /\
     last_continuous_timestamp_ s = ptimestamp <$> last (p0 :: rest)).
Proof.
  intros Hm Hc Hw Hb Harr. pose proof Harr as [_ [t0 Ht]]. apply Forall_cons in Ht as [[Ht0 _] Ht].
  simpl in Ht0. destruct (first_packet c0 c p0 rest now t0 Hm Ht0 Hc Hw Hb) as (s1 & r & E1 & Hins & Hinv1).
  pose proof (arrive_nodup _ _ _ _ Harr) as Hnd. simpl in Hnd. apply NoDup_cons in Hnd as [Hn1 Hnd].
  destruct Hw as (Hn & Hv & Hst).
  destruct (window_insert_all (init_config c0) c (p0 :: rest) t0 None Hn Hv Hst l [c + 1] s1 (frames r))
    as (s & fs & E & Hinv); [done|done|right; left; set_solver| |].
  { intros x Hx. rewrite Forall_forall in Ht. destruct (Ht x Hx). split.
    - intros Hx1%list_elem_of_singleton. apply Hn1. rewrite <- Hx1.
      by apply (list_elem_of_fmap_2 (fun x => fst (fst x))).
    - split; [|done]. apply (arrive_elem _ _ _ _ x Harr). set_solver. }
  assert (forall q, q ∈ rev (map (fun x => fst (fst x)) l) ++ [c + 1] <->
            c < q <= c + Z.of_nat (length (p0 :: rest))) as Hgot.
  { intros q. rewrite elem_of_app, list_elem_of_In, <- in_rev, <- list_elem_of_In, list_elem_of_singleton.
    split.
    - intros [(x & -> & Hx)%list_elem_of_fmap| ->]; [|simpl; lia].
      assert (x ∈ (c + 1, p0, now) :: l) as Hx' by set_solver.
      pose proof (in_window_bounds c (p0 :: rest) _ _ (arrive_elem _ _ _ _ _ Harr Hx')). lia.
    - intros Hq. pose proof (arrive_all _ _ _ _ _ Harr Hq) as Hin. simpl in Hin.
      apply elem_of_cons in Hin as [->|Hin]; [by right|by left]. }
  destruct (window_complete _ _ _ _ _ _ _ _ Hinv) as [Hcore Efs]; [intros q ?; by apply Hgot|].
  exists s. split.
  - unfold untimed in *. cbn [map insert_all fst snd]. rewrite E1. cbn [mbnd]. rewrite E. cbn [mbnd].
    by rewrite <- Efs, Hins.
  - intros Hnone. eapply window_ready; eauto. simpl. lia.
Qed.
