(* ===== verification/H264Sender.v ===== *)
(** * From a sender's access unit to the receiver's frame

    A sender splits an access unit into RTP packets as RFC 6184 describes; the parser,
    the packet buffer and its assembler give back one frame with the same NAL units,
    whatever the order in which the packets arrive. *)
From S2P Require Import Prelude Bytes H264 H264Buffer H264BufferInv H264Frames H264Delivery.

(** ** One access unit, in order *)

Lemma asm_run_open cf ps : forall q x ts,
  a_ts x = ts -> a_disc x = false ->
  Forall (fun p => ptimestamp p = ts /\ pmarker p = false) ps ->
  Z.of_nat (length (a_items x) + length ps) <= max_frame_packets cf ->
  asm_run cf (Some x) q ps = (Some (mkAsm ts false (a_items x ++ map Some ps)), []).
Proof.
  induction ps as [|p ps IH]; intros q x ts Hts Hd Hps Hlen; simpl.
  { rewrite app_nil_r. destruct x. simpl in *. by subst. }
  apply Forall_cons in Hps as [[Ht Hm] Hps]. unfold asm_step.
  rewrite Hts, Ht, Z.eqb_refl, Hm. cbn zeta. simpl in Hlen. rewrite Hd.
  assert ((max_frame_packets cf <? Z.of_nat (length (a_items x ++ [Some p]))) = false) as ->
    by (rewrite length_app; simpl; apply Z.ltb_ge; lia).
  cbn [orb]. rewrite (IH _ _ ts) by (simpl; auto; rewrite length_app; simpl; lia).
  simpl. by rewrite <- app_assoc.
Qed.

(** The packets of an access unit, the last one marked, give its frame. *)
Lemma asm_run_frame cf q ps p ts :
  Forall (fun p => ptimestamp p = ts /\ pmarker p = false) ps ->
  ptimestamp p = ts -> pmarker p = true ->
  Z.of_nat (length ps) + 1 <= max_frame_packets cf ->
  asm_run cf None q (ps ++ [p]) =
  (None, option_list (assemble cf q (q + Z.of_nat (length ps)) (map Some (ps ++ [p])))).
Proof.
  intros Hps Ht Hm Hlen.
  set (x := mkAsm ts false ([] : list (option H264ParsedPacket))).
  assert (asm_run cf None q (ps ++ [p]) = asm_run cf (Some x) q (ps ++ [p])) as ->.
  { destruct ps as [|p0 ps]; simpl; unfold asm_step; simpl.
    - by rewrite Ht, Z.eqb_refl.
    - apply Forall_cons in Hps as [[-> _] _]. by rewrite Z.eqb_refl. }
  rewrite asm_run_app, (asm_run_open cf ps q x ts) by (done || (simpl; lia)).
  simpl. unfold asm_step. simpl. rewrite Ht, Z.eqb_refl, Hm. cbn zeta. simpl.
  rewrite length_app, length_map. simpl.
  replace (Z.of_nat (length ps + 1)) with (Z.of_nat (length ps) + 1) by lia.
  rewrite (proj2 (Z.ltb_ge _ _)) by lia. cbn [orb]. rewrite map_app.
  replace (q + Z.of_nat (length ps) - (Z.of_nat (length ps) + 1) + 1) with q by lia.
  by rewrite app_nil_r.
Qed.

Lemma scan_units_app us vs saw :
  scan_units (us ++ vs) saw =
  match scan_units us saw with Some saw' => scan_units vs saw' | None => None end.
Proof.
  revert saw. induction us as [|u us IH]; intros saw; simpl; [done|].
  destruct (_ && _); [|apply IH]. destruct (first_slice u); [apply IH|done].
Qed.

Lemma Validate_app us vs fu :
  ValidatePacketUnits (us ++ vs) fu =
  match ValidatePacketUnits us fu with Some fu' => ValidatePacketUnits vs fu' | None => None end.
Proof.
  revert fu. induction us as [|u us IH]; intros fu; simpl; [done|].
  destruct (unit_type u); [done| | |].
  1,2: destruct fu; [done|]; destruct (udata u); [done|]; apply IH.
  destruct (udata u); [done|].
  destruct (if fu_start u then _ else _) as [h|]; [|done]. destruct (negb _); [done|apply IH].
Qed.

(** For packets of one stream and timestamp, the scan looks only at their units. *)
Lemma scan_packets_units ps : forall f fu saw,
  Forall (fun p => pssrc p = fssrc f /\ ptimestamp p = ftimestamp f) ps ->
  scan_packets (map Some ps) f fu saw =
  match scan_units (concat (map punits ps)) saw, ValidatePacketUnits (concat (map punits ps)) fu with
  | Some _, Some fu' => Some (foldl merge_packet f ps, fu')
  | _, _ => None
  end.
Proof.
  induction ps as [|p ps IH]; intros f fu saw Hps; simpl; [done|].
  apply Forall_cons in Hps as [[H1 H2] Hps]. rewrite H1, H2, !Z.eqb_refl. cbn [negb orb].
  rewrite scan_units_app, Validate_app.
  destruct (scan_units (punits p) saw) as [saw'|]; [|done].
  destruct (ValidatePacketUnits (punits p) fu) as [fu'|].
  - rewrite IH by done. done.
  - by destruct (scan_units _ saw').
Qed.

Lemma merge_fields ps : forall f,
  let g := foldl merge_packet f ps in
  fssrc g = fssrc f /\ ftimestamp g = ftimestamp f /\ first_seq g = first_seq f /\
  last_seq g = last_seq f /\ fmarker g = fmarker f /\ fbroken g = fbroken f /\
  fhas_idr g = fhas_idr f || existsb phas_idr ps /\
  fhas_sps g = fhas_sps f || existsb phas_sps ps /\
  fhas_pps g = fhas_pps f || existsb phas_pps ps.
Proof.
  induction ps as [|p ps IH]; intros f; simpl; [by rewrite !orb_false_r|].
  destruct (IH (merge_packet f p)) as (H1 & H2 & H3 & H4 & H5 & H6 & H7 & H8 & H9).
  rewrite H1, H2, H3, H4, H5, H6, H7, H8, H9. simpl. by rewrite !orb_assoc.
Qed.

(** ** What a sender makes of an access unit *)

(** A NAL unit in a packet of its own, several in one packet, or one in several. *)
Inductive au_item : Type :=
| ISingle (nalu : list Z)
| IStap (nri : Z) (ns : list (list Z))
| IFrag (header : Z) (first : list Z) (middle : list (list Z)) (final : list Z).

Definition item_nalus (it : au_item) : list (list Z) :=
  match it with
  | ISingle n => [n]
  | IStap _ ns => ns
  | IFrag h a ms z => [h :: a ++ concat ms ++ z]
  end.

Definition item_packets (it : au_item) : list rtp_unit :=
  match it with
  | ISingle n => [PkSingle n]
  | IStap nri ns => [PkStap nri ns]
  | IFrag h a ms z => PkFu h true false a :: map (PkFu h false false) ms ++ [PkFu h false true z]
  end.

Definition au_nalus (au : list au_item) : list (list Z) := concat (map item_nalus au).
Definition au_packets (au : list au_item) : list rtp_unit := concat (map item_packets au).

Definition au_ok (au : list au_item) : Prop := Forall rtp_unit_ok (au_packets au).

Definition nal_of (n : list Z) : Z := bget n 0 mod 32.

(** The first slice of the picture is the one that starts it. *)
Fixpoint pic_start (ns : list (list Z)) : bool :=
  match ns with
  | [] => true
  | n :: ns => if is_slice (nal_of n) then 128 <=? bget n 1 else pic_start ns
  end.

Definition units_in_items (au : list au_item) : list H264PayloadUnit :=
  concat (map units_of (au_packets au)).

Definition item_units (it : au_item) : list H264PayloadUnit := concat (map units_of (item_packets it)).

Lemma units_items au : units_in_items au = concat (map item_units au).
Proof.
  unfold units_in_items, au_packets, item_units.
  induction au as [|it au IH]; simpl; [done|]. by rewrite map_app, concat_app, IH.
Qed.

Lemma frag_units h a ms z :
  item_units (IFrag h a ms z) =
  fu_unit h true false a :: map (fu_unit h false false) ms ++ [fu_unit h false true z].
Proof.
  unfold item_units. simpl. f_equal. rewrite map_app, concat_app, map_map. simpl. f_equal.
  induction ms as [|m ms IH]; [done|]. simpl. by rewrite IH.
Qed.

(** Units of an item are valid from and to a state without an open fragment. *)
Lemma item_validates it :
  Forall rtp_unit_ok (item_packets it) -> ValidatePacketUnits (item_units it) None = Some None.
Proof.
  destruct it as [n|nri ns|h a ms z]; intros Hok.
  - apply Forall_cons in Hok as [(Hb & Hn & _) _]. simpl. by destruct n.
  - apply Forall_cons in Hok as [(_ & _ & Hns) _]. unfold item_units. simpl. rewrite app_nil_r.
    induction Hns as [|n ns [(_ & Hn & _) _] _ IH]; [done|]. simpl. by destruct n.
  - rewrite frag_units. simpl in Hok. apply Forall_cons in Hok as [(_ & _ & _ & Ha) Hok].
    apply Forall_app in Hok as [Hms Hz]. apply Forall_cons in Hz as [(_ & _ & _ & Hz) _].
    simpl. destruct a; [done|]. rewrite Z.eqb_refl. simpl.
    induction ms as [|m ms IH]; simpl.
    + destruct z; [done|]. by rewrite Z.eqb_refl.
    + apply Forall_cons in Hms as [(_ & _ & _ & Hm) Hms]. destruct m; [done|].
      rewrite Z.eqb_refl. simpl. by apply IH.
Qed.

Lemma frag_reassemble h ms z more : forall open,
  reassemble (map (fu_unit h false false) ms ++ [fu_unit h false true z] ++ more) open =
  (open ++ concat ms ++ z) :: reassemble more [].
Proof.
  induction ms as [|m ms IH]; intros open; simpl; [done|].
  rewrite IH. by rewrite <- !app_assoc.
Qed.

(** They reassemble to the NAL units of the item. *)
Lemma item_reassembles it more :
  reassemble (item_units it ++ more) [] = item_nalus it ++ reassemble more [].
Proof.
  destruct it as [n|nri ns|h a ms z].
  - done.
  - unfold item_units. simpl. rewrite app_nil_r.
    induction ns as [|n ns IH]; [done|]. simpl. by rewrite IH.
  - rewrite frag_units. cbn [app reassemble unit_type fu_unit fu_start fu_end udata
      reconstructed_nal_header item_nalus]. rewrite <- app_assoc, frag_reassemble.
    simpl. by rewrite <- ?app_assoc.
Qed.

Lemma scan_units_saw us : scan_units us true = Some true.
Proof. induction us; simpl; auto. Qed.

(** Slices before the one that starts the picture would make the scan fail. *)
Lemma nalus_scan ty ns more saw :
  Forall nalu_ok ns -> (saw = true \/ pic_start (ns ++ more) = true) ->
  exists saw', scan_units (map (nalu_unit ty) ns) saw = Some saw' /\
    (saw' = true \/ pic_start more = true).
Proof.
  intros Hns. revert saw. induction Hns as [|n ns _ Hns IH]; intros saw Hs; simpl; [by eauto|].
  destruct saw; simpl; [by rewrite scan_units_saw; eauto|].
  destruct Hs as [|Hs]; [done|]. simpl in Hs. unfold nal_of in Hs.
  unfold slice_bit. destruct (is_slice (bget n 0 mod 32)); simpl.
  - rewrite Hs, scan_units_saw. eauto.
  - by apply IH; right.
Qed.

Lemma item_scan it more saw :
  Forall rtp_unit_ok (item_packets it) ->
  (saw = true \/ pic_start (item_nalus it ++ more) = true) ->
  exists saw', scan_units (item_units it) saw = Some saw' /\ (saw' = true \/ pic_start more = true).
Proof.
  intros Hok Hs. destruct saw; [rewrite scan_units_saw; eauto|]. destruct Hs as [|Hs]; [done|].
  destruct it as [n|nri ns|h a ms z].
  - apply Forall_cons in Hok as [Hn _]. apply (nalus_scan SingleNalu [n]); [by constructor|by right].
  - apply Forall_cons in Hok as [(_ & _ & Hns) _]. unfold item_units. simpl. rewrite app_nil_r.
    apply nalus_scan; [|by right]. eapply Forall_impl; [exact Hns|]. by intros ? [? _].
  - rewrite frag_units. simpl in Hs. unfold nal_of in Hs. change (bget (h :: _) 0) with h in Hs.
    apply Forall_cons in Hok as [(_ & _ & _ & Ha) _].
    simpl. unfold slice_bit. destruct (is_slice (h mod 32)) eqn:Esl; simpl.
    + destruct a as [|x a]; [done|]. change (bget (h :: _) 1) with x in Hs.
      change (bget (x :: a) 0) with x. rewrite Hs, scan_units_saw. eauto.
    + exists false. split; [|by right]. clear Ha Hs.
      induction ms as [|m ms IH]; simpl; by rewrite Esl.
Qed.

Lemma items_scan au : forall saw,
  au_ok au -> (saw = true \/ pic_start (au_nalus au) = true) ->
  is_Some (scan_units (units_in_items au) saw).
Proof.
  unfold au_ok, au_packets, au_nalus. rewrite units_items.
  induction au as [|it au IH]; intros saw Hok Hs; simpl; [by eexists|].
  simpl in Hok. apply Forall_app in Hok as [H1 H2].
  destruct (item_scan it (concat (map item_nalus au)) saw H1 Hs) as (saw' & E & Hs').
  rewrite scan_units_app, E. by apply IH.
Qed.

Lemma items_validate au : au_ok au -> ValidatePacketUnits (units_in_items au) None = Some None.
Proof.
  unfold au_ok, au_packets. rewrite units_items. induction au as [|it au IH]; [done|]. simpl.
  intros [H1 H2]%Forall_app. rewrite Validate_app, item_validates by done. by apply IH.
Qed.

Lemma items_reassemble au : reassemble (units_in_items au) [] = au_nalus au.
Proof.
  rewrite units_items. unfold au_nalus. induction au as [|it au IH]; [done|]. simpl.
  by rewrite item_reassembles, IH.
Qed.

(** A flag of the units is the flag of the NAL units' types. *)
Lemma items_flag (fl : H264PayloadUnit -> bool) (g : Z -> bool) au :
  (forall ty n, fl (nalu_unit ty n) = g (nal_of n)) ->
  (forall h s e c, fl (fu_unit h s e c) = g (h mod 32)) ->
  existsb fl (units_in_items au) = existsb (fun n => g (nal_of n)) (au_nalus au).
Proof.
  intros Hn Hf. rewrite units_items. unfold au_nalus.
  induction au as [|it au IH]; [done|]. simpl. rewrite !existsb_app, IH. f_equal. clear IH.
  assert (forall ty ns, existsb fl (map (nalu_unit ty) ns) = existsb (fun n => g (nal_of n)) ns) as Hns.
  { intros ty ns. induction ns as [|n ns IH]; [done|]. simpl. by rewrite Hn, IH. }
  destruct it as [n|nri ns|h a ms z].
  - apply (Hns SingleNalu [n]).
  - unfold item_units. simpl. rewrite app_nil_r. apply Hns.
  - rewrite frag_units. simpl. rewrite Hf, existsb_app. simpl. rewrite Hf, !orb_false_r.
    unfold nal_of. change (bget (h :: _) 0) with h. destruct (g (h mod 32)) eqn:E; [done|]. simpl.
    induction ms as [|m ms IH]; simpl; [done|]. by rewrite Hf, E.
Qed.

(** ** The packets of an access unit *)

(** The RTP packet number [i] of [n] from [c + 1] on, [rt] its receive time. *)
Definition au_view (ssrc ts c : Z) (rt : nat -> Z) (n i : nat) (pk : rtp_unit) : RtpView :=
  mkView (u16 (c + 1 + Z.of_nat i)) ts (S i =? n)%nat (Some (packet_bytes pk)) ssrc (rt i).

Definition send (ssrc ts c : Z) (rt : nat -> Z) (au : list au_item) : list RtpView :=
  imap (au_view ssrc ts c rt (length (au_packets au))) (au_packets au).

Definition received (ssrc ts c : Z) (rt : nat -> Z) (au : list au_item) : list H264ParsedPacket :=
  imap (fun i pk => parsed_of (au_view ssrc ts c rt (length (au_packets au)) i pk) pk) (au_packets au).

Section AccessUnit.
Context (ssrc ts c : Z) (rt : nat -> Z) (au : list au_item).
Let ps := received ssrc ts c rt au.
Let n := length (au_packets au).

Lemma received_length : length ps = n.
Proof. apply length_imap. Qed.

Lemma received_lookup i p :
  ps !! i = Some p -> exists pk, au_packets au !! i = Some pk /\
    p = parsed_of (au_view ssrc ts c rt n i pk) pk.
Proof. unfold ps, received. rewrite list_lookup_imap. intros (pk & -> & ->)%fmap_Some. eauto. Qed.

Lemma received_units : concat (map punits ps) = units_in_items au.
Proof.
  unfold units_in_items, ps, received. f_equal.
  change (map punits (imap ?f ?l)) with (punits <$> imap f l). rewrite fmap_imap.
  change (map units_of ?l) with (units_of <$> l). rewrite <- imap_const. by apply imap_ext.
Qed.

Lemma received_flag (fp : H264ParsedPacket -> bool) (fl : H264PayloadUnit -> bool) :
  (forall v pk, fp (parsed_of v pk) = existsb fl (units_of pk)) ->
  existsb fp ps = existsb fl (units_in_items au).
Proof.
  intros H. rewrite <- received_units.
  assert (forall p, p ∈ ps -> fp p = existsb fl (punits p)) as Hp.
  { intros p [i Hi]%list_elem_of_lookup. destruct (received_lookup i p Hi) as (pk & _ & ->).
    apply H. }
  induction ps as [|p l IH]; [done|]. simpl. rewrite existsb_app, Hp, IH by set_solver. done.
Qed.

Lemma received_window cf : Z.of_nat n <= 2048 -> window_packets cf c ps.
Proof.
  intros Hn. split; [by rewrite received_length|]. split.
  - intros i p Hi. destruct (received_lookup i p Hi) as (pk & _ & ->). done.
  - intros p [i Hi]%list_elem_of_lookup s _ _ p' [j Hj]%list_elem_of_lookup.
    destruct (received_lookup i p Hi) as (pk & _ & ->).
    by destruct (received_lookup j p' Hj) as (pk' & _ & ->).
Qed.

(** The last packet carries the marker. *)
Lemma received_snoc :
  (0 < n)%nat -> exists ps' p, ps = ps' ++ [p] /\ ptimestamp p = ts /\ pmarker p = true /\
    Forall (fun p => ptimestamp p = ts /\ pmarker p = false) ps' /\ S (length ps') = n.
Proof.
  intros Hn. destruct (exists_last (l := ps)) as (ps' & p & E).
  { intros E. pose proof received_length as L. rewrite E in L. simpl in L. lia. }
  pose proof received_length as L. rewrite E, length_app in L. simpl in L.
  exists ps', p. split; [done|].
  assert (ps !! length ps' = Some p) as Hp by (rewrite E; apply list_lookup_middle; done).
  destruct (received_lookup _ _ Hp) as (pk & _ & ->). split; [done|].
  split; [apply (proj2 (Nat.eqb_eq (S (length ps')) n)); lia|]. split; [|lia].
  apply Forall_forall. intros p' [i Hi]%list_elem_of_lookup.
  pose proof (lookup_lt_Some _ _ _ Hi).
  assert (ps !! i = Some p') as Hi' by (rewrite E; by apply lookup_app_l_Some).
  destruct (received_lookup _ _ Hi') as (pk' & _ & ->). split; [done|].
  apply (proj2 (Nat.eqb_neq (S i) n)). lia.
Qed.

(** What the frame must be. *)
Definition au_frame (f : H264AccessUnit) : Prop :=
  fnalus f = au_nalus au /\ fssrc f = ssrc /\ ftimestamp f = ts /\
  first_seq f = u16 (c + 1) /\ last_seq f = u16 (c + Z.of_nat n) /\
  fcomplete f = true /\ fbroken f = false /\ fmarker f = true /\
  fhas_idr f = existsb (fun x => nal_of x =? nal_Idr) (au_nalus au) /\
  fhas_sps f = existsb (fun x => nal_of x =? nal_Sps) (au_nalus au) /\
  fhas_pps f = existsb (fun x => nal_of x =? nal_Pps) (au_nalus au).

Lemma au_assembles cf :
  au_ok au -> au_nalus au <> [] -> pic_start (au_nalus au) = true ->
  Z.of_nat n <= max_frame_packets cf -> idr_only_keyframes_allowed cf = true ->
  exists f, asm_run cf None (c + 1) ps = (None, [f]) /\ au_frame f.
Proof.
  intros Hok Hne Hpic Hmax Hidr.
  assert (0 < n)%nat as Hn.
  { unfold n. destruct (au_packets au) eqn:E; [|simpl; lia]. exfalso. apply Hne.
    rewrite <- items_reassemble. unfold units_in_items. by rewrite E. }
  destruct (received_snoc Hn) as (ps' & p & Eps & Ht & Hm & Hps' & Hlen).
  rewrite Eps, (asm_run_frame cf (c + 1) ps' p ts) by (done || lia). rewrite <- Eps.
  assert (Forall (fun p => pssrc p = ssrc /\ ptimestamp p = ts) ps) as Hall.
  { apply Forall_forall. intros x [i Hi]%list_elem_of_lookup.
    by destruct (received_lookup i x Hi) as (pk & _ & ->). }
  set (en := c + 1 + Z.of_nat (length ps')).
  assert (exists p0, assemble cf (c + 1) en (map Some ps) = assemble_from cf p0 (c + 1) en (map Some ps) /\
    pssrc p0 = ssrc /\ ptimestamp p0 = ts) as (p0 & -> & Hs0 & Ht0).
  { destruct ps as [|p0 l]; [by destruct ps'|]. exists p0. apply Forall_cons in Hall as [Hp0 _]. done. }
  unfold assemble_from. rewrite scan_packets_units.
  2: { eapply Forall_impl; [exact Hall|]. simpl. by rewrite Hs0, Ht0. }
  rewrite received_units, units_in_some, received_units.
  destruct (items_scan au false Hok ltac:(by right)) as [saw ->].
  rewrite items_validate, Hidr, andb_false_r, items_reassemble by done. simpl.
  destruct (au_nalus au) as [|x ns] eqn:En; [done|]. rewrite <- En. simpl.
  eexists. split; [reflexivity|].
  destruct (merge_fields ps (frame0 p0 (c + 1) en)) as (H1 & H2 & H3 & H4 & H5 & H6 & H7 & H8 & H9).
  unfold au_frame. cbn [complete_frame fnalus fssrc ftimestamp first_seq last_seq fcomplete fbroken
    fmarker fhas_idr fhas_sps fhas_pps]. rewrite H1, H2, H3, H4, H5, H6, H7, H8, H9. simpl.
  repeat (split; [done|]). split; [unfold en; f_equal; lia|]. repeat (split; [done|]).
  split; [|split].
  - rewrite (received_flag phas_idr is_idr) by done. by apply (items_flag is_idr (fun t => t =? nal_Idr)).
  - rewrite (received_flag phas_sps is_sps) by done. by apply (items_flag is_sps (fun t => t =? nal_Sps)).
  - rewrite (received_flag phas_pps is_pps) by done. by apply (items_flag is_pps (fun t => t =? nal_Pps)).
Qed.

End AccessUnit.
