(* ===== verification/H264Params.v ===== *)
(** * H.264 parameter sets

    Models [Common/Depacketizer/H264ParameterSetTracker.h] and [.cpp]: removal of
    emulation prevention bytes, the bit reader with Exp-Golomb codes, the parsers of
    sequence and picture parameter sets, and the tracker that keeps the latest ones.

    Parameter sets come from the network, so the parsers are proved to read in bounds
    and to end on any bytes.  Arithmetic on [int] that leaves the 32-bit range is
    undefined in C++ and a [Fault] here; [sps_scaling_overflow] gives a sequence
    parameter set that reaches one. *)
From S2P Require Import Prelude Bytes H264.

(** ** NaluToRbsp *)

Fixpoint rbsp_loop (l : list Z) (zero_count : Z) : list Z :=
  match l with
  | [] => []
  | value :: l =>
    if (2 <=? zero_count) && (value =? 0x03) then rbsp_loop l 0
    else value :: rbsp_loop l (if value =? 0 then zero_count + 1 else 0)
  end.

Definition NaluToRbsp (nalu : cbuf) : list Z :=
  match nalu with
  | None => []
  | Some b => if blen b <? 2 then [] else rbsp_loop (drop 1 b) 0
  end.

(** ** BitReader

    A read that fails returns [None]; its caller gives up, so the reader is not used
    again. *)
Record BitReader : Type := mkReader {
  data_ : list Z;
  bit_offset_ : Z }.

Definition read (A : Type) : Type := mres (option (A * BitReader)).

Definition rbind {A B} (m : read A) (k : A -> BitReader -> mres (option B)) : mres (option B) :=
  let! r := m in match r with Some (a, rd) => k a rd | None => Ret None end.

Notation "'read!' x , r ':=' m 'in' k" := (rbind m (fun x r => k))
  (at level 10, x name, r name, m at level 100, k at level 200) : mres_scope.

Fixpoint bits_loop (n : nat) (r : BitReader) (value : Z) : mres (Z * BitReader) :=
  match n with
  | O => Ret (value, r)
  | S n =>
    let! byte := rd (data_ r) (bit_offset_ r / 8) in
    bits_loop n (mkReader (data_ r) (bit_offset_ r + 1))
      (u32 (Z.lor (Z.shiftl value 1) (Z.land (Z.shiftr byte (7 - bit_offset_ r mod 8)) 1)))
  end.

Definition ReadBits (r : BitReader) (count : Z) : read Z :=
  if (32 <? count) || (blen (data_ r) * 8 <? bit_offset_ r + count) then Ret None else
  let! x := bits_loop (Z.to_nat count) r 0 in Ret (Some x).

Definition ReadBit (r : BitReader) : read bool :=
  read! bit, r := ReadBits r 1 in Ret (Some (negb (bit =? 0), r)).

(** The [while (true)] that counts leading zeros. *)
Fixpoint ue_zeros (fuel : nat) (r : BitReader) (zeros : Z) : read Z :=
  match fuel with
  | O => NoFuel
  | S fuel =>
    read! bit, r := ReadBit r in
    if bit then Ret (Some (zeros, r)) else
    if 31 <? zeros + 1 then Ret None else ue_zeros fuel r (zeros + 1)
  end.

Definition ReadUE (r : BitReader) : read Z :=
  read! zeros, r := ue_zeros 33 r 0 in
  if zeros =? 0 then Ret (Some (u32 (u64 (Z.shiftl 1 zeros - 1 + 0)), r)) else
  read! suffix, r := ReadBits r zeros in
  Ret (Some (u32 (u64 (Z.shiftl 1 zeros - 1 + suffix)), r)).

Definition ReadSE (r : BitReader) : read Z :=
  read! code, r := ReadUE r in
  Ret (Some (if negb (Z.land code 1 =? 0) then s32 (u32 (code + 1) / 2) else - s32 (code / 2), r)).

(** ** Parameter sets *)

(** [int] arithmetic. *)
Definition int_result (x : Z) : mres Z :=
  if (- 2 ^ 31 <=? x) && (x <? 2 ^ 31) then Ret x else Fault.

Fixpoint scaling_loop (n : nat) (r : BitReader) (last_scale next_scale : Z) : read unit :=
  match n with
  | O => Ret (Some (tt, r))
  | S n =>
    if negb (next_scale =? 0) then
      read! delta, r := ReadSE r in
      let! x := int_result (last_scale + delta) in
      let! x := int_result (x + 256) in
      let next_scale := Z.rem x 256 in
      scaling_loop n r (if next_scale =? 0 then last_scale else next_scale) next_scale
    else scaling_loop n r (if next_scale =? 0 then last_scale else next_scale) next_scale
  end.

Definition SkipScalingList (r : BitReader) (size : Z) : read unit :=
  scaling_loop (Z.to_nat size) r 8 8.

Definition IsHighProfile (profile : Z) : bool :=
  existsb (Z.eqb profile) [44; 83; 86; 100; 110; 118; 122; 128; 134; 135; 138; 139; 144; 244].

Record SpsInfo : Type := mkSps {
  sps_id : Z;
  swidth : Z;
  sheight : Z;
  spayload : list Z }.

Record PpsInfo : Type := mkPps {
  pps_id : Z;
  pps_sps_id : Z;
  ppayload : list Z }.

(** The loop over the scaling lists, list [i] next, [n] left. *)
Fixpoint scaling_lists (n : nat) (i : Z) (r : BitReader) : read unit :=
  match n with
  | O => Ret (Some (tt, r))
  | S n =>
    read! present, r := ReadBit r in
    if present then
      read! _u, r := SkipScalingList r (if i <? 6 then 16 else 64) in
      scaling_lists n (i + 1) r
    else scaling_lists n (i + 1) r
  end.

(** The high-profile part: chroma format and whether the planes are separate. *)
Definition ParseChroma (r : BitReader) : read (Z * bool) :=
  read! chroma_format, r := ReadUE r in
  if 3 <? chroma_format then Ret None else
  read! separate, r := (if chroma_format =? 3 then ReadBit r else Ret (Some (false, r))) in
  read! _luma, r := ReadUE r in
  read! _chroma, r := ReadUE r in
  read! _bypass, r := ReadBit r in
  read! scaling_present, r := ReadBit r in
  if scaling_present then
    read! _u, r := scaling_lists (Z.to_nat (if chroma_format =? 3 then 12 else 8)) 0 r in
    Ret (Some ((chroma_format, separate), r))
  else Ret (Some ((chroma_format, separate), r)).

(** [for (i = 0; i < cycle; ++i) ReadSE]: every round reads at least a bit, so the bits
    of the data bound the rounds. *)
Fixpoint poc_cycle (fuel : nat) (i cycle : Z) (r : BitReader) : read unit :=
  if negb (i <? cycle) then Ret (Some (tt, r)) else
  match fuel with
  | O => NoFuel
  | S fuel => read! _o, r := ReadSE r in poc_cycle fuel (i + 1) cycle r
  end.

Definition ParsePoc (r : BitReader) : read unit :=
  read! _log2, r := ReadUE r in
  read! poc_type, r := ReadUE r in
  if poc_type =? 0 then read! _v, r := ReadUE r in Ret (Some (tt, r))
  else if poc_type =? 1 then
    read! _z, r := ReadBit r in
    read! _o1, r := ReadSE r in
    read! _o2, r := ReadSE r in
    read! cycle, r := ReadUE r in
    poc_cycle (Z.to_nat (blen (data_ r) * 8)) 0 cycle r
  else if 2 <? poc_type then Ret None
  else Ret (Some (tt, r)).

(** Width and height from the fields read. *)
Definition sps_size (chroma_format : Z) (separate : bool) (width_mbs height_map_units : Z)
    (frame_mbs_only : bool) (left right top bottom : Z) : option (Z * Z) :=
  let fmo := if frame_mbs_only then 1 else 0 in
  let chroma_array := if separate then 0 else chroma_format in
  let sub_width := if (chroma_array =? 1) || (chroma_array =? 2) then 2 else 1 in
  let sub_height := if chroma_array =? 1 then 2 else 1 in
  let crop_x := if chroma_array =? 0 then 1 else sub_width in
  let crop_y := u32 ((if chroma_array =? 0 then 1 else sub_height) * u32 (2 - fmo)) in
  let coded_width := u64 ((width_mbs + 1) * 16) in
  let coded_height := u64 (u64 (2 - fmo) * (height_map_units + 1) * 16) in
  let crop_width := u64 (crop_x * u32 (left + right)) in
  let crop_height := u64 (crop_y * u32 (top + bottom)) in
  if (coded_width <=? crop_width) || (coded_height <=? crop_height) ||
     (2 ^ 31 - 1 <? coded_width) || (2 ^ 31 - 1 <? coded_height) then None
  else Some (s32 (u64 (coded_width - crop_width)), s32 (u64 (coded_height - crop_height))).

(** The fields of the sequence parameter set [b], from its first bit on. *)
Definition ParseSpsFields (b : list Z) (r : BitReader) : mres (option SpsInfo) :=
  read! profile, r := ReadBits r 8 in
  read! _ignored, r := ReadBits r 8 in
  read! _level, r := ReadBits r 8 in
  read! id, r := ReadUE r in
  read! chroma, r := (if IsHighProfile profile then ParseChroma r
                      else Ret (Some ((1, false), r))) in
  read! _poc, r := ParsePoc r in
  read! _max_refs, r := ReadUE r in
  read! _gaps, r := ReadBit r in
  read! width_mbs, r := ReadUE r in
  read! height_map_units, r := ReadUE r in
  read! frame_mbs_only, r := ReadBit r in
  read! _adaptive, r := (if frame_mbs_only then Ret (Some (false, r)) else ReadBit r) in
  read! _direct, r := ReadBit r in
  read! crop, r := ReadBit r in
  read! left, r := (if crop : bool then ReadUE r else Ret (Some (0, r))) in
  read! right, r := (if crop : bool then ReadUE r else Ret (Some (0, r))) in
  read! top, r := (if crop : bool then ReadUE r else Ret (Some (0, r))) in
  read! bottom, r := (if crop : bool then ReadUE r else Ret (Some (0, r))) in
  match sps_size (fst chroma) (snd chroma) width_mbs height_map_units frame_mbs_only
          left right top bottom with
  | None => Ret None
  | Some (w, h) => Ret (Some (mkSps id w h b))
  end.

Definition ParseSps (nalu : cbuf) : mres (option SpsInfo) :=
  match nalu with
  | None => Ret None
  | Some b =>
    if blen b <? 4 then Ret None else
    let! h := rd b 0 in
    if negb (H264GetNalType h =? 7) then Ret None else
    ParseSpsFields b (mkReader (NaluToRbsp nalu) 0)
  end.

Definition ParsePps (nalu : cbuf) : mres (option PpsInfo) :=
  match nalu with
  | None => Ret None
  | Some b =>
    if blen b <? 2 then Ret None else
    let! h := rd b 0 in
    if negb (H264GetNalType h =? 8) then Ret None else
    let r := mkReader (NaluToRbsp nalu) 0 in
    read! id, r := ReadUE r in
    read! sps, r := ReadUE r in
    Ret (Some (mkPps id sps b))
  end.

(** ** H264ParameterSetTracker *)

Record Tracker : Type := mkTracker {
  sps_by_id_ : gmap Z SpsInfo;
  pps_by_id_ : gmap Z PpsInfo;
  latest_sps_id_ : Z;
  latest_pps_id_ : Z;
  has_latest_sps_ : bool;
  has_latest_pps_ : bool }.

Definition new_tracker : Tracker := mkTracker ∅ ∅ 0 0 false false.

Definition UpdateSps (t : Tracker) (nalu : cbuf) : mres (Tracker * bool) :=
  let! info := ParseSps nalu in
  match info with
  | None => Ret (t, false)
  | Some info =>
    Ret (mkTracker (<[sps_id info := info]> (sps_by_id_ t)) (pps_by_id_ t) (sps_id info)
           (latest_pps_id_ t) true (has_latest_pps_ t), true)
  end.

Definition UpdatePps (t : Tracker) (nalu : cbuf) : mres (Tracker * bool) :=
  let! info := ParsePps nalu in
  match info with
  | None => Ret (t, false)
  | Some info =>
    Ret (mkTracker (sps_by_id_ t) (<[pps_id info := info]> (pps_by_id_ t)) (latest_sps_id_ t)
           (pps_id info) (has_latest_sps_ t) true, true)
  end.

(** One round of the loop of [UpdateAccessUnit]. *)
Definition update_nalu (t : Tracker) (updated : bool) (nalu : list Z) : mres (Tracker * bool) :=
  match nalu with
  | [] => Ret (t, updated)
  | h :: _ =>
    let type := H264GetNalType h in
    if type =? 7 then let! '(t, ok) := UpdateSps t (Some nalu) in Ret (t, ok || updated)
    else if type =? 8 then let! '(t, ok) := UpdatePps t (Some nalu) in Ret (t, ok || updated)
    else Ret (t, updated)
  end.

Fixpoint update_nalus (t : Tracker) (updated : bool) (ns : list (list Z)) : mres (Tracker * bool) :=
  match ns with
  | [] => Ret (t, updated)
  | n :: ns => let! '(t, updated) := update_nalu t updated n in update_nalus t updated ns
  end.

Definition UpdateAccessUnit (t : Tracker) (frame : H264AccessUnit) : mres (Tracker * bool) :=
  update_nalus t false (fnalus frame).

Definition GetSps (t : Tracker) (id : Z) : option SpsInfo := sps_by_id_ t !! id.
Definition GetPps (t : Tracker) (id : Z) : option PpsInfo := pps_by_id_ t !! id.

Definition LatestSps (t : Tracker) : option SpsInfo :=
  if has_latest_sps_ t then GetSps t (latest_sps_id_ t) else None.
Definition LatestPps (t : Tracker) : option PpsInfo :=
  if has_latest_pps_ t then GetPps t (latest_pps_id_ t) else None.

Definition Tracker_Reset (t : Tracker) : Tracker :=
  mkTracker ∅ ∅ (latest_sps_id_ t) (latest_pps_id_ t) false false.

(** ** Bits *)

(** Bit [k] of a byte sequence, most significant first. *)
Definition bit_at (b : list Z) (k : Z) : bool := Z.testbit (bget b (k / 8)) (7 - k mod 8).

(** The bits still to be read. *)
Definition rbits (r : BitReader) : list bool :=
  map (bit_at (data_ r)) (seqZ (bit_offset_ r) (blen (data_ r) * 8 - bit_offset_ r)).

Definition reader_ok (r : BitReader) : Prop :=
  bytes_ok (data_ r) /\ 0 <= bit_offset_ r <= blen (data_ r) * 8.

(** The number the bits [l] write, after [v]. *)
Definition bval (v : Z) (l : list bool) : Z := foldl (fun v b => 2 * v + Z.b2z b) v l.

Lemma bval_range l : forall v, 0 <= v ->
  v * 2 ^ Z.of_nat (length l) <= bval v l < (v + 1) * 2 ^ Z.of_nat (length l).
Proof.
  induction l as [|b l IH]; intros v Hv; simpl length; simpl bval.
  { simpl. lia. }
  specialize (IH (2 * v + Z.b2z b) ltac:(destruct b; simpl; lia)).
  rewrite Nat2Z.inj_succ, Z.pow_succ_r by lia. destruct b; simpl Z.b2z in *; nia.
Qed.

Lemma bval_zero_range l : 0 <= bval 0 l < 2 ^ Z.of_nat (length l).
Proof. pose proof (bval_range l 0). lia. Qed.

Definition skip (r : BitReader) (n : Z) : BitReader := mkReader (data_ r) (bit_offset_ r + n).

Lemma skip_skip r a b : skip (skip r a) b = skip r (a + b).
Proof. unfold skip. simpl. by rewrite Z.add_assoc. Qed.

Lemma rbits_length r : reader_ok r -> Z.of_nat (length (rbits r)) = blen (data_ r) * 8 - bit_offset_ r.
Proof. intros [_ H]. unfold rbits. rewrite length_map, length_seqZ. lia. Qed.

Lemma rbits_cons r x l : reader_ok r -> rbits r = x :: l ->
  bit_offset_ r < blen (data_ r) * 8 /\ x = bit_at (data_ r) (bit_offset_ r) /\
  rbits (skip r 1) = l /\ reader_ok (skip r 1).
Proof.
  intros Hr E. pose proof (rbits_length r Hr) as L. rewrite E in L. simpl in L.
  assert (bit_offset_ r < blen (data_ r) * 8) as Hlt by lia. split; [done|].
  unfold rbits in E. rewrite seqZ_cons in E by lia. simpl in E. injection E as <- <-.
  split; [done|]. split.
  - unfold rbits. simpl. f_equal. f_equal; lia.
  - destruct Hr. split; simpl; [done|lia].
Qed.

Lemma rbits_skip r n : reader_ok r -> (n <= length (rbits r))%nat ->
  reader_ok (skip r (Z.of_nat n)) /\ rbits (skip r (Z.of_nat n)) = drop n (rbits r).
Proof.
  revert r. induction n as [|n IH]; intros r Hr Hn.
  { unfold skip. rewrite Z.add_0_r. destruct r. done. }
  destruct (rbits r) as [|x l] eqn:E; [simpl in Hn; lia|].
  destruct (rbits_cons r x l Hr E) as (_ & _ & E1 & Hr1).
  destruct (IH (skip r 1) Hr1) as [H1 H2]; [rewrite E1; simpl in Hn; lia|].
  rewrite skip_skip in H1, H2. replace (Z.of_nat (S n)) with (1 + Z.of_nat n) by lia.
  split; [done|]. by rewrite H2, E1.
Qed.

Lemma land_one_bit x k : 0 <= k -> Z.land (Z.shiftr x k) 1 = Z.b2z (Z.testbit x k).
Proof.
  intros Hk. change 1 with (Z.ones 1). rewrite Z.land_ones by lia.
  change (2 ^ 1) with 2. rewrite <- Z.bit0_mod. by rewrite Z.shiftr_spec, Z.add_0_l.
Qed.

Lemma bits_loop_ok n : forall r v,
  reader_ok r -> (n <= length (rbits r))%nat -> 0 <= v -> v * 2 ^ Z.of_nat n + 2 ^ Z.of_nat n <= 2 ^ 32 ->
  bits_loop n r v = Ret (bval v (take n (rbits r)), skip r (Z.of_nat n)).
Proof.
  induction n as [|n IH]; intros r v Hr Hn Hv Hb; simpl bits_loop.
  { unfold skip. rewrite Z.add_0_r, take_0. by destruct r. }
  destruct (rbits r) as [|x l] eqn:E; [simpl in Hn; lia|].
  destruct (rbits_cons r x l Hr E) as (Hlt & Ex & E1 & Hr1). destruct Hr as [Hd Ho].
  rewrite Nat2Z.inj_succ, Z.pow_succ_r in Hb by lia.
  pose proof (Z.pow_pos_nonneg 2 (Z.of_nat n) ltac:(lia) ltac:(lia)).
  rewrite rd_ok by (split; [apply Z.div_pos; lia|apply Z.div_lt_upper_bound; lia]).
  cbn [mbnd]. pose proof (Z.mod_pos_bound (bit_offset_ r) 8 ltac:(lia)).
  rewrite land_one_bit by lia. fold (bit_at (data_ r) (bit_offset_ r)). rewrite <- Ex.
  change (mkReader (data_ r) (bit_offset_ r + 1)) with (skip r 1).
  assert (0 <= Z.b2z x <= 1) by (destruct x; simpl; lia).
  rewrite lor_shiftl_add by (change (2 ^ 1) with 2; lia).
  change (2 ^ 1) with 2. rewrite wrap_small by (unfold is_u; nia).
  rewrite IH; [|done|rewrite E1; simpl in Hn; lia|lia|nia].
  rewrite E1, skip_skip. simpl. do 3 f_equal; [lia|]. f_equal. lia.
Qed.

Lemma ReadBits_ok r n :
  reader_ok r -> 0 <= n <= 32 -> n <= Z.of_nat (length (rbits r)) ->
  ReadBits r n = Ret (Some (bval 0 (take (Z.to_nat n) (rbits r)), skip r n)).
Proof.
  intros Hr Hn Hl. unfold ReadBits. pose proof (rbits_length r Hr) as L. rewrite L in Hl.
  rewrite (proj2 (Z.ltb_ge 32 n)), (proj2 (Z.ltb_ge _ _)) by lia. cbn [orb].
  rewrite bits_loop_ok; [|done|lia|lia|].
  - cbn [mbnd]. by rewrite Z2Nat.id by lia.
  - rewrite Z.mul_0_l, Z.add_0_l, Z2Nat.id by lia. apply Z.pow_le_mono_r; lia.
Qed.

Lemma ReadBits_none r n :
  reader_ok r -> 32 < n \/ Z.of_nat (length (rbits r)) < n -> ReadBits r n = Ret None.
Proof.
  intros Hr Hn. unfold ReadBits. pose proof (rbits_length r Hr) as L.
  destruct (Z.ltb_spec 32 n); [done|]. by rewrite (proj2 (Z.ltb_lt _ _)) by lia.
Qed.

Lemma ReadBit_cons r x l :
  reader_ok r -> rbits r = x :: l -> ReadBit r = Ret (Some (x, skip r 1)).
Proof.
  intros Hr E. unfold ReadBit. rewrite ReadBits_ok by (auto; rewrite ?E; simpl; lia).
  rewrite E. simpl. by destruct x.
Qed.

Lemma ReadBit_nil r : reader_ok r -> rbits r = [] -> ReadBit r = Ret None.
Proof. intros Hr E. unfold ReadBit. by rewrite ReadBits_none by (auto; rewrite ?E; simpl; lia). Qed.

(** ** Reading arbitrary data *)

(** [m] returns; when it succeeds it has read at least [d] bits of the same data. *)
Definition reads {A} (d : Z) (P : A -> Prop) (r : BitReader) (m : read A) : Prop :=
  exists o, m = Ret o /\ forall a r', o = Some (a, r') ->
    P a /\ reader_ok r' /\ data_ r' = data_ r /\ bit_offset_ r + d <= bit_offset_ r'.

Lemma reads_ret {A} (P : A -> Prop) r a : reader_ok r -> P a -> reads 0 P r (Ret (Some (a, r))).
Proof. intros Hr Ha. eexists. split; [done|]. intros a' r' [= <- <-]. by repeat split; try apply Hr; try lia. Qed.

Lemma reads_none {A} d (P : A -> Prop) r : reads d P r (Ret None).
Proof. by eexists. Qed.

Lemma reads_weaken {A} d d' (P Q : A -> Prop) r m :
  d' <= d -> (forall a, P a -> Q a) -> reads d P r m -> reads d' Q r m.
Proof.
  intros Hd HPQ (o & -> & H). eexists. split; [done|]. intros a r' E.
  destruct (H a r' E) as (? & ? & ? & ?). repeat (split; [auto|]). lia.
Qed.

Lemma reads_bind {A B} d d' (P : A -> Prop) (Q : B -> Prop) r (m : read A) k :
  reads d P r m ->
  (forall a r', P a -> reader_ok r' -> data_ r' = data_ r -> reads d' Q r' (k a r')) ->
  reads (d + d') Q r (rbind m k).
Proof.
  intros (o & -> & H) Hk. unfold rbind. cbn [mbnd].
  destruct o as [[a r1]|]; [|apply reads_none].
  destruct (H a r1 eq_refl) as (Ha & Hr1 & Hd & Ho).
  destruct (Hk a r1 Ha Hr1 Hd) as (o & -> & H2). eexists. split; [done|]. intros b r2 E.
  destruct (H2 b r2 E) as (? & ? & ? & ?). repeat (split; [done || congruence|]). lia.
Qed.

Lemma reads_then {A B} d (P : A -> Prop) (Q : B -> Prop) r (m : read A) k :
  reads d P r m ->
  (forall a r', P a -> reader_ok r' -> data_ r' = data_ r -> reads 0 Q r' (k a r')) ->
  reads d Q r (rbind m k).
Proof. intros Hm Hk. rewrite <- (Z.add_0_r d). by eapply reads_bind. Qed.

Lemma reads_any {A} d (P : A -> Prop) r m : 0 <= d -> reads d P r m -> reads 0 P r m.
Proof. intros Hd. by apply reads_weaken. Qed.

Lemma ReadBits_reads r n : reader_ok r -> 0 <= n -> reads n (fun v => 0 <= v < 2 ^ n) r (ReadBits r n).
Proof.
  intros Hr Hn. destruct (decide (n <= 32 /\ n <= Z.of_nat (length (rbits r)))) as [[H1 H2]|H].
  - rewrite ReadBits_ok by (auto; lia). eexists. split; [done|]. intros v r' [= <- <-].
    split.
    + pose proof (bval_zero_range (take (Z.to_nat n) (rbits r))) as B.
      rewrite length_take in B. replace (Z.of_nat (Z.to_nat n `min` length (rbits r))) with n in B by lia. done.
    + destruct (rbits_skip r (Z.to_nat n) Hr ltac:(lia)) as [Hok _]. rewrite Z2Nat.id in Hok by lia.
      repeat (split; [done|]). simpl. lia.
  - rewrite ReadBits_none by (auto; lia). apply reads_none.
Qed.

Lemma ReadBit_reads r : reader_ok r -> reads 1 (fun _ => True) r (ReadBit r).
Proof.
  intros Hr. eapply reads_then; [apply ReadBits_reads; [done|lia]|]. intros. by apply reads_ret.
Qed.

Lemma ue_zeros_reads fuel : forall r zeros,
  reader_ok r -> 0 <= zeros <= 31 -> 32 - zeros < Z.of_nat fuel ->
  reads 1 (fun z => 0 <= z <= 31) r (ue_zeros fuel r zeros).
Proof.
  induction fuel as [|fuel IH]; intros r zeros Hr Hz Hf; simpl; [lia|].
  eapply reads_then; [by apply ReadBit_reads|].
  intros bit r' _ Hr' _. destruct bit; [by apply reads_ret|].
  destruct (Z.ltb_spec 31 (zeros + 1)); [apply reads_none|].
  eapply reads_weaken; [| |apply IH]; auto; lia.
Qed.

(** An Exp-Golomb code fits 32 bits. *)
Lemma ReadUE_reads r : reader_ok r -> reads 1 (fun v => 0 <= v < 2 ^ 32 - 1) r (ReadUE r).
Proof.
  intros Hr. unfold ReadUE.
  eapply reads_then; [apply ue_zeros_reads; auto; lia|]. intros z r1 Hz Hr1 _. cbn beta in Hz.
  destruct (Z.eqb_spec z 0) as [->|Hne].
  - apply reads_ret; [done|]. vm_compute. split; congruence.
  - eapply reads_then; [apply (reads_any z), ReadBits_reads; auto; lia|].
    intros v r2 Hv Hr2 _. cbn beta in Hv. apply reads_ret; [done|]. rewrite Z.shiftl_mul_pow2, Z.mul_1_l by lia.
    pose proof (Z.pow_le_mono_r 2 z 31 ltac:(lia) ltac:(lia)).
    pose proof (Z.pow_pos_nonneg 2 z ltac:(lia) ltac:(lia)).
    change (2 ^ 31) with 2147483648 in *. rewrite (wrap_small 64) by (unfold is_u; pow2; lia).
    rewrite (wrap_small 32) by (unfold is_u; pow2; lia). pow2. lia.
Qed.

Lemma s32_small x : 0 <= x < 2 ^ 31 -> s32 x = x.
Proof.
  intros H. unfold swrap. change (32 - 1) with 31. rewrite Z.mod_small by (pow2; lia).
  by rewrite (proj2 (Z.ltb_lt _ _)) by lia.
Qed.

(** A signed code fits [int32_t]: the conversions do not change it. *)
Lemma ReadSE_reads r :
  reader_ok r -> reads 1 (fun v => - 2 ^ 31 < v < 2 ^ 31) r (ReadSE r).
Proof.
  intros Hr. unfold ReadSE.
  eapply reads_then; [by apply ReadUE_reads|]. intros c r1 Hc Hr1 _. cbn beta in Hc. apply reads_ret; [done|].
  assert (Z.land c 1 = c mod 2) as -> by (apply (land_ones_mod c 1); lia).
  pow2. destruct (Z.eqb_spec (c mod 2) 0); cbn [negb].
  - rewrite s32_small by (pow2; Z.div_mod_to_equations; lia). Z.div_mod_to_equations; lia.
  - rewrite (wrap_small 32) by (unfold is_u; pow2; lia).
    rewrite s32_small by (pow2; Z.div_mod_to_equations; lia). Z.div_mod_to_equations; lia.
Qed.

(** The loop over the offsets ends: each round reads a bit. *)
Lemma poc_cycle_reads fuel : forall i cycle r,
  reader_ok r -> (length (rbits r) < fuel)%nat ->
  reads 0 (fun _ => True) r (poc_cycle fuel i cycle r).
Proof.
  induction fuel as [|fuel IH]; intros i cycle r Hr Hf; [lia|]. simpl.
  destruct (i <? cycle); cbn [negb]; [|by apply reads_ret].
  destruct (ReadSE_reads r Hr) as (o & -> & H). unfold rbind. cbn [mbnd].
  destruct o as [[v r1]|]; [|apply reads_none].
  destruct (H v r1 eq_refl) as (_ & Hr1 & Hd & Ho).
  pose proof (rbits_length r Hr). pose proof (rbits_length r1 Hr1). rewrite Hd in *.
  destruct (IH (i + 1) cycle r1 Hr1 ltac:(lia)) as (o & -> & H2). eexists. split; [done|].
  intros u r2 E. destruct (H2 u r2 E) as (? & ? & ? & ?). repeat (split; [done || congruence|]). lia.
Qed.

(** One more field of a parameter set. *)
Ltac next_field lem :=
  eapply (reads_then 0); [eapply (reads_any 1); [lia|by apply lem]|];
  intros ? ? _ ? ?.

Lemma ParsePoc_reads r : reader_ok r -> reads 0 (fun _ => True) r (ParsePoc r).
Proof.
  intros Hr. unfold ParsePoc.
  next_field ReadUE_reads. next_field ReadUE_reads.
  destruct (_ =? 0); [next_field ReadUE_reads; by apply reads_ret|].
  destruct (_ =? 1); [|destruct (2 <? _); [apply reads_none|by apply reads_ret]].
  next_field ReadBit_reads. next_field ReadSE_reads. next_field ReadSE_reads.
  lazymatch goal with |- reads _ _ ?r _ =>
    destruct (ReadUE_reads r ltac:(done)) as (o & -> & Hue); assert (reader_ok r) as Hok by done end.
  unfold rbind. cbn [mbnd]. destruct o as [[cycle r5]|]; [|apply reads_none].
  destruct (Hue cycle r5 eq_refl) as (_ & Hr5 & Hd5 & Ho5). pose proof (rbits_length r5 Hr5).
  destruct Hok as [_ Hok].
  destruct (poc_cycle_reads (Z.to_nat (blen (data_ r5) * 8)) 0 cycle r5 Hr5 ltac:(lia)) as (o & -> & Hc).
  eexists. split; [done|]. intros u r6 E. destruct (Hc u r6 E) as (? & ? & ? & ?).
  repeat (split; [done || congruence|]). lia.
Qed.

(** ** Bits of bytes *)

Fixpoint be_bits (n : nat) (v : Z) : list bool :=
  match n with
  | O => []
  | S n => Z.testbit v (Z.of_nat n) :: be_bits n v
  end.

Lemma be_bits_length n v : length (be_bits n v) = n.
Proof. induction n; simpl; auto. Qed.

Lemma mod_pow2_succ v n :
  0 <= n -> v mod 2 ^ (n + 1) = Z.b2z (Z.testbit v n) * 2 ^ n + v mod 2 ^ n.
Proof.
  intros Hn. rewrite Z.testbit_spec' by lia. rewrite Z.pow_add_r by lia. change (2 ^ 1) with 2.
  rewrite Z.rem_mul_r by lia. lia.
Qed.

Lemma bval_be_bits n v : forall a, bval a (be_bits n v) = a * 2 ^ Z.of_nat n + v mod 2 ^ Z.of_nat n.
Proof.
  induction n as [|n IH]; intros a; simpl be_bits; simpl bval.
  - rewrite Z.mod_1_r. lia.
  - rewrite IH, Nat2Z.inj_succ, <- Z.add_1_r, mod_pow2_succ, Z.pow_add_r by lia.
    change (2 ^ 1) with 2. lia.
Qed.

Lemma be_bits_bval l : forall a, 0 <= a -> be_bits (length l) (bval a l) = l.
Proof.
  induction l as [|b l IH]; intros a Ha; [done|]. simpl. f_equal; [|apply IH; destruct b; simpl; lia].
  pose proof (bval_range l (2 * a + Z.b2z b) ltac:(destruct b; simpl; lia)) as B.
  pose proof (Z.pow_pos_nonneg 2 (Z.of_nat (length l)) ltac:(lia) ltac:(lia)).
  rewrite Z.testbit_odd, Z.shiftr_div_pow2 by lia.
  rewrite <- (Z.div_unique _ _ (2 * a + Z.b2z b)
    (bval (2 * a + Z.b2z b) l - (2 * a + Z.b2z b) * 2 ^ Z.of_nat (length l))) by lia.
  rewrite Z.add_comm, Z.odd_add_mul_2. by destruct b.
Qed.

(** All bits of a byte sequence. *)
Definition data_bits (d : list Z) : list bool := concat (map (be_bits 8) d).

Lemma rbits_data d : rbits (mkReader d 0) = data_bits d.
Proof.
  unfold rbits. simpl. rewrite Z.sub_0_r. induction d as [|x d IH]; [done|].
  change (data_bits (x :: d)) with (be_bits 8 x ++ data_bits d). rewrite <- IH, blen_cons.
  replace ((1 + blen d) * 8) with (8 + blen d * 8) by lia. pose proof (blen_nonneg d).
  rewrite seqZ_app, map_app by lia. f_equal.
  rewrite <- (Z.add_0_r (0 + 8)). change (0 + 8) with 8. 
  rewrite <- fmap_add_seqZ. change (map ?f ?l) with (f <$> l). rewrite <- list_fmap_compose.
  apply list_fmap_ext. intros i k Hk. apply lookup_seqZ in Hk as [-> Hk].
  unfold compose, bit_at. replace ((8 + (0 + Z.of_nat i)) / 8) with (1 + Z.of_nat i / 8)
    by (Z.div_mod_to_equations; lia).
  replace ((8 + (0 + Z.of_nat i)) mod 8) with (Z.of_nat i mod 8) by (Z.div_mod_to_equations; lia).
  unfold bget. rewrite Z2Nat.inj_add by (try apply Z.div_pos; lia). done.
Qed.

(** ** Emulation prevention *)

(** What an encoder does: a 3 is inserted before a byte up to 3 that follows two zeros. *)
Fixpoint escape (l : list Z) (zeros : Z) : list Z :=
  match l with
  | [] => []
  | v :: l =>
    if (2 <=? zeros) && (v <=? 3) then 3 :: v :: escape l (if v =? 0 then 1 else 0)
    else v :: escape l (if v =? 0 then zeros + 1 else 0)
  end.

Lemma rbsp_escape l : forall zeros, rbsp_loop (escape l zeros) zeros = l.
Proof.
  induction l as [|v l IH]; intros zeros; simpl; [done|].
  destruct (2 <=? zeros) eqn:Ez; simpl.
  - destruct (Z.leb_spec v 3); simpl; rewrite Ez; simpl.
    + f_equal. apply IH.
    + rewrite (proj2 (Z.eqb_neq v 3)) by lia. f_equal. apply IH.
  - rewrite Ez. simpl. f_equal. apply IH.
Qed.

Lemma escape_bytes l : forall z, bytes_ok l -> bytes_ok (escape l z).
Proof.
  induction l as [|v l IH]; intros z H; simpl; [done|]. apply Forall_cons in H as [Hv H].
  destruct (_ && _); repeat (apply Forall_cons_2; auto); [unfold is_u; pow2; lia|by apply IH..].
Qed.

Lemma rbsp_bytes l : forall z, bytes_ok l -> bytes_ok (rbsp_loop l z).
Proof.
  induction l as [|v l IH]; intros z H; simpl; [done|]. apply Forall_cons in H as [Hv H].
  destruct (_ && _); [by apply IH|]. apply Forall_cons_2; auto. by apply IH.
Qed.

(** ** Writing bits *)

Fixpoint pack (n : nat) (bits : list bool) : list Z :=
  match n with
  | O => []
  | S n => bval 0 (take 8 (bits ++ repeat false 8)) :: pack n (drop 8 bits)
  end.

(** The bits as bytes, the last one filled with zeros. *)
Definition pack_all (bits : list bool) : list Z := pack (S (length bits / 8)) bits.

Lemma pack_bytes n : forall bits, bytes_ok (pack n bits).
Proof.
  induction n as [|n IH]; intros bits; cbn [pack]; [apply Forall_nil_2|].
  apply Forall_cons_2; [|apply IH].
  pose proof (bval_zero_range (take 8 (bits ++ repeat false 8))) as B.
  rewrite length_take, length_app, repeat_length in B.
  replace (Z.of_nat (8 `min` (length bits + 8))) with 8 in B by lia. exact B.
Qed.

Lemma pack_bits n : forall bits,
  (length bits <= 8 * n)%nat -> exists pad, data_bits (pack n bits) = bits ++ pad.
Proof.
  induction n as [|n IH]; intros bits Hn.
  { destruct bits; [|simpl in Hn; lia]. by exists []. }
  change (data_bits (pack (S n) bits)) with
    (be_bits 8 (bval 0 (take 8 (bits ++ repeat false 8))) ++ data_bits (pack n (drop 8 bits))).
  assert (length (take 8 (bits ++ repeat false 8)) = 8%nat) as L8
    by (rewrite length_take, length_app, repeat_length; lia).
  pose proof (be_bits_bval (take 8 (bits ++ repeat false 8)) 0 ltac:(lia)) as B.
  rewrite L8 in B. rewrite B.
  destruct (IH (drop 8 bits)) as [pad ->]; [rewrite length_drop; lia|].
  destruct (decide (8 <= length bits)%nat) as [Hl|Hl].
  - rewrite take_app_le by done. exists pad. by rewrite app_assoc, take_drop.
  - rewrite (drop_ge bits) by lia. rewrite take_app_ge by lia.
    exists (take (8 - length bits) (repeat false 8) ++ pad). by rewrite <- app_assoc.
Qed.

Lemma pack_all_bits bits : exists pad, data_bits (pack_all bits) = bits ++ pad.
Proof. apply pack_bits. pose proof (Nat.div_mod_eq (length bits) 8). pose proof (Nat.mod_upper_bound (length bits) 8). lia. Qed.

(** ** Reading back *)

(** Reading with [m] from data that begins with [bits] gives [a] and leaves the rest. *)
Definition decodes {A} (bits : list bool) (m : BitReader -> read A) (a : A) : Prop :=
  forall r rest, reader_ok r -> rbits r = bits ++ rest ->
  exists r', m r = Ret (Some (a, r')) /\ reader_ok r' /\ rbits r' = rest.

Lemma decodes_bind {A B} b1 (m : BitReader -> read A) a (k : A -> BitReader -> mres (option B)) r rest :
  decodes b1 m a -> reader_ok r -> rbits r = b1 ++ rest ->
  exists r', rbind (m r) k = k a r' /\ reader_ok r' /\ rbits r' = rest.
Proof.
  intros Hd Hr E. destruct (Hd r rest Hr E) as (r' & -> & Hr' & E'). unfold rbind. cbn [mbnd]. eauto.
Qed.

Lemma decodes_bits n v :
  (n <= 32)%nat -> 0 <= v < 2 ^ Z.of_nat n ->
  decodes (be_bits n v) (fun r => ReadBits r (Z.of_nat n)) v.
Proof.
  intros Hn Hv r rest Hr E. exists (skip r (Z.of_nat n)).
  assert (length (be_bits n v) = n) as L by apply be_bits_length.
  destruct (rbits_skip r n Hr) as [Hok Es]; [rewrite E, length_app; lia|].
  rewrite ReadBits_ok; [|done|lia|rewrite E, length_app; lia].
  rewrite Nat2Z.id, E, take_app_length' by done. rewrite bval_be_bits, Z.mod_small by done.
  split; [by rewrite Z.mul_0_l|]. split; [done|]. by rewrite Es, E, drop_app_length'.
Qed.

Lemma decodes_byte v : is_u8 v -> decodes (be_bits 8 v) (fun r => ReadBits r 8) v.
Proof. intros Hv. apply (decodes_bits 8); [lia|exact Hv]. Qed.

Lemma decodes_bit b : decodes [b] ReadBit b.
Proof.
  intros r rest Hr E. destruct (rbits_cons r b rest Hr E) as (_ & _ & E1 & Hr1).
  exists (skip r 1). by rewrite (ReadBit_cons r b rest).
Qed.

(** Exp-Golomb: as many zeros as [v + 1] has bits after the first, then [v + 1]. *)
Definition ue_bits (v : Z) : list bool :=
  let k := Z.to_nat (Z.log2 (v + 1)) in repeat false k ++ be_bits (S k) (v + 1).

Lemma ue_zeros_decodes k : forall fuel zeros,
  0 <= zeros -> zeros + Z.of_nat k <= 31 -> (k < fuel)%nat ->
  decodes (repeat false k ++ [true]) (fun r => ue_zeros fuel r zeros) (zeros + Z.of_nat k).
Proof.
  induction k as [|k IH]; intros fuel zeros Hz Hk Hf r rest Hr E;
    (destruct fuel as [|fuel]; [lia|]); simpl in E |- *.
  - destruct (decodes_bind [true] ReadBit true (fun bit r =>
      if bit then Ret (Some (zeros, r)) else
      if 31 <? zeros + 1 then Ret None else ue_zeros fuel r (zeros + 1)) r rest (decodes_bit true) Hr E)
      as (r' & -> & Hr' & E'). exists r'. by rewrite Z.add_0_r.
  - destruct (decodes_bind [false] ReadBit false (fun bit r =>
      if bit then Ret (Some (zeros, r)) else
      if 31 <? zeros + 1 then Ret None else ue_zeros fuel r (zeros + 1)) r
      ((repeat false k ++ [true]) ++ rest) (decodes_bit false) Hr E) as (r' & -> & Hr' & E').
    rewrite (proj2 (Z.ltb_ge _ _)) by lia.
    replace (zeros + Z.of_nat (S k)) with (zeros + 1 + Z.of_nat k) by lia.
    by apply IH; [lia..|exact Hr'|].
Qed.

Lemma decodes_ue v : 0 <= v < 2 ^ 32 - 1 -> decodes (ue_bits v) ReadUE v.
Proof.
  intros Hv r rest Hr E. unfold ue_bits in E.
  pose proof (Z.log2_nonneg (v + 1)). pose proof (Z.log2_spec (v + 1) ltac:(lia)) as [Hlo Hhi].
  assert (Z.log2 (v + 1) <= 31) as Hk.
  { assert (Z.log2 (v + 1) < 32); [|lia]. apply Z.log2_lt_pow2; lia. }
  assert (exists k : nat, Z.log2 (v + 1) = Z.of_nat k) as [k Ek]
    by (exists (Z.to_nat (Z.log2 (v + 1))); lia).
  assert (Z.testbit (v + 1) (Z.of_nat k) = true) as Ht by (rewrite <- Ek; apply Z.bit_log2; lia).
  rewrite Ek, ?Nat2Z.id in *. clear Ek.
  simpl in E. rewrite Ht in E.
  replace ((repeat false k ++ true :: be_bits k (v + 1)) ++ rest) with
    ((repeat false k ++ [true]) ++ be_bits k (v + 1) ++ rest) in E by (by rewrite <- !app_assoc).
  unfold ReadUE.
  destruct (ue_zeros_decodes k 33 0 ltac:(lia) ltac:(lia) ltac:(lia) r _ Hr E) as (r1 & -> & Hr1 & E1).
  unfold rbind. cbn [mbnd]. rewrite Z.add_0_l in *.
  assert (2 ^ Z.of_nat k <= 2 ^ 31) by (apply Z.pow_le_mono_r; lia).
  rewrite Z.pow_succ_r in Hhi by lia. pow2.
  assert (forall x, 0 <= x < 2 ^ Z.of_nat k ->
    u32 (u64 (Z.shiftl 1 (Z.of_nat k) - 1 + x)) = 2 ^ Z.of_nat k - 1 + x) as Hw.
  { intros x Hx. rewrite Z.shiftl_mul_pow2, Z.mul_1_l by lia.
    rewrite (wrap_small 64) by (unfold is_u; pow2; lia).
    rewrite (wrap_small 32) by (unfold is_u; pow2; lia). done. }
  destruct (Z.eqb_spec (Z.of_nat k) 0) as [Ek|Hne].
  - exists r1. rewrite Hw by (rewrite Ek; simpl; lia). rewrite Ek in *. simpl in Hlo, Hhi.
    replace k with 0%nat in E1 by lia. simpl in E1. split; [do 3 f_equal; simpl; lia|done].
  - set (m := (v + 1) mod 2 ^ Z.of_nat k).
    assert (0 <= m < 2 ^ Z.of_nat k) as Hm by (apply Z.mod_pos_bound; lia).
    assert (m = v + 1 - 2 ^ Z.of_nat k) as Em.
    { unfold m. symmetry. apply (Z.mod_unique_pos _ _ 1); lia. }
    assert (be_bits k (v + 1) = be_bits k m) as Eb.
    { unfold m. clear -E1. revert E1. intros _.
      assert (forall n, (n <= k)%nat -> be_bits n (v + 1) = be_bits n ((v + 1) mod 2 ^ Z.of_nat k)) as A.
      { induction n as [|n IH]; intros Hn; [done|]. simpl. rewrite IH by lia.
        by rewrite Z.mod_pow2_bits_low by lia. }
      by apply A. }
    rewrite Eb in E1. destruct (decodes_bits k m ltac:(lia) Hm r1 rest Hr1 E1) as (r2 & -> & Hr2 & E2).
    cbn [mbnd]. exists r2. rewrite Hw by done. split; [do 3 f_equal; lia|done].
Qed.

(** ** The sequence parameter set *)

(** The fields an encoder writes for a profile without chroma information ([s_poc] is
    [Some v] for picture order count type 0, [None] for type 2; [s_crop] is left, right,
    top, bottom). *)
Record sps_fields : Type := mkFields {
  s_profile : Z; s_constraint : Z; s_level : Z; s_id : Z; s_log2_frame_num : Z;
  s_poc : option Z; s_max_refs : Z; s_gaps : bool; s_width_mbs : Z; s_height_units : Z;
  s_frame_mbs_only : bool; s_adaptive : bool; s_direct : bool;
  s_crop : option (Z * Z * Z * Z) }.

Definition sps_bits (f : sps_fields) : list bool :=
  be_bits 8 (s_profile f) ++ be_bits 8 (s_constraint f) ++ be_bits 8 (s_level f) ++
  ue_bits (s_id f) ++ ue_bits (s_log2_frame_num f) ++
  (match s_poc f with Some v => ue_bits 0 ++ ue_bits v | None => ue_bits 2 end) ++
  ue_bits (s_max_refs f) ++ [s_gaps f] ++ ue_bits (s_width_mbs f) ++ ue_bits (s_height_units f) ++
  [s_frame_mbs_only f] ++ (if s_frame_mbs_only f then [] else [s_adaptive f]) ++ [s_direct f] ++
  match s_crop f with
  | Some (l, r, t, b) => [true] ++ ue_bits l ++ ue_bits r ++ ue_bits t ++ ue_bits b
  | None => [false]
  end.

(** Frames per field pair, and the size in luma samples for 4:2:0. *)
Definition field_factor (f : sps_fields) : Z := if s_frame_mbs_only f then 1 else 2.
Definition crop_of (f : sps_fields) : Z * Z * Z * Z := default (0, 0, 0, 0) (s_crop f).
Definition sps_width (f : sps_fields) : Z :=
  let '(l, r, _, _) := crop_of f in 16 * (s_width_mbs f + 1) - 2 * (l + r).
Definition sps_height (f : sps_fields) : Z :=
  let '(_, _, t, b) := crop_of f in
  field_factor f * (16 * (s_height_units f + 1) - 2 * (t + b)).

Definition is_ue (v : Z) : Prop := 0 <= v < 2 ^ 32 - 1.

Definition sps_fields_ok (f : sps_fields) : Prop :=
  is_u8 (s_profile f) /\ IsHighProfile (s_profile f) = false /\
  is_u8 (s_constraint f) /\ is_u8 (s_level f) /\ is_ue (s_id f) /\ is_ue (s_log2_frame_num f) /\
  is_ue (default 0 (s_poc f)) /\ is_ue (s_max_refs f) /\ 0 <= s_width_mbs f /\
  0 <= s_height_units f /\
  (let '(l, r, t, b) := crop_of f in 0 <= l /\ 0 <= r /\ 0 <= t /\ 0 <= b) /\
  16 * (s_width_mbs f + 1) < 2 ^ 31 /\ field_factor f * (16 * (s_height_units f + 1)) < 2 ^ 31 /\
  0 < sps_width f /\ 0 < sps_height f.

(** The NAL unit with header [h]. *)
Definition sps_nalu (h : Z) (f : sps_fields) : list Z := h :: escape (pack_all (sps_bits f)) 0.

(** One field: the reader is at its bits and moves past them. *)
Ltac decode H :=
  match goal with
  | Hr : reader_ok ?r, E : rbits ?r = _ |- _ =>
    let r' := fresh "r" in let Em := fresh "Em" in
    let Hr' := fresh "Hr" in let E' := fresh "E" in
    destruct (H r _ Hr E) as (r' & Em & Hr' & E'); cbn beta in Em;
    rewrite Em; unfold rbind at 1; cbn [mbnd]; clear Hr E Em
  end.

Lemma sps_size_ok f :
  sps_fields_ok f ->
  let '(l, r, t, b) := crop_of f in
  sps_size 1 false (s_width_mbs f) (s_height_units f) (s_frame_mbs_only f) l r t b =
  Some (sps_width f, sps_height f).
Proof.
  intros (_ & _ & _ & _ & _ & _ & _ & _ & Hw & Hh & Hc & Bw & Bh & Pw & Ph).
  unfold sps_width, sps_height in *. destruct (crop_of f) as [[[l r] t] b].
  destruct Hc as (H1 & H2 & H3 & H4). unfold sps_size, field_factor in *. pow2.
  cbn [Z.eqb Pos.eqb orb]. set (W := s_width_mbs f) in *. set (H := s_height_units f) in *.
  destruct (s_frame_mbs_only f).
  - change (u32 (2 - 1)) with 1. change (u64 (2 - 1)) with 1. change (u32 (2 * 1)) with 2.
    rewrite !(wrap_small 32) by (unfold is_u; pow2; lia).
    rewrite !(wrap_small 64) by (unfold is_u; pow2; lia).
    rewrite !(proj2 (Z.leb_gt _ _)), !(proj2 (Z.ltb_ge _ _)) by lia. cbn [orb].
    rewrite !s32_small by (pow2; lia). do 2 f_equal; lia.
  - change (u32 (2 - 0)) with 2. change (u64 (2 - 0)) with 2. change (u32 (2 * 2)) with 4.
    rewrite !(wrap_small 32) by (unfold is_u; pow2; lia).
    rewrite !(wrap_small 64) by (unfold is_u; pow2; lia).
    rewrite !(proj2 (Z.leb_gt _ _)), !(proj2 (Z.ltb_ge _ _)) by lia. cbn [orb].
    rewrite !s32_small by (pow2; lia). do 2 f_equal; lia.
Qed.

Lemma ParsePoc_decodes log2 poc :
  is_ue log2 -> is_ue (default 0 poc) ->
  decodes (ue_bits log2 ++ match poc with Some v => ue_bits 0 ++ ue_bits v | None => ue_bits 2 end)
    ParsePoc tt.
Proof.
  intros Hl Hp r rest Hr E. unfold ParsePoc. rewrite <- app_assoc in E.
  decode (decodes_ue log2 Hl). destruct poc as [v|]; simpl in Hp.
  - rewrite <- app_assoc in E0. decode (decodes_ue 0 ltac:(lia)). cbn [Z.eqb].
    decode (decodes_ue v Hp). eauto.
  - decode (decodes_ue 2 ltac:(lia)). simpl. eauto.
Qed.

(** The optional fields. *)
Lemma opt_bit_decodes (c b : bool) :
  decodes (if c then [] else [b]) (fun r => if c then Ret (Some (false, r)) else ReadBit r)
    (if c then false else b).
Proof.
  destruct c; [|apply decodes_bit]. intros r rest Hr E. by exists r.
Qed.

Lemma opt_ue_decodes (c : bool) v :
  is_ue v -> decodes (if c then ue_bits v else []) (fun r => if c then ReadUE r else Ret (Some (0, r)))
    (if c then v else 0).
Proof.
  intros Hv. destruct c; [by apply decodes_ue|]. intros r rest Hr E. by exists r.
Qed.

Lemma sps_bits_long f : (24 <= length (sps_bits f))%nat.
Proof. unfold sps_bits. rewrite !length_app, !be_bits_length. lia. Qed.

Lemma escape_length l : forall z, (length l <= length (escape l z))%nat.
Proof.
  induction l as [|v l IH]; intros z; simpl; [lia|].
  destruct (_ && _); simpl; [specialize (IH (if v =? 0 then 1 else 0))|
    specialize (IH (if v =? 0 then z + 1 else 0))]; lia.
Qed.

Lemma pack_length n : forall bits, length (pack n bits) = n.
Proof. induction n; intros; simpl; auto. Qed.

(** The fields decode, whatever follows them. *)
Lemma sps_fields_decode b f r pad :
  sps_fields_ok f -> reader_ok r -> rbits r = sps_bits f ++ pad ->
  ParseSpsFields b r = Ret (Some (mkSps (s_id f) (sps_width f) (sps_height f) b)).
Proof.
  intros Hok Hr E. pose proof (sps_size_ok f Hok) as Hsize.
  pose proof Hok as (Hp & Hnh & Hc & Hl & Hid & Hlg & Hpoc & Hrefs & Hw & Hhu & Hcrop & Bw & Bh & Pw & Ph).
  assert (is_ue (s_width_mbs f)) as Hw' by (unfold is_ue; pow2; lia).
  assert (is_ue (s_height_units f)) as Hh'
    by (unfold is_ue, field_factor in *; pow2; destruct (s_frame_mbs_only f); lia).
  unfold sps_bits in E. rewrite <- !app_assoc in E. unfold ParseSpsFields.
  decode (decodes_byte _ Hp). decode (decodes_byte _ Hc). decode (decodes_byte _ Hl).
  decode (decodes_ue (s_id f) Hid). rewrite Hnh. unfold rbind at 1. cbn [mbnd fst snd].
  match goal with E : rbits _ = _ |- _ => rewrite app_assoc in E end.
  decode (ParsePoc_decodes _ _ Hlg Hpoc).
  decode (decodes_ue (s_max_refs f) Hrefs). decode (decodes_bit (s_gaps f)).
  decode (decodes_ue _ Hw'). decode (decodes_ue _ Hh'). decode (decodes_bit (s_frame_mbs_only f)).
  decode (opt_bit_decodes (s_frame_mbs_only f) (s_adaptive f)). decode (decodes_bit (s_direct f)).
  unfold sps_width, sps_height, crop_of in *.
  destruct (s_crop f) as [[[[l cr] t] bt]|]; simpl default in *;
    match goal with E : rbits _ = _ |- _ => rewrite <- ?app_assoc in E end.
  - destruct Hcrop as (H1 & H2 & H3 & H4). decode (decodes_bit true).
    assert (is_ue l /\ is_ue cr /\ is_ue t /\ is_ue bt) as (U1 & U2 & U3 & U4)
      by (unfold is_ue, field_factor in *; pow2; destruct (s_frame_mbs_only f); repeat split; lia).
    decode (decodes_ue l U1). decode (decodes_ue cr U2). decode (decodes_ue t U3).
    decode (decodes_ue bt U4). by rewrite Hsize.
  - decode (decodes_bit false). unfold rbind. cbn [mbnd]. by rewrite Hsize.
Qed.

(** Sequence parameter sets read back. A set written as ITU-T H.264 7.3.2.1.1 lays it out
    (Exp-Golomb fields, emulation prevention, cropping; profiles without chroma fields) is
    parsed to its identifier, its picture size in luma samples after cropping, and its bytes;
    no intermediate product wraps for sizes below 2^31. *)
Theorem h264_sps_roundtrip h f :
  is_u8 h -> h mod 32 = 7 -> sps_fields_ok f ->
  ParseSps (Some (sps_nalu h f)) =
  Ret (Some (mkSps (s_id f) (sps_width f) (sps_height f) (sps_nalu h f))).
Proof.
  intros Hh Ht Hok. unfold ParseSps. set (nalu := sps_nalu h f).
  assert (4 <= blen nalu) as Hlen.
  { unfold nalu, sps_nalu. rewrite blen_cons. unfold blen.
    pose proof (escape_length (pack_all (sps_bits f)) 0) as L. unfold pack_all in L at 1.
    rewrite pack_length in L. pose proof (sps_bits_long f).
    assert (3 <= length (sps_bits f) / 8)%nat by (apply Nat.div_le_lower_bound; lia). lia. }
  rewrite (proj2 (Z.ltb_ge _ _)) by lia.
  assert (rd nalu 0 = Ret h) as -> by (by apply (rd_app [])).
  cbn [mbnd]. rewrite nal_type_mod, Ht. cbn [Z.eqb Pos.eqb negb].
  assert (NaluToRbsp (Some nalu) = pack_all (sps_bits f)) as ->.
  { unfold NaluToRbsp. rewrite (proj2 (Z.ltb_ge _ _)) by lia.
    exact (rbsp_escape (pack_all (sps_bits f)) 0). }
  destruct (pack_all_bits (sps_bits f)) as [pad Epad].
  apply (sps_fields_decode _ _ _ pad); [done| |by rewrite <- Epad, <- rbits_data].
  split; [apply pack_bytes|]. simpl. pose proof (blen_nonneg (pack_all (sps_bits f))). lia.
Qed.

(** ** Arbitrary parameter sets *)

Lemma rbsp_reader b : bytes_ok b -> reader_ok (mkReader (NaluToRbsp (Some b)) 0).
Proof.
  intros Hb. split; simpl.
  - destruct (_ <? 2); [apply Forall_nil_2|]. apply rbsp_bytes. by apply Forall_drop.
  - match goal with |- 0 <= 0 <= blen ?d * 8 => pose proof (blen_nonneg d); lia end.
Qed.

(** The second byte of the NAL unit is the profile. *)
Lemma rbsp_first b x y l : b = x :: y :: l -> NaluToRbsp (Some b) = y :: rbsp_loop l (if y =? 0 then 0 + 1 else 0).
Proof.
  intros ->. unfold NaluToRbsp. rewrite (proj2 (Z.ltb_ge _ _)); [done|].
  rewrite !blen_cons. pose proof (blen_nonneg l). lia.
Qed.

Lemma reads_opt {A} (P : A -> Prop) (c : bool) r (m : read A) a :
  reader_ok r -> P a -> reads 0 P r m -> reads 0 P r (if c then m else Ret (Some (a, r))).
Proof. intros Hr Ha Hm. destruct c; [done|by apply reads_ret]. Qed.

Lemma returns_reads {A B} d (P : A -> Prop) r (m : read A) (k : A -> BitReader -> mres (option B)) :
  reads d P r m ->
  (forall a r', P a -> reader_ok r' -> data_ r' = data_ r -> returns (k a r')) ->
  returns (rbind m k).
Proof.
  intros (o & -> & H) Hk. unfold rbind. cbn [mbnd]. destruct o as [[a r']|]; [|auto with safe].
  destruct (H a r' eq_refl) as (? & ? & ? & _). by apply Hk.
Qed.

Ltac next_returns lem := eapply returns_reads; [by apply lem|]; intros ? ? _ ? ?.

Lemma ParsePps_returns b : bytes_ok b -> returns (ParsePps (Some b)).
Proof.
  intros Hb. pose proof (rbsp_reader b Hb) as Hr.
  unfold ParsePps. destruct (Z.ltb_spec (blen b) 2); [auto with safe|].
  rewrite rd_ok by lia. cbn [mbnd]. destruct (negb _); [auto with safe|].
  next_returns ReadUE_reads. next_returns ReadUE_reads. auto with safe.
Qed.

(** On any bytes the parsers of parameter sets return without reading outside them; for
    sequence parameter sets of the profiles with scaling lists see [sps_scaling_overflow]. *)
Theorem h264_params_safe b :
  bytes_ok b ->
  returns (ParsePps (Some b)) /\
  (IsHighProfile (bget b 1) = false -> returns (ParseSps (Some b))).
Proof.
  intros Hb. pose proof (rbsp_reader b Hb) as Hr. split.
  - by apply ParsePps_returns.
  - intros Hp. unfold ParseSps. destruct (Z.ltb_spec (blen b) 4) as [|Hlen]; [auto with safe|].
    rewrite rd_ok by lia. cbn [mbnd]. destruct (negb _); [auto with safe|].
    destruct b as [|x [|y l]]; [done|done|]. change (bget (x :: y :: l) 1) with y in Hp.
    rewrite (rbsp_first _ x y l eq_refl) in *. unfold ParseSpsFields.
    assert (is_u8 y) as Hy by (apply Forall_cons in Hb as [_ Hb]; by apply Forall_cons in Hb as [? _]).
    destruct (decodes_byte y Hy _ (data_bits (rbsp_loop l (if y =? 0 then 0 + 1 else 0))) Hr)
      as (r1 & E1 & Hr1 & _); [by rewrite rbits_data|]. rewrite E1. unfold rbind at 1. cbn [mbnd].
    eapply returns_reads; [by apply ReadBits_reads|]. intros ? ? _ ? _.
    eapply returns_reads; [by apply ReadBits_reads|]. intros ? ? _ ? _.
    next_returns ReadUE_reads. rewrite Hp.
    eapply returns_reads; [by apply (reads_ret (fun _ => True))|]. intros ? ? _ ? ?.
    next_returns ParsePoc_reads. next_returns ReadUE_reads. next_returns ReadBit_reads.
    next_returns ReadUE_reads. next_returns ReadUE_reads. next_returns ReadBit_reads.
    match goal with |- context [if ?c then Ret (Some (false, _)) else _] => destruct c end;
    (eapply returns_reads; [first [by apply (reads_ret (fun _ => True))|by apply ReadBit_reads]|]);
    intros ? ? _ ? ?; next_returns ReadBit_reads; next_returns ReadBit_reads;
    match goal with |- context [if ?c then ReadUE _ else _] => destruct c end;
    do 4 (eapply returns_reads; [first [by apply (reads_ret (fun _ => True))|by apply ReadUE_reads]|];
          intros ? ? _ ? ?);
    destruct (sps_size _ _ _ _ _ _ _ _ _) as [[? ?]|]; auto with safe.
Qed.

(** A signed overflow: the scaling list of this High-profile set has a delta of 2^31 - 1,
    and the sum with the previous scale leaves [int]. *)
Definition overflow_bits : list bool :=
  be_bits 8 100 ++ be_bits 8 0 ++ be_bits 8 30 ++ ue_bits 0 ++ ue_bits 1 ++ ue_bits 0 ++ ue_bits 0 ++
  [false; true; true] ++ ue_bits (2 ^ 32 - 3).

Example sps_scaling_overflow :
  bytes_ok (0x67 :: escape (pack_all overflow_bits) 0) /\
  ParseSps (Some (0x67 :: escape (pack_all overflow_bits) 0)) = Fault.
Proof.
  split; [|by vm_compute]. apply Forall_cons_2; [by vm_compute|]. apply escape_bytes, pack_bytes.
Qed.

(** The sum of two crop offsets is taken in 32 bits before it is widened: offsets of 2^31 on
    each side of a 640 x 368 picture count as none. *)
Example sps_crop_wraps :
  sps_size 1 false 39 22 true (2 ^ 31) (2 ^ 31) 0 0 = Some (640, 368).
Proof. reflexivity. Qed.

(** Baseline profile, 640 x 360: 23 macroblock rows with four of the luma rows in pairs cropped. *)
Definition sample_fields : sps_fields :=
  mkFields 66 192 30 0 0 (Some 2) 1 false 39 22 true false true (Some (0, 0, 0, 4)).

Lemma h264_sps_roundtrip_witness :
  ParseSps (Some (sps_nalu 0x67 sample_fields)) =
  Ret (Some (mkSps 0 640 360 (sps_nalu 0x67 sample_fields))).
Proof.
  apply (h264_sps_roundtrip 0x67 sample_fields); [done|done|].
  unfold sps_fields_ok, sample_fields, is_ue, is_u. simpl. repeat split; lia.
Defined.
