(* ===== verification/H264Depacketizer.v ===== *)
(** * The H.264 depacketizer

    Models [Common/Depacketizer/H264Depacketizer.cpp] (parser, packet buffer and
    parameter set tracker behind one interface, and the parameter sets of the SDP [fmtp]
    line) and [H264RtpDepacketizer.cpp] with [Common/memory/MutableBuffer.h] (access units
    as Annex B frames).  Strings are lists of bytes.  Allocation failure, which [input]
    answers with a reset, is left out. *)
From S2P Require Import Prelude Bytes H264 H264Buffer H264BufferInv H264Frames H264Delivery H264Sender H264Params.

(** ** The fmtp line *)

(** The pieces [std::getline] gives with delimiter [d]: a last empty piece is none. *)
Fixpoint split_on (d : Z) (s : list Z) : list Z * list (list Z) :=
  match s with
  | [] => ([], [])
  | x :: s =>
    let '(p, ps) := split_on d s in
    if x =? d then ([], p :: ps) else (x :: p, ps)
  end.

Definition getlines (d : Z) (s : list Z) : list (list Z) :=
  let '(p, ps) := split_on d s in
  let l := p :: ps in
  match last l with Some [] => removelast l | _ => l end.

Definition is_space (c : Z) : bool := (c =? 32) || (c =? 9) || (c =? 13) || (c =? 10).

Fixpoint skip_space (s : list Z) : list Z :=
  match s with
  | [] => []
  | x :: s' => if is_space x then skip_space s' else s
  end.

(** From the first to the last byte that is not white space. *)
Definition trim (s : list Z) : list Z := rev (skip_space (rev (skip_space s))).

Definition tolower (c : Z) : Z := if (65 <=? c) && (c <=? 90) then c + 32 else c.

(** [text.find(c)] with what is before and after. *)
Fixpoint cut (c : Z) (s : list Z) : option (list Z * list Z) :=
  match s with
  | [] => None
  | x :: s =>
    if x =? c then Some ([], s)
    else match cut c s with Some (a, b) => Some (x :: a, b) | None => None end
  end.

Definition b64_digit (c : Z) : Z :=
  if (65 <=? c) && (c <=? 90) then c - 65
  else if (97 <=? c) && (c <=? 122) then c - 97 + 26
  else if (48 <=? c) && (c <=? 57) then c - 48 + 52
  else if c =? 43 then 62 else if c =? 47 then 63 else -1.

(** The decoding loop: the bytes so far and the bits left over; [None] for an invalid
    character. *)
Fixpoint b64_loop (s : list Z) (accumulator bits : Z) (padding : bool) (decoded : list Z)
  : option (list Z * Z) :=
  match s with
  | [] => Some (decoded, bits)
  | c :: s =>
    if c =? 61 then b64_loop s accumulator bits true decoded else
    let digit := b64_digit c in
    if (digit <? 0) || padding then None else
    let accumulator := u32 (Z.lor (Z.shiftl accumulator 6) digit) in
    let bits := bits + 6 in
    if 8 <=? bits
    then b64_loop s accumulator (bits - 8) padding
           (decoded ++ [u8 (Z.shiftr accumulator (bits - 8))])
    else b64_loop s accumulator bits padding decoded
  end.

(** One comma-separated value. *)
Definition load_value (t : Tracker) (encoded : list Z) : mres Tracker :=
  let encoded := trim encoded in
  if match encoded with [] => true | _ => false end || (16384 <? blen encoded) then Ret t else
  match b64_loop encoded 0 0 false [] with
  | None => Ret t
  | Some (decoded, bits) =>
    match decoded with
    | [] => Ret t
    | h :: _ =>
      if bits =? 6 then Ret t else
      let type := Z.land h 31 in
      if type =? 7 then let! '(t, _) := UpdateSps t (Some decoded) in Ret t
      else if type =? 8 then let! '(t, _) := UpdatePps t (Some decoded) in Ret t
      else Ret t
    end
  end.

(** ["sprop-parameter-sets"] *)
Definition sprop_key : list Z :=
  [115; 112; 114; 111; 112; 45; 112; 97; 114; 97; 109; 101; 116; 101; 114; 45; 115; 101; 116; 115].

(** One parameter of the line. *)
Definition load_parameter (t : Tracker) (parameter : list Z) : mres Tracker :=
  match cut 61 parameter with
  | None => Ret t
  | Some (k, v) =>
    if negb (bool_decide (map tolower (trim k) = sprop_key)) then Ret t else
    for_each load_value (getlines 44 v) t
  end.

Definition LoadParameterSets (fmtp : list Z) (t : Tracker) : mres Tracker :=
  for_each load_parameter (getlines 59 fmtp) t.

(** ** H264Depacketizer *)

Record Depacketizer : Type := mkDepack {
  fmtp_ : list Z;
  packet_buffer_ : PacketBuffer;
  parameter_sets_ : Tracker;
  ready_frames_ : list H264AccessUnit }.

Definition H264Depacketizer (fmtp : list Z) : mres Depacketizer :=
  let! t := LoadParameterSets fmtp new_tracker in
  Ret (mkDepack fmtp (H264PacketBuffer default_config) t []).

Definition input (d : Depacketizer) (v : RtpView) (now : Z) : mres (Depacketizer * bool) :=
  if negb (view_valid v) then Ret (d, false) else
  let! '(ok, parsed) := Parse v in
  if negb ok then Ret (d, false) else
  if negb (pvalid parsed) then Ret (d, false) else
  let! '(b, result) := InsertPacket (packet_buffer_ d) parsed now in
  Ret (mkDepack (fmtp_ d) b (parameter_sets_ d) (ready_frames_ d ++ frames result),
       inserted result || duplicate result).

Definition hasFrame (d : Depacketizer) : bool :=
  match ready_frames_ d with [] => false | _ => true end.

Definition popAccessUnit (d : Depacketizer) : mres (Depacketizer * option H264AccessUnit) :=
  match ready_frames_ d with
  | [] => Ret (d, None)
  | f :: fs =>
    let! '(t, _) := UpdateAccessUnit (parameter_sets_ d) f in
    Ret (mkDepack (fmtp_ d) (packet_buffer_ d) t fs, Some f)
  end.

Definition popFrame (d : Depacketizer) : mres (Depacketizer * list Z) :=
  let! '(d, au) := popAccessUnit d in
  match au with None => Ret (d, []) | Some au => Ret (d, ToAnnexB au) end.

Definition Depacketizer_FlushExpired (d : Depacketizer) (now : Z) : mres (Depacketizer * bool) :=
  let! '(b, n) := FlushExpired (packet_buffer_ d) now in
  Ret (mkDepack (fmtp_ d) b (parameter_sets_ d) (ready_frames_ d), negb (n =? 0)).

Definition Depacketizer_Reset (d : Depacketizer) : mres Depacketizer :=
  let! t := LoadParameterSets (fmtp_ d) (Tracker_Reset (parameter_sets_ d)) in
  Ret (mkDepack (fmtp_ d) (Reset (packet_buffer_ d)) t []).

(** ** H264RtpDepacketizer *)

(** [common::MutableBuffer]: the bytes written and the capacity; [Append] beyond it
    throws. *)
Record MutableBuffer : Type := mkMutable {
  mbytes : list Z;
  mcapacity : Z }.

Definition Append (m : MutableBuffer) (view : list Z) : mres MutableBuffer :=
  if mcapacity m - blen (mbytes m) <? blen view then Fault
  else Ret (mkMutable (mbytes m ++ view) (mcapacity m)).

Definition AppendAnnexBNalu (out : MutableBuffer) (nalu : list Z) : mres MutableBuffer :=
  match nalu with
  | [] => Ret out
  | _ => let! out := Append out start_code in Append out nalu
  end.

Inductive FrameIntegrity : Type := Complete | Incomplete | Corrupted.
Inductive EncodedFrameType : Type := FrameUnknown | Key | Delta | Config_ | Audio.

(** The fields of [EncodedFrame] that [PopFrame] sets from the access unit; media type
    (video), codec (H.264), time base (1 / 90000) and sample rate are constants. *)
Record EncodedFrame : Type := mkEncoded {
  edts : Z; epts : Z; ereceive_time_ms : Z; eintegrity : FrameIntegrity;
  essrc : Z; ertp_timestamp : Z; efirst_sequence : Z; elast_sequence : Z; epacket_count : Z;
  eis_idr : bool; ehas_sps : bool; ehas_pps : bool; einjected : bool;
  ewidth : Z; eheight : Z; eframe_type : EncodedFrameType; ebuffer : list Z }.

Definition config_only (au : H264AccessUnit) : bool :=
  negb (fhas_idr au) && (fhas_sps au || fhas_pps au) &&
  forallb (fun n => match n with
                    | [] => false
                    | h :: _ => (H264GetNalType h =? nal_Sps) || (H264GetNalType h =? nal_Pps)
                    end) (fnalus au).

(** The size [PopFrame] allocates. *)
Definition annexb_size (ns : list (list Z)) (extra : list (list Z)) : Z :=
  let add total n := u64 (total + (4 + blen n)) in
  foldl add (foldl add 0 ns) extra.

Definition PopFrame (d : Depacketizer) : mres (Depacketizer * option EncodedFrame) :=
  let! '(d, au) := popAccessUnit d in
  match au with
  | None => Ret (d, None)
  | Some au =>
    let sps := LatestSps (parameter_sets_ d) in
    let pps := LatestPps (parameter_sets_ d) in
    let inject_sps := match sps with
                      | Some s => if fhas_idr au && negb (fhas_sps au) then [spayload s] else []
                      | None => [] end in
    let inject_pps := match pps with
                      | Some p => if fhas_idr au && negb (fhas_pps au) then [ppayload p] else []
                      | None => [] end in
    let size := annexb_size (fnalus au) (inject_sps ++ inject_pps) in
    let! buffer := for_each AppendAnnexBNalu (inject_sps ++ inject_pps ++ fnalus au)
                     (mkMutable [] size) in
    let some (l : list (list Z)) := match l with [] => false | _ => true end in
    Ret (d, Some (mkEncoded (ftimestamp au) (ftimestamp au) (freceive_time_ms au)
      (if fbroken au then Corrupted else if fcomplete au then Complete else Incomplete)
      (fssrc au) (ftimestamp au) (first_seq au) (last_seq au)
      (u16 (last_seq au - first_seq au) + 1)
      (fhas_idr au) (fhas_sps au || some inject_sps) (fhas_pps au || some inject_pps)
      (some inject_sps || some inject_pps)
      (match sps with Some s => swidth s | None => -1 end)
      (match sps with Some s => sheight s | None => -1 end)
      (if config_only au then Config_ else if fhas_idr au then Key else Delta)
      (mbytes buffer)))
  end.
