(* ===== verification/H264Output.v ===== *)
(** * What the depacketizer hands out

    Properties of the [fmtp] line, the parameter set tracker and [PopFrame]: parameter
    sets in the SDP work as the same NAL units in the stream would, the latest ones are
    kept, and a frame's buffer is the Annex B form of its NAL units behind the parameter
    sets a key frame lacks. *)
From S2P Require Import Prelude Bytes H264 H264Buffer H264BufferInv H264Frames H264Delivery H264Sender H264Params H264Depacketizer.

(** ** Base64 *)

Definition b64_char (d : Z) : Z :=
  if d <? 26 then d + 65 else if d <? 52 then d - 26 + 97
  else if d <? 62 then d - 52 + 48 else if d =? 62 then 43 else 47.

(** RFC 4648, with padding. *)
Fixpoint b64_encode (l : list Z) : list Z :=
  match l with
  | [] => []
  | [a] => [b64_char (a / 4); b64_char (a mod 4 * 16); 61; 61]
  | [a; b] => [b64_char (a / 4); b64_char (a mod 4 * 16 + b / 16); b64_char (b mod 16 * 4); 61]
  | a :: b :: c :: l =>
    b64_char (a / 4) :: b64_char (a mod 4 * 16 + b / 16) :: b64_char (b mod 16 * 4 + c / 64) ::
    b64_char (c mod 64) :: b64_encode l
  end.

(** A digit is read back, and its character is no padding, space, comma or semicolon. *)
Definition char_ok (d : Z) : bool :=
  (b64_digit (b64_char d) =? d) && negb (b64_char d =? 61) && negb (is_space (b64_char d)) &&
  negb (b64_char d =? 44) && negb (b64_char d =? 59).

Lemma chars_ok d : 0 <= d < 64 -> char_ok d = true.
Proof.
  intros Hd. assert (forallb char_ok (seqZ 0 64) = true) as H by (vm_compute; reflexivity).
  rewrite forallb_forall in H. apply H. apply list_elem_of_In, elem_of_seqZ. lia.
Qed.

(** One digit. *)
Lemma b64_step d s acc bits out :
  0 <= d < 64 ->
  b64_loop (b64_char d :: s) acc bits false out =
  let acc := u32 (acc * 64 + d) in
  if 8 <=? bits + 6
  then b64_loop s acc (bits - 2) false (out ++ [u8 (Z.shiftr acc (bits - 2))])
  else b64_loop s acc (bits + 6) false out.
Proof.
  intros Hd. pose proof (chars_ok d Hd) as Hc. unfold char_ok in Hc.
  rewrite !andb_true_iff, !negb_true_iff in Hc. destruct Hc as ((((Hc%Z.eqb_eq & He) & _) & _) & _).
  cbn [b64_loop]. rewrite He, Hc, (proj2 (Z.ltb_ge d 0)) by lia. cbn [orb].
  rewrite lor_shiftl_add by (change (2 ^ 6) with 64; lia). change (2 ^ 6) with 64.
  cbn zeta. by replace (bits + 6 - 8) with (bits - 2) by lia.
Qed.

Lemma b64_byte X k : 0 <= k <= 24 -> u8 (Z.shiftr (u32 X) k) = X / 2 ^ k mod 256.
Proof.
  intros Hk. rewrite Z.shiftr_div_pow2 by lia. unfold wrap.
  change (2 ^ 8) with 256. apply Z.bits_inj'. intros n Hn. change 256 with (2 ^ 8).
  rewrite !Z.testbit_mod_pow2 by lia. destruct (Z.ltb_spec n 8); [|done]. cbn [andb].
  rewrite !Z.div_pow2_bits by lia. rewrite Z.mod_pow2_bits_low by lia. done.
Qed.

Lemma u32_shift X d : u32 (u32 X * 64 + d) = u32 (X * 64 + d).
Proof. unfold wrap. pow2. Z.div_mod_to_equations. lia. Qed.

(** The two, three or four digits of a group. *)
Lemma b64_two d1 d2 s X out :
  0 <= d1 < 64 -> 0 <= d2 < 64 ->
  b64_loop (b64_char d1 :: b64_char d2 :: s) (u32 X) 0 false out =
  b64_loop s (u32 (X * 4096 + d1 * 64 + d2)) 4 false (out ++ [d1 * 4 + d2 / 16]).
Proof.
  intros H1 H2. rewrite b64_step by done. change (8 <=? 0 + 6) with false. cbn iota zeta.
  rewrite (b64_step d2) by done. change (8 <=? 0 + 6 + 6) with true. cbn iota zeta.
  change (0 + 6 - 2) with 4. rewrite !(u32_shift X), !u32_shift, b64_byte by lia.
  change (2 ^ 4) with 16. f_equal; [f_equal; lia|].
  do 2 f_equal. Z.div_mod_to_equations. lia.
Qed.

Lemma b64_three d s X out :
  0 <= d < 64 ->
  b64_loop (b64_char d :: s) (u32 X) 4 false out =
  b64_loop s (u32 (X * 64 + d)) 2 false (out ++ [X mod 16 * 16 + d / 4]).
Proof.
  intros H. rewrite b64_step by done. change (8 <=? 4 + 6) with true. cbn iota zeta.
  change (4 - 2) with 2. rewrite !u32_shift, b64_byte by lia.
  change (2 ^ 2) with 4. do 3 f_equal. Z.div_mod_to_equations. lia.
Qed.

Lemma b64_four d s X out :
  0 <= d < 64 ->
  b64_loop (b64_char d :: s) (u32 X) 2 false out =
  b64_loop s (u32 (X * 64 + d)) 0 false (out ++ [X mod 4 * 64 + d]).
Proof.
  intros H. rewrite b64_step by done. change (8 <=? 2 + 6) with true. cbn iota zeta.
  change (2 - 2) with 0. rewrite !u32_shift, b64_byte by lia.
  change (2 ^ 0) with 1. do 3 f_equal. Z.div_mod_to_equations. lia.
Qed.

Ltac digits := pow2; Z.div_mod_to_equations; lia.

(** Decoding what was encoded. *)
Lemma b64_decodes l : bytes_ok l -> forall X out,
  exists bits, b64_loop (b64_encode l) (u32 X) 0 false out = Some (out ++ l, bits) /\ bits <> 6.
Proof.
  remember (length l) as n eqn:En. revert l En.
  induction (lt_wf n) as [n _ IH]; intros l En Hl X out. unfold bytes_ok, is_u in Hl.
  destruct l as [|a [|b [|c l]]]; rewrite ?Forall_cons in Hl.
  - exists 0. by rewrite app_nil_r.
  - destruct Hl as [Ha _]. exists 4. split; [|done].
    cbn [b64_encode]. rewrite b64_two by digits. simpl. do 4 f_equal. digits.
  - destruct Hl as (Ha & Hb & _). exists 2. split; [|done].
    cbn [b64_encode]. rewrite b64_two, b64_three by digits. simpl.
    rewrite <- app_assoc. simpl. repeat f_equal; digits.
  - destruct Hl as (Ha & Hb & Hc & Hl). cbn [b64_encode].
    rewrite b64_two, b64_three, b64_four by digits.
    destruct (IH (length l)) with (l := l) (X := (((X * 4096 + a / 4 * 64 + (a mod 4 * 16 + b / 16)) * 64 + (b mod 16 * 4 + c / 64)) * 64 + c mod 64))
      (out := (((out ++ [a / 4 * 4 + (a mod 4 * 16 + b / 16) / 16]) ++
       [(X * 4096 + a / 4 * 64 + (a mod 4 * 16 + b / 16)) mod 16 * 16 + (b mod 16 * 4 + c / 64) / 4]) ++
      [((X * 4096 + a / 4 * 64 + (a mod 4 * 16 + b / 16)) * 64 + (b mod 16 * 4 + c / 64)) mod 4 * 64 +
       c mod 64])) as (bits & E & Hb'); [subst; simpl; lia|done|done|].
    exists bits. split; [|done]. rewrite E. do 2 f_equal. rewrite <- !app_assoc. simpl. f_equal.
    do 2 (f_equal; [digits|]). f_equal. digits.
Qed.

(** ** Splitting *)

(** The inverse of [getlines]. *)
Fixpoint join (d : Z) (ls : list (list Z)) : list Z :=
  match ls with
  | [] => []
  | [l] => l
  | l :: ls => l ++ d :: join d ls
  end.

Lemma split_on_app d l s :
  Forall (fun x => x <> d) l -> split_on d (l ++ s) = let '(p, ps) := split_on d s in (l ++ p, ps).
Proof.
  induction 1 as [|x l Hx _ IH]; simpl; [by destruct (split_on d s)|].
  rewrite IH. destruct (split_on d s) as [p ps]. by rewrite (proj2 (Z.eqb_neq x d)).
Qed.

Lemma split_on_join d ls : forall l,
  Forall (Forall (fun x => x <> d)) (l :: ls) -> split_on d (join d (l :: ls)) = (l, ls).
Proof.
  induction ls as [|l' ls IH]; intros l Hl; apply Forall_cons in Hl as [Hl Hls].
  - simpl. rewrite <- (app_nil_r l) at 1. rewrite split_on_app by done. simpl. by rewrite app_nil_r.
  - change (join d (l :: l' :: ls)) with (l ++ d :: join d (l' :: ls)).
    rewrite split_on_app by done. cbn [split_on]. rewrite IH by done.
    by rewrite Z.eqb_refl, app_nil_r.
Qed.

Lemma getlines_join d ls :
  Forall (Forall (fun x => x <> d)) ls -> Forall (fun l => l <> []) ls -> getlines d (join d ls) = ls.
Proof.
  intros Hd Hne. destruct ls as [|l ls]; [done|]. unfold getlines. rewrite split_on_join by done.
  destruct (last (l :: ls)) as [[|x y]|] eqn:E; [|done..].
  apply last_Some_elem_of in E. rewrite Forall_forall in Hne. by destruct (Hne [] E).
Qed.

Lemma skip_space_id s : Forall (fun x => is_space x = false) s -> skip_space s = s.
Proof. destruct 1 as [|x s Hx]; simpl; [done|]. by rewrite Hx. Qed.

Lemma trim_id s : Forall (fun x => is_space x = false) s -> trim s = s.
Proof.
  intros Hs. unfold trim. rewrite (skip_space_id s) by done.
  rewrite skip_space_id; [apply rev_involutive|]. by apply Forall_rev.
Qed.

(** Characters of an encoding: digits and padding. *)
Lemma b64_encode_chars l :
  bytes_ok l -> Forall (fun x => x = 61 \/ exists d, 0 <= d < 64 /\ x = b64_char d) (b64_encode l).
Proof.
  remember (length l) as n eqn:En. revert l En.
  induction (lt_wf n) as [n _ IH]; intros l En Hl. unfold bytes_ok, is_u in Hl.
  assert (forall d, 0 <= d < 64 -> b64_char d = 61 \/ exists d', 0 <= d' < 64 /\ b64_char d = b64_char d')
    as Hc by (intros d Hd; right; by exists d).
  destruct l as [|a [|b [|c l]]]; rewrite ?Forall_cons in Hl; cbn [b64_encode].
  - constructor.
  - do 4 (apply Forall_cons_2; [first [by left|apply Hc; digits]|]). constructor.
  - do 4 (apply Forall_cons_2; [first [by left|apply Hc; digits]|]). constructor.
  - do 4 (apply Forall_cons_2; [apply Hc; digits|]).
    eapply (IH (length l)); [subst; simpl; lia|done|apply Hl].
Qed.

Lemma b64_encode_clean (P : Z -> Prop) l :
  bytes_ok l -> P 61 ->
  (forall x, negb (is_space x) && negb (x =? 44) && negb (x =? 59) = true -> P x) ->
  Forall P (b64_encode l).
Proof.
  intros Hl HP H. eapply Forall_impl; [by apply b64_encode_chars|].
  intros x [->|(d & Hd & ->)]; [done|]. apply H. pose proof (chars_ok d Hd) as Hc. unfold char_ok in Hc.
  rewrite !andb_true_iff in *. tauto.
Qed.

Lemma b64_encode_ne l : l <> [] -> b64_encode l <> [].
Proof. by destruct l as [|a [|b [|c l]]]. Qed.

(** One encoded parameter set acts as the NAL unit would in an access unit. *)
Lemma load_value_encoded t n :
  bytes_ok n -> n <> [] -> blen (b64_encode n) <= 16384 ->
  load_value t (b64_encode n) = (let! '(t, _) := update_nalu t false n in Ret t).
Proof.
  intros Hb Hne Hlen. unfold load_value. rewrite trim_id.
  2: { apply b64_encode_clean; [done|done|]. intros x Hx. rewrite !andb_true_iff in Hx.
       by destruct Hx as [[Hx%negb_true_iff _] _]. }
  destruct (b64_encode n) as [|x e] eqn:E; [by apply b64_encode_ne in E|]. rewrite <- E in *. clear E x e.
  rewrite (proj2 (Z.ltb_ge 16384 _)) by lia. cbn [orb].
  destruct (b64_decodes n Hb 0 []) as (bits & E & Hbits). change (u32 0) with 0 in E. rewrite E. cbn [app].
  destruct n as [|h n]; [done|]. rewrite (proj2 (Z.eqb_neq bits 6)) by done.
  unfold update_nalu, H264GetNalType. change 0x1F with 31.
  destruct (_ =? 7); [by destruct (UpdateSps _ _) as [[]| |]|].
  destruct (_ =? 8); [by destruct (UpdatePps _ _) as [[]| |]|done].
Qed.

Lemma update_nalu_flag t u n :
  update_nalu t u n = (let! '(t, u') := update_nalu t false n in Ret (t, u' || u)).
Proof.
  unfold update_nalu. destruct n as [|h n]; [done|].
  destruct (_ =? 7); [destruct (UpdateSps _ _) as [[]| |]; simpl; by rewrite ?orb_false_r|].
  destruct (_ =? 8); [destruct (UpdatePps _ _) as [[]| |]; simpl; by rewrite ?orb_false_r|done].
Qed.

Lemma update_nalus_flag ns : forall t u,
  (let! '(t, _) := update_nalus t u ns in Ret t) = (let! '(t, _) := update_nalus t false ns in Ret t).
Proof.
  induction ns as [|n ns IH]; intros t u; simpl; [done|]. rewrite update_nalu_flag.
  destruct (update_nalu t false n) as [[t' u']| |]; simpl; [|done..].
  rewrite IH. by rewrite <- (IH t' u').
Qed.

Lemma load_values_encoded ns : forall t,
  Forall (fun n => bytes_ok n /\ n <> [] /\ blen (b64_encode n) <= 16384) ns ->
  for_each load_value (map b64_encode ns) t = (let! '(t, _) := update_nalus t false ns in Ret t).
Proof.
  induction ns as [|n ns IH]; intros t Hns; simpl; [done|]. apply Forall_cons in Hns as [(? & ? & ?) Hns].
  rewrite load_value_encoded by done. destruct (update_nalu t false n) as [[t' u']| |]; simpl; [|done..].
  rewrite IH by done. by rewrite (update_nalus_flag ns t' u').
Qed.

(** The [sprop-parameter-sets] parameter a sender writes for [ns]. *)
Definition sprop_parameter (ns : list (list Z)) : list Z :=
  sprop_key ++ 61 :: join 44 (map b64_encode ns).

(** Another parameter of the line: not empty, no semicolon, another name. *)
Definition other_parameter (p : list Z) : Prop :=
  p <> [] /\ Forall (fun x => x <> 59) p /\
  forall k v, cut 61 p = Some (k, v) -> map tolower (trim k) <> sprop_key.

Definition sets_ok (ns : list (list Z)) : Prop :=
  Forall (fun n => bytes_ok n /\ n <> [] /\ blen (b64_encode n) <= 16384) ns.

Lemma load_sprop t ns :
  sets_ok ns -> load_parameter t (sprop_parameter ns) = (let! '(t, _) := update_nalus t false ns in Ret t).
Proof.
  intros Hns. unfold load_parameter, sprop_parameter.
  assert (cut 61 (sprop_key ++ 61 :: join 44 (map b64_encode ns)) =
          Some (sprop_key, join 44 (map b64_encode ns))) as -> by done.
  rewrite bool_decide_eq_true_2 by (by vm_compute). cbn [negb].
  rewrite getlines_join; [by apply load_values_encoded| |].
  - apply Forall_map. eapply Forall_impl; [exact Hns|]. intros n (Hn & _). simpl.
    apply b64_encode_clean; [done|done|]. intros x Hx -> . done.
  - apply Forall_map. eapply Forall_impl; [exact Hns|]. intros n (_ & Hn & _). by apply b64_encode_ne.
Qed.

Lemma load_others ps : forall t, Forall other_parameter ps -> for_each load_parameter ps t = Ret t.
Proof.
  induction ps as [|p ps IH]; intros t Hps; simpl; [done|]. apply Forall_cons in Hps as [(_ & _ & Hp) Hps].
  unfold load_parameter at 1. destruct (cut 61 p) as [[k v]|] eqn:E; [|by apply IH].
  rewrite bool_decide_eq_false_2 by (by eapply Hp). by apply IH.
Qed.

Lemma for_each_app {A S} (body : S -> A -> mres S) l1 l2 : forall s,
  for_each body (l1 ++ l2) s = (let! s := for_each body l1 s in for_each body l2 s).
Proof. induction l1 as [|x l1 IH]; intros s; simpl; [done|]. destruct (body s x); simpl; auto. Qed.

Lemma join_no d e (ls : list (list Z)) : d <> e -> Forall (Forall (fun x => x <> d)) ls -> Forall (fun x => x <> d) (join e ls).
Proof.
  intros Hde. induction ls as [|l [|l' ls] IH]; intros H; apply Forall_cons in H || constructor.
  - by destruct H.
  - destruct H as [H1 H2]. cbn [join]. apply Forall_app. split; [done|]. constructor; [done|]. by apply IH.
Qed.

Lemma sprop_no_semicolon ns : sets_ok ns -> Forall (fun x => x <> 59) (sprop_parameter ns).
Proof.
  intros Hns. unfold sprop_parameter. apply Forall_app. split; [by repeat constructor|].
  constructor; [done|]. apply join_no; [done|]. apply Forall_map.
  eapply Forall_impl; [exact Hns|]. intros n (Hn & _). simpl.
  apply b64_encode_clean; [done|done|]. by intros x Hx ->.
Qed.

(** Parameter sets in the SDP. Loading a format line whose [sprop-parameter-sets]
    parameter lists the NAL units [ns] in base64, with any other parameters before and after
    it, is equivalent to receiving [ns] in an access unit: same sets stored, same ones latest,
    same failures. *)
Theorem h264_sprop_loads ps qs ns t :
  Forall other_parameter ps -> Forall other_parameter qs -> sets_ok ns ->
  LoadParameterSets (join 59 (ps ++ sprop_parameter ns :: qs)) t =
  (let! '(t, _) := update_nalus t false ns in Ret t).
Proof.
  intros Hps Hqs Hns. unfold LoadParameterSets.
  assert (Forall (fun p => Forall (fun x => x <> 59) p /\ p <> []) (ps ++ sprop_parameter ns :: qs)) as Hall.
  { assert (forall l, Forall other_parameter l -> Forall (fun p => Forall (fun x => x <> 59) p /\ p <> []) l)
      as Ho by (intros l Hl; eapply Forall_impl; [exact Hl|]; by intros ? (? & ? & ?)).
    apply Forall_app. split; [by apply Ho|]. constructor; [|by apply Ho].
    split; [by apply sprop_no_semicolon|done]. }
  rewrite getlines_join by (eapply Forall_impl; [exact Hall|]; by intros ? [? ?]).
  rewrite for_each_app, load_others by done. cbn [mbnd for_each]. rewrite load_sprop by done.
  destruct (update_nalus t false ns) as [[t' u]| |]; simpl; [|done..]. by apply load_others.
Qed.

(** ** The latest parameter sets *)

Local Arguments ParseSps : simpl never.
Local Arguments ParsePps : simpl never.
Local Arguments H264GetNalType : simpl never.

Definition parsed_by {A} (parse : cbuf -> mres (option A)) (n : list Z) : option A :=
  match parse (Some n) with Ret r => r | _ => None end.

(** The last NAL unit of type [ty] that parses, [cur] when there is none. *)
Definition latest_of {A} (parse : cbuf -> mres (option A)) (ty : Z) (ns : list (list Z)) (cur : option A) : option A :=
  foldl (fun cur n => match n with
                      | [] => cur
                      | h :: _ => if H264GetNalType h =? ty
                                  then match parsed_by parse n with Some i => Some i | None => cur end
                                  else cur
                      end) cur ns.

Definition latest_sps := latest_of ParseSps 7.
Definition latest_pps := latest_of ParsePps 8.

Lemma update_nalus_latest ns : forall t u,
  Forall (fun n => bytes_ok n /\ returns (ParseSps (Some n))) ns ->
  exists t' u', update_nalus t u ns = Ret (t', u') /\
    LatestSps t' = latest_sps ns (LatestSps t) /\ LatestPps t' = latest_pps ns (LatestPps t).
Proof.
  induction ns as [|n ns IH]; intros t u Hns; simpl; [by eauto|].
  apply Forall_cons in Hns as [[Hb [s Es]] Hns]. destruct (ParsePps_returns n Hb) as [p Ep].
  assert (exists t1 u1, update_nalu t u n = Ret (t1, u1) /\
    LatestSps t1 = latest_sps [n] (LatestSps t) /\ LatestPps t1 = latest_pps [n] (LatestPps t))
    as (t1 & u1 & -> & H1 & H2).
  { unfold update_nalu, latest_sps, latest_pps, latest_of, UpdateSps, UpdatePps, parsed_by. simpl.
    destruct n as [|h n]; [by eauto|]. rewrite Es, Ep. simpl.
    destruct (Z.eqb_spec (H264GetNalType h) 7) as [->|_]; simpl.
    - destruct s as [i|]; simpl; [|by eauto]. do 2 eexists. split; [reflexivity|].
      unfold LatestSps, LatestPps, GetSps, GetPps. simpl. by rewrite lookup_insert_eq.
    - destruct (H264GetNalType h =? 8); simpl; [|by eauto].
      destruct p as [i|]; simpl; [|by eauto]. do 2 eexists. split; [reflexivity|].
      unfold LatestSps, LatestPps, GetSps, GetPps. simpl. by rewrite lookup_insert_eq. }
  simpl. destruct (IH t1 u1 Hns) as (t' & u' & E & H3 & H4). exists t', u'. split; [done|].
  rewrite H3, H4, H1, H2. by split.
Qed.

(** ** Annex B *)

Definition annexb (ns : list (list Z)) : list Z :=
  concat (map (fun n => match n with [] => [] | _ => start_code ++ n end) ns).

(** The bytes [PopFrame] asks for. *)
Definition annexb_room (ns : list (list Z)) : Z := foldr (fun n total => 4 + blen n + total) 0 ns.

Lemma annexb_room_nonneg ns : 0 <= annexb_room ns.
Proof. induction ns as [|n ns IH]; simpl; [lia|]. pose proof (blen_nonneg n). lia. Qed.

Lemma append_nalus ns : forall b cap,
  blen b + annexb_room ns <= cap ->
  for_each AppendAnnexBNalu ns (mkMutable b cap) = Ret (mkMutable (b ++ annexb ns) cap).
Proof.
  induction ns as [|n ns IH]; intros b cap Hc; simpl; [by rewrite app_nil_r|]. simpl in Hc.
  pose proof (annexb_room_nonneg ns). pose proof (blen_nonneg n).
  destruct n as [|x n]; simpl; [apply IH; lia|]. unfold Append. simpl.
  change (blen start_code) with 4. rewrite (proj2 (Z.ltb_ge _ _)) by lia. cbn [mbnd].
  simpl. rewrite blen_app. change (blen start_code) with 4. rewrite (proj2 (Z.ltb_ge _ _)) by lia.
  cbn [mbnd]. rewrite IH by (rewrite !blen_app; change (blen start_code) with 4; lia).
  unfold annexb. simpl. by rewrite <- !app_assoc.
Qed.

Lemma annexb_size_room ns ms :
  annexb_room (ns ++ ms) < 2 ^ 64 -> annexb_size ns ms = annexb_room (ns ++ ms).
Proof.
  unfold annexb_size. rewrite <- foldl_app. generalize (ns ++ ms). clear ns ms. intros ns.
  assert (forall a, 0 <= a -> a + annexb_room ns < 2 ^ 64 ->
    foldl (fun total n => u64 (total + (4 + blen n))) a ns = a + annexb_room ns) as H.
  { induction ns as [|n ns IH]; intros a Ha Hlt; simpl in *; [lia|].
    pose proof (annexb_room_nonneg ns). pose proof (blen_nonneg n).
    rewrite (wrap_small 64) by (unfold is_u; lia). rewrite IH; lia. }
  intros Hlt. by rewrite (H 0).
Qed.

Lemma annexb_room_app ns ms : annexb_room (ns ++ ms) = annexb_room ns + annexb_room ms.
Proof. induction ns as [|n ns IH]; simpl; [done|]. lia. Qed.

(** The parameter sets put before a key frame that lacks them. *)
Definition injected (au : H264AccessUnit) (sps : option SpsInfo) (pps : option PpsInfo) : list (list Z) :=
  (if fhas_idr au && negb (fhas_sps au) then option_list (spayload <$> sps) else []) ++
  (if fhas_idr au && negb (fhas_pps au) then option_list (ppayload <$> pps) else []).

(** What is handed out. [PopFrame] takes the oldest access unit, after its own parameter
    sets have been noted and none of a later one. It never overruns the buffer it allocates;
    the buffer holds exactly the NAL units in Annex B form, preceded by the latest SPS and PPS
    when the access unit has an IDR slice and lacks them, so a key frame carries both flags as
    soon as both sets are known; the picture size is that of the latest SPS; and a frame is a
    key frame exactly when it has an IDR slice. *)
Theorem h264_pop_frame d au more :
  ready_frames_ d = au :: more ->
  Forall (fun n => bytes_ok n /\ returns (ParseSps (Some n))) (fnalus au) ->
  let sps := latest_sps (fnalus au) (LatestSps (parameter_sets_ d)) in
  let pps := latest_pps (fnalus au) (LatestPps (parameter_sets_ d)) in
  annexb_room (fnalus au ++ injected au sps pps) < 2 ^ 64 ->
  exists d' e, PopFrame d = Ret (d', Some e) /\
    ready_frames_ d' = more /\ packet_buffer_ d' = packet_buffer_ d /\
    LatestSps (parameter_sets_ d') = sps /\ LatestPps (parameter_sets_ d') = pps /\
    ebuffer e = annexb (injected au sps pps ++ fnalus au) /\
    eis_idr e = fhas_idr au /\
    ehas_sps e = fhas_sps au || fhas_idr au && bool_decide (is_Some sps) /\
    ehas_pps e = fhas_pps au || fhas_idr au && bool_decide (is_Some pps) /\
    (ewidth e, eheight e) = from_option (fun s => (swidth s, sheight s)) (-1, -1) sps /\
    (eframe_type e = Key <-> fhas_idr au = true).
Proof.
  intros Erf Hret sps pps Hroom. unfold PopFrame, popAccessUnit. rewrite Erf. unfold UpdateAccessUnit.
  destruct (update_nalus_latest (fnalus au) (parameter_sets_ d) false Hret) as (t & u & -> & Hs & Hp).
  fold sps in Hs. fold pps in Hp. cbn [mbnd parameter_sets_]. rewrite Hs, Hp.
  assert (match sps with
          | Some s => if fhas_idr au && negb (fhas_sps au) then [spayload s] else []
          | None => [] end = if fhas_idr au && negb (fhas_sps au) then option_list (spayload <$> sps) else [])
    as -> by (destruct sps, (_ && _); done).
  assert (match pps with
          | Some p => if fhas_idr au && negb (fhas_pps au) then [ppayload p] else []
          | None => [] end = if fhas_idr au && negb (fhas_pps au) then option_list (ppayload <$> pps) else [])
    as -> by (destruct pps, (_ && _); done).
  fold (injected au sps pps). rewrite annexb_size_room by done. rewrite app_assoc. fold (injected au sps pps).
  rewrite append_nalus by (rewrite !annexb_room_app; change (blen []) with 0; lia). cbn [mbnd].
  do 2 eexists. split; [reflexivity|]. cbn [ready_frames_ packet_buffer_ parameter_sets_ ebuffer eis_idr
    ehas_sps ehas_pps ewidth eheight eframe_type mbytes app].
  repeat (split; [done|]).
  split; [destruct sps, (fhas_idr au), (fhas_sps au); done|].
  split; [destruct pps, (fhas_idr au), (fhas_pps au); done|].
  split; [by destruct sps|]. unfold config_only.
  destruct (fhas_idr au); simpl; [done|]. by destruct (_ && _).
Qed.

(** ** Any packets from the network *)

Inductive DepackOp : Type :=
| DInput (v : RtpView) (now : Z)
| DFlush (now : Z).

Definition depack_step (d : Depacketizer) (op : DepackOp) : mres Depacketizer :=
  match op with
  | DInput v now => let! '(d, _) := input d v now in Ret d
  | DFlush now => let! '(d, _) := Depacketizer_FlushExpired d now in Ret d
  end.

(** What the packet buffer is asked to do. *)
Definition buffer_op (op : DepackOp) : list BufferOp :=
  match op with
  | DInput v now => match Parse v with
                    | Ret (true, p) => if view_valid v && pvalid p then [OpInsert p now] else []
                    | _ => []
                    end
  | DFlush now => [OpFlush now]
  end.

Definition op_bytes_ok (op : DepackOp) : Prop :=
  match op with DInput v _ => from_option bytes_ok True (vpayload v) | DFlush _ => True end.

Lemma depack_run_buffer ops : forall d b fs h,
  Forall op_bytes_ok ops ->
  buffer_run (packet_buffer_ d) (concat (map buffer_op ops)) = Ret (b, fs, h) ->
  for_each depack_step ops d = Ret (mkDepack (fmtp_ d) b (parameter_sets_ d) (ready_frames_ d ++ fs)).
Proof.
  induction ops as [|op ops IH]; intros d b fs h Hops Hrun; simpl in *.
  { injection Hrun as <- <- _. rewrite app_nil_r. by destruct d. }
  apply Forall_cons in Hops as [Hop Hops]. destruct op as [v now|now]; simpl in *.
  - unfold input. destruct (h264_parse_safe v Hop) as (ok & p & E & _). rewrite E in *.
    destruct (view_valid v); simpl in *; [|destruct ok; by eapply IH].
    destruct ok; simpl in *; [|by eapply IH]. destruct (pvalid p); simpl in *; [|by eapply IH].
    destruct (InsertPacket _ _ _) as [[b1 r]| |]; simpl in *; [|done..].
    destruct (buffer_run b1 _) as [[[b2 fs2] h2]| |] eqn:E2; simpl in Hrun; [|done..].
    injection Hrun as <- <- _. erewrite IH; [|done|exact E2]. simpl. by rewrite app_assoc.
  - unfold Depacketizer_FlushExpired. destruct (FlushExpired _ _) as [[b1 n]| |]; simpl in *; [|done..].
    destruct (buffer_run b1 _) as [[[b2 fs2] h2]| |] eqn:E2; simpl in Hrun; [|done..].
    injection Hrun as <- <- _. by erewrite IH; [|done|exact E2].
Qed.

(** C2. Only genuine frames. Whatever bytes arrive as packets, in whatever order and at
    whatever times, a new depacketizer handles them without a fault, and every access unit it
    makes available is made of packets that were received under consecutive RTP sequence
    numbers (modulo 2^16): all of the access unit's SSRC and timestamp, the last one with the
    marker, at most the allowed number.  Its NAL units are theirs, in order: each one whole in
    a packet, or joined from fragments from a start to an end with none missing; and the access
    units come in sequence number order without overlap. *)
Theorem h264_depacketizer_sound fmtp t ops :
  Forall op_bytes_ok ops ->
  exists d h rs e,
    for_each depack_step ops (mkDepack fmtp (H264PacketBuffer default_config) t []) = Ret d /\
    Forall2 (frame_sound default_config h) (ready_frames_ d) rs /\ chain None rs e /\
    forall q p, (q, p) ∈ h -> exists v now, DInput v now ∈ ops /\ Parse v = Ret (true, p) /\
      u16 q = u16 (vseq v) /\ same_header v p.
Proof.
  intros Hops.
  destruct (buffer_run_sound default_config (concat (map buffer_op ops)) ltac:(done))
    as (b & fs & h & rs & e & Hrun & Hf & Hch).
  eexists. exists h, rs, e. split; [by apply (depack_run_buffer ops _ b fs h)|].
  split; [done|]. split; [done|]. intros q p Hin.
  destruct (buffer_run_origin _ _ _ _ _ _ _ Hrun Hin) as [Hq [now Ho]].
  apply list_elem_of_In, in_concat in Ho as (l & Hl & Ho).
  apply in_map_iff in Hl as (op & <- & Hop). destruct op as [v t'|t']; simpl in Ho.
  - destruct (Parse v) as [[[] p']| |] eqn:E; try done. destruct (_ && _); [|done].
    destruct Ho as [[= -> ->]|[]]. pose proof (Parse_header v p E) as Hh.
    exists v, now. split; [by apply list_elem_of_In|]. split; [done|]. split; [|done].
    destruct Hh as (_ & <- & _). done.
  - by destruct Ho.
Qed.

Lemma h264_depacketizer_sound_witness :
  let ops := [DInput (mkView 7 90000 true (Some [0x65; 0x88; 1; 2]) 5 0) 10; DFlush 20;
              DInput (mkView 8 93000 true (Some [0x7C; 0xFF]) 5 0) 30] in
  exists d h rs e,
    for_each depack_step ops (mkDepack [] (H264PacketBuffer default_config) new_tracker []) = Ret d /\
    Forall2 (frame_sound default_config h) (ready_frames_ d) rs /\ chain None rs e.
Proof.
  intros ops. destruct (h264_depacketizer_sound [] new_tracker ops) as (d & h & rs & e & H1 & H2 & H3 & _).
  { repeat (apply Forall_cons_2; [by repeat (apply Forall_cons_2; [done|])|]). apply Forall_nil_2. }
  exists d, h, rs, e. split; [exact H1|]. split; [exact H2|exact H3].
Defined.

(** The bytes of [sps_nalu 0x67 sample_fields], and a PPS. *)
Definition sample_sets : list (list Z) :=
  [[103; 66; 192; 30; 237; 1; 64; 95; 242; 128]; [0x68; 0xCE; 0x38; 0x80]].

(** [a=1] before a line with an SPS and a PPS. *)
Lemma h264_sprop_loads_witness :
  exists t, LoadParameterSets (join 59 [[97; 61; 49]; sprop_parameter sample_sets]) new_tracker = Ret t /\
    swidth <$> LatestSps t = Some 640.
Proof.
  assert (other_parameter [97; 61; 49]) as Ho.
  { split; [done|]. split; [by repeat (apply Forall_cons_2; [done|])|]. by intros k v [= <- <-]. }
  assert (sets_ok sample_sets) as Hs.
  { repeat (apply Forall_cons_2; [split; [by repeat (apply Forall_cons_2; [done|])|by split]|]).
    apply Forall_nil_2. }
  pose proof (h264_sprop_loads [[97; 61; 49]] [] sample_sets new_tracker
    (Forall_cons_2 _ _ _ Ho (Forall_nil_2 _)) (Forall_nil_2 _) Hs) as H.
  cbn [app] in H. rewrite H. eexists. split; [vm_compute; reflexivity|]. by vm_compute.
Defined.

(** A key frame whose parameter sets came earlier. *)
Lemma h264_pop_frame_witness :
  let au := mkAU 5 90000 0 7 7 true false true true false false true [[0x65; 0x88]] in
  let t := mkTracker {[0 := mkSps 0 640 360 [0x67; 66]]} {[0 := mkPps 0 0 [0x68; 1]]} 0 0 true true in
  let d := mkDepack [] (H264PacketBuffer default_config) t [au] in
  exists d' e, PopFrame d = Ret (d', Some e) /\
    ebuffer e = start_code ++ [0x67; 66] ++ start_code ++ [0x68; 1] ++ start_code ++ [0x65; 0x88] /\
    eframe_type e = Key.
Proof.
  intros au t d. destruct (h264_pop_frame d au []) as (d' & e & H1 & _ & _ & _ & _ & H2 & _ & _ & _ & _ & H3).
  - done.
  - apply Forall_cons_2; [|apply Forall_nil_2]. split; [by repeat (apply Forall_cons_2; [done|])|].
    eexists. by vm_compute.
  - by vm_compute.
  - exists d', e. split; [done|]. split; [by rewrite H2; vm_compute|by apply H3].
Defined.
