(* ===== verification/H264Stream.v ===== *)
(** * H.264 streams end to end

    What a sender packetizes as RFC 6184 describes and the network delivers in time, in
    any order within an access unit, comes out of the depacketizer as the same access
    units in the same order. *)
From S2P Require Import Prelude Bytes H264 H264Buffer H264BufferInv H264Frames H264Delivery H264Sender H264Params H264Depacketizer.

(** Packets handed to [input] one after the other, and whether all were accepted. *)
Fixpoint feed (d : Depacketizer) (l : list (RtpView * Z)) : mres (Depacketizer * bool) :=
  match l with
  | [] => Ret (d, true)
  | (v, now) :: l =>
    let! '(d, ok) := input d v now in
    let! '(d, ok') := feed d l in Ret (d, ok && ok')
  end.

(** ** From views to parsed packets *)

Definition parse_of (v : RtpView) : H264ParsedPacket :=
  match Parse v with Ret (_, p) => p | _ => empty_parsed end.

Definition view_ok (v : RtpView) : Prop :=
  exists p, Parse v = Ret (true, p) /\ pvalid p = true /\ view_valid v = true.

(** Feeding views is inserting their parsed packets. *)
Lemma feed_insert_all l : forall d b fs,
  Forall (fun x => view_ok (fst x)) l ->
  insert_all (packet_buffer_ d) (map (fun x => (parse_of (fst x), snd x)) l) = Ret (b, fs, true) ->
  feed d l = Ret (mkDepack (fmtp_ d) b (parameter_sets_ d) (ready_frames_ d ++ fs), true).
Proof.
  induction l as [|[v now] l IH]; intros d b fs Hv Hi; simpl in *.
  { injection Hi as <- <-. rewrite app_nil_r. by destruct d. }
  apply Forall_cons in Hv as [(p & Hp & Hval & Hvv) Hv]. simpl in *.
  unfold input. rewrite Hvv. unfold parse_of in Hi at 1. rewrite Hp in *. cbn [negb mbnd] in *.
  rewrite Hval. cbn [negb].
  destruct (InsertPacket (packet_buffer_ d) p now) as [[b1 r]| |]; cbn [mbnd] in *; [|done..].
  destruct (insert_all b1 _) as [[[b2 fs2] ok]| |] eqn:E; cbn [mbnd] in Hi; [|done..].
  injection Hi as <- <- Hok. apply andb_prop in Hok as [Hins ->].
  set (d1 := mkDepack (fmtp_ d) b1 (parameter_sets_ d) (ready_frames_ d ++ frames r)).
  rewrite (IH d1 b2 fs2 Hv E). cbn [mbnd]. rewrite Hins. simpl. by rewrite app_assoc.
Qed.

(** ** One access unit on the network *)

(** The packets of the access unit arrive (number, packet, time) in some order, each once
    and within the waiting time. *)
Definition delivered (cf : Config) (ssrc ts c : Z) (rt : nat -> Z) (au : list au_item)
    (l : list (Z * RtpView * Z)) : Prop :=
  map fst l ≡ₚ zip (seqZ (c + 1) (Z.of_nat (length (au_packets au)))) (send ssrc ts c rt au) /\
  exists t0, Forall (fun x => t0 <= snd x /\ snd x - t0 < max_wait_ms cf * 1000000) l.

Definition arrivals_of (l : list (Z * RtpView * Z)) : list (RtpView * Z) :=
  map (fun x => (snd (fst x), snd x)) l.

Definition parsed_arrivals (l : list (Z * RtpView * Z)) : list (Z * H264ParsedPacket * Z) :=
  map (fun x => (fst (fst x), parse_of (snd (fst x)), snd x)) l.

(** An access unit the receiver can take. *)
Definition au_good (cf : Config) (au : list au_item) : Prop :=
  au_ok au /\ au_nalus au <> [] /\ pic_start (au_nalus au) = true /\
  Z.of_nat (length (au_packets au)) <= max_frame_packets cf /\
  idr_only_keyframes_allowed cf = true.

Section Delivered.
Context (ssrc ts c : Z) (rt : nat -> Z) (au : list au_item) (l : list (Z * RtpView * Z)).
Context (cf : Config).
Hypothesis Hau : au_ok au.
Hypothesis Hl : delivered cf ssrc ts c rt au l.
Let n := length (au_packets au).

Lemma send_length : length (send ssrc ts c rt au) = n.
Proof. apply length_imap. Qed.

Lemma send_parses i v : send ssrc ts c rt au !! i = Some v ->
  received ssrc ts c rt au !! i = Some (parse_of v) /\ view_ok v.
Proof.
  unfold send, received. rewrite !list_lookup_imap. fold n.
  destruct (au_packets au !! i) as [pk|] eqn:E; [|done]. intros [= <-]. simpl.
  assert (rtp_unit_ok pk) as Hpk by (eapply Forall_lookup_1; [exact Hau|exact E]).
  pose proof (h264_parse_inverts (au_view ssrc ts c rt n i pk) pk eq_refl Hpk) as Hp.
  split; [unfold parse_of; by rewrite Hp|]. eexists. split; [exact Hp|]. split; [done|].
  unfold view_valid. simpl. destruct (Z.eqb_spec (blen (packet_bytes pk)) 0) as [E0|]; [|done].
  exfalso. destruct (packet_bytes pk) as [|x b] eqn:En.
  - destruct pk; [|done..]. simpl in En. subst. by destruct Hpk as (_ & ? & _).
  - rewrite blen_cons in E0. pose proof (blen_nonneg b). lia.
Qed.

Lemma parsed_arrive : arrive cf c (received ssrc ts c rt au) (parsed_arrivals l).
Proof.
  destruct Hl as [Hp [t0 Ht]]. split.
  - unfold parsed_arrivals. rewrite map_map. simpl.
    replace (map (fun x => (fst (fst x), parse_of (snd (fst x)))) l)
      with (map (fun y => (fst y, parse_of (snd y))) (map fst l)) by (by rewrite map_map).
    rewrite Hp, received_length. fold n.
    assert (received ssrc ts c rt au = map parse_of (send ssrc ts c rt au)) as ->.
    { apply list_eq. intros i. change (map parse_of ?x) with (parse_of <$> x).
      rewrite list_lookup_fmap. destruct (send ssrc ts c rt au !! i) as [v|] eqn:E.
      - by destruct (send_parses i v E) as [-> _].
      - simpl. apply lookup_ge_None in E. apply lookup_ge_None.
        rewrite received_length. by rewrite send_length in E. }
    generalize (seqZ (c + 1) (Z.of_nat n)) (send ssrc ts c rt au). intros qs vs.
    revert vs. induction qs as [|q qs IH]; intros [|v vs]; simpl; auto.
  - exists t0. apply Forall_map. eapply Forall_impl; [exact Ht|]. done.
Qed.

Lemma arrivals_parse : Forall (fun x => view_ok (fst x)) (arrivals_of l).
Proof.
  destruct Hl as [Hp _]. apply Forall_map, Forall_forall. intros x Hx. simpl.
  assert (fst x ∈ zip (seqZ (c + 1) (Z.of_nat (length (au_packets au)))) (send ssrc ts c rt au)) as Hin.
  { rewrite <- Hp. by apply list_elem_of_fmap_2. }
  apply list_elem_of_lookup in Hin as [i Hi]. destruct (fst x) as [q v].
  apply lookup_zip_Some in Hi as [_ Hi]. by destruct (send_parses i v Hi).
Qed.

Lemma arrivals_untimed :
  map (fun x => (parse_of (fst x), snd x)) (arrivals_of l) = untimed (parsed_arrivals l).
Proof. unfold arrivals_of, untimed, parsed_arrivals. by rewrite !map_map. Qed.

End Delivered.

(** A packet that can begin a stream carries an SPS or an IDR slice. *)
Lemma begins_flag s p : BeginningOfStream s p = true -> existsb is_sps (punits p) || existsb is_idr (punits p) = true.
Proof.
  unfold BeginningOfStream. intros (u & Hu & Hf)%existsb_elem.
  destruct (_ && negb _); [done|]. apply orb_prop in Hf as [Hf|Hf]; apply orb_true_iff;
    [left|right]; apply existsb_elem; exists u; split; auto.
  by apply andb_prop in Hf as [[_ ?]%andb_prop _].
Qed.

Lemma received_calm cf ssrc ts c rt au lts :
  Forall (fun n => nal_of n <> nal_Idr /\ nal_of n <> nal_Sps) (au_nalus au) ->
  calm cf (received ssrc ts c rt au) lts.
Proof.
  intros Hn p Hp s _ Hb%begins_flag. exfalso.
  assert (existsb is_sps (units_in_items au) || existsb is_idr (units_in_items au) = true) as H.
  { rewrite <- (received_units ssrc ts c rt au).
    apply orb_prop in Hb as [Hb|Hb]; apply orb_true_iff; [left|right];
      apply existsb_elem in Hb as (u & Hu & Hf); apply existsb_elem; exists u; split; auto;
      apply list_elem_of_In, in_concat; exists (punits p); (split; [|by apply list_elem_of_In]);
      apply in_map; by apply list_elem_of_In. }
  rewrite (items_flag is_sps (fun t => t =? nal_Sps)), (items_flag is_idr (fun t => t =? nal_Idr)) in H by done.
  rewrite Forall_forall in Hn.
  apply orb_prop in H as [H|H]; apply existsb_elem in H as (x & Hx & Hf%Z.eqb_eq);
    destruct (Hn x Hx); congruence.
Qed.

(** An access unit that arrives while the receiver is between two of them is delivered. *)
Lemma au_delivered d c ssrc ts rt au l :
  let cf := config_ (packet_buffer_ d) in
  ready (packet_buffer_ d) c -> au_good cf au -> delivered cf ssrc ts c rt au l ->
  (forall x, head l = Some x -> fst (fst x) = c + 1) \/
    Forall (fun n => nal_of n <> nal_Idr /\ nal_of n <> nal_Sps) (au_nalus au) ->
  exists d' f, feed d (arrivals_of l) = Ret (d', true) /\
    ready_frames_ d' = ready_frames_ d ++ [f] /\ au_frame ssrc ts c au f /\
    ready (packet_buffer_ d') (c + Z.of_nat (length (au_packets au))) /\
    config_ (packet_buffer_ d') = cf.
Proof.
  intros cf Hr (Hok & Hne & Hpic & Hmax & Hidr) Hl Hfirst.
  pose proof (received_length ssrc ts c rt au) as Hlen.
  assert (Z.of_nat (length (au_packets au)) <= 2048) as Hn
    by (destruct Hr as (_ & _ & _ & _ & _ & _ & _ & _ & Hm); fold cf in Hm; lia).
  destruct (au_assembles ssrc ts c rt au cf Hok Hne Hpic Hmax Hidr) as (f & Erun & Hf).
  destruct (h264_any_order (packet_buffer_ d) c (received ssrc ts c rt au) (parsed_arrivals l))
    as (b & Ei & Hready); [done|by apply received_window| |by apply parsed_arrive|].
  { destruct Hfirst as [Hh|Hd]; [right|left; by apply received_calm].
    intros x Hx. unfold parsed_arrivals in Hx. destruct l as [|y l']; [done|]. simpl in Hx.
    injection Hx as <-. simpl. by apply Hh. }
  fold cf in Ei, Hready. rewrite Erun in Ei, Hready. simpl in Ei, Hready.
  rewrite <- arrivals_untimed in Ei.
  rewrite (feed_insert_all _ d b [f] (arrivals_parse _ _ _ _ _ _ _ Hok Hl) Ei).
  do 2 eexists. split; [reflexivity|]. simpl. split; [done|]. split; [done|].
  rewrite <- Hlen. destruct Hready as (H1 & H2 & _); [|done|done].
  intros E. apply (f_equal length) in E. rewrite Hlen in E. simpl in E.
  destruct (au_packets au) eqn:Ep; [|done]. apply Hne. rewrite <- items_reassemble.
  unfold units_in_items. by rewrite Ep.
Qed.

(** ** Streams *)

(** An access unit on its way: timestamp, receive times, contents, arrivals. *)
Definition sent_au : Type := Z * (nat -> Z) * list au_item * list (Z * RtpView * Z).

(** The access units after packet [c]: each can be taken, arrives in time, and either its
    first packet arrives first or it has neither an SPS nor an IDR slice. *)
Fixpoint stream_ok (cf : Config) (ssrc c : Z) (aus : list sent_au) : Prop :=
  match aus with
  | [] => True
  | (ts, rt, au, l) :: aus =>
    au_good cf au /\ delivered cf ssrc ts c rt au l /\
    ((forall x, head l = Some x -> fst (fst x) = c + 1) \/
     Forall (fun n => nal_of n <> nal_Idr /\ nal_of n <> nal_Sps) (au_nalus au)) /\
    stream_ok cf ssrc (c + Z.of_nat (length (au_packets au))) aus
  end.

Definition stream_arrivals (aus : list sent_au) : list (RtpView * Z) :=
  concat (map (fun x => arrivals_of (snd x)) aus).

(** One frame for each access unit. *)
Fixpoint frames_match (ssrc c : Z) (aus : list sent_au) (fs : list H264AccessUnit) : Prop :=
  match aus, fs with
  | [], [] => True
  | (ts, rt, au, _) :: aus, f :: fs =>
    au_frame ssrc ts c au f /\ frames_match ssrc (c + Z.of_nat (length (au_packets au))) aus fs
  | _, _ => False
  end.

Lemma feed_app l1 l2 : forall d d1 d2,
  feed d l1 = Ret (d1, true) -> feed d1 l2 = Ret (d2, true) -> feed d (l1 ++ l2) = Ret (d2, true).
Proof.
  induction l1 as [|[v now] l1 IH]; intros d d1 d2 H1 H2; simpl in *; [by simplify_eq|].
  destruct (input d v now) as [[d' ok]| |]; simpl in *; [|done..].
  destruct (feed d' l1) as [[d'' ok']| |] eqn:E; simpl in *; [|done..].
  injection H1 as <- Hok. apply andb_prop in Hok as [-> ->].
  by rewrite (IH d' d'' d2 E H2).
Qed.

(** The rest of a stream, once it has begun. *)
Lemma stream_continues aus : forall d c ssrc,
  ready (packet_buffer_ d) c -> stream_ok (config_ (packet_buffer_ d)) ssrc c aus ->
  exists d' fs, feed d (stream_arrivals aus) = Ret (d', true) /\
    ready_frames_ d' = ready_frames_ d ++ fs /\ frames_match ssrc c aus fs.
Proof.
  induction aus as [|[[[ts rt] au] l] aus IH]; intros d c ssrc Hr Hs; simpl.
  { exists d, []. by rewrite app_nil_r. }
  destruct Hs as (Hg & Hl & Hf & Hs).
  destruct (au_delivered d c ssrc ts rt au l Hr Hg Hl Hf) as (d1 & f & E1 & Hrf & Hfr & Hr1 & Hc1).
  rewrite <- Hc1 in Hs. destruct (IH d1 _ ssrc Hr1 Hs) as (d2 & fs & E2 & Hrf2 & Hfs).
  exists d2, (f :: fs). split; [by eapply feed_app|].
  split; [by rewrite Hrf2, Hrf, <- app_assoc|done].
Qed.


(** The first unit of an access unit's first packet: it is no later fragment, and a slice
    keeps the bit that starts the picture. *)
Lemma first_unit au n ns :
  au_ok au -> au_nalus au = n :: ns -> pic_start (au_nalus au) = true ->
  exists pk pks u us, au_packets au = pk :: pks /\ units_of pk = u :: us /\
    match unit_type u with FuAFragment => true | _ => false end && negb (fu_start u) = false /\
    is_sps u = (nal_of n =? nal_Sps) /\ is_idr u = (nal_of n =? nal_Idr) /\
    first_slice u = is_slice (nal_of n).
Proof.
  intros Hok En Hpic. rewrite En in Hpic. unfold au_ok in Hok. destruct au as [|it au]; [done|].
  unfold au_nalus, au_packets in *. simpl in *. apply Forall_app in Hok as [Hok _].
  assert (forall t (b : bool), (if is_slice t then b else pic_start ns) = true -> is_slice t && b = is_slice t) as Hb
    by (intros t b; destruct (is_slice t); by simpl).
  destruct it as [m|nri [|m ms]|h a ms z]; simpl in *.
  - injection En as <- _. do 4 eexists. split; [done|]. split; [done|]. repeat (split; [done|]). by apply Hb.
  - apply Forall_cons in Hok as [(_ & ? & _) _]. done.
  - injection En as <- _. do 4 eexists. split; [done|]. split; [done|]. repeat (split; [done|]). by apply Hb.
  - injection En as <- _. do 4 eexists. split; [done|]. split; [done|]. repeat (split; [done|]).
    apply Forall_cons in Hok as [(_ & _ & _ & Ha) _]. destruct a as [|x a]; [done|]. by apply Hb.
Qed.

(** The first packet of an access unit that starts with an SPS or an IDR slice begins a
    stream. *)
Lemma first_begins ssrc ts c rt au n ns s :
  au_ok au -> au_nalus au = n :: ns -> nal_of n = nal_Sps \/ nal_of n = nal_Idr ->
  pic_start (au_nalus au) = true -> idr_only_keyframes_allowed (config_ s) = true ->
  exists p0 rest, received ssrc ts c rt au = p0 :: rest /\ BeginningOfStream s p0 = true.
Proof.
  intros Hok En Hn Hpic Hidr.
  destruct (first_unit au n ns Hok En Hpic) as (pk & pks & u & us & Ep & Eu & H1 & H2 & H3 & H4).
  unfold received. rewrite Ep. simpl. do 2 eexists. split; [reflexivity|].
  unfold BeginningOfStream. simpl. rewrite Eu. simpl. rewrite H1, H2, H3, H4, Hidr.
  destruct Hn as [-> | ->]; done.
Qed.

(** ** The flagship *)

(** A whole stream for a new receiver: it starts with an SPS or an IDR slice whose packet
    arrives first; the others follow. *)
Definition starts_ok (ssrc c : Z) (x : sent_au) : Prop :=
  let '(ts, rt, au, l) := x in
  au_good default_config au /\ delivered default_config ssrc ts c rt au l /\
  (exists n ns, au_nalus au = n :: ns /\ (nal_of n = nal_Sps \/ nal_of n = nal_Idr)) /\
  (forall x, head l = Some x -> fst (fst x) = c + 1).

Lemma stream_begins fmtp ps c ssrc ts rt au l :
  is_u16 (c + 1) -> starts_ok ssrc c (ts, rt, au, l) ->
  let d := mkDepack fmtp (H264PacketBuffer default_config) ps [] in
  exists d' f, feed d (arrivals_of l) = Ret (d', true) /\
    ready_frames_ d' = [f] /\ au_frame ssrc ts c au f /\
    ready (packet_buffer_ d') (c + Z.of_nat (length (au_packets au))) /\
    config_ (packet_buffer_ d') = default_config.
Proof.
  intros Hc ((Hok & Hne & Hpic & Hmax & Hidr) & Hl & (n & ns & En & Hn) & Hh) d.
  destruct (first_begins ssrc ts c rt au n ns (H264PacketBuffer default_config) Hok En Hn Hpic eq_refl)
    as (p0 & rest & Er & Hb).
  destruct (au_assembles ssrc ts c rt au default_config Hok Hne Hpic Hmax Hidr) as (f & Erun & Hf).
  pose proof (received_length ssrc ts c rt au) as Hlen.
  pose proof (parsed_arrive ssrc ts c rt au l default_config Hok Hl) as Harr.
  pose proof (received_window ssrc ts c rt au default_config) as Hw.
  rewrite Er in Erun, Hlen, Harr, Hw.
  assert (exists now l', parsed_arrivals l = (c + 1, p0, now) :: l') as (now & l' & El).
  { destruct l as [|[[q v] now] l].
    { destruct Harr as [Hp _]. apply Permutation_length in Hp.
      rewrite length_zip_with, length_seqZ in Hp. simpl in Hp. lia. }
    specialize (Hh _ eq_refl). simpl in Hh. subst q. exists now, (parsed_arrivals l).
    unfold parsed_arrivals. simpl. do 3 f_equal.
    pose proof (arrive_elem _ _ _ _ (c + 1, parse_of v, now) Harr) as Hin. simpl in Hin.
    destruct Hin as [_ Hin]; [set_solver|].
    replace (Z.to_nat (c + 1 - c - 1)) with 0%nat in Hin by lia. by injection Hin. }
  rewrite El in Harr.
  destruct (first_window default_config c p0 rest now l') as (s & Ei & Hready); try done.
  { apply Hw. cbn in Hmax. lia. }
  change (init_config default_config) with default_config in *. rewrite Erun in Ei, Hready.
  cbn [fst snd] in Ei, Hready. destruct (Hready eq_refl) as (H1 & H2 & _).
  rewrite <- El, <- arrivals_untimed in Ei.
  rewrite (feed_insert_all _ d s [f] (arrivals_parse _ _ _ _ _ _ _ Hok Hl) Ei).
  do 2 eexists. split; [reflexivity|]. simpl. split; [done|]. split; [done|].
  split; [|done]. rewrite <- Hlen. exact H1.
Qed.

(** C5. A stream gets through. A new depacketizer receives a stream of access units that a
    sender split into single NAL unit packets, aggregates and fragments as RFC 6184 describes.
    The first one begins with an SPS or an IDR slice and its first packet arrives first; the
    packets of each access unit arrive within the waiting time in any order (one that carries
    an SPS or IDR slice: first packet first). Then every packet is accepted and for each access
    unit, in order, exactly one frame becomes available: with the same NAL units, the SSRC,
    timestamp and first and last sequence number (modulo 2^16), complete, and flagged by the
    NAL units it has. *)
Theorem h264_stream_delivered fmtp ps c ssrc x aus :
  is_u16 (c + 1) -> starts_ok ssrc c x ->
  stream_ok default_config ssrc (c + Z.of_nat (length (au_packets (snd (fst x))))) aus ->
  let d := mkDepack fmtp (H264PacketBuffer default_config) ps [] in
  exists d' fs, feed d (stream_arrivals (x :: aus)) = Ret (d', true) /\
    ready_frames_ d' = fs /\ frames_match ssrc c (x :: aus) fs.
Proof.
  intros Hc Hx Haus d. destruct x as [[[ts rt] au] l].
  destruct (stream_begins fmtp ps c ssrc ts rt au l Hc Hx) as (d1 & f & E1 & Hf1 & Hau & Hr & Hcf).
  rewrite <- Hcf in Haus.
  destruct (stream_continues aus d1 _ ssrc Hr Haus) as (d2 & fs & E2 & Hf2 & Hm).
  exists d2, (f :: fs). split; [by eapply feed_app|]. split; [by rewrite Hf2, Hf1|]. by split.
Qed.

(** An SPS and a PPS in one packet and an IDR slice in three fragments, numbered across the
    wrap of the sequence numbers; then a picture of two slices, second slice first. *)
Definition sample_au1 : list au_item :=
  [IStap 3 [[0x67; 66; 0; 30]; [0x68; 0xCE]]; IFrag 0x65 [0x88; 1] [[2; 3]] [4]].
Definition sample_au2 : list au_item := [ISingle [0x41; 0x9A; 1]; ISingle [0x41; 0x40; 2]].

(** The packets after number [c] in the order [is], a millisecond apart. *)
Definition sample_arrivals (ts c now : Z) (au : list au_item) (order : list nat) : list (Z * RtpView * Z) :=
  omap (fun i => match send 5 ts c (fun _ => 0) au !! i with
                 | Some v => Some (c + 1 + Z.of_nat i, v, now + 1000000 * Z.of_nat i)
                 | None => None
                 end) order.

Lemma sample_au1_good : au_good default_config sample_au1.
Proof.
  split; [|by vm_compute].
  unfold au_ok, sample_au1, au_packets. simpl.
  repeat (apply Forall_cons_2; [unfold rtp_unit_ok, fu_header_ok, nalu_ok|]); [..|apply Forall_nil_2].
  - split; [lia|]. split; [done|]. repeat (apply Forall_cons_2 || apply Forall_nil_2); split; try done;
      (split; [by repeat (apply Forall_cons_2; [done|])|by vm_compute]).
  - split; [by vm_compute|]. repeat split; try done; by repeat (apply Forall_cons_2; [done|]).
  - split; [by vm_compute|]. repeat split; try done; by repeat (apply Forall_cons_2; [done|]).
  - split; [by vm_compute|]. repeat split; try done; by repeat (apply Forall_cons_2; [done|]).
Qed.

Lemma sample_au2_good : au_good default_config sample_au2.
Proof.
  split; [|by vm_compute].
  unfold au_ok, sample_au2, au_packets. simpl.
  repeat (apply Forall_cons_2; [|]); [..|apply Forall_nil_2];
    (split; [by repeat (apply Forall_cons_2; [done|])|by vm_compute]).
Qed.

Lemma sample_delivered ts c now au order t0 :
  map fst (sample_arrivals ts c now au order) ≡ₚ
    zip (seqZ (c + 1) (Z.of_nat (length (au_packets au)))) (send 5 ts c (fun _ => 0) au) ->
  forallb (fun x => (t0 <=? snd x) && (snd x - t0 <? 100000000)) (sample_arrivals ts c now au order) = true ->
  delivered default_config 5 ts c (fun _ => 0) au (sample_arrivals ts c now au order).
Proof.
  intros Hp Ht. split; [done|]. exists t0. apply Forall_forall. intros x Hx.
  rewrite forallb_forall in Ht. specialize (Ht x (proj1 (list_elem_of_In _ _) Hx)). bool_hyps. simpl. lia.
Qed.

Lemma h264_stream_delivered_witness :
  let x := (90000, fun _ : nat => 0, sample_au1, sample_arrivals 90000 65533 0 sample_au1 [0; 2; 3; 1]%nat) in
  let y := (93000, fun _ : nat => 0, sample_au2, sample_arrivals 93000 65537 33000000 sample_au2 [1; 0]%nat) in
  exists d' fs,
    feed (mkDepack [] (H264PacketBuffer default_config) new_tracker []) (stream_arrivals [x; y]) = Ret (d', true) /\
    ready_frames_ d' = fs /\ map fnalus fs = [au_nalus sample_au1; au_nalus sample_au2].
Proof.
  intros x y.
  destruct (h264_stream_delivered [] new_tracker 65533 5 x [y]) as (d' & fs & H1 & H2 & H3).
  - vm_compute. intuition discriminate.
  - split; [exact sample_au1_good|]. split; [|split].
    + apply (sample_delivered _ _ _ _ _ 0); [|by vm_compute]. vm_compute.
      apply perm_skip. etransitivity; [apply perm_skip, perm_swap|apply perm_swap].
    + do 2 eexists. split; [reflexivity|by left].
    + by intros z [= <-].
  - split; [exact sample_au2_good|]. split; [|split; [|exact I]].
    + apply (sample_delivered _ _ _ _ _ 0); [|by vm_compute]. vm_compute. apply perm_swap.
    + right. repeat (apply Forall_cons_2; [done|]). apply Forall_nil_2.
  - exists d', fs. split; [exact H1|]. split; [exact H2|].
    destruct fs as [|f [|g [|]]]; simpl in H3; try tauto.
    destruct H3 as ((E1 & _) & (E2 & _) & _). simpl. by rewrite E1, E2.
Defined.
