(* ===== verification/Audio.v ===== *)
(** * The audio depacketizers

    Models [Common/Depacketizer/AudioDepacketizer.h] and [.cpp] (AAC in RFC 3640 packets,
    and codecs with one frame in a packet) and [AudioRtpDepacketizerFactory.cpp] (G.711 and
    Opus, and the choice of a depacketizer).  Strings are lists of bytes; a pointer into a
    buffer is the rest of the list from there on.  Allocation failure, which [Input] answers
    with a reset, and logging are left out. *)
From Stdlib Require String Ascii.
Import String.StringSyntax.
From S2P Require Import Prelude Bytes H264 H264Buffer H264BufferInv H264Frames H264Delivery H264Sender H264Params H264Depacketizer.

(** The bytes of a literal. *)
Definition chars (s : String.string) : list Z :=
  map (fun c => Z.of_N (Ascii.N_of_ascii c)) (String.list_ascii_of_string s).
Local Delimit Scope string_scope with str.
Arguments chars s%_str.

(** ** Text *)

(** [std::isspace]: also vertical tab and form feed. *)
Definition isspace (c : Z) : bool := (c =? 32) || ((9 <=? c) && (c <=? 13)).

Fixpoint drop_space (s : list Z) : list Z :=
  match s with
  | [] => []
  | x :: s' => if isspace x then drop_space s' else s
  end.

Definition Trim (s : list Z) : list Z := rev (drop_space (rev (drop_space s))).
Definition Lower (s : list Z) : list Z := map tolower s.

Definition is_digit (c : Z) : bool := (48 <=? c) && (c <=? 57).

(** The number the digits [s] write after [v]; [None] when another character is left over. *)
Fixpoint digits (s : list Z) (v : Z) : option Z :=
  match s with
  | [] => Some v
  | c :: s => if is_digit c then digits s (v * 10 + (c - 48)) else None
  end.

(** [std::stoul] on the trimmed text, all of which must be used: an optional sign and at
    least one digit, the magnitude within [unsigned long], negated modulo 2^64. *)
Definition ParseUint (text : list Z) : option Z :=
  let normalized := Trim text in
  let '(neg, ds) := match normalized with
                    | c :: r => if c =? 45 then (true, r) else if c =? 43 then (false, r) else (false, normalized)
                    | [] => (false, [])
                    end in
  match ds with
  | [] => None
  | _ =>
    match digits ds 0 with
    | None => None
    | Some v =>
      if 2 ^ 64 - 1 <? v then None else
      let parsed := if neg : bool then u64 (- v) else v in
      if 2 ^ 32 - 1 <? parsed then None else Some parsed
    end
  end.

(** ** AacPayloadConfig and the fmtp line *)

Record AacConfig : Type := mkAac {
  size_length : Z;
  index_length : Z;
  index_delta_length : Z;
  cts_delta_length : Z;
  dts_delta_length : Z;
  random_access_indication : bool;
  stream_state_indication : Z;
  constant_size : Z;
  constant_duration : Z }.

Definition default_aac : AacConfig := mkAac 13 3 3 0 0 false 0 0 1024.

Definition hex_digit (c : Z) : Z :=
  if (48 <=? c) && (c <=? 57) then c - 48
  else if (97 <=? c) && (c <=? 102) then c - 97 + 10
  else if (65 <=? c) && (c <=? 70) then c - 65 + 10 else -1.

(** The loop over pairs of digits; [None] when [valid] has become false.  The text has an
    even length. *)
Fixpoint hex_pairs (s : list Z) (bytes : list Z) : option (list Z) :=
  match s with
  | h :: l :: s =>
    let high := hex_digit h in
    let low := hex_digit l in
    if (0 <=? high) && (0 <=? low)
    then hex_pairs s (bytes ++ [u8 (Z.lor (Z.shiftl high 4) low)])
    else None
  | _ => Some bytes
  end.

Definition parse_config (text : list Z) : list Z :=
  let hex := Trim text in
  if negb (blen hex =? 0) && (blen hex mod 2 =? 0) && (blen hex <=? 128)
  then default [] (hex_pairs hex []) else [].

(** [key == "..."] *)
Definition named (key : list Z) (s : String.string) : bool := bool_decide (key = chars s).
Arguments named key s%_str.

(** The [if] chain over the numeric parameters. *)
Definition set_parameter (c : AacConfig) (key : list Z) (value : Z) : AacConfig :=
  let small := value <=? 32 in
  if named key "sizelength" && small then
    mkAac value (index_length c) (index_delta_length c) (cts_delta_length c) (dts_delta_length c)
      (random_access_indication c) (stream_state_indication c) (constant_size c) (constant_duration c)
  else if named key "indexlength" && small then
    mkAac (size_length c) value (index_delta_length c) (cts_delta_length c) (dts_delta_length c)
      (random_access_indication c) (stream_state_indication c) (constant_size c) (constant_duration c)
  else if named key "indexdeltalength" && small then
    mkAac (size_length c) (index_length c) value (cts_delta_length c) (dts_delta_length c)
      (random_access_indication c) (stream_state_indication c) (constant_size c) (constant_duration c)
  else if named key "ctsdeltalength" && small then
    mkAac (size_length c) (index_length c) (index_delta_length c) value (dts_delta_length c)
      (random_access_indication c) (stream_state_indication c) (constant_size c) (constant_duration c)
  else if named key "dtsdeltalength" && small then
    mkAac (size_length c) (index_length c) (index_delta_length c) (cts_delta_length c) value
      (random_access_indication c) (stream_state_indication c) (constant_size c) (constant_duration c)
  else if named key "randomaccessindication" then
    mkAac (size_length c) (index_length c) (index_delta_length c) (cts_delta_length c) (dts_delta_length c)
      (negb (value =? 0)) (stream_state_indication c) (constant_size c) (constant_duration c)
  else if named key "streamstateindication" && small then
    mkAac (size_length c) (index_length c) (index_delta_length c) (cts_delta_length c) (dts_delta_length c)
      (random_access_indication c) value (constant_size c) (constant_duration c)
  else if named key "constantsize" then
    mkAac (size_length c) (index_length c) (index_delta_length c) (cts_delta_length c) (dts_delta_length c)
      (random_access_indication c) (stream_state_indication c) value (constant_duration c)
  else if named key "constantduration" && (0 <? value) then
    mkAac (size_length c) (index_length c) (index_delta_length c) (cts_delta_length c) (dts_delta_length c)
      (random_access_indication c) (stream_state_indication c) (constant_size c) value
  else c.

(** One item of the line, on the configuration and [codec_config_]. *)
Definition fmtp_item (st : AacConfig * list Z) (item : list Z) : AacConfig * list Z :=
  let '(c, codec_config) := st in
  match cut 61 item with
  | None => st
  | Some (k, v) =>
    let key := Lower (Trim k) in
    if named key "config" then (c, parse_config v) else
    match ParseUint v with
    | None => st
    | Some value => (set_parameter c key value, codec_config)
    end
  end.

Definition ParseAacFmtp (fmtp : list Z) (st : AacConfig * list Z) : AacConfig * list Z :=
  foldl fmtp_item st (getlines 59 fmtp).

(** ** The bit reader *)

Record AuReader : Type := mkAuReader {
  adata : list Z;
  abit_count : Z;
  abit_offset : Z }.

Fixpoint au_bits (n : nat) (data : list Z) (pos value : Z) : mres Z :=
  match n with
  | O => Ret value
  | S n =>
    let! byte := rd data (pos / 8) in
    au_bits n data (pos + 1) (u32 (Z.lor (Z.shiftl value 1) (Z.land (Z.shiftr byte (7 - pos mod 8)) 1)))
  end.

Definition Read (r : AuReader) (bits : Z) : mres (option (Z * AuReader)) :=
  if (32 <? bits) || (abit_count r <? abit_offset r + bits) then Ret None else
  let! value := au_bits (Z.to_nat bits) (adata r) (abit_offset r) 0 in
  Ret (Some (value, mkAuReader (adata r) (abit_count r) (abit_offset r + bits))).

Definition Remaining (r : AuReader) : Z := u64 (abit_count r - abit_offset r).

(** ** State *)

Inductive CodecType : Type :=
| CodecUnknown | CodecH264 | CodecH265 | Opus | PCMU | PCMA | AAC | VP8 | VP9 | AV1.

Record AacFragment : Type := mkFragment {
  active : bool;
  gssrc : Z;
  gtimestamp : Z;
  gexpected_size : Z;
  gfirst_seq : Z;
  glast_seq : Z;
  gdata : list Z }.

Definition no_fragment : AacFragment := mkFragment false 0 0 0 0 0 [].

(** The fields of [EncodedFrame] an audio depacketizer sets; media and frame type (audio),
    integrity (complete) and time base numerator (1) are constants. *)
Record AudioFrame : Type := mkAudio {
  acodec : CodecType; adts : Z; apts : Z; atime_base_den : Z;
  assrc : Z; artp_timestamp : Z; afirst_sequence : Z; alast_sequence : Z; apacket_count : Z;
  asample_count : Z; acodec_config : list Z; asample_rate : Z; achannels : Z; abuffer : list Z }.

Record AudioDepacketizer : Type := mkDepacketizer {
  codec_ : CodecType;
  sample_rate_ : Z;
  channels_ : Z;
  aac_config_ : AacConfig;
  codec_config_ : list Z;
  aac_fragment_ : AacFragment;
  frames_ : list AudioFrame }.

Definition new_AudioDepacketizer (codec : CodecType) (sample_rate channels : Z) (fmtp : list Z)
  : AudioDepacketizer :=
  let '(c, config) := ParseAacFmtp fmtp (default_aac, []) in
  mkDepacketizer codec sample_rate channels c config no_fragment [].

Definition set_fragment (d : AudioDepacketizer) (g : AacFragment) : AudioDepacketizer :=
  mkDepacketizer (codec_ d) (sample_rate_ d) (channels_ d) (aac_config_ d) (codec_config_ d) g (frames_ d).

Definition push_frame (d : AudioDepacketizer) (f : AudioFrame) : AudioDepacketizer :=
  mkDepacketizer (codec_ d) (sample_rate_ d) (channels_ d) (aac_config_ d) (codec_config_ d)
    (aac_fragment_ d) (frames_ d ++ [f]).

Definition ResetAacFragment (d : AudioDepacketizer) : AudioDepacketizer := set_fragment d no_fragment.

(** [SharedBuffer::Copy(data, len)], which reads [len] bytes. *)
Definition Copy (data : list Z) (len : Z) : mres (list Z) :=
  if blen data <? len then Fault else Ret (take (Z.to_nat len) data).

Definition time_base (sample_rate : Z) : Z := if 0 <? sample_rate then sample_rate else 1.

Definition EmitAacFrame (d : AudioDepacketizer) (data : list Z) (len timestamp ssrc first_seq last_seq : Z)
  : mres AudioDepacketizer :=
  let! buffer := Copy data len in
  Ret (push_frame d (mkAudio AAC timestamp timestamp (time_base (sample_rate_ d)) ssrc timestamp
    first_seq last_seq (u16 (last_seq - first_seq) + 1) (constant_duration (aac_config_ d))
    (codec_config_ d) (sample_rate_ d) (channels_ d) buffer)).

(** ** AAC input *)

(** What the header loop comes to: [return false], with or without a reset of the fragment,
    or the sizes and the reader behind them. *)
Inductive HeaderResult : Type :=
| HReject (reset : bool)
| HSizes (r : AuReader) (sizes : list Z).

(** A flag and, when it is set, [len] more bits. *)
Definition skip_delta (r : AuReader) (len : Z) : mres (option AuReader) :=
  if 0 <? len then
    let! o := Read r 1 in
    match o with
    | None => Ret None
    | Some (present, r) =>
      if present =? 0 then Ret (Some r) else
      let! o := Read r len in
      match o with None => Ret None | Some (_, r) => Ret (Some r) end
    end
  else Ret (Some r).

(** [!c || bits.Read(n, ignored)]. *)
Definition skip_bits (c : bool) (r : AuReader) (n : Z) : mres (option AuReader) :=
  if c then
    let! o := Read r n in
    match o with None => Ret None | Some (_, r) => Ret (Some r) end
  else Ret (Some r).

Definition header_required (c : AacConfig) (first : bool) : Z :=
  size_length c + (if first then index_length c else index_delta_length c) +
  (if 0 <? cts_delta_length c then 1 else 0) + (if 0 <? dts_delta_length c then 1 else 0) +
  (if random_access_indication c then 1 else 0) + stream_state_indication c.

(** The fields behind the size: [HReject] as in the code, or the reader behind them. *)
Definition header_rest (c : AacConfig) (r : AuReader) : mres (option AuReader) :=
  let! o := skip_delta r (cts_delta_length c) in
  match o with
  | None => Ret None
  | Some r =>
    let! o := skip_delta r (dts_delta_length c) in
    match o with
    | None => Ret None
    | Some r =>
      let! o := skip_bits (random_access_indication c) r 1 in
      match o with
      | None => Ret None
      | Some r => skip_bits (0 <? stream_state_indication c) r (stream_state_indication c)
      end
    end
  end.

Fixpoint header_loop (fuel : nat) (c : AacConfig) (r : AuReader) (first : bool) (sizes : list Z)
  : mres HeaderResult :=
  match fuel with
  | O => NoFuel
  | S fuel =>
    let index_bits := if first then index_length c else index_delta_length c in
    if (Remaining r <? header_required c first) || (size_length c =? 0)
    then Ret (HSizes r sizes) else
    let! o := Read r (size_length c) in
    match o with
    | None => Ret (HReject true)
    | Some (au_size, r) =>
      let! o := skip_bits (0 <? index_bits) r index_bits in
      match o with
      | None => Ret (HReject true)
      | Some r =>
        let! o := header_rest c r in
        match o with
        | None => Ret (HReject false)
        | Some r =>
          if (au_size =? 0) || (2 ^ 20 <? au_size) then Ret (HReject true)
          else header_loop fuel c r false (sizes ++ [au_size])
        end
      end
    end
  end.

(** The sizes of the access units in the packet. *)
Definition read_sizes (c : AacConfig) (headers : list Z) (header_bits au_data_size : Z) : mres HeaderResult :=
  if header_bits =? 0 then
    Ret (HSizes (mkAuReader headers 0 0)
      [if 0 <? constant_size c then constant_size c else u32 au_data_size])
  else
    let! h := header_loop (S (Z.to_nat header_bits)) c (mkAuReader headers header_bits 0) true [] in
    match h with
    | HReject reset => Ret (HReject reset)
    | HSizes r sizes =>
      if match sizes with [] => true | _ => false end || negb (Remaining r =? 0)
      then Ret (HReject true) else Ret (HSizes r sizes)
    end.

(** The check that the sizes add up to the data: [None] for [return false]. *)
Fixpoint sum_sizes (sizes : list Z) (au_data_size total : Z) : option Z :=
  match sizes with
  | [] => Some total
  | size :: sizes =>
    if u64 (au_data_size - total) <? size then None
    else sum_sizes sizes au_data_size (u64 (total + size))
  end.

Fixpoint emit_all (sizes : list Z) (d : AudioDepacketizer) (v : RtpView) (data : list Z) (i : Z)
  : mres AudioDepacketizer :=
  match sizes with
  | [] => Ret d
  | size :: sizes =>
    let! d := EmitAacFrame d data size
      (u32 (vts v + u32 (u64 (i * constant_duration (aac_config_ d))))) (vssrc v) (vseq v) (vseq v) in
    emit_all sizes d v (drop (Z.to_nat size) data) (i + 1)
  end.

Definition input_many (d : AudioDepacketizer) (v : RtpView) (sizes data : list Z)
  : mres (AudioDepacketizer * bool) :=
  if active (aac_fragment_ d) then Ret (ResetAacFragment d, false) else
  match sum_sizes sizes (blen data) 0 with
  | None => Ret (d, false)
  | Some total =>
    if negb (total =? blen data) then Ret (d, false) else
    let! d := emit_all sizes d v data 0 in Ret (d, true)
  end.

(** A packet with one access unit or a fragment of one. *)
Definition input_one (d : AudioDepacketizer) (v : RtpView) (expected_size : Z) (data : list Z)
  : mres (AudioDepacketizer * bool) :=
  let g := aac_fragment_ d in
  if active g then
    let expected_seq := u16 (glast_seq g + 1) in
    if negb (vssrc v =? gssrc g) || negb (vts v =? gtimestamp g) || negb (vseq v =? expected_seq) ||
       negb (expected_size =? gexpected_size g) || (u64 (expected_size - blen (gdata g)) <? blen data)
    then Ret (ResetAacFragment d, false) else
    let g := mkFragment true (gssrc g) (gtimestamp g) (gexpected_size g) (gfirst_seq g) (vseq v)
               (gdata g ++ data) in
    let d := set_fragment d g in
    if blen (gdata g) =? expected_size then
      let! d := EmitAacFrame d (gdata g) (blen (gdata g)) (gtimestamp g) (gssrc g) (gfirst_seq g)
                  (glast_seq g) in
      Ret (ResetAacFragment d, true)
    else if vmarker v then Ret (ResetAacFragment d, false)
    else Ret (d, true)
  else if expected_size <? blen data then Ret (d, false)
  else if blen data =? expected_size then
    let! d := EmitAacFrame d data (blen data) (vts v) (vssrc v) (vseq v) (vseq v) in Ret (d, true)
  else if vmarker v then Ret (d, false)
  else Ret (set_fragment d (mkFragment true (vssrc v) (vts v) expected_size (vseq v) (vseq v) data), true).

Definition InputAac (d : AudioDepacketizer) (v : RtpView) (b : list Z) : mres (AudioDepacketizer * bool) :=
  if blen b <? 2 then Ret (ResetAacFragment d, false) else
  let! hi := rd b 0 in
  let! lo := rd b 1 in
  let header_bits := Z.lor (Z.shiftl hi 8) lo in
  let header_bytes := (header_bits + 7) / 8 in
  if blen b <? 2 + header_bytes then Ret (ResetAacFragment d, false) else
  let data := drop (Z.to_nat (2 + header_bytes)) b in
  let! h := read_sizes (aac_config_ d) (drop 2 b) header_bits (blen data) in
  match h with
  | HReject reset => Ret (if reset then ResetAacFragment d else d, false)
  | HSizes _ sizes =>
    match sizes with
    | [] => Fault
    | [size] => input_one d v size data
    | _ => input_many d v sizes data
    end
  end.

Definition InputSimplePayload (d : AudioDepacketizer) (v : RtpView) (b : list Z) : AudioDepacketizer :=
  push_frame d (mkAudio (codec_ d) (vts v) (vts v) (time_base (sample_rate_ d)) (vssrc v) (vts v)
    (vseq v) (vseq v) 1 (match codec_ d with PCMU | PCMA => u32 (blen b) | _ => 0 end) []
    (sample_rate_ d) (channels_ d) b).

Definition Input (d : AudioDepacketizer) (v : RtpView) : mres (AudioDepacketizer * bool) :=
  if negb (view_valid v) then Ret (d, false) else
  match vpayload v with
  | None => Ret (d, false)
  | Some b =>
    if blen b =? 0 then Ret (d, false) else
    match codec_ d with
    | PCMU | PCMA | Opus => Ret (InputSimplePayload d v b, true)
    | AAC => InputAac d v b
    | _ => Ret (d, false)
    end
  end.

Definition HasFrame (d : AudioDepacketizer) : bool := match frames_ d with [] => false | _ => true end.

Definition Audio_PopFrame (d : AudioDepacketizer) : AudioDepacketizer * option AudioFrame :=
  match frames_ d with
  | [] => (d, None)
  | f :: fs => (mkDepacketizer (codec_ d) (sample_rate_ d) (channels_ d) (aac_config_ d)
                  (codec_config_ d) (aac_fragment_ d) fs, Some f)
  end.

Definition Audio_Reset (d : AudioDepacketizer) : AudioDepacketizer :=
  ResetAacFragment (mkDepacketizer (codec_ d) (sample_rate_ d) (channels_ d) (aac_config_ d)
    (codec_config_ d) (aac_fragment_ d) []).

(** ** AudioRtpDepacketizerFactory *)

Definition MakePacketFrame (v : RtpView) (b : list Z) (codec : CodecType)
    (sample_rate channels sample_count : Z) : AudioFrame :=
  mkAudio codec (vts v) (vts v) (time_base sample_rate) (vssrc v) (vts v) (vseq v) (vseq v) 1
    sample_count [] sample_rate channels b.

Definition OpusPacketSampleCount (b : list Z) : mres Z :=
  if blen b =? 0 then Ret 0 else
  let! toc := rd b 0 in
  let config := Z.shiftr toc 3 in
  let samples_per_frame :=
    if 16 <=? config then u32 (Z.shiftl 120 (Z.land config 3))
    else if 12 <=? config then u32 (Z.shiftl 480 (Z.land config 1))
    else u32 (Z.shiftl 480 (Z.land config 3)) in
  let result (frame_count : Z) :=
    let total := u32 (samples_per_frame * frame_count) in
    Ret (if total <=? 5760 then total else 0) in
  let code := Z.land toc 3 in
  if (code =? 1) || (code =? 2) then result 2
  else if code =? 3 then
    if blen b <? 2 then Ret 0 else
    let! second := rd b 1 in
    let frame_count := Z.land second 0x3f in
    if frame_count =? 0 then Ret 0 else result frame_count
  else result 1.

(** [PacketQueueDepacketizer] with what its two subclasses add. *)
Record PacketQueue : Type := mkQueue {
  qcodec_ : CodecType;
  qsample_rate_ : Z;
  qchannels_ : Z;
  qframes_ : list AudioFrame }.

Definition queue_push (q : PacketQueue) (f : AudioFrame) : PacketQueue :=
  mkQueue (qcodec_ q) (qsample_rate_ q) (qchannels_ q) (qframes_ q ++ [f]).

Definition queue_pop (q : PacketQueue) : PacketQueue * option AudioFrame :=
  match qframes_ q with
  | [] => (q, None)
  | f :: fs => (mkQueue (qcodec_ q) (qsample_rate_ q) (qchannels_ q) fs, Some f)
  end.

Definition queue_reset (q : PacketQueue) : PacketQueue :=
  mkQueue (qcodec_ q) (qsample_rate_ q) (qchannels_ q) [].

Definition G711_Input (q : PacketQueue) (v : RtpView) : PacketQueue * bool :=
  match vpayload v with
  | None => (q, false)
  | Some b =>
    if blen b =? 0 then (q, false) else
    (queue_push q (MakePacketFrame v b (qcodec_ q) (qsample_rate_ q) (qchannels_ q) (u32 (blen b))), true)
  end.

Definition Opus_Input (q : PacketQueue) (v : RtpView) : mres (PacketQueue * bool) :=
  match vpayload v with
  | None => Ret (q, false)
  | Some b =>
    if blen b =? 0 then Ret (q, false) else
    let! samples_48k := OpusPacketSampleCount b in
    if samples_48k =? 0 then Ret (q, false) else
    let samples := if qsample_rate_ q =? 48000 then samples_48k
                   else u32 (u64 (samples_48k * qsample_rate_ q) / 48000) in
    Ret (queue_push q (MakePacketFrame v b Opus (qsample_rate_ q) (qchannels_ q) samples), true)
  end.

Inductive AnyDepacketizer : Type :=
| G711Depacketizer (q : PacketQueue)
| OpusDepacketizer (q : PacketQueue)
| AacDepacketizer (d : AudioDepacketizer).

Definition toupper (c : Z) : Z := if (97 <=? c) && (c <=? 122) then c - 32 else c.
Definition Upper (s : list Z) : list Z := map toupper s.

(** [None] is the null pointer. *)
Definition Create (codec : CodecType) (encoding_name : list Z) (sample_rate channels : Z) (fmtp : list Z)
  : option AnyDepacketizer :=
  let encoding := Upper encoding_name in
  match codec with
  | PCMU | PCMA => Some (G711Depacketizer (mkQueue codec sample_rate channels []))
  | Opus => Some (OpusDepacketizer (mkQueue Opus sample_rate channels []))
  | AAC =>
    if match encoding with [] => true | _ => false end ||
       named encoding "MPEG4-GENERIC" || named encoding "AAC"
    then Some (AacDepacketizer (new_AudioDepacketizer codec sample_rate channels fmtp)) else None
  | _ => None
  end.
