(* ===== verification/AudioProps.v ===== *)
(** * Audio depacketizers: properties

    Any packet: the AAC depacketizer reads in bounds, ends, keeps a bounded fragment, and
    neither loses, invents nor reorders a byte of what it accepts.  A sender's packets
    (RFC 3640): the access units come out as they went in.  Opus durations against
    RFC 6716. *)
From Stdlib Require String.
Import String.StringSyntax.
Local Delimit Scope string_scope with str.
From S2P Require Import Prelude Bytes H264 H264Buffer H264BufferInv H264Frames H264Delivery H264Sender H264Params H264Depacketizer Audio.

(** ** The bit reader *)

Definition areader_ok (r : AuReader) : Prop :=
  bytes_ok (adata r) /\ 0 <= abit_offset r <= abit_count r /\ abit_count r <= blen (adata r) * 8 /\
  abit_count r < 2 ^ 64.

(** The bits still to be read. *)
Definition abits (r : AuReader) : list bool :=
  take (Z.to_nat (abit_count r - abit_offset r)) (rbits (mkReader (adata r) (abit_offset r))).

Definition askip (r : AuReader) (n : Z) : AuReader :=
  mkAuReader (adata r) (abit_count r) (abit_offset r + n).

Lemma au_bits_loop n : forall data pos v,
  au_bits n data pos v = (let! x := bits_loop n (mkReader data pos) v in Ret (fst x)).
Proof.
  induction n as [|n IH]; intros data pos v; simpl; [done|].
  destruct (rd data (pos / 8)); simpl; [apply IH|done..].
Qed.

Lemma areader_reader r : areader_ok r -> reader_ok (mkReader (adata r) (abit_offset r)).
Proof. intros (H1 & H2 & H3 & _). split; simpl; [done|lia]. Qed.

Lemma abits_length r : areader_ok r -> Z.of_nat (length (abits r)) = abit_count r - abit_offset r.
Proof.
  intros Hr. pose proof (rbits_length _ (areader_reader r Hr)) as L. simpl in L.
  destruct Hr as (_ & H2 & H3 & _). unfold abits. rewrite length_take. lia.
Qed.

Lemma Remaining_length r : areader_ok r -> Remaining r = Z.of_nat (length (abits r)).
Proof.
  intros Hr. rewrite abits_length by done. destruct Hr as (_ & H2 & H3 & H4). unfold Remaining.
  apply wrap_small. unfold is_u. lia.
Qed.

Lemma askip_ok r n :
  areader_ok r -> (n <= length (abits r))%nat ->
  areader_ok (askip r (Z.of_nat n)) /\ abits (askip r (Z.of_nat n)) = drop n (abits r).
Proof.
  intros Hr Hn. pose proof (abits_length r Hr) as L. pose proof (areader_reader r Hr) as Hr0.
  destruct Hr as (H1 & H2 & H3 & H4). split; [repeat split; simpl; try done; lia|].
  pose proof (rbits_length _ Hr0) as L0. simpl in L0.
  destruct (rbits_skip _ n Hr0) as [_ E]; [unfold abits in Hn; rewrite length_take in Hn; lia|].
  unfold abits, askip. simpl. unfold skip in E. simpl in E. rewrite E, skipn_firstn_comm. f_equal. lia.
Qed.

Lemma Read_ok r n :
  areader_ok r -> (n <= 32)%nat -> (n <= length (abits r))%nat ->
  Read r (Z.of_nat n) = Ret (Some (bval 0 (take n (abits r)), askip r (Z.of_nat n))).
Proof.
  intros Hr Hn Hl. pose proof (abits_length r Hr) as L. pose proof (areader_reader r Hr) as Hr0.
  pose proof (rbits_length _ Hr0) as L0. simpl in L0.
  unfold Read. rewrite (proj2 (Z.ltb_ge 32 _)), (proj2 (Z.ltb_ge _ _)) by lia. cbn [orb].
  rewrite Nat2Z.id, au_bits_loop, bits_loop_ok; [|done| |lia|].
  - cbn [mbnd fst]. unfold abits. rewrite take_take, Nat.min_l by lia. done.
  - destruct Hr as (_ & H2 & H3 & _). lia.
  - rewrite Z.mul_0_l, Z.add_0_l. apply Z.pow_le_mono_r; lia.
Qed.

Lemma Read_none r n :
  areader_ok r -> 32 < n \/ Z.of_nat (length (abits r)) < n -> Read r n = Ret None.
Proof.
  intros Hr Hn. pose proof (abits_length r Hr) as L. unfold Read.
  destruct (Z.ltb_spec 32 n); [done|]. by rewrite (proj2 (Z.ltb_lt _ _)) by lia.
Qed.

(** Any read returns and leaves a good reader with fewer bits. *)
Definition shrinks (r : AuReader) (m : mres (option AuReader)) : Prop :=
  exists o, m = Ret o /\ forall r', o = Some r' ->
    areader_ok r' /\ (length (abits r') <= length (abits r))%nat.

Lemma Read_any r n :
  areader_ok r -> 0 <= n ->
  exists o, Read r n = Ret o /\ forall v r', o = Some (v, r') ->
    0 <= v < 2 ^ n /\ areader_ok r' /\ Z.of_nat (length (abits r')) + n = Z.of_nat (length (abits r)).
Proof.
  intros Hr Hn. destruct (decide (n <= 32 /\ n <= Z.of_nat (length (abits r)))) as [[H1 H2]|H].
  - replace n with (Z.of_nat (Z.to_nat n)) by lia. rewrite Read_ok by (done || lia).
    eexists. split; [done|]. intros v r' [= <- <-].
    destruct (askip_ok r (Z.to_nat n) Hr ltac:(lia)) as [H3 H4]. rewrite H4, length_drop.
    split; [|split; [done|lia]].
    pose proof (bval_zero_range (take (Z.to_nat n) (abits r))) as B.
    rewrite length_take, Nat.min_l in B by lia. done.
  - rewrite Read_none by (done || lia). by eexists.
Qed.

Lemma shrinks_refl r : areader_ok r -> shrinks r (Ret (Some r)).
Proof. intros Hr. eexists. split; [done|]. by intros r' [= <-]. Qed.

Lemma shrinks_bind r m (k : AuReader -> mres (option AuReader)) :
  shrinks r m ->
  (forall r', areader_ok r' -> (length (abits r') <= length (abits r))%nat -> shrinks r' (k r')) ->
  shrinks r (let! o := m in match o with None => Ret None | Some r => k r end).
Proof.
  intros (o & -> & H) Hk. cbn [mbnd]. destruct o as [r'|]; [|by eexists].
  destruct (H r' eq_refl) as [H1 H2]. destruct (Hk r' H1 H2) as (o & -> & H3).
  eexists. split; [done|]. intros r2 E. destruct (H3 r2 E). split; [done|lia].
Qed.

Lemma skip_bits_shrinks c r n : areader_ok r -> 0 <= n -> shrinks r (skip_bits c r n).
Proof.
  intros Hr Hn. unfold skip_bits. destruct c; [|by apply shrinks_refl].
  destruct (Read_any r n Hr Hn) as (o & -> & H). cbn [mbnd]. destruct o as [[v r']|]; [|by eexists].
  destruct (H v r' eq_refl) as (_ & H1 & H2). eexists. split; [done|]. intros r2 [= <-]. split; [done|lia].
Qed.

Lemma skip_delta_shrinks r n : areader_ok r -> shrinks r (skip_delta r n).
Proof.
  intros Hr. unfold skip_delta. destruct (Z.ltb_spec 0 n); [|by apply shrinks_refl].
  destruct (Read_any r 1 Hr ltac:(lia)) as (o & -> & H1). cbn [mbnd]. destruct o as [[v r']|]; [|by eexists].
  destruct (H1 v r' eq_refl) as (_ & H2 & H3). destruct (v =? 0).
  - eexists. split; [done|]. intros r2 [= <-]. split; [done|lia].
  - destruct (skip_bits_shrinks true r' n H2 ltac:(lia)) as (o & E & H4). unfold skip_bits in E.
    rewrite E. exists o. split; [done|]. intros r2 E2. destruct (H4 r2 E2). split; [done|lia].
Qed.

(** ** Headers of any packet *)

(** What the code relies on of a configuration. *)
Definition aac_ok (c : AacConfig) : Prop :=
  0 <= size_length c <= 32 /\ 0 <= index_length c <= 32 /\ 0 <= index_delta_length c <= 32 /\
  0 <= cts_delta_length c <= 32 /\ 0 <= dts_delta_length c <= 32 /\
  0 <= stream_state_indication c <= 32 /\ 0 <= constant_size c < 2 ^ 32 /\
  0 < constant_duration c < 2 ^ 32.

Lemma header_rest_shrinks c r : aac_ok c -> areader_ok r -> shrinks r (header_rest c r).
Proof.
  intros Hc Hr. unfold header_rest.
  apply shrinks_bind; [by apply skip_delta_shrinks|]. intros r1 H1 _.
  apply shrinks_bind; [by apply skip_delta_shrinks|]. intros r2 H2 _.
  apply shrinks_bind; [by apply skip_bits_shrinks|]. intros r3 H3 _.
  apply skip_bits_shrinks; [done|apply Hc].
Qed.

Definition size_ok (s : Z) : Prop := 1 <= s <= 2 ^ 20.

Lemma header_loop_any fuel : forall c r first sizes,
  aac_ok c -> areader_ok r -> (length (abits r) < fuel)%nat -> Forall size_ok sizes ->
  exists h, header_loop fuel c r first sizes = Ret h /\
    forall r' l, h = HSizes r' l -> areader_ok r' /\ Forall size_ok l.
Proof.
  induction fuel as [|fuel IH]; intros c r first sizes Hc Hr Hf Hs; [lia|]. cbn [header_loop].
  destruct (_ || _) eqn:Eg.
  { eexists. split; [done|]. by intros r' l [= <- <-]. }
  apply orb_false_iff in Eg as [_ Esl%Z.eqb_neq]. pose proof Hc as ((Hsl & _) & (Hi & _) & (Hid & _) & _).
  destruct (Read_any r (size_length c) Hr Hsl) as (o & -> & H1). cbn [mbnd].
  destruct o as [[size r1]|]; [|by eexists]. destruct (H1 size r1 eq_refl) as (Hsize & Hr1 & L1).
  destruct (skip_bits_shrinks (0 <? (if first then index_length c else index_delta_length c)) r1
    (if first then index_length c else index_delta_length c) Hr1 ltac:(by destruct first))
    as (o & -> & H2). cbn [mbnd]. destruct o as [r2|]; [|by eexists]. destruct (H2 r2 eq_refl) as [Hr2 L2].
  destruct (header_rest_shrinks c r2 Hc Hr2) as (o & -> & H3). cbn [mbnd].
  destruct o as [r3|]; [|by eexists]. destruct (H3 r3 eq_refl) as [Hr3 L3].
  destruct (_ || _) eqn:Ez; [by eexists|]. apply orb_false_iff in Ez as [E0%Z.eqb_neq E1%Z.ltb_ge].
  apply IH; [done|done|lia|]. apply Forall_app. split; [done|]. repeat constructor; lia.
Qed.

Lemma read_sizes_any c b bits n :
  aac_ok c -> bytes_ok b -> 0 <= bits < 65536 -> (bits + 7) / 8 <= blen b -> 0 <= n ->
  exists h, read_sizes c b bits n = Ret h /\
    forall r l, h = HSizes r l -> l <> [] /\
      Forall (fun s => size_ok s \/ l = [s] /\ 0 <= s < 2 ^ 32 /\
        (s = constant_size c \/ constant_size c = 0 /\ s = u32 n)) l.
Proof.
  intros Hc Hb Hbits Hlen Hn. unfold read_sizes. destruct (Z.eqb_spec bits 0) as [->|Hne].
  - eexists. split; [done|]. intros r l [= <- <-]. split; [done|].
    apply Forall_cons_2; [|constructor]. right. split; [done|]. destruct Hc as (_ & _ & _ & _ & _ & _ & Hcs & _).
    destruct (Z.ltb_spec 0 (constant_size c)).
    + split; [lia|]. by left.
    + split; [apply (wrap_range 32); lia|]. right. split; [lia|done].
  - destruct (header_loop_any (S (Z.to_nat bits)) c (mkAuReader b bits 0) true []) as (h & -> & H).
    + done.
    + repeat split; simpl; try done; try lia; Z.div_mod_to_equations; lia.
    + assert (areader_ok (mkAuReader b bits 0)) as Hr
        by (repeat split; simpl; try done; try lia; Z.div_mod_to_equations; lia).
      pose proof (abits_length _ Hr) as L. simpl in L. lia.
    + constructor.
    + cbn [mbnd]. destruct h as [reset|r l]; [by eexists|]. destruct (_ || _) eqn:E; [by eexists|].
      eexists. split; [done|]. intros r' l' [= <- <-]. apply orb_false_iff in E as [E _].
      destruct (H r l eq_refl) as [_ Hl]. split; [by destruct l|].
      eapply Forall_impl; [exact Hl|]. by left.
Qed.

(** ** Any packet *)

Definition fragment_ok (c : AacConfig) (g : AacFragment) : Prop :=
  if active g then blen (gdata g) < gexpected_size g /\ gexpected_size g <= Z.max (2 ^ 20) (constant_size c)
  else g = no_fragment.

Definition audio_ok (d : AudioDepacketizer) : Prop :=
  aac_ok (aac_config_ d) /\ fragment_ok (aac_config_ d) (aac_fragment_ d).

(** The access unit data of an AAC packet. *)
Definition aac_data (b : list Z) : list Z :=
  drop (Z.to_nat (2 + (256 * bget b 0 + bget b 1 + 7) / 8)) b.

(** What an input may do: when it is accepted, the frames made available and the data kept
    back are the data kept back before and the packet's, in order; when it is refused no
    frame is added, and at most the fragment is dropped. *)
Definition conserves (d : AudioDepacketizer) (data : list Z) (d' : AudioDepacketizer) (ok : bool) : Prop :=
  aac_config_ d' = aac_config_ d /\ codec_ d' = codec_ d /\
  if ok then exists new, frames_ d' = frames_ d ++ new /\
    concat (map abuffer new) ++ gdata (aac_fragment_ d') = gdata (aac_fragment_ d) ++ data
  else frames_ d' = frames_ d /\
    (aac_fragment_ d' = aac_fragment_ d \/ aac_fragment_ d' = no_fragment).

(** The outcome of an operation on [d]. *)
Definition handles (d : AudioDepacketizer) (data : list Z) (m : mres (AudioDepacketizer * bool)) : Prop :=
  exists d' ok, m = Ret (d', ok) /\ audio_ok d' /\ conserves d data d' ok.

Lemma handles_reset d data : audio_ok d -> handles d data (Ret (ResetAacFragment d, false)).
Proof.
  intros [H1 H2]. do 2 eexists. split; [done|]. split; [by split|]. split; [done|]. split; [done|].
  split; [done|by right].
Qed.

Lemma handles_refuse d data : audio_ok d -> handles d data (Ret (d, false)).
Proof. intros H. do 2 eexists. split; [done|]. split; [done|]. by repeat split; try done; left. Qed.

Lemma Emit_ok d data n t s a z :
  0 <= n <= blen data -> exists f, EmitAacFrame d data n t s a z = Ret (push_frame d f) /\
    abuffer f = take (Z.to_nat n) data /\ artp_timestamp f = t /\ assrc f = s /\
    afirst_sequence f = a /\ alast_sequence f = z.
Proof.
  intros Hn. unfold EmitAacFrame, Copy. rewrite (proj2 (Z.ltb_ge _ _)) by lia. cbn [mbnd].
  eexists. split; [reflexivity|]. done.
Qed.

Lemma sum_sizes_ok l n : forall t,
  Forall (fun s => 0 <= s) l -> 0 <= t <= n -> n < 2 ^ 64 ->
  forall r, sum_sizes l n t = Some r -> r = t + foldr Z.add 0 l /\ r <= n.
Proof.
  induction l as [|s l IH]; intros t Hl Ht Hn r E; simpl in *; [injection E as <-; lia|].
  apply Forall_cons in Hl as [Hs Hl].
  rewrite (wrap_small 64) in E by (unfold is_u; lia). destruct (Z.ltb_spec (n - t) s); [done|].
  rewrite (wrap_small 64) in E by (unfold is_u; lia). apply IH in E; [lia|done|lia|done].
Qed.

Lemma emit_all_ok l : forall d v data i,
  Forall (fun s => 0 <= s) l -> foldr Z.add 0 l = blen data ->
  exists d' new, emit_all l d v data i = Ret d' /\ frames_ d' = frames_ d ++ new /\
    concat (map abuffer new) = data /\
    aac_fragment_ d' = aac_fragment_ d /\ aac_config_ d' = aac_config_ d /\ codec_ d' = codec_ d.
Proof.
  induction l as [|s l IH]; intros d v data i Hl Hsum; simpl in *.
  { exists d, []. rewrite app_nil_r. destruct data; [done|]. rewrite blen_cons in Hsum.
    pose proof (blen_nonneg data). lia. }
  apply Forall_cons in Hl as [Hs Hl].
  assert (0 <= foldr Z.add 0 l) by (clear -Hl; induction Hl; simpl; lia).
  destruct (Emit_ok d data s (u32 (vts v + u32 (u64 (i * constant_duration (aac_config_ d)))))
    (vssrc v) (vseq v) (vseq v)) as (f & -> & Hf & _); [lia|]. cbn [mbnd].
  destruct (IH (push_frame d f) v (drop (Z.to_nat s) data) (i + 1) Hl) as (d' & new & -> & H1 & H2 & H3 & H4 & H5).
  { unfold blen in *. rewrite length_drop. lia. }
  exists d', (f :: new). split; [done|]. simpl in H1. rewrite <- app_assoc in H1. split; [done|].
  simpl. rewrite H2, Hf, take_drop. done.
Qed.

Lemma input_many_handles d v l data :
  audio_ok d -> Forall size_ok l -> blen data < 2 ^ 64 -> handles d data (input_many d v l data).
Proof.
  intros Hd Hl Hn. unfold input_many. pose proof Hd as [Hc Hg]. unfold fragment_ok in Hg.
  destruct (active (aac_fragment_ d)) eqn:Ea; [by apply handles_reset|].
  assert (Forall (fun s => 0 <= s) l) as Hl0 by (eapply Forall_impl; [exact Hl|]; unfold size_ok; lia).
  destruct (sum_sizes l (blen data) 0) as [t|] eqn:Es; [|by apply handles_refuse].
  destruct (Z.eqb_spec t (blen data)) as [->|]; cbn [negb]; [|by apply handles_refuse].
  pose proof (blen_nonneg data). apply sum_sizes_ok in Es as [Es _]; [|done|lia|done].
  destruct (emit_all_ok l d v data 0 Hl0) as (d' & new & -> & H1 & H2 & H3 & H4 & H5); [lia|]. cbn [mbnd].
  do 2 eexists. split; [done|]. split; [by unfold audio_ok; rewrite H3, H4|]. split; [done|]. split; [done|].
  exists new. split; [done|]. by rewrite H2, H3, Hg, app_nil_r.
Qed.

Lemma input_one_handles d v s data :
  audio_ok d -> blen data < 2 ^ 64 -> 0 <= s < 2 ^ 32 ->
  size_ok s \/ s = constant_size (aac_config_ d) \/ s = u32 (blen data) ->
  handles d data (input_one d v s data).
Proof.
  intros Hd Hn Hs Hsz. unfold input_one. pose proof Hd as [Hc Hg]. unfold fragment_ok in Hg.
  pose proof (blen_nonneg data). pose proof (blen_nonneg (gdata (aac_fragment_ d))).
  destruct (active (aac_fragment_ d)) eqn:Ea.
  - destruct (_ || _) eqn:Ec; [by apply handles_reset|]. rewrite !orb_false_iff, !negb_false_iff in Ec.
    destruct Ec as [[[[_ _] _] He%Z.eqb_eq] Hl%Z.ltb_ge]. destruct Hg as [Hg1 Hg2].
    rewrite (wrap_small 64) in Hl by (unfold is_u; lia). cbn zeta. cbn [gdata gtimestamp gssrc gfirst_seq glast_seq].
    destruct (Z.eqb_spec (blen (gdata (aac_fragment_ d) ++ data)) s) as [E|E].
    + match goal with |- context [EmitAacFrame ?d1 ?x ?n ?t ?a ?p ?q] =>
        destruct (Emit_ok d1 x n t a p q) as (f & -> & Hf & _); [pose proof (blen_nonneg x); lia|] end.
      cbn [mbnd]. do 2 eexists. split; [done|]. split; [by split|]. split; [done|]. split; [done|].
      exists [f]. split; [done|]. simpl. rewrite Hf, !app_nil_r. unfold blen. by rewrite Nat2Z.id, firstn_all.
    + destruct (vmarker v); [exact (handles_reset d data Hd)|]. do 2 eexists. split; [done|].
      rewrite blen_app in E. split.
      * split; [done|]. unfold fragment_ok. simpl. rewrite blen_app. lia.
      * split; [done|]. split; [done|]. exists []. by rewrite app_nil_r.
  - destruct (Z.ltb_spec s (blen data)) as [|Hle]; [by apply handles_refuse|].
    destruct (Z.eqb_spec (blen data) s) as [E|E].
    + destruct (Emit_ok d data (blen data) (vts v) (vssrc v) (vseq v) (vseq v)) as (f & -> & Hf & _); [lia|].
      cbn [mbnd]. do 2 eexists. split; [done|]. split; [exact Hd|]. split; [done|]. split; [done|].
      exists [f]. split; [done|]. simpl. rewrite Hf, !Hg. simpl. rewrite !app_nil_r. unfold blen.
      by rewrite Nat2Z.id, firstn_all.
    + destruct (vmarker v); [by apply handles_refuse|]. do 2 eexists. split; [done|].
      assert (u32 (blen data) = s -> False) as Hu.
      { intros <-. apply E. symmetry. apply wrap_small. unfold is_u in *.
        pose proof (Z.mod_le (blen data) (2 ^ 32)). unfold wrap in *. lia. }
      split; [split; [done|]; unfold fragment_ok; simpl; unfold size_ok in Hsz; pow2; split; [lia|] |].
      * destruct Hsz as [?|[?|?]]; [lia|lia|]. by destruct Hu.
      * split; [done|]. split; [done|]. exists []. by rewrite app_nil_r, Hg.
Qed.

Lemma bytes_drop n b : bytes_ok b -> bytes_ok (drop n b).
Proof. apply Forall_drop. Qed.

Lemma InputAac_handles d v b :
  audio_ok d -> bytes_ok b -> blen b < 2 ^ 64 -> handles d (aac_data b) (InputAac d v b).
Proof.
  intros Hd Hb Hlen. unfold InputAac. destruct (Z.ltb_spec (blen b) 2) as [|H2]; [by apply handles_reset|].
  rewrite !rd_ok by lia. cbn [mbnd]. pose proof (bget_range b 0 Hb) as Hhi. pose proof (bget_range b 1 Hb) as Hlo.
  unfold is_u in *. rewrite lor_shiftl_add by (pow2; lia). change (2 ^ 8) with 256 in *.
  rewrite (Z.mul_comm (bget b 0)). set (bits := 256 * bget b 0 + bget b 1).
  destruct (Z.ltb_spec (blen b) (2 + (bits + 7) / 8)) as [|Hfit]; [by apply handles_reset|].
  assert (0 <= (bits + 7) / 8) by (apply Z.div_pos; lia).
  change (drop (Z.to_nat (2 + (bits + 7) / 8)) b) with (aac_data b).
  assert (blen (aac_data b) = blen b - 2 - (bits + 7) / 8) as Hdata.
  { unfold aac_data, blen in *. fold bits. rewrite length_drop. lia. }
  destruct (read_sizes_any (aac_config_ d) (drop 2 b) bits (blen (aac_data b))) as (h & -> & Hh).
  - apply Hd.
  - by apply bytes_drop.
  - lia.
  - unfold blen in *. rewrite length_drop. lia.
  - lia.
  - cbn [mbnd]. destruct h as [reset|r l]; [destruct reset; [by apply handles_reset|by apply handles_refuse]|].
    destruct (Hh r l eq_refl) as [Hne Hl]. destruct l as [|s [|s2 l]]; [done| |].
    + apply Forall_cons in Hl as [Hs _]. apply input_one_handles; [done|lia| |].
      * unfold size_ok in Hs. pow2. destruct Hs as [?|(_ & ? & _)]; lia.
      * destruct Hs as [?|(_ & _ & [?|[_ ?]])]; auto.
    + apply input_many_handles; [done| |lia]. eapply Forall_impl; [exact Hl|]. simpl.
      intros x [?|[? _]]; [done|done].
Qed.

(** The data of a packet, by codec. *)
Definition packet_data (codec : CodecType) (b : list Z) : list Z :=
  match codec with AAC => aac_data b | _ => b end.

Definition view_ok (v : RtpView) : Prop :=
  from_option (fun b => bytes_ok b /\ blen b < 2 ^ 64) True (vpayload v).

(** A depacketizer for packets with one frame each never holds back data. *)
Definition whole (d : AudioDepacketizer) : Prop :=
  codec_ d <> AAC -> aac_fragment_ d = no_fragment.

Lemma Input_handles d v :
  audio_ok d -> whole d -> view_ok v ->
  exists d' ok, Input d v = Ret (d', ok) /\ audio_ok d' /\ whole d' /\
    conserves d (packet_data (codec_ d) (default [] (vpayload v))) d' ok.
Proof.
  intros Hd Hw Hv. unfold Input, view_valid.
  assert (forall data, exists d' ok, Ret (d, false) = Ret (d', ok) /\ audio_ok d' /\ whole d' /\ conserves d data d' ok)
    as Hno by (intros data; destruct (handles_refuse d data Hd) as (d' & ok & [= <- <-] & H1 & H2);
               by exists d, false).
  unfold view_ok in Hv. destruct (vpayload v) as [b|]; simpl in *; [|apply Hno]. destruct Hv as [Hb Hlen].
  destruct (Z.eqb_spec (blen b) 0); cbn [negb]; [apply Hno|].
  assert (codec_ d <> AAC -> exists d' ok, Ret (InputSimplePayload d v b, true) = Ret (d', ok) /\
    audio_ok d' /\ whole d' /\ conserves d b d' ok) as Hs.
  { intros Hc. do 2 eexists. split; [reflexivity|]. split; [exact Hd|]. split; [exact Hw|].
    split; [done|]. split; [done|]. eexists [_]. split; [done|]. simpl. by rewrite (Hw Hc), !app_nil_r. }
  unfold packet_data. destruct (codec_ d) eqn:Ec; try apply Hno; try (by apply Hs).
  destruct (InputAac_handles d v b Hd Hb Hlen) as (d' & ok & E & H1 & H2). exists d', ok.
  split; [done|]. split; [done|]. split; [|done]. intros Hne. destruct H2 as (_ & Hc & _). congruence.
Qed.

(** ** The configuration *)

Lemma digits_range s : forall v r, 0 <= v -> digits s v = Some r -> 0 <= r.
Proof.
  induction s as [|c s IH]; intros v r Hv E; simpl in E; [by injection E as <-|].
  unfold is_digit in E. destruct (_ && _) eqn:Ec; [|done]. bool_hyps. apply IH in E; [done|lia].
Qed.

Lemma ParseUint_range s v : ParseUint s = Some v -> 0 <= v < 2 ^ 32.
Proof.
  unfold ParseUint. destruct (match Trim s with [] => _ | _ => _ end) as [neg ds].
  destruct ds as [|c ds]; [done|]. destruct (digits (c :: ds) 0) as [w|] eqn:E; [|done].
  apply digits_range in E; [|lia]. destruct (2 ^ 64 - 1 <? w) eqn:E1; [done|]. apply Z.ltb_ge in E1.
  destruct (Z.ltb_spec (2 ^ 32 - 1) (if neg then u64 (- w) else w)) as [|Hle]; [done|]. intros [= <-].
  destruct neg; [pose proof (wrap_range 64 (- w)); lia|lia].
Qed.

Lemma set_parameter_ok c k v : aac_ok c -> 0 <= v < 2 ^ 32 -> aac_ok (set_parameter c k v).
Proof.
  intros Hc Hv. unfold set_parameter.
  repeat (match goal with |- context [if ?x then _ else _] => destruct x eqn:? end);
    bool_hyps; unfold aac_ok in *; simpl; intuition lia.
Qed.

Lemma new_audio_ok codec sr ch fmtp :
  audio_ok (new_AudioDepacketizer codec sr ch fmtp) /\ whole (new_AudioDepacketizer codec sr ch fmtp).
Proof.
  unfold new_AudioDepacketizer, ParseAacFmtp.
  assert (aac_ok default_aac) as H0 by (unfold aac_ok, default_aac; simpl; lia).
  assert (forall l st, aac_ok (fst st) -> aac_ok (fst (foldl fmtp_item st l))) as H.
  { induction l as [|x l IH]; intros [c e] Hc; simpl; [done|]. apply IH. unfold fmtp_item.
    destruct (cut 61 x) as [[k v]|]; [|done]. destruct (named _ _); [done|].
    destruct (ParseUint v) as [n|] eqn:En; [|done]. simpl. apply set_parameter_ok; [done|].
    by eapply ParseUint_range. }
  specialize (H (getlines 59 fmtp) (default_aac, []) H0).
  destruct (foldl fmtp_item _ _) as [c e]. simpl in H. done.
Qed.

(** ** Runs *)

Definition audio_step (d : AudioDepacketizer) (v : RtpView) : mres AudioDepacketizer :=
  let! '(d, _) := Input d v in Ret d.

Lemma audio_run_ok vs : forall d,
  audio_ok d -> whole d -> Forall view_ok vs ->
  exists d', for_each audio_step vs d = Ret d' /\ audio_ok d' /\ whole d' /\
    codec_ d' = codec_ d /\ aac_config_ d' = aac_config_ d.
Proof.
  induction vs as [|v vs IH]; intros d Hd Hw Hvs; simpl; [by exists d|].
  apply Forall_cons in Hvs as [Hv Hvs]. unfold audio_step at 1.
  destruct (Input_handles d v Hd Hw Hv) as (d1 & ok & -> & H1 & H2 & (H3 & H4 & _)). cbn [mbnd].
  destruct (IH d1 H1 H2 Hvs) as (d2 & -> & ? & ? & ? & ?). exists d2.
  do 3 (split; [done|]). split; congruence.
Qed.

(** Audio input. Whatever bytes have arrived before, an arriving packet is handled without
    a fault, and the data held back for an unfinished access unit stays below the larger of
    1 MiB and the negotiated constant size. An accepted packet conserves the data: the buffers
    of the frames it makes available, followed by what is held back now, are what was held back
    before followed by the packet's access unit data. A refused packet adds no frame and at
    most drops the unfinished access unit. *)
Theorem audio_input_sound codec sample_rate channels fmtp vs v :
  Forall view_ok vs -> view_ok v ->
  exists d d' ok,
    for_each audio_step vs (new_AudioDepacketizer codec sample_rate channels fmtp) = Ret d /\
    Input d v = Ret (d', ok) /\
    blen (gdata (aac_fragment_ d)) <= Z.max (2 ^ 20) (constant_size (aac_config_ d)) /\
    conserves d (packet_data codec (default [] (vpayload v))) d' ok.
Proof.
  intros Hvs Hv. destruct (new_audio_ok codec sample_rate channels fmtp) as [Hd Hw].
  destruct (audio_run_ok vs _ Hd Hw Hvs) as (d & E & Hd1 & Hw1 & Hc & _).
  destruct (Input_handles d v Hd1 Hw1 Hv) as (d' & ok & E2 & _ & _ & H).
  exists d, d', ok. split; [done|]. split; [done|]. split.
  - destruct Hd1 as [_ Hg]. unfold fragment_ok in Hg. destruct (active _); [lia|].
    rewrite Hg. simpl. change (blen []) with 0. lia.
  - rewrite Hc in H. unfold new_AudioDepacketizer in H. by destruct (ParseAacFmtp _ _).
Qed.

(** ** What a sender puts into packets (RFC 3640)

    What the sender writes into an AU header beside the size: the index (of the first unit)
    or index delta, the composition and decoding time offsets where it gives them, the random
    access flag and the stream state.  A field takes the low bits of its value that the
    negotiated width has room for. *)
Record AuFields : Type := mkFields {
  f_index : Z;
  f_cts : option Z;
  f_dts : option Z;
  f_random : bool;
  f_state : Z }.

(** A time offset: nothing when none was negotiated, else a flag and, when it is set, the
    offset. *)
Definition delta_bits (len : Z) (o : option Z) : list bool :=
  if 0 <? len then
    match o with None => [false] | Some v => true :: be_bits (Z.to_nat len) v end
  else [].

Definition au_header (c : AacConfig) (first : bool) (f : AuFields) (size : Z) : list bool :=
  be_bits (Z.to_nat (size_length c)) size ++
  be_bits (Z.to_nat (if first then index_length c else index_delta_length c)) (f_index f) ++
  delta_bits (cts_delta_length c) (f_cts f) ++
  delta_bits (dts_delta_length c) (f_dts f) ++
  (if random_access_indication c then [f_random f] else []) ++
  be_bits (Z.to_nat (stream_state_indication c)) (f_state f).

Fixpoint au_headers (c : AacConfig) (first : bool) (l : list (AuFields * Z)) : list bool :=
  match l with
  | [] => []
  | (f, size) :: l => au_header c first f size ++ au_headers c false l
  end.

Definition header_bytes (bits : list bool) : nat := Z.to_nat ((Z.of_nat (length bits) + 7) / 8).

Definition aac_packet (c : AacConfig) (headers : list (AuFields * Z)) (data : list Z) : list Z :=
  let bits := au_headers c true headers in
  be16 (Z.of_nat (length bits)) ++ pack (header_bytes bits) bits ++ data.

(** ** Reading it back *)

Lemma Read_decodes r n v rest :
  areader_ok r -> 0 <= n <= 32 -> abits r = be_bits (Z.to_nat n) v ++ rest ->
  exists r', Read r n = Ret (Some (v mod 2 ^ n, r')) /\ areader_ok r' /\ abits r' = rest.
Proof.
  intros Hr Hn E. assert (length (be_bits (Z.to_nat n) v) = Z.to_nat n) as L by apply be_bits_length.
  assert (Z.to_nat n <= length (abits r))%nat as Hl by (rewrite E, length_app; lia).
  exists (askip r n). pose proof (Read_ok r (Z.to_nat n) Hr ltac:(lia) Hl) as Er.
  destruct (askip_ok r (Z.to_nat n) Hr Hl) as [H1 H2]. rewrite Z2Nat.id in * by lia.
  rewrite Er, E, take_app_length' by done. rewrite bval_be_bits, Z2Nat.id by lia.
  split; [done|]. split; [done|]. by rewrite H2, E, drop_app_length'.
Qed.

Lemma skip_bits_decodes (c : bool) r n v rest :
  areader_ok r -> 0 <= n <= 32 -> (c = false -> n = 0) -> abits r = be_bits (Z.to_nat n) v ++ rest ->
  exists r', skip_bits c r n = Ret (Some r') /\ areader_ok r' /\ abits r' = rest.
Proof.
  intros Hr Hn Hc E. unfold skip_bits. destruct c.
  - destruct (Read_decodes r n v rest Hr Hn E) as (r' & -> & H1 & H2).
    cbn [mbnd]. by exists r'.
  - rewrite Hc in E by done. by exists r.
Qed.

Lemma Read_flag r b rest :
  areader_ok r -> abits r = b :: rest ->
  exists r', Read r 1 = Ret (Some (Z.b2z b, r')) /\ areader_ok r' /\ abits r' = rest.
Proof.
  intros Hr E. destruct (Read_decodes r 1 (Z.b2z b) rest Hr ltac:(lia)) as (r' & Er & H);
    [rewrite E; by destruct b|]. exists r'. split; [|done]. rewrite Er. by destruct b.
Qed.

Lemma skip_delta_decodes r n o rest :
  areader_ok r -> 0 <= n <= 32 -> abits r = delta_bits n o ++ rest ->
  exists r', skip_delta r n = Ret (Some r') /\ areader_ok r' /\ abits r' = rest.
Proof.
  intros Hr Hn E. unfold skip_delta, delta_bits in *. destruct (0 <? n); [|by exists r].
  destruct o as [v|].
  - destruct (Read_flag r true _ Hr E) as (r1 & -> & Hr1 & E1). cbn [mbnd Z.eqb Z.b2z].
    destruct (Read_decodes r1 n v rest Hr1 Hn E1) as (r2 & -> & ? & ?). cbn [mbnd]. by exists r2.
  - destruct (Read_flag r false _ Hr E) as (r' & -> & H1 & H2). cbn [mbnd]. by exists r'.
Qed.

Lemma header_rest_decodes c r f rest :
  aac_ok c -> areader_ok r ->
  abits r = delta_bits (cts_delta_length c) (f_cts f) ++ delta_bits (dts_delta_length c) (f_dts f) ++
    (if random_access_indication c then [f_random f] else []) ++
    be_bits (Z.to_nat (stream_state_indication c)) (f_state f) ++ rest ->
  exists r', header_rest c r = Ret (Some r') /\ areader_ok r' /\ abits r' = rest.
Proof.
  intros Hc Hr E. unfold header_rest.
  pose proof Hc as (_ & _ & _ & Hcts & Hdts & Hss & _).
  destruct (skip_delta_decodes r _ _ _ Hr Hcts E) as (r1 & -> & Hr1 & E1). cbn [mbnd].
  destruct (skip_delta_decodes r1 _ _ _ Hr1 Hdts E1) as (r2 & -> & Hr2 & E2). cbn [mbnd].
  assert (exists r3, skip_bits (random_access_indication c) r2 1 = Ret (Some r3) /\ areader_ok r3 /\
    abits r3 = be_bits (Z.to_nat (stream_state_indication c)) (f_state f) ++ rest) as (r3 & -> & Hr3 & E3).
  { unfold skip_bits. destruct (random_access_indication c); [|by exists r2].
    destruct (Read_flag r2 (f_random f) _ Hr2 E2) as (r3 & -> & ? & ?). cbn [mbnd]. by exists r3. }
  cbn [mbnd]. eapply skip_bits_decodes; [done|lia| |done]. intros H%Z.ltb_ge. lia.
Qed.

Lemma delta_bits_length n o :
  0 <= n <= 32 ->
  (if 0 <? n then 1 else 0) <= Z.of_nat (length (delta_bits n o)) <= 33.
Proof.
  intros Hn. unfold delta_bits. destruct (0 <? n); [|simpl; lia].
  destruct o; simpl length; rewrite ?be_bits_length; lia.
Qed.

(** A header has at least the bits the code asks for before it reads one. *)
Lemma au_header_length c first f s :
  aac_ok c -> header_required c first <= Z.of_nat (length (au_header c first f s)) <= 200.
Proof.
  intros (H1 & H2 & H3 & Hcts & Hdts & H4 & _). unfold au_header, header_required.
  pose proof (delta_bits_length _ (f_cts f) Hcts). pose proof (delta_bits_length _ (f_dts f) Hdts).
  rewrite !length_app, !be_bits_length.
  destruct (random_access_indication c), first; simpl length; lia.
Qed.

Lemma header_required_pos c first : aac_ok c -> 1 <= size_length c -> 1 <= header_required c first.
Proof.
  intros (H1 & H2 & H3 & _ & _ & H4 & _) Hsl. unfold header_required.
  destruct (0 <? cts_delta_length c), (0 <? dts_delta_length c), (random_access_indication c), first; lia.
Qed.

Definition sizes_fit (c : AacConfig) (l : list (AuFields * Z)) : Prop :=
  Forall (fun x => size_ok (snd x) /\ snd x < 2 ^ size_length c) l.

Lemma header_loop_decodes l : forall fuel c r first acc,
  aac_ok c -> 1 <= size_length c -> areader_ok r -> sizes_fit c l ->
  abits r = au_headers c first l -> (length l < fuel)%nat ->
  exists r', header_loop fuel c r first acc = Ret (HSizes r' (acc ++ map snd l)) /\ areader_ok r' /\ abits r' = [].
Proof.
  induction l as [|[f s] l IH]; intros fuel c r first acc Hc Hsl Hr Hl E Hf;
    (destruct fuel as [|fuel]; [simpl in Hf; lia|]); cbn [header_loop].
  - rewrite (Remaining_length r Hr), E. simpl length.
    pose proof (header_required_pos c first Hc Hsl).
    rewrite (proj2 (Z.ltb_lt _ _)) by (simpl; lia). cbn [orb]. exists r. by rewrite app_nil_r.
  - apply Forall_cons in Hl as [[Hs Hs2] Hl]. simpl in E, Hs, Hs2. pose proof (au_header_length c first f s Hc) as L.
    rewrite (Remaining_length r Hr), E, length_app.
    rewrite (proj2 (Z.ltb_ge _ _)), (proj2 (Z.eqb_neq (size_length c) 0)) by lia. cbn [orb].
    pose proof Hc as (H1 & H2 & H3 & _). unfold au_header in E. rewrite <- !app_assoc in E.
    unfold size_ok in Hs. destruct (Read_decodes r (size_length c) s _ Hr ltac:(lia) E) as (r1 & -> & Hr1 & E1).
    rewrite Z.mod_small by lia. cbn [mbnd].
    destruct (skip_bits_decodes (0 <? (if first then index_length c else index_delta_length c)) r1
      (if first then index_length c else index_delta_length c) _ _ Hr1
      ltac:(destruct first; lia) ltac:(intros ?%Z.ltb_ge; destruct first; lia) E1) as (r2 & -> & Hr2 & E2).
    cbn [mbnd]. destruct (header_rest_decodes c r2 _ _ Hc Hr2 E2) as (r3 & -> & Hr3 & E3). cbn [mbnd].
    rewrite (proj2 (Z.eqb_neq s 0)), (proj2 (Z.ltb_ge _ s)) by lia. cbn [orb].
    destruct (IH fuel c r3 false (acc ++ [s]) Hc Hsl Hr3 Hl E3 ltac:(simpl in Hf; lia)) as (r' & -> & ? & ?).
    exists r'. by rewrite <- app_assoc.
Qed.

(** The reader of a packet's headers sees exactly their bits. *)
Lemma packet_reader bits data :
  bytes_ok data ->
  let hs := pack (header_bytes bits) bits in
  let r := mkAuReader (hs ++ data) (Z.of_nat (length bits)) 0 in
  Z.of_nat (length bits) < 65536 -> areader_ok r /\ abits r = bits.
Proof.
  intros Hd hs r Hn.
  assert ((length bits <= 8 * header_bytes bits)%nat /\ length hs = header_bytes bits) as [Hl Lh].
  { split; [|apply pack_length]. unfold header_bytes.
    pose proof (Z.div_mod (Z.of_nat (length bits) + 7) 8). pose proof (Z.mod_pos_bound (Z.of_nat (length bits) + 7) 8).
    lia. }
  assert (areader_ok r) as Hr.
  { split; [apply Forall_app; split; [apply pack_bytes|done]|]. simpl. rewrite blen_app. unfold blen.
    rewrite Lh. pow2. lia. }
  split; [done|]. unfold abits. simpl. rewrite Z.sub_0_r, Nat2Z.id, rbits_data. unfold data_bits.
  rewrite map_app, concat_app. destruct (pack_bits (header_bytes bits) bits Hl) as [pad E].
  unfold data_bits in E. fold hs in E. rewrite E, <- app_assoc. by rewrite take_app_length.
Qed.

Lemma aac_packet_sizes c l data :
  aac_ok c -> 1 <= size_length c -> sizes_fit c l -> l <> [] -> bytes_ok data ->
  Z.of_nat (length (au_headers c true l)) < 65536 ->
  forall d v, aac_config_ d = c ->
  InputAac d v (aac_packet c l data) =
  match l with [(_, s)] => input_one d v s data | _ => input_many d v (map snd l) data end.
Proof.
  intros Hc Hsl Hl Hne Hdata Hbits d v Ed.
  pose proof (packet_reader (au_headers c true l) data Hdata Hbits) as [Hr Er].
  set (bits := au_headers c true l) in *. set (n := Z.of_nat (length bits)) in *.
  assert (1 <= n) as Hn1.
  { destruct l as [|[f s] l']; [done|]. pose proof (au_header_length c true f s Hc).
    pose proof (header_required_pos c true Hc Hsl). subst n bits. simpl. rewrite length_app. lia. }
  unfold InputAac, aac_packet. fold bits. fold n. set (hs := pack (header_bytes bits) bits) in *.
  assert (0 <= (n + 7) / 8) by (apply Z.div_pos; lia).
  assert (length hs = Z.to_nat ((n + 7) / 8)) as Lh by (apply pack_length).
  assert (blen (be16 n ++ hs ++ data) = 2 + (n + 7) / 8 + blen data) as Lb.
  { rewrite !blen_app. change (blen (be16 n)) with 2. unfold blen at 1. lia. }
  pose proof (blen_nonneg data).
  rewrite (proj2 (Z.ltb_ge _ _)) by lia. rewrite !rd_ok by lia. cbn [mbnd].
  change (bget (be16 n ++ hs ++ data) 0) with (byte_of n 8).
  change (bget (be16 n ++ hs ++ data) 1) with (byte_of n 0).
  pose proof (byte_of_u8 n 0) as B0. unfold is_u in B0.
  rewrite lor_shiftl_add by (pow2; lia). change (2 ^ 8) with 256.
  rewrite be16_value by (unfold is_u; pow2; lia).
  rewrite (proj2 (Z.ltb_ge _ _)) by lia.
  assert (drop (Z.to_nat (2 + (n + 7) / 8)) (be16 n ++ hs ++ data) = data) as ->.
  { rewrite app_assoc. apply drop_app_length'. rewrite length_app, Lh. simpl. lia. }
  change (drop 2 (be16 n ++ hs ++ data)) with (hs ++ data).
  unfold read_sizes. rewrite (proj2 (Z.eqb_neq n 0)), Ed by lia.
  destruct (header_loop_decodes l (S (Z.to_nat n)) c _ true [] Hc Hsl Hr Hl Er) as (r' & -> & Hr' & Er').
  { assert (length l <= length bits)%nat; [|lia]. subst bits. clear -Hc Hsl. generalize true.
    induction l as [|[f s] l IH]; intros first; simpl; [lia|]. rewrite length_app. specialize (IH false).
    unfold au_header. rewrite length_app, be_bits_length. lia. }
  cbn [mbnd app]. rewrite (Remaining_length r' Hr'), Er'. simpl length. destruct l as [|[f s] [|s2 l]]; done.
Qed.

(** ** A stream of packets *)

(** Some data and the fields of the header it goes with. *)
Notation piece := (AuFields * list Z)%type.

(** The header fields and size of an access unit. *)
Definition unit_header (au : piece) : AuFields * Z := (fst au, blen (snd au)).

(** Access units that share a packet, or one that spreads over several, each with a header of
    its own. *)
Inductive aac_item : Type :=
| AacUnits (aus : list piece)
| AacFragments (first : piece) (middle : list piece) (final : piece).

Definition item_unit (first : piece) (middle : list piece) (final : piece) : list Z :=
  snd first ++ concat (map snd middle) ++ snd final.

(** The packets of an item: marker and payload. *)
Definition item_payloads (c : AacConfig) (it : aac_item) : list (bool * list Z) :=
  match it with
  | AacUnits aus => [(true, aac_packet c (map unit_header aus) (concat (map snd aus)))]
  | AacFragments a ms z =>
    let p chunk := aac_packet c [(fst chunk, blen (item_unit a ms z))] (snd chunk) in
    (false, p a) :: map (fun m => (false, p m)) ms ++ [(true, p z)]
  end.

Definition au_fits (c : AacConfig) (au : list Z) : Prop :=
  bytes_ok au /\ size_ok (blen au) /\ blen au < 2 ^ size_length c.

Definition aac_item_ok (c : AacConfig) (it : aac_item) : Prop :=
  match it with
  | AacUnits aus => aus <> [] /\ Forall (fun au => au_fits c (snd au)) aus /\
      Z.of_nat (length (au_headers c true (map unit_header aus))) < 65536 /\
      blen (concat (map snd aus)) < 2 ^ 64
  | AacFragments a ms z => au_fits c (item_unit a ms z) /\ snd z <> []
  end.

(** The views: numbered from [seq] on. *)
Definition item_views (c : AacConfig) (ssrc ts seq : Z) (it : aac_item) : list RtpView :=
  imap (fun i p => mkView (u16 (seq + Z.of_nat i)) ts (fst p) (Some (snd p)) ssrc 0) (item_payloads c it).

(** The frames. *)
Definition aac_frame (d : AudioDepacketizer) (ssrc ts first last : Z) (au : list Z) : AudioFrame :=
  mkAudio AAC ts ts (time_base (sample_rate_ d)) ssrc ts first last (u16 (last - first) + 1)
    (constant_duration (aac_config_ d)) (codec_config_ d) (sample_rate_ d) (channels_ d) au.

Definition item_frames (d : AudioDepacketizer) (ssrc ts seq : Z) (it : aac_item) : list AudioFrame :=
  match it with
  | AacUnits aus =>
    imap (fun i au => aac_frame d ssrc (u32 (ts + Z.of_nat i * constant_duration (aac_config_ d)))
                        (u16 seq) (u16 seq) (snd au)) aus
  | AacFragments a ms z =>
    [aac_frame d ssrc ts (u16 seq) (u16 (seq + Z.of_nat (length ms) + 1)) (item_unit a ms z)]
  end.

Definition with_frames (d : AudioDepacketizer) (fs : list AudioFrame) : AudioDepacketizer :=
  mkDepacketizer (codec_ d) (sample_rate_ d) (channels_ d) (aac_config_ d) (codec_config_ d)
    (aac_fragment_ d) (frames_ d ++ fs).

Fixpoint audio_feed (d : AudioDepacketizer) (vs : list RtpView) : mres (AudioDepacketizer * bool) :=
  match vs with
  | [] => Ret (d, true)
  | v :: vs =>
    let! '(d, ok) := Input d v in
    let! '(d, ok') := audio_feed d vs in Ret (d, ok && ok')
  end.

Lemma Input_aac d v b : codec_ d = AAC -> vpayload v = Some b -> 1 <= blen b -> Input d v = InputAac d v b.
Proof.
  intros Hc Hv Hb. unfold Input, view_valid. rewrite Hv, Hc.
  by rewrite (proj2 (Z.eqb_neq (blen b) 0)) by lia.
Qed.

Lemma aac_packet_long c l data : 1 <= blen (aac_packet c l data).
Proof.
  unfold aac_packet. rewrite !blen_app. change (blen (be16 _)) with 2.
  match goal with |- context [blen ?x + blen data] => pose proof (blen_nonneg x) end.
  pose proof (blen_nonneg data). lia.
Qed.

Lemma Emit_exact d data rest t s a z :
  EmitAacFrame d (data ++ rest) (blen data) t s a z = Ret (with_frames d [aac_frame d s t a z data]).
Proof.
  unfold EmitAacFrame, Copy. rewrite blen_app. pose proof (blen_nonneg rest).
  rewrite (proj2 (Z.ltb_ge _ _)) by lia. cbn [mbnd]. unfold blen. by rewrite Nat2Z.id, take_app_length.
Qed.

Lemma Emit_whole d data t s a z :
  EmitAacFrame d data (blen data) t s a z = Ret (with_frames d [aac_frame d s t a z data]).
Proof. rewrite <- (Emit_exact d data []). by rewrite app_nil_r. Qed.

Lemma emit_all_exact aus : forall d v k,
  emit_all (map blen aus) d v (concat aus) k =
  Ret (with_frames d (imap (fun i au => aac_frame d (vssrc v)
    (u32 (vts v + (k + Z.of_nat i) * constant_duration (aac_config_ d))) (vseq v) (vseq v) au) aus)).
Proof.
  induction aus as [|au aus IH]; intros d v k; simpl.
  { unfold with_frames. rewrite app_nil_r. by destruct d. }
  rewrite Emit_exact. cbn [mbnd].
  assert (drop (Z.to_nat (blen au)) (au ++ concat aus) = concat aus) as ->
    by (unfold blen; by rewrite Nat2Z.id, drop_app_length).
  rewrite IH. f_equal.
  unfold with_frames. simpl. rewrite <- app_assoc. simpl. f_equal. f_equal. f_equal.
  - unfold aac_frame. rewrite Z.add_0_r.
    assert (u32 (vts v + u32 (u64 (k * constant_duration (aac_config_ d)))) =
            u32 (vts v + k * constant_duration (aac_config_ d))) as ->; [|done].
    generalize (k * constant_duration (aac_config_ d)) (vts v). intros x y.
    unfold wrap. pow2. Z.div_mod_to_equations. lia.
  - apply imap_ext. intros i x _. unfold aac_frame, compose. simpl.
    by replace (k + 1 + Z.of_nat i) with (k + Z.of_nat (S i)) by lia.
Qed.

Lemma sum_sizes_exact aus : forall t n,
  0 <= t -> t + blen (concat aus) <= n -> n < 2 ^ 64 ->
  sum_sizes (map blen aus) n t = Some (t + blen (concat aus)).
Proof.
  induction aus as [|au aus IH]; intros t n Ht Hn Hb; simpl; [by rewrite Z.add_0_r|].
  simpl in Hn. rewrite blen_app in *. pose proof (blen_nonneg au). pose proof (blen_nonneg (concat aus)).
  rewrite (wrap_small 64), (proj2 (Z.ltb_ge _ _)) by (unfold is_u; lia).
  rewrite (wrap_small 64) by (unfold is_u; lia). rewrite IH by lia. f_equal. lia.
Qed.

(** A depacketizer between access units. *)
Definition aac_ready (d : AudioDepacketizer) : Prop :=
  codec_ d = AAC /\ aac_ok (aac_config_ d) /\ 1 <= size_length (aac_config_ d) /\
  aac_fragment_ d = no_fragment.

Lemma units_delivered d ssrc ts seq aus :
  aac_ready d -> is_u32 ts -> aac_item_ok (aac_config_ d) (AacUnits aus) ->
  audio_feed d (item_views (aac_config_ d) ssrc ts seq (AacUnits aus)) =
  Ret (with_frames d (item_frames d ssrc ts seq (AacUnits aus)), true).
Proof.
  intros (Hcodec & Hc & Hsl & Hg) Hts (Hne & Hfit & Hbits & Hlen). cbn [item_views item_payloads imap audio_feed].
  set (v := mkView _ _ _ _ _ _).
  rewrite (Input_aac d v (aac_packet (aac_config_ d) (map unit_header aus) (concat (map snd aus))) Hcodec eq_refl)
    by apply aac_packet_long.
  rewrite (aac_packet_sizes _ (map unit_header aus) (concat (map snd aus))); [|done|done| |by destruct aus| |done|done].
  2: { apply Forall_map. eapply Forall_impl; [exact Hfit|]. by intros au (_ & ? & ?). }
  2: { clear -Hfit. induction Hfit as [|au aus [H _] _ IH]; simpl; [constructor|]. by apply Forall_app. }
  assert (forall m, m = Ret (with_frames d (item_frames d ssrc ts seq (AacUnits aus)), true) ->
    (let! '(d0, ok) := m in let! '(d1, ok') := Ret (d0, true) in Ret (d1, ok && ok')) =
    Ret (with_frames d (item_frames d ssrc ts seq (AacUnits aus)), true)) as Hm by (by intros m ->).
  apply Hm. clear Hm. destruct aus as [|[f au] [|[f2 au2] aus]]; [done| |].
  - cbn [map concat unit_header fst snd]. rewrite app_nil_r. unfold input_one. rewrite Hg. cbn [active no_fragment].
    rewrite (proj2 (Z.ltb_ge _ _)), Z.eqb_refl by lia.
    rewrite Emit_whole. cbn [mbnd]. do 3 f_equal. simpl.
    rewrite Z.add_0_r, Z.mul_0_l, !Z.add_0_r, (wrap_small 32) by done. done.
  - set (l := (f, au) :: (f2, au2) :: aus) in *. change (map unit_header l) with
      (unit_header (f, au) :: unit_header (f2, au2) :: map unit_header aus). cbn match.
    change (_ :: _ :: map unit_header aus) with (map unit_header l). unfold input_many. rewrite Hg.
    cbn [active no_fragment].
    assert (map snd (map unit_header l) = map blen (map snd l)) as -> by (by rewrite !map_map).
    rewrite sum_sizes_exact, Z.add_0_l, Z.eqb_refl by (rewrite ?Z.add_0_l; done || lia). cbn [negb].
    rewrite emit_all_exact. cbn [mbnd]. do 3 f_equal. unfold item_frames.
    change (map snd l) with (snd <$> l). rewrite imap_fmap. apply imap_ext. intros i x _. simpl.
    by rewrite !Z.add_0_l, Z.add_0_r.
Qed.

(** The state after the chunks [pre] of an access unit of [total] bytes: packet [seq + n] was
    the last one. *)
Definition in_fragment (d : AudioDepacketizer) (ssrc ts seq n total : Z) (pre : list Z) : AudioDepacketizer :=
  set_fragment d (mkFragment true ssrc ts total (u16 seq) (u16 (seq + n)) pre).

Lemma u16_next x : u16 (u16 x + 1) = u16 (x + 1).
Proof. apply wrap_add_l. Qed.

(** One more chunk. *)
Lemma fragment_step d ssrc ts seq n total pre f chunk marker :
  0 <= n -> 0 <= total < 2 ^ 32 -> blen pre + blen chunk <= total ->
  input_one (in_fragment d ssrc ts seq n total pre)
    (mkView (u16 (seq + (n + 1))) ts marker (Some (aac_packet (aac_config_ d) [(f, total)] chunk)) ssrc 0) total chunk =
  if blen pre + blen chunk =? total
  then Ret (with_frames (ResetAacFragment d) [aac_frame d ssrc ts (u16 seq) (u16 (seq + (n + 1))) (pre ++ chunk)], true)
  else Ret (if marker then (ResetAacFragment d, false)
            else (in_fragment d ssrc ts seq (n + 1) total (pre ++ chunk), true)).
Proof.
  intros Hn Ht Hl. pose proof (blen_nonneg pre). pose proof (blen_nonneg chunk).
  unfold input_one, in_fragment. simpl aac_fragment_. cbn [active gssrc gtimestamp gexpected_size gfirst_seq
    glast_seq gdata vssrc vts vseq vmarker]. rewrite u16_next, Z.add_assoc, !Z.eqb_refl. cbn [negb orb].
  rewrite (wrap_small 64) by (unfold is_u; pow2; lia). rewrite (proj2 (Z.ltb_ge _ _)) by lia.
  rewrite <- blen_app. destruct (_ =? total); [|by destruct marker].
  by rewrite Emit_whole.
Qed.

Section Fragments.
Context (d : AudioDepacketizer) (ssrc ts seq : Z) (a : piece) (ms : list piece) (z : piece).
Let c := aac_config_ d.
Let total := blen (item_unit a ms z).
Hypothesis Hready : aac_ready d.
Hypothesis Hok : aac_item_ok c (AacFragments a ms z).

Lemma total_range : 0 <= total < 2 ^ 32.
Proof. destruct Hok as [(_ & Hs & _) _]. unfold size_ok in Hs. fold total in Hs. pow2. lia. Qed.

(** A packet with a chunk of the access unit reaches [input_one]. *)
Lemma fragment_input d' v f chunk :
  codec_ d' = AAC -> aac_config_ d' = c -> bytes_ok chunk -> vpayload v = Some (aac_packet c [(f, total)] chunk) ->
  Input d' v = input_one d' v total chunk.
Proof.
  intros Hd' Hc' Hb Hv. destruct Hready as (_ & Hc & Hsl & _). destruct Hok as [(_ & Hs & Hs2) _].
  rewrite (Input_aac d' v _ Hd' Hv) by apply aac_packet_long.
  rewrite (aac_packet_sizes c [(f, total)] chunk); [done|done|done| |done|done| |done].
  - repeat constructor; apply Hs || apply Hs2.
  - pose proof (au_header_length c true f total Hc) as L. cbn [au_headers]. rewrite app_nil_r. lia.
Qed.

Definition fragment_view (n : Z) (marker : bool) (chunk : piece) : RtpView :=
  mkView (u16 (seq + n)) ts marker (Some (aac_packet c [(fst chunk, total)] (snd chunk))) ssrc 0.

Lemma fragments_rest rest : forall pre n,
  0 <= n -> pre ++ concat (map snd rest) ++ snd z = item_unit a ms z ->
  audio_feed (in_fragment d ssrc ts seq n total pre)
    (imap (fun i p => fragment_view (n + 1 + Z.of_nat i) (fst p) (snd p)) (map (fun m => (false, m)) rest ++ [(true, z)])) =
  Ret (with_frames d [aac_frame d ssrc ts (u16 seq) (u16 (seq + (n + 1 + Z.of_nat (length rest)))) (item_unit a ms z)], true).
Proof.
  pose proof total_range as Ht. pose proof Hready as (Hcodec & _ & _ & Hg). pose proof Hok as [(Hb & _) Hz].
  induction rest as [|m rest IH]; intros pre n Hn E; simpl in E;
    assert (blen (item_unit a ms z) = total) as El by done; rewrite <- E in El, Hb;
    rewrite !blen_app in El; unfold bytes_ok in Hb; rewrite !Forall_app in Hb; cbn [map app imap audio_feed].
  - rewrite (fragment_input _ _ (fst z) (snd z)) by (done || apply Hb). unfold fragment_view at 1. rewrite Z.add_0_r. cbn [fst snd].
    rewrite fragment_step by lia. rewrite (proj2 (Z.eqb_eq _ total)) by (simpl in El; lia). cbn [mbnd andb audio_feed].
    do 2 f_equal. simpl length. unfold with_frames. simpl. by rewrite Hg, E, Z.add_0_r.
  - assert (1 <= blen (snd z)) by (by apply blen_pos). pose proof (blen_nonneg (concat (map snd rest))).
    rewrite (fragment_input _ _ (fst m) (snd m)) by (done || apply Hb). unfold fragment_view at 1. rewrite Z.add_0_r. cbn [fst snd].
    rewrite fragment_step by lia. rewrite (proj2 (Z.eqb_neq _ total)) by lia. cbn [mbnd].
    specialize (IH (pre ++ snd m) (n + 1) ltac:(lia)).
    rewrite (imap_ext _ (fun i p => fragment_view (n + 1 + 1 + Z.of_nat i) (fst p) (snd p))).
    2: { intros i x _. unfold compose. by replace (n + 1 + Z.of_nat (S i)) with (n + 1 + 1 + Z.of_nat i) by lia. }
    rewrite IH by (by rewrite <- E, <- !app_assoc). cbn [mbnd andb]. simpl length.
    by replace (n + 1 + 1 + Z.of_nat (length rest)) with (n + 1 + Z.of_nat (S (length rest))) by lia.
Qed.

Lemma fragments_delivered :
  audio_feed d (item_views c ssrc ts seq (AacFragments a ms z)) =
  Ret (with_frames d (item_frames d ssrc ts seq (AacFragments a ms z)), true).
Proof.
  pose proof total_range as Ht. pose proof Hready as (Hcodec & _ & _ & Hg). pose proof Hok as [(Hb & _) Hz].
  unfold item_unit, bytes_ok in Hb. rewrite !Forall_app in Hb.
  unfold item_views, item_payloads. fold total. cbn [imap audio_feed].
  rewrite (fragment_input d _ (fst a) (snd a) Hcodec eq_refl (proj1 Hb)) by done. unfold input_one. rewrite Hg.
  cbn [active no_fragment fst snd vts vssrc vseq vmarker].
  assert (blen (snd a) < total) as Hlt.
  { unfold total, item_unit. rewrite !blen_app. pose proof (blen_nonneg (concat (map snd ms))).
    pose proof (blen_pos (snd z) Hz). lia. }
  rewrite (proj2 (Z.ltb_ge _ _)), (proj2 (Z.eqb_neq _ _)) by lia. cbn [mbnd].
  pose proof (fragments_rest ms (snd a) 0 ltac:(lia) eq_refl) as Hrest. rewrite Z.add_0_r in *.
  unfold in_fragment in Hrest. rewrite Z.add_0_r in Hrest.
  set (p := fun m : piece => aac_packet c [(fst m, total)] (snd m)).
  assert (map (fun m : piece => (false, aac_packet c [(fst m, total)] (snd m))) ms ++
      [(true, aac_packet c [(fst z, total)] (snd z))] =
    prod_map id p <$> (map (fun m => (false, m)) ms ++ [(true, z)])) as ->
    by (rewrite fmap_app; f_equal; by rewrite <- list_fmap_compose).
  rewrite imap_fmap.
  rewrite (imap_ext _ (fun i p => fragment_view (0 + 1 + Z.of_nat i) (fst p) (snd p))).
  2: { intros i x _. unfold compose, fragment_view. destruct x as [mk ch]. cbn [fst snd prod_map id].
       by replace (Z.of_nat (S i)) with (0 + 1 + Z.of_nat i) by lia. }
  rewrite Hrest. cbn [mbnd andb]. do 2 f_equal. unfold with_frames. simpl.
  by replace (seq + (0 + 1 + Z.of_nat (length ms))) with (seq + Z.of_nat (length ms) + 1) by lia.
Qed.
End Fragments.

(** Items one after the other: timestamp and contents. *)
Fixpoint aac_views (c : AacConfig) (ssrc seq : Z) (its : list (Z * aac_item)) : list RtpView :=
  match its with
  | [] => []
  | (ts, it) :: its =>
    item_views c ssrc ts seq it ++ aac_views c ssrc (seq + Z.of_nat (length (item_payloads c it))) its
  end.

Fixpoint aac_frames (d : AudioDepacketizer) (ssrc seq : Z) (its : list (Z * aac_item)) : list AudioFrame :=
  match its with
  | [] => []
  | (ts, it) :: its =>
    item_frames d ssrc ts seq it ++
    aac_frames d ssrc (seq + Z.of_nat (length (item_payloads (aac_config_ d) it))) its
  end.

Lemma audio_feed_app l1 l2 : forall d d1 d2,
  audio_feed d l1 = Ret (d1, true) -> audio_feed d1 l2 = Ret (d2, true) ->
  audio_feed d (l1 ++ l2) = Ret (d2, true).
Proof.
  induction l1 as [|v l1 IH]; intros d d1 d2 H1 H2; simpl in *; [by simplify_eq|].
  destruct (Input d v) as [[d' ok]| |]; simpl in *; [|done..].
  destruct (audio_feed d' l1) as [[d'' ok']| |] eqn:E; simpl in *; [|done..].
  injection H1 as <- Hok. apply andb_prop in Hok as [-> ->]. by rewrite (IH d' d'' d2 E H2).
Qed.

Lemma aac_frames_ext d fs its : forall ssrc seq, aac_frames (with_frames d fs) ssrc seq its = aac_frames d ssrc seq its.
Proof. induction its as [|[ts it] its IH]; intros; simpl; [done|]. by rewrite IH. Qed.

(** C40. AAC round trip. A sender puts several access units into one packet or spreads one over
    consecutive packets as RFC 3640 lays them out, with any negotiated field widths up to 32
    bits of which that of the size is not zero. Each header carries, where negotiated, any
    index, a composition and a decoding time offset or only their cleared flags, any random
    access flag and any stream state. A depacketizer that is between access units accepts every
    packet, also across the wrap of the sequence numbers, and makes exactly the sender's access
    units available, in order, each with its bytes, its timestamp (advanced by the frame
    duration within a packet, modulo 2^32) and its first and last sequence number. *)
Theorem aac_stream_delivered d ssrc seq its :
  aac_ready d -> Forall (fun x => is_u32 (fst x) /\ aac_item_ok (aac_config_ d) (snd x)) its ->
  audio_feed d (aac_views (aac_config_ d) ssrc seq its) =
  Ret (with_frames d (aac_frames d ssrc seq its), true).
Proof.
  intros Hd Hits. revert d seq Hd Hits. induction its as [|[ts it] its IH]; intros d seq Hd Hits; simpl.
  { unfold with_frames. rewrite app_nil_r. by destruct d. }
  apply Forall_cons in Hits as [[Hts Hit] Hits]. simpl in Hts, Hit.
  eapply audio_feed_app.
  - destruct it as [aus|a ms z]; [by apply units_delivered|by apply fragments_delivered].
  - set (d1 := with_frames d (item_frames d ssrc ts seq it)).
    etransitivity; [exact (IH d1 (seq + Z.of_nat (length (item_payloads (aac_config_ d) it))) Hd Hits)|].
    unfold d1. rewrite aac_frames_ext. unfold with_frames. simpl. by rewrite <- app_assoc.
Qed.

(** ** Opus *)

(** RFC 6716 3.1: samples of a frame at 48 kHz. *)
Definition opus_frame_samples (config : Z) : Z :=
  if 16 <=? config then nth (Z.to_nat (config mod 4)) [120; 240; 480; 960] 0
  else if 12 <=? config then nth (Z.to_nat (config mod 2)) [480; 960] 0
  else nth (Z.to_nat (config mod 4)) [480; 960; 1920; 2880] 0.

Lemma opus_frame_samples_range config : 0 <= opus_frame_samples config <= 2880.
Proof.
  assert (forall i l, Forall (fun x => 0 <= x <= 2880) l -> 0 <= nth i l 0 <= 2880) as Hnth.
  { intros i l Hl. revert i. induction Hl; intros [|i]; simpl; auto; lia. }
  unfold opus_frame_samples.
  destruct (16 <=? _); [|destruct (12 <=? _)]; apply Hnth; repeat (apply Forall_cons_2; [lia|]); constructor.
Qed.

Definition opus_frame_count (b : list Z) : Z :=
  let code := bget b 0 mod 4 in
  if code =? 0 then 1 else if code =? 3 then bget b 1 mod 64 else 2.

(** The duration the RFC gives to a packet, 0 when it has none or exceeds 120 ms. *)
Definition opus_samples (b : list Z) : Z :=
  let n := opus_frame_samples (bget b 0 / 8) * opus_frame_count b in
  if n <=? 5760 then n else 0.

(** The first byte asks for SILK frames of 60 ms. *)
Definition silk60 (toc : Z) : bool := (toc / 8 <? 12) && (toc / 8 mod 4 =? 3).

(** One check for each first byte: the samples of a frame. *)
Definition opus_toc_check (toc : Z) : bool :=
  let config := Z.shiftr toc 3 in
  let s := if 16 <=? config then u32 (Z.shiftl 120 (Z.land config 3))
           else if 12 <=? config then u32 (Z.shiftl 480 (Z.land config 1))
           else u32 (Z.shiftl 480 (Z.land config 3)) in
  (s =? (if silk60 toc then 3840 else opus_frame_samples (toc / 8))) && (Z.land toc 3 =? toc mod 4).

Lemma opus_toc_checked toc : is_u8 toc -> opus_toc_check toc = true.
Proof.
  intros Ht. assert (forallb opus_toc_check (seqZ 0 256) = true) as H by (vm_compute; reflexivity).
  rewrite forallb_forall in H. apply H. apply list_elem_of_In, elem_of_seqZ. unfold is_u in Ht. pow2. lia.
Qed.

(** The sample count is the one of RFC 6716, except for SILK frames of 60 ms. *)
Theorem opus_sample_count b :
  bytes_ok b -> b <> [] -> (bget b 0 mod 4 = 3 -> 2 <= blen b) -> silk60 (bget b 0) = false ->
  OpusPacketSampleCount b = Ret (opus_samples b).
Proof.
  intros Hb Hne H3 Hs. pose proof (blen_pos b Hne). unfold OpusPacketSampleCount.
  rewrite (proj2 (Z.eqb_neq (blen b) 0)) by lia. rewrite rd_ok by lia. cbn [mbnd].
  pose proof (opus_toc_checked (bget b 0) (bget_range b 0 Hb)) as Hc. unfold opus_toc_check in Hc. rewrite Hs in Hc.
  apply andb_prop in Hc as [E1%Z.eqb_eq E2%Z.eqb_eq]. cbn zeta. rewrite E1, E2.
  unfold opus_samples, opus_frame_count.
  pose proof (opus_frame_samples_range (bget b 0 / 8)) as Hr.
  set (s := opus_frame_samples (bget b 0 / 8)) in *.
  assert (0 <= bget b 0 mod 4 < 4) by (apply Z.mod_pos_bound; lia).
  destruct (Z.eqb_spec (bget b 0 mod 4) 1) as [->|]; [cbn; by rewrite (wrap_small 32) by (unfold is_u; pow2; lia)|].
  destruct (Z.eqb_spec (bget b 0 mod 4) 2) as [->|]; [cbn; by rewrite (wrap_small 32) by (unfold is_u; pow2; lia)|].
  cbn [orb]. destruct (Z.eqb_spec (bget b 0 mod 4) 3) as [E|].
  - specialize (H3 E). rewrite E. rewrite (proj2 (Z.ltb_ge _ _)), rd_ok by lia. cbn [mbnd Z.eqb Pos.eqb].
    change 0x3f with (Z.ones 6). rewrite Z.land_ones by lia. change (2 ^ 6) with 64.
    assert (0 <= bget b 1 mod 64 < 64) by (apply Z.mod_pos_bound; lia).
    destruct (Z.eqb_spec (bget b 1 mod 64) 0) as [->|]; [by rewrite Z.mul_0_r|].
    by rewrite (wrap_small 32) by (unfold is_u; pow2; nia).
  - rewrite (proj2 (Z.eqb_eq (bget b 0 mod 4) 0)) by lia. by rewrite (wrap_small 32) by (unfold is_u; pow2; lia).
Qed.

(** SILK frames of 60 ms count as 80 ms, so that a packet with two of them (120 ms, which is
    allowed) is refused. *)
Example opus_silk60 :
  (OpusPacketSampleCount [0x18], opus_samples [0x18]) = (Ret 3840, 2880) /\
  (OpusPacketSampleCount [0x19], opus_samples [0x19]) = (Ret 0, 5760).
Proof. split; reflexivity. Qed.

(** Two bytes that announce no headers are an access unit without data. *)
Example aac_empty_frame :
  match Input (new_AudioDepacketizer AAC 48000 2 []) (mkView 1 0 true (Some [0; 0]) 5 0) with
  | Ret (d, ok) => (ok, map abuffer (frames_ d)) | _ => (false, []) end = (true, [[]]).
Proof. reflexivity. Qed.

(** Two access units in one packet, then one in three, with time offsets in some headers. *)
Lemma aac_stream_delivered_witness :
  let d := new_AudioDepacketizer AAC 48000 2
    (chars "ctsdeltalength=7;dtsdeltalength=3;randomaccessindication=1;streamstateindication=2") in
  let f := mkFields 5 (Some 100) None true 3 in
  let g := mkFields 0 None (Some 6) false 1 in
  let its := [(0, AacUnits [(f, [1; 2; 3]); (g, [4; 5])]); (2048, AacFragments (g, [6; 7]) [(f, [8])] (f, [9; 10]))] in
  exists d', audio_feed d (aac_views (aac_config_ d) 5 65534 its) = Ret (d', true) /\
    map (fun f => (artp_timestamp f, abuffer f)) (frames_ d') =
      [(0, [1; 2; 3]); (1024, [4; 5]); (2048, [6; 7; 8; 9; 10])].
Proof.
  intros d f g its. eexists. split.
  - apply (aac_stream_delivered d 5 65534 its).
    + vm_compute. intuition congruence.
    + assert (forall l, Forall (fun x => 0 <= x < 256) l -> 1 <= blen l < 100 -> au_fits (aac_config_ d) l) as Hfit.
      { intros l Hl Hn. split; [exact Hl|]. unfold size_ok. change (size_length (aac_config_ d)) with 13. lia. }
      apply Forall_cons_2; [|apply Forall_cons_2; [|constructor]]; (split; [unfold is_u; simpl; lia|]).
      * split; [done|]. split; [|by vm_compute]. repeat (apply Forall_cons_2; [apply Hfit; [|by vm_compute]|]);
          [..|constructor]; repeat (apply Forall_cons_2; [lia|]); constructor.
      * split; [|done]. apply Hfit; [|by vm_compute]. repeat (apply Forall_cons_2; [lia|]); constructor.
  - vm_compute. reflexivity.
Defined.

Lemma audio_input_sound_witness :
  let vs := [mkView 1 0 false (Some [0; 16; 0; 40; 7; 8]) 5 0] in
  let v := mkView 2 0 true (Some [0; 16; 0; 40; 9; 10; 11]) 5 0 in
  exists d d' ok, for_each audio_step vs (new_AudioDepacketizer AAC 48000 2 []) = Ret d /\
    Input d v = Ret (d', ok) /\ conserves d [9; 10; 11] d' ok.
Proof.
  intros vs v. destruct (audio_input_sound AAC 48000 2 [] vs v) as (d & d' & ok & H1 & H2 & _ & H3).
  - apply Forall_cons_2; [|constructor]. split; [by repeat (apply Forall_cons_2; [done|])|by vm_compute].
  - split; [by repeat (apply Forall_cons_2; [done|])|by vm_compute].
  - exists d, d', ok. split; [exact H1|]. split; [exact H2|exact H3].
Defined.
