(* ===== verification/SenderTrack.v ===== *)
(** * RTP sender tracks

    Models [Rtsp/RtpSenderTrack.h] and [.cpp]: the track that forwards a received stream to
    one subscriber under an SSRC, sequence numbers and timestamps of its own, answers NACKs
    from a cache and fills gaps with padding; and the allocator of transport-wide sequence
    numbers ([media/quality/TransportSequenceAllocator.h]).

    The members are grouped: [Mapping] holds those that map source to downstream numbers,
    [Report] those a receiver report sets.  The transport, the clock and the buffer pool are
    arguments of a call ([Env]); what a call sends and whom it notifies are its outputs, in
    order.  The allocator is shared with other tracks: [DoOther] of SenderProps.v lets them
    advance it between calls.  64-bit counters wrap; extended sequence numbers and source
    timestamps ([int64_t]) are unbounded.  Left out: an allocation failure of the working
    copies ([std::bad_alloc]), latency tracing, and the kind and probe cluster that a
    notification carries along. *)
From S2P Require Import Prelude Bytes RtpWire.

(** ** State *)

Record SenderConfig : Type := mkSenderConfig {
  local_ssrc : Z;
  rewrite_payload_type : bool;
  payload_type : Z;
  rtp_cache_size : Z;
  min_retransmit_interval_ms : Z;
  max_retransmit_count : Z;
  transport_cc_extension_id : Z;
  rewrite_header_extensions : bool;
  mid_extension_id : Z;
  mid : list Z;
  max_retransmit_age_ms : Z }.

Record Mapping : Type := mkMapping {
  started : bool;
  has_sent : bool;
  rebase_pending : bool;
  has_resume_floor : bool;
  last_out_seq : Z;
  last_out_timestamp : Z;
  resume_floor_seq : Z;
  resume_floor_timestamp : Z;
  latest_source_timestamp : Z;
  base_in_seq : Z;
  base_out_seq : Z;
  base_in_timestamp : Z;
  base_out_timestamp : Z }.

Definition Mapping_init : Mapping := mkMapping false false false false 0 0 0 0 0 0 0 0 0.

Record CachedRtpPacket : Type := mkCached {
  cpacket : list Z;
  first_send_ms : Z;
  last_retransmit_ms : Z;
  retransmit_count : Z }.

Record Report : Type := mkReport {
  rr_count : Z; rr_reporter_ssrc : Z; rr_media_ssrc : Z; rr_fraction_lost : Z;
  rr_cumulative_lost : Z; rr_highest_seq : Z; rr_jitter : Z; rr_lsr : Z; rr_dlsr : Z; rtt_ms : Z }.

(** [_allocator] is the next extended sequence number of the shared allocator, [None] for a
    null pointer; [_keyframe_cb] whether a callback is set. *)
Record SenderTrack : Type := mkTrack {
  _config : SenderConfig;
  _map : Mapping;
  _cache_order : list Z;
  _rtp_cache : gmap Z CachedRtpPacket;
  _packet_count : Z;
  _octet_count : Z;
  _report : Report;
  _last_tick_ms : Z;
  _last_pli_ms : Z;
  _allocator : option Z;
  _keyframe_cb : bool }.

Definition new_SenderTrack (c : SenderConfig) (allocator : option Z) : SenderTrack :=
  mkTrack c Mapping_init [] ∅ 0 0 (mkReport 0 0 0 0 0 0 0 0 0 0) 0 0 allocator false.

Definition set_map (t : SenderTrack) (m : Mapping) : SenderTrack :=
  mkTrack (_config t) m (_cache_order t) (_rtp_cache t) (_packet_count t) (_octet_count t)
    (_report t) (_last_tick_ms t) (_last_pli_ms t) (_allocator t) (_keyframe_cb t).
Definition set_cache (t : SenderTrack) (order : list Z) (cache : gmap Z CachedRtpPacket) : SenderTrack :=
  mkTrack (_config t) (_map t) order cache (_packet_count t) (_octet_count t)
    (_report t) (_last_tick_ms t) (_last_pli_ms t) (_allocator t) (_keyframe_cb t).
Definition set_counts (t : SenderTrack) (packets octets : Z) : SenderTrack :=
  mkTrack (_config t) (_map t) (_cache_order t) (_rtp_cache t) packets octets
    (_report t) (_last_tick_ms t) (_last_pli_ms t) (_allocator t) (_keyframe_cb t).
Definition set_report (t : SenderTrack) (r : Report) : SenderTrack :=
  mkTrack (_config t) (_map t) (_cache_order t) (_rtp_cache t) (_packet_count t) (_octet_count t)
    r (_last_tick_ms t) (_last_pli_ms t) (_allocator t) (_keyframe_cb t).
Definition set_times (t : SenderTrack) (tick pli : Z) : SenderTrack :=
  mkTrack (_config t) (_map t) (_cache_order t) (_rtp_cache t) (_packet_count t) (_octet_count t)
    (_report t) tick pli (_allocator t) (_keyframe_cb t).
Definition set_allocator (t : SenderTrack) (a : option Z) : SenderTrack :=
  mkTrack (_config t) (_map t) (_cache_order t) (_rtp_cache t) (_packet_count t) (_octet_count t)
    (_report t) (_last_tick_ms t) (_last_pli_ms t) a (_keyframe_cb t).

(** What a call sees of the world: whether the transport is there, open and writable on
    entry; whether it takes the [i]-th packet handed to it; the clock; whether the pool has
    room for a copy. *)
Record Env : Type := mkEnv {
  transport_ready : bool;
  accepts : Z -> list Z -> bool;
  now_ms : Z;
  pool_ok : bool }.

(** A packet given to the transport with success, and the notification that follows it:
    extended and wire transport sequence, RTP sequence, time and size. *)
Inductive Out : Type :=
| Sent (packet : list Z) (retransmit : bool)
| Notified (extended wire rtp_sequence time size : Z)
| KeyFrameRequested.

(** ** Header parsing and rewriting *)

Definition ParseRtpHeader (data : list Z) : mres (option RtpHeader) :=
  let! '(ok, header) := InputFromBuffer RtpHeader_init (Some data) in
  if negb ok then Ret None else
  if negb (_version header =? 2) then Ret None else
  let size := getHeaderSize header in
  if blen data <? size then Ret None else
  let! ext_ok :=
    (if _extension header then
       if blen data <? size + 4 then Ret false else
       let! hi := rd data (size + 2) in
       let! lo := rd data (size + 3) in
       let ext_words := Z.lor (u16 (Z.shiftl hi 8)) lo in
       Ret (negb (blen data <? size + (4 + ext_words * 4)))
     else Ret true) in
  if negb ext_ok then Ret None else
  if _padding header then
    let! padding := rd data (blen data - 1) in
    if (padding =? 0) || (blen data - size <? padding) then Ret None else Ret (Some header)
  else Ret (Some header).

Definition WriteUint16 (packet : list Z) (off value : Z) : mres (list Z) :=
  let! p := wr packet off (byte_of value 8) in
  wr p (off + 1) (byte_of value 0).

Definition WriteUint32 (packet : list Z) (off value : Z) : mres (list Z) :=
  let! p := wr packet off (byte_of value 24) in
  let! p := wr p (off + 1) (byte_of value 16) in
  let! p := wr p (off + 2) (byte_of value 8) in
  wr p (off + 3) (byte_of value 0).

Definition RewriteSeq (m : Mapping) (in_seq : Z) : Mapping * Z :=
  let m := if negb (started m) && negb (rebase_pending m) then
    mkMapping (started m) (has_sent m) (rebase_pending m) (has_resume_floor m) (last_out_seq m)
      (last_out_timestamp m) (resume_floor_seq m) (resume_floor_timestamp m)
      (latest_source_timestamp m) in_seq (if has_sent m then u16 (last_out_seq m + 1) else in_seq)
      (base_in_timestamp m) (base_out_timestamp m)
  else m in
  (m, u16 (base_out_seq m + u16 (in_seq - base_in_seq m))).

Definition RewriteTimestamp (m : Mapping) (in_timestamp : Z) : Mapping * Z :=
  let m := if negb (started m) then
    mkMapping true (has_sent m) (rebase_pending m) (has_resume_floor m) (last_out_seq m)
      (last_out_timestamp m) (resume_floor_seq m) (resume_floor_timestamp m)
      (latest_source_timestamp m) (base_in_seq m) (base_out_seq m) in_timestamp in_timestamp
  else m in
  (m, u32 (base_out_timestamp m + u32 (in_timestamp - base_in_timestamp m))).

(** The rewritten packet with its number and timestamp, [None] for [false]. *)
Definition RewriteRtpPacket (c : SenderConfig) (m : Mapping) (packet : list Z) (h : RtpHeader)
  : mres (Mapping * option (list Z * Z * Z)) :=
  if blen packet <? kSize then Ret (m, None) else
  let '(m, out_seq) := RewriteSeq m (_seq h) in
  let '(m, out_timestamp) := RewriteTimestamp m (_timestamp h) in
  let pt := if rewrite_payload_type c then u8 (Z.land (payload_type c) 0x7F) else _payload_type h in
  let! b1 := rd packet 1 in
  let! p := wr packet 1 (u8 (Z.lor (Z.land b1 0x80) pt)) in
  let! p := WriteUint16 p 2 out_seq in
  let! p := WriteUint32 p 4 out_timestamp in
  let! p := WriteUint32 p 8 (local_ssrc c) in
  Ret (m, Some (p, out_seq, out_timestamp)).

(** [packet.insert(packet.begin() + base, ...)]. *)
Definition insert_at (packet : list Z) (base : Z) (bytes : list Z) : mres (list Z) :=
  if blen packet <? base then Fault
  else Ret (take (Z.to_nat base) packet ++ bytes ++ drop (Z.to_nat base) packet).

(** [while (extension.size() % 4) extension.push_back(0)]. *)
Definition pad4 (l : list Z) : list Z := l ++ repeat 0 (Z.to_nat ((- blen l) mod 4)).

Definition RewriteHeaderExtensions (c : SenderConfig) (packet : list Z) : mres (option (list Z)) :=
  let! b0 := rd packet 0 in
  let base := kSize + 4 * Z.land b0 15 in
  if blen packet <? base then Ret None else
  let! stripped :=
    (if negb (Z.land b0 0x10 =? 0) then
       if blen packet <? base + 4 then Ret None else
       let! hi := rd packet (base + 2) in
       let! lo := rd packet (base + 3) in
       let end_ := base + 4 + 4 * Z.lor (Z.shiftl hi 8) lo in
       if blen packet <? end_ then Ret None else
       let! p := wr (take (Z.to_nat base) packet ++ drop (Z.to_nat end_) packet) 0
                   (u8 (Z.land b0 (Z.lnot 0x10))) in
       Ret (Some p)
     else Ret (Some packet)) in
  match stripped with
  | None => Ret None
  | Some packet =>
    let no_mid := match mid c with [] => true | _ => false end in
    if mid_extension_id c =? 0 then Ret (if no_mid then Some packet else None) else
    if (14 <? mid_extension_id c) || no_mid || (16 <? blen (mid c)) ||
       (mid_extension_id c =? transport_cc_extension_id c) then Ret None else
    let extension := pad4 ([0xBE; 0xDE; 0; 0;
      u8 (Z.lor (Z.shiftl (mid_extension_id c) 4) (blen (mid c) - 1))] ++ mid c) in
    let! extension := WriteUint16 extension 2 (u16 ((blen extension - 4) / 4)) in
    let! packet := insert_at packet base extension in
    let! b0 := rd packet 0 in
    let! packet := wr packet 0 (u8 (Z.lor b0 0x10)) in
    Ret (Some packet)
  end.

(** ** Transport-wide sequence numbers *)

(** What the scan of the elements comes to. *)
Inductive ScanResult : Type :=
| ScanBad
| ScanFound (offset : Z)
| ScanEnd.

Fixpoint scan_elements (fuel : nat) (packet : list Z) (id end_ offset : Z) : mres ScanResult :=
  match fuel with
  | O => NoFuel
  | S fuel =>
    if negb (offset <? end_) then Ret ScanEnd else
    let! header := rd packet offset in
    if header =? 0 then scan_elements fuel packet id end_ (offset + 1) else
    let eid := Z.shiftr header 4 in
    if eid =? 15 then Ret ScanEnd else
    let element_size := Z.land header 0x0F + 1 in
    if end_ <? offset + 1 + element_size then Ret ScanBad else
    if eid =? id then (if negb (element_size =? 2) then Ret ScanBad else Ret (ScanFound offset))
    else scan_elements fuel packet id end_ (offset + (1 + element_size))
  end.

Definition WriteTransportCcExtension (c : SenderConfig) (packet : list Z) (transport_sequence : Z)
  : mres (option (list Z)) :=
  let id := transport_cc_extension_id c in
  if (id =? 0) || (14 <? id) || (blen packet <? kSize) then Ret None else
  let! b0 := rd packet 0 in
  let base := kSize + Z.land b0 0x0F * 4 in
  if blen packet <? base then Ret None else
  let element := [u8 (Z.lor (Z.shiftl id 4) 0x01); u8 (Z.shiftr transport_sequence 8);
                  u8 transport_sequence; 0] in
  if Z.land b0 0x10 =? 0 then
    let! p := insert_at packet base ([0xBE; 0xDE; 0x00; 0x01] ++ element) in
    let! b0 := rd p 0 in
    let! p := wr p 0 (u8 (Z.lor b0 0x10)) in
    Ret (Some p)
  else
    if blen packet <? base + 4 then Ret None else
    let! p0 := rd packet base in
    let! p1 := rd packet (base + 1) in
    let profile := Z.lor (u16 (Z.shiftl p0 8)) p1 in
    if negb (profile =? 0xBEDE) then Ret None else
    let! w0 := rd packet (base + 2) in
    let! w1 := rd packet (base + 3) in
    let words := Z.lor (u16 (Z.shiftl w0 8)) w1 in
    let extension_data := base + 4 in
    let extension_end := extension_data + words * 4 in
    if blen packet <? extension_end then Ret None else
    let! s := scan_elements (S (length packet)) packet id extension_end extension_data in
    match s with
    | ScanBad => Ret None
    | ScanFound offset =>
      let! p := WriteUint16 packet (offset + 1) transport_sequence in Ret (Some p)
    | ScanEnd =>
      let! p := insert_at packet extension_end element in
      let! p := WriteUint16 p (base + 2) (u16 (words + 1)) in
      Ret (Some p)
    end.

(** [TransportSequenceAllocator::Allocate] on the next extended number: wire, extended and
    the number after it. *)
Definition Allocate (next : Z) : (Z * Z) * Z := ((u16 (u64 next), next), next + 1).

(** [TransportSequenceAllocator::Reset], for a transport whose route is rebuilt. *)
Definition AllocatorReset (initial_sequence : Z) : Z := initial_sequence.

(** The packet with its transport sequence (wire, extended), and the allocator; [None] for
    [false]. *)
Definition PrepareTransportCc (c : SenderConfig) (allocator : option Z) (packet : list Z)
  : mres (option Z * option (list Z * (Z * Z))) :=
  if transport_cc_extension_id c =? 0 then Ret (allocator, Some (packet, (0, -1))) else
  match allocator with
  | None => Ret (allocator, None)
  | Some next =>
    let! placeholder := WriteTransportCcExtension c packet 0 in
    match placeholder with
    | None => Ret (allocator, None)
    | Some packet =>
      let '(sequence, next) := Allocate next in
      let! p := WriteTransportCcExtension c packet (fst sequence) in
      match p with
      | None => Ret (Some next, None)
      | Some packet => Ret (Some next, Some (packet, sequence))
      end
    end
  end.

Definition NotifyPacketSent (c : SenderConfig) (e : Env) (sequence : Z * Z) (rtp_sequence size : Z) : list Out :=
  if transport_cc_extension_id c =? 0 then [] else
  if 0 <=? snd sequence then [Notified (snd sequence) (fst sequence) rtp_sequence (now_ms e) (u32 size)] else [].

Definition SendRtpPacket (e : Env) (i : Z) (packet : list Z) : bool :=
  match packet with [] => false | _ => accepts e i packet end.

(** ** The cache *)

(** The [while] that keeps the size: oldest first. *)
Fixpoint evict (order : list Z) (cache : gmap Z CachedRtpPacket) (limit : Z)
  : list Z * gmap Z CachedRtpPacket :=
  match order with
  | [] => ([], cache)
  | old_seq :: rest =>
    if limit <? Z.of_nat (size cache) then evict rest (delete old_seq cache) limit
    else (order, cache)
  end.

Definition CacheRtpPacket (t : SenderTrack) (e : Env) (out_seq : Z) (packet : list Z) : SenderTrack :=
  let limit := rtp_cache_size (_config t) in
  if limit =? 0 then t else
  if negb (pool_ok e) || match packet with [] => true | _ => false end then t else
  let order := match _rtp_cache t !! out_seq with
               | None => _cache_order t ++ [out_seq]
               | Some _ => _cache_order t
               end in
  let '(order, cache) :=
    evict order (<[out_seq := mkCached packet (now_ms e) 0 0]> (_rtp_cache t)) limit in
  set_cache t order cache.

Definition RtpPayloadOffset (packet : list Z) : mres Z :=
  if blen packet <? kSize then Ret (blen packet) else
  let! b0 := rd packet 0 in
  let base := kSize + Z.land b0 0x0F * 4 in
  if (blen packet <? base) || (Z.land b0 0x10 =? 0) then Ret base else
  if blen packet <? base + 4 then Ret (blen packet) else
  let! hi := rd packet (base + 2) in
  let! lo := rd packet (base + 3) in
  let words := Z.lor (u16 (Z.shiftl hi 8)) lo in
  Ret (Z.min (blen packet) (base + 4 + words * 4)).

(** ** Input *)

(** The check against the floor of the last resumption: the source timestamp to use, [None]
    to refuse the packet. *)
Definition floor_check (m : Mapping) (h : RtpHeader) : option Z :=
  if has_resume_floor m && negb (rebase_pending m) then
    let delta := u32 (_timestamp h - u32 (latest_source_timestamp m)) in
    let source := latest_source_timestamp m + (if delta <? 0x80000000 then delta else delta - 0x100000000) in
    if (source <? resume_floor_timestamp m) ||
       ((source =? resume_floor_timestamp m) && (0x8000 <=? u16 (_seq h - resume_floor_seq m)))
    then None else Some source
  else Some (_timestamp h).

(** A pending rebase: the new base, [None] to refuse the packet. *)
Definition rebase (m : Mapping) (h : RtpHeader) (source : Z) : option Mapping :=
  if rebase_pending m then
    let mapped := if started m then u32 (base_out_timestamp m + u32 (_timestamp h - base_in_timestamp m))
                  else _timestamp h in
    if started m && has_sent m && (0x80000000 <=? u32 (mapped - last_out_timestamp m)) then None else
    Some (mkMapping (started m) (has_sent m) (rebase_pending m) true (last_out_seq m)
      (last_out_timestamp m) (_seq h) (_timestamp h) source (_seq h)
      (if has_sent m then u16 (last_out_seq m + 1) else _seq h)
      (base_in_timestamp m) (base_out_timestamp m))
  else Some m.

(** The members that change when a packet was sent. *)
Definition sent_map (m : Mapping) (out_seq out_timestamp source : Z) : Mapping :=
  let newer := negb (has_sent m) || (u16 (out_seq - last_out_seq m) <? 0x8000) in
  mkMapping (started m) true false (has_resume_floor m)
    (if newer then out_seq else last_out_seq m)
    (if newer then out_timestamp else last_out_timestamp m)
    (resume_floor_seq m) (resume_floor_timestamp m)
    (if has_resume_floor m then Z.max (latest_source_timestamp m) source else latest_source_timestamp m)
    (base_in_seq m) (base_out_seq m) (base_in_timestamp m) (base_out_timestamp m).

(** [if (_config.rewrite_header_extensions && !RewriteHeaderExtensions(packet)) return false]. *)
Definition maybe_extensions (c : SenderConfig) (packet : list Z) : mres (option (list Z)) :=
  if rewrite_header_extensions c then RewriteHeaderExtensions c packet else Ret (Some packet).

Definition InputRtpPacket (t : SenderTrack) (e : Env) (data : list Z)
  : mres (SenderTrack * list Out * bool) :=
  let c := _config t in
  let! parsed := ParseRtpHeader data in
  match parsed with
  | None => Ret (t, [], false)
  | Some h =>
    if negb (transport_ready e) then Ret (t, [], false) else
    match floor_check (_map t) h with
    | None => Ret (t, [], false)
    | Some source =>
      match rebase (_map t) h source with
      | None => Ret (t, [], false)
      | Some m =>
        let! '(m, rewritten) := RewriteRtpPacket c m data h in
        let t := set_map t m in
        match rewritten with
        | None => Ret (t, [], false)
        | Some (packet, out_seq, out_timestamp) =>
          let! extended := maybe_extensions c packet in
          match extended with
          | None => Ret (t, [], false)
          | Some packet =>
            let! '(allocator, prepared) := PrepareTransportCc c (_allocator t) packet in
            let t := set_allocator t allocator in
            match prepared with
            | None => Ret (t, [], false)
            | Some (packet, sequence) =>
              if negb (SendRtpPacket e 0 packet) then Ret (t, [], false) else
              let outs := Sent packet false :: NotifyPacketSent c e sequence out_seq (blen packet) in
              let t := set_map t (sent_map (_map t) out_seq out_timestamp source) in
              let t := CacheRtpPacket t e out_seq packet in
              let! header_size := RtpPayloadOffset packet in
              let octets := if header_size <? blen packet
                            then u64 (_octet_count t + (blen packet - header_size)) else _octet_count t in
              Ret (set_counts t (u64 (_packet_count t + 1)) octets, outs, true)
            end
          end
        end
      end
    end
  end.

Definition set_rebase (m : Mapping) : Mapping :=
  mkMapping (started m) (has_sent m) true (has_resume_floor m) (last_out_seq m)
    (last_out_timestamp m) (resume_floor_seq m) (resume_floor_timestamp m)
    (latest_source_timestamp m) (base_in_seq m) (base_out_seq m) (base_in_timestamp m) (base_out_timestamp m).

Definition BeginDiscontinuity (t : SenderTrack) : SenderTrack :=
  set_map (set_cache t [] ∅) (set_rebase (_map t)).

(** ** Padding *)

Definition padding_packet (c : SenderConfig) (sequence timestamp padding_bytes : Z) : mres (list Z) :=
  let packet := repeat 0 (Z.to_nat (12 + padding_bytes)) in
  let! p := wr packet 0 0xa0 in
  let! p := wr p 1 (payload_type c) in
  let! p := WriteUint16 p 2 sequence in
  let! p := WriteUint32 p 4 timestamp in
  let! p := WriteUint32 p 8 (local_ssrc c) in
  wr p (12 + padding_bytes - 1) (u8 padding_bytes).

Definition padded_map (m : Mapping) (sequence : Z) : Mapping :=
  mkMapping (started m) true (rebase_pending m) (has_resume_floor m) sequence
    (last_out_timestamp m) (resume_floor_seq m) (resume_floor_timestamp m)
    (latest_source_timestamp m) (base_in_seq m)
    (if started m then u16 (base_out_seq m + 1) else base_out_seq m)
    (base_in_timestamp m) (base_out_timestamp m).

Definition SendPadding (t : SenderTrack) (e : Env) (padding_bytes : Z) : mres (SenderTrack * list Out * bool) :=
  let c := _config t in
  let m := _map t in
  if (transport_cc_extension_id c =? 0) || (padding_bytes =? 0) || (255 <? padding_bytes)
  then Ret (t, [], false) else
  let sequence := if has_sent m then u16 (last_out_seq m + 1) else 0 in
  let! packet := padding_packet c sequence (last_out_timestamp m) padding_bytes in
  let! extended := maybe_extensions c packet in
  match extended with
  | None => Ret (t, [], false)
  | Some packet =>
    let! '(allocator, prepared) := PrepareTransportCc c (_allocator t) packet in
    let t := set_allocator t allocator in
    match prepared with
    | None => Ret (t, [], false)
    | Some (packet, tsn) =>
      if negb (SendRtpPacket e 0 packet) then Ret (t, [], false) else
      let outs := Sent packet false :: NotifyPacketSent c e tsn sequence (blen packet) in
      let t := set_map t (padded_map m sequence) in
      Ret (set_counts t (u64 (_packet_count t + 1)) (_octet_count t), outs, true)
    end
  end.

(** ** Feedback *)

(** Whether a cached packet may be sent again now. *)
Definition may_retransmit (c : SenderConfig) (now : Z) (p : CachedRtpPacket) : bool :=
  negb ((now <? first_send_ms p) ||
        (negb (max_retransmit_age_ms c =? 0) && (max_retransmit_age_ms c <=? now - first_send_ms p))) &&
  negb ((0 <? max_retransmit_count c) && (max_retransmit_count c <=? retransmit_count p)) &&
  negb (negb (retransmit_count p =? 0) && (last_retransmit_ms p <=? now) &&
        (now - last_retransmit_ms p <? min_retransmit_interval_ms c)).

(** One sequence number of a NACK, the [i]-th. *)
Definition retransmit (t : SenderTrack) (e : Env) (i seq : Z) : mres (SenderTrack * list Out) :=
  let c := _config t in
  match _rtp_cache t !! seq with
  | None => Ret (t, [])
  | Some cached =>
    if negb (may_retransmit c (now_ms e) cached) then Ret (t, []) else
    let! '(allocator, prepared) := PrepareTransportCc c (_allocator t) (cpacket cached) in
    let t := set_allocator t allocator in
    match prepared with
    | None => Ret (t, [])
    | Some (packet, tsn) =>
      if negb (SendRtpPacket e i packet) then Ret (t, []) else
      let cached := mkCached (cpacket cached) (first_send_ms cached) (now_ms e)
                      (u32 (retransmit_count cached + 1)) in
      Ret (set_cache t (_cache_order t) (<[seq := cached]> (_rtp_cache t)),
           Sent packet true :: NotifyPacketSent c e tsn seq (blen packet))
    end
  end.

Fixpoint nack_loop (t : SenderTrack) (e : Env) (i : Z) (lost : list Z) : mres (SenderTrack * list Out) :=
  match lost with
  | [] => Ret (t, [])
  | seq :: lost =>
    let! '(t, outs) := retransmit t e i seq in
    let! '(t, outs') := nack_loop t e (i + 1) lost in
    Ret (t, outs ++ outs')
  end.

Definition OnRtcpNack (t : SenderTrack) (e : Env) (lost : list Z) : mres (SenderTrack * list Out) :=
  if negb (transport_ready e) then Ret (t, []) else nack_loop t e 0 lost.

(** [arrival] is the compact NTP time. *)
Definition CalculateRttMs (arrival lsr dlsr : Z) : Z :=
  if lsr =? 0 then 0 else
  let rtt_ntp := u32 (arrival - lsr - dlsr) in
  u32 (u64 (rtt_ntp * 1000 + 32768) / 65536).

Definition OnRtcpReceiverReport (t : SenderTrack) (arrival reporter media fraction cumulative highest
    jitter lsr dlsr : Z) : SenderTrack :=
  set_report t (mkReport (u64 (rr_count (_report t) + 1)) reporter media fraction cumulative highest
    jitter lsr dlsr (CalculateRttMs arrival lsr dlsr)).

Definition pli_interval_ms : Z := 1000.

Definition OnRtcpPli (t : SenderTrack) (e : Env) : SenderTrack * list Out :=
  let last := _last_pli_ms t in
  if negb (last =? 0) && (last <=? now_ms e) && (now_ms e - last <? pli_interval_ms) then (t, [])
  else (set_times t (_last_tick_ms t) (now_ms e), if _keyframe_cb t then [KeyFrameRequested] else []).

Definition OnRtcpFir (t : SenderTrack) (e : Env) : SenderTrack * list Out := OnRtcpPli t e.

Definition Tick (t : SenderTrack) (now : Z) : SenderTrack := set_times t now (_last_pli_ms t).

Definition SetKeyFrameRequestCallback (t : SenderTrack) (set : bool) : SenderTrack :=
  mkTrack (_config t) (_map t) (_cache_order t) (_rtp_cache t) (_packet_count t) (_octet_count t)
    (_report t) (_last_tick_ms t) (_last_pli_ms t) (_allocator t) set.
