(* ===== verification/SenderLayout.v ===== *)
(** * The layout of forwarded packets

    An RTP packet as its parts (fixed header, CSRCs, header extension, the rest), and what
    the sender track's rewriting does to them.  The numbers a receiver reads back from a
    rewritten packet are proved with the readers of RtpWire.v. *)
From S2P Require Import Prelude Bytes RtpWire SenderTrack.

(** ** Parts *)

(** [kvp] is version and padding bit; the extension is its profile and its body. *)
Record parts : Type := mkParts {
  kvp : Z; k1 : Z; kseq : Z; kts : Z; kssrc : Z;
  kcsrc : list Z; kext : option (Z * Z * list Z); kpay : list Z }.

Definition first_byte (vp cc : Z) (ext : bool) : Z := vp * 32 + Z.b2z ext * 16 + cc.

Definition has_ext (x : parts) : bool := match kext x with Some _ => true | None => false end.

Definition head_bytes (x : parts) : list Z :=
  [first_byte (kvp x) (blen (kcsrc x) / 4) (has_ext x); k1 x] ++ be16 (kseq x) ++ be32 (kts x) ++
  be32 (kssrc x) ++ kcsrc x.

Definition ext_bytes (e : option (Z * Z * list Z)) : list Z :=
  match e with
  | None => []
  | Some (p0, p1, body) => [p0; p1] ++ be16 (blen body / 4) ++ body
  end.

Definition build (x : parts) : list Z := head_bytes x ++ ext_bytes (kext x) ++ kpay x.

Definition ext_ok (e : option (Z * Z * list Z)) : Prop :=
  match e with
  | None => True
  | Some (p0, p1, body) => is_u8 p0 /\ is_u8 p1 /\ bytes_ok body /\ blen body mod 4 = 0 /\ blen body / 4 < 65536
  end.

Definition parts_ok (x : parts) : Prop :=
  0 <= kvp x < 8 /\ is_u8 (k1 x) /\ is_u16 (kseq x) /\ is_u32 (kts x) /\ is_u32 (kssrc x) /\
  bytes_ok (kcsrc x) /\ blen (kcsrc x) mod 4 = 0 /\ blen (kcsrc x) / 4 < 16 /\
  ext_ok (kext x) /\ bytes_ok (kpay x).

(** ** Reading the parts *)

Lemma first_byte_facts vp cc e :
  0 <= vp < 8 -> 0 <= cc < 16 ->
  is_u8 (first_byte vp cc e) /\ Z.land (first_byte vp cc e) 15 = cc /\
  (Z.land (first_byte vp cc e) 0x10 =? 0) = negb e /\ Z.shiftr (first_byte vp cc e) 6 = vp / 2.
Proof.
  intros Hv Hc. unfold first_byte. rewrite land_15, shiftr_div by lia. change 0x10 with (2 ^ 4).
  rewrite land_pow2 by lia. change (2 ^ 4) with 16. change (2 ^ 6) with 64.
  assert (0 <= Z.b2z e <= 1) by (destruct e; simpl; lia).
  split; [unfold is_u; pow2; lia|]. split; [words|]. split; [|words].
  assert ((vp * 32 + Z.b2z e * 16 + cc) / 16 mod 2 = Z.b2z e) as -> by words. by destruct e.
Qed.

Lemma csrc_count x : parts_ok x -> 0 <= blen (kcsrc x) / 4 < 16 /\ 4 * (blen (kcsrc x) / 4) = blen (kcsrc x).
Proof.
  intros (_ & _ & _ & _ & _ & _ & H1 & H2 & _). pose proof (blen_nonneg (kcsrc x)).
  split; [split; [apply Z.div_pos; lia|done]|]. words.
Qed.

Lemma head_length x : blen (head_bytes x) = 12 + blen (kcsrc x).
Proof. unfold head_bytes. rewrite !blen_app. change (blen (be16 _)) with 2. change (blen (be32 _)) with 4.
  change (blen [_; _]) with 2. lia. Qed.

Lemma build_first x : exists l, build x = first_byte (kvp x) (blen (kcsrc x) / 4) (has_ext x) :: l.
Proof. unfold build, head_bytes. simpl. by eexists. Qed.

Lemma rd_first x : rd (build x) 0 = Ret (first_byte (kvp x) (blen (kcsrc x) / 4) (has_ext x)).
Proof. destruct (build_first x) as [l ->]. by apply (rd_app []). Qed.

(** The four bytes of an extension's header. *)
Lemma rd_ext a p0 p1 body rest :
  let b := a ++ ext_bytes (Some (p0, p1, body)) ++ rest in
  rd b (blen a) = Ret p0 /\ rd b (blen a + 1) = Ret p1 /\
  rd b (blen a + 2) = Ret (byte_of (blen body / 4) 8) /\ rd b (blen a + 3) = Ret (byte_of (blen body / 4) 0).
Proof.
  intros b. unfold b. simpl. split; [by apply rd_app|].
  split; [rewrite (shift1 a); apply rd_app; rewrite blen_snoc; lia|].
  split; [rewrite (shift1 a), (shift1 _ p1); apply rd_app; rewrite !blen_snoc; lia|].
  rewrite (shift1 a), (shift1 _ p1), (shift1 _ (byte_of _ 8)); apply rd_app; rewrite !blen_snoc; lia.
Qed.

Lemma ext_length p0 p1 body : blen (ext_bytes (Some (p0, p1, body))) = 4 + blen body.
Proof. simpl. rewrite !blen_cons. lia. Qed.

Lemma u16_words w : is_u16 w -> Z.lor (u16 (Z.shiftl (byte_of w 8) 8)) (byte_of w 0) = w.
Proof.
  intros Hw. rewrite u16_shift8 by apply byte_of_u8. rewrite lor_be16 by apply byte_of_u8.
  by apply be16_value.
Qed.

Lemma body_words body : blen body mod 4 = 0 -> blen body / 4 * 4 = blen body.
Proof. intros H. words. Qed.

(** Where the payload begins. *)
Lemma offset_parts x : parts_ok x -> RtpPayloadOffset (build x) = Ret (blen (build x) - blen (kpay x)).
Proof.
  intros Hx. pose proof (csrc_count x Hx) as [Hcc Hcs]. pose proof Hx as (Hv & _ & _ & _ & _ & _ & _ & _ & He & _).
  pose proof (first_byte_facts (kvp x) (blen (kcsrc x) / 4) (has_ext x) Hv Hcc) as (_ & F1 & F2 & _).
  unfold RtpPayloadOffset, kSize. pose proof (blen_nonneg (kcsrc x)). pose proof (blen_nonneg (kpay x)).
  assert (blen (build x) = 12 + blen (kcsrc x) + blen (ext_bytes (kext x)) + blen (kpay x)) as L
    by (unfold build; rewrite !blen_app, head_length; lia).
  pose proof (blen_nonneg (ext_bytes (kext x))).
  rewrite (proj2 (Z.ltb_ge _ _)) by lia. rewrite rd_first. cbn [mbnd]. rewrite F1, F2.
  replace (12 + blen (kcsrc x) / 4 * 4) with (12 + blen (kcsrc x)) by lia.
  rewrite (proj2 (Z.ltb_ge _ _)) by lia. cbn [orb]. unfold has_ext.
  destruct (kext x) as [[[p0 p1] body]|] eqn:Ee; cbn [negb].
  - rewrite ext_length in L. pose proof (blen_nonneg body). simpl in He. destruct He as (_ & _ & Hb & Hm & Hw).
    rewrite (proj2 (Z.ltb_ge _ _)) by lia. unfold build at 1 2. rewrite Ee, <- head_length.
    destruct (rd_ext (head_bytes x) p0 p1 body (kpay x)) as (_ & _ & -> & ->). cbn [mbnd].
    rewrite u16_words by (unfold is_u; pow2; split; [apply Z.div_pos; lia|lia]).
    rewrite body_words by done. rewrite head_length, L. f_equal. lia.
  - f_equal. simpl in L. rewrite L. change (blen []) with 0. lia.
Qed.

(** ** A packet the track accepts has parts *)

(** Cutting the parts behind the fixed header. *)
Lemma cut_rest n r : bytes_ok r -> 0 <= n <= blen r ->
  exists a z, r = a ++ z /\ blen a = n /\ bytes_ok a /\ bytes_ok z.
Proof.
  intros Hr Hn. exists (take (Z.to_nat n) r), (drop (Z.to_nat n) r). rewrite take_drop.
  split; [done|]. split; [by apply blen_take|]. split; [by apply bytes_ok_take|by apply bytes_ok_drop].
Qed.

Lemma ParseRtpHeader_facts b h :
  bytes_ok b -> ParseRtpHeader b = Ret (Some h) ->
  12 <= blen b /\ bget b 0 / 64 = 2 /\ 12 + bget b 0 mod 16 * 4 <= blen b /\
  _seq h = bget b 2 * 256 + bget b 3 /\
  _timestamp h = bget b 4 * 16777216 + bget b 5 * 65536 + bget b 6 * 256 + bget b 7 /\
  _payload_type h = bget b 1 mod 128 /\
  ((bget b 0 / 16) mod 2 = 1 ->
   let base := 12 + bget b 0 mod 16 * 4 in
   base + (4 + (bget b (base + 2) * 256 + bget b (base + 3)) * 4) <= blen b).
Proof.
  intros Hb E. unfold ParseRtpHeader in E.
  destruct (Z.ltb_spec (blen b) 12) as [Hs|Hl].
  { unfold InputFromBuffer, kSize in E. rewrite (proj2 (Z.ltb_lt _ _)) in E by lia. done. }
  rewrite InputFromBuffer_ok in E by (done || lia). cbn [mbnd negb _version _extension _padding _csrc getHeaderSize] in E.
  destruct (Z.eqb_spec (bget b 0 / 64) 2) as [Ev|]; cbn [negb] in E; [|done].
  unfold getHeaderSize, kSize in E. cbn [_csrc] in E. set (base := 12 + bget b 0 mod 16 * 4) in *.
  pose proof (bget_range b 0 Hb). assert (12 <= base) by (unfold base; words).
  destruct (Z.ltb_spec (blen b) base) as [|Hbase]; [done|].
  assert ((bget b 0 / 16) mod 2 = 1 -> base + (4 + (bget b (base + 2) * 256 + bget b (base + 3)) * 4) <= blen b) as Hx.
  { intros Ex. rewrite Ex in E. cbn [Z.eqb Pos.eqb] in E.
    destruct (Z.ltb_spec (blen b) (base + 4)) as [|H4]; [done|]. rewrite !rd_ok in E by lia. cbn [mbnd] in E.
    rewrite u16_shift8, lor_be16 in E by (by apply bget_u8).
    destruct (Z.ltb_spec (blen b) (base + (4 + (bget b (base + 2) * 256 + bget b (base + 3)) * 4))); [done|lia]. }
  assert (exists hd, h = hd /\ _seq hd = bget b 2 * 256 + bget b 3 /\
    _timestamp hd = bget b 4 * 16777216 + bget b 5 * 65536 + bget b 6 * 256 + bget b 7 /\
    _payload_type hd = bget b 1 mod 128) as (hd & -> & ? & ? & ?).
  { match type of E with mbnd ?m _ = _ => destruct m as [[]| |] end; cbn [mbnd negb] in E; [|done..].
    destruct (_ =? 1) in E; [|injection E as <-; eexists; split; [done|]; done].
    destruct (rd b _) as [p| |]; cbn [mbnd] in E; [|done..]. destruct (_ || _); [done|].
    injection E as <-. eexists. split; [done|]. done. }
  auto 10.
Qed.

Lemma bget_at a x c b i : b = a ++ x :: c -> i = blen a -> bget b i = x.
Proof. intros Hb Hi. by destruct (rd_inv b i x (rd_at a x c b i Hb Hi)). Qed.

Lemma parse_parts b h :
  bytes_ok b -> ParseRtpHeader b = Ret (Some h) ->
  exists x, parts_ok x /\ build x = b /\ kvp x / 2 = 2 /\
    _seq h = kseq x /\ _timestamp h = kts x /\ _payload_type h = k1 x mod 128.
Proof.
  intros Hb E. destruct (ParseRtpHeader_facts b h Hb E) as (Hl & Hv & Hbase & Hs & Ht & Hp & Hx).
  destruct (twelve b Hl) as (b0 & b1 & b2 & b3 & b4 & b5 & b6 & b7 & b8 & b9 & b10 & b11 & r & ->).
  change (bget (b0 :: _) 0) with b0 in *. change (bget (b0 :: _) 1) with b1 in *. change (bget (b0 :: _) 2) with b2 in *.
  change (bget (b0 :: _) 3) with b3 in *. change (bget (b0 :: _) 4) with b4 in *. change (bget (b0 :: _) 5) with b5 in *.
  change (bget (b0 :: _) 6) with b6 in *. change (bget (b0 :: _) 7) with b7 in *.
  unfold bytes_ok in Hb. rewrite !Forall_cons in Hb. destruct Hb as (H0 & H1 & H2 & H3 & H4 & H5 & H6 & H7 & H8 & H9 & H10 & H11 & Hr).
  rewrite !blen_cons in *. pose proof H0 as H0'. unfold is_u in H0'. pow2.
  destruct (cut_rest (b0 mod 16 * 4) r Hr ltac:(words)) as (cs & z & -> & Lc & Hcs & Hz).
  assert (blen cs / 4 = b0 mod 16) as Ecc by (rewrite Lc; words).
  assert (forall ext pay, z = ext_bytes ext ++ pay -> ext_ok ext -> bytes_ok pay ->
    (match ext with Some _ => true | None => false end = ((b0 / 16) mod 2 =? 1)) ->
    exists x, parts_ok x /\ build x = b0 :: b1 :: b2 :: b3 :: b4 :: b5 :: b6 :: b7 :: b8 :: b9 :: b10 :: b11 :: cs ++ z /\
      kvp x / 2 = 2 /\ _seq h = kseq x /\ _timestamp h = kts x /\ _payload_type h = k1 x mod 128) as Hfin.
  { intros ext pay -> He Hpay Hflag.
    exists (mkParts (b0 / 32) b1 (b2 * 256 + b3) (b4 * 16777216 + b5 * 65536 + b6 * 256 + b7)
      (b8 * 16777216 + b9 * 65536 + b10 * 256 + b11) cs ext pay).
    split; [unfold parts_ok, is_u in *; simpl; pow2; repeat split; auto; rewrite ?Lc; words|].
    split; [|simpl; split; [words|done]].
    unfold build, head_bytes, has_ext. cbn [kvp k1 kseq kts kssrc kcsrc kext kpay].
    rewrite (byte_of_16 _ b2 b3), (byte_of_24 _ b4 b5 b6 b7), (byte_of_24 _ b8 b9 b10 b11) by done.
    simpl. rewrite Hflag, Ecc. f_equal. unfold first_byte. rewrite b2z_eqb1 by words. words. }
  destruct (Z.eqb_spec ((b0 / 16) mod 2) 1) as [Ex|Ex].
  - specialize (Hx Ex). cbn zeta in Hx.
    assert (4 <= blen z) as Hz4.
    { rewrite blen_app in Hx. 
      match type of Hx with _ + (4 + (?p * 256 + ?q) * 4) <= _ => assert (0 <= p /\ 0 <= q) as [? ?]
        by (split; apply bget_range; unfold bytes_ok; rewrite !Forall_cons, Forall_app; auto 20) end. lia. }
    destruct z as [|p0 [|p1 [|w0 [|w1 z]]]]; try (rewrite ?blen_cons in Hz4; change (blen []) with 0 in Hz4; lia).
    unfold bytes_ok in Hz. rewrite !Forall_cons in Hz. destruct Hz as (Hp0 & Hp1 & Hw0 & Hw1 & Hz).
    set (pre := [b0; b1; b2; b3; b4; b5; b6; b7; b8; b9; b10; b11] ++ cs ++ [p0; p1]).
    assert (b0 :: b1 :: b2 :: b3 :: b4 :: b5 :: b6 :: b7 :: b8 :: b9 :: b10 :: b11 :: cs ++ p0 :: p1 :: w0 :: w1 :: z =
      pre ++ w0 :: w1 :: z) as Eb by (unfold pre; simpl; by rewrite <- !app_assoc).
    assert (blen pre = 12 + b0 mod 16 * 4 + 2) as Lp 
      by (unfold pre; rewrite !blen_app, !blen_cons, Lc; change (blen []) with 0; lia).
    rewrite Eb in Hx. rewrite (bget_at pre w0 (w1 :: z)), (bget_at (pre ++ [w0]) w1 z) in Hx
      by (rewrite ?blen_snoc, <- ?app_assoc; done || lia).
    unfold is_u in Hw0, Hw1. pow2. rewrite blen_app, !blen_cons in Hx. pose proof (blen_nonneg z).
    destruct (cut_rest ((w0 * 256 + w1) * 4) z Hz ltac:(lia)) as (body & pay & -> & Lb & Hbody & Hpay).
    apply (Hfin (Some (p0, p1, body)) pay); [| |done|done].
    + assert (blen body / 4 = w0 * 256 + w1) as Ew by (rewrite Lb; words).
      unfold ext_bytes. rewrite Ew, (byte_of_16 _ w0 w1) by done. done.
    + simpl. rewrite Lb. split; [done|]. split; [done|]. split; [done|]. words.
  - apply (Hfin None z); [done|done|done|done].
Qed.

(** ** Rewriting the fixed header *)

Definition out_pt (c : SenderConfig) (x : parts) : Z :=
  if rewrite_payload_type c then payload_type c mod 128 else k1 x mod 128.

(** The parts with a new number, timestamp, payload type and SSRC. *)
Definition renumbered (c : SenderConfig) (x : parts) (seq ts : Z) : parts :=
  mkParts (kvp x) (k1 x / 128 * 128 + out_pt c x) seq ts (local_ssrc c) (kcsrc x) (kext x) (kpay x).

Definition with_ext (x : parts) (e : option (Z * Z * list Z)) : parts :=
  mkParts (kvp x) (k1 x) (kseq x) (kts x) (kssrc x) (kcsrc x) e (kpay x).

Definition sender_ok (c : SenderConfig) : Prop :=
  is_u32 (local_ssrc c) /\ is_u8 (payload_type c) /\ 0 <= transport_cc_extension_id c < 256 /\
  0 <= mid_extension_id c < 256 /\ bytes_ok (mid c).

Lemma rewrite_parts c m x h :
  sender_ok c -> parts_ok x -> _payload_type h = k1 x mod 128 ->
  let '(m1, s) := RewriteSeq m (_seq h) in
  let '(m2, t) := RewriteTimestamp m1 (_timestamp h) in
  RewriteRtpPacket c m (build x) h = Ret (m2, Some (build (renumbered c x s t), s, t)).
Proof.
  intros (Hss & Hpt & _) Hx Hh. unfold RewriteRtpPacket, kSize. pose proof (blen_nonneg (kcsrc x)).
  assert (12 <= blen (build x)).
  { unfold build. rewrite !blen_app, head_length. pose proof (blen_nonneg (ext_bytes (kext x))).
    pose proof (blen_nonneg (kpay x)). lia. }
  rewrite (proj2 (Z.ltb_ge _ _)) by lia.
  destruct (RewriteSeq m (_seq h)) as [m1 s]. destruct (RewriteTimestamp m1 (_timestamp h)) as [m2 t].
  set (pt := if rewrite_payload_type c then _ else _).
  assert (pt = out_pt c x /\ 0 <= pt <= 127) as [Ept Hpt'].
  { unfold pt, out_pt. destruct (rewrite_payload_type c); rewrite ?Hh.
    - rewrite land_7f, (wrap_small 8) by (unfold is_u; pow2; words). split; [done|words].
    - split; [done|words]. }
  unfold build at 1 2, head_bytes. cbn [app be16 be32].
  set (r := kcsrc x ++ ext_bytes (kext x) ++ kpay x).
  replace ((kcsrc x) ++ ext_bytes (kext x) ++ kpay x) with r by done.
  unfold WriteUint16, WriteUint32.
  rewrite rd_ok by len12. cbn [mbnd]. change (bget (_ :: k1 x :: _) 1) with (k1 x).
  destruct Hx as (_ & Hk1 & _). rewrite marker_pt, Ept by done.
  do 11 (rewrite wr_ok by len12; cbn [mbnd]; simpl insert). done.
Qed.

Lemma renumbered_ok c x s t :
  sender_ok c -> parts_ok x -> is_u16 s -> is_u32 t -> parts_ok (renumbered c x s t).
Proof.
  intros (Hss & Hpt & _) (H1 & H2 & _ & _ & _ & H3 & H4 & H5 & H6 & H7) Hs Ht.
  unfold parts_ok, renumbered. simpl.
  split; [done|]. split; [|auto 10].
  unfold out_pt, is_u in *. pow2. destruct (rewrite_payload_type c); words.
Qed.

(** ** Replacing the extension *)

(** What the packet carries after [RewriteHeaderExtensions]: the MID element or nothing. *)
Definition mid_body (c : SenderConfig) : list Z :=
  pad4 ((mid_extension_id c * 16 + (blen (mid c) - 1)) :: mid c).

Definition mid_ext (c : SenderConfig) : option (Z * Z * list Z) :=
  if mid_extension_id c =? 0 then None else Some (0xBE, 0xDE, mid_body c).

(** The configurations it can work with. *)
Definition mid_usable (c : SenderConfig) : bool :=
  if mid_extension_id c =? 0 then blen (mid c) =? 0
  else (mid_extension_id c <=? 14) && (1 <=? blen (mid c)) && (blen (mid c) <=? 16) &&
       negb (mid_extension_id c =? transport_cc_extension_id c).

Lemma pad4_length l : blen (pad4 l) mod 4 = 0 /\ blen l <= blen (pad4 l) < blen l + 4.
Proof.
  unfold pad4. rewrite blen_app. pose proof (Z.mod_pos_bound (- blen l) 4).
  assert (blen (repeat 0 (Z.to_nat ((- blen l) mod 4))) = (- blen l) mod 4) as ->
    by (unfold blen at 1; rewrite repeat_length; lia). words.
Qed.

Lemma bytes_pad4 l : bytes_ok l -> bytes_ok (pad4 l).
Proof.
  intros Hl. apply Forall_app. split; [done|]. apply Forall_forall. intros x Hx.
  apply list_elem_of_In, repeat_spec in Hx. subst. unfold is_u. pow2. lia.
Qed.

Lemma mid_ext_ok c : sender_ok c -> mid_usable c = true -> ext_ok (mid_ext c) /\
  match mid_ext c with None => True | Some (_, _, body) => blen body <= 20 end.
Proof.
  intros (_ & _ & _ & Hm & Hb) Hu. unfold mid_usable, mid_ext in *. destruct (Z.eqb_spec (mid_extension_id c) 0); [done|].
  bool_hyps. set (l := (mid_extension_id c * 16 + (blen (mid c) - 1)) :: mid c) in *.
  assert (blen l = 1 + blen (mid c)) as Ll by (unfold l; apply blen_cons).
  assert (bytes_ok l) as Hl.
  { unfold l. apply Forall_cons_2; [|done]. unfold is_u. pow2. lia. }
  unfold mid_body. fold l. destruct (pad4_length l) as [H4 Hlen]. simpl.
  split; [|words]. split; [done|]. split; [done|]. split; [by apply bytes_pad4|]. split; [done|]. words.
Qed.

(** The bytes between the first one and the extension. *)
Definition tail_bytes (x : parts) : list Z :=
  k1 x :: be16 (kseq x) ++ be32 (kts x) ++ be32 (kssrc x) ++ kcsrc x.

Lemma build_tail x e :
  build (with_ext x e) =
  first_byte (kvp x) (blen (kcsrc x) / 4) (match e with Some _ => true | None => false end) ::
  tail_bytes x ++ ext_bytes e ++ kpay x.
Proof. unfold build, head_bytes, tail_bytes, has_ext. simpl. by rewrite <- ?app_assoc. Qed.

Lemma with_ext_id x : with_ext x (kext x) = x.
Proof. by destruct x. Qed.

Lemma tail_length x : blen (tail_bytes x) = 11 + blen (kcsrc x).
Proof. unfold tail_bytes. rewrite blen_cons, !blen_app. change (blen (be16 _)) with 2. change (blen (be32 _)) with 4. lia. Qed.

Lemma wr_0 a l v : wr (a :: l) 0 v = Ret (v :: l).
Proof. by apply (wr_app []). Qed.

Lemma rd_0 a l : rd (a :: l) 0 = Ret a.
Proof. by apply (rd_app []). Qed.

Lemma insert_at_app a z n l : n = blen a -> insert_at (a ++ z) n l = Ret (a ++ l ++ z).
Proof.
  intros ->. unfold insert_at. rewrite blen_app. pose proof (blen_nonneg z).
  rewrite (proj2 (Z.ltb_ge _ _)) by lia. unfold blen. rewrite Nat2Z.id.
  by rewrite take_app_length, drop_app_length.
Qed.

(** Setting and clearing the extension bit. *)
Lemma first_byte_set vp cc e :
  0 <= vp < 8 -> 0 <= cc < 16 -> u8 (Z.lor (first_byte vp cc e) 0x10) = first_byte vp cc true.
Proof.
  intros Hv Hc. unfold first_byte.
  assert (forallb (fun v => forallb (fun k => forallb (fun e => u8 (Z.lor (v * 32 + Z.b2z e * 16 + k) 0x10) =?
    v * 32 + Z.b2z true * 16 + k) [true; false]) (seqZ 0 16)) (seqZ 0 8) = true) as H by (vm_compute; reflexivity).
  rewrite forallb_forall in H. specialize (H vp). rewrite forallb_forall in H.
  specialize (H ltac:(apply list_elem_of_In, elem_of_seqZ; lia) cc ltac:(apply list_elem_of_In, elem_of_seqZ; lia)).
  rewrite forallb_forall in H. apply Z.eqb_eq, H. destruct e; simpl; auto.
Qed.

Lemma first_byte_clear vp cc e :
  0 <= vp < 8 -> 0 <= cc < 16 -> u8 (Z.land (first_byte vp cc e) (Z.lnot 0x10)) = first_byte vp cc false.
Proof.
  intros Hv Hc. unfold first_byte.
  assert (forallb (fun v => forallb (fun k => forallb (fun e => u8 (Z.land (v * 32 + Z.b2z e * 16 + k) (Z.lnot 0x10)) =?
    v * 32 + Z.b2z false * 16 + k) [true; false]) (seqZ 0 16)) (seqZ 0 8) = true) as H by (vm_compute; reflexivity).
  rewrite forallb_forall in H. specialize (H vp). rewrite forallb_forall in H.
  specialize (H ltac:(apply list_elem_of_In, elem_of_seqZ; lia) cc ltac:(apply list_elem_of_In, elem_of_seqZ; lia)).
  rewrite forallb_forall in H. apply Z.eqb_eq, H. destruct e; simpl; auto.
Qed.

Lemma pad4_app a l : blen a mod 4 = 0 -> pad4 (a ++ l) = a ++ pad4 l.
Proof.
  intros Ha. unfold pad4. rewrite <- app_assoc, blen_app. do 4 f_equal.
  rewrite Z.opp_add_distr, Z.add_mod, (Z.mod_opp_l_z (blen a)), Z.add_0_l, Z.mod_mod by lia. done.
Qed.

Lemma extensions_parts c x :
  sender_ok c -> parts_ok x ->
  RewriteHeaderExtensions c (build x) = Ret (if mid_usable c then Some (build (with_ext x (mid_ext c))) else None).
Proof.
  intros Hc Hx. pose proof (csrc_count x Hx) as [Hcc Hcs]. pose proof Hx as (Hv & _ & _ & _ & _ & _ & _ & _ & He & _).
  pose proof (first_byte_facts (kvp x) (blen (kcsrc x) / 4) (has_ext x) Hv Hcc) as (_ & F1 & F2 & _).
  pose proof (blen_nonneg (kcsrc x)). pose proof (blen_nonneg (kpay x)).
  unfold RewriteHeaderExtensions, kSize. rewrite rd_first. cbn [mbnd]. rewrite F1, Hcs, F2, negb_involutive.
  assert (blen (build x) = 12 + blen (kcsrc x) + blen (ext_bytes (kext x)) + blen (kpay x)) as L
    by (unfold build; rewrite !blen_app, head_length; lia).
  pose proof (blen_nonneg (ext_bytes (kext x))).
  rewrite (proj2 (Z.ltb_ge _ _)) by lia.
  match goal with |- mbnd ?m _ = _ => assert (m = Ret (Some (build (with_ext x None)))) as -> end.
  { unfold has_ext. destruct (kext x) as [[[p0 p1] body]|] eqn:Ee.
    2: { destruct x; simpl in Ee; by subst. }
    rewrite ext_length in L. pose proof (blen_nonneg body). destruct He as (_ & _ & Hb & Hm & Hw).
    rewrite (proj2 (Z.ltb_ge _ _)) by lia. unfold build at 1 2. rewrite Ee, <- head_length.
    destruct (rd_ext (head_bytes x) p0 p1 body (kpay x)) as (_ & _ & -> & ->). cbn [mbnd].
    rewrite lor_be16, be16_value by (apply byte_of_u8 || (unfold is_u; pow2; split; [apply Z.div_pos; lia|lia])).
    rewrite Z.mul_comm, body_words, head_length by done. rewrite (proj2 (Z.ltb_ge _ _)) by lia.
    assert (take (Z.to_nat (12 + blen (kcsrc x))) (build x) = head_bytes x) as ->.
    { unfold build. rewrite <- head_length. unfold blen. by rewrite Nat2Z.id, take_app_length. }
    assert (drop (Z.to_nat (12 + blen (kcsrc x) + 4 + blen body)) (build x) = kpay x) as ->.
    { unfold build. rewrite Ee, app_assoc. apply drop_app_length'. rewrite length_app.
      pose proof (head_length x). pose proof (ext_length p0 p1 body). unfold blen in *. lia. }
    unfold head_bytes. cbn [app]. rewrite wr_0. cbn [mbnd]. rewrite first_byte_clear by done.
    done. }
  cbn [mbnd]. unfold mid_usable, mid_ext. destruct (Z.eqb_spec (mid_extension_id c) 0) as [E0|E0].
  { destruct (mid c) as [|y l]; [done|]. rewrite blen_cons. pose proof (blen_nonneg l).
    by rewrite (proj2 (Z.eqb_neq _ 0)) by lia. }
  pose proof Hc as (_ & _ & _ & Hmid & Hmb).
  assert ((14 <? mid_extension_id c) || match mid c with [] => true | _ => false end || (16 <? blen (mid c)) ||
    (mid_extension_id c =? transport_cc_extension_id c) =
    negb ((mid_extension_id c <=? 14) && (1 <=? blen (mid c)) && (blen (mid c) <=? 16) &&
       negb (mid_extension_id c =? transport_cc_extension_id c))) as ->.
  { assert (match mid c with [] => true | _ => false end = negb (1 <=? blen (mid c))) as ->.
    { destruct (mid c) as [|y l]; [done|]. rewrite blen_cons. pose proof (blen_nonneg l).
      by rewrite (proj2 (Z.leb_le 1 _)) by lia. }
    rewrite !Z.ltb_antisym. btauto. }
  destruct (_ && _) eqn:Eu; cbn [negb]; [|done]. bool_hyps.
  rewrite lor_shiftl_add by (change (2 ^ 4) with 16; lia). change (2 ^ 4) with 16.
  rewrite (wrap_small 8) by (unfold is_u; pow2; lia).
  change ([0xBE; 0xDE; 0; 0; ?h] ++ mid c) with ([0xBE; 0xDE; 0; 0] ++ h :: mid c).
  rewrite pad4_app by done. fold (mid_body c).
  assert (blen ([0xBE; 0xDE; 0; 0] ++ mid_body c) = 4 + blen (mid_body c)) as -> by (by rewrite blen_app).
  replace (4 + blen (mid_body c) - 4) with (blen (mid_body c)) by lia.
  assert (blen (mid_body c) / 4 < 65536 /\ 0 <= blen (mid_body c) / 4) as [Hw Hw0].
  { destruct (mid_ext_ok c Hc) as [Ho _].
    - unfold mid_usable. rewrite (proj2 (Z.eqb_neq _ 0)) by done. rewrite !andb_true_iff, !Z.leb_le, negb_true_iff, Z.eqb_neq. auto.
    - unfold mid_ext in Ho. rewrite (proj2 (Z.eqb_neq _ 0)) in Ho by done. destruct Ho as (_ & _ & _ & _ & ?).
      split; [done|]. apply Z.div_pos; [apply blen_nonneg|lia]. }
  rewrite (wrap_small 16) by (unfold is_u; pow2; lia).
  change ([0xBE; 0xDE; 0; 0] ++ mid_body c) with ([0xBE; 0xDE] ++ 0 :: 0 :: mid_body c).
  change (WriteUint16 ?b ?o ?v) with (WriteUint16BE b o v).
  rewrite (WriteUint16BE_app [0xBE; 0xDE]) by done. cbn [mbnd].
  rewrite build_tail. cbn [ext_bytes app].
  rewrite (insert_at_app (first_byte (kvp x) (blen (kcsrc x) / 4) false :: tail_bytes x) (kpay x))
    by (rewrite blen_cons, tail_length; lia).
  cbn [mbnd app]. rewrite rd_0. cbn [mbnd]. rewrite wr_0, first_byte_set by done. cbn [mbnd].
  by rewrite build_tail.
Qed.
