(* ===== verification/SenderTwcc.v ===== *)
(** * Transport-wide sequence numbers of forwarded packets

    What [WriteTransportCcExtension] and [PrepareTransportCc] do to the header extension of
    a packet given by its parts, and what [RtpTransportCcExtension::Read] finds afterwards.

    [skips id body]: a scan for [id] goes over [body] without finding it.  [terminated]: the
    scan stops at an element with the reserved id 15 instead. *)
From S2P Require Import Prelude Bytes RtpWire SenderTrack SenderLayout.

(** ** The elements of a body *)

Inductive skips (id : Z) : list Z -> Prop :=
| skips_nil : skips id []
| skips_pad l : skips id l -> skips id (0 :: l)
| skips_elem h vals l : h <> 0 -> h / 16 <> 15 -> h / 16 <> id -> blen vals = h mod 16 + 1 ->
    skips id l -> skips id (h :: vals ++ l).

Definition terminated (id : Z) (body : list Z) : Prop :=
  exists pre h post, body = pre ++ h :: post /\ skips id pre /\ h <> 0 /\ h / 16 = 15.

(** [id] is found with two bytes of value after what [skips]. *)
Definition carries (id v0 v1 : Z) (body pre post : list Z) : Prop :=
  body = pre ++ [id * 16 + 1; v0; v1] ++ post /\ skips id pre.

Lemma is_u8_div h : is_u8 h -> 0 <= h mod 16 < 16 /\ 0 <= h / 16 < 16 /\ h = h / 16 * 16 + h mod 16.
Proof. unfold is_u. pow2. intros. words. Qed.

Lemma header_bits h : Z.shiftr h 4 = h / 16 /\ Z.land h 0x0F = h mod 16.
Proof. rewrite shiftr_div by lia. rewrite land_15. done. Qed.

Lemma scan_pad fuel a l r id end_ off :
  off = blen a -> blen a + 1 + blen l <= end_ ->
  scan_elements (S fuel) (a ++ 0 :: l ++ r) id end_ off = scan_elements fuel ((a ++ [0]) ++ l ++ r) id end_ (off + 1).
Proof.
  intros -> He. pose proof (blen_nonneg l). cbn [scan_elements].
  rewrite (proj2 (Z.ltb_lt _ _)) by lia. cbn [negb]. rewrite rd_app by done. cbn [mbnd Z.eqb].
  by rewrite <- app_assoc.
Qed.

Lemma scan_skips id pre : skips id pre -> forall fuel a r end_ off,
  off = blen a -> blen a + blen pre <= end_ -> (length pre <= fuel)%nat ->
  exists fuel', (fuel - length pre <= fuel')%nat /\
  scan_elements fuel (a ++ pre ++ r) id end_ off = scan_elements fuel' ((a ++ pre) ++ r) id end_ (blen a + blen pre).
Proof.
  intros Hs. induction Hs as [|l Hl IH|h vals l H0 H15 Hid Hv Hl IH]; intros fuel a r end_ off -> He Hf.
  - exists fuel. change (blen []) with 0. rewrite app_nil_r, Z.add_0_r. split; [simpl; lia|done].
  - destruct fuel as [|fuel]; [simpl in Hf; lia|]. rewrite blen_cons in He. simpl in Hf.
    change ((0 :: l) ++ r) with (0 :: l ++ r). rewrite scan_pad by (done || lia).
    destruct (IH fuel (a ++ [0]) r end_ (blen a + 1)) as (f' & Hf' & ->);
      [by rewrite blen_snoc|rewrite blen_snoc; lia|lia|].
    exists f'. split; [simpl; lia|]. rewrite blen_snoc, blen_cons, <- (app_assoc a). simpl. f_equal. lia.
  - destruct fuel as [|fuel]; [simpl in Hf; lia|]. rewrite blen_cons, blen_app in He. simpl in Hf. rewrite length_app in Hf.
    pose proof (blen_nonneg l). pose proof (blen_nonneg vals).
    change ((h :: vals ++ l) ++ r) with (h :: (vals ++ l) ++ r). cbn [scan_elements].
    rewrite (proj2 (Z.ltb_lt _ _)) by lia. cbn [negb]. rewrite rd_app by done. cbn [mbnd].
    rewrite (proj2 (Z.eqb_neq _ _)) by done. destruct (header_bits h) as [-> ->].
    rewrite (proj2 (Z.eqb_neq _ 15)) by done. rewrite (proj2 (Z.ltb_ge _ _)) by lia.
    rewrite (proj2 (Z.eqb_neq _ id)) by done.
    destruct (IH fuel (a ++ h :: vals) r end_ (blen a + (1 + (h mod 16 + 1)))) as (f' & Hf' & E);
      [rewrite blen_app, blen_cons; lia|rewrite blen_app, blen_cons; lia|lia|].
    exists f'. split; [simpl; rewrite length_app; lia|].
    replace (a ++ h :: (vals ++ l) ++ r) with ((a ++ h :: vals) ++ l ++ r) by (rewrite <- !app_assoc; simpl; by rewrite <- ?app_assoc).
    rewrite E. replace ((a ++ h :: vals) ++ l) with (a ++ h :: vals ++ l) by (by rewrite <- app_assoc).
    rewrite !blen_app, !blen_cons, blen_app. f_equal. lia.
Qed.

(** The reader goes over the elements as the writer does. *)
Lemma tcc_of_scan fuel b id end_ off : (Z.to_nat (end_ - off) <= fuel)%nat ->
  tcc_elements fuel b id end_ off =
  let! s := scan_elements (S fuel) b id end_ off in
  match s with
  | ScanFound o => let! h := rd b (o + 1) in let! l := rd b (o + 2) in Ret (Some (Z.lor (u16 (Z.shiftl h 8)) l))
  | _ => Ret None
  end.
Proof.
  revert off. induction fuel as [|fuel IH]; intros off Hf.
  - cbn. rewrite (proj2 (Z.ltb_ge off end_)) by lia. done.
  - cbn [tcc_elements]. remember (S fuel) as n. cbn [scan_elements]. subst n.
    destruct (Z.ltb_spec off end_) as [H|H]; cbn [negb]; [|done].
    destruct (rd b off) as [h| |]; cbn [mbnd]; [|done..].
    destruct (Z.eqb_spec h 0); [apply IH; lia|]. destruct (Z.shiftr h 4 =? 15); [done|].
    rewrite gtb_ltb. destruct (_ <? _); [done|]. pose proof (land15_range h).
    destruct (Z.shiftr h 4 =? id); [|apply IH; lia].
    destruct (Z.land h 15 + 1 =? 2); done.
Qed.

(** What a scan from the start of the body comes to. *)
Inductive scanned (id : Z) (start : Z) (body : list Z) : ScanResult -> Prop :=
| scanned_found v0 v1 pre post : carries id v0 v1 body pre post -> scanned id start body (ScanFound (start + blen pre))
| scanned_end : skips id body -> scanned id start body ScanEnd
| scanned_term : terminated id body -> scanned id start body ScanEnd
| scanned_bad : scanned id start body ScanBad.

Lemma scan_body id body : bytes_ok body -> 0 < id < 15 -> forall fuel a r, (length body < fuel)%nat ->
  exists s, scan_elements fuel (a ++ body ++ r) id (blen a + blen body) (blen a) = Ret s /\ scanned id (blen a) body s.
Proof.
  intros Hb Hid. remember (length body) as n eqn:En. revert body Hb En.
  induction (lt_wf n) as [n _ IH]. intros body Hb -> fuel a r Hf.
  destruct fuel as [|fuel]; [lia|]. cbn [scan_elements].
  destruct body as [|h body].
  { change (blen []) with 0. rewrite Z.add_0_r, Z.ltb_irrefl. exists ScanEnd. split; [done|]. apply scanned_end, skips_nil. }
  apply bytes_ok_cons in Hb as [Hh Hb]. pose proof (blen_nonneg body). rewrite blen_cons.
  rewrite (proj2 (Z.ltb_lt _ _)) by lia. cbn [negb app]. rewrite rd_app by done. cbn [mbnd].
  destruct (Z.eqb_spec h 0) as [->|H0].
  { destruct (IH (length body) ltac:(simpl; lia) body Hb eq_refl fuel (a ++ [0]) r ltac:(simpl in Hf; lia)) as (s & Es & Hs).
    rewrite blen_snoc, <- app_assoc in Es. simpl in Es. rewrite <- Z.add_assoc in Es. exists s. split; [done|].
    clear -Hs. rewrite blen_snoc in Hs. destruct Hs as [v0 v1 pre post [-> Hc]|Hc|(pre & h & post & -> & Hc & H)|].
    - replace (blen a + 1 + blen pre) with (blen a + blen (0 :: pre)) by (rewrite blen_cons; lia).
      apply scanned_found with v0 v1 post. split; [done|]. by apply skips_pad.
    - by apply scanned_end, skips_pad.
    - apply scanned_term. exists (0 :: pre), h, post. split; [done|]. split; [by apply skips_pad|done].
    - apply scanned_bad. }
  destruct (header_bits h) as [-> ->]. destruct (is_u8_div h Hh) as (Hlo & Hhi & Hdec).
  destruct (Z.eqb_spec (h / 16) 15) as [E15|N15].
  { exists ScanEnd. split; [done|]. apply scanned_term. exists [], h, body. split; [done|]. split; [apply skips_nil|done]. }
  destruct (Z.ltb_spec (blen a + (1 + blen body)) (blen a + 1 + (h mod 16 + 1))) as [|Hfit].
  { exists ScanBad. split; [done|]. apply scanned_bad. }
  destruct (cut_rest (h mod 16 + 1) body Hb ltac:(lia)) as (vals & rest & -> & Lv & Hvals & Hrest).
  destruct (Z.eqb_spec (h / 16) id) as [Eid|Nid].
  { destruct (Z.eqb_spec (h mod 16 + 1) 2) as [E2|]; cbn [negb].
    - destruct vals as [|v0 [|v1 [|]]]; rewrite ?blen_cons in Lv; change (blen []) with 0 in Lv;
        try (exfalso; pose proof (blen_nonneg l); lia); try lia.
      exists (ScanFound (blen a)). split; [done|]. replace (blen a) with (blen a + blen []) at 2 by (change (blen []) with 0; lia).
      apply scanned_found with v0 v1 rest. split; [simpl; f_equal; lia|apply skips_nil].
    - exists ScanBad. split; [done|]. apply scanned_bad. }
  simpl in Hf. rewrite length_app in Hf.
  destruct (IH (length rest) ltac:(simpl; rewrite length_app; lia) rest Hrest eq_refl fuel (a ++ h :: vals) r ltac:(lia)) as (s & Es & Hs).
  exists s. rewrite !blen_app, blen_cons, Lv in *. split.
  - rewrite <- Es. f_equal; [rewrite <- !app_assoc; simpl; by rewrite <- ?app_assoc|lia..].
  - clear -Hs H0 N15 Nid Lv. destruct Hs as [v0 v1 pre post [-> Hc]|Hc|(pre & h' & post & -> & Hc & H)|].
    + replace (blen a + (1 + (h mod 16 + 1)) + blen pre) with (blen a + blen (h :: vals ++ pre))
        by (rewrite blen_cons, blen_app; lia).
      apply scanned_found with v0 v1 post. split; [simpl; by rewrite <- app_assoc|]. by apply skips_elem.
    + by apply scanned_end, skips_elem.
    + apply scanned_term. exists (h :: vals ++ pre), h', post. split; [simpl; by rewrite <- app_assoc|].
      split; [by apply skips_elem|done].
    + apply scanned_bad.
Qed.

(** The three ways a scan without error ends, from their decompositions. *)
Lemma scan_carries id v0 v1 body pre post fuel a r :
  0 < id < 15 -> carries id v0 v1 body pre post -> (length body < fuel)%nat ->
  scan_elements fuel (a ++ body ++ r) id (blen a + blen body) (blen a) = Ret (ScanFound (blen a + blen pre)).
Proof.
  intros Hid [-> Hs] Hf. rewrite length_app in Hf. simpl in Hf. rewrite <- app_assoc.
  destruct (scan_skips id pre Hs fuel a (([id * 16 + 1; v0; v1] ++ post) ++ r)
    (blen a + blen (pre ++ [id * 16 + 1; v0; v1] ++ post)) (blen a)) as (f' & Hf' & ->); [done| |lia|].
  { rewrite !blen_app. pose proof (blen_nonneg post). change (blen [_; _; _]) with 3. lia. }
  destruct f' as [|f']; [lia|]. cbn [scan_elements]. rewrite !blen_app. change (blen [_; _; _]) with 3.
  pose proof (blen_nonneg post). rewrite (proj2 (Z.ltb_lt _ _)) by lia. cbn [negb app].
  rewrite rd_app by (by rewrite blen_app). cbn [mbnd]. rewrite (proj2 (Z.eqb_neq _ 0)) by lia.
  destruct (header_bits (id * 16 + 1)) as [-> ->].
  assert ((id * 16 + 1) / 16 = id /\ (id * 16 + 1) mod 16 = 1) as [-> ->] by words.
  rewrite (proj2 (Z.eqb_neq id 15)) by lia. rewrite (proj2 (Z.ltb_ge _ _)) by lia. by rewrite Z.eqb_refl.
Qed.

Lemma scan_end id body fuel a r :
  skips id body -> (length body < fuel)%nat ->
  scan_elements fuel (a ++ body ++ r) id (blen a + blen body) (blen a) = Ret ScanEnd.
Proof.
  intros Hs Hf. destruct (scan_skips id body Hs fuel a r (blen a + blen body) (blen a)) as (f' & Hf' & ->); [done|lia|lia|].
  destruct f' as [|f']; [lia|]. cbn [scan_elements]. by rewrite Z.ltb_irrefl.
Qed.

Lemma scan_term id body fuel a r :
  terminated id body -> (length body < fuel)%nat ->
  scan_elements fuel (a ++ body ++ r) id (blen a + blen body) (blen a) = Ret ScanEnd.
Proof.
  intros (pre & h & post & -> & Hs & H0 & H15) Hf. rewrite length_app in Hf. simpl in Hf. rewrite <- app_assoc.
  pose proof (blen_nonneg post).
  destruct (scan_skips id pre Hs fuel a ((h :: post) ++ r) (blen a + blen (pre ++ h :: post)) (blen a)) as (f' & Hf' & ->);
    [done|rewrite blen_app, blen_cons; lia|lia|].
  destruct f' as [|f']; [lia|]. cbn [scan_elements]. rewrite blen_app, blen_cons.
  rewrite (proj2 (Z.ltb_lt _ _)) by lia. cbn [negb app]. rewrite rd_app by (by rewrite blen_app). cbn [mbnd].
  rewrite (proj2 (Z.eqb_neq _ 0)) by done. destruct (header_bits h) as [-> _]. by rewrite H15.
Qed.

(** ** One write *)

(** The body after [WriteTransportCcExtension] of the two bytes [v0], [v1]. *)
Inductive written (id v0 v1 : Z) : option (Z * Z * list Z) -> list Z -> Prop :=
| written_new : written id v0 v1 None [id * 16 + 1; v0; v1; 0]
| written_found w0 w1 body pre post : carries id w0 w1 body pre post ->
    written id v0 v1 (Some (0xBE, 0xDE, body)) (pre ++ [id * 16 + 1; v0; v1] ++ post)
| written_appended body : skips id body ->
    written id v0 v1 (Some (0xBE, 0xDE, body)) (body ++ [id * 16 + 1; v0; v1; 0]).

Definition small_ext (x : parts) : Prop :=
  match kext x with None => True | Some (_, _, body) => blen body < 262000 end.

Lemma element_header id : 0 < id < 15 -> u8 (Z.lor (Z.shiftl id 4) 1) = id * 16 + 1.
Proof.
  intros H. rewrite lor_shiftl_add by (change (2 ^ 4) with 16; lia). change (2 ^ 4) with 16.
  apply wrap_small. unfold is_u. pow2. lia.
Qed.

Lemma head_with_ext x e e' : kext x = Some e' -> head_bytes (with_ext x (Some e)) = head_bytes x.
Proof. intros E. unfold head_bytes, has_ext. by rewrite E. Qed.

Lemma byte_of_0 v : byte_of v 0 = u8 v.
Proof. rewrite <- (u8_shift v 0) by lia. by rewrite Z.shiftr_0_r. Qed.

(** The write on a packet that has an extension, from what the scan comes to. *)
Lemma write_scanned c x s p0 p1 body :
  let id := transport_cc_extension_id c in
  sender_ok c -> parts_ok x -> 0 < id < 15 -> is_u16 s -> small_ext x -> kext x = Some (p0, p1, body) ->
  WriteTransportCcExtension c (build x) s =
  if (p0 =? 0xBE) && (p1 =? 0xDE) then
    let! r := scan_elements (S (length (build x))) ((head_bytes x ++ [p0; p1] ++ be16 (blen body / 4)) ++ body ++ kpay x) id
      (blen (head_bytes x) + 4 + blen body) (blen (head_bytes x) + 4) in
    match r with
    | ScanBad => Ret None
    | ScanFound o => let! p := WriteUint16BE (build x) (o + 1) s in Ret (Some p)
    | ScanEnd => Ret (Some (build (with_ext x (Some (p0, p1, body ++ [id * 16 + 1; byte_of s 8; byte_of s 0; 0])))))
    end
  else Ret None.
Proof.
  intros id Hc Hx Hid Hs Hsm Ee. pose proof (csrc_count x Hx) as [Hcc Hcs]. pose proof Hx as (Hv & _ & _ & _ & _ & _ & _ & _ & He & _).
  pose proof (first_byte_facts (kvp x) (blen (kcsrc x) / 4) (has_ext x) Hv Hcc) as (_ & F1 & F2 & _).
  pose proof (blen_nonneg (kcsrc x)). pose proof (blen_nonneg (kpay x)). pose proof (blen_nonneg body).
  unfold WriteTransportCcExtension, kSize. fold id.
  assert (blen (build x) = 12 + blen (kcsrc x) + (4 + blen body) + blen (kpay x)) as L
    by (unfold build; rewrite !blen_app, head_length, Ee, ext_length; lia).
  rewrite (proj2 (Z.eqb_neq id 0)), (proj2 (Z.ltb_ge 14 id)), (proj2 (Z.ltb_ge _ 12)) by lia. cbn [orb].
  rewrite rd_first. cbn [mbnd]. rewrite F1, Z.mul_comm, Hcs, F2. unfold has_ext. rewrite Ee. cbn [negb].
  rewrite !(proj2 (Z.ltb_ge (blen (build x)) _)) by lia.
  unfold build at 1 2. rewrite Ee, <- head_length.
  destruct (rd_ext (head_bytes x) p0 p1 body (kpay x)) as (R0 & R1 & R2 & R3). rewrite R0, R1. cbn [mbnd].
  rewrite Ee in He. destruct He as (Hp0 & Hp1 & Hb & Hm & Hw).
  rewrite u16_shift8, lor_be16 by done.
  assert ((p0 * 256 + p1 =? 0xBEDE) = (p0 =? 0xBE) && (p1 =? 0xDE)) as ->.
  { unfold is_u in Hp0, Hp1. pow2. destruct (Z.eqb_spec p0 0xBE), (Z.eqb_spec p1 0xDE); simpl; try lia. }
  destruct ((p0 =? 0xBE) && (p1 =? 0xDE)) eqn:Ep; cbn [negb]; [|done].
  unfold build at 1 2. rewrite Ee, R2, R3. cbn [mbnd].
  rewrite u16_words by (unfold is_u; pow2; split; [apply Z.div_pos; lia|lia]). rewrite body_words by done.
  rewrite (proj2 (Z.ltb_ge _ _)) by (rewrite head_length; lia).
  assert (build x = (head_bytes x ++ [p0; p1] ++ be16 (blen body / 4)) ++ body ++ kpay x) as Eb
    by (unfold build; rewrite Ee; simpl; rewrite <- ?app_assoc; simpl; by rewrite <- ?app_assoc).
  rewrite Eb at 2.
  destruct (scan_elements _ _ _ _ _) as [[]| |]; cbn [mbnd]; [done|done| |done|done].
  rewrite Eb. rewrite app_assoc. rewrite insert_at_app.
  2: { rewrite !blen_app. change (blen (be16 _)) with 2. change (blen [_; _]) with 2. lia. }
  cbn [mbnd]. change (WriteUint16 ?b ?o ?v) with (WriteUint16BE b o v).
  match goal with |- context [WriteUint16BE ?b _ _] =>
    assert (b = (head_bytes x ++ [p0; p1]) ++ byte_of (blen body / 4) 8 :: byte_of (blen body / 4) 0 :: body ++
      [u8 (Z.lor (Z.shiftl id 4) 1); u8 (Z.shiftr s 8); u8 s; 0] ++ kpay x) as -> end.
  { unfold be16. rewrite <- !app_assoc. done. }
  rewrite (WriteUint16BE_app (head_bytes x ++ [p0; p1])) by (rewrite blen_app; done). cbn [mbnd].
  rewrite element_header by done. unfold small_ext in Hsm. rewrite Ee in Hsm.
  rewrite (wrap_small 16) by (unfold is_u; pow2; words).
  unfold build. rewrite (head_with_ext x _ _ Ee). cbn [with_ext kext kpay ext_bytes].
  rewrite blen_app. change (blen [_; _; _; _]) with 4. replace ((blen body + 4) / 4) with (blen body / 4 + 1) by words.
  rewrite <- (byte_of_0 s), u8_shift by lia. rewrite <- !app_assoc. done.
Qed.

Definition one_byte (body : list Z) : option (Z * Z * list Z) := Some (0xBE, 0xDE, body).

Ltac app_norm := cbn [app be16]; repeat (progress (rewrite <- ?app_assoc; cbn [app be16])).

Section Write.
Context (c : SenderConfig) (x : parts) (s : Z).
Let id := transport_cc_extension_id c.
Context (Hc : sender_ok c) (Hx : parts_ok x) (Hid : 0 < id < 15) (Hs : is_u16 s) (Hsm : small_ext x).

Lemma write_none : kext x = None ->
  WriteTransportCcExtension c (build x) s =
  Ret (Some (build (with_ext x (one_byte [id * 16 + 1; byte_of s 8; byte_of s 0; 0])))).
Proof.
  intros Ee. pose proof (csrc_count x Hx) as [Hcc Hcs]. pose proof Hx as (Hv & _).
  pose proof (first_byte_facts (kvp x) (blen (kcsrc x) / 4) (has_ext x) Hv Hcc) as (_ & F1 & F2 & _).
  pose proof (blen_nonneg (kcsrc x)). pose proof (blen_nonneg (kpay x)).
  unfold WriteTransportCcExtension, kSize. fold id.
  assert (blen (build x) = 12 + blen (kcsrc x) + blen (kpay x)) as L
    by (unfold build; rewrite !blen_app, head_length, Ee; change (blen (ext_bytes None)) with 0; lia).
  rewrite (proj2 (Z.eqb_neq id 0)), (proj2 (Z.ltb_ge 14 id)), (proj2 (Z.ltb_ge _ 12)) by lia. cbn [orb].
  rewrite rd_first. cbn [mbnd]. rewrite F1, Z.mul_comm, Hcs, F2. unfold has_ext. rewrite Ee. cbn [negb].
  rewrite (proj2 (Z.ltb_ge (blen (build x)) _)) by lia.
  assert (build x = build (with_ext x None)) as -> by (destruct x; simpl in Ee; by subst).
  rewrite !build_tail. cbn [ext_bytes app].
  rewrite (insert_at_app (first_byte (kvp x) (blen (kcsrc x) / 4) false :: tail_bytes x) (kpay x))
    by (rewrite blen_cons, tail_length; lia).
  cbn [mbnd app]. rewrite rd_0. cbn [mbnd]. rewrite wr_0, first_byte_set by done. cbn [mbnd one_byte].
  rewrite element_header, byte_of_0, u8_shift by (done || lia). done.
Qed.

Lemma body_fuel p0 p1 body : kext x = Some (p0, p1, body) -> (length body < S (length (build x)))%nat.
Proof. intros Ee. unfold build. rewrite Ee. simpl. rewrite !length_app. simpl. rewrite !length_app. lia. Qed.

Lemma scan_start body : blen (head_bytes x) + 4 = blen (head_bytes x ++ [0xBE; 0xDE] ++ be16 (blen body / 4)).
Proof. rewrite !blen_app. done. Qed.

Lemma write_carries body w0 w1 pre post :
  kext x = one_byte body -> carries id w0 w1 body pre post ->
  WriteTransportCcExtension c (build x) s =
  Ret (Some (build (with_ext x (one_byte (pre ++ [id * 16 + 1; byte_of s 8; byte_of s 0] ++ post))))).
Proof.
  intros Ee Hcar. rewrite (write_scanned c x s _ _ _ Hc Hx Hid Hs Hsm Ee). fold id. cbn [Z.eqb Pos.eqb andb].
  rewrite (scan_start body), (scan_carries id w0 w1 _ pre post) by (done || by eapply body_fuel). cbn [mbnd].
  destruct Hcar as [-> Hsk]. unfold build at 1. rewrite Ee. cbn [ext_bytes].
  match goal with |- context [WriteUint16BE ?b _ _] => set (B := b) end.
  match goal with |- context [head_bytes x ++ ?l] => set (h := l) in * end.
  assert (B = ((head_bytes x ++ h) ++ pre ++ [id * 16 + 1]) ++ w0 :: w1 :: post ++ kpay x) as ->
    by (unfold B, h, one_byte; cbn [ext_bytes]; app_norm; done).
  rewrite WriteUint16BE_app by (rewrite !blen_app; change (blen [_]) with 1; lia). cbn [mbnd].
  unfold build, one_byte. rewrite (head_with_ext x _ _ Ee). cbn [with_ext kext kpay ext_bytes].
  unfold h. rewrite !blen_app. change (blen [_; _; _]) with 3. app_norm. done.
Qed.

Lemma write_skips body : kext x = one_byte body -> skips id body \/ terminated id body ->
  WriteTransportCcExtension c (build x) s =
  Ret (Some (build (with_ext x (one_byte (body ++ [id * 16 + 1; byte_of s 8; byte_of s 0; 0]))))).
Proof.
  intros Ee Hsk. rewrite (write_scanned c x s _ _ _ Hc Hx Hid Hs Hsm Ee). fold id. cbn [Z.eqb Pos.eqb andb].
  rewrite (scan_start body). pose proof (body_fuel _ _ _ Ee).
  destruct Hsk; [rewrite scan_end by done|rewrite scan_term by done]; done.
Qed.

(** Every way a write can end. *)
Lemma write_cases :
  (WriteTransportCcExtension c (build x) s = Ret None /\ kext x <> None) \/
  (exists body, kext x = one_byte body /\ terminated id body /\
    WriteTransportCcExtension c (build x) s =
    Ret (Some (build (with_ext x (one_byte (body ++ [id * 16 + 1; byte_of s 8; byte_of s 0; 0])))))) \/
  (exists body', written id (byte_of s 8) (byte_of s 0) (kext x) body' /\
    WriteTransportCcExtension c (build x) s = Ret (Some (build (with_ext x (one_byte body'))))).
Proof.
  destruct (kext x) as [[[p0 p1] body]|] eqn:Ee.
  2: { right. right. eexists. split; [apply written_new|]. by apply write_none. }
  pose proof (write_scanned c x s _ _ _ Hc Hx Hid Hs Hsm Ee) as Ew. fold id in Ew.
  destruct (Z.eqb_spec p0 0xBE) as [->|]; [|left; by rewrite Ew].
  destruct (Z.eqb_spec p1 0xDE) as [->|]; [|left; by rewrite Ew]. cbn [andb] in Ew.
  assert (bytes_ok body) as Hb by (destruct Hx as (_ & _ & _ & _ & _ & _ & _ & _ & He & _); rewrite Ee in He; apply He).
  rewrite (scan_start body) in Ew.
  destruct (scan_body id body Hb Hid (S (length (build x))) (head_bytes x ++ [0xBE; 0xDE] ++ be16 (blen body / 4)) (kpay x)
    (body_fuel _ _ _ Ee)) as (r & Er & Hr). rewrite Er in Ew. cbn [mbnd] in Ew.
  destruct Hr as [v0 v1 pre post Hcar|Hsk|Hterm|].
  - right. right. eexists. split; [by eapply written_found|]. by eapply write_carries.
  - right. right. eexists. split; [by apply written_appended|]. by apply write_skips; [|left].
  - right. left. exists body. split; [done|]. split; [done|]. by apply write_skips; [|right].
  - left. done.
Qed.

End Write.

(** ** What the bodies are *)

Definition ext_size (e : option (Z * Z * list Z)) : Z :=
  match e with None => 0 | Some (_, _, body) => blen body end.

Lemma written_carries id v0 v1 e body : written id v0 v1 e body -> exists pre post, carries id v0 v1 body pre post.
Proof.
  intros [|w0 w1 b pre post [-> H]|b H].
  - exists [], [0]. split; [done|apply skips_nil].
  - by exists pre, post.
  - by exists b, [0].
Qed.

(** Writing over a placeholder is writing once. *)
Lemma written_twice id v0 v1 w0 w1 e body : written id w0 w1 e body ->
  exists pre post, carries id w0 w1 body pre post /\ written id v0 v1 e (pre ++ [id * 16 + 1; v0; v1] ++ post).
Proof.
  intros [|u0 u1 b pre post [-> H]|b H].
  - exists [], [0]. split; [split; [done|apply skips_nil]|apply written_new].
  - exists pre, post. split; [done|]. by eapply written_found.
  - exists b, [0]. split; [done|]. by apply written_appended.
Qed.

Lemma terminated_app id body l : terminated id body -> terminated id (body ++ l).
Proof. intros (pre & h & post & -> & H). exists pre, h, (post ++ l). by rewrite <- app_assoc. Qed.

Lemma with_ext_ok x e : parts_ok x -> ext_ok e -> parts_ok (with_ext x e).
Proof. unfold parts_ok, with_ext. simpl. tauto. Qed.

Lemma small_one x body : blen body < 262000 -> small_ext (with_ext x (one_byte body)).
Proof. done. Qed.

Lemma one_byte_ok body : bytes_ok body -> blen body mod 4 = 0 -> blen body < 262144 -> ext_ok (one_byte body).
Proof. intros Hb Hm Hl. simpl. repeat split; try done. words. Qed.

Lemma appended_ok id v0 v1 body : 0 < id < 15 -> is_u8 v0 -> is_u8 v1 -> ext_ok (one_byte body) -> blen body < 262100 ->
  ext_ok (one_byte (body ++ [id * 16 + 1; v0; v1; 0])).
Proof.
  intros Hid H0 H1 (_ & _ & Hb & Hm & _) Hl. apply one_byte_ok.
  - apply bytes_ok_app; [done|]. repeat (apply Forall_cons_2; [try done; unfold is_u; pow2; lia|]). apply Forall_nil_2.
  - rewrite blen_app. change (blen [_; _; _; _]) with 4. words.
  - rewrite blen_app. change (blen [_; _; _; _]) with 4. lia.
Qed.

Lemma written_ok id v0 v1 e body : 0 < id < 15 -> is_u8 v0 -> is_u8 v1 -> ext_ok e -> ext_size e < 262100 ->
  written id v0 v1 e body -> ext_ok (one_byte body) /\ blen body <= ext_size e + 4.
Proof.
  intros Hid H0 H1 He Hl Hw. destruct Hw as [|w0 w1 b pre post [-> H]|b H].
  - split; [|done]. apply (appended_ok id v0 v1 []); try done. apply one_byte_ok; [apply Forall_nil_2|done..].
  - cbn [ext_size] in Hl. rewrite !blen_app in Hl. change (blen [_; _; _]) with 3 in Hl. destruct He as (_ & _ & Hb & Hm & _).
    rewrite !blen_app in Hm. change (blen [_; _; _]) with 3 in Hm.
    split; [|cbn [ext_size]; rewrite !blen_app; change (blen [_; _; _]) with 3; lia].
    apply one_byte_ok; rewrite ?blen_app; change (blen [_; _; _]) with 3; [|done|lia].
    apply Forall_app in Hb as [Hp Hb]. apply Forall_app in Hb as [_ Hb]. apply bytes_ok_app; [done|].
    apply bytes_ok_app; [|done]. repeat (apply Forall_cons_2; [try done; unfold is_u; pow2; lia|]). apply Forall_nil_2.
  - split; [by apply appended_ok|]. simpl. rewrite blen_app. done.
Qed.

(** ** Allocating a number and writing it *)

(** What [PrepareTransportCc] returns with success for number [next]. *)
Definition prepared (c : SenderConfig) (x : parts) (next : Z) (body : list Z) : Prop :=
  let id := transport_cc_extension_id c in
  (exists old, kext x = one_byte old /\ terminated id old) \/
  written id (byte_of (u16 (u64 next)) 8) (byte_of (u16 (u64 next)) 0) (kext x) body.

Lemma prepare_parts c al x :
  sender_ok c -> parts_ok x -> ext_size (kext x) < 261000 ->
  exists a' r, PrepareTransportCc c al (build x) = Ret (a', r) /\
  match r with
  | None => a' = al
  | Some (p, seq) =>
    (transport_cc_extension_id c = 0 /\ a' = al /\ p = build x /\ seq = (0, -1)) \/
    (0 < transport_cc_extension_id c < 15 /\ exists next body, al = Some next /\ a' = Some (next + 1) /\
      seq = (u16 (u64 next), next) /\ p = build (with_ext x (one_byte body)) /\
      ext_ok (one_byte body) /\ blen body <= ext_size (kext x) + 8 /\ prepared c x next body)
  end.
Proof.
  intros Hc Hx Hl. unfold PrepareTransportCc. set (id := transport_cc_extension_id c).
  destruct (Z.eqb_spec id 0) as [E0|N0]; [by eexists _, _; split; [done|]; left|].
  destruct al as [next|]; [|by eexists _, _].
  assert (0 <= id < 256) as Hr by (unfold id; apply Hc).
  destruct (Z.ltb_spec 14 id) as [H14|H14].
  { unfold WriteTransportCcExtension. fold id. rewrite (proj2 (Z.eqb_neq id 0)), (proj2 (Z.ltb_lt 14 id)) by lia. by eexists _, _. }
  assert (0 < id < 15) as Hid by lia. pose proof Hx as (_ & _ & _ & _ & _ & _ & _ & _ & He & _).
  assert (small_ext x) as Hsm by (unfold small_ext, ext_size in *; destruct (kext x) as [[[]]|]; [lia|done]).
  assert (is_u16 0 /\ is_u16 (u16 (u64 next))) as [U0 Un] by (split; [unfold is_u; pow2; lia|apply wrap_range; lia]).
  destruct (write_cases c x 0 Hc Hx Hid U0 Hsm) as [[-> _]|[(old & Eo & Ht & ->)|(b1 & Hw & ->)]]; cbn [mbnd]; [by eexists _, _|..].
  - rewrite Eo in He, Hl. simpl in Hl.
    assert (ext_ok (one_byte (old ++ [id * 16 + 1; byte_of 0 8; byte_of 0 0; 0]))) as Ho
      by (apply appended_ok; (done || lia)). change (byte_of 0 8) with 0 in *. change (byte_of 0 0) with 0 in *. fold id.
    assert (blen (old ++ [id * 16 + 1; 0; 0; 0]) = blen old + 4) as Lo by (by rewrite blen_app).
    cbn [Allocate fst]. rewrite (write_skips c _ _ Hc (with_ext_ok x _ Hx Ho) Hid Un (small_one _ _ ltac:(rewrite Lo; lia)) _ eq_refl)
      by (right; by apply terminated_app).
    cbn [mbnd]. eexists _, _. split; [done|]. right. split; [done|]. eexists next, _. do 4 (split; [done|]).
    split; [|split].
    + apply appended_ok; (done || lia || apply byte_of_u8).
    + rewrite Eo. cbn [ext_size one_byte]. rewrite blen_app, Lo. change (blen [_; _; _; _]) with 4. lia.
    + left. by exists old.
  - destruct (written_ok _ _ _ _ _ Hid (byte_of_u8 _ _) (byte_of_u8 _ _) He ltac:(lia) Hw) as [H1 Hl1].
    destruct (written_twice _ (byte_of (u16 (u64 next)) 8) (byte_of (u16 (u64 next)) 0) _ _ _ _ Hw) as (pre & post & Hcar & Hw2).
    destruct (written_ok _ _ _ _ _ Hid (byte_of_u8 _ _) (byte_of_u8 _ _) He ltac:(lia) Hw2) as [H2 Hl2].
    cbn [Allocate fst]. rewrite (write_carries c _ _ Hc (with_ext_ok x _ Hx H1) Hid Un (small_one x b1 ltac:(lia)) _ _ _ _ _ eq_refl Hcar).
    cbn [mbnd]. eexists _, _. split; [done|]. right. split; [done|]. eexists next, _. do 4 (split; [done|]).
    split; [done|]. split; [lia|]. by right.
Qed.

(** What the receiver reads. *)
Lemma read_parts y id w body pre post :
  parts_ok y -> kvp y / 2 = 2 -> 0 < id < 15 -> is_u16 w -> kext y = one_byte body ->
  carries id (byte_of w 8) (byte_of w 0) body pre post ->
  TransportCcRead (Some (build y)) id = Ret (Some w).
Proof.
  intros Hy Hv2 Hid Hw Ee Hcar. pose proof (csrc_count y Hy) as [Hcc Hcs]. pose proof Hy as (Hv & _ & _ & _ & _ & _ & _ & _ & He & _).
  pose proof (first_byte_facts (kvp y) (blen (kcsrc y) / 4) (has_ext y) Hv Hcc) as (_ & F1 & F2 & F3).
  pose proof (blen_nonneg (kcsrc y)). pose proof (blen_nonneg (kpay y)). pose proof (blen_nonneg body).
  rewrite Ee in He. destruct He as (_ & _ & Hb & Hm & Hwd).
  assert (blen (build y) = 12 + blen (kcsrc y) + (4 + blen body) + blen (kpay y)) as L
    by (unfold build, one_byte in *; rewrite !blen_app, head_length, Ee, ext_length; lia).
  unfold TransportCcRead. rewrite (proj2 (Z.ltb_ge _ 12)), (proj2 (Z.eqb_neq id 0)), gtb_ltb, (proj2 (Z.ltb_ge 14 id)) by lia.
  cbn [orb]. rewrite rd_first. cbn [mbnd]. rewrite F3, Hv2, F2, F1. unfold has_ext. rewrite Ee. cbn [one_byte negb Z.eqb Pos.eqb orb].
  rewrite Z.mul_comm, Hcs, !(proj2 (Z.ltb_ge (blen (build y)) _)) by lia.
  assert (build y = head_bytes y ++ ext_bytes (Some (0xBE, 0xDE, body)) ++ kpay y) as Eb by (unfold build; by rewrite Ee).
  destruct (rd_ext (head_bytes y) 0xBE 0xDE body (kpay y)) as (R0 & R1 & R2 & R3).
  rewrite <- Eb, head_length in R0, R1, R2, R3. rewrite R0, R1. cbn [mbnd].
  change (negb (Z.lor (u16 (Z.shiftl 0xBE 8)) 0xDE =? 0xBEDE)) with false. cbv iota. rewrite R2, R3. cbn [mbnd].
  rewrite u16_words by (unfold is_u; pow2; split; [apply Z.div_pos; lia|lia]). rewrite body_words by done.
  rewrite (proj2 (Z.ltb_ge _ _)) by lia. rewrite tcc_of_scan by lia.
  set (a := head_bytes y ++ [0xBE; 0xDE] ++ be16 (blen body / 4)).
  assert (build y = a ++ body ++ kpay y) as Eb2 by (rewrite Eb; unfold a; cbn [ext_bytes]; app_norm; done).
  assert (12 + blen (kcsrc y) + 4 = blen a) as La by (unfold a; rewrite !blen_app, head_length; done).
  rewrite La, Eb2. rewrite (scan_carries id _ _ body pre post) by (done || (unfold blen; lia)).
  cbn [mbnd]. destruct Hcar as [-> _].
  rewrite (rd_at (a ++ pre ++ [id * 16 + 1]) (byte_of w 8) (byte_of w 0 :: post ++ kpay y)), 
    (rd_at (a ++ pre ++ [id * 16 + 1; byte_of w 8]) (byte_of w 0) (post ++ kpay y)); cbn [mbnd];
    try (rewrite !blen_app; change (blen [_]) with 1; change (blen [_; _]) with 2; lia);
    try (app_norm; done).
  by rewrite u16_words.
Qed.
