(* ===== verification/SenderInvariant.v ===== *)
(** * The invariant of RTP sender tracks

    What holds of a track in every state, and what each packet it sends (forwarded, padding)
    is made of.  The retransmissions, the runs and the theorems are in SenderProps.v. *)
From S2P Require Import Prelude Bytes RtpWire SenderTrack SenderLayout SenderTwcc.

(** ** Header extensions of a packet on its way *)

Lemma skips_zeros id n : skips id (repeat 0 n).
Proof. induction n; simpl; [apply skips_nil|by apply skips_pad]. Qed.

Lemma mid_skips c : mid_usable c = true -> mid_extension_id c <> 0 -> 0 <= mid_extension_id c ->
  skips (transport_cc_extension_id c) (mid_body c).
Proof.
  unfold mid_usable. intros Hu H0 Hp. rewrite (proj2 (Z.eqb_neq _ 0)) in Hu by done. bool_hyps.
  unfold mid_body, pad4. cbn [app]. set (h := mid_extension_id c * 16 + (blen (mid c) - 1)).
  assert (h / 16 = mid_extension_id c /\ h mod 16 = blen (mid c) - 1) as [E1 E2] by (unfold h; words).
  apply skips_elem; rewrite ?E1, ?E2; [unfold h; lia|lia|done|lia|apply skips_zeros].
Qed.

(** The parts that [maybe_extensions] gives. *)
Definition sent_ext (c : SenderConfig) (x : parts) : option (Z * Z * list Z) :=
  if rewrite_header_extensions c then mid_ext c else kext x.

Lemma maybe_parts c x :
  sender_ok c -> parts_ok x -> ext_size (kext x) < 70000 ->
  maybe_extensions c (build x) = Ret None \/
  maybe_extensions c (build x) = Ret (Some (build (with_ext x (sent_ext c x)))) /\
  ext_ok (sent_ext c x) /\ ext_size (sent_ext c x) < 70000 /\
  (rewrite_header_extensions c = true -> mid_usable c = true).
Proof.
  intros Hc Hx Hl. unfold maybe_extensions, sent_ext. destruct (rewrite_header_extensions c).
  - rewrite extensions_parts by done. destruct (mid_usable c) eqn:Eu; [right|by left].
    destruct (mid_ext_ok c Hc Eu) as [Ho Hs]. split; [done|]. split; [done|]. split; [|done].
    destruct (mid_ext c) as [[[]]|]; simpl; lia.
  - right. rewrite with_ext_id. pose proof Hx as (_ & _ & _ & _ & _ & _ & _ & _ & He & _). done.
Qed.

(** No scan for the sequence number's element stops early. *)
Definition open_ext (id : Z) (e : option (Z * Z * list Z)) : Prop :=
  match e with Some (0xBE, 0xDE, body) => ~ terminated id body | _ => True end.

Lemma skips_not_terminated id l : skips id l -> ~ terminated id l.
Proof.
  induction 1 as [|l H IH|h vals l H0 H15 Hid Hv H IH]; intros (pre & x & post & E & Hs & Hx & Hx15).
  - by destruct pre.
  - destruct Hs as [|l' Hs|h' v' l' H0' H15' Hid' Hv' Hs]; simpl in E; injection E; [by intros|intros ->..|by intros].
    apply IH. by exists l', x, post.
  - destruct Hs as [|l' Hs|h' v' l' H0' H15' Hid' Hv' Hs]; simpl in E; injection E; [by intros _ <-|by intros _ ->|].
    rewrite <- app_assoc. intros El ->. apply app_inj_1 in El as [_ ->]; [|unfold blen in *; lia].
    apply IH. by exists l', x, post.
Qed.

Lemma mid_open c : sender_ok c -> mid_usable c = true -> open_ext (transport_cc_extension_id c) (mid_ext c).
Proof.
  intros (_ & _ & _ & Hm & _) Hu. unfold mid_ext. destruct (Z.eqb_spec (mid_extension_id c) 0); [done|].
  simpl. apply skips_not_terminated, mid_skips; [done|done|lia].
Qed.

(** ** What goes out *)

(** [y] is sent in place of [x]: the rest of the packet is kept, the extension carries the
    transport sequence number [next]. *)
Definition stamped (c : SenderConfig) (al al' : option Z) (x y : parts) (seq : Z * Z) : Prop :=
  let id := transport_cc_extension_id c in
  (id = 0 /\ y = x /\ al' = al /\ seq = (0, -1)) \/
  (0 < id < 15 /\ exists next body, al = Some next /\ al' = Some (next + 1) /\ y = with_ext x (one_byte body) /\
    seq = (u16 (u64 next), next) /\ prepared c x next body).

Lemma stamped_read c al al' x y seq :
  stamped c al al' x y seq -> parts_ok y -> kvp x / 2 = 2 -> 0 < transport_cc_extension_id c ->
  open_ext (transport_cc_extension_id c) (kext x) ->
  TransportCcRead (Some (build y)) (transport_cc_extension_id c) = Ret (Some (fst seq)).
Proof.
  intros [(E & _)|(Hid & next & body & _ & _ & -> & -> & Hp)] Hy Hv H0 Ho; [lia|].
  assert (is_u16 (u16 (u64 next))) by (apply wrap_range; lia).
  destruct Hp as [(old & Ee & Ht)|Hw]; [rewrite Ee in Ho; by destruct Ho|].
  destruct (written_carries _ _ _ _ _ Hw) as (pre & post & Hcar). by eapply read_parts.
Qed.

Lemma prepare_stamped c al x :
  sender_ok c -> parts_ok x -> ext_size (kext x) < 80000 ->
  exists al' r, PrepareTransportCc c al (build x) = Ret (al', r) /\
  match r with
  | None => al' = al
  | Some (p, seq) => exists y, p = build y /\ parts_ok y /\ ext_size (kext y) <= ext_size (kext x) + 8 /\ stamped c al al' x y seq
  end.
Proof.
  intros Hc Hx Hl. destruct (prepare_parts c al x Hc Hx ltac:(lia)) as (a' & r & E & H). exists a', r. split; [done|].
  destruct r as [[p seq]|]; [|done]. destruct H as [(H0 & -> & -> & ->)|(Hid & next & body & -> & -> & -> & -> & Ho & Hb & Hp)].
  - exists x. split; [done|]. split; [done|]. split; [lia|]. by left.
  - exists (with_ext x (one_byte body)). split; [done|]. split; [by apply with_ext_ok|]. split; [done|].
    right. split; [done|]. by exists next, body.
Qed.

(** ** The invariant of a track *)

Definition cached_ok (c : SenderConfig) (seq : Z) (p : CachedRtpPacket) : Prop :=
  (exists y, parts_ok y /\ kvp y / 2 = 2 /\ cpacket p = build y /\ kseq y = seq /\ kssrc y = local_ssrc c /\
    ext_size (kext y) < 75000 /\ (rewrite_header_extensions c = true -> open_ext (transport_cc_extension_id c) (kext y))) /\
  0 <= retransmit_count p /\
  (0 < max_retransmit_count c -> retransmit_count p <= max_retransmit_count c).

Definition cache_ok (c : SenderConfig) (order : list Z) (cache : gmap Z CachedRtpPacket) : Prop :=
  NoDup order /\ (forall s, s ∈ order <-> is_Some (cache !! s)) /\
  Z.of_nat (size cache) <= rtp_cache_size c /\ map_Forall (cached_ok c) cache.

Record track_ok (t : SenderTrack) : Prop := mkTrackOk {
  tok_config : sender_ok (_config t);
  tok_limits : 0 <= rtp_cache_size (_config t) /\ 0 < max_retransmit_count (_config t) < 2 ^ 32;
  tok_cache : cache_ok (_config t) (_cache_order t) (_rtp_cache t);
  tok_last : is_u16 (last_out_seq (_map t)) /\ is_u32 (last_out_timestamp (_map t));
  tok_counts : is_u64 (_packet_count t) /\ is_u64 (_octet_count t) }.

Definition config_ok (c : SenderConfig) : Prop :=
  sender_ok c /\ 0 <= rtp_cache_size c /\ 0 < max_retransmit_count c < 2 ^ 32.

Lemma cache_empty c : 0 <= rtp_cache_size c -> cache_ok c [] ∅.
Proof.
  intros H. split; [by apply NoDup_nil|]. split; [|split; [by rewrite map_size_empty|apply map_Forall_empty]].
  intros s. rewrite lookup_empty. split; [by intros ?%elem_of_nil|by intros []].
Qed.

Lemma new_track_ok c al : config_ok c -> track_ok (new_SenderTrack c al).
Proof.
  intros (Hc & H1 & H2). constructor; simpl; [done|done|by apply cache_empty|..]; split; unfold is_u; pow2; lia.
Qed.

(** *** The cache *)

Lemma size_order order (cache : gmap Z CachedRtpPacket) :
  NoDup order -> (forall s, s ∈ order <-> is_Some (cache !! s)) -> size cache = length order.
Proof.
  intros Hn Hd. rewrite <- (size_list_to_set (C := gset Z)) by done. rewrite <- size_dom. f_equal. apply set_eq.
  intros s. rewrite elem_of_dom, elem_of_list_to_set. symmetry. apply Hd.
Qed.

Lemma evict_ok c order cache limit :
  NoDup order -> (forall s, s ∈ order <-> is_Some (cache !! s)) -> map_Forall (cached_ok c) cache -> 0 <= limit ->
  let '(order', cache') := evict order cache limit in
  NoDup order' /\ (forall s, s ∈ order' <-> is_Some (cache' !! s)) /\ Z.of_nat (size cache') <= limit /\
  map_Forall (cached_ok c) cache' /\ cache' ⊆ cache /\ order' `suffix_of` order.
Proof.
  intros Hn Hd Hf Hl. revert cache Hd Hf. induction order as [|o order IH]; intros cache Hd Hf; simpl.
  - split; [done|]. split; [done|]. rewrite (size_order [] cache) by done. split; [done|]. done.
  - destruct (Z.ltb_spec limit (Z.of_nat (size cache))) as [H|H]; [|done]. apply NoDup_cons in Hn as [Ho Hn].
    specialize (IH Hn (delete o cache)). destruct (evict order (delete o cache) limit) as [order' cache'].
    destruct IH as (H1 & H2 & H3 & H4 & H5 & H6).
    + intros s. destruct (decide (s = o)) as [->|Ne].
      * rewrite lookup_delete_eq. split; [done|by intros []].
      * rewrite lookup_delete_ne by done. rewrite <- Hd, elem_of_cons. naive_solver.
    + by apply map_Forall_delete.
    + do 4 (split; [done|]). split; [etrans; [done|apply delete_subseteq]|by apply suffix_cons_r].
Qed.

Lemma cache_packet_ok t e seq packet :
  cache_ok (_config t) (_cache_order t) (_rtp_cache t) -> 0 <= rtp_cache_size (_config t) ->
  cached_ok (_config t) seq (mkCached packet (now_ms e) 0 0) ->
  let t' := CacheRtpPacket t e seq packet in
  cache_ok (_config t) (_cache_order t') (_rtp_cache t') /\
  t' = set_cache t (_cache_order t') (_rtp_cache t').
Proof.
  intros (Hn & Hd & Hs & Hf) Hl Hp. unfold CacheRtpPacket.
  destruct (Z.eqb_spec (rtp_cache_size (_config t)) 0) as [|H0]; [by destruct t|].
  destruct (_ || _); [by destruct t|].
  set (order := match _rtp_cache t !! seq with None => _ | Some _ => _ end).
  set (cache := <[seq := _]> (_rtp_cache t)).
  assert (NoDup order /\ (forall s, s ∈ order <-> is_Some (cache !! s))) as [Hn' Hd'].
  { unfold order, cache. destruct (_rtp_cache t !! seq) eqn:Es.
    - split; [done|]. intros s. rewrite Hd. destruct (decide (s = seq)) as [->|].
      + rewrite Es, lookup_insert_eq. split; by eexists.
      + by rewrite lookup_insert_ne.
    - split.
      + apply NoDup_app. split; [done|]. split; [|apply NoDup_singleton]. intros s Hs1 ->%list_elem_of_singleton.
        apply Hd in Hs1 as [? Hs1]. by rewrite Es in Hs1.
      + intros s. rewrite elem_of_app, list_elem_of_singleton, Hd. destruct (decide (s = seq)) as [->|].
        * rewrite lookup_insert_eq. split; [by eexists|by right].
        * rewrite lookup_insert_ne by done. naive_solver. }
  assert (map_Forall (cached_ok (_config t)) cache) as Hf' by (by apply map_Forall_insert_2).
  pose proof (evict_ok (_config t) order cache (rtp_cache_size (_config t)) Hn' Hd' Hf' Hl) as He.
  destruct (evict order cache _) as [order' cache']. simpl. split; [|done]. split; [apply He|]. split; [apply He|]. split; apply He.
Qed.

(** A packet that was just cached is there. *)
Lemma evict_small order cache limit : Z.of_nat (size cache) <= limit -> evict order cache limit = (order, cache).
Proof. intros H. destruct order; simpl; [done|]. by rewrite (proj2 (Z.ltb_ge _ _)) by lia. Qed.

Lemma cached_lookup t e seq packet :
  cache_ok (_config t) (_cache_order t) (_rtp_cache t) -> 0 < rtp_cache_size (_config t) ->
  pool_ok e = true -> packet <> [] ->
  _rtp_cache (CacheRtpPacket t e seq packet) !! seq = Some (mkCached packet (now_ms e) 0 0).
Proof.
  intros (Hn & Hd & Hs & _) Hl Hp Hne. unfold CacheRtpPacket. rewrite (proj2 (Z.eqb_neq _ 0)) by lia. rewrite Hp.
  destruct packet as [|b packet]; [done|]. cbn [negb orb]. destruct (_rtp_cache t !! seq) eqn:Es.
  { rewrite evict_small by (rewrite map_size_insert_Some; [done|by eexists]). apply lookup_insert_eq. }
  assert (size (<[seq:=mkCached (b :: packet) (now_ms e) 0 0]> (_rtp_cache t)) = S (size (_rtp_cache t))) as Esz
    by (by apply map_size_insert_None).
  destruct (_cache_order t) as [|o order] eqn:Eo; cbn [app evict].
  - rewrite Esz, (size_order [] (_rtp_cache t)) by done. rewrite (proj2 (Z.ltb_ge _ _)) by (simpl; lia). apply lookup_insert_eq.
  - assert (is_Some (_rtp_cache t !! o)) as Ho by (apply Hd, elem_of_cons; by left).
    assert (o <> seq) by (intros ->; rewrite Es in Ho; by destruct Ho).
    destruct (_ <? _); [|apply lookup_insert_eq].
    rewrite evict_small; [simpl; rewrite lookup_delete_ne by done; apply lookup_insert_eq|].
    rewrite map_size_delete_Some by (by rewrite lookup_insert_ne). rewrite Esz. simpl. lia.
Qed.

Lemma carries_open id v0 v1 body pre post : 0 < id < 15 -> carries id v0 v1 body pre post -> ~ terminated id body.
Proof.
  intros Hid Hcar Ht. pose proof (scan_carries id v0 v1 body pre post (S (length body)) [] [] Hid Hcar ltac:(lia)) as E.
  rewrite (scan_term id body (S (length body)) [] [] Ht) in E by lia. done.
Qed.

Lemma stamped_open c al al' x y seq : stamped c al al' x y seq ->
  open_ext (transport_cc_extension_id c) (kext x) -> open_ext (transport_cc_extension_id c) (kext y).
Proof.
  intros [(_ & -> & _)|(Hid & next & body & _ & _ & -> & _ & Hp)] Ho; [done|].
  destruct Hp as [(old & Ee & Ht)|Hw]; [rewrite Ee in Ho; by destruct Ho|].
  destruct (written_carries _ _ _ _ _ Hw) as (pre & post & Hcar). by eapply carries_open.
Qed.

(** What stamping keeps. *)
Lemma stamped_same c al al' x y seq : stamped c al al' x y seq -> y = with_ext x (kext y).
Proof. intros [(_ & -> & _)|(_ & next & body & _ & _ & -> & _)]; [by rewrite with_ext_id|done]. Qed.

Lemma rewrite_seq_u m s : is_u16 (snd (RewriteSeq m s)).
Proof. unfold RewriteSeq. simpl. apply wrap_range. lia. Qed.

Lemma rewrite_ts_u m s : is_u32 (snd (RewriteTimestamp m s)).
Proof. unfold RewriteTimestamp. simpl. apply wrap_range. lia. Qed.

Lemma rebase_last m h source m' : rebase m h source = Some m' ->
  last_out_seq m' = last_out_seq m /\ last_out_timestamp m' = last_out_timestamp m /\ has_sent m' = has_sent m.
Proof. unfold rebase. destruct (rebase_pending m); [destruct (_ && _)|]; intros [= <-]; done. Qed.

Lemma rewrite_last m s ts :
  let m2 := fst (RewriteTimestamp (fst (RewriteSeq m s)) ts) in
  last_out_seq m2 = last_out_seq m /\ last_out_timestamp m2 = last_out_timestamp m /\ has_sent m2 = has_sent m.
Proof. unfold RewriteTimestamp, RewriteSeq. simpl. by repeat case_match. Qed.

(** An accepted packet [x] leaves as [y]. *)
Definition forwarded (t t' : SenderTrack) (e : Env) (x y : parts) (outs : list Out) : Prop :=
  let c := _config t in
  exists h source m seq, _seq h = kseq x /\ _timestamp h = kts x /\
    floor_check (_map t) h = Some source /\ rebase (_map t) h source = Some m /\
    let '(m1, s) := RewriteSeq m (kseq x) in
    let '(m2, ts) := RewriteTimestamp m1 (kts x) in
    stamped c (_allocator t) (_allocator t') (with_ext (renumbered c x s ts) (sent_ext c x)) y seq /\
    outs = Sent (build y) false :: NotifyPacketSent c e seq s (blen (build y)) /\
    _map t' = sent_map m2 s ts source /\ (rewrite_header_extensions c = true -> mid_usable c = true).

Definition refused (t t' : SenderTrack) (outs : list Out) : Prop :=
  outs = [] /\ _cache_order t' = _cache_order t /\ _rtp_cache t' = _rtp_cache t /\
  _packet_count t' = _packet_count t /\ _octet_count t' = _octet_count t /\
  (_allocator t' = _allocator t \/ exists n, _allocator t = Some n /\ _allocator t' = Some (n + 1)).

Lemma ext_size_build x : 0 <= ext_size (kext x) <= blen (build x).
Proof.
  unfold build. rewrite !blen_app. pose proof (blen_nonneg (head_bytes x)). pose proof (blen_nonneg (kpay x)).
  destruct (kext x) as [[[p0 p1] body]|].
  - rewrite ext_length. simpl. pose proof (blen_nonneg body). lia.
  - simpl. change (blen []) with 0. lia.
Qed.

Lemma refused_here t al m :
  track_ok t -> is_u16 (last_out_seq m) -> is_u32 (last_out_timestamp m) ->
  (al = _allocator t \/ exists n, _allocator t = Some n /\ al = Some (n + 1)) ->
  track_ok (set_allocator (set_map t m) al) /\ refused t (set_allocator (set_map t m) al) [].
Proof. intros [] H1 H2 Ha. split; [by constructor|]. by repeat (split; [done|]). Qed.

Lemma stamped_alloc c al al' x y seq : stamped c al al' x y seq ->
  al' = al \/ exists n, al = Some n /\ al' = Some (n + 1).
Proof. intros [(_ & _ & -> & _)|(_ & next & body & -> & -> & _)]; [by left|right; by exists next]. Qed.

Lemma build_nonempty x : exists b l, build x = b :: l.
Proof. destruct (build_first x) as [l ->]. by eexists _, _. Qed.

Lemma parse_returns b : bytes_ok b -> exists r, ParseRtpHeader b = Ret r.
Proof.
  intros Hb. unfold ParseRtpHeader. destruct (Z.ltb_spec (blen b) 12) as [Hs|Hl].
  { unfold InputFromBuffer, kSize. rewrite (proj2 (Z.ltb_lt _ _)) by lia. by eexists. }
  rewrite InputFromBuffer_ok by (done || lia). cbn [mbnd negb _version _extension _padding].
  destruct (negb _); [by eexists|]. unfold getHeaderSize, kSize. cbn [_csrc].
  pose proof (bget_range b 0 Hb). set (base := 12 + bget b 0 mod 16 * 4). assert (12 <= base) by (unfold base; words).
  destruct (Z.ltb_spec (blen b) base); [by eexists|].
  match goal with |- context [mbnd (if ?f then ?p else Ret true) _] => assert (exists v, (if f then p else Ret true) = Ret v) as [v ->] end.
  { destruct (_ =? 1); [|by eexists]. destruct (Z.ltb_spec (blen b) (base + 4)); [by eexists|].
    rewrite !rd_ok by lia. cbn [mbnd]. by eexists. }
  cbn [mbnd]. destruct v; cbn [negb]; [|by eexists]. destruct (_ =? 1); [|by eexists].
  rewrite rd_ok by lia. cbn [mbnd]. destruct (_ || _); by eexists.
Qed.

Lemma sent_last m s ts source :
  is_u16 s -> is_u32 ts -> is_u16 (last_out_seq m) -> is_u32 (last_out_timestamp m) ->
  is_u16 (last_out_seq (sent_map m s ts source)) /\ is_u32 (last_out_timestamp (sent_map m s ts source)).
Proof. intros. unfold sent_map. simpl. by destruct (_ || _). Qed.

Section Input.
Context (t : SenderTrack) (e : Env) (Hok : track_ok t).
Let c := _config t.

(** The end of [InputRtpPacket], once the packet was sent. *)
Lemma input_finish_ok x y0 y m2 s ts source seq al' :
  parts_ok y -> kvp y / 2 = 2 -> kseq y = s -> kssrc y = local_ssrc c -> ext_size (kext y) < 75000 ->
  (rewrite_header_extensions c = true -> open_ext (transport_cc_extension_id c) (kext y)) ->
  kpay y = kpay x -> stamped c (_allocator t) al' y0 y seq ->
  is_u16 s -> is_u32 ts -> is_u16 (last_out_seq m2) -> is_u32 (last_out_timestamp m2) ->
  let t1 := set_map (set_allocator (set_map t m2) al') (sent_map m2 s ts source) in
  let t2 := CacheRtpPacket t1 e s (build y) in
  exists t', (let! header_size := RtpPayloadOffset (build y) in
    let octets := if header_size <? blen (build y) then u64 (_octet_count t2 + (blen (build y) - header_size)) else _octet_count t2 in
    Ret (set_counts t2 (u64 (_packet_count t2 + 1)) octets, Sent (build y) false :: NotifyPacketSent c e seq s (blen (build y)), true)) =
    Ret (t', Sent (build y) false :: NotifyPacketSent c e seq s (blen (build y)), true) /\
  track_ok t' /\ _config t' = c /\ _map t' = sent_map m2 s ts source /\ _allocator t' = al' /\
  _packet_count t' = u64 (_packet_count t + 1) /\ _octet_count t' = u64 (_octet_count t + blen (kpay x)) /\
  (0 < rtp_cache_size c -> pool_ok e = true -> _rtp_cache t' !! s = Some (mkCached (build y) (now_ms e) 0 0)).
Proof.
  intros Hy Hv Hs Hss Hl Ho Hp Hst Us Ut Ul Ult t1 t2. destruct Hok as [T1 T2 T3 T4 T5].
  assert (cached_ok c s (mkCached (build y) (now_ms e) 0 0)) as Hcd.
  { split; [exists y; by repeat (split; [done|])|]. simpl. lia. }
  destruct (cache_packet_ok t1 e s (build y) T3 (proj1 T2) Hcd) as [Hc2 Et2]. fold t2 in Hc2, Et2.
  rewrite offset_parts by done. cbn [mbnd].
  pose proof (blen_nonneg (kpay y)).
  assert ((if blen (build y) - blen (kpay y) <? blen (build y)
    then u64 (_octet_count t2 + (blen (build y) - (blen (build y) - blen (kpay y)))) else _octet_count t2) =
    u64 (_octet_count t + blen (kpay x))) as ->.
  { rewrite Et2. simpl. rewrite Hp in *. destruct (Z.ltb_spec (blen (build y) - blen (kpay x)) (blen (build y))).
    - f_equal. lia.
    - replace (blen (kpay x)) with 0 by lia. rewrite Z.add_0_r. symmetry. apply wrap_small, T5. }
  eexists. split; [done|].
  assert (_packet_count t2 = _packet_count t) as -> by (by rewrite Et2).
  assert (_config t2 = c /\ _map t2 = sent_map m2 s ts source /\ _allocator t2 = al') as (E1 & E2 & E3) by (by rewrite Et2).
  split; [|do 5 (split; [done|]); intros; apply cached_lookup; [done..|];
    by destruct (build_nonempty y) as (b & l & ->)].
  constructor; simpl; rewrite ?E1, ?E2; [done|done|done|by apply sent_last|]. split; apply wrap_range; lia.
Qed.

(** How a call of [InputRtpPacket] ends. *)
Definition input_result (data : list Z) (t' : SenderTrack) (outs : list Out) (ok : bool) : Prop :=
  track_ok t' /\ _config t' = c /\
  if ok then exists x y, build x = data /\ parts_ok x /\ kvp x / 2 = 2 /\ parts_ok y /\ forwarded t t' e x y outs /\
    _packet_count t' = u64 (_packet_count t + 1) /\ _octet_count t' = u64 (_octet_count t + blen (kpay x)) /\
    (0 < rtp_cache_size c -> pool_ok e = true -> _rtp_cache t' !! kseq y = Some (mkCached (build y) (now_ms e) 0 0))
  else refused t t' outs.

Lemma input_cases data : bytes_ok data -> blen data <= 65535 ->
  exists t' outs ok, InputRtpPacket t e data = Ret (t', outs, ok) /\ input_result data t' outs ok.
Proof.
  intros Hd Hl. unfold InputRtpPacket. fold c. destruct (parse_returns data Hd) as [r Er]. rewrite Er. cbn [mbnd].
  assert (forall d, input_result d t [] false) as Hstop
    by (split; [done|]; repeat (split; [done|]); by left).
  destruct r as [h|]; [|by eexists _, _, false].
  destruct (parse_parts data h Hd Er) as (x & Hx & <- & Hv & Es & Et & Ep).
  destruct (transport_ready e); cbn [negb]; [|by eexists _, _, false].
  destruct (floor_check (_map t) h) as [source|] eqn:Ef; [|by eexists _, _, false].
  destruct (rebase (_map t) h source) as [m|] eqn:Em; [|by eexists _, _, false].
  pose proof (tok_config t Hok) as Hc. fold c in Hc.
  pose proof (rewrite_parts c m x h Hc Hx Ep) as Hrw. rewrite Es, Et in Hrw.
  pose proof (rewrite_seq_u m (kseq x)) as Us. pose proof (rewrite_last m (kseq x) (kts x)) as Hlast.
  pose proof (rewrite_ts_u (fst (RewriteSeq m (kseq x))) (kts x)) as Ut.
  destruct (RewriteSeq m (kseq x)) as [m1 s] eqn:E1. cbn [fst snd] in *.
  destruct (RewriteTimestamp m1 (kts x)) as [m2 ts] eqn:E2. cbn [fst snd] in *. rewrite Hrw. cbn [mbnd].
  destruct (rebase_last _ _ _ _ Em) as (L1 & L2 & _). rewrite L1, L2 in Hlast. destruct Hlast as (M1 & M2 & _).
  destruct (tok_last t Hok) as [B1 B2]. rewrite <- M1 in B1. rewrite <- M2 in B2.
  pose proof (renumbered_ok c x s ts Hc Hx Us Ut) as Hx1. pose proof (ext_size_build x) as Hsz.
  assert (forall al, (al = _allocator t \/ exists n, _allocator t = Some n /\ al = Some (n + 1)) ->
    exists t' outs ok, Ret (set_allocator (set_map t m2) al, [], false) = Ret (t', outs, ok) /\
    input_result (build x) t' outs ok) as Href.
  { intros al Ha. destruct (refused_here t al m2 Hok B1 B2 Ha) as [H1 H2]. by eexists _, _, false. }
  destruct (maybe_parts c (renumbered c x s ts) Hc Hx1 ltac:(simpl; lia)) as [->|(-> & He & Hes & Hu)]; cbn [mbnd].
  { destruct (Href (_allocator t) (or_introl eq_refl)) as (t' & outs & ok & E & H).
    assert (set_map t m2 = set_allocator (set_map t m2) (_allocator t)) as -> by done. by eexists _, _, _. }
  set (y0 := with_ext (renumbered c x s ts) (sent_ext c (renumbered c x s ts))).
  destruct (prepare_stamped c (_allocator t) y0 Hc (with_ext_ok _ _ Hx1 He) ltac:(simpl; lia)) as (al' & r & Epr & Hr).
  cbn [_allocator set_map]. rewrite Epr. cbn [mbnd]. destruct r as [[p seq]|].
  2: { subst al'. apply Href. by left. }
  destruct Hr as (y & -> & Hy & Hys & Hst).
  destruct (SendRtpPacket e 0 (build y)); cbn [negb].
  2: { apply Href. by apply stamped_alloc in Hst. }
  pose proof (stamped_same _ _ _ _ _ _ Hst) as Ey.
  destruct (input_finish_ok x y0 y m2 s ts source seq al') as (t' & E & T' & C' & Em' & Ea' & P' & O' & K'); try done;
    try (rewrite Ey; done).
  { simpl in Hys. lia. }
  { intros Hrw2. apply (stamped_open _ _ _ _ _ _ Hst). unfold y0, sent_ext. cbn [kext with_ext]. rewrite Hrw2. apply mid_open; auto. }
  exists t'. eexists _, true. split; [exact E|]. split; [done|]. split; [done|].
  exists x, y. do 4 (split; [done|]). split; [|do 2 (split; [done|]); by (replace (kseq y) with s by (by rewrite Ey))].
  exists h, source, m, seq. do 4 (split; [done|]). rewrite E1, E2, Ea'. by repeat (split; [done|]).
Qed.

End Input.

(** ** Padding *)

Definition pad_parts (c : SenderConfig) (seq ts n : Z) : parts :=
  mkParts 5 (payload_type c) seq ts (local_ssrc c) [] None (repeat 0 (Z.to_nat (n - 1)) ++ [n]).

Lemma bytes_zeros n : bytes_ok (repeat 0 n).
Proof. induction n; simpl; [apply Forall_nil_2|]. apply Forall_cons_2; [unfold is_u; pow2; lia|done]. Qed.

Lemma pad_parts_ok c seq ts n : sender_ok c -> is_u16 seq -> is_u32 ts -> 1 <= n <= 255 -> parts_ok (pad_parts c seq ts n).
Proof.
  intros (Hss & Hpt & _) Hs Ht Hn. unfold parts_ok, pad_parts. cbn [kvp k1 kseq kts kssrc kcsrc kext kpay].
  split; [lia|]. do 4 (split; [done|]). split; [apply Forall_nil_2|]. do 3 (split; [done|]).
  apply bytes_ok_app; [apply bytes_zeros|]. apply Forall_cons_2; [unfold is_u; pow2; lia|apply Forall_nil_2].
Qed.

Lemma padding_build c seq ts n : 1 <= n <= 255 -> padding_packet c seq ts n = Ret (build (pad_parts c seq ts n)).
Proof.
  intros Hn. unfold padding_packet.
  replace (Z.to_nat (12 + n)) with (12 + (Z.to_nat (n - 1) + 1))%nat by lia.
  rewrite repeat_app, repeat_app. set (z := repeat 0 (Z.to_nat (n - 1))).
  assert (blen z = n - 1) as Lz by (unfold z, blen; rewrite repeat_length; lia).
  cbn [repeat app]. unfold WriteUint16, WriteUint32.
  rewrite wr_0. cbn [mbnd]. set (r := z ++ [0]). 
  do 11 (rewrite wr_ok by len12; cbn [mbnd]; simpl insert). unfold r.
  match goal with |- wr ?b ?i _ = _ => change b with (take 12 b ++ z ++ [0]) end.
  cbn [take]. rewrite app_assoc, wr_app by (rewrite blen_app, Lz; match goal with |- _ = ?k + _ => change k with 12 end; lia).
  rewrite (wrap_small 8) by (unfold is_u; pow2; lia). done.
Qed.

(** A padding packet left. *)
Definition padded (t t' : SenderTrack) (e : Env) (n : Z) (y : parts) (outs : list Out) : Prop :=
  let c := _config t in
  let s := if has_sent (_map t) then u16 (last_out_seq (_map t) + 1) else 0 in
  exists seq, stamped c (_allocator t) (_allocator t')
      (with_ext (pad_parts c s (last_out_timestamp (_map t)) n)
        (sent_ext c (pad_parts c s (last_out_timestamp (_map t)) n))) y seq /\
    outs = Sent (build y) false :: NotifyPacketSent c e seq s (blen (build y)) /\
    _map t' = padded_map (_map t) s.

Lemma padding_cases t e n : track_ok t -> 0 <= n ->
  exists t' outs ok, SendPadding t e n = Ret (t', outs, ok) /\ track_ok t' /\ _config t' = _config t /\
  if ok then exists y, 1 <= n <= 255 /\ 0 < transport_cc_extension_id (_config t) /\ parts_ok y /\ padded t t' e n y outs /\
    _cache_order t' = _cache_order t /\ _rtp_cache t' = _rtp_cache t
  else refused t t' outs /\ _map t' = _map t.
Proof.
  intros Hok Hn0. unfold SendPadding. set (c := _config t). pose proof (tok_config t Hok) as Hc. fold c in Hc.
  assert (forall al, (al = _allocator t \/ exists k, _allocator t = Some k /\ al = Some (k + 1)) ->
    track_ok (set_allocator t al) /\ refused t (set_allocator t al) []) as Href.
  { intros al Ha. destruct (tok_last t Hok). pose proof (refused_here t al (_map t) Hok) as H'. by destruct t; apply H'. }
  assert (track_ok t /\ refused t t []) as Hstop by (split; [done|]; repeat (split; [done|]); by left).
  destruct (Z.eqb_spec (transport_cc_extension_id c) 0) as [E0|N0]; cbn [orb]; [by eexists _, _, false; split; [done|]; destruct Hstop|].
  destruct (Z.eqb_spec n 0) as [En|Nn]; cbn [orb]; [by eexists _, _, false; split; [done|]; destruct Hstop|].
  destruct (Z.ltb_spec 255 n); [by eexists _, _, false; split; [done|]; destruct Hstop|].
  set (s := if has_sent (_map t) then _ else 0). set (ts := last_out_timestamp (_map t)).
  assert (is_u16 s) as Us by (unfold s; destruct (has_sent _); [apply wrap_range; lia|unfold is_u; pow2; lia]).
  destruct (tok_last t Hok) as [B1 B2].
  rewrite padding_build by lia. cbn [mbnd]. pose proof (pad_parts_ok c s ts n Hc Us B2 ltac:(lia)) as Hx.
  destruct (maybe_parts c _ Hc Hx ltac:(simpl; lia)) as [->|(-> & He & Hes & Hu)]; cbn [mbnd];
    [by eexists _, _, false; split; [done|]; destruct Hstop|].
  set (y0 := with_ext (pad_parts c s ts n) (sent_ext c (pad_parts c s ts n))).
  destruct (prepare_stamped c (_allocator t) y0 Hc (with_ext_ok _ _ Hx He) ltac:(simpl; lia)) as (al' & r & -> & Hr). cbn [mbnd].
  destruct r as [[p seq]|].
  2: { subst al'. destruct (Href (_allocator t) ltac:(by left)). by eexists _, _, false. }
  destruct Hr as (y & -> & Hy & Hys & Hst). destruct (SendRtpPacket e 0 (build y)); cbn [negb].
  2: { destruct (Href al' (stamped_alloc _ _ _ _ _ _ Hst)). by eexists _, _, false. }
  eexists _, _, true. split; [done|]. pose proof Hok as [T1 T2 T3 T4 T5]. split; [|split; [done|]].
  - constructor; simpl; try done. split; [apply wrap_range; lia|apply T5].
  - exists y. split; [lia|]. pose proof Hc as (_ & _ & ? & _). split; [fold c; lia|]. split; [done|]. split; [|done]. exists seq. done.
Qed.

(** ** Retransmission *)

(** The sequence number in the header of a packet. *)
Definition header_seq (p : list Z) : Z := bget p 2 * 256 + bget p 3.

Lemma header_seq_build x : is_u16 (kseq x) -> header_seq (build x) = kseq x.
Proof. intros H. unfold header_seq. by apply (be16_value (kseq x)). Qed.

(** How often [seq] was sent again. *)
Fixpoint resent (seq : Z) (outs : list Out) : Z :=
  match outs with
  | [] => 0
  | Sent p true :: outs => (if header_seq p =? seq then 1 else 0) + resent seq outs
  | _ :: outs => resent seq outs
  end.

Lemma resent_app seq a b : resent seq (a ++ b) = resent seq a + resent seq b.
Proof. induction a as [|[p []| |] a IH]; simpl; rewrite ?IH; lia. Qed.

Lemma resent_notify seq c e q s n : resent seq (NotifyPacketSent c e q s n) = 0.
Proof. unfold NotifyPacketSent. by repeat case_match. Qed.

(** A packet of the outputs is a cached one with a new transport sequence number. *)
Definition resends (t : SenderTrack) (o : Out) : Prop :=
  match o with
  | Sent p r => r = true /\ exists seq cached y y' al al' q, _rtp_cache t !! seq = Some cached /\
      cpacket cached = build y /\ p = build y' /\ parts_ok y' /\ kvp y / 2 = 2 /\ kseq y = seq /\
      stamped (_config t) al al' y y' q
  | Notified _ _ seq _ _ => is_Some (_rtp_cache t !! seq)
  | KeyFrameRequested => False
  end.

Lemma may_retransmit_spec c now p : may_retransmit c now p = true <->
  first_send_ms p <= now /\
  (max_retransmit_age_ms c = 0 \/ now - first_send_ms p < max_retransmit_age_ms c) /\
  (max_retransmit_count c <= 0 \/ retransmit_count p < max_retransmit_count c) /\
  (retransmit_count p = 0 \/ now < last_retransmit_ms p \/ min_retransmit_interval_ms c <= now - last_retransmit_ms p).
Proof.
  unfold may_retransmit. rewrite !andb_true_iff, !negb_true_iff, orb_false_iff, !andb_false_iff, !negb_false_iff.
  rewrite !Z.ltb_ge, Z.leb_gt, !Z.eqb_eq, Z.leb_gt. 
  split; intros; intuition lia.
Qed.
