(* ===== verification/SenderProps.v ===== *)
(** * Properties of RTP sender tracks

    What a forwarded or retransmitted packet looks like to its receiver, how often a packet
    is sent again, that transport-wide sequence numbers are never used twice, and that the
    downstream sequence numbers of an ordered stream have no gaps of their own.  [run_ops]
    runs any sequence of calls on a track. *)
From S2P Require Import Prelude Bytes RtpWire SenderTrack SenderLayout SenderTwcc SenderInvariant.

(** ** Transport sequence numbers of the outputs *)

(** The numbers notified go up from [lo] and stay below [hi]; the wire carries their low
    16 bits. *)
Fixpoint numbered (lo hi : Z) (outs : list Out) : Prop :=
  match outs with
  | [] => lo <= hi
  | Notified q w _ _ _ :: outs => lo <= q /\ w = u16 (u64 q) /\ numbered (q + 1) hi outs
  | _ :: outs => numbered lo hi outs
  end.

Definition alloc_value (al : option Z) : Z := match al with Some n => n | None => 0 end.

Definition alloc_step (al al' : option Z) : Prop := al' = al \/ exists n, al = Some n /\ al' = Some (n + 1).

Lemma numbered_le lo hi outs : numbered lo hi outs -> lo <= hi.
Proof. revert lo. induction outs as [|[| |] outs IH]; intros lo; simpl; auto. intros (H1 & _ & H2%IH). lia. Qed.

Lemma numbered_weaken lo lo' hi outs : lo' <= lo -> numbered lo hi outs -> numbered lo' hi outs.
Proof.
  revert lo lo'. induction outs as [|[| |] outs IH]; intros lo lo' Hl; simpl; [lia|by apply IH| |by apply IH].
  intros (H1 & H2 & H3). split; [lia|done].
Qed.

Lemma numbered_app lo mid hi a b : numbered lo mid a -> numbered mid hi b -> numbered lo hi (a ++ b).
Proof.
  revert lo. induction a as [|[| |] a IH]; intros lo; simpl; [by apply numbered_weaken|by apply IH| |by apply IH].
  intros (H1 & H2 & H3) Hb. auto.
Qed.

Lemma alloc_step_numbered al al' : alloc_step al al' -> numbered (alloc_value al) (alloc_value al') [].
Proof. intros [->|(n & -> & ->)]; simpl; lia. Qed.

Lemma stamped_numbered c al al' e x y q p r s n : stamped c al al' x y q ->
  numbered (alloc_value al) (alloc_value al') (Sent p r :: NotifyPacketSent c e q s n).
Proof.
  unfold NotifyPacketSent. intros [(-> & _ & -> & ->)|(Hid & next & body & -> & -> & _ & -> & _)]; simpl; [lia|].
  rewrite (proj2 (Z.eqb_neq _ 0)) by lia. case_match; simpl; [|lia]. split; [lia|]. split; [done|lia].
Qed.

(** What a NACK does to a cached packet that it sends [k] more times. *)
Definition nacked (c : SenderConfig) (now : Z) (p p' : CachedRtpPacket) (k : Z) : Prop :=
  (k = 0 /\ p' = p) \/
  (0 < k /\ may_retransmit c now p = true /\ cpacket p' = cpacket p /\ first_send_ms p' = first_send_ms p /\
   last_retransmit_ms p' = now /\ 0 <= retransmit_count p /\ retransmit_count p' = retransmit_count p + k /\
   (0 < min_retransmit_interval_ms c -> k = 1)).

Lemma nacked_trans c now p p' p'' k l : nacked c now p p' k -> nacked c now p' p'' l -> nacked c now p p'' (k + l).
Proof.
  intros [[-> ->]|(H0 & H1 & H2 & H3 & H4 & H5 & H6 & H7)] [[-> ->]|(G0 & G1 & G2 & G3 & G4 & G5 & G6 & G7)].
  - by left.
  - right. rewrite Z.add_0_l. by repeat (split; [done|]).
  - right. rewrite Z.add_0_r. by repeat (split; [done|]).
  - right. split; [lia|]. split; [done|]. split; [congruence|]. split; [congruence|]. split; [done|]. split; [done|].
    split; [lia|]. intros Hm. apply may_retransmit_spec in G1. lia.
Qed.

(** The state and the outputs after some of a NACK. *)
Definition nack_state (t t' : SenderTrack) (now : Z) (lost : list Z) (outs : list Out) : Prop :=
  track_ok t' /\ _config t' = _config t /\ _map t' = _map t /\ _cache_order t' = _cache_order t /\
  Forall (resends t) outs /\ numbered (alloc_value (_allocator t)) (alloc_value (_allocator t')) outs /\
  forall s, match _rtp_cache t !! s with
            | None => _rtp_cache t' !! s = None /\ resent s outs = 0
            | Some p => exists p', _rtp_cache t' !! s = Some p' /\ nacked (_config t) now p p' (resent s outs) /\
                          (s ∉ lost -> resent s outs = 0)
            end.

Lemma nack_state_id t now lost al : track_ok t -> alloc_step (_allocator t) al -> nack_state t (set_allocator t al) now lost [].
Proof.
  intros [] Ha. split; [by constructor|]. do 3 (split; [done|]). split; [apply Forall_nil_2|].
  split; [by apply alloc_step_numbered|]. intros s. simpl.
  destruct (_rtp_cache t !! s) as [p|]; [|done]. exists p. split; [done|]. split; [by left|done].
Qed.

Lemma retransmit_state t e i seq : track_ok t -> 0 < max_retransmit_count (_config t) ->
  exists t' outs, retransmit t e i seq = Ret (t', outs) /\ nack_state t t' (now_ms e) [seq] outs.
Proof.
  intros Hok Hmax. unfold retransmit. set (c := _config t).
  assert (forall al, alloc_step (_allocator t) al -> nack_state t (set_allocator t al) (now_ms e) [seq] []) as Hid
    by (intros; by apply nack_state_id).
  assert (nack_state t t (now_ms e) [seq] []) as Hid' by (specialize (Hid (_allocator t) (or_introl eq_refl)); by destruct t).
  destruct (_rtp_cache t !! seq) as [p|] eqn:Ep; [|by eexists _, _].
  destruct (may_retransmit c (now_ms e) p) eqn:Em; cbn [negb]; [|by eexists _, _].
  pose proof Hok as [T1 T2 (N1 & N2 & N3 & N4) T4 T5]. destruct (N4 seq p Ep) as ((y & Hy & Hv & Ecp & Eseq & Ess & Hsz & Hop) & Hr0 & Hrm).
  rewrite Ecp. destruct (prepare_stamped c (_allocator t) y T1 Hy ltac:(lia)) as (al' & r & -> & Hr). cbn [mbnd].
  destruct r as [[pkt q]|]; [|subst al'; eexists _, _; split; [done|]; by apply Hid; left]. destruct Hr as (y' & -> & Hy' & Hys & Hst).
  destruct (SendRtpPacket e i (build y')); cbn [negb];
    [|eexists _, _; split; [done|]; by eapply Hid, stamped_alloc].
  pose proof (proj1 (may_retransmit_spec _ _ _) Em) as (F1 & F2 & F3 & F4). fold c in Hmax, T2.
  rewrite (wrap_small 32) by (unfold is_u; lia).
  eexists _, _. split; [done|]. set (p' := mkCached _ _ _ _).
  assert (cached_ok c seq p') as Hp'.
  { split; [exists y; by repeat (split; [done|])|]. simpl. lia. }
  assert (header_seq (build y') = seq) as Hseq.
  { rewrite header_seq_build by (rewrite (stamped_same _ _ _ _ _ _ Hst); simpl; apply Hy).
    by rewrite (stamped_same _ _ _ _ _ _ Hst). }
  split; [|do 3 (split; [done|])].
  - constructor; simpl; try done. split; [done|]. split; [|split].
    + intros s. rewrite N2. destruct (decide (s = seq)) as [->|]; [|by rewrite lookup_insert_ne].
      rewrite lookup_insert_eq, Ep. split; by eexists.
    + rewrite map_size_insert_Some; [done|]. by eexists.
    + by apply map_Forall_insert_2.
  - split.
    + apply Forall_cons_2; [split; [done|]; by exists seq, p, y, y', (_allocator t), al', q|].
      unfold NotifyPacketSent. repeat case_match; try apply Forall_nil_2.
      apply Forall_cons_2; [by exists p|apply Forall_nil_2].
    + split; [by eapply stamped_numbered|]. intros s. cbn [resent set_cache set_allocator _rtp_cache]. rewrite resent_notify, Hseq. destruct (decide (s = seq)) as [->|Ne].
      * rewrite Ep, lookup_insert_eq, Z.eqb_refl. exists p'. split; [done|]. split; [|by rewrite list_elem_of_singleton].
        right. simpl. by rewrite Ecp.
      * rewrite lookup_insert_ne by done. rewrite (proj2 (Z.eqb_neq seq s)) by done.
        destruct (_rtp_cache t !! s) as [ps|]; [|done]. exists ps. split; [done|]. split; [by left|done].
Qed.

Lemma resends_back t t' now lost outs0 o : nack_state t t' now lost outs0 -> resends t' o -> resends t o.
Proof.
  intros (_ & Ec & _ & _ & _ & _ & Hs) Ho. destruct o as [p r|q w seq tm sz|]; simpl in *; [|..|done].
  - destruct Ho as (-> & seq & p' & y & y' & al & al' & q & Ep & Ecp & H). split; [done|].
    specialize (Hs seq). destruct (_rtp_cache t !! seq) as [p0|] eqn:E0; [|destruct Hs as [Hs _]; congruence].
    destruct Hs as (p1 & E1 & Hn & _). rewrite Ep in E1. injection E1 as <-.
    exists seq, p0, y, y', al, al', q. rewrite <- Ec. split; [done|]. split; [|done].
    destruct Hn as [[_ ->]|(_ & _ & En & _)]; congruence.
  - specialize (Hs seq). destruct (_rtp_cache t !! seq); [by eexists|]. destruct Hs as [Hs _]. rewrite Hs in Ho. by destruct Ho.
Qed.

Lemma nack_loop_state t e i lost : track_ok t -> 0 < max_retransmit_count (_config t) ->
  exists t' outs, nack_loop t e i lost = Ret (t', outs) /\ nack_state t t' (now_ms e) lost outs.
Proof.
  revert t i. induction lost as [|seq lost IH]; intros t i Hok Hmax; simpl.
  { eexists _, _. split; [done|]. pose proof (nack_state_id t (now_ms e) [] (_allocator t) Hok (or_introl eq_refl)). by destruct t. }
  destruct (retransmit_state t e i seq Hok Hmax) as (t1 & o1 & -> & H1). cbn [mbnd].
  pose proof H1 as (K1 & C1 & M1 & O1 & R1 & A1 & S1).
  destruct (IH t1 (i + 1) K1 ltac:(by rewrite C1)) as (t2 & o2 & -> & (K2 & C2 & M2 & O2 & R2 & A2 & S2)). cbn [mbnd].
  eexists _, _. split; [done|]. split; [done|]. do 3 (split; [congruence|]). split.
  { apply Forall_app. split; [done|]. eapply Forall_impl; [exact R2|]. intros o. by eapply resends_back. }
  split; [by eapply numbered_app|].
  intros s. specialize (S1 s). specialize (S2 s). rewrite resent_app. destruct (_rtp_cache t !! s) as [p|].
  - destruct S1 as (p1 & E1 & N1 & Z1). rewrite E1 in S2. destruct S2 as (p2 & E2 & N2 & Z2). rewrite C1 in N2.
    exists p2. split; [done|]. split; [by eapply nacked_trans|]. intros Hs. apply not_elem_of_cons in Hs as [? ?].
    rewrite Z1, Z2; [done|done|]. by rewrite list_elem_of_singleton.
  - destruct S1 as [E1 Z1]. rewrite E1 in S2. destruct S2 as [E2 Z2]. split; [done|lia].
Qed.

(** ** Runs *)

(** The calls on a track; [DoOther k]: other tracks of the transport allocate [k] numbers. *)
Inductive SenderOp : Type :=
| DoInput (e : Env) (data : list Z)
| DoPadding (e : Env) (n : Z)
| DoNack (e : Env) (lost : list Z)
| DoDiscontinuity
| DoReport (arrival reporter media fraction cumulative highest jitter lsr dlsr : Z)
| DoPli (e : Env)
| DoFir (e : Env)
| DoTick (now : Z)
| DoCallback (set : bool)
| DoOther (k : Z).

(** The state, the outputs and whether the packet was accepted. *)
Definition apply_op (t : SenderTrack) (op : SenderOp) : mres (SenderTrack * list Out * bool) :=
  match op with
  | DoInput e data => InputRtpPacket t e data
  | DoPadding e n => SendPadding t e n
  | DoNack e lost => let! '(t, outs) := OnRtcpNack t e lost in Ret (t, outs, true)
  | DoDiscontinuity => Ret (BeginDiscontinuity t, [], true)
  | DoReport a r m f cu h j l d => Ret (OnRtcpReceiverReport t a r m f cu h j l d, [], true)
  | DoPli e => let '(t, outs) := OnRtcpPli t e in Ret (t, outs, true)
  | DoFir e => let '(t, outs) := OnRtcpFir t e in Ret (t, outs, true)
  | DoTick now => Ret (Tick t now, [], true)
  | DoCallback set => Ret (SetKeyFrameRequestCallback t set, [], true)
  | DoOther k => Ret (set_allocator t (match _allocator t with Some n => Some (n + k) | None => None end), [], true)
  end.

Fixpoint run_ops (t : SenderTrack) (ops : list SenderOp) : mres (SenderTrack * list Out) :=
  match ops with
  | [] => Ret (t, [])
  | op :: ops =>
    let! '(t, outs, _) := apply_op t op in
    let! '(t, outs') := run_ops t ops in
    Ret (t, outs ++ outs')
  end.

Definition op_ok (op : SenderOp) : Prop :=
  match op with
  | DoInput _ data => bytes_ok data /\ blen data <= 65535
  | DoPadding _ n => 0 <= n
  | DoOther k => 0 <= k
  | _ => True
  end.

Lemma pli_outs t e : let '(t', outs) := OnRtcpPli t e in
  (track_ok t -> track_ok t') /\ _config t' = _config t /\ _allocator t' = _allocator t /\ _map t' = _map t /\
  Forall (fun o => o = KeyFrameRequested) outs.
Proof.
  unfold OnRtcpPli. destruct (_ && _); [by repeat (split; [done|])|].
  split; [by intros []; constructor|]. do 3 (split; [done|]).
  destruct (_keyframe_cb t); [by apply Forall_singleton|by apply Forall_nil].
Qed.

Lemma key_numbered n outs : Forall (fun o => o = KeyFrameRequested) outs -> numbered n n outs.
Proof. induction 1 as [|o outs -> H IH]; [simpl; lia|done]. Qed.

(** Every call returns, keeps the invariant, and numbers its packets. *)
Lemma apply_ok t op : track_ok t -> op_ok op ->
  exists t' outs ok, apply_op t op = Ret (t', outs, ok) /\ track_ok t' /\ _config t' = _config t /\
  numbered (alloc_value (_allocator t)) (alloc_value (_allocator t')) outs.
Proof.
  intros Hok Hop. pose proof Hok as [T1 T2 T3 T4 T5].
  destruct op as [e data|e n|e lost| |a r m f cu h j l d|e|e|now|b|k]; cbn [apply_op op_ok] in *.
  - destruct (input_cases t e Hok data) as (t' & outs & ok & -> & H1 & H2 & H3); [apply Hop..|].
    exists t', outs, ok. do 3 (split; [done|]). destruct ok.
    + destruct H3 as (x & y & _ & _ & _ & _ & (hd & source & m & q & _ & _ & _ & _ & Hf) & _).
      destruct (RewriteSeq m _) as [m1 s]. destruct (RewriteTimestamp m1 _) as [m2 ts]. destruct Hf as (Hst & -> & _).
      by eapply stamped_numbered.
    + destruct H3 as (-> & _ & _ & _ & _ & Ha). by apply alloc_step_numbered.
  - destruct (padding_cases t e n Hok Hop) as (t' & outs & ok & -> & H1 & H2 & H3).
    exists t', outs, ok. do 3 (split; [done|]). destruct ok.
    + destruct H3 as (y & _ & _ & _ & (q & Hst & -> & _) & _). by eapply stamped_numbered.
    + destruct H3 as [(-> & _ & _ & _ & _ & Ha) _]. by apply alloc_step_numbered.
  - unfold OnRtcpNack. destruct (transport_ready e); cbn [negb].
    + destruct (nack_loop_state t e 0 lost Hok) as (t' & outs & -> & H1 & H2 & _ & _ & _ & H3 & _); [lia|].
      by exists t', outs, true.
    + exists t, [], true. do 3 (split; [done|]). simpl. lia.
  - eexists _, _, true. split; [done|]. split; [|split; [done|simpl; lia]].
    constructor; simpl; try done. apply cache_empty, T2.
  - eexists _, _, true. split; [done|]. split; [by constructor|]. split; [done|]. simpl. lia.
  - pose proof (pli_outs t e) as Hp. destruct (OnRtcpPli t e) as [t' outs]. destruct Hp as (H1 & H2 & H3 & _ & H4).
    eexists _, _, true. split; [done|]. split; [auto|]. split; [done|]. rewrite H3. by apply key_numbered.
  - unfold OnRtcpFir. pose proof (pli_outs t e) as Hp. destruct (OnRtcpPli t e) as [t' outs]. destruct Hp as (H1 & H2 & H3 & _ & H4).
    eexists _, _, true. split; [done|]. split; [auto|]. split; [done|]. rewrite H3. by apply key_numbered.
  - eexists _, _, true. split; [done|]. split; [by constructor|]. split; [done|]. simpl. lia.
  - eexists _, _, true. split; [done|]. split; [by constructor|]. split; [done|]. simpl. lia.
  - eexists _, _, true. split; [done|]. split; [by constructor|]. split; [done|]. simpl. destruct (_allocator t); simpl; lia.
Qed.

Lemma sender_run_ok t ops : track_ok t -> Forall op_ok ops ->
  exists t' outs, run_ops t ops = Ret (t', outs) /\ track_ok t' /\ _config t' = _config t /\
  numbered (alloc_value (_allocator t)) (alloc_value (_allocator t')) outs.
Proof.
  revert t. induction ops as [|op ops IH]; intros t Hok Hops; cbn [run_ops].
  { eexists _, _. do 3 (split; [done|]). simpl. lia. }
  apply Forall_cons_1 in Hops as [Hop Hops].
  destruct (apply_ok t op Hok Hop) as (t1 & o1 & ok & -> & H1 & C1 & N1). cbn [mbnd].
  destruct (IH t1 H1 Hops) as (t2 & o2 & -> & H2 & C2 & N2). cbn [mbnd].
  eexists _, _. split; [done|]. split; [done|]. split; [congruence|]. by eapply numbered_app.
Qed.

(** ** Sequence numbers of an ordered stream *)

(** The sequence numbers of first transmissions. *)
Fixpoint sent_seqs (outs : list Out) : list Z :=
  match outs with
  | [] => []
  | Sent p false :: outs => header_seq p :: sent_seqs outs
  | _ :: outs => sent_seqs outs
  end.

Lemma sent_seqs_app a b : sent_seqs (a ++ b) = sent_seqs a ++ sent_seqs b.
Proof. induction a as [|[p []| |] a IH]; simpl; rewrite ?IH; done. Qed.

Lemma sent_seqs_notify c e q s n : sent_seqs (NotifyPacketSent c e q s n) = [].
Proof. unfold NotifyPacketSent. by repeat case_match. Qed.

Lemma sent_seqs_resends t outs : Forall (resends t) outs -> sent_seqs outs = [].
Proof. induction 1 as [|[p []| |] outs H Hs IH]; simpl in *; try done. by destruct H. Qed.

Lemma sent_seqs_key outs : Forall (fun o => o = KeyFrameRequested) outs -> sent_seqs outs = [].
Proof. by induction 1 as [|o outs -> H IH]. Qed.

(** Each number is one more than the one before. *)
Fixpoint consecutive (prev : option Z) (l : list Z) : Prop :=
  match l with
  | [] => True
  | s :: l => match prev with Some p => s = u16 (p + 1) | None => True end /\ consecutive (Some s) l
  end.

Definition last_seq (prev : option Z) (l : list Z) : option Z := match last l with Some s => Some s | None => prev end.

Lemma consecutive_app prev a b : consecutive prev a -> consecutive (last_seq prev a) b -> consecutive prev (a ++ b).
Proof.
  revert prev. induction a as [|s a IH]; intros prev; simpl; [done|]. intros [H1 H2] Hb. split; [done|].
  apply IH; [done|]. unfold last_seq in *. destruct a as [|s' a]; [done|]. 
  change (last (s :: s' :: a)) with (last (s' :: a)) in Hb. by destruct (last (s' :: a)) eqn:E; [|rewrite last_None in E].
Qed.

(** The inputs are accepted and, between discontinuities, in order; [prev] is the source
    number before. *)
Fixpoint ordered (t : SenderTrack) (prev : option Z) (ops : list SenderOp) : Prop :=
  match ops with
  | [] => True
  | op :: ops => exists t' outs ok, apply_op t op = Ret (t', outs, ok) /\
    match op with
    | DoInput _ data => ok = true /\ match prev with Some s => header_seq data = u16 (s + 1) | None => True end /\
        ordered t' (Some (header_seq data)) ops
    | DoDiscontinuity => ordered t' None ops
    | _ => ordered t' prev ops
    end
  end.

Definition in_step (m : Mapping) (prev : option Z) : Prop :=
  match prev with
  | None => rebase_pending m = true \/ started m = false
  | Some s => started m = true /\ has_sent m = true /\ rebase_pending m = false /\
      last_out_seq m = u16 (base_out_seq m + (s - base_in_seq m))
  end.

Definition out_seq (m : Mapping) : option Z := if has_sent m then Some (last_out_seq m) else None.

(** The numbers a packet gets when the track is in step. *)
Lemma in_step_seq m h source m0 prev :
  in_step m prev -> is_u16 (last_out_seq m) -> is_u16 (_seq h) ->
  match prev with Some s => _seq h = u16 (s + 1) | None => True end ->
  rebase m h source = Some m0 ->
  let '(m1, s) := RewriteSeq m0 (_seq h) in
  match out_seq m with Some p => s = u16 (p + 1) | None => True end /\
  s = u16 (base_out_seq m1 + (_seq h - base_in_seq m1)) /\
  last_out_seq m1 = last_out_seq m /\ has_sent m1 = has_sent m.
Proof.
  intros Hin Hl Hs Hprev Hr. destruct (rebase_last _ _ _ _ Hr) as (L1 & _ & L3).
  assert (forall o b, u16 (o + u16 (_seq h - b)) = u16 (o + (_seq h - b))) as Ew
    by (intros; unfold wrap; by rewrite Zplus_mod_idemp_r).
  assert (forall o, is_u16 (u16 o)) by (intros; apply wrap_range; lia).
  unfold RewriteSeq. destruct (negb (started m0) && negb (rebase_pending m0)) eqn:Efirst;
    cbn [base_out_seq base_in_seq last_out_seq has_sent]; (split; [|split; [apply Ew|done]]).
  - unfold out_seq. rewrite L3, L1. destruct (has_sent m); [|done].
    rewrite Z.sub_diag. change (u16 0) with 0. rewrite Z.add_0_r. by apply wrap_wrap.
  - unfold rebase in Hr. destruct (rebase_pending m) eqn:Ep.
    + destruct (_ && _) in Hr; [done|]. injection Hr as <-. simpl. unfold out_seq.
      destruct (has_sent m); [|done]. rewrite Z.sub_diag. change (u16 0) with 0. rewrite Z.add_0_r. by apply wrap_wrap.
    + injection Hr as <-. destruct prev as [s|].
      * destruct Hin as (H1 & H2 & _ & H4). unfold out_seq. rewrite H2, H4, Ew, Hprev. unfold wrap. pow2. words.
      * destruct Hin as [Hin|Hin]; [congruence|]. rewrite Hin, Ep in Efirst. done.
Qed.

Lemma in_step_sent m1 h s ts prev_out source :
  s = u16 (base_out_seq m1 + (_seq h - base_in_seq m1)) -> is_u16 (last_out_seq m1) ->
  prev_out = out_seq m1 -> match prev_out with Some p => s = u16 (p + 1) | None => True end ->
  let m := sent_map (fst (RewriteTimestamp m1 (_timestamp h))) s ts source in
  in_step m (Some (_seq h)) /\ out_seq m = Some s.
Proof.
  intros Hs Hl -> Hp. unfold out_seq in *.
  assert (negb (has_sent m1) || (u16 (s - last_out_seq m1) <? 0x8000) = true) as Hn.
  { destruct (has_sent m1); [|done]. simpl. rewrite Hp. apply Z.ltb_lt. unfold is_u in Hl. unfold wrap. pow2. words. }
  unfold RewriteTimestamp, sent_map. destruct (started m1) eqn:Es; cbn; rewrite Hn; [|done]. by rewrite Es.
Qed.

Lemma header_seq_input x : parts_ok x -> header_seq (build x) = kseq x.
Proof. intros Hx. apply header_seq_build, Hx. Qed.

Lemma forwarded_step t t' e x y outs prev :
  track_ok t -> parts_ok x -> parts_ok y -> forwarded t t' e x y outs -> in_step (_map t) prev ->
  match prev with Some s => kseq x = u16 (s + 1) | None => True end ->
  in_step (_map t') (Some (kseq x)) /\ sent_seqs outs = [kseq y] /\ out_seq (_map t') = Some (kseq y) /\
  match out_seq (_map t) with Some p => kseq y = u16 (p + 1) | None => True end.
Proof.
  intros Hok Hx Hy (h & source & m & q & Es & Et & _ & Hr & Hf) Hin Hprev. rewrite <- Es, <- Et in *.
  pose proof (tok_last t Hok) as [U1 _]. assert (is_u16 (_seq h)) as Uh by (rewrite Es; apply Hx).
  pose proof (in_step_seq _ h source m prev Hin U1 Uh Hprev Hr) as Hseq.
  destruct (RewriteSeq m (_seq h)) as [m1 s] eqn:E1. destruct Hseq as (Hp & Hs & L1 & L2).
  pose proof (in_step_sent m1 h s (snd (RewriteTimestamp m1 (_timestamp h))) (out_seq (_map t)) source Hs
    ltac:(by rewrite L1) ltac:(unfold out_seq; by rewrite L1, L2) Hp) as Hst.
  destruct (RewriteTimestamp m1 (_timestamp h)) as [m2 ts]. cbn [fst snd] in Hst. destruct Hf as (Hstamp & -> & -> & _).
  assert (kseq y = s) as <- by (by rewrite (stamped_same _ _ _ _ _ _ Hstamp)).
  cbn [sent_seqs]. rewrite sent_seqs_notify, header_seq_input by done. tauto.
Qed.

Lemma padded_step t t' e n y outs prev :
  track_ok t -> parts_ok y -> padded t t' e n y outs -> in_step (_map t) prev ->
  in_step (_map t') prev /\ sent_seqs outs = [kseq y] /\ out_seq (_map t') = Some (kseq y) /\
  match out_seq (_map t) with Some p => kseq y = u16 (p + 1) | None => True end.
Proof.
  intros Hok Hy (q & Hst & -> & ->) Hin.
  assert (kseq y = if has_sent (_map t) then u16 (last_out_seq (_map t) + 1) else 0) as Ey
    by (by rewrite (stamped_same _ _ _ _ _ _ Hst)).
  rewrite <- Ey. cbn [sent_seqs]. rewrite sent_seqs_notify, header_seq_input by done.
  split; [|split; [done|]; split; [done|]; unfold out_seq; rewrite Ey; by destruct (has_sent _)].
  destruct prev as [s|]; simpl in *; [|done]. destruct Hin as (H1 & H2 & H3 & H4).
  do 3 (split; [done|]). rewrite H1, Ey, H2, H4. unfold wrap. pow2. words.
Qed.

Lemma consecutive_one prev s : match prev with Some p => s = u16 (p + 1) | None => True end -> consecutive prev [s].
Proof. done. Qed.

Lemma ordered_step t op t' outs ok prev :
  track_ok t -> op_ok op -> in_step (_map t) prev -> apply_op t op = Ret (t', outs, ok) ->
  match op with DoInput _ data => ok = true /\ match prev with Some s => header_seq data = u16 (s + 1) | None => True end | _ => True end ->
  in_step (_map t') (match op with DoInput _ data => Some (header_seq data) | DoDiscontinuity => None | _ => prev end) /\
  consecutive (out_seq (_map t)) (sent_seqs outs) /\ out_seq (_map t') = last_seq (out_seq (_map t)) (sent_seqs outs).
Proof.
  intros Hok Hop Hin E Hord.
  destruct op as [e data|e n|e lost| |a r m f cu h j l d|e|e|now|b|k]; cbn [apply_op op_ok] in *;
    try (injection E as <- <- <-; done).
  - destruct Hord as [-> Hprev]. destruct (input_cases t e Hok data) as (t1 & o1 & ok & E1 & _ & _ & H); [apply Hop..|].
    rewrite E1 in E. injection E as -> -> ->. destruct H as (x & y & <- & Hx & _ & Hy & Hf & _).
    rewrite header_seq_input in * by done.
    destruct (forwarded_step t t' e x y outs prev Hok Hx Hy Hf Hin Hprev) as (H1 & H2 & H3 & H4). rewrite H2. done.
  - destruct (padding_cases t e n Hok Hop) as (t1 & o1 & ok1 & E1 & _ & _ & H). rewrite E1 in E. injection E as -> -> ->.
    destruct ok.
    + destruct H as (y & _ & _ & Hy & Hp & _). destruct (padded_step t t' e n y outs prev Hok Hy Hp Hin) as (H1 & H2 & H3 & H4).
      by rewrite H2.
    + destruct H as [(-> & _) ->]. done.
  - unfold OnRtcpNack in E. destruct (transport_ready e); cbn [negb mbnd] in E; [|injection E as <- <- <-; done].
    destruct (nack_loop_state t e 0 lost Hok) as (t1 & o1 & E1 & _ & _ & Hm & _ & Hf & _); [apply Hok|].
    rewrite E1 in E. cbn [mbnd] in E. injection E as <- <- <-. by rewrite (sent_seqs_resends t), Hm by done.
  - injection E as <- <- <-. simpl. split; [by left|done].
  - pose proof (pli_outs t e) as Hp. destruct (OnRtcpPli t e) as [t1 o1]. destruct Hp as (_ & _ & _ & Hm & Hk).
    injection E as <- <- <-. by rewrite sent_seqs_key, Hm.
  - unfold OnRtcpFir in E. pose proof (pli_outs t e) as Hp. destruct (OnRtcpPli t e) as [t1 o1]. destruct Hp as (_ & _ & _ & Hm & Hk).
    injection E as <- <- <-. by rewrite sent_seqs_key, Hm.
Qed.

Lemma ordered_run t ops prev : track_ok t -> Forall op_ok ops -> in_step (_map t) prev -> ordered t prev ops ->
  forall t' outs, run_ops t ops = Ret (t', outs) -> consecutive (out_seq (_map t)) (sent_seqs outs).
Proof.
  revert t prev. induction ops as [|op ops IH]; intros t prev Hok Hops Hin Hord t' outs E; cbn [run_ops] in E.
  { by injection E as <- <-. }
  apply Forall_cons_1 in Hops as [Hop Hops]. destruct Hord as (t1 & o1 & ok & E1 & Ho). rewrite E1 in E. cbn [mbnd] in E.
  destruct (apply_ok t op Hok Hop) as (t1' & o1' & ok' & E1' & K1 & _). rewrite E1 in E1'. injection E1' as <- <- <-.
  destruct (run_ops t1 ops) as [[t2 o2]| |] eqn:E2; cbn [mbnd] in E; [|done..]. injection E as <- <-.
  destruct (ordered_step t op t1 o1 ok prev Hok Hop Hin E1 ltac:(destruct op; [tauto|done..])) as (S1 & S2 & S3).
  rewrite sent_seqs_app. apply consecutive_app; [done|]. rewrite <- S3.
  eapply IH; [done|done|exact S1| |exact E2]. destruct op; tauto.
Qed.

(** ** Theorems *)

(** The number of an accepted packet and its timestamp, by the bases after it. *)
Lemma forwarded_numbers t t' e x y outs : parts_ok x -> forwarded t t' e x y outs ->
  let c := _config t in let m := _map t' in
  kseq y = u16 (base_out_seq m + (kseq x - base_in_seq m)) /\
  kts y = u32 (base_out_timestamp m + (kts x - base_in_timestamp m)) /\
  kvp y = kvp x /\ k1 y = k1 x / 128 * 128 + out_pt c x /\ kssrc y = local_ssrc c /\ kcsrc y = kcsrc x /\ kpay y = kpay x.
Proof.
  intros Hx (h & source & m & q & _ & _ & _ & _ & Hf). unfold RewriteSeq, RewriteTimestamp in Hf. cbn zeta in Hf.
  destruct Hf as (Hst & _ & Hm & _). cbn zeta. rewrite Hm, (stamped_same _ _ _ _ _ _ Hst). simpl.
  split; [|split; [|done]]; repeat case_match; simpl; unfold wrap; by rewrite Zplus_mod_idemp_r.
Qed.

(** C1. Forwarding.  In every state a track can be in, an input packet is handled without a
    fault.  If it is refused nothing is sent and nothing cached or counted.  If it is
    accepted, exactly one packet is sent: version, padding, marker, CSRCs and payload are the
    input's, the payload type is the configured one, the SSRC the track's, and sequence
    number and timestamp differ from the input's by the offsets the track keeps.  The packet
    is counted with its payload and cached under its new number.  With transport-wide
    congestion control on, it takes the next number of the shared allocator, the notification
    names that number; and if the track rewrites the header extensions, as every downlink
    track is configured to, or no element of the reserved identifier 15 precedes it in the
    input's extension, the receiver's reader finds the low 16 bits of that number in the
    packet. *)
Theorem sender_forwards t e data :
  track_ok t -> bytes_ok data -> blen data <= 65535 ->
  exists t' outs ok, InputRtpPacket t e data = Ret (t', outs, ok) /\ track_ok t' /\
  if ok then
    let c := _config t in let m := _map t' in let id := transport_cc_extension_id c in
    exists x y q, data = build x /\ parts_ok x /\ parts_ok y /\
      outs = Sent (build y) false :: NotifyPacketSent c e q (kseq y) (blen (build y)) /\
      (kseq y = u16 (base_out_seq m + (kseq x - base_in_seq m)) /\
       kts y = u32 (base_out_timestamp m + (kts x - base_in_timestamp m)) /\
       kvp y = kvp x /\ k1 y = k1 x / 128 * 128 + out_pt c x /\ kssrc y = local_ssrc c /\
       kcsrc y = kcsrc x /\ kpay y = kpay x) /\
      _packet_count t' = u64 (_packet_count t + 1) /\ _octet_count t' = u64 (_octet_count t + blen (kpay x)) /\
      (0 < rtp_cache_size c -> pool_ok e = true -> _rtp_cache t' !! kseq y = Some (mkCached (build y) (now_ms e) 0 0)) /\
      (if id =? 0 then kext y = sent_ext c x
       else exists next, _allocator t = Some next /\ _allocator t' = Some (next + 1) /\ q = (u16 (u64 next), next) /\
         (rewrite_header_extensions c = true \/ open_ext id (kext x) -> TransportCcRead (Some (build y)) id = Ret (Some (fst q))))
  else refused t t' outs.
Proof.
  intros Hok Hd Hl. destruct (input_cases t e Hok data Hd Hl) as (t' & outs & ok & E & T' & C' & H).
  exists t', outs, ok. split; [done|]. split; [done|]. destruct ok; [|done].
  destruct H as (x & y & <- & Hx & Hv & Hy & Hf & P & O & K). pose proof (forwarded_numbers _ _ _ _ _ _ Hx Hf) as Hn.
  destruct Hf as (h & source & m & q & _ & _ & _ & _ & Hf). destruct (RewriteSeq m (kseq x)) as [m1 s] eqn:E1.
  destruct (RewriteTimestamp m1 (kts x)) as [m2 ts]. destruct Hf as (Hst & -> & _ & Hu).
  exists x, y, q. do 3 (split; [done|]). split; [by rewrite (stamped_same _ _ _ _ _ _ Hst)|]. do 4 (split; [done|]).
  pose proof Hst as [(E0 & -> & _)|(Hid & next & body & Ea & Ea' & -> & -> & Hp)].
  { by rewrite E0. }
  rewrite (proj2 (Z.eqb_neq _ 0)) by lia. exists next. do 3 (split; [done|]). intros Hop.
  eapply stamped_read; [exact Hst|done|done|lia|]. simpl. unfold sent_ext.
  destruct (rewrite_header_extensions _) eqn:Erw; [|by destruct Hop].
  apply mid_open; [apply Hok|auto].
Qed.

(** Retransmission.  A NACK is answered without a fault, whatever numbers it names.  Only
    cached packets that it names are sent again, each as it was first sent except for a new
    transport sequence number; only if the packet is younger than the maximal age, has been
    sent again less often than the limit, and its last retransmission is at least the minimal
    interval ago.  So with a positive interval naming a number twice sends one packet, and no
    packet is ever sent again more often than the limit. *)
Theorem sender_nack_policy t e lost :
  track_ok t -> exists t' outs, OnRtcpNack t e lost = Ret (t', outs) /\ track_ok t' /\
  Forall (resends t) outs /\
  forall s, let c := _config t in
    match _rtp_cache t !! s with
    | None => resent s outs = 0 /\ _rtp_cache t' !! s = None
    | Some p => exists p', _rtp_cache t' !! s = Some p' /\ cpacket p' = cpacket p /\ first_send_ms p' = first_send_ms p /\
        retransmit_count p' = retransmit_count p + resent s outs /\ retransmit_count p' <= max_retransmit_count c /\
        (0 < min_retransmit_interval_ms c -> 0 <= resent s outs <= 1) /\
        (resent s outs <> 0 -> s ∈ lost /\ last_retransmit_ms p' = now_ms e /\ first_send_ms p <= now_ms e /\
           (max_retransmit_age_ms c = 0 \/ now_ms e - first_send_ms p < max_retransmit_age_ms c) /\
           (retransmit_count p = 0 \/ now_ms e < last_retransmit_ms p \/
            min_retransmit_interval_ms c <= now_ms e - last_retransmit_ms p))
    end.
Proof.
  intros Hok.
  assert (exists t' outs, OnRtcpNack t e lost = Ret (t', outs) /\ nack_state t t' (now_ms e) lost outs) as (t' & outs & E & Hs).
  { unfold OnRtcpNack. destruct (transport_ready e); cbn [negb]; [apply nack_loop_state; [done|apply Hok]|].
    eexists _, _. split; [done|]. pose proof (nack_state_id t (now_ms e) lost (_allocator t) Hok (or_introl eq_refl)). by destruct t. }
  destruct Hs as (T' & C' & _ & _ & Hf & _ & Hs). exists t', outs. do 3 (split; [done|]). intros s c. specialize (Hs s).
  destruct (_rtp_cache t !! s) as [p|] eqn:Ep; [|tauto]. destruct Hs as (p' & Ep' & Hn & Hin). exists p'. split; [done|].
  destruct (tok_cache t' T') as (_ & _ & _ & Hall). destruct (Hall s p' Ep') as (_ & _ & Hmax). rewrite C' in Hmax.
  specialize (Hmax (proj1 (proj2 (tok_limits t Hok)))).
  destruct Hn as [[Ek ->]|(H0 & H1 & H2 & H3 & H4 & _ & H6 & H7)].
  - rewrite Ek. do 2 (split; [done|]). split; [lia|]. by repeat (split; [done|]).
  - apply may_retransmit_spec in H1. do 4 (split; [done|]). split; [intros Hi; rewrite (H7 Hi); lia|]. intros _.
    split; [destruct (decide (s ∈ lost)); [done|]; specialize (Hin n); lia|]. tauto.
Qed.

(** Runs.  Any sequence of packets, padding requests, NACKs, reports, key frame requests
    and discontinuities on a new track, with other tracks taking numbers from the shared
    allocator in between, is handled without a fault.  The cache never holds more packets
    than configured, its eviction queue lists exactly its keys, and every packet in it
    carries the number it is filed under and the track's SSRC.  The transport sequence
    numbers notified go up strictly, over retransmissions and padding too, and the wire
    carries their low 16 bits: no number is used for two packets. *)
Theorem sender_runs c al ops :
  config_ok c -> Forall op_ok ops ->
  exists t outs, run_ops (new_SenderTrack c al) ops = Ret (t, outs) /\ _config t = c /\
  Z.of_nat (length (_cache_order t)) <= rtp_cache_size c /\ NoDup (_cache_order t) /\
  (forall s, s ∈ _cache_order t <-> is_Some (_rtp_cache t !! s)) /\
  (forall s p, _rtp_cache t !! s = Some p ->
     header_seq (cpacket p) = s /\ (exists y, cpacket p = build y /\ kssrc y = local_ssrc c) /\
     0 <= retransmit_count p <= max_retransmit_count c) /\
  numbered (alloc_value al) (alloc_value (_allocator t)) outs.
Proof.
  intros Hc Hops. destruct (sender_run_ok (new_SenderTrack c al) ops (new_track_ok c al Hc) Hops) as (t & outs & E & Hok & Ec & Hn).
  exists t, outs. split; [done|]. split; [done|]. destruct (tok_cache t Hok) as (N1 & N2 & N3 & N4).
  rewrite Ec in N3, N4. cbn [new_SenderTrack _config] in N3, N4.
  split; [by rewrite <- (size_order _ (_rtp_cache t))|]. do 2 (split; [done|]). split; [|done].
  intros s p Ep. destruct (N4 s p Ep) as ((y & Hy & _ & Ey & Es & Ess & _) & H0 & Hm).
  rewrite Ey, header_seq_input by done. split; [done|]. split; [by exists y|]. split; [done|]. apply Hm, Hc.
Qed.

(** No gaps of its own.  When the packets a source sends between two discontinuities are
    accepted in order, the packets and the padding the track sends have consecutive sequence
    numbers, over every discontinuity and however padding and retransmissions are mixed in:
    a gap the receiver sees is a gap on the way to it. *)
Theorem sender_sequence_continuous c al ops t outs :
  config_ok c -> Forall op_ok ops -> ordered (new_SenderTrack c al) None ops ->
  run_ops (new_SenderTrack c al) ops = Ret (t, outs) -> consecutive None (sent_seqs outs).
Proof.
  intros Hc Hops Ho E. refine (ordered_run (new_SenderTrack c al) ops None (new_track_ok c al Hc) Hops _ Ho t outs E). by right.
Qed.

(** ** Witnesses and examples *)

Definition ex_config : SenderConfig := mkSenderConfig 287454020 true 96 512 30 3 5 true 3 [48] 1000.
Definition ex_env (now : Z) : Env := mkEnv true (fun _ _ => true) now true.
Definition ex_packet (seq : Z) : list Z := [128; 224] ++ be16 seq ++ be32 4096 ++ be32 77 ++ [1; 2; 3].
Definition ex_new : SenderTrack := new_SenderTrack ex_config (Some 65535).

Lemma ex_config_ok : config_ok ex_config.
Proof.
  unfold config_ok, sender_ok, is_u. cbn [ex_config local_ssrc payload_type transport_cc_extension_id mid_extension_id mid
    rtp_cache_size max_retransmit_count]. pow2.
  split; [|lia]. split; [lia|]. split; [lia|]. split; [lia|]. split; [lia|]. apply Forall_singleton. unfold is_u. pow2. lia.
Qed.

Lemma ex_packet_ok seq : bytes_ok (ex_packet seq) /\ blen (ex_packet seq) <= 65535.
Proof.
  split; [|done]. unfold ex_packet. cbn [app be16 be32].
  repeat (apply Forall_cons_2; [first [apply byte_of_u8|unfold is_u; pow2; lia]|]). apply Forall_nil_2.
Qed.

Lemma sender_forwards_witness : exists t' outs,
  InputRtpPacket ex_new (ex_env 100) (ex_packet 10) = Ret (t', outs, true) /\ track_ok t' /\ sent_seqs outs = [10].
Proof.
  destruct (sender_forwards ex_new (ex_env 100) (ex_packet 10) (new_track_ok _ _ ex_config_ok)
    (proj1 (ex_packet_ok 10)) (proj2 (ex_packet_ok 10))) as (t' & outs & ok & E & Hok & _).
  assert (match InputRtpPacket ex_new (ex_env 100) (ex_packet 10) with Ret (_, o, k) => k && bool_decide (sent_seqs o = [10]) | _ => false end = true)
    as H by (vm_compute; reflexivity).
  rewrite E in H. apply andb_true_iff in H as [-> H]. apply bool_decide_eq_true in H. exists t', outs. exact (conj E (conj Hok H)).
Defined.

Definition ex_ops : list SenderOp :=
  [DoInput (ex_env 100) (ex_packet 10); DoPadding (ex_env 101) 20; DoOther 3; DoInput (ex_env 102) (ex_packet 11);
   DoNack (ex_env 140) [10; 12]; DoDiscontinuity; DoPadding (ex_env 150) 5; DoInput (ex_env 160) (ex_packet 500)].

Lemma sender_ops_ok : Forall op_ok ex_ops.
Proof. repeat (apply Forall_cons_2; [try done; try apply ex_packet_ok|]). apply Forall_nil_2. Qed.

Definition ex_track : SenderTrack :=
  match InputRtpPacket ex_new (ex_env 100) (ex_packet 10) with Ret (t, _, _) => t | _ => ex_new end.

Lemma ex_track_ok : track_ok ex_track.
Proof.
  unfold ex_track. destruct (apply_ok ex_new (DoInput (ex_env 100) (ex_packet 10)) (new_track_ok _ _ ex_config_ok)
    (ex_packet_ok 10)) as (t' & outs & ok & E & H & _). cbn [apply_op] in E. rewrite E. exact H.
Qed.

Lemma sender_nack_policy_witness : exists t' outs,
  OnRtcpNack ex_track (ex_env 140) [10; 10; 11] = Ret (t', outs) /\ track_ok t' /\ resent 10 outs = 1 /\ resent 11 outs = 0.
Proof.
  destruct (sender_nack_policy ex_track (ex_env 140) [10; 10; 11] ex_track_ok) as (t' & outs & E & Hok & _).
  exists t', outs. split; [exact E|]. split; [exact Hok|].
  assert (match OnRtcpNack ex_track (ex_env 140) [10; 10; 11] with Ret (_, o) => (resent 10 o =? 1) && (resent 11 o =? 0) | _ => false end = true)
    as H by (vm_compute; reflexivity).
  rewrite E in H. apply andb_true_iff in H. rewrite !Z.eqb_eq in H. exact H.
Defined.

Lemma sender_runs_witness : exists t outs, run_ops ex_new ex_ops = Ret (t, outs) /\
  numbered 65535 (alloc_value (_allocator t)) outs.
Proof.
  destruct (sender_runs ex_config (Some 65535) ex_ops ex_config_ok sender_ops_ok) as (t & outs & E & _ & _ & _ & _ & _ & H).
  exists t, outs. exact (conj E H).
Defined.

Lemma ordered_cons t op ops prev t' outs ok :
  apply_op t op = Ret (t', outs, ok) ->
  match op with
  | DoInput _ data => ok = true /\ match prev with Some s => header_seq data = u16 (s + 1) | None => True end /\
      ordered t' (Some (header_seq data)) ops
  | DoDiscontinuity => ordered t' None ops
  | _ => ordered t' prev ops
  end -> ordered t prev (op :: ops).
Proof. intros E H. exists t', outs, ok. exact (conj E H). Qed.

Lemma ex_ordered : ordered ex_new None ex_ops.
Proof.
  unfold ex_ops.
  repeat (eapply ordered_cons; [vm_compute; reflexivity|]; cbv beta iota; try (split; [done|split; [vm_compute; done|]])).
  done.
Qed.

Lemma sender_sequence_continuous_witness : exists t outs, run_ops ex_new ex_ops = Ret (t, outs) /\
  consecutive None (sent_seqs outs) /\ sent_seqs outs = [10; 11; 12; 13; 14].
Proof.
  destruct (sender_run_ok ex_new ex_ops (new_track_ok _ _ ex_config_ok) sender_ops_ok) as (t & outs & E & _). exists t, outs. split; [exact E|].
  split; [exact (sender_sequence_continuous ex_config (Some 65535) ex_ops t outs ex_config_ok sender_ops_ok ex_ordered E)|].
  assert (match run_ops ex_new ex_ops with Ret (_, o) => bool_decide (sent_seqs o = [10; 11; 12; 13; 14]) | _ => false end = true)
    as H by (vm_compute; reflexivity).
  rewrite E in H. apply bool_decide_eq_true in H. exact H.
Defined.

(** Out of order, padding shifts the numbers of packets that are still on their way: the
    late packet 11 leaves under 12, the number packet 12 already had. *)
Example padding_reorder :
  match run_ops ex_new [DoInput (ex_env 100) (ex_packet 10); DoInput (ex_env 101) (ex_packet 12);
    DoPadding (ex_env 102) 20; DoInput (ex_env 103) (ex_packet 11)] with
  | Ret (_, outs) => sent_seqs outs
  | _ => []
  end = [10; 12; 13; 12].
Proof. vm_compute. reflexivity. Qed.

(** Behind an element with the reserved id 15 the placeholder is not found again: the packet
    gets two elements, and the reader finds neither. *)
Example twcc_behind_15 :
  let c := mkSenderConfig 1 false 96 512 30 3 5 false 0 [] 0 in
  match PrepareTransportCc c (Some 258) ([144; 96; 0; 1; 0; 0; 0; 2; 0; 0; 0; 3] ++ [190; 222; 0; 1; 240; 0; 0; 0] ++ [9]) with
  | Ret (_, Some (p, _)) => (drop 12 p, TransportCcRead (Some p) 5)
  | _ => ([], Ret None)
  end = ([190; 222; 0; 3; 240; 0; 0; 0; 81; 0; 0; 0; 81; 1; 2; 0; 9], Ret None).
Proof. vm_compute. reflexivity. Qed.
