(* ===== verification/SendSide.v ===== *)
(** * Packet history and send-side control

    Models [media/quality/PacketHistory.cpp], [TransportFeedbackAdapter::Build]
    (media/quality/TransportFeedbackAdapter.cpp) and the part of
    [media/quality/SendSideController.cpp] that keeps the history of one transport, matches
    feedback against it and decides what the estimator is told.

    The estimator ([GoogCcNetworkController]: floating point) is represented by the calls made
    to it ([EstCall]), in order; of what it answers only the probe generation is used, an
    argument of [StartProbe].  The update callback and the budget observers run after a call
    and are left out, as are the accessors.  The path epoch and the observer and cluster ids
    are unbounded. *)
From S2P Require Import Prelude Bytes RtcpWire.

(** ** Data *)

Inductive MediaKind := Unknown | Audio | Video | Retransmission | Padding.

Record PacketSendInfo := mkSendInfo {
  ps_transport_sequence : Z;
  ps_ssrc : Z;
  ps_rtp_sequence : Z;
  send_time_ms : Z;
  size_bytes : Z;
  media_kind : MediaKind;
  data_in_flight_bytes : Z;
  is_probe : bool;
  probe_cluster_id : Z }.

Record PacketFeedback := mkFeedback {
  sent_packet : PacketSendInfo;
  fb_received : bool;
  fb_receive_time_ms : Z }.

(** ** PacketHistory *)

Record PacketHistory := mkHistory {
  max_packets_ : Z;
  latest_sequence_ : Z;
  order_ : list Z;
  packets_ : gmap Z PacketSendInfo }.

Definition new_PacketHistory (max_packets : Z) : PacketHistory :=
  mkHistory (if max_packets =? 0 then 1 else max_packets) (-1) [] ∅.

(** [while (order_.size() > max_packets_)]. *)
Fixpoint trim (limit : Z) (order : list Z) (packets : gmap Z PacketSendInfo) : list Z * gmap Z PacketSendInfo :=
  match order with
  | [] => ([], packets)
  | old_key :: rest =>
    if limit <? Z.of_nat (length order) then trim limit rest (delete old_key packets) else (order, packets)
  end.

Definition AddPacket (h : PacketHistory) (packet : PacketSendInfo) : PacketHistory :=
  let key := ps_transport_sequence packet in
  if key <? 0 then h else
  let order := match packets_ h !! key with None => order_ h ++ [key] | Some _ => order_ h end in
  let '(order, packets) := trim (max_packets_ h) order (<[key := packet]> (packets_ h)) in
  mkHistory (max_packets_ h) (Z.max (latest_sequence_ h) key) order packets.

Definition GetPacket (h : PacketHistory) (transport_sequence : Z) : option PacketSendInfo :=
  packets_ h !! transport_sequence.

Definition GetPacketByWireSequence (h : PacketHistory) (sequence : Z) : option PacketSendInfo :=
  if latest_sequence_ h <? 0 then None else
  let delta := sequence - u16 (latest_sequence_ h) in
  let delta := if 32767 <? delta then delta - 65536 else delta in
  let delta := if delta <? -32768 then delta + 65536 else delta in
  GetPacket h (latest_sequence_ h + delta).

Definition RemovePacket (h : PacketHistory) (transport_sequence : Z) : PacketHistory :=
  mkHistory (max_packets_ h) (latest_sequence_ h) (order_ h) (delete transport_sequence (packets_ h)).

Definition Clear (h : PacketHistory) : PacketHistory := mkHistory (max_packets_ h) (-1) [] ∅.

(** The condition under which [RemoveExpired] keeps a packet. *)
Definition fresh (now_ms max_age_ms : Z) (p : PacketSendInfo) : bool :=
  negb ((send_time_ms p <=? now_ms) && (max_age_ms <=? now_ms - send_time_ms p)).

(** [while (!order_.empty() && !packets_.count(order_.front()))]. *)
Fixpoint drop_missing (order : list Z) (packets : gmap Z PacketSendInfo) : list Z :=
  match order with
  | [] => []
  | k :: rest => match packets !! k with None => drop_missing rest packets | Some _ => order end
  end.

Definition RemoveExpired (h : PacketHistory) (now_ms max_age_ms : Z) : PacketHistory :=
  let packets := filter (fun kp => fresh now_ms max_age_ms (snd kp) = true) (packets_ h) in
  mkHistory (max_packets_ h) (latest_sequence_ h) (drop_missing (order_ h) packets) packets.

(** ** TransportFeedbackAdapter *)

Definition feedback_item (h : PacketHistory) (item : TransportFeedbackPacket) : option PacketFeedback :=
  match GetPacketByWireSequence h (transport_sequence item) with
  | None => None
  | Some sent => Some (mkFeedback sent (received item) (receive_time_ms item))
  end.

Definition Build (report : TransportFeedbackReport) (h : PacketHistory) : list PacketFeedback :=
  omap (feedback_item h) (packets report).

(** ** SendSideController *)

(** What the estimator is told. *)
Inductive EstCall :=
| OnTransportPacketsFeedback (feedback : list PacketFeedback) (feedback_time_ms : Z)
| OnReceiverFeedbackCall (now_ms fraction_lost jitter_ms rtt_ms : Z)
| OnRoundTripTimeUpdate (now_ms rtt_ms : Z)
| OnProcessIntervalCall (now_ms : Z)
| Recreated
| ProbeStarted (cluster_id now_ms : Z).

Record Controller := mkController {
  feedback_timeout_ms : Z;
  history_ : PacketHistory;
  available_ : bool;
  has_twcc_ : bool;
  last_valid_twcc_receive_time_ms_ : Z;
  path_epoch_ : Z;
  next_probe_cluster_id_ : Z;
  sender_clock_rates_ : gmap Z Z }.

Definition new_Controller (timeout : Z) (available : bool) : Controller :=
  mkController timeout (new_PacketHistory 2048) available false 0 1 0 ∅.

Definition set_history (c : Controller) (h : PacketHistory) : Controller :=
  mkController (feedback_timeout_ms c) h (available_ c) (has_twcc_ c) (last_valid_twcc_receive_time_ms_ c)
    (path_epoch_ c) (next_probe_cluster_id_ c) (sender_clock_rates_ c).
Definition set_twcc (c : Controller) (has : bool) (at_ms : Z) : Controller :=
  mkController (feedback_timeout_ms c) (history_ c) (available_ c) has at_ms
    (path_epoch_ c) (next_probe_cluster_id_ c) (sender_clock_rates_ c).
Definition set_rates (c : Controller) (rates : gmap Z Z) : Controller :=
  mkController (feedback_timeout_ms c) (history_ c) (available_ c) (has_twcc_ c) (last_valid_twcc_receive_time_ms_ c)
    (path_epoch_ c) (next_probe_cluster_id_ c) rates.

(** A new path: the state both path changes leave. *)
Definition new_path (c : Controller) (available : bool) : Controller :=
  mkController (feedback_timeout_ms c) (Clear (history_ c)) available false 0 (path_epoch_ c + 1)
    (next_probe_cluster_id_ c) (sender_clock_rates_ c).

Definition OnPacketSent (c : Controller) (packet : PacketSendInfo) : Controller :=
  if available_ c then set_history c (AddPacket (history_ c) packet) else c.

Definition RegisterSender (c : Controller) (ssrc clock_rate : Z) : Controller :=
  set_rates c (<[ssrc := clock_rate]> (sender_clock_rates_ c)).

Definition UnregisterSender (c : Controller) (ssrc : Z) : Controller :=
  set_rates c (delete ssrc (sender_clock_rates_ c)).

Definition IsTwccRecent (c : Controller) (now_ms : Z) : bool :=
  if negb (has_twcc_ c) then false else
  if now_ms <? last_valid_twcc_receive_time_ms_ c then true else
  now_ms - last_valid_twcc_receive_time_ms_ c <? 1000.

Definition ProcessIntervalLocked (c : Controller) (now_ms : Z) : Controller * list EstCall :=
  let c := set_history c (RemoveExpired (history_ c) now_ms (feedback_timeout_ms c)) in
  let c := if has_twcc_ c && (last_valid_twcc_receive_time_ms_ c <=? now_ms) &&
              (feedback_timeout_ms c <=? now_ms - last_valid_twcc_receive_time_ms_ c)
           then set_twcc c false 0 else c in
  (c, [OnProcessIntervalCall now_ms]).

(** [compact] is the compact NTP time. *)
Definition RttMs (compact lsr dlsr : Z) : Z :=
  if lsr =? 0 then 0 else
  let elapsed := u32 (compact - lsr - dlsr) in
  if 0x7fffffff <? elapsed then 0 else u32 ((elapsed * 1000 + 32768) / 65536).

(** One report of the TWCC loop. *)
Definition handle_report (c : Controller) (receive_time_ms : Z) (report : TransportFeedbackReport)
  : Controller * list EstCall :=
  match Build report (history_ c) with
  | [] => (c, [])
  | feedback =>
    let h := fold_left (fun h p => RemovePacket h (ps_transport_sequence (sent_packet p))) feedback (history_ c) in
    (set_twcc (set_history c h) true receive_time_ms, [OnTransportPacketsFeedback feedback receive_time_ms])
  end.

Fixpoint handle_reports (c : Controller) (receive_time_ms : Z) (reports : list TransportFeedbackReport)
  : Controller * list EstCall :=
  match reports with
  | [] => (c, [])
  | r :: reports =>
    let '(c, calls) := handle_report c receive_time_ms r in
    let '(c, calls') := handle_reports c receive_time_ms reports in
    (c, calls ++ calls')
  end.

(** One receiver report: nothing for an unknown SSRC. *)
Definition handle_rr (c : Controller) (receive_time_ms compact ssrc fraction_lost jitter lsr dlsr : Z) : list EstCall :=
  match sender_clock_rates_ c !! ssrc with
  | None => []
  | Some rate =>
    let jitter_ms := if rate =? 0 then 0 else Z.min (jitter * 1000 / rate) (2 ^ 32 - 1) in
    let rtt_ms := RttMs compact lsr dlsr in
    if negb (IsTwccRecent c receive_time_ms)
    then [OnReceiverFeedbackCall receive_time_ms fraction_lost jitter_ms rtt_ms]
    else if negb (rtt_ms =? 0) then [OnRoundTripTimeUpdate receive_time_ms rtt_ms] else []
  end.

(** The two collections of [FeedbackCollector]. *)
Definition collected_reports (evs : list RtcpEvent) : list TransportFeedbackReport :=
  omap (fun e => match e with OnTransportFeedback r => Some r | _ => None end) evs.

Definition rr_calls (c : Controller) (receive_time_ms compact : Z) (evs : list RtcpEvent) : list EstCall :=
  concat (List.map (fun e => match e with
    | OnReceiverReport _ ssrc lost _ _ jitter lsr dlsr => handle_rr c receive_time_ms compact ssrc lost jitter lsr dlsr
    | _ => []
    end) evs).

Definition Control_OnRtcpPacket (c : Controller) (data : cbuf) (receive_time_ms compact : Z)
  : mres (Controller * list EstCall * bool) :=
  let! '(ok, evs) := RtcpWire.OnRtcpPacket data in
  if negb ok then Ret (c, [], false) else
  if negb (available_ c) then Ret (c, [], true) else
  let '(c, calls) := ProcessIntervalLocked c receive_time_ms in
  let '(c, calls') := handle_reports c receive_time_ms (collected_reports evs) in
  Ret (c, calls ++ calls' ++ rr_calls c receive_time_ms compact evs, true).

Definition OnReceiverFeedback (c : Controller) (now_ms fraction_lost jitter_ms rtt_ms : Z) : Controller * list EstCall :=
  if negb (available_ c) then (c, []) else
  let '(c, calls) := ProcessIntervalLocked c now_ms in
  if IsTwccRecent c now_ms then
    if rtt_ms =? 0 then (c, calls) else (c, calls ++ [OnRoundTripTimeUpdate now_ms rtt_ms])
  else (c, calls ++ [OnReceiverFeedbackCall now_ms fraction_lost jitter_ms rtt_ms]).

Definition OnProcessInterval (c : Controller) (now_ms : Z) : Controller * list EstCall :=
  if negb (available_ c) then (c, []) else ProcessIntervalLocked c now_ms.

Definition SetNetworkAvailable (c : Controller) (available : bool) : Controller * list EstCall :=
  if Bool.eqb (available_ c) available then (c, []) else (new_path c available, [Recreated]).

Definition OnNetworkRouteChanged (c : Controller) : Controller * list EstCall := (new_path c true, [Recreated]).

(** The plan's cluster id, [None] for [nullopt]. *)
Definition StartProbe (c : Controller) (bitrate_bps duration_ms max_bytes now_ms path_epoch generation current : Z)
  : Controller * list EstCall * option Z :=
  if negb (available_ c) || (bitrate_bps =? 0) || (duration_ms =? 0) || (max_bytes <? 300) ||
     negb (path_epoch =? path_epoch_ c) || negb (generation =? current) ||
     (next_probe_cluster_id_ c =? 2 ^ 31 - 1) then (c, [], None) else
  let id := next_probe_cluster_id_ c in
  (mkController (feedback_timeout_ms c) (history_ c) (available_ c) (has_twcc_ c) (last_valid_twcc_receive_time_ms_ c)
     (path_epoch_ c) (id + 1) (sender_clock_rates_ c), [ProbeStarted id now_ms], Some id).
