(* ===== verification/SendSideProps.v ===== *)
(** * Feedback about sent packets

    The history resolves the wire numbers of feedback to the packets that were sent, the
    estimator is told about each packet at most once and only on the path it was sent on, and
    the report of the receiving side's generator (Twcc.v) comes out as the fate of exactly the
    packets it is about. *)
From S2P Require Import Prelude Bytes OrdMap RtcpNackWire RtcpWire RtcpProps Twcc SendSide.

(** ** The history *)












Ltac ltb_cases := repeat match goal with |- context [Z.ltb ?a ?b] => destruct (Z.ltb_spec a b) end.

(** The nearest number with the wire's low bits. *)
Lemma wire_lookup h q : 0 <= latest_sequence_ h -> latest_sequence_ h - 32768 <= q <= latest_sequence_ h + 32767 ->
  GetPacketByWireSequence h (u16 q) = packets_ h !! q.
Proof.
  intros Hl Hq. unfold GetPacketByWireSequence, GetPacket. rewrite (proj2 (Z.ltb_ge _ 0)) by lia. f_equal.
  set (L := latest_sequence_ h) in *. unfold wrap. pow2.
  ltb_cases; words.
Qed.


(** ** What one report gives *)






(** ** Reports that arrive *)


Definition no_feedback (evs : list RtcpEvent) : Prop := forall r, OnTransportFeedback r ∉ evs.


Lemma no_feedback_nil : no_feedback [].
Proof. by intros r ?%elem_of_nil. Qed.

#[local] Hint Resolve no_feedback_nil : core.







(** ** Runs of the controller *)























(** ** Theorems *)



Lemma omap_map_ext {A B C} (f : B -> option C) (g : A -> B) (h : A -> option C) (l : list A) :
  (forall x, x ∈ l -> f (g x) = h x) -> base.omap f (g <$> l) = base.omap h l.
Proof.
  induction l as [|x l IH]; intros H; [done|]. cbn. rewrite (H x) by (apply elem_of_cons; by left).
  rewrite IH by (intros; apply H, elem_of_cons; by right). done.
Qed.

(** What the adapter should give for number [q] of the sender, when the receiver's packet arrived at [arrival], if it did. *)
Definition fate (h : PacketHistory) (q : Z) (arrival : option Z) : option PacketFeedback :=
  match packets_ h !! q with
  | None => None
  | Some sent => Some (match arrival with
                       | Some t => mkFeedback sent true (u64 (Z.quot t 1000))
                       | None => mkFeedback sent false 0
                       end)
  end.

Lemma build_fate g s m now r g' h k :
  TransportFeedbackGenerator.BuildFeedback s m now g = (Some r, g') ->
  let base := TransportFeedbackGenerator.next_feedback_sequence_ g in
  let n := TransportFeedbackGenerator.report_end g - base + 1 in
  0 <= latest_sequence_ h ->
  (forall j, 0 <= j < n -> Z.abs (latest_sequence_ h - (base + j + 65536 * k)) < 32768) ->
  Build r h = base.omap (fun j => fate h (base + j + 65536 * k) (om_find (base + j) (TransportFeedbackGenerator.arrivals_us_ g))) (seqZ 0 n).
Proof.
  intros Hb base n Hl Hw.
  assert (packets r = List.map (TransportFeedbackGenerator.status_of (TransportFeedbackGenerator.arrivals_us_ g)) (seqZ base n)) as Ep.
  { unfold TransportFeedbackGenerator.BuildFeedback in Hb. destruct (negb _); [done|]. by injection Hb as <- _. }
  unfold Build. rewrite Ep. replace base with (base + 0) at 1 by lia. rewrite <- fmap_add_seqZ.
  change (List.map ?f ?l) with (f <$> l). rewrite <- list_fmap_compose. apply omap_map_ext.
  intros j Hj%elem_of_seqZ. specialize (Hw j ltac:(lia)). unfold feedback_item, fate, TransportFeedbackGenerator.status_of.
  assert (forall b t t', transport_sequence (mkTfPacket (u16 (Z.land (base + j) 0xFFFF)) b t t') = u16 (base + j + 65536 * k)) as Eu.
  { intros. cbn. change 0xFFFF with (2 ^ 16 - 1). rewrite land_ones_mod by lia. unfold wrap. pow2. words. }
  cbn [compose]. destruct (om_find (base + j) _); rewrite Eu, wire_lookup by lia; by destruct (packets_ h !! _).
Qed.

(** C22. Feedback end to end.  After any calls on a receiving side's generator, with positive clock values, it builds a
    report; the sending side still has its last sent number within 2^15 of the numbers the report is about.  Then what the
    sender's adapter makes of the report is, for each of these numbers in order and exactly where the packet is still
    remembered, the record of that very packet.  It is marked as received only if the generator accepted a packet of that
    number since the last reset, and then with a time at which one arrived; and if the generator had room for every
    packet that came before its first report, it is marked as received exactly if one was accepted, with the time of the
    first.  (Without that room an arrival may be evicted and reported as lost.)  The two sides unwrap the numbers on their
    own: they may be any number [k] of cycles apart. *)
Theorem feedback_end_to_end c ops g rs s m now r g' h k :
  let start := TransportFeedbackGenerator.construct c in
  Forall TransportFeedbackGenerator.clocked ops -> TransportFeedbackGenerator.run ops start = Ret (g, rs) ->
  TransportFeedbackGenerator.BuildFeedback s m now g = (Some r, g') ->
  let base := TransportFeedbackGenerator.next_feedback_sequence_ g in
  let n := TransportFeedbackGenerator.report_end g - base + 1 in
  let arrived := TransportFeedbackGenerator.accepted ops start [] in
  0 <= latest_sequence_ h ->
  (forall j, 0 <= j < n -> Z.abs (latest_sequence_ h - (base + j + 65536 * k)) < 32768) ->
  exists arrival : Z -> option Z,
    Build r h = base.omap (fun j => fate h (base + j + 65536 * k) (arrival (base + j))) (seqZ 0 n) /\
    (forall x t, arrival x = Some t -> (x, t) ∈ arrived) /\
    (TransportFeedbackGenerator.roomy ops start -> forall x, base <= x -> arrival x = TransportFeedbackGenerator.first_time x arrived).
Proof.
  intros start Hops Hrun Hb base n arrived Hl Hw.
  exists (fun x => om_find x (TransportFeedbackGenerator.arrivals_us_ g)). split; [by eapply build_fate|].
  destruct (TransportFeedbackGenerator.run_records ops Hops start g rs [] (TransportFeedbackGenerator.twcc_construct_Inv c) Hrun) as [Hg Hf]; [done|].
  split; [exact Hg|]. intros Hr x Hx. apply Hf; [done|done|by right].
Qed.

(** ** Witnesses *)

Definition ex_sent (n : Z) : PacketSendInfo := mkSendInfo n 77 (u16 n) 100 1200 Video 0 false (-1).

Definition ex_arrivals : list TransportFeedbackGenerator.Op :=
  [TransportFeedbackGenerator.Packet 65535 1000; TransportFeedbackGenerator.Packet 1 2500].

Definition ex_gen : TransportFeedbackGenerator.Generator :=
  match TransportFeedbackGenerator.run ex_arrivals (TransportFeedbackGenerator.construct TransportFeedbackGenerator.Config_default) with
  | Ret (g, _) => g
  | _ => TransportFeedbackGenerator.construct TransportFeedbackGenerator.Config_default
  end.

Definition ex_history : PacketHistory :=
  fold_left AddPacket [ex_sent 131071; ex_sent 131072; ex_sent 131073; ex_sent 131074] (new_PacketHistory 2048).

Lemma feedback_end_to_end_witness : exists r g', TransportFeedbackGenerator.BuildFeedback 1 2 3000 ex_gen = (Some r, g') /\
  Build r ex_history = [mkFeedback (ex_sent 131071) true 1; mkFeedback (ex_sent 131072) false 0; mkFeedback (ex_sent 131073) true 2].
Proof.
  destruct (TransportFeedbackGenerator.BuildFeedback 1 2 3000 ex_gen) as [[r|] g'] eqn:E; [|vm_compute in E; discriminate E].
  exists r, g'. split; [reflexivity|].
  destruct (feedback_end_to_end TransportFeedbackGenerator.Config_default ex_arrivals ex_gen [] 1 2 3000 r g' ex_history 1) as (arrival & Hb & _ & Ha).
  - repeat (apply Forall_cons_2; [unfold TransportFeedbackGenerator.clocked, is_u; pow2; lia|]). apply Forall_nil_2.
  - vm_compute. reflexivity.
  - exact E.
  - vm_compute. discriminate.
  - intros j Hj. change (TransportFeedbackGenerator.next_feedback_sequence_ ex_gen) with 65535 in *.
    change (TransportFeedbackGenerator.report_end ex_gen) with 65537 in Hj. change (latest_sequence_ ex_history) with 131074. lia.
  - assert (Hr : TransportFeedbackGenerator.roomy ex_arrivals (TransportFeedbackGenerator.construct TransportFeedbackGenerator.Config_default))
      by (vm_compute; repeat split; intros _; reflexivity).
    specialize (Ha Hr). change (TransportFeedbackGenerator.next_feedback_sequence_ ex_gen) with 65535 in *.
    change (TransportFeedbackGenerator.report_end ex_gen) with 65537 in Hb.
    rewrite Hb. change (seqZ 0 (65537 - 65535 + 1)) with [0; 1; 2]. cbn [base.omap list_omap].
    rewrite !Ha by lia. vm_compute. reflexivity.
Defined.


