(* ===== verification/ResumeBuffer.v ===== *)
(** * Resuming video

    Models [Rtsp/Rtp/VideoResumeBuffer.h] and [.cpp]: while a subscription waits to resume,
    the packets of the current timestamp are collected until they hold a complete IDR access
    unit, which is then handed out at once, preceded by the parameter sets seen meanwhile.

    [packets_] is a finite map (its order is never relied on); a packet is a list of bytes.
    Allocation failure is left out. *)
From S2P Require Import Prelude Bytes RtpWire.

(** ** Payloads *)

Inductive CodecId := CodecUnknown | CodecH264 | CodecH265 | CodecPCMU | CodecPCMA | CodecOPUS | CodecAAC.

Definition U16 (p : list Z) (off : Z) : mres Z :=
  let! b0 := rd p off in let! b1 := rd p (off + 1) in
  Ret (Z.lor (u16 (Z.shiftl b0 8)) b1).

Definition U32 (p : list Z) (off : Z) : mres Z :=
  let! hi := U16 p off in let! lo := U16 p (off + 2) in
  Ret (Z.lor (u32 (Z.shiftl hi 16)) lo).

Definition Before (a b : Z) : bool := negb (a =? b) && (u16 (b - a) <? 0x8000).

Record PayloadInfo := mkPayload { valid : bool; key : bool; parameter : bool; ptype : Z }.

Definition no_payload : PayloadInfo := mkPayload false false false 0.

(** The loop over the units of an aggregate: [unit] is the recursive call, [smallest] the
    least length of a unit, [aggregate] whether its first byte announces another aggregate. *)
Fixpoint units_loop (unit : list Z -> mres PayloadInfo) (smallest : Z) (aggregate : Z -> bool) (limit : Z)
    (fuel : nat) (p : list Z) (offset : Z) (k params : bool) (count : Z) : mres (option (Z * bool * bool * Z)) :=
  match fuel with
  | O => NoFuel
  | S fuel =>
    if negb (offset + 2 <=? blen p) then Ret (Some (offset, k, params, count)) else
    let! len := U16 p offset in
    let offset := offset + 2 in
    if (len <? smallest) || (blen p - offset <? len) then Ret None else
    let! b := rd p offset in
    if aggregate b then Ret None else
    let! data := read_bytes p offset len in
    let! u := unit data in
    if negb (valid u) || (limit <=? ptype u) then Ret None else
    units_loop unit smallest aggregate limit fuel p (offset + len) (k || key u) (params && parameter u) (count + 1)
  end.

Definition units_result (r : option (Z * bool * bool * Z)) (n type : Z) : PayloadInfo :=
  match r with
  | None => no_payload
  | Some (offset, k, params, count) =>
    if (offset =? n) && negb (count =? 0) then mkPayload true k params type else no_payload
  end.

Fixpoint H264 (depth : nat) (p : list Z) : mres PayloadInfo :=
  match depth with
  | O => NoFuel
  | S depth =>
    let n := blen p in
    if n <? 2 then Ret no_payload else
    let! p0 := rd p 0 in
    if negb (Z.land p0 0x80 =? 0) then Ret no_payload else
    let type := Z.land p0 31 in
    if (1 <=? type) && (type <=? 23) then
      let! p1 := rd p 1 in
      Ret (mkPayload true ((type =? 5) && negb (Z.land p1 0x80 =? 0)) ((type =? 7) || (type =? 8)) type)
    else if type =? 28 then
      if n <? 3 then Ret no_payload else
      let! p1 := rd p 1 in
      if negb (Z.land p1 0x20 =? 0) || (Z.land p1 0xc0 =? 0xc0) || (Z.land p1 31 =? 0) || (24 <=? Z.land p1 31)
      then Ret no_payload else
      let! p2 := rd p 2 in
      Ret (mkPayload true (negb (Z.land p1 0x80 =? 0) && (Z.land p1 31 =? 5) && negb (Z.land p2 0x80 =? 0)) false type)
    else if negb (type =? 24) then Ret no_payload else
    let! r := units_loop (H264 depth) 2 (fun b => 24 <=? Z.land b 31) 24 (length p) p 1 false true 0 in
    Ret (units_result r n type)
  end.

Fixpoint H265 (depth : nat) (p : list Z) : mres PayloadInfo :=
  match depth with
  | O => NoFuel
  | S depth =>
    let n := blen p in
    if n <? 3 then Ret no_payload else
    let! p0 := rd p 0 in
    let! p1 := rd p 1 in
    if negb (Z.land p0 0x80 =? 0) || (Z.land p1 7 =? 0) then Ret no_payload else
    let type := Z.land (Z.shiftr p0 1) 63 in
    let! p2 := rd p 2 in
    if type <? 48 then
      Ret (mkPayload true (((type =? 19) || (type =? 20)) && negb (Z.land p2 0x80 =? 0)) ((32 <=? type) && (type <=? 34)) type)
    else if type =? 49 then
      if (n <? 4) || (Z.land p2 0xc0 =? 0xc0) || (48 <=? Z.land p2 63) then Ret no_payload else
      let! p3 := rd p 3 in
      Ret (mkPayload true (negb (Z.land p2 0x80 =? 0) && ((Z.land p2 63 =? 19) || (Z.land p2 63 =? 20)) &&
                           negb (Z.land p3 0x80 =? 0)) false type)
    else if negb (type =? 48) then Ret no_payload else
    let! r := units_loop (H265 depth) 3 (fun b => 48 <=? Z.land (Z.shiftr b 1) 63) 48 (length p) p 2 false true 0 in
    Ret (units_result r n type)
  end.

(** Aggregates are not nested, so two levels are enough. *)
Definition payload_info (codec : CodecId) (p : list Z) : mres PayloadInfo :=
  match codec with
  | CodecH264 => H264 2 p
  | CodecH265 => H265 2 p
  | _ => Ret no_payload
  end.

(** ** The buffer *)

Record ResumeBuffer := mkResume {
  timestamp_ : option Z;
  discarded_timestamp_ : option Z;
  first_ : option Z;
  last_ : option Z;
  key_ : option Z;
  started_ms_ : Z;
  bytes_ : Z;
  packets_ : gmap Z (list Z);
  parameters_ : list (Z * list Z) }.

Definition new_ResumeBuffer : ResumeBuffer := mkResume None None None None None 0 0 ∅ [].

Definition ClearFrame (r : ResumeBuffer) : ResumeBuffer :=
  mkResume None (discarded_timestamp_ r) None None None (started_ms_ r) 0 ∅ (parameters_ r).

Definition Reset (r : ResumeBuffer) : ResumeBuffer :=
  let r := ClearFrame r in
  mkResume (timestamp_ r) None (first_ r) (last_ r) (key_ r) (started_ms_ r) (bytes_ r) (packets_ r) [].

Definition Restart (r : ResumeBuffer) : ResumeBuffer := ClearFrame r.

(** [discarded_timestamp_ = timestamp_; ClearFrame()]. *)
Definition discard (r : ResumeBuffer) : ResumeBuffer :=
  ClearFrame (mkResume (timestamp_ r) (timestamp_ r) (first_ r) (last_ r) (key_ r) (started_ms_ r) (bytes_ r)
    (packets_ r) (parameters_ r)).

(** Where the payload lies, [None] to refuse the packet. *)
Definition payload_range (data : list Z) : mres (option (Z * Z)) :=
  let size := blen data in
  if size <? 12 then Ret None else
  let! b0 := rd data 0 in
  if negb (Z.shiftr b0 6 =? 2) then Ret None else
  let offset := 12 + Z.land b0 15 * 4 in
  if size <? offset then Ret None else
  let! offset :=
    (if negb (Z.land b0 0x10 =? 0) then
       if size <? offset + 4 then Ret None else
       let! words := U16 data (offset + 2) in
       Ret (Some (offset + (4 + words * 4)))
     else Ret (Some offset)) in
  match offset with
  | None => Ret None
  | Some offset =>
    let! end_ :=
      (if negb (Z.land b0 0x20 =? 0) then
         let! pad := rd data (size - 1) in
         if (pad =? 0) || (size - Z.min size offset <? pad) then Ret None else Ret (Some (size - pad))
       else Ret (Some size)) in
    match end_ with
    | None => Ret None
    | Some end_ => if end_ <=? offset then Ret None else Ret (Some (offset, end_))
    end
  end.

(** A parameter packet replaces the one of its type. *)
Definition note_parameter (r : ResumeBuffer) (info : PayloadInfo) (data : list Z) : ResumeBuffer :=
  if parameter info && (blen data <=? 16384) then
    mkResume (timestamp_ r) (discarded_timestamp_ r) (first_ r) (last_ r) (key_ r) (started_ms_ r) (bytes_ r) (packets_ r)
      (List.filter (fun entry => negb (fst entry =? ptype info)) (parameters_ r) ++ [(ptype info, data)])
  else r.

(** The packet enters the frame. *)
Definition store (r : ResumeBuffer) (info : PayloadInfo) (data : list Z) (sequence b1 : Z) : ResumeBuffer :=
  let fresh := match packets_ r !! sequence with None => true | Some _ => false end in
  mkResume (timestamp_ r) (discarded_timestamp_ r)
    (if (key info || parameter info) &&
        match first_ r with None => true | Some f => Before sequence f end then Some sequence else first_ r)
    (if negb (Z.land b1 0x80 =? 0) then Some sequence else last_ r)
    (if key info then Some sequence else key_ r)
    (started_ms_ r)
    (if fresh then bytes_ r + blen data else bytes_ r)
    (if fresh then <[sequence := data]> (packets_ r) else packets_ r)
    (parameters_ r).

(** The numbers of the frame, when it is complete. *)
Definition complete (r : ResumeBuffer) : option (list Z) :=
  match key_ r, first_ r, last_ r with
  | Some k, Some f, Some l =>
    let count := u16 (l - f) + 1 in
    if (512 <? count) || (count <=? u16 (k - f)) then None else
    let seqs := List.map (fun i => u16 (f + i)) (seqZ 0 count) in
    if forallb (fun s => match packets_ r !! s with Some _ => true | None => false end) seqs then Some seqs else None
  | _, _, _ => None
  end.

(** The parameter packets to replay. *)
Definition replayed (r : ResumeBuffer) : list (list Z) :=
  List.filter (fun p => negb (existsb (fun kv => bool_decide (snd kv = p)) (map_to_list (packets_ r))))
    (List.map snd (parameters_ r)).

(** A replayed packet under number [seq] and the timestamp of [data]. *)
Definition restamp (data : list Z) (seq : Z) (packet : list Z) : mres (list Z) :=
  let! p := wr packet 2 (u8 (Z.shiftr seq 8)) in
  let! p := wr p 3 (u8 seq) in
  let! d4 := rd data 4 in let! d5 := rd data 5 in let! d6 := rd data 6 in let! d7 := rd data 7 in
  let! p := wr p 4 d4 in let! p := wr p 5 d5 in let! p := wr p 6 d6 in let! p := wr p 7 d7 in
  let! b1 := rd p 1 in
  wr p 1 (Z.land b1 0x7f).

Fixpoint restamp_all (data : list Z) (seq : Z) (ps : list (list Z)) : mres (list (list Z)) :=
  match ps with
  | [] => Ret []
  | p :: ps =>
    let! p := restamp data (u16 seq) p in
    let! ps := restamp_all data (seq + 1) ps in
    Ret (p :: ps)
  end.

(** [packets_.at] for every number; [Fault] stands for the exception. *)
Fixpoint take_packets (packets : gmap Z (list Z)) (seqs : list Z) : mres (list (list Z)) :=
  match seqs with
  | [] => Ret []
  | s :: seqs =>
    match packets !! s with
    | None => Fault
    | Some p => let! ps := take_packets packets seqs in Ret (p :: ps)
    end
  end.

Definition finish_frame (r : ResumeBuffer) (data : list Z) : mres (ResumeBuffer * list (list Z)) :=
  match complete r with
  | None => Ret (r, [])
  | Some seqs =>
    let ps := replayed r in
    let first := match first_ r with Some f => f | None => 0 end in
    let! params := restamp_all data (first - Z.of_nat (length ps)) ps in
    let! media := take_packets (packets_ r) seqs in
    Ret (ClearFrame r, params ++ media)
  end.

Definition start_frame (r : ResumeBuffer) (timestamp now_ms : Z) : ResumeBuffer :=
  match timestamp_ r with
  | None => mkResume (Some timestamp) (discarded_timestamp_ r) (first_ r) (last_ r) (key_ r) now_ms (bytes_ r)
              (packets_ r) (parameters_ r)
  | Some _ => r
  end.

Definition Push (r : ResumeBuffer) (codec : CodecId) (data : list Z) (now_ms : Z) : mres (ResumeBuffer * list (list Z)) :=
  let! range := payload_range data in
  match range with
  | None => Ret (r, [])
  | Some (offset, end_) =>
    let! payload := read_bytes data offset (end_ - offset) in
    let! info := payload_info codec payload in
    if negb (valid info) then Ret (r, []) else
    let! timestamp := U32 data 4 in
    let! sequence := U16 data 2 in
    if match discarded_timestamp_ r with
       | Some d => (0x80000000 <=? u32 (timestamp - d)) || (timestamp =? d)
       | None => false
       end then Ret (r, []) else
    if match timestamp_ r with
       | Some t => negb (timestamp =? t) && (0x80000000 <=? u32 (timestamp - t))
       | None => false
       end then Ret (r, []) else
    let r := match timestamp_ r with
             | Some t => if negb (timestamp =? t) then ClearFrame r else r
             | None => r
             end in
    let r := note_parameter r info data in
    if match timestamp_ r with Some _ => (now_ms <? started_ms_ r) || (200 <=? now_ms - started_ms_ r) | None => false end
    then Ret (discard r, []) else
    let r := start_frame r timestamp now_ms in
    if (512 <=? Z.of_nat (size (packets_ r))) || (2 * 1024 * 1024 <? bytes_ r + blen data) then Ret (discard r, []) else
    let! b1 := rd data 1 in
    finish_frame (store r info data sequence b1) data
  end.
