(* ===== verification/ResumeProps.v ===== *)
(** * Properties of the resume buffer

    Whatever packets arrive, the buffer does not fault and stays small, and what it hands out
    can be forwarded as one access unit: consecutive sequence numbers, one timestamp, from a
    parameter set or the first slice of an IDR picture to a marker. *)
From S2P Require Import Prelude Bytes RtpWire ResumeBuffer.

(** ** Reading headers *)

Definition h_seq (p : list Z) : Z := bget p 2 * 256 + bget p 3.
Definition h_ts (p : list Z) : Z := bget p 4 * 16777216 + bget p 5 * 65536 + bget p 6 * 256 + bget p 7.
Definition h_marker (p : list Z) : bool := 128 <=? bget p 1.

Lemma U16_ok p off : bytes_ok p -> 0 <= off -> off + 2 <= blen p -> U16 p off = Ret (bget p off * 256 + bget p (off + 1)).
Proof.
  intros Hp H0 H1. unfold U16. rewrite !rd_ok by lia. cbn [mbnd]. by rewrite u16_shift8, lor_be16 by (by apply bget_u8).
Qed.

Lemma h_seq_u p : bytes_ok p -> is_u16 (h_seq p).
Proof. intros Hp. pose proof (bget_range p 2 Hp). pose proof (bget_range p 3 Hp). unfold h_seq, is_u. pow2. lia. Qed.

Lemma U32_ok p : bytes_ok p -> 12 <= blen p -> U32 p 4 = Ret (h_ts p).
Proof.
  intros Hp Hl. unfold U32. rewrite !U16_ok by (done || lia). cbn [mbnd]. do 2 f_equal.
  pose proof (bget_range p 4 Hp). pose proof (bget_range p 5 Hp). pose proof (bget_range p 6 Hp). pose proof (bget_range p 7 Hp).
  change (4 + 1) with 5. change (4 + 2) with 6. change (6 + 1) with 7.
  rewrite (wrap_small 32) by (unfold is_u; rewrite Z.shiftl_mul_pow2 by lia; change (2 ^ 16) with 65536; pow2; lia).
  rewrite lor_shiftl_add by (change (2 ^ 16) with 65536; lia). change (2 ^ 16) with 65536. unfold h_ts. lia.
Qed.

Lemma marker_bit p : bytes_ok p -> negb (Z.land (bget p 1) 0x80 =? 0) = h_marker p.
Proof.
  intros Hp. pose proof (bget_range p 1 Hp). change 0x80 with (2 ^ 7). rewrite land_pow2 by lia. change (2 ^ 7) with 128. unfold h_marker.
  destruct (Z.leb_spec 128 (bget p 1)).
  - replace (bget p 1 / 128) with 1 by words. done.
  - replace (bget p 1 / 128) with 0 by words. done.
Qed.

(** ** Payloads *)

Lemma bget_drop (p : list Z) n : 0 <= n < blen p -> bget (drop (Z.to_nat n) p) 0 = bget p n.
Proof.
  intros Hn. rewrite <- (take_drop (Z.to_nat n) p) at 2. rewrite bget_app_r by (rewrite blen_take; lia).
  rewrite blen_take by lia. by rewrite Z.sub_diag.
Qed.

Lemma bytes_part (p : list Z) a n : bytes_ok p -> bytes_ok (take (Z.to_nat n) (drop (Z.to_nat a) p)).
Proof. intros Hp. by apply Forall_take, Forall_drop. Qed.

Lemma units_loop_returns unit smallest aggregate limit fuel p offset k params count :
  bytes_ok p -> 0 <= offset -> 1 <= smallest -> (Z.to_nat (blen p - offset) < fuel)%nat ->
  (forall b q, rd q 0 = Ret b -> aggregate b = false -> smallest <= blen q -> bytes_ok q -> returns (unit q)) ->
  returns (units_loop unit smallest aggregate limit fuel p offset k params count).
Proof.
  intros Hp H0 Hs Hf Hu. revert offset k params count H0 Hf. induction fuel as [|fuel IH]; intros offset k params count H0 Hf; [lia|].
  cbn [units_loop]. destruct (Z.leb_spec (offset + 2) (blen p)) as [H2|]; cbn [negb]; [|by eexists].
  rewrite U16_ok by (done || lia). cbn [mbnd]. set (len := bget p offset * 256 + bget p (offset + 1)).
  destruct (Z.ltb_spec len smallest); cbn [orb]; [by eexists|]. destruct (Z.ltb_spec (blen p - (offset + 2)) len); [by eexists|].
  rewrite rd_ok by lia. cbn [mbnd]. destruct (aggregate _) eqn:Ea; [by eexists|].
  rewrite read_bytes_ok by lia. cbn [mbnd]. unfold slice. set (q := take (Z.to_nat len) (drop (Z.to_nat (offset + 2)) p)).
  assert (blen q = len) as Lq by (unfold q; rewrite blen_take; [done|]; rewrite blen_drop by lia; lia).
  assert (rd q 0 = Ret (bget p (offset + 2))) as Rq.
  { rewrite rd_ok by lia. f_equal. unfold q. rewrite bget_take by lia. by rewrite bget_drop by lia. }
  destruct (Hu _ q Rq Ea ltac:(lia) (bytes_part p _ _ Hp)) as [u ->]. cbn [mbnd].
  destruct (_ || _); [by eexists|]. apply IH; lia.
Qed.

Lemma H264_single p depth : bytes_ok p -> (forall b, rd p 0 = Ret b -> (24 <=? Z.land b 31) = false) -> returns (H264 (S depth) p).
Proof.
  intros Hp Hb. cbn [H264]. destruct (Z.ltb_spec (blen p) 2); [by eexists|]. rewrite !rd_ok in * by lia. cbn [mbnd].
  specialize (Hb _ eq_refl). destruct (negb _); [by eexists|]. destruct (_ && _); [by eexists|].
  apply Z.leb_gt in Hb. rewrite (proj2 (Z.eqb_neq _ 28)) by lia. rewrite (proj2 (Z.eqb_neq _ 24)) by lia. by eexists.
Qed.

Lemma H264_returns p : bytes_ok p -> returns (H264 2 p).
Proof.
  intros Hp. remember 1%nat as d eqn:Ed. cbn [H264]. destruct (Z.ltb_spec (blen p) 2); [by eexists|]. rewrite !rd_ok by lia. cbn [mbnd].
  destruct (negb _); [by eexists|]. destruct (_ && _); [by eexists|].
  destruct (_ =? 28).
  - destruct (Z.ltb_spec (blen p) 3); [by eexists|]. destruct (_ || _); [by eexists|]. rewrite rd_ok by lia. by eexists.
  - destruct (_ =? 24); [|by eexists]. apply returns_bind; [|intros; by eexists]. apply units_loop_returns; [done|lia|lia|unfold blen in *; lia|].
    intros b q Rq Ha Hl Hq. subst d. apply H264_single; [done|]. intros b' Rb'. rewrite Rq in Rb'. by injection Rb' as <-.
Qed.

Lemma H265_single p depth : bytes_ok p -> (forall b, rd p 0 = Ret b -> (48 <=? Z.land (Z.shiftr b 1) 63) = false) -> returns (H265 (S depth) p).
Proof.
  intros Hp Hb. cbn [H265]. destruct (Z.ltb_spec (blen p) 3); [by eexists|]. rewrite !rd_ok in * by lia. cbn [mbnd].
  specialize (Hb _ eq_refl). destruct (_ || _); [by eexists|]. apply Z.leb_gt in Hb. rewrite (proj2 (Z.ltb_lt _ 48)) by lia. by eexists.
Qed.

Lemma H265_returns p : bytes_ok p -> returns (H265 2 p).
Proof.
  intros Hp. remember 1%nat as d eqn:Ed. cbn [H265]. destruct (Z.ltb_spec (blen p) 3); [by eexists|]. rewrite !rd_ok by lia. cbn [mbnd].
  destruct (_ || _); [by eexists|]. destruct (_ <? 48); [by eexists|]. destruct (_ =? 49).
  - destruct (Z.ltb_spec (blen p) 4); [by eexists|]. destruct (_ || _); [by eexists|]. rewrite rd_ok by lia. by eexists.
  - destruct (_ =? 48); [|by eexists]. apply returns_bind; [|intros; by eexists]. apply units_loop_returns; [done|lia|lia|unfold blen in *; lia|].
    intros b q Rq Ha Hl Hq. subst d. apply H265_single; [done|]. intros b' Rb'. rewrite Rq in Rb'. by injection Rb' as <-.
Qed.

Lemma payload_info_returns codec p : bytes_ok p -> returns (payload_info codec p).
Proof. intros Hp. destruct codec; cbn; [by eexists|by apply H264_returns|by apply H265_returns|by eexists..]. Qed.

Lemma payload_range_spec data : bytes_ok data ->
  exists r, payload_range data = Ret r /\ match r with Some (o, e) => 12 <= o < e /\ e <= blen data | None => True end.
Proof.
  intros Hd. unfold payload_range. destruct (Z.ltb_spec (blen data) 12); [by eexists|]. rewrite rd_ok by lia. cbn [mbnd].
  pose proof (bget_range data 0 Hd). pose proof (land15_range (bget data 0)). set (b0 := bget data 0) in *.
  destruct (negb (Z.shiftr b0 6 =? 2)); [by eexists|]. set (o := 12 + Z.land b0 15 * 4).
  destruct (Z.ltb_spec (blen data) o); [by eexists|].
  match goal with |- context [mbnd (if ?f then ?p else Ret (Some o)) _] =>
    assert (exists x, (if f then p else Ret (Some o)) = Ret x /\ match x with Some y => 12 <= y | None => True end) as (x & -> & Hx) end.
  { destruct (negb (Z.land b0 0x10 =? 0)); [|exists (Some o); split; [done|unfold o; lia]].
    destruct (Z.ltb_spec (blen data) (o + 4)); [by eexists|]. rewrite U16_ok by (done || lia). cbn [mbnd].
    eexists. split; [done|]. pose proof (bget_range data (o + 2) Hd). pose proof (bget_range data (o + 2 + 1) Hd). simpl. lia. }
  cbn [mbnd]. destruct x as [y|]; [|by eexists].
  match goal with |- context [mbnd (if ?f then ?p else Ret (Some (blen data))) _] =>
    assert (exists x, (if f then p else Ret (Some (blen data))) = Ret x /\ match x with Some z => z <= blen data | None => True end) as (x & -> & Hz) end.
  { destruct (negb (Z.land b0 0x20 =? 0)); [|exists (Some (blen data)); split; [done|lia]]. rewrite rd_ok by lia. cbn [mbnd].
    pose proof (bget_range data (blen data - 1) Hd). destruct (_ || _); [by eexists|]. eexists. split; [done|]. simpl. lia. }
  cbn [mbnd]. destruct x as [z|]; [|by eexists]. destruct (Z.leb_spec z y); [by eexists|]. eexists. split; [done|]. simpl. lia.
Qed.

(** ** The invariant *)

(** A pushed packet and what its payload was taken for. *)
Definition classified (e : CodecId * list Z) (info : PayloadInfo) : Prop :=
  exists o en, payload_range (snd e) = Ret (Some (o, en)) /\ valid info = true /\
    payload_info (fst e) (take (Z.to_nat (en - o)) (drop (Z.to_nat o) (snd e))) = Ret info.

(** Among the packets pushed, one of timestamp [ts] and number [s] is such that [P]. *)
Definition seen (hist : list (CodecId * list Z)) (ts : Z) (P : list Z -> PayloadInfo -> bool) (s : Z) : Prop :=
  exists e info, e ∈ hist /\ bytes_ok (snd e) /\ classified e info /\ P (snd e) info = true /\ h_seq (snd e) = s /\ h_ts (snd e) = ts.

Definition starts (_ : list Z) (info : PayloadInfo) : bool := key info || parameter info.
Definition is_idr (_ : list Z) (info : PayloadInfo) : bool := key info.
Definition ends (p : list Z) (_ : PayloadInfo) : bool := h_marker p.

Definition pushed (hist : list (CodecId * list Z)) (p : list Z) : Prop :=
  (exists c, (c, p) ∈ hist) /\ bytes_ok p /\ 12 <= blen p.

Definition total (m : gmap Z (list Z)) : Z := map_fold (fun _ p acc => blen p + acc) 0 m.

Definition parameter_types : list Z := [7; 8; 24; 32; 33; 34; 48].

Definition on_frame (hist : list (CodecId * list Z)) (r : ResumeBuffer) (x : option Z) (P : list Z -> PayloadInfo -> bool) : Prop :=
  match x with None => True | Some s => exists ts, timestamp_ r = Some ts /\ seen hist ts P s end.

Record resume_ok (hist : list (CodecId * list Z)) (r : ResumeBuffer) : Prop := mkResumeOk {
  ro_packets : forall s p, packets_ r !! s = Some p -> pushed hist p /\ h_seq p = s /\ timestamp_ r = Some (h_ts p);
  ro_size : Z.of_nat (size (packets_ r)) <= 512 /\ bytes_ r = total (packets_ r) /\ bytes_ r <= 2097152;
  ro_first : on_frame hist r (first_ r) starts;
  ro_last : on_frame hist r (last_ r) ends;
  ro_key : on_frame hist r (key_ r) is_idr;
  ro_params : NoDup (List.map fst (parameters_ r)) /\
    Forall (fun tp => fst tp ∈ parameter_types /\ pushed hist (snd tp) /\ blen (snd tp) <= 16384) (parameters_ r) }.

Lemma seen_mono hist l ts P s : seen hist ts P s -> seen (hist ++ l) ts P s.
Proof. intros (e & info & He & H). exists e, info. split; [apply elem_of_app; by left|done]. Qed.

Lemma pushed_mono hist l p : pushed hist p -> pushed (hist ++ l) p.
Proof. intros [[c Hc] H]. split; [|done]. exists c. apply elem_of_app. by left. Qed.

Lemma on_frame_mono hist l r x P : on_frame hist r x P -> on_frame (hist ++ l) r x P.
Proof. destruct x as [s|]; [|done]. intros (ts & E & H). exists ts. split; [done|]. by apply seen_mono. Qed.

Lemma resume_mono hist l r : resume_ok hist r -> resume_ok (hist ++ l) r.
Proof.
  intros [H1 H2 H3 H4 H5 [H6 H7]]. constructor; try by apply on_frame_mono.
  - intros s p Hp. destruct (H1 s p Hp) as (? & ? & ?). split; [by apply pushed_mono|done].
  - done.
  - split; [done|]. eapply Forall_impl; [exact H7|]. intros tp (? & ? & ?). split; [done|]. split; [by apply pushed_mono|done].
Qed.

Lemma new_resume_ok : resume_ok [] new_ResumeBuffer.
Proof.
  constructor; [|done|done|done|done|by split; [apply NoDup_nil|apply Forall_nil]].
  intros s p. cbn. by rewrite lookup_empty.
Qed.

(** A frame was given up. *)
Lemma clear_ok hist r d : resume_ok hist r ->
  resume_ok hist (mkResume None d None None None (started_ms_ r) 0 ∅ (parameters_ r)).
Proof. intros [H1 H2 H3 H4 H5 H6]. constructor; [|done|done|done|done|done]. intros s p. cbn. by rewrite lookup_empty. Qed.

Lemma units_result_parameter r n type : parameter (units_result r n type) = true -> ptype (units_result r n type) = type.
Proof. unfold units_result. destruct r as [[[[o k] pa] c]|]; [|done]. by destruct (_ && _). Qed.

Lemma H264_parameter d p info : H264 d p = Ret info -> parameter info = true -> ptype info ∈ parameter_types.
Proof.
  destruct d as [|d]; [done|]. cbn [H264]. intros E Hp. unfold parameter_types.
  destruct (_ <? 2); [by injection E as <-|]. apply mbnd_ret_inv in E as (p0 & _ & E).
  destruct (negb _); [by injection E as <-|]. destruct (_ && _).
  { apply mbnd_ret_inv in E as (p1 & _ & E). injection E as <-. cbn in *. apply orb_true_iff in Hp as [Hp|Hp];
    apply Z.eqb_eq in Hp; rewrite Hp; set_solver. }
  destruct (_ =? 28).
  { destruct (_ <? 3); [by injection E as <-|]. apply mbnd_ret_inv in E as (p1 & _ & E). destruct (_ || _); [by injection E as <-|].
    apply mbnd_ret_inv in E as (p2 & _ & E). by injection E as <-. }
  destruct (Z.eqb_spec (Z.land p0 31) 24) as [E24|]; cbn [negb] in E; [|by injection E as <-].
  apply mbnd_ret_inv in E as (r & _ & E). injection E as <-. rewrite units_result_parameter by done. rewrite E24. set_solver.
Qed.

Lemma H265_parameter d p info : H265 d p = Ret info -> parameter info = true -> ptype info ∈ parameter_types.
Proof.
  destruct d as [|d]; [done|]. cbn [H265]. intros E Hp. unfold parameter_types.
  destruct (_ <? 3); [by injection E as <-|]. apply mbnd_ret_inv in E as (p0 & _ & E). apply mbnd_ret_inv in E as (p1 & _ & E).
  destruct (_ || _); [by injection E as <-|]. apply mbnd_ret_inv in E as (p2 & _ & E). destruct (_ <? 48).
  { injection E as <-. cbn in *. bool_hyps. set (t := Z.land (Z.shiftr p0 1) 63) in *.
    assert (t = 32 \/ t = 33 \/ t = 34) as [->|[->| ->]] by lia; set_solver. }
  destruct (_ =? 49).
  { destruct (_ || _); [by injection E as <-|]. apply mbnd_ret_inv in E as (p3 & _ & E). by injection E as <-. }
  destruct (Z.eqb_spec (Z.land (Z.shiftr p0 1) 63) 48) as [E48|]; cbn [negb] in E; [|by injection E as <-].
  apply mbnd_ret_inv in E as (r & _ & E). injection E as <-. rewrite units_result_parameter by done. rewrite E48. set_solver.
Qed.

Lemma parameter_type c p info : payload_info c p = Ret info -> parameter info = true -> ptype info ∈ parameter_types.
Proof.
  destruct c; unfold payload_info; try (intros [= <-]; done); [apply H264_parameter|apply H265_parameter].
Qed.

Lemma filter_NoDup {A} (f : Z * A -> bool) l : NoDup (List.map fst l) -> NoDup (List.map fst (List.filter f l)).
Proof.
  induction l as [|x l IH]; [done|]. cbn. intros [Hx Hn]%NoDup_cons. destruct (f x); [|auto]. cbn. apply NoDup_cons. split; [|auto].
  intros Hin. apply Hx. apply list_elem_of_fmap in Hin as (y & -> & Hy). apply list_elem_of_In, filter_In in Hy as [Hy _].
  apply (list_elem_of_fmap_2 fst). by apply list_elem_of_In.
Qed.

Lemma note_ok hist r c info data : resume_ok hist r -> (c, data) ∈ hist -> classified (c, data) info -> bytes_ok data -> 12 <= blen data ->
  resume_ok hist (note_parameter r info data).
Proof.
  intros [H1 H2 H3 H4 H5 [H6 H7]] Hin (o & en & _ & _ & Hinfo) Hb Hl. unfold note_parameter.
  destruct (parameter info) eqn:Ep; cbn [andb]; [|by constructor]. destruct (Z.leb_spec (blen data) 16384); [|by constructor].
  constructor; cbn; try done. split.
  - rewrite List.map_app. cbn. apply NoDup_app. split; [|split; [|apply NoDup_singleton]].
    + by apply filter_NoDup.
    + intros x Hx ->%list_elem_of_singleton. apply list_elem_of_fmap in Hx as (tp & E & Hx). apply list_elem_of_In, filter_In in Hx as [_ Hx].
      rewrite <- E, Z.eqb_refl in Hx. done.
  - apply Forall_app. split.
    + apply Forall_forall. intros tp Htp. apply list_elem_of_In, filter_In in Htp as [Htp _]. rewrite Forall_forall in H7. by apply H7, list_elem_of_In.
    + apply Forall_singleton. split; [by eapply parameter_type|]. split; [|done]. split; [by exists c|done].
Qed.

Lemma resume_total_insert (m : gmap Z (list Z)) s p : m !! s = None -> total (<[s := p]> m) = blen p + total m.
Proof.
  intros Hs. unfold total. rewrite map_fold_insert_L; [done| |done]. intros. lia.
Qed.

Lemma start_ok hist r ts now : resume_ok hist r -> match timestamp_ r with Some t => t = ts | None => True end ->
  resume_ok hist (start_frame r ts now) /\ timestamp_ (start_frame r ts now) = Some ts.
Proof.
  intros Hok Ht. unfold start_frame. destruct (timestamp_ r) as [t|] eqn:Et; [by subst|]. split; [|done].
  destruct Hok as [H1 H2 H3 H4 H5 H6].
  assert (forall x P, on_frame hist r x P -> x = None) as Hn
    by (intros [s|] P; [|done]; intros (ts' & E & _); congruence).
  constructor; cbn; [|done|by rewrite (Hn _ _ H3)|by rewrite (Hn _ _ H4)|by rewrite (Hn _ _ H5)|done].
  intros s p Hp. destruct (H1 s p Hp) as (_ & _ & E). congruence.
Qed.

Lemma resume_store_ok hist r c info data ts : resume_ok hist r -> timestamp_ r = Some ts -> h_ts data = ts ->
  (c, data) ∈ hist -> classified (c, data) info -> bytes_ok data -> 12 <= blen data ->
  Z.of_nat (size (packets_ r)) < 512 -> bytes_ r + blen data <= 2097152 ->
  resume_ok hist (store r info data (h_seq data) (bget data 1)).
Proof.
  intros [H1 H2 H3 H4 H5 H6] Ets Hts Hin Hcl Hb Hl Hsz Hby.
  assert (forall P, P data info = true -> on_frame hist r (Some (h_seq data)) P) as Hnew.
  { intros P HP. exists ts. split; [done|]. exists (c, data), info. by repeat (split; [done|]). }
  assert (forall x P, on_frame hist r x P -> on_frame hist (store r info data (h_seq data) (bget data 1)) x P) as Hsame
    by (intros [s|] P; done).
  constructor; cbn [packets_ bytes_ first_ last_ key_ parameters_ store].
  - intros s p Hp. cbn [timestamp_ store]. destruct (packets_ r !! h_seq data) eqn:Ed; [by apply H1|].
    apply lookup_insert_Some in Hp as [[<- <-]|[_ Hp]]; [|by apply H1].
    split; [split; [by exists c|done]|]. split; [done|]. by rewrite Ets, Hts.
  - destruct H2 as (A & B & C). destruct (packets_ r !! h_seq data) eqn:Ed; [done|].
    rewrite map_size_insert_None, resume_total_insert by done. lia.
  - apply Hsame. destruct (_ && _) eqn:E; [|done]. apply andb_true_iff in E as [E _]. by apply Hnew.
  - apply Hsame. rewrite marker_bit by done. destruct (h_marker data) eqn:E; [|done]. by apply Hnew.
  - apply Hsame. destruct (key info) eqn:E; [|done]. by apply Hnew.
  - done.
Qed.

(** ** The frame *)

(** [q] is [p] under another number and timestamp, without a marker. *)
Definition restamped (p q : list Z) : Prop :=
  bytes_ok q /\ blen q = blen p /\ bget q 0 = bget p 0 /\ bget q 1 = bget p 1 mod 128 /\ drop 8 q = drop 8 p.

Lemma restamp_spec data seq p : bytes_ok data -> 12 <= blen data -> bytes_ok p -> 12 <= blen p -> is_u16 seq ->
  exists q, restamp data seq p = Ret q /\ restamped p q /\ h_seq q = seq /\ h_ts q = h_ts data.
Proof.
  intros Hd Hdl Hp Hpl Hs. destruct (twelve p Hpl) as (b0 & b1 & b2 & b3 & b4 & b5 & b6 & b7 & b8 & b9 & b10 & b11 & l & ->).
  unfold restamp. rewrite !(rd_ok data) by lia.
  do 2 (rewrite wr_ok by len12; cbn [mbnd]; simpl insert). cbn [mbnd].
  do 4 (rewrite wr_ok by len12; cbn [mbnd]; simpl insert). rewrite rd_ok by len12. cbn [mbnd].
  rewrite wr_ok by len12. simpl insert. eexists. split; [done|]. change (bget (b0 :: b1 :: _) 1) with b1.
  split; [|split; [|done]].
  - split; [|split; [by rewrite !blen_cons|]; split; [done|]; split; [exact (land_7f b1)|done]].
    do 2 (apply Forall_cons_1 in Hp as [? Hp]). do 6 (apply Forall_cons_1 in Hp as [_ Hp]).
    apply Forall_cons_2; [done|]. apply Forall_cons_2; [change (is_u8 (Z.land b1 0x7f)); rewrite land_7f; unfold is_u in *; pow2; words|].
    do 2 (apply Forall_cons_2; [apply wrap_range; lia|]). by do 4 (apply Forall_cons_2; [by apply bget_u8|]).
  - change (u8 (Z.shiftr seq 8) * 256 + u8 seq = seq).
    rewrite u8_shift by lia. replace (u8 seq) with (byte_of seq 0) by (rewrite <- (u8_shift seq 0) by lia; by rewrite Z.shiftr_0_r).
    by apply be16_value.
Qed.

Lemma restamp_all_spec data start ps : bytes_ok data -> 12 <= blen data -> Forall (fun p => bytes_ok p /\ 12 <= blen p) ps ->
  exists qs, restamp_all data start ps = Ret qs /\ Forall2 restamped ps qs /\
    forall i q, qs !! i = Some q -> h_seq q = u16 (start + Z.of_nat i) /\ h_ts q = h_ts data.
Proof.
  intros Hd Hl. revert start. induction ps as [|p ps IH]; intros start Hps; cbn [restamp_all].
  { exists []. split; [done|]. split; [done|]. intros i q. by rewrite lookup_nil. }
  apply Forall_cons_1 in Hps as [[Hp Hpl] Hps].
  destruct (restamp_spec data (u16 start) p Hd Hl Hp Hpl) as (q & -> & Hr & Hs & Ht); [apply wrap_range; lia|].
  destruct (IH (start + 1) Hps) as (qs & -> & Hrs & Hall). cbn [mbnd]. exists (q :: qs). split; [done|]. split; [by constructor|].
  intros [|i] q'; simpl; [intros [= <-]; by rewrite Z.add_0_r|]. intros Hq. destruct (Hall i q' Hq) as [-> ->].
  split; [|done]. f_equal. lia.
Qed.

Lemma take_packets_spec (m : gmap Z (list Z)) seqs : Forall (fun s => is_Some (m !! s)) seqs ->
  exists ps, take_packets m seqs = Ret ps /\ Forall2 (fun s p => m !! s = Some p) seqs ps.
Proof.
  induction 1 as [|s seqs [p Hp] Hs (ps & E & H)]; cbn [take_packets]; [by exists []|].
  rewrite Hp, E. cbn [mbnd]. exists (p :: ps). split; [done|]. by constructor.
Qed.

(** What can be forwarded as one access unit of timestamp [ts], from number [f] on. *)
Definition frame_ok (hist : list (CodecId * list Z)) (ts : Z) (frame : list (list Z)) : Prop :=
  exists params media f, frame = params ++ media /\ media <> [] /\ (length media <= 512)%nat /\
    (forall i p, frame !! i = Some p -> h_seq p = u16 (f - Z.of_nat (length params) + Z.of_nat i) /\ h_ts p = ts) /\
    Forall (pushed hist) media /\ Forall (fun q => exists p, pushed hist p /\ restamped p q) params /\
    seen hist ts starts f /\ seen hist ts ends (u16 (f + Z.of_nat (length media) - 1)) /\
    exists k, seen hist ts is_idr k /\ u16 (k - f) < Z.of_nat (length media).

Lemma complete_spec r seqs : complete r = Some seqs ->
  exists k f l, key_ r = Some k /\ first_ r = Some f /\ last_ r = Some l /\
  let count := u16 (l - f) + 1 in
  count <= 512 /\ u16 (k - f) < count /\ seqs = List.map (fun i => u16 (f + i)) (seqZ 0 count) /\
  Forall (fun s => is_Some (packets_ r !! s)) seqs.
Proof.
  unfold complete. destruct (key_ r) as [k|]; [|done]. destruct (first_ r) as [f|]; [|done]. destruct (last_ r) as [l|]; [|done].
  destruct (Z.ltb_spec 512 (u16 (l - f) + 1)); cbn [orb]; [done|]. destruct (Z.leb_spec (u16 (l - f) + 1) (u16 (k - f))); [done|].
  destruct (forallb _ _) eqn:E; [|done]. intros [= <-]. exists k, f, l. do 5 (split; [done|]). split; [done|].
  apply Forall_forall. intros s Hs. rewrite forallb_forall in E. specialize (E s ltac:(by apply list_elem_of_In)).
  destruct (packets_ r !! s); [by eexists|done].
Qed.

Lemma finish_frame_spec hist r c data : resume_ok hist r -> (c, data) ∈ hist -> bytes_ok data -> 12 <= blen data ->
  timestamp_ r = Some (h_ts data) ->
  exists r' frame, finish_frame r data = Ret (r', frame) /\ resume_ok hist r' /\ (frame <> [] -> frame_ok hist (h_ts data) frame).
Proof.
  intros Hok Hin Hb Hl Hts. unfold finish_frame. destruct (complete r) as [seqs|] eqn:Ec; [|by eexists _, _].
  apply complete_spec in Ec as (k & f & l & Ek & Ef & El & Hcnt & Hkf & -> & Hseqs). rewrite Ef.
  pose proof Hok as [H1 H2 H3 H4 H5 [H6 H7]]. set (ps := replayed r).
  assert (Forall (pushed hist) ps) as Hps.
  { apply Forall_forall. intros p Hp. apply list_elem_of_In, filter_In in Hp as [Hp _]. apply List.in_map_iff in Hp as (tp & <- & Htp).
    rewrite Forall_forall in H7. by apply H7, list_elem_of_In. }
  destruct (restamp_all_spec data (f - Z.of_nat (length ps)) ps Hb Hl) as (qs & -> & Hqs & Hqall).
  { eapply Forall_impl; [exact Hps|]. by intros p (_ & ? & ?). }
  destruct (take_packets_spec (packets_ r) _ Hseqs) as (media & -> & Hm). cbn [mbnd].
  eexists _, _. split; [done|]. split; [by apply clear_ok|]. intros _.
  pose proof (Forall2_length _ _ _ Hqs) as Lq. pose proof (Forall2_length _ _ _ Hm) as Lm.
  rewrite length_map, length_seqZ in Lm. assert (0 <= u16 (l - f)) as Hc0 by (apply wrap_range; lia).
  assert (Z.of_nat (length media) = u16 (l - f) + 1) as Lmedia by lia.
  rewrite Ef in H3. rewrite El in H4. rewrite Ek in H5. destruct H3 as (t3 & E3 & S3). destruct H4 as (t4 & E4 & S4). destruct H5 as (t5 & E5 & S5).
  rewrite Hts in E3, E4, E5. injection E3 as <-. injection E4 as <-. injection E5 as <-.
  exists qs, media, f. split; [done|]. split; [intros ->; simpl in Lmedia; lia|]. split; [lia|]. split; [|split; [|split; [|split; [done|split]]]].
  - intros i p Hi. apply lookup_app_Some in Hi as [Hi|[Hge Hi]].
    + rewrite <- Lq. by apply Hqall.
    + destruct (Forall2_lookup_r _ _ _ _ _ Hm Hi) as (s & Hs & Hp). apply list_lookup_fmap_Some in Hs as (j & -> & Hj).
      apply lookup_seqZ in Hj as [-> _]. destruct (H1 _ _ Hp) as (_ & -> & E). rewrite Hts in E. injection E as ->.
      split; [|done]. f_equal. lia.
  - apply Forall_forall. intros p Hp. apply list_elem_of_lookup in Hp as [i Hi].
    destruct (Forall2_lookup_r _ _ _ _ _ Hm Hi) as (s & _ & Hp). by apply (H1 _ _ Hp).
  - apply Forall_forall. intros q Hq. apply list_elem_of_lookup in Hq as [i Hi].
    destruct (Forall2_lookup_r _ _ _ _ _ Hqs Hi) as (p & Hp & Hr). exists p. split; [|done].
    rewrite Forall_forall in Hps. by apply Hps, list_elem_of_lookup_2 with i.
  - replace (u16 (f + Z.of_nat (length media) - 1)) with l; [done|]. rewrite Lmedia.
    destruct S4 as (el & il & _ & Hbl & _ & _ & <- & _). pose proof (h_seq_u _ Hbl) as Hu. unfold is_u, wrap in *. pow2. words.
  - exists k. split; [done|]. lia.
Qed.

(** ** Pushing *)

Lemma push_spec hist r codec data now : resume_ok hist r -> bytes_ok data ->
  exists r' frame, Push r codec data now = Ret (r', frame) /\ resume_ok (hist ++ [(codec, data)]) r' /\
  (frame <> [] -> frame_ok (hist ++ [(codec, data)]) (h_ts data) frame).
Proof.
  intros Hok Hb. apply (resume_mono _ [(codec, data)]) in Hok. set (hist' := hist ++ [(codec, data)]) in *.
  assert ((codec, data) ∈ hist') as Hin by (apply elem_of_app; right; by apply list_elem_of_singleton).
  assert (forall r1, resume_ok hist' r1 -> exists r' frame, Ret (r1, []) = Ret (r', frame) /\ resume_ok hist' r' /\
    (frame <> [] -> frame_ok hist' (h_ts data) frame)) as Hnone by (intros r1 H1; by exists r1, []).
  unfold Push. destruct (payload_range_spec data Hb) as (range & Er & Hr). rewrite Er. cbn [mbnd].
  destruct range as [[o en]|]; [|by apply Hnone]. rewrite read_bytes_ok by lia. cbn [mbnd]. unfold slice.
  destruct (payload_info_returns codec (take (Z.to_nat (en - o)) (drop (Z.to_nat o) data)) (bytes_part data o _ Hb)) as [info Ei].
  rewrite Ei. cbn [mbnd]. destruct (valid info) eqn:Ev; cbn [negb]; [|by apply Hnone].
  assert (classified (codec, data) info) as Hcl by (exists o, en; done). assert (12 <= blen data) as Hl by lia.
  rewrite U32_ok, U16_ok by (done || lia). cbn [mbnd]. change (bget data 2 * 256 + bget data (2 + 1)) with (h_seq data).
  match goal with |- context [if ?b then Ret (r, []) else _] => destruct b; [by apply Hnone|] end.
  match goal with |- context [if ?b then Ret (r, []) else _] => destruct b; [by apply Hnone|] end.
  set (r1 := match timestamp_ r with Some t => _ | None => r end).
  assert (resume_ok hist' r1 /\ match timestamp_ r1 with Some t => t = h_ts data | None => True end) as [Hok1 Ht1].
  { unfold r1. destruct (timestamp_ r) as [t|] eqn:Et; [|by rewrite Et]. destruct (Z.eqb_spec (h_ts data) t) as [->|]; cbn [negb].
    - by rewrite Et.
    - split; [by apply clear_ok|done]. }
  pose proof (note_ok hist' r1 codec info data Hok1 Hin Hcl Hb Hl) as Hok2. set (r2 := note_parameter r1 info data) in *.
  assert (timestamp_ r2 = timestamp_ r1) as Et2 by (unfold r2, note_parameter; by destruct (_ && _)).
  match goal with |- context [if ?b then Ret (discard r2, []) else _] => destruct b; [apply Hnone, (clear_ok hist' r2 _ Hok2)|] end.
  destruct (start_ok hist' r2 (h_ts data) now Hok2) as [Hok3 Et3]; [by rewrite Et2|]. set (r3 := start_frame r2 (h_ts data) now) in *.
  destruct (Z.leb_spec 512 (Z.of_nat (size (packets_ r3)))) as [|Hsz]; cbn [orb]; [apply Hnone, (clear_ok hist' r3 _ Hok3)|].
  destruct (Z.ltb_spec (2 * 1024 * 1024) (bytes_ r3 + blen data)) as [|Hby]; [apply Hnone, (clear_ok hist' r3 _ Hok3)|].
  rewrite rd_ok by lia. cbn [mbnd].
  apply (finish_frame_spec hist' _ codec); try done. apply (resume_store_ok hist' r3 codec info data (h_ts data)); try done; lia.
Qed.

(** ** Runs *)

Inductive ResumeOp := RPush (codec : CodecId) (data : list Z) (now_ms : Z) | RReset | RRestart.

(** The frames handed out, each with the timestamp of the packet that completed it. *)
Fixpoint resume_run (r : ResumeBuffer) (ops : list ResumeOp) : mres (ResumeBuffer * list (Z * list (list Z))) :=
  match ops with
  | [] => Ret (r, [])
  | RPush codec data now :: ops =>
    let! '(r, frame) := Push r codec data now in
    let! '(r, frames) := resume_run r ops in
    Ret (r, match frame with [] => frames | _ => (h_ts data, frame) :: frames end)
  | RReset :: ops => resume_run (Reset r) ops
  | RRestart :: ops => resume_run (Restart r) ops
  end.

Definition resume_op_ok (op : ResumeOp) : Prop := match op with RPush _ data _ => bytes_ok data | _ => True end.

Definition pushes (ops : list ResumeOp) : list (CodecId * list Z) :=
  concat (List.map (fun op => match op with RPush c d _ => [(c, d)] | _ => [] end) ops).

Lemma frame_mono hist l ts frame : frame_ok hist ts frame -> frame_ok (hist ++ l) ts frame.
Proof.
  intros (params & media & f & H1 & H2 & H3 & H4 & H5 & H6 & H7 & H8 & k & H9 & H10).
  exists params, media, f. do 4 (split; [done|]). split; [eapply Forall_impl; [exact H5|]; intros p; by apply pushed_mono|].
  split; [eapply Forall_impl; [exact H6|]; intros q (p & Hp & Hr); exists p; split; [by apply pushed_mono|done]|].
  split; [by apply seen_mono|]. split; [by apply seen_mono|]. exists k. split; [by apply seen_mono|done].
Qed.

Lemma resume_run_ok ops r hist : resume_ok hist r -> Forall resume_op_ok ops ->
  exists r' frames, resume_run r ops = Ret (r', frames) /\ resume_ok (hist ++ pushes ops) r' /\
  Forall (fun tf => frame_ok (hist ++ pushes ops) (fst tf) (snd tf)) frames.
Proof.
  revert r hist. induction ops as [|op ops IH]; intros r hist Hok Hops; cbn [resume_run].
  { exists r, []. unfold pushes. cbn. by rewrite app_nil_r. }
  apply Forall_cons_1 in Hops as [Hop Hops]. destruct op as [codec data now| |].
  - destruct (push_spec hist r codec data now Hok Hop) as (r1 & frame & -> & H1 & Hf). cbn [mbnd].
    destruct (IH r1 _ H1 Hops) as (r2 & frames & -> & H2 & Hfs). cbn [mbnd]. eexists _, _. split; [done|].
    change (pushes (RPush codec data now :: ops)) with ([(codec, data)] ++ pushes ops). rewrite app_assoc. split; [done|].
    destruct frame as [|p frame]; [done|]. apply Forall_cons_2; [|done]. cbn [fst snd]. apply frame_mono. by apply Hf.
  - apply (IH (Reset r) hist); [|done]. pose proof (clear_ok hist r None Hok) as [H1 H2 H3 H4 H5 _].
    constructor; try done. split; [by apply NoDup_nil|by apply Forall_nil].
  - apply (IH (Restart r) hist); [|done]. by apply clear_ok.
Qed.

Lemma parameters_few hist r : resume_ok hist r -> (length (parameters_ r) <= 7)%nat /\
  Forall (fun tp => blen (snd tp) <= 16384) (parameters_ r).
Proof.
  intros [_ _ _ _ _ [Hn Hp]]. split.
  - rewrite <- (length_map fst). change 7%nat with (length parameter_types). apply submseteq_length, NoDup_submseteq; [done|].
    intros t Ht. apply list_elem_of_fmap in Ht as (tp & -> & Htp). rewrite Forall_forall in Hp. by apply (Hp tp).
  - eapply Forall_impl; [exact Hp|]. by intros tp (_ & _ & ?).
Qed.

(** No two different packets share a number and a timestamp: a sender that does not reuse numbers
    within a picture, and a network that does not alter packets. *)
Definition consistent (hist : list (CodecId * list Z)) : Prop :=
  forall e e', e ∈ hist -> e' ∈ hist -> h_seq (snd e) = h_seq (snd e') -> h_ts (snd e) = h_ts (snd e') -> e = e'.

(** Parameter packets and an access unit: its first packet is a parameter set or begins an IDR
    picture, its last has the marker, and the beginning of an IDR picture is among them. *)
Definition key_unit (hist : list (CodecId * list Z)) (frame : list (list Z)) : Prop :=
  exists params media, frame = params ++ media /\ Forall (fun q => exists p, pushed hist p /\ restamped p q) params /\
    (exists e info, e ∈ hist /\ head media = Some (snd e) /\ classified e info /\ starts (snd e) info = true) /\
    (exists p, last media = Some p /\ h_marker p = true) /\
    (exists e info, e ∈ hist /\ snd e ∈ media /\ classified e info /\ key info = true).

Lemma frame_key_unit hist ts frame : consistent hist -> frame_ok hist ts frame -> key_unit hist frame.
Proof.
  intros Hc (params & media & f & -> & Hm & _ & Hn & Hpm & Hps & Hst & Hen & k & Hk & Hkf).
  assert (forall i p, media !! i = Some p -> h_seq p = u16 (f + Z.of_nat i) /\ h_ts p = ts) as Hnum.
  { intros i p Hp. destruct (Hn (length params + i)%nat p) as [E ?]; [by rewrite lookup_app_r, Nat.add_comm, Nat.add_sub by lia|].
    split; [|done]. rewrite E. f_equal. lia. }
  assert (forall i p P s, media !! i = Some p -> seen hist ts P s -> u16 (f + Z.of_nat i) = s ->
    exists e info, e ∈ hist /\ snd e = p /\ classified e info /\ P (snd e) info = true) as Hseen.
  { intros i p P s Hp (e & info & He & _ & Hcl & HP & Hs & Ht) Hi. destruct (Hnum i p Hp) as [Hs' Ht'].
    assert (exists c, (c, p) ∈ hist) as [c Hcp] by (rewrite Forall_forall in Hpm; apply (Hpm p); by eapply list_elem_of_lookup_2).
    assert (e = (c, p)) as -> by (apply Hc; [done|done|cbn; congruence..]). exists (c, p), info. done. }
  assert (is_u16 f) as Uf by (destruct Hst as (e & info & _ & Hb & _ & _ & <- & _); by apply h_seq_u).
  assert (is_u16 k) as Uk by (destruct Hk as (e & info & _ & Hb & _ & _ & <- & _); by apply h_seq_u).
  assert (exists p0 rest, media = p0 :: rest) as (p0 & rest & Em) by (destruct media; [done|eauto]).
  assert (1 <= Z.of_nat (length media)) as Hlen by (rewrite Em; simpl; lia).
  exists params, media. split; [done|]. split; [done|]. split; [|split].
  - destruct (Hseen 0%nat p0 starts f) as (e & info & He & Ee & Hcl & HP); [by rewrite Em|done|rewrite Z.add_0_r; by apply wrap_small|].
    exists e, info. rewrite Em, Ee. rewrite Ee in HP. done.
  - destruct (last media) as [p|] eqn:El; [|by rewrite last_None, Em in El]. exists p. split; [done|]. rewrite last_lookup in El.
    destruct (Hseen _ p ends _ El Hen) as (e & info & _ & <- & _ & HP); [f_equal; lia|done].
  - assert (0 <= u16 (k - f)) as H0 by (apply wrap_range; lia).
    destruct (lookup_lt_is_Some_2 media (Z.to_nat (u16 (k - f)))) as [p Hp]; [lia|].
    destruct (Hseen _ p is_idr k Hp Hk) as (e & info & He & Ee & Hcl & HP).
    { rewrite Z2Nat.id by lia. unfold wrap, is_u in *. pow2. Z.div_mod_to_equations. lia. }
    exists e, info. split; [done|]. rewrite Ee. split; [by eapply list_elem_of_lookup_2|]. done.
Qed.

(** C34. Resumption frames.  Whatever packets are pushed, the buffer never faults and stays
    small: at most 512 packets and 2 MiB of the current access unit and seven parameter
    packets of at most 16 KiB.  Each frame it hands out has consecutive sequence numbers (modulo
    2^16) and equal timestamps; first come restamped copies of packets pushed before, then
    at most 512 packets exactly as they were pushed.  Provided that no two different packets
    pushed share a number and a timestamp, the first of these is a parameter set or the beginning
    of an IDR picture, the last has the marker that ends an access unit, and the beginning of an
    IDR picture is among them.  (Otherwise the buffer keeps the first packet of a number with
    what it learned from the second.) *)
Theorem resume_frames_sound ops : Forall resume_op_ok ops ->
  exists r frames, resume_run new_ResumeBuffer ops = Ret (r, frames) /\
  Forall (fun tf => frame_ok (pushes ops) (fst tf) (snd tf) /\
                    (consistent (pushes ops) -> key_unit (pushes ops) (snd tf))) frames /\
  Z.of_nat (size (packets_ r)) <= 512 /\ total (packets_ r) <= 2097152 /\
  (length (parameters_ r) <= 7)%nat /\ Forall (fun tp => blen (snd tp) <= 16384) (parameters_ r).
Proof.
  intros Hops. destruct (resume_run_ok ops _ [] new_resume_ok Hops) as (r & frames & E & Hok & Hf).
  exists r, frames. split; [done|]. split.
  { eapply Forall_impl; [exact Hf|]. intros tf Htf. split; [done|]. intros Hc. exact (frame_key_unit _ _ _ Hc Htf). }
  destruct (ro_size _ _ Hok) as (H1 & H2 & H3).
  split; [done|]. split; [by rewrite <- H2|]. by eapply parameters_few.
Qed.

(** ** An access unit that arrives in order *)

Definition sum_len (ds : list (list Z)) : Z := Z.of_nat (list_sum (List.map length ds)).

Lemma sum_len_app a b : sum_len (a ++ b) = sum_len a + sum_len b.
Proof. unfold sum_len. rewrite List.map_app, list_sum_app. lia. Qed.

Section InOrder.
Context (c : CodecId) (ts f t0 : Z).

Definition fresh_ts (r : ResumeBuffer) : Prop :=
  match discarded_timestamp_ r with Some d => u32 (ts - d) < 0x80000000 /\ ts <> d | None => True end.

Lemma fresh_ts_spec r : fresh_ts r ->
  match discarded_timestamp_ r with Some d => (0x80000000 <=? u32 (ts - d)) || (ts =? d) | None => false end = false.
Proof.
  unfold fresh_ts. destruct (discarded_timestamp_ r) as [dt|]; [|done]. intros [Ha Hb].
  rewrite (proj2 (Z.leb_gt _ _)), (proj2 (Z.eqb_neq _ _)) by (done || lia). done.
Qed.

(** The buffer holds [ds], numbered from [f]; [keyed] says whether the picture has begun. *)
Record collecting (r : ResumeBuffer) (ds : list (list Z)) (keyed : bool) : Prop := mkCollecting {
  co_ts : timestamp_ r = Some ts;
  co_start : started_ms_ r = t0;
  co_first : first_ r = match ds with [] => None | _ => Some f end;
  co_bytes : bytes_ r = sum_len ds;
  co_size : size (packets_ r) = length ds;
  co_packets : forall s d, packets_ r !! s = Some d <-> exists i, ds !! i = Some d /\ s = u16 (f + Z.of_nat i);
  co_key : if keyed then exists j, (j < length ds)%nat /\ key_ r = Some (u16 (f + Z.of_nat j)) else key_ r = None;
  co_fresh : fresh_ts r }.

(** The next packet of the unit. *)
Record next_packet (ds : list (list Z)) (d : list Z) (info : PayloadInfo) : Prop := mkNext {
  nx_bytes : bytes_ok d;
  nx_info : classified (c, d) info;
  nx_ts : h_ts d = ts;
  nx_seq : h_seq d = u16 (f + Z.of_nat (length ds));
  nx_first : ds = [] -> key info || parameter info = true;
  nx_room : Z.of_nat (length ds) < 512 /\ sum_len ds + blen d <= 2097152 }.

Lemma not_before i : (0 < i < 512)%nat -> is_u16 f -> Before (u16 (f + Z.of_nat i)) f = false.
Proof.
  intros Hi Hf. unfold Before. apply andb_false_iff. right. apply Z.ltb_ge. unfold is_u, wrap in *. pow2. words.
Qed.

Lemma store_collecting r ds keyed d info : is_u16 f -> collecting r ds keyed -> next_packet ds d info ->
  collecting (store r info d (h_seq d) (bget d 1)) (ds ++ [d]) (keyed || key info).
Proof.
  intros Hf [H1 H2 H4 H5 H6 H7 H8 H9] [N1 N2 N3 N4 N5 N6].
  assert (packets_ r !! h_seq d = None) as Hnew.
  { apply eq_None_not_Some. intros [d' Hd']. apply H7 in Hd' as (i & Hi & E). apply lookup_lt_Some in Hi. rewrite N4 in E.
    unfold wrap, is_u in *. pow2. words. }
  constructor; cbn [timestamp_ started_ms_ last_ first_ bytes_ packets_ key_ store discarded_timestamp_]; try done.
  - rewrite H4. destruct ds as [|d0 ds]; cbn [app].
    + rewrite N5 by done. cbn. rewrite N4. simpl. rewrite Z.add_0_r. f_equal. by apply wrap_small.
    + rewrite N4. simpl length. rewrite not_before by (done || (simpl in N6; lia)). by rewrite andb_false_r.
  - rewrite Hnew, H5, sum_len_app. unfold sum_len, blen. simpl. lia.
  - rewrite Hnew, map_size_insert_None, H6, length_app by done. simpl. lia.
  - intros s x. rewrite Hnew, lookup_insert_Some, H7. split.
    + intros [[<- <-]|[Hs (i & Hi & ->)]].
      * exists (length ds). split; [by rewrite lookup_app_r, Nat.sub_diag|done].
      * exists i. split; [|done]. rewrite lookup_app_l; [done|]. by eapply lookup_lt_Some.
    + intros (i & Hi & ->). apply lookup_app_Some in Hi as [Hi|[Hge Hi]].
      * right. split; [|by exists i]. rewrite N4. apply lookup_lt_Some in Hi. intros E. unfold wrap in E. pow2. words.
      * left. apply list_lookup_singleton_Some in Hi as [Hi ->]. split; [|done]. rewrite N4. do 2 f_equal. lia.
  - destruct (key info); rewrite ?orb_true_r, ?orb_false_r.
    + exists (length ds). rewrite length_app. simpl. split; [lia|by rewrite N4].
    + destruct keyed; [|done]. destruct H8 as (j & Hj & E). exists j. rewrite length_app. split; [lia|done].
Qed.

(** What precedes storing. *)
Lemma push_collecting r ds keyed d info now : collecting r ds keyed -> next_packet ds d info -> t0 <= now < t0 + 200 ->
  exists r3, Push r c d now = finish_frame (store r3 info d (h_seq d) (bget d 1)) d /\ collecting r3 ds keyed /\ last_ r3 = last_ r.
Proof.
  intros [H1 H2 H4 H5 H6 H7 H8 H9] [N1 N2 N3 N4 N5 N6] Hnow. destruct N2 as (o & en & Er & Ev & Ei). cbn [fst snd] in *.
  destruct (payload_range_spec d N1) as (x & Ex & Hx). rewrite Er in Ex. injection Ex as <-.
  unfold Push. rewrite Er. cbn [mbnd]. rewrite read_bytes_ok by lia. cbn [mbnd]. unfold slice. rewrite Ei. cbn [mbnd]. rewrite Ev. cbn [negb].
  rewrite U32_ok, U16_ok by (done || lia). cbn [mbnd]. change (bget d 2 * 256 + bget d (2 + 1)) with (h_seq d). rewrite N3.
  assert (match discarded_timestamp_ r with Some d => (0x80000000 <=? u32 (ts - d)) || (ts =? d) | None => false end = false) as ->.
  { by apply fresh_ts_spec. }
  rewrite H1, Z.eqb_refl. cbn [negb andb].
  assert (collecting (note_parameter r info d) ds keyed) as Hn by (unfold note_parameter; destruct (_ && _); by constructor).
  set (r2 := note_parameter r info d) in *. destruct Hn as [M1 M2 M4 M5 M6 M7 M8 M9].
  rewrite M1, M2, (proj2 (Z.ltb_ge now t0)), (proj2 (Z.leb_gt 200 _)) by lia. cbn [orb].
  assert (start_frame r2 ts now = r2) as -> by (unfold start_frame; by rewrite M1).
  rewrite M6, M5, (proj2 (Z.leb_gt 512 _)), (proj2 (Z.ltb_ge (2 * 1024 * 1024) _)) by lia. cbn [orb].
  rewrite rd_ok by lia. cbn [mbnd]. exists r2. split; [done|]. split; [by constructor|]. unfold r2, note_parameter. by destruct (_ && _).
Qed.

Lemma push_more r ds keyed d info now : is_u16 f -> collecting r ds keyed -> next_packet ds d info -> t0 <= now < t0 + 200 ->
  last_ r = None -> h_marker d = false ->
  exists r', Push r c d now = Ret (r', []) /\ collecting r' (ds ++ [d]) (keyed || key info) /\ last_ r' = None.
Proof.
  intros Hf Hc Hn Hnow Hl Hm. destruct (push_collecting r ds keyed d info now Hc Hn Hnow) as (r3 & -> & Hc3 & Hl3).
  pose proof (store_collecting r3 ds keyed d info Hf Hc3 Hn) as Hs. set (r' := store r3 info d (h_seq d) (bget d 1)) in *.
  assert (last_ r' = None) as Hl' by (unfold r', store; cbn; rewrite marker_bit, Hm by apply Hn; congruence).
  exists r'. split; [|done]. unfold finish_frame, complete. rewrite Hl'. by destruct (key_ r'), (first_ r').
Qed.

(** All packets are there. *)
Lemma collected_complete r ds keyed : is_u16 f -> collecting r ds keyed -> keyed = true -> ds <> [] -> Z.of_nat (length ds) <= 512 ->
  last_ r = Some (u16 (f + Z.of_nat (length ds) - 1)) ->
  complete r = Some (List.map (fun i => u16 (f + i)) (seqZ 0 (Z.of_nat (length ds)))) /\
  take_packets (packets_ r) (List.map (fun i => u16 (f + i)) (seqZ 0 (Z.of_nat (length ds)))) = Ret ds.
Proof.
  intros Hf [H1 H2 H4 H5 H6 H7 H8 H9] -> Hne Hlen Hlast. destruct H8 as (j & Hj & Ek).
  assert (forall i d, ds !! i = Some d -> packets_ r !! u16 (f + Z.of_nat i) = Some d) as Hlk by (intros i d Hi; apply H7; by exists i).
  assert (0 < length ds)%nat as Hpos by (destruct ds; [done|simpl; lia]).
  assert (u16 (u16 (f + Z.of_nat (length ds) - 1) - f) + 1 = Z.of_nat (length ds)) as Ec
    by (unfold wrap, is_u in *; pow2; words).
  assert (first_ r = Some f) as Ef by (rewrite H4; by destruct ds).
  split.
  - unfold complete. rewrite Ek, Ef, Hlast, Ec. rewrite (proj2 (Z.ltb_ge 512 _)) by lia.
    rewrite (proj2 (Z.leb_gt _ _)) by (unfold wrap, is_u in *; pow2; words). cbn [orb].
    rewrite (proj2 (forallb_forall _ _)); [done|]. intros s Hs. apply List.in_map_iff in Hs as (i & <- & Hi).
    apply list_elem_of_In, elem_of_seqZ in Hi. destruct (lookup_lt_is_Some_2 ds (Z.to_nat i) ltac:(lia)) as [d Hd].
    apply Hlk in Hd. rewrite Z2Nat.id in Hd by lia. by rewrite Hd.
  - assert (forall l g, (forall i d, l !! i = Some d -> packets_ r !! u16 (f + (g + Z.of_nat i)) = Some d) ->
      take_packets (packets_ r) (List.map (fun i => u16 (f + i)) (seqZ g (Z.of_nat (length l)))) = Ret l) as Hall.
    { induction l as [|d l IH]; intros g Hg; [done|]. rewrite seqZ_cons by (simpl; lia). cbn [List.map take_packets].
      pose proof (Hg 0%nat d eq_refl) as H0. change (Z.of_nat 0) with 0 in H0. rewrite Z.add_0_r in H0. rewrite H0. replace (Z.pred (Z.of_nat (length (d :: l)))) with (Z.of_nat (length l)) by (simpl; lia).
      rewrite IH; [done|]. intros i d' Hi. rewrite <- (Hg (S i) d' Hi). do 3 f_equal. lia. }
    apply Hall. intros i d Hi. rewrite Z.add_0_l. by apply Hlk.
Qed.

Lemma push_last hist r ds keyed d info now : is_u16 f -> collecting r ds keyed -> next_packet ds d info -> t0 <= now < t0 + 200 ->
  h_marker d = true -> keyed || key info = true -> resume_ok hist r ->
  exists r' params, Push r c d now = Ret (r', params ++ ds ++ [d]) /\ timestamp_ r' = None.
Proof.
  intros Hf Hc Hn Hnow Hm Hk Hok. destruct (push_collecting r ds keyed d info now Hc Hn Hnow) as (r3 & E & Hc3 & Hl3).
  pose proof (store_collecting r3 ds keyed d info Hf Hc3 Hn) as Hs. set (r' := store r3 info d (h_seq d) (bget d 1)) in *.
  assert (length (ds ++ [d]) = S (length ds)) as Ll by (rewrite length_app; simpl; lia).
  destruct (collected_complete r' (ds ++ [d]) _ Hf Hs Hk) as [Ec Et].
  { by destruct ds. } { rewrite Ll. pose proof (nx_room _ _ _ Hn). lia. }
  { unfold r', store. cbn. rewrite marker_bit, Hm, (nx_seq _ _ _ Hn), Ll by apply Hn. do 2 f_equal. lia. }
  destruct (push_spec hist r c d now Hok (nx_bytes _ _ _ Hn)) as (rr & frame & E' & _ & _). rewrite E in E'.
  unfold finish_frame in E, E'. rewrite Ec, Et in E, E'.
  destruct (restamp_all _ _ _) as [params| |]; cbn [mbnd] in E, E'; [|done..].
  exists (ClearFrame r'), params. by rewrite E.
Qed.
End InOrder.

(** The packets of a unit pushed one by one, and what each push hands out. *)
Fixpoint push_all (r : ResumeBuffer) (c : CodecId) (l : list (list Z * Z)) : mres (ResumeBuffer * list (list (list Z))) :=
  match l with
  | [] => Ret (r, [])
  | (d, now) :: l =>
    let! '(r, frame) := Push r c d now in
    let! '(r, frames) := push_all r c l in
    Ret (r, frame :: frames)
  end.

(** An IDR access unit in transmission order: numbered from [f], a parameter set or the
    beginning of the picture first, the beginning of the picture somewhere, the marker only on
    the last packet. *)
Record idr_unit (c : CodecId) (ts f : Z) (ds : list (list Z)) (infos : list PayloadInfo) : Prop := mkUnit {
  iu_first : is_u16 f;
  iu_packets : forall i d, ds !! i = Some d -> bytes_ok d /\ h_ts d = ts /\ h_seq d = u16 (f + Z.of_nat i) /\
    h_marker d = bool_decide (S i = length ds) /\ exists info, infos !! i = Some info /\ classified (c, d) info;
  iu_starts : match infos with info :: _ => key info || parameter info = true | [] => False end;
  iu_key : existsb key infos = true;
  iu_length : length infos = length ds;
  iu_room : Z.of_nat (length ds) <= 512 /\ sum_len ds <= 2097152 }.

Lemma unit_next c ts f ds infos acc d rest info :
  idr_unit c ts f ds infos -> ds = acc ++ d :: rest -> infos !! length acc = Some info -> next_packet c ts f acc d info.
Proof.
  intros [H1 H2 H3 H4 H5 [H6 H7]] Eds Ei.
  assert (ds !! length acc = Some d) as Hd by (rewrite Eds; by rewrite lookup_app_r, Nat.sub_diag).
  destruct (H2 _ _ Hd) as (A & B & C & _ & info' & E' & D). rewrite Ei in E'. injection E' as <-. constructor; try done.
  - intros ->. destruct infos as [|i0 infos]; [done|]. by injection Ei as ->.
  - rewrite Eds, length_app in H6. rewrite Eds, sum_len_app in H7. simpl in H6.
    assert (sum_len (d :: rest) = blen d + sum_len rest) as E by (unfold sum_len, blen; simpl; lia).
    assert (0 <= sum_len rest) by (unfold sum_len; lia). lia.
Qed.

Lemma push_rest c ts f t0 ds infos hist : idr_unit c ts f ds infos -> forall (l : list (list Z * Z)) acc r,
  ds = acc ++ List.map fst l -> l <> [] -> Forall (fun x => t0 <= snd x < t0 + 200) l ->
  collecting ts f t0 r acc (existsb key (take (length acc) infos)) -> last_ r = None -> resume_ok hist r ->
  exists r' params, push_all r c l = Ret (r', repeat [] (length l - 1) ++ [params ++ ds]).
Proof.
  intros Hu l. revert hist. induction l as [|[d now] l IH]; intros hist acc r Eds Hne Hnow Hc Hl Hok; [done|]. clear Hne.
  apply Forall_cons_1 in Hnow as [Hn Hnow]. cbn [List.map fst] in Eds. cbn [push_all].
  assert (length acc < length infos)%nat as Hlt by (rewrite (iu_length _ _ _ _ _ Hu), Eds, length_app; simpl; lia).
  destruct (lookup_lt_is_Some_2 infos (length acc) Hlt) as [info Ei].
  pose proof (unit_next c ts f ds infos acc d _ info Hu Eds Ei) as Hnx.
  assert (existsb key (take (length acc) infos) || key info = existsb key (take (S (length acc)) infos)) as Ekey.
  { rewrite (take_S_r _ _ _ Ei), existsb_app. simpl. by rewrite orb_false_r. }
  assert (ds !! length acc = Some d) as Hd by (rewrite Eds; by rewrite lookup_app_r, Nat.sub_diag).
  destruct (iu_packets _ _ _ _ _ Hu _ _ Hd) as (_ & _ & _ & Hm & _).
  destruct l as [|[d2 now2] l].
  - rewrite Eds, length_app in Hm. simpl in Hm. rewrite bool_decide_eq_true_2 in Hm by lia.
    destruct (push_last c ts f t0 hist r acc _ d info now (iu_first _ _ _ _ _ Hu) Hc Hnx Hn Hm) as (r' & params & -> & _); [|done|].
    { rewrite Ekey, take_ge by (rewrite (iu_length _ _ _ _ _ Hu), Eds, length_app; simpl; lia). apply Hu. }
    cbn [mbnd push_all]. exists r', params. simpl. by rewrite Eds.
  - assert (h_marker d = false) as Hm' by (rewrite Hm, Eds, length_app; simpl; apply bool_decide_eq_false_2; lia).
    destruct (push_more c ts f t0 r acc _ d info now (iu_first _ _ _ _ _ Hu) Hc Hnx Hn Hl Hm') as (r1 & E1 & Hc1 & Hl1). rewrite E1. cbn [mbnd].
    destruct (push_spec hist r c d now Hok (nx_bytes _ _ _ _ _ _ Hnx)) as (r1' & fr & E1' & Hok1 & _). rewrite E1 in E1'. injection E1' as <- <-.
    destruct (IH (hist ++ [(c, d)]) (acc ++ [d]) r1) as (r' & params & ->); try done.
    + rewrite <- app_assoc. exact Eds.
    + rewrite length_app, Nat.add_comm. simpl. by rewrite <- Ekey.
    + cbn [mbnd]. exists r', params. replace (length ((d, now) :: (d2, now2) :: l) - 1)%nat with (S (length ((d2, now2) :: l) - 1)) by (simpl; lia). done.
Qed.

(** The first packet starts the clock. *)
Lemma push_first r c d now ts info : timestamp_ r = None -> fresh_ts ts r -> bytes_ok d -> classified (c, d) info -> h_ts d = ts ->
  Push r c d now = Push (start_frame r ts now) c d now.
Proof.
  intros Ht Hf Hb (o & en & Er & Ev & Ei) Hts. cbn [fst snd] in *.
  destruct (payload_range_spec d Hb) as (x & Ex & Hx). rewrite Er in Ex. injection Ex as <-.
  unfold Push. rewrite Er. cbn [mbnd]. rewrite read_bytes_ok by lia. cbn [mbnd]. unfold slice. rewrite Ei. cbn [mbnd]. rewrite Ev. cbn [negb].
  rewrite U32_ok, U16_ok by (done || lia). cbn [mbnd]. rewrite Hts.
  assert (discarded_timestamp_ (start_frame r ts now) = discarded_timestamp_ r) as -> by (unfold start_frame; by rewrite Ht).
  assert (match discarded_timestamp_ r with Some d => (0x80000000 <=? u32 (ts - d)) || (ts =? d) | None => false end = false) as ->
    by (by apply fresh_ts_spec).
  rewrite Ht. assert (timestamp_ (start_frame r ts now) = Some ts) as -> by (unfold start_frame; by rewrite Ht).
  rewrite Z.eqb_refl. cbn [negb andb].
  assert (note_parameter (start_frame r ts now) info d = start_frame (note_parameter r info d) ts now) as ->.
  { unfold note_parameter, start_frame. rewrite Ht. destruct (_ && _); cbn; rewrite ?Ht; done. }
  set (r2 := note_parameter r info d). assert (timestamp_ r2 = None) as Ht2 by (unfold r2, note_parameter; by destruct (_ && _)).
  rewrite Ht2. assert (start_frame (start_frame r2 ts now) ts now = start_frame r2 ts now) as -> by (unfold start_frame; rewrite Ht2; done).
  assert (timestamp_ (start_frame r2 ts now) = Some ts /\ started_ms_ (start_frame r2 ts now) = now) as [-> ->] by (unfold start_frame; by rewrite Ht2).
  rewrite Z.ltb_irrefl, Z.sub_diag. done.
Qed.

Lemma start_collecting hist ts f now r : resume_ok hist r -> timestamp_ r = None -> fresh_ts ts r ->
  collecting ts f now (start_frame r ts now) [] false /\ last_ (start_frame r ts now) = None.
Proof.
  intros [H1 (S1 & S2 & S3) H3 H4 H5 H6] Ht Hf.
  assert (forall x P, on_frame hist r x P -> x = None) as Hn by (intros [s|] P; [|done]; intros (ts' & E & _); congruence).
  assert (packets_ r = ∅) as Ep.
  { apply map_empty. intros s. apply eq_None_not_Some. intros [p Hp]. destruct (H1 s p Hp) as (_ & _ & E). congruence. }
  unfold start_frame. rewrite Ht. cbn. split; [|by apply (Hn _ ends)].
  constructor; cbn; try done.
  - by apply (Hn _ starts).
  - rewrite S2, Ep. done.
  - by rewrite Ep.
  - intros s d. rewrite Ep, lookup_empty. split; [done|]. intros (i & Hi & _). by rewrite lookup_nil in Hi.
  - by apply (Hn _ is_idr).
Qed.

(** Resumption happens.  A buffer that is not in the middle of an access unit receives an
    IDR access unit of at most 512 packets and 2 MiB in order within 200 ms, with a timestamp
    that is newer than the last one it gave up.  Then it hands out nothing until the last
    packet, and with it the whole unit, unchanged and in order, behind the parameter packets it
    replays. *)
Theorem resume_unit_delivered hist r c ts f t0 ds infos l :
  resume_ok hist r -> timestamp_ r = None -> fresh_ts ts r ->
  idr_unit c ts f ds infos -> ds = List.map fst l -> List.hd_error (List.map snd l) = Some t0 ->
  Forall (fun x => t0 <= snd x < t0 + 200) l ->
  exists r' params, push_all r c l = Ret (r', repeat [] (length ds - 1) ++ [params ++ ds]).
Proof.
  intros Hok Ht Hf Hu -> Hhd Hnow. destruct l as [|[d now] l]; [done|]. cbn in Hhd. injection Hhd as ->.
  rewrite length_map. destruct (start_collecting hist ts f t0 r Hok Ht Hf) as [Hc Hl].
  destruct (start_ok hist r ts t0 Hok) as [Hok' _]; [by rewrite Ht|].
  destruct (push_rest c ts f t0 _ infos hist Hu ((d, t0) :: l) [] _ eq_refl ltac:(done) Hnow Hc Hl Hok') as (r' & params & E).
  exists r', params. rewrite <- E. cbn [push_all].
  destruct (iu_packets _ _ _ _ _ Hu 0%nat d eq_refl) as (Hb & Hts & _ & _ & info & Ei & Hcl).
  by rewrite (push_first r c d t0 ts info).
Qed.

(** ** Witnesses and examples *)

Definition ex_pkt (seq ts b1 : Z) (payload : list Z) : list Z := [128; b1] ++ be16 seq ++ be32 ts ++ [0; 0; 0; 9] ++ payload.

(** An SPS, a PPS and an IDR slice in two fragments. *)
Definition ex_unit : list (list Z) :=
  [ex_pkt 65535 9000 96 [103; 66; 0]; ex_pkt 0 9000 96 [104; 206; 1]; ex_pkt 1 9000 96 [124; 133; 136; 1];
   ex_pkt 2 9000 224 [124; 69; 7; 7]].

Definition ex_infos : list PayloadInfo :=
  [mkPayload true false true 7; mkPayload true false true 8; mkPayload true true false 28; mkPayload true false false 28].

Lemma ex_pkt_bytes seq ts b1 payload : is_u8 b1 -> bytes_ok payload -> bytes_ok (ex_pkt seq ts b1 payload).
Proof.
  intros H1 Hp. unfold ex_pkt. apply bytes_ok_app; [repeat (apply Forall_cons_2; [try done; unfold is_u; pow2; lia|]); apply Forall_nil_2|].
  apply bytes_ok_app; [apply be16_bytes|]. apply bytes_ok_app; [apply be32_bytes|]. apply bytes_ok_app; [|done].
  repeat (apply Forall_cons_2; [unfold is_u; pow2; lia|]). apply Forall_nil_2.
Qed.

Ltac small_bytes := repeat (apply Forall_cons_2; [unfold is_u; pow2; lia|]); apply Forall_nil_2.

Lemma ex_unit_bytes : Forall bytes_ok ex_unit.
Proof.
  repeat (apply Forall_cons_2; [apply ex_pkt_bytes; [unfold is_u; pow2; lia|small_bytes]|]). apply Forall_nil_2.
Qed.

Lemma ex_unit_idr : idr_unit CodecH264 9000 65535 ex_unit ex_infos.
Proof.
  constructor; [unfold is_u; pow2; lia| |done|done|done|by vm_compute].
  intros i d Hd. split; [by eapply Forall_lookup_1 in Hd; [|exact ex_unit_bytes]|].
  destruct i as [|[|[|[|i]]]]; [| | | |done]; injection Hd as <-;
    (split; [reflexivity|]; split; [reflexivity|]; split; [reflexivity|]; eexists; split; [reflexivity|];
     eexists _, _; split; [reflexivity|]; split; reflexivity).
Qed.

Lemma resume_unit_delivered_witness : exists r' params,
  push_all new_ResumeBuffer CodecH264 (zip ex_unit [10; 11; 12; 13]) = Ret (r', [[]; []; []; params ++ ex_unit]).
Proof.
  exact (resume_unit_delivered [] new_ResumeBuffer CodecH264 9000 65535 10 ex_unit ex_infos (zip ex_unit [10; 11; 12; 13])
    new_resume_ok eq_refl I ex_unit_idr eq_refl eq_refl
    ltac:(repeat (apply Forall_cons_2; [cbn; lia|]); apply Forall_nil_2)).
Defined.

Definition ex_resume_ops : list ResumeOp :=
  List.map (fun dn => RPush CodecH264 (fst dn) (snd dn)) (zip ex_unit [10; 11; 12; 13]).

Lemma ex_consistent : consistent (pushes ex_resume_ops).
Proof.
  intros e e' He He'. unfold pushes, ex_resume_ops in He, He'. cbn in He, He'.
  repeat (apply elem_of_cons in He as [->|He]; [repeat (apply elem_of_cons in He' as [->|He']; [by vm_compute|]); by apply not_elem_of_nil in He'|]).
  by apply not_elem_of_nil in He.
Qed.

Lemma resume_frames_sound_witness : exists r frames, resume_run new_ResumeBuffer ex_resume_ops = Ret (r, frames) /\
  length frames = 1%nat /\ Forall (fun tf => key_unit (pushes ex_resume_ops) (snd tf)) frames.
Proof.
  destruct (resume_frames_sound ex_resume_ops) as (r & frames & E & Hf & _).
  { unfold ex_resume_ops. repeat (apply Forall_cons_2; [apply ex_pkt_bytes; [unfold is_u; pow2; lia|small_bytes]|]). apply Forall_nil_2. }
  exists r, frames. split; [exact E|]. split; [|exact (Forall_impl _ _ _ Hf (fun tf H => proj2 H ex_consistent))].
  assert (match resume_run new_ResumeBuffer ex_resume_ops with Ret (_, fs) => length fs | _ => 0%nat end = 1%nat) as H by (vm_compute; reflexivity).
  rewrite E in H. exact H.
Defined.

(** Two packets of one number and timestamp, a slice of another picture type and an IDR slice with the
    marker: the first is handed out, as the key frame that the second was. *)
Example resume_number_reused :
  match push_all new_ResumeBuffer CodecH264 [(ex_pkt 10 9000 96 [65; 154; 1], 10); (ex_pkt 10 9000 224 [101; 136; 1], 11)] with
  | Ret (_, frames) => frames
  | _ => []
  end = [[]; [ex_pkt 10 9000 96 [65; 154; 1]]].
Proof. vm_compute. reflexivity. Qed.

(** The marker packet alone begins the picture and arrives before the parameter sets of its
    access unit: it is handed out without them. *)
Example resume_without_parameters :
  match push_all new_ResumeBuffer CodecH264
    [(ex_pkt 12 9000 224 [101; 136; 1], 10); (ex_pkt 10 9000 96 [103; 66; 0], 11); (ex_pkt 11 9000 96 [104; 206; 1], 12)] with
  | Ret (_, frames) => List.map (List.map h_seq) frames
  | _ => []
  end = [[12]; []; []].
Proof. vm_compute. reflexivity. Qed.
