(* ===== verification/Downlink.v ===== *)
(** * Dividing a subscriber's bandwidth

    Models class [DownlinkBandwidthAllocator] of [media/quality/DownlinkBandwidthAllocator.h]
    and [.cpp]: on every tick it decides which of a subscriber's video tracks the estimated
    bandwidth is enough for.  Audio always passes and is paid for first; a video is paused
    or resumed only after the decision has stood for a while.

    An identifier is a list of bytes.  [slots_] is a finite map: the code never relies on its
    order.  [std::sort] is a merge sort by the same comparison; where two demands
    compare as equal their order is the library's choice, which distinct identifiers
    exclude. *)
From stdpp Require Import sorting.
From S2P Require Import Prelude.

(** [std::string::operator<]. *)
Fixpoint str_lt (a b : list Z) : bool :=
  match a, b with
  | _, [] => false
  | [], _ :: _ => true
  | x :: a, y :: b => (x <? y) || ((x =? y) && str_lt a b)
  end.

Record DownlinkBandwidthBudget := mkBudget {
  path_epoch : Z;
  measured_at_ms : Z;
  network_available : bool;
  estimate_valid : bool;
  target_bps : Z;
  start_bps : Z;
  max_bps : Z;
  probe_generation : Z }.

Record DownlinkDemand := mkDemand {
  id : list Z;
  audio : bool;
  eligible : bool;
  priority : Z;
  required_bps : Z }.

#[export] Instance DownlinkDemand_eq_dec : EqDecision DownlinkDemand.
Proof. solve_decision. Defined.

Record Config := mkConfig {
  usable_percent : Z;
  resume_margin_percent : Z;
  pause_delay_ms : Z;
  resume_delay_ms : Z;
  feedback_timeout_ms : Z }.

Definition default_config : Config := mkConfig 85 20 300 1000 1500.

Record Slot := mkSlot { allowed : bool; pending : bool; since_ms : Z }.

Definition new_slot : Slot := mkSlot true false 0.

Record Allocator := mkAllocator { config_ : Config; epoch_ : Z; slots_ : gmap (list Z) Slot }.

(** [None] when the constructor throws. *)
Definition new_Allocator (config : Config) : option Allocator :=
  if (usable_percent config =? 0) || (100 <? usable_percent config) ||
     (100 <? resume_margin_percent config) || (feedback_timeout_ms config =? 0)
  then None else Some (mkAllocator config 0 ∅).

Definition Remove (a : Allocator) (i : list Z) : Allocator :=
  mkAllocator (config_ a) (epoch_ a) (delete i (slots_ a)).

Definition Clear (a : Allocator) : Allocator := mkAllocator (config_ a) 0 ∅.

Definition budget_valid (config : Config) (budget : DownlinkBandwidthBudget) (now_ms : Z) : bool :=
  network_available budget && estimate_valid budget && negb (target_bps budget =? 0) &&
  (measured_at_ms budget <=? now_ms) && (now_ms - measured_at_ms budget <=? feedback_timeout_ms config).

(** The first loop, one demand: [reset] is [changed_path || !valid]. *)
Definition scan_demand (reset : bool) (st : gmap (list Z) Slot * list DownlinkDemand * Z) (demand : DownlinkDemand) :
    gmap (list Z) Slot * list DownlinkDemand * Z :=
  let '(slots, videos, remaining) := st in
  let slot := default new_slot (slots !! id demand) in
  let slot := if reset || negb (eligible demand) then mkSlot (allowed slot) false (since_ms slot) else slot in
  if negb (eligible demand) then (<[id demand := slot]> slots, videos, remaining)
  else if audio demand then
    (<[id demand := mkSlot true (pending slot) (since_ms slot)]> slots, videos,
     remaining - Z.min remaining (required_bps demand))
  else (<[id demand := slot]> slots, videos ++ [demand], remaining).

Definition forget_absent (demands : list DownlinkDemand) (slots : gmap (list Z) Slot) : gmap (list Z) Slot :=
  filter (fun entry => fst entry ∈ List.map id demands) slots.

(** The comparison of the sort.  [slots_.at] finds every demand here, since the first loop has
    just made an entry for it. *)
Definition allowed_at (slots : gmap (list Z) Slot) (i : list Z) : bool :=
  match slots !! i with Some s => allowed s | None => false end.

Definition ranks_before (slots : gmap (list Z) Slot) (a b : DownlinkDemand) : bool :=
  if negb (priority a =? priority b) then priority b <? priority a
  else if negb (Bool.eqb (allowed_at slots (id a)) (allowed_at slots (id b))) then allowed_at slots (id a)
  else str_lt (id a) (id b).

Definition ranks_le (slots : gmap (list Z) Slot) (a b : DownlinkDemand) : Prop := ranks_before slots b a = false.

#[export] Instance ranks_le_dec slots : RelDecision (ranks_le slots).
Proof. intros a b. unfold ranks_le. apply bool_eq_dec. Defined.

Definition sort_videos (slots : gmap (list Z) Slot) (videos : list DownlinkDemand) : list DownlinkDemand :=
  merge_sort (ranks_le slots) videos.

Definition cost (config : Config) (slot : Slot) (demand : DownlinkDemand) : Z :=
  u64 (required_bps demand * (if allowed slot then 100 else u32 (100 + resume_margin_percent config))) / 100.

(** What becomes of a slot once it is known whether its video is wanted. *)
Definition settle (config : Config) (now_ms : Z) (slot : Slot) (wanted : bool) : Slot :=
  if Bool.eqb wanted (allowed slot) then mkSlot (allowed slot) false (since_ms slot) else
  let slot := if negb (pending slot) || (now_ms <? since_ms slot) then mkSlot (allowed slot) true now_ms else slot in
  let delay := if wanted then resume_delay_ms config else pause_delay_ms config in
  if delay <=? now_ms - since_ms slot then mkSlot wanted false (since_ms slot) else slot.

(** The second loop; [Fault] stands for the exception of [at]. *)
Fixpoint allocate_videos (config : Config) (now_ms : Z) (videos : list DownlinkDemand)
    (slots : gmap (list Z) Slot) (remaining : Z) : mres (gmap (list Z) Slot) :=
  match videos with
  | [] => Ret slots
  | demand :: videos =>
    match slots !! id demand with
    | None => Fault
    | Some slot =>
      let c := cost config slot demand in
      let wanted := negb (c =? 0) && (c <=? remaining) in
      let remaining := if wanted then remaining - c else remaining in
      allocate_videos config now_ms videos (<[id demand := settle config now_ms slot wanted]> slots) remaining
    end
  end.

Fixpoint collect (slots : gmap (list Z) Slot) (demands : list DownlinkDemand) : mres (list (list Z * bool)) :=
  match demands with
  | [] => Ret []
  | demand :: demands =>
    match slots !! id demand with
    | None => Fault
    | Some slot => let! rest := collect slots demands in Ret ((id demand, allowed slot) :: rest)
    end
  end.

Definition usable_bps (config : Config) (budget : DownlinkBandwidthBudget) : Z :=
  u64 (target_bps budget * usable_percent config) / 100.

Definition Allocate (a : Allocator) (budget : DownlinkBandwidthBudget) (demands : list DownlinkDemand) (now_ms : Z) :
    mres (Allocator * list (list Z * bool)) :=
  let changed_path := negb (epoch_ a =? path_epoch budget) in
  let valid := budget_valid (config_ a) budget now_ms in
  let '(slots, videos, remaining) :=
    foldl (scan_demand (changed_path || negb valid)) (slots_ a, [], usable_bps (config_ a) budget) demands in
  let slots := forget_absent demands slots in
  let videos := sort_videos slots videos in
  let! slots := (if valid then allocate_videos (config_ a) now_ms videos slots remaining else Ret slots) in
  let! result := collect slots demands in
  Ret (mkAllocator (config_ a) (path_epoch budget) slots, result).
