(* ===== verification/DownlinkProps.v ===== *)
(** * What the bandwidth allocator promises

    Theorems about [Downlink.v].  A call is described by [wanted_list], the videos in the order
    in which they are served with the decision for each; the properties follow from it: the
    videos that are granted fit into the budget, the order of the demands does not matter,
    a track keeps its state for the configured delay, and a track there is room for resumes. *)
From stdpp Require Import sorting.
From S2P Require Import Prelude Downlink.

(** ** The order of the sort *)

Lemma str_lt_irrefl a : str_lt a a = false.
Proof. induction a as [|x a IH]; simpl; [done|]. rewrite Z.ltb_irrefl, Z.eqb_refl. exact IH. Qed.

Lemma str_lt_trans a b c : str_lt a b = true -> str_lt b c = true -> str_lt a c = true.
Proof.
  revert b c. induction a as [|x a IH]; intros [|y b] [|z c]; simpl; try done.
  rewrite !orb_true_iff, !andb_true_iff, !Z.ltb_lt, !Z.eqb_eq.
  intros [?|[-> ?]] [?|[-> ?]]; try (left; lia). right. eauto.
Qed.

Lemma str_lt_total a b : str_lt a b = false -> str_lt b a = false -> a = b.
Proof.
  revert b. induction a as [|x a IH]; intros [|y b]; simpl; try done.
  rewrite !orb_false_iff, !andb_false_iff, !Z.ltb_ge, !Z.eqb_neq.
  intros [? [?|?]] [? [?|?]]; try lia. f_equal; [lia|auto].
Qed.

Section Order.
Context (slots : gmap (list Z) Slot).

Lemma ranks_before_irrefl d : ranks_before slots d d = false.
Proof. unfold ranks_before. rewrite Z.eqb_refl, eqb_reflx. apply str_lt_irrefl. Qed.

Lemma ranks_before_trans a b c :
  ranks_before slots a b = true -> ranks_before slots b c = true -> ranks_before slots a c = true.
Proof.
  unfold ranks_before. intros H1 H2.
  destruct (allowed_at slots (id a)), (allowed_at slots (id b)), (allowed_at slots (id c));
    destruct (Z.eqb_spec (priority a) (priority b)), (Z.eqb_spec (priority b) (priority c)),
      (Z.eqb_spec (priority a) (priority c)); simpl in *; rewrite ?Z.ltb_lt in *;
    try done; try lia; eauto using str_lt_trans.
Qed.

Lemma ranks_before_total a b :
  ranks_before slots a b = false -> ranks_before slots b a = false -> id a = id b.
Proof.
  unfold ranks_before. intros H1 H2.
  destruct (Z.eqb_spec (priority a) (priority b)), (Z.eqb_spec (priority b) (priority a)); simpl in *;
    rewrite ?Z.ltb_ge in *; try lia.
  destruct (allowed_at slots (id a)), (allowed_at slots (id b)); simpl in *; try done; auto using str_lt_total.
Qed.

Lemma ranks_before_asym a b : ranks_before slots a b = true -> ranks_before slots b a = false.
Proof.
  intros H1. destruct (ranks_before slots b a) eqn:H2; [|done].
  pose proof (ranks_before_trans _ _ _ H1 H2) as H. by rewrite ranks_before_irrefl in H.
Qed.

#[export] Instance ranks_le_total : Total (ranks_le slots).
Proof.
  intros a b. unfold ranks_le. destruct (ranks_before slots b a) eqn:H; [|by left].
  right. by apply ranks_before_asym.
Qed.

#[export] Instance ranks_le_trans : Transitive (ranks_le slots).
Proof.
  intros a b c Hab Hbc. unfold ranks_le in *. destruct (ranks_before slots c a) eqn:H; [|done]. exfalso.
  destruct (ranks_before slots a b) eqn:E.
  - pose proof (ranks_before_trans _ _ _ H E). congruence.
  - pose proof (ranks_before_total _ _ E Hab) as E1.
    unfold ranks_before in *. rewrite E1 in *.
    destruct (Z.eqb_spec (priority a) (priority b)), (Z.eqb_spec (priority b) (priority a)); simpl in *;
      rewrite ?Z.ltb_ge in *; try lia.
    rewrite e in *. congruence.
Qed.
End Order.

(** Sorting does not depend on the order of the demands, as long as identifiers are distinct. *)
Lemma sort_videos_perm slots vs : Permutation (sort_videos slots vs) vs.
Proof. apply merge_sort_Permutation. Qed.

Lemma sort_videos_sorted slots vs : StronglySorted (ranks_le slots) (sort_videos slots vs).
Proof. apply StronglySorted_merge_sort; apply _. Qed.

Lemma NoDup_id_inj (ds : list DownlinkDemand) a b :
  NoDup (List.map id ds) -> a ∈ ds -> b ∈ ds -> id a = id b -> a = b.
Proof.
  intros H Ha Hb E. apply list_elem_of_lookup in Ha as [i Ha]. apply list_elem_of_lookup in Hb as [j Hb].
  assert (i = j) as ->; [|congruence].
  apply (NoDup_lookup (List.map id ds) i j (id a)); [done| |]; change (List.map id ds) with (id <$> ds);
    rewrite list_lookup_fmap; [rewrite Ha|rewrite Hb]; simpl; congruence.
Qed.

Lemma sort_videos_unique slots vs vs' :
  NoDup (List.map id vs) -> Permutation vs vs' -> sort_videos slots vs = sort_videos slots vs'.
Proof.
  intros Hnd Hp. apply (StronglySorted_unique_strong (ranks_le slots)); [|apply sort_videos_sorted..|].
  - intros x1 x2 H1 H2 H12 H21. unfold ranks_le in *.
    eapply NoDup_id_inj; [exact Hnd| | |]; eauto using ranks_before_total.
    + by rewrite <- (sort_videos_perm slots vs).
    + rewrite Hp. by rewrite <- (sort_videos_perm slots vs').
  - by rewrite !sort_videos_perm.
Qed.

(** ** The first loop *)

Definition is_video (d : DownlinkDemand) : bool := eligible d && negb (audio d).

(** What the first loop leaves in the slot of a demand. *)
Definition scanned (reset : bool) (old : option Slot) (d : DownlinkDemand) : Slot :=
  let s := default new_slot old in
  mkSlot (if eligible d && audio d then true else allowed s)
    (if reset || negb (eligible d) then false else pending s) (since_ms s).

(** What audio takes. *)
Fixpoint sumZ (l : list Z) : Z := match l with [] => 0 | x :: l => x + sumZ l end.

Definition audio_bps (ds : list DownlinkDemand) : Z :=
  sumZ (List.map required_bps (List.filter (fun d => eligible d && audio d) ds)).

Definition left_for_video (config : Config) (budget : DownlinkBandwidthBudget) (ds : list DownlinkDemand) : Z :=
  Z.max 0 (usable_bps config budget - audio_bps ds).

Definition demand_ok (d : DownlinkDemand) : Prop := is_u32 (required_bps d).

Lemma sumZ_app l1 l2 : sumZ (l1 ++ l2) = sumZ l1 + sumZ l2.
Proof. induction l1 as [|x l1 IH]; simpl; [done|]. rewrite IH. lia. Qed.

#[export] Instance sumZ_proper : Proper (Permutation ==> eq) sumZ.
Proof. induction 1; simpl; lia. Qed.

Lemma sumZ_le {A} (f g : A -> Z) l : (forall x, x ∈ l -> f x <= g x) -> sumZ (List.map f l) <= sumZ (List.map g l).
Proof.
  induction l as [|x l IH]; intros H; simpl; [done|].
  pose proof (H x ltac:(set_solver)). pose proof (IH ltac:(set_solver)). lia.
Qed.

Lemma scan_slots reset ds slots vs r slots' vs' r' :
  NoDup (List.map id ds) ->
  foldl (scan_demand reset) (slots, vs, r) ds = (slots', vs', r') ->
  (forall d, d ∈ ds -> slots' !! id d = Some (scanned reset (slots !! id d) d)) /\
  (forall i, i ∉ List.map id ds -> slots' !! i = slots !! i) /\
  vs' = vs ++ List.filter is_video ds.
Proof.
  revert slots vs r. induction ds as [|d ds IH]; intros slots vs r Hnd H.
  { simpl in H. simplify_eq. rewrite app_nil_r. split_and!; [intros d Hd; by apply elem_of_nil in Hd|done|done]. }
  apply NoDup_cons in Hnd as [Hd Hnd]. cbn [foldl] in H.
  destruct (scan_demand reset (slots, vs, r) d) as [[slots1 vs1] r1] eqn:E.
  assert (slots1 = <[id d := scanned reset (slots !! id d) d]> slots /\
          vs1 = vs ++ (if is_video d then [d] else [])) as [-> ->].
  { unfold scan_demand, scanned, is_video in *.
    destruct (eligible d), (audio d), reset; simpl in *; simplify_eq; rewrite ?app_nil_r; split; try done.
    all: by destruct (default new_slot (slots !! id d)). }
  destruct (IH _ _ _ Hnd H) as (H1 & H2 & ->). split_and!.
  - intros e He. apply elem_of_cons in He as [->|He].
    + rewrite H2 by done. by rewrite lookup_insert_eq.
    + rewrite H1 by done. rewrite lookup_insert_ne; [done|]. intros Ee. apply Hd. rewrite Ee.
      apply list_elem_of_fmap. eauto.
  - intros i Hi. apply not_elem_of_cons in Hi as [? ?]. rewrite H2 by done. by rewrite lookup_insert_ne by done.
  - simpl. destruct (is_video d); simpl; rewrite <- ?app_assoc; done.
Qed.

Lemma scan_remaining reset ds slots vs r slots' vs' r' :
  0 <= r -> Forall demand_ok ds ->
  foldl (scan_demand reset) (slots, vs, r) ds = (slots', vs', r') ->
  r' = Z.max 0 (r - audio_bps ds).
Proof.
  intros Hr Hok. revert slots vs r Hr. induction Hok as [|d ds Hd Hok IH]; intros slots vs r Hr H.
  { simpl in H. simplify_eq. unfold audio_bps. simpl. lia. }
  cbn [foldl] in H. destruct (scan_demand reset (slots, vs, r) d) as [[slots1 vs1] r1] eqn:E.
  assert (r1 = Z.max 0 (r - audio_bps [d])) as ->.
  { clear H. unfold audio_bps, demand_ok, is_u in *. pow2. simpl.
    unfold scan_demand in E. destruct (eligible d) eqn:E1, (audio d) eqn:E2; simpl in *; simplify_eq; lia. }
  rewrite (IH _ _ (Z.max 0 (r - audio_bps [d])) ltac:(lia) H). unfold audio_bps. simpl.
  assert (0 <= sumZ (List.map required_bps (List.filter (fun d => eligible d && audio d) ds))).
  { clear -Hok. induction Hok as [|d ds Hd Hok IH]; simpl; [lia|].
    unfold demand_ok, is_u in Hd. pow2. destruct (eligible d && audio d); simpl; lia. }
  destruct (eligible d && audio d); simpl; lia.
Qed.

(** ** The second loop *)

(** Which videos are wanted, in the order of the sort, when [r] is left. *)
Fixpoint grants (config : Config) (slot : DownlinkDemand -> Slot) (vs : list DownlinkDemand) (r : Z) :
    list (DownlinkDemand * bool) :=
  match vs with
  | [] => []
  | d :: vs =>
    let c := cost config (slot d) d in
    let w := negb (c =? 0) && (c <=? r) in
    (d, w) :: grants config slot vs (if w then r - c else r)
  end.

Lemma grants_fst config slot vs r : List.map fst (grants config slot vs r) = vs.
Proof. revert r. induction vs as [|d vs IH]; intros r; simpl; [done|]. by rewrite IH. Qed.

Lemma grants_ext config f g vs r :
  (forall d, d ∈ vs -> cost config (f d) d = cost config (g d) d) -> grants config f vs r = grants config g vs r.
Proof.
  revert r. induction vs as [|d vs IH]; intros r H; simpl; [done|].
  rewrite (H d) by set_solver. f_equal. apply IH. set_solver.
Qed.

Lemma allocate_videos_grants config now vs slots r f :
  NoDup (List.map id vs) -> (forall d, d ∈ vs -> slots !! id d = Some (f d)) ->
  exists slots', allocate_videos config now vs slots r = Ret slots' /\
    (forall d w, (d, w) ∈ grants config f vs r -> slots' !! id d = Some (settle config now (f d) w)) /\
    (forall i, i ∉ List.map id vs -> slots' !! i = slots !! i).
Proof.
  revert slots r. induction vs as [|d vs IH]; intros slots r Hnd Hf; simpl.
  { eexists. split_and!; [done| |done]. intros d w H. by apply elem_of_nil in H. }
  apply NoDup_cons in Hnd as [Hd Hnd]. rewrite (Hf d) by set_solver.
  set (w := negb (cost config (f d) d =? 0) && (cost config (f d) d <=? r)).
  edestruct (IH (<[id d := settle config now (f d) w]> slots) (if w then r - cost config (f d) d else r) Hnd)
    as (slots' & -> & H1 & H2).
  { intros e He. rewrite lookup_insert_ne; [apply Hf; set_solver|]. intros E. apply Hd. rewrite E.
    apply list_elem_of_fmap. eauto. }
  eexists. split_and!; [done| |].
  - intros e v He. apply elem_of_cons in He as [He|He]; [|auto]. simplify_eq.
    rewrite H2 by done. by rewrite lookup_insert_eq.
  - intros i Hi. apply not_elem_of_cons in Hi as [? ?]. rewrite H2 by done. by rewrite lookup_insert_ne by done.
Qed.

Definition costs (config : Config) (slot : DownlinkDemand -> Slot) (gs : list (DownlinkDemand * bool)) : Z :=
  sumZ (List.map (fun g => cost config (slot (fst g)) (fst g)) (List.filter snd gs)).

Lemma grants_fit config slot vs r :
  (forall d, d ∈ vs -> 0 <= cost config (slot d) d) -> 0 <= r ->
  costs config slot (grants config slot vs r) <= r.
Proof.
  unfold costs. revert r. induction vs as [|d vs IH]; intros r Hc Hr; simpl; [done|].
  destruct (negb (cost config (slot d) d =? 0) && (cost config (slot d) d <=? r)) eqn:E; simpl.
  - apply andb_prop in E as [_ E]. apply Z.leb_le in E.
    pose proof (IH (r - cost config (slot d) d) ltac:(set_solver) ltac:(lia)). lia.
  - apply IH; [set_solver|done].
Qed.

(** Whether a video is wanted depends on those before it. *)
Lemma grants_split config slot vs r d w :
  (d, w) ∈ grants config slot vs r ->
  exists before after, grants config slot vs r = before ++ (d, w) :: after /\
    w = negb (cost config (slot d) d =? 0) && (cost config (slot d) d <=? r - costs config slot before).
Proof.
  revert r. induction vs as [|e vs IH]; intros r H; simpl in *; [by apply elem_of_nil in H|].
  set (c := cost config (slot e) e) in *. set (v := negb (c =? 0) && (c <=? r)) in *.
  apply elem_of_cons in H as [H|H].
  - simplify_eq. exists [], (grants config slot vs (if v then r - c else r)). split; [done|].
    unfold costs. simpl. rewrite Z.sub_0_r. done.
  - destruct (IH _ H) as (b & a & E & Hw). exists ((e, v) :: b), a. rewrite E. split; [done|].
    rewrite Hw. unfold costs. simpl. destruct v; simpl; [|done]. fold c. by rewrite Z.sub_add_distr.
Qed.

(** ** One call *)

Definition config_ok (c : Config) : Prop :=
  0 < usable_percent c <= 100 /\ 0 <= resume_margin_percent c <= 100.

Definition demands_ok (ds : list DownlinkDemand) : Prop := NoDup (List.map id ds) /\ Forall demand_ok ds.

(** The slot of a demand before the call; a new one is allowed. *)
Definition slot_of (a : Allocator) (i : list Z) : Slot := default new_slot (slots_ a !! i).

Definition video_cost (a : Allocator) (d : DownlinkDemand) : Z := cost (config_ a) (slot_of a (id d)) d.

(** The order in which videos are served. *)
Definition served_before (a : Allocator) (d e : DownlinkDemand) : bool :=
  if negb (priority d =? priority e) then priority e <? priority d
  else if negb (Bool.eqb (allowed (slot_of a (id d))) (allowed (slot_of a (id e)))) then allowed (slot_of a (id d))
  else str_lt (id d) (id e).

Definition reset_pending (a : Allocator) (budget : DownlinkBandwidthBudget) (now : Z) : bool :=
  negb (epoch_ a =? path_epoch budget) || negb (budget_valid (config_ a) budget now).

(** What the first loop and the clean-up leave in [slots_]. *)
Definition opening (a : Allocator) (budget : DownlinkBandwidthBudget) (ds : list DownlinkDemand) (now : Z) : gmap (list Z) Slot :=
  forget_absent ds (fst (fst (foldl (scan_demand (reset_pending a budget now)) (slots_ a, [], usable_bps (config_ a) budget) ds))).

Definition wanted_list (a : Allocator) (budget : DownlinkBandwidthBudget) (ds : list DownlinkDemand) (now : Z) :
    list (DownlinkDemand * bool) :=
  grants (config_ a) (fun d => slot_of a (id d)) (sort_videos (opening a budget ds now) (List.filter is_video ds))
    (left_for_video (config_ a) budget ds).

Definition scanned_slot (a : Allocator) (budget : DownlinkBandwidthBudget) (now : Z) (d : DownlinkDemand) : Slot :=
  scanned (reset_pending a budget now) (slots_ a !! id d) d.

Lemma opening_lookup a budget ds now d :
  NoDup (List.map id ds) -> d ∈ ds -> opening a budget ds now !! id d = Some (scanned_slot a budget now d).
Proof.
  intros Hnd Hd. unfold opening. destruct (foldl _ _ ds) as [[s v] r] eqn:E. simpl.
  destruct (scan_slots _ _ _ _ _ _ _ _ Hnd E) as (H1 & _). unfold forget_absent.
  apply map_lookup_filter_Some. split; [by apply H1|]. simpl. apply list_elem_of_fmap. eauto.
Qed.

Lemma opening_absent a budget ds now i : i ∉ List.map id ds -> opening a budget ds now !! i = None.
Proof. intros Hi. unfold opening, forget_absent. apply map_lookup_filter_None. right. intros x _. done. Qed.

Lemma scanned_video a budget now d :
  is_video d = true -> allowed (scanned_slot a budget now d) = allowed (slot_of a (id d)).
Proof. unfold is_video, scanned_slot, scanned, slot_of. by destruct (eligible d), (audio d). Qed.

Lemma usable_bound c budget :
  config_ok c -> is_u32 (target_bps budget) -> 0 <= usable_bps c budget <= target_bps budget.
Proof.
  unfold config_ok, usable_bps. intros [? _] ?. rewrite wrap_small by (unfold is_u in *; pow2; nia).
  split; [apply Z.div_pos; unfold is_u in *; nia|]. apply Z.div_le_upper_bound; unfold is_u in *; nia.
Qed.

Lemma cost_bound c s d : config_ok c -> demand_ok d -> required_bps d <= cost c s d <= 2 * required_bps d.
Proof.
  unfold config_ok, demand_ok, cost. intros [_ ?] ?. rewrite (wrap_small 32) by (unfold is_u; pow2; lia).
  rewrite wrap_small by (unfold is_u in *; pow2; destruct (allowed s); nia).
  split; [apply Z.div_le_lower_bound|apply Z.div_le_upper_bound]; unfold is_u in *; destruct (allowed s); nia.
Qed.

Lemma collect_ret slots ds :
  (forall d, d ∈ ds -> is_Some (slots !! id d)) ->
  collect slots ds = Ret (List.map (fun d => (id d, allowed_at slots (id d))) ds).
Proof.
  induction ds as [|d ds IH]; intros H; simpl; [done|]. unfold allowed_at at 1.
  destruct (H d ltac:(set_solver)) as [s ->]. rewrite IH by set_solver. done.
Qed.

Lemma videos_elem ds d : d ∈ List.filter is_video ds <-> d ∈ ds /\ is_video d = true.
Proof. rewrite !list_elem_of_In, List.filter_In. done. Qed.

Lemma videos_nodup ds : NoDup (List.map id ds) -> NoDup (List.map id (List.filter is_video ds)).
Proof.
  induction ds as [|d ds IH]; simpl; [done|]. intros H. apply NoDup_cons in H as [Hd H].
  destruct (is_video d); [|auto]. simpl. apply NoDup_cons. split; [|auto].
  intros He. apply Hd. apply list_elem_of_fmap in He as (e & -> & He). apply videos_elem in He as [? _].
  apply list_elem_of_fmap. eauto.
Qed.

Lemma allocate_effect a budget ds now :
  config_ok (config_ a) -> is_u32 (target_bps budget) -> demands_ok ds ->
  exists slots, Allocate a budget ds now =
      Ret (mkAllocator (config_ a) (path_epoch budget) slots, List.map (fun d => (id d, allowed_at slots (id d))) ds) /\
    (forall d w, budget_valid (config_ a) budget now = true -> (d, w) ∈ wanted_list a budget ds now ->
      slots !! id d = Some (settle (config_ a) now (scanned_slot a budget now d) w)) /\
    (forall d, d ∈ ds -> budget_valid (config_ a) budget now = false \/ is_video d = false ->
      slots !! id d = Some (scanned_slot a budget now d)) /\
    (forall i, i ∉ List.map id ds -> slots !! i = None).
Proof.
  intros Hc Ht [Hnd Hok]. pose proof (opening_lookup a budget ds now) as Hop.
  pose proof (opening_absent a budget ds now) as Habs.
  unfold Allocate. fold (reset_pending a budget now). unfold wanted_list.
  destruct (foldl (scan_demand (reset_pending a budget now)) _ ds) as [[s v] r] eqn:E.
  assert (opening a budget ds now = forget_absent ds s) as Es by (unfold opening; by rewrite E).
  rewrite Es in *. clear Es.
  destruct (scan_slots _ _ _ _ _ _ _ _ Hnd E) as (_ & _ & ->). simpl.
  assert (r = left_for_video (config_ a) budget ds) as ->.
  { apply (scan_remaining _ _ _ _ _ _ _ _ (proj1 (usable_bound _ _ Hc Ht)) Hok E). }
  set (vs := sort_videos _ _).
  assert (Hvs : forall d, d ∈ vs <-> d ∈ ds /\ is_video d = true).
  { intros d. unfold vs. rewrite sort_videos_perm. apply videos_elem. }
  assert (NoDup (List.map id vs)) as Hndv.
  { unfold vs. rewrite sort_videos_perm. by apply videos_nodup. }
  destruct (budget_valid (config_ a) budget now) eqn:Ev.
  - destruct (allocate_videos_grants (config_ a) now vs (forget_absent ds s) (left_for_video (config_ a) budget ds)
      (scanned_slot a budget now) Hndv) as (slots & -> & H1 & H2).
    { intros d Hd. apply Hop; [done|]. by apply Hvs. }
    assert (Hg : grants (config_ a) (scanned_slot a budget now) vs (left_for_video (config_ a) budget ds) =
                 grants (config_ a) (fun d => slot_of a (id d)) vs (left_for_video (config_ a) budget ds)).
    { apply grants_ext. intros d Hd. unfold cost. rewrite scanned_video; [done|]. by apply Hvs. }
    rewrite Hg in H1. simpl. rewrite collect_ret; [simpl|].
    + eexists. split_and!; [done|auto| |].
      * intros d Hd [?|Hv]; [done|]. rewrite H2; [by apply Hop|]. intros Hin.
        apply list_elem_of_fmap in Hin as (e & Ee & He). apply Hvs in He as [He Hv'].
        rewrite (NoDup_id_inj _ _ _ Hnd Hd He Ee) in Hv. congruence.
      * intros i Hi. rewrite H2; [by apply Habs|]. intros Hin. apply Hi.
        apply list_elem_of_fmap in Hin as (e & -> & He). apply Hvs in He as [He _]. apply list_elem_of_fmap. eauto.
    + intros d Hd. destruct (decide (id d ∈ List.map id vs)) as [Hin|Hin].
      * apply list_elem_of_fmap in Hin as (e & -> & He).
        rewrite <- (grants_fst (config_ a) (fun d => slot_of a (id d)) vs (left_for_video (config_ a) budget ds)) in He.
        apply list_elem_of_fmap in He as ([e' w] & -> & He). simpl. rewrite (H1 _ _ He). eauto.
      * rewrite H2, Hop by done. eauto.
  - simpl. rewrite collect_ret; [simpl|].
    + eexists. split_and!; [done|done| |]; auto.
    + intros d Hd. rewrite Hop by done. eauto.
Qed.

(** ** What a call decides *)

(** In a slot that a call has settled, [allowed] and [pending] differ exactly when the video was wanted. *)
Definition granted (s : Slot) : bool := xorb (allowed s) (pending s).

Definition granted_at (a : Allocator) (i : list Z) : bool := granted (slot_of a i).

Lemma settle_granted c now s w : granted (settle c now s w) = w.
Proof.
  unfold granted, settle. destruct (allowed s) eqn:Ea, w; simpl; rewrite ?Ea; try done; destruct (pending s) eqn:Ep; simpl;
    repeat (case_match; simpl; rewrite ?Ea, ?Ep); done.
Qed.

Lemma settle_pending c now s w :
  pending (settle c now s w) = true ->
  since_ms (settle c now s w) <= now < since_ms (settle c now s w) +
    (if allowed (settle c now s w) then pause_delay_ms c else resume_delay_ms c).
Proof.
  unfold settle. destruct (Bool.eqb w (allowed s)) eqn:Ew; simpl; [done|].
  assert (w = negb (allowed s)) as -> by (by destruct w, (allowed s)).
  destruct (negb (pending s) || (now <? since_ms s)) eqn:E1; simpl.
  - destruct ((if negb (allowed s) then resume_delay_ms c else pause_delay_ms c) <=? now - now) eqn:E2; simpl; [done|].
    apply Z.leb_gt in E2. intros _. destruct (allowed s); simpl in *; lia.
  - apply orb_false_iff in E1 as [_ E1]. apply Z.ltb_ge in E1.
    destruct ((if negb (allowed s) then resume_delay_ms c else pause_delay_ms c) <=? now - since_ms s) eqn:E2; simpl; [done|].
    apply Z.leb_gt in E2. intros _. destruct (allowed s); simpl in *; lia.
Qed.

Lemma ranks_served a budget ds now d e :
  NoDup (List.map id ds) -> d ∈ ds -> e ∈ ds -> is_video d = true -> is_video e = true ->
  ranks_before (opening a budget ds now) d e = served_before a d e.
Proof.
  intros Hnd Hd He Vd Ve. unfold ranks_before, served_before, allowed_at.
  rewrite !opening_lookup, !scanned_video by done. done.
Qed.

Lemma wanted_list_videos a budget ds now :
  Permutation (List.map fst (wanted_list a budget ds now)) (List.filter is_video ds).
Proof. unfold wanted_list. rewrite grants_fst. apply sort_videos_perm. Qed.

Lemma video_wanted a budget ds now d :
  d ∈ ds -> is_video d = true -> exists w, (d, w) ∈ wanted_list a budget ds now.
Proof.
  intros Hd Hv. assert (d ∈ List.map fst (wanted_list a budget ds now)) as Hin.
  { rewrite wanted_list_videos. by apply videos_elem. }
  apply list_elem_of_fmap in Hin as ([d' w] & -> & Hin). eauto.
Qed.

Lemma wanted_list_nodup a budget ds now :
  NoDup (List.map id ds) -> NoDup (List.map fst (wanted_list a budget ds now)).
Proof.
  intros H. rewrite wanted_list_videos. apply videos_nodup in H. by apply (NoDup_fmap_1 id).
Qed.

(** The videos before [d] in the list are those that are served before it. *)
Lemma wanted_list_before a budget ds now before d w after :
  NoDup (List.map id ds) -> wanted_list a budget ds now = before ++ (d, w) :: after ->
  forall e v, (e, v) ∈ wanted_list a budget ds now -> ((e, v) ∈ before <-> served_before a e d = true).
Proof.
  intros Hnd E e v He.
  assert (StronglySorted (ranks_le (opening a budget ds now)) (List.map fst (wanted_list a budget ds now))) as Hs.
  { unfold wanted_list. rewrite grants_fst. apply sort_videos_sorted. }
  assert (Hin : forall x y, (x, y) ∈ wanted_list a budget ds now -> x ∈ ds /\ is_video x = true).
  { intros x y Hx. apply videos_elem. rewrite <- (wanted_list_videos a budget ds now).
    apply list_elem_of_fmap. exists (x, y). done. }
  destruct (Hin e v He) as [He1 He2].
  destruct (Hin d w ltac:(rewrite E; set_solver)) as [Hd1 Hd2].
  rewrite <- (ranks_served a budget ds now) by done.
  pose proof (wanted_list_nodup a budget ds now Hnd) as Hn.
  rewrite E in Hs, Hn, He. rewrite List.map_app in Hs, Hn. simpl in Hs, Hn.
  apply NoDup_app in Hn as (_ & Hn & _). split.
  - intros Hb. apply (list_elem_of_fmap_2 fst) in Hb as Hb'. simpl in Hb'.
    pose proof (StronglySorted_app_1_elem_of _ _ _ e d Hs Hb' ltac:(set_solver)) as Hle.
    destruct (ranks_before (opening a budget ds now) e d) eqn:Er; [done|].
    pose proof (NoDup_id_inj _ _ _ Hnd He1 Hd1 (ranks_before_total _ _ _ Er Hle)) as ->.
    exfalso. apply (Hn d Hb'). set_solver.
  - intros Hr. apply elem_of_app in He as [He|He]; [done|exfalso].
    apply elem_of_cons in He as [He|He]; [simplify_eq; by rewrite ranks_before_irrefl in Hr|].
    apply (list_elem_of_fmap_2 fst) in He. simpl in He.
    apply StronglySorted_app_1_r in Hs. apply StronglySorted_cons in Hs as [Hs _].
    rewrite Forall_forall in Hs. specialize (Hs _ He). unfold ranks_le in Hs. congruence.
Qed.

(** What the videos of [ds] cost that are granted after the call and satisfy [P]. *)
Definition granted_cost (a a' : Allocator) (ds : list DownlinkDemand) (P : DownlinkDemand -> bool) : Z :=
  sumZ (List.map (video_cost a) (List.filter (fun e => is_video e && granted_at a' (id e) && P e) ds)).

(** The bit rate they need. *)
Definition granted_bps (a' : Allocator) (ds : list DownlinkDemand) : Z :=
  sumZ (List.map required_bps (List.filter (fun e => is_video e && granted_at a' (id e)) ds)).

Lemma list_filter_perm {A} (f : A -> bool) l l' :
  Permutation l l' -> Permutation (List.filter f l) (List.filter f l').
Proof. induction 1; simpl; repeat case_match; eauto using Permutation. Qed.

Lemma list_filter_map {A B} (f : A -> B) (P : B -> bool) l :
  List.filter P (List.map f l) = List.map f (List.filter (fun x => P (f x)) l).
Proof. induction l as [|x l IH]; simpl; [done|]. destruct (P (f x)); simpl; by rewrite IH. Qed.

Lemma list_filter_filter {A} (P Q : A -> bool) l :
  List.filter P (List.filter Q l) = List.filter (fun x => Q x && P x) l.
Proof. induction l as [|x l IH]; simpl; [done|]. destruct (Q x); simpl; [|done]. by rewrite IH. Qed.

Lemma granted_cost_wanted a a' budget ds now P :
  (forall e v, (e, v) ∈ wanted_list a budget ds now -> granted_at a' (id e) = v) ->
  granted_cost a a' ds P =
  sumZ (List.map (fun g => video_cost a (fst g)) (List.filter (fun g => snd g && P (fst g)) (wanted_list a budget ds now))).
Proof.
  intros H. unfold granted_cost.
  rewrite (filter_ext_elem _ (fun e => is_video e && (granted_at a' (id e) && P e))) by (intros; by rewrite andb_assoc).
  rewrite <- list_filter_filter, (list_filter_perm _ _ _ (Permutation_sym (wanted_list_videos a budget ds now))).
  rewrite list_filter_map, List.map_map. do 2 f_equal. apply filter_ext_elem. intros [e v] He. simpl.
  by rewrite (H _ _ He).
Qed.

Lemma costs_video_cost a gs :
  costs (config_ a) (fun d => slot_of a (id d)) gs = sumZ (List.map (fun g => video_cost a (fst g)) (List.filter snd gs)).
Proof. done. Qed.

Section Outcome.
Context (a a' : Allocator) (budget : DownlinkBandwidthBudget) (ds : list DownlinkDemand) (now : Z).
Context (Hc : config_ok (config_ a)) (Hds : demands_ok ds).
Context (Hw : forall e v, (e, v) ∈ wanted_list a budget ds now -> granted_at a' (id e) = v).

Lemma video_cost_bound d : d ∈ ds -> 0 <= required_bps d <= video_cost a d.
Proof.
  intros Hd. destruct Hds as [_ Hok]. rewrite Forall_forall in Hok. specialize (Hok _ Hd).
  pose proof (cost_bound (config_ a) (slot_of a (id d)) d Hc Hok). unfold video_cost, demand_ok, is_u in *. lia.
Qed.

Lemma granted_fits : granted_cost a a' ds (fun _ => true) <= left_for_video (config_ a) budget ds.
Proof.
  rewrite (granted_cost_wanted _ _ budget ds now) by exact Hw.
  erewrite filter_ext_elem; [|intros g _; rewrite andb_true_r; reflexivity].
  rewrite <- costs_video_cost. apply grants_fit; [|unfold left_for_video; lia].
  intros d Hd. rewrite sort_videos_perm in Hd. apply videos_elem in Hd as [Hd _].
  pose proof (video_cost_bound d Hd). unfold video_cost in *. lia.
Qed.

Lemma granted_required : granted_bps a' ds <= granted_cost a a' ds (fun _ => true).
Proof.
  unfold granted_bps, granted_cost.
  rewrite (filter_ext_elem (fun e => _ && true) (fun e => is_video e && granted_at a' (id e))) by (intros; by rewrite andb_true_r).
  apply sumZ_le. intros d Hd. apply list_elem_of_In, List.filter_In in Hd as [Hd _].
  apply video_cost_bound. by apply list_elem_of_In.
Qed.

Lemma granted_iff_fits d :
  d ∈ ds -> is_video d = true ->
  granted_at a' (id d) = negb (video_cost a d =? 0) &&
    (video_cost a d <=? left_for_video (config_ a) budget ds - granted_cost a a' ds (fun e => served_before a e d)).
Proof.
  intros Hd Hv. destruct (video_wanted a budget ds now d Hd Hv) as [w Hin].
  rewrite (Hw _ _ Hin). destruct (grants_split _ _ _ _ _ _ Hin) as (b & c & E & ->).
  rewrite (granted_cost_wanted _ _ budget ds now) by exact Hw.
  fold (wanted_list a budget ds now) in E. rewrite costs_video_cost. do 4 f_equal.
  assert (Hn : NoDup (wanted_list a budget ds now)).
  { apply (NoDup_fmap_1 fst). apply wanted_list_nodup, Hds. }
  pose proof (wanted_list_before a budget ds now b d _ c (proj1 Hds) E) as Hb. rewrite E in Hn, Hb.
  rewrite E, List.filter_app. apply NoDup_app in Hn as (_ & Hn & _).
  rewrite (filter_none _ (_ :: c)), app_nil_r.
  - f_equal. apply filter_ext_elem. intros [e v] He. simpl.
    rewrite (proj1 (Hb e v ltac:(set_solver)) He). by rewrite andb_true_r.
  - intros [e v] He. simpl. destruct (served_before a e d) eqn:Es; [|by rewrite andb_false_r].
    exfalso. eapply Hn; [|exact He]. apply Hb; [set_solver|done].
Qed.
End Outcome.

(** C21. Dividing the budget.  With a usable estimate every call returns.  What the granted videos and
    the audio tracks need together is within the usable share of the estimate (audio alone may
    exceed it); eligible audio is always allowed.  A video is granted exactly when its cost (its bit
    rate, with a margin while it is paused) is known and fits into what the audio and the granted
    videos served before it leave.  After the call a video is allowed as granted, or the change is
    pending and its delay has not passed yet. *)
Theorem downlink_allocation a budget ds now :
  config_ok (config_ a) -> is_u32 (target_bps budget) -> demands_ok ds ->
  budget_valid (config_ a) budget now = true ->
  exists a', Allocate a budget ds now = Ret (a', List.map (fun d => (id d, allowed_at (slots_ a') (id d))) ds) /\
    granted_bps a' ds + Z.min (audio_bps ds) (usable_bps (config_ a) budget) <= usable_bps (config_ a) budget /\
    forall d, d ∈ ds ->
      (eligible d = true -> audio d = true -> allowed_at (slots_ a') (id d) = true) /\
      (is_video d = true ->
        granted_at a' (id d) = negb (video_cost a d =? 0) &&
          (video_cost a d <=? left_for_video (config_ a) budget ds - granted_cost a a' ds (fun e => served_before a e d)) /\
        exists s, slots_ a' !! id d = Some s /\
          (pending s = false -> allowed s = granted s) /\
          (pending s = true -> allowed s = negb (granted s) /\
            since_ms s <= now < since_ms s + (if allowed s then pause_delay_ms (config_ a) else resume_delay_ms (config_ a)))).
Proof.
  intros Hc Ht Hds Hv. destruct (allocate_effect a budget ds now Hc Ht Hds) as (slots & HA & Hset & Hother & _).
  set (a' := mkAllocator (config_ a) (path_epoch budget) slots).
  assert (Hw : forall e v, (e, v) ∈ wanted_list a budget ds now -> granted_at a' (id e) = v).
  { intros e v He. unfold granted_at, slot_of, a'. simpl. rewrite (Hset _ _ Hv He). apply settle_granted. }
  exists a'. split; [exact HA|]. split.
  { pose proof (granted_fits a a' budget ds now Hc Hds Hw). unfold left_for_video in *.
    pose proof (granted_required a a' ds Hc Hds). lia. }
  intros d Hd. split.
  - intros E1 E2. unfold allowed_at. simpl. rewrite Hother; [|done|right; unfold is_video; by rewrite E1, E2].
    unfold scanned_slot, scanned. simpl. by rewrite E1, E2.
  - intros Hvd. split; [by apply (granted_iff_fits a a' budget ds now)|].
    destruct (video_wanted a budget ds now d Hd Hvd) as [w Hin].
    eexists. split; [by apply Hset|]. split.
    + intros Hp. unfold granted. rewrite Hp. by destruct (allowed _).
    + intros Hp. split; [unfold granted; rewrite Hp; by destruct (allowed _)|]. by apply settle_pending.
Qed.

(** ** The order of the demands does not matter *)

Lemma audio_bps_perm ds ds' : Permutation ds ds' -> audio_bps ds = audio_bps ds'.
Proof. intros H. unfold audio_bps. by rewrite (list_filter_perm _ _ _ H). Qed.

Lemma demands_ok_perm ds ds' : Permutation ds ds' -> demands_ok ds -> demands_ok ds'.
Proof. intros H. unfold demands_ok. by rewrite H. Qed.

Lemma id_cases (ds : list DownlinkDemand) i : (exists d, d ∈ ds /\ i = id d) \/ i ∉ List.map id ds.
Proof.
  destruct (decide (i ∈ List.map id ds)) as [H|H]; [|by right]. left.
  apply list_elem_of_fmap in H as (d & -> & H). eauto.
Qed.

Lemma opening_perm a budget ds ds' now :
  NoDup (List.map id ds) -> Permutation ds ds' -> opening a budget ds now = opening a budget ds' now.
Proof.
  intros Hnd Hp. apply map_eq. intros i. destruct (id_cases ds i) as [(d & Hd & ->)|Hi].
  - rewrite !opening_lookup; [done| | |done|done]; [by rewrite <- Hp|by rewrite <- Hp].
  - rewrite !opening_absent; [done| |done]. by rewrite <- Hp.
Qed.

Lemma wanted_list_perm a budget ds ds' now :
  NoDup (List.map id ds) -> Permutation ds ds' -> wanted_list a budget ds now = wanted_list a budget ds' now.
Proof.
  intros Hnd Hp. unfold wanted_list, left_for_video.
  rewrite (opening_perm _ _ _ _ _ Hnd Hp), (audio_bps_perm _ _ Hp).
  f_equal. apply sort_videos_unique; [by apply videos_nodup|by apply list_filter_perm].
Qed.

(** The order of the demands does not matter: two calls with the same demands in different
    orders return, leave the same state, and allow the same tracks. *)
Theorem downlink_order_free a budget ds ds' now :
  config_ok (config_ a) -> is_u32 (target_bps budget) -> demands_ok ds -> Permutation ds ds' ->
  exists a' r r', Allocate a budget ds now = Ret (a', r) /\ Allocate a budget ds' now = Ret (a', r') /\ Permutation r r'.
Proof.
  intros Hc Ht Hds Hp. pose proof (demands_ok_perm _ _ Hp Hds) as Hds'.
  destruct (allocate_effect a budget ds now Hc Ht Hds) as (s & -> & H1 & H2 & H3).
  destruct (allocate_effect a budget ds' now Hc Ht Hds') as (s' & -> & H1' & H2' & H3').
  assert (s = s') as ->; [|do 3 eexists; split_and!; [done|done|by rewrite Hp]].
  rewrite <- (wanted_list_perm _ _ _ _ now (proj1 Hds) Hp) in H1'.
  apply map_eq. intros i. destruct (id_cases ds i) as [(d & Hd & ->)|Hi].
  - destruct (budget_valid (config_ a) budget now) eqn:Ev, (is_video d) eqn:Evd.
    + destruct (video_wanted a budget ds now d Hd Evd) as [w Hin]. rewrite (H1 _ _ eq_refl Hin), (H1' _ _ eq_refl Hin). done.
    + rewrite H2, H2' by (rewrite <- ?Hp; auto). done.
    + rewrite H2, H2' by (rewrite <- ?Hp; auto). done.
    + rewrite H2, H2' by (rewrite <- ?Hp; auto). done.
  - rewrite H3, H3' by (rewrite <- ?Hp; auto). done.
Qed.

(** ** Runs *)

Record Call := mkCall { c_budget : DownlinkBandwidthBudget; c_demands : list DownlinkDemand; c_now : Z }.

Fixpoint run_calls (a : Allocator) (cs : list Call) : mres Allocator :=
  match cs with
  | [] => Ret a
  | c :: cs => let! r := Allocate a (c_budget c) (c_demands c) (c_now c) in run_calls (fst r) cs
  end.

Definition call_ok (c : Call) : Prop := is_u32 (target_bps (c_budget c)) /\ demands_ok (c_demands c).

Lemma run_calls_app a cs cs' a1 :
  run_calls a cs = Ret a1 -> run_calls a (cs ++ cs') = run_calls a1 cs'.
Proof.
  revert a. induction cs as [|c cs IH]; intros a H; simpl in *; [by simplify_eq|].
  destruct (Allocate a (c_budget c) (c_demands c) (c_now c)) as [r| |]; simpl in *; [|done|done]. auto.
Qed.

(** An invariant of one slot, kept by every call that satisfies [Q], holds after the run. *)
Lemma run_calls_slot (Q : Call -> Prop) (P : Allocator -> Prop) a cs :
  (forall a c, P a -> Q c -> exists a' r, Allocate a (c_budget c) (c_demands c) (c_now c) = Ret (a', r) /\ P a') ->
  P a -> Forall Q cs -> exists a', run_calls a cs = Ret a' /\ P a'.
Proof.
  intros Hstep HP HQ. revert a HP. induction HQ as [|c cs Hc HQ IH]; intros a HP; simpl; [eauto|].
  destruct (Hstep a c HP Hc) as (a' & r & -> & HP'). simpl. auto.
Qed.

(** How a call changes the slot of a demand that is not audio. *)
Lemma allocate_slot a budget ds now d :
  config_ok (config_ a) -> is_u32 (target_bps budget) -> demands_ok ds -> d ∈ ds -> eligible d && audio d = false ->
  exists a' r, Allocate a budget ds now = Ret (a', r) /\ config_ a' = config_ a /\ epoch_ a' = path_epoch budget /\
    (slots_ a' !! id d = Some (scanned_slot a budget now d) /\ (budget_valid (config_ a) budget now = false \/ is_video d = false) \/
     slots_ a' !! id d = Some (settle (config_ a) now (scanned_slot a budget now d)
        (negb (video_cost a d =? 0) &&
          (video_cost a d <=? left_for_video (config_ a) budget ds - granted_cost a a' ds (fun e => served_before a e d))))).
Proof.
  intros Hc Ht Hds Hd Ha. destruct (allocate_effect a budget ds now Hc Ht Hds) as (slots & -> & Hset & Hother & _).
  eexists _, _. split_and!; [done..|]. simpl.
  destruct (budget_valid (config_ a) budget now) eqn:Hv; [|left; auto].
  destruct (is_video d) eqn:Hvd; [|left; auto]. right.
  set (a' := mkAllocator (config_ a) (path_epoch budget) slots).
  assert (Hw : forall e v, (e, v) ∈ wanted_list a budget ds now -> granted_at a' (id e) = v).
  { intros e v He. unfold granted_at, slot_of, a'. simpl. rewrite (Hset _ _ eq_refl He). apply settle_granted. }
  rewrite <- (granted_iff_fits a a' budget ds now Hc Hds Hw d Hd Hvd).
  destruct (video_wanted a budget ds now d Hd Hvd) as [w Hin]. rewrite (Hw _ _ Hin). by apply Hset.
Qed.

Lemma settle_keeps c now t0 s w :
  t0 <= now < t0 + (if allowed s then pause_delay_ms c else resume_delay_ms c) ->
  (pending s = true -> t0 <= since_ms s) ->
  allowed (settle c now s w) = allowed s /\ (pending (settle c now s w) = true -> t0 <= since_ms (settle c now s w)).
Proof.
  intros Hn Hp. unfold settle. destruct (Bool.eqb w (allowed s)) eqn:Ew; simpl; [done|].
  assert (w = negb (allowed s)) as -> by (by destruct w, (allowed s)).
  destruct (negb (pending s) || (now <? since_ms s)) eqn:E1; simpl.
  - rewrite Z.sub_diag. destruct (allowed s) eqn:Ea; simpl; (case_match; simpl; bool_hyps; [lia|split; [done|lia]]).
  - bool_hyps. destruct (pending s) eqn:Ep; [|done]. specialize (Hp eq_refl).
    destruct (allowed s) eqn:Ea; simpl; (case_match; simpl; bool_hyps; [lia|split; [done|auto]]).
Qed.

Definition delay (c : Config) (b : bool) : Z := if b then pause_delay_ms c else resume_delay_ms c.

(** The subscription [i] is present in the call and is not an audio track. *)
Definition subscribed (i : list Z) (c : Call) : Prop :=
  exists d, d ∈ c_demands c /\ id d = i /\ eligible d && audio d = false.

(** No flapping.  A video whose state is settled keeps it through every sequence of calls, whatever
    the budgets, the other demands and the order of their times, until the delay that guards the change has
    passed since [t0]. *)
Theorem downlink_no_flapping a i b since t0 cs :
  config_ok (config_ a) -> slots_ a !! i = Some (mkSlot b false since) ->
  Forall (fun c => call_ok c /\ subscribed i c /\ t0 <= c_now c < t0 + delay (config_ a) b) cs ->
  exists a', run_calls a cs = Ret a' /\ allowed_at (slots_ a') i = b.
Proof.
  intros Hc Hs Hcs.
  assert (exists a', run_calls a cs = Ret a' /\ config_ a' = config_ a /\
    exists s, slots_ a' !! i = Some s /\ allowed s = b /\ (pending s = true -> t0 <= since_ms s))
    as (a' & -> & _ & s & Es & Eb & _).
  2:{ eexists. split; [done|]. unfold allowed_at. by rewrite Es. }
  eapply run_calls_slot; [|by split; [done|]; eexists; split_and!|exact Hcs].
  intros a1 c (Ec & s & Es & Eb & Ep) ((Ht & Hds) & (d & Hd & <- & Hda) & Hn).
  destruct (allocate_slot a1 (c_budget c) (c_demands c) (c_now c) d) as (a' & r & -> & Ec' & _ & H);
    [by rewrite Ec|done|done|done|done|].
  exists a', r. split; [done|]. split; [by rewrite Ec'|].
  assert (Hk : allowed (scanned_slot a1 (c_budget c) (c_now c) d) = b /\
    (pending (scanned_slot a1 (c_budget c) (c_now c) d) = true -> t0 <= since_ms (scanned_slot a1 (c_budget c) (c_now c) d))).
  { unfold scanned_slot, scanned. rewrite Es, Hda. simpl. split; [done|]. case_match; [done|exact Ep]. }
  destruct Hk as [Hk1 Hk2]. destruct H as [[H _]|H].
  - eexists. split_and!; [exact H|done|done].
  - match type of H with _ = Some (settle ?c ?n ?s ?w) => destruct (settle_keeps c n t0 s w) as [K1 K2] end.
    + rewrite Hk1, Ec. exact Hn.
    + exact Hk2.
    + eexists. split_and!; [exact H|by rewrite K1|exact K2].
Qed.

(** The video [i] comes first and there is room for it. *)
Definition favoured (config : Config) (i : list Z) (c : Call) : Prop :=
  exists d, d ∈ c_demands c /\ id d = i /\ is_video d = true /\ 0 < required_bps d /\
    (forall e, e ∈ c_demands c -> is_video e = true -> e <> d -> priority e < priority d) /\
    required_bps d * (100 + resume_margin_percent config) / 100 <= left_for_video config (c_budget c) (c_demands c).

Lemma granted_cost_none a a' ds P :
  (forall e, e ∈ ds -> is_video e = true -> P e = false) -> granted_cost a a' ds P = 0.
Proof.
  intros H. unfold granted_cost. rewrite filter_none; [done|]. intros e He.
  destruct (is_video e) eqn:Ev; [|done]. rewrite (H e He Ev). apply andb_false_r.
Qed.

Lemma favoured_wanted a a' c d :
  config_ok (config_ a) -> call_ok c -> d ∈ c_demands c -> is_video d = true -> 0 < required_bps d ->
  (forall e, e ∈ c_demands c -> is_video e = true -> e <> d -> priority e < priority d) ->
  required_bps d * (100 + resume_margin_percent (config_ a)) / 100 <=
    left_for_video (config_ a) (c_budget c) (c_demands c) ->
  negb (video_cost a d =? 0) && (video_cost a d <=? left_for_video (config_ a) (c_budget c) (c_demands c) -
    granted_cost a a' (c_demands c) (fun e => served_before a e d)) = true.
Proof.
  intros Hc [_ [Hnd Hok]] Hd Hv Hr Hp Hl. rewrite granted_cost_none.
  - rewrite Forall_forall in Hok. specialize (Hok _ Hd). pose proof (cost_bound (config_ a) (slot_of a (id d)) d Hc Hok).
    destruct Hc as [_ Hm]. unfold video_cost, demand_ok in *.
    apply andb_true_intro. split; [apply negb_true_iff, Z.eqb_neq; lia|]. apply Z.leb_le. rewrite Z.sub_0_r.
    etransitivity; [|exact Hl]. unfold cost. rewrite (wrap_small 32) by (unfold is_u; pow2; lia).
    rewrite wrap_small by (unfold is_u in *; pow2; destruct (allowed _); nia).
    apply Z.div_le_mono; [lia|]. destruct (allowed _); nia.
  - intros e He Hve. destruct (decide (e = d)) as [->|Hne].
    + unfold served_before. rewrite Z.eqb_refl, eqb_reflx. apply str_lt_irrefl.
    + pose proof (Hp e He Hve Hne). unfold served_before.
      rewrite (proj2 (Z.eqb_neq _ _)) by lia. simpl. apply Z.ltb_ge. lia.
Qed.

Lemma settle_resumes c now t s :
  allowed s = true \/ pending s = true /\ since_ms s <= t -> t <= now ->
  (allowed (settle c now s true) = true \/ pending (settle c now s true) = true /\ since_ms (settle c now s true) <= t) /\
  (t + resume_delay_ms c <= now -> allowed (settle c now s true) = true).
Proof.
  intros H Hn. unfold settle. destruct (allowed s) eqn:Ea; simpl; [auto|].
  destruct H as [|[Hp Hs]]; [done|]. rewrite Hp. simpl. rewrite (proj2 (Z.ltb_ge _ _)) by lia.
  case_match; simpl; bool_hyps; [auto|]. split; [auto|lia].
Qed.

Lemma settle_starts c now s :
  allowed (settle c now s true) = true \/ pending (settle c now s true) = true /\ since_ms (settle c now s true) <= now.
Proof.
  destruct (pending (settle c now s true)) eqn:Hp.
  - right. pose proof (settle_pending _ _ _ _ Hp). lia.
  - left. pose proof (settle_granted c now s true) as H. unfold granted in H. rewrite Hp in H. by destruct (allowed _).
Qed.

(** With a usable estimate on the same path the first loop leaves a video's slot alone. *)
Lemma scanned_same a budget now d s :
  slots_ a !! id d = Some s -> is_video d = true -> budget_valid (config_ a) budget now = true ->
  epoch_ a = path_epoch budget -> scanned_slot a budget now d = s.
Proof.
  unfold is_video, scanned_slot, scanned, reset_pending. intros -> Hv -> ->. rewrite Z.eqb_refl.
  apply andb_prop in Hv as [-> Hv]. apply negb_true_iff in Hv as ->. by destruct s.
Qed.

Definition good_call (config : Config) (i : list Z) (epoch : Z) (c : Call) : Prop :=
  call_ok c /\ favoured config i c /\ budget_valid config (c_budget c) (c_now c) = true /\ path_epoch (c_budget c) = epoch.

Definition resuming (i : list Z) (t : Z) (a : Allocator) : Prop :=
  exists s, slots_ a !! i = Some s /\ (allowed s = true \/ pending s = true /\ since_ms s <= t).

Lemma good_call_slot a i epoch c :
  config_ok (config_ a) -> good_call (config_ a) i epoch c ->
  exists a' r d, Allocate a (c_budget c) (c_demands c) (c_now c) = Ret (a', r) /\ config_ a' = config_ a /\ epoch_ a' = epoch /\
    id d = i /\ is_video d = true /\
    slots_ a' !! i = Some (settle (config_ a) (c_now c) (scanned_slot a (c_budget c) (c_now c) d) true).
Proof.
  intros Hc (Hok & (d & Hd & <- & Hv & Hr & Hp & Hl) & Hb & <-).
  destruct (allocate_slot a (c_budget c) (c_demands c) (c_now c) d) as (a' & r & -> & Ec & Ee & H);
    [done|apply Hok|apply Hok|done|unfold is_video in Hv; by destruct (eligible d), (audio d)|].
  exists a', r, d. split_and!; try done. destruct H as [[_ [?|?]]|H]; [congruence..|].
  rewrite (favoured_wanted a a' c d) in H by done. exact H.
Qed.

(** A video that is given room resumes.  If through a sequence of calls on one path with usable
    estimates a video has the highest priority and its bit rate with the resume margin fits beside the
    audio, it is allowed at the end of the resume delay, whatever state it was in. *)
Theorem downlink_resumes a i epoch c1 cs c2 :
  config_ok (config_ a) -> 0 <= resume_delay_ms (config_ a) ->
  Forall (good_call (config_ a) i epoch) (c1 :: cs ++ [c2]) ->
  Forall (fun c => c_now c1 <= c_now c) cs -> c_now c1 + resume_delay_ms (config_ a) <= c_now c2 ->
  exists a', run_calls a (c1 :: cs ++ [c2]) = Ret a' /\ allowed_at (slots_ a') i = true.
Proof.
  intros Hc Hd Hall Ht Ht2. apply Forall_cons in Hall as [H1 Hall]. apply Forall_app in Hall as [Hcs Hc2].
  apply Forall_cons in Hc2 as [H2 _].
  pose (P a1 := config_ a1 = config_ a /\ epoch_ a1 = epoch /\ resuming i (c_now c1) a1).
  assert (exists a1 r, Allocate a (c_budget c1) (c_demands c1) (c_now c1) = Ret (a1, r) /\ P a1) as (a1 & r & E1 & HP).
  { destruct (good_call_slot a i epoch c1 Hc H1) as (a1 & r & d & -> & Ec & Ee & _ & _ & Hs).
    exists a1, r. split; [done|]. split_and!; [done|done|]. eexists. split; [exact Hs|]. by apply settle_starts. }
  simpl. rewrite E1. simpl.
  assert (Hstep : forall a1 c, P a1 -> good_call (config_ a) i epoch c -> c_now c1 <= c_now c ->
     exists a2 r, Allocate a1 (c_budget c) (c_demands c) (c_now c) = Ret (a2, r) /\ P a2 /\
     (c_now c1 + resume_delay_ms (config_ a) <= c_now c -> allowed_at (slots_ a2) i = true)).
  { intros a2 c (Ec & Ee & s & Es & Hs) Hg Hn. rewrite <- Ec in Hg, Hc.
    destruct (good_call_slot a2 i epoch c Hc Hg) as (a3 & r3 & d & -> & Ec3 & Ee3 & Hi & Hv & Hs3).
    rewrite (scanned_same a2 _ _ d s) in Hs3; [|by rewrite Hi|exact Hv|apply Hg|destruct Hg as (_ & _ & _ & ->); done].
    destruct (settle_resumes (config_ a2) (c_now c) (c_now c1) s Hs Hn) as [K1 K2]. rewrite Ec in *.
    exists a3, r3. split; [done|]. split; [split_and!; [done|done|by eexists]|].
    intros Hlate. unfold allowed_at. rewrite Hs3. auto. }
  destruct (run_calls_slot (fun c => good_call (config_ a) i epoch c /\ c_now c1 <= c_now c) P a1 cs) as (a2 & Hrun & HP2).
  { intros a3 c Ha [Hg Hn]. destruct (Hstep a3 c Ha Hg Hn) as (a4 & r4 & ? & ? & _). eauto. }
  { done. }
  { apply Forall_and. done. }
  destruct (Hstep a2 c2 HP2 H2 ltac:(lia)) as (a3 & r3 & E3 & _ & Ha).
  exists a3. rewrite (run_calls_app _ _ _ _ Hrun). simpl. rewrite E3. simpl. auto.
Qed.

(** ** Witnesses *)

Lemma new_Allocator_ok config a :
  0 <= usable_percent config -> 0 <= resume_margin_percent config -> new_Allocator config = Some a -> config_ok (config_ a).
Proof.
  unfold new_Allocator, config_ok. intros H1 H2. case_match; [done|]. intros [= <-]. simpl.
  bool_hyps. apply Z.eqb_neq in H0. lia.
Qed.

Definition alloc0 : Allocator := mkAllocator default_config 0 ∅.

Definition ex_budget (epoch bps at_ms : Z) : DownlinkBandwidthBudget := mkBudget epoch at_ms true true bps 500000 2000000 1.

Definition ex_demands : list DownlinkDemand :=
  [mkDemand [118; 49] false true 128 500000; mkDemand [97] true true 128 32000; mkDemand [118; 50] false true 200 500000].

Lemma config_ok_default : config_ok default_config.
Proof. unfold config_ok, default_config. simpl. lia. Qed.

Lemma ex_demands_ok : demands_ok ex_demands.
Proof.
  split; [apply NoDup_ListNoDup; repeat constructor; simpl; intuition congruence|].
  repeat constructor; unfold demand_ok, is_u; simpl; lia.
Qed.

(** The video of priority 200 fits, the other one has its pause pending. *)
Example ex_first_call :
  match Allocate alloc0 (ex_budget 1 1000000 5000) ex_demands 5000 with
  | Ret (a, r) => Some (r, slots_ a !! [118; 49], slots_ a !! [118; 50])
  | _ => None
  end = Some ([([118; 49], true); ([97], true); ([118; 50], true)], Some (mkSlot true true 5000), Some (mkSlot true false 0)).
Proof. vm_compute. reflexivity. Qed.

Lemma downlink_allocation_witness :
  exists a', Allocate alloc0 (ex_budget 1 1000000 5000) ex_demands 5000 =
    Ret (a', List.map (fun d => (id d, allowed_at (slots_ a') (id d))) ex_demands).
Proof.
  destruct (downlink_allocation alloc0 (ex_budget 1 1000000 5000) ex_demands 5000) as (a' & H & _).
  - exact config_ok_default.
  - unfold is_u. simpl. lia.
  - exact ex_demands_ok.
  - vm_compute. reflexivity.
  - exists a'. exact H.
Defined.

Lemma downlink_order_free_witness :
  exists a' r r', Allocate alloc0 (ex_budget 1 1000000 5000) ex_demands 5000 = Ret (a', r) /\
    Allocate alloc0 (ex_budget 1 1000000 5000) (rev ex_demands) 5000 = Ret (a', r') /\ Permutation r r'.
Proof.
  apply (downlink_order_free alloc0 (ex_budget 1 1000000 5000) ex_demands (rev ex_demands) 5000).
  - exact config_ok_default.
  - unfold is_u. simpl. lia.
  - exact ex_demands_ok.
  - apply Permutation_rev.
Defined.

Definition ex_call (bps now : Z) : Call := mkCall (ex_budget 1 bps now) ex_demands now.

Lemma ex_call_ok bps now : 0 <= bps < 2 ^ 32 -> call_ok (ex_call bps now).
Proof. intros H. split; [exact H|exact ex_demands_ok]. Qed.

(** A paused video. *)
Definition alloc1 : Allocator := mkAllocator default_config 1 {[ [118; 50] := mkSlot false false 0 ]}.

Lemma downlink_no_flapping_witness :
  exists a', run_calls alloc1 [ex_call 2000000 5000; ex_call 100000 5400; ex_call 2000000 5999] = Ret a' /\
    allowed_at (slots_ a') [118; 50] = false.
Proof.
  apply (downlink_no_flapping alloc1 [118; 50] false 0 5000).
  - exact config_ok_default.
  - vm_compute. reflexivity.
  - repeat (apply Forall_cons; split; [split; [apply ex_call_ok; lia|split; [|simpl; lia]]|]); [..|apply Forall_nil; exact I];
      (exists (mkDemand [118; 50] false true 200 500000); split; [simpl; do 2 right; left|done]).
Defined.

Lemma ex_good_call now : good_call default_config [118; 50] 1 (ex_call 2000000 now).
Proof.
  split_and!; [apply ex_call_ok; lia| | |done].
  - exists (mkDemand [118; 50] false true 200 500000). split_and!; try done.
    + simpl. do 2 right. left.
    + simpl. intros e He Hv Hne. repeat (apply elem_of_cons in He as [->|He]; [try done; simpl; lia|]). by apply elem_of_nil in He.
  - unfold budget_valid. simpl. rewrite Z.leb_refl, Z.sub_diag. done.
Qed.

Lemma downlink_resumes_witness :
  exists a', run_calls alloc1 [ex_call 2000000 5000; ex_call 2000000 5500; ex_call 2000000 6000] = Ret a' /\
    allowed_at (slots_ a') [118; 50] = true.
Proof.
  apply (downlink_resumes alloc1 [118; 50] 1 (ex_call 2000000 5000) [ex_call 2000000 5500] (ex_call 2000000 6000)).
  - exact config_ok_default.
  - simpl. lia.
  - repeat (apply Forall_cons; split; [apply ex_good_call|]). apply Forall_nil. exact I.
  - repeat constructor. simpl. lia.
  - simpl. lia.
Defined.
