(* ===== verification/MediaRegistry.v ===== *)
(** * Streams, tracks and their consumers

    Models [media/core/MediaStream.h] and [.cpp], [MediaStreamRegistry.h] and [.cpp] and
    [MediaTrackSubscription.h]: the directory in which publishers register their streams and
    through which consumers attach to single tracks.

    Streams, consumers and the shared state of a track are objects that several parties
    refer to, so they live in a store ([Heap]) and pointers are their identities: a stream's
    [id_], a consumer's id, and a number for the state cell of a track.  A pointer that names no stream stands for the
    null pointer.  The registry holds consumers weakly: [held] says whether someone else
    still owns one.  Every operation runs under the registry's mutex and is one step; what
    it calls after releasing it (the consumers' callbacks and the events) is returned as a list, in an
    unspecified order where the code iterates over a hash map.  Allocation failure is left
    out; there is one registry, so a stream's [registry_] is a flag.  The 64-bit counter of
    stream identities is unbounded here. *)
From S2P Require Import Prelude.

Inductive MediaTrackState := Open | Paused | Closed.

#[export] Instance MediaTrackState_eq_dec : EqDecision MediaTrackState.
Proof. solve_decision. Defined.

Inductive StreamState := Announced | Publishing | StreamClosed.

#[export] Instance StreamState_eq_dec : EqDecision StreamState.
Proof. solve_decision. Defined.

Inductive MediaType := MediaUnknown | MediaAudio | MediaVideo | MediaData.

#[export] Instance MediaType_eq_dec : EqDecision MediaType.
Proof. solve_decision. Defined.

Inductive CodecType := CodecTypeUnknown | H264 | H265 | Opus | PCMU | PCMA | AAC | VP8 | VP9 | AV1.

Definition CodecMediaType (codec : CodecType) : MediaType :=
  match codec with
  | Opus | PCMU | PCMA | AAC => MediaAudio
  | H264 | H265 | VP8 | VP9 | AV1 => MediaVideo
  | CodecTypeUnknown => MediaUnknown
  end.

Record MediaTrackRef := mkRef { stream_id : Z; track_id : Z }.

#[export] Instance MediaTrackRef_eq_dec : EqDecision MediaTrackRef.
Proof. solve_decision. Defined.

Definition ref_valid (r : MediaTrackRef) : bool := negb (stream_id r =? 0).

Definition TrackKey (r : MediaTrackRef) : Z := Z.lor (u64 (Z.shiftl (stream_id r) 32)) (track_id r).

Record MediaTrackDescription := mkDesc {
  desc_id : Z;
  desc_type : MediaType;
  desc_codec : CodecType;
  sample_rate : Z;
  channels : Z;
  desc_ref : MediaTrackRef }.

Definition desc_valid (d : MediaTrackDescription) : bool :=
  (bool_decide (desc_type d = MediaAudio) || bool_decide (desc_type d = MediaVideo)) &&
  bool_decide (CodecMediaType (desc_codec d) = desc_type d) &&
  (negb (bool_decide (desc_type d = MediaAudio)) || ((0 <? sample_rate d) && (0 <? channels d))).

(** ** Streams *)

Record Source := mkSource { protocol : list Z; scope : list Z; publisher_id : list Z }.

Record MediaStream := mkStream {
  id_ : Z;
  name_ : list Z;
  source_ : Source;
  state_ : StreamState;
  tracks_ : list MediaTrackDescription;
  endpoints_ : gmap Z Z;
  publisher_ : option Z;
  registry_ : bool }.

Record StreamSnapshot := mkSnapshot {
  snap_id : Z;
  snap_name : list Z;
  snap_source : Source;
  snap_state : StreamState;
  snap_tracks : list (MediaTrackRef * MediaTrackDescription * Z) }.

(** The constructor; [id] is the number drawn from the counter, see [NewStream]. *)
Definition new_MediaStream (id : Z) (name : list Z) (source : Source) : MediaStream :=
  mkStream id name source Announced [] ∅ None false.

Definition FindEndpointByTrack (s : MediaStream) (track : Z) : Z := default 0 (endpoints_ s !! track).

Definition stream_snapshot (s : MediaStream) : StreamSnapshot :=
  mkSnapshot (id_ s) (name_ s) (source_ s) (state_ s)
    (List.map (fun t => (desc_ref t, t, FindEndpointByTrack s (desc_id t))) (tracks_ s)).

(** The two checks of the loop, in the order of the tracks. *)
Fixpoint tracks_valid (seen : gset Z) (tracks : list MediaTrackDescription) : bool :=
  match tracks with
  | [] => true
  | t :: tracks => negb (bool_decide (desc_id t ∈ seen)) && desc_valid t && tracks_valid ({[ desc_id t ]} ∪ seen) tracks
  end.

Definition set_ref (id : Z) (t : MediaTrackDescription) : MediaTrackDescription :=
  mkDesc (desc_id t) (desc_type t) (desc_codec t) (sample_rate t) (channels t) (mkRef id (desc_id t)).

Definition ReplaceTracks (s : MediaStream) (tracks : list MediaTrackDescription) : MediaStream * bool :=
  match tracks with
  | [] => (s, false)
  | _ =>
    if negb (tracks_valid ∅ tracks) then (s, false) else
    if bool_decide (state_ s = StreamClosed) || registry_ s || bool_decide (endpoints_ s <> ∅) then (s, false) else
    (mkStream (id_ s) (name_ s) (source_ s) (state_ s) (List.map (set_ref (id_ s)) tracks) (endpoints_ s) (publisher_ s)
       (registry_ s), true)
  end.

Definition GetTrack (s : MediaStream) (id : Z) : option MediaTrackDescription :=
  List.find (fun t => desc_id t =? id) (tracks_ s).

Definition set_endpoints (s : MediaStream) (state : StreamState) (endpoints : gmap Z Z) : MediaStream :=
  mkStream (id_ s) (name_ s) (source_ s) state (tracks_ s) endpoints (publisher_ s) (registry_ s).

Definition BindTrackEndpoint (s : MediaStream) (track endpoint : Z) : MediaStream * bool :=
  if bool_decide (state_ s = StreamClosed) || (endpoint =? 0) || bool_decide (is_Some (endpoints_ s !! track)) then (s, false) else
  match GetTrack s track with
  | None => (s, false)
  | Some _ => (set_endpoints s (state_ s) (<[track := endpoint]> (endpoints_ s)), true)
  end.

Definition UnbindTrackEndpoint (s : MediaStream) (endpoint : Z) : MediaStream :=
  let endpoints := filter (fun e => snd e <> endpoint) (endpoints_ s) in
  set_endpoints s
    (if bool_decide (endpoints = ∅) && bool_decide (state_ s = Publishing) then Announced else state_ s) endpoints.

Definition StartPublishing (s : MediaStream) : MediaStream * bool :=
  if bool_decide (state_ s = StreamClosed) || bool_decide (endpoints_ s = ∅) then (s, false)
  else (set_endpoints s Publishing (endpoints_ s), true).

Definition stream_SetFramePublisher (publisher : option Z) (s : MediaStream) : MediaStream :=
  if bool_decide (state_ s = StreamClosed) then s else
  mkStream (id_ s) (name_ s) (source_ s) (state_ s) (tracks_ s) (endpoints_ s) publisher (registry_ s).

Definition stream_Close (s : MediaStream) : MediaStream :=
  mkStream (id_ s) (name_ s) (source_ s) StreamClosed (tracks_ s) ∅ None false.

(** ** Consumers *)

Record MediaTrackSubscription := mkSub {
  track_ : MediaTrackRef;
  sub_name : list Z;
  cell_ : Z;
  on_close_ : bool;
  closed_ : bool;
  paused_ : bool;
  held : bool }.

Record Heap := mkHeap {
  streams : gmap Z MediaStream;
  cells : gmap Z MediaTrackState;
  subs : gmap Z MediaTrackSubscription;
  next_stream : Z;
  next_cell : Z }.

Definition with_streams (h : Heap) (s : gmap Z MediaStream) : Heap := mkHeap s (cells h) (subs h) (next_stream h) (next_cell h).
Definition with_cells (h : Heap) (c : gmap Z MediaTrackState) : Heap := mkHeap (streams h) c (subs h) (next_stream h) (next_cell h).
Definition with_subs (h : Heap) (s : gmap Z MediaTrackSubscription) : Heap := mkHeap (streams h) (cells h) s (next_stream h) (next_cell h).

Definition cell_state (h : Heap) (sub : MediaTrackSubscription) : MediaTrackState := default Closed (cells h !! cell_ sub).

Definition sub_Closed (h : Heap) (sub : MediaTrackSubscription) : bool :=
  closed_ sub || bool_decide (cell_state h sub = Closed).

Definition CanDeliver (h : Heap) (sub : MediaTrackSubscription) : bool :=
  negb (closed_ sub) && negb (paused_ sub) && bool_decide (cell_state h sub = Open).

Definition set_closed (sub : MediaTrackSubscription) : MediaTrackSubscription :=
  mkSub (track_ sub) (sub_name sub) (cell_ sub) (on_close_ sub) true (paused_ sub) (held sub).

Definition set_paused (paused : bool) (sub : MediaTrackSubscription) : MediaTrackSubscription :=
  mkSub (track_ sub) (sub_name sub) (cell_ sub) (on_close_ sub) (closed_ sub) paused (held sub).

(** [MediaTrackSubscription::Close], called by its owner. *)
Definition sub_Close (h : Heap) (id : Z) : Heap := with_subs h (alter set_closed id (subs h)).

(** The owner lets go of its consumer. *)
Definition Release (h : Heap) (id : Z) : Heap :=
  with_subs h (alter (fun sub => mkSub (track_ sub) (sub_name sub) (cell_ sub) (on_close_ sub) (closed_ sub) (paused_ sub) false)
    id (subs h)).

(** [weak_ptr::lock]. *)
Definition lock (h : Heap) (id : Z) : option MediaTrackSubscription :=
  match subs h !! id with
  | Some sub => if held sub then Some sub else None
  | None => None
  end.

(** Events and callbacks. *)
Inductive Event :=
| StreamRegistered (snapshot : StreamSnapshot) (revision : Z)
| StreamUnregistered (snapshot : StreamSnapshot) (revision : Z)
| TrackAvailability (track : MediaTrackRef) (state : MediaTrackState) (revision : Z)
| OnClose (consumer : Z).

Definition NotifyClosed (h : Heap) (id : Z) : Heap * list Event * bool :=
  match subs h !! id with
  | None => (h, [], false)
  | Some sub =>
    if closed_ sub then (h, [], false)
    else (with_subs h (<[id := set_closed sub]> (subs h)), if on_close_ sub then [OnClose id] else [], true)
  end.

Fixpoint notify_all (h : Heap) (ids : list Z) : Heap * list Event :=
  match ids with
  | [] => (h, [])
  | id :: ids =>
    let '(h, es, _) := NotifyClosed h id in
    let '(h, es') := notify_all h ids in (h, es ++ es')
  end.

(** ** The registry *)

Record TrackEntry := mkEntry { entry_cell : Z; consumers : gset Z }.

Record MediaStreamRegistry := mkRegistry {
  streams_ : gset Z;
  names_ : gmap (list Z) (gmap (list Z) Z);
  reg_publisher_ : option Z;
  revision_ : Z;
  reg_tracks_ : gmap Z TrackEntry;
  consumers_ : gset Z;
  next_consumer_id_ : Z }.

Definition new_registry : MediaStreamRegistry := mkRegistry ∅ ∅ None 0 ∅ ∅ 1.

Definition new_heap : Heap := mkHeap ∅ ∅ ∅ 0 0.

Record World := mkWorld { heap : Heap; registry : MediaStreamRegistry }.

Definition with_tracks (r : MediaStreamRegistry) (tracks : gmap Z TrackEntry) (cs : gset Z) : MediaStreamRegistry :=
  mkRegistry (streams_ r) (names_ r) (reg_publisher_ r) (revision_ r) tracks cs (next_consumer_id_ r).

Definition bump (r : MediaStreamRegistry) : MediaStreamRegistry :=
  mkRegistry (streams_ r) (names_ r) (reg_publisher_ r) (u64 (revision_ r + 1)) (reg_tracks_ r) (consumers_ r) (next_consumer_id_ r).

(** [std::make_shared<MediaStream>]; [None] when the counter is exhausted. *)
Definition NewStream (w : World) (name : list Z) (source : Source) : World * option Z :=
  let h := heap w in
  let id := next_stream h + 1 in
  if 0xffffffff <? id then (mkWorld (mkHeap (streams h) (cells h) (subs h) id (next_cell h)) (registry w), None) else
  (mkWorld (mkHeap (<[id := new_MediaStream id name source]> (streams h)) (cells h) (subs h) id (next_cell h)) (registry w), Some id).

(** A call on a stream object. *)
Definition on_stream (w : World) (id : Z) (f : MediaStream -> MediaStream * bool) : World * bool :=
  match streams (heap w) !! id with
  | None => (w, false)
  | Some s => let '(s, ok) := f s in (mkWorld (with_streams (heap w) (<[id := s]> (streams (heap w)))) (registry w), ok)
  end.

Definition name_lookup (names : gmap (list Z) (gmap (list Z) Z)) (scope name : list Z) : option Z :=
  match names !! scope with Some m => m !! name | None => None end.

Definition name_insert (names : gmap (list Z) (gmap (list Z) Z)) (scope name : list Z) (id : Z) : gmap (list Z) (gmap (list Z) Z) :=
  <[scope := <[name := id]> (default ∅ (names !! scope))]> names.

(** [None] where the code would dereference the end of the map. *)
Definition name_erase (names : gmap (list Z) (gmap (list Z) Z)) (scope name : list Z) : option (gmap (list Z) (gmap (list Z) Z)) :=
  match names !! scope with
  | None => None
  | Some m =>
    let m := delete name m in
    Some (if bool_decide (m = ∅) then delete scope names else <[scope := m]> names)
  end.

(** A fresh entry for every track that has none: [try_emplace] and [merge]. *)
Fixpoint add_tracks (tracks : list MediaTrackDescription) (h : Heap) (entries : gmap Z TrackEntry) : Heap * gmap Z TrackEntry :=
  match tracks with
  | [] => (h, entries)
  | t :: tracks =>
    match entries !! TrackKey (desc_ref t) with
    | Some _ => add_tracks tracks h entries
    | None =>
      add_tracks tracks
        (mkHeap (streams h) (<[next_cell h := Open]> (cells h)) (subs h) (next_stream h) (next_cell h + 1))
        (<[TrackKey (desc_ref t) := mkEntry (next_cell h) ∅]> entries)
    end
  end.

Definition Register (w : World) (stream : Z) : World * bool * list Event :=
  let h := heap w in let r := registry w in
  match streams h !! stream with
  | None => (w, false, [])
  | Some s =>
    if bool_decide (name_ s = []) then (w, false, []) else
    if bool_decide (is_Some (name_lookup (names_ r) (scope (source_ s)) (name_ s))) then (w, false, []) else
    if bool_decide (id_ s ∈ streams_ r) || registry_ s || bool_decide (state_ s = StreamClosed) || bool_decide (tracks_ s = [])
    then (w, false, []) else
    let '(h, entries) := add_tracks (tracks_ s) h (reg_tracks_ r) in
    let s' := mkStream (id_ s) (name_ s) (source_ s) (state_ s) (tracks_ s) (endpoints_ s) (reg_publisher_ r) true in
    let r := mkRegistry ({[ id_ s ]} ∪ streams_ r) (name_insert (names_ r) (scope (source_ s)) (name_ s) (id_ s))
      (reg_publisher_ r) (u64 (revision_ r + 1)) entries (consumers_ r) (next_consumer_id_ r) in
    (mkWorld (with_streams h (<[stream := s']> (streams h))) r, true, [StreamRegistered (stream_snapshot s) (revision_ r)])
  end.

Definition FindById (w : World) (id : Z) : option Z := if bool_decide (id ∈ streams_ (registry w)) then Some id else None.

Definition FindByName (w : World) (name scope : list Z) : option Z := name_lookup (names_ (registry w)) scope name.

(** The consumers of an entry that are still owned and not closed. *)
Definition consumer_open (h : Heap) (id : Z) : Prop :=
  match lock h id with Some sub => sub_Closed h sub = false | None => False end.

#[export] Instance consumer_open_dec h id : Decision (consumer_open h id).
Proof. unfold consumer_open. destruct (lock h id); apply _. Defined.

Definition PruneConsumersLocked (h : Heap) (r : MediaStreamRegistry) (key : Z) (e : TrackEntry) : MediaStreamRegistry * TrackEntry :=
  let kept := filter (consumer_open h) (consumers e) in
  let e' := mkEntry (entry_cell e) kept in
  (with_tracks r (<[key := e']> (reg_tracks_ r)) (consumers_ r ∖ (consumers e ∖ kept)), e').

Definition AttachConsumer (w : World) (ref : MediaTrackRef) (name : list Z) (on_close : bool) : World * option Z :=
  let h := heap w in let r := registry w in
  if negb (ref_valid ref) || bool_decide (name = []) then (w, None) else
  match reg_tracks_ r !! TrackKey ref, (if bool_decide (stream_id ref ∈ streams_ r) then streams h !! stream_id ref else None) with
  | Some e, Some s =>
    if (next_consumer_id_ r =? 0) || negb (bool_decide (state_ s = Publishing)) || (FindEndpointByTrack s (track_id ref) =? 0)
    then (w, None) else
    let '(r, e) := PruneConsumersLocked h r (TrackKey ref) e in
    if 4096 <=? Z.of_nat (size (consumers e)) then (mkWorld h r, None) else
    let id := next_consumer_id_ r in
    (mkWorld (with_subs h (<[id := mkSub ref name (entry_cell e) on_close false false true]> (subs h)))
       (mkRegistry (streams_ r) (names_ r) (reg_publisher_ r) (revision_ r)
          (<[TrackKey ref := mkEntry (entry_cell e) ({[ id ]} ∪ consumers e)]> (reg_tracks_ r))
          ({[ id ]} ∪ consumers_ r) (u64 (id + 1))), Some id)
  | _, _ => (w, None)
  end.

Definition SetTrackPaused (w : World) (ref : MediaTrackRef) (paused : bool) : World * bool * list Event :=
  let h := heap w in let r := registry w in
  let state := if paused then Paused else Open in
  match reg_tracks_ r !! TrackKey ref with
  | None => (w, false, [])
  | Some e =>
    if bool_decide (cells h !! entry_cell e = Some state) then (w, true, []) else
    (mkWorld (with_cells h (<[entry_cell e := state]> (cells h))) (bump r), true,
     [TrackAvailability ref state (revision_ (bump r))])
  end.

Definition SetConsumerPaused (w : World) (id : Z) (paused : bool) : World * bool :=
  let h := heap w in
  if negb (bool_decide (id ∈ consumers_ (registry w))) then (w, false) else
  match lock h id with
  | None => (w, false)
  | Some sub =>
    if sub_Closed h sub then (w, false)
    else (mkWorld (with_subs h (<[id := set_paused paused sub]> (subs h))) (registry w), true)
  end.

Definition DetachConsumer (w : World) (id : Z) : World * bool * list Event :=
  let h := heap w in let r := registry w in
  if negb (bool_decide (id ∈ consumers_ r)) then (w, false, []) else
  let cs := consumers_ r ∖ {[ id ]} in
  match lock h id with
  | None => (mkWorld h (with_tracks r (reg_tracks_ r) cs), false, [])
  | Some sub =>
    let r := with_tracks r (alter (fun e => mkEntry (entry_cell e) (consumers e ∖ {[ id ]})) (TrackKey (track_ sub)) (reg_tracks_ r)) cs in
    let '(h, es, ok) := NotifyClosed h id in
    (mkWorld h r, ok, es)
  end.

(** The consumers that a closing track hands over to be notified. *)
Definition retire (h : Heap) (e : TrackEntry) : list Z :=
  List.filter (fun id => match lock h id with Some _ => true | None => false end) (elements (consumers e)).

(** [RemoveTrack]; [Fault] stands for the exception of [streams_.at]. *)
Definition RemoveTrack (w : World) (ref : MediaTrackRef) : mres (World * bool * list Event) :=
  let h := heap w in let r := registry w in
  match reg_tracks_ r !! TrackKey ref with
  | None => Ret (w, false, [])
  | Some e =>
    match (if bool_decide (stream_id ref ∈ streams_ r) then streams h !! stream_id ref else None) with
    | None => Fault
    | Some s =>
      let retired := retire h e in
      let endpoints := delete (track_id ref) (endpoints_ s) in
      let s' := mkStream (id_ s) (name_ s) (source_ s) (if bool_decide (endpoints = ∅) then Announced else state_ s)
        (List.filter (fun t => negb (desc_id t =? track_id ref)) (tracks_ s)) endpoints (publisher_ s) (registry_ s) in
      let h := with_streams (with_cells h (<[entry_cell e := Closed]> (cells h))) (<[stream_id ref := s']> (streams h)) in
      let r := bump (with_tracks r (delete (TrackKey ref) (reg_tracks_ r)) (consumers_ r ∖ consumers e)) in
      let '(h, es) := notify_all h retired in
      Ret (mkWorld h r, true, es ++ [TrackAvailability ref Closed (revision_ r)])
    end
  end.

Fixpoint CloseTracksLocked (tracks : list MediaTrackDescription) (h : Heap) (r : MediaStreamRegistry) (retired : list Z) :
    Heap * MediaStreamRegistry * list Z :=
  match tracks with
  | [] => (h, r, retired)
  | t :: tracks =>
    match reg_tracks_ r !! TrackKey (desc_ref t) with
    | None => CloseTracksLocked tracks h r retired
    | Some e =>
      CloseTracksLocked tracks (with_cells h (<[entry_cell e := Closed]> (cells h)))
        (with_tracks r (delete (TrackKey (desc_ref t)) (reg_tracks_ r)) (consumers_ r ∖ consumers e)) (retired ++ retire h e)
    end
  end.

Definition Remove (w : World) (expected : Z) : mres (World * bool * list Event) :=
  let h := heap w in let r := registry w in
  match (if bool_decide (expected ∈ streams_ r) then streams h !! expected else None) with
  | None => Ret (w, false, [])
  | Some s =>
    match name_erase (names_ r) (scope (source_ s)) (name_ s) with
    | None => Fault
    | Some names =>
      let r := mkRegistry (streams_ r ∖ {[ expected ]}) names (reg_publisher_ r) (revision_ r) (reg_tracks_ r) (consumers_ r)
        (next_consumer_id_ r) in
      let '(h, r, retired) := CloseTracksLocked (tracks_ s) h r [] in
      let s' := stream_Close s in
      let h := with_streams h (<[expected := s']> (streams h)) in
      let r := bump r in
      let '(h, es) := notify_all h retired in
      Ret (mkWorld h r, true, es ++ [StreamUnregistered (stream_snapshot s') (revision_ r)])
    end
  end.

Definition SetFramePublisher (w : World) (publisher : option Z) : World :=
  let h := heap w in let r := registry w in
  mkWorld
    (with_streams h (map_imap (fun id s => Some (if bool_decide (id ∈ streams_ r) then stream_SetFramePublisher publisher s else s)) (streams h)))
    (mkRegistry (streams_ r) (names_ r) publisher (revision_ r) (reg_tracks_ r) (consumers_ r) (next_consumer_id_ r)).

(** The loop of [Clear] over the streams. *)
Fixpoint clear_streams (ids : list Z) (h : Heap) (r : MediaStreamRegistry) (retired : list Z) (removed : list Event) :
    Heap * MediaStreamRegistry * list Z * list Event :=
  match ids with
  | [] => (h, r, retired, removed)
  | id :: ids =>
    match streams h !! id with
    | None => clear_streams ids h r retired removed
    | Some s =>
      let '(h, r, retired) := CloseTracksLocked (tracks_ s) h r retired in
      let s' := stream_Close s in
      let r := bump r in
      clear_streams ids (with_streams h (<[id := s']> (streams h))) r retired
        (removed ++ [StreamUnregistered (stream_snapshot s') (revision_ r)])
    end
  end.

Definition Clear (w : World) : World * list Event :=
  let '(h, r, retired, removed) := clear_streams (elements (streams_ (registry w))) (heap w) (registry w) [] [] in
  let r := mkRegistry ∅ ∅ (reg_publisher_ r) (revision_ r) (reg_tracks_ r) (consumers_ r) (next_consumer_id_ r) in
  let '(h, es) := notify_all h retired in
  (mkWorld h r, es ++ removed).

(** The destructor: gates and streams are closed, nobody is notified. *)
Definition Destroy (w : World) : Heap :=
  let h := heap w in let r := registry w in
  with_streams (with_cells h (map_fold (fun _ e cs => <[entry_cell e := Closed]> cs) (cells h) (reg_tracks_ r)))
    (map_imap (fun id s => Some (if bool_decide (id ∈ streams_ r) then stream_Close s else s)) (streams h)).
