(* ===== verification/MediaRegistryInv.v ===== *)
(** * The registry's invariant

    The invariant of [MediaRegistry.v] and that every operation keeps it.  [wf_but X] is the
    invariant while the tracks [X] are being closed or opened, so that an operation can be
    followed step by step: entering the directory, one track after the other, leaving it. *)
From S2P Require Import Prelude Bytes MediaRegistry.

(** ** Keys and names *)

Definition ref_ok (r : MediaTrackRef) : Prop := is_u32 (stream_id r) /\ is_u32 (track_id r).

Lemma TrackKey_val r : ref_ok r -> TrackKey r = stream_id r * 2 ^ 32 + track_id r.
Proof.
  intros [H1 H2]. unfold TrackKey.
  rewrite wrap_small by (rewrite Z.shiftl_mul_pow2 by lia; unfold is_u in *; pow2; lia).
  apply lor_shiftl_add; [lia|exact H2].
Qed.

Lemma TrackKey_inj r r' : ref_ok r -> ref_ok r' -> TrackKey r = TrackKey r' -> r = r'.
Proof.
  intros H H'. rewrite !TrackKey_val by done. destruct H as [H1 H2], H' as [H1' H2'].
  unfold is_u in *. pow2. intros E. destruct r, r'; simpl in *. f_equal; lia.
Qed.

Lemma name_lookup_insert names sc n i sc' n' :
  name_lookup (name_insert names sc n i) sc' n' =
  if bool_decide (sc' = sc /\ n' = n) then Some i else name_lookup names sc' n'.
Proof.
  unfold name_lookup, name_insert. case_bool_decide as E.
  - destruct E as [-> ->]. by rewrite lookup_insert_eq, lookup_insert_eq.
  - destruct (decide (sc' = sc)) as [->|Hs].
    + rewrite lookup_insert_eq, lookup_insert_ne by naive_solver. by destruct (names !! sc).
    + by rewrite lookup_insert_ne by done.
Qed.

Lemma name_erase_lookup names sc n names' :
  name_erase names sc n = Some names' -> forall sc' n',
  name_lookup names' sc' n' = if bool_decide (sc' = sc /\ n' = n) then None else name_lookup names sc' n'.
Proof.
  unfold name_erase, name_lookup. destruct (names !! sc) as [m|] eqn:Em; [|done]. intros [= <-] sc' n'.
  case_bool_decide as E1; case_bool_decide as E2.
  - destruct E2 as [-> ->]. by rewrite lookup_delete_eq.
  - destruct (decide (sc' = sc)) as [->|Hs]; [|by rewrite lookup_delete_ne].
    rewrite lookup_delete_eq, Em. destruct (m !! n') as [j|] eqn:En; [|done]. exfalso.
    assert (delete n m !! n' = Some j) as H by (rewrite lookup_delete_ne by naive_solver; done).
    rewrite E1 in H. by rewrite lookup_empty in H.
  - destruct E2 as [-> ->]. by rewrite lookup_insert_eq, lookup_delete_eq.
  - destruct (decide (sc' = sc)) as [->|Hs]; [|by rewrite lookup_insert_ne].
    rewrite lookup_insert_eq, Em. by rewrite lookup_delete_ne by naive_solver.
Qed.

(** ** The invariant *)

Definition desc_ok (i : Z) (t : MediaTrackDescription) : Prop := desc_ref t = mkRef i (desc_id t) /\ is_u32 (desc_id t).

Definition sub_open (h : Heap) (sub : MediaTrackSubscription) : Prop := held sub = true /\ sub_Closed h sub = false.

(** [X]: tracks that are being closed and have lost their entry already. *)
Record wf_but (X : gset Z) (h : Heap) (r : MediaStreamRegistry) : Prop := {
  (** stream objects *)
  wf_stream : forall i s, streams h !! i = Some s ->
    id_ s = i /\ 0 < i < 2 ^ 32 /\ i <= next_stream h /\ NoDup (List.map desc_id (tracks_ s)) /\ Forall (desc_ok i) (tracks_ s);
  wf_next : 0 <= next_stream h;
  (** the directory *)
  wf_registered : forall i, i ∈ streams_ r <-> exists s, streams h !! i = Some s /\ registry_ s = true;
  wf_live : forall i s, streams h !! i = Some s -> registry_ s = true ->
    state_ s <> StreamClosed /\ name_lookup (names_ r) (scope (source_ s)) (name_ s) = Some i;
  wf_names : forall sc n i, name_lookup (names_ r) sc n = Some i ->
    exists s, streams h !! i = Some s /\ registry_ s = true /\ scope (source_ s) = sc /\ name_ s = n;
  wf_scopes : forall sc m, names_ r !! sc = Some m -> m <> ∅;
  (** the tracks *)
  wf_entry : forall k e, reg_tracks_ r !! k = Some e ->
    (exists i s t, streams h !! i = Some s /\ registry_ s = true /\ t ∈ tracks_ s /\ k = TrackKey (desc_ref t)) /\
    (exists st, cells h !! entry_cell e = Some st /\ st <> Closed) /\ Z.of_nat (size (consumers e)) <= 4096;
  wf_complete : forall i s t, streams h !! i = Some s -> registry_ s = true -> t ∈ tracks_ s ->
    TrackKey (desc_ref t) ∈ X \/ is_Some (reg_tracks_ r !! TrackKey (desc_ref t));
  wf_cell_inj : forall k k' e e', reg_tracks_ r !! k = Some e -> reg_tracks_ r !! k' = Some e' ->
    entry_cell e = entry_cell e' -> k = k';
  wf_cells : forall c, next_cell h <= c -> cells h !! c = None;
  (** the consumers *)
  wf_consumers : forall k e c, reg_tracks_ r !! k = Some e -> c ∈ consumers e ->
    exists sub, subs h !! c = Some sub /\ TrackKey (track_ sub) = k /\ cell_ sub = entry_cell e;
  wf_index : forall c, c ∈ consumers_ r -> exists k e, reg_tracks_ r !! k = Some e /\ c ∈ consumers e;
  wf_sub : forall c sub, subs h !! c = Some sub ->
    0 < c /\ (next_consumer_id_ r <> 0 -> c < next_consumer_id_ r) /\ ref_ok (track_ sub) /\ is_Some (cells h !! cell_ sub) /\
    (cells h !! cell_ sub <> Some Closed -> exists e, reg_tracks_ r !! TrackKey (track_ sub) = Some e /\ entry_cell e = cell_ sub /\
      (sub_open h sub -> c ∈ consumers e /\ c ∈ consumers_ r));
  wf_id : 0 <= next_consumer_id_ r < 2 ^ 64 }.

Abbreviation wf := (wf_but ∅).

Lemma wf_new : wf new_heap new_registry.
Proof. split; simpl; try (intros; done); try (intros; set_solver). Qed.

Lemma insert_cases {A} (m : gmap Z A) i a j b :
  <[i := a]> m !! j = Some b -> (j = i /\ b = a) \/ (j <> i /\ m !! j = Some b).
Proof. destruct (decide (j = i)) as [->|Hne]; [rewrite lookup_insert_eq|rewrite lookup_insert_ne by done]; naive_solver. Qed.

(** Stream objects change, but nothing that the registry relies on. *)
Definition stream_step (i : Z) (s s' : MediaStream) : Prop :=
  id_ s' = id_ s /\ name_ s' = name_ s /\ source_ s' = source_ s /\ registry_ s' = registry_ s /\
  (registry_ s = true -> tracks_ s' = tracks_ s /\ state_ s' <> StreamClosed) /\
  NoDup (List.map desc_id (tracks_ s')) /\ Forall (desc_ok i) (tracks_ s').

Lemma wf_streams X h r m :
  wf_but X h r -> (forall i s', m !! i = Some s' -> exists s, streams h !! i = Some s /\ stream_step i s s') ->
  (forall i s, streams h !! i = Some s -> is_Some (m !! i)) ->
  wf_but X (with_streams h m) r.
Proof.
  intros W Hm Hdom. destruct W.
  assert (Hf : forall i s, streams h !! i = Some s -> exists s', m !! i = Some s' /\ stream_step i s s').
  { intros i s Hs. destruct (Hdom _ _ Hs) as [s' Hs']. destruct (Hm _ _ Hs') as (u & Hu & ?). simplify_eq. eauto. }
  split; simpl; try assumption.
  - intros i s' Hs'. destruct (Hm _ _ Hs') as (s & Hs & E & _ & _ & _ & _ & ? & ?).
    destruct (wf_stream0 _ _ Hs) as (? & ? & ? & _). rewrite E. auto.
  - intros i. rewrite wf_registered0. split.
    + intros (s & Hs & Er). destruct (Hf _ _ Hs) as (s' & ? & _ & _ & _ & E & _). exists s'. by rewrite E.
    + intros (s' & Hs' & Er). destruct (Hm _ _ Hs') as (s & ? & _ & _ & _ & E & _). exists s. by rewrite <- E.
  - intros i s' Hs' Er. destruct (Hm _ _ Hs') as (s & Hs & _ & -> & -> & E & Hl & _). rewrite E in Er.
    split; [by apply Hl|by apply wf_live0].
  - intros sc n i Hi. destruct (wf_names0 _ _ _ Hi) as (s & Hs & ? & ? & ?).
    destruct (Hf _ _ Hs) as (s' & ? & _ & E2 & E3 & E4 & _). exists s'. by rewrite E2, E3, E4.
  - intros k e He. destruct (wf_entry0 _ _ He) as ((i & s & t & Hs & Er & Ht & ->) & ? & ?). split; [|done].
    destruct (Hf _ _ Hs) as (s' & ? & _ & _ & _ & E & Hl & _). exists i, s', t. rewrite E. by destruct (Hl Er) as [-> _].
  - intros i s' t Hs' Er Ht. destruct (Hm _ _ Hs') as (s & Hs & _ & _ & _ & E & Hl & _). rewrite E in Er.
    destruct (Hl Er) as [E' _]. rewrite E' in Ht. by eapply wf_complete0.
Qed.

Lemma stream_step_refl X h r i s : wf_but X h r -> streams h !! i = Some s -> stream_step i s s.
Proof.
  intros W Hs. destruct (wf_stream _ _ _ W _ _ Hs) as (_ & _ & _ & ? & ?).
  unfold stream_step. split_and!; try done. intros Hr. split; [done|]. by apply (wf_live _ _ _ W _ _ Hs).
Qed.

Lemma wf_upd_stream X h r i s s' :
  wf_but X h r -> streams h !! i = Some s -> stream_step i s s' ->
  wf_but X (with_streams h (<[i := s']> (streams h))) r.
Proof.
  intros W Hs Hst. apply wf_streams; [done| |].
  - intros j u Hu. destruct (insert_cases _ _ _ _ _ Hu) as [[-> ->]|[_ H]]; eauto using stream_step_refl.
  - intros j u Hu. rewrite lookup_insert. case_decide; [eauto|by rewrite Hu].
Qed.

(** A consumer changes, but does not open. *)
Lemma wf_upd_sub X h r c sub sub' :
  wf_but X h r -> subs h !! c = Some sub -> track_ sub' = track_ sub -> cell_ sub' = cell_ sub ->
  (sub_open h sub' -> sub_open h sub) -> wf_but X (with_subs h (<[c := sub']> (subs h))) r.
Proof.
  intros W Hc Ht Hce Ho. destruct W. split; simpl; try assumption.
  - intros k e d He Hd. destruct (wf_consumers0 _ _ _ He Hd) as (x & Hx & ? & ?). destruct (decide (d = c)) as [->|Hne].
    + simplify_eq. exists sub'. rewrite lookup_insert_eq, Ht, Hce. auto.
    + exists x. by rewrite lookup_insert_ne.
  - intros d x Hx. destruct (decide (d = c)) as [->|Hne].
    + rewrite lookup_insert_eq in Hx. simplify_eq. destruct (wf_sub0 _ _ Hc) as (? & ? & ? & ? & H).
      rewrite Ht, Hce. split_and!; try done. intros E. destruct (H E) as (e & ? & ? & Hopen). exists e. split_and!; try done.
      intros Hx. apply Hopen, Ho. exact Hx.
    + rewrite lookup_insert_ne in Hx by done. exact (wf_sub0 _ _ Hx).
Qed.

Lemma alter_present {A} (f : A -> A) (c : Z) (m : gmap Z A) a : m !! c = Some a -> alter f c m = <[c := f a]> m.
Proof. intros E. apply map_eq. intros j. rewrite lookup_alter, lookup_insert. case_decide; subst; by rewrite ?E. Qed.

Lemma alter_absent {A} (f : A -> A) (c : Z) (m : gmap Z A) : m !! c = None -> alter f c m = m.
Proof. intros E. apply map_eq. intros j. rewrite lookup_alter. case_decide; subst; by rewrite ?E. Qed.

Lemma wf_alter_sub X h r c f :
  wf_but X h r -> (forall sub, track_ (f sub) = track_ sub /\ cell_ (f sub) = cell_ sub) ->
  (forall sub, sub_open h (f sub) -> sub_open h sub) -> wf_but X (with_subs h (alter f c (subs h))) r.
Proof.
  intros W Hf Ho. destruct (subs h !! c) as [sub|] eqn:E.
  - rewrite (alter_present _ _ _ sub) by done. eapply wf_upd_sub; eauto; apply Hf.
  - rewrite alter_absent by done. by destruct h.
Qed.

Lemma sub_open_closed h sub : ~ sub_open h (set_closed sub).
Proof. unfold sub_open, sub_Closed. simpl. by intros [_ ?]. Qed.

Lemma wf_notify X h r c : wf_but X h r -> wf_but X (fst (fst (NotifyClosed h c))) r.
Proof.
  intros W. unfold NotifyClosed. destruct (subs h !! c) as [sub|] eqn:E; [|done].
  destruct (closed_ sub); [done|]. simpl. eapply wf_upd_sub; eauto. by intros ?%sub_open_closed.
Qed.

Lemma wf_notify_all X h r cs : wf_but X h r -> wf_but X (fst (notify_all h cs)) r.
Proof.
  revert h. induction cs as [|c cs IH]; intros h W; [done|]. simpl.
  destruct (NotifyClosed h c) as [[h1 es] ok] eqn:E. pose proof (wf_notify X h r c W) as W1. rewrite E in W1.
  pose proof (IH _ W1) as W2. simpl in *. by destruct (notify_all h1 cs).
Qed.

(** ** Closing tracks *)

Definition key_of (t : MediaTrackDescription) : Z := TrackKey (desc_ref t).

Lemma wf_mono X Y h r : X ⊆ Y -> wf_but X h r -> wf_but Y h r.
Proof.
  intros HXY W. destruct W. split; try assumption.
  intros i s t H1 H2 H3. destruct (wf_complete0 _ _ _ H1 H2 H3); [left; by apply HXY|by right].
Qed.

Lemma wf_bump X h r : wf_but X h r -> wf_but X h (bump r).
Proof. intros W. destruct W. split; assumption. Qed.

Lemma wf_ref X h r j u t :
  wf_but X h r -> streams h !! j = Some u -> t ∈ tracks_ u -> desc_ref t = mkRef j (desc_id t) /\ ref_ok (desc_ref t).
Proof.
  intros W Hu Ht. destruct (wf_stream _ _ _ W _ _ Hu) as (_ & Hj & _ & _ & Hf). rewrite Forall_forall in Hf.
  destruct (Hf _ Ht) as [E ?]. split; [done|]. rewrite E. split; simpl; [unfold is_u; lia|done].
Qed.

(** A key belongs to one track of one stream. *)
Lemma wf_key_inj X h r i s t j u d :
  wf_but X h r -> streams h !! i = Some s -> t ∈ tracks_ s -> streams h !! j = Some u -> d ∈ tracks_ u ->
  key_of t = key_of d -> i = j /\ t = d.
Proof.
  intros W Hs Ht Hu Hd Ek. destruct (wf_ref _ _ _ _ _ _ W Hs Ht) as [E R], (wf_ref _ _ _ _ _ _ W Hu Hd) as [E' R'].
  pose proof (TrackKey_inj _ _ R R' Ek) as Eq. rewrite E, E' in Eq. injection Eq as -> Eid. split; [done|].
  rewrite Hs in Hu. injection Hu as <-. destruct (wf_stream _ _ _ W _ _ Hs) as (_ & _ & _ & Hnd & _).
  apply list_elem_of_lookup in Ht as [a Ha]. apply list_elem_of_lookup in Hd as [b Hb].
  assert (a = b) as ->; [|congruence].
  apply (NoDup_lookup (List.map desc_id (tracks_ s)) a b (desc_id t)); [done| |];
    change (List.map desc_id (tracks_ s)) with (desc_id <$> tracks_ s); rewrite list_lookup_fmap; [rewrite Ha|rewrite Hb]; simpl; congruence.
Qed.

Lemma wf_close_track X h r k e :
  wf_but X h r -> reg_tracks_ r !! k = Some e ->
  wf_but ({[ k ]} ∪ X) (with_cells h (<[entry_cell e := Closed]> (cells h)))
    (with_tracks r (delete k (reg_tracks_ r)) (consumers_ r ∖ consumers e)).
Proof.
  intros W He. destruct W. destruct (wf_entry0 _ _ He) as (_ & (st0 & Hst0 & _) & _).
  split; simpl; try assumption.
  - intros k' e' H. apply lookup_delete_Some in H as [Hne H].
    destruct (wf_entry0 _ _ H) as (? & (st & Hst & Hc) & ?). split_and!; [done| |done].
    exists st. rewrite lookup_insert_ne; [done|]. intros E. apply Hne. eapply wf_cell_inj0; eauto.
  - intros i s t H1 H2 H3. destruct (decide (TrackKey (desc_ref t) = k)) as [->|Hne]; [left; apply elem_of_union_l; by apply elem_of_singleton|].
    destruct (wf_complete0 _ _ _ H1 H2 H3); [left; by apply elem_of_union_r|right]. by rewrite lookup_delete_ne by done.
  - intros k1 k2 e1 e2 H1 H2. apply lookup_delete_Some in H1 as [_ H1]. apply lookup_delete_Some in H2 as [_ H2]. eauto.
  - intros c Hc. rewrite lookup_insert_ne; [auto|]. intros <-. specialize (wf_cells0 _ Hc). congruence.
  - intros k' e' c H. apply lookup_delete_Some in H as [_ H]. eauto.
  - intros c Hc. apply elem_of_difference in Hc as [Hc Hn]. destruct (wf_index0 _ Hc) as (k' & e' & H1 & H2).
    exists k', e'. split; [|done]. rewrite lookup_delete_ne; [done|]. intros ->. naive_solver.
  - intros c sub Hsub. destruct (wf_sub0 _ _ Hsub) as (? & ? & ? & Hcell & H). split_and!; try done.
    { destruct (decide (cell_ sub = entry_cell e)) as [->|Hne]; [rewrite lookup_insert_eq; eauto|by rewrite lookup_insert_ne]. }
    intros E. destruct (decide (cell_ sub = entry_cell e)) as [Hce|Hce].
    { rewrite Hce, lookup_insert_eq in E. done. }
    rewrite lookup_insert_ne in E by done. destruct (H E) as (e0 & He0 & Hce0 & Hopen).
    exists e0. split_and!; [|done|].
    + rewrite lookup_delete_ne; [done|]. intros Hk. rewrite <- Hk in He0. congruence.
    + intros [Hh Ho]. destruct Hopen as [Hin Hin'].
      { split; [done|]. unfold sub_Closed, cell_state in *. simpl in Ho. by rewrite lookup_insert_ne in Ho. }
      split; [done|]. apply elem_of_difference. split; [done|]. intros Hc.
      destruct (wf_consumers0 _ _ _ He Hc) as (sub0 & ? & _ & ?). by simplify_eq.
Qed.

Lemma key_list_cons (k a : Z) l : bool_decide (k ∈ a :: l) = bool_decide (k = a) || bool_decide (k ∈ l).
Proof. repeat case_bool_decide; set_solver. Qed.

Lemma wf_close_tracks ts X h r ret h' r' ret' :
  wf_but X h r -> CloseTracksLocked ts h r ret = (h', r', ret') ->
  wf_but (list_to_set (List.map key_of ts) ∪ X) h' r' /\
  (forall k, reg_tracks_ r' !! k = if bool_decide (k ∈ List.map key_of ts) then None else reg_tracks_ r !! k) /\
  streams_ r' = streams_ r /\ names_ r' = names_ r /\ streams h' = streams h /\ subs h' = subs h /\ next_stream h' = next_stream h /\
  next_consumer_id_ r' = next_consumer_id_ r.
Proof.
  revert X h r ret. induction ts as [|t ts IH]; intros X h r ret W H; simpl in H.
  { simplify_eq. split_and!; try done. eapply wf_mono; [|exact W]. set_solver. }
  fold (key_of t) in H. destruct (reg_tracks_ r !! key_of t) as [e|] eqn:E.
  - destruct (IH _ _ _ _ (wf_close_track _ _ _ _ _ W E) H) as (W' & Hk & H1 & H2 & H3 & H4 & H5 & H6). simpl in *.
    split_and!; try done; [eapply wf_mono; [|exact W']; set_solver|].
    intros k. rewrite Hk, key_list_cons. case_bool_decide; [by rewrite orb_true_r|].
    destruct (decide (k = key_of t)) as [->|Hne]; [by rewrite bool_decide_true, lookup_delete_eq|].
    rewrite bool_decide_false, lookup_delete_ne by done. done.
  - destruct (IH _ _ _ _ W H) as (W' & Hk & H1 & H2 & H3 & H4 & H5 & H6). simpl.
    split_and!; try done; [eapply wf_mono; [|exact W']; set_solver|].
    intros k. rewrite Hk, key_list_cons. case_bool_decide; [by rewrite orb_true_r|].
    destruct (decide (k = key_of t)) as [->|Hne]; [by rewrite bool_decide_true|].
    by rewrite bool_decide_false by done.
Qed.

(** A registered stream loses tracks that have no entry any more. *)
Lemma wf_drop_tracks X h r i s s' :
  wf_but X h r -> streams h !! i = Some s -> registry_ s = true ->
  id_ s' = id_ s -> name_ s' = name_ s -> source_ s' = source_ s -> registry_ s' = true -> state_ s' <> StreamClosed ->
  NoDup (List.map desc_id (tracks_ s')) -> (forall t, t ∈ tracks_ s' -> t ∈ tracks_ s) ->
  (forall t, t ∈ tracks_ s -> t ∈ tracks_ s' \/ reg_tracks_ r !! key_of t = None) ->
  (forall k, k ∈ X -> exists t, t ∈ tracks_ s /\ k = key_of t /\ t ∉ tracks_ s') ->
  wf (with_streams h (<[i := s']> (streams h))) r.
Proof.
  intros W Hs Hr Hid Hn Hsrc Hr' Hst Hnd Hsub Hdrop HX. pose proof (wf_key_inj X h r) as Hinj. pose proof W as []. 
  pose proof (insert_cases (streams h) i s') as Hl.
  split; simpl; try assumption.
  - intros j t Ht. destruct (Hl _ _ Ht) as [[-> ->]|[_ H]]; [|by apply wf_stream0].
    destruct (wf_stream0 _ _ Hs) as (E & ? & ? & _ & Hf). rewrite Hid. split_and!; try done; try lia.
    rewrite Forall_forall in Hf |- *. auto.
  - intros j. rewrite wf_registered0. destruct (decide (j = i)) as [->|Hne].
    + rewrite lookup_insert_eq. split; intros (t & E & Et); eauto.
    + by rewrite lookup_insert_ne by done.
  - intros j t Ht Er. destruct (Hl _ _ Ht) as [[-> ->]|[_ H]]; [|by apply wf_live0].
    split; [done|]. rewrite Hsrc, Hn. by apply wf_live0.
  - intros sc n j Hj. destruct (wf_names0 _ _ _ Hj) as (t & Ht & ? & ? & ?). destruct (decide (j = i)) as [->|Hne].
    + simplify_eq. exists s'. rewrite lookup_insert_eq, Hsrc, Hn. auto.
    + exists t. by rewrite lookup_insert_ne.
  - intros k e He. destruct (wf_entry0 _ _ He) as ((j & t & d & Ht & Er & Hd & ->) & ? & ?). split; [|done].
    destruct (decide (j = i)) as [->|Hne].
    + simplify_eq. exists i, s', d. rewrite lookup_insert_eq. split_and!; try done.
      destruct (Hdrop _ Hd) as [?|Hnone]; [done|]. unfold key_of in Hnone. congruence.
    + exists j, t, d. by rewrite lookup_insert_ne.
  - intros j t d Ht Er Hd. right. destruct (Hl _ _ Ht) as [[-> ->]|[Hne H]].
    + destruct (wf_complete0 _ _ _ Hs Hr (Hsub _ Hd)) as [HinX|?]; [|done]. exfalso.
      destruct (HX _ HinX) as (d' & Hd' & Ek & Hnot).
      destruct (Hinj _ _ _ _ _ _ W Hs (Hsub _ Hd) Hs Hd' Ek) as [_ <-]. done.
    + destruct (wf_complete _ _ _ W _ _ _ H Er Hd) as [HinX|?]; [|done]. exfalso.
      destruct (HX _ HinX) as (d' & Hd' & Ek & _).
      destruct (Hinj _ _ _ _ _ _ W H Hd Hs Hd' Ek) as [? _]. done.
Qed.

(** ** Leaving and entering the directory *)

Definition set_dir (r : MediaStreamRegistry) (S : gset Z) (N : gmap (list Z) (gmap (list Z) Z)) : MediaStreamRegistry :=
  mkRegistry S N (reg_publisher_ r) (revision_ r) (reg_tracks_ r) (consumers_ r) (next_consumer_id_ r).

Lemma name_erase_some names sc n i : name_lookup names sc n = Some i -> exists names', name_erase names sc n = Some names'.
Proof. unfold name_lookup, name_erase. destruct (names !! sc); [eauto|done]. Qed.

Lemma name_erase_scopes names sc n names' :
  (forall sc m, names !! sc = Some m -> m <> ∅) -> name_erase names sc n = Some names' ->
  forall sc m, names' !! sc = Some m -> m <> ∅.
Proof.
  unfold name_erase. intros H. destruct (names !! sc) as [m0|] eqn:E; [|done]. intros [= <-] sc' m.
  case_bool_decide.
  - rewrite lookup_delete_Some. naive_solver.
  - rewrite lookup_insert_Some. naive_solver.
Qed.

Lemma name_insert_scopes names sc n i :
  (forall sc m, names !! sc = Some m -> m <> ∅) -> forall sc' m, name_insert names sc n i !! sc' = Some m -> m <> ∅.
Proof.
  unfold name_insert. intros H sc' m. rewrite lookup_insert_Some. intros [[_ <-]|[_ ?]]; [|eauto].
  apply insert_non_empty.
Qed.

Lemma wf_unregister X h r i s names' :
  wf_but X h r -> streams h !! i = Some s -> registry_ s = true ->
  (forall t, t ∈ tracks_ s -> reg_tracks_ r !! key_of t = None) ->
  (forall k, k ∈ X -> exists t, t ∈ tracks_ s /\ k = key_of t) ->
  name_erase (names_ r) (scope (source_ s)) (name_ s) = Some names' ->
  wf (with_streams h (<[i := stream_Close s]> (streams h))) (set_dir r (streams_ r ∖ {[ i ]}) names').
Proof.
  intros W Hs Hr Hnone HX Hn. pose proof (wf_key_inj X h r) as Hinj. pose proof W as [].
  pose proof (insert_cases (streams h) i (stream_Close s)) as Hl.
  pose proof (name_erase_lookup _ _ _ _ Hn) as Hlook.
  destruct (wf_live0 _ _ Hs Hr) as [_ Hname].
  split; simpl; try assumption.
  - intros j t Ht. destruct (Hl _ _ Ht) as [[-> ->]|[_ H]]; [exact (wf_stream0 _ _ Hs)|exact (wf_stream0 _ _ H)].
  - intros j. rewrite elem_of_difference, elem_of_singleton, wf_registered0. split.
    + intros [(t & Ht & E) Hne]. exists t. by rewrite lookup_insert_ne.
    + intros (t & Ht & E). destruct (Hl _ _ Ht) as [[-> ->]|[Hne H]]; [done|]. eauto.
  - intros j t Ht Er. destruct (Hl _ _ Ht) as [[-> ->]|[Hne H]]; [done|].
    destruct (wf_live0 _ _ H Er) as [? Hname']. split; [done|]. rewrite Hlook.
    rewrite bool_decide_false; [done|]. intros [E1 E2]. rewrite E1, E2 in Hname'. congruence.
  - intros sc n j Hj. rewrite Hlook in Hj. case_bool_decide as D; [done|].
    destruct (wf_names0 _ _ _ Hj) as (t & Ht & ? & ? & ?). exists t. rewrite lookup_insert_ne; [done|].
    intros <-. apply D. simplify_eq. done.
  - exact (name_erase_scopes _ _ _ _ wf_scopes0 Hn).
  - intros k e He. destruct (wf_entry0 _ _ He) as ((j & t & d & Ht & Er & Hd & ->) & ? & ?). split; [|done].
    exists j, t, d. rewrite lookup_insert_ne; [done|]. intros <-. simplify_eq. specialize (Hnone _ Hd).
    unfold key_of in Hnone. congruence.
  - intros j t d Ht Er Hd. right. destruct (Hl _ _ Ht) as [[-> ->]|[Hne H]]; [done|].
    destruct (wf_complete0 _ _ _ H Er Hd) as [HinX|?]; [|done]. exfalso.
    destruct (HX _ HinX) as (d' & Hd' & Ek). destruct (Hinj _ _ _ _ _ _ W H Hd Hs Hd' Ek) as [? _]. done.
Qed.

Definition registered (s : MediaStream) (publisher : option Z) : MediaStream :=
  mkStream (id_ s) (name_ s) (source_ s) (state_ s) (tracks_ s) (endpoints_ s) publisher true.

(** A stream enters the directory, its tracks have no entries yet. *)
Lemma wf_enter h r i s p :
  wf h r -> streams h !! i = Some s -> registry_ s = false -> state_ s <> StreamClosed ->
  name_lookup (names_ r) (scope (source_ s)) (name_ s) = None ->
  wf_but (list_to_set (List.map key_of (tracks_ s))) (with_streams h (<[i := registered s p]> (streams h)))
    (set_dir r ({[ i ]} ∪ streams_ r) (name_insert (names_ r) (scope (source_ s)) (name_ s) i)).
Proof.
  intros W Hs Hr Hst Hname. pose proof W as []. pose proof (insert_cases (streams h) i (registered s p)) as Hl.
  split; simpl; try assumption.
  - intros j t Ht. destruct (Hl _ _ Ht) as [[-> ->]|[_ H]]; [exact (wf_stream0 _ _ Hs)|exact (wf_stream0 _ _ H)].
  - intros j. rewrite elem_of_union, elem_of_singleton, wf_registered0. split.
    + intros [->|(t & Ht & E)]; [exists (registered s p); by rewrite lookup_insert_eq|].
      exists t. rewrite lookup_insert_ne; [done|]. intros <-. congruence.
    + intros (t & Ht & E). destruct (Hl _ _ Ht) as [[-> ->]|[Hne H]]; [by left|right; eauto].
  - intros j t Ht Er. rewrite name_lookup_insert. destruct (Hl _ _ Ht) as [[-> ->]|[Hne H]].
    + split; [done|]. by rewrite bool_decide_true.
    + destruct (wf_live0 _ _ H Er) as [? Hname']. split; [done|].
      rewrite bool_decide_false; [done|]. intros [E1 E2]. rewrite E1, E2 in Hname'. congruence.
  - intros sc n j. rewrite name_lookup_insert. case_bool_decide as D.
    + intros [= <-]. destruct D as [-> ->]. exists (registered s p). by rewrite lookup_insert_eq.
    + intros Hj. destruct (wf_names0 _ _ _ Hj) as (t & Ht & ? & ? & ?). exists t. rewrite lookup_insert_ne; [done|].
      intros <-. congruence.
  - exact (name_insert_scopes _ _ _ _ wf_scopes0).
  - intros k e He. destruct (wf_entry0 _ _ He) as ((j & t & d & Ht & Er & Hd & ->) & ? & ?). split; [|done].
    exists j, t, d. rewrite lookup_insert_ne; [done|]. intros <-. congruence.
  - intros j t d Ht Er Hd. destruct (Hl _ _ Ht) as [[-> ->]|[Hne H]].
    + left. apply elem_of_list_to_set. by apply (list_elem_of_fmap_2 key_of).
    + right. destruct (wf_complete0 _ _ _ H Er Hd) as [?|?]; [set_solver|done].
Qed.

Definition add_cell (h : Heap) : Heap :=
  mkHeap (streams h) (<[next_cell h := Open]> (cells h)) (subs h) (next_stream h) (next_cell h + 1).

Lemma wf_add_entry X h r i s t :
  wf_but X h r -> streams h !! i = Some s -> registry_ s = true -> t ∈ tracks_ s -> reg_tracks_ r !! key_of t = None ->
  wf_but (X ∖ {[ key_of t ]}) (add_cell h) (with_tracks r (<[key_of t := mkEntry (next_cell h) ∅]> (reg_tracks_ r)) (consumers_ r)).
Proof.
  intros W Hs Hr Ht Hnone. pose proof W as [].
  assert (Hfresh : forall k e, reg_tracks_ r !! k = Some e -> entry_cell e <> next_cell h).
  { intros k e He E. destruct (wf_entry0 _ _ He) as (_ & (st & Hst & _) & _). rewrite E, wf_cells0 in Hst by lia. done. }
  split; simpl; try assumption.
  - intros k e He. destruct (insert_cases _ _ _ _ _ He) as [[-> ->]|[Hne H]].
    + split_and!; [by eauto 10| |by vm_compute]. exists Open. simpl. by rewrite lookup_insert_eq.
    + destruct (wf_entry0 _ _ H) as (? & (st & Hst & ?) & ?). split_and!; [done| |done].
      exists st. rewrite lookup_insert_ne; [done|]. intros E. by apply (Hfresh _ _ H).
  - intros j u d H1 H2 H3. destruct (decide (TrackKey (desc_ref d) = key_of t)) as [->|Hne].
    + right. rewrite lookup_insert_eq. eauto.
    + destruct (wf_complete0 _ _ _ H1 H2 H3); [left; apply elem_of_difference; by rewrite elem_of_singleton|right]. by rewrite lookup_insert_ne.
  - intros k k' e e' He He' Ec. destruct (insert_cases _ _ _ _ _ He) as [[-> ->]|[Hne H]], (insert_cases _ _ _ _ _ He') as [[-> ->]|[Hne' H']]; simpl in *.
    + done.
    + by destruct (Hfresh _ _ H').
    + by destruct (Hfresh _ _ H).
    + eauto.
  - intros c Hc. rewrite lookup_insert_ne by lia. apply wf_cells0. lia.
  - intros k e c He Hc. destruct (insert_cases _ _ _ _ _ He) as [[-> ->]|[Hne H]]; [by apply elem_of_empty in Hc|]. eauto.
  - intros c Hc. destruct (wf_index0 _ Hc) as (k & e & H1 & H2). exists k, e. rewrite lookup_insert_ne; [done|].
    intros <-. congruence.
  - intros c sub Hsub. destruct (wf_sub0 _ _ Hsub) as (? & ? & ? & [st Hcell] & H). 
    assert (cell_ sub <> next_cell h) as Hcs by (intros E; rewrite E, wf_cells0 in Hcell by lia; done).
    split_and!; try done; [by rewrite lookup_insert_ne by done|]. rewrite lookup_insert_ne by done. intros E.
    destruct (H E) as (e0 & He0 & Hce0 & Hopen). exists e0. split_and!; [|done|].
    + rewrite lookup_insert_ne; [done|]. intros Hk. rewrite <- Hk in He0. congruence.
    + intros [Hh Ho]. apply Hopen. split; [done|]. unfold sub_Closed, cell_state in *. simpl in Ho. by rewrite lookup_insert_ne in Ho.
Qed.

Lemma wf_add_tracks ts X h r i s h' entries :
  wf_but X h r -> streams h !! i = Some s -> registry_ s = true -> (forall t, t ∈ ts -> t ∈ tracks_ s) ->
  add_tracks ts h (reg_tracks_ r) = (h', entries) ->
  wf_but (X ∖ list_to_set (List.map key_of ts)) h' (with_tracks r entries (consumers_ r)) /\ streams h' = streams h.
Proof.
  revert X h r. induction ts as [|t ts IH]; intros X h r W Hs Hr Hin H; simpl in H.
  { simplify_eq. split; [|done]. destruct r. simpl. eapply wf_mono; [|exact W]. set_solver. }
  fold (key_of t) in H. destruct (reg_tracks_ r !! key_of t) as [e|] eqn:E.
  - destruct (IH (X ∖ {[ key_of t ]}) h r) as [W' ?]; try done; [|set_solver|].
    + pose proof W as []. split; try assumption. intros j u d H1 H2 H3.
      destruct (wf_complete0 _ _ _ H1 H2 H3); [|by right].
      destruct (decide (TrackKey (desc_ref d) = key_of t)) as [->|Hne]; [right; rewrite E; eauto|left; apply elem_of_difference; by rewrite elem_of_singleton].
    + split; [|done]. eapply wf_mono; [|exact W']. set_solver.
  - destruct (IH (X ∖ {[ key_of t ]}) (add_cell h)
      (with_tracks r (<[key_of t := mkEntry (next_cell h) ∅]> (reg_tracks_ r)) (consumers_ r))) as [W' ?]; try done; [|set_solver|].
    + eapply wf_add_entry; eauto. set_solver.
    + split; [|done]. eapply wf_mono; [|exact W']. set_solver.
Qed.

(** ** Attaching *)

Lemma consumer_open_iff h c : consumer_open h c <-> exists sub, subs h !! c = Some sub /\ sub_open h sub.
Proof.
  unfold consumer_open, lock, sub_open. destruct (subs h !! c) as [sub|]; [|split; [done|by intros (? & ? & _)]].
  destruct (held sub) eqn:E; split.
  - intros H. by exists sub.
  - intros (s & Es & _ & H). by simplify_eq.
  - done.
  - intros (s & Es & H & _). simplify_eq. congruence.
Qed.

Lemma wf_prune X h r k e :
  wf_but X h r -> reg_tracks_ r !! k = Some e -> wf_but X h (fst (PruneConsumersLocked h r k e)).
Proof.
  intros W He. pose proof W as []. unfold PruneConsumersLocked. simpl.
  set (kept := filter (consumer_open h) (consumers e)).
  assert (Hkept : forall c, c ∈ kept <-> consumer_open h c /\ c ∈ consumers e) by (intros c; unfold kept; apply elem_of_filter).
  split; simpl; try assumption.
  - intros k' e' H. destruct (insert_cases _ _ _ _ _ H) as [[-> ->]|[_ H']]; [|by apply wf_entry0].
    destruct (wf_entry0 _ _ He) as (? & ? & Hsz). split_and!; try done. simpl.
    etransitivity; [|exact Hsz]. apply inj_le, subseteq_size. intros c Hc. by apply Hkept.
  - intros i s t H1 H2 H3. destruct (wf_complete0 _ _ _ H1 H2 H3) as [|Hs]; [by left|right].
    rewrite lookup_insert. case_decide; [eauto|done].
  - intros k1 k2 e1 e2 H1 H2 E.
    destruct (insert_cases _ _ _ _ _ H1) as [[-> ->]|[_ H1']], (insert_cases _ _ _ _ _ H2) as [[-> ->]|[_ H2']]; simpl in *; eauto.
  - intros k' e' c H Hc. destruct (insert_cases _ _ _ _ _ H) as [[-> ->]|[_ H']]; [|eauto].
    simpl in *. apply Hkept in Hc as [_ Hc]. eauto.
  - intros c Hc. apply elem_of_difference in Hc as [Hc Hn]. destruct (wf_index0 _ Hc) as (k' & e' & H1 & H2).
    destruct (decide (k' = k)) as [->|Hne].
    + simplify_eq. exists k, (mkEntry (entry_cell e) kept). rewrite lookup_insert_eq. split; [done|]. simpl.
      destruct (decide (c ∈ kept)); [done|]. exfalso. apply Hn. by apply elem_of_difference.
    + exists k', e'. by rewrite lookup_insert_ne.
  - intros c sub Hsub. destruct (wf_sub0 _ _ Hsub) as (? & ? & ? & ? & H). split_and!; try done. intros E.
    destruct (H E) as (e0 & He0 & Hce & Ho). destruct (decide (TrackKey (track_ sub) = k)) as [Hk|Hk].
    + rewrite Hk in *. simplify_eq. exists (mkEntry (entry_cell e) kept). rewrite lookup_insert_eq. split_and!; [done|done|].
      intros Hop. destruct (Ho Hop) as [Hin Hin']. assert (c ∈ kept) by (apply Hkept; split; [apply consumer_open_iff; eauto|done]).
      simpl. split; [done|]. apply elem_of_difference. split; [done|]. by intros [_ ?]%elem_of_difference.
    + exists e0. rewrite lookup_insert_ne by done. split_and!; [done|done|]. intros Hop. destruct (Ho Hop) as [Hin Hin'].
      split; [done|]. apply elem_of_difference. split; [done|]. intros [Hc _]%elem_of_difference.
      destruct (wf_consumers0 _ _ _ He Hc) as (sub0 & ? & ? & _). simplify_eq.
Qed.

Lemma wf_attach X h r ref e name cb :
  wf_but X h r -> reg_tracks_ r !! TrackKey ref = Some e -> ref_ok ref -> next_consumer_id_ r <> 0 ->
  Z.of_nat (size (consumers e)) < 4096 ->
  wf_but X
    (with_subs h (<[next_consumer_id_ r := mkSub ref name (entry_cell e) cb false false true]> (subs h)))
    (mkRegistry (streams_ r) (names_ r) (reg_publisher_ r) (revision_ r)
      (<[TrackKey ref := mkEntry (entry_cell e) ({[ next_consumer_id_ r ]} ∪ consumers e)]> (reg_tracks_ r))
      ({[ next_consumer_id_ r ]} ∪ consumers_ r) (u64 (next_consumer_id_ r + 1))).
Proof.
  intros W He Href Hid Hsz. pose proof W as []. set (c0 := next_consumer_id_ r) in *.
  assert (Hnew : subs h !! c0 = None).
  { destruct (subs h !! c0) eqn:E; [|done]. destruct (wf_sub0 _ _ E) as (? & Hlt & _). specialize (Hlt Hid). lia. }
  destruct (wf_entry0 _ _ He) as (Hex & (st & Hst & Hnc) & _).
  split; simpl; try assumption.
  - intros k' e' H. destruct (insert_cases _ _ _ _ _ H) as [[-> ->]|[_ H']]; [|by apply wf_entry0].
    split_and!; [done|eauto|]. simpl. rewrite size_union_alt, size_singleton.
    pose proof (subseteq_size (consumers e ∖ {[ c0 ]}) (consumers e) (subseteq_difference_l _ _ _ (reflexivity _))). lia.
  - intros i s t H1 H2 H3. destruct (wf_complete0 _ _ _ H1 H2 H3) as [|Hs]; [by left|right].
    rewrite lookup_insert. case_decide; [eauto|done].
  - intros k1 k2 e1 e2 H1 H2 E.
    destruct (insert_cases _ _ _ _ _ H1) as [[-> ->]|[_ H1']], (insert_cases _ _ _ _ _ H2) as [[-> ->]|[_ H2']]; simpl in *; eauto.
  - intros k' e' c H Hc. destruct (decide (c = c0)) as [->|Hne].
    + rewrite lookup_insert_eq. eexists. split; [done|]. simpl. destruct (insert_cases _ _ _ _ _ H) as [[-> ->]|[_ H']]; [done|].
      destruct (wf_consumers0 _ _ _ H' Hc) as (? & ? & _). congruence.
    + rewrite lookup_insert_ne by done. destruct (insert_cases _ _ _ _ _ H) as [[-> ->]|[_ H']]; [|eauto].
      simpl in *. apply (wf_consumers0 _ _ _ He). apply elem_of_union in Hc as [Hc|Hc]; [by apply elem_of_singleton in Hc|done].
  - intros c Hc. apply elem_of_union in Hc as [Hc|Hc].
    + apply elem_of_singleton in Hc as ->. eexists _, _. split; [apply lookup_insert_eq|]. simpl. apply elem_of_union_l. by apply elem_of_singleton.
    + destruct (wf_index0 _ Hc) as (k' & e' & H1 & H2). destruct (decide (k' = TrackKey ref)) as [->|Hne].
      * simplify_eq. eexists _, _. split; [apply lookup_insert_eq|]. simpl. by apply elem_of_union_r.
      * exists k', e'. by rewrite lookup_insert_ne.
  - intros c sub Hsub. destruct (decide (c = c0)) as [->|Hne].
    + rewrite lookup_insert_eq in Hsub. simplify_eq. simpl. split_and!; [unfold c0; lia| |done|eauto|].
      * fold c0 in wf_id0. intros Hw. unfold wrap in *. pow2. fold c0.
        destruct (Z.eq_dec (c0 + 1) 18446744073709551616) as [E|E]; [rewrite E in Hw; done|rewrite Z.mod_small; lia].
      * intros _. eexists. split; [apply lookup_insert_eq|]. simpl. split; [done|]. split; apply elem_of_union_l, elem_of_singleton_2; done.
    + rewrite lookup_insert_ne in Hsub by done. destruct (wf_sub0 _ _ Hsub) as (? & Hlt & ? & ? & H). split_and!; try done.
      * intros Hw. specialize (Hlt Hid). fold c0 in Hlt. unfold wrap in *. pow2.
        destruct (Z.eq_dec (c0 + 1) 18446744073709551616) as [E|E]; [rewrite E in Hw; done|rewrite Z.mod_small; lia].
      * intros E. destruct (H E) as (e0 & He0 & Hce & Ho). destruct (decide (TrackKey (track_ sub) = TrackKey ref)) as [Hk|Hk].
        -- rewrite Hk in *. simplify_eq. eexists. split; [apply lookup_insert_eq|]. simpl. split; [done|].
           intros Hop. destruct (Ho Hop). split; by apply elem_of_union_r.
        -- exists e0. rewrite lookup_insert_ne by done. split_and!; [done|done|]. intros Hop. destruct (Ho Hop). split; [done|by apply elem_of_union_r].
  - apply wrap_range. lia.
Qed.

(** ** Runs *)

Inductive Op :=
| OpNewStream (name : list Z) (source : Source)
| OpReplaceTracks (i : Z) (tracks : list MediaTrackDescription)
| OpBind (i track endpoint : Z)
| OpUnbind (i endpoint : Z)
| OpStart (i : Z)
| OpStreamPublisher (i : Z) (p : option Z)
| OpRegister (i : Z)
| OpAttach (ref : MediaTrackRef) (name : list Z) (on_close : bool)
| OpPauseTrack (ref : MediaTrackRef) (paused : bool)
| OpPauseConsumer (c : Z) (paused : bool)
| OpDetach (c : Z)
| OpRemoveTrack (ref : MediaTrackRef)
| OpRemove (i : Z)
| OpSetPublisher (p : option Z)
| OpClear
| OpClose (c : Z)
| OpRelease (c : Z).

Definition step (w : World) (op : Op) : mres (World * list Event) :=
  match op with
  | OpNewStream name source => Ret (fst (NewStream w name source), [])
  | OpReplaceTracks i tracks => Ret (fst (on_stream w i (fun s => ReplaceTracks s tracks)), [])
  | OpBind i track endpoint => Ret (fst (on_stream w i (fun s => BindTrackEndpoint s track endpoint)), [])
  | OpUnbind i endpoint => Ret (fst (on_stream w i (fun s => (UnbindTrackEndpoint s endpoint, true))), [])
  | OpStart i => Ret (fst (on_stream w i StartPublishing), [])
  | OpStreamPublisher i p => Ret (fst (on_stream w i (fun s => (stream_SetFramePublisher p s, true))), [])
  | OpRegister i => let '(w, _, es) := Register w i in Ret (w, es)
  | OpAttach ref name cb => Ret (fst (AttachConsumer w ref name cb), [])
  | OpPauseTrack ref paused => let '(w, _, es) := SetTrackPaused w ref paused in Ret (w, es)
  | OpPauseConsumer c paused => Ret (fst (SetConsumerPaused w c paused), [])
  | OpDetach c => let '(w, _, es) := DetachConsumer w c in Ret (w, es)
  | OpRemoveTrack ref => let! r := RemoveTrack w ref in let '(w, _, es) := r in Ret (w, es)
  | OpRemove i => let! r := Remove w i in let '(w, _, es) := r in Ret (w, es)
  | OpSetPublisher p => Ret (SetFramePublisher w p, [])
  | OpClear => let '(w, es) := Clear w in Ret (w, es)
  | OpClose c => Ret (mkWorld (sub_Close (heap w) c) (registry w), [])
  | OpRelease c => Ret (mkWorld (Release (heap w) c) (registry w), [])
  end.

(** Identifiers have 32 bits. *)
Definition op_ok (op : Op) : Prop :=
  match op with
  | OpReplaceTracks _ tracks => Forall (fun t => is_u32 (desc_id t)) tracks
  | OpAttach ref _ _ | OpPauseTrack ref _ | OpRemoveTrack ref => ref_ok ref
  | _ => True
  end.

Definition wf_world (w : World) : Prop := wf (heap w) (registry w).

Lemma tracks_valid_nodup seen ts :
  tracks_valid seen ts = true -> NoDup (List.map desc_id ts) /\ forall t, t ∈ ts -> desc_id t ∉ seen.
Proof.
  revert seen. induction ts as [|t ts IH]; intros seen H; simpl in *; [split; [constructor|set_solver]|].
  apply andb_prop in H as [H1 H]. apply andb_prop in H1 as [H1 _]. apply negb_true_iff, bool_decide_eq_false in H1.
  destruct (IH _ H) as [Hnd Hs]. split.
  - apply NoDup_cons. split; [|done]. intros Hin. apply list_elem_of_fmap in Hin as (u & E & Hu). specialize (Hs _ Hu). set_solver.
  - intros u Hu. apply elem_of_cons in Hu as [->|Hu]; [done|]. specialize (Hs _ Hu). set_solver.
Qed.

Lemma wf_on_stream w i f :
  wf_world w -> (forall s, streams (heap w) !! i = Some s -> stream_step i s (fst (f s))) -> wf_world (fst (on_stream w i f)).
Proof.
  intros W Hf. unfold on_stream. destruct (streams (heap w) !! i) as [s|] eqn:Hs; [|done].
  specialize (Hf s eq_refl). destruct (f s) as [s' ok]. by eapply wf_upd_stream.
Qed.

Lemma wf_ReplaceTracks w i ts s :
  wf_world w -> Forall (fun t => is_u32 (desc_id t)) ts -> streams (heap w) !! i = Some s ->
  stream_step i s (fst (ReplaceTracks s ts)).
Proof.
  intros W Hu Hs. pose proof (stream_step_refl _ _ _ _ _ W Hs) as Hrefl. unfold ReplaceTracks.
  destruct ts as [|t0 ts0] eqn:Ets; [done|]. rewrite <- Ets in *. clear Ets.
  destruct (tracks_valid ∅ ts) eqn:Ev; [|done]. simpl. destruct (_ || registry_ s || _) eqn:E; [done|].
  apply orb_false_iff in E as [E _]. apply orb_false_iff in E as [_ Er].
  destruct (wf_stream _ _ _ W _ _ Hs) as (Eid & _). unfold stream_step. simpl. split_and!; try done.
  - by rewrite Er.
  - rewrite List.map_map. simpl. apply (tracks_valid_nodup ∅ ts Ev).
  - apply Forall_forall. intros t Ht. apply list_elem_of_fmap in Ht as (u & -> & Ht). rewrite Forall_forall in Hu.
    split; simpl; [by rewrite Eid|by apply Hu].
Qed.

(** Operations on a stream's end points leave the rest of it alone. *)
Lemma stream_step_endpoints X h r i s st eps :
  wf_but X h r -> streams h !! i = Some s -> (state_ s <> StreamClosed -> st <> StreamClosed) ->
  stream_step i s (set_endpoints s st eps).
Proof.
  intros W Hs Hst. destruct (stream_step_refl _ _ _ _ _ W Hs) as (? & ? & ? & ? & Hl & ? & ?).
  unfold stream_step. simpl. split_and!; try done. intros Hr. split; [done|]. by apply Hst, Hl.
Qed.

Lemma wf_NewStream w name source : wf_world w -> wf_world (fst (NewStream w name source)).
Proof.
  intros W. unfold NewStream, wf_world in *. pose proof W as []. set (id := next_stream (heap w) + 1).
  assert (Hnone : streams (heap w) !! id = None).
  { destruct (streams (heap w) !! id) eqn:E; [|done]. destruct (wf_stream0 _ _ E) as (_ & _ & ? & _). lia. }
  destruct (Z.ltb_spec 0xffffffff id) as [Hbig|Hsmall]; simpl.
  - split; simpl; try assumption; [|lia]. intros i s Hs. destruct (wf_stream0 _ _ Hs) as (? & ? & ? & ? & ?). split_and!; try done; lia.
  - pose proof (insert_cases (streams (heap w)) id (new_MediaStream id name source)) as Hl.
    assert (Hkeep : forall i s, streams (heap w) !! i = Some s -> <[id := new_MediaStream id name source]> (streams (heap w)) !! i = Some s).
    { intros i s Hs. rewrite lookup_insert_ne; [done|]. intros E. rewrite E in Hnone. congruence. }
    split; simpl; try assumption; [..|lia| | | | |].
    + intros i s Hs. destruct (Hl _ _ Hs) as [[-> ->]|[_ H]]; simpl.
      * split_and!; try lia; try done; constructor.
      * destruct (wf_stream0 _ _ H) as (? & ? & ? & ? & ?). split_and!; try done; lia.
    + intros i. rewrite wf_registered0. split.
      * intros (s & Hs & Hr). eauto.
      * intros (s & Hs & Hr). destruct (Hl _ _ Hs) as [[-> ->]|[_ H]]; [done|eauto].
    + intros i s Hs Hr. destruct (Hl _ _ Hs) as [[-> ->]|[_ H]]; [done|eauto].
    + intros sc n i Hi. destruct (wf_names0 _ _ _ Hi) as (s & Hs & ?). eauto.
    + intros k e He. destruct (wf_entry0 _ _ He) as ((i & s & t & Hs & ?) & ?). split; [|done]. eauto 10.
    + intros i s t Hs Hr Ht. destruct (Hl _ _ Hs) as [[-> ->]|[_ H]]; [done|eauto].
Qed.

Lemma wf_Register w i : wf_world w -> wf_world (fst (fst (Register w i))).
Proof.
  intros W. unfold Register. destruct (streams (heap w) !! i) as [s|] eqn:Hs; [|done].
  destruct (bool_decide (name_ s = [])); [done|]. case_bool_decide as Hname; [done|].
  destruct (bool_decide (id_ s ∈ streams_ (registry w)) || registry_ s || bool_decide (state_ s = StreamClosed) || bool_decide (tracks_ s = [])) eqn:E; [done|].
  apply orb_false_iff in E as [E _]. apply orb_false_iff in E as [E Hst]. apply orb_false_iff in E as [_ Hr].
  apply bool_decide_eq_false in Hst.
  destruct (add_tracks (tracks_ s) (heap w) (reg_tracks_ (registry w))) as [h' entries] eqn:Ea. simpl.
  destruct (wf_stream _ _ _ W _ _ Hs) as (<- & _). set (i := id_ s) in *.
  assert (name_lookup (names_ (registry w)) (scope (source_ s)) (name_ s) = None) as Hn by (apply eq_None_not_Some; done).
  pose proof (wf_enter _ _ _ _ (reg_publisher_ (registry w)) W Hs Hr Hst Hn) as We.
  set (s' := registered s (reg_publisher_ (registry w))) in *. set (r' := set_dir _ _ _) in We.
  assert (Ea' : add_tracks (tracks_ s) (with_streams (heap w) (<[i := s']> (streams (heap w)))) (reg_tracks_ r') =
    (with_streams h' (<[i := s']> (streams (heap w))), entries)).
  { revert Ea. change (reg_tracks_ r') with (reg_tracks_ (registry w)). clear. generalize (reg_tracks_ (registry w)).
    generalize (<[i := s']> (streams (heap w))). generalize (heap w). induction (tracks_ s) as [|t ts IH]; intros h m es H; simpl in *.
    { by simplify_eq. }
    destruct (es !! TrackKey (desc_ref t)); [by apply IH|]. by rewrite <- (IH _ m _ H). }
  destruct (wf_add_tracks _ _ _ _ _ s' _ _ We ltac:(apply lookup_insert_eq) eq_refl ltac:(done) Ea') as [Wa _].
  rewrite difference_diag_L in Wa. unfold wf_world. simpl.
  assert (streams h' = streams (heap w)) as Esh.
  { revert Ea. clear. generalize (reg_tracks_ (registry w)). generalize (heap w).
    induction (tracks_ s) as [|t ts IH]; intros h es H; simpl in *; [by simplify_eq|].
    destruct (es !! TrackKey (desc_ref t)); [by eauto|]. by rewrite (IH _ _ H). }
  rewrite Esh. subst s'. pose proof Wa as []. split; assumption.
Qed.

Lemma wf_Attach w ref name cb : wf_world w -> ref_ok ref -> wf_world (fst (AttachConsumer w ref name cb)).
Proof.
  intros W Href. unfold AttachConsumer. destruct (_ || _); [done|].
  destruct (reg_tracks_ (registry w) !! TrackKey ref) as [e|] eqn:He; [|done].
  destruct (if bool_decide _ then _ else _) as [s|]; [|done].
  destruct ((next_consumer_id_ (registry w) =? 0) || _ || _) eqn:E; [done|].
  apply orb_false_iff in E as [E _]. apply orb_false_iff in E as [E _]. apply Z.eqb_neq in E.
  pose proof (wf_prune _ _ _ _ _ W He) as Wp.
  unfold PruneConsumersLocked in *. simpl in *. destruct (Z.leb_spec 4096 (Z.of_nat (size (filter (consumer_open (heap w)) (consumers e))))) as [Esz|Esz]; [exact Wp|]. exact (wf_attach _ _ _ ref (mkEntry (entry_cell e) _) name cb Wp (lookup_insert_eq _ _ _) Href E Esz).
Qed.

Lemma wf_set_cell X h r k e st :
  wf_but X h r -> reg_tracks_ r !! k = Some e -> st <> Closed ->
  wf_but X (with_cells h (<[entry_cell e := st]> (cells h))) r.
Proof.
  intros W He Hst. pose proof W as []. destruct (wf_entry0 _ _ He) as (_ & (st0 & Hst0 & Hnc) & _).
  split; simpl; try assumption.
  - intros k' e' He'. destruct (wf_entry0 _ _ He') as (? & (st' & ? & ?) & ?). split_and!; [done| |done].
    rewrite lookup_insert. case_decide; eauto.
  - intros c Hc. rewrite lookup_insert_ne; [auto|]. intros <-. rewrite wf_cells0 in Hst0 by done. done.
  - intros c sub Hsub. destruct (wf_sub0 _ _ Hsub) as (? & ? & ? & Hcell & H). split_and!; try done.
    { rewrite lookup_insert. case_decide; eauto. }
    intros E. destruct H as (e0 & ? & ? & Ho).
    { rewrite lookup_insert in E. case_decide as D; [rewrite <- D, Hst0; congruence|done]. }
    exists e0. split_and!; try done. intros [Hh Hcl]. apply Ho. split; [done|].
    unfold sub_Closed, cell_state in *. simpl in Hcl. apply orb_false_iff in Hcl as [-> _]. simpl. apply bool_decide_eq_false.
    rewrite lookup_insert in E. case_decide as D; [rewrite <- D, Hst0; done|].
    destruct Hcell as [st1 Hc1]. rewrite Hc1 in *. simpl. congruence.
Qed.

Lemma wf_SetTrackPaused w ref b : wf_world w -> wf_world (fst (fst (SetTrackPaused w ref b))).
Proof.
  intros W. unfold SetTrackPaused. destruct (reg_tracks_ (registry w) !! TrackKey ref) as [e|] eqn:He; [|done].
  case_bool_decide; [done|]. apply wf_bump. simpl. by eapply wf_set_cell; [..|destruct b].
Qed.

Lemma lock_some h c sub : lock h c = Some sub -> subs h !! c = Some sub /\ held sub = true.
Proof. unfold lock. destruct (subs h !! c) as [s|]; [|done]. destruct (held s) eqn:E; [|done]. intros [= <-]. auto. Qed.

Lemma wf_SetConsumerPaused w c b : wf_world w -> wf_world (fst (SetConsumerPaused w c b)).
Proof.
  intros W. unfold SetConsumerPaused. destruct (negb _); [done|]. destruct (lock (heap w) c) as [sub|] eqn:El; [|done].
  destruct (sub_Closed (heap w) sub); [done|]. apply lock_some in El as [El _]. by eapply wf_upd_sub.
Qed.

(** A closed consumer can leave its track and the index. *)
Lemma wf_leave X h r c k :
  wf_but X h r -> (forall sub, subs h !! c = Some sub -> ~ sub_open h sub) ->
  wf_but X h (with_tracks r (alter (fun e => mkEntry (entry_cell e) (consumers e ∖ {[ c ]})) k (reg_tracks_ r)) (consumers_ r ∖ {[ c ]})).
Proof.
  intros W Hno. pose proof W as [].
  assert (Hal : forall k' e', alter (fun e => mkEntry (entry_cell e) (consumers e ∖ {[ c ]})) k (reg_tracks_ r) !! k' = Some e' ->
    exists e, reg_tracks_ r !! k' = Some e /\ entry_cell e' = entry_cell e /\ consumers e' ⊆ consumers e /\ consumers e ⊆ {[ c ]} ∪ consumers e').
  { intros k' e' H. rewrite lookup_alter in H. case_decide as D.
    - subst. apply fmap_Some in H as (e & He & ->). exists e. simpl. split_and!; [done|done|set_solver|].
      intros x Hx. destruct (decide (x = c)); set_solver.
    - exists e'. split_and!; [done|done|done|set_solver]. }
  assert (Hal' : forall k' e, reg_tracks_ r !! k' = Some e -> exists e', alter (fun e => mkEntry (entry_cell e) (consumers e ∖ {[ c ]})) k (reg_tracks_ r) !! k' = Some e' /\
     entry_cell e' = entry_cell e /\ consumers e ⊆ {[ c ]} ∪ consumers e').
  { intros k' e H. rewrite lookup_alter. case_decide as D.
    - subst. rewrite H. eexists. split; [done|]. simpl. split; [done|]. intros x Hx. destruct (decide (x = c)); set_solver.
    - rewrite H. eexists. split; [done|]. split; [done|set_solver]. }
  split; simpl; try assumption.
  - intros k' e' H. destruct (Hal _ _ H) as (e & He & -> & Hsub & _). destruct (wf_entry0 _ _ He) as (? & ? & Hsz). split_and!; try done.
    etransitivity; [by apply inj_le, subseteq_size|exact Hsz].
  - intros i s t H1 H2 H3. destruct (wf_complete0 _ _ _ H1 H2 H3) as [|[e He]]; [by left|right].
    destruct (Hal' _ _ He) as (e' & -> & _). eauto.
  - intros k1 k2 e1 e2 H1 H2 E. destruct (Hal _ _ H1) as (? & ? & E1 & _), (Hal _ _ H2) as (? & ? & E2 & _).
    eapply wf_cell_inj0; eauto. congruence.
  - intros k' e' x H Hx. destruct (Hal _ _ H) as (e & He & -> & Hsub & _). eauto.
  - intros x Hx. apply elem_of_difference in Hx as [Hx Hne]. destruct (wf_index0 _ Hx) as (k' & e & He & Hin).
    destruct (Hal' _ _ He) as (e' & ? & _ & Hs). exists k', e'. split; [done|]. specialize (Hs _ Hin). apply elem_of_union in Hs as [?|?]; done.
  - intros x sub Hsub. destruct (wf_sub0 _ _ Hsub) as (? & ? & ? & ? & H). split_and!; try done. intros E.
    destruct (H E) as (e & He & Hce & Ho). destruct (Hal' _ _ He) as (e' & He' & Ec & Hs). exists e'. split_and!; [done|congruence|].
    intros Hop. destruct (Ho Hop) as [Hin Hin']. assert (x <> c) as Hxc by (intros ->; by eapply Hno).
    specialize (Hs _ Hin). split; [apply elem_of_union in Hs as [?%elem_of_singleton|?]; done|].
    apply elem_of_difference. split; [done|]. by rewrite elem_of_singleton.
Qed.

Lemma notify_closed h c sub : subs (fst (fst (NotifyClosed h c))) !! c = Some sub -> closed_ sub = true.
Proof.
  unfold NotifyClosed. destruct (subs h !! c) as [s|] eqn:E; simpl; [|congruence].
  destruct (closed_ s) eqn:Ec; simpl; [rewrite E; congruence|]. rewrite lookup_insert_eq. by intros [= <-].
Qed.

Lemma wf_Detach w c : wf_world w -> wf_world (fst (fst (DetachConsumer w c))).
Proof.
  intros W. unfold DetachConsumer. destruct (negb _); [done|]. destruct (lock (heap w) c) as [sub|] eqn:El.
  - pose proof (wf_notify _ _ _ c W) as Wn. pose proof (notify_closed (heap w) c) as Hc.
    destruct (NotifyClosed (heap w) c) as [[h' es] ok]. simpl in *. apply wf_leave; [done|].
    intros s Hs [_ Ho]. specialize (Hc s Hs). unfold sub_Closed in Ho. by rewrite Hc in Ho.
  - unfold wf_world. simpl. pose proof W as []. split; simpl; try assumption.
    + intros x Hx. apply elem_of_difference in Hx as [Hx _]. eauto.
    + intros x sub Hsub. destruct (wf_sub0 _ _ Hsub) as (? & ? & ? & ? & H). split_and!; try done. intros E.
      destruct (H E) as (e & ? & ? & Ho). exists e. split_and!; try done. intros Hop. destruct (Ho Hop). split; [done|].
      apply elem_of_difference. split; [done|]. intros ->%elem_of_singleton. unfold lock in El. rewrite Hsub in El.
      destruct Hop as [Hh _]. by rewrite Hh in El.
Qed.

Lemma entry_stream X h r ref e :
  wf_but X h r -> ref_ok ref -> reg_tracks_ r !! TrackKey ref = Some e ->
  exists s t, stream_id ref ∈ streams_ r /\ streams h !! stream_id ref = Some s /\ registry_ s = true /\ t ∈ tracks_ s /\
    desc_ref t = ref /\ desc_id t = track_id ref.
Proof.
  intros W Href He. destruct (wf_entry _ _ _ W _ _ He) as ((i & s & t & Hs & Hr & Ht & Ek) & _).
  destruct (wf_ref _ _ _ _ _ _ W Hs Ht) as [E R]. pose proof (TrackKey_inj _ _ Href R Ek) as ->.
  exists s, t. rewrite E. simpl. split_and!; try done. apply (wf_registered _ _ _ W). eauto.
Qed.

Lemma nodup_filter_ids (f : MediaTrackDescription -> bool) ts :
  NoDup (List.map desc_id ts) -> NoDup (List.map desc_id (List.filter f ts)).
Proof.
  induction ts as [|t ts IH]; simpl; [done|]. intros [Hn H]%NoDup_cons. destruct (f t); [|auto]. simpl. apply NoDup_cons.
  split; [|auto]. intros Hin. apply Hn. apply list_elem_of_fmap in Hin as (u & -> & Hu).
  apply list_elem_of_In, List.filter_In in Hu as [Hu _]. apply list_elem_of_fmap. exists u. split; [done|]. by apply list_elem_of_In.
Qed.

Lemma wf_RemoveTrack w ref :
  wf_world w -> ref_ok ref -> exists w' ok es, RemoveTrack w ref = Ret (w', ok, es) /\ wf_world w'.
Proof.
  intros W Href. unfold RemoveTrack. destruct (reg_tracks_ (registry w) !! TrackKey ref) as [e|] eqn:He; [|by eauto].
  destruct (entry_stream _ _ _ _ _ W Href He) as (s & t & Hin & Hs & Hr & Ht & Et & Eid).
  rewrite bool_decide_true, Hs by done.
  set (s' := mkStream _ _ _ _ _ _ _ _). set (r' := bump _). set (h' := with_streams _ _).
  pose proof (wf_close_track _ _ _ _ _ W He) as Wc.
  assert (Wd : wf h' r').
  { apply wf_bump. refine (wf_drop_tracks _ _ _ _ s s' Wc Hs Hr eq_refl eq_refl eq_refl Hr _ _ _ _ _); simpl.
    - case_bool_decide; [done|]. by apply (wf_live _ _ _ W _ _ Hs).
    - apply nodup_filter_ids. by apply (wf_stream _ _ _ W _ _ Hs).
    - intros u Hu. apply list_elem_of_In, List.filter_In in Hu as [Hu _]. by apply list_elem_of_In.
    - intros u Hu. destruct (Z.eq_dec (desc_id u) (track_id ref)) as [E|E].
      + right. destruct (wf_ref _ _ _ _ _ _ W Hs Hu) as [Eu _]. unfold key_of. rewrite Eu, E.
        replace (mkRef (stream_id ref) (track_id ref)) with ref by (by destruct ref). apply lookup_delete_eq.
      + left. apply list_elem_of_In, List.filter_In. split; [by apply list_elem_of_In|]. by apply negb_true_iff, Z.eqb_neq.
    - intros k Hk. apply elem_of_union in Hk as [->%elem_of_singleton|Hk]; [|by apply elem_of_empty in Hk].
      exists t. split_and!; [done|unfold key_of; by rewrite Et|]. intros Hu.
      apply list_elem_of_In, List.filter_In in Hu as [_ Hu]. by rewrite Eid, Z.eqb_refl in Hu. }
  pose proof (wf_notify_all _ _ _ (retire (heap w) e) Wd) as Wn.
  destruct (notify_all h' (retire (heap w) e)) as [h2 es]. eexists _, _, _. split; [done|exact Wn].
Qed.

Lemma close_tracks_dir ts h r ret S N :
  CloseTracksLocked ts h (set_dir r S N) ret =
  let '(h', r', ret') := CloseTracksLocked ts h r ret in (h', set_dir r' S N, ret').
Proof.
  revert h r ret. induction ts as [|t ts IH]; intros h r ret; simpl; [done|].
  destruct (reg_tracks_ r !! TrackKey (desc_ref t)) as [e|]; [|by rewrite IH].
  exact (IH _ (with_tracks r _ _) _).
Qed.

Lemma wf_remove_stream h r i s :
  wf h r -> streams h !! i = Some s -> registry_ s = true ->
  exists names', name_erase (names_ r) (scope (source_ s)) (name_ s) = Some names' /\
    forall ret h1 r1 ret1, CloseTracksLocked (tracks_ s) h r ret = (h1, r1, ret1) ->
      wf (with_streams h1 (<[i := stream_Close s]> (streams h1))) (bump (set_dir r1 (streams_ r ∖ {[ i ]}) names')) /\
      streams h1 = streams h.
Proof.
  intros W Hs Hr. destruct (wf_live _ _ _ W _ _ Hs Hr) as [_ Hn]. destruct (name_erase_some _ _ _ _ Hn) as [names' En].
  exists names'. split; [done|]. intros ret h1 r1 ret1 Hc.
  destruct (wf_close_tracks _ _ _ _ _ _ _ _ W Hc) as (Wc & Hk & E1 & E2 & E3 & _). split; [|done].
  apply wf_bump. rewrite <- E1. rewrite <- E2 in En. rewrite <- E3 in Hs.
  eapply wf_unregister; [exact Wc|exact Hs|exact Hr| | |exact En].
  - intros t Ht. rewrite Hk, bool_decide_true; [done|]. by apply (list_elem_of_fmap_2 key_of).
  - intros k Hin. apply elem_of_union in Hin as [Hin|Hin]; [|by apply elem_of_empty in Hin].
    apply elem_of_list_to_set, list_elem_of_fmap in Hin as (t & -> & Ht). eauto.
Qed.

Lemma wf_Remove w i : wf_world w -> exists w' ok es, Remove w i = Ret (w', ok, es) /\ wf_world w'.
Proof.
  intros W. unfold Remove. case_bool_decide as Hin; [|by eauto].
  apply (wf_registered _ _ _ W) in Hin as (s & Hs & Hr). rewrite Hs.
  destruct (wf_remove_stream _ _ _ _ W Hs Hr) as (names' & -> & Hrem).
  fold (set_dir (registry w) (streams_ (registry w) ∖ {[ i ]}) names'). rewrite close_tracks_dir.
  destruct (CloseTracksLocked (tracks_ s) (heap w) (registry w) []) as [[h1 r1] ret1] eqn:Ec.
  destruct (Hrem _ _ _ _ Ec) as [Wr _].
  pose proof (wf_notify_all _ _ _ ret1 Wr) as Wn.
  destruct (notify_all _ ret1) as [h2 es]. eexists _, _, _. split; [done|exact Wn].
Qed.

Lemma wf_SetFramePublisher w p : wf_world w -> wf_world (SetFramePublisher w p).
Proof.
  intros W. unfold SetFramePublisher, wf_world. simpl.
  set (m := map_imap _ _).
  assert (wf (with_streams (heap w) m) (registry w)) as Wm.
  { apply wf_streams; [done| |].
    - intros i s' Hs'. unfold m in Hs'. rewrite map_lookup_imap in Hs'. apply bind_Some in Hs' as (s & Hs & E). injection E as <-.
      exists s. split; [done|]. case_bool_decide; [|by eapply stream_step_refl].
      unfold stream_SetFramePublisher. case_bool_decide; [by eapply stream_step_refl|].
      destruct (stream_step_refl _ _ _ _ _ W Hs) as (? & ? & ? & ? & Hl & ? & ?). unfold stream_step. simpl. split_and!; auto.
    - intros i s Hs. unfold m. rewrite map_lookup_imap, Hs. simpl. eauto. }
  pose proof Wm as []. split; assumption.
Qed.

Lemma wf_clear_streams ids h r ret ev h' r' ret' ev' S N :
  wf h (set_dir r S N) -> NoDup ids -> (forall i, i ∈ ids -> i ∈ S) ->
  clear_streams ids h r ret ev = (h', r', ret', ev') ->
  exists N', wf h' (set_dir r' (S ∖ list_to_set ids) N').
Proof.
  revert h r ret ev S N. induction ids as [|i ids IH]; intros h r ret ev S N W Hnd Hin H; simpl in H.
  { simplify_eq. exists N. simpl. by rewrite difference_empty_L. }
  apply NoDup_cons in Hnd as [Hi Hnd].
  assert (i ∈ S) as HiS by (apply Hin; left).
  apply (wf_registered _ _ _ W) in HiS as (s & Hs & Hr). rewrite Hs in H.
  destruct (CloseTracksLocked (tracks_ s) h r ret) as [[h1 r1] ret1] eqn:Ec.
  destruct (wf_remove_stream _ _ _ _ W Hs Hr) as (names' & _ & Hrem).
  pose proof (close_tracks_dir (tracks_ s) h r ret S N) as Ed. rewrite Ec in Ed. simpl in Ed.
  destruct (Hrem _ _ _ _ Ed) as [Wr _]. change (wf (with_streams h1 (<[i := stream_Close s]> (streams h1)))
    (set_dir (bump r1) (S ∖ {[ i ]}) names')) in Wr.
  edestruct (fun Hj => IH _ _ _ _ (S ∖ {[ i ]}) names' Wr Hnd Hj H) as [N' W'].
  - intros j Hj. apply elem_of_difference. split; [apply Hin; by right|]. intros ->%elem_of_singleton. done.
  - exists N'. simpl. by rewrite <- difference_difference_l_L.
Qed.

Lemma wf_Clear w : wf_world w -> wf_world (fst (Clear w)).
Proof.
  intros W. unfold Clear.
  destruct (clear_streams (elements (streams_ (registry w))) (heap w) (registry w) [] []) as [[[h' r'] ret'] ev'] eqn:E.
  assert (wf (heap w) (set_dir (registry w) (streams_ (registry w)) (names_ (registry w)))) as W0.
  { pose proof W as []. split; assumption. }
  destruct (wf_clear_streams _ _ _ _ _ _ _ _ _ _ _ W0 (NoDup_elements _) ltac:(intros i; apply elem_of_elements) E) as [N W1].
  rewrite list_to_set_elements_L, difference_diag_L in W1.
  assert (N = ∅) as ->.
  { apply map_empty. intros sc. destruct (N !! sc) as [m|] eqn:Em; [|done]. exfalso.
    pose proof (wf_scopes _ _ _ W1 sc m Em) as Hm. apply map_choose in Hm as (n & i & Hi).
    assert (name_lookup N sc n = Some i) as Hl by (unfold name_lookup; by rewrite Em).
    destruct (wf_names _ _ _ W1 _ _ _ Hl) as (s & Hs & Hr & _).
    assert (i ∈ (∅ : gset Z)) as Hemp by (apply (wf_registered _ _ _ W1); eauto). by apply elem_of_empty in Hemp. }
  pose proof (wf_notify_all _ _ _ ret' W1) as Wn. destruct (notify_all h' ret') as [h2 es]. exact Wn.
Qed.

Lemma sub_open_release h (sub : MediaTrackSubscription) t n c cb cl p : ~ sub_open h (mkSub t n c cb cl p false).
Proof. by intros [? _]. Qed.

Lemma step_wf w op : wf_world w -> op_ok op -> exists w' es, step w op = Ret (w', es) /\ wf_world w'.
Proof.
  intros W Hok. destruct op; simpl in *.
  - eauto using wf_NewStream.
  - eexists _, _. split; [done|]. apply wf_on_stream; [done|]. intros s. by apply wf_ReplaceTracks.
  - eexists _, _. split; [done|]. apply wf_on_stream; [done|]. intros s Hs. unfold BindTrackEndpoint.
    destruct (_ || _); [by eapply stream_step_refl|]. destruct (GetTrack s track); [|by eapply stream_step_refl].
    by eapply stream_step_endpoints.
  - eexists _, _. split; [done|]. apply wf_on_stream; [done|]. intros s Hs. eapply stream_step_endpoints; [done..|].
    intros ?. by destruct (_ && _).
  - eexists _, _. split; [done|]. apply wf_on_stream; [done|]. intros s Hs. unfold StartPublishing.
    destruct (_ || _); [by eapply stream_step_refl|]. by eapply stream_step_endpoints.
  - eexists _, _. split; [done|]. apply wf_on_stream; [done|]. intros s Hs. simpl. unfold stream_SetFramePublisher.
    pose proof (stream_step_refl _ _ _ _ _ W Hs) as Hr. by case_bool_decide.
  - pose proof (wf_Register w i W) as H. destruct (Register w i) as [[w' ok] es]. eauto.
  - eauto using wf_Attach.
  - pose proof (wf_SetTrackPaused w ref paused W) as H. destruct (SetTrackPaused w ref paused) as [[w' ok] es]. eauto.
  - eauto using wf_SetConsumerPaused.
  - pose proof (wf_Detach w c W) as H. destruct (DetachConsumer w c) as [[w' ok] es]. eauto.
  - destruct (wf_RemoveTrack w ref W Hok) as (w' & ok & es & -> & ?). simpl. eauto.
  - destruct (wf_Remove w i W) as (w' & ok & es & -> & ?). simpl. eauto.
  - eauto using wf_SetFramePublisher.
  - pose proof (wf_Clear w W) as H. destruct (Clear w) as [w' es]. eauto.
  - eexists _, _. split; [done|]. apply wf_alter_sub; [done|done|]. by intros sub ?%sub_open_closed.
  - eexists _, _. split; [done|]. apply wf_alter_sub; [done|done|]. by intros sub ?%sub_open_release.
Qed.
