(* ===== verification/MediaRegistryProps.v ===== *)
(** * What the registry promises

    Every operation leaves closed what was closed and notifies a consumer at most once
    ([mono]); with the invariant this gives what clients of the registry rely on. *)
From S2P Require Import Prelude MediaRegistry MediaRegistryInv.

(** ** What never comes back *)

(** Consumers keep their identity; what is closed stays closed. *)
Definition sub_le (s s' : MediaTrackSubscription) : Prop :=
  track_ s' = track_ s /\ cell_ s' = cell_ s /\ on_close_ s' = on_close_ s /\ (closed_ s = true -> closed_ s' = true).

Definition close_ids (es : list Event) : list Z :=
  omap (fun e => match e with OnClose c => Some c | _ => None end) es.

Record mono (h h' : Heap) (es : list Event) : Prop := {
  mono_sub : forall c s, subs h !! c = Some s -> exists s', subs h' !! c = Some s' /\ sub_le s s';
  mono_cell : forall x, cells h !! x = Some Closed -> cells h' !! x = Some Closed;
  mono_before : forall c s, c ∈ close_ids es -> subs h !! c = Some s -> closed_ s = false;
  mono_after : forall c, c ∈ close_ids es -> exists s', subs h' !! c = Some s' /\ closed_ s' = true;
  mono_once : NoDup (close_ids es) }.

Lemma sub_le_refl s : sub_le s s.
Proof. by unfold sub_le. Qed.

Lemma mono_quiet h h' es :
  close_ids es = [] ->
  (forall c s, subs h !! c = Some s -> exists s', subs h' !! c = Some s' /\ sub_le s s') ->
  (forall x, cells h !! x = Some Closed -> cells h' !! x = Some Closed) -> mono h h' es.
Proof. intros E H1 H2. split; rewrite ?E; try done; [intros c s Hc|intros c Hc|constructor]; by apply elem_of_nil in Hc. Qed.

(** Nothing but streams changes. *)
Lemma mono_same h h' es : close_ids es = [] -> subs h' = subs h -> cells h' = cells h -> mono h h' es.
Proof. intros E E1 E2. apply mono_quiet; [done| |by rewrite E2]. rewrite E1. eauto using sub_le_refl. Qed.

Lemma close_ids_app es es' : close_ids (es ++ es') = close_ids es ++ close_ids es'.
Proof. apply omap_app. Qed.

Lemma mono_trans h h1 h2 es es' : mono h h1 es -> mono h1 h2 es' -> mono h h2 (es ++ es').
Proof.
  intros [A1 A2 A3 A4 A5] [B1 B2 B3 B4 B5]. split; rewrite ?close_ids_app.
  - intros c s Hs. destruct (A1 _ _ Hs) as (s1 & H1 & E1 & E2 & E3 & L1). destruct (B1 _ _ H1) as (s2 & H2 & F1 & F2 & F3 & L2).
    exists s2. split; [done|]. unfold sub_le. split_and!; [congruence..|auto].
  - auto.
  - intros c s Hc Hs. apply elem_of_app in Hc as [Hc|Hc]; [eauto|].
    destruct (A1 _ _ Hs) as (s1 & H1 & _ & _ & _ & L). pose proof (B3 _ _ Hc H1) as Hf.
    destruct (closed_ s); [|done]. by rewrite L in Hf.
  - intros c Hc. apply elem_of_app in Hc as [Hc|Hc]; [|eauto].
    destruct (A4 _ Hc) as (s1 & H1 & Hcl). destruct (B1 _ _ H1) as (s2 & H2 & _ & _ & _ & L). eauto.
  - apply NoDup_app. split_and!; [done| |done]. intros c Hc Hc'.
    destruct (A4 _ Hc) as (s1 & H1 & Hcl). rewrite (B3 _ _ Hc' H1) in Hcl. done.
Qed.

Lemma mono_then h h1 h2 es : mono h h1 [] -> mono h1 h2 es -> mono h h2 es.
Proof. apply (mono_trans h h1 h2 [] es). Qed.

Lemma mono_report h h' es es' : mono h h' es -> close_ids es' = [] -> mono h h' (es ++ es').
Proof. intros M E. eapply mono_trans; [exact M|]. by apply mono_same. Qed.

Lemma mono_upd_sub h c s s' es :
  close_ids es = [] -> subs h !! c = Some s -> sub_le s s' -> mono h (with_subs h (<[c := s']> (subs h))) es.
Proof.
  intros E Hs Hle. apply mono_quiet; [done| |done]. intros d u Hu. simpl. destruct (decide (d = c)) as [->|Hne].
  - rewrite lookup_insert_eq. simplify_eq. eauto.
  - rewrite lookup_insert_ne by done. eauto using sub_le_refl.
Qed.

Lemma mono_alter_sub h c f es :
  close_ids es = [] -> (forall s, sub_le s (f s)) -> mono h (with_subs h (alter f c (subs h))) es.
Proof.
  intros E Hf. destruct (subs h !! c) as [s|] eqn:Hs.
  - rewrite (alter_present _ _ _ s) by done. eapply mono_upd_sub; eauto.
  - rewrite alter_absent by done. by apply mono_same.
Qed.

Lemma mono_notify h c : mono h (fst (fst (NotifyClosed h c))) (snd (fst (NotifyClosed h c))).
Proof.
  unfold NotifyClosed. destruct (subs h !! c) as [s|] eqn:Hs; [|by apply mono_same].
  destruct (closed_ s) eqn:Ec; [by apply mono_same|]. simpl.
  destruct (on_close_ s); [|by eapply mono_upd_sub; [..|unfold sub_le]].
  pose proof (mono_upd_sub h c s (set_closed s) [] eq_refl Hs ltac:(by unfold sub_le)) as [M1 M2 _ _ _].
  split; try done; simpl.
  - intros d u Hd Hu. apply list_elem_of_singleton in Hd as ->. congruence.
  - intros d Hd. apply list_elem_of_singleton in Hd as ->. rewrite lookup_insert_eq. eauto.
  - apply NoDup_singleton.
Qed.

Lemma mono_notify_all h cs : mono h (fst (notify_all h cs)) (snd (notify_all h cs)).
Proof.
  revert h. induction cs as [|c cs IH]; intros h; [by apply mono_same|]. simpl.
  pose proof (mono_notify h c) as M. destruct (NotifyClosed h c) as [[h1 es] ok]. simpl in M.
  specialize (IH h1). destruct (notify_all h1 cs) as [h2 es']. simpl in *. by eapply mono_trans.
Qed.

Lemma mono_set_cell h x st es :
  close_ids es = [] -> st = Closed \/ cells h !! x <> Some Closed -> mono h (with_cells h (<[x := st]> (cells h))) es.
Proof.
  intros E H. apply mono_quiet; [done|simpl; eauto using sub_le_refl|]. intros y Hy. simpl. rewrite lookup_insert.
  case_decide; [subst|done]. destruct H as [->|H]; [done|congruence].
Qed.

Lemma mono_close_tracks ts h r ret : mono h (fst (fst (CloseTracksLocked ts h r ret))) [].
Proof.
  revert h r ret. induction ts as [|t ts IH]; intros h r ret; simpl; [by apply mono_same|].
  destruct (reg_tracks_ r !! TrackKey (desc_ref t)) as [e|]; [|apply IH].
  apply (mono_trans _ (with_cells h (<[entry_cell e := Closed]> (cells h))) _ [] []); [|apply IH].
  apply mono_set_cell; auto.
Qed.

Lemma mono_add_tracks X ts h r : wf_but X h r -> forall es, mono h (fst (add_tracks ts h es)) [].
Proof.
  intros W. assert (Hf : forall c, next_cell h <= c -> cells h !! c = None) by apply W. clear W.
  revert h Hf. induction ts as [|t ts IH]; intros h Hf es; simpl; [by apply mono_same|].
  destruct (es !! TrackKey (desc_ref t)); [by apply IH|].
  apply (mono_trans _ (add_cell h) _ [] []).
  - apply mono_quiet; [done|simpl; eauto using sub_le_refl|]. intros x Hx. simpl. rewrite lookup_insert_ne; [done|].
    intros <-. rewrite Hf in Hx by lia. done.
  - apply IH. intros c Hc. simpl in *. rewrite lookup_insert_ne by lia. apply Hf. lia.
Qed.

Lemma mono_on_stream w i f : mono (heap w) (heap (fst (on_stream w i f))) [].
Proof.
  unfold on_stream. destruct (streams (heap w) !! i) as [s|]; [|by apply mono_same].
  destruct (f s) as [s' ok]. by apply mono_same.
Qed.

Lemma mono_clear_streams ids h r ret ev h' r' ret' ev' :
  clear_streams ids h r ret ev = (h', r', ret', ev') -> mono h h' [] /\ (close_ids ev = [] -> close_ids ev' = []).
Proof.
  revert h r ret ev. induction ids as [|i ids IH]; intros h r ret ev H; simpl in H.
  { simplify_eq. split; [by apply mono_same|done]. }
  destruct (streams h !! i) as [s|]; [|eauto].
  pose proof (mono_close_tracks (tracks_ s) h r ret) as M.
  destruct (CloseTracksLocked (tracks_ s) h r ret) as [[h1 r1] ret1]. simpl in M.
  destruct (IH _ _ _ _ H) as [M' E]. split.
  - apply (mono_then _ _ _ _ M). refine (mono_then _ _ _ _ _ M'). by apply mono_same.
  - intros Ev. apply E. by rewrite close_ids_app, Ev.
Qed.

Lemma mono_attach w ref name cb : wf_world w -> mono (heap w) (heap (fst (AttachConsumer w ref name cb))) [].
Proof.
  intros W. unfold AttachConsumer. destruct (_ || _); [by apply mono_same|].
  destruct (reg_tracks_ (registry w) !! TrackKey ref) as [e|]; [|by apply mono_same].
  destruct (if bool_decide _ then _ else _) as [s|]; [|by apply mono_same].
  destruct ((next_consumer_id_ (registry w) =? 0) || _ || _) eqn:E; [by apply mono_same|].
  apply orb_false_iff in E as [E _]. apply orb_false_iff in E as [E _]. apply Z.eqb_neq in E.
  unfold PruneConsumersLocked. simpl. case_match; [by apply mono_same|]. simpl.
  apply mono_quiet; [done| |done]. intros c s' Hs'. simpl. rewrite lookup_insert_ne; [eauto using sub_le_refl|].
  intros <-. destruct (wf_sub _ _ _ W _ _ Hs') as (_ & Hlt & _). specialize (Hlt E). lia.
Qed.

Lemma step_mono w op w' es : wf_world w -> op_ok op -> step w op = Ret (w', es) -> mono (heap w) (heap w') es.
Proof.
  intros W Hok H. destruct op; simpl in H; simplify_eq; try apply mono_on_stream.
  - unfold NewStream. case_match; by apply mono_same.
  - unfold Register in H. destruct (streams (heap w) !! i) as [s|]; [|simplify_eq; by apply mono_same].
    do 3 (match type of H with context [if ?b then _ else _] => destruct b; [simplify_eq; by apply mono_same|] end).
    pose proof (mono_add_tracks _ (tracks_ s) _ _ W (reg_tracks_ (registry w))) as M.
    destruct (add_tracks _ _ _) as [h1 entries]. simpl in *. injection H as <- <-. simpl.
    refine (mono_then _ _ _ _ M _). by apply mono_same.
  - by apply mono_attach.
  - unfold SetTrackPaused in H. destruct (reg_tracks_ (registry w) !! TrackKey ref) as [e|] eqn:He; [|simplify_eq; by apply mono_same].
    case_bool_decide; simplify_eq; [by apply mono_same|]. apply mono_set_cell; [done|right].
    destruct (wf_entry _ _ _ W _ _ He) as (_ & (st & Hst & Hn) & _). rewrite Hst. congruence.
  - unfold SetConsumerPaused. destruct (negb _); [by apply mono_same|]. destruct (lock (heap w) c) as [sub|] eqn:El; [|by apply mono_same].
    destruct (sub_Closed (heap w) sub); [by apply mono_same|]. apply lock_some in El as [El _]. by eapply mono_upd_sub.
  - unfold DetachConsumer in H. destruct (negb _); [simplify_eq; by apply mono_same|].
    destruct (lock (heap w) c) as [sub|]; [|simplify_eq; by apply mono_same].
    pose proof (mono_notify (heap w) c) as M. destruct (NotifyClosed (heap w) c) as [[h1 es1] ok]. simplify_eq. exact M.
  - unfold RemoveTrack in H. destruct (reg_tracks_ (registry w) !! TrackKey ref) as [e|]; [|simpl in H; simplify_eq; by apply mono_same].
    destruct (if bool_decide _ then _ else _) as [s|]; [|done].
    match type of H with context [notify_all ?h ?l] => pose proof (mono_notify_all h l) as M; destruct (notify_all h l) as [h1 es1] eqn:E end.
    simpl in H, M. simplify_eq. simpl.
    apply mono_report; [|done]. refine (mono_then _ _ _ _ _ M).
    refine (mono_then _ _ _ _ (mono_set_cell (heap w) (entry_cell e) Closed [] eq_refl (or_introl eq_refl)) _). by apply mono_same.
  - unfold Remove in H. destruct (if bool_decide _ then _ else _) as [s|]; [|simpl in H; simplify_eq; by apply mono_same].
    destruct (name_erase _ _ _) as [names'|]; [|done].
    match type of H with context [CloseTracksLocked ?t ?h ?r ?l] => pose proof (mono_close_tracks t h r l) as Mc; destruct (CloseTracksLocked t h r l) as [[h1 r1] ret1] end.
    match type of H with context [notify_all ?h ?l] => pose proof (mono_notify_all h l) as M; destruct (notify_all h l) as [h2 es1] end.
    simpl in H, M, Mc. simplify_eq. simpl.
    apply mono_report; [|done]. refine (mono_then _ _ _ _ _ M). refine (mono_then _ _ _ _ Mc _). by apply mono_same.
  - by apply mono_same.
  - unfold Clear in H. destruct (clear_streams _ _ _ _ _) as [[[h1 r1] ret1] ev] eqn:Ec.
    destruct (mono_clear_streams _ _ _ _ _ _ _ _ _ Ec) as [Mc Eev]. specialize (Eev eq_refl).
    pose proof (mono_notify_all h1 ret1) as M. destruct (notify_all h1 ret1) as [h2 es1]. simpl in *. simplify_eq. simpl.
    apply mono_report; [|done]. exact (mono_then _ _ _ _ Mc M).
  - apply mono_alter_sub; [done|]. by intros s; unfold sub_le.
  - apply mono_alter_sub; [done|]. by intros s; unfold sub_le.
Qed.

Fixpoint run (w : World) (ops : list Op) : mres (World * list Event) :=
  match ops with
  | [] => Ret (w, [])
  | op :: ops =>
    let! r := step w op in
    let! r' := run (fst r) ops in
    Ret (fst r', snd r ++ snd r')
  end.

Lemma run_mono w ops :
  wf_world w -> Forall op_ok ops -> exists w' es, run w ops = Ret (w', es) /\ wf_world w' /\ mono (heap w) (heap w') es.
Proof.
  intros W Hok. revert w W. induction Hok as [|op ops Hop Hok IH]; intros w W; simpl.
  { eexists _, _. split; [done|]. split; [done|]. by apply mono_same. }
  destruct (step_wf w op W Hop) as (w1 & es1 & E & W1). pose proof (step_mono _ _ _ _ W Hop E) as M1. rewrite E. simpl.
  destruct (IH w1 W1) as (w2 & es2 & -> & W2 & M2). simpl. eexists _, _. split; [done|]. split; [done|]. by eapply mono_trans.
Qed.

(** ** What clients rely on *)

Definition new_world : World := mkWorld new_heap new_registry.

Lemma run_new ops :
  Forall op_ok ops -> exists w es, run new_world ops = Ret (w, es) /\ wf_world w /\ NoDup (close_ids es).
Proof.
  intros Hok. destruct (run_mono new_world ops wf_new Hok) as (w & es & E & W & M). eexists _, _. split_and!; [done|done|apply M].
Qed.

Lemma FindById_iff w i : FindById w i = Some i <-> i ∈ streams_ (registry w).
Proof. unfold FindById. by case_bool_decide. Qed.

Lemma deliver_entry w c sub :
  wf_world w -> subs (heap w) !! c = Some sub -> CanDeliver (heap w) sub = true ->
  exists s t e, FindById w (stream_id (track_ sub)) = Some (stream_id (track_ sub)) /\
    streams (heap w) !! stream_id (track_ sub) = Some s /\ state_ s <> StreamClosed /\ t ∈ tracks_ s /\ desc_ref t = track_ sub /\
    reg_tracks_ (registry w) !! TrackKey (track_ sub) = Some e /\ cells (heap w) !! entry_cell e = Some Open.
Proof.
  intros W Hsub Hd. unfold CanDeliver, cell_state in Hd. apply andb_prop in Hd as [_ Hd]. apply bool_decide_eq_true in Hd.
  destruct (wf_sub _ _ _ W _ _ Hsub) as (_ & _ & Href & [st Hst] & H). rewrite Hst in *. simpl in Hd. subst st.
  destruct H as (e & He & Ec & _); [congruence|].
  destruct (entry_stream _ _ _ _ _ W Href He) as (s & t & Hin & Hs & Hr & Ht & Et & _).
  exists s, t, e. rewrite Ec. split_and!; try done; [by apply FindById_iff|]. by apply (wf_live _ _ _ W _ _ Hs).
Qed.

(** C11. The directory.  Whatever calls are made on streams, the registry and its consumers, every call returns;
    afterwards a name finds exactly the registered stream that bears it, a consumer passes
    frames only while its track is open and registered and its stream is registered and not closed
    (it need not be publishing any more), a track has at most 4096 consumers, and no consumer's close callback has run twice. *)
Theorem registry_runs ops :
  Forall op_ok ops -> exists w es, run new_world ops = Ret (w, es) /\ NoDup (close_ids es) /\
    (forall n sc i, FindByName w n sc = Some i <->
      FindById w i = Some i /\ exists s, streams (heap w) !! i = Some s /\ name_ s = n /\ scope (source_ s) = sc) /\
    (forall k e, reg_tracks_ (registry w) !! k = Some e -> Z.of_nat (size (consumers e)) <= 4096) /\
    (forall c sub, subs (heap w) !! c = Some sub -> CanDeliver (heap w) sub = true ->
      exists s t e, FindById w (stream_id (track_ sub)) = Some (stream_id (track_ sub)) /\
        streams (heap w) !! stream_id (track_ sub) = Some s /\ state_ s <> StreamClosed /\ t ∈ tracks_ s /\ desc_ref t = track_ sub /\
        reg_tracks_ (registry w) !! TrackKey (track_ sub) = Some e /\ cells (heap w) !! entry_cell e = Some Open).
Proof.
  intros Hok. destruct (run_new ops Hok) as (w & es & E & W & Hnd). exists w, es. split_and!; try done.
  - intros n sc i. rewrite FindById_iff. split.
    + intros H. destruct (wf_names _ _ _ W _ _ _ H) as (s & Hs & Hr & ? & ?). split; [|eauto].
      apply (wf_registered _ _ _ W). eauto.
    + intros [Hin (s & Hs & <- & <-)]. apply (wf_registered _ _ _ W) in Hin as (s' & Hs' & Hr). simplify_eq.
      by apply (wf_live _ _ _ W _ _ Hs').
  - intros k e He. by apply (wf_entry _ _ _ W _ _ He).
  - intros c sub. by apply deliver_entry.
Qed.

(** A consumer that has lost its track never delivers again. *)
Lemma dead_forever w c sub ops :
  wf_world w -> Forall op_ok ops -> subs (heap w) !! c = Some sub -> cells (heap w) !! cell_ sub = Some Closed ->
  exists w' es, run w ops = Ret (w', es) /\ exists sub', subs (heap w') !! c = Some sub' /\ CanDeliver (heap w') sub' = false.
Proof.
  intros W Hok Hs Hc. destruct (run_mono w ops W Hok) as (w' & es & E & _ & M). exists w', es. split; [done|].
  destruct (mono_sub _ _ _ M _ _ Hs) as (sub' & Hs' & _ & Ece & _). exists sub'. split; [done|].
  unfold CanDeliver, cell_state. rewrite Ece, (mono_cell _ _ _ M _ Hc). simpl. by rewrite andb_false_r.
Qed.

Lemma close_tracks_retired ts h r ret h' r' ret' :
  CloseTracksLocked ts h r ret = (h', r', ret') -> (forall c, c ∈ ret -> c ∈ ret') /\
  forall t e c, t ∈ ts -> reg_tracks_ r !! key_of t = Some e -> c ∈ retire h e -> c ∈ ret'.
Proof.
  revert h r ret. induction ts as [|t ts IH]; intros h r ret H; simpl in H.
  { simplify_eq. split; [done|]. intros t e c Ht. by apply elem_of_nil in Ht. }
  fold (key_of t) in H. destruct (reg_tracks_ r !! key_of t) as [e0|] eqn:E.
  - destruct (IH _ _ _ H) as [H1 H2]. split; [intros c Hc; apply H1; apply elem_of_app; by left|].
    intros u e c Hu He Hc. destruct (decide (key_of u = key_of t)) as [Ek|Ek].
    + rewrite Ek in He. simplify_eq. apply H1, elem_of_app. by right.
    + apply elem_of_cons in Hu as [->|Hu]; [done|]. apply (H2 u e); [done| |exact Hc]. simpl. by rewrite lookup_delete_ne.
  - destruct (IH _ _ _ H) as [H1 H2]. split; [done|]. intros u e c Hu He Hc.
    apply elem_of_cons in Hu as [->|Hu]; [congruence|eauto].
Qed.

Lemma notify_all_emits h cs c sub :
  c ∈ cs -> subs h !! c = Some sub -> closed_ sub = false -> on_close_ sub = true -> OnClose c ∈ snd (notify_all h cs).
Proof.
  revert h. induction cs as [|d cs IH]; intros h Hin Hs Hcl Hcb; [by apply elem_of_nil in Hin|]. simpl.
  destruct (decide (d = c)) as [->|Hne].
  - unfold NotifyClosed. rewrite Hs, Hcl, Hcb. destruct (notify_all _ cs). simpl. left.
  - apply elem_of_cons in Hin as [->|Hin]; [done|].
    assert (subs (fst (fst (NotifyClosed h d))) !! c = Some sub) as Hs'.
    { unfold NotifyClosed. destruct (subs h !! d) as [u|]; [|done]. destruct (closed_ u); [done|]. simpl. by rewrite lookup_insert_ne. }
    destruct (NotifyClosed h d) as [[h1 es] ok]. simpl in *. specialize (IH h1 Hin Hs' Hcl Hcb).
    destruct (notify_all h1 cs) as [h2 es']. simpl in *. apply elem_of_app. by right.
Qed.

Lemma open_not_closed h sub : is_Some (cells h !! cell_ sub) -> sub_open h sub -> closed_ sub = false /\ cells h !! cell_ sub <> Some Closed.
Proof.
  intros [st Hst] [_ Ho]. unfold sub_Closed, cell_state in Ho. rewrite Hst in *. simpl in Ho.
  apply orb_false_iff in Ho as [-> Ho]. apply bool_decide_eq_false in Ho. split; [done|congruence].
Qed.

Lemma Remove_effect w i :
  wf_world w -> FindById w i = Some i ->
  exists w' es, Remove w i = Ret (w', true, es) /\ wf_world w' /\ FindById w' i = None /\
    (forall c sub, subs (heap w) !! c = Some sub -> stream_id (track_ sub) = i -> sub_open (heap w) sub ->
       on_close_ sub = true -> OnClose c ∈ es).
Proof.
  intros W Hin. apply FindById_iff in Hin. pose proof (wf_Remove w i W) as (w' & ok & es & E & W').
  apply (wf_registered _ _ _ W) in Hin as Hreg. destruct Hreg as (s & Hs & Hr).
  pose proof E as E0. unfold Remove in E. rewrite bool_decide_true, Hs in E by done.
  destruct (name_erase _ _ _) as [names'|]; [|done].
  fold (set_dir (registry w) (streams_ (registry w) ∖ {[ i ]}) names') in E. rewrite close_tracks_dir in E.
  destruct (CloseTracksLocked (tracks_ s) (heap w) (registry w) []) as [[h1 r1] ret1] eqn:Ec.
  destruct (wf_close_tracks _ _ _ _ _ _ _ _ W Ec) as (_ & _ & _ & _ & _ & Esubs & _).
  destruct (close_tracks_retired _ _ _ _ _ _ _ Ec) as [_ Hret].
  match type of E with context [notify_all ?h ?l] => pose proof (notify_all_emits h l) as Hem; destruct (notify_all h l) as [h2 es2] eqn:En end.
  simpl in E, Hem. injection E as <- <- <-. eexists _, _. split_and!; [exact E0|exact W'| |].
  - unfold FindById. simpl. rewrite bool_decide_false; [done|]. set_solver +.
  - intros c sub Hsub Ei Hop Hcb. destruct (wf_sub _ _ _ W _ _ Hsub) as (_ & _ & Href & Hcell & Hent).
    destruct (open_not_closed _ _ Hcell Hop) as [Hcl Hnc]. destruct (Hent Hnc) as (e & He & _ & Ho).
    destruct (Ho Hop) as [Hce _]. destruct (entry_stream _ _ _ _ _ W Href He) as (s1 & t & _ & Hs1 & _ & Ht & Et & _).
    rewrite Ei in Hs1. simplify_eq. apply elem_of_app. left. apply (Hem c sub); try done; [|by rewrite Esubs].
    apply (Hret t e); [done|unfold key_of; by rewrite Et|]. unfold retire. apply list_elem_of_In, List.filter_In.
    split; [by apply list_elem_of_In, elem_of_elements|]. unfold lock. rewrite Hsub. by destruct Hop as [-> _].
Qed.

(** Removal is final.  In every state the registry can reach, removing a registered stream succeeds; the
    stream is no longer found, the close callback of every consumer of its tracks that was still open is called,
    and none of its consumers can pass another frame, whatever calls follow. *)
Theorem registry_removal ops i :
  Forall op_ok ops -> exists w es, run new_world ops = Ret (w, es) /\
    (FindById w i = Some i -> exists w' es', Remove w i = Ret (w', true, es') /\ FindById w' i = None /\
      forall c sub, subs (heap w) !! c = Some sub -> stream_id (track_ sub) = i ->
        (sub_open (heap w) sub -> on_close_ sub = true -> OnClose c ∈ es') /\
        forall later, Forall op_ok later -> exists w2 es2, run w' later = Ret (w2, es2) /\
          exists sub2, subs (heap w2) !! c = Some sub2 /\ CanDeliver (heap w2) sub2 = false).
Proof.
  intros Hok. destruct (run_new ops Hok) as (w & es & E & W & _). exists w, es. split; [done|]. intros Hf.
  destruct (Remove_effect w i W Hf) as (w' & es' & ER & W' & Hnone & Hem). exists w', es'. split_and!; [done|done|].
  intros c sub Hsub Ei. split; [by eapply Hem|]. intros later Hl.
  assert (M : mono (heap w) (heap w') es') by (apply (step_mono w (OpRemove i)); [done|done|simpl; by rewrite ER]).
  destruct (mono_sub _ _ _ M _ _ Hsub) as (sub' & Hsub' & Et & _). apply (dead_forever _ _ sub'); try done.
  destruct (wf_sub _ _ _ W' _ _ Hsub') as (_ & _ & Href & [st Hst] & Hent).
  destruct (decide (st = Closed)) as [->|Hn]; [done|]. exfalso.
  destruct Hent as (e & He & _); [congruence|]. destruct (entry_stream _ _ _ _ _ W' Href He) as (s & t & Hin & _).
  rewrite Et, Ei in Hin. apply FindById_iff in Hin. congruence.
Qed.

(** ** Witnesses *)

(** A camera is announced, registered, bound to its end point and published; two consumers attach, and one is paused. *)
Definition camera_ops : list Op :=
  [OpNewStream [99] (mkSource [] [114] []);
   OpReplaceTracks 1 [mkDesc 0 MediaVideo H264 0 0 (mkRef 0 0)];
   OpRegister 1; OpBind 1 0 77; OpStart 1;
   OpAttach (mkRef 1 0) [114; 101; 99] true; OpAttach (mkRef 1 0) [109; 105; 120] false; OpPauseConsumer 2 true].

Lemma camera_ops_ok : Forall op_ok camera_ops.
Proof. repeat constructor; simpl; unfold ref_ok, is_u; simpl; lia. Qed.

Lemma registry_runs_witness : exists w es, run new_world camera_ops = Ret (w, es) /\ NoDup (close_ids es).
Proof.
  destruct (registry_runs camera_ops) as (w & es & H1 & H2 & _); [exact camera_ops_ok|]. exists w, es. split; [exact H1|exact H2].
Defined.

Lemma registry_removal_witness :
  exists w es, run new_world camera_ops = Ret (w, es) /\ FindById w 1 = Some 1 /\
    exists w' es', Remove w 1 = Ret (w', true, es') /\ FindById w' 1 = None.
Proof.
  destruct (registry_removal camera_ops 1) as (w & es & H1 & H2); [exact camera_ops_ok|]. exists w, es. split; [exact H1|].
  assert (FindById w 1 = Some 1) as Hf.
  { assert (match run new_world camera_ops with Ret (w, _) => FindById w 1 | _ => None end = Some 1) as H by (vm_compute; reflexivity).
    rewrite H1 in H. exact H. }
  split; [exact Hf|]. destruct (H2 Hf) as (w' & es' & H3 & H4 & _). exists w', es'. split; [exact H3|exact H4].
Defined.

(** The first consumer can deliver, the paused one cannot; removal calls the one callback. *)
Example camera_gates :
  match run new_world camera_ops with
  | Ret (w, _) =>
    (CanDeliver (heap w) <$> subs (heap w) !! 1, CanDeliver (heap w) <$> subs (heap w) !! 2,
     match Remove w 1 with Ret (_, _, es) => close_ids es | _ => [] end)
  | _ => (None, None, [])
  end = (Some true, Some false, [1]).
Proof. vm_compute. reflexivity. Qed.
