(* ===== verification/FrameRouter.v ===== *)
(** * Routing encoded frames

    Models [media/frame/EncodedFrameRouter.h], [.cpp] and [EncodedFrameRouterBinding.cpp]:
    recorders, mixers and other consumers subscribe to frames by stream, track or end point, and publishers
    hand every frame to those it concerns.

    Control operations run under a mutex and replace an immutable index ([Routes]) that
    publishers read without a lock; an index refers to slots that control operations may
    deactivate later, so slots live in a store and an index holds their numbers.  Sinks are held
    weakly: [expired] are those whose owner let go; a sink passed to a call is alive, one
    that is not stands for the null pointer.  The consumers of [MediaRegistry.v] are in the
    world beside the router.  The order of a hash map is unspecified and appears here as the order of
    [elements].  The statistics counters are unbounded; allocation failure is left out. *)
From S2P Require Import Prelude MediaRegistry.

Record EncodedFrameSource := mkFrameSource {
  endpoint_id : Z;
  session_id : list Z;
  source_stream_id : list Z;
  source_track_id : Z;
  ssrc : Z;
  media_stream_id : Z }.

(** [frame_valid]: there is a frame and it is valid. *)
Record EncodedFrameEvent := mkFrame { source : EncodedFrameSource; frame_valid : bool }.

Definition event_Valid (e : EncodedFrameEvent) : bool := negb (endpoint_id (source e) =? 0) && frame_valid e.

Record EncodedFrameFilter := mkFilter {
  f_media_stream_id : Z;
  f_endpoint_id : Z;
  f_track_id : option Z;
  f_session_id : list Z;
  f_stream_id : list Z;
  f_ssrc : Z }.

Definition empty_filter : EncodedFrameFilter := mkFilter 0 0 None [] [] 0.

(** [None] when it throws. *)
Definition ForStream (stream : Z) : option EncodedFrameFilter :=
  if stream =? 0 then None else Some (mkFilter stream 0 None [] [] 0).

Definition ForTrack (track : MediaTrackRef) : option EncodedFrameFilter :=
  match ForStream (stream_id track) with
  | None => None
  | Some f => Some (mkFilter (f_media_stream_id f) (f_endpoint_id f) (Some (track_id track)) (f_session_id f) (f_stream_id f) (f_ssrc f))
  end.

Definition filter_Valid (f : EncodedFrameFilter) : bool :=
  match f_track_id f with
  | None => true
  | Some _ => negb (f_media_stream_id f =? 0) || negb (f_endpoint_id f =? 0)
  end.

Definition Matches (f : EncodedFrameFilter) (s : EncodedFrameSource) : bool :=
  ((f_media_stream_id f =? 0) || (f_media_stream_id f =? media_stream_id s)) &&
  ((f_endpoint_id f =? 0) || (f_endpoint_id f =? endpoint_id s)) &&
  match f_track_id f with None => true | Some t => t =? source_track_id s end &&
  (bool_decide (f_session_id f = []) || bool_decide (f_session_id f = session_id s)) &&
  (bool_decide (f_stream_id f = []) || bool_decide (f_stream_id f = source_stream_id s)) &&
  ((f_ssrc f =? 0) || (f_ssrc f =? ssrc s)).

Record Slot := mkSlot { active : bool; sink : Z; slot_filter : EncodedFrameFilter; consumer : option Z }.

Record Routes := mkRoutes {
  all : list Z;
  by_stream : gmap Z (list Z);
  by_track : gmap Z (list Z);
  by_endpoint : gmap Z (list Z) }.

Definition no_routes : Routes := mkRoutes [] ∅ ∅ ∅.

Inductive SubscribeStatus := Accepted | Invalid | Full | RouterClosed | SourceRejected | Exhausted.

Record Counters := mkCounters { frames_ : Z; invalid_frames_ : Z; accepted_ : Z; rejected_ : Z; failed_ : Z; examined_ : Z }.

Record Router := mkRouter {
  max_subscriptions_ : Z;
  router_closed_ : bool;
  slots_ : gset Z;
  store : gmap Z Slot;
  routes_ : option Routes;
  next_id_ : Z;
  expired : gset Z;
  counters : Counters }.

(** [None] when the constructor throws. *)
Definition new_Router (max_subscriptions : Z) : option Router :=
  if max_subscriptions =? 0 then None
  else Some (mkRouter max_subscriptions false ∅ ∅ (Some no_routes) 1 ∅ (mkCounters 0 0 0 0 0 0)).

Definition with_counters (rt : Router) (c : Counters) : Router :=
  mkRouter (max_subscriptions_ rt) (router_closed_ rt) (slots_ rt) (store rt) (routes_ rt) (next_id_ rt) (expired rt) c.

(** [slot->consumer && slot->consumer->Closed()]. *)
Definition consumer_gone (h : Heap) (c : option Z) : bool :=
  match c with
  | None => false
  | Some c => match subs h !! c with Some sub => sub_Closed h sub | None => true end
  end.

(** [!slot->consumer || slot->consumer->CanDeliver()]. *)
Definition consumer_ready (h : Heap) (c : option Z) : bool :=
  match c with
  | None => true
  | Some c => match subs h !! c with Some sub => CanDeliver h sub | None => false end
  end.

(** A slot that the index and the limit do not count any more. *)
Definition stale (h : Heap) (rt : Router) (s : Slot) : bool :=
  negb (active s) || bool_decide (sink s ∈ expired rt) || consumer_gone h (consumer s).

Definition slot_live (h : Heap) (rt : Router) (id : Z) : Prop :=
  match store rt !! id with Some s => stale h rt s = false | None => False end.

#[export] Instance slot_live_dec h rt id : Decision (slot_live h rt id).
Proof. unfold slot_live. destruct (store rt !! id); apply _. Defined.

Definition push (key id : Z) (m : gmap Z (list Z)) : gmap Z (list Z) := <[key := default [] (m !! key) ++ [id]]> m.

Definition add_route (h : Heap) (rt : Router) (routes : Routes) (id : Z) : Routes :=
  match store rt !! id with
  | None => routes
  | Some s =>
    if stale h rt s then routes else
    let f := slot_filter s in
    match f_track_id f with
    | Some t =>
      if negb (f_media_stream_id f =? 0) then
        mkRoutes (all routes) (by_stream routes) (push (TrackKey (mkRef (f_media_stream_id f) t)) id (by_track routes)) (by_endpoint routes)
      else if negb (f_endpoint_id f =? 0) then
        mkRoutes (all routes) (by_stream routes) (by_track routes) (push (f_endpoint_id f) id (by_endpoint routes))
      else mkRoutes (all routes ++ [id]) (by_stream routes) (by_track routes) (by_endpoint routes)
    | None =>
      if negb (f_media_stream_id f =? 0) then
        mkRoutes (all routes) (push (f_media_stream_id f) id (by_stream routes)) (by_track routes) (by_endpoint routes)
      else if negb (f_endpoint_id f =? 0) then
        mkRoutes (all routes) (by_stream routes) (by_track routes) (push (f_endpoint_id f) id (by_endpoint routes))
      else mkRoutes (all routes ++ [id]) (by_stream routes) (by_track routes) (by_endpoint routes)
    end
  end.

Definition BuildRoutes (h : Heap) (rt : Router) (slots : gset Z) : Routes := foldl (add_route h rt) no_routes (elements slots).

(** [active.store(false)] and [consumer->Close()] for a slot. *)
Definition deactivate (s : Slot) : Slot := mkSlot false (sink s) (slot_filter s) (consumer s).

Definition close_consumer (h : Heap) (rt : Router) (id : Z) : Heap :=
  match store rt !! id with
  | Some s => match consumer s with Some c => sub_Close h c | None => h end
  | None => h
  end.

Definition retire_slots (ids : list Z) (h : Heap) (rt : Router) : Heap * gmap Z Slot :=
  (foldl (fun h id => close_consumer h rt id) h ids, foldl (fun st id => alter deactivate id st) (store rt) ids).

Definition SubscribeImpl (h : Heap) (rt : Router) (sink : Z) (f : EncodedFrameFilter) (consumer : option Z) :
    Heap * Router * SubscribeStatus * Z :=
  if bool_decide (sink ∈ expired rt) || negb (filter_Valid f) then (h, rt, Invalid, 0) else
  if consumer_gone h consumer then (h, rt, SourceRejected, 0) else
  if router_closed_ rt then (h, rt, RouterClosed, 0) else
  if next_id_ rt =? 0 then (h, rt, Exhausted, 0) else
  let next := filter (slot_live h rt) (slots_ rt) in
  if max_subscriptions_ rt <=? Z.of_nat (size next) then (h, rt, Full, 0) else
  let id := next_id_ rt in
  let rt1 := mkRouter (max_subscriptions_ rt) (router_closed_ rt) (slots_ rt) (<[id := mkSlot true sink f consumer]> (store rt))
    (routes_ rt) (next_id_ rt) (expired rt) (counters rt) in
  let next := {[ id ]} ∪ next in
  let routes := BuildRoutes h rt1 next in
  let '(h, store) := retire_slots (elements (slots_ rt ∖ next)) h rt1 in
  (h, mkRouter (max_subscriptions_ rt) (router_closed_ rt) next store (Some routes) (u64 (id + 1)) (expired rt) (counters rt),
   Accepted, id).

Definition TrySubscribe (h : Heap) (rt : Router) (sink : Z) (f : EncodedFrameFilter) : Heap * Router * SubscribeStatus * Z :=
  SubscribeImpl h rt sink f None.

(** [EncodedFrameRouterBinding.cpp]: the subscription attaches to a registered track first. *)
Definition TrySubscribeTrack (w : World) (rt : Router) (sink : Z) (track : MediaTrackRef) (name : list Z) (on_close : bool) :
    World * Router * SubscribeStatus * Z :=
  if bool_decide (sink ∈ expired rt) || negb (ref_valid track) || bool_decide (name = []) then (w, rt, Invalid, 0) else
  match AttachConsumer w track name on_close with
  | (w, None) => (w, rt, SourceRejected, 0)
  | (w, Some c) =>
    match ForTrack track with
    | None => (mkWorld (sub_Close (heap w) c) (registry w), rt, Invalid, 0)
    | Some f =>
      let '(h, rt, status, id) := SubscribeImpl (heap w) rt sink f (Some c) in
      let h := match status with Accepted => h | _ => sub_Close h c end in
      (mkWorld h (registry w), rt, status, id)
    end
  end.

Definition Unsubscribe (h : Heap) (rt : Router) (id : Z) : Heap * Router :=
  if negb (bool_decide (id ∈ slots_ rt)) then (h, rt) else
  let '(h, store) := retire_slots [id] h rt in
  let slots := slots_ rt ∖ {[ id ]} in
  let rt := mkRouter (max_subscriptions_ rt) (router_closed_ rt) slots store (routes_ rt) (next_id_ rt) (expired rt) (counters rt) in
  (h, mkRouter (max_subscriptions_ rt) (router_closed_ rt) slots store (Some (BuildRoutes h rt slots)) (next_id_ rt) (expired rt) (counters rt)).

Definition Close (h : Heap) (rt : Router) : Heap * Router :=
  if router_closed_ rt then (h, rt) else
  let '(h, store) := retire_slots (elements (slots_ rt)) h rt in
  (h, mkRouter (max_subscriptions_ rt) true ∅ store None (next_id_ rt) (expired rt) (counters rt)).

(** The owner of a sink lets go of it. *)
Definition Expire (rt : Router) (sink : Z) : Router :=
  mkRouter (max_subscriptions_ rt) (router_closed_ rt) (slots_ rt) (store rt) (routes_ rt) (next_id_ rt) ({[ sink ]} ∪ expired rt) (counters rt).

Definition active_subscriptions (h : Heap) (rt : Router) : Z :=
  Z.of_nat (size (filter (slot_live h rt) (slots_ rt))).

(** ** Dispatch *)

(** The lists of the index that a frame concerns, in the order in which they are visited. *)
Definition candidates (routes : Routes) (s : EncodedFrameSource) : list Z :=
  all routes ++ default [] (by_stream routes !! media_stream_id s) ++
  default [] (by_track routes !! TrackKey (mkRef (media_stream_id s) (source_track_id s))) ++
  default [] (by_endpoint routes !! endpoint_id s).

(** What is checked of a slot before its sink is called. *)
Definition passes (h : Heap) (rt : Router) (s : EncodedFrameSource) (id : Z) : bool :=
  match store rt !! id with
  | None => false
  | Some slot =>
    active slot && Matches (slot_filter slot) s && consumer_ready h (consumer slot) && negb (bool_decide (sink slot ∈ expired rt))
  end.

Inductive Outcome := Taken | Refused | Thrown.

#[export] Instance Outcome_eq_dec : EqDecision Outcome.
Proof. solve_decision. Defined.

(** The loop [deliver]: [submit] is what the sink of a slot does with the frame.  The slots whose sinks are called, and the counts. *)
Fixpoint deliver (h : Heap) (rt : Router) (s : EncodedFrameSource) (submit : Z -> Outcome) (ids : list Z) : list Z * Z * Z * Z * Z :=
  match ids with
  | [] => ([], 0, 0, 0, 0)
  | id :: ids =>
    let '(called, accepted, rejected, failed, examined) := deliver h rt s submit ids in
    if negb (passes h rt s id) then (called, accepted, rejected, failed, examined + 1) else
    match submit id with
    | Taken => (id :: called, accepted + 1, rejected, failed, examined + 1)
    | Refused => (id :: called, accepted, rejected + 1, failed, examined + 1)
    | Thrown => (id :: called, accepted, rejected, failed + 1, examined + 1)
    end
  end.

(** Without interference.  The slots whose sinks are called, and [DispatchResult]. *)
Definition Dispatch (h : Heap) (rt : Router) (e : EncodedFrameEvent) (submit : Z -> Outcome) : Router * list Z * (Z * Z * Z * Z) :=
  let c := counters rt in
  match routes_ rt with
  | None => (rt, [], (0, 0, 0, 0))
  | Some routes =>
    if negb (event_Valid e) then
      (with_counters rt (mkCounters (frames_ c) (invalid_frames_ c + 1) (accepted_ c) (rejected_ c) (failed_ c) (examined_ c)),
       [], (0, 0, 0, 0))
    else
      let '(called, accepted, rejected, failed, examined) := deliver h rt (source e) submit (candidates routes (source e)) in
      (with_counters rt (mkCounters (frames_ c + 1) (invalid_frames_ c) (accepted_ c + accepted) (rejected_ c + rejected)
         (failed_ c + failed) (examined_ c + examined)), called, (accepted, rejected, failed, examined))
  end.
