(* ===== verification/FrameRouterProps.v ===== *)
(** * What the router promises

    The index answers as a scan over all subscriptions would ([router_dispatch_exact]), in every state that calls of
    the router, of the registry and of the consumers' owners can reach; and with publishers that run concurrently on
    old indices, an ended subscription starts no further call of its sink ([router_unsubscribe_final]). *)
From S2P Require Import Prelude MediaRegistry MediaRegistryInv MediaRegistryProps FrameRouter.

(** ** The index as a partition of the slots *)

Inductive Bucket := BAll | BStream (k : Z) | BTrack (k : Z) | BEndpoint (k : Z).

#[export] Instance Bucket_eq_dec : EqDecision Bucket.
Proof. solve_decision. Defined.

Definition bucket_of (f : EncodedFrameFilter) : Bucket :=
  if negb (f_media_stream_id f =? 0) then
    match f_track_id f with
    | Some t => BTrack (TrackKey (mkRef (f_media_stream_id f) t))
    | None => BStream (f_media_stream_id f)
    end
  else if negb (f_endpoint_id f =? 0) then BEndpoint (f_endpoint_id f) else BAll.

Definition bucket (routes : Routes) (b : Bucket) : list Z :=
  match b with
  | BAll => all routes
  | BStream k => default [] (by_stream routes !! k)
  | BTrack k => default [] (by_track routes !! k)
  | BEndpoint k => default [] (by_endpoint routes !! k)
  end.

Definition goes_to (h : Heap) (rt : Router) (b : Bucket) (id : Z) : bool :=
  match store rt !! id with
  | Some s => negb (stale h rt s) && bool_decide (bucket_of (slot_filter s) = b)
  | None => false
  end.

Lemma push_lookup k id m k' :
  default [] (push k id m !! k') = default [] (m !! k') ++ (if bool_decide (k = k') then [id] else []).
Proof.
  unfold push. rewrite lookup_insert. case_decide as D; [subst; by rewrite bool_decide_true|].
  by rewrite bool_decide_false, app_nil_r by done.
Qed.

Lemma add_route_bucket h rt routes id b :
  bucket (add_route h rt routes id) b = bucket routes b ++ (if goes_to h rt b id then [id] else []).
Proof.
  unfold add_route, goes_to, bucket_of. destruct (store rt !! id) as [s|]; [|by rewrite app_nil_r].
  destruct (stale h rt s); simpl; [by rewrite app_nil_r|].
  destruct (f_track_id (slot_filter s)), (f_media_stream_id (slot_filter s) =? 0), (f_endpoint_id (slot_filter s) =? 0); simpl;
    destruct b; simpl; rewrite ?push_lookup; repeat case_bool_decide; simplify_eq; rewrite ?app_nil_r; done.
Qed.

Lemma build_routes_bucket h rt slots b : bucket (BuildRoutes h rt slots) b = List.filter (goes_to h rt b) (elements slots).
Proof.
  unfold BuildRoutes. assert (forall ids routes, bucket (foldl (add_route h rt) routes ids) b = bucket routes b ++ List.filter (goes_to h rt b) ids) as H.
  { induction ids as [|id ids IH]; intros routes; simpl; [by rewrite app_nil_r|].
    rewrite IH, add_route_bucket, <- app_assoc. by destruct (goes_to h rt b id). }
  rewrite H. by destruct b.
Qed.

Definition index_ok (h : Heap) (rt : Router) (routes : Routes) : Prop :=
  (forall b, NoDup (bucket routes b)) /\
  (forall b id, id ∈ bucket routes b -> id ∈ slots_ rt /\ exists s, store rt !! id = Some s /\ bucket_of (slot_filter s) = b) /\
  (forall id s, id ∈ slots_ rt -> store rt !! id = Some s -> stale h rt s = false -> id ∈ bucket routes (bucket_of (slot_filter s))).

Lemma filter_elem {A} (f : A -> bool) l x : x ∈ List.filter f l <-> x ∈ l /\ f x = true.
Proof. rewrite !list_elem_of_In. apply List.filter_In. Qed.

Lemma filter_nodup {A} (f : A -> bool) l : NoDup l -> NoDup (List.filter f l).
Proof. rewrite !NoDup_ListNoDup. apply List.NoDup_filter. Qed.

Lemma build_routes_ok h rt : index_ok h rt (BuildRoutes h rt (slots_ rt)).
Proof.
  unfold index_ok. split_and!.
  - intros b. rewrite build_routes_bucket. apply filter_nodup, NoDup_elements.
  - intros b id. rewrite build_routes_bucket, filter_elem, elem_of_elements. unfold goes_to. intros [? H].
    destruct (store rt !! id) as [s|]; [|done]. apply andb_prop in H as [_ H]. apply bool_decide_eq_true in H. eauto.
  - intros id s Hin Hs Hst. rewrite build_routes_bucket, filter_elem, elem_of_elements. split; [done|].
    unfold goes_to. rewrite Hs, Hst. simpl. by apply bool_decide_eq_true.
Qed.

(** ** The invariant *)

Record rwf (h : Heap) (rt : Router) : Prop := {
  rwf_slots : forall id, id ∈ slots_ rt -> is_Some (store rt !! id);
  rwf_store : forall id s, store rt !! id = Some s ->
    0 < id /\ (next_id_ rt <> 0 -> id < next_id_ rt) /\ (forall c, consumer s = Some c -> is_Some (subs h !! c)) /\
    (id ∉ slots_ rt -> active s = false);
  rwf_next : 0 <= next_id_ rt < 2 ^ 64;
  rwf_limit : Z.of_nat (size (slots_ rt)) <= max_subscriptions_ rt;
  rwf_closed : router_closed_ rt = true -> routes_ rt = None /\ slots_ rt = ∅;
  rwf_index : router_closed_ rt = false -> exists routes, routes_ rt = Some routes /\ index_ok h rt routes }.

(** What consumers lose they do not get back, so an index stays complete. *)
Lemma gone_mono w w' es c :
  wf_world w -> mono (heap w) (heap w') es -> (forall c0, c = Some c0 -> is_Some (subs (heap w) !! c0)) ->
  consumer_gone (heap w) c = true -> consumer_gone (heap w') c = true.
Proof.
  intros W M Hc. destruct c as [c|]; [|done]. simpl. destruct (Hc c eq_refl) as [sub Hs]. rewrite Hs.
  destruct (mono_sub _ _ _ M _ _ Hs) as (sub' & -> & _ & Ece & _ & Hcl). unfold sub_Closed, cell_state.
  destruct (wf_sub _ _ _ W _ _ Hs) as (_ & _ & _ & [st Hst] & _). rewrite Ece, Hst. simpl.
  intros [H|H]%orb_prop; [by rewrite (Hcl H)|]. apply bool_decide_eq_true in H. subst st.
  rewrite (mono_cell _ _ _ M _ Hst). simpl. apply orb_true_r.
Qed.

Lemma rwf_world w w' rt es : wf_world w -> mono (heap w) (heap w') es -> rwf (heap w) rt -> rwf (heap w') rt.
Proof.
  intros W M R. destruct R. split; try assumption.
  - intros id s Hs. destruct (rwf_store0 _ _ Hs) as (? & ? & Hc & ?). split_and!; try done. intros c Ec.
    destruct (Hc _ Ec) as [sub Hsub]. destruct (mono_sub _ _ _ M _ _ Hsub) as (sub' & -> & _). eauto.
  - intros Hcl. destruct (rwf_index0 Hcl) as (routes & E & H1 & H2 & H3). exists routes. split; [done|]. split_and!; [done|done|].
    intros id s Hin Hs Hst. apply H3; [done|done|]. unfold stale in *. apply orb_false_iff in Hst as [-> Hst]. simpl.
    destruct (consumer_gone (heap w) (consumer s)) eqn:Eg; [|done].
    rewrite (gone_mono _ _ _ _ W M) in Hst; [done| |done]. by apply (rwf_store0 _ _ Hs).
Qed.

(** Closing consumers is a run of the registry's world. *)
Lemma retire_world ids w rt :
  wf_world w -> wf_world (mkWorld (fst (retire_slots ids (heap w) rt)) (registry w)) /\ mono (heap w) (fst (retire_slots ids (heap w) rt)) [].
Proof.
  unfold retire_slots. simpl. revert w. induction ids as [|id ids IH]; intros w W; simpl; [split; [by destruct w|by apply mono_same]|].
  assert (wf_world (mkWorld (close_consumer (heap w) rt id) (registry w)) /\ mono (heap w) (close_consumer (heap w) rt id) []) as [W1 M1].
  { unfold close_consumer. destruct (store rt !! id) as [s|]; [|split; [by destruct w|by apply mono_same]].
    destruct (consumer s) as [c|]; [|split; [by destruct w|by apply mono_same]].
    destruct (step_wf w (OpClose c) W I) as (w1 & es & E & W1). pose proof (step_mono w (OpClose c) _ _ W I E) as M. simpl in E. simplify_eq. auto. }
  destruct (IH (mkWorld (close_consumer (heap w) rt id) (registry w)) W1) as [W2 M2]. simpl in *. split; [done|]. by eapply mono_then.
Qed.

Lemma retire_store ids h rt id :
  snd (retire_slots ids h rt) !! id = if bool_decide (id ∈ ids) then deactivate <$> store rt !! id else store rt !! id.
Proof.
  unfold retire_slots. simpl. generalize (store rt). induction ids as [|j ids IH]; intros m; simpl; [done|].
  rewrite IH, key_list_cons. destruct (decide (id = j)) as [->|Hne].
  - rewrite lookup_alter_eq, (bool_decide_true (j = j)) by done. simpl. case_bool_decide; [|done]. by destruct (m !! j) as [[]|].
  - rewrite lookup_alter_ne, (bool_decide_false (id = j)) by done. done.
Qed.

(** ** Control operations *)

Definition rt_ok (w : World) (rt : Router) : Prop := wf_world w /\ rwf (heap w) rt.

Lemma stale_deactivated h rt s : stale h rt (deactivate s) = true.
Proof. done. Qed.

Lemma index_ok_ext h h' rt rt' routes :
  index_ok h rt routes -> slots_ rt' = slots_ rt ->
  (forall id s', store rt' !! id = Some s' -> exists s, store rt !! id = Some s /\ slot_filter s = slot_filter s' /\
     (id ∈ slots_ rt -> stale h' rt' s' = false -> stale h rt s = false)) ->
  (forall id, is_Some (store rt !! id) -> is_Some (store rt' !! id)) ->
  index_ok h' rt' routes.
Proof.
  intros (H1 & H2 & H3) Es Hst Hdom. split_and!; [done| |].
  - intros b id Hin. destruct (H2 _ _ Hin) as (? & s & Hs & Hb). rewrite Es. split; [done|].
    destruct (Hdom id ltac:(rewrite Hs; eauto)) as [s' Hs']. destruct (Hst _ _ Hs') as (s0 & ? & Ef & _). simplify_eq.
    exists s'. by rewrite <- Ef.
  - intros id s' Hin Hs' Hf. rewrite Es in Hin. destruct (Hst _ _ Hs') as (s & Hs & Ef & Hl). rewrite <- Ef. eauto.
Qed.

Lemma rwf_Unsubscribe w rt id :
  rt_ok w rt -> rt_ok (mkWorld (fst (Unsubscribe (heap w) rt id)) (registry w)) (snd (Unsubscribe (heap w) rt id)).
Proof.
  intros [W R]. unfold Unsubscribe. case_bool_decide as Hin; [cbn [negb]|split; [by destruct w|done]].
  pose proof (retire_world [id] w rt W) as [W1 M1].
  pose proof (retire_store [id] (heap w) rt) as Hst. destruct (retire_slots [id] (heap w) rt) as [h1 st]. simpl in *.
  split; [done|]. pose proof (rwf_world w (mkWorld h1 (registry w)) rt [] W M1 R) as [].
  assert (router_closed_ rt = false) as Hcl.
  { destruct (router_closed_ rt) eqn:E; [|done]. destruct (rwf_closed0 eq_refl) as [_ E0]. rewrite E0 in Hin. set_solver + Hin. }
  split; simpl; try assumption; try (rewrite Hcl; done).
  - intros j Hj. rewrite Hst. assert (is_Some (store rt !! j)) as [s ->] by (apply rwf_slots0; set_solver + Hj). case_bool_decide; eauto.
  - intros j s Hs. rewrite Hst in Hs. case_bool_decide as D.
    + apply fmap_Some in Hs as (s0 & Hs0 & ->). destruct (rwf_store0 _ _ Hs0) as (? & ? & ? & ?). split_and!; done.
    + destruct (rwf_store0 _ _ Hs) as (? & ? & ? & Hact). split_and!; try done. intros Hj. apply Hact. set_solver + Hj D.
  - etransitivity; [|exact rwf_limit0]. apply inj_le, subseteq_size. set_solver +.
  - intros _. eexists. split; [done|].
    refine (index_ok_ext _ _ (mkRouter (max_subscriptions_ rt) (router_closed_ rt) (slots_ rt ∖ {[ id ]}) st (routes_ rt) (next_id_ rt)
      (expired rt) (counters rt)) _ _ (build_routes_ok h1 _) eq_refl _ _); simpl; [|done].
    intros j s Hs. exists s. done.
Qed.

Lemma rwf_Close w rt :
  rt_ok w rt -> rt_ok (mkWorld (fst (Close (heap w) rt)) (registry w)) (snd (Close (heap w) rt)).
Proof.
  intros [W R]. unfold Close. destruct (router_closed_ rt) eqn:Hcl; [split; [by destruct w|done]|].
  pose proof (retire_world (elements (slots_ rt)) w rt W) as [W1 M1].
  pose proof (retire_store (elements (slots_ rt)) (heap w) rt) as Hst.
  destruct (retire_slots (elements (slots_ rt)) (heap w) rt) as [h1 st]. simpl in *.
  split; [done|]. pose proof (rwf_world w (mkWorld h1 (registry w)) rt [] W M1 R) as [].
  split; simpl; try assumption; try done.
  - intros j s Hs. rewrite Hst in Hs. case_bool_decide as D.
    + apply fmap_Some in Hs as (s0 & Hs0 & ->). destruct (rwf_store0 _ _ Hs0) as (? & ? & ? & ?). split_and!; done.
    + destruct (rwf_store0 _ _ Hs) as (? & ? & ? & Hact). split_and!; try done. intros _. apply Hact.
      intros Hj. apply D. by apply elem_of_elements.
  - change (Z.of_nat 0 <= max_subscriptions_ rt). lia.
Qed.

Lemma rwf_Expire w rt k : rt_ok w rt -> rt_ok w (Expire rt k).
Proof.
  intros [W R]. split; [done|]. destruct R. split; simpl; try assumption. intros Hcl.
  destruct (rwf_index0 Hcl) as (routes & E & Hix). exists routes. split; [done|]. eapply index_ok_ext; [exact Hix|done| |done].
  intros id s' Hs'. exists s'. split_and!; [done|done|]. intros _. unfold stale. simpl.
  rewrite !orb_false_iff, !bool_decide_eq_false. intros [[? ?] ?]. split_and!; try done. set_solver.
Qed.

Lemma rwf_SubscribeImpl w rt sink f c :
  rt_ok w rt -> (forall c0, c = Some c0 -> is_Some (subs (heap w) !! c0)) ->
  let '(h', rt', _, _) := SubscribeImpl (heap w) rt sink f c in
  rt_ok (mkWorld h' (registry w)) rt' /\ mono (heap w) h' [].
Proof.
  intros [W R] Hc. unfold SubscribeImpl.
  assert (Hrefuse : rt_ok (mkWorld (heap w) (registry w)) rt /\ mono (heap w) (heap w) []).
  { split; [split; [by destruct w|done]|by apply mono_same]. }
  destruct (_ || _); [done|]. destruct (consumer_gone (heap w) c) eqn:Eg; [done|].
  destruct (router_closed_ rt) eqn:Hcl; [done|]. destruct (Z.eqb_spec (next_id_ rt) 0) as [|Hn]; [done|].
  set (kept := filter (slot_live (heap w) rt) (slots_ rt)).
  destruct (Z.leb_spec (max_subscriptions_ rt) (Z.of_nat (size kept))) as [|Hlim]; [done|].
  set (id := next_id_ rt) in *. set (rt1 := mkRouter (max_subscriptions_ rt) false (slots_ rt) (<[id := mkSlot true sink f c]> (store rt)) (routes_ rt) id (expired rt) (counters rt)).
  pose proof (retire_world (elements (slots_ rt ∖ ({[ id ]} ∪ kept))) w rt1 W) as [W1 M1].
  pose proof (retire_store (elements (slots_ rt ∖ ({[ id ]} ∪ kept))) (heap w) rt1) as Hst.
  destruct (retire_slots (elements (slots_ rt ∖ ({[ id ]} ∪ kept))) (heap w) rt1) as [h1 st] eqn:Er. simpl in *.
  split; [split; [done|]|done].
  assert (Hkept : forall j, j ∈ kept -> j ∈ slots_ rt) by (intros j; unfold kept; set_solver +).
  destruct R.
  assert (Hid : store rt !! id = None).
  { destruct (store rt !! id) eqn:E; [|done]. destruct (rwf_store0 _ _ E) as (_ & Hlt & _). specialize (Hlt Hn). lia. }
  assert (Hlook : forall j s, st !! j = Some s -> exists s0, <[id := mkSlot true sink f c]> (store rt) !! j = Some s0 /\
    slot_filter s = slot_filter s0 /\ consumer s = consumer s0 /\ (j ∈ {[ id ]} ∪ kept \/ j ∉ slots_ rt -> s = s0) /\
    (j ∈ slots_ rt -> j ∉ {[ id ]} ∪ kept -> active s = false)).
  { intros j s Hs. rewrite Hst in Hs. case_bool_decide as D.
    - apply fmap_Some in Hs as (s0 & Hs0 & ->). exists s0. apply elem_of_elements in D. split_and!; try done. set_solver + D.
    - exists s. rewrite elem_of_elements in D. split_and!; try done. set_solver + D. }
  split; simpl; try done.
  - intros j Hj. rewrite Hst. assert (is_Some (<[id := mkSlot true sink f c]> (store rt) !! j)) as [s Hs].
    { rewrite lookup_insert. case_decide; [eauto|]. apply rwf_slots0. set_solver. }
    rewrite Hs. case_bool_decide; eauto.
  - intros j s Hs. destruct (Hlook _ _ Hs) as (s0 & Hs0 & Ef & Ec & Hsame & Hact).
    assert (Hb : 0 < j <= id).
    { destruct (insert_cases _ _ _ _ _ Hs0) as [[-> _]|[_ H]]; [lia|]. destruct (rwf_store0 _ _ H) as (? & Hlt & _). specialize (Hlt Hn). lia. }
    split_and!; [lia| | |].
    + intros Hw. unfold wrap in *. pow2. destruct (Z.eq_dec (id + 1) 18446744073709551616) as [E|E]; [rewrite E in Hw; done|rewrite Z.mod_small; lia].
    + intros c0 Ec0. rewrite Ec in Ec0. assert (is_Some (subs (heap w) !! c0)) as [sub Hsub].
      { destruct (insert_cases _ _ _ _ _ Hs0) as [[-> ->]|[_ H]]; [by apply Hc|]. destruct (rwf_store0 _ _ H) as (_ & _ & H' & _). by apply H'. }
      destruct (mono_sub _ _ _ M1 _ _ Hsub) as (sub' & -> & _). eauto.
    + intros Hj. destruct (decide (j ∈ slots_ rt)) as [Hin|Hin]; [by apply Hact|].
      rewrite (Hsame (or_intror Hin)). destruct (insert_cases _ _ _ _ _ Hs0) as [[-> _]|[_ H]]; [set_solver + Hj|].
      destruct (rwf_store0 _ _ H) as (_ & _ & _ & H'). by apply H'.
  - apply wrap_range. lia.
  - rewrite size_union_alt, size_singleton. pose proof (subseteq_size (kept ∖ {[ id ]}) kept ltac:(set_solver +)). lia.
  - intros _. eexists. split; [done|].
    pose proof (build_routes_ok (heap w) (mkRouter (max_subscriptions_ rt) false ({[ id ]} ∪ kept) (<[id := mkSlot true sink f c]> (store rt)) (routes_ rt) id (expired rt) (counters rt))) as Hix.
    eapply index_ok_ext; [exact Hix|done| |]; simpl.
    + intros j s Hs. destruct (Hlook _ _ Hs) as (s0 & Hs0 & Ef & Ec & Hsame & _). exists s0. split_and!; [done|done|].
      intros Hj. rewrite (Hsame (or_introl Hj)). unfold stale. simpl. rewrite !orb_false_iff. intros [? Hg]. split; [done|].
      destruct (consumer_gone (heap w) (consumer s0)) eqn:Eg0; [|done].
      assert (consumer_gone h1 (consumer s0) = true) as Hg1.
      { apply (gone_mono w (mkWorld h1 (registry w)) [] _ W M1); [|done]. intros c0 Ec0.
        destruct (insert_cases _ _ _ _ _ Hs0) as [[-> ->]|[_ H']]; [by apply Hc|]. destruct (rwf_store0 _ _ H') as (_ & _ & H'' & _). by apply H''. }
      congruence.
    + intros j [s Hs]. rewrite Hst, Hs. case_bool_decide; eauto.
Qed.

(** ** Runs *)

Inductive ROp :=
| RTry (sink : Z) (f : EncodedFrameFilter)
| RTryTrack (sink : Z) (track : MediaTrackRef) (name : list Z) (on_close : bool)
| RUnsubscribe (id : Z)
| RClose
| RExpire (sink : Z)
| RDispatch (e : EncodedFrameEvent) (submit : Z -> Outcome)
| RWorld (op : Op).

Definition rstep (w : World) (rt : Router) (op : ROp) : mres (World * Router) :=
  match op with
  | RTry sink f => let '(h, rt, _, _) := TrySubscribe (heap w) rt sink f in Ret (mkWorld h (registry w), rt)
  | RTryTrack sink track name cb => let '(w, rt, _, _) := TrySubscribeTrack w rt sink track name cb in Ret (w, rt)
  | RUnsubscribe id => let '(h, rt) := Unsubscribe (heap w) rt id in Ret (mkWorld h (registry w), rt)
  | RClose => let '(h, rt) := Close (heap w) rt in Ret (mkWorld h (registry w), rt)
  | RExpire sink => Ret (w, Expire rt sink)
  | RDispatch e submit => let '(rt, _, _) := Dispatch (heap w) rt e submit in Ret (w, rt)
  | RWorld op => let! r := step w op in Ret (fst r, rt)
  end.

Definition rop_ok (op : ROp) : Prop :=
  match op with
  | RTryTrack _ track _ _ => ref_ok track
  | RWorld op => op_ok op
  | _ => True
  end.

Lemma rwf_counters h rt c : rwf h rt -> rwf h (with_counters rt c).
Proof.
  intros []. split; assumption.
Qed.

Lemma rt_ok_close w rt c : rt_ok w rt -> rt_ok (mkWorld (sub_Close (heap w) c) (registry w)) rt.
Proof.
  intros [W R]. destruct (step_wf w (OpClose c) W I) as (w1 & es & E & W1).
  pose proof (step_mono w (OpClose c) _ _ W I E) as M. simpl in E. simplify_eq. split; [done|]. exact (rwf_world _ _ _ _ W M R).
Qed.

Lemma attach_sub w ref name cb w' c : AttachConsumer w ref name cb = (w', Some c) -> is_Some (subs (heap w') !! c).
Proof.
  unfold AttachConsumer. destruct (_ || _); [done|].
  destruct (reg_tracks_ (registry w) !! TrackKey ref) as [e|]; [|done].
  destruct (if bool_decide _ then _ else _) as [s|]; [|done]. destruct (_ || _ || _); [done|].
  unfold PruneConsumersLocked. destruct (4096 <=? _); intros [= <- <-]. simpl. rewrite lookup_insert_eq. eauto.
Qed.

Lemma rstep_ok w rt op : rt_ok w rt -> rop_ok op -> exists w' rt', rstep w rt op = Ret (w', rt') /\ rt_ok w' rt'.
Proof.
  intros H Hok. destruct op; simpl in *.
  - unfold TrySubscribe. pose proof (rwf_SubscribeImpl w rt sink f None H ltac:(done)) as Hs.
    destruct (SubscribeImpl _ _ _ _ _) as [[[h rt'] st] id]. destruct Hs. eauto.
  - unfold TrySubscribeTrack. destruct (_ || _); [eauto|]. destruct H as [W R].
    assert (Wa : wf_world (fst (AttachConsumer w track name on_close))) by (by apply wf_Attach).
    pose proof (mono_attach w track name on_close W) as M. pose proof (attach_sub w track name on_close) as Ha.
    destruct (AttachConsumer w track name on_close) as [w1 [c|]]; simpl in *.
    + assert (rt_ok w1 rt) as H1 by (split; [done|exact (rwf_world _ _ _ _ W M R)]).
      destruct (ForTrack track) as [f|]; [|eauto using rt_ok_close].
      pose proof (rwf_SubscribeImpl w1 rt sink f (Some c) H1 ltac:(intros c0 [= <-]; eauto)) as Hs.
      destruct (SubscribeImpl _ _ _ _ _) as [[[h rt'] st] id]. destruct Hs as [Hs _].
      eexists _, _. split; [done|]. destruct st; [done|exact (rt_ok_close _ _ c Hs)..].
    + eexists _, _. split; [done|]. split; [done|exact (rwf_world _ _ _ _ W M R)].
  - pose proof (rwf_Unsubscribe w rt id H) as Hu. destruct (Unsubscribe _ _ _) as [h rt']. eauto.
  - pose proof (rwf_Close w rt H) as Hu. destruct (Close _ _) as [h rt']. eauto.
  - eauto using rwf_Expire.
  - unfold Dispatch. destruct (routes_ rt) as [routes|]; [|eauto]. destruct H as [W R].
    destruct (negb _); [eexists _, _; split; [done|split; [done|by apply rwf_counters]]|].
    destruct (deliver _ _ _ _ _) as [[[[called a] r] f] x]. eexists _, _. split; [done|]. split; [done|by apply rwf_counters].
  - destruct H as [W R]. destruct (step_wf w op W Hok) as (w' & es & E & W'). rewrite E. simpl. eexists _, _. split; [done|].
    split; [done|]. exact (rwf_world _ _ _ _ W (step_mono _ _ _ _ W Hok E) R).
Qed.

Fixpoint rrun (w : World) (rt : Router) (ops : list ROp) : mres (World * Router) :=
  match ops with
  | [] => Ret (w, rt)
  | op :: ops => let! r := rstep w rt op in rrun (fst r) (snd r) ops
  end.

Lemma rrun_ok w rt ops : rt_ok w rt -> Forall rop_ok ops -> exists w' rt', rrun w rt ops = Ret (w', rt') /\ rt_ok w' rt'.
Proof.
  intros H Hok. revert w rt H. induction Hok as [|op ops Hop Hok IH]; intros w rt H; simpl; [eauto|].
  destruct (rstep_ok w rt op H Hop) as (w1 & rt1 & -> & H1). simpl. auto.
Qed.

Lemma new_Router_ok w max rt : wf_world w -> 0 <= max -> new_Router max = Some rt -> rt_ok w rt.
Proof.
  intros W Hm H. unfold new_Router in H. destruct (max =? 0); [done|]. injection H as <-. split; [done|]. split; simpl; try done.
  intros _. exists no_routes. split; [done|]. unfold index_ok. split_and!.
  - intros []; constructor.
  - intros [] id Hin; by apply elem_of_nil in Hin.
  - done.
Qed.

(** ** Dispatch against a scan *)

(** How many of the sinks called did [o] with the frame. *)
Definition outcomes (submit : Z -> Outcome) (o : Outcome) (called : list Z) : Z :=
  Z.of_nat (length (List.filter (fun id => bool_decide (submit id = o)) called)).

Lemma deliver_called h rt s submit ids :
  let '(called, accepted, rejected, failed, examined) := deliver h rt s submit ids in
  called = List.filter (passes h rt s) ids /\ examined = Z.of_nat (length ids) /\
  accepted = outcomes submit Taken called /\ rejected = outcomes submit Refused called /\ failed = outcomes submit Thrown called.
Proof.
  unfold outcomes. induction ids as [|id ids IH]; cbn [deliver]; [done|].
  destruct (deliver h rt s submit ids) as [[[[called a] r] f] x]. destruct IH as (-> & -> & -> & -> & ->).
  cbn [List.filter length]. destruct (passes h rt s id); cbn [negb]; [|split_and!; try done; rewrite Nat2Z.inj_succ; lia].
  destruct (submit id) eqn:Es; cbn [List.filter length]; rewrite Es;
    repeat first [rewrite bool_decide_eq_true_2 by done|rewrite bool_decide_eq_false_2 by done];
    cbn [length]; rewrite ?Nat2Z.inj_succ; split_and!; try done; lia.
Qed.

Lemma ready_not_gone h c : consumer_ready h c = true -> consumer_gone h c = false.
Proof.
  destruct c as [c|]; simpl; [|done]. destruct (subs h !! c) as [sub|]; [|done]. unfold CanDeliver, sub_Closed.
  intros [[H1 _]%andb_prop H2]%andb_prop. apply negb_true_iff in H1. apply bool_decide_eq_true in H2. rewrite H1, H2. done.
Qed.

Definition concerned (s : EncodedFrameSource) : list Bucket :=
  [BAll; BStream (media_stream_id s); BTrack (TrackKey (mkRef (media_stream_id s) (source_track_id s))); BEndpoint (endpoint_id s)].

Lemma candidates_buckets routes s : candidates routes s = mjoin (bucket routes <$> concerned s).
Proof. unfold candidates, concerned. simpl. by rewrite app_nil_r. Qed.

Lemma matches_concerned f s : Matches f s = true -> bucket_of f ∈ concerned s.
Proof.
  unfold Matches, bucket_of, concerned. intros H. do 5 (apply andb_prop in H as [H ?]).
  destruct (Z.eqb_spec (f_media_stream_id f) 0) as [E|E]; simpl in *.
  - destruct (Z.eqb_spec (f_endpoint_id f) 0) as [E'|E']; simpl in *; [left|].
    match goal with H : (f_endpoint_id f =? endpoint_id s) = true |- _ => apply Z.eqb_eq in H as -> end. do 3 right. left.
  - apply Z.eqb_eq in H as ->. destruct (f_track_id f) as [t|].
    + match goal with H : (t =? _) = true |- _ => apply Z.eqb_eq in H as -> end. do 2 right. left.
    + right. left.
Qed.

Lemma candidates_nodup h rt routes s : index_ok h rt routes -> NoDup (candidates routes s).
Proof.
  intros (H1 & H2 & _). rewrite candidates_buckets.
  assert (forall bs, NoDup bs -> NoDup (mjoin (bucket routes <$> bs))) as H.
  { induction bs as [|b bs IH]; simpl; [constructor|]. intros [Hb Hbs]%NoDup_cons. apply NoDup_app. split_and!; [apply H1| |auto].
    intros id Hin Hin'. apply list_elem_of_join in Hin' as (l & Hin' & Hl). apply list_elem_of_fmap in Hl as (b' & -> & Hb').
    destruct (H2 _ _ Hin) as (_ & s1 & Hs1 & E1), (H2 _ _ Hin') as (_ & s2 & Hs2 & E2). simplify_eq. done. }
  apply H. apply NoDup_ListNoDup. repeat constructor; simpl; intuition congruence.
Qed.

Lemma candidates_elem h rt routes s id :
  index_ok h rt routes -> (id ∈ candidates routes s /\ passes h rt s id = true <-> id ∈ slots_ rt /\ passes h rt s id = true).
Proof.
  intros (H1 & H2 & H3). rewrite candidates_buckets. split; intros [Hin Hp]; (split; [|done]).
  - apply list_elem_of_join in Hin as (l & Hin & Hl). apply list_elem_of_fmap in Hl as (b & -> & _). by apply (H2 _ _ Hin).
  - unfold passes in Hp. destruct (store rt !! id) as [sl|] eqn:Hs; [|done].
    apply andb_prop in Hp as [Hp He]. apply andb_prop in Hp as [Hp Hr]. apply andb_prop in Hp as [Ha Hm].
    apply list_elem_of_join. exists (bucket routes (bucket_of (slot_filter sl))). split.
    + apply H3; [done|done|]. unfold stale. rewrite Ha, (ready_not_gone _ _ Hr). apply negb_true_iff in He. by rewrite He.
    + apply list_elem_of_fmap. eexists. split; [done|]. by apply matches_concerned.
Qed.

(** C20. Dispatch is exact.  Whatever calls have been made on the router, the registry and the consumers, with
    sinks that come and go: at most [max] subscriptions are held, and a valid frame is submitted once to the sink of every
    subscription that is active, matches the frame, may deliver and has a living sink, and to no other; the
    counts that are returned are those of the sinks that took the frame, refused it and threw, at least as many slots are
    counted as examined as sinks are called, and while the router is open the frame and these counts are added to its statistics. *)
Theorem router_dispatch_exact max rt0 ops :
  0 <= max -> new_Router max = Some rt0 -> Forall rop_ok ops ->
  exists w rt, rrun new_world rt0 ops = Ret (w, rt) /\ Z.of_nat (size (slots_ rt)) <= max_subscriptions_ rt /\
    forall e submit, event_Valid e = true ->
      let '(rt', called, (accepted, rejected, failed, examined)) := Dispatch (heap w) rt e submit in
      Permutation called (List.filter (passes (heap w) rt (source e)) (elements (slots_ rt))) /\
      accepted = outcomes submit Taken called /\ rejected = outcomes submit Refused called /\ failed = outcomes submit Thrown called /\
      Z.of_nat (length called) <= examined /\
      (router_closed_ rt = false -> counters rt' = let c := counters rt in
        mkCounters (frames_ c + 1) (invalid_frames_ c) (accepted_ c + accepted) (rejected_ c + rejected) (failed_ c + failed) (examined_ c + examined)).
Proof.
  intros Hm Hn Hok. destruct (rrun_ok new_world rt0 ops (new_Router_ok new_world _ _ wf_new Hm Hn) Hok) as (w & rt & E & W & R).
  exists w, rt. split; [done|]. split; [apply R|]. intros e submit Hv. unfold Dispatch.
  destruct (router_closed_ rt) eqn:Hcl.
  - destruct (rwf_closed _ _ R Hcl) as [-> ->]. rewrite elements_empty. done.
  - destruct (rwf_index _ _ R Hcl) as (routes & -> & Hix). rewrite Hv. simpl.
    pose proof (deliver_called (heap w) rt (source e) submit (candidates routes (source e))) as Hd.
    destruct (deliver _ _ _ _ _) as [[[[called a] r] f] x]. destruct Hd as (-> & E2 & E3 & E4 & E5). split_and!; [|done|done|done| |done].
    + apply NoDup_Permutation; [by eapply filter_nodup, candidates_nodup|apply filter_nodup, NoDup_elements|].
      intros id. rewrite !filter_elem, elem_of_elements. by apply candidates_elem.
    + rewrite E2. apply inj_le. clear. induction (candidates _ _) as [|i l IH]; simpl; [done|]. case_match; simpl; lia.
Qed.

(** ** Publishers that run concurrently *)

(** A publisher goes through the candidates of the index it loaded; [visiting] is the slot whose [active] flag it
    has found set. *)
Record Publisher := mkPublisher { frame : EncodedFrameSource; todo : list Z; visiting : option Z }.

Record System := mkSystem { world : World; router : Router; publishers : list Publisher }.

Definition is_active (rt : Router) (id : Z) : bool := match store rt !! id with Some s => active s | None => false end.

Definition control (op : ROp) : bool := match op with RDispatch _ _ => false | _ => true end.

(** One step: a control operation, or a publisher that loads the index, finds a slot active or not, gives a visit up, or
    calls the sink.  The label is the slot whose sink is called. *)
Inductive cstep : System -> option Z -> System -> Prop :=
| c_control w rt ps op w' rt' :
    control op = true -> rop_ok op -> rstep w rt op = Ret (w', rt') -> cstep (mkSystem w rt ps) None (mkSystem w' rt' ps)
| c_load w rt ps e routes :
    routes_ rt = Some routes -> event_Valid e = true ->
    cstep (mkSystem w rt ps) None (mkSystem w rt (ps ++ [mkPublisher (source e) (candidates routes (source e)) None]))
| c_check w rt ps i s id ids :
    ps !! i = Some (mkPublisher s (id :: ids) None) ->
    cstep (mkSystem w rt ps) None
      (mkSystem w rt (<[i := mkPublisher s ids (if is_active rt id then Some id else None)]> ps))
| c_give_up w rt ps i s id ids :
    ps !! i = Some (mkPublisher s ids (Some id)) -> passes (heap w) (rt : Router) s id = false ->
    cstep (mkSystem w rt ps) None (mkSystem w rt (<[i := mkPublisher s ids None]> ps))
| c_call w rt ps i s id ids sl :
    ps !! i = Some (mkPublisher s ids (Some id)) -> store rt !! id = Some sl ->
    Matches (slot_filter sl) s = true -> consumer_ready (heap w) (consumer sl) = true -> sink sl ∉ expired rt ->
    cstep (mkSystem w rt ps) (Some id) (mkSystem w rt (<[i := mkPublisher s ids None]> ps)).

Inductive ctrace : System -> list (option Z) -> System -> Prop :=
| trace_nil σ : ctrace σ [] σ
| trace_cons σ l σ1 ls σ2 : cstep σ l σ1 -> ctrace σ1 ls σ2 -> ctrace σ (l :: ls) σ2.

Definition calls (id : Z) (ls : list (option Z)) : Z := Z.of_nat (length (List.filter (fun l => bool_decide (l = Some id)) ls)).

Definition visits (id : Z) (ps : list Publisher) : Z :=
  Z.of_nat (length (List.filter (fun p => bool_decide (visiting p = Some id)) ps)).

Definition system_ok (σ : System) : Prop := rt_ok (world σ) (router σ).

Lemma cstep_ok σ l σ' : cstep σ l σ' -> system_ok σ -> system_ok σ'.
Proof.
  destruct 1; unfold system_ok; simpl; intros H'; try done.
  match goal with Hr : rstep _ _ _ = _, Ho : rop_ok _ |- _ => destruct (rstep_ok _ _ _ H' Ho) as (w1 & rt1 & E & ?); rewrite Hr in E; by simplify_eq end.
Qed.

Lemma ctrace_ok σ ls σ' : ctrace σ ls σ' -> system_ok σ -> system_ok σ'.
Proof. induction 1; eauto using cstep_ok. Qed.

(** A slot that was deactivated stays so. *)
Definition ended (rt : Router) (id : Z) : Prop := exists s, store rt !! id = Some s /\ active s = false.

Lemma ended_retire ids h rt id : ended rt id -> exists s, snd (retire_slots ids h rt) !! id = Some s /\ active s = false.
Proof.
  intros (s & Hs & Ha). rewrite retire_store, Hs. case_bool_decide; [by exists (deactivate s)|eauto].
Qed.

Lemma ended_subscribe h rt sink f c id : rwf h rt -> ended rt id -> ended (snd (fst (fst (SubscribeImpl h rt sink f c)))) id.
Proof.
  intros R He. unfold SubscribeImpl. destruct (_ || _); [done|]. destruct (consumer_gone h c); [done|].
  destruct (router_closed_ rt); [done|]. destruct (Z.eqb_spec (next_id_ rt) 0) as [|Hn]; [done|].
  destruct (max_subscriptions_ rt <=? _); [done|]. set (rt1 := mkRouter _ _ _ (<[_ := _]> _) _ _ _ _). set (kept := _ ∪ _).
  assert (ended rt1 id) as He1.
  { destruct He as (s & Hs & Ha). exists s. split; [|done]. simpl. rewrite lookup_insert_ne; [done|]. intros <-.
    destruct (rwf_store _ _ R _ _ Hs) as (_ & Hlt & _). specialize (Hlt Hn). lia. }
  destruct (ended_retire (elements (slots_ rt ∖ kept)) h rt1 id He1) as (s & Hs & Ha).
  destruct (retire_slots (elements (slots_ rt ∖ kept)) h rt1) as [h1 st]. exists s. done.
Qed.

Lemma ended_step w rt op w' rt' id : rt_ok w rt -> rop_ok op -> ended rt id -> rstep w rt op = Ret (w', rt') -> ended rt' id.
Proof.
  intros [W R] Hok He H. destruct op; simpl in H.
  - pose proof (ended_subscribe (heap w) rt sink f None id R He) as Hs. unfold TrySubscribe in H.
    destruct (SubscribeImpl _ _ _ _ _) as [[[h1 rt1] st] i]. by simplify_eq.
  - unfold TrySubscribeTrack in H. destruct (_ || _ || _); [by simplify_eq|]. simpl in Hok.
    pose proof (mono_attach w track name on_close W) as M.
    destruct (AttachConsumer w track name on_close) as [w1 [c|]]; [|by simplify_eq].
    destruct (ForTrack track) as [f|]; [|by simplify_eq].
    pose proof (ended_subscribe (heap w1) rt sink f (Some c) id (rwf_world _ _ _ _ W M R) He) as Hs.
    destruct (SubscribeImpl _ _ _ _ _) as [[[h1 rt1] st] i]. by simplify_eq.
  - unfold Unsubscribe in H. destruct (negb _); [by simplify_eq|].
    destruct (ended_retire [id0] (heap w) rt id He) as (s & Hs & Ha). destruct (retire_slots [id0] (heap w) rt) as [h1 st].
    simplify_eq. by exists s.
  - unfold Close in H. destruct (router_closed_ rt); [by simplify_eq|].
    destruct (ended_retire (elements (slots_ rt)) (heap w) rt id He) as (s & Hs & Ha). destruct (retire_slots _ (heap w) rt) as [h1 st].
    simplify_eq. by exists s.
  - by simplify_eq.
  - unfold Dispatch in H. destruct (routes_ rt) as [routes|]; [|by simplify_eq]. destruct (negb _); [by simplify_eq|].
    destruct (deliver _ _ _ _ _) as [[[[? ?] ?] ?] ?]. by simplify_eq.
  - destruct (step w op) as [[w1 es]| |]; [|done|done]. injection H as _ <-. exact He.
Qed.

Lemma visits_insert id ps i p p' :
  ps !! i = Some p ->
  visits id (<[i := p']> ps) = visits id ps - (if bool_decide (visiting p = Some id) then 1 else 0) + (if bool_decide (visiting p' = Some id) then 1 else 0).
Proof.
  intros Hi. unfold visits. apply take_drop_middle in Hi as E. rewrite <- E at 2.
  rewrite (insert_take_drop ps i p') by (by eapply lookup_lt_Some).
  rewrite !List.filter_app, !length_app. simpl. repeat case_bool_decide; simpl; lia.
Qed.

Lemma ended_cstep σ l σ' id :
  system_ok σ -> ended (router σ) id -> cstep σ l σ' ->
  ended (router σ') id /\ visits id (publishers σ') + (if bool_decide (l = Some id) then 1 else 0) <= visits id (publishers σ).
Proof.
  intros Hok He H. destruct H; simpl in *.
  - split; [by eapply ended_step|]. lia.
  - split; [done|]. unfold visits. rewrite List.filter_app, length_app. simpl. lia.
  - split; [done|]. rewrite (visits_insert _ _ _ _ _ H). simpl. destruct (is_active rt id0) eqn:Ea; simpl; [|lia].
    case_bool_decide as D; [|lia]. exfalso. injection D as ->. destruct He as (s1 & Hs1 & Ha).
    unfold is_active in Ea. rewrite Hs1 in Ea. congruence.
  - split; [done|]. rewrite (visits_insert _ _ _ _ _ H). simpl.  repeat case_bool_decide; simplify_eq; lia.
  - split; [done|]. rewrite (visits_insert _ _ _ _ _ H). simpl.  repeat case_bool_decide; simplify_eq; lia.
Qed.

Lemma ended_calls σ ls σ' id :
  ctrace σ ls σ' -> system_ok σ -> ended (router σ) id -> calls id ls <= visits id (publishers σ).
Proof.
  induction 1 as [σ|σ l σ1 ls σ2 Hst Htr IH]; intros Hok He; [unfold calls, visits; simpl; lia|].
  destruct (ended_cstep _ _ _ id Hok He Hst) as [He1 Hv]. specialize (IH (cstep_ok _ _ _ Hst Hok) He1).
  unfold calls in *. simpl. case_bool_decide; simpl; lia.
Qed.

(** C28. Ending a subscription.  However publishers and control operations interleave: once [Unsubscribe] has returned, the
    sink of the subscription is called at most once for each publisher that had found the slot active before, even by
    publishers that still work on an index that lists it; and the consumer of the subscription is closed. *)
Theorem router_unsubscribe_final max rt0 ls σ id s :
  0 <= max -> new_Router max = Some rt0 -> ctrace (mkSystem new_world rt0 []) ls σ ->
  store (router σ) !! id = Some s -> id ∈ slots_ (router σ) ->
  let '(h', rt') := Unsubscribe (heap (world σ)) (router σ) id in
  id ∉ slots_ rt' /\ (forall c, consumer s = Some c -> exists sub, subs h' !! c = Some sub /\ closed_ sub = true) /\
  forall ls' σ', ctrace (mkSystem (mkWorld h' (registry (world σ))) rt' (publishers σ)) ls' σ' -> calls id ls' <= visits id (publishers σ).
Proof.
  intros Hm Hn Htr Hs Hin. assert (system_ok σ) as Hok.
  { eapply ctrace_ok; [exact Htr|]. exact (new_Router_ok new_world _ _ wf_new Hm Hn). }
  pose proof (rwf_Unsubscribe _ _ id Hok) as Hu.
  assert (He : ended (snd (Unsubscribe (heap (world σ)) (router σ) id)) id).
  { unfold Unsubscribe. rewrite bool_decide_true by done. cbn [negb].
    pose proof (retire_store [id] (heap (world σ)) (router σ) id) as Hst. destruct (retire_slots [id] _ _) as [h1 st]. simpl in *.
    rewrite bool_decide_true, Hs in Hst by left. exists (deactivate s). done. }
  assert (Hc : forall c, consumer s = Some c -> exists sub, subs (fst (Unsubscribe (heap (world σ)) (router σ) id)) !! c = Some sub /\ closed_ sub = true).
  { intros c Ec. unfold Unsubscribe. rewrite bool_decide_true by done. cbn [negb]. unfold retire_slots. simpl. unfold close_consumer. rewrite Hs, Ec.
    destruct (rwf_store _ _ (proj2 Hok) _ _ Hs) as (_ & _ & Hsub & _). destruct (Hsub _ Ec) as [sub Hsu].
    unfold sub_Close. simpl. rewrite lookup_alter_eq, Hsu. simpl. eauto. }
  assert (Hout : id ∉ slots_ (snd (Unsubscribe (heap (world σ)) (router σ) id))).
  { unfold Unsubscribe. rewrite bool_decide_true by done. cbn [negb]. destruct (retire_slots [id] _ _). simpl. set_solver +. }
  destruct (Unsubscribe _ _ _) as [h' rt']. simpl in *. split_and!; [done|done|]. intros ls' σ' Htr'.
  exact (ended_calls _ _ _ _ Htr' Hu He).
Qed.

(** ** Witnesses *)

Definition router4 : Router := mkRouter 4 false ∅ ∅ (Some no_routes) 1 ∅ (mkCounters 0 0 0 0 0 0).

(** A recorder subscribes to the camera's track, an analyser to everything and a third sink to another stream; the
    analyser's owner then lets go of it. *)
Definition router_ops : list ROp :=
  List.map RWorld camera_ops ++
  [RTryTrack 5 (mkRef 1 0) [114] true; RTry 6 empty_filter; RTry 7 (mkFilter 9 0 None [] [] 0); RExpire 6].

Definition camera_frame : EncodedFrameEvent := mkFrame (mkFrameSource 77 [] [] 0 1234 1) true.

Lemma router_ops_ok : Forall rop_ok router_ops.
Proof.
  apply Forall_app. split.
  - apply Forall_forall. intros op Hop. apply list_elem_of_fmap in Hop as (o & -> & Ho). simpl.
    pose proof camera_ops_ok as H. rewrite Forall_forall in H. auto.
  - repeat constructor; simpl; unfold is_u; lia.
Qed.

Lemma router_dispatch_exact_witness :
  exists w rt, rrun new_world router4 router_ops = Ret (w, rt) /\ Z.of_nat (size (slots_ rt)) <= max_subscriptions_ rt.
Proof.
  destruct (router_dispatch_exact 4 router4 router_ops) as (w & rt & H1 & H2 & _).
  - lia.
  - reflexivity.
  - exact router_ops_ok.
  - exists w, rt. split; [exact H1|exact H2].
Defined.

(** Only the recorder is called, two slots are examined. *)
Example router_camera_frame :
  match rrun new_world router4 router_ops with
  | Ret (w, rt) => let '(_, called, result) := Dispatch (heap w) rt camera_frame (fun _ => Taken) in Some (called, result)
  | _ => None
  end = Some ([1], (1, 0, 0, 2)).
Proof. vm_compute. reflexivity. Qed.

(** A publisher has found slot 1 active when the subscription ends. *)
Definition ex_router : Router :=
  match rstep new_world router4 (RTry 5 empty_filter) with Ret (_, rt) => rt | _ => router4 end.

Definition ex_system : System :=
  mkSystem new_world ex_router [mkPublisher (source camera_frame) [] (Some 1)].

Lemma ex_trace : ctrace (mkSystem new_world router4 []) [None; None; None] ex_system.
Proof.
  eapply trace_cons.
  { apply (c_control _ _ _ (RTry 5 empty_filter) new_world ex_router); [done|exact I|vm_compute; reflexivity]. }
  eapply trace_cons.
  { apply (c_load _ _ _ camera_frame (mkRoutes [1] ∅ ∅ ∅)); vm_compute; reflexivity. }
  eapply trace_cons; [|apply trace_nil].
  exact (c_check new_world ex_router [mkPublisher (source camera_frame) [1] None] 0 (source camera_frame) 1 [] eq_refl).
Qed.

Lemma router_unsubscribe_final_witness :
  let '(h', rt') := Unsubscribe (heap new_world) ex_router 1 in
  1 ∉ slots_ rt' /\
  forall ls' σ', ctrace (mkSystem (mkWorld h' new_registry) rt' (publishers ex_system)) ls' σ' -> calls 1 ls' <= 1.
Proof.
  pose proof (router_unsubscribe_final 4 router4 [None; None; None] ex_system 1 (mkSlot true 5 empty_filter None)) as H.
  specialize (H ltac:(lia) eq_refl ex_trace ltac:(vm_compute; reflexivity) ltac:(vm_compute; reflexivity)).
  simpl world in H. simpl router in H. simpl heap in *. destruct (Unsubscribe new_heap ex_router 1) as [h' rt'].
  destruct H as (H1 & _ & H2). split; [exact H1|exact H2].
Defined.
