(* ===== verification/Names.v ===== *)
(** * Names

    Identifiers of rooms, participants, tracks and media sections are [std::string] in the
    code; here they are lists of bytes. *)
From S2P Require Import Prelude.

Abbreviation str := (list Z).

(** [s.empty()] *)
Definition empty (s : str) : bool := match s with [] => true | _ => false end.

Lemma empty_false (s : str) : empty s = false <-> s <> [].
Proof. destruct s; naive_solver. Qed.

Lemma empty_true (s : str) : empty s = true <-> s = [].
Proof. destruct s; naive_solver. Qed.
