(* ===== verification/Participant.v ===== *)
(** * Participants of a room

    Models [Room/Participant.h] and [.cpp], [Room/ParticipantTypes.h] and
    [Room/ParticipantSession.h]: one member of a room with its signaling connection, its
    media sessions, the tracks it has published and the tracks it is subscribed to.

    A participant, a track publication, a media session and an SFU endpoint are shared
    objects, and the code compares pointers to them, so each is named by a number that
    stands for its address; [None] is the null pointer.  What an endpoint does when it is
    called is stated by the interface [SfuEndpointOps] (see [media/endpoint/SfuEndpoint.h]);
    [W] is the state of all endpoints.  Each method runs under the participant's mutex and
    is one step.  Callbacks that the owner installed are named by numbers too, and a method
    returns the callbacks it makes after releasing the mutex. *)
From S2P Require Import Prelude Names.

(** ** The endpoints, as the participants and the rooms use them *)

Class SfuEndpointOps (W : Type) := {
  ep_IsRunning : W -> Z -> bool;
  ep_PublishedPayloadType : W -> Z -> str -> option Z;
  ep_BindSsrc : W -> Z -> str -> Z -> W * bool;
  ep_Subscribe : W -> Z -> str -> Z -> str -> Z * Z -> W * bool;
  ep_Unsubscribe : W -> Z -> str -> W;
  ep_RemovePublishedTrack : W -> Z -> str -> W;
  ep_Stop : W -> Z -> W }.

(** ** Data *)

Inductive ParticipantState := Joining | Joined | Active | Disconnected | Reconnecting.

#[export] Instance ParticipantState_eq_dec : EqDecision ParticipantState.
Proof. solve_decision. Defined.

Record ParticipantIdentity := mkIdentity { participant_id : str; name : str; subject_id : str }.

Record SignalingBinding := mkSignaling { connection_id : str; generation : Z }.

#[export] Instance SignalingBinding_eq_dec : EqDecision SignalingBinding.
Proof. solve_decision. Defined.

Record ParticipantProperties := mkProperties { metadata : str; attributes : gmap str str }.

Record ParticipantPermissions := mkPermissions {
  can_publish : bool;
  can_subscribe : bool;
  room_admin : bool;
  can_update_own_metadata : bool }.

Inductive ParticipantSessionRole := Publish | Subscribe.

#[export] Instance ParticipantSessionRole_eq_dec : EqDecision ParticipantSessionRole.
Proof. solve_decision. Defined.

(** A session object never changes; [session_ptr] is its address. *)
Record ParticipantSession := mkSession {
  session_ptr : Z;
  session_id : Z;
  session_role : ParticipantSessionRole;
  session_endpoint : option Z }.

Record Participant := mkParticipant {
  identity_ : ParticipantIdentity;
  properties_ : ParticipantProperties;
  permissions_ : ParticipantPermissions;
  signaling_ : SignalingBinding;
  state_ : ParticipantState;
  legacy_endpoint_ : option Z;
  published_ : gmap str Z;
  subscribed_track_ids_ : gset str;
  publish_session_ : option ParticipantSession;
  subscribe_session_ : option ParticipantSession;
  on_track_published_ : option Z;
  on_track_unpublished_ : option Z;
  on_state_changed_ : option Z;
  on_leave_ : option Z }.

Record ParticipantInfo := mkInfo {
  info_identity : ParticipantIdentity;
  info_properties : ParticipantProperties;
  info_permissions : ParticipantPermissions;
  info_state : ParticipantState;
  info_signaling : SignalingBinding;
  media_session_id : Z;
  published_track_count : nat;
  subscribed_track_count : nat;
  publish_session_id : Z;
  subscribe_session_id : Z }.

(** The callbacks of a participant; [p] is the address of the participant. *)
Inductive Callback :=
| TrackPublishedCb (cb p track : Z)
| TrackUnpublishedCb (cb p track : Z)
| StateChangedCb (cb p : Z)
| LeaveCb (cb p : Z).

Definition no_properties : ParticipantProperties := mkProperties [] ∅.
Definition no_permissions : ParticipantPermissions := mkPermissions false false false false.
Definition no_signaling : SignalingBinding := mkSignaling [] 0.

Definition new_Participant (identity : ParticipantIdentity) (properties : ParticipantProperties)
    (permissions : ParticipantPermissions) : Participant :=
  mkParticipant identity properties permissions no_signaling Joining None ∅ ∅ None None None None None None.

Definition Participant_of (id name : str) : Participant :=
  new_Participant (mkIdentity id name []) no_properties no_permissions.

(** ** Setters of single members *)

Definition set_identity x p := mkParticipant x (properties_ p) (permissions_ p) (signaling_ p) (state_ p)
  (legacy_endpoint_ p) (published_ p) (subscribed_track_ids_ p) (publish_session_ p) (subscribe_session_ p)
  (on_track_published_ p) (on_track_unpublished_ p) (on_state_changed_ p) (on_leave_ p).
Definition set_signaling x p := mkParticipant (identity_ p) (properties_ p) (permissions_ p) x (state_ p)
  (legacy_endpoint_ p) (published_ p) (subscribed_track_ids_ p) (publish_session_ p) (subscribe_session_ p)
  (on_track_published_ p) (on_track_unpublished_ p) (on_state_changed_ p) (on_leave_ p).
Definition set_state x p := mkParticipant (identity_ p) (properties_ p) (permissions_ p) (signaling_ p) x
  (legacy_endpoint_ p) (published_ p) (subscribed_track_ids_ p) (publish_session_ p) (subscribe_session_ p)
  (on_track_published_ p) (on_track_unpublished_ p) (on_state_changed_ p) (on_leave_ p).
Definition set_legacy x p := mkParticipant (identity_ p) (properties_ p) (permissions_ p) (signaling_ p) (state_ p)
  x (published_ p) (subscribed_track_ids_ p) (publish_session_ p) (subscribe_session_ p)
  (on_track_published_ p) (on_track_unpublished_ p) (on_state_changed_ p) (on_leave_ p).
Definition set_published x p := mkParticipant (identity_ p) (properties_ p) (permissions_ p) (signaling_ p) (state_ p)
  (legacy_endpoint_ p) x (subscribed_track_ids_ p) (publish_session_ p) (subscribe_session_ p)
  (on_track_published_ p) (on_track_unpublished_ p) (on_state_changed_ p) (on_leave_ p).
Definition set_subscribed x p := mkParticipant (identity_ p) (properties_ p) (permissions_ p) (signaling_ p) (state_ p)
  (legacy_endpoint_ p) (published_ p) x (publish_session_ p) (subscribe_session_ p)
  (on_track_published_ p) (on_track_unpublished_ p) (on_state_changed_ p) (on_leave_ p).
Definition set_sessions x y p := mkParticipant (identity_ p) (properties_ p) (permissions_ p) (signaling_ p) (state_ p)
  (legacy_endpoint_ p) (published_ p) (subscribed_track_ids_ p) x y
  (on_track_published_ p) (on_track_unpublished_ p) (on_state_changed_ p) (on_leave_ p).
Definition set_callbacks a b c d p := mkParticipant (identity_ p) (properties_ p) (permissions_ p) (signaling_ p)
  (state_ p) (legacy_endpoint_ p) (published_ p) (subscribed_track_ids_ p) (publish_session_ p) (subscribe_session_ p)
  a b c d.

(** ** Reading *)

Definition Id (p : Participant) : str := participant_id (identity_ p).
Definition Name (p : Participant) : str := name (identity_ p).

Definition session_id_of (s : option ParticipantSession) : Z := match s with Some s => session_id s | None => 0 end.

Definition GetInfo (p : Participant) : ParticipantInfo :=
  let pub := session_id_of (publish_session_ p) in
  let sub := session_id_of (subscribe_session_ p) in
  mkInfo (identity_ p) (properties_ p) (permissions_ p) (state_ p) (signaling_ p)
    (match publish_session_ p, subscribe_session_ p with
     | Some _, Some _ => 0
     | _, _ => if negb (pub =? 0) then pub else sub
     end)
    (size (published_ p)) (size (subscribed_track_ids_ p)) pub sub.

Definition session_ep (s : option ParticipantSession) : option Z :=
  match s with Some s => session_endpoint s | None => None end.

Definition GetMediaSession (p : Participant) : option ParticipantSession :=
  match publish_session_ p, subscribe_session_ p with
  | Some _, Some _ => None
  | Some s, None => Some s
  | None, s => s
  end.

Definition GetEndpoint (p : Participant) : option Z :=
  match legacy_endpoint_ p with
  | Some e => Some e
  | None =>
    match session_ep (publish_session_ p), session_ep (subscribe_session_ p) with
    | Some a, Some b => if negb (a =? b) then None else Some a
    | Some a, None => Some a
    | None, b => b
    end
  end.

Definition GetPublishEndpoint (p : Participant) : option Z :=
  match publish_session_ p with Some s => session_endpoint s | None => legacy_endpoint_ p end.

Definition GetSubscribeEndpoint (p : Participant) : option Z :=
  match subscribe_session_ p with Some s => session_endpoint s | None => legacy_endpoint_ p end.

Definition HasMediaBinding (p : Participant) : bool :=
  bool_decide (is_Some (legacy_endpoint_ p)) || bool_decide (is_Some (publish_session_ p)) ||
  bool_decide (is_Some (subscribe_session_ p)).

Definition IsDisconnected (p : Participant) : bool := bool_decide (state_ p = Disconnected).
Definition IsActive (p : Participant) : bool := bool_decide (state_ p = Active).

Definition GetPublishedTrack (p : Participant) (track_id : str) : option Z := published_ p !! track_id.
Definition HasSubscribedTrack (p : Participant) (track_id : str) : bool := bool_decide (track_id ∈ subscribed_track_ids_ p).

(** ** The signaling connection *)

Definition BindSignaling (p : Participant) (connection : str) : Participant * bool :=
  if empty connection || IsDisconnected p || (generation (signaling_ p) =? 2 ^ 64 - 1) then (p, false)
  else (set_signaling (mkSignaling connection (generation (signaling_ p) + 1)) p, true).

Definition UnbindSignaling (p : Participant) (expected : SignalingBinding) : Participant * bool :=
  if empty (connection_id expected) || negb (bool_decide (connection_id expected = connection_id (signaling_ p))) ||
     negb (generation expected =? generation (signaling_ p)) then (p, false)
  else (set_signaling (mkSignaling [] (generation (signaling_ p))) p, true).

(** ** Names, state and callbacks *)

Definition SetName (p : Participant) (n : str) : Participant :=
  set_identity (mkIdentity (participant_id (identity_ p)) n (subject_id (identity_ p))) p.

Definition UpdateInfo (p : Participant) (n : str) (properties : ParticipantProperties)
    (permissions : ParticipantPermissions) : Participant :=
  let q := SetName p n in
  mkParticipant (identity_ q) properties permissions (signaling_ q) (state_ q)
    (legacy_endpoint_ q) (published_ q) (subscribed_track_ids_ q) (publish_session_ q) (subscribe_session_ q)
    (on_track_published_ q) (on_track_unpublished_ q) (on_state_changed_ q) (on_leave_ q).

(** [ptr] is the address of the participant itself, [shared_from_this()]. *)
Definition SetState (ptr : Z) (p : Participant) (s : ParticipantState) : Participant * list Callback :=
  if bool_decide (state_ p = s) then (p, [])
  else (set_state s p, match on_state_changed_ p with Some cb => [StateChangedCb cb ptr] | None => [] end).

Definition OnTrackPublished (p : Participant) (cb : option Z) : Participant :=
  set_callbacks cb (on_track_unpublished_ p) (on_state_changed_ p) (on_leave_ p) p.
Definition OnTrackUnpublished (p : Participant) (cb : option Z) : Participant :=
  set_callbacks (on_track_published_ p) cb (on_state_changed_ p) (on_leave_ p) p.
Definition OnStateChanged (p : Participant) (cb : option Z) : Participant :=
  set_callbacks (on_track_published_ p) (on_track_unpublished_ p) cb (on_leave_ p) p.
Definition OnLeave (p : Participant) (cb : option Z) : Participant :=
  set_callbacks (on_track_published_ p) (on_track_unpublished_ p) (on_state_changed_ p) cb p.

(** ** Tracks *)

(** [track] is the address of the publication and [sid] its id. *)
Definition AddPublishedTrack (ptr : Z) (p : Participant) (track : Z) (sid : str) (notify : bool)
    : Participant * bool * list Callback :=
  if empty sid then (p, false, []) else
  if bool_decide (is_Some (published_ p !! sid)) then (p, false, []) else
  (set_published (<[sid := track]> (published_ p)) p, true,
   match on_track_published_ p with Some cb => if notify then [TrackPublishedCb cb ptr track] else [] | None => [] end).

Definition NotifyTrackPublished (ptr : Z) (p : Participant) (track : Z) : list Callback :=
  match on_track_published_ p with Some cb => [TrackPublishedCb cb ptr track] | None => [] end.

Definition RemovePublishedTrack (ptr : Z) (p : Participant) (track_id : str) : Participant * bool * list Callback :=
  match published_ p !! track_id with
  | None => (p, false, [])
  | Some track =>
    (set_published (delete track_id (published_ p)) p, true,
     match on_track_unpublished_ p with Some cb => [TrackUnpublishedCb cb ptr track] | None => [] end)
  end.

Definition SubscribeTrack (p : Participant) (track_id : str) : Participant * bool :=
  if empty track_id then (p, false) else
  (set_subscribed ({[ track_id ]} ∪ subscribed_track_ids_ p) p, negb (bool_decide (track_id ∈ subscribed_track_ids_ p))).

Definition UnsubscribeTrack (p : Participant) (track_id : str) : Participant * bool :=
  (set_subscribed (subscribed_track_ids_ p ∖ {[ track_id ]}) p, bool_decide (track_id ∈ subscribed_track_ids_ p)).

(** ** Media sessions *)

Section Endpoints.
Context {W : Type} {EP : SfuEndpointOps W}.

(** [current && current != session]: another object is bound. *)
Definition bound_elsewhere (current : option ParticipantSession) (ptr : Z) : bool :=
  match current with Some s => negb (session_ptr s =? ptr) | None => false end.

Definition BindRoleSession (w : W) (p : Participant) (session : option ParticipantSession)
    (role : ParticipantSessionRole) : Participant * bool :=
  match session with
  | None => (p, false)
  | Some s =>
    match session_endpoint s with
    | None => (p, false)
    | Some e =>
      if negb (bool_decide (session_role s = role)) || (session_id s =? 0) || negb (ep_IsRunning w e) then (p, false) else
      let current := match role with Publish => publish_session_ p | Subscribe => subscribe_session_ p end in
      let other := match role with Publish => subscribe_session_ p | Subscribe => publish_session_ p end in
      if IsDisconnected p || bound_elsewhere current (session_ptr s) ||
         match other with Some o => session_id o =? session_id s | None => false end ||
         match legacy_endpoint_ p with Some l => negb (l =? e) | None => false end then (p, false) else
      (match role with
       | Publish => set_sessions (Some s) (subscribe_session_ p) p
       | Subscribe => set_sessions (publish_session_ p) (Some s) p
       end, true)
    end
  end.

Definition BindPublishSession (w : W) (p : Participant) (session : option ParticipantSession) : Participant * bool :=
  BindRoleSession w p session Publish.

Definition BindSubscribeSession (w : W) (p : Participant) (session : option ParticipantSession) : Participant * bool :=
  BindRoleSession w p session Subscribe.

Definition BindMediaSession (w : W) (p : Participant) (session : option ParticipantSession) : Participant * bool :=
  match session with
  | None => (p, false)
  | Some s => BindRoleSession w p session (session_role s)
  end.

Definition UnbindMediaSession (p : Participant) (expected : option ParticipantSession) : Participant * bool :=
  match expected with
  | None => (p, false)
  | Some s =>
    match session_role s with
    | Publish =>
      match publish_session_ p with
      | Some c => if negb (session_ptr c =? session_ptr s) then (p, false)
                  else (set_sessions None (subscribe_session_ p) p, true)
      | None => (p, false)
      end
    | Subscribe =>
      match subscribe_session_ p with
      | Some c => if negb (session_ptr c =? session_ptr s) then (p, false)
                  else (set_sessions (publish_session_ p) None p, true)
      | None => (p, false)
      end
    end
  end.

(** [session && session->Endpoint() != endpoint]; an absent endpoint differs. *)
Definition session_conflict (s : option ParticipantSession) (e : Z) : bool :=
  match s with Some s => negb (bool_decide (session_endpoint s = Some e)) | None => false end.

Definition BindEndpoint (w : W) (p : Participant) (endpoint : option Z) : Participant * bool :=
  match endpoint with
  | None => (p, false)
  | Some e =>
    if negb (ep_IsRunning w e) || IsDisconnected p ||
       match legacy_endpoint_ p with Some l => negb (l =? e) | None => false end ||
       session_conflict (publish_session_ p) e || session_conflict (subscribe_session_ p) e then (p, false)
    else (set_legacy (Some e) p, true)
  end.

(** ** Leaving *)

Definition stop_opt (w : W) (e : option Z) : W := match e with Some e => ep_Stop w e | None => w end.

(** Stops each of the three endpoints once. *)
Definition stop_endpoints (w : W) (published subscribed legacy : option Z) : W :=
  let w := stop_opt w published in
  let w := if bool_decide (subscribed = published) then w else stop_opt w subscribed in
  if bool_decide (legacy = published) || bool_decide (legacy = subscribed) then w else stop_opt w legacy.

Definition Leave (w : W) (ptr : Z) (p : Participant) : W * Participant * list Callback :=
  if IsDisconnected p then (w, p, []) else
  let w := stop_endpoints w (session_ep (publish_session_ p)) (session_ep (subscribe_session_ p)) (legacy_endpoint_ p) in
  let q := mkParticipant (identity_ p) (properties_ p) (permissions_ p)
             (mkSignaling [] (generation (signaling_ p))) Disconnected None ∅ ∅ None None
             (on_track_published_ p) (on_track_unpublished_ p) (on_state_changed_ p) (on_leave_ p) in
  (w, q, match on_leave_ p with Some cb => [LeaveCb cb ptr] | None => [] end).

End Endpoints.
