(* ===== verification/Room.v ===== *)
(** * Rooms

    Models [Room/Room.h] and [.cpp], [Room/RoomTypes.h], [Room/RoomCommand.h],
    [Room/TrackPublicationEvent.h], [Room/ParticipantEvent.h] and
    [media/track/TrackPublication.h]: who is in a room, which tracks they publish, who is
    subscribed to which track, the directory of rooms and the commands that drive them.

    A [World] holds the objects that rooms share with others: the participants and the
    track publications, by address, and the endpoints.  Every public method of [Room] runs
    under the room's mutex and is one step; what it does after releasing the mutex (the
    participant's own methods, events, callbacks) is done in the same order within the step,
    and events and callbacks are returned as a list.  The methods iterate over hash maps;
    [ord] is the order in which the iteration visits the keys.  [now] is the clock. *)
From S2P Require Import Prelude Names Participant.

(** ** Data *)

Inductive RoomState := RoomCreated | RoomActive | RoomEmpty | RoomClosed.

#[export] Instance RoomState_eq_dec : EqDecision RoomState.
Proof. solve_decision. Defined.

Record RoomOptions := mkOptions {
  max_participants : Z;
  empty_timeout_sec : Z;
  departure_timeout_sec : Z;
  auto_subscribe : bool }.

Definition default_options : RoomOptions := mkOptions 0 60 30 true.

Record RoomInfo := mkRoomInfo {
  room_id : str;
  room_name : str;
  created_at_ms : Z;
  first_joined_at_ms : Z;
  last_left_at_ms : Z;
  participant_count : Z;
  room_state : RoomState }.

(** The members of [TrackPublicationInfo] that the rooms and the signaling read; the others
    are copied along with them. *)
Record TrackPublicationInfo := mkPublication {
  sid : str;
  media_track : Z * Z;
  track_name : str;
  muted : bool;
  mimeType : str;
  version : Z }.

Definition setMuted (t : TrackPublicationInfo) (m : bool) : TrackPublicationInfo :=
  mkPublication (sid t) (media_track t) (track_name t) m (mimeType t) (u32 (version t + 1)).

Record PublishedTrackInfo := mkPublished {
  publication_id : Z;
  publisher_id : str;
  source_track_id : str;
  track : Z;
  ssrc : Z;
  payload_type : Z }.

Record SubscriptionInfo := mkSubscription { sub_subscriber : str; sub_publisher : str; sub_track : str }.

Record TrackPublicationSnapshot := mkTrackSnapshot {
  snap_room_id : str;
  snap_publisher_id : str;
  snap_publication_id : Z;
  snap_revision : Z;
  snap_track : TrackPublicationInfo }.

(** What a method hands to the outside, in order. *)
Inductive RoomEvent :=
| ParticipantChangedEvent (room : str) (revision : Z) (participant : ParticipantInfo) (removed : bool)
| TrackPublishedEvent (snapshot : TrackPublicationSnapshot)
| TrackUnpublishedEvent (snapshot : TrackPublicationSnapshot)
| OnParticipant (call : Callback)
| OnParticipantChanged (cb ptr : Z)
| OnRoomClosed (cb : Z) (room : str).

(** The event carries no connection. *)
Definition mk_ParticipantChangedEvent (room : str) (revision : Z) (i : ParticipantInfo) (removed : bool) : RoomEvent :=
  ParticipantChangedEvent room revision
    (mkInfo (info_identity i) (info_properties i) (info_permissions i) (info_state i) no_signaling
       (media_session_id i) (published_track_count i) (subscribed_track_count i) (publish_session_id i)
       (subscribe_session_id i)) removed.

Record Room := mkRoom {
  info_ : RoomInfo;
  options_ : RoomOptions;
  next_publication_id_ : Z;
  track_revision_ : Z;
  participant_revision_ : Z;
  participants_ : gmap str Z;
  published_tracks_ : gmap str PublishedTrackInfo;
  track_subscribers_ : gmap str (gset str);
  participant_subscriptions_ : gmap str (gset str);
  on_participant_changed_ : option Z;
  on_room_closed_ : option Z }.

Definition set_info x r := mkRoom x (options_ r) (next_publication_id_ r) (track_revision_ r)
  (participant_revision_ r) (participants_ r) (published_tracks_ r) (track_subscribers_ r)
  (participant_subscriptions_ r) (on_participant_changed_ r) (on_room_closed_ r).
Definition set_publication x r := mkRoom (info_ r) (options_ r) x (track_revision_ r)
  (participant_revision_ r) (participants_ r) (published_tracks_ r) (track_subscribers_ r)
  (participant_subscriptions_ r) (on_participant_changed_ r) (on_room_closed_ r).
Definition set_track_revision x r := mkRoom (info_ r) (options_ r) (next_publication_id_ r) x
  (participant_revision_ r) (participants_ r) (published_tracks_ r) (track_subscribers_ r)
  (participant_subscriptions_ r) (on_participant_changed_ r) (on_room_closed_ r).
Definition set_participant_revision x r := mkRoom (info_ r) (options_ r) (next_publication_id_ r) (track_revision_ r)
  x (participants_ r) (published_tracks_ r) (track_subscribers_ r)
  (participant_subscriptions_ r) (on_participant_changed_ r) (on_room_closed_ r).
Definition set_participants x r := mkRoom (info_ r) (options_ r) (next_publication_id_ r) (track_revision_ r)
  (participant_revision_ r) x (published_tracks_ r) (track_subscribers_ r)
  (participant_subscriptions_ r) (on_participant_changed_ r) (on_room_closed_ r).
Definition set_tracks x r := mkRoom (info_ r) (options_ r) (next_publication_id_ r) (track_revision_ r)
  (participant_revision_ r) (participants_ r) x (track_subscribers_ r)
  (participant_subscriptions_ r) (on_participant_changed_ r) (on_room_closed_ r).
Definition set_subscriptions x y r := mkRoom (info_ r) (options_ r) (next_publication_id_ r) (track_revision_ r)
  (participant_revision_ r) (participants_ r) (published_tracks_ r) x y
  (on_participant_changed_ r) (on_room_closed_ r).
Definition set_room_callbacks x y r := mkRoom (info_ r) (options_ r) (next_publication_id_ r) (track_revision_ r)
  (participant_revision_ r) (participants_ r) (published_tracks_ r) (track_subscribers_ r)
  (participant_subscriptions_ r) x y.

Definition set_room_state s r :=
  set_info (mkRoomInfo (room_id (info_ r)) (room_name (info_ r)) (created_at_ms (info_ r))
    (first_joined_at_ms (info_ r)) (last_left_at_ms (info_ r)) (participant_count (info_ r)) s) r.
Definition set_count n r :=
  set_info (mkRoomInfo (room_id (info_ r)) (room_name (info_ r)) (created_at_ms (info_ r))
    (first_joined_at_ms (info_ r)) (last_left_at_ms (info_ r)) n (room_state (info_ r))) r.
Definition set_first_joined t r :=
  set_info (mkRoomInfo (room_id (info_ r)) (room_name (info_ r)) (created_at_ms (info_ r))
    t (last_left_at_ms (info_ r)) (participant_count (info_ r)) (room_state (info_ r))) r.
Definition set_last_left t r :=
  set_info (mkRoomInfo (room_id (info_ r)) (room_name (info_ r)) (created_at_ms (info_ r))
    (first_joined_at_ms (info_ r)) t (participant_count (info_ r)) (room_state (info_ r))) r.

Definition new_Room (now : Z) (info : RoomInfo) (options : RoomOptions) : Room :=
  mkRoom (if created_at_ms info =? 0
          then mkRoomInfo (room_id info) (room_name info) now (first_joined_at_ms info) (last_left_at_ms info)
                 (participant_count info) (room_state info)
          else info)
    options 0 0 0 ∅ ∅ ∅ ∅ None None.

Section Rooms.
Context {W : Type} {EP : SfuEndpointOps W}.

Record World := mkWorld {
  people : gmap Z Participant;
  pubs : gmap Z TrackPublicationInfo;
  eps : W }.

Definition set_person (ptr : Z) (p : Participant) (w : World) : World := mkWorld (<[ptr := p]> (people w)) (pubs w) (eps w).
Definition set_eps (e : W) (w : World) : World := mkWorld (people w) (pubs w) e.

(** [participants_.find(id)], followed to the object. *)
Definition find_participant (r : Room) (w : World) (id : str) : option (Z * Participant) :=
  match participants_ r !! id with
  | Some ptr => match people w !! ptr with Some p => Some (ptr, p) | None => None end
  | None => None
  end.

Definition IsClosed (r : Room) : bool := bool_decide (room_state (info_ r) = RoomClosed).

(** [track->info()]; a published track's publication is never null. *)
Definition publication (w : World) (t : Z) : TrackPublicationInfo :=
  default (mkPublication [] (0, 0) [] false [] 0) (pubs w !! t).

Definition TrackSnapshotLocked (r : Room) (w : World) (track_id : str) (i : PublishedTrackInfo)
    : Room * TrackPublicationSnapshot :=
  let rev := u64 (track_revision_ r + 1) in
  let t := publication w (track i) in
  (set_track_revision rev r,
   mkTrackSnapshot (room_id (info_ r)) (publisher_id i) (publication_id i) rev
     (mkPublication track_id (media_track t) (track_name t) (muted t) (mimeType t) (version t))).

Definition UpdateStateLocked (r : Room) : Room :=
  let r := set_count (u32 (Z.of_nat (size (participants_ r)))) r in
  if IsClosed r then r
  else set_room_state (if bool_decide (participants_ r = ∅) then RoomEmpty else RoomActive) r.

Definition CanJoinLocked (r : Room) (p : Participant) : bool :=
  negb (IsClosed r) && negb (empty (Id p)) && negb (bool_decide (is_Some (participants_ r !! Id p))) &&
  negb ((0 <? max_participants (options_ r)) && (max_participants (options_ r) <=? Z.of_nat (size (participants_ r)))).

(** ** Subscriptions *)

Definition subs_of_track (r : Room) (t : str) : gset str := default ∅ (track_subscribers_ r !! t).
Definition subs_of_participant (r : Room) (p : str) : gset str := default ∅ (participant_subscriptions_ r !! p).

(** The route between the endpoints, when the participants have media. *)
Definition establish (w : World) (publisher subscriber : Participant) (track_id : str) (i : PublishedTrackInfo) : World * bool :=
  if HasMediaBinding publisher || HasMediaBinding subscriber then
    match GetPublishEndpoint publisher, GetSubscribeEndpoint subscriber with
    | Some source, Some destination =>
      let '(e, ok) := ep_Subscribe (eps w) destination track_id source (source_track_id i)
                        (media_track (publication w (track i))) in
      (set_eps e w, ok)
    | _, _ => (w, false)
    end
  else (w, true).

Definition SubscribeTrackLocked (r : Room) (w : World) (subscriber_id track_id : str) : Room * World * bool :=
  if empty subscriber_id || empty track_id then (r, w, false) else
  match find_participant r w subscriber_id, published_tracks_ r !! track_id with
  | Some (ptr, subscriber), Some i =>
    if bool_decide (publisher_id i = subscriber_id) then (r, w, false) else
    let subs := subs_of_track r track_id in
    let r1 := set_subscriptions (<[track_id := subs]> (track_subscribers_ r)) (participant_subscriptions_ r) r in
    if bool_decide (subscriber_id ∈ subs) then (r1, w, false) else
    match find_participant r w (publisher_id i) with
    | None => (r1, w, false)
    | Some (_, publisher) =>
      let '(w1, ok) := establish w publisher subscriber track_id i in
      if negb ok then (r1, w1, false) else
      (set_subscriptions (<[track_id := {[ subscriber_id ]} ∪ subs]> (track_subscribers_ r))
         (<[subscriber_id := {[ track_id ]} ∪ subs_of_participant r subscriber_id]> (participant_subscriptions_ r)) r,
       set_person ptr (fst (Participant.SubscribeTrack subscriber track_id)) w1, true)
    end
  | _, _ => (r, w, false)
  end.

(** Erases [x] from the set at [k] and the entry itself when nothing is left. *)
Definition erase_from (k x : str) (m : gmap str (gset str)) : gmap str (gset str) :=
  match m !! k with
  | None => m
  | Some s => if bool_decide (s ∖ {[ x ]} = ∅) then delete k m else <[k := s ∖ {[ x ]}]> m
  end.

Definition UnsubscribeTrackLocked (r : Room) (w : World) (subscriber_id track_id : str) : Room * World :=
  let r1 := set_subscriptions (erase_from track_id subscriber_id (track_subscribers_ r))
              (erase_from subscriber_id track_id (participant_subscriptions_ r)) r in
  match find_participant r w subscriber_id with
  | None => (r1, w)
  | Some (ptr, p) =>
    let w1 := match GetSubscribeEndpoint p with
              | Some e => set_eps (ep_Unsubscribe (eps w) e track_id) w
              | None => w
              end in
    (r1, set_person ptr (fst (Participant.UnsubscribeTrack p track_id)) w1)
  end.

(** [for (track_id : tracks) SubscribeTrackLocked(subscriber_id, track_id)] and the like. *)
Fixpoint subscribe_all (r : Room) (w : World) (pairs : list (str * str)) : Room * World :=
  match pairs with
  | [] => (r, w)
  | (p, t) :: pairs => let '(r, w, _) := SubscribeTrackLocked r w p t in subscribe_all r w pairs
  end.

Fixpoint unsubscribe_all (r : Room) (w : World) (pairs : list (str * str)) : Room * World :=
  match pairs with
  | [] => (r, w)
  | (p, t) :: pairs => let '(r, w) := UnsubscribeTrackLocked r w p t in unsubscribe_all r w pairs
  end.

Definition SubscribeTrack (r : Room) (w : World) (subscriber_id track_id : str) : Room * World * bool :=
  SubscribeTrackLocked r w subscriber_id track_id.

Definition UnsubscribeTrack (r : Room) (w : World) (subscriber_id track_id : str) : Room * World * bool :=
  let subscribed := bool_decide (track_id ∈ subs_of_participant r subscriber_id) in
  let '(r, w) := UnsubscribeTrackLocked r w subscriber_id track_id in (r, w, subscribed).

(** ** Membership *)

Definition NotifyParticipantChanged (r : Room) (w : World) (id : str) : Room * list RoomEvent :=
  match find_participant r w id with
  | None => (r, [])
  | Some (_, p) =>
    let rev := u64 (participant_revision_ r + 1) in
    (set_participant_revision rev r, [mk_ParticipantChangedEvent (room_id (info_ r)) rev (GetInfo p) false])
  end.

Definition UpdateParticipant (r : Room) (w : World) (id n : str) (properties : ParticipantProperties)
    (permissions : ParticipantPermissions) : Room * World * bool * list RoomEvent :=
  match find_participant r w id with
  | None => (r, w, false, [])
  | Some (ptr, p) =>
    let p := UpdateInfo p n properties permissions in
    let rev := u64 (participant_revision_ r + 1) in
    (set_participant_revision rev r, set_person ptr p w, true,
     [mk_ParticipantChangedEvent (room_id (info_ r)) rev (GetInfo p) false])
  end.

Definition changed_cb (r : Room) (ptr : Z) : list RoomEvent :=
  match on_participant_changed_ r with Some cb => [OnParticipantChanged cb ptr] | None => [] end.

(** The tracks of the others (or of one publisher), as the loops collect them. *)
Definition tracks_where (f : str -> bool) (r : Room) : list str :=
  List.filter (fun t => match published_tracks_ r !! t with Some i => f (publisher_id i) | None => false end)
    (elements (dom (published_tracks_ r))).

Definition Join (ord : list str -> list str) (now : Z) (r : Room) (w : World) (ptr : Z)
    : Room * World * bool * list RoomEvent :=
  match people w !! ptr with
  | None => (r, w, false, [])
  | Some p =>
    if negb (CanJoinLocked r p) then (r, w, false, []) else
    let id := Id p in
    let r := set_participants (<[id := ptr]> (participants_ r)) r in
    let r := if first_joined_at_ms (info_ r) =? 0 then set_first_joined now r else r in
    let tracks := if auto_subscribe (options_ r)
                  then ord (tracks_where (fun publisher => negb (bool_decide (publisher = id))) r) else [] in
    let '(r, w) := subscribe_all r w (List.map (fun t => (id, t)) tracks) in
    let r := UpdateStateLocked r in
    let cb := changed_cb r ptr in
    let p := default p (people w !! ptr) in
    let '(p, calls) := SetState ptr p Joined in
    let w := set_person ptr p w in
    let '(r, events) := NotifyParticipantChanged r w id in
    (r, w, true, List.map OnParticipant calls ++ events ++ cb)
  end.

(** The loop over the tracks of a participant that leaves. *)
Fixpoint remove_tracks (ord : list str -> list str) (r : Room) (w : World) (tracks : list str)
    : Room * World * list TrackPublicationSnapshot :=
  match tracks with
  | [] => (r, w, [])
  | t :: tracks =>
    let '(r, w) := unsubscribe_all r w (List.map (fun p => (p, t)) (ord (elements (subs_of_track r t)))) in
    match published_tracks_ r !! t with
    | None => (r, w, [])
    | Some i =>
      let '(r, snapshot) := TrackSnapshotLocked r w t i in
      let r := set_tracks (delete t (published_tracks_ r)) r in
      let r := set_subscriptions (delete t (track_subscribers_ r))
                 ((fun s : gset str => s ∖ {[ t ]}) <$> participant_subscriptions_ r) r in
      let '(r, w, snapshots) := remove_tracks ord r w tracks in
      (r, w, snapshot :: snapshots)
    end
  end.

Definition Leave (ord : list str -> list str) (now : Z) (r : Room) (w : World) (id : str)
    : Room * World * bool * list RoomEvent :=
  match find_participant r w id with
  | None => (r, w, false, [])
  | Some (ptr, p) =>
    let '(r, w) := unsubscribe_all r w (List.map (fun t => (id, t)) (ord (elements (subs_of_participant r id)))) in
    let '(r, w, removed) := remove_tracks ord r w (ord (tracks_where (fun publisher => bool_decide (publisher = id)) r)) in
    let r := set_participants (delete id (participants_ r)) r in
    let rev := u64 (participant_revision_ r + 1) in
    let r := UpdateStateLocked (set_last_left now (set_participant_revision rev r)) in
    let p := default p (people w !! ptr) in
    let '(e, p, calls) := Participant.Leave (eps w) ptr p in
    let w := set_person ptr p (set_eps e w) in
    (r, w, true, List.map OnParticipant calls ++
       [mk_ParticipantChangedEvent (room_id (info_ r)) rev (GetInfo p) true] ++
       List.map TrackUnpublishedEvent removed ++ changed_cb r ptr)
  end.

(** ** Publications *)

(** The publisher's endpoint, when it has one, must know the track. *)
Definition endpoint_accepts (w : World) (p : Participant) (endpoint_track_id : str) (ssrc payload_type : Z) : World * bool :=
  match GetPublishEndpoint p with
  | None => (w, negb (HasMediaBinding p))
  | Some e =>
    if negb (ep_IsRunning (eps w) e) then (w, false) else
    match ep_PublishedPayloadType (eps w) e endpoint_track_id with
    | None => (w, false)
    | Some pt =>
      if negb (pt =? payload_type) then (w, false) else
      if ssrc =? 0 then (w, true) else
      let '(x, ok) := ep_BindSsrc (eps w) e endpoint_track_id ssrc in (set_eps x w, ok)
    end
  end.

Definition PublishTrack (ord : list str -> list str) (r : Room) (w : World) (pid : str) (tr : Z) (ssrc payload_type : Z)
    (source : str) : Room * World * bool * list RoomEvent :=
  match pubs w !! tr with
  | None => (r, w, false, [])
  | Some publication =>
    let track_id := sid publication in
    if empty track_id then (r, w, false, []) else
    match find_participant r w pid with
    | None => (r, w, false, [])
    | Some (ptr, p) =>
      if IsClosed r then (r, w, false, []) else
      let endpoint_track_id := if empty source then track_id else source in
      if bool_decide (is_Some (published_tracks_ r !! track_id)) then (r, w, false, []) else
      let '(w, ok) := endpoint_accepts w p endpoint_track_id ssrc payload_type in
      if negb ok then (r, w, false, []) else
      let '(p, added, _) := AddPublishedTrack ptr p tr track_id false in
      if negb added then (r, w, false, []) else
      let w := set_person ptr p w in
      let number := u64 (next_publication_id_ r + 1) in
      let i := mkPublished number pid endpoint_track_id tr ssrc payload_type in
      let r := set_tracks (<[track_id := i]> (published_tracks_ r)) (set_publication number r) in
      let '(r, snapshot) := TrackSnapshotLocked r w track_id i in
      let others := if auto_subscribe (options_ r)
                    then ord (List.filter (fun q => negb (bool_decide (q = pid))) (elements (dom (participants_ r)))) else [] in
      let '(r, w) := subscribe_all r w (List.map (fun q => (q, track_id)) others) in
      (r, w, true, TrackPublishedEvent snapshot :: List.map OnParticipant (NotifyTrackPublished ptr p tr))
    end
  end.

Definition UnpublishTrack (ord : list str -> list str) (r : Room) (w : World) (track_id : str)
    : Room * World * bool * list RoomEvent :=
  if empty track_id then (r, w, false, []) else
  match published_tracks_ r !! track_id with
  | None => (r, w, false, [])
  | Some i =>
    let '(r, w) := unsubscribe_all r w (List.map (fun p => (p, track_id)) (ord (elements (subs_of_track r track_id)))) in
    let '(r, snapshot) := TrackSnapshotLocked r w track_id i in
    let r := set_tracks (delete track_id (published_tracks_ r)) r in
    match find_participant r w (publisher_id i) with
    | None => (r, w, true, [TrackUnpublishedEvent snapshot])
    | Some (ptr, p) =>
      let w := match GetPublishEndpoint p with
               | Some e => set_eps (ep_RemovePublishedTrack (eps w) e (source_track_id i)) w
               | None => w
               end in
      let '(p, _, calls) := RemovePublishedTrack ptr p track_id in
      (r, set_person ptr p w, true, List.map OnParticipant calls ++ [TrackUnpublishedEvent snapshot])
    end
  end.

(** ** Closing *)

Fixpoint snapshot_all (r : Room) (w : World) (tracks : list str) : Room * list TrackPublicationSnapshot :=
  match tracks with
  | [] => (r, [])
  | t :: tracks =>
    match published_tracks_ r !! t with
    | None => snapshot_all r w tracks
    | Some i =>
      let '(r, snapshot) := TrackSnapshotLocked r w t i in
      let '(r, snapshots) := snapshot_all r w tracks in (r, snapshot :: snapshots)
    end
  end.

Fixpoint leave_all (w : World) (ptrs : list Z) : World * list Callback :=
  match ptrs with
  | [] => (w, [])
  | ptr :: ptrs =>
    match people w !! ptr with
    | None => leave_all w ptrs
    | Some p =>
      let '(e, p, calls) := Participant.Leave (eps w) ptr p in
      let '(w, more) := leave_all (set_person ptr p (set_eps e w)) ptrs in (w, calls ++ more)
    end
  end.

Definition Close (ord : list str -> list str) (r : Room) (w : World) : Room * World * list RoomEvent :=
  if IsClosed r then (r, w, []) else
  let r := set_room_state RoomClosed r in
  let '(r, removed) := snapshot_all r w (ord (elements (dom (published_tracks_ r)))) in
  let ptrs := omap (fun id => participants_ r !! id) (ord (elements (dom (participants_ r)))) in
  let r := set_count 0 (set_subscriptions ∅ ∅ (set_tracks ∅ (set_participants ∅ r))) in
  let '(w, calls) := leave_all w ptrs in
  (r, w, List.map OnParticipant calls ++ List.map TrackUnpublishedEvent removed ++
     match on_room_closed_ r with Some cb => [OnRoomClosed cb (room_id (info_ r))] | None => [] end).

Definition SetOnParticipantChanged (cb : option Z) (r : Room) : Room := set_room_callbacks cb (on_room_closed_ r) r.
Definition SetOnRoomClosed (cb : option Z) (r : Room) : Room := set_room_callbacks (on_participant_changed_ r) cb r.

(** ** Queries *)

Definition GetParticipant (r : Room) (id : str) : option Z := participants_ r !! id.
Definition GetParticipants (ord : list str -> list str) (r : Room) : list Z :=
  omap (fun id => participants_ r !! id) (ord (elements (dom (participants_ r)))).
Definition ParticipantCount (r : Room) : nat := size (participants_ r).

Definition GetSubscriptionsByTrack (ord : list str -> list str) (r : Room) (track_id : str) : list SubscriptionInfo :=
  match published_tracks_ r !! track_id with
  | None => []
  | Some i => List.map (fun p => mkSubscription p (publisher_id i) track_id) (ord (elements (subs_of_track r track_id)))
  end.

Definition GetSubscriptionsBySubscriber (ord : list str -> list str) (r : Room) (subscriber_id : str) : list SubscriptionInfo :=
  omap (fun t => match published_tracks_ r !! t with
                 | Some i => Some (mkSubscription subscriber_id (publisher_id i) t)
                 | None => None
                 end) (ord (elements (subs_of_participant r subscriber_id))).

Definition GetSubscribers (ord : list str -> list str) (r : Room) (track_id : str) : list Z :=
  omap (fun id => participants_ r !! id) (ord (elements (subs_of_track r track_id))).

Definition ResolveTrackForSubscriber (r : Room) (subscriber_id track_id : str) : option Z :=
  if negb (bool_decide (track_id ∈ subs_of_participant r subscriber_id)) then None else
  match published_tracks_ r !! track_id with
  | None => None
  | Some i => Some (track i)
  end.

(** ** The directory of rooms and the commands *)

(** All objects: the rooms by address, the manager's directory, the others, and the next
    address for a new room or participant. *)
Record System := mkSystem { rooms : gmap Z Room; rooms_ : gmap str Z; world : World; next_ptr : Z }.

Definition set_room (ptr : Z) (r : Room) (w : World) (s : System) : System :=
  mkSystem (<[ptr := r]> (rooms s)) (rooms_ s) w (next_ptr s).

Definition GetOrCreateRoom (now : Z) (s : System) (id n : str) : System * option Z :=
  if empty id then (s, None) else
  let fresh := (mkSystem (<[next_ptr s := new_Room now (mkRoomInfo id n 0 0 0 0 RoomCreated) default_options]> (rooms s))
                  (<[id := next_ptr s]> (rooms_ s)) (world s) (next_ptr s + 1), Some (next_ptr s)) in
  match rooms_ s !! id with
  | None => fresh
  | Some ptr =>
    match rooms s !! ptr with
    | None => fresh
    | Some r => if IsClosed r then fresh else (s, Some ptr)
    end
  end.

Definition FindRoom (s : System) (id : str) : option Z := rooms_ s !! id.

Inductive RoomCommandType := CmdJoin | CmdLeave | CmdPublish | CmdSubscribe | CmdUnpublish | CmdUnsubscribe | CmdClose.

Record RoomCommand := mkCommand {
  cmd_type : RoomCommandType;
  cmd_room_id : str;
  cmd_room_name : str;
  cmd_participant_id : str;
  cmd_track_id : str;
  cmd_track : option Z;
  cmd_ssrc : Z;
  cmd_payload_type : Z }.

(** [std::make_shared<Participant>(id, id)] and [room->Join]. *)
Definition join_new (ord : list str -> list str) (now : Z) (s : System) (room : Z) (r : Room) (id : str)
    : System * Room * bool * list RoomEvent :=
  let ptr := next_ptr s in
  let w := set_person ptr (Participant_of id id) (world s) in
  let '(r, w, ok, events) := Join ord now r w ptr in
  (mkSystem (<[room := r]> (rooms s)) (rooms_ s) w (ptr + 1), r, ok, events).

Definition HandleJoin (ord : list str -> list str) (now : Z) (s : System) (room : Z) (r : Room) (cmd : RoomCommand)
    : System * list RoomEvent :=
  let id := cmd_participant_id cmd in
  if empty id then (s, []) else
  match GetParticipant r id with
  | Some _ => (s, [])
  | None => let '(s, _, _, events) := join_new ord now s room r id in (s, events)
  end.

(** Joins the participant first when it is not in the room. *)
Definition ensure_joined (ord : list str -> list str) (now : Z) (s : System) (room : Z) (r : Room) (id : str)
    : System * Room * bool * list RoomEvent :=
  match GetParticipant r id with
  | Some _ => (s, r, true, [])
  | None => join_new ord now s room r id
  end.

Definition HandlePublish (ord : list str -> list str) (now : Z) (s : System) (room : Z) (r : Room) (cmd : RoomCommand)
    : System * list RoomEvent :=
  let id := cmd_participant_id cmd in
  if empty id then (s, []) else
  match cmd_track cmd with
  | None => (s, [])
  | Some tr =>
    let '(s, r, ok, events) := ensure_joined ord now s room r id in
    if negb ok then (s, events) else
    let '(r, w, _, more) := PublishTrack ord r (world s) id tr (cmd_ssrc cmd) (cmd_payload_type cmd) [] in
    (set_room room r w s, events ++ more)
  end.

Definition HandleSubscribe (ord : list str -> list str) (now : Z) (s : System) (room : Z) (r : Room) (cmd : RoomCommand)
    : System * list RoomEvent :=
  let id := cmd_participant_id cmd in
  if empty id || empty (cmd_track_id cmd) then (s, []) else
  let '(s, r, ok, events) := ensure_joined ord now s room r id in
  if negb ok then (s, events) else
  let '(r, w, _) := SubscribeTrack r (world s) id (cmd_track_id cmd) in
  (set_room room r w s, events).

Definition creates (t : RoomCommandType) : bool := match t with CmdJoin | CmdPublish => true | _ => false end.

Definition Handle (ord : list str -> list str) (now : Z) (s : System) (cmd : RoomCommand) : System * list RoomEvent :=
  let '(s, found) := if creates (cmd_type cmd) then GetOrCreateRoom now s (cmd_room_id cmd) (cmd_room_name cmd)
                     else (s, FindRoom s (cmd_room_id cmd)) in
  match found with
  | None => (s, [])
  | Some room =>
    match rooms s !! room with
    | None => (s, [])
    | Some r =>
      match cmd_type cmd with
      | CmdJoin => HandleJoin ord now s room r cmd
      | CmdPublish => HandlePublish ord now s room r cmd
      | CmdSubscribe => HandleSubscribe ord now s room r cmd
      | CmdLeave =>
        let '(r, w, _, events) := Leave ord now r (world s) (cmd_participant_id cmd) in (set_room room r w s, events)
      | CmdUnpublish =>
        let '(r, w, _, events) := UnpublishTrack ord r (world s) (cmd_track_id cmd) in (set_room room r w s, events)
      | CmdUnsubscribe =>
        let '(r, w, _) := UnsubscribeTrack r (world s) (cmd_participant_id cmd) (cmd_track_id cmd) in
        (set_room room r w s, [])
      | CmdClose => let '(r, w, events) := Close ord r (world s) in (set_room room r w s, events)
      end
    end
  end.

End Rooms.
Arguments World : clear implicits.
Arguments System : clear implicits.
