(* ===== verification/RoomInv.v ===== *)
(** * The tables of a room

    The invariant that ties together the tables of [Room.v] and the participants' own
    records, and the lemmas that each internal operation of a room preserves it.  [gone]
    names participants of whose own lists of tracks nothing is said: one that is leaving, one
    that joined with tracks, one whose track methods others than the room have called. *)
From S2P Require Import Prelude Names Participant Room.

Record tables_ok (gone : gset str) (r : Room) (ps : gmap Z Participant) : Prop := mkTablesOk {
  ok_member : forall id ptr, participants_ r !! id = Some ptr ->
    id <> [] /\ exists p, ps !! ptr = Some p /\ Id p = id /\
      (id ∉ gone -> subscribed_track_ids_ p = subs_of_participant r id);
  ok_track : forall t i, published_tracks_ r !! t = Some i ->
    t <> [] /\ exists ptr p, participants_ r !! publisher_id i = Some ptr /\ ps !! ptr = Some p /\
      (publisher_id i ∉ gone -> published_ p !! t = Some (track i));
  ok_pub : forall id ptr p t tr, id ∉ gone -> participants_ r !! id = Some ptr -> ps !! ptr = Some p ->
    published_ p !! t = Some tr -> exists i, published_tracks_ r !! t = Some i /\ publisher_id i = id /\ track i = tr;
  ok_inverse : forall p t, p ∈ subs_of_track r t <-> t ∈ subs_of_participant r p;
  ok_sub : forall p t, p ∈ subs_of_track r t ->
    is_Some (participants_ r !! p) /\ exists i, published_tracks_ r !! t = Some i /\ publisher_id i <> p;
  ok_full : forall p s, participant_subscriptions_ r !! p = Some s -> s <> ∅ }.

Arguments ok_member {gone r ps}.
Arguments ok_track {gone r ps}.
Arguments ok_pub {gone r ps}.
Arguments ok_inverse {gone r ps}.
Arguments ok_sub {gone r ps}.
Arguments ok_full {gone r ps}.

(** Two members are two objects. *)
Lemma members_differ gone r ps a b ptr :
  tables_ok gone r ps -> participants_ r !! a = Some ptr -> participants_ r !! b = Some ptr -> a = b.
Proof.
  intros OK Ha Hb. destruct (ok_member OK _ _ Ha) as (_ & p & Hp & <- & _).
  destruct (ok_member OK _ _ Hb) as (_ & q & Hq & <- & _). congruence.
Qed.

(** ** Sets in maps *)

Definition at_key (k : str) (m : gmap str (gset str)) : gset str := default ∅ (m !! k).

Lemma at_insert k j s m : at_key j (<[k := s]> m) = if decide (j = k) then s else at_key j m.
Proof.
  unfold at_key. destruct (decide (j = k)) as [->|Hne]; [by rewrite lookup_insert_eq|].
  by rewrite lookup_insert_ne by done.
Qed.

Lemma at_delete k j m : at_key j (delete k m) = if decide (j = k) then ∅ else at_key j m.
Proof.
  unfold at_key. destruct (decide (j = k)) as [->|Hne]; [by rewrite lookup_delete_eq|].
  by rewrite lookup_delete_ne by done.
Qed.

Lemma at_erase_from k x j m :
  at_key j (erase_from k x m) = if decide (j = k) then at_key k m ∖ {[ x ]} else at_key j m.
Proof.
  unfold erase_from. destruct (m !! k) as [s|] eqn:E.
  - assert (at_key k m = s) as -> by (unfold at_key; by rewrite E).
    case_bool_decide as Hs; [rewrite at_delete | rewrite at_insert]; destruct (decide (j = k)); done.
  - destruct (decide (j = k)) as [->|]; [|done]. unfold at_key. rewrite E. simpl. set_solver.
Qed.

Definition no_empty (m : gmap str (gset str)) : Prop := forall k s, m !! k = Some s -> s <> ∅.

Lemma no_empty_erase k x m : no_empty m -> no_empty (erase_from k x m).
Proof.
  unfold erase_from. intros N. destruct (m !! k) as [s|] eqn:E; [|done].
  case_bool_decide as Hs.
  - intros j s' Hj. apply lookup_delete_Some in Hj as [_ Hj]. by eapply N.
  - intros j s' Hj. apply lookup_insert_Some in Hj as [[<- <-]|[_ Hj]]; [done|by eapply N].
Qed.

Lemma no_empty_add k x m : no_empty m -> no_empty (<[k := {[ x ]} ∪ at_key k m]> m).
Proof.
  intros N j s Hj. apply lookup_insert_Some in Hj as [[<- <-]|[_ Hj]]; [set_solver|by eapply N].
Qed.

(** ** Updating a person *)

(** The record of [q] says the same about tracks as that of [p]. *)
Definition same_tracks (p q : Participant) : Prop :=
  Id q = Id p /\ published_ q = published_ p /\ subscribed_track_ids_ q = subscribed_track_ids_ p.

Lemma person_ok gone r ps ptr p q :
  tables_ok gone r ps -> ps !! ptr = Some p -> same_tracks p q -> tables_ok gone r (<[ptr := q]> ps).
Proof.
  intros OK Hp (Hid & Hpub & Hsub). destruct OK as [M T P I S F]. constructor; try done.
  - intros id x Hx. destruct (M _ _ Hx) as (Hne & p' & Hp' & Hi & Hs). split; [done|].
    destruct (decide (ptr = x)) as [->|Hd].
    + exists q. rewrite lookup_insert_eq. simplify_eq. by rewrite Hid, Hsub.
    + exists p'. by rewrite lookup_insert_ne.
  - intros t i Ht. destruct (T _ _ Ht) as (Hne & x & p' & Hx & Hp' & Hi). split; [done|].
    destruct (decide (ptr = x)) as [->|Hd].
    + exists x, q. rewrite lookup_insert_eq, Hpub. by simplify_eq.
    + exists x, p'. by rewrite lookup_insert_ne.
  - intros id x p' t tr Hg Hx Hp' Ht. destruct (decide (ptr = x)) as [->|Hd].
    + rewrite lookup_insert_eq in Hp'. simplify_eq. rewrite Hpub in Ht. by eapply P.
    + rewrite lookup_insert_ne in Hp' by done. by eapply P.
Qed.

(** Objects that are not members do not matter. *)
Lemma stranger_ok gone r ps ptr q :
  tables_ok gone r ps -> (forall id, participants_ r !! id <> Some ptr) -> tables_ok gone r (<[ptr := q]> ps).
Proof.
  intros [M T P I S F] Hs. constructor; try done.
  - intros id x Hx. destruct (M _ _ Hx) as (Hne & p' & Hp' & Hi). split; [done|].
    exists p'. rewrite lookup_insert_ne; [done|]. intros ->. by apply (Hs id).
  - intros t i Ht. destruct (T _ _ Ht) as (Hne & x & p' & Hx & Hp'). split; [done|].
    exists x, p'. rewrite lookup_insert_ne; [done|]. intros ->. by eapply Hs.
  - intros id x p' t tr Hg Hx Hp' Ht. rewrite lookup_insert_ne in Hp' by (intros ->; by eapply Hs). by eapply P.
Qed.

(** ** Changing the subscriptions of one member *)

Lemma subs_ok gone r ps a b s ptr p q :
  tables_ok gone r ps ->
  participants_ r !! s = Some ptr -> ps !! ptr = Some p ->
  Id q = Id p -> published_ q = published_ p ->
  let r' := set_subscriptions a b r in
  (s ∉ gone -> subscribed_track_ids_ q = subs_of_participant r' s) ->
  (forall x, x <> s -> subs_of_participant r' x = subs_of_participant r x) ->
  (forall x t, x ∈ subs_of_track r' t <-> t ∈ subs_of_participant r' x) ->
  (forall t, s ∈ subs_of_track r' t -> exists i, published_tracks_ r !! t = Some i /\ publisher_id i <> s) ->
  no_empty b ->
  tables_ok gone r' (<[ptr := q]> ps).
Proof.
  intros OK Hs Hp Hid Hpub r' Hq Hx HI Ht Hb. subst r'.
  pose proof (fun x => members_differ _ _ _ x s ptr OK) as Hdiff.
  destruct OK as [M T P I S F]. constructor; simpl; try done.
  - intros id x Hid'. destruct (M _ _ Hid') as (Hne & p' & Hp' & Hi & Hsub). split; [done|].
    destruct (decide (ptr = x)) as [<-|Hd].
    + exists q. rewrite lookup_insert_eq. assert (id = s) as -> by (by apply Hdiff).
      split; [done|]. split; [congruence|done].
    + exists p'. rewrite lookup_insert_ne by done. split; [done|]. split; [done|].
      rewrite Hx; [done|]. intros ->. congruence.
  - intros t i Hi. destruct (T _ _ Hi) as (Hne & x & p' & Hx' & Hp' & Hpt). split; [done|].
    destruct (decide (ptr = x)) as [<-|Hd].
    + exists ptr, q. rewrite lookup_insert_eq, Hpub. by simplify_eq.
    + exists x, p'. by rewrite lookup_insert_ne.
  - intros id x p' t tr Hg Hx' Hp' Hpt. destruct (decide (ptr = x)) as [<-|Hd].
    + rewrite lookup_insert_eq in Hp'. simplify_eq. rewrite Hpub in Hpt. by eapply P.
    + rewrite lookup_insert_ne in Hp' by done. by eapply P.
  - intros x t Hin. destruct (decide (x = s)) as [->|Hne].
    + split; [by exists ptr|]. by apply Ht.
    + apply HI in Hin. rewrite Hx in Hin by done. apply I in Hin. by apply S.
Qed.

Section Locked.
Context {W : Type} {EP : SfuEndpointOps W}.
Implicit Types (r : Room) (w : World W).

Lemma find_participant_Some r w id ptr p :
  find_participant r w id = Some (ptr, p) <-> participants_ r !! id = Some ptr /\ people w !! ptr = Some p.
Proof.
  unfold find_participant. destruct (participants_ r !! id) as [x|] eqn:E; [|naive_solver].
  destruct (people w !! x) eqn:E'; naive_solver.
Qed.

(** Under the invariant a member is found exactly when its id is listed. *)
Lemma find_participant_None gone r w id :
  tables_ok gone r (people w) -> find_participant r w id = None <-> participants_ r !! id = None.
Proof.
  intros OK. unfold find_participant. destruct (participants_ r !! id) as [x|] eqn:E; [|done].
  destruct (ok_member OK _ _ E) as (_ & p & -> & _). naive_solver.
Qed.

Lemma establish_people w a b t i w' ok : establish w a b t i = (w', ok) -> people w' = people w /\ pubs w' = pubs w.
Proof.
  unfold establish. intros H. repeat case_match; simplify_eq/=; done.
Qed.

Lemma sub_track_eq r a b t : subs_of_track (set_subscriptions a b r) t = at_key t a.
Proof. done. Qed.

Lemma sub_part_eq r a b p : subs_of_participant (set_subscriptions a b r) p = at_key p b.
Proof. done. Qed.

(** What one attempt to subscribe does to the tables. *)
Lemma subscribe_effect r w s t r' w' ok gone :
  tables_ok gone r (people w) -> SubscribeTrackLocked r w s t = (r', w', ok) ->
  (exists a b, r' = set_subscriptions a b r) /\ pubs w' = pubs w /\
  tables_ok gone r' (people w') /\
  (forall x u, x ∈ subs_of_track r' u <-> x ∈ subs_of_track r u \/ (ok = true /\ x = s /\ u = t)).
Proof.
  intros OK. unfold SubscribeTrackLocked.
  assert (r = set_subscriptions (track_subscribers_ r) (participant_subscriptions_ r) r) as Hr by (by destruct r).
  assert (Hsame : forall w0, people w0 = people w -> pubs w0 = pubs w ->
    (exists a b, r = set_subscriptions a b r) /\ pubs w0 = pubs w /\ tables_ok gone r (people w0) /\
    (forall x u, x ∈ subs_of_track r u <-> x ∈ subs_of_track r u \/ (false = true /\ x = s /\ u = t))).
  { intros w0 -> ->. split; [by eauto|]. split; [done|]. split; [done|]. naive_solver. }
  destruct (empty s || empty t) eqn:Ee; [intros [= <- <- <-]; by apply Hsame|]. bool_hyps.
  destruct (find_participant r w s) as [[ptr p]|] eqn:Ef; [|intros [= <- <- <-]; by apply Hsame].
  destruct (published_tracks_ r !! t) as [i|] eqn:Et; [|intros [= <- <- <-]; by apply Hsame].
  case_bool_decide as Hpub; [intros [= <- <- <-]; by apply Hsame|].
  apply find_participant_Some in Ef as [Hs Hp].
  set (r1 := set_subscriptions (<[t:=subs_of_track r t]> (track_subscribers_ r)) (participant_subscriptions_ r) r).
  assert (Hsot : forall u, subs_of_track r1 u = subs_of_track r u).
  { intros u. unfold r1. rewrite sub_track_eq, at_insert. by destruct (decide (u = t)) as [->|]. }
  assert (Hleft : forall w0, people w0 = people w -> pubs w0 = pubs w ->
    (exists a b, r1 = set_subscriptions a b r) /\ pubs w0 = pubs w /\ tables_ok gone r1 (people w0) /\
    (forall x u, x ∈ subs_of_track r1 u <-> x ∈ subs_of_track r u \/ (false = true /\ x = s /\ u = t))).
  { intros w0 -> ->. split; [by eexists _, _|]. split; [done|]. split.
    - destruct OK as [M T P I S F]. constructor; try done; setoid_rewrite Hsot; done.
    - intros x u. rewrite Hsot. naive_solver. }
  case_bool_decide as Hin; [intros [= <- <- <-]; by apply Hleft|].
  destruct (find_participant r w (publisher_id i)) as [[pptr pp]|] eqn:Epp; [|intros [= <- <- <-]; by apply Hleft].
  destruct (establish w pp p t i) as [w1 ok1] eqn:Eest. apply establish_people in Eest as [Hw1 Hpw1].
  destruct ok1; simpl; [|intros [= <- <- <-]; by apply Hleft].
  intros [= <- <- <-]. simpl. split; [by eexists _, _|]. split; [done|].
  assert (Hmem : forall x u, x ∈ at_key u (<[t:={[s]} ∪ subs_of_track r t]> (track_subscribers_ r)) <->
    x ∈ subs_of_track r u \/ (true = true /\ x = s /\ u = t)).
  { intros x u. rewrite at_insert. destruct (decide (u = t)) as [->|Hu]; [clear; set_solver|].
    change (at_key u (track_subscribers_ r)) with (subs_of_track r u). naive_solver. }
  assert (Hpart : forall x u, u ∈ at_key x (<[s:={[t]} ∪ subs_of_participant r s]> (participant_subscriptions_ r)) <->
    x ∈ subs_of_track r u \/ (true = true /\ x = s /\ u = t)).
  { intros x u. rewrite at_insert. rewrite (ok_inverse OK). destruct (decide (x = s)) as [->|Hu]; [clear; set_solver|].
    change (at_key x (participant_subscriptions_ r)) with (subs_of_participant r x). naive_solver. }
  split; [|done].
  rewrite Hw1. apply subs_ok with (s := s) (p := p); try done.
  - unfold Participant.SubscribeTrack. by destruct (empty t).
  - unfold Participant.SubscribeTrack. by destruct (empty t).
  - intros Hg. unfold Participant.SubscribeTrack. destruct (empty t) eqn:E0; [congruence|]. simpl.
    rewrite sub_part_eq, at_insert. destruct (decide (s = s)); [|done].
    destruct (ok_member OK _ _ Hs) as (_ & p' & Hp' & _ & Hsub). simplify_eq. by rewrite (Hsub Hg).
  - intros x Hx. rewrite sub_part_eq, at_insert. by destruct (decide (x = s)).
  - intros x u. rewrite sub_track_eq, sub_part_eq, Hmem, Hpart. done.
  - intros u. rewrite sub_track_eq, Hmem. intros [Hu|(_ & _ & ->)]; [by apply (ok_sub OK)|]. by exists i.
  - apply no_empty_add. intros k x. apply (ok_full OK).
Qed.

(** What one removal does to the tables. *)
Lemma unsubscribe_effect r w s t r' w' gone :
  tables_ok gone r (people w) -> UnsubscribeTrackLocked r w s t = (r', w') ->
  (exists a b, r' = set_subscriptions a b r) /\ pubs w' = pubs w /\
  tables_ok gone r' (people w') /\
  (forall x u, x ∈ subs_of_track r' u <-> x ∈ subs_of_track r u /\ ~ (x = s /\ u = t)).
Proof.
  intros OK. unfold UnsubscribeTrackLocked.
  set (r1 := set_subscriptions _ _ r).
  assert (Hmem : forall x u, x ∈ subs_of_track r1 u <-> x ∈ subs_of_track r u /\ ~ (x = s /\ u = t)).
  { intros x u. unfold r1. rewrite sub_track_eq, at_erase_from. destruct (decide (u = t)) as [->|Hu].
    - change (at_key t (track_subscribers_ r)) with (subs_of_track r t). clear. set_solver.
    - change (at_key u (track_subscribers_ r)) with (subs_of_track r u). naive_solver. }
  assert (Hpart : forall x u, u ∈ subs_of_participant r1 x <-> x ∈ subs_of_track r u /\ ~ (x = s /\ u = t)).
  { intros x u. unfold r1. rewrite sub_part_eq, at_erase_from, (ok_inverse OK). destruct (decide (x = s)) as [->|Hu].
    - change (at_key s (participant_subscriptions_ r)) with (subs_of_participant r s). set_solver.
    - change (at_key x (participant_subscriptions_ r)) with (subs_of_participant r x). naive_solver. }
  assert (Hfull : no_empty (participant_subscriptions_ r1)).
  { apply no_empty_erase. intros k x. apply (ok_full OK). }
  destruct (find_participant r w s) as [[ptr p]|] eqn:Ef.
  - apply find_participant_Some in Ef as [Hs Hp]. intros [= <- <-]. split; [by eexists _, _|].
    assert (people match GetSubscribeEndpoint p with Some e => set_eps (ep_Unsubscribe (eps w) e t) w | None => w end
      = people w) as Hw by (by destruct (GetSubscribeEndpoint p)).
    split; [simpl; by destruct (GetSubscribeEndpoint p)|]. split; [|done].
    simpl. rewrite Hw. apply subs_ok with (s := s) (p := p); try done.
    + intros Hg. simpl. rewrite sub_part_eq, at_erase_from. destruct (decide (s = s)); [|done].
      destruct (ok_member OK _ _ Hs) as (_ & p' & Hp' & _ & Hsub). simplify_eq. by rewrite (Hsub Hg).
    + intros x Hx. rewrite sub_part_eq, at_erase_from. by destruct (decide (x = s)).
    + intros x u. fold r1. rewrite Hmem, Hpart. done.
    + intros u. fold r1. rewrite Hmem. intros [Hu _]. by apply (ok_sub OK).
  - apply (find_participant_None _ _ _ _ OK) in Ef. intros [= <- <-]. split; [by eexists _, _|]. split; [done|].
    split; [|done]. pose proof OK as [M T P I S F].
    assert (Hno : forall u, s ∉ subs_of_track r u) by (intros u Hu; destruct (S _ _ Hu) as [[? ?] _]; congruence).
    assert (Hs : forall x, subs_of_participant r1 x = subs_of_participant r x).
    { intros x. apply set_eq. intros u. rewrite Hpart, I. split; [naive_solver|].
      intros Hu. split; [done|]. intros [-> _]. apply I in Hu. by apply (Hno u). }
    constructor; try done.
    + intros id ptr. rewrite Hs. apply M.
    + intros x u. by rewrite Hmem, Hpart.
    + intros x u. rewrite Hmem. intros [Hu _]. by apply S.
Qed.

End Locked.
