(* ===== verification/RoomLoops.v ===== *)
(** * The loops of a room

    What the loops of [Join], [Leave], [PublishTrack], [UnpublishTrack] and [Close] do to
    the tables of the room and to the participants, by induction on the visited keys. *)
From S2P Require Import Prelude Names Participant Room RoomInv.

(** Only the members' own subscription sets may differ. *)
Definition people_frame (r : Room) (ps ps' : gmap Z Participant) : Prop :=
  forall ptr, ps' !! ptr = ps !! ptr \/
    (exists id, participants_ r !! id = Some ptr) /\ exists p x, ps !! ptr = Some p /\ ps' !! ptr = Some (set_subscribed x p).

(** Only the subscriptions may differ. *)
Definition only_subs (r r' : Room) : Prop := exists a b, r' = set_subscriptions a b r.

Lemma only_subs_refl r : only_subs r r.
Proof. exists (track_subscribers_ r), (participant_subscriptions_ r). by destruct r. Qed.

Lemma only_subs_trans r1 r2 r3 : only_subs r1 r2 -> only_subs r2 r3 -> only_subs r1 r3.
Proof. intros (a & b & ->) (c & d & ->). by exists c, d. Qed.

Lemma only_subs_fields r r' : only_subs r r' ->
  participants_ r' = participants_ r /\ published_tracks_ r' = published_tracks_ r /\ info_ r' = info_ r /\
  options_ r' = options_ r /\ next_publication_id_ r' = next_publication_id_ r /\
  track_revision_ r' = track_revision_ r /\ participant_revision_ r' = participant_revision_ r /\
  on_participant_changed_ r' = on_participant_changed_ r /\ on_room_closed_ r' = on_room_closed_ r.
Proof. intros (a & b & ->). done. Qed.

Lemma people_frame_refl r ps : people_frame r ps ps.
Proof. intros ptr. by left. Qed.

Lemma people_frame_trans r r' ps ps' ps'' :
  participants_ r' = participants_ r -> people_frame r ps ps' -> people_frame r' ps' ps'' -> people_frame r ps ps''.
Proof.
  intros Hr H1 H2 ptr. destruct (H2 ptr) as [->|(Hm & p & x & Hp & ->)]; [apply H1|].
  rewrite Hr in Hm. destruct (H1 ptr) as [E|(_ & q & y & Hq & E)].
  - right. split; [done|]. rewrite E in Hp. by exists p, x.
  - right. split; [done|]. rewrite E in Hp. simplify_eq. exists q, x. split; [done|]. by destruct q.
Qed.

(** The frame in terms of a single person. *)
Lemma people_frame_person r ps ps' ptr p :
  people_frame r ps ps' -> ps !! ptr = Some p -> exists x, ps' !! ptr = Some (set_subscribed x p).
Proof.
  intros H Hp. destruct (H ptr) as [->|(_ & q & x & Hq & ->)].
  - exists (subscribed_track_ids_ p). rewrite Hp. by destruct p.
  - simplify_eq. by exists x.
Qed.

Section Loops.
Context {W : Type} {EP : SfuEndpointOps W}.
Implicit Types (r : Room) (w : World W).

Lemma subscribe_frame r w s t r' w' ok :
  SubscribeTrackLocked r w s t = (r', w', ok) -> people_frame r (people w) (people w').
Proof.
  unfold SubscribeTrackLocked. intros H.
  destruct (empty s || empty t) eqn:E; [simplify_eq; apply people_frame_refl|].
  destruct (find_participant r w s) as [[ptr p]|] eqn:Ef; [|simplify_eq; apply people_frame_refl].
  destruct (published_tracks_ r !! t) as [i|]; [|simplify_eq; apply people_frame_refl].
  do 2 (case_bool_decide; [simplify_eq; apply people_frame_refl|]).
  destruct (find_participant r w (publisher_id i)) as [[pptr pp]|]; [|simplify_eq; apply people_frame_refl].
  destruct (establish w pp p t i) as [w1 ok1] eqn:Eest. apply establish_people in Eest as [Hw1 _].
  destruct ok1; simplify_eq/=; [|rewrite Hw1; apply people_frame_refl].
  apply find_participant_Some in Ef as [Hs Hp]. rewrite Hw1. intros x.
  destruct (decide (ptr = x)) as [<-|]; [|left; by rewrite lookup_insert_ne].
  right. split; [by eexists|]. exists p. unfold Participant.SubscribeTrack. bool_hyps.
  destruct (empty t); [done|]. eexists. split; [done|]. apply lookup_insert_eq.
Qed.

Lemma unsubscribe_frame r w s t r' w' :
  UnsubscribeTrackLocked r w s t = (r', w') -> people_frame r (people w) (people w').
Proof.
  unfold UnsubscribeTrackLocked. intros H.
  destruct (find_participant r w s) as [[ptr p]|] eqn:Ef; [|simplify_eq; apply people_frame_refl].
  apply find_participant_Some in Ef as [Hs Hp]. simplify_eq/=. intros x.
  assert (people match GetSubscribeEndpoint p with Some e => set_eps (ep_Unsubscribe (eps w) e t) w | None => w end
      = people w) as -> by (by destruct (GetSubscribeEndpoint p)).
  destruct (decide (ptr = x)) as [<-|]; [|left; by rewrite lookup_insert_ne].
  right. split; [by eexists|]. eexists p, _. split; [done|]. apply lookup_insert_eq.
Qed.

(** ** Subscribing in a loop *)

Lemma subscribe_all_effect pairs r w r' w' gone :
  tables_ok gone r (people w) -> subscribe_all r w pairs = (r', w') ->
  only_subs r r' /\ pubs w' = pubs w /\ people_frame r (people w) (people w') /\ tables_ok gone r' (people w') /\
  (forall x u, x ∈ subs_of_track r u -> x ∈ subs_of_track r' u) /\
  (forall x u, x ∈ subs_of_track r' u -> x ∈ subs_of_track r u \/ (x, u) ∈ pairs).
Proof.
  revert r w. induction pairs as [|[s t] pairs IH]; intros r w OK H; simpl in H.
  { simplify_eq. split; [apply only_subs_refl|]. split; [done|]. split; [apply people_frame_refl|]. naive_solver. }
  destruct (SubscribeTrackLocked r w s t) as [[r1 w1] ok] eqn:E.
  pose proof (subscribe_frame _ _ _ _ _ _ _ E) as F1.
  destruct (subscribe_effect _ _ _ _ _ _ _ _ OK E) as (O1 & P1 & OK1 & S1).
  destruct (IH _ _ OK1 H) as (O2 & P2 & F2 & OK2 & L2 & U2).
  pose proof (only_subs_fields _ _ O1) as (Hr & _).
  split; [by eapply only_subs_trans|]. split; [congruence|]. split; [by eapply people_frame_trans|].
  split; [done|]. split.
  - intros x u Hx. apply L2, S1. by left.
  - intros x u Hx. apply U2 in Hx as [Hx|Hx]; [apply S1 in Hx as [Hx|(_ & -> & ->)]|]; [by left| |]; right.
    + apply list_elem_of_here.
    + by apply list_elem_of_further.
Qed.

(** ** Rooms without media *)

Definition no_media r w : Prop :=
  forall id ptr p, participants_ r !! id = Some ptr -> people w !! ptr = Some p -> HasMediaBinding p = false.

Lemma no_media_frame r w r' w' :
  no_media r w -> participants_ r' = participants_ r -> people_frame r (people w) (people w') -> no_media r' w'.
Proof.
  intros N E F id ptr p Hid Hp. rewrite E in Hid. destruct (F ptr) as [G|(_ & q & x & Hq & G)]; rewrite G in Hp.
  - by eapply N.
  - simplify_eq. by apply (N _ _ _ Hid Hq).
Qed.

Lemma subscribe_succeeds r w s t i r' w' ok gone :
  tables_ok gone r (people w) -> no_media r w -> is_Some (participants_ r !! s) ->
  published_tracks_ r !! t = Some i -> publisher_id i <> s ->
  SubscribeTrackLocked r w s t = (r', w', ok) -> s ∈ subs_of_track r' t.
Proof.
  intros OK N [ptr Hs] Hi Hne E.
  destruct (subscribe_effect _ _ _ _ _ _ _ _ OK E) as (_ & _ & _ & S). apply S. clear S.
  destruct (decide (s ∈ subs_of_track r t)) as [|Hin]; [by left|right]. split; [|done].
  destruct (ok_member OK _ _ Hs) as (Hs0 & p & Hp & _). destruct (ok_track OK _ _ Hi) as (Ht0 & pptr & pp & Hpp & Hpp' & _).
  unfold SubscribeTrackLocked in E.
  rewrite (proj2 (find_participant_Some r w s ptr p)) in E by done.
  rewrite Hi, (proj2 (empty_false s)), (proj2 (empty_false t)) in E by done. simpl in E.
  rewrite (proj2 (find_participant_Some r w _ pptr pp)) in E by done.
  rewrite bool_decide_eq_false_2, bool_decide_eq_false_2 in E by done.
  unfold establish in E. rewrite (N _ _ _ Hs Hp), (N _ _ _ Hpp Hpp') in E. by simplify_eq/=.
Qed.

Lemma subscribe_all_succeeds pairs r w r' w' gone :
  tables_ok gone r (people w) -> no_media r w -> subscribe_all r w pairs = (r', w') ->
  forall s t i, (s, t) ∈ pairs -> is_Some (participants_ r !! s) -> published_tracks_ r !! t = Some i ->
    publisher_id i <> s -> s ∈ subs_of_track r' t.
Proof.
  revert r w. induction pairs as [|[a b] pairs IH]; intros r w OK N H s t i Hin Hs Hi Hne; [by apply not_elem_of_nil in Hin|].
  simpl in H. destruct (SubscribeTrackLocked r w a b) as [[r1 w1] ok] eqn:E.
  destruct (subscribe_effect _ _ _ _ _ _ _ _ OK E) as (O1 & _ & OK1 & _).
  pose proof (subscribe_frame _ _ _ _ _ _ _ E) as F1. destruct (only_subs_fields _ _ O1) as (X1 & X2 & _).
  apply elem_of_cons in Hin as [[= -> ->]|Hin].
  - destruct (subscribe_all_effect _ _ _ _ _ _ OK1 H) as (_ & _ & _ & _ & L & _). apply L.
    by eapply (subscribe_succeeds r w a b i).
  - apply (IH r1 w1 OK1 (no_media_frame _ _ _ _ N X1 F1) H s t i); [done|by rewrite X1|by rewrite X2|done].
Qed.

(** ** Unsubscribing in a loop *)

Lemma unsubscribe_all_effect pairs r w r' w' gone :
  tables_ok gone r (people w) -> unsubscribe_all r w pairs = (r', w') ->
  only_subs r r' /\ pubs w' = pubs w /\ people_frame r (people w) (people w') /\ tables_ok gone r' (people w') /\
  (forall x u, x ∈ subs_of_track r' u <-> x ∈ subs_of_track r u /\ (x, u) ∉ pairs).
Proof.
  revert r w. induction pairs as [|[s t] pairs IH]; intros r w OK H; simpl in H.
  { simplify_eq. split; [apply only_subs_refl|]. split; [done|]. split; [apply people_frame_refl|]. split; [done|].
    intros x u. split; [|naive_solver]. intros Hx. split; [done|]. apply not_elem_of_nil. }
  destruct (UnsubscribeTrackLocked r w s t) as [r1 w1] eqn:E.
  pose proof (unsubscribe_frame _ _ _ _ _ _ E) as F1.
  destruct (unsubscribe_effect _ _ _ _ _ _ _ OK E) as (O1 & P1 & OK1 & S1).
  destruct (IH _ _ OK1 H) as (O2 & P2 & F2 & OK2 & S2).
  pose proof (only_subs_fields _ _ O1) as (Hr & _).
  split; [by eapply only_subs_trans|]. split; [congruence|]. split; [by eapply people_frame_trans|].
  split; [done|]. intros x u. rewrite S2, S1, not_elem_of_cons. split.
  - intros ((Hx & Hn) & Hp). split; [done|]. split; [|done]. intros [= -> ->]. by apply Hn.
  - intros (Hx & Hn & Hp). split; [|done]. split; [done|]. intros [-> ->]. by apply Hn.
Qed.

(** Unsubscribing everyone the room lists for a track. *)
Lemma clear_track r w t l r' w' gone :
  tables_ok gone r (people w) -> l ≡ₚ elements (subs_of_track r t) ->
  unsubscribe_all r w (List.map (fun p => (p, t)) l) = (r', w') ->
  only_subs r r' /\ pubs w' = pubs w /\ people_frame r (people w) (people w') /\ tables_ok gone r' (people w') /\
  (forall x u, x ∈ subs_of_track r' u <-> x ∈ subs_of_track r u /\ u <> t).
Proof.
  intros OK Hl H. destruct (unsubscribe_all_effect _ _ _ _ _ _ OK H) as (O & P & F & OK' & S).
  do 4 (split; [done|]). intros x u. rewrite S. split; intros [Hx Hn]; (split; [done|]).
  - intros ->. apply Hn. apply list_elem_of_In, in_map_iff. exists x. split; [done|].
    apply list_elem_of_In. rewrite Hl. set_solver +Hx.
  - intros Hin. apply list_elem_of_In, in_map_iff in Hin as (y & [= -> ->] & _). by apply Hn.
Qed.

(** Unsubscribing a participant from everything it listens to. *)
Lemma clear_participant r w s l r' w' gone :
  tables_ok gone r (people w) -> l ≡ₚ elements (subs_of_participant r s) ->
  unsubscribe_all r w (List.map (fun t => (s, t)) l) = (r', w') ->
  only_subs r r' /\ pubs w' = pubs w /\ people_frame r (people w) (people w') /\ tables_ok gone r' (people w') /\
  (forall x u, x ∈ subs_of_track r' u <-> x ∈ subs_of_track r u /\ x <> s).
Proof.
  intros OK Hl H. destruct (unsubscribe_all_effect _ _ _ _ _ _ OK H) as (O & P & F & OK' & S).
  do 4 (split; [done|]). intros x u. rewrite S. split; intros [Hx Hn]; (split; [done|]).
  - intros ->. apply Hn. apply list_elem_of_In, in_map_iff. exists u. split; [done|].
    apply list_elem_of_In. rewrite Hl. apply (ok_inverse OK) in Hx. set_solver +Hx.
  - intros Hin. apply list_elem_of_In, in_map_iff in Hin as (y & [= -> ->] & _). by apply Hn.
Qed.

(** ** Taking a track out of the room's tables *)

(** The room forgets [t]; its publisher still remembers it. *)
Lemma forget_track gone r ps t i :
  tables_ok gone r ps -> published_tracks_ r !! t = Some i -> publisher_id i ∈ gone ->
  (forall x, x ∉ subs_of_track r t) ->
  tables_ok gone (set_tracks (delete t (published_tracks_ r)) r) ps.
Proof.
  intros [M T P I S F] Ht Hg Hx. constructor; simpl; try done.
  - intros u j Hj. apply lookup_delete_Some in Hj as [_ Hj]. by apply T.
  - intros id ptr p u tr Hid Hptr Hp Hu. destruct (P _ _ _ _ _ Hid Hptr Hp Hu) as (j & Hj & Hj1 & Hj2).
    exists j. split; [|done]. rewrite lookup_delete_ne; [done|]. intros ->. simplify_eq. done.
  - intros x u Hu. destruct (S _ _ Hu) as (Hm & j & Hj & Hne). split; [done|]. exists j. split; [|done].
    rewrite lookup_delete_ne; [done|]. intros <-. by apply (Hx x).
Qed.

(** The last clean-up of [Leave] finds nothing to erase. *)
Lemma erase_track_subs r gone ps t :
  tables_ok gone r ps -> (forall x, x ∉ subs_of_track r t) ->
  ((fun s : gset str => s ∖ {[ t ]}) <$> participant_subscriptions_ r) = participant_subscriptions_ r.
Proof.
  intros OK Hx. apply map_eq. intros p. rewrite lookup_fmap.
  destruct (participant_subscriptions_ r !! p) as [s|] eqn:E; [|done]. simpl. f_equal.
  assert (t ∉ s) as Ht; [|set_solver +Ht]. intros Ht. apply (Hx p). apply (ok_inverse OK).
  unfold subs_of_participant. by rewrite E.
Qed.

Lemma subs_ext gone r ps a :
  tables_ok gone r ps -> (forall t, at_key t a = subs_of_track r t) ->
  tables_ok gone (set_subscriptions a (participant_subscriptions_ r) r) ps.
Proof.
  intros [M T P I S F] Ha. constructor; try done; intros x t; rewrite sub_track_eq, Ha; [apply I|apply S].
Qed.

Lemma delete_track_subs r t : (forall x, x ∉ subs_of_track r t) ->
  forall u, at_key u (delete t (track_subscribers_ r)) = subs_of_track r u.
Proof.
  intros Hx u. rewrite at_delete. destruct (decide (u = t)) as [->|]; [|done].
  symmetry. apply set_eq. intros x. split; [intros H; by destruct (Hx x)|set_solver +].
Qed.

Lemma revision_ok gone r ps x : tables_ok gone r ps -> tables_ok gone (set_track_revision x r) ps.
Proof. intros [M T P I S F]. by constructor. Qed.

(** What the loop over the tracks of [id] achieves. *)
Lemma remove_tracks_effect ord id tracks r w r' w' removed gone :
  id ∈ gone -> (forall l, ord l ≡ₚ l) -> tables_ok gone r (people w) -> NoDup tracks ->
  (forall t, t ∈ tracks -> exists i, published_tracks_ r !! t = Some i /\ publisher_id i = id) ->
  remove_tracks ord r w tracks = (r', w', removed) ->
  participants_ r' = participants_ r /\ info_ r' = info_ r /\ options_ r' = options_ r /\
  participant_revision_ r' = participant_revision_ r /\ on_participant_changed_ r' = on_participant_changed_ r /\
  on_room_closed_ r' = on_room_closed_ r /\ next_publication_id_ r' = next_publication_id_ r /\
  people_frame r (people w) (people w') /\ pubs w' = pubs w /\ tables_ok gone r' (people w') /\
  (forall u, published_tracks_ r' !! u = if decide (u ∈ tracks) then None else published_tracks_ r !! u) /\
  (forall x u, x ∈ subs_of_track r' u <-> x ∈ subs_of_track r u /\ u ∉ tracks) /\
  List.map (fun s => (sid (snap_track s), snap_publisher_id s)) removed = List.map (fun t => (t, id)) tracks.
Proof.
  intros Hgone Hord. revert r w r' w' removed. induction tracks as [|t tracks IH]; intros r w r' w' removed OK Hnd Hpub H; simpl in H.
  { simplify_eq. do 7 (split; [done|]). split; [apply people_frame_refl|]. do 2 (split; [done|]).
    split; [|split; [|done]].
    - intros u. by destruct (decide (u ∈ [])) as [Hu|]; [apply not_elem_of_nil in Hu|].
    - intros x u. split; [|naive_solver]. intros Hx. split; [done|]. apply not_elem_of_nil. }
  apply NoDup_cons in Hnd as [Hnt Hnd].
  destruct (unsubscribe_all r w _) as [r1 w1] eqn:E1.
  destruct (clear_track _ _ _ _ _ _ _ OK (Hord _) E1) as (O1 & P1 & F1 & OK1 & S1).
  pose proof (only_subs_fields _ _ O1) as (X1 & X2 & X3 & X4 & X5 & X6 & X7 & X8 & X9).
  destruct (Hpub t) as (i & Hi & Hid); [set_solver +|].
  assert (Hi1 : published_tracks_ r1 !! t = Some i) by (by rewrite X2). rewrite Hi1 in H.
  assert (Hx1 : forall x, x ∉ subs_of_track r1 t) by (intros x Hx; by apply S1 in Hx as [_ ?]).
  simpl in H.
  match type of H with context [remove_tracks _ ?r2 w1 tracks] => set (r2' := r2) in H end.
  assert (OK2 : tables_ok gone r2' (people w1)).
  { unfold r2'. simpl. rewrite (erase_track_subs _ _ _ _ OK1 Hx1).
    set (r0 := set_track_revision (u64 (track_revision_ r1 + 1)) r1).
    assert (G : tables_ok gone (set_tracks (delete t (published_tracks_ r1)) r0) (people w1)).
    { apply (forget_track _ r0 _ _ i); [by apply revision_ok|done| |done]. by rewrite Hid. }
    exact (subs_ext _ _ _ (delete t (track_subscribers_ r1)) G (delete_track_subs r1 t Hx1)). }
  assert (S2 : forall x u, x ∈ subs_of_track r2' u <-> x ∈ subs_of_track r1 u).
  { intros x u. unfold r2'. rewrite sub_track_eq. simpl. by rewrite (delete_track_subs r1 t Hx1). }
  destruct (remove_tracks ord r2' w1 tracks) as [[r3 w3] more] eqn:E3. simplify_eq.
  destruct (IH r2' w1 r' w' more OK2 Hnd) as (Y1 & Y2 & Y3 & Y4 & Y5 & Y6 & Y7 & F3 & P3 & OK3 & T3 & S3 & R3); [|done|].
  { intros u Hu. destruct (Hpub u) as (j & Hj & Hjd); [set_solver +Hu|]. exists j. split; [|done]. simpl.
    rewrite X2, lookup_delete_ne; [done|]. intros ->. done. }
  rewrite Y1, Y2, Y3, Y4, Y5, Y6, Y7. simpl in *.
  do 7 (split; [congruence|]). split; [by eapply people_frame_trans|]. split; [congruence|]. split; [done|].
  split; [|split].
  - intros u. rewrite T3. simpl. rewrite X2. destruct (decide (u = t)) as [->|Hne].
    + rewrite lookup_delete_eq. destruct (decide (t ∈ t :: tracks)) as [|Hn]; [by destruct (decide (t ∈ tracks))|].
      destruct Hn. set_solver +.
    + rewrite lookup_delete_ne by done.
      destruct (decide (u ∈ tracks)) as [Hb|Hb], (decide (u ∈ t :: tracks)) as [Hc|Hc]; try done; exfalso;
        clear -Hb Hc Hne; set_solver.
  - intros x u. rewrite S3, S2, S1, not_elem_of_cons. clear. tauto.
  - by rewrite R3.
Qed.

End Loops.
