(* ===== verification/RoomOps.v ===== *)
(** * The methods of a room

    Each public method of [Room.v] keeps the invariant of a room and has the effect on the
    tables that its name promises. *)
From S2P Require Import Prelude Names Participant Room RoomInv RoomLoops.

(** The summary that a room keeps of itself. *)
Record info_ok (r : Room) : Prop := mkInfoOk {
  ok_count : participant_count (info_ r) = u32 (Z.of_nat (size (participants_ r)));
  ok_state : (room_state (info_ r) = RoomActive <-> participants_ r <> ∅);
  ok_max : 0 < max_participants (options_ r) -> Z.of_nat (size (participants_ r)) <= max_participants (options_ r) }.

(** The track that an event announces as gone, with its publisher. *)
Definition unpublished (e : RoomEvent) : option (str * str) :=
  match e with TrackUnpublishedEvent s => Some (sid (snap_track s), snap_publisher_id s) | _ => None end.

Lemma unpublished_calls l : omap unpublished (List.map OnParticipant l) = [].
Proof. induction l; done. Qed.

Lemma unpublished_snapshots l :
  omap unpublished (List.map TrackUnpublishedEvent l) = List.map (fun s => (sid (snap_track s), snap_publisher_id s)) l.
Proof. induction l as [|s l IH]; [done|]. csimpl. by rewrite IH. Qed.

Section Methods.
Context {W : Type} {EP : SfuEndpointOps W}.
Implicit Types (r : Room) (w : World W).

(** The invariant of a room, but for the own lists of the participants [gone]; and in full. *)
Definition room_ok_but (gone : gset str) r w : Prop := tables_ok gone r (people w) /\ info_ok r.

Definition room_ok r w : Prop := room_ok_but ∅ r w.

Lemma tables_ext gone r r' ps :
  tables_ok gone r ps -> participants_ r' = participants_ r -> published_tracks_ r' = published_tracks_ r ->
  track_subscribers_ r' = track_subscribers_ r -> participant_subscriptions_ r' = participant_subscriptions_ r ->
  tables_ok gone r' ps.
Proof.
  intros [M T P I S F] E1 E2 E3 E4.
  assert (forall t, subs_of_track r' t = subs_of_track r t) as E5 by (intros; unfold subs_of_track; by rewrite E3).
  assert (forall t, subs_of_participant r' t = subs_of_participant r t) as E6
    by (intros; unfold subs_of_participant; by rewrite E4).
  constructor; rewrite ?E1, ?E2, ?E4; try done; setoid_rewrite E6 || setoid_rewrite E5; try done; by setoid_rewrite E5.
Qed.

(** ** Joining *)

Definition no_tracks (p : Participant) : Prop := published_ p = ∅ /\ subscribed_track_ids_ p = ∅.

Lemma stranger_subs gone r ps id : tables_ok gone r ps -> participants_ r !! id = None -> subs_of_participant r id = ∅.
Proof.
  intros OK Hn. apply set_eq. intros t. split; [|set_solver +]. intros Ht. apply (ok_inverse OK) in Ht.
  destruct (ok_sub OK _ _ Ht) as [[? ?] _]. congruence.
Qed.

Lemma add_member_ok gone r ps ptr p :
  tables_ok gone r ps -> ps !! ptr = Some p -> (Id p ∉ gone -> no_tracks p) -> Id p <> [] -> participants_ r !! Id p = None ->
  tables_ok gone (set_participants (<[Id p := ptr]> (participants_ r)) r) ps.
Proof.
  intros OK Hp Hfresh Hne Hn. pose proof (stranger_subs _ _ _ _ OK Hn) as Hs.
  destruct OK as [M T P I S F]. constructor; simpl; try done.
  - intros id x Hx. apply lookup_insert_Some in Hx as [[<- <-]|[_ Hx]]; [|by apply M].
    split; [done|]. exists p. split; [done|]. split; [done|]. intros Hg. by rewrite (proj2 (Hfresh Hg)), <- Hs.
  - intros t i Ht. destruct (T _ _ Ht) as (Ht0 & x & q & Hx & Hq). split; [done|]. exists x, q.
    rewrite lookup_insert_ne; [done|]. intros E. congruence.
  - intros id x q t tr Hg Hx Hq Ht. apply lookup_insert_Some in Hx as [[<- <-]|[_ Hx]]; [|by eapply P].
    simplify_eq. rewrite (proj1 (Hfresh Hg)) in Ht. by rewrite lookup_empty in Ht.
  - intros x t Hx. destruct (S _ _ Hx) as [Hm He]. split; [|done].
    apply lookup_insert_is_Some. destruct (decide (Id p = x)); [by left|by right].
Qed.

Lemma CanJoinLocked_true r p : CanJoinLocked r p = true ->
  room_state (info_ r) <> RoomClosed /\ Id p <> [] /\ participants_ r !! Id p = None /\
  (0 < max_participants (options_ r) -> Z.of_nat (size (participants_ r)) < max_participants (options_ r)).
Proof.
  unfold CanJoinLocked, IsClosed. intros H. bool_hyps. apply bool_decide_eq_false in H.
  apply empty_false in H2. apply bool_decide_eq_false in H1. apply eq_None_not_Some in H1.
  repeat split; try done. apply andb_false_iff in H0. destruct H0; bool_hyps; lia.
Qed.

Lemma UpdateStateLocked_ok r :
  room_state (info_ r) <> RoomClosed ->
  (0 < max_participants (options_ r) -> Z.of_nat (size (participants_ r)) <= max_participants (options_ r)) ->
  info_ok (UpdateStateLocked r).
Proof.
  intros Hc Hm. unfold UpdateStateLocked, IsClosed. simpl.
  case_bool_decide as E; [done|]. constructor; simpl; try done. case_bool_decide; naive_solver.
Qed.

Lemma UpdateStateLocked_tables r : 
  participants_ (UpdateStateLocked r) = participants_ r /\ published_tracks_ (UpdateStateLocked r) = published_tracks_ r /\
  track_subscribers_ (UpdateStateLocked r) = track_subscribers_ r /\
  participant_subscriptions_ (UpdateStateLocked r) = participant_subscriptions_ r /\
  options_ (UpdateStateLocked r) = options_ r /\ participant_revision_ (UpdateStateLocked r) = participant_revision_ r /\
  on_participant_changed_ (UpdateStateLocked r) = on_participant_changed_ r /\
  room_id (info_ (UpdateStateLocked r)) = room_id (info_ r).
Proof. unfold UpdateStateLocked. by destruct (IsClosed _). Qed.

Lemma UpdateStateLocked_closed r :
  room_state (info_ (UpdateStateLocked r)) = RoomClosed <-> room_state (info_ r) = RoomClosed.
Proof.
  unfold UpdateStateLocked, IsClosed. simpl. case_bool_decide as E; [done|]. simpl. case_bool_decide; naive_solver.
Qed.

Lemma info_ext r r' : info_ok r -> info_ r' = info_ r -> options_ r' = options_ r -> participants_ r' = participants_ r -> info_ok r'.
Proof. intros [C S M] E1 E2 E3. by constructor; rewrite ?E1, ?E2, ?E3. Qed.

Lemma SetState_tracks ptr p s : same_tracks p (fst (SetState ptr p s)).
Proof. unfold SetState. by case_bool_decide. Qed.

Lemma NotifyParticipantChanged_rev r w id : exists x, fst (NotifyParticipantChanged r w id) = set_participant_revision x r.
Proof.
  unfold NotifyParticipantChanged. destruct (find_participant r w id) as [[? ?]|]; [by eexists|].
  exists (participant_revision_ r). by destruct r.
Qed.

Lemma tracks_where_elem f r t :
  t ∈ tracks_where f r <-> exists i, published_tracks_ r !! t = Some i /\ f (publisher_id i) = true.
Proof.
  unfold tracks_where. rewrite list_elem_of_In, filter_In, <- list_elem_of_In, elem_of_elements, elem_of_dom.
  split.
  - intros [[i Hi] Hf]. rewrite Hi in Hf. by exists i.
  - intros (i & Hi & Hf). rewrite Hi. split; [by exists i|done].
Qed.

Lemma Join_effect gone ord now r w ptr r' w' ok events :
  room_ok_but gone r w -> (forall p, people w !! ptr = Some p -> Id p ∉ gone -> no_tracks p) ->
  Join ord now r w ptr = (r', w', ok, events) ->
  room_ok_but gone r' w' /\ pubs w' = pubs w /\ (ok = false -> r' = r /\ w' = w) /\
  (forall x, people w' !! x = people w !! x \/ x = ptr \/ exists id, participants_ r !! id = Some x) /\
  (ok = true -> exists p, people w !! ptr = Some p /\ CanJoinLocked r p = true /\
     participants_ r' = <[Id p := ptr]> (participants_ r) /\ published_tracks_ r' = published_tracks_ r /\
     (forall x u, x ∈ subs_of_track r u -> x ∈ subs_of_track r' u) /\
     (forall x u, x ∈ subs_of_track r' u -> x ∈ subs_of_track r u \/ x = Id p)) /\
  (options_ r' = options_ r /\ (no_media r w -> (forall p, people w !! ptr = Some p -> HasMediaBinding p = false) ->
    no_media r' w' /\ (ok = true -> auto_subscribe (options_ r) = true -> (forall l, ord l ≡ₚ l) ->
      forall p t i, people w !! ptr = Some p -> published_tracks_ r !! t = Some i -> publisher_id i <> Id p ->
        Id p ∈ subs_of_track r' t))).
Proof.
  intros [OK IO] Hfresh. unfold Join.
  destruct (people w !! ptr) as [p|] eqn:Hp; [|intros [= <- <- <- <-]; split; [done|]; split; [done|]; split; [done|]; split; [by left|]; split; [done|]; split; [done|]; intros N _; by split].
  destruct (CanJoinLocked r p) eqn:HC; simpl; [|intros [= <- <- <- <-]; split; [done|]; split; [done|]; split; [done|]; split; [by left|]; split; [done|]; split; [done|]; intros N _; by split].
  destruct (CanJoinLocked_true _ _ HC) as (Hcl & Hne & Hnone & Hmax).
  set (r1 := set_participants (<[Id p := ptr]> (participants_ r)) r).
  set (r2 := if first_joined_at_ms (info_ r) =? 0 then set_first_joined now r1 else r1).
  assert (E2 : participants_ r2 = <[Id p := ptr]> (participants_ r) /\ published_tracks_ r2 = published_tracks_ r /\
    track_subscribers_ r2 = track_subscribers_ r /\ participant_subscriptions_ r2 = participant_subscriptions_ r /\
    options_ r2 = options_ r /\ room_state (info_ r2) = room_state (info_ r)).
  { unfold r2. by destruct (_ =? 0). }
  destruct E2 as (E2a & E2b & E2c & E2d & E2e & E2f).
  assert (OK2 : tables_ok gone r2 (people w)).
  { apply (tables_ext _ r1); try done. by apply add_member_ok; [| |apply Hfresh| |]. }
  set (pairs := List.map _ _).
  destruct (subscribe_all r2 w pairs) as [r3 w3] eqn:E3.
  destruct (subscribe_all_effect _ _ _ _ _ _ OK2 E3) as (O3 & P3 & F3 & OK3 & L3 & U3).
  destruct (only_subs_fields _ _ O3) as (X1 & X2 & X3 & X4 & _).
  destruct (people_frame_person _ _ _ _ _ F3 Hp) as (x & Hp3). rewrite Hp3. simpl.
  destruct (SetState ptr (set_subscribed x p) Joined) as [q calls] eqn:Eq.
  pose proof (SetState_tracks ptr (set_subscribed x p) Joined) as Hq. rewrite Eq in Hq. simpl in Hq.
  destruct (NotifyParticipantChanged _ _ (Id p)) as [r4 evs] eqn:E4. intros [= <- <- <- <-].
  destruct (NotifyParticipantChanged_rev (UpdateStateLocked r3) (set_person ptr q w3) (Id p)) as (rev & Hrev).
  rewrite E4 in Hrev. simpl in Hrev. subst r4.
  destruct (UpdateStateLocked_tables r3) as (Y1 & Y2 & Y3 & Y4 & Y5 & _).
  split; [split|].
  - simpl. eapply person_ok; [|done|done]. apply (tables_ext _ r3); done.
  - apply (info_ext (UpdateStateLocked r3)); try done. apply UpdateStateLocked_ok.
    + by rewrite X3, E2f.
    + rewrite X4, E2e, X1, E2a. intros Hpos. rewrite map_size_insert_None by done. specialize (Hmax Hpos). lia.
  - split; [done|]. split; [done|]. split; [|split; [intros _; exists p; split; [done|]; split; [done|]|]].
    + intros y. simpl. destruct (decide (ptr = y)) as [<-|Hy]; [by right; left|]. rewrite lookup_insert_ne by done.
      destruct (F3 y) as [->|((id & Hid) & _)]; [by left|]. rewrite E2a in Hid.
      apply lookup_insert_Some in Hid as [[_ ?]|[_ ?]]; [done|]. right. right. by exists id.
    + simpl. rewrite Y1, Y2, X1, X2, E2a, E2b. split; [done|]. split; [done|].
      assert (Hs4 : forall u, subs_of_track (set_participant_revision rev (UpdateStateLocked r3)) u = subs_of_track r3 u)
        by (intros u; unfold subs_of_track; simpl; by rewrite Y3).
      assert (Hs2 : forall u, subs_of_track r2 u = subs_of_track r u)
        by (intros u; unfold subs_of_track; by rewrite E2c).
      split; intros y u; rewrite Hs4; [rewrite <- Hs2; apply L3|]. intros Hy. apply U3 in Hy as [Hy|Hy].
      * left. by rewrite <- Hs2.
      * right. apply list_elem_of_In, in_map_iff in Hy as (z & [= -> ->] & _). done.
    + split; [simpl; congruence|]. intros N Np.
      assert (N2 : no_media r2 w).
      { intros id y z Hid Hz. rewrite E2a in Hid. apply lookup_insert_Some in Hid as [[_ <-]|[_ Hid]]; [|by eapply N].
        apply Np. congruence. }
      split.
      * intros id y z Hid Hz. simpl in Hid, Hz. rewrite Y1, X1 in Hid. destruct (decide (ptr = y)) as [<-|Hy].
        -- rewrite lookup_insert_eq in Hz. simplify_eq.
           transitivity (HasMediaBinding (set_subscribed x p)); [|by apply (Np p)].
           unfold SetState in Eq. by case_bool_decide; simplify_eq.
        -- rewrite lookup_insert_ne in Hz by done. apply (no_media_frame _ _ r3 w3 N2 X1 F3 id y z); [by rewrite X1|done].
      * intros _ Ha Hord p' t i Hp' Hi Hne'. simplify_eq.
        replace (subs_of_track (set_participant_revision rev (UpdateStateLocked r3)) t) with (subs_of_track r3 t)
          by (unfold subs_of_track; simpl; by rewrite Y3).
        apply (subscribe_all_succeeds pairs r2 w r3 w3 gone OK2 N2 E3 (Id p') t i); [|rewrite E2a, lookup_insert_eq; by eexists|by rewrite E2b|done].
        unfold pairs. rewrite E2e, Ha. apply list_elem_of_In, in_map_iff. exists t. split; [done|].
        apply list_elem_of_In. rewrite Hord. apply tracks_where_elem. exists i. rewrite E2b. split; [done|].
        by rewrite bool_decide_eq_false_2.
Qed.

(** ** Leaving *)

Lemma Leave_tracks (x : W) ptr p e q calls : Participant.Leave x ptr p = (e, q, calls) -> Id q = Id p.
Proof. unfold Participant.Leave. destruct (IsDisconnected p); intros; by simplify_eq. Qed.

Lemma tables_gone gone r ps id : tables_ok gone r ps -> tables_ok ({[ id ]} ∪ gone) r ps.
Proof.
  intros [M T P I S F]. constructor; try done.
  - intros x ptr Hx. destruct (M _ _ Hx) as (Hne & p & Hp & Hi & Hs). split; [done|]. exists p.
    split; [done|]. split; [done|]. intros Hg. apply Hs. set_solver +Hg.
  - intros t i Ht. destruct (T _ _ Ht) as (Hne & ptr & p & Hptr & Hp & Hi). split; [done|]. exists ptr, p.
    split; [done|]. split; [done|]. intros Hg. apply Hi. set_solver +Hg.
  - intros x ptr p t tr Hx. apply P. set_solver +Hx.
Qed.

(** A member without tracks and subscriptions is taken off the list. *)
Lemma drop_member_ok gone r ps id :
  tables_ok ({[ id ]} ∪ gone) r ps -> (forall t i, published_tracks_ r !! t = Some i -> publisher_id i <> id) ->
  (forall t, id ∉ subs_of_track r t) ->
  tables_ok gone (set_participants (delete id (participants_ r)) r) ps.
Proof.
  intros [M T P I S F] Hpub Hsub.
  assert (Hout : forall x, x <> id -> x ∉ gone -> x ∉ {[ id ]} ∪ gone) by (intros x H1 H2; set_solver +H1 H2).
  constructor; simpl; try done.
  - intros x ptr Hx. apply lookup_delete_Some in Hx as [Hne Hx]. destruct (M _ _ Hx) as (H0 & p & Hp & Hi & Hs).
    split; [done|]. exists p. split; [done|]. split; [done|]. intros Hg. by apply Hs, Hout.
  - intros t i Ht. destruct (T _ _ Ht) as (Hne & ptr & p & Hptr & Hp & Hi). split; [done|]. exists ptr, p.
    pose proof (Hpub _ _ Ht) as Hd. rewrite lookup_delete_ne by done. split; [done|]. split; [done|].
    intros Hg. by apply Hi, Hout.
  - intros x ptr p t tr Hg Hx Hp Ht. apply lookup_delete_Some in Hx as [Hne Hx]. apply (P x ptr p); try done. by apply Hout.
  - intros x t Hx. destruct (S _ _ Hx) as [Hm He]. split; [|done]. rewrite lookup_delete_ne; [done|].
    intros ->. by apply (Hsub t).
Qed.

Lemma tracks_where_NoDup f r : NoDup (tracks_where f r).
Proof. unfold tracks_where. apply NoDup_ListNoDup, List.NoDup_filter, NoDup_ListNoDup, NoDup_elements. Qed.

Lemma Leave_effect gone ord now r w id r' w' ok events :
  room_ok_but gone r w -> (forall l, ord l ≡ₚ l) ->
  Leave ord now r w id = (r', w', ok, events) ->
  room_ok_but gone r' w' /\ pubs w' = pubs w /\ (ok = false -> r' = r /\ w' = w /\ participants_ r !! id = None) /\
  (options_ r' = options_ r /\ (no_media r w -> no_media r' w')) /\
  (forall x, people w' !! x = people w !! x \/ exists id, participants_ r !! id = Some x) /\
  (ok = true -> exists ptr p q removed,
     participants_ r !! id = Some ptr /\ people w !! ptr = Some p /\ people w' !! ptr = Some q /\
     (state_ p <> Disconnected -> state_ q = Disconnected /\ no_tracks q /\ HasMediaBinding q = false /\
        connection_id (signaling_ q) = []) /\
     participants_ r' = delete id (participants_ r) /\
     (forall u, published_tracks_ r' !! u = published_tracks_ r !! u ≫= fun i => if decide (publisher_id i = id) then None else Some i) /\
     (forall x u, x ∈ subs_of_track r' u <-> x ∈ subs_of_track r u /\ x <> id /\ is_Some (published_tracks_ r' !! u)) /\
     removed ≡ₚ tracks_where (fun publisher => bool_decide (publisher = id)) r /\
     omap unpublished events
       = List.map (fun t => (t, id)) removed).
Proof.
  intros [OK IO] Hord. unfold Leave.
  destruct (find_participant r w id) as [[ptr p]|] eqn:Ef; cycle 1.
  { intros [= <- <- <- <-]. split; [done|]. split; [done|]. split; [|split; [done|split; [by left|done]]].
    intros _. split; [done|]. split; [done|]. by apply (find_participant_None _ _ _ _ OK). }
  apply find_participant_Some in Ef as [Hid Hp].
  destruct (unsubscribe_all r w _) as [r1 w1] eqn:E1.
  destruct (clear_participant _ _ _ _ _ _ _ OK (Hord _) E1) as (O1 & P1 & F1 & OK1 & S1).
  destruct (only_subs_fields _ _ O1) as (X1 & X2 & X3 & X4 & X5 & X6 & X7 & X8 & X9).
  destruct (remove_tracks ord r1 w1 _) as [[r2 w2] removed] eqn:E2.
  set (mine := ord (tracks_where (fun publisher => bool_decide (publisher = id)) r1)) in E2.
  assert (Hmine : forall t, t ∈ mine <-> exists i, published_tracks_ r !! t = Some i /\ publisher_id i = id).
  { intros t. unfold mine. rewrite Hord, tracks_where_elem, X2. setoid_rewrite bool_decide_eq_true. done. }
  pose proof (tables_gone _ _ _ id OK1) as OK1'.
  destruct (remove_tracks_effect ord id mine r1 w1 r2 w2 removed ({[ id ]} ∪ gone) ltac:(set_solver +) Hord OK1') as
    (Y1 & Y2 & Y3 & Y4 & Y5 & Y6 & Y7 & F2 & P2 & OK2 & T2 & S2 & R2); [| |done|].
  { unfold mine. rewrite Hord. apply tracks_where_NoDup. }
  { intros t Ht. rewrite X2. by apply Hmine. }
  set (r3 := set_participants (delete id (participants_ r2)) r2).
  assert (HT : forall u, published_tracks_ r2 !! u = published_tracks_ r !! u ≫= fun i => if decide (publisher_id i = id) then None else Some i).
  { intros u. rewrite T2, X2. destruct (decide (u ∈ mine)) as [Hu|Hu].
    - apply Hmine in Hu as (i & -> & Hi). simpl. by destruct (decide (publisher_id i = id)).
    - destruct (published_tracks_ r !! u) as [i|] eqn:Ei; [|done]. simpl.
      destruct (decide (publisher_id i = id)) as [Hi|]; [|done]. destruct Hu. apply Hmine. by exists i. }
  assert (OK3 : tables_ok gone r3 (people w2)).
  { apply drop_member_ok; [done| |].
    - intros t i. rewrite HT. destruct (published_tracks_ r !! t) as [j|]; [|done]. simpl.
      destruct (decide (publisher_id j = id)); naive_solver.
    - intros t Ht. apply S2 in Ht as [Ht _]. apply S1 in Ht as [_ ?]. done. }
  destruct (people_frame_person _ _ _ _ _ F1 Hp) as (x1 & Hp1).
  destruct (people_frame_person _ _ _ _ _ F2 Hp1) as (x2 & Hp2). rewrite Hp2. simpl.
  set (p2 := set_subscribed x2 (set_subscribed x1 p)) in *.
  destruct (Participant.Leave (eps w2) ptr p2) as [[e q] calls] eqn:El. intros [= <- <- <- <-].
  set (r4 := set_last_left now (set_participant_revision (u64 (participant_revision_ r2 + 1)) r3)).
  destruct (UpdateStateLocked_tables r4) as (Z1 & Z2 & Z3 & Z4 & Z5 & Z6 & Z7 & Z8).
  assert (Hstrange : forall y, participants_ r4 !! y <> Some ptr).
  { intros y Hy. unfold r4, r3 in Hy. simpl in Hy. apply lookup_delete_Some in Hy as [Hne Hy].
    rewrite Y1, X1 in Hy. apply Hne. by eapply (members_differ _ r). }
  split; [split|].
  - simpl. apply (tables_ext _ r4); [|done..]. apply stranger_ok; [|done]. by apply (tables_ext _ r3).
  - apply UpdateStateLocked_ok; unfold r4, r3; simpl.
    + rewrite Y2, X3. intros E. assert (participants_ r = ∅) as E0.
      { destruct (decide (participants_ r = ∅)) as [|Hn]; [done|]. apply (ok_state _ IO) in Hn. congruence. }
      rewrite E0 in Hid. by rewrite lookup_empty in Hid.
    + rewrite Y3, X4, Y1, X1. intros Hm. etrans; [|by apply (ok_max _ IO)]. apply Nat2Z.inj_le, map_subseteq_size, delete_subseteq.
  - split; [simpl; congruence|]. split; [done|]. split.
    { split; [rewrite Z5; unfold r4, r3; simpl; congruence|]. intros N y z u Hz Hu. rewrite Z1 in Hz.
      destruct (decide (ptr = z)) as [<-|Hne]; [by destruct (Hstrange y)|].
      simpl in Hu. rewrite lookup_insert_ne in Hu by done. unfold r4, r3 in Hz. simpl in Hz.
      apply lookup_delete_Some in Hz as [_ Hz].
      apply (no_media_frame r1 w1 r2 w2 (no_media_frame r w r1 w1 N X1 F1) Y1 F2 y z u Hz Hu). }
    split.
    { intros y. simpl. destruct (decide (ptr = y)) as [<-|Hy]; [right; by exists id|]. rewrite lookup_insert_ne by done.
      destruct (F2 y) as [->|((z & Hz) & _)]; [destruct (F1 y) as [->|((z & Hz) & _)]; [by left|]|]; right; exists z; congruence. }
    intros _. exists ptr, p, q, mine. split; [done|]. split; [done|]. split; [simpl; apply lookup_insert_eq|]. split.
    { intros Hd. unfold Participant.Leave, IsDisconnected in El. simpl in El.
      case_bool_decide as Hd'; [by destruct Hd|]. by simplify_eq. }
    split; [rewrite Z1; unfold r4, r3; simpl; by rewrite Y1, X1|].
    split; [intros u; rewrite Z2; apply HT|]. split; [|split].
    + intros y u. replace (subs_of_track (UpdateStateLocked r4) u) with (subs_of_track r2 u)
        by (unfold subs_of_track; by rewrite Z3).
      rewrite Z2. unfold r4, r3. simpl. rewrite S2, S1, T2, X2. destruct (decide (u ∈ mine)) as [Hu|Hu].
      * split; [naive_solver|]. by intros (_ & _ & [? ?]).
      * split; [|naive_solver]. intros [[Hy Hne] _]. split; [done|]. split; [done|].
        destruct (ok_sub OK _ _ Hy) as (_ & i & -> & _). by exists i.
    + unfold mine. rewrite Hord. unfold tracks_where. by rewrite X2.
    + rewrite <- R2, omap_app, unpublished_calls. csimpl. rewrite omap_app, unpublished_snapshots. unfold changed_cb.
      destruct (on_participant_changed_ (UpdateStateLocked r4)); csimpl; by rewrite app_nil_r.
Qed.

(** ** Publishing *)

Lemma endpoint_accepts_people w p t x pt w' ok :
  endpoint_accepts w p t x pt = (w', ok) -> people w' = people w /\ pubs w' = pubs w.
Proof. unfold endpoint_accepts. intros H. repeat case_match; simplify_eq/=; done. Qed.

Lemma add_track_ok gone r ps pid ptr p t i :
  tables_ok gone r ps -> participants_ r !! pid = Some ptr -> ps !! ptr = Some p ->
  published_tracks_ r !! t = None -> t <> [] -> publisher_id i = pid ->
  tables_ok gone (set_tracks (<[t := i]> (published_tracks_ r)) r)
    (<[ptr := set_published (<[t := track i]> (published_ p)) p]> ps).
Proof.
  intros OK Hpid Hp Ht Hne Hi. pose proof (fun x => members_differ _ _ _ x pid ptr OK) as Hdiff.
  destruct OK as [M T P I S F]. constructor; simpl; try done.
  - intros id x Hx. destruct (M _ _ Hx) as (Hid & q & Hq & Hidq & Hs). split; [done|].
    destruct (decide (ptr = x)) as [<-|]; [|exists q; by rewrite lookup_insert_ne].
    rewrite lookup_insert_eq. simplify_eq. by eexists.
  - intros u j Hj. apply lookup_insert_Some in Hj as [[<- <-]|[Hu Hj]].
    + split; [done|]. rewrite Hi. exists ptr. eexists. split; [done|]. rewrite lookup_insert_eq. split; [done|].
      intros _. simpl. apply lookup_insert_eq.
    + destruct (T _ _ Hj) as (Hu0 & x & q & Hx & Hq & Hqt). split; [done|]. exists x.
      destruct (decide (ptr = x)) as [<-|]; [|exists q; by rewrite lookup_insert_ne].
      eexists. rewrite lookup_insert_eq. split; [done|]. split; [done|]. simplify_eq. simpl. by rewrite lookup_insert_ne.
  - intros id x q u tr Hg Hx Hq Hu. destruct (decide (ptr = x)) as [<-|Hd].
    + rewrite lookup_insert_eq in Hq. simplify_eq/=. apply lookup_insert_Some in Hu as [[<- <-]|[Hu0 Hu]].
      * exists i. rewrite lookup_insert_eq. split; [done|]. split; [|done]. symmetry. by apply Hdiff.
      * rewrite lookup_insert_ne by done. by eapply P.
    + rewrite lookup_insert_ne in Hq by done. destruct (P _ _ _ _ _ Hg Hx Hq Hu) as (j & Hj & Hj').
      exists j. rewrite lookup_insert_ne; [done|]. intros <-. congruence.
  - intros x u Hx. destruct (S _ _ Hx) as (Hm & j & Hj & Hj'). split; [done|]. exists j.
    rewrite lookup_insert_ne; [done|]. intros <-. congruence.
Qed.

Lemma PublishTrack_effect gone ord r w pid tr x pt source r' w' ok events :
  room_ok_but gone r w -> PublishTrack ord r w pid tr x pt source = (r', w', ok, events) ->
  room_ok_but gone r' w' /\ pubs w' = pubs w /\
  (forall y, people w' !! y = people w !! y \/ exists id, participants_ r !! id = Some y) /\
  participants_ r' = participants_ r /\
  (ok = false -> r' = r /\ people w' = people w) /\
  (ok = true -> exists t i, t <> [] /\ sid <$> pubs w !! tr = Some t /\ published_tracks_ r !! t = None /\
     is_Some (participants_ r !! pid) /\ publisher_id i = pid /\ track i = tr /\
     published_tracks_ r' = <[t := i]> (published_tracks_ r) /\
     (forall y u, y ∈ subs_of_track r u -> y ∈ subs_of_track r' u) /\
     (forall y u, y ∈ subs_of_track r' u -> y ∈ subs_of_track r u \/ u = t) /\
     (no_media r w -> auto_subscribe (options_ r) = true -> (forall l, ord l ≡ₚ l) ->
      forall y, is_Some (participants_ r !! y) -> y <> pid -> y ∈ subs_of_track r' t)) /\
  (options_ r' = options_ r /\ (no_media r w -> no_media r' w')).
Proof.
  intros [OK IO]. unfold PublishTrack.
  assert (Hsame : forall w0 (Q : Prop), people w0 = people w -> pubs w0 = pubs w ->
    (r, w0, false, []) = (r', w', ok, events) ->
    room_ok_but gone r' w' /\ pubs w' = pubs w /\ (forall y, people w' !! y = people w !! y \/ exists id, participants_ r !! id = Some y) /\
    participants_ r' = participants_ r /\ (ok = false -> r' = r /\ people w' = people w) /\ (ok = true -> Q) /\
    (options_ r' = options_ r /\ (no_media r w -> no_media r' w'))).
  { intros w0 Q E1 E2 [= <- <- <- <-]. unfold room_ok_but, no_media. rewrite E1. do 2 (split; [done|]). split; [by left|]. done. }
  destruct (pubs w !! tr) as [publication|] eqn:Etr; [|by apply Hsame].
  destruct (empty (sid publication)) eqn:Ee; [by apply Hsame|].
  destruct (find_participant r w pid) as [[ptr p]|] eqn:Ef; [|by apply Hsame].
  destruct (IsClosed r); [by apply Hsame|].
  case_bool_decide as Hpt; [by apply Hsame|].
  destruct (endpoint_accepts _ _ _ _ _) as [w1 ok1] eqn:Ea. apply endpoint_accepts_people in Ea as [Ea1 Ea2].
  destruct ok1; simpl; [|by apply Hsame].
  unfold AddPublishedTrack. rewrite Ee. case_bool_decide as Hown; simpl; [by apply Hsame|]. clear Hsame.
  apply find_participant_Some in Ef as [Hpid Hp]. apply empty_false in Ee. apply eq_None_not_Some in Hpt.
  set (i := mkPublished _ pid _ tr x pt). set (t := sid publication) in *.
  match goal with |- context [subscribe_all ?r0 ?w0 ?l] => set (r2 := r0); set (w2 := w0); set (pairs := l) end.
  assert (OK2 : tables_ok gone r2 (people w2)).
  { unfold r2, w2. simpl. rewrite Ea1.
    apply (tables_ext _ (set_tracks (<[t := i]> (published_tracks_ r)) r)); try done. by apply (add_track_ok gone r (people w) pid). }
  destruct (subscribe_all r2 w2 pairs) as [r3 w3] eqn:E3. intros [= <- <- <- <-].
  destruct (subscribe_all_effect _ _ _ _ _ _ OK2 E3) as (O3 & P3 & F3 & OK3 & L3 & U3).
  destruct (only_subs_fields _ _ O3) as (X1 & X2 & X3 & X4 & _).
  assert (N2 : no_media r w -> no_media r2 w2).
  { intros N id y z Hid Hz. simpl in Hid, Hz. rewrite Ea1 in Hz. destruct (decide (ptr = y)) as [<-|Hy].
    - rewrite lookup_insert_eq in Hz. simplify_eq. by apply (N pid ptr p).
    - rewrite lookup_insert_ne in Hz by done. by apply (N id y z). }
  split; [split; [done|]; by apply (info_ext r)|]. split; [simpl in *; congruence|]. split; [|split; [done|split; [done|split]]].
  - intros y. destruct (F3 y) as [->|((z & Hz) & _)]; [|by right; exists z]. simpl. rewrite Ea1.
    destruct (decide (ptr = y)) as [<-|]; [right; by exists pid|]. left. by rewrite lookup_insert_ne.
  - intros _. exists t, i. split; [done|]. split; [done|]. split; [done|]. split; [by exists ptr|]. do 3 (split; [done|]).
    split; [apply L3|]. split.
    { intros y u Hy. apply U3 in Hy as [Hy|Hy]; [by left|]. right.
      apply list_elem_of_In, in_map_iff in Hy as (z & [= -> ->] & _). done. }
    intros N Ha Hord y Hy Hne. apply (subscribe_all_succeeds pairs r2 w2 r3 w3 gone OK2 (N2 N) E3 y t i); [|done| |done].
    2: { simpl. apply lookup_insert_eq. }
    unfold pairs. simpl. rewrite Ha. apply list_elem_of_In, in_map_iff. exists y. split; [done|].
    apply list_elem_of_In. rewrite Hord. apply list_elem_of_In, filter_In. split.
    { apply list_elem_of_In, elem_of_elements, elem_of_dom. done. }
    by rewrite bool_decide_eq_false_2.
  - split; [done|]. intros N. by apply (no_media_frame _ _ _ _ (N2 N)).
Qed.

(** ** Unpublishing *)

Lemma remove_track_ok gone r ps t i ptr p :
  tables_ok gone r ps -> published_tracks_ r !! t = Some i -> participants_ r !! publisher_id i = Some ptr ->
  ps !! ptr = Some p -> (forall x, x ∉ subs_of_track r t) ->
  tables_ok gone (set_tracks (delete t (published_tracks_ r)) r) (<[ptr := set_published (delete t (published_ p)) p]> ps).
Proof.
  intros OK Ht Hptr Hp Hx. pose proof (fun x => members_differ _ _ _ x (publisher_id i) ptr OK) as Hdiff.
  destruct OK as [M T P I S F]. constructor; simpl; try done.
  - intros id x Hx0. destruct (M _ _ Hx0) as (Hid & q & Hq & Hidq & Hs). split; [done|].
    destruct (decide (ptr = x)) as [<-|]; [|exists q; by rewrite lookup_insert_ne].
    rewrite lookup_insert_eq. simplify_eq. by eexists.
  - intros u j Hj. apply lookup_delete_Some in Hj as [Hu Hj].
    destruct (T _ _ Hj) as (Hu0 & x & q & Hx0 & Hq & Hqt). split; [done|]. exists x.
    destruct (decide (ptr = x)) as [<-|]; [|exists q; by rewrite lookup_insert_ne].
    eexists. rewrite lookup_insert_eq. split; [done|]. split; [done|]. simplify_eq. simpl. by rewrite lookup_delete_ne.
  - intros id x q u tr Hg Hx0 Hq Hu. destruct (decide (ptr = x)) as [<-|Hd].
    + rewrite lookup_insert_eq in Hq. simplify_eq/=. apply lookup_delete_Some in Hu as [Hu0 Hu].
      rewrite lookup_delete_ne by done. by eapply P.
    + rewrite lookup_insert_ne in Hq by done. destruct (P _ _ _ _ _ Hg Hx0 Hq Hu) as (j & Hj & Hj1 & Hj2).
      exists j. rewrite lookup_delete_ne; [done|]. intros <-. simplify_eq.
  - intros x u Hx0. destruct (S _ _ Hx0) as (Hm & j & Hj & Hj'). split; [done|]. exists j.
    rewrite lookup_delete_ne; [done|]. intros <-. by apply (Hx x).
Qed.

(** The publisher's own record, which may lack the track already. *)
Lemma RemovePublishedTrack_record ptr p t : fst (fst (RemovePublishedTrack ptr p t)) = set_published (delete t (published_ p)) p.
Proof.
  unfold RemovePublishedTrack. destruct (published_ p !! t) eqn:E; [done|]. simpl. rewrite delete_id by done. by destruct p.
Qed.

Lemma UnpublishTrack_effect gone ord r w t r' w' ok events :
  room_ok_but gone r w -> (forall l, ord l ≡ₚ l) -> UnpublishTrack ord r w t = (r', w', ok, events) ->
  room_ok_but gone r' w' /\ pubs w' = pubs w /\
  (forall y, people w' !! y = people w !! y \/ exists id, participants_ r !! id = Some y) /\
  participants_ r' = participants_ r /\ (options_ r' = options_ r /\ (no_media r w -> no_media r' w')) /\
  (ok = false -> r' = r /\ w' = w /\ (t = [] \/ published_tracks_ r !! t = None)) /\
  (ok = true -> is_Some (published_tracks_ r !! t) /\ published_tracks_ r' = delete t (published_tracks_ r) /\
     (forall x u, x ∈ subs_of_track r' u <-> x ∈ subs_of_track r u /\ u <> t)).
Proof.
  intros [OK IO] Hord. unfold UnpublishTrack.
  destruct (empty t) eqn:Ee; [intros [= <- <- <- <-]|].
  { apply empty_true in Ee. do 2 (split; [done|]). split; [by left|]. split; [done|]. split; [done|]. split; [by auto|done]. }
  destruct (published_tracks_ r !! t) as [i|] eqn:Ei; [|intros [= <- <- <- <-]]; cycle 1.
  { do 2 (split; [done|]). split; [by left|]. split; [done|]. split; [done|]. split; [by auto|done]. }
  destruct (unsubscribe_all r w _) as [r1 w1] eqn:E1.
  destruct (clear_track _ _ _ _ _ _ _ OK (Hord _) E1) as (O1 & P1 & F1 & OK1 & S1).
  destruct (only_subs_fields _ _ O1) as (X1 & X2 & X3 & X4 & _).
  simpl. set (r2 := set_tracks _ _).
  destruct (ok_track OK1 t i) as (Hne & ptr & p & Hptr & Hp & _); [by rewrite X2|].
  assert (find_participant r2 w1 (publisher_id i) = Some (ptr, p)) as -> by (by apply find_participant_Some).
  pose proof (RemovePublishedTrack_record ptr p t) as Hpub.
  destruct (RemovePublishedTrack ptr p t) as [[q own] calls]. simpl in Hpub. subst q.
  intros [= <- <- <- <-].
  assert (Hw : people match GetPublishEndpoint p with
    | Some e => set_eps (ep_RemovePublishedTrack (eps w1) e (source_track_id i)) w1 | None => w1 end = people w1
    /\ pubs match GetPublishEndpoint p with
    | Some e => set_eps (ep_RemovePublishedTrack (eps w1) e (source_track_id i)) w1 | None => w1 end = pubs w1)
    by (by destruct (GetPublishEndpoint p)).
  destruct Hw as [Hw1 Hw2].
  split; [split|].
  - simpl. rewrite Hw1. unfold r2. simpl.
    apply (tables_ext _ (set_tracks (delete t (published_tracks_ r1)) r1)); try done.
    apply (remove_track_ok gone r1 (people w1) t i); try done; [by rewrite X2|]. intros x Hx. by apply S1 in Hx as [_ ?].
  - by apply (info_ext r).
  - split; [simpl; congruence|]. split; [|split; [done|split; [|split; [done|intros _; split; [by eexists|split]]]]].
    + intros y. simpl. rewrite Hw1. destruct (decide (ptr = y)) as [<-|]; [right; exists (publisher_id i); congruence|].
      rewrite lookup_insert_ne by done. destruct (F1 y) as [->|((z & Hz) & _)]; [by left|right; by exists z].
    + split; [done|]. intros N y z u Hz Hu. simpl in Hz, Hu. rewrite Hw1 in Hu.
      pose proof (no_media_frame r w r1 w1 N X1 F1) as N1. destruct (decide (ptr = z)) as [<-|Hne'].
      * rewrite lookup_insert_eq in Hu. simplify_eq. by apply (N1 y ptr p).
      * rewrite lookup_insert_ne in Hu by done. by apply (N1 y z u).
    + unfold r2. simpl. by rewrite X2.
    + apply S1.
Qed.

End Methods.
