(* ===== verification/RoomProps.v ===== *)
(** * What a room guarantees

    Runs of a room: its own methods in any order, every public method of its participants,
    and arbitrary activity of the endpoints and the publications in between. *)
From S2P Require Import Prelude Names Participant Room RoomInv RoomLoops RoomOps.

Section Runs.
Context {W : Type} {EP : SfuEndpointOps W}.
Implicit Types (r : Room) (w : World W).

(** ** Closing *)

Lemma Participant_Leave_ends (x : W) ptr p :
  state_ (snd (fst (Participant.Leave x ptr p))) = Disconnected.
Proof. unfold Participant.Leave, IsDisconnected. by case_bool_decide. Qed.

Lemma leave_all_effect ptrs w w' calls :
  leave_all w ptrs = (w', calls) ->
  pubs w' = pubs w /\ (forall y, y ∉ ptrs -> people w' !! y = people w !! y) /\
  (forall y p, people w !! y = Some p -> exists q, people w' !! y = Some q /\
     (y ∈ ptrs \/ state_ p = Disconnected -> state_ q = Disconnected)).
Proof.
  revert w calls. induction ptrs as [|ptr ptrs IH]; intros w calls H; simpl in H.
  { simplify_eq. split; [done|]. split; [done|]. intros y p Hp. exists p. split; [done|].
    intros [Hy|]; [|done]. by apply not_elem_of_nil in Hy. }
  destruct (people w !! ptr) as [p|] eqn:Ep.
  - destruct (Participant.Leave (eps w) ptr p) as [[e q] c] eqn:El.
    pose proof (Participant_Leave_ends (eps w) ptr p) as Hq. rewrite El in Hq. simpl in Hq.
    destruct (leave_all _ ptrs) as [w1 more] eqn:E. simplify_eq.
    destruct (IH _ _ E) as (P1 & F1 & D1). split; [done|]. split.
    + intros y Hy. apply not_elem_of_cons in Hy as [Hne Hy]. rewrite F1 by done. simpl. by rewrite lookup_insert_ne.
    + intros y p' Hp'. destruct (decide (ptr = y)) as [<-|Hne].
      * destruct (D1 ptr q) as (q' & Hq' & Hd); [apply lookup_insert_eq|]. exists q'. split; [done|]. intros _. apply Hd. by right.
      * destruct (D1 y p') as (q' & Hq' & Hd); [simpl; by rewrite lookup_insert_ne|]. exists q'. split; [done|].
        intros [Hy|Hy]; apply Hd; [left|by right]. apply elem_of_cons in Hy as [->|]; done.
  - destruct (IH _ _ H) as (P1 & F1 & D1). split; [done|]. split.
    + intros y Hy. apply not_elem_of_cons in Hy as [Hne Hy]. by apply F1.
    + intros y p' Hp'. destruct (D1 y p' Hp') as (q' & Hq' & Hd). exists q'. split; [done|].
      intros [Hy|Hy]; apply Hd; [left|by right]. apply elem_of_cons in Hy as [->|]; [congruence|done].
Qed.

Lemma snapshot_all_frame tracks r w r' l : snapshot_all r w tracks = (r', l) -> exists x, r' = set_track_revision x r.
Proof.
  revert r r' l. induction tracks as [|t tracks IH]; intros r r' l H; simpl in H.
  { simplify_eq. exists (track_revision_ r'). by destruct r'. }
  destruct (published_tracks_ r !! t) as [i|]; [|by eapply IH].
  destruct (snapshot_all _ w tracks) as [r1 l1] eqn:E. simplify_eq. destruct (IH _ _ _ E) as (x & ->). by exists x.
Qed.

Definition no_tables r : Prop :=
  participants_ r = ∅ /\ published_tracks_ r = ∅ /\ track_subscribers_ r = ∅ /\ participant_subscriptions_ r = ∅.

Lemma no_tables_ok gone r ps : no_tables r -> tables_ok gone r ps.
Proof.
  intros (E1 & E2 & E3 & E4). constructor.
  - intros id ptr. by rewrite E1, lookup_empty.
  - intros t i. by rewrite E2, lookup_empty.
  - intros id ptr p t tr _. by rewrite E1, lookup_empty.
  - intros p t. unfold subs_of_track, subs_of_participant. by rewrite E3, E4, !lookup_empty.
  - intros p t. unfold subs_of_track. by rewrite E3, lookup_empty.
  - intros p s. by rewrite E4, lookup_empty.
Qed.

Lemma Close_effect gone ord r w r' w' events :
  room_ok_but gone r w -> (forall l, ord l ≡ₚ l) -> Close ord r w = (r', w', events) ->
  room_ok_but gone r' w' /\ pubs w' = pubs w /\ room_state (info_ r') = RoomClosed /\
  (forall y, people w' !! y = people w !! y \/ exists id, participants_ r !! id = Some y) /\
  (room_state (info_ r) <> RoomClosed -> no_tables r') /\
  (forall id ptr, participants_ r !! id = Some ptr -> exists q, people w' !! ptr = Some q /\ state_ q = Disconnected).
Proof.
  intros [OK IO] Hord. unfold Close, IsClosed. case_bool_decide as Hc.
  { intros [= <- <- <-]. split; [done|]. split; [done|]. split; [done|]. split; [by left|]. split; [done|].
    intros id ptr Hid. assert (participants_ r = ∅) as E.
    { destruct (decide (participants_ r = ∅)) as [|Hn]; [done|]. apply (ok_state _ IO) in Hn. congruence. }
    rewrite E in Hid. by rewrite lookup_empty in Hid. }
  destruct (snapshot_all _ w _) as [r1 removed] eqn:E1. apply snapshot_all_frame in E1 as (x & ->). simpl.
  destruct (leave_all w _) as [w1 calls] eqn:E2. intros [= <- <- <-].
  destruct (leave_all_effect _ _ _ _ E2) as (P2 & F2 & D2).
  assert (Hm : forall id ptr, participants_ r !! id = Some ptr ->
    ptr ∈ omap (fun id => participants_ r !! id) (ord (elements (dom (participants_ r))))).
  { intros id ptr Hid. apply list_elem_of_omap. exists id. split; [|done]. rewrite Hord. apply elem_of_elements, elem_of_dom.
    by exists ptr. }
  split; [split; [by apply no_tables_ok|]|].
  { constructor; simpl; [by rewrite map_size_empty|done|]. rewrite map_size_empty. lia. }
  split; [done|]. split; [done|]. split; [|split; [done|]].
  - intros y. destruct (decide (y ∈ omap (fun id => participants_ r !! id) (ord (elements (dom (participants_ r)))))) as [Hy|Hy].
    + apply list_elem_of_omap in Hy as (id & _ & Hid). right. by exists id.
    + left. by apply F2.
  - intros id ptr Hid. destruct (ok_member OK _ _ Hid) as (_ & p & Hp & _).
    destruct (D2 _ _ Hp) as (q & Hq & Hd). exists q. split; [done|]. apply Hd. left. by eapply Hm.
Qed.

(** ** Steps *)

(** What others do to a participant: its connection, its sessions, its name and its state. *)
Inductive person_step (x : W) (ptr : Z) (p : Participant) : Participant -> Prop :=
| ps_bind_signaling c : person_step x ptr p (fst (BindSignaling p c))
| ps_unbind_signaling b : person_step x ptr p (fst (UnbindSignaling p b))
| ps_bind_session s role : person_step x ptr p (fst (BindRoleSession x p s role))
| ps_unbind_session s : person_step x ptr p (fst (UnbindMediaSession p s))
| ps_bind_endpoint e : person_step x ptr p (fst (BindEndpoint x p e))
| ps_set_name n : person_step x ptr p (SetName p n)
| ps_update_info n props perms : person_step x ptr p (UpdateInfo p n props perms)
| ps_set_state s : person_step x ptr p (fst (SetState ptr p s))
| ps_on_published cb : person_step x ptr p (OnTrackPublished p cb)
| ps_on_unpublished cb : person_step x ptr p (OnTrackUnpublished p cb)
| ps_on_state cb : person_step x ptr p (OnStateChanged p cb)
| ps_on_leave cb : person_step x ptr p (OnLeave p cb).

Lemma person_step_tracks x ptr p q : person_step x ptr p q -> same_tracks p q.
Proof.
  intros [c|b|s role|s|e|n|n props perms|s|cb|cb|cb|cb]; try done.
  - unfold BindSignaling. by destruct (_ || _).
  - unfold UnbindSignaling. by destruct (_ || _).
  - unfold BindRoleSession. by repeat (case_match; try done).
  - unfold UnbindMediaSession. by repeat (case_match; try done).
  - unfold BindEndpoint. by repeat (case_match; try done).
  - apply SetState_tracks.
Qed.

(** The public methods of a participant that change its own lists of tracks, and the state of
    the endpoints afterwards. *)
Inductive track_step (x : W) (ptr : Z) (p : Participant) : W * Participant -> Prop :=
| ts_add tr sid notify : track_step x ptr p (x, fst (fst (AddPublishedTrack ptr p tr sid notify)))
| ts_remove t : track_step x ptr p (x, fst (fst (RemovePublishedTrack ptr p t)))
| ts_subscribe t : track_step x ptr p (x, fst (Participant.SubscribeTrack p t))
| ts_unsubscribe t : track_step x ptr p (x, fst (Participant.UnsubscribeTrack p t))
| ts_leave : track_step x ptr p (fst (Participant.Leave x ptr p)).

Lemma track_step_id x ptr p e q : track_step x ptr p (e, q) -> Id q = Id p.
Proof.
  intros H. inversion H as [tr sid notify Eq|t Eq|t Eq|t Eq|Eq]; clear H; subst; try done.
  - unfold AddPublishedTrack. by repeat case_match.
  - unfold RemovePublishedTrack. by case_match.
  - unfold Participant.SubscribeTrack. by case_match.
  - destruct (Participant.Leave x ptr p) as [[e' q'] calls] eqn:El. simpl in Eq. simplify_eq. by eapply Leave_tracks.
Qed.

(** A step.  [own] names the participants that look after lists of tracks of their own: one of
    them may bring tracks along when it joins, and its track methods may be called by others
    than the room, as those of any participant may that is not a member. *)
Inductive room_step (own : gset str) : Room * World W -> Room * World W -> Prop :=
| rs_join ord now r w ptr : (forall l, ord l ≡ₚ l) ->
    (forall p, people w !! ptr = Some p -> Id p ∉ own -> no_tracks p) ->
    room_step own (r, w) (let '(r', w', _, _) := Join ord now r w ptr in (r', w'))
| rs_leave ord now r w id : (forall l, ord l ≡ₚ l) ->
    room_step own (r, w) (let '(r', w', _, _) := Leave ord now r w id in (r', w'))
| rs_publish ord r w id t x pt source : (forall l, ord l ≡ₚ l) ->
    room_step own (r, w) (let '(r', w', _, _) := PublishTrack ord r w id t x pt source in (r', w'))
| rs_unpublish ord r w t : (forall l, ord l ≡ₚ l) ->
    room_step own (r, w) (let '(r', w', _, _) := UnpublishTrack ord r w t in (r', w'))
| rs_subscribe r w id t : room_step own (r, w) (fst (SubscribeTrack r w id t))
| rs_unsubscribe r w id t : room_step own (r, w) (fst (UnsubscribeTrack r w id t))
| rs_update r w id n props perms :
    room_step own (r, w) (let '(r', w', _, _) := UpdateParticipant r w id n props perms in (r', w'))
| rs_notify r w id : room_step own (r, w) (fst (NotifyParticipantChanged r w id), w)
| rs_close ord r w : (forall l, ord l ≡ₚ l) -> room_step own (r, w) (let '(r', w', _) := Close ord r w in (r', w'))
| rs_on_changed cb r w : room_step own (r, w) (SetOnParticipantChanged cb r, w)
| rs_on_closed cb r w : room_step own (r, w) (SetOnRoomClosed cb r, w)
| rs_person r w ptr p q : people w !! ptr = Some p -> person_step (eps w) ptr p q -> room_step own (r, w) (r, set_person ptr q w)
| rs_tracks r w ptr p e q : people w !! ptr = Some p -> track_step (eps w) ptr p (e, q) ->
    Id p ∈ own \/ (forall id, participants_ r !! id <> Some ptr) ->
    room_step own (r, w) (r, set_eps e (set_person ptr q w))
| rs_new_person r w ptr identity props perms : people w !! ptr = None ->
    room_step own (r, w) (r, set_person ptr (new_Participant identity props perms) w)
| rs_outside r w pubs' eps' : room_step own (r, w) (r, mkWorld (people w) pubs' eps').

Lemma SubscribeTrack_ok gone r w s t : room_ok_but gone r w -> room_ok_but gone (fst (fst (SubscribeTrack r w s t))) (snd (fst (SubscribeTrack r w s t))).
Proof.
  intros [OK IO]. unfold SubscribeTrack. destruct (SubscribeTrackLocked r w s t) as [[r' w'] ok] eqn:E.
  destruct (subscribe_effect _ _ _ _ _ _ _ _ OK E) as ((a & b & ->) & _ & OK' & _). split; [done|]. by apply (info_ext r).
Qed.

Lemma UnsubscribeTrack_ok gone r w s t : room_ok_but gone r w -> room_ok_but gone (fst (fst (UnsubscribeTrack r w s t))) (snd (fst (UnsubscribeTrack r w s t))).
Proof.
  intros [OK IO]. unfold UnsubscribeTrack. destruct (UnsubscribeTrackLocked r w s t) as [r' w'] eqn:E.
  destruct (unsubscribe_effect _ _ _ _ _ _ _ OK E) as ((a & b & ->) & _ & OK' & _). split; [done|]. by apply (info_ext r).
Qed.

Lemma UpdateInfo_tracks p n props perms : same_tracks p (UpdateInfo p n props perms).
Proof. done. Qed.

(** A participant in [gone] may change its own lists. *)
Lemma own_lists_ok gone r ps ptr p q :
  tables_ok gone r ps -> ps !! ptr = Some p -> Id q = Id p -> Id p ∈ gone -> tables_ok gone r (<[ptr := q]> ps).
Proof.
  intros [M T P I S F] Hp Hid Hg.
  assert (Hself : forall id, participants_ r !! id = Some ptr -> id = Id p).
  { intros id Hx. destruct (M _ _ Hx) as (_ & p' & Hp' & <- & _). by simplify_eq. }
  constructor; try done.
  - intros id x Hx. destruct (M _ _ Hx) as (Hne & p' & Hp' & Hi & Hs). split; [done|].
    destruct (decide (ptr = x)) as [<-|Hd]; [|exists p'; by rewrite lookup_insert_ne].
    exists q. rewrite lookup_insert_eq. rewrite (Hself _ Hx). split; [done|]. split; [done|]. by intros [].
  - intros t i Ht. destruct (T _ _ Ht) as (Hne & x & p' & Hx & Hp' & Hi). split; [done|].
    destruct (decide (ptr = x)) as [<-|Hd]; [|exists x, p'; by rewrite lookup_insert_ne].
    exists ptr, q. rewrite lookup_insert_eq. split; [done|]. split; [done|]. intros Hn. rewrite (Hself _ Hx) in Hn. done.
  - intros id x p' t tr Hn Hx Hp' Ht. destruct (decide (ptr = x)) as [<-|Hd]; [rewrite (Hself _ Hx) in Hn; done|].
    rewrite lookup_insert_ne in Hp' by done. by eapply P.
Qed.

Lemma room_step_ok own r w r' w' : room_step own (r, w) (r', w') -> room_ok_but own r w -> room_ok_but own r' w'.
Proof.
  intros Hs OK. inversion Hs; subst; clear Hs.
  - destruct (Join ord now r w ptr) as [[[? ?] ok] ev] eqn:E. simplify_eq. by eapply Join_effect.
  - destruct (Leave ord now r w id) as [[[? ?] ok] ev] eqn:E. simplify_eq. by eapply Leave_effect.
  - destruct (PublishTrack ord r w id t x pt source) as [[[? ?] ok] ev] eqn:E. simplify_eq. by eapply PublishTrack_effect.
  - destruct (UnpublishTrack ord r w t) as [[[? ?] ok] ev] eqn:E. simplify_eq. by eapply UnpublishTrack_effect.
  - pose proof (SubscribeTrack_ok _ _ _ id t OK) as G. destruct (fst (SubscribeTrack r w id t)). by simplify_eq.
  - pose proof (UnsubscribeTrack_ok _ _ _ id t OK) as G. destruct (fst (UnsubscribeTrack r w id t)). by simplify_eq.
  - unfold UpdateParticipant in *. destruct (find_participant r w id) as [[ptr p]|] eqn:E; simplify_eq; [|done].
    apply find_participant_Some in E as [_ Hp]. destruct OK as [OK IO]. split; [|by apply (info_ext r)].
    apply (tables_ext _ r); try done. by eapply person_ok.
  - destruct (NotifyParticipantChanged_rev r w' id) as (x & ->). destruct OK as [OK IO].
    split; [by apply (tables_ext _ r)|by apply (info_ext r)].
  - destruct (Close ord r w) as [[? ?] ev] eqn:E. simplify_eq. by eapply Close_effect.
  - destruct OK as [OK IO]. split; [by apply (tables_ext _ r)|by apply (info_ext r)].
  - destruct OK as [OK IO]. split; [by apply (tables_ext _ r)|by apply (info_ext r)].
  - destruct OK as [OK IO]. split; [|done]. eapply person_ok; [done|done|]. by eapply person_step_tracks.
  - destruct OK as [OK IO]. split; [|done]. simpl.
    match goal with H : _ \/ _ |- _ => destruct H as [Hown|Hout] end; [|by apply stranger_ok].
    eapply own_lists_ok; [done|done| |done]. by eapply track_step_id.
  - destruct OK as [OK IO]. split; [|done]. apply stranger_ok; [done|]. intros id Hid.
    destruct (ok_member OK _ _ Hid) as (_ & p & Hp & _). congruence.
  - done.
Qed.

Lemma new_room_ok gone now id n options w :
  room_ok_but gone (new_Room now (mkRoomInfo id n 0 0 0 0 RoomCreated) options) w.
Proof.
  split; [by apply no_tables_ok|]. constructor; simpl; [by rewrite map_size_empty|done|]. rewrite map_size_empty. lia.
Qed.

Lemma room_run_ok own s s' : rtc (room_step own) s s' -> room_ok_but own (fst s) (snd s) -> room_ok_but own (fst s') (snd s').
Proof.
  induction 1 as [s|[r1 w1] [r2 w2] s3 Hs _ IH]; [done|]. intros OK. apply IH. by eapply room_step_ok.
Qed.

(** C30. In every run of a room, whatever tracks a joiner brings along and whoever calls the
    participants' own methods, the table of subscribers and the table of subscriptions are
    inverse to each other; subscribers are members, subscribed tracks are published by someone
    else who is a member; the count and the state of the room follow its members, whose number
    never exceeds the configured maximum. A member's own record lists exactly the tracks and
    the subscriptions the room lists for it, unless one of its name (a name in [own]) was let in
    with tracks, or had its track methods called, while it was a member, by others than the
    room. *)
Theorem room_tables_agree own now id n options w0 r w :
  rtc (room_step own) (new_Room now (mkRoomInfo id n 0 0 0 0 RoomCreated) options, w0) (r, w) ->
  room_ok_but own r w.
Proof.
  intros H. apply (room_run_ok _ _ _ H). apply new_room_ok.
Qed.

Definition reachable (own : gset str) r w : Prop :=
  exists now id n options w0, rtc (room_step own) (new_Room now (mkRoomInfo id n 0 0 0 0 RoomCreated) options, w0) (r, w).

Lemma room_reachable_ok own r w : reachable own r w -> room_ok_but own r w.
Proof. intros (now & id & n & options & w0 & H). apply (room_run_ok _ _ _ H), new_room_ok. Qed.

(** When a member leaves, the room forgets it and its tracks and nothing
    else: the other members stay, a track remains exactly when someone else published it,
    a subscription remains exactly when its subscriber is someone else and its track
    remains.  One unpublish event is sent for each of its tracks.  The participant itself
    ends up disconnected, without tracks, sessions or signaling connection. *)
Theorem room_leave_complete own ord now r w id ptr p :
  reachable own r w -> (forall l, ord l ≡ₚ l) -> participants_ r !! id = Some ptr -> people w !! ptr = Some p ->
  state_ p <> Disconnected ->
  exists r' w' events q removed, Leave ord now r w id = (r', w', true, events) /\
    participants_ r' = delete id (participants_ r) /\
    (forall u, published_tracks_ r' !! u =
       published_tracks_ r !! u ≫= fun i => if decide (publisher_id i = id) then None else Some i) /\
    (forall x u, x ∈ subs_of_track r' u <-> x ∈ subs_of_track r u /\ x <> id /\ is_Some (published_tracks_ r' !! u)) /\
    removed ≡ₚ tracks_where (fun publisher => bool_decide (publisher = id)) r /\
    omap unpublished events = List.map (fun t => (t, id)) removed /\
    people w' !! ptr = Some q /\ state_ q = Disconnected /\ no_tracks q /\ HasMediaBinding q = false /\
    connection_id (signaling_ q) = [].
Proof.
  intros OK Hord Hid Hp Hd. apply room_reachable_ok in OK.
  destruct (Leave ord now r w id) as [[[r' w'] ok] events] eqn:E.
  destruct (Leave_effect _ _ _ _ _ _ _ _ _ _ OK Hord E) as (_ & _ & Hf & _ & _ & Ht).
  destruct ok; [|destruct Hf as (_ & _ & ?); [done|congruence]].
  destruct Ht as (ptr' & p' & q & removed & H1 & H2 & H3 & H4 & H5 & H6 & H7 & H8 & H9); [done|]. simplify_eq.
  destruct (H4 Hd) as (H4a & H4b & H4c & H4d). exists r', w', events, q, removed. tauto.
Qed.

(** ** A closed room *)

Lemma closed_empty gone r w : room_ok_but gone r w -> room_state (info_ r) = RoomClosed -> participants_ r = ∅.
Proof.
  intros [_ IO] Hc. destruct (decide (participants_ r = ∅)) as [|Hn]; [done|]. apply (ok_state _ IO) in Hn. congruence.
Qed.

Lemma closed_step own r w r' w' :
  room_step own (r, w) (r', w') -> room_ok_but own r w -> room_state (info_ r) = RoomClosed -> room_state (info_ r') = RoomClosed.
Proof.
  intros Hs OK Hc. pose proof (closed_empty _ _ _ OK Hc) as He.
  assert (Hcl : IsClosed r = true) by (unfold IsClosed; by rewrite Hc).
  assert (Hnone : forall id, find_participant r w id = None) by (intros id; unfold find_participant; by rewrite He, lookup_empty).
  inversion Hs; subst; clear Hs; try done.
  - destruct (people w !! ptr) as [p|] eqn:Ep; unfold Join, CanJoinLocked in *; rewrite Ep in *; [rewrite Hcl in *|]; by simplify_eq/=.
  - unfold Leave in *. rewrite Hnone in *. by simplify_eq.
  - unfold PublishTrack in *. rewrite Hnone in *. repeat case_match; by simplify_eq.
  - unfold UnpublishTrack in *. destruct (empty t); simplify_eq; [done|].
    destruct (published_tracks_ r !! t) as [i|] eqn:E; simplify_eq; [|done].
    destruct (ok_track (proj1 OK) _ _ E) as (_ & ptr & p & Hptr & _). by rewrite He, lookup_empty in Hptr.
  - unfold SubscribeTrack, SubscribeTrackLocked in *. rewrite Hnone in *. destruct (_ || _); by simplify_eq/=.
  - unfold UnsubscribeTrack, UnsubscribeTrackLocked in *. rewrite Hnone in *. by simplify_eq/=.
  - unfold UpdateParticipant in *. rewrite Hnone in *. by simplify_eq.
  - destruct (NotifyParticipantChanged_rev r w' id) as (x & ->). done.
  - unfold Close in *. rewrite Hcl in *. by simplify_eq.
Qed.

(** Closing a room ends it for good: every member is disconnected, and from then
    on, whatever is called, the room stays closed and has no members, no tracks and no
    subscriptions. *)
Theorem room_close_final own ord r w r' w' events r'' w'' :
  reachable own r w -> (forall l, ord l ≡ₚ l) -> Close ord r w = (r', w', events) ->
  rtc (room_step own) (r', w') (r'', w'') ->
  (forall id ptr, participants_ r !! id = Some ptr -> exists q, people w' !! ptr = Some q /\ state_ q = Disconnected) /\
  room_state (info_ r'') = RoomClosed /\ participants_ r'' = ∅ /\ published_tracks_ r'' = ∅ /\
  (forall x u, x ∉ subs_of_track r'' u).
Proof.
  intros OK Hord E Hrun. apply room_reachable_ok in OK.
  destruct (Close_effect _ _ _ _ _ _ _ OK Hord E) as (OK' & _ & Hc' & _ & _ & Hd). split; [done|].
  assert (H : room_ok_but own r'' w'' /\ room_state (info_ r'') = RoomClosed).
  { change (room_ok_but own (fst (r'', w'')) (snd (r'', w'')) /\ room_state (info_ (fst (r'', w''))) = RoomClosed).
    change (room_ok_but own (fst (r', w')) (snd (r', w'))) in OK'. change (room_state (info_ (fst (r', w'))) = RoomClosed) in Hc'.
    clear -Hrun OK' Hc'. induction Hrun as [s|[r1 w1] [r2 w2] s3 Hs _ IH]; [done|].
    apply IH; [by eapply room_step_ok|by eapply closed_step]. }
  destruct H as [OK'' Hc'']. pose proof (closed_empty _ _ _ OK'' Hc'') as He. destruct OK'' as [OK'' _].
  assert (Ht : published_tracks_ r'' = ∅).
  { apply map_empty. intros t. destruct (published_tracks_ r'' !! t) as [i|] eqn:Ei; [|done].
    destruct (ok_track OK'' _ _ Ei) as (_ & ptr & p & Hptr & _). by rewrite He, lookup_empty in Hptr. }
  do 3 (split; [done|]). intros x u Hx. destruct (ok_sub OK'' _ _ Hx) as ([y Hy] & _). by rewrite He, lookup_empty in Hy.
Qed.

End Runs.
