(* ===== verification/RoomMeeting.v ===== *)
(** * Meetings and signaling

    Automatic subscription in rooms without media, and the signaling connection of a
    participant over time. *)
From S2P Require Import Prelude Names Participant Room RoomInv RoomLoops RoomOps RoomProps.

Section Meetings.
Context {W : Type} {EP : SfuEndpointOps W}.
Implicit Types (r : Room) (w : World W).

(** ** Automatic subscription *)

(** Members come and go and publish; nobody has media and nobody unsubscribes by hand. *)
Inductive meeting_step : Room * World W -> Room * World W -> Prop :=
| ms_join ord now r w ptr : (forall l, ord l ≡ₚ l) ->
    (forall p, people w !! ptr = Some p -> no_tracks p /\ HasMediaBinding p = false) ->
    meeting_step (r, w) (let '(r', w', _, _) := Join ord now r w ptr in (r', w'))
| ms_leave ord now r w id : (forall l, ord l ≡ₚ l) ->
    meeting_step (r, w) (let '(r', w', _, _) := Leave ord now r w id in (r', w'))
| ms_publish ord r w id t x pt source : (forall l, ord l ≡ₚ l) ->
    meeting_step (r, w) (let '(r', w', _, _) := PublishTrack ord r w id t x pt source in (r', w'))
| ms_unpublish ord r w t : (forall l, ord l ≡ₚ l) ->
    meeting_step (r, w) (let '(r', w', _, _) := UnpublishTrack ord r w t in (r', w'))
| ms_new_person r w ptr identity props perms : people w !! ptr = None ->
    meeting_step (r, w) (r, set_person ptr (new_Participant identity props perms) w)
| ms_outside r w pubs' eps' : meeting_step (r, w) (r, mkWorld (people w) pubs' eps').

(** Every member is subscribed to every track of the others. *)
Definition complete r : Prop := forall id t i,
  is_Some (participants_ r !! id) -> published_tracks_ r !! t = Some i -> publisher_id i <> id -> id ∈ subs_of_track r t.

Definition meeting_ok r w : Prop :=
  room_ok r w /\ auto_subscribe (options_ r) = true /\ no_media r w /\ complete r.

Lemma join_meeting ord now r w ptr r' w' ok ev :
  meeting_ok r w -> (forall l, ord l ≡ₚ l) -> (forall p, people w !! ptr = Some p -> no_tracks p /\ HasMediaBinding p = false) ->
  Join ord now r w ptr = (r', w', ok, ev) -> meeting_ok r' w'.
Proof.
  intros (OK & A & N & C) Hord Hp E.
  destruct (Join_effect _ _ _ _ _ _ _ _ _ _ OK (fun p H _ => proj1 (Hp p H)) E) as (OK' & _ & Hf & _ & Ht & Ho & Hn).
  destruct (Hn N (fun p H => proj2 (Hp p H))) as [N' Hc]. split; [done|]. split; [congruence|]. split; [done|].
  destruct ok; [|by destruct Hf as [-> ->]].
  destruct Ht as (p & Hptr & _ & E1 & E2 & L & _); [done|]. intros id t i Hid Hi Hne. rewrite E2 in Hi.
  rewrite E1 in Hid. destruct (decide (id = Id p)) as [->|Hd]; [by eapply Hc|].
  rewrite lookup_insert_ne in Hid by done. by eapply L, C.
Qed.

Lemma leave_meeting ord now r w id r' w' ok ev :
  meeting_ok r w -> (forall l, ord l ≡ₚ l) -> Leave ord now r w id = (r', w', ok, ev) -> meeting_ok r' w'.
Proof.
  intros (OK & A & N & C) Hord E.
  destruct (Leave_effect _ _ _ _ _ _ _ _ _ _ OK Hord E) as (OK' & _ & Hf & (Ho & Hn) & _ & Ht).
  split; [done|]. split; [congruence|]. split; [by apply Hn|].
  destruct ok; [|by destruct Hf as (-> & -> & _)].
  destruct Ht as (ptr & p & q & rem & _ & _ & _ & _ & E1 & E2 & E3 & _); [done|]. intros x t i Hx Hi Hne.
  apply E3. rewrite E1 in Hx. destruct Hx as [y Hy]. apply lookup_delete_Some in Hy as [Hd Hy].
  split; [|split; [done|by eexists]]. rewrite E2 in Hi. destruct (published_tracks_ r !! t) as [j|] eqn:Ej; [|done].
  simpl in Hi. destruct (decide (publisher_id j = id)); [done|]. simplify_eq. apply (C x t i); [by eexists|done|done].
Qed.

Lemma publish_meeting ord r w id t x pt source r' w' ok ev :
  meeting_ok r w -> (forall l, ord l ≡ₚ l) -> PublishTrack ord r w id t x pt source = (r', w', ok, ev) -> meeting_ok r' w'.
Proof.
  intros (OK & A & N & C) Hord E.
  destruct (PublishTrack_effect _ _ _ _ _ _ _ _ _ _ _ _ _ OK E) as (OK' & _ & _ & E0 & Hf & Ht & Ho & Hn).
  split; [done|]. split; [congruence|]. split; [by apply Hn|].
  destruct ok; [|by destruct Hf as [-> _]].
  destruct Ht as (u & i & _ & _ & _ & _ & Hpub & _ & E1 & L & _ & Hc); [done|]. intros y v j Hy Hj Hne.
  rewrite E0 in Hy. rewrite E1 in Hj. apply lookup_insert_Some in Hj as [[<- <-]|[_ Hj]].
  - apply Hc; try done. congruence.
  - by eapply L, C.
Qed.

Lemma unpublish_meeting ord r w t r' w' ok ev :
  meeting_ok r w -> (forall l, ord l ≡ₚ l) -> UnpublishTrack ord r w t = (r', w', ok, ev) -> meeting_ok r' w'.
Proof.
  intros (OK & A & N & C) Hord E.
  destruct (UnpublishTrack_effect _ _ _ _ _ _ _ _ _ OK Hord E) as (OK' & _ & _ & E0 & (Ho & Hn) & Hf & Ht).
  split; [done|]. split; [congruence|]. split; [by apply Hn|].
  destruct ok; [|by destruct Hf as (-> & -> & _)].
  destruct Ht as (_ & E1 & E2); [done|]. intros y v j Hy Hj Hne. apply E2.
  rewrite E0 in Hy. rewrite E1 in Hj. apply lookup_delete_Some in Hj as [Hd Hj]. split; [by eapply C|done].
Qed.

Lemma meeting_step_ok r w r' w' : meeting_step (r, w) (r', w') -> meeting_ok r w -> meeting_ok r' w'.
Proof.
  intros Hs OK. inversion Hs; subst; clear Hs.
  - destruct (Join ord now r w ptr) as [[[? ?] ok] ev] eqn:E. simplify_eq. by eapply join_meeting.
  - destruct (Leave ord now r w id) as [[[? ?] ok] ev] eqn:E. simplify_eq. by eapply leave_meeting.
  - destruct (PublishTrack ord r w id t x pt source) as [[[? ?] ok] ev] eqn:E. simplify_eq. by eapply publish_meeting.
  - destruct (UnpublishTrack ord r w t) as [[[? ?] ok] ev] eqn:E. simplify_eq. by eapply unpublish_meeting.
  - destruct OK as ([OK IO] & A & N & C). assert (Hs : forall id, participants_ r' !! id <> Some ptr).
    { intros id Hid. destruct (ok_member OK _ _ Hid) as (_ & p & Hp & _). congruence. }
    split; [split; [by apply stranger_ok|done]|]. split; [done|]. split; [|done].
    intros id y p Hid Hp. simpl in Hp. rewrite lookup_insert_ne in Hp; [by eapply N|]. intros ->. by eapply Hs.
  - done.
Qed.

(** In a room with automatic subscription and without media, whoever joins,
    leaves, publishes and unpublishes and in whatever order, the subscribers of a track are
    exactly the members other than its publisher. *)
Theorem auto_subscribe_complete now id n options w0 r w :
  auto_subscribe options = true ->
  rtc meeting_step (new_Room now (mkRoomInfo id n 0 0 0 0 RoomCreated) options, w0) (r, w) ->
  forall p t, p ∈ subs_of_track r t <->
    is_Some (participants_ r !! p) /\ exists i, published_tracks_ r !! t = Some i /\ publisher_id i <> p.
Proof.
  intros A H.
  assert (OK : meeting_ok (fst (r, w)) (snd (r, w))).
  { assert (H0 : meeting_ok (fst (new_Room now (mkRoomInfo id n 0 0 0 0 RoomCreated) options, w0))
      (snd (new_Room now (mkRoomInfo id n 0 0 0 0 RoomCreated) options, w0))).
    { split; [apply new_room_ok|]. split; [done|]. by split. }
    revert H0. induction H as [s|[r1 w1] [r2 w2] s3 Hs _ IH]; [done|]. intros H0. apply IH. by eapply meeting_step_ok. }
  destruct OK as ([OK _] & _ & _ & C). intros p t. split; [apply (ok_sub OK)|].
  intros (Hp & i & Hi & Hne). by eapply C.
Qed.

(** ** The signaling connection *)

(** What happens to a participant's record, by whoever calls it. *)
Inductive connection_step (x : W) (ptr : Z) (p : Participant) : Participant -> Prop :=
| cs_person q : person_step x ptr p q -> connection_step x ptr p q
| cs_leave : connection_step x ptr p (snd (fst (Participant.Leave x ptr p)))
| cs_tracks a b : connection_step x ptr p (set_published a (set_subscribed b p))
| cs_update n props perms : connection_step x ptr p (UpdateInfo p n props perms).

Definition connection_run (ptr : Z) : Participant -> Participant -> Prop :=
  rtc (fun p q => exists x, connection_step x ptr p q).

(** The generation never decreases, and while it stays the same a lost connection does not
    come back under another name. *)
Definition newer (a b : SignalingBinding) : Prop :=
  generation a < generation b \/ (generation a = generation b /\ (connection_id b = connection_id a \/ connection_id b = [])).

Lemma connection_step_newer x ptr p q : connection_step x ptr p q -> newer (signaling_ p) (signaling_ q).
Proof.
  assert (Hsame : forall q, signaling_ q = signaling_ p -> newer (signaling_ p) (signaling_ q))
    by (intros ? ->; right; by auto).
  intros [q' Hq| |a b|n props perms]; try by apply Hsame.
  - destruct Hq as [c|b|s role|s|e|n|n props perms|s|cb|cb|cb|cb]; try by apply Hsame.
    + unfold BindSignaling. destruct (_ || _); [by apply Hsame|]. left. simpl. lia.
    + unfold UnbindSignaling. destruct (_ || _); [by apply Hsame|]. right. simpl. auto.
    + apply Hsame. unfold BindRoleSession. by repeat (case_match; try done).
    + apply Hsame. unfold UnbindMediaSession. by repeat (case_match; try done).
    + apply Hsame. unfold BindEndpoint. by repeat (case_match; try done).
    + apply Hsame. unfold SetState. by case_bool_decide.
  - unfold Participant.Leave. destruct (IsDisconnected p); [by apply Hsame|]. right. simpl. auto.
Qed.

Lemma newer_trans a b c : newer a b -> newer b c -> newer a c.
Proof. unfold newer. intros [H|[H1 [H2|H2]]] [G|[G1 [G2|G2]]]; try (left; lia); right; (split; [lia|]); rewrite ?G2, ?H2; auto. Qed.

Lemma connection_run_newer ptr p q : connection_run ptr p q -> newer (signaling_ p) (signaling_ q).
Proof.
  induction 1 as [p|p1 p2 p3 (x & Hx) _ IH]; [right; by auto|]. eapply newer_trans; [by eapply connection_step_newer|done].
Qed.

(** A delayed close never detaches the connection that replaced it: once a
    participant has been bound again, the binding that the old connection remembers is
    refused and changes nothing, however much happens in between and even when the new
    connection has the old one's name. *)
Theorem stale_unbind_refused ptr p c q q' :
  connection_run ptr p q -> BindSignaling q c = (q', true) -> forall q'', connection_run ptr q' q'' ->
  UnbindSignaling q'' (signaling_ p) = (q'', false) /\
  (signaling_ q'' = signaling_ q' -> UnbindSignaling q'' (signaling_ q') = (set_signaling (mkSignaling [] (generation (signaling_ q'))) q'', true)).
Proof.
  intros R1 B q'' R2. apply connection_run_newer in R1, R2.
  unfold BindSignaling in B. destruct (_ || _) eqn:Eb in B; [done|]. simplify_eq/=. bool_hyps.
  assert (generation (signaling_ p) < generation (signaling_ q'')).
  { unfold newer in R1, R2. simpl in R2. lia. }
  split.
  - unfold UnbindSignaling. destruct (generation (signaling_ p) =? generation (signaling_ q'')) eqn:E; [bool_hyps; lia|].
    by rewrite orb_true_r.
  - intros E. unfold UnbindSignaling. rewrite E. simpl.
    rewrite bool_decide_eq_true_2, Z.eqb_refl by done. simpl. by destruct (empty c).
Qed.

End Meetings.
