(* ===== verification/RoomSystem.v ===== *)
(** * All rooms under the command handler

    The invariant of the directory of rooms and of the objects that rooms share, for any
    sequence of commands to [RoomCommandHandler]. *)
From S2P Require Import Prelude Names Participant Room RoomInv RoomLoops RoomOps RoomProps.

Lemma tables_people gone r ps ps' :
  tables_ok gone r ps -> (forall id ptr, participants_ r !! id = Some ptr -> ps' !! ptr = ps !! ptr) -> tables_ok gone r ps'.
Proof.
  intros [M T P I S F] H. constructor; try done.
  - intros id ptr Hid. destruct (M _ _ Hid) as (Hne & p & Hp & Hq). split; [done|]. exists p. by rewrite (H _ _ Hid).
  - intros t i Ht. destruct (T _ _ Ht) as (Hne & ptr & p & Hptr & Hp). split; [done|]. exists ptr, p. by rewrite (H _ _ Hptr).
  - intros id ptr p t tr Hg Hid Hp. rewrite (H _ _ Hid) in Hp. by apply (P id ptr p).
Qed.

Section Handler.
Context {W : Type} {EP : SfuEndpointOps W}.
Implicit Types (r : Room) (w : World W) (s : System W).

(** ** The name of a room never changes *)

Definition keeps_id r r' : Prop := room_id (info_ r') = room_id (info_ r).

Lemma subscribe_id r w p t : keeps_id r (fst (fst (SubscribeTrackLocked r w p t))).
Proof. unfold SubscribeTrackLocked, keeps_id. by repeat (case_match; simplify_eq/=; try done). Qed.

Lemma subscribe_all_id pairs r w : keeps_id r (fst (subscribe_all r w pairs)).
Proof.
  revert r w. induction pairs as [|[p t] pairs IH]; intros r w; [done|]. simpl.
  pose proof (subscribe_id r w p t) as H. destruct (SubscribeTrackLocked r w p t) as [[r1 w1] ok].
  unfold keeps_id in *. simpl in H. by rewrite IH.
Qed.

Lemma unsubscribe_id r w p t : keeps_id r (fst (UnsubscribeTrackLocked r w p t)).
Proof. unfold UnsubscribeTrackLocked, keeps_id. by repeat (case_match; simplify_eq/=; try done). Qed.

Lemma unsubscribe_all_id pairs r w : keeps_id r (fst (unsubscribe_all r w pairs)).
Proof.
  revert r w. induction pairs as [|[p t] pairs IH]; intros r w; [done|]. simpl.
  pose proof (unsubscribe_id r w p t) as H. destruct (UnsubscribeTrackLocked r w p t) as [r1 w1].
  unfold keeps_id in *. simpl in H. by rewrite IH.
Qed.

Lemma UpdateStateLocked_id r : keeps_id r (UpdateStateLocked r).
Proof. apply UpdateStateLocked_tables. Qed.

Lemma Join_id ord now r w ptr r' w' ok ev : Join ord now r w ptr = (r', w', ok, ev) -> keeps_id r r'.
Proof.
  unfold Join. intros H. destruct (people w !! ptr) as [p|]; [|by simplify_eq]. destruct (negb _); [by simplify_eq|].
  match type of H with context [subscribe_all ?a ?b ?c] => pose proof (subscribe_all_id c a b) as H1;
    assert (keeps_id r a) as H0 by (unfold keeps_id; by case_match); destruct (subscribe_all a b c) as [r1 w1] end.
  destruct (SetState _ _ _) as [q calls]. simpl in H1.
  match type of H with context [NotifyParticipantChanged ?a ?b ?c] =>
    destruct (NotifyParticipantChanged_rev a b c) as (x & Hx); destruct (NotifyParticipantChanged a b c) as [r2 evs] end.
  simpl in Hx. simplify_eq. pose proof (UpdateStateLocked_id r1). unfold keeps_id in *. simpl in *. congruence.
Qed.

Lemma remove_tracks_id ord tracks r w r' w' l : remove_tracks ord r w tracks = (r', w', l) -> keeps_id r r'.
Proof.
  revert r w r' w' l. induction tracks as [|t tracks IH]; intros r w r' w' l H; simpl in H; [by simplify_eq|].
  match type of H with context [unsubscribe_all ?a ?b ?c] => pose proof (unsubscribe_all_id c a b) as H1;
    destruct (unsubscribe_all a b c) as [r1 w1] end. simpl in H1.
  destruct (published_tracks_ r1 !! t) as [i|]; [|by simplify_eq].
  match type of H with context [remove_tracks _ ?a w1 tracks] => destruct (remove_tracks ord a w1 tracks) as [[r2 w2] more] eqn:E end.
  simplify_eq. apply IH in E. unfold keeps_id in *. simpl in E. congruence.
Qed.

Lemma Leave_id ord now r w id r' w' ok ev : Leave ord now r w id = (r', w', ok, ev) -> keeps_id r r'.
Proof.
  unfold Leave. intros H. destruct (find_participant r w id) as [[ptr p]|]; [|by simplify_eq].
  match type of H with context [unsubscribe_all ?a ?b ?c] => pose proof (unsubscribe_all_id c a b) as H1;
    destruct (unsubscribe_all a b c) as [r1 w1] end. simpl in H1.
  destruct (remove_tracks ord r1 w1 _) as [[r2 w2] removed] eqn:E. apply remove_tracks_id in E.
  destruct (Participant.Leave _ _ _) as [[e q] calls]. simplify_eq.
  unfold keeps_id in *. rewrite (proj2 (proj2 (proj2 (proj2 (proj2 (proj2 (proj2 (UpdateStateLocked_tables _)))))))). simpl. congruence.
Qed.

Lemma PublishTrack_id ord r w pid tr x pt src r' w' ok ev :
  PublishTrack ord r w pid tr x pt src = (r', w', ok, ev) -> keeps_id r r'.
Proof.
  unfold PublishTrack. intros H. destruct (pubs w !! tr) as [publication|]; [|by simplify_eq].
  destruct (empty _); [by simplify_eq|]. destruct (find_participant r w pid) as [[ptr p]|]; [|by simplify_eq].
  destruct (IsClosed r); [by simplify_eq|]. case_bool_decide; [by simplify_eq|].
  destruct (endpoint_accepts _ _ _ _ _) as [w1 ok1]. destruct ok1; simpl in H; [|by simplify_eq].
  destruct (AddPublishedTrack _ _ _ _ _) as [[q added] c]. destruct added; simpl in H; [|by simplify_eq].
  match type of H with context [subscribe_all ?a ?b ?c] => pose proof (subscribe_all_id c a b) as H1;
    destruct (subscribe_all a b c) as [r1 w2] end. by simplify_eq.
Qed.

Lemma UnpublishTrack_id ord r w t r' w' ok ev : UnpublishTrack ord r w t = (r', w', ok, ev) -> keeps_id r r'.
Proof.
  unfold UnpublishTrack. intros H. destruct (empty t); [by simplify_eq|].
  destruct (published_tracks_ r !! t) as [i|]; [|by simplify_eq].
  match type of H with context [unsubscribe_all ?a ?b ?c] => pose proof (unsubscribe_all_id c a b) as H1;
    destruct (unsubscribe_all a b c) as [r1 w1] end. simpl in H, H1.
  destruct (find_participant _ _ _) as [[ptr p]|]; [|by simplify_eq].
  destruct (RemovePublishedTrack _ _ _) as [[q b] calls]. by simplify_eq.
Qed.

Lemma Close_id ord r w r' w' ev : Close ord r w = (r', w', ev) -> keeps_id r r'.
Proof.
  unfold Close. intros H. destruct (IsClosed r); [by simplify_eq|].
  destruct (snapshot_all _ w _) as [r1 removed] eqn:E1. apply snapshot_all_frame in E1 as (x & ->).
  destruct (leave_all w _) as [w1 calls]. by simplify_eq.
Qed.

(** ** Replacing one room *)

Record sys_ok s : Prop := mkSysOk {
  sys_room : forall a r, rooms s !! a = Some r -> room_ok r (world s) /\ a < next_ptr s;
  sys_fresh : forall ptr p, people (world s) !! ptr = Some p -> ptr < next_ptr s;
  sys_apart : forall a b ra rb x y ptr, rooms s !! a = Some ra -> rooms s !! b = Some rb ->
    participants_ ra !! x = Some ptr -> participants_ rb !! y = Some ptr -> a = b;
  sys_directory : forall id a, rooms_ s !! id = Some a -> exists r, rooms s !! a = Some r /\ room_id (info_ r) = id }.

(** What a method of room [a] may do to the objects: [extra] is a participant that joins. *)
Definition local_change (r r' : Room) (w w' : World W) (extra : Z -> Prop) : Prop :=
  room_ok r' w' /\ keeps_id r r' /\
  (forall y, people w' !! y = people w !! y \/ extra y \/ exists id, participants_ r !! id = Some y) /\
  (forall id y, participants_ r' !! id = Some y -> extra y \/ exists id', participants_ r !! id' = Some y).

Lemma member_known s a r id ptr : sys_ok s -> rooms s !! a = Some r -> participants_ r !! id = Some ptr -> ptr < next_ptr s.
Proof.
  intros OK Ha Hid. destruct (sys_room _ OK _ _ Ha) as [[T _] _]. destruct (ok_member T _ _ Hid) as (_ & p & Hp & _).
  by eapply sys_fresh.
Qed.

Lemma replace_room s a r r' w' n :
  sys_ok s -> rooms s !! a = Some r -> next_ptr s <= n ->
  local_change r r' (world s) w' (fun y => next_ptr s <= y < n) ->
  sys_ok (mkSystem (<[a := r']> (rooms s)) (rooms_ s) w' n).
Proof.
  intros OK Ha Hn (OK' & Hid & Hp & Hm). constructor; simpl.
  - intros b rb Hb. apply lookup_insert_Some in Hb as [[<- <-]|[Hne Hb]].
    { split; [done|]. destruct (sys_room _ OK _ _ Ha). lia. }
    destruct (sys_room _ OK _ _ Hb) as [[T I] Hlt]. split; [|lia]. split; [|done].
    apply (tables_people _ _ (people (world s))); [done|]. intros id ptr Hx.
    destruct (Hp ptr) as [|[He|(y & Hy)]]; [done| |].
    + pose proof (member_known _ _ _ _ _ OK Hb Hx). lia.
    + destruct Hne. by eapply (sys_apart _ OK).
  - intros ptr p Hptr. destruct (Hp ptr) as [E|[He|(y & Hy)]]; [|lia|].
    + rewrite E in Hptr. apply (sys_fresh _ OK) in Hptr. lia.
    + pose proof (member_known _ _ _ _ _ OK Ha Hy). lia.
  - assert (Hout : forall b rb x y ptr, a <> b -> rooms s !! b = Some rb -> participants_ r' !! x = Some ptr ->
      participants_ rb !! y = Some ptr -> False).
    { intros b rb x y ptr Hne Hb Hx Hy. destruct (Hm _ _ Hx) as [He|(z & Hz)].
      - pose proof (member_known _ _ _ _ _ OK Hb Hy). lia.
      - apply Hne. by eapply (sys_apart _ OK). }
    intros b c rb rc x y ptr Hb Hc Hx Hy.
    apply lookup_insert_Some in Hb as [[<- <-]|[Hnb Hb]]; apply lookup_insert_Some in Hc as [[<- <-]|[Hnc Hc]]; try done.
    + by destruct (Hout _ _ _ _ _ Hnc Hc Hx Hy).
    + by destruct (Hout _ _ _ _ _ Hnb Hb Hy Hx).
    + by eapply (sys_apart _ OK).
  - intros id b Hb. destruct (sys_directory _ OK _ _ Hb) as (rb & Hrb & Hrid).
    destruct (decide (a = b)) as [<-|Hne]; [|exists rb; by rewrite lookup_insert_ne].
    exists r'. rewrite lookup_insert_eq. split; [done|]. simplify_eq. done.
Qed.

(** Methods that only touch the room's own members. *)
Lemma set_room_ok s a r r' w' :
  sys_ok s -> rooms s !! a = Some r -> local_change r r' (world s) w' (fun _ => False) -> sys_ok (set_room a r' w' s).
Proof.
  intros OK Ha (H1 & H2 & H3 & H4). apply (replace_room s a r); try done. split; [done|]. split; [done|]. split.
  - intros y. destruct (H3 y) as [|[|]]; auto. done.
  - intros id y Hy. destruct (H4 id y Hy); [done|by right].
Qed.

Lemma Leave_local ord now r w id r' w' ok ev :
  room_ok r w -> (forall l, ord l ≡ₚ l) -> Leave ord now r w id = (r', w', ok, ev) -> local_change r r' w w' (fun _ => False).
Proof.
  intros OK Hord E. pose proof (Leave_id _ _ _ _ _ _ _ _ _ E) as Hid.
  destruct (Leave_effect _ _ _ _ _ _ _ _ _ _ OK Hord E) as (OK' & _ & Hf & _ & Hp & Ht).
  split; [done|]. split; [done|]. split; [intros y; destruct (Hp y); auto|].
  intros z y Hy. right. destruct ok; [|destruct Hf as (-> & _); [done|by exists z]].
  destruct Ht as (ptr & p & q & rem & _ & _ & _ & _ & E1 & _); [done|]. rewrite E1 in Hy.
  apply lookup_delete_Some in Hy as [_ Hy]. by exists z.
Qed.

Lemma Publish_local ord r w pid tr x pt src r' w' ok ev :
  room_ok r w -> PublishTrack ord r w pid tr x pt src = (r', w', ok, ev) -> local_change r r' w w' (fun _ => False).
Proof.
  intros OK E. pose proof (PublishTrack_id _ _ _ _ _ _ _ _ _ _ _ _ E) as Hid.
  destruct (PublishTrack_effect _ _ _ _ _ _ _ _ _ _ _ _ _ OK E) as (OK' & _ & Hp & E1 & _).
  split; [done|]. split; [done|]. split; [intros y; destruct (Hp y); auto|].
  intros z y Hy. right. exists z. congruence.
Qed.

Lemma Unpublish_local ord r w t r' w' ok ev :
  room_ok r w -> (forall l, ord l ≡ₚ l) -> UnpublishTrack ord r w t = (r', w', ok, ev) -> local_change r r' w w' (fun _ => False).
Proof.
  intros OK Hord E. pose proof (UnpublishTrack_id _ _ _ _ _ _ _ _ E) as Hid.
  destruct (UnpublishTrack_effect _ _ _ _ _ _ _ _ _ OK Hord E) as (OK' & _ & Hp & E1 & _).
  split; [done|]. split; [done|]. split; [intros y; destruct (Hp y); auto|].
  intros z y Hy. right. exists z. congruence.
Qed.

Lemma Close_local ord r w r' w' ev :
  room_ok r w -> (forall l, ord l ≡ₚ l) -> Close ord r w = (r', w', ev) -> local_change r r' w w' (fun _ => False).
Proof.
  intros OK Hord E. pose proof (Close_id _ _ _ _ _ _ E) as Hid.
  destruct (Close_effect _ _ _ _ _ _ _ OK Hord E) as (OK' & _ & Hc & Hp & Hn & _).
  split; [done|]. split; [done|]. split; [intros y; destruct (Hp y); auto|].
  intros z y Hy. rewrite (closed_empty _ _ _ OK' Hc), lookup_empty in Hy. done.
Qed.

Lemma frame_local r w r' w' :
  room_ok r' w' -> only_subs r r' -> people_frame r (people w) (people w') -> local_change r r' w w' (fun _ => False).
Proof.
  intros OK (a & b & ->) F. split; [done|]. split; [done|]. split; [|intros id y Hy; right; by exists id].
  intros y. destruct (F y) as [|[H _]]; auto.
Qed.

Lemma Subscribe_local r w p t r' w' ok :
  room_ok r w -> SubscribeTrack r w p t = (r', w', ok) -> local_change r r' w w' (fun _ => False).
Proof.
  intros OK E. pose proof (SubscribeTrack_ok _ r w p t OK) as OK'. rewrite E in OK'. destruct OK as [OK IO].
  destruct (subscribe_effect _ _ _ _ _ _ _ _ OK E) as (O & _). apply frame_local; [done|done|]. by eapply subscribe_frame.
Qed.

Lemma Unsubscribe_local r w p t r' w' ok :
  room_ok r w -> UnsubscribeTrack r w p t = (r', w', ok) -> local_change r r' w w' (fun _ => False).
Proof.
  intros OK E. pose proof (UnsubscribeTrack_ok _ r w p t OK) as OK'. rewrite E in OK'. destruct OK as [OK IO].
  unfold UnsubscribeTrack in E. destruct (UnsubscribeTrackLocked r w p t) as [r1 w1] eqn:E1. simplify_eq.
  destruct (unsubscribe_effect _ _ _ _ _ _ _ OK E1) as (O & _). apply frame_local; [done|done|]. by eapply unsubscribe_frame.
Qed.

(** ** Joining a new participant *)

Lemma join_new_ok ord now s a r id s' r' ok ev :
  sys_ok s -> rooms s !! a = Some r -> join_new ord now s a r id = (s', r', ok, ev) ->
  sys_ok s' /\ rooms s' !! a = Some r' /\ (forall b, b <> a -> rooms s' !! b = rooms s !! b) /\ rooms_ s' = rooms_ s.
Proof.
  intros OK Ha. unfold join_new. set (ptr := next_ptr s). set (w := set_person ptr _ (world s)).
  destruct (sys_room _ OK _ _ Ha) as [[T I] _].
  assert (Hnew : forall x, participants_ r !! x <> Some ptr).
  { intros x Hx. pose proof (member_known _ _ _ _ _ OK Ha Hx). unfold ptr in *. lia. }
  assert (OKw : room_ok r w) by (split; [by apply stranger_ok|done]).
  destruct (Join ord now r w ptr) as [[[r1 w1] ok1] ev1] eqn:E. intros [= <- <- <- <-].
  pose proof (Join_id _ _ _ _ _ _ _ _ _ E) as Hid.
  assert (Hfresh : forall p, people w !! ptr = Some p -> no_tracks p).
  { intros p. unfold w. simpl. rewrite lookup_insert_eq. by intros [= <-]. }
  destruct (Join_effect _ _ _ _ _ _ _ _ _ _ OKw (fun p H _ => Hfresh p H) E) as (OK1 & _ & Hf & Hp & Ht & _).
  split; [|split; [apply lookup_insert_eq|split; [intros b Hb; simpl; by rewrite lookup_insert_ne|done]]].
  apply (replace_room s a r); [done|done|unfold ptr; lia|]. split; [done|]. split; [done|]. split.
  - intros y. destruct (decide (y = ptr)) as [->|Hy]; [right; left; unfold ptr; lia|].
    destruct (Hp y) as [E1|[?|?]]; [|done|by auto]. left. rewrite E1. simpl. by rewrite lookup_insert_ne.
  - intros x y Hy. destruct ok1; [|destruct Hf as [-> _]; [done|right; by exists x]].
    destruct Ht as (p & _ & _ & E1 & _); [done|]. rewrite E1 in Hy.
    apply lookup_insert_Some in Hy as [[_ <-]|[_ Hy]]; [left; unfold ptr; lia|right; by exists x].
Qed.

Lemma ensure_joined_ok ord now s a r id s' r' ok ev :
  sys_ok s -> rooms s !! a = Some r -> ensure_joined ord now s a r id = (s', r', ok, ev) ->
  sys_ok s' /\ rooms s' !! a = Some r' /\ (forall b, b <> a -> rooms s' !! b = rooms s !! b) /\ rooms_ s' = rooms_ s.
Proof.
  intros OK Ha. unfold ensure_joined. destruct (GetParticipant r id); [intros [= <- <- <- <-]; done|].
  by apply join_new_ok.
Qed.

(** ** Creating a room *)

Lemma GetOrCreateRoom_ok now s id n s' found :
  sys_ok s -> GetOrCreateRoom now s id n = (s', found) ->
  sys_ok s' /\ (forall a, found = Some a -> exists r, rooms s' !! a = Some r /\ room_id (info_ r) = id /\ IsClosed r = false) /\
  (forall a, a < next_ptr s -> rooms s' !! a = rooms s !! a) /\ (found = None <-> id = []) /\
  (forall x, x <> id -> rooms_ s' !! x = rooms_ s !! x) /\ (forall a, found = Some a -> rooms_ s' !! id = Some a).
Proof.
  intros OK. unfold GetOrCreateRoom. destruct (empty id) eqn:Ee.
  { intros [= <- <-]. apply empty_true in Ee. split; [done|]. do 4 (split; [done|]). done. }
  apply empty_false in Ee.
  set (r0 := new_Room now _ _).
  assert (Hnew : forall s' found, (mkSystem (<[next_ptr s := r0]> (rooms s)) (<[id := next_ptr s]> (rooms_ s)) (world s) (next_ptr s + 1),
    Some (next_ptr s)) = (s', found) ->
    sys_ok s' /\ (forall a, found = Some a -> exists r, rooms s' !! a = Some r /\ room_id (info_ r) = id /\ IsClosed r = false) /\
    (forall a, a < next_ptr s -> rooms s' !! a = rooms s !! a) /\ (found = None <-> id = []) /\
    (forall x, x <> id -> rooms_ s' !! x = rooms_ s !! x) /\ (forall a, found = Some a -> rooms_ s' !! id = Some a)).
  { clear s' found. intros s' found [= <- <-].
    assert (Hn : rooms s !! next_ptr s = None).
    { destruct (rooms s !! next_ptr s) as [r|] eqn:E; [|done]. destruct (sys_room _ OK _ _ E). lia. }
    split; [constructor; simpl|simpl; split; [|split; [|split; [done|split]]]].
    - intros a r Hr. apply lookup_insert_Some in Hr as [[<- <-]|[_ Hr]].
      + split; [apply new_room_ok|lia].
      + destruct (sys_room _ OK _ _ Hr). split; [done|lia].
    - intros ptr p Hp. apply (sys_fresh _ OK) in Hp. lia.
    - intros a b ra rb x y ptr Hra Hrb Hx Hy.
      apply lookup_insert_Some in Hra as [[<- <-]|[_ Hra]]; [unfold r0 in Hx; simpl in Hx; by rewrite lookup_empty in Hx|].
      apply lookup_insert_Some in Hrb as [[<- <-]|[_ Hrb]]; [unfold r0 in Hy; simpl in Hy; by rewrite lookup_empty in Hy|]. by eapply (sys_apart _ OK).
    - intros x a Hx. apply lookup_insert_Some in Hx as [[<- <-]|[_ Hx]].
      + exists r0. by rewrite lookup_insert_eq.
      + destruct (sys_directory _ OK _ _ Hx) as (r & Hr & Hid). exists r. rewrite lookup_insert_ne; [done|]. congruence.
    - intros a [= <-]. exists r0. by rewrite lookup_insert_eq.
    - intros a Ha. rewrite lookup_insert_ne; [done|lia].
    - intros x Hx. by rewrite lookup_insert_ne.
    - intros a [= <-]. apply lookup_insert_eq. }
  destruct (rooms_ s !! id) as [a|] eqn:Ea; [|apply Hnew].
  destruct (sys_directory _ OK _ _ Ea) as (r & Hr & Hid). rewrite Hr.
  destruct (IsClosed r) eqn:Ec; [apply Hnew|]. intros [= <- <-].
  split; [done|]. split; [intros b [= <-]; by exists r|]. split; [done|]. split; [done|]. split; [done|]. by intros b [= <-].
Qed.

(** ** Runs *)

Inductive sys_step : System W -> System W -> Prop :=
| ss_command ord now s cmd : (forall l, ord l ≡ₚ l) -> sys_step s (fst (Handle ord now s cmd))
| ss_person s ptr p q : people (world s) !! ptr = Some p -> person_step (eps (world s)) ptr p q ->
    sys_step s (mkSystem (rooms s) (rooms_ s) (set_person ptr q (world s)) (next_ptr s))
| ss_outside s pubs' eps' : sys_step s (mkSystem (rooms s) (rooms_ s) (mkWorld (people (world s)) pubs' eps') (next_ptr s)).

Lemma Handle_ok ord now s cmd : sys_ok s -> (forall l, ord l ≡ₚ l) -> sys_ok (fst (Handle ord now s cmd)) /\
  (forall a, a < next_ptr s -> rooms_ s !! cmd_room_id cmd <> Some a -> rooms (fst (Handle ord now s cmd)) !! a = rooms s !! a).
Proof.
  intros OK Hord. unfold Handle.
  destruct (if creates (cmd_type cmd) then _ else _) as [s1 found] eqn:Ef.
  assert (H1 : sys_ok s1 /\ (forall a, a < next_ptr s -> rooms s1 !! a = rooms s !! a) /\
    (forall a, found = Some a -> a < next_ptr s -> rooms_ s !! cmd_room_id cmd = Some a)).
  { destruct (creates (cmd_type cmd)); [|by simplify_eq].
    destruct (GetOrCreateRoom_ok _ _ _ _ _ _ OK Ef) as (G1 & _ & G2 & _). split; [done|]. split; [done|].
    intros a -> Ha. unfold GetOrCreateRoom in Ef. destruct (empty _); [done|].
    destruct (rooms_ s !! cmd_room_id cmd) as [b|]; [|simplify_eq; lia].
    destruct (rooms s !! b) as [rb|]; [|simplify_eq; lia]. destruct (IsClosed rb); simplify_eq; [lia|done]. }
  destruct H1 as (OK1 & Hkeep & Hdir). destruct found as [a|]; [|split; [done|]; intros b Hb _; by apply Hkeep].
  destruct (rooms s1 !! a) as [r|] eqn:Ea; [|split; [done|]; intros b Hb _; by apply Hkeep]. destruct (sys_room _ OK1 _ _ Ea) as [OKr _].
  assert (Hset : forall r' w', local_change r r' (world s1) w' (fun _ => False) ->
    sys_ok (set_room a r' w' s1) /\ (forall b, b < next_ptr s -> rooms_ s !! cmd_room_id cmd <> Some b ->
      rooms (set_room a r' w' s1) !! b = rooms s !! b)).
  { intros r' w' L. split; [by eapply set_room_ok|]. intros b Hb Hn. simpl. rewrite lookup_insert_ne; [by apply Hkeep|].
    intros <-. apply Hn. by apply Hdir. }
  assert (Hothers : forall s2 r2, sys_ok s2 -> rooms s2 !! a = Some r2 -> (forall b, b <> a -> rooms s2 !! b = rooms s1 !! b) ->
    sys_ok s2 /\ (forall b, b < next_ptr s -> rooms_ s !! cmd_room_id cmd <> Some b -> rooms s2 !! b = rooms s !! b)).
  { intros s2 r2 OK2 _ Ho. split; [done|]. intros b Hb Hn. rewrite Ho; [by apply Hkeep|]. intros ->. apply Hn. by apply Hdir. }
  destruct (cmd_type cmd).
  - unfold HandleJoin. destruct (empty _); [by apply (Hothers s1 r)|]. destruct (GetParticipant _ _); [by apply (Hothers s1 r)|].
    destruct (join_new ord now s1 a r _) as [[[s2 r2] ok] ev] eqn:E. simpl.
    destruct (join_new_ok _ _ _ _ _ _ _ _ _ _ OK1 Ea E) as (? & ? & ? & _). by apply (Hothers s2 r2).
  - destruct (Leave ord now r (world s1) _) as [[[r2 w2] ok] ev] eqn:E. apply Hset. by eapply Leave_local.
  - unfold HandlePublish. destruct (empty _); [by apply (Hothers s1 r)|]. destruct (cmd_track cmd) as [tr|]; [|by apply (Hothers s1 r)].
    destruct (ensure_joined ord now s1 a r _) as [[[s2 r2] ok] ev] eqn:E.
    destruct (ensure_joined_ok _ _ _ _ _ _ _ _ _ _ OK1 Ea E) as (OK2 & Ha2 & Ho2 & _).
    destruct ok; [|by apply (Hothers s2 r2)]. simpl.
    destruct (PublishTrack _ _ _ _ _ _ _ _) as [[[r3 w3] ok3] ev3] eqn:E3.
    destruct (sys_room _ OK2 _ _ Ha2) as [OKr2 _]. apply (Publish_local _ _ _ _ _ _ _ _ _ _ _ _ OKr2) in E3.
    apply (Hothers _ r3); [by eapply set_room_ok|apply lookup_insert_eq|]. intros b Hb. simpl. rewrite lookup_insert_ne by done. by apply Ho2.
  - unfold HandleSubscribe. destruct (_ || _); [by apply (Hothers s1 r)|].
    destruct (ensure_joined ord now s1 a r _) as [[[s2 r2] ok] ev] eqn:E.
    destruct (ensure_joined_ok _ _ _ _ _ _ _ _ _ _ OK1 Ea E) as (OK2 & Ha2 & Ho2 & _).
    destruct ok; [|by apply (Hothers s2 r2)]. simpl.
    destruct (SubscribeTrack _ _ _ _) as [[r3 w3] ok3] eqn:E3.
    destruct (sys_room _ OK2 _ _ Ha2) as [OKr2 _]. apply (Subscribe_local _ _ _ _ _ _ _ OKr2) in E3.
    apply (Hothers _ r3); [by eapply set_room_ok|apply lookup_insert_eq|]. intros b Hb. simpl. rewrite lookup_insert_ne by done. by apply Ho2.
  - destruct (UnpublishTrack ord r (world s1) _) as [[[r2 w2] ok] ev] eqn:E. apply Hset. by eapply Unpublish_local.
  - destruct (UnsubscribeTrack r (world s1) _ _) as [[r2 w2] ok] eqn:E. apply Hset. by eapply Unsubscribe_local.
  - destruct (Close ord r (world s1)) as [[r2 w2] ev] eqn:E. apply Hset. by eapply Close_local.
Qed.

Lemma sys_step_ok s s' : sys_step s s' -> sys_ok s -> sys_ok s'.
Proof.
  intros [ord now s0 cmd Hord|s0 ptr p q Hp Hq|s0 pubs' eps'] OK.
  - by apply Handle_ok.
  - destruct OK as [R F A D]. constructor; simpl; try done.
    + intros a r Hr. destruct (R _ _ Hr) as [[T I] Hlt]. split; [|done]. split; [|done].
      eapply person_ok; [done|done|]. by eapply person_step_tracks.
    + intros x y. destruct (decide (ptr = x)) as [<-|Hne]; [intros _; by eapply F|]. rewrite lookup_insert_ne by done. apply F.
  - destruct OK as [R F A D]. by constructor.
Qed.

Definition empty_system (w : W) (publications : gmap Z TrackPublicationInfo) : System W := mkSystem ∅ ∅ (mkWorld ∅ publications w) 0.

Lemma empty_system_ok (w : W) publications : sys_ok (empty_system w publications).
Proof. constructor; simpl; intros *; by rewrite lookup_empty. Qed.

Lemma sys_run_ok s s' : rtc sys_step s s' -> sys_ok s -> sys_ok s'.
Proof. induction 1 as [s|s1 s2 s3 Hs _ IH]; [done|]. intros OK. apply IH. by eapply sys_step_ok. Qed.

(** C23. Any sequence of commands leaves every room with consistent tables; no
    participant object belongs to two rooms; the directory leads from a name to a room of
    that name; and the next command changes no room but the one it names. *)
Theorem handler_rooms_ok (w : W) publications s :
  rtc sys_step (empty_system w publications) s ->
  (forall a r, rooms s !! a = Some r -> room_ok r (world s)) /\
  (forall a b ra rb x y ptr, rooms s !! a = Some ra -> rooms s !! b = Some rb ->
    participants_ ra !! x = Some ptr -> participants_ rb !! y = Some ptr -> a = b) /\
  (forall id a, FindRoom s id = Some a -> exists r, rooms s !! a = Some r /\ room_id (info_ r) = id) /\
  (forall ord now cmd a r, (forall l, ord l ≡ₚ l) -> rooms s !! a = Some r -> FindRoom s (cmd_room_id cmd) <> Some a ->
    rooms (fst (Handle ord now s cmd)) !! a = Some r).
Proof.
  intros H. apply sys_run_ok in H; [|apply empty_system_ok]. split; [intros a r Ha; by apply (sys_room _ H a)|].
  split; [apply (sys_apart _ H)|]. split; [apply (sys_directory _ H)|].
  intros ord now cmd a r Hord Ha Hn. rewrite (proj2 (Handle_ok ord now s cmd H Hord)); [done| |done].
  by apply (sys_room _ H a r).
Qed.

End Handler.
