(* ===== verification/RoomExamples.v ===== *)
(** * Rooms on concrete inputs

    A meeting of three participants run through the definitions of [Room.v], and the
    theorems of the room files applied to it.  The endpoints are those of a gateway that
    accepts every route once. *)
From S2P Require Import Prelude Names Participant Room RoomInv RoomLoops RoomOps RoomProps RoomMeeting RoomSystem.

(** The live routes, by destination and track. *)
Definition gateway : Type := gset (Z * str).

#[export] Instance gateway_endpoints : SfuEndpointOps gateway := {|
  ep_IsRunning _ _ := true;
  ep_PublishedPayloadType _ _ _ := Some 96;
  ep_BindSsrc w _ _ _ := (w, true);
  ep_Subscribe w d t _ _ _ := ({[ (d, t) ]} ∪ w, negb (bool_decide ((d, t) ∈ w)));
  ep_Unsubscribe w d t := w ∖ {[ (d, t) ]};
  ep_RemovePublishedTrack w _ _ := w;
  ep_Stop w _ := w |}.

Definition alice : str := [97].
Definition bob : str := [98].
Definition carol : str := [99].
Definition camera : str := [1].
Definition screen : str := [2].

Definition publications : gmap Z TrackPublicationInfo :=
  <[101 := mkPublication camera (0, 0) [] false [] 0]> {[ 102 := mkPublication screen (0, 0) [] false [] 0 ]}.

Definition start_world : World gateway :=
  mkWorld (<[1 := Participant_of alice alice]> (<[2 := Participant_of bob bob]> {[ 3 := Participant_of carol carol ]}))
    publications ∅.

Definition start_room : Room := new_Room 5 (mkRoomInfo [114] [] 0 0 0 0 RoomCreated) default_options.

Definition same (l : list str) : list str := l.

Lemma same_perm l : same l ≡ₚ l.
Proof. done. Qed.

(** Alice and Bob join, Alice publishes, Carol joins, Bob publishes. *)
Definition join_of (s : Room * World gateway) (ptr : Z) : Room * World gateway :=
  let '(r, w, _, _) := Join same 10 (fst s) (snd s) ptr in (r, w).
Definition publish_of (s : Room * World gateway) (id : str) (t : Z) : Room * World gateway :=
  let '(r, w, _, _) := PublishTrack same (fst s) (snd s) id t 0 96 [] in (r, w).

Definition meeting1 := join_of (start_room, start_world) 1.
Definition meeting2 := join_of meeting1 2.
Definition meeting3 := publish_of meeting2 alice 101.
Definition meeting4 := join_of meeting3 3.
Definition meeting5 := publish_of meeting4 bob 102.

Example meeting_subscribers :
  (elements (subs_of_track (fst meeting5) camera), elements (subs_of_track (fst meeting5) screen),
   room_state (info_ (fst meeting5)), participant_count (info_ (fst meeting5)))
  = ([carol; bob], [carol; alice], RoomActive, 3).
Proof. vm_compute. reflexivity. Qed.

Definition blank (w : World gateway) (ptr : Z) : bool :=
  match people w !! ptr with
  | Some p => bool_decide (published_ p = ∅) && bool_decide (subscribed_track_ids_ p = ∅) && negb (HasMediaBinding p)
  | None => true
  end.

Lemma blank_ok w ptr : blank w ptr = true ->
  forall p, people w !! ptr = Some p -> no_tracks p /\ HasMediaBinding p = false.
Proof.
  unfold blank. intros H p Hp. rewrite Hp in H. bool_hyps. apply bool_decide_eq_true in H, H1. by repeat split.
Qed.

Lemma join_step s ptr : blank (snd s) ptr = true -> room_step ∅ s (join_of s ptr).
Proof. destruct s as [r w]. intros H. apply rs_join; [apply same_perm|]. intros p Hp _. by apply (blank_ok _ _ H). Qed.

Lemma publish_step s id t : room_step ∅ s (publish_of s id t).
Proof. destruct s as [r w]. apply rs_publish, same_perm. Qed.

Lemma join_meeting_step s ptr : blank (snd s) ptr = true -> meeting_step s (join_of s ptr).
Proof. destruct s as [r w]. intros H. apply ms_join; [apply same_perm|]. by apply blank_ok. Qed.

Lemma publish_meeting_step s id t : meeting_step s (publish_of s id t).
Proof. destruct s as [r w]. apply ms_publish, same_perm. Qed.

Lemma meeting_run : rtc (room_step ∅) (start_room, start_world) meeting5.
Proof.
  eapply rtc_l; [apply (join_step _ 1); vm_compute; reflexivity|]. fold meeting1.
  eapply rtc_l; [apply (join_step _ 2); vm_compute; reflexivity|]. fold meeting2.
  eapply rtc_l; [apply (publish_step _ alice 101)|]. fold meeting3.
  eapply rtc_l; [apply (join_step _ 3); vm_compute; reflexivity|]. fold meeting4.
  eapply rtc_l; [apply (publish_step _ bob 102)|]. apply rtc_refl.
Qed.

Lemma meeting_only_run : rtc meeting_step (start_room, start_world) meeting5.
Proof.
  eapply rtc_l; [apply (join_meeting_step _ 1); vm_compute; reflexivity|]. fold meeting1.
  eapply rtc_l; [apply (join_meeting_step _ 2); vm_compute; reflexivity|]. fold meeting2.
  eapply rtc_l; [apply (publish_meeting_step _ alice 101)|]. fold meeting3.
  eapply rtc_l; [apply (join_meeting_step _ 3); vm_compute; reflexivity|]. fold meeting4.
  eapply rtc_l; [apply (publish_meeting_step _ bob 102)|]. apply rtc_refl.
Qed.

Lemma meeting_reachable : reachable ∅ (fst meeting5) (snd meeting5).
Proof. exists 5, [114], [], default_options, start_world. rewrite <- surjective_pairing. exact meeting_run. Qed.

Lemma room_tables_agree_witness : room_ok (fst meeting5) (snd meeting5).
Proof.
  apply (room_tables_agree ∅ 5 [114] [] default_options start_world). rewrite <- surjective_pairing. exact meeting_run.
Defined.

(** Carol has put a track on her own list before she joins: [Join] does not look at it, so the
    room does not list the track, and it refuses to publish it later. *)
Definition own_world : World gateway :=
  set_person 3 (fst (fst (AddPublishedTrack 3 (Participant_of carol carol) 102 screen false))) start_world.

Example joiner_with_tracks :
  (let '(r, w, joined, _) := Join same 10 start_room own_world 3 in
   let '(_, _, published, _) := PublishTrack same r w carol 102 0 96 [] in
   (joined, published_ <$> people w !! 3, published_tracks_ r !! screen, published))
  = (true, Some {[ screen := 102 ]}, None, false).
Proof. vm_compute. reflexivity. Qed.

Lemma room_leave_complete_witness : exists r' w' events,
  Leave same 20 (fst meeting5) (snd meeting5) alice = (r', w', true, events) /\
  published_tracks_ r' !! camera = None /\ bob ∉ subs_of_track r' camera /\ alice ∉ subs_of_track r' screen.
Proof.
  destruct (room_leave_complete ∅ same 20 (fst meeting5) (snd meeting5) alice 1
    (default (Participant_of [] []) (people (snd meeting5) !! 1)))
    as (r' & w' & ev & q & removed & H1 & _ & H3 & H4 & _).
  - exact meeting_reachable.
  - exact same_perm.
  - vm_compute. reflexivity.
  - vm_compute. reflexivity.
  - vm_compute. discriminate.
  - exists r', w', ev. assert (E : published_tracks_ r' !! camera = None) by (rewrite H3; vm_compute; reflexivity).
    split; [exact H1|]. split; [exact E|]. split.
    + intros Hb. apply H4 in Hb as (_ & _ & Hc). rewrite E in Hc. by destruct Hc.
    + intros Ha. apply H4 in Ha as (_ & Hne & _). by apply Hne.
Defined.

Lemma auto_subscribe_complete_witness : carol ∈ subs_of_track (fst meeting5) camera.
Proof.
  apply (auto_subscribe_complete 5 [114] [] default_options start_world (fst meeting5) (snd meeting5)).
  - reflexivity.
  - rewrite <- surjective_pairing. exact meeting_only_run.
  - split; [vm_compute; by eexists|]. eexists. split; [vm_compute; reflexivity|]. vm_compute. discriminate.
Defined.

Lemma room_close_final_witness : forall r' w' events, Close same (fst meeting5) (snd meeting5) = (r', w', events) ->
  participants_ r' = ∅ /\ exists q, people w' !! 1 = Some q /\ state_ q = Disconnected.
Proof.
  intros r' w' events E.
  destruct (room_close_final ∅ same (fst meeting5) (snd meeting5) r' w' events r' w' meeting_reachable same_perm E (rtc_refl _ _))
    as (H1 & _ & H2 & _). split; [exact H2|]. apply (H1 alice 1). vm_compute. reflexivity.
Defined.

(** A connection is replaced by one of the same name; then the old one is reported closed. *)
Definition bound1 : Participant := fst (BindSignaling (Participant_of alice alice) [7]).
Definition bound2 : Participant := fst (BindSignaling bound1 [7]).

Lemma stale_unbind_refused_witness :
  connection_id (signaling_ bound1) = connection_id (signaling_ bound2) /\
  UnbindSignaling bound2 (signaling_ bound1) = (bound2, false).
Proof.
  split; [vm_compute; reflexivity|].
  apply (stale_unbind_refused (W := gateway) 1 bound1 [7] bound1 bound2 (rtc_refl _ _)); [vm_compute; reflexivity|apply rtc_refl].
Defined.

(** The same through the command handler. *)
Definition command (t : RoomCommandType) (room id tid : str) (tr : option Z) : RoomCommand :=
  mkCommand t room [] id tid tr 0 96.

Definition system0 : System gateway := empty_system ∅ publications.
Definition system1 := fst (Handle same 1 system0 (command CmdPublish [114] alice [] (Some 101))).
Definition system2 := fst (Handle same 2 system1 (command CmdSubscribe [114] bob camera None)).
Definition system3 := fst (Handle same 3 system2 (command CmdJoin [115] alice [] None)).

Example handler_run :
  (FindRoom system3 [114], FindRoom system3 [115], elements (subs_of_track (default start_room (rooms system3 !! 0)) camera))
  = (Some 0, Some 3, [bob]).
Proof. vm_compute. reflexivity. Qed.

Lemma system_run : rtc sys_step system0 system3.
Proof.
  eapply rtc_l; [apply ss_command, same_perm|]. eapply rtc_l; [apply ss_command, same_perm|].
  eapply rtc_l; [apply ss_command, same_perm|]. apply rtc_refl.
Qed.

Lemma handler_rooms_ok_witness :
  (exists r, rooms system3 !! 0 = Some r /\ room_ok r (world system3)) /\
  rooms (fst (Handle same 4 system3 (command CmdClose [115] [] [] None))) !! 0 = rooms system3 !! 0.
Proof.
  destruct (handler_rooms_ok ∅ publications system3 system_run) as (H1 & _ & H3 & H4).
  assert (E : exists r, rooms system3 !! 0 = Some r).
  { destruct (H3 [114] 0) as (r & Hr & _); [vm_compute; reflexivity|]. by exists r. }
  destruct E as (r & Hr). split; [exists r; split; [exact Hr|exact (H1 _ _ Hr)]|].
  rewrite Hr. apply H4; [exact same_perm|exact Hr|vm_compute; discriminate].
Defined.
