(* ===== verification/SfuEndpoint.v ===== *)
(** * The SFU endpoint

    Models [media/endpoint/SfuEndpoint.h], [SfuEndpoint.cpp], [SfuEndpointTracks.cpp],
    [SfuEndpointTypes.h], [media/quality/KeyFrameRequestLimiter.h] and the subscription tables
    of [DownlinkTrackManager.cpp]: the tracks an endpoint publishes, the SSRCs bound to them,
    renegotiation, the assignment of incoming RTP packets to tracks, and the routes that
    carry the packets to other endpoints.

    A route ([endpoint::Subscription]) is shared by the endpoint that publishes the track
    and the one that is subscribed, so routes live in a store and are named by their
    address; a route whose owner has dropped it stays in the store as a closed one, which
    every use of the weak pointers treats alike.  Every operation runs under the endpoint's
    mutex.  Work that the code posts to another worker is returned as a list: the packets
    handed to routes, and the endpoints that are to drop closed subscriptions ([Prune]).
    [ord] is the order in which a hash map is visited.  Of an SDP media section the record
    [Media] holds what the endpoint reads of it, with the results of [BuildRtpTrackInfo]
    and [FindRtpExtensionId].  Reception statistics, RTCP contents, the bandwidth of
    subscriptions and allocation failure are left out. *)
From S2P Require Import Prelude Bytes RtpWire RtcpNackWire RtcpWire Affinity Names.

(** ** Data *)

Inductive EndpointState := kInit | kRunning | kStopping | kStopped.

#[export] Instance EndpointState_eq_dec : EqDecision EndpointState.
Proof. solve_decision. Defined.

Inductive TrackType := TrackInvalid | TrackVideo | TrackAudio | TrackTitle | TrackApplication.

#[export] Instance TrackType_eq_dec : EqDecision TrackType.
Proof. solve_decision. Defined.

Inductive CodecId := CodecUnknown | CodecH264 | CodecH265 | CodecPCMU | CodecPCMA | CodecOPUS | CodecAAC.

#[export] Instance CodecId_eq_dec : EqDecision CodecId.
Proof. solve_decision. Defined.

Record TrackInfo := mkTrackInfo {
  track_index : Z;
  type : TrackType;
  codec_id : CodecId;
  payload_type : Z;
  clock_rate : Z;
  channels : Z;
  fmtp : str;
  transport_cc_extension_id : Z;
  info_ssrc : Z }.

Definition set_index (n : Z) (i : TrackInfo) : TrackInfo :=
  mkTrackInfo n (type i) (codec_id i) (payload_type i) (clock_rate i) (channels i) (fmtp i)
    (transport_cc_extension_id i) (info_ssrc i).

(** [KeyFrameRequestLimiter] with its interval of one second: the last request. *)
Definition Allow (last : option Z) (now_ms : Z) : option Z * bool :=
  match last with
  | Some t => if (t <=? now_ms) && (now_ms - t <? 1000) then (last, false) else (Some now_ms, true)
  | None => (Some now_ms, true)
  end.

Record PublishedTrack := mkPublishedTrack {
  description : TrackInfo;
  mid : str;
  mid_extension_id : Z;
  send_rtcp : option Z;
  subscribers : list Z;
  keyframe_requests : option Z }.

Record PausedPublishedTrack := mkPaused { paused_track : PublishedTrack; paused_ssrcs : list Z }.

Record Media := mkMedia {
  media_mid : str;
  media_codecs : list (Z * Z * Z);
  media_groups : list str;
  media_ssrcs : list Z;
  media_info : option TrackInfo;
  media_mid_extension : Z }.

(** The consumer that the media registry hands out for a route: closed, and paused. *)
Record ConsumerView := mkConsumer { consumer_closed : bool; consumer_paused : bool }.

Record Subscription := mkRoute {
  active : bool;
  source : Z;
  destination : Z;
  source_track_id : str;
  source_ssrc : option Z;
  sender_ssrc : Z;
  consumer : option ConsumerView;
  transport_id : Z }.

Definition Closed (s : Subscription) : bool :=
  negb (active s) || match consumer s with Some c => consumer_closed c | None => false end.

Definition CanDeliver (s : Subscription) : bool :=
  active s && match consumer s with Some c => negb (consumer_closed c) && negb (consumer_paused c) | None => true end.

Definition route_Close (s : Subscription) : Subscription :=
  mkRoute false (source s) (destination s) (source_track_id s) (source_ssrc s) (sender_ssrc s)
    (match consumer s with Some c => Some (mkConsumer true (consumer_paused c)) | None => None end) (transport_id s).

Definition lock_source (x : Z) (s : Subscription) : Subscription :=
  mkRoute (active s) (source s) (destination s) (source_track_id s) (Some x) (sender_ssrc s) (consumer s) (transport_id s).

(** The downstream parameters: the sender's configuration, the transport with its id and
    its send-side controller, and the codec. *)
Record SubscriptionParameters := mkParameters {
  local_ssrc : Z;
  config_payload_type : Z;
  sample_rate : Z;
  config_transport_cc : Z;
  config_mid : str;
  config_mid_extension : Z;
  params_transport : Z;
  params_controller : option Z;
  params_codec : CodecId }.

Record Endpoint := mkEndpoint {
  state_ : EndpointState;
  media_stream_id_ : Z;
  published_tracks_ : gmap str PublishedTrack;
  paused_published_tracks_ : gmap str PausedPublishedTrack;
  ssrc_bindings_ : gmap Z str;
  retired_ssrcs_ : gset Z;
  retired_track_ids_ : gset str;
  ssrc_to_track_ : gmap Z TrackInfo;
  parameters_ : gmap str SubscriptionParameters;
  subscriptions_ : gmap str Z;
  transports_ : gmap Z (option Z);
  unbound_keyframe_requests_ : option Z }.

Definition new_Endpoint (stream : Z) : Endpoint :=
  mkEndpoint kInit stream ∅ ∅ ∅ ∅ ∅ ∅ ∅ ∅ ∅ None.

Definition with_state x e := mkEndpoint x (media_stream_id_ e) (published_tracks_ e) (paused_published_tracks_ e)
  (ssrc_bindings_ e) (retired_ssrcs_ e) (retired_track_ids_ e) (ssrc_to_track_ e) (parameters_ e) (subscriptions_ e)
  (transports_ e) (unbound_keyframe_requests_ e).
Definition with_tracks x e := mkEndpoint (state_ e) (media_stream_id_ e) x (paused_published_tracks_ e)
  (ssrc_bindings_ e) (retired_ssrcs_ e) (retired_track_ids_ e) (ssrc_to_track_ e) (parameters_ e) (subscriptions_ e)
  (transports_ e) (unbound_keyframe_requests_ e).
Definition with_bindings x y e := mkEndpoint (state_ e) (media_stream_id_ e) (published_tracks_ e) (paused_published_tracks_ e)
  x y (retired_track_ids_ e) (ssrc_to_track_ e) (parameters_ e) (subscriptions_ e)
  (transports_ e) (unbound_keyframe_requests_ e).
Definition with_retired_ids x e := mkEndpoint (state_ e) (media_stream_id_ e) (published_tracks_ e) (paused_published_tracks_ e)
  (ssrc_bindings_ e) (retired_ssrcs_ e) x (ssrc_to_track_ e) (parameters_ e) (subscriptions_ e)
  (transports_ e) (unbound_keyframe_requests_ e).
Definition with_receivers x e := mkEndpoint (state_ e) (media_stream_id_ e) (published_tracks_ e) (paused_published_tracks_ e)
  (ssrc_bindings_ e) (retired_ssrcs_ e) (retired_track_ids_ e) x (parameters_ e) (subscriptions_ e)
  (transports_ e) (unbound_keyframe_requests_ e).
Definition with_downlinks x y z e := mkEndpoint (state_ e) (media_stream_id_ e) (published_tracks_ e) (paused_published_tracks_ e)
  (ssrc_bindings_ e) (retired_ssrcs_ e) (retired_track_ids_ e) (ssrc_to_track_ e) x y z (unbound_keyframe_requests_ e).
Definition with_unbound x e := mkEndpoint (state_ e) (media_stream_id_ e) (published_tracks_ e) (paused_published_tracks_ e)
  (ssrc_bindings_ e) (retired_ssrcs_ e) (retired_track_ids_ e) (ssrc_to_track_ e) (parameters_ e) (subscriptions_ e)
  (transports_ e) x.

Definition IsRunning (e : Endpoint) : bool := bool_decide (state_ e = kRunning).
Definition stopped (e : Endpoint) : bool := bool_decide (state_ e = kStopped) || bool_decide (state_ e = kStopping).

(** ** Publishing *)

Definition SameEncoding (a b : TrackInfo) : bool :=
  bool_decide (type a = type b) && bool_decide (codec_id a = codec_id b) && (clock_rate a =? clock_rate b) &&
  (Z.max 1 (channels a) =? Z.max 1 (channels b)) && bool_decide (fmtp a = fmtp b).

Definition SameReceiver (a b : TrackInfo) : bool :=
  SameEncoding a b && (payload_type a =? payload_type b) &&
  (transport_cc_extension_id a =? transport_cc_extension_id b).

Definition bound (e : Endpoint) (x : Z) : bool := bool_decide (is_Some (ssrc_bindings_ e !! x)).

(** A track with the same index or the same non-empty MID. *)
Definition collides (info : TrackInfo) (m : str) (t : PublishedTrack) : bool :=
  (track_index (description t) =? track_index info) || (negb (empty m) && bool_decide (mid t = m)).

Definition AddPublishedTrack (e : Endpoint) (id : str) (info : TrackInfo) (m : str) (ext : Z) : Endpoint * bool :=
  if empty id || stopped e || bool_decide (is_Some (published_tracks_ e !! id)) || bool_decide (id ∈ retired_track_ids_ e)
  then (e, false) else
  if (track_index info <? 0) || (clock_rate info =? 0) || (127 <? payload_type info) ||
     (negb (info_ssrc info =? 0) && bound e (info_ssrc info)) then (e, false) else
  if bool_decide (map_Exists (fun _ t => collides info m t = true) (published_tracks_ e)) then (e, false) else
  let e := with_tracks (<[id := mkPublishedTrack info m ext None [] None]> (published_tracks_ e)) e in
  (if info_ssrc info =? 0 then e
   else with_bindings (<[info_ssrc info := id]> (ssrc_bindings_ e)) (retired_ssrcs_ e ∖ {[ info_ssrc info ]}) e, true).

Definition BindSsrc (e : Endpoint) (id : str) (x : Z) : Endpoint * bool :=
  if negb (bool_decide (is_Some (published_tracks_ e !! id))) || bool_decide (state_ e = kStopped) then (e, false) else
  match ssrc_bindings_ e !! x with
  | None => (with_bindings (<[x := id]> (ssrc_bindings_ e)) (retired_ssrcs_ e ∖ {[ x ]}) e, true)
  | Some id' => if bool_decide (id' = id) then (with_bindings (ssrc_bindings_ e) (retired_ssrcs_ e ∖ {[ x ]}) e, true)
                else (e, false)
  end.

(** "FID", "FEC" and "FEC-FR" *)
Definition repair_group (semantics : str) : bool :=
  bool_decide (semantics = [70; 73; 68]) || bool_decide (semantics = [70; 69; 67]) ||
  bool_decide (semantics = [70; 69; 67; 45; 70; 82]).

Fixpoint bind_all (e : Endpoint) (id : str) (xs : list Z) : Endpoint :=
  match xs with [] => e | x :: xs => bind_all (fst (BindSsrc e id x)) id xs end.

Definition AddPublishedMedia (e : Endpoint) (id : str) (m : Media) (index : Z) : Endpoint * bool :=
  match media_info m with
  | None => (e, false)
  | Some info =>
    if existsb repair_group (media_groups m) then (e, false) else
    if existsb (bound e) (media_ssrcs m) then (e, false) else
    let '(e, ok) := AddPublishedTrack e id (set_index index info) (media_mid m) (media_mid_extension m) in
    if negb ok then (e, false) else (bind_all e id (media_ssrcs m), true)
  end.

Definition GetPublishedTrack (e : Endpoint) (id : str) : option TrackInfo := description <$> published_tracks_ e !! id.
Definition PublishedTrackCount (e : Endpoint) : nat := size (published_tracks_ e).

(** [RemoveMediaStreamOnOwner] *)
Definition RemoveMediaStream (e : Endpoint) (x : Z) : Endpoint := with_receivers (delete x (ssrc_to_track_ e)) e.

(** The SSRCs bound to a track. *)
Definition ssrcs_of (e : Endpoint) (id : str) : list Z :=
  List.map fst (List.filter (fun b => bool_decide (snd b = id)) (map_to_list (ssrc_bindings_ e))).

Fixpoint remove_receivers (xs : list Z) (e : Endpoint) : Endpoint :=
  match xs with [] => e | x :: xs => remove_receivers xs (RemoveMediaStream e x) end.

(** Closes the given routes and names the endpoints at their other ends. *)
Fixpoint close_routes (xs : list Z) (routes : gmap Z Subscription) : gmap Z Subscription * list Z :=
  match xs with
  | [] => (routes, [])
  | x :: xs =>
    match routes !! x with
    | None => close_routes xs routes
    | Some s => let '(routes, prune) := close_routes xs (<[x := route_Close s]> routes) in (routes, destination s :: prune)
    end
  end.

Definition RemovePublishedTrack (e : Endpoint) (routes : gmap Z Subscription) (id : str) (retire_identity : bool)
    : Endpoint * gmap Z Subscription * bool * list Z :=
  match published_tracks_ e !! id with
  | None => (e, routes, false, [])
  | Some t =>
    let '(routes, prune) := close_routes (subscribers t) routes in
    let mine := ssrcs_of e id in
    let e := remove_receivers mine e in
    let e := with_bindings (filter (fun b => snd b <> id) (ssrc_bindings_ e))
               (if retire_identity then list_to_set mine ∪ retired_ssrcs_ e else retired_ssrcs_ e) e in
    let e := if retire_identity then with_retired_ids ({[ id ]} ∪ retired_track_ids_ e) e else e in
    (with_tracks (delete id (published_tracks_ e)) e, routes, true, prune)
  end.

(** ** Renegotiation *)

Definition INT_MAX : Z := 2147483647.

Record Candidate := mkCandidate { cand_info : TrackInfo; cand_mid : str; cand_mid_extension : Z; cand_ssrcs : list Z }.

(** The offered SSRCs: not zero, and new. *)
Fixpoint offered_ssrcs (xs : list Z) (seen : gset Z) : option (gset Z) :=
  match xs with
  | [] => Some seen
  | x :: xs => if (x =? 0) || bool_decide (x ∈ seen) then None else offered_ssrcs xs ({[ x ]} ∪ seen)
  end.

Definition codec_acceptable (codecs : list (Z * Z * Z)) : bool :=
  match codecs with
  | [(pt, rate, ch)] => negb ((pt <? 0) || (127 <? pt) || (rate <=? 0) || (ch <? 0))
  | _ => false
  end.

Fixpoint gather (medias : list Media) (mids : gset str) (seen : gset Z) : option (list Candidate) :=
  match medias with
  | [] => Some []
  | m :: medias =>
    if empty (media_mid m) || bool_decide (media_mid m ∈ mids) || negb (codec_acceptable (media_codecs m)) ||
       existsb repair_group (media_groups m) then None else
    match media_info m, offered_ssrcs (media_ssrcs m) seen with
    | Some info, Some seen =>
      match gather medias ({[ media_mid m ]} ∪ mids) seen with
      | Some candidates => Some (mkCandidate (set_index 0 info) (media_mid m) (media_mid_extension m) (media_ssrcs m) :: candidates)
      | None => None
      end
    | _, _ => None
    end
  end.

(** The containers that [ReplacePublishedTracks] prepares. *)
Record Plan := mkPlan {
  plan_tracks : gmap str PublishedTrack;
  plan_bindings : gmap Z str;
  plan_paused : gmap str PausedPublishedTrack;
  plan_retired : gset Z;
  plan_reset : gset str;
  plan_next : Z }.

(** [reserveIndex] over a map of tracks; [None] when an index cannot be exceeded. *)
Definition reserve_indices (tracks : list PublishedTrack) (next : Z) : option Z :=
  fold_left (fun next t => match next with
    | None => None
    | Some n => let i := track_index (description t) in if i =? INT_MAX then None else Some (Z.max n (i + 1))
    end) tracks (Some next).

(** The first key, in the order of the map, whose entry has the property. *)
Fixpoint first_key {A} (f : str -> A -> bool) (m : gmap str A) (keys : list str) : option (str * A) :=
  match keys with
  | [] => None
  | k :: keys => match m !! k with
                 | Some x => if f k x then Some (k, x) else first_key f m keys
                 | None => first_key f m keys
                 end
  end.

(** The track that a candidate continues: a published one, or else a paused one. *)
Definition find_previous (ord : list str -> list str) (e : Endpoint) (paused : gmap str PausedPublishedTrack) (m : str)
    : str * option PublishedTrack * option PausedPublishedTrack :=
  match first_key (fun k t => bool_decide (mid t = m) || (empty (mid t) && bool_decide (k = m)))
          (published_tracks_ e) (ord (elements (dom (published_tracks_ e)))) with
  | Some (k, t) => (k, Some t, None)
  | None =>
    match first_key (fun _ t => bool_decide (mid (paused_track t) = m)) paused (ord (elements (dom paused))) with
    | Some (k, t) => (k, Some (paused_track t), Some t)
    | None => (m, None, None)
    end
  end.

(** Some live route listens to the track. *)
Definition listened (routes : gmap Z Subscription) (xs : list Z) : bool :=
  existsb (fun x => match routes !! x with Some s => negb (Closed s) | None => false end) xs.

(** Some live route is locked to an SSRC that is not in the list. *)
Definition loses_source (routes : gmap Z Subscription) (xs : list Z) (ssrcs : list Z) : bool :=
  existsb (fun x => match routes !! x with
    | Some s => negb (Closed s) && match source_ssrc s with Some y => negb (bool_decide (y ∈ ssrcs)) | None => false end
    | None => false
    end) xs.

(** The checks of one SSRC of a candidate, and its new binding. *)
Definition claim_ssrc (e : Endpoint) (id : str) (suspended : option PausedPublishedTrack)
    (paused : gmap str PausedPublishedTrack) (x : Z) (acc : gmap Z str * gset Z) : option (gmap Z str * gset Z) :=
  let '(bindings, retired) := acc in
  if match ssrc_bindings_ e !! x with Some id' => negb (bool_decide (id' = id)) | None => false end then None else
  if bool_decide (x ∈ retired_ssrcs_ e) &&
     match suspended with Some s => negb (bool_decide (x ∈ paused_ssrcs s)) | None => true end then None else
  if bool_decide (map_Exists (fun k t => k <> id /\ x ∈ paused_ssrcs t) paused) then None else
  match bindings !! x with
  | Some _ => None
  | None => Some (<[x := id]> bindings, retired ∖ {[ x ]})
  end.

Fixpoint claim_ssrcs (e : Endpoint) (id : str) (suspended : option PausedPublishedTrack)
    (paused : gmap str PausedPublishedTrack) (xs : list Z) (acc : gmap Z str * gset Z) : option (gmap Z str * gset Z) :=
  match xs with
  | [] => Some acc
  | x :: xs => match claim_ssrc e id suspended paused x acc with
               | Some acc => claim_ssrcs e id suspended paused xs acc
               | None => None
               end
  end.

Definition known {A} (m : gmap str A) (id : str) : bool := bool_decide (is_Some (m !! id)).

(** The body of the loop over the candidates. *)
Definition place (ord : list str -> list str) (e : Endpoint) (routes : gmap Z Subscription) (c : Candidate) (p : Plan)
    : option Plan :=
  let '(id, previous, suspended) := find_previous ord e (plan_paused p) (cand_mid c) in
  let fresh := match previous with None => true | Some _ => false end in
  if known (plan_tracks p) id ||
     (fresh && (known (published_tracks_ e) id || known (plan_paused p) id || bool_decide (id ∈ retired_track_ids_ e)))
  then None else
  if fresh && (plan_next p =? INT_MAX) then None else
  let info := set_index (match previous with Some t => track_index (description t) | None => plan_next p end) (cand_info c) in
  let old := match previous with Some t => t | None => mkPublishedTrack info [] 0 None [] None end in
  if negb fresh && negb (SameEncoding (description old) info) && listened routes (subscribers old) then None else
  let reset := if negb fresh && negb (SameReceiver (description old) info) then {[ id ]} ∪ plan_reset p else plan_reset p in
  let xs := match cand_ssrcs c with
            | [] => match suspended with Some s => paused_ssrcs s | None => ssrcs_of e id end
            | xs => xs
            end in
  match claim_ssrcs e id suspended (plan_paused p) xs (plan_bindings p, plan_retired p) with
  | None => None
  | Some (bindings, retired) =>
    if loses_source routes (subscribers old) xs then None else
    Some (mkPlan (<[id := mkPublishedTrack info (cand_mid c) (cand_mid_extension c) (send_rtcp old) (subscribers old)
                            (keyframe_requests old)]> (plan_tracks p))
            bindings (delete id (plan_paused p)) retired reset
            (if fresh then plan_next p + 1 else plan_next p))
  end.

Fixpoint place_all (ord : list str -> list str) (e : Endpoint) (routes : gmap Z Subscription) (cs : list Candidate) (p : Plan)
    : option Plan :=
  match cs with
  | [] => Some p
  | c :: cs => match place ord e routes c p with Some p => place_all ord e routes cs p | None => None end
  end.

Definition clear_subscribers (t : PublishedTrack) : PublishedTrack :=
  mkPublishedTrack (description t) (mid t) (mid_extension_id t) (send_rtcp t) [] (keyframe_requests t).

(** The tracks that disappear are saved, with their SSRCs. *)
Definition pause_missing (e : Endpoint) (p : Plan) : gmap str PausedPublishedTrack :=
  map_imap (fun id t => if known (plan_tracks p) id then None else Some (mkPaused (clear_subscribers t) (ssrcs_of e id)))
    (published_tracks_ e) ∪ plan_paused p.

(** The live routes of the tracks that disappear. *)
Definition abandoned (e : Endpoint) (routes : gmap Z Subscription) (p : Plan) : list Z :=
  List.filter (fun x => match routes !! x with Some s => negb (Closed s) | None => false end)
    (List.concat (List.map (fun kt => if known (plan_tracks p) (fst kt) then [] else subscribers (snd kt))
       (map_to_list (published_tracks_ e)))).

Definition dropped_ssrcs (e : Endpoint) (p : Plan) : gset Z := dom (ssrc_bindings_ e) ∖ dom (plan_bindings p).

(** The receivers that do not survive: their SSRC is dropped or their track is reset. *)
Definition stale_receivers (e : Endpoint) (p : Plan) : list Z :=
  List.map fst (List.filter (fun b => negb (bool_decide (is_Some (plan_bindings p !! fst b))) || bool_decide (snd b ∈ plan_reset p))
    (map_to_list (ssrc_bindings_ e))).

Definition ReplacePublishedTracks (ord : list str -> list str) (e : Endpoint) (routes : gmap Z Subscription) (medias : list Media)
    : Endpoint * gmap Z Subscription * bool * list Z :=
  let refuse := (e, routes, false, []) in
  match gather medias ∅ ∅ with
  | None => refuse
  | Some candidates =>
    if stopped e then refuse else
    match reserve_indices (List.map snd (map_to_list (published_tracks_ e)) ++
            List.map (fun x => paused_track (snd x)) (map_to_list (paused_published_tracks_ e))) 0 with
    | None => refuse
    | Some next =>
      match place_all ord e routes candidates
              (mkPlan ∅ ∅ (paused_published_tracks_ e) (retired_ssrcs_ e) ∅ next) with
      | None => refuse
      | Some p =>
        let '(routes', prune) := close_routes (abandoned e routes p) routes in
        let e' := remove_receivers (stale_receivers e p) e in
        (mkEndpoint (state_ e') (media_stream_id_ e') (plan_tracks p) (pause_missing e p) (plan_bindings p)
           (dropped_ssrcs e p ∪ plan_retired p) (retired_track_ids_ e') (ssrc_to_track_ e') (parameters_ e')
           (subscriptions_ e') (transports_ e') (unbound_keyframe_requests_ e'), routes', true, prune)
      end
    end
  end.

(** ** Incoming packets *)

(** The tracks whose negotiated MID extension is present in the packet, and the track the
    MID names: [None] when it names two. *)
Fixpoint mid_tracks (tracks : gmap str PublishedTrack) (exts : gmap Z (list Z)) (keys : list str) (has_mid : bool) (found : str)
    : option (bool * str) :=
  match keys with
  | [] => Some (has_mid, found)
  | k :: keys =>
    match tracks !! k with
    | None => mid_tracks tracks exts keys has_mid found
    | Some t =>
      match exts !! mid_extension_id t with
      | Some value =>
        if mid_extension_id t =? 0 then mid_tracks tracks exts keys has_mid found else
        if bool_decide (value = mid t) then
          if negb (empty found) && negb (bool_decide (found = k)) then None else mid_tracks tracks exts keys true k
        else mid_tracks tracks exts keys true found
      | None => mid_tracks tracks exts keys has_mid found
      end
    end
  end.

(** The only track with the payload type; [None] when there are several. *)
Fixpoint pt_track (tracks : gmap str PublishedTrack) (pt : Z) (keys : list str) (found : str) : option str :=
  match keys with
  | [] => Some found
  | k :: keys =>
    match tracks !! k with
    | None => pt_track tracks pt keys found
    | Some t =>
      if negb (payload_type (description t) =? pt) then pt_track tracks pt keys found else
      if negb (empty found) then None else pt_track tracks pt keys k
    end
  end.

(** The agreement of the hint, the binding and the MID, and the payload type as last resort. *)
Definition select_track (ord : list str -> list str) (e : Endpoint) (exts : gmap Z (list Z)) (x pt : Z) (hint : str) : option str :=
  let keys := ord (elements (dom (published_tracks_ e))) in
  match (match ssrc_bindings_ e !! x with
         | Some id => if negb (empty hint) && negb (bool_decide (hint = id)) then None else Some id
         | None => Some hint
         end) with
  | None => None
  | Some selected =>
    match mid_tracks (published_tracks_ e) exts keys false [] with
    | None => None
    | Some (has_mid, by_mid) =>
      match (if has_mid then
               if empty by_mid || (negb (empty selected) && negb (bool_decide (selected = by_mid))) then None else Some by_mid
             else Some selected) with
      | None => None
      | Some selected =>
        match (if empty selected then pt_track (published_tracks_ e) pt keys selected else Some selected) with
        | None => None
        | Some selected =>
          match published_tracks_ e !! selected with
          | Some t => if payload_type (description t) =? pt then Some selected else None
          | None => None
          end
        end
      end
    end
  end.

Definition ResolveRtpTrack (ord : list str -> list str) (e : Endpoint) (packet : list Z) (hint : str) : mres (Endpoint * bool) :=
  let! '(ok, exts) := ReadRtpHeaderExtensions (Some packet) ∅ in
  if negb ok then Ret (e, false) else
  let! x := ReadUint32BE packet 8 in
  if bool_decide (x ∈ retired_ssrcs_ e) then Ret (e, false) else
  let! b1 := rd packet 1 in
  match select_track ord e exts x (Z.land b1 127) hint with
  | None => Ret (e, false)
  | Some id => Ret (BindSsrc e id x)
  end.

(** [supported] is what [RtpReceiverTrack::Create] answers. *)
Definition GetOrCreateReceiverTrack (supported : TrackInfo -> bool) (e : Endpoint) (x : Z) : Endpoint * bool :=
  match ssrc_to_track_ e !! x with
  | Some _ => (e, true)
  | None =>
    match ssrc_bindings_ e !! x with
    | None => (e, false)
    | Some id =>
      match published_tracks_ e !! id with
      | None => (e, false)
      | Some t =>
        let i := description t in
        let info := mkTrackInfo (track_index i) (type i) (codec_id i) (payload_type i) (clock_rate i) (channels i) (fmtp i)
                      (transport_cc_extension_id i) x in
        if negb (supported info) then (e, false) else (with_receivers (<[x := info]> (ssrc_to_track_ e)) e, true)
      end
    end
  end.

(** The routes of a track that are still open. *)
Definition open_routes (routes : gmap Z Subscription) (xs : list Z) : list Z :=
  List.filter (fun x => match routes !! x with Some s => negb (Closed s) | None => false end) xs.

(** The loop over the open routes: those that get the packet, in order. *)
Fixpoint fan_out (x : Z) (routes : gmap Z Subscription) (xs : list Z) : gmap Z Subscription * list Z :=
  match xs with
  | [] => (routes, [])
  | y :: xs =>
    match routes !! y with
    | None => fan_out x routes xs
    | Some s =>
      if negb (CanDeliver s) then fan_out x routes xs else
      match source_ssrc s with
      | None => let '(routes, out) := fan_out x (<[y := lock_source x s]> routes) xs in (routes, y :: out)
      | Some z => if negb (z =? x) then fan_out x routes xs else
                  let '(routes, out) := fan_out x routes xs in (routes, y :: out)
      end
    end
  end.

Definition set_subscribers (xs : list Z) (t : PublishedTrack) : PublishedTrack :=
  mkPublishedTrack (description t) (mid t) (mid_extension_id t) (send_rtcp t) xs (keyframe_requests t).

(** [copied] is whether [SharedBuffer::TryCopy] has memory; [published_tracks_.at] throws
    when the track is missing. *)
Definition ForwardRtpToSubscribers (copied : bool) (e : Endpoint) (routes : gmap Z Subscription) (x : Z)
    : mres (Endpoint * gmap Z Subscription * list Z) :=
  match ssrc_bindings_ e !! x with
  | None => Ret (e, routes, [])
  | Some id =>
    match published_tracks_ e !! id with
    | None => Fault
    | Some t =>
      let xs := open_routes routes (subscribers t) in
      let e := with_tracks (<[id := set_subscribers xs t]> (published_tracks_ e)) e in
      if negb copied then Ret (e, routes, []) else
      let '(routes, out) := fan_out x routes xs in Ret (e, routes, out)
    end
  end.

(** [accepted] is what the receiver answers to the packet. *)
Definition HandleRtpPacket (ord : list str -> list str) (supported : TrackInfo -> bool) (accepted copied : bool)
    (e : Endpoint) (routes : gmap Z Subscription) (packet : list Z) : mres (Endpoint * gmap Z Subscription * list Z) :=
  if negb (IsRunning e) then Ret (e, routes, []) else
  let! '(e, ok) := ResolveRtpTrack ord e packet [] in
  if negb ok then Ret (e, routes, []) else
  if blen packet <? 12 then Ret (e, routes, []) else
  let! x := ReadUint32BE packet 8 in
  let '(e, ok) := GetOrCreateReceiverTrack supported e x in
  if negb ok || negb accepted then Ret (e, routes, []) else
  ForwardRtpToSubscribers copied e routes x.

Definition OnRtp (ord : list str -> list str) (supported : TrackInfo -> bool) (accepted copied : bool)
    (e : Endpoint) (routes : gmap Z Subscription) (packet : list Z) (hint : str) : mres (Endpoint * gmap Z Subscription * list Z) :=
  match packet with
  | [] => Ret (e, routes, [])
  | _ =>
    if negb (IsRunning e) then Ret (e, routes, []) else
    let! '(e, ok) := ResolveRtpTrack ord e packet hint in
    if negb ok then Ret (e, routes, []) else
    HandleRtpPacket ord supported accepted copied e routes packet
  end.

(** ** Key frame requests *)

Definition RtcpSenderFor (e : Endpoint) (default_sender : option Z) (x : Z) : option Z :=
  match ssrc_bindings_ e !! x with
  | Some id => match published_tracks_ e !! id with
               | Some t => match send_rtcp t with Some cb => Some cb | None => default_sender end
               | None => default_sender
               end
  | None => default_sender
  end.

Definition set_keyframe (l : option Z) (t : PublishedTrack) : PublishedTrack :=
  mkPublishedTrack (description t) (mid t) (mid_extension_id t) (send_rtcp t) (subscribers t) l.

(** The result is the sender that a PLI for [x] is given to. *)
Definition OnTrackPli (e : Endpoint) (default_sender : option Z) (now x : Z) : Endpoint * option Z :=
  if negb (IsRunning e) then (e, None) else
  match RtcpSenderFor e default_sender x with
  | None => (e, None)
  | Some cb =>
    match ssrc_bindings_ e !! x with
    | None =>
      let '(l, ok) := Allow (unbound_keyframe_requests_ e) now in
      (with_unbound l e, if ok then Some cb else None)
    | Some id =>
      match published_tracks_ e !! id with
      | None => (e, None)
      | Some t =>
        let '(l, ok) := Allow (keyframe_requests t) now in
        (with_tracks (<[id := set_keyframe l t]> (published_tracks_ e)) e, if ok then Some cb else None)
      end
    end
  end.

Fixpoint pli_all (e : Endpoint) (default_sender : option Z) (now : Z) (xs : list Z) : Endpoint * list (Z * Z) :=
  match xs with
  | [] => (e, [])
  | x :: xs =>
    let '(e, sent) := OnTrackPli e default_sender now x in
    let '(e, more) := pli_all e default_sender now xs in
    (e, match sent with Some cb => (x, cb) :: more | None => more end)
  end.

Definition RequestKeyFrame (e : Endpoint) (default_sender : option Z) (now : Z) (id : str) : Endpoint * list (Z * Z) :=
  if negb (IsRunning e) then (e, []) else pli_all e default_sender now (ssrcs_of e id).

Definition SetTrackRtcpSendCallback (e : Endpoint) (id : str) (cb : option Z) : Endpoint :=
  match published_tracks_ e !! id with
  | None => e
  | Some t => with_tracks (<[id := mkPublishedTrack (description t) (mid t) (mid_extension_id t) cb (subscribers t)
                                      (keyframe_requests t)]> (published_tracks_ e)) e
  end.

(** ** Downlink subscriptions ([DownlinkTrackManager]) *)

Definition Unsubscribe (e : Endpoint) (routes : gmap Z Subscription) (id : str) : Endpoint * gmap Z Subscription * bool :=
  match subscriptions_ e !! id with
  | None => (e, routes, false)
  | Some y =>
    let subs := delete id (subscriptions_ e) in
    match routes !! y with
    | None => (with_downlinks (parameters_ e) subs (transports_ e) e, routes, true)
    | Some s =>
      let routes := <[y := route_Close s]> routes in
      let retained := bool_decide (map_Exists (fun _ z => transport_id <$> routes !! z = Some (transport_id s)) subs) in
      (with_downlinks (parameters_ e) subs (if retained then transports_ e else delete (transport_id s) (transports_ e)) e,
       routes, true)
    end
  end.

(** Drops the subscriptions whose route is closed; [alive] says which endpoints still exist. *)
Fixpoint prune_keys (alive : Z -> bool) (e : Endpoint) (routes : gmap Z Subscription) (keys : list str)
    : Endpoint * gmap Z Subscription :=
  match keys with
  | [] => (e, routes)
  | k :: keys =>
    match subscriptions_ e !! k with
    | Some y => match routes !! y with
                | Some s => if Closed s || negb (alive (source s))
                            then let '(e, routes, _) := Unsubscribe e routes k in prune_keys alive e routes keys
                            else prune_keys alive e routes keys
                | None => prune_keys alive e routes keys
                end
    | None => prune_keys alive e routes keys
    end
  end.

Definition Prune (ord : list str -> list str) (alive : Z -> bool) (e : Endpoint) (routes : gmap Z Subscription)
    : Endpoint * gmap Z Subscription :=
  prune_keys alive e routes (ord (elements (dom (subscriptions_ e)))).

Fixpoint unsubscribe_keys (e : Endpoint) (routes : gmap Z Subscription) (keys : list str) : Endpoint * gmap Z Subscription :=
  match keys with
  | [] => (e, routes)
  | k :: keys => let '(e, routes, _) := Unsubscribe e routes k in unsubscribe_keys e routes keys
  end.

Definition Clear (ord : list str -> list str) (e : Endpoint) (routes : gmap Z Subscription) : Endpoint * gmap Z Subscription :=
  let '(e, routes) := unsubscribe_keys e routes (ord (elements (dom (subscriptions_ e)))) in
  (with_downlinks ∅ (subscriptions_ e) (transports_ e) e, routes).

Definition config_acceptable (c : SubscriptionParameters) : bool :=
  negb (bool_decide (params_codec c = CodecUnknown)) && negb (local_ssrc c =? 0) && negb (127 <? config_payload_type c) &&
  (0 <? sample_rate c) && negb (14 <? config_transport_cc c) && negb (14 <? config_mid_extension c) &&
  (if config_mid_extension c =? 0 then empty (config_mid c)
   else negb (empty (config_mid c)) && (Z.of_nat (length (config_mid c)) <=? 16) &&
        negb (config_mid_extension c =? config_transport_cc c)).

Definition Configure (ord : list str -> list str) (alive : Z -> bool) (e : Endpoint) (routes : gmap Z Subscription)
    (id : str) (c : SubscriptionParameters) : Endpoint * gmap Z Subscription * bool :=
  let '(e, routes) := Prune ord alive e routes in
  if empty id || negb (config_acceptable c) || known (subscriptions_ e) id ||
     bool_decide (map_Exists (fun k d => k <> id /\ local_ssrc d = local_ssrc c) (parameters_ e)) then (e, routes, false)
  else (with_downlinks (<[id := c]> (parameters_ e)) (subscriptions_ e) (transports_ e) e, routes, true).

Definition ConfigureSubscription (ord : list str -> list str) (alive : Z -> bool) (e : Endpoint) (routes : gmap Z Subscription)
    (id : str) (c : SubscriptionParameters) : Endpoint * gmap Z Subscription * bool :=
  if bool_decide (state_ e = kStopped) then (e, routes, false) else Configure ord alive e routes id c.

(** [DownlinkTrackManager::Subscribe]: [route] is the new route's address, [s] its initial
    contents.  [attach] is the registry's answer for a valid reference. *)
Definition downlink_subscribe (ord : list str -> list str) (alive : Z -> bool) (attach : Z * Z -> option ConsumerView)
    (e : Endpoint) (routes : gmap Z Subscription) (id : str) (info : TrackInfo) (ref : Z * Z) (route : Z) (s : Subscription)
    : Endpoint * gmap Z Subscription * bool :=
  let '(e, routes) := Prune ord alive e routes in
  match parameters_ e !! id with
  | None => (e, routes, false)
  | Some c =>
    if known (subscriptions_ e) id || negb (bool_decide (params_codec c = codec_id info)) ||
       negb (sample_rate c =? swrap 32 (clock_rate info)) then (e, routes, false) else
    if match transports_ e !! params_transport c with Some x => negb (bool_decide (x = params_controller c)) | None => false end
    then (e, routes, false) else
    let consumer := if fst ref =? 0 then Some None
                    else if negb (snd ref =? u32 (track_index info)) then None
                    else match attach ref with
                         | Some v => if consumer_closed v then None else Some (Some v)
                         | None => None
                         end in
    match consumer with
    | None => (e, routes, false)
    | Some view =>
      let s := mkRoute true (source s) (destination s) (source_track_id s)
                 (if info_ssrc info =? 0 then source_ssrc s else Some (info_ssrc info)) (local_ssrc c) view (params_transport c) in
      (with_downlinks (parameters_ e) (<[id := route]> (subscriptions_ e))
         (match transports_ e !! params_transport c with
          | Some _ => transports_ e
          | None => <[params_transport c := params_controller c]> (transports_ e)
          end) e, <[route := s]> routes, true)
    end
  end.

(** ** Incoming RTCP *)

(** The result holds the events that the RTCP receiver hands to the dispatcher. *)
Definition HandleRtcpPacket (ord : list str -> list str) (alive : Z -> bool) (supported : TrackInfo -> bool)
    (e : Endpoint) (routes : gmap Z Subscription) (packet : list Z) : mres (Endpoint * gmap Z Subscription * list RtcpEvent) :=
  if negb (IsRunning e) then Ret (e, routes, []) else
  let '(e, routes) := Prune ord alive e routes in
  if blen packet <? 4 then Ret (e, routes, []) else
  let! info := InspectRtcpPacket (Some packet) in
  match info with
  | None => Ret (e, routes, [])
  | Some i =>
    let e := if has_media_ssrc i && ((first_packet_type i =? pt_value RTCP_PT_SR) ||
                  (first_packet_type i =? pt_value RTCP_PT_SDES) || (first_packet_type i =? pt_value RTCP_PT_BYE))
             then fst (GetOrCreateReceiverTrack supported e (info_media_ssrc i)) else e in
    let! '(_, events) := OnRtcpPacket (Some packet) in
    Ret (e, routes, events)
  end.

(** The packet begins with a sender report and its track is given. *)
Definition names_source (packet : list Z) (hint : str) : mres bool :=
  if negb (empty hint) && (8 <=? blen packet) then let! t := rd packet 1 in Ret (t =? 200) else Ret false.

Definition OnRtcp (ord : list str -> list str) (alive : Z -> bool) (supported : TrackInfo -> bool)
    (e : Endpoint) (routes : gmap Z Subscription) (packet : list Z) (hint : str)
    : mres (Endpoint * gmap Z Subscription * list RtcpEvent) :=
  if negb (IsRunning e) then Ret (e, routes, []) else
  let '(e, routes) := Prune ord alive e routes in
  if negb (empty hint) && negb (known (published_tracks_ e) hint) then Ret (e, routes, []) else
  let handle e := match packet with [] => Ret (e, routes, []) | _ => HandleRtcpPacket ord alive supported e routes packet end in
  let! report := names_source packet hint in
  if negb report then handle e else
  let! info := InspectRtcpPacket (Some packet) in
  match info with
  | None => Ret (e, routes, [])
  | Some _ =>
    let! x := ReadUint32BE packet 4 in
    if bool_decide (x ∈ retired_ssrcs_ e) then Ret (e, routes, []) else
    let '(e, ok) := BindSsrc e hint x in
    if negb ok then Ret (e, routes, []) else handle e
  end.

(** ** Starting and stopping *)

Definition Start (e : Endpoint) : Endpoint * bool :=
  if stopped e then (e, false) else (with_state kRunning e, true).

Fixpoint remove_all (e : Endpoint) (routes : gmap Z Subscription) (keys : list str)
    : Endpoint * gmap Z Subscription * list Z :=
  match keys with
  | [] => (e, routes, [])
  | k :: keys =>
    let '(e, routes, _, prune) := RemovePublishedTrack e routes k true in
    let '(e, routes, more) := remove_all e routes keys in (e, routes, prune ++ more)
  end.

Definition Stop (ord : list str -> list str) (e : Endpoint) (routes : gmap Z Subscription)
    : Endpoint * gmap Z Subscription * list Z :=
  let e := with_state kStopping e in
  let '(e, routes) := Clear ord e routes in
  let '(e, routes, prune) := remove_all e routes (ord (elements (dom (published_tracks_ e)))) in
  (with_state kStopped e, routes, prune).
