(* ===== verification/SfuInv.v ===== *)
(** * The tables of an endpoint

    The invariant of the tables of [SfuEndpoint.v] and its preservation by every operation,
    renegotiation included. *)
From S2P Require Import Prelude Bytes RtpWire RtcpNackWire RtcpWire RtcpProps Affinity Names SfuEndpoint.

(** The tracks an endpoint knows, published or paused. *)
Definition all_tracks (e : Endpoint) (k : str) (t : PublishedTrack) : Prop :=
  published_tracks_ e !! k = Some t \/ exists s, paused_published_tracks_ e !! k = Some s /\ paused_track s = t.

Definition index_of (t : PublishedTrack) : Z := track_index (description t).

(** [apart] stands for the condition that tracks are added only under identities and indices
    that no paused track has; what depends on it is said under it. *)
Record ep_ok (apart : Prop) (e : Endpoint) : Prop := mkEpOk {
  ok_bound : forall x id, ssrc_bindings_ e !! x = Some id -> is_Some (published_tracks_ e !! id);
  ok_retired : forall x, is_Some (ssrc_bindings_ e !! x) -> x ∉ retired_ssrcs_ e;
  ok_receiver : forall x, is_Some (ssrc_to_track_ e !! x) -> is_Some (ssrc_bindings_ e !! x);
  ok_paused : apart -> forall k t, published_tracks_ e !! k = Some t -> paused_published_tracks_ e !! k = None;
  ok_retired_id : apart -> forall k t, all_tracks e k t -> k ∉ retired_track_ids_ e;
  ok_mid : forall a b ta tb, published_tracks_ e !! a = Some ta -> published_tracks_ e !! b = Some tb ->
    mid ta = mid tb -> mid ta <> [] -> a = b;
  ok_index : apart -> forall a b ta tb, all_tracks e a ta -> all_tracks e b tb -> index_of ta = index_of tb -> a = b;
  ok_index_range : forall k t, all_tracks e k t -> 0 <= index_of t <= INT_MAX;
  ok_named : forall k t, all_tracks e k t -> k <> [] }.

Arguments ok_bound {apart} e.
Arguments ok_retired {apart} e.
Arguments ok_receiver {apart} e.
Arguments ok_paused {apart} e.
Arguments ok_retired_id {apart} e.
Arguments ok_mid {apart} e.
Arguments ok_index {apart} e.
Arguments ok_index_range {apart} e.
Arguments ok_named {apart} e.

(** No paused track has the identity or the index. *)
Definition spare (e : Endpoint) (id : str) (index : Z) : Prop :=
  paused_published_tracks_ e !! id = None /\
  forall k s, paused_published_tracks_ e !! k = Some s -> index_of (paused_track s) <> index.

Section Tables.
Context {apart : Prop}.

Lemma new_Endpoint_ok n : ep_ok apart (new_Endpoint n).
Proof.
  assert (Hno : forall k t, ~ all_tracks (new_Endpoint n) k t).
  { intros k t [H|(s & H & _)]; simpl in H; by rewrite lookup_empty in H. }
  constructor; simpl.
  - intros x id. by rewrite lookup_empty.
  - intros x _. apply not_elem_of_empty.
  - intros x [? H]. by rewrite lookup_empty in H.
  - intros _ k t. by rewrite lookup_empty.
  - intros _ k t H. by destruct (Hno k t).
  - intros a b ta tb. by rewrite lookup_empty.
  - intros _ a b ta tb H. by destruct (Hno a ta).
  - intros k t H. by destruct (Hno k t).
  - intros k t H. by destruct (Hno k t).
Qed.

(** Tracks that keep their place and their negotiated identity. *)
Definition similar (t u : PublishedTrack) : Prop :=
  description u = description t /\ mid u = mid t /\ mid_extension_id u = mid_extension_id t.

Lemma update_track_ok e id t u :
  ep_ok apart e -> published_tracks_ e !! id = Some t -> similar t u -> ep_ok apart (with_tracks (<[id := u]> (published_tracks_ e)) e).
Proof.
  intros OK Ht (Hd & Hm & _).
  set (e' := with_tracks _ e).
  assert (Hall : forall k v, all_tracks e' k v -> exists v', all_tracks e k v' /\ index_of v' = index_of v).
  { intros k v [H|(s & Hs & <-)]; [|exists (paused_track s); split; [right; by exists s|done]].
    simpl in H. apply lookup_insert_Some in H as [[<- <-]|[_ H]].
    - exists t. split; [by left|]. unfold index_of. by rewrite Hd.
    - exists v. split; [by left|done]. }
  destruct OK as [B R V P I M X Y N]. constructor.
  - intros x k Hx. apply B in Hx. apply lookup_insert_is_Some. destruct (decide (id = k)); auto.
  - done.
  - done.
  - intros Ha k v Hk. simpl in Hk. apply lookup_insert_Some in Hk as [[<- <-]|[_ Hk]]; by eapply P.
  - intros Ha k v Hk. destruct (Hall _ _ Hk) as (v' & Hv & _). by eapply I.
  - intros a b ta tb Ha Hb E Hn. simpl in Ha, Hb.
    apply lookup_insert_Some in Ha as [[<- <-]|[_ Ha]]; apply lookup_insert_Some in Hb as [[<- <-]|[_ Hb]]; try done.
    + apply (M id b t tb); congruence.
    + apply (M a id ta t); congruence.
    + by apply (M a b ta tb).
  - intros Hap a b ta tb Ha Hb E. destruct (Hall _ _ Ha) as (va & Ga & Ea). destruct (Hall _ _ Hb) as (vb & Gb & Eb).
    apply (X Hap a b va vb); congruence.
  - intros k v Hk. destruct (Hall _ _ Hk) as (v' & Hv & Ev). rewrite <- Ev. by eapply Y.
  - intros k v Hk. destruct (Hall _ _ Hk) as (v' & Hv & _). by eapply N.
Qed.

(** The parts of an endpoint that the invariant does not mention. *)
Lemma frame_ok e e' :
  ep_ok apart e -> published_tracks_ e' = published_tracks_ e -> paused_published_tracks_ e' = paused_published_tracks_ e ->
  ssrc_bindings_ e' = ssrc_bindings_ e -> retired_ssrcs_ e' = retired_ssrcs_ e -> retired_track_ids_ e' = retired_track_ids_ e ->
  ssrc_to_track_ e' = ssrc_to_track_ e -> ep_ok apart e'.
Proof.
  intros [B R V P I M X Y N] E1 E2 E3 E4 E5 E6.
  assert (Hall : forall k t, all_tracks e' k t -> all_tracks e k t) by (unfold all_tracks; by rewrite E1, E2).
  constructor; rewrite ?E1, ?E2, ?E3, ?E4, ?E5, ?E6; try done; intros *; eauto.
Qed.

Lemma BindSsrc_ok e id x e' ok : ep_ok apart e -> BindSsrc e id x = (e', ok) -> ep_ok apart e'.
Proof.
  intros OK. unfold BindSsrc. destruct (negb _ || _) eqn:E; [intros [= <- <-]; done|]. bool_hyps.
  apply bool_decide_eq_true in H. pose proof OK as [B R V P I M X Y N].
  destruct (ssrc_bindings_ e !! x) as [id'|] eqn:Ex.
  - destruct (bool_decide (id' = id)); intros Heq; injection Heq as <- <-; [|done]. constructor; simpl; try done.
    intros y Hy. pose proof (R y Hy). set_solver.
  - intros Heq. injection Heq as <- <-. constructor; simpl; try done.
    + intros y k Hy. apply lookup_insert_Some in Hy as [[<- <-]|[_ Hy]]; [done|by eapply B].
    + intros y Hy. destruct (decide (y = x)) as [->|Hne]; [set_solver|]. rewrite lookup_insert_ne in Hy by done.
      pose proof (R y Hy). set_solver.
    + intros y Hy. apply lookup_insert_is_Some. destruct (decide (x = y)); [by left|right]. split; [done|by apply V].
Qed.

Lemma bind_all_ok xs e id : ep_ok apart e -> ep_ok apart (bind_all e id xs).
Proof.
  revert e. induction xs as [|x xs IH]; intros e OK; [done|]. simpl. apply IH.
  destruct (BindSsrc e id x) eqn:E. by eapply BindSsrc_ok.
Qed.

Lemma AddPublishedTrack_ok e id info m ext e' ok :
  ep_ok apart e -> (apart -> spare e id (track_index info)) -> track_index info <= INT_MAX ->
  AddPublishedTrack e id info m ext = (e', ok) -> ep_ok apart e'.
Proof.
  intros OK Hp Hmax. unfold AddPublishedTrack.
  destruct (_ || bool_decide (id ∈ _)) eqn:E1; [intros [= <- <-]; done|].
  destruct (_ || (negb _ && _)) eqn:E2; [intros [= <- <-]; done|].
  destruct (bool_decide (map_Exists _ _)) eqn:E3; [intros [= <- <-]; done|]. apply bool_decide_eq_false in E3.
  apply orb_false_elim in E1 as [E1 E1d]. apply orb_false_elim in E1 as [E1 E1c].
  apply orb_false_elim in E1 as [E1e E1s]. apply orb_false_elim in E1s as [Hst _].
  apply bool_decide_eq_false in E1c, E1d. apply eq_None_not_Some in E1c.
  apply orb_false_elim in E2 as [E2 E2d]. apply orb_false_elim in E2 as [E2 _]. apply orb_false_elim in E2 as [E2 _]. bool_hyps.
  set (u := mkPublishedTrack info m ext None [] None).
  set (e1 := with_tracks (<[id := u]> (published_tracks_ e)) e).
  assert (Hnew : forall k t, published_tracks_ e !! k = Some t -> index_of t <> track_index info /\ (m <> [] -> mid t <> m)).
  { intros k t Hk. assert (Hc : collides info m t = false).
    { destruct (collides info m t) eqn:Ec; [|done]. destruct E3. exists k, t. done. }
    unfold collides in Hc. bool_hyps. split; [done|]. intros Hm Hmt. apply andb_false_iff in H0 as [H0|H0].
    - bool_hyps. by apply empty_true in H0.
    - by apply bool_decide_eq_false in H0. }
  assert (Hpub : forall k t, published_tracks_ e1 !! k = Some t -> (k = id /\ t = u) \/ published_tracks_ e !! k = Some t).
  { intros k t H. simpl in H. apply lookup_insert_Some in H as [[<- <-]|[_ H]]; [by left|by right]. }
  assert (Hall : forall k t, all_tracks e1 k t -> (k = id /\ t = u) \/ all_tracks e k t).
  { intros k t [H|H]; [|right; by right]. destruct (Hpub _ _ H); [by left|right; by left]. }
  assert (Hidx : apart -> forall k t, all_tracks e k t -> index_of t <> track_index info).
  { intros Ha k t [H|(s & Hs & <-)]; [by apply (Hnew k)|]. by apply (proj2 (Hp Ha) k). }
  assert (OK1 : ep_ok apart e1).
  { destruct OK as [B R V P I M X Y N]. constructor.
    - intros x k Hx. apply B in Hx. apply lookup_insert_is_Some. destruct (decide (id = k)); auto.
    - done.
    - done.
    - intros Ha k t Hk. destruct (Hpub _ _ Hk) as [[-> ->]|H]; [apply (Hp Ha)|by eapply P].
    - intros Ha k t Hk. destruct (Hall _ _ Hk) as [[-> ->]|H]; [done|by eapply I].
    - intros a b ta tb Ha Hb Em Hn.
      destruct (Hpub a ta Ha) as [[-> ->]|Ha2], (Hpub b tb Hb) as [[-> ->]|Hb2]; try done.
      + destruct (Hnew _ _ Hb2) as [_ G]. simpl in Em, Hn. by destruct (G Hn).
      + destruct (Hnew _ _ Ha2) as [_ G]. simpl in Em. destruct G; congruence.
      + by apply (M a b ta tb).
    - intros Hap a b ta tb Ha Hb Ei.
      destruct (Hall _ _ Ha) as [[-> ->]|Ha2]; destruct (Hall _ _ Hb) as [[-> ->]|Hb2]; try done.
      + by destruct (Hidx Hap _ _ Hb2).
      + by destruct (Hidx Hap _ _ Ha2).
      + by apply (X Hap a b ta tb).
    - intros k t Hk. destruct (Hall _ _ Hk) as [[-> ->]|H]; [unfold index_of; simpl; lia|]. by apply (Y k t).
    - intros k t Hk. destruct (Hall _ _ Hk) as [[-> ->]|H']; [by apply empty_false|]. by apply (N k t). }
  destruct (info_ssrc info =? 0) eqn:Es; intros Heq; injection Heq as <- <-; [done|].
  simpl in E2d. apply bool_decide_eq_false, eq_None_not_Some in E2d.
  destruct (BindSsrc e1 id (info_ssrc info)) as [e2 ok2] eqn:Eb. pose proof (BindSsrc_ok _ _ _ _ _ OK1 Eb) as OK2.
  unfold BindSsrc in Eb. simpl in Eb. rewrite lookup_insert_eq in Eb. rewrite bool_decide_eq_true_2 in Eb by done.
  rewrite Hst in Eb. simpl in Eb. rewrite E2d in Eb. by simplify_eq.
Qed.

Lemma AddPublishedMedia_ok e id m index e' ok :
  ep_ok apart e -> (apart -> spare e id index) -> index <= INT_MAX ->
  AddPublishedMedia e id m index = (e', ok) -> ep_ok apart e'.
Proof.
  intros OK Hp Hi. unfold AddPublishedMedia. destruct (media_info m) as [info|]; [|intros [= <- <-]; done].
  destruct (existsb _ _); [intros [= <- <-]; done|]. destruct (existsb _ _); [intros [= <- <-]; done|].
  destruct (AddPublishedTrack _ _ _ _ _) as [e1 ok1] eqn:E1.
  pose proof (AddPublishedTrack_ok _ _ (set_index index info) _ _ _ _ OK Hp Hi E1) as OK1.
  destruct ok1; simpl; intros [= <- <-]; [by apply bind_all_ok|done].
Qed.

(** ** Removing a track *)

Lemma ssrcs_of_elem e id x : x ∈ ssrcs_of e id <-> ssrc_bindings_ e !! x = Some id.
Proof.
  unfold ssrcs_of. rewrite list_elem_of_In, in_map_iff. split.
  - intros ([y k] & <- & H). apply filter_In in H as [H1 H2]. apply bool_decide_eq_true in H2. simpl in *. subst.
    by apply elem_of_map_to_list, list_elem_of_In.
  - intros H. exists (x, id). split; [done|]. apply filter_In. split; [by apply list_elem_of_In, elem_of_map_to_list|].
    by apply bool_decide_eq_true.
Qed.

Lemma remove_receivers_frame xs e : exists m, remove_receivers xs e = with_receivers m e /\
  (forall x, is_Some (m !! x) <-> is_Some (ssrc_to_track_ e !! x) /\ x ∉ xs).
Proof.
  revert e. induction xs as [|x xs IH]; intros e; simpl.
  { exists (ssrc_to_track_ e). split; [by destruct e|]. intros y. split; [|naive_solver].
    intros H. split; [done|]. apply not_elem_of_nil. }
  destruct (IH (RemoveMediaStream e x)) as (m & -> & H). exists m. split; [done|].
  intros y. rewrite H, not_elem_of_cons. simpl. destruct (decide (y = x)) as [->|Hne].
  - rewrite lookup_delete_eq. split; [intros [[? ?] _]; done|naive_solver].
  - rewrite lookup_delete_ne by done. naive_solver.
Qed.

Lemma RemovePublishedTrack_ok e routes id ret e' routes' ok prune :
  ep_ok apart e -> RemovePublishedTrack e routes id ret = (e', routes', ok, prune) ->
  ep_ok apart e' /\ paused_published_tracks_ e' = paused_published_tracks_ e /\ published_tracks_ e' = delete id (published_tracks_ e) /\
  state_ e' = state_ e.
Proof.
  intros OK. unfold RemovePublishedTrack. destruct (published_tracks_ e !! id) as [t|] eqn:Et; cycle 1.
  { intros [= <- <- <- <-]. split; [done|]. split; [done|]. split; [|done]. symmetry. by apply delete_id. }
  destruct (close_routes _ routes) as [routes1 prune1].
  destruct (remove_receivers_frame (ssrcs_of e id) e) as (m & -> & Hm). intros Heq. injection Heq as <- <- <- <-.
  split; [|by destruct ret].
  set (bs := filter (fun b => snd b <> id) (ssrc_bindings_ e)).
  match goal with |- ep_ok apart ?x => set (e' := x) end.
  assert (E1 : published_tracks_ e' = delete id (published_tracks_ e)) by (by destruct ret).
  assert (E2 : paused_published_tracks_ e' = paused_published_tracks_ e) by (by destruct ret).
  assert (E3 : ssrc_bindings_ e' = bs) by (by destruct ret).
  assert (E4 : forall x, x ∈ retired_ssrcs_ e' -> x ∈ ssrcs_of e id \/ x ∈ retired_ssrcs_ e).
  { intros x. unfold e'. destruct ret; simpl; [|by right]. intros [Hx|Hx]%elem_of_union; [left|by right].
    by apply elem_of_list_to_set in Hx. }
  assert (E5 : forall k, k ∈ retired_track_ids_ e' -> k = id \/ k ∈ retired_track_ids_ e).
  { intros k. unfold e'. destruct ret; simpl; [|by right]. intros [Hk|Hk]%elem_of_union; [left|by right]. set_solver +Hk. }
  assert (E6 : ssrc_to_track_ e' = m) by (by destruct ret).
  clearbody e'. destruct OK as [B R V P I M X Y N].
  assert (Hbs : forall x k, bs !! x = Some k <-> ssrc_bindings_ e !! x = Some k /\ k <> id)
    by (intros x k; unfold bs; by rewrite map_lookup_filter_Some).
  assert (Hall : forall k u, all_tracks e' k u -> all_tracks e k u /\ (apart -> k <> id)).
  { intros k u [H|(s & Hs & <-)].
    - rewrite E1 in H. apply lookup_delete_Some in H as [? H]. split; [by left|done].
    - rewrite E2 in Hs. split; [right; by exists s|]. intros Ha ->. rewrite (P Ha _ _ Et) in Hs. done. }
  constructor.
  - intros x k Hx. rewrite E3 in Hx. apply Hbs in Hx as [Hx Hne]. rewrite E1, lookup_delete_ne by done. by eapply B.
  - intros x [k Hk] Hin. rewrite E3 in Hk. apply Hbs in Hk as [Hk Hne]. apply E4 in Hin as [Hin|Hin].
    + apply ssrcs_of_elem in Hin. congruence.
    + by apply (R x); [eexists|].
  - intros x Hx. rewrite E6 in Hx. apply Hm in Hx as [Hx Hn]. apply V in Hx as [k Hk]. rewrite E3. exists k. apply Hbs.
    split; [done|]. intros ->. by apply Hn, ssrcs_of_elem.
  - intros Ha k u Hk. rewrite E1 in Hk. apply lookup_delete_Some in Hk as [_ Hk]. rewrite E2. by eapply P.
  - intros Ha k u Hk Hin. apply Hall in Hk as [Hk Hne]. apply E5 in Hin as [Hin|Hin]; [by apply Hne|]. by eapply I.
  - intros a b ta tb Ha Hb. rewrite E1 in Ha, Hb. apply lookup_delete_Some in Ha as [_ Ha]. apply lookup_delete_Some in Hb as [_ Hb].
    by apply M.
  - intros Hap a b ta tb Ha Hb. apply Hall in Ha as [Ha _]. apply Hall in Hb as [Hb _]. by apply X.
  - intros k u Hk. apply Hall in Hk as [Hk _]. by eapply Y.
  - intros k u Hk. apply Hall in Hk as [Hk _]. by eapply N.
Qed.

(** ** Packets *)

Lemma GetOrCreateReceiverTrack_ok sup e x e' ok :
  ep_ok apart e -> GetOrCreateReceiverTrack sup e x = (e', ok) -> ep_ok apart e' /\ published_tracks_ e' = published_tracks_ e /\
  ssrc_bindings_ e' = ssrc_bindings_ e.
Proof.
  intros OK. unfold GetOrCreateReceiverTrack. destruct (ssrc_to_track_ e !! x); [intros [= <- <-]; done|].
  destruct (ssrc_bindings_ e !! x) as [id|] eqn:Ex; [|intros [= <- <-]; done].
  destruct (published_tracks_ e !! id) as [t|]; [|intros [= <- <-]; done].
  destruct (negb _); [intros [= <- <-]; done|]. intros Heq. injection Heq as <- <-. split; [|done].
  destruct OK as [B R V P I M X Y N]. constructor; simpl; try done. intros y Hy.
  destruct (decide (x = y)) as [<-|Hne]; [by exists id|]. rewrite lookup_insert_ne in Hy by done. by apply V.
Qed.

Lemma set_subscribers_similar xs t : similar t (set_subscribers xs t).
Proof. done. Qed.

Lemma ForwardRtpToSubscribers_ok copied e routes x :
  ep_ok apart e -> exists e' routes' out, ForwardRtpToSubscribers copied e routes x = Ret (e', routes', out) /\ ep_ok apart e'.
Proof.
  intros OK. unfold ForwardRtpToSubscribers. destruct (ssrc_bindings_ e !! x) as [id|] eqn:Ex; [|by eauto].
  destruct (ok_bound _ OK _ _ Ex) as [t Ht]. rewrite Ht.
  assert (ep_ok apart (with_tracks (<[id := set_subscribers (open_routes routes (subscribers t)) t]> (published_tracks_ e)) e)) as OK'
    by (eapply update_track_ok; [done|done|apply set_subscribers_similar]).
  destruct (negb copied); [by eauto|]. destruct (fan_out _ _ _) as [routes' out]. by eauto.
Qed.

(** Reading the packet never fails once its header extensions are readable. *)
Lemma extensions_length packet exts vals :
  ReadRtpHeaderExtensions (Some packet) vals = Ret (true, exts) -> 12 <= blen packet.
Proof.
  unfold ReadRtpHeaderExtensions. destruct (blen packet <? 12) eqn:E; [done|]. intros _. bool_hyps. lia.
Qed.

Lemma ResolveRtpTrack_ok ord e packet hint :
  ep_ok apart e -> bytes_ok packet -> exists e' ok, ResolveRtpTrack ord e packet hint = Ret (e', ok) /\ ep_ok apart e' /\
    published_tracks_ e' = published_tracks_ e /\ (ok = true -> 12 <= blen packet) /\ (ok = false -> e' = e).
Proof.
  intros OK Hb. unfold ResolveRtpTrack.
  destruct (extension_reader_returns packet ∅ Hb) as ([ok exts] & E). rewrite E. simpl.
  destruct ok; simpl; [|by exists e, false]. pose proof (extensions_length _ _ _ E) as Hl.
  rewrite ReadUint32BE_ok by (done || lia). simpl. case_bool_decide; [by exists e, false|].
  rewrite rd_ok by lia. simpl. destruct (select_track _ _ _ _ _ _) as [id|]; [|by exists e, false].
  destruct (BindSsrc e id _) as [e' ok'] eqn:Eb. exists e', ok'. split; [done|]. split; [by eapply BindSsrc_ok|].
  unfold BindSsrc in Eb. repeat case_match; simplify_eq; done.
Qed.

Lemma HandleRtpPacket_ok ord sup acc cp e routes packet :
  ep_ok apart e -> bytes_ok packet -> exists e' routes' out,
    HandleRtpPacket ord sup acc cp e routes packet = Ret (e', routes', out) /\ ep_ok apart e'.
Proof.
  intros OK Hb. unfold HandleRtpPacket. destruct (negb (IsRunning e)); [by eauto|].
  destruct (ResolveRtpTrack_ok ord e packet [] OK Hb) as (e1 & ok1 & E1 & OK1 & _ & Hl & _). rewrite E1. simpl.
  destruct ok1; simpl; [|by eauto]. specialize (Hl eq_refl). destruct (blen packet <? 12) eqn:El; [by eauto|].
  rewrite ReadUint32BE_ok by (done || lia). simpl.
  destruct (GetOrCreateReceiverTrack sup e1 _) as [e2 ok2] eqn:E2.
  destruct (GetOrCreateReceiverTrack_ok _ _ _ _ _ OK1 E2) as (OK2 & _).
  destruct (_ || _); [by eauto|]. by apply ForwardRtpToSubscribers_ok.
Qed.

Lemma OnRtp_ok ord sup acc cp e routes packet hint :
  ep_ok apart e -> bytes_ok packet -> exists e' routes' out,
    OnRtp ord sup acc cp e routes packet hint = Ret (e', routes', out) /\ ep_ok apart e'.
Proof.
  intros OK Hb. unfold OnRtp. destruct packet as [|b0 packet]; [by eauto|].
  destruct (negb (IsRunning e)); [by eauto|].
  destruct (ResolveRtpTrack_ok ord e (b0 :: packet) hint OK Hb) as (e1 & ok1 & E1 & OK1 & _). rewrite E1. simpl.
  destruct ok1; simpl; [|by eauto]. by apply HandleRtpPacket_ok.
Qed.

Lemma OnTrackPli_ok e d now x e' out : ep_ok apart e -> OnTrackPli e d now x = (e', out) -> ep_ok apart e'.
Proof.
  intros OK. unfold OnTrackPli. destruct (negb _); [intros [= <- <-]; done|].
  destruct (RtcpSenderFor e d x); [|intros [= <- <-]; done].
  destruct (ssrc_bindings_ e !! x) as [id|] eqn:Ex.
  - destruct (published_tracks_ e !! id) as [t|] eqn:Et; [|intros [= <- <-]; done].
    destruct (Allow _ _) as [l ok]. intros Heq. injection Heq as <- <-. by eapply update_track_ok.
  - destruct (Allow _ _) as [l ok]. intros Heq. injection Heq as <- <-. by apply (frame_ok e).
Qed.

Lemma pli_all_ok xs e d now e' out : ep_ok apart e -> pli_all e d now xs = (e', out) -> ep_ok apart e'.
Proof.
  revert e out. induction xs as [|x xs IH]; intros e out OK H; simpl in H; [by simplify_eq|].
  destruct (OnTrackPli e d now x) as [e1 s] eqn:E1. apply OnTrackPli_ok in E1; [|done].
  destruct (pli_all e1 d now xs) as [e2 more] eqn:E2. simplify_eq. by eapply IH.
Qed.

Lemma RequestKeyFrame_ok e d now id e' out : ep_ok apart e -> RequestKeyFrame e d now id = (e', out) -> ep_ok apart e'.
Proof. intros OK. unfold RequestKeyFrame. destruct (negb _); [intros [= <- <-]; done|]. by apply pli_all_ok. Qed.

Lemma SetTrackRtcpSendCallback_ok e id cb : ep_ok apart e -> ep_ok apart (SetTrackRtcpSendCallback e id cb).
Proof.
  intros OK. unfold SetTrackRtcpSendCallback. destruct (published_tracks_ e !! id) as [t|] eqn:Et; [|done].
  by eapply update_track_ok.
Qed.

(** ** Downlinks: the tables of the published tracks are not involved *)

Definition only_downlinks (e e' : Endpoint) : Prop := exists x y z, e' = with_downlinks x y z e.

Lemma only_downlinks_refl e : only_downlinks e e.
Proof. exists (parameters_ e), (subscriptions_ e), (transports_ e). by destruct e. Qed.

Lemma only_downlinks_trans a b c : only_downlinks a b -> only_downlinks b c -> only_downlinks a c.
Proof. intros (x & y & z & ->) (x' & y' & z' & ->). by exists x', y', z'. Qed.

Lemma only_downlinks_ok e e' : only_downlinks e e' -> ep_ok apart e -> ep_ok apart e'.
Proof. intros (x & y & z & ->) OK. by apply (frame_ok e). Qed.

Lemma Unsubscribe_only e routes id e' routes' ok : Unsubscribe e routes id = (e', routes', ok) -> only_downlinks e e'.
Proof.
  unfold Unsubscribe. intros H. destruct (subscriptions_ e !! id) as [y|]; [|simplify_eq; apply only_downlinks_refl].
  destruct (routes !! y); simplify_eq; by eexists _, _, _.
Qed.

Lemma prune_keys_only keys alive e routes e' routes' : prune_keys alive e routes keys = (e', routes') -> only_downlinks e e'.
Proof.
  revert e routes. induction keys as [|k keys IH]; intros e routes H; simpl in H; [simplify_eq; apply only_downlinks_refl|].
  destruct (subscriptions_ e !! k) as [y|]; [|by eapply IH]. destruct (routes !! y) as [s|]; [|by eapply IH].
  destruct (_ || _); [|by eapply IH]. destruct (Unsubscribe e routes k) as [[e1 r1] ok] eqn:E.
  eapply only_downlinks_trans; [by eapply Unsubscribe_only|by eapply IH].
Qed.

Lemma unsubscribe_keys_only keys e routes e' routes' : unsubscribe_keys e routes keys = (e', routes') -> only_downlinks e e'.
Proof.
  revert e routes. induction keys as [|k keys IH]; intros e routes H; simpl in H; [simplify_eq; apply only_downlinks_refl|].
  destruct (Unsubscribe e routes k) as [[e1 r1] ok] eqn:E.
  eapply only_downlinks_trans; [by eapply Unsubscribe_only|by eapply IH].
Qed.

Lemma Clear_only ord e routes e' routes' : Clear ord e routes = (e', routes') -> only_downlinks e e'.
Proof.
  unfold Clear. destruct (unsubscribe_keys _ _ _) as [e1 r1] eqn:E. intros [= <- <-].
  eapply only_downlinks_trans; [by eapply unsubscribe_keys_only|]. by eexists _, _, _.
Qed.

Lemma Configure_only ord alive e routes id c e' routes' ok :
  Configure ord alive e routes id c = (e', routes', ok) -> only_downlinks e e'.
Proof.
  unfold Configure. destruct (Prune ord alive e routes) as [e1 r1] eqn:E. apply prune_keys_only in E.
  destruct (_ || _); intros H; simplify_eq; [done|]. eapply only_downlinks_trans; [done|]. by eexists _, _, _.
Qed.

Lemma downlink_subscribe_only ord alive attach e routes id info ref route s e' routes' ok :
  downlink_subscribe ord alive attach e routes id info ref route s = (e', routes', ok) -> only_downlinks e e'.
Proof.
  unfold downlink_subscribe. destruct (Prune ord alive e routes) as [e1 r1] eqn:E. apply prune_keys_only in E.
  destruct (parameters_ e1 !! id) as [c|]; [|intros H; by simplify_eq].
  destruct (_ || _); [intros H; by simplify_eq|].
  destruct (match transports_ e1 !! params_transport c with Some _ => _ | None => _ end); [intros H; by simplify_eq|].
  set (v := if fst ref =? 0 then _ else _). destruct v; intros H; simplify_eq; [|done].
  eapply only_downlinks_trans; [done|]. by eexists _, _, _.
Qed.

(** ** RTCP *)

Lemma HandleRtcpPacket_ok ord alive sup e routes packet :
  ep_ok apart e -> bytes_ok packet -> exists e' routes' ev, HandleRtcpPacket ord alive sup e routes packet = Ret (e', routes', ev) /\ ep_ok apart e'.
Proof.
  intros OK Hb. unfold HandleRtcpPacket. destruct (negb (IsRunning e)); [by eauto|].
  destruct (Prune ord alive e routes) as [e1 r1] eqn:E1. apply prune_keys_only in E1. pose proof (only_downlinks_ok _ _ E1 OK) as OK1.
  destruct (blen packet <? 4); [by eauto|]. destruct (rtcp_inspect_accepts packet Hb) as [[info ->] _]. cbn [mbnd].
  destruct info as [i|]; [|by eauto]. destruct (OnRtcpPacket_spec packet Hb) as (ok & ev & -> & _). cbn [mbnd]. eexists _, _, _. split; [done|].
  destruct (_ && _); [|done]. destruct (GetOrCreateReceiverTrack sup e1 _) as [e2 ok2] eqn:E2. by eapply GetOrCreateReceiverTrack_ok.
Qed.

Lemma names_source_returns packet hint : exists b, names_source packet hint = Ret b /\ (b = true -> 8 <= blen packet).
Proof.
  unfold names_source. destruct (negb (empty hint) && (8 <=? blen packet)) eqn:E; [|by exists false].
  apply andb_prop in E as [_ E]. bool_hyps. rewrite rd_ok by lia. simpl. by eexists.
Qed.

Lemma OnRtcp_ok ord alive sup e routes packet hint :
  ep_ok apart e -> bytes_ok packet -> exists e' routes' ev, OnRtcp ord alive sup e routes packet hint = Ret (e', routes', ev) /\ ep_ok apart e'.
Proof.
  intros OK Hb. unfold OnRtcp. destruct (negb (IsRunning e)); [by eauto|].
  destruct (Prune ord alive e routes) as [e1 r1] eqn:E1. apply prune_keys_only in E1. pose proof (only_downlinks_ok _ _ E1 OK) as OK1.
  destruct (_ && negb (known _ _)); [by eauto|].
  assert (Hh : forall e2, ep_ok apart e2 -> exists e' routes' ev,
    match packet with [] => Ret (e2, r1, []) | _ => HandleRtcpPacket ord alive sup e2 r1 packet end = Ret (e', routes', ev) /\ ep_ok apart e').
  { intros e2 OK2. destruct packet; [by eauto|]. by apply HandleRtcpPacket_ok. }
  destruct (names_source_returns packet hint) as (rep & -> & Hl). cbn [mbnd]. destruct rep; cbn [negb]; [|by apply Hh].
  destruct (rtcp_inspect_accepts packet Hb) as [[info ->] _]. cbn [mbnd]. destruct info as [i|]; [|by eexists _, _, _].
  rewrite ReadUint32BE_ok by (done || (specialize (Hl eq_refl); lia)). cbn [mbnd]. case_bool_decide; [by eexists _, _, _|].
  destruct (BindSsrc e1 hint _) as [e2 ok2] eqn:E2. apply BindSsrc_ok in E2; [|done]. destruct (negb ok2); [by eexists _, _, _|by apply Hh].
Qed.

Lemma remove_all_ok keys e routes e' routes' prune :
  ep_ok apart e -> remove_all e routes keys = (e', routes', prune) ->
  ep_ok apart e' /\ paused_published_tracks_ e' = paused_published_tracks_ e /\
  (forall k, published_tracks_ e' !! k = if decide (k ∈ keys) then None else published_tracks_ e !! k).
Proof.
  revert e routes prune. induction keys as [|k keys IH]; intros e routes prune OK H; simpl in H.
  { simplify_eq. split; [done|]. split; [done|]. intros k. by destruct (decide (k ∈ [])) as [Hk%not_elem_of_nil|]. }
  destruct (RemovePublishedTrack e routes k true) as [[[e1 r1] ok1] p1] eqn:E1.
  destruct (RemovePublishedTrack_ok _ _ _ _ _ _ _ _ OK E1) as (OK1 & P1 & T1 & _).
  destruct (remove_all e1 r1 keys) as [[e2 r2] more] eqn:E2. simplify_eq.
  destruct (IH _ _ _ OK1 E2) as (OK2 & P2 & T2). split; [done|]. split; [congruence|].
  intros j. rewrite T2, T1. destruct (decide (j = k)) as [->|Hne].
  - rewrite lookup_delete_eq. destruct (decide (k ∈ k :: keys)) as [|Hn]; [by destruct (decide (k ∈ keys))|].
    destruct Hn. apply list_elem_of_here.
  - rewrite lookup_delete_ne by done.
    destruct (decide (j ∈ keys)) as [Hj|Hj], (decide (j ∈ k :: keys)) as [Hk|Hk]; try done; exfalso; clear -Hj Hk Hne; set_solver.
Qed.

Lemma endpoint_Stop_ok ord e routes e' routes' prune :
  (forall l, ord l ≡ₚ l) -> ep_ok apart e -> Stop ord e routes = (e', routes', prune) ->
  ep_ok apart e' /\ state_ e' = kStopped /\ published_tracks_ e' = ∅ /\ ssrc_bindings_ e' = ∅ /\ ssrc_to_track_ e' = ∅.
Proof.
  intros Hord OK. unfold Stop. destruct (Clear ord _ routes) as [e1 r1] eqn:E1. apply Clear_only in E1.
  assert (OK1 : ep_ok apart e1) by (eapply only_downlinks_ok; [done|]; by apply (frame_ok e)).
  destruct (remove_all _ _ _) as [[e2 r2] p2] eqn:E2. intros Heq. injection Heq as <- <- <-.
  destruct (remove_all_ok _ _ _ _ _ _ OK1 E2) as (OK2 & _ & T2).
  assert (Ht : published_tracks_ e2 = ∅).
  { apply map_empty. intros k. rewrite T2. destruct (decide (k ∈ _)) as [|Hk]; [done|].
    apply not_elem_of_dom. intros Hd. apply Hk. rewrite Hord. by apply elem_of_elements. }
  assert (Hb : ssrc_bindings_ e2 = ∅).
  { apply map_empty. intros x. destruct (ssrc_bindings_ e2 !! x) as [id|] eqn:Ex; [|done].
    apply (ok_bound _ OK2) in Ex as [t Hx]. by rewrite Ht, lookup_empty in Hx. }
  split; [by apply (frame_ok e2)|]. split; [done|]. split; [done|]. split; [done|]. simpl.
  apply map_empty. intros x. destruct (ssrc_to_track_ e2 !! x) as [i|] eqn:Ex; [|done].
  destruct (ok_receiver _ OK2 x) as [id Hx]; [by exists i|]. by rewrite Hb, lookup_empty in Hx.
Qed.

End Tables.
