(* ===== verification/SfuReplace.v ===== *)
(** * Renegotiation keeps the tables of an endpoint

    The invariant of the containers that [ReplacePublishedTracks] prepares, and what the
    operation does when it succeeds. *)
From S2P Require Import Prelude Bytes RtpWire Affinity Names SfuEndpoint SfuInv.

(** ** The offer *)

Lemma gather_spec medias mids seen cs : gather medias mids seen = Some cs ->
  NoDup (List.map cand_mid cs) /\ (forall c, c ∈ cs -> cand_mid c <> [] /\ cand_mid c ∉ mids) /\
  List.map cand_mid cs = List.map media_mid medias /\
  Forall2 (fun c m => exists i, media_info m = Some i /\ cand_info c = set_index 0 i /\ cand_ssrcs c = media_ssrcs m /\
    cand_mid_extension c = media_mid_extension m /\ cand_mid c = media_mid m) cs medias.
Proof.
  revert mids seen cs. induction medias as [|m medias IH]; intros mids seen cs H; simpl in H.
  { simplify_eq. split; [apply NoDup_nil_2|]. split; [intros c Hc; by apply not_elem_of_nil in Hc|]. by split. }
  destruct (_ || _) eqn:E; [done|]. apply orb_false_elim in E as [E _]. apply orb_false_elim in E as [E _].
  apply orb_false_elim in E as [E1 E2]. apply bool_decide_eq_false in E2. apply empty_false in E1.
  destruct (media_info m) as [i|] eqn:Ei; [|done]. destruct (offered_ssrcs _ _) as [seen1|]; [|done].
  destruct (gather medias _ seen1) as [cs1|] eqn:Eg; [|done]. simplify_eq.
  destruct (IH _ _ _ Eg) as (N & P & Q & F). simpl. split; [|split; [|split]].
  - apply NoDup_cons. split; [|done]. intros Hin. apply list_elem_of_In, in_map_iff in Hin as (c & Hc & Hin).
    apply list_elem_of_In in Hin. destruct (P _ Hin) as [_ Hn]. apply Hn. rewrite Hc. set_solver +.
  - intros c Hc. apply elem_of_cons in Hc as [->|Hc]; [done|]. destruct (P _ Hc) as [Hn Hm]. split; [done|]. set_solver +Hm.
  - by rewrite Q.
  - constructor; [|done]. by exists i.
Qed.

(** ** Looking for the track to continue *)

Lemma first_key_Some {A} (f : str -> A -> bool) m keys k x :
  first_key f m keys = Some (k, x) -> m !! k = Some x /\ f k x = true.
Proof.
  induction keys as [|j keys IH]; simpl; [done|]. destruct (m !! j) as [y|] eqn:E; [|done].
  destruct (f j y) eqn:Ef; [|done]. intros [= <- <-]. done.
Qed.

Lemma first_key_None {A} (f : str -> A -> bool) m keys :
  first_key f m keys = None -> forall k x, k ∈ keys -> m !! k = Some x -> f k x = false.
Proof.
  induction keys as [|j keys IH]; simpl; intros H k x Hk Hx; [by apply not_elem_of_nil in Hk|].
  apply elem_of_cons in Hk as [->|Hk].
  - rewrite Hx in H. by destruct (f j x).
  - destruct (m !! j) as [y|]; [destruct (f j y); [done|]|]; by eapply IH.
Qed.

(** Where the identity of a candidate comes from. *)
Inductive continues (e : Endpoint) (paused : gmap str PausedPublishedTrack) (m id : str)
    : option PublishedTrack -> option PausedPublishedTrack -> Prop :=
| cont_published t : published_tracks_ e !! id = Some t -> continues e paused m id (Some t) None
| cont_paused s : paused !! id = Some s -> mid (paused_track s) = m -> continues e paused m id (Some (paused_track s)) (Some s)
| cont_fresh : id = m -> continues e paused m id None None.

Lemma find_previous_spec ord e paused m id previous suspended :
  find_previous ord e paused m = (id, previous, suspended) -> continues e paused m id previous suspended.
Proof.
  unfold find_previous. destruct (first_key _ (published_tracks_ e) _) as [[k t]|] eqn:E1.
  { intros [= <- <- <-]. apply first_key_Some in E1 as [H _]. by constructor. }
  destruct (first_key _ paused _) as [[k t]|] eqn:E2.
  { intros [= <- <- <-]. apply first_key_Some in E2 as [H H2]. apply bool_decide_eq_true in H2. by constructor. }
  intros [= <- <- <-]. by constructor.
Qed.

(** ** Claiming SSRCs *)

Lemma claim_ssrc_spec e id suspended paused x b r b' r' :
  claim_ssrc e id suspended paused x (b, r) = Some (b', r') ->
  b !! x = None /\ b' = <[x := id]> b /\ r' = r ∖ {[ x ]} /\
  (forall k, ssrc_bindings_ e !! x = Some k -> k = id) /\
  (x ∈ retired_ssrcs_ e -> exists s, suspended = Some s /\ x ∈ paused_ssrcs s) /\
  (forall k t, paused !! k = Some t -> x ∈ paused_ssrcs t -> k = id).
Proof.
  unfold claim_ssrc. intros H.
  destruct (match ssrc_bindings_ e !! x with Some _ => _ | None => _ end) eqn:E1; [done|].
  destruct (bool_decide (x ∈ retired_ssrcs_ e) && _) eqn:E2; [done|].
  destruct (bool_decide (map_Exists _ _)) eqn:E3; [done|]. destruct (b !! x) eqn:Eb; [done|]. simplify_eq.
  split; [done|]. split; [done|]. split; [done|]. split; [|split].
  - intros k Hk. rewrite Hk in E1. bool_hyps. by apply bool_decide_eq_true in E1.
  - intros Hx. rewrite bool_decide_eq_true_2 in E2 by done. simpl in E2. destruct suspended as [s|]; [|done].
    bool_hyps. apply bool_decide_eq_true in E2. by exists s.
  - intros k t Hk Hx. apply bool_decide_eq_false in E3. destruct (decide (k = id)) as [|Hne]; [done|].
    destruct E3. by exists k, t.
Qed.

Lemma claim_ssrcs_spec xs e id suspended paused b r b' r' :
  claim_ssrcs e id suspended paused xs (b, r) = Some (b', r') ->
  (forall y k, b' !! y = Some k <-> b !! y = Some k \/ (y ∈ xs /\ k = id)) /\
  (forall y, y ∈ xs -> b !! y = None) /\
  (forall y, y ∈ r' <-> y ∈ r /\ y ∉ xs) /\
  (forall y, y ∈ xs -> (forall k, ssrc_bindings_ e !! y = Some k -> k = id) /\
     (y ∈ retired_ssrcs_ e -> exists s, suspended = Some s /\ y ∈ paused_ssrcs s)).
Proof.
  revert b r. induction xs as [|x xs IH]; intros b r H; cbn [claim_ssrcs] in H.
  { simplify_eq. split; [|split; [|split]].
    - intros y k. split; [by left|]. intros [|[Hy _]]; [done|]. by apply not_elem_of_nil in Hy.
    - intros y Hy. by apply not_elem_of_nil in Hy.
    - intros y. split; [|naive_solver]. intros. split; [done|]. apply not_elem_of_nil.
    - intros y Hy. by apply not_elem_of_nil in Hy. }
  destruct (claim_ssrc e id suspended paused x (b, r)) as [[b1 r1]|] eqn:E; [|done].
  apply claim_ssrc_spec in E as (Hx & -> & -> & Hk & Hs & _).
  destruct (IH _ _ H) as (H1 & H2 & H3 & H4). split; [|split; [|split]].
  - intros y k. rewrite H1, lookup_insert_Some, elem_of_cons. split.
    + intros [[[-> ->]|[_ ?]]|[? ->]]; auto.
    + intros [?|[[->|?] ->]]; [|by auto|by auto]. left. right. split; [congruence|done].
  - intros y [->|Hy]%elem_of_cons; [done|]. apply H2 in Hy. apply lookup_insert_None in Hy as [? _]. done.
  - intros y. rewrite H3, not_elem_of_cons. set_solver +.
  - intros y [->|Hy]%elem_of_cons; [done|by apply H4].
Qed.

(** ** The plan *)

Section Plan.
Context {apart : Prop}.

(** What a track keeps when it is renegotiated. *)
Definition inherits (t t0 : PublishedTrack) : Prop :=
  index_of t = index_of t0 /\ subscribers t = subscribers t0 /\ send_rtcp t = send_rtcp t0 /\
  keyframe_requests t = keyframe_requests t0.

Record plan_ok (e : Endpoint) (next0 : Z) (mids : list str) (p : Plan) : Prop := mkPlanOk {
  p_bound : forall x id, plan_bindings p !! x = Some id -> is_Some (plan_tracks p !! id);
  p_retired : forall x, is_Some (plan_bindings p !! x) -> x ∉ plan_retired p;
  p_apart : forall k t, plan_tracks p !! k = Some t -> plan_paused p !! k = None;
  p_sub : forall k s, plan_paused p !! k = Some s -> paused_published_tracks_ e !! k = Some s;
  p_rest : forall k s, paused_published_tracks_ e !! k = Some s -> plan_paused p !! k = Some s \/ is_Some (plan_tracks p !! k);
  p_id : forall k t, plan_tracks p !! k = Some t -> (apart -> k ∉ retired_track_ids_ e) /\ k <> [];
  p_mid : forall k t, plan_tracks p !! k = Some t -> mid t ∈ mids /\ mid t <> [];
  p_mid_inj : forall a b ta tb, plan_tracks p !! a = Some ta -> plan_tracks p !! b = Some tb -> mid ta = mid tb -> a = b;
  p_old : forall k t, plan_tracks p !! k = Some t ->
    (exists t0, all_tracks e k t0 /\ inherits t t0) \/
    (next0 <= index_of t /\ subscribers t = [] /\ forall t0, ~ all_tracks e k t0);
  p_range : forall k t, plan_tracks p !! k = Some t -> 0 <= index_of t < plan_next p;
  p_inj : apart -> forall a b ta tb, plan_tracks p !! a = Some ta -> plan_tracks p !! b = Some tb -> index_of ta = index_of tb -> a = b;
  p_next : 0 <= next0 <= plan_next p /\ plan_next p <= INT_MAX;
  p_stay : forall x id, plan_bindings p !! x = Some id -> (forall k, ssrc_bindings_ e !! x = Some k -> k = id) /\
    (x ∈ retired_ssrcs_ e -> exists s, paused_published_tracks_ e !! id = Some s /\ x ∈ paused_ssrcs s);
  p_retire : forall x, x ∈ plan_retired p <-> x ∈ retired_ssrcs_ e /\ plan_bindings p !! x = None }.

Lemma continues_known e paused m id t suspended :
  (forall k s, paused !! k = Some s -> paused_published_tracks_ e !! k = Some s) ->
  continues e paused m id (Some t) suspended -> all_tracks e id t.
Proof. intros Hs H. inversion H; subst; [by left|]. right. exists s. split; [by apply Hs|done]. Qed.

Lemma place_ok ord e routes next0 mids c p p' :
  ep_ok apart e -> (forall k t, all_tracks e k t -> index_of t < next0) -> plan_ok e next0 mids p ->
  cand_mid c <> [] -> cand_mid c ∉ mids -> place ord e routes c p = Some p' ->
  plan_ok e next0 (cand_mid c :: mids) p'.
Proof.
  intros OK Hnext PO Hne Hnew. unfold place.
  destruct (find_previous ord e (plan_paused p) (cand_mid c)) as [[id previous] suspended] eqn:Ef.
  apply find_previous_spec in Ef.
  set (fresh := match previous with None => true | Some _ => false end).
  destruct (known (plan_tracks p) id || _) eqn:E1; [done|]. apply orb_false_elim in E1 as [E1 E1'].
  apply bool_decide_eq_false, eq_None_not_Some in E1.
  destruct (fresh && (plan_next p =? INT_MAX)) eqn:E2; [done|].
  set (info := set_index _ (cand_info c)). set (old := match previous with Some t => t | None => _ end).
  destruct (_ && listened _ _); [done|]. set (xs := match cand_ssrcs c with [] => _ | _ => _ end).
  destruct (claim_ssrcs _ _ _ _ _ _) as [[b r]|] eqn:E3; [|done]. destruct (loses_source _ _ _); [done|].
  intros Heq. injection Heq as <-. apply claim_ssrcs_spec in E3 as (Hb & Hbn & Hr & Hst).
  set (t' := mkPublishedTrack info _ _ _ _ _).
  assert (Hfresh : fresh = true -> previous = None /\ index_of t' = plan_next p /\ plan_next p < INT_MAX /\
    (forall t0, ~ all_tracks e id t0) /\ ((apart -> id ∉ retired_track_ids_ e) /\ id <> []) /\ subscribers t' = []).
  { intros Hf. destruct previous as [t|]; [done|]. split; [done|]. split; [done|]. rewrite Hf in E1', E2. simpl in E1', E2.
    split; [pose proof (proj2 (p_next _ _ _ _ PO)); bool_hyps; lia|].
    apply orb_false_elim in E1' as [E1' G3]. apply orb_false_elim in E1' as [G1 G2].
    apply bool_decide_eq_false in G1, G2, G3. split; [|split; [split; [done|by inversion Ef; subst]|done]].
    intros t0 [H|(s & Hs & _)]; [by apply G1; eexists|].
    destruct (p_rest _ _ _ _ PO _ _ Hs) as [H|[u H]]; [by apply G2; eexists|congruence]. }
  assert (Hold : fresh = false -> exists t0, all_tracks e id t0 /\ inherits t' t0).
  { intros Hf. destruct previous as [t|]; [|done]. exists t. split; [|done].
    by eapply continues_known; [apply (p_sub _ _ _ _ PO)|]. }
  assert (Hnx : plan_next p <= (if fresh then plan_next p + 1 else plan_next p)) by (destruct fresh; lia).
  destruct PO as [B R A S T I M J O G X [N1 N2] Z Q]. constructor; simpl.
  - intros x k Hx. apply Hb in Hx as [Hx|[_ ->]]; [|by rewrite lookup_insert_eq].
    apply lookup_insert_is_Some. destruct (decide (id = k)); [by left|right]. split; [done|by eapply B].
  - intros x [k Hk] Hin. apply Hr in Hin as [Hin Hn]. apply Hb in Hk as [Hk|[Hk _]]; [|done]. by apply (R x); [eexists|].
  - intros k t Hk. apply lookup_insert_Some in Hk as [[<- _]|[Hd Hk]]; [apply lookup_delete_eq|].
    rewrite lookup_delete_ne by done. by eapply A.
  - intros k s Hk. apply lookup_delete_Some in Hk as [_ Hk]. by apply S.
  - intros k s Hk. destruct (decide (id = k)) as [<-|Hd]; [right; by rewrite lookup_insert_eq|].
    rewrite lookup_delete_ne, lookup_insert_ne by done. by apply T.
  - intros k t Hk. apply lookup_insert_Some in Hk as [[<- _]|[Hd Hk]]; [|by eapply I].
    destruct fresh eqn:Hf; [by apply Hfresh|]. destruct (Hold eq_refl) as (t0 & H0 & _). split; [intros Ha; by eapply (ok_retired_id _ OK Ha)|by eapply (ok_named _ OK)].
  - intros k t Hk. apply lookup_insert_Some in Hk as [[_ <-]|[Hd Hk]]; [split; [apply list_elem_of_here|done]|].
    destruct (M _ _ Hk). split; [by apply list_elem_of_further|done].
  - intros a d ta td Ha Hd Hm.
    apply lookup_insert_Some in Ha as [[<- <-]|[Ha1 Ha]]; apply lookup_insert_Some in Hd as [[<- <-]|[Hd1 Hd]]; try done.
    + destruct (M _ _ Hd) as [G1 _]. simpl in Hm. rewrite <- Hm in G1. done.
    + destruct (M _ _ Ha) as [G1 _]. simpl in Hm. rewrite Hm in G1. done.
    + by apply (J a d ta td).
  - intros k t Hk. apply lookup_insert_Some in Hk as [[<- <-]|[Hd Hk]]; [|by apply O].
    destruct fresh eqn:Hf; [right|left; by apply Hold]. destruct (Hfresh eq_refl) as (_ & -> & _ & H0 & _ & Hs0). split; [lia|done].
  - intros k t Hk. apply lookup_insert_Some in Hk as [[<- <-]|[Hd Hk]]; [|pose proof (G _ _ Hk); lia].
    destruct fresh eqn:Hf; [destruct (Hfresh eq_refl) as (_ & -> & _); lia|].
    destruct (Hold eq_refl) as (t0 & H0 & -> & _). pose proof (Hnext _ _ H0). pose proof (ok_index_range _ OK _ _ H0). lia.
  - intros Hap. assert (Hin : forall k t, plan_tracks p !! k = Some t -> index_of t' = index_of t -> k = id).
    { intros k t Hk Ei. destruct fresh eqn:Hf.
      - destruct (Hfresh eq_refl) as (_ & E & _). pose proof (G _ _ Hk). lia.
      - destruct (Hold eq_refl) as (t0 & H0 & E & _). destruct (O _ _ Hk) as [(u & Hu & Eu & _)|[Hge _]].
        + apply (ok_index _ OK Hap k id u t0 Hu H0). congruence.
        + pose proof (Hnext _ _ H0). lia. }
    intros a d ta td Ha Hd Ei.
    apply lookup_insert_Some in Ha as [[<- <-]|[Ha1 Ha]]; apply lookup_insert_Some in Hd as [[<- <-]|[Hd1 Hd]]; try done.
    + symmetry. by eapply Hin.
    + eapply Hin; [done|by symmetry].
    + by apply (X Hap a d ta td).
  - split; [lia|]. destruct fresh eqn:Hf; [destruct (Hfresh eq_refl) as (_ & _ & ? & _); lia|lia].
  - intros x k Hx. apply Hb in Hx as [Hx|[Hx ->]]; [by apply Z|]. destruct (Hst _ Hx) as [H1 H2]. split; [done|].
    intros Hret. destruct (H2 Hret) as (s & -> & Hs). exists s. split; [|done]. inversion Ef; subst. by apply S.
  - intros x. rewrite Hr, Q. split.
    + intros [[H1 H2] H3]. split; [done|]. destruct (b !! x) as [k|] eqn:Ek; [|done].
      apply Hb in Ek as [Ek|[Ek _]]; [congruence|done].
    + intros [H1 H2]. assert (H3 : x ∉ xs).
      { intros Hx. assert (b !! x = Some id) by (apply Hb; by right). congruence. }
      split; [|done]. split; [done|]. destruct (plan_bindings p !! x) as [k|] eqn:Ek; [|done].
      assert (b !! x = Some k) by (apply Hb; by left). congruence.
Qed.

Lemma place_tracks ord e routes c p p' : place ord e routes c p = Some p' ->
  (forall k t, plan_tracks p !! k = Some t -> plan_tracks p' !! k = Some t) /\
  exists k t, plan_tracks p' !! k = Some t /\ mid t = cand_mid c /\ mid_extension_id t = cand_mid_extension c /\
    description t = set_index (index_of t) (cand_info c) /\
    (forall x, x ∈ cand_ssrcs c -> plan_bindings p' !! x = Some k) /\
    (cand_ssrcs c <> [] -> forall x, plan_bindings p' !! x = Some k -> plan_bindings p !! x = Some k \/ x ∈ cand_ssrcs c).
Proof.
  unfold place. destruct (find_previous _ _ _ _) as [[id previous] suspended].
  destruct (known (plan_tracks p) id || _) eqn:E1; [done|]. apply orb_false_elim in E1 as [E1 _].
  apply bool_decide_eq_false, eq_None_not_Some in E1.
  destruct (_ && (plan_next p =? INT_MAX)); [done|]. destruct (_ && listened _ _); [done|].
  destruct (claim_ssrcs _ _ _ _ _ _) as [[b r]|] eqn:E3; [|done]. destruct (loses_source _ _ _); [done|].
  intros Heq. injection Heq as <-. simpl. apply claim_ssrcs_spec in E3 as (Hb & _). split.
  - intros k t Hk. rewrite lookup_insert_ne; [done|]. congruence.
  - exists id. eexists. split; [apply lookup_insert_eq|]. do 3 (split; [done|]). split.
    + intros x Hx. apply Hb. right. split; [|done]. destruct (cand_ssrcs c); [by apply not_elem_of_nil in Hx|done].
    + intros Hne x Hx. apply Hb in Hx as [Hx|[Hx _]]; [by left|right]. by destruct (cand_ssrcs c).
Qed.

Lemma place_all_ok ord e routes next0 cs mids p p' :
  ep_ok apart e -> (forall k t, all_tracks e k t -> index_of t < next0) -> plan_ok e next0 mids p ->
  NoDup (List.map cand_mid cs) -> (forall c, c ∈ cs -> cand_mid c <> [] /\ cand_mid c ∉ mids) ->
  place_all ord e routes cs p = Some p' ->
  plan_ok e next0 (rev (List.map cand_mid cs) ++ mids) p' /\
  (forall k t, plan_tracks p !! k = Some t -> plan_tracks p' !! k = Some t) /\
  (forall c, c ∈ cs -> exists k t, plan_tracks p' !! k = Some t /\ mid t = cand_mid c /\
     mid_extension_id t = cand_mid_extension c /\ description t = set_index (index_of t) (cand_info c)).
Proof.
  intros OK Hnext. revert mids p. induction cs as [|c cs IH]; intros mids p PO Hnd Hcs H; simpl in H.
  { simplify_eq. split; [done|]. split; [done|]. intros c Hc. by apply not_elem_of_nil in Hc. }
  simpl in Hnd. apply NoDup_cons in Hnd as [Hn Hnd].
  destruct (place ord e routes c p) as [p1|] eqn:E; [|done].
  destruct (Hcs c) as [Hc1 Hc2]; [apply list_elem_of_here|].
  pose proof (place_ok _ _ _ _ _ _ _ _ OK Hnext PO Hc1 Hc2 E) as PO1.
  destruct (place_tracks _ _ _ _ _ _ E) as [Hk (k & t & Ht & Hm & Hx & Hd & _)].
  destruct (IH (cand_mid c :: mids) p1 PO1 Hnd) as (PO2 & Hk2 & Hp2); [|done|].
  { intros d Hd'. destruct (Hcs d) as [G1 G2]; [by apply list_elem_of_further|]. split; [done|].
    intros [Heq|Hin]%elem_of_cons; [|done]. apply Hn. rewrite <- Heq. apply list_elem_of_In, in_map, list_elem_of_In, Hd'. }
  split; [simpl; by rewrite <- app_assoc|]. split; [intros j u Hj; by apply Hk2, Hk|].
  intros d [->|Hd']%elem_of_cons; [|by apply Hp2]. exists k, t. split; [by apply Hk2|done].
Qed.

(** ** Indices *)

Lemma reserve_indices_spec tracks n0 n :
  0 <= n0 <= INT_MAX -> (forall t, t ∈ tracks -> 0 <= index_of t <= INT_MAX) -> reserve_indices tracks n0 = Some n ->
  n0 <= n <= INT_MAX /\ (forall t, t ∈ tracks -> index_of t < n).
Proof.
  unfold reserve_indices. revert n0. induction tracks as [|t tracks IH]; intros n0 H0 Ht H; cbn [fold_left] in H.
  { simplify_eq. split; [lia|]. intros u Hu. by apply not_elem_of_nil in Hu. }
  pose proof (Ht t ltac:(apply list_elem_of_here)) as Hi. unfold index_of in Hi.
  destruct (track_index (description t) =? INT_MAX) eqn:E.
  { exfalso. clear -H. induction tracks as [|u tracks IH]; [done|]. by apply IH. }
  bool_hyps. destruct (IH (Z.max n0 (track_index (description t) + 1))) as [G1 G2].
  - lia.
  - intros u Hu. apply Ht. by apply list_elem_of_further.
  - done.
  - split; [lia|]. intros u [->|Hu]%elem_of_cons; [unfold index_of; lia|by apply G2].
Qed.

(** ** Routes *)

Lemma route_Close_Closed s : Closed (route_Close s) = true.
Proof. done. Qed.

Lemma close_routes_spec xs routes routes' prune : close_routes xs routes = (routes', prune) ->
  forall y, routes' !! y = if decide (y ∈ xs) then route_Close <$> routes !! y else routes !! y.
Proof.
  revert routes prune. induction xs as [|x xs IH]; intros routes prune H y; simpl in H.
  { simplify_eq. by destruct (decide (y ∈ [])) as [Hy%not_elem_of_nil|]. }
  assert (Hidem : forall s, route_Close (route_Close s) = route_Close s).
  { intros s. unfold route_Close. simpl. by destruct (consumer s). }
  destruct (routes !! x) as [s|] eqn:Ex.
  - destruct (close_routes xs _) as [r1 p1] eqn:E. simplify_eq. rewrite (IH _ _ E y). destruct (decide (x = y)) as [<-|Hne].
    + rewrite lookup_insert_eq, Ex, (decide_True (P := x ∈ x :: xs)) by apply list_elem_of_here.
      destruct (decide (x ∈ xs)); simpl; by rewrite ?Hidem.
    + rewrite lookup_insert_ne by done.
      destruct (decide (y ∈ xs)) as [H1|H1], (decide (y ∈ x :: xs)) as [H2|H2]; try done; exfalso; clear -H1 H2 Hne; set_solver.
  - rewrite (IH _ _ H y). destruct (decide (x = y)) as [<-|Hne].
    + rewrite Ex. by destruct (decide (x ∈ xs)), (decide (x ∈ x :: xs)).
    + destruct (decide (y ∈ xs)) as [H1|H1], (decide (y ∈ x :: xs)) as [H2|H2]; try done; exfalso; clear -H1 H2 Hne; set_solver.
Qed.

Lemma stale_receivers_elem e p x : x ∈ stale_receivers e p <->
  exists id, ssrc_bindings_ e !! x = Some id /\ (plan_bindings p !! x = None \/ id ∈ plan_reset p).
Proof.
  unfold stale_receivers. rewrite list_elem_of_In, in_map_iff. split.
  - intros ([y id] & <- & H). apply filter_In in H as [H1 H2]. exists id.
    split; [by apply elem_of_map_to_list, list_elem_of_In|]. apply orb_true_iff in H2 as [H2|H2]; bool_hyps.
    + apply bool_decide_eq_false, eq_None_not_Some in H2. by left.
    + apply bool_decide_eq_true in H2. by right.
  - intros (id & Hid & H). exists (x, id). split; [done|]. apply filter_In.
    split; [by apply list_elem_of_In, elem_of_map_to_list|]. simpl. apply orb_true_iff. destruct H as [->|H]; [left|right].
    + by rewrite bool_decide_eq_false_2 by (by intros [? ?]).
    + by apply bool_decide_eq_true.
Qed.

Lemma pause_missing_lookup e p k : pause_missing e p !! k =
  match published_tracks_ e !! k with
  | Some t => if known (plan_tracks p) k then plan_paused p !! k else Some (mkPaused (clear_subscribers t) (ssrcs_of e k))
  | None => plan_paused p !! k
  end.
Proof.
  unfold pause_missing. rewrite lookup_union, map_lookup_imap.
  destruct (published_tracks_ e !! k) as [t|]; simpl; [destruct (known (plan_tracks p) k); simpl|].
  - by destruct (plan_paused p !! k).
  - by destruct (plan_paused p !! k).
  - by destruct (plan_paused p !! k).
Qed.

Lemma abandoned_elem e routes p k t y s :
  published_tracks_ e !! k = Some t -> plan_tracks p !! k = None -> y ∈ subscribers t -> routes !! y = Some s ->
  Closed s = false -> y ∈ abandoned e routes p.
Proof.
  intros Ht Hk Hy Hr Hc. unfold abandoned. apply list_elem_of_In, filter_In. split; [|rewrite Hr; by rewrite Hc].
  apply in_concat. exists (subscribers t). split; [|by apply list_elem_of_In]. apply in_map_iff. exists (k, t). split.
  - simpl. unfold known. by rewrite bool_decide_eq_false_2 by (rewrite Hk; by intros [? ?]).
  - by apply list_elem_of_In, elem_of_map_to_list.
Qed.

(** ** The whole operation *)

Lemma all_tracks_unique e k t u : ep_ok apart e -> apart -> all_tracks e k t -> all_tracks e k u -> t = u.
Proof.
  intros OK Ha [H|(s & Hs & <-)] [G|(s' & Hs' & <-)]; try congruence.
  - apply (ok_paused _ OK Ha) in H. congruence.
  - apply (ok_paused _ OK Ha) in G. congruence.
Qed.

Lemma plan_commit_ok e next0 mids p m :
  ep_ok apart e -> (forall k t, all_tracks e k t -> index_of t < next0) -> plan_ok e next0 mids p ->
  (forall x, is_Some (m !! x) <-> is_Some (ssrc_to_track_ e !! x) /\ x ∉ stale_receivers e p) ->
  ep_ok apart (mkEndpoint (state_ e) (media_stream_id_ e) (plan_tracks p) (pause_missing e p) (plan_bindings p)
    (dropped_ssrcs e p ∪ plan_retired p) (retired_track_ids_ e) m (parameters_ e) (subscriptions_ e) (transports_ e)
    (unbound_keyframe_requests_ e)).
Proof.
  intros OK Hnext PO Hm. match goal with |- ep_ok apart ?x => set (e' := x) end.
  assert (Hall : forall k t, all_tracks e' k t -> plan_tracks p !! k = Some t \/
    (plan_tracks p !! k = None /\ exists t0, all_tracks e k t0 /\ index_of t = index_of t0)).
  { intros k t [H|(s & Hs & <-)]; [by left|]. simpl in Hs. rewrite pause_missing_lookup in Hs. right.
    destruct (published_tracks_ e !! k) as [u|] eqn:Eu; [destruct (known (plan_tracks p) k) eqn:Ek|].
    - apply bool_decide_eq_true in Ek as [v Hv]. apply (p_apart _ _ _ _ PO) in Hv. congruence.
    - apply bool_decide_eq_false, eq_None_not_Some in Ek. simplify_eq. split; [done|]. exists u. split; [by left|done].
    - split.
      + destruct (plan_tracks p !! k) as [v|] eqn:Ev; [|done]. apply (p_apart _ _ _ _ PO) in Ev. congruence.
      + exists (paused_track s). split; [|done]. right. exists s. split; [by apply (p_sub _ _ _ _ PO)|done]. }
  assert (Hx : apart -> forall a b ta tb, plan_tracks p !! a = Some ta -> (exists t0, all_tracks e b t0 /\ index_of tb = index_of t0) ->
    index_of ta = index_of tb -> a = b).
  { intros Hap a b ta tb Ha (t0 & Hb & Eb) E. destruct (p_old _ _ _ _ PO _ _ Ha) as [(u & Hu & Eu & _)|[Hge _]].
    - apply (ok_index _ OK Hap a b u t0 Hu Hb). congruence.
    - pose proof (Hnext _ _ Hb). lia. }
  destruct PO as [B R A S T I M J O G X [N1 N2] Z Q]. constructor; simpl.
  - exact B.
  - intros x Hb Hin. apply elem_of_union in Hin as [Hin|Hin]; [|by apply (R x)].
    unfold dropped_ssrcs in Hin. apply elem_of_difference in Hin as [_ Hin]. apply Hin. by apply elem_of_dom.
  - intros x Hx'. apply Hm in Hx' as [Hx' Hn]. destruct (ok_receiver _ OK _ Hx') as [id Hid].
    destruct (plan_bindings p !! x) as [k|] eqn:Ek; [by exists k|]. destruct Hn. apply stale_receivers_elem.
    exists id. auto.
  - intros _ k t Hk. rewrite pause_missing_lookup. unfold known. rewrite bool_decide_eq_true_2 by (by exists t).
    destruct (published_tracks_ e !! k); by eapply A.
  - intros Hap k t Hk. destruct (Hall _ _ Hk) as [H|(_ & t0 & H & _)]; [by apply (I _ _ H)|by eapply (ok_retired_id _ OK)].
  - intros a b ta tb Ha Hb E _. by apply (J a b ta tb).
  - intros Hap a b ta tb Ha Hb E. destruct (Hall _ _ Ha) as [Ga|(_ & Ga)], (Hall _ _ Hb) as [Gb|(_ & Gb)].
    + by apply (X Hap a b ta tb).
    + by apply (Hx Hap a b ta tb).
    + symmetry. apply (Hx Hap b a tb ta); [done|done|by symmetry].
    + destruct Ga as (u & Hu & Eu), Gb as (v & Hv & Ev). apply (ok_index _ OK Hap a b u v Hu Hv). congruence.
  - intros k t Hk. destruct (Hall _ _ Hk) as [H|(_ & t0 & H & ->)].
    + pose proof (G _ _ H). lia.
    + by eapply (ok_index_range _ OK).
  - intros k t Hk. destruct (Hall _ _ Hk) as [H|(_ & t0 & H & _)]; [by eapply I|by eapply (ok_named _ OK)].
Qed.

Lemma start_plan_ok e next0 :
  ep_ok apart e -> 0 <= next0 <= INT_MAX -> plan_ok e next0 [] (mkPlan ∅ ∅ (paused_published_tracks_ e) (retired_ssrcs_ e) ∅ next0).
Proof.
  intros OK Hn. constructor; simpl.
  - intros x id. by rewrite lookup_empty.
  - intros x [? H]. by rewrite lookup_empty in H.
  - intros k t. by rewrite lookup_empty.
  - done.
  - intros k s H. by left.
  - intros k t. by rewrite lookup_empty.
  - intros k t. by rewrite lookup_empty.
  - intros a b ta tb. by rewrite lookup_empty.
  - intros k t. by rewrite lookup_empty.
  - intros k t. by rewrite lookup_empty.
  - intros _ a b ta tb. by rewrite lookup_empty.
  - lia.
  - intros x id. by rewrite lookup_empty.
  - intros x. rewrite lookup_empty. naive_solver.
Qed.

Lemma reserved_tracks e t : t ∈ List.map snd (map_to_list (published_tracks_ e)) ++
    List.map (fun x => paused_track (snd x)) (map_to_list (paused_published_tracks_ e)) <-> exists k, all_tracks e k t.
Proof.
  rewrite elem_of_app, !list_elem_of_In, !in_map_iff. split.
  - intros [([k u] & <- & H)|([k s] & <- & H)]; exists k; apply list_elem_of_In, elem_of_map_to_list in H; [by left|right; by exists s].
  - intros (k & [H|(s & Hs & <-)]); [left; exists (k, t)|right; exists (k, s)]; (split; [done|]); by apply list_elem_of_In, elem_of_map_to_list.
Qed.

(** An accepted offer commits a plan. *)
Lemma ReplacePublishedTracks_plan ord e routes medias e' routes' ok prune :
  ep_ok apart e -> ReplacePublishedTracks ord e routes medias = (e', routes', ok, prune) ->
  (ok = false /\ e' = e /\ routes' = routes) \/
  (ok = true /\ exists next cs p m, gather medias ∅ ∅ = Some cs /\ (forall k t, all_tracks e k t -> index_of t < next) /\
     plan_ok e next (rev (List.map cand_mid cs) ++ []) p /\
     (forall c, c ∈ cs -> exists k t, plan_tracks p !! k = Some t /\ mid t = cand_mid c /\
        mid_extension_id t = cand_mid_extension c /\ description t = set_index (index_of t) (cand_info c)) /\
     close_routes (abandoned e routes p) routes = (routes', prune) /\
     (forall x, is_Some (m !! x) <-> is_Some (ssrc_to_track_ e !! x) /\ x ∉ stale_receivers e p) /\
     e' = mkEndpoint (state_ e) (media_stream_id_ e) (plan_tracks p) (pause_missing e p) (plan_bindings p)
            (dropped_ssrcs e p ∪ plan_retired p) (retired_track_ids_ e) m (parameters_ e) (subscriptions_ e) (transports_ e)
            (unbound_keyframe_requests_ e)).
Proof.
  intros OK. unfold ReplacePublishedTracks.
  destruct (gather medias ∅ ∅) as [cs|] eqn:Eg; [|intros [= <- <- <- <-]; by left].
  destruct (stopped e); [intros [= <- <- <- <-]; by left|].
  destruct (reserve_indices _ 0) as [next|] eqn:En; [|intros [= <- <- <- <-]; by left].
  apply reserve_indices_spec in En as [Hn Hnext0]; [|unfold INT_MAX; lia|]; cycle 1.
  { intros t Ht. apply reserved_tracks in Ht as (k & Hk). by apply (ok_index_range _ OK k). }
  assert (Hnext : forall k t, all_tracks e k t -> index_of t < next) by (intros k t Hk; apply Hnext0, reserved_tracks; by exists k).
  destruct (place_all _ _ _ _ _) as [p|] eqn:Ep; [|intros [= <- <- <- <-]; by left].
  destruct (gather_spec _ _ _ _ Eg) as (Hnd & Hmid & _).
  destruct (place_all_ok ord e routes next cs [] _ p OK Hnext (start_plan_ok _ _ OK Hn) Hnd) as (PO & _ & Hplaced); [|done|].
  { intros c Hc. destruct (Hmid _ Hc). split; [done|]. apply not_elem_of_nil. }
  destruct (close_routes _ routes) as [r1 p1] eqn:Ec.
  destruct (remove_receivers_frame (stale_receivers e p) e) as (m & -> & Hm). intros Heq. injection Heq as <- <- <- <-.
  right. split; [done|]. exists next, cs, p, m. done.
Qed.

Lemma ReplacePublishedTracks_effect ord e routes medias e' routes' ok prune :
  ep_ok apart e -> ReplacePublishedTracks ord e routes medias = (e', routes', ok, prune) ->
  ep_ok apart e' /\ (ok = false -> e' = e /\ routes' = routes) /\
  (ok = true ->
    (forall m, m ∈ medias -> exists k t i, published_tracks_ e' !! k = Some t /\ mid t = media_mid m /\
       mid_extension_id t = media_mid_extension m /\ media_info m = Some i /\ description t = set_index (index_of t) i) /\
    (forall k t, published_tracks_ e' !! k = Some t -> exists m, m ∈ medias /\ mid t = media_mid m) /\
    (apart -> forall k t t0, published_tracks_ e' !! k = Some t -> all_tracks e k t0 -> inherits t t0) /\
    (forall k t, published_tracks_ e !! k = Some t -> published_tracks_ e' !! k = None ->
       exists s, paused_published_tracks_ e' !! k = Some s /\ paused_track s = clear_subscribers t /\
         (forall x, x ∈ paused_ssrcs s <-> ssrc_bindings_ e !! x = Some k) /\
         (forall y r, y ∈ subscribers t -> routes' !! y = Some r -> Closed r = true)) /\
    (forall x a b, ssrc_bindings_ e !! x = Some a -> ssrc_bindings_ e' !! x = Some b -> a = b) /\
    (forall x a, ssrc_bindings_ e !! x = Some a -> ssrc_bindings_ e' !! x = None -> x ∈ retired_ssrcs_ e') /\
    (forall x b, x ∈ retired_ssrcs_ e -> ssrc_bindings_ e' !! x = Some b ->
       exists s, paused_published_tracks_ e !! b = Some s /\ x ∈ paused_ssrcs s)).
Proof.
  intros OK H. destruct (ReplacePublishedTracks_plan _ _ _ _ _ _ _ _ OK H) as [(-> & -> & ->)|(-> & next & cs & p & m & Eg & Hnext & PO & Hplaced & Ec & Hm & ->)]; [done|].
  destruct (gather_spec _ _ _ _ Eg) as (Hnd & Hmid & Hmids & HF).
  split; [by eapply plan_commit_ok|]. split; [done|]. intros _. simpl. repeat apply conj.
  - intros md Hmd. apply list_elem_of_lookup in Hmd as (i & Hi). destruct (Forall2_lookup_r _ _ _ _ _ HF Hi) as (c & Hc & info & H1 & H2 & H3 & H4 & H5).
    destruct (Hplaced c) as (k & t & Hk & G1 & G2 & G3); [by eapply list_elem_of_lookup_2|].
    exists k, t, info. split; [done|]. split; [congruence|]. split; [congruence|]. split; [done|]. rewrite G3, H2. done.
  - intros k t Hk. destruct (p_mid _ _ _ _ PO _ _ Hk) as [Hin _]. rewrite app_nil_r, Hmids in Hin.
    apply list_elem_of_In, in_rev, in_map_iff in Hin as (md & Hmd & Hin). exists md. split; [by apply list_elem_of_In|done].
  - intros Hap k t t0 Hk H0. destruct (p_old _ _ _ _ PO _ _ Hk) as [(u & Hu & Hi)|(_ & _ & Hno)]; [|by destruct (Hno t0)].
    by rewrite (all_tracks_unique _ _ _ _ OK Hap H0 Hu).
  - intros k t Hk Hnone. exists (mkPaused (clear_subscribers t) (ssrcs_of e k)). split; [|split; [done|split]].
    + rewrite pause_missing_lookup, Hk. unfold known. by rewrite bool_decide_eq_false_2 by (rewrite Hnone; by intros [? ?]).
    + intros x. apply ssrcs_of_elem.
    + intros y r Hy Hr. rewrite (close_routes_spec _ _ _ _ Ec) in Hr. destruct (decide (y ∈ abandoned e routes p)) as [Ha|Ha].
      * destruct (routes !! y) as [s|]; [|done]. simpl in Hr. by simplify_eq.
      * destruct (Closed r) eqn:Ecl; [done|]. destruct Ha. by eapply abandoned_elem.
  - intros x a b Ha Hb. by apply (p_stay _ _ _ _ PO _ _ Hb).
  - intros x a Ha Hb. apply elem_of_union_l. unfold dropped_ssrcs. apply elem_of_difference. split.
    + apply elem_of_dom. by exists a.
    + by apply not_elem_of_dom.
  - intros x b Hx Hb. by apply (p_stay _ _ _ _ PO _ _ Hb).
Qed.

End Plan.
