(* ===== verification/SfuProps.v ===== *)
(** * What an endpoint guarantees

    Runs of an endpoint: publication, renegotiation, packets, reports, key frame requests
    and subscriptions in any order, with the routes changed by others in between. *)
From S2P Require Import Prelude Bytes RtpWire RtcpNackWire RtcpWire Affinity Names SfuEndpoint SfuInv SfuReplace.

(** The routes by address. *)
Abbreviation store := (gmap Z Subscription).

(** What a packet or a report can do. *)
Inductive media_step : Endpoint * store -> Endpoint * store -> Prop :=
| me_rtp ord sup acc cp e routes packet hint e' routes' out : bytes_ok packet ->
    OnRtp ord sup acc cp e routes packet hint = Ret (e', routes', out) -> media_step (e, routes) (e', routes')
| me_rtcp ord alive sup e routes packet hint e' routes' events : bytes_ok packet ->
    OnRtcp ord alive sup e routes packet hint = Ret (e', routes', events) -> media_step (e, routes) (e', routes')
| me_pli e routes d now x : media_step (e, routes) (fst (OnTrackPli e d now x), routes)
| me_keyframe e routes d now id : media_step (e, routes) (fst (RequestKeyFrame e d now id), routes)
| me_routes e routes routes' : media_step (e, routes) (e, routes').

(** And what the owner of the endpoint can do.  Tracks are added one by one or negotiated as a
    set.  The code does not ask whether a track that is added has the identity or the index of
    a paused one; where [apart] holds, the owner sees to it that it has not. *)
Inductive endpoint_step (apart : Prop) : Endpoint * store -> Endpoint * store -> Prop :=
| es_media s s' : media_step s s' -> endpoint_step apart s s'
| es_add e routes id info m ext : (apart -> spare e id (track_index info)) -> track_index info <= INT_MAX ->
    endpoint_step apart (e, routes) (fst (AddPublishedTrack e id info m ext), routes)
| es_add_media e routes id m index : (apart -> spare e id index) -> index <= INT_MAX ->
    endpoint_step apart (e, routes) (fst (AddPublishedMedia e id m index), routes)
| es_bind e routes id x : endpoint_step apart (e, routes) (fst (BindSsrc e id x), routes)
| es_remove e routes id ret : endpoint_step apart (e, routes) (fst (fst (RemovePublishedTrack e routes id ret)))
| es_replace ord e routes medias : endpoint_step apart (e, routes) (fst (fst (ReplacePublishedTracks ord e routes medias)))
| es_remove_stream e routes x : endpoint_step apart (e, routes) (RemoveMediaStream e x, routes)
| es_callback e routes id cb : endpoint_step apart (e, routes) (SetTrackRtcpSendCallback e id cb, routes)
| es_configure ord alive e routes id c : endpoint_step apart (e, routes) (fst (ConfigureSubscription ord alive e routes id c))
| es_subscribe ord alive attach e routes id info ref y s :
    endpoint_step apart (e, routes) (fst (downlink_subscribe ord alive attach e routes id info ref y s))
| es_subscriber e routes id t y : published_tracks_ e !! id = Some t ->
    endpoint_step apart (e, routes) (with_tracks (<[id := set_subscribers (subscribers t ++ [y]) t]> (published_tracks_ e)) e, routes)
| es_unsubscribe e routes id : endpoint_step apart (e, routes) (fst (Unsubscribe e routes id))
| es_prune ord alive e routes : endpoint_step apart (e, routes) (Prune ord alive e routes)
| es_start e routes : endpoint_step apart (e, routes) (fst (Start e), routes)
| es_stop ord e routes : (forall l, ord l ≡ₚ l) -> endpoint_step apart (e, routes) (fst (Stop ord e routes)).

Section Runs.
Context {apart : Prop}.

Lemma media_step_ok s s' : media_step s s' -> ep_ok apart (fst s) -> ep_ok apart (fst s').
Proof.
  intros [ord sup acc cp e routes packet hint e' routes' out Hb H|ord alive sup e routes packet hint e' routes' events Hb H|e routes d now x|e routes d now id|e routes routes'] OK;
    simpl in *.
  - destruct (OnRtp_ok ord sup acc cp e routes packet hint OK Hb) as (e1 & r1 & o1 & E & OK1). rewrite E in H. by simplify_eq.
  - destruct (OnRtcp_ok ord alive sup e routes packet hint OK Hb) as (e1 & r1 & o1 & E & OK1). rewrite E in H. by simplify_eq.
  - destruct (OnTrackPli e d now x) eqn:E. by eapply OnTrackPli_ok.
  - destruct (RequestKeyFrame e d now id) eqn:E. by eapply RequestKeyFrame_ok.
  - done.
Qed.

Lemma RemoveMediaStream_ok e x : ep_ok apart e -> ep_ok apart (RemoveMediaStream e x).
Proof.
  intros [B R V P I M X Y N]. constructor; simpl; try done. intros y Hy. apply V.
  destruct Hy as [i Hi]. apply lookup_delete_Some in Hi as [_ Hi]. by exists i.
Qed.

Lemma endpoint_step_ok s s' : endpoint_step apart s s' -> ep_ok apart (fst s) -> ep_ok apart (fst s').
Proof.
  intros H OK. destruct H; simpl in *.
  - by eapply media_step_ok.
  - destruct (AddPublishedTrack e id info m ext) eqn:E. by eapply AddPublishedTrack_ok.
  - destruct (AddPublishedMedia e id m index) eqn:E. by eapply AddPublishedMedia_ok.
  - destruct (BindSsrc e id x) eqn:E. by eapply BindSsrc_ok.
  - destruct (RemovePublishedTrack e routes id ret) as [[[? ?] ?] ?] eqn:E. by eapply RemovePublishedTrack_ok.
  - destruct (ReplacePublishedTracks ord e routes medias) as [[[? ?] ?] ?] eqn:E. by eapply ReplacePublishedTracks_effect.
  - by apply RemoveMediaStream_ok.
  - by apply SetTrackRtcpSendCallback_ok.
  - unfold ConfigureSubscription. case_bool_decide; [done|]. destruct (Configure ord alive e routes id c) as [[? ?] ?] eqn:E.
    eapply only_downlinks_ok; [by eapply Configure_only|done].
  - destruct (downlink_subscribe ord alive attach e routes id info ref y s) as [[? ?] ?] eqn:E.
    eapply only_downlinks_ok; [by eapply downlink_subscribe_only|done].
  - by eapply update_track_ok.
  - destruct (Unsubscribe e routes id) as [[? ?] ?] eqn:E. eapply only_downlinks_ok; [by eapply Unsubscribe_only|done].
  - destruct (Prune ord alive e routes) as [? ?] eqn:E. eapply only_downlinks_ok; [by eapply prune_keys_only|done].
  - unfold Start. destruct (stopped e); [done|]. by apply (frame_ok e).
  - destruct (Stop ord e routes) as [[? ?] ?] eqn:E. by eapply endpoint_Stop_ok.
Qed.

End Runs.

Definition endpoint_reachable (apart : Prop) (s : Endpoint * store) : Prop :=
  exists n routes0, rtc (endpoint_step apart) (new_Endpoint n, routes0) s.

Lemma endpoint_reachable_ok apart s : endpoint_reachable apart s -> ep_ok apart (fst s).
Proof.
  intros (n & routes0 & H). assert (OK : ep_ok apart (fst (new_Endpoint n, routes0))) by apply new_Endpoint_ok.
  revert OK. induction H as [s|s1 s2 s3 Hs _ IH]; [done|]. intros OK. apply IH. by eapply endpoint_step_ok.
Qed.

(** C37. The tables of an endpoint. In every run: a bound SSRC belongs to a published
    track and is not retired, and only bound SSRCs have receivers; the MIDs of the published
    tracks are distinct.  Therefore no RTP or RTCP packet, whatever its bytes, makes the
    endpoint fail.  In a run in which no track is added one by one under the identity or the
    index of a paused one, moreover, no identity is both published and paused, none of either
    kind is retired, and the indices of all tracks are distinct. *)
Theorem endpoint_tables apart e routes : endpoint_reachable apart (e, routes) ->
  (forall x id, ssrc_bindings_ e !! x = Some id -> is_Some (published_tracks_ e !! id) /\ x ∉ retired_ssrcs_ e) /\
  (forall x, is_Some (ssrc_to_track_ e !! x) -> is_Some (ssrc_bindings_ e !! x)) /\
  (forall a b ta tb, published_tracks_ e !! a = Some ta -> published_tracks_ e !! b = Some tb ->
     mid ta = mid tb -> mid ta <> [] -> a = b) /\
  (forall packet hint, bytes_ok packet -> (forall ord sup acc cp, returns (OnRtp ord sup acc cp e routes packet hint)) /\
     (forall ord alive sup, returns (OnRtcp ord alive sup e routes packet hint))) /\
  (apart ->
     (forall k t, published_tracks_ e !! k = Some t -> paused_published_tracks_ e !! k = None) /\
     (forall k t, all_tracks e k t -> k ∉ retired_track_ids_ e) /\
     (forall a b ta tb, all_tracks e a ta -> all_tracks e b tb -> index_of ta = index_of tb -> a = b)).
Proof.
  intros H. apply endpoint_reachable_ok in H. simpl in H. repeat apply conj.
  - intros x id Hx. split; [by eapply ok_bound|]. apply (ok_retired _ H). by exists id.
  - apply (ok_receiver _ H).
  - apply (ok_mid _ H).
  - intros packet hint Hb. split.
    + intros ord sup acc cp. destruct (OnRtp_ok ord sup acc cp e routes packet hint H Hb) as (e' & r' & out & E & _).
      by exists (e', r', out).
    + intros ord alive sup. destruct (OnRtcp_ok ord alive sup e routes packet hint H Hb) as (e' & r' & out & E & _).
      by exists (e', r', out).
  - intros Ha. split; [apply (ok_paused _ H Ha)|]. split; [apply (ok_retired_id _ H Ha)|apply (ok_index _ H Ha)].
Qed.

(** ** Retired sources *)

Lemma BindSsrc_retired e id x e' ok y :
  BindSsrc e id x = (e', ok) -> y <> x -> y ∈ retired_ssrcs_ e -> y ∈ retired_ssrcs_ e'.
Proof.
  unfold BindSsrc. intros H Hne Hy. repeat case_match; simplify_eq/=; set_solver +Hne Hy.
Qed.

Lemma Resolve_retired ord e packet hint e' ok y :
  bytes_ok packet -> ResolveRtpTrack ord e packet hint = Ret (e', ok) -> y ∈ retired_ssrcs_ e ->
  y ∈ retired_ssrcs_ e' /\ (ReadUint32BE packet 8 = Ret y -> e' = e /\ ok = false).
Proof.
  intros Hb. unfold ResolveRtpTrack. destruct (extension_reader_returns packet ∅ Hb) as ([ok1 exts] & E). rewrite E. simpl.
  destruct ok1; simpl; [|intros [= <- <-]; by auto]. pose proof (extensions_length _ _ _ E) as Hl.
  rewrite ReadUint32BE_ok by (done || lia). simpl. case_bool_decide as Hx; [intros [= <- <-]; by auto|].
  rewrite rd_ok by lia. simpl. destruct (select_track _ _ _ _ _ _) as [id|]; [|intros [= <- <-]; by auto].
  destruct (BindSsrc e id _) as [e1 ok2] eqn:Eb. intros [= <- <-] Hy. split.
  - eapply BindSsrc_retired; [done| |done]. intros ->. done.
  - intros [= <-]. done.
Qed.

Lemma Forward_retired cp e routes x e' routes' out :
  ForwardRtpToSubscribers cp e routes x = Ret (e', routes', out) -> retired_ssrcs_ e' = retired_ssrcs_ e.
Proof.
  unfold ForwardRtpToSubscribers. intros H. destruct (ssrc_bindings_ e !! x) as [id|]; [|by simplify_eq].
  destruct (published_tracks_ e !! id) as [t|]; [|done]. destruct (negb cp); [by simplify_eq|].
  destruct (fan_out _ _ _) as [r o]. by simplify_eq.
Qed.

Lemma receiver_retired sup e x : retired_ssrcs_ (fst (GetOrCreateReceiverTrack sup e x)) = retired_ssrcs_ e.
Proof. unfold GetOrCreateReceiverTrack. by repeat case_match. Qed.

Lemma OnRtp_retired ord sup acc cp e routes packet hint e' routes' out y :
  bytes_ok packet -> OnRtp ord sup acc cp e routes packet hint = Ret (e', routes', out) -> y ∈ retired_ssrcs_ e ->
  y ∈ retired_ssrcs_ e' /\ (ReadUint32BE packet 8 = Ret y -> e' = e /\ routes' = routes /\ out = []).
Proof.
  intros Hb. unfold OnRtp. destruct packet as [|b0 packet]; [intros [= <- <- <-]; by auto|].
  destruct (negb (IsRunning e)); [intros [= <- <- <-]; by auto|].
  destruct (ResolveRtpTrack ord e (b0 :: packet) hint) as [[e1 ok1]| |] eqn:E1; simpl; try done.
  intros H Hy. destruct (Resolve_retired _ _ _ _ _ _ _ Hb E1 Hy) as [Hy1 H1].
  destruct ok1; simpl in H; [|simplify_eq; split; [done|]; intros Hx; by destruct (H1 Hx)].
  split; [|intros Hx; by destruct (H1 Hx)]. unfold HandleRtpPacket in H. destruct (negb (IsRunning e1)); [by simplify_eq|].
  destruct (ResolveRtpTrack ord e1 (b0 :: packet) []) as [[e2 ok2]| |] eqn:E2; simpl in H; try done.
  destruct (Resolve_retired _ _ _ _ _ _ _ Hb E2 Hy1) as [Hy2 _]. destruct ok2; simpl in H; [|by simplify_eq].
  destruct (blen _ <? 12); [by simplify_eq|]. destruct (ReadUint32BE (b0 :: packet) 8) as [x| |]; simpl in H; try done.
  pose proof (receiver_retired sup e2 x) as Hr. destruct (GetOrCreateReceiverTrack sup e2 x) as [e3 ok3]. simpl in Hr.
  destruct (_ || _); [simplify_eq; by rewrite Hr|]. apply Forward_retired in H. congruence.
Qed.

Lemma only_downlinks_retired e e' : only_downlinks e e' -> retired_ssrcs_ e' = retired_ssrcs_ e.
Proof. by intros (a & b & c & ->). Qed.

Lemma HandleRtcp_retired ord alive sup e routes packet e' routes' ev y :
  HandleRtcpPacket ord alive sup e routes packet = Ret (e', routes', ev) -> y ∈ retired_ssrcs_ e -> y ∈ retired_ssrcs_ e'.
Proof.
  unfold HandleRtcpPacket. intros H Hy. destruct (negb (IsRunning e)); [by simplify_eq|].
  destruct (Prune ord alive e routes) as [e1 r1] eqn:E1. apply prune_keys_only, only_downlinks_retired in E1. rewrite <- E1 in Hy.
  destruct (blen packet <? 4); [by simplify_eq|]. destruct (InspectRtcpPacket _) as [info| |]; cbn [mbnd] in H; try done.
  destruct info as [i|]; [|by simplify_eq]. destruct (OnRtcpPacket _) as [[ok evs]| |]; cbn [mbnd] in H; try done. simplify_eq.
  destruct (_ && _); [by rewrite receiver_retired|done].
Qed.

Lemma OnRtcp_retired ord alive sup e routes packet hint e' routes' ev y :
  OnRtcp ord alive sup e routes packet hint = Ret (e', routes', ev) -> y ∈ retired_ssrcs_ e -> y ∈ retired_ssrcs_ e'.
Proof.
  unfold OnRtcp. intros H Hy. destruct (negb (IsRunning e)); [by simplify_eq|].
  destruct (Prune ord alive e routes) as [e1 r1] eqn:E1. apply prune_keys_only, only_downlinks_retired in E1. rewrite <- E1 in Hy.
  destruct (_ && negb (known _ _)); [by simplify_eq|].
  assert (Hh : forall e2, y ∈ retired_ssrcs_ e2 ->
    match packet with [] => Ret (e2, r1, []) | _ => HandleRtcpPacket ord alive sup e2 r1 packet end = Ret (e', routes', ev) ->
    y ∈ retired_ssrcs_ e').
  { intros e2 Hy2 G. destruct packet; [by simplify_eq|]. by eapply HandleRtcp_retired. }
  destruct (names_source packet hint) as [rep| |]; cbn [mbnd] in H; try done. destruct rep; cbn [negb] in H; [|by eapply Hh].
  destruct (InspectRtcpPacket _) as [info| |]; cbn [mbnd] in H; try done. destruct info as [i|]; [|by simplify_eq].
  destruct (ReadUint32BE packet 4) as [x| |]; cbn [mbnd] in H; try done. case_bool_decide as Hx; [by simplify_eq|].
  destruct (BindSsrc e1 hint x) as [e2 ok2] eqn:E2.
  assert (Hy2 : y ∈ retired_ssrcs_ e2) by (eapply BindSsrc_retired; [exact E2| |done]; by intros ->).
  destruct (negb ok2); [by simplify_eq|by eapply Hh].
Qed.

Lemma OnTrackPli_retired e d now x : retired_ssrcs_ (fst (OnTrackPli e d now x)) = retired_ssrcs_ e.
Proof. unfold OnTrackPli. by repeat case_match. Qed.

Lemma pli_all_retired xs e d now : retired_ssrcs_ (fst (pli_all e d now xs)) = retired_ssrcs_ e.
Proof.
  revert e. induction xs as [|x xs IH]; intros e; [done|]. simpl. pose proof (OnTrackPli_retired e d now x) as H.
  destruct (OnTrackPli e d now x) as [e1 s]. specialize (IH e1). destruct (pli_all e1 d now xs). simpl in *. congruence.
Qed.

Lemma media_step_retired s s' y : media_step s s' -> y ∈ retired_ssrcs_ (fst s) -> y ∈ retired_ssrcs_ (fst s').
Proof.
  intros [ord sup acc cp e routes packet hint e' routes' out Hb H|ord alive sup e routes packet hint e' routes' events Hb H|e routes d now x|e routes d now id|e routes routes'] Hy;
    simpl in *.
  - by eapply OnRtp_retired.
  - by eapply OnRtcp_retired.
  - by rewrite OnTrackPli_retired.
  - unfold RequestKeyFrame. destruct (negb _); [done|]. by rewrite pli_all_retired.
  - done.
Qed.

(** C33. Late packets. Removing a track retires its SSRCs; from then on, whatever
    packets and reports arrive, none of them gets bound again, has a receiver, or reaches a
    route: a packet that carries one changes nothing and is forwarded to no one. *)
Theorem late_packets_ignored apart e routes id t e1 routes1 prune x e2 routes2 :
  endpoint_reachable apart (e, routes) -> published_tracks_ e !! id = Some t -> ssrc_bindings_ e !! x = Some id ->
  RemovePublishedTrack e routes id true = (e1, routes1, true, prune) -> rtc media_step (e1, routes1) (e2, routes2) ->
  ssrc_bindings_ e2 !! x = None /\ ssrc_to_track_ e2 !! x = None /\
  (forall ord sup acc cp packet hint, bytes_ok packet -> ReadUint32BE packet 8 = Ret x ->
     OnRtp ord sup acc cp e2 routes2 packet hint = Ret (e2, routes2, [])).
Proof.
  intros OK Ht Hx E H. apply endpoint_reachable_ok in OK. simpl in OK.
  assert (OK1 : ep_ok apart e1) by (by eapply RemovePublishedTrack_ok).
  assert (Hr1 : x ∈ retired_ssrcs_ e1).
  { unfold RemovePublishedTrack in E. rewrite Ht in E. destruct (close_routes _ _) as [r p]. simplify_eq. simpl.
    apply elem_of_union_l, elem_of_list_to_set. by apply ssrcs_of_elem. }
  assert (H2 : ep_ok apart e2 /\ x ∈ retired_ssrcs_ e2).
  { change (ep_ok apart (fst (e2, routes2)) /\ x ∈ retired_ssrcs_ (fst (e2, routes2))).
    change (ep_ok apart (fst (e1, routes1))) in OK1. change (x ∈ retired_ssrcs_ (fst (e1, routes1))) in Hr1.
    clear -H OK1 Hr1. induction H as [s|s1 s2 s3 Hs _ IH]; [done|].
    apply IH; [by eapply media_step_ok|by eapply media_step_retired]. }
  destruct H2 as [OK2 Hr2].
  assert (Hn : ssrc_bindings_ e2 !! x = None).
  { destruct (ssrc_bindings_ e2 !! x) as [k|] eqn:Ek; [|done]. destruct (ok_retired _ OK2 x); [by exists k|done]. }
  split; [done|]. split.
  - destruct (ssrc_to_track_ e2 !! x) as [i|] eqn:Ei; [|done]. destruct (ok_receiver _ OK2 x) as [k Hk]; [by exists i|]. congruence.
  - intros ord sup acc cp packet hint Hb Hp.
    destruct (OnRtp_ok ord sup acc cp e2 routes2 packet hint OK2 Hb) as (e' & r' & out & Eo & _).
    destruct (OnRtp_retired _ _ _ _ _ _ _ _ _ _ _ _ Hb Eo Hr2) as [_ G]. destruct (G Hp) as (-> & -> & ->). done.
Qed.

