(* ===== verification/SfuLocal.v ===== *)
(** * Packets and routes

    Which routes a packet of an endpoint reaches, and what every operation of a single
    endpoint does to the routes.  A route is shared by two endpoints, so an operation of one
    of them must leave the other one's view usable; [local] says what every operation
    respects, and the pool of all endpoints builds on it. *)
From S2P Require Import Prelude Bytes RtpWire RtcpNackWire RtcpWire Affinity Names SfuEndpoint SfuInv SfuReplace SfuProps.
(** A route takes packets of source [x]. *)
Definition takes (x : Z) (s : Subscription) : Prop :=
  CanDeliver s = true /\ (source_ssrc s = None \/ source_ssrc s = Some x).

Lemma takes_lock x s : takes x (lock_source x s) <-> CanDeliver s = true.
Proof. unfold takes. simpl. naive_solver. Qed.

Lemma lock_source_id x s : source_ssrc s = Some x -> lock_source x s = s.
Proof. destruct s; simpl. by intros ->. Qed.

Lemma fan_out_spec x xs routes routes' out : fan_out x routes xs = (routes', out) ->
  (forall y, y ∈ out <-> y ∈ xs /\ exists s, routes !! y = Some s /\ takes x s) /\
  (forall y, routes' !! y = if decide (y ∈ out) then lock_source x <$> routes !! y else routes !! y).
Proof.
  revert routes routes' out. induction xs as [|z xs IH]; intros routes routes' out H; simpl in H.
  { simplify_eq. split; [intros y; split; [intros Hy|intros [Hy _]]; by apply not_elem_of_nil in Hy|].
    intros y. by destruct (decide (y ∈ [])) as [Hy%not_elem_of_nil|]. }
  assert (Hskip : (forall s, routes !! z = Some s -> ~ takes x s) -> fan_out x routes xs = (routes', out) ->
    (forall y, y ∈ out <-> y ∈ z :: xs /\ exists s, routes !! y = Some s /\ takes x s) /\
    (forall y, routes' !! y = if decide (y ∈ out) then lock_source x <$> routes !! y else routes !! y)).
  { intros Hz E. destruct (IH _ _ _ E) as [H1 H2]. split; [|done]. intros y. rewrite H1, elem_of_cons. split; [naive_solver|].
    intros [[->|Hy] (s & Hs & Ht)]; [by destruct (Hz s)|]. split; [done|]. by exists s. }
  destruct (routes !! z) as [s|] eqn:Ez; [|by apply Hskip].
  destruct (CanDeliver s) eqn:Ed; simpl in H; [|apply Hskip; [|done]; intros s' [= <-] [? _]; congruence].
  assert (Hgo : forall r1 out1, takes x s -> fan_out x (<[z := lock_source x s]> routes) xs = (r1, out1) ->
    (forall y, y ∈ z :: out1 <-> y ∈ z :: xs /\ exists s, routes !! y = Some s /\ takes x s) /\
    (forall y, r1 !! y = if decide (y ∈ z :: out1) then lock_source x <$> routes !! y else routes !! y)).
  { intros r1 out1 Ht E. destruct (IH _ _ _ E) as [H1 H2]. split.
    - intros y. rewrite !elem_of_cons, H1. destruct (decide (y = z)) as [->|Hne].
      + split; [|by left]. intros _. split; [by left|]. by exists s.
      + rewrite lookup_insert_ne by done. naive_solver.
    - intros y. rewrite H2. destruct (decide (y = z)) as [->|Hne].
      + rewrite lookup_insert_eq, Ez, (decide_True (P := z ∈ z :: out1)) by apply list_elem_of_here.
        by destruct (decide (z ∈ out1)).
      + rewrite lookup_insert_ne by done.
        destruct (decide (y ∈ out1)) as [G1|G1], (decide (y ∈ z :: out1)) as [G2|G2]; try done; exfalso; clear -G1 G2 Hne; set_solver. }
  destruct (source_ssrc s) as [q|] eqn:Es.
  - destruct (q =? x) eqn:Eq; simpl in H; bool_hyps.
    + subst q. destruct (fan_out x routes xs) as [r1 o1] eqn:E. simplify_eq. apply Hgo; [split; [done|by right]|].
      rewrite (lock_source_id _ _ Es), insert_id by done. done.
    + apply Hskip; [|done]. intros s' [= <-] [_ [|]]; congruence.
  - destruct (fan_out x _ xs) as [r1 o1] eqn:E. simplify_eq. apply Hgo; [split; [done|by left]|done].
Qed.

Lemma fan_out_sublist x xs routes routes' out : fan_out x routes xs = (routes', out) -> sublist out xs.
Proof.
  revert routes routes' out. induction xs as [|z xs IH]; intros routes routes' out H; simpl in H; [by simplify_eq|].
  destruct (routes !! z) as [s|]; [|constructor; by eapply IH]. destruct (negb (CanDeliver s)); [constructor; by eapply IH|].
  destruct (source_ssrc s) as [q|].
  - destruct (negb (q =? x)); [constructor; by eapply IH|]. destruct (fan_out x routes xs) eqn:E. simplify_eq. constructor. by eapply IH.
  - destruct (fan_out x _ xs) eqn:E. simplify_eq. constructor. by eapply IH.
Qed.

(** ** Which track a packet belongs to *)

(** The checks that do not depend on the hint. *)
Lemma select_track_spec ord e exts x pt hint id :
  (forall k t, published_tracks_ e !! k = Some t -> k <> []) ->
  select_track ord e exts x pt hint = Some id ->
  (hint = [] \/ hint = id) /\ (exists t, published_tracks_ e !! id = Some t /\ payload_type (description t) = pt) /\
  (forall e', published_tracks_ e' = published_tracks_ e -> ssrc_bindings_ e' !! x = Some id ->
     select_track ord e' exts x pt [] = Some id).
Proof.
  intros Hn. unfold select_track.
  set (keys := ord (elements (dom (published_tracks_ e)))).
  match goal with |- match ?f with Some _ => _ | None => _ end = _ -> _ => destruct f as [sel|] eqn:E1; [|done] end.
  assert (H1 : hint = [] \/ hint = sel).
  { revert E1. destruct (ssrc_bindings_ e !! x) as [k|]; [|intros ?; simplify_eq; by right].
    destruct (negb (empty hint) && negb (bool_decide (hint = k))) eqn:E; [done|]. intros ?. simplify_eq.
    apply andb_false_iff in E as [E|E]; apply negb_false_iff in E; [left; by apply empty_true|right; by apply bool_decide_eq_true in E]. }
  destruct (mid_tracks _ exts keys false []) as [[has by_mid]|] eqn:E2; [|done].
  match goal with |- match ?f with Some _ => _ | None => _ end = _ -> _ => destruct f as [sel2|] eqn:E3; [|done] end.
  assert (H2 : (sel = [] \/ sel = sel2) /\ (has = true -> sel2 = by_mid /\ by_mid <> [])).
  { revert E3. destruct has; [|intros ?; simplify_eq; split; [by right|done]]. destruct (empty by_mid || _) eqn:E; [done|]. intros ?. simplify_eq.
    apply orb_false_elim in E as [Ea Eb]. apply empty_false in Ea. split; [|done].
    apply andb_false_iff in Eb as [Eb|Eb]; apply negb_false_iff in Eb; [left; by apply empty_true|right; by apply bool_decide_eq_true in Eb]. }
  match goal with |- match ?f with Some _ => _ | None => _ end = _ -> _ => destruct f as [sel3|] eqn:E4; [|done] end.
  assert (H3 : sel2 = [] \/ sel2 = sel3).
  { destruct (empty sel2) eqn:E; [left; by apply empty_true|right]. congruence. }
  destruct (published_tracks_ e !! sel3) as [t|] eqn:Et; [|done].
  destruct (payload_type (description t) =? pt) eqn:Ep; [|done]. intros [= ->]. bool_hyps.
  assert (Hid : id <> []) by (by eapply Hn).
  split; [destruct H1, H2 as [[]], H3; subst; auto|]. split; [by exists t|].
  intros e' Ht Hb. rewrite Ht, Hb. simpl. fold keys. rewrite E2. destruct has.
  - destruct H2 as [_ H2]. destruct (H2 eq_refl) as [-> Hby].
    assert (by_mid = id) as -> by (destruct H3; congruence).
    rewrite (proj2 (empty_false id)) by done. simpl. rewrite bool_decide_eq_true_2 by done. simpl.
    rewrite (proj2 (empty_false id)) by done. rewrite Et. by rewrite Ep, Z.eqb_refl.
  - rewrite (proj2 (empty_false id)) by done. rewrite Et. by rewrite Ep, Z.eqb_refl.
Qed.

Lemma published_named e k t : ep_ok True e -> published_tracks_ e !! k = Some t -> k <> [].
Proof. intros OK H. eapply (ok_named _ OK). by left. Qed.

Lemma BindSsrc_bound e id x e' : BindSsrc e id x = (e', true) ->
  ssrc_bindings_ e' !! x = Some id /\ published_tracks_ e' = published_tracks_ e /\ state_ e' = state_ e /\ x ∉ retired_ssrcs_ e'.
Proof.
  unfold BindSsrc. intros H. destruct (_ || _); [done|]. destruct (ssrc_bindings_ e !! x) as [k|] eqn:Ex.
  - case_bool_decide; simplify_eq/=. split; [done|]. split; [done|]. split; [done|]. set_solver +.
  - simplify_eq/=. rewrite lookup_insert_eq. split; [done|]. split; [done|]. split; [done|]. set_solver +.
Qed.

(** A packet that is assigned to a track: the track, and that asking again gives the same. *)
Lemma Resolve_track ord e packet hint e' x :
  ep_ok True e -> bytes_ok packet -> ReadUint32BE packet 8 = Ret x -> ResolveRtpTrack ord e packet hint = Ret (e', true) ->
  exists id t, (hint = [] \/ hint = id) /\ published_tracks_ e !! id = Some t /\
    rd packet 1 = Ret (bget packet 1) /\ payload_type (description t) = Z.land (bget packet 1) 127 /\
    published_tracks_ e' = published_tracks_ e /\ ssrc_bindings_ e' !! x = Some id /\ state_ e' = state_ e /\
    exists e'', ResolveRtpTrack ord e' packet [] = Ret (e'', true) /\
      published_tracks_ e'' = published_tracks_ e /\ ssrc_bindings_ e'' !! x = Some id /\ state_ e'' = state_ e.
Proof.
  intros OK Hb Hx. unfold ResolveRtpTrack. destruct (extension_reader_returns packet ∅ Hb) as ([ok1 exts] & E). rewrite E. simpl.
  destruct ok1; simpl; [|done]. pose proof (extensions_length _ _ _ E) as Hl. rewrite Hx. simpl.
  case_bool_decide as Hr; [done|]. rewrite rd_ok by lia. simpl.
  destruct (select_track ord e exts x _ hint) as [id|] eqn:Es; [|done].
  destruct (BindSsrc e id x) as [e1 ok2] eqn:Eb. intros [= -> ->].
  destruct (BindSsrc_bound _ _ _ _ Eb) as (B1 & B2 & B3 & B4).
  destruct (select_track_spec _ _ _ _ _ _ _ (fun k t => published_named e k t OK) Es) as (H1 & (t & Ht & Hp) & H3).
  exists id, t. do 7 (split; [done|]). rewrite bool_decide_eq_false_2 by done. rewrite (H3 e' B2 B1).
  destruct (BindSsrc e' id x) as [e2 ok3] eqn:Eb2. 
  assert (ok3 = true) as ->.
  { unfold BindSsrc in Eb, Eb2. rewrite B2, B3, B1 in Eb2. destruct (_ || _); [by simplify_eq|].
    rewrite bool_decide_eq_true_2 in Eb2 by done. by simplify_eq. }
  exists e2. destruct (BindSsrc_bound _ _ _ _ Eb2) as (C1 & C2 & C3 & _). split; [done|]. by rewrite C2, C3, B2, B3.
Qed.

(** What a packet does: either it changes no route and reaches nobody, or it was assigned to
    one published track whose payload type it carries, in agreement with the hint; its SSRC
    is now bound to that track, and it reaches, once each, the listed routes that can deliver and
    that carry this source or none yet. *)
Lemma OnRtp_forwards ord sup acc cp e routes packet hint e' routes' out x :
  ep_ok True e -> bytes_ok packet -> ReadUint32BE packet 8 = Ret x ->
  OnRtp ord sup acc cp e routes packet hint = Ret (e', routes', out) ->
  exists forwarded : bool,
    (forwarded = false -> routes' = routes /\ out = []) /\
    (forwarded = true -> exists id t, (hint = [] \/ hint = id) /\ published_tracks_ e !! id = Some t /\
       payload_type (description t) = Z.land (bget packet 1) 127 /\ ssrc_bindings_ e' !! x = Some id /\
       (forall y, y ∈ out <-> y ∈ subscribers t /\ exists s, routes !! y = Some s /\ takes x s) /\
       (forall y, routes' !! y = if decide (y ∈ out) then lock_source x <$> routes !! y else routes !! y) /\
       (NoDup (subscribers t) -> NoDup out)) /\
    (IsRunning e = true -> (exists e1, ResolveRtpTrack ord e packet hint = Ret (e1, true)) ->
       acc = true -> cp = true -> (forall i, sup i = true) -> forwarded = true).
Proof.
  intros OK Hb Hx. unfold OnRtp.
  destruct packet as [|b0 packet]; [intros [= <- <- <-]; exists false; split; [done|]; split; [done|]|].
  { intros _ (e1 & H). done. }
  destruct (IsRunning e) eqn:Er; simpl; [|intros [= <- <- <-]; by exists false].
  destruct (ResolveRtpTrack ord e (b0 :: packet) hint) as [[e1 ok1]| |] eqn:E1; simpl; try done.
  destruct ok1; simpl; cycle 1.
  { intros [= <- <- <-]. exists false. split; [done|]. split; [done|]. intros _ (e2 & [=]). }
  destruct (Resolve_track _ _ _ _ _ _ OK Hb Hx E1) as (id & t & H1 & H2 & _ & H3 & H4 & H5 & H6 & e2 & E2 & G1 & G2 & G3).
  destruct (ResolveRtpTrack_ok ord e (b0 :: packet) hint OK Hb) as (e1' & ok1' & E1' & OK1 & _ & Hl & _).
  rewrite E1 in E1'. injection E1' as <- <-. specialize (Hl eq_refl).
  unfold HandleRtpPacket. assert (IsRunning e1 = true) as -> by (unfold IsRunning in *; by rewrite H6). simpl.
  rewrite E2. simpl. destruct (blen (b0 :: packet) <? 12) eqn:El; [bool_hyps; lia|]. rewrite Hx. simpl.
  assert (OK2 : ep_ok True e2).
  { destruct (ResolveRtpTrack_ok ord e1 (b0 :: packet) [] OK1 Hb) as (e2' & ok2' & E2' & OK2' & _). rewrite E2 in E2'. by simplify_eq. }
  destruct (GetOrCreateReceiverTrack sup e2 x) as [e3 ok3] eqn:E3.
  destruct (GetOrCreateReceiverTrack_ok _ _ _ _ _ OK2 E3) as (OK3 & T3 & B3).
  destruct (negb ok3 || negb acc) eqn:Eacc.
  { intros [= <- <- <-]. exists false. split; [done|]. split; [done|]. intros _ _ -> _ Hs. simpl in Eacc.
    rewrite orb_false_r in Eacc. bool_hyps. unfold GetOrCreateReceiverTrack in E3.
    destruct (ssrc_to_track_ e2 !! x); [congruence|]. rewrite G2, G1, H2, Hs in E3. simpl in E3. congruence. }
  unfold ForwardRtpToSubscribers. rewrite B3, G2, T3, G1, H2. destruct cp; simpl; cycle 1.
  { intros [= <- <- <-]. by exists false. }
  destruct (fan_out x routes _) as [r1 o1] eqn:Ef. intros Heq. injection Heq as <- <- <-.
  destruct (fan_out_spec _ _ _ _ _ Ef) as [F1 F2]. exists true. split; [done|]. split; [|done]. intros _.
  exists id, t. do 3 (split; [done|]). simpl. split; [congruence|]. split; [|split; [done|]].
  - intros y. rewrite F1. unfold open_routes. split.
    + intros [Hy Hs]. split; [|done]. apply list_elem_of_In, filter_In in Hy as [Hy _]. by apply list_elem_of_In.
    + intros [Hy (s & Hs & Ht)]. split; [|by exists s]. apply list_elem_of_In, filter_In. split; [by apply list_elem_of_In|].
      rewrite Hs. destruct Ht as [Hd _]. unfold CanDeliver in Hd. unfold Closed. destruct (active s); [|done]. simpl in *.
      destruct (consumer s) as [c|]; [|done]. bool_hyps. by rewrite H.
  - intros Hn. eapply sublist_NoDup; [|by eapply fan_out_sublist]. apply NoDup_ListNoDup in Hn. apply NoDup_ListNoDup.
    by apply List.NoDup_filter.
Qed.

(** ** What an operation does to the routes *)

(** A route keeps its ends, and a closed one stays closed. *)
Definition evolves (r r' : Subscription) : Prop :=
  source r' = source r /\ destination r' = destination r /\ source_track_id r' = source_track_id r /\
  (Closed r = true -> Closed r' = true).

Definition routes_evolve (m m' : store) : Prop :=
  (forall y r, m !! y = Some r -> exists r', m' !! y = Some r' /\ evolves r r') /\
  (forall y r', m' !! y = Some r' -> exists r, m !! y = Some r /\ evolves r r').

Lemma evolves_refl r : evolves r r.
Proof. done. Qed.

Lemma routes_evolve_refl m : routes_evolve m m.
Proof. split; intros y r Hr; exists r; done. Qed.

Lemma routes_evolve_trans m1 m2 m3 : routes_evolve m1 m2 -> routes_evolve m2 m3 -> routes_evolve m1 m3.
Proof.
  intros [A1 A2] [B1 B2]. split; intros y r Hr.
  - destruct (A1 _ _ Hr) as (r1 & H1 & E1). destruct (B1 _ _ H1) as (r2 & H2 & E2). exists r2. split; [done|].
    unfold evolves in *. naive_solver congruence.
  - destruct (B2 _ _ Hr) as (r1 & H1 & E1). destruct (A2 _ _ H1) as (r2 & H2 & E2). exists r2. split; [done|].
    unfold evolves in *. naive_solver congruence.
Qed.

(** Changing one route along [evolves]. *)
Lemma routes_evolve_insert m y r r' : m !! y = Some r -> evolves r r' -> routes_evolve m (<[y := r']> m).
Proof.
  intros Hr He. split; intros z s Hs.
  - destruct (decide (z = y)) as [->|Hne]; [exists r'; rewrite lookup_insert_eq; split; [done|congruence]|].
    exists s. by rewrite lookup_insert_ne.
  - apply lookup_insert_Some in Hs as [[<- <-]|[_ Hs]]; [by exists r|by exists s].
Qed.

Lemma evolves_Close r : evolves r (route_Close r).
Proof. unfold evolves. by rewrite route_Close_Closed. Qed.

Lemma evolves_lock x r : evolves r (lock_source x r).
Proof. done. Qed.

(** The route is open. *)
Definition is_open (m : store) (y : Z) : Prop := exists r, m !! y = Some r /\ Closed r = false.

Lemma is_open_back m m' y : routes_evolve m m' -> is_open m' y -> is_open m y.
Proof.
  intros [_ H] (r' & Hr & Ho). destruct (H _ _ Hr) as (r & H1 & _ & _ & _ & Hc). exists r. split; [done|].
  destruct (Closed r); [by rewrite Hc in Ho|done].
Qed.

Definition listed (e : Endpoint) (k : str) (y : Z) : Prop :=
  exists t, published_tracks_ e !! k = Some t /\ y ∈ subscribers t.

(** Paused tracks have no subscribers, and no route is listed twice. *)
Definition quiet (e : Endpoint) : Prop :=
  (forall k s, paused_published_tracks_ e !! k = Some s -> subscribers (paused_track s) = []) /\
  (forall k t, published_tracks_ e !! k = Some t -> NoDup (subscribers t)).

Record local (e : Endpoint) (m : store) (e' : Endpoint) (m' : store) : Prop := mkLocal {
  l_routes : routes_evolve m m';
  l_listed : forall k y, listed e' k y -> listed e k y;
  l_keep : forall k y, listed e k y -> is_open m' y -> listed e' k y;
  l_subs : forall id y, subscriptions_ e' !! id = Some y -> subscriptions_ e !! id = Some y;
  l_subs_keep : forall id y, subscriptions_ e !! id = Some y -> is_open m' y -> subscriptions_ e' !! id = Some y;
  l_running : IsRunning e = true -> IsRunning e' = true \/
    ((forall k y, ~ listed e' k y) /\ subscriptions_ e' = ∅);
  l_quiet : quiet e -> quiet e';
  l_stopped : state_ e = kStopped -> state_ e' = kStopped }.

Lemma local_refl e m : local e m e m.
Proof. constructor; auto using routes_evolve_refl. Qed.

Lemma local_trans e1 m1 e2 m2 e3 m3 : local e1 m1 e2 m2 -> local e2 m2 e3 m3 -> local e1 m1 e3 m3.
Proof.
  intros [A1 A2 A3 A4 A5 A6 A7 A8] [B1 B2 B3 B4 B5 B6 B7 B8]. constructor.
  - by eapply routes_evolve_trans.
  - auto.
  - intros k y H1 H2. apply B3; [|done]. apply A3; [done|]. by eapply is_open_back.
  - auto.
  - intros id y H1 H2. apply B5; [|done]. apply A5; [done|]. by eapply is_open_back.
  - intros H. destruct (A6 H) as [G|[G1 G2]]; [by apply B6|]. right. split.
    + intros k y Hk. by apply (G1 k y), B2.
    + apply map_empty. intros id. destruct (subscriptions_ e3 !! id) as [y|] eqn:E; [|done].
      apply B4 in E. by rewrite G2, lookup_empty in E.
  - auto.
  - auto.
Qed.

(** Operations that touch neither the lists of routes nor the routes. *)
Lemma local_frame e m e' :
  (forall k, subscribers <$> published_tracks_ e' !! k = subscribers <$> published_tracks_ e !! k) ->
  subscriptions_ e' = subscriptions_ e -> (IsRunning e = true -> IsRunning e' = true) ->
  paused_published_tracks_ e' = paused_published_tracks_ e -> (state_ e = kStopped -> state_ e' = kStopped) -> local e m e' m.
Proof.
  intros H1 H2 H3 H4 H5. assert (Hl : forall k y, listed e k y <-> listed e' k y).
  { intros k y. unfold listed. specialize (H1 k). split; intros (t & Ht & Hy); rewrite Ht in H1; simpl in H1.
    - destruct (published_tracks_ e' !! k) as [u|]; [|done]. simpl in H1. exists u. split; [done|]. congruence.
    - destruct (published_tracks_ e !! k) as [u|]; [|done]. simpl in H1. exists u. split; [done|]. congruence. }
  constructor; rewrite ?H2; auto using routes_evolve_refl; [intros k y; by intros ?%Hl|intros k y; by intros ?%Hl|].
  intros [Q1 Q2]. split; [by rewrite H4|]. intros k t Ht. specialize (H1 k). rewrite Ht in H1. simpl in H1.
  destruct (published_tracks_ e !! k) as [u|] eqn:Eu; [|done]. injection H1 as ->. by eapply Q2.
Qed.

(** One track gets another list of routes; those that go are closed. *)
Lemma local_track e m m' id t u :
  published_tracks_ e !! id = Some t -> routes_evolve m m' -> (forall y, y ∈ subscribers u -> y ∈ subscribers t) ->
  (forall y, y ∈ subscribers t -> is_open m' y -> y ∈ subscribers u) -> (NoDup (subscribers t) -> NoDup (subscribers u)) ->
  local e m (with_tracks (<[id := u]> (published_tracks_ e)) e) m'.
Proof.
  intros Ht Hm H1 H2 H3. constructor; simpl; auto.
  - intros k y (v & Hv & Hy). simpl in Hv. apply lookup_insert_Some in Hv as [[<- <-]|[_ Hv]]; [exists t; auto|by exists v].
  - intros k y (v & Hv & Hy) Ho. unfold listed. simpl. destruct (decide (id = k)) as [<-|Hne].
    + exists u. rewrite lookup_insert_eq. split; [done|]. apply H2; [congruence|done].
    + exists v. by rewrite lookup_insert_ne.
  - intros [Q1 Q2]. split; [done|]. intros k v Hv. simpl in Hv.
    apply lookup_insert_Some in Hv as [[<- <-]|[_ Hv]]; [apply H3|]; by eapply Q2.
Qed.

(** A track disappears; its routes are closed. *)
Lemma local_gone e m m' e' id :
  published_tracks_ e' = delete id (published_tracks_ e) -> subscriptions_ e' = subscriptions_ e -> state_ e' = state_ e ->
  paused_published_tracks_ e' = paused_published_tracks_ e -> routes_evolve m m' -> (forall y, listed e id y -> ~ is_open m' y) -> local e m e' m'.
Proof.
  intros E1 E2 E3 E4 Hm Hc. constructor; rewrite ?E2; auto.
  - intros k y (v & Hv & Hy). rewrite E1 in Hv. apply lookup_delete_Some in Hv as [_ Hv]. by exists v.
  - intros k y Hl Ho. destruct (decide (id = k)) as [<-|Hne]; [by destruct (Hc y)|]. destruct Hl as (v & Hv & Hy).
    exists v. by rewrite E1, lookup_delete_ne.
  - unfold IsRunning. rewrite E3. auto.
  - intros [Q1 Q2]. split; [by rewrite E4|]. intros k t Ht. rewrite E1 in Ht. apply lookup_delete_Some in Ht as [_ Ht]. by eapply Q2.
  - congruence.
Qed.

(** ** Packets *)

Lemma fan_out_evolve x routes xs routes' out : fan_out x routes xs = (routes', out) -> routes_evolve routes routes'.
Proof.
  intros H. destruct (fan_out_spec _ _ _ _ _ H) as [_ F]. split; intros y r Hr.
  - rewrite F, Hr. destruct (decide (y ∈ out)); [exists (lock_source x r)|exists r]; done.
  - rewrite F in Hr. destruct (routes !! y) as [s|] eqn:E; [|by destruct (decide _)]. exists s. split; [done|].
    destruct (decide (y ∈ out)); simpl in Hr; simplify_eq; [apply evolves_lock|done].
Qed.

Lemma Bind_local e m id x : local e m (fst (BindSsrc e id x)) m.
Proof. apply local_frame; unfold BindSsrc, IsRunning; by repeat case_match. Qed.

Lemma bind_all_local xs e m id : local e m (bind_all e id xs) m.
Proof. revert e. induction xs as [|x xs IH]; intros e; [apply local_refl|]. simpl. eapply local_trans; [apply Bind_local|apply IH]. Qed.

Lemma Resolve_local ord e m packet hint e' ok : ResolveRtpTrack ord e packet hint = Ret (e', ok) -> local e m e' m.
Proof.
  unfold ResolveRtpTrack. destruct (ReadRtpHeaderExtensions (Some packet) ∅) as [[ok1 exts]| |]; simpl; try done.
  destruct (negb ok1); [intros [= <- <-]; apply local_refl|]. destruct (ReadUint32BE packet 8) as [x| |]; simpl; try done.
  destruct (bool_decide _); [intros [= <- <-]; apply local_refl|]. destruct (rd packet 1) as [b| |]; simpl; try done.
  destruct (select_track _ _ _ _ _ _) as [id|]; [|intros [= <- <-]; apply local_refl].
  intros [= H]. pose proof (Bind_local e m id x) as G. by rewrite H in G.
Qed.

Lemma receiver_local sup e m x : local e m (fst (GetOrCreateReceiverTrack sup e x)) m.
Proof. apply local_frame; unfold GetOrCreateReceiverTrack, IsRunning; by repeat case_match. Qed.

Lemma open_routes_elem routes xs y : y ∈ open_routes routes xs <-> y ∈ xs /\ is_open routes y.
Proof.
  unfold open_routes, is_open. rewrite !list_elem_of_In, filter_In. split; intros [H1 H2]; (split; [done|]).
  - destruct (routes !! y) as [s|]; [|done]. exists s. split; [done|]. by destruct (Closed s).
  - destruct H2 as (s & -> & ->). done.
Qed.

Lemma Forward_local cp e m x e' m' out : ForwardRtpToSubscribers cp e m x = Ret (e', m', out) -> local e m e' m'.
Proof.
  unfold ForwardRtpToSubscribers. destruct (ssrc_bindings_ e !! x) as [id|]; [|intros [= <- <- <-]; apply local_refl].
  destruct (published_tracks_ e !! id) as [t|] eqn:Et; [|done].
  assert (H : forall m1, routes_evolve m m1 ->
    local e m (with_tracks (<[id := set_subscribers (open_routes m (subscribers t)) t]> (published_tracks_ e)) e) m1).
  { intros m1 Hm. eapply local_track; [done|done| | |]; simpl.
    - intros y Hy. by apply open_routes_elem in Hy as [? _].
    - intros y Hy Ho. apply open_routes_elem. split; [done|by eapply is_open_back].
    - intros Hn. apply NoDup_ListNoDup in Hn. apply NoDup_ListNoDup. by apply List.NoDup_filter. }
  destruct (negb cp); [intros [= <- <- <-]; apply H, routes_evolve_refl|].
  destruct (fan_out _ _ _) as [m1 o] eqn:Ef. intros [= <- <- <-]. apply H. by eapply fan_out_evolve.
Qed.

Lemma OnRtp_local ord sup acc cp e m packet hint e' m' out :
  OnRtp ord sup acc cp e m packet hint = Ret (e', m', out) -> local e m e' m'.
Proof.
  unfold OnRtp. destruct packet as [|b0 packet]; [intros [= <- <- <-]; apply local_refl|].
  destruct (negb (IsRunning e)); [intros [= <- <- <-]; apply local_refl|].
  destruct (ResolveRtpTrack ord e (b0 :: packet) hint) as [[e1 ok1]| |] eqn:E1; simpl; try done.
  intros H. eapply local_trans; [by eapply Resolve_local|]. destruct ok1; simpl in H; [|simplify_eq; apply local_refl].
  unfold HandleRtpPacket in H. destruct (negb (IsRunning e1)); [simplify_eq; apply local_refl|].
  destruct (ResolveRtpTrack ord e1 (b0 :: packet) []) as [[e2 ok2]| |] eqn:E2; simpl in H; try done.
  eapply local_trans; [by eapply Resolve_local|]. destruct ok2; simpl in H; [|simplify_eq; apply local_refl].
  destruct (blen _ <? 12); [simplify_eq; apply local_refl|]. destruct (ReadUint32BE (b0 :: packet) 8) as [x| |]; simpl in H; try done.
  pose proof (receiver_local sup e2 m x) as Hr. destruct (GetOrCreateReceiverTrack sup e2 x) as [e3 ok3]. simpl in Hr.
  eapply local_trans; [exact Hr|]. destruct (_ || _); [simplify_eq; apply local_refl|by eapply Forward_local].
Qed.

(** ** Publication *)

Lemma Add_local e m id info md ext : local e m (fst (AddPublishedTrack e id info md ext)) m.
Proof.
  unfold AddPublishedTrack. destruct (_ || bool_decide (id ∈ _)) eqn:E; [apply local_refl|].
  destruct (_ || (negb _ && _)); [apply local_refl|]. destruct (bool_decide (map_Exists _ _)); [apply local_refl|].
  apply orb_false_elim in E as [E _]. apply orb_false_elim in E as [_ E]. apply bool_decide_eq_false, eq_None_not_Some in E.
  set (u := mkPublishedTrack info md ext None [] None).
  assert (H : local e m (with_tracks (<[id := u]> (published_tracks_ e)) e) m).
  { constructor; simpl; auto using routes_evolve_refl.
    - intros k y (v & Hv & Hy). simpl in Hv. apply lookup_insert_Some in Hv as [[<- <-]|[_ Hv]]; [by apply not_elem_of_nil in Hy|by exists v].
    - intros k y (v & Hv & Hy) _. exists v. simpl. rewrite lookup_insert_ne; [done|]. congruence.
    - intros [Q1 Q2]. split; [done|]. intros k v Hv. simpl in Hv.
      apply lookup_insert_Some in Hv as [[<- <-]|[_ Hv]]; [apply NoDup_nil_2|by eapply Q2]. }
  destruct (info_ssrc info =? 0); [exact H|]. eapply local_trans; [exact H|]. by apply local_frame.
Qed.

Lemma Add_media_local e m id md index : local e m (fst (AddPublishedMedia e id md index)) m.
Proof.
  unfold AddPublishedMedia. destruct (media_info md) as [info|]; [|apply local_refl]. destruct (existsb _ _); [apply local_refl|].
  destruct (existsb _ _); [apply local_refl|].
  pose proof (Add_local e m id (set_index index info) (media_mid md) (media_mid_extension md)) as H.
  destruct (AddPublishedTrack _ _ _ _ _) as [e1 ok]. simpl in H. destruct ok; simpl; [|done].
  eapply local_trans; [exact H|apply bind_all_local].
Qed.

Lemma close_routes_evolve xs m m' prune : close_routes xs m = (m', prune) -> routes_evolve m m'.
Proof.
  intros H. pose proof (close_routes_spec _ _ _ _ H) as F. split; intros y r Hr.
  - rewrite F, Hr. destruct (decide (y ∈ xs)); [exists (route_Close r)|exists r]; [split; [done|apply evolves_Close]|done].
  - rewrite F in Hr. destruct (m !! y) as [s|] eqn:E; [|by destruct (decide _)]. exists s. split; [done|].
    destruct (decide (y ∈ xs)); simpl in Hr; simplify_eq; [apply evolves_Close|done].
Qed.

Lemma close_routes_closed xs m m' prune y : close_routes xs m = (m', prune) -> y ∈ xs -> ~ is_open m' y.
Proof.
  intros H Hy (r & Hr & Ho). rewrite (close_routes_spec _ _ _ _ H) in Hr. rewrite decide_True in Hr by done.
  destruct (m !! y) as [s|]; [|done]. simpl in Hr. by simplify_eq.
Qed.

Lemma Remove_local e m id ret e' m' ok prune :
  RemovePublishedTrack e m id ret = (e', m', ok, prune) -> local e m e' m'.
Proof.
  unfold RemovePublishedTrack. destruct (published_tracks_ e !! id) as [t|] eqn:Et; [|intros [= <- <- <- <-]; apply local_refl].
  destruct (close_routes _ m) as [m1 p1] eqn:Ec. destruct (remove_receivers_frame (ssrcs_of e id) e) as (x & -> & _).
  intros Heq. injection Heq as <- <- <- <-.
  apply (local_gone _ _ _ _ id); [by destruct ret|by destruct ret|by destruct ret|by destruct ret|by eapply close_routes_evolve|].
  intros y (u & Hu & Hy). eapply close_routes_closed; [done|]. congruence.
Qed.

Lemma Replace_local ord e m medias e' m' ok prune :
  ep_ok True e -> quiet e -> ReplacePublishedTracks ord e m medias = (e', m', ok, prune) -> local e m e' m'.
Proof.
  intros OK Q H. destruct (ReplacePublishedTracks_plan _ _ _ _ _ _ _ _ OK H) as
    [(_ & -> & ->)|(_ & next & cs & p & rc & _ & _ & PO & _ & Ec & _ & ->)]; [apply local_refl|].
  assert (Hold : forall k t t0, plan_tracks p !! k = Some t -> published_tracks_ e !! k = Some t0 -> subscribers t = subscribers t0).
  { intros k t t0 Ht H0. destruct (p_old _ _ _ _ PO _ _ Ht) as [(u & Hu & _ & Hs & _)|(_ & _ & Hno)].
    - rewrite Hs. f_equal. eapply all_tracks_unique; [done|done|done|by left].
    - destruct (Hno t0). by left. }
  constructor; simpl; auto.
  - by eapply close_routes_evolve.
  - intros k y (t & Ht & Hy). simpl in Ht. destruct (p_old _ _ _ _ PO _ _ Ht) as [(u & [Hu|(s & Hs & <-)] & _ & E & _)|(_ & E & _)].
    + exists u. split; [done|]. congruence.
    + rewrite E, (proj1 Q _ _ Hs) in Hy. by apply not_elem_of_nil in Hy.
    + rewrite E in Hy. by apply not_elem_of_nil in Hy.
  - intros k y (t & Ht & Hy) Ho. unfold listed. simpl. destruct (plan_tracks p !! k) as [u|] eqn:Eu.
    + exists u. split; [done|]. by rewrite (Hold _ _ _ Eu Ht).
    + exfalso. pose proof (is_open_back _ _ _ (close_routes_evolve _ _ _ _ Ec) Ho) as (r & Hr & Hc).
      by eapply close_routes_closed; [done|eapply abandoned_elem; eauto|].
  - intros _. split; simpl.
    + intros k s. rewrite pause_missing_lookup. destruct (published_tracks_ e !! k) as [t|]; [destruct (known (plan_tracks p) k)|].
      * intros Hs. by apply (proj1 Q k), (p_sub _ _ _ _ PO).
      * intros [= <-]. done.
      * intros Hs. by apply (proj1 Q k), (p_sub _ _ _ _ PO).
    + intros k t Ht. destruct (p_old _ _ _ _ PO _ _ Ht) as [(u & [Hu|(s & Hs & <-)] & _ & -> & _)|(_ & -> & _)].
      * by apply (proj2 Q k).
      * rewrite (proj1 Q _ _ Hs). apply NoDup_nil_2.
      * apply NoDup_nil_2.
Qed.

(** ** Subscriptions *)

Lemma only_downlinks_listed e e' k y : only_downlinks e e' -> listed e' k y <-> listed e k y.
Proof. intros (a & b & c & ->). done. Qed.

(** The destination drops subscriptions whose routes are closed. *)
Lemma local_downlinks e m e' m' : only_downlinks e e' -> routes_evolve m m' ->
  (forall id y, subscriptions_ e' !! id = Some y -> subscriptions_ e !! id = Some y) ->
  (forall id y, subscriptions_ e !! id = Some y -> is_open m' y -> subscriptions_ e' !! id = Some y) -> local e m e' m'.
Proof.
  intros Ho Hm H1 H2. constructor; auto.
  - intros k y. by rewrite (only_downlinks_listed e e').
  - intros k y. by rewrite (only_downlinks_listed e e').
  - destruct Ho as (a & b & c & ->). auto.
  - destruct Ho as (a & b & c & ->). auto.
  - destruct Ho as (a & b & c & ->). auto.
Qed.

Lemma downlink_Unsubscribe_local e m id e' m' ok :
  Unsubscribe e m id = (e', m', ok) -> local e m e' m' /\ subscriptions_ e' = delete id (subscriptions_ e) /\
  (forall y, subscriptions_ e !! id = Some y -> ~ is_open m' y) /\ ok = bool_decide (is_Some (subscriptions_ e !! id)).
Proof.
  intros H. pose proof (Unsubscribe_only _ _ _ _ _ _ H) as Ho. unfold Unsubscribe in H.
  destruct (subscriptions_ e !! id) as [y|] eqn:Ey; cycle 1.
  { simplify_eq. split; [apply local_refl|]. split; [by rewrite delete_id|done]. }
  assert (Hl : subscriptions_ e' = delete id (subscriptions_ e) -> routes_evolve m m' -> ~ is_open m' y -> local e m e' m').
  { intros Hs Hm Hc. apply local_downlinks; [done|done| |]; rewrite Hs; intros k z.
    - by intros [_ ?]%lookup_delete_Some.
    - intros Hk Hz. destruct (decide (id = k)) as [<-|Hne]; [|by rewrite lookup_delete_ne]. destruct Hc. congruence. }
  destruct (m !! y) as [r|] eqn:Er; simplify_eq.
  - assert (~ is_open (<[y := route_Close r]> m) y).
    { intros (s & Hs & Hc). rewrite lookup_insert_eq in Hs. by simplify_eq. }
    split; [apply Hl; [done| |done]; eapply routes_evolve_insert; [done|apply evolves_Close]|]. split; [done|]. split; [|done].
    intros z [= <-]. done.
  - assert (~ is_open m' y) by (intros (s & Hs & _); congruence).
    split; [apply Hl; [done|apply routes_evolve_refl|done]|]. split; [done|]. split; [|done]. intros z [= <-]. done.
Qed.

Lemma unsubscribe_keys_local keys e m e' m' : unsubscribe_keys e m keys = (e', m') ->
  local e m e' m' /\ (forall k, k ∈ keys -> subscriptions_ e' !! k = None).
Proof.
  revert e m. induction keys as [|k keys IH]; intros e m H; simpl in H.
  { simplify_eq. split; [apply local_refl|]. intros k Hk. by apply not_elem_of_nil in Hk. }
  destruct (Unsubscribe e m k) as [[e1 m1] ok] eqn:E. destruct (downlink_Unsubscribe_local _ _ _ _ _ _ E) as (L1 & S1 & _).
  destruct (IH _ _ H) as [L2 S2]. split; [by eapply local_trans|]. intros j [->|Hj]%elem_of_cons; [|by apply S2].
  destruct (subscriptions_ e' !! k) as [y|] eqn:Ek; [|done]. apply (l_subs _ _ _ _ L2) in Ek.
  by rewrite S1, lookup_delete_eq in Ek.
Qed.

Lemma prune_keys_local keys alive e m e' m' : prune_keys alive e m keys = (e', m') ->
  local e m e' m' /\ (forall k y r, k ∈ keys -> subscriptions_ e' !! k = Some y -> m !! y = Some r -> Closed r = false).
Proof.
  revert e m. induction keys as [|k keys IH]; intros e m H; simpl in H.
  { simplify_eq. split; [apply local_refl|]. intros k y r Hk. by apply not_elem_of_nil in Hk. }
  assert (Hskip : (forall y r, subscriptions_ e !! k = Some y -> m !! y = Some r -> Closed r = false) -> prune_keys alive e m keys = (e', m') ->
    local e m e' m' /\ (forall j y r, j ∈ k :: keys -> subscriptions_ e' !! j = Some y -> m !! y = Some r -> Closed r = false)).
  { intros Hk E. destruct (IH _ _ E) as [L S]. split; [done|]. intros j y r [->|Hj]%elem_of_cons Hy Hr; [|by eapply S].
    eapply Hk; [by apply (l_subs _ _ _ _ L)|done]. }
  destruct (subscriptions_ e !! k) as [y|] eqn:Ek; [|by apply Hskip].
  destruct (m !! y) as [r|] eqn:Er; [|by apply Hskip; [intros y' r' [= <-] ?; congruence|]].
  destruct (Closed r || negb (alive (source r))) eqn:Ec; cycle 1.
  { apply orb_false_elim in Ec as [Ec _]. apply Hskip; [|done]. intros y' r' [= <-] Hr. congruence. }
  destruct (Unsubscribe e m k) as [[e1 m1] ok] eqn:E. destruct (downlink_Unsubscribe_local _ _ _ _ _ _ E) as (L1 & S1 & _).
  destruct (IH _ _ H) as [L2 S2]. split; [by eapply local_trans|]. intros j z s [->|Hj]%elem_of_cons Hz Hs.
  - apply (l_subs _ _ _ _ L2) in Hz. by rewrite S1, lookup_delete_eq in Hz.
  - destruct (l_routes _ _ _ _ L1) as [G _]. destruct (G _ _ Hs) as (s' & Hs' & _ & _ & _ & Hc).
    pose proof (S2 _ _ _ Hj Hz Hs') as G2. destruct (Closed s); [|done]. by rewrite Hc in G2.
Qed.

Lemma Prune_local ord alive e m e' m' : Prune ord alive e m = (e', m') -> local e m e' m'.
Proof. intros H. by apply prune_keys_local in H as [H _]. Qed.

Lemma Configure_local ord alive e m id c e' m' ok : ConfigureSubscription ord alive e m id c = (e', m', ok) -> local e m e' m'.
Proof.
  unfold ConfigureSubscription. case_bool_decide; [intros [= <- <- <-]; apply local_refl|]. unfold Configure.
  destruct (Prune ord alive e m) as [e1 m1] eqn:E. apply Prune_local in E. destruct (_ || _); intros Heq; injection Heq as <- <- <-; [done|].
  eapply local_trans; [done|]. by apply local_frame.
Qed.

Lemma remove_all_local keys e m e' m' prune : remove_all e m keys = (e', m', prune) -> local e m e' m'.
Proof.
  revert e m prune. induction keys as [|k keys IH]; intros e m prune H; simpl in H; [simplify_eq; apply local_refl|].
  destruct (RemovePublishedTrack e m k true) as [[[e1 m1] ok1] p1] eqn:E1. apply Remove_local in E1.
  destruct (remove_all e1 m1 keys) as [[e2 m2] more] eqn:E2. simplify_eq. eapply local_trans; [done|by eapply IH].
Qed.

Lemma remove_all_subs keys e m e' m' prune : remove_all e m keys = (e', m', prune) -> subscriptions_ e' = subscriptions_ e.
Proof.
  revert e m prune. induction keys as [|k keys IH]; intros e m prune H; simpl in H; [by simplify_eq|].
  destruct (RemovePublishedTrack e m k true) as [[[e1 m1] ok1] p1] eqn:E1.
  destruct (remove_all e1 m1 keys) as [[e2 m2] more] eqn:E2. simplify_eq. rewrite (IH _ _ _ E2).
  unfold RemovePublishedTrack in E1. destruct (published_tracks_ e !! k); [|by simplify_eq]. destruct (close_routes _ _).
  destruct (remove_receivers_frame (ssrcs_of e k) e) as (x & Hx & _). rewrite Hx in E1. by simplify_eq.
Qed.

Lemma Stop_local ord e m e' m' prune :
  (forall l, ord l ≡ₚ l) -> ep_ok True e -> Stop ord e m = (e', m', prune) -> local e m e' m' /\ subscriptions_ e' = ∅.
Proof.
  intros Hord OK H. destruct (endpoint_Stop_ok _ _ _ _ _ _ Hord OK H) as (_ & _ & Hp & _). unfold Stop, Clear in H.
  destruct (unsubscribe_keys _ _ _) as [e1 m1] eqn:E1. destruct (unsubscribe_keys_local _ _ _ _ _ E1) as [L1 S1].
  destruct (remove_all _ _ _) as [[e2 m2] p2] eqn:E2. injection H as <- <- <-.
  pose proof (remove_all_local _ _ _ _ _ _ E2) as L2. apply remove_all_subs in E2. simpl in *.
  assert (Hs : subscriptions_ e2 = ∅).
  { rewrite E2. simpl. apply map_empty. intros k. destruct (subscriptions_ e1 !! k) as [y|] eqn:Ek; [|done].
    rewrite S1 in Ek; [done|]. apply (l_subs _ _ _ _ L1) in Ek. simpl in Ek. rewrite Hord. apply elem_of_elements, elem_of_dom. by exists y. }
  split; [|done]. destruct L1 as [A1 A2 A3 A4 A5 _ A7 _], L2 as [B1 B2 B3 B4 B5 _ B7 _]. simpl in *. constructor; simpl.
  - by eapply routes_evolve_trans.
  - intros k y Hk. apply A2, B2, Hk.
  - intros k y Hk Ho. apply B3; [|done]. apply (A3 k y); [done|by eapply is_open_back].
  - intros id y Hy. by apply A4, B4.
  - intros id y Hy Ho. apply B5; [|done]. apply A5; [done|by eapply is_open_back].
  - intros _. right. split; [|done]. intros k y (t & Ht & _). simpl in Ht. by rewrite Hp, lookup_empty in Ht.
  - intros Hq. by apply B7, A7.
  - done.
Qed.

(** ** RTCP *)

Lemma HandleRtcp_local ord alive sup e m packet e' m' ev :
  HandleRtcpPacket ord alive sup e m packet = Ret (e', m', ev) -> local e m e' m'.
Proof.
  unfold HandleRtcpPacket. intros H. destruct (negb (IsRunning e)); [simplify_eq; apply local_refl|].
  destruct (Prune ord alive e m) as [e1 m1] eqn:E1. apply Prune_local in E1.
  destruct (blen packet <? 4); [by simplify_eq|]. destruct (InspectRtcpPacket _) as [info| |]; cbn [mbnd] in H; try done.
  destruct info as [i|]; [|by simplify_eq]. destruct (OnRtcpPacket _) as [[ok evs]| |]; cbn [mbnd] in H; try done. simplify_eq.
  destruct (_ && _); [|done]. eapply local_trans; [done|apply receiver_local].
Qed.

Lemma OnRtcp_local ord alive sup e m packet hint e' m' ev :
  OnRtcp ord alive sup e m packet hint = Ret (e', m', ev) -> local e m e' m'.
Proof.
  unfold OnRtcp. intros H. destruct (negb (IsRunning e)); [simplify_eq; apply local_refl|].
  destruct (Prune ord alive e m) as [e1 m1] eqn:E1. apply Prune_local in E1.
  destruct (_ && negb (known _ _)); [by simplify_eq|]. eapply local_trans; [exact E1|].
  assert (Hh : forall e2, match packet with [] => Ret (e2, m1, []) | _ => HandleRtcpPacket ord alive sup e2 m1 packet end = Ret (e', m', ev) ->
    local e2 m1 e' m').
  { intros e2 G. destruct packet; [simplify_eq; apply local_refl|]. by eapply HandleRtcp_local. }
  destruct (names_source packet hint) as [rep| |]; cbn [mbnd] in H; try done. destruct rep; cbn [negb] in H; [|by apply Hh].
  destruct (InspectRtcpPacket _) as [info| |]; cbn [mbnd] in H; try done. destruct info as [i|]; [|simplify_eq; apply local_refl].
  destruct (ReadUint32BE packet 4) as [x| |]; cbn [mbnd] in H; try done. case_bool_decide as Hx; [simplify_eq; apply local_refl|].
  pose proof (Bind_local e1 m1 hint x) as B. destruct (BindSsrc e1 hint x) as [e2 ok2]. simpl in B.
  eapply local_trans; [exact B|]. destruct (negb ok2); [simplify_eq; apply local_refl|by apply Hh].
Qed.

(** ** Key frame requests *)

Lemma Pli_local e m d now x : local e m (fst (OnTrackPli e d now x)) m.
Proof.
  unfold OnTrackPli. destruct (negb _); [apply local_refl|]. destruct (RtcpSenderFor e d x); [|apply local_refl].
  destruct (ssrc_bindings_ e !! x) as [id|]; [|destruct (Allow _ _); by apply local_frame].
  destruct (published_tracks_ e !! id) as [t|] eqn:Et; [|apply local_refl]. destruct (Allow _ _) as [l ok].
  eapply local_track; [done|apply routes_evolve_refl|done|done|done].
Qed.

Lemma pli_all_local xs e m d now : local e m (fst (pli_all e d now xs)) m.
Proof.
  revert e. induction xs as [|x xs IH]; intros e; [apply local_refl|]. simpl. pose proof (Pli_local e m d now x) as H.
  destruct (OnTrackPli e d now x) as [e1 s]. specialize (IH e1). destruct (pli_all e1 d now xs). simpl in *. by eapply local_trans.
Qed.

Lemma RequestKeyFrame_local e m d now id : local e m (fst (RequestKeyFrame e d now id)) m.
Proof. unfold RequestKeyFrame. destruct (negb _); [apply local_refl|apply pli_all_local]. Qed.

Lemma callback_local e m id cb : local e m (SetTrackRtcpSendCallback e id cb) m.
Proof.
  unfold SetTrackRtcpSendCallback. destruct (published_tracks_ e !! id) as [t|] eqn:Et; [|apply local_refl].
  eapply local_track; [done|apply routes_evolve_refl|done|done|done].
Qed.
