(* ===== verification/SfuPool.v ===== *)
(** * The endpoints together

    Models what [media/endpoint/SfuEndpointTracks.cpp] does across endpoints: [Subscribe],
    which joins a published track of one endpoint to a downlink of another, and the
    tasks posted to other workers that drop closed subscriptions.  The pool holds every
    endpoint by its id, the routes by address and the ids of the endpoints with a
    [PruneSubscriptions] task outstanding.  Every step of the pool keeps the tables of both
    ends of every route in agreement. *)
From S2P Require Import Prelude Bytes RtpWire Affinity Names SfuEndpoint SfuInv SfuReplace SfuProps SfuLocal.
Record Pool := mkPool {
  endpoints : gmap Z Endpoint;
  routes_ : store;
  next_route_ : Z;
  posted_ : list Z }.

Definition alive (p : Pool) (n : Z) : bool := bool_decide (is_Some (endpoints p !! n)).

(** An operation of endpoint [n]: its new state, the new routes and the tasks it posted. *)
Definition put (p : Pool) (n : Z) (e : Endpoint) (m : store) (posts : list Z) : Pool :=
  mkPool (<[n := e]> (endpoints p)) m (next_route_ p) (posted_ p ++ posts).

Definition pool_Subscribe (ord : list str -> list str) (attach : Z * Z -> option ConsumerView)
    (p : Pool) (d : Z) (id : str) (s : Z) (track : str) (ref : Z * Z) : Pool * bool :=
  if s =? d then (p, false) else
  match endpoints p !! d, endpoints p !! s with
  | Some e, Some src =>
    match published_tracks_ src !! track with
    | None => (p, false)
    | Some t =>
      if negb (IsRunning e) || negb (IsRunning src) then (p, false) else
      let info := description t in
      let ref := if (fst ref =? 0) && negb (media_stream_id_ src =? 0)
                 then (media_stream_id_ src, u32 (track_index info)) else ref in
      let y := next_route_ p in
      let '(e, m, ok) := downlink_subscribe ord (alive p) attach e (routes_ p) id info ref y
                           (mkRoute true s d track None 0 None 0) in
      let p := put p d e m [] in
      if negb ok then (p, false) else
      (mkPool (<[s := with_tracks (<[track := set_subscribers (subscribers t ++ [y]) t]> (published_tracks_ src)) src]> (endpoints p))
         (routes_ p) (y + 1) (posted_ p), true)
    end
  | _, _ => (p, false)
  end.

Definition pool_Unsubscribe (p : Pool) (d : Z) (id : str) : Pool * bool :=
  match endpoints p !! d with
  | None => (p, false)
  | Some e => let '(e, m, ok) := Unsubscribe e (routes_ p) id in (put p d e m [], ok)
  end.

Definition pool_RemovePublishedTrack (p : Pool) (n : Z) (id : str) (retire_identity : bool) : Pool * bool :=
  match endpoints p !! n with
  | None => (p, false)
  | Some e => let '(e, m, ok, prune) := RemovePublishedTrack e (routes_ p) id retire_identity in (put p n e m prune, ok)
  end.

Definition pool_BindSsrc (p : Pool) (n : Z) (id : str) (x : Z) : Pool * bool :=
  match endpoints p !! n with
  | None => (p, false)
  | Some e => let '(e, ok) := BindSsrc e id x in (put p n e (routes_ p) [], ok)
  end.

Definition pool_Stop (ord : list str -> list str) (p : Pool) (n : Z) : Pool :=
  match endpoints p !! n with
  | None => p
  | Some e => let '(e, m, prune) := Stop ord e (routes_ p) in put p n e m prune
  end.

(** A posted [PruneSubscriptions] task of endpoint [n]. *)
Definition pool_Prune (ord : list str -> list str) (p : Pool) (n : Z) : Pool :=
  match endpoints p !! n with
  | None => p
  | Some e => let '(e, m) := Prune ord (alive p) e (routes_ p) in put p n e m []
  end.

(** ** Steps *)

(** The operations of one endpoint, with the endpoints they post a task to.  The owner adds a
    track one by one only under an identity and an index that no paused track has. *)
Inductive own_step : Endpoint -> store -> Endpoint -> store -> list Z -> Prop :=
| os_rtp ord sup acc cp e m packet hint e' m' out : bytes_ok packet ->
    OnRtp ord sup acc cp e m packet hint = Ret (e', m', out) -> own_step e m e' m' []
| os_rtcp ord live sup e m packet hint e' m' events : bytes_ok packet ->
    OnRtcp ord live sup e m packet hint = Ret (e', m', events) -> own_step e m e' m' []
| os_pli e m d now x : own_step e m (fst (OnTrackPli e d now x)) m []
| os_keyframe e m d now id : own_step e m (fst (RequestKeyFrame e d now id)) m []
| os_add e m id info md ext : spare e id (track_index info) -> track_index info <= INT_MAX ->
    own_step e m (fst (AddPublishedTrack e id info md ext)) m []
| os_add_media e m id md index : spare e id index -> index <= INT_MAX ->
    own_step e m (fst (AddPublishedMedia e id md index)) m []
| os_bind e m id x : own_step e m (fst (BindSsrc e id x)) m []
| os_remove e m id ret e' m' ok prune : RemovePublishedTrack e m id ret = (e', m', ok, prune) -> own_step e m e' m' prune
| os_replace ord e m medias e' m' ok prune :
    ReplacePublishedTracks ord e m medias = (e', m', ok, prune) -> own_step e m e' m' prune
| os_remove_stream e m x : own_step e m (RemoveMediaStream e x) m []
| os_callback e m id cb : own_step e m (SetTrackRtcpSendCallback e id cb) m []
| os_configure ord live e m id c e' m' ok : ConfigureSubscription ord live e m id c = (e', m', ok) -> own_step e m e' m' []
| os_unsubscribe e m id e' m' ok : Unsubscribe e m id = (e', m', ok) -> own_step e m e' m' []
| os_prune ord live e m e' m' : Prune ord live e m = (e', m') -> own_step e m e' m' []
| os_start e m : own_step e m (fst (Start e)) m []
| os_stop ord e m e' m' prune : (forall l, ord l ≡ₚ l) -> Stop ord e m = (e', m', prune) -> own_step e m e' m' prune.

(** Endpoints come into being, act, subscribe to one another, and the registry changes
    the consumers of routes, never reopening one. *)
Inductive pool_step : Pool -> Pool -> Prop :=
| ps_create p n stream : endpoints p !! n = None -> pool_step p (put p n (new_Endpoint stream) (routes_ p) [])
| ps_own p n e e' m' posts : endpoints p !! n = Some e -> own_step e (routes_ p) e' m' posts -> pool_step p (put p n e' m' posts)
| ps_subscribe ord attach p d id s track ref : pool_step p (fst (pool_Subscribe ord attach p d id s track ref))
| ps_consumer p y r c closed paused : routes_ p !! y = Some r -> consumer r = Some c -> (consumer_closed c = true -> closed = true) ->
    pool_step p (mkPool (endpoints p)
      (<[y := mkRoute (active r) (source r) (destination r) (source_track_id r) (source_ssrc r) (sender_ssrc r)
                (Some (mkConsumer closed paused)) (transport_id r)]> (routes_ p))
      (next_route_ p) (if closed then posted_ p ++ [destination r] else posted_ p)).

Definition empty_pool : Pool := mkPool ∅ ∅ 0 [].

Definition pool_reachable (p : Pool) : Prop := rtc pool_step empty_pool p.

(** ** The invariant *)

Record pool_ok (p : Pool) : Prop := mkPoolOk {
  po_ep : forall n e, endpoints p !! n = Some e -> ep_ok True e /\ quiet e;
  po_down : forall d e id y, endpoints p !! d = Some e -> subscriptions_ e !! id = Some y ->
    exists r, routes_ p !! y = Some r /\ destination r = d;
  po_inj : forall d e a b y, endpoints p !! d = Some e -> subscriptions_ e !! a = Some y -> subscriptions_ e !! b = Some y -> a = b;
  po_up : forall n e k y, endpoints p !! n = Some e -> listed e k y ->
    exists r, routes_ p !! y = Some r /\ source r = n /\ source_track_id r = k;
  po_live : forall y r, routes_ p !! y = Some r -> Closed r = false ->
    (exists e, endpoints p !! source r = Some e /\ IsRunning e = true /\ listed e (source_track_id r) y) /\
    (exists e id, endpoints p !! destination r = Some e /\ IsRunning e = true /\ subscriptions_ e !! id = Some y);
  po_fresh : forall y r, routes_ p !! y = Some r -> y < next_route_ p /\ source r <> destination r }.

Lemma own_local e m e' m' posts : own_step e m e' m' posts -> ep_ok True e -> quiet e -> local e m e' m' /\ ep_ok True e'.
Proof.
  intros H OK Q. split.
  - destruct H; eauto using OnRtp_local, OnRtcp_local, Pli_local, RequestKeyFrame_local, Add_local, Add_media_local,
      Bind_local, Remove_local, Replace_local, callback_local, Configure_local, Prune_local.
    + by apply local_frame.
    + by apply (downlink_Unsubscribe_local _ _ _ _ _ _ H).
    + unfold Start. destruct (stopped e) eqn:Es; [apply local_refl|]. apply local_frame; try done.
      intros Hk. unfold stopped in Es. rewrite Hk in Es. done.
    + by apply (Stop_local ord e m e' m' prune).
  - assert (E : endpoint_step True (e, m) (e', m')) by (destruct H; try (constructor; by eauto); try (constructor; econstructor; by eauto);
      match goal with E : ?f = _ |- endpoint_step _ _ ?x =>
        replace x with (fst (fst f)) by (by rewrite E); by constructor end ||
      match goal with E : ?f = _ |- endpoint_step _ _ ?x =>
        replace x with (fst f) by (by rewrite E); by constructor end ||
      match goal with E : ?f = _ |- endpoint_step _ _ ?x => rewrite <- E; by constructor end).
    by apply (endpoint_step_ok _ _ E).
Qed.

(** ** Every step keeps the invariant *)

(** One endpoint acts. *)
Lemma pool_own p n e e' m' posts :
  pool_ok p -> endpoints p !! n = Some e -> local e (routes_ p) e' m' -> ep_ok True e' -> pool_ok (put p n e' m' posts).
Proof.
  intros [A B C D E F] He L OK'. destruct (A _ _ He) as [OK Q]. destruct L as [[M1 M2] L1 L2 L3 L4 L5 L6 _].
  constructor; simpl.
  - intros k u Hk. apply lookup_insert_Some in Hk as [[<- <-]|[_ Hk]]; [auto|by eapply A].
  - intros d u id y Hd Hy.
    assert (exists r, routes_ p !! y = Some r /\ destination r = d) as (r & Hr & Hdr).
    { apply lookup_insert_Some in Hd as [[<- <-]|[_ Hd]]; [eapply B; [done|by apply L3]|by eapply B]. }
    destruct (M1 _ _ Hr) as (r' & Hr' & _ & Ed & _). exists r'. split; [done|congruence].
  - intros d u a b y Hd Ha Hb. apply lookup_insert_Some in Hd as [[<- <-]|[_ Hd]]; [|by apply (C d u a b y)].
    apply (C n e a b y); [done|by apply L3|by apply L3].
  - intros k u t y Hk Hl.
    assert (exists r, routes_ p !! y = Some r /\ source r = k /\ source_track_id r = t) as (r & Hr & H1 & H2).
    { apply lookup_insert_Some in Hk as [[<- <-]|[_ Hk]]; [eapply D; [done|by apply L1]|by eapply D]. }
    destruct (M1 _ _ Hr) as (r' & Hr' & Es & _ & Et & _). exists r'. split; [done|]. split; congruence.
  - intros y r' Hr' Ho. destruct (M2 _ _ Hr') as (r & Hr & Es & Ed & Et & Hc). rewrite Es, Ed, Et.
    assert (Hopen : is_open m' y) by (by exists r').
    assert (Hor : Closed r = false) by (destruct (Closed r); [by rewrite Hc in Ho|done]).
    destruct (E _ _ Hr Hor) as [(e1 & G1 & G2 & G3) (e2 & id & K1 & K2 & K3)]. split.
    + destruct (decide (n = source r)) as [Hn|Hn].
      * rewrite <- Hn, lookup_insert_eq. exists e'. rewrite <- Hn, He in G1. simplify_eq.
        pose proof (L2 _ _ G3 Hopen) as G4. split; [done|]. split; [|done]. destruct (L5 G2) as [|[Hno _]]; [done|]. by destruct (Hno _ _ G4).
      * rewrite lookup_insert_ne by done. by exists e1.
    + destruct (decide (n = destination r)) as [Hn|Hn].
      * rewrite <- Hn, lookup_insert_eq. exists e', id. rewrite <- Hn, He in K1. simplify_eq.
        pose proof (L4 _ _ K3 Hopen) as K4. split; [done|]. split; [|done]. destruct (L5 K2) as [|[_ Hno]]; [done|].
        by rewrite Hno, lookup_empty in K4.
      * rewrite lookup_insert_ne by done. by exists e2, id.
  - intros y r' Hr'. destruct (M2 _ _ Hr') as (r & Hr & Es & Ed & _). rewrite Es, Ed. by apply F.
Qed.

(** A new endpoint. *)
Lemma pool_create p n stream : pool_ok p -> endpoints p !! n = None -> pool_ok (put p n (new_Endpoint stream) (routes_ p) []).
Proof.
  intros [A B C D E F] Hn. constructor; simpl.
  - intros k u Hk. apply lookup_insert_Some in Hk as [[<- <-]|[_ Hk]]; [split; [apply new_Endpoint_ok|]|by eapply A].
    split; intros k s; simpl; by rewrite lookup_empty.
  - intros d u id y Hd Hy. apply lookup_insert_Some in Hd as [[<- <-]|[_ Hd]]; [simpl in Hy; by rewrite lookup_empty in Hy|by eapply B].
  - intros d u a b y Hd Ha. apply lookup_insert_Some in Hd as [[<- <-]|[_ Hd]]; [simpl in Ha; by rewrite lookup_empty in Ha|by eapply C].
  - intros k u t y Hk Hl. apply lookup_insert_Some in Hk as [[<- <-]|[_ Hk]]; [|by eapply D].
    destruct Hl as (v & Hv & _). simpl in Hv. by rewrite lookup_empty in Hv.
  - intros y r Hr Ho. destruct (E _ _ Hr Ho) as [(e1 & G1 & G) (e2 & id & K1 & K)]. split.
    + exists e1. rewrite lookup_insert_ne by congruence. done.
    + exists e2, id. rewrite lookup_insert_ne by congruence. done.
  - done.
Qed.

(** The routes change by themselves. *)
Lemma pool_routes p m' posts : pool_ok p -> routes_evolve (routes_ p) m' ->
  pool_ok (mkPool (endpoints p) m' (next_route_ p) posts).
Proof.
  intros [A B C D E F] [M1 M2]. constructor; simpl; try done.
  - intros d u id y Hd Hy. destruct (B _ _ _ _ Hd Hy) as (r & Hr & Hdr). destruct (M1 _ _ Hr) as (r' & Hr' & _ & Ed & _).
    exists r'. split; [done|congruence].
  - intros k u t y Hk Hl. destruct (D _ _ _ _ Hk Hl) as (r & Hr & H1 & H2). destruct (M1 _ _ Hr) as (r' & Hr' & Es & _ & Et & _).
    exists r'. split; [done|]. split; congruence.
  - intros y r' Hr' Ho. destruct (M2 _ _ Hr') as (r & Hr & Es & Ed & Et & Hc). rewrite Es, Ed, Et. apply E; [done|].
    destruct (Closed r); [by rewrite Hc in Ho|done].
  - intros y r' Hr'. destruct (M2 _ _ Hr') as (r & Hr & Es & Ed & _). rewrite Es, Ed. by apply F.
Qed.

(** The destination's part of a subscription: nothing but pruning, or a new route. *)
Lemma downlink_subscribe_spec ord live attach e m id info ref y s e' m' ok :
  downlink_subscribe ord live attach e m id info ref y s = (e', m', ok) ->
  exists e1 m1, Prune ord live e m = (e1, m1) /\
    ((ok = false /\ e' = e1 /\ m' = m1) \/
     (ok = true /\ subscriptions_ e1 !! id = None /\ exists a b r, e' = with_downlinks a (<[id := y]> (subscriptions_ e1)) b e1 /\
        m' = <[y := r]> m1 /\ source r = source s /\ destination r = destination s /\ source_track_id r = source_track_id s /\
        Closed r = false /\ active r = true /\ source_ssrc r = (if info_ssrc info =? 0 then source_ssrc s else Some (info_ssrc info)))).
Proof.
  unfold downlink_subscribe. destruct (Prune ord live e m) as [e1 m1]. intros H. exists e1, m1. split; [done|].
  destruct (parameters_ e1 !! id) as [c|]; [|left; by simplify_eq].
  destruct (known _ id || _ || _) eqn:E; [left; by simplify_eq|].
  apply orb_false_elim in E as [E _]. apply orb_false_elim in E as [E _]. apply bool_decide_eq_false, eq_None_not_Some in E.
  destruct (match transports_ e1 !! params_transport c with Some _ => _ | None => _ end); [left; by simplify_eq|].
  match type of H with match ?v with Some _ => _ | None => _ end = _ => destruct v as [view|] eqn:Ev; [|left; by simplify_eq] end.
  injection H as <- <- <-. right. split; [done|]. split; [done|]. eexists _, _, _. split; [done|]. split; [done|]. simpl.
  do 3 (split; [done|]). split; [|done]. unfold Closed. simpl.
  destruct (fst ref =? 0); [by simplify_eq|]. destruct (negb _); [done|]. destruct (attach ref) as [v|]; [|done].
  destruct (consumer_closed v) eqn:Ec; [done|]. by simplify_eq.
Qed.

(** A new route joins a track to a downlink. *)
Lemma pool_link p d e id s src track t a b r :
  pool_ok p -> endpoints p !! d = Some e -> endpoints p !! s = Some src -> s <> d -> IsRunning e = true -> IsRunning src = true ->
  published_tracks_ src !! track = Some t -> subscriptions_ e !! id = None ->
  source r = s -> destination r = d -> source_track_id r = track ->
  pool_ok (mkPool (<[s := with_tracks (<[track := set_subscribers (subscribers t ++ [next_route_ p]) t]> (published_tracks_ src)) src]>
                    (<[d := with_downlinks a (<[id := next_route_ p]> (subscriptions_ e)) b e]> (endpoints p)))
             (<[next_route_ p := r]> (routes_ p)) (next_route_ p + 1) (posted_ p)).
Proof.
  intros [A B C D E F] Hd Hs Hne Re Rs Ht Hid E1 E2 E3. set (y := next_route_ p).
  set (src' := with_tracks _ src). set (e' := with_downlinks _ _ _ e).
  assert (Hy : forall z r0, routes_ p !! z = Some r0 -> z <> y) by (intros z r0 Hz ->; destruct (F _ _ Hz); unfold y in *; lia).
  assert (Hlist : forall k z, listed src' k z <-> listed src k z \/ (k = track /\ z = y)).
  { intros k z. unfold listed. simpl. destruct (decide (track = k)) as [<-|Hn].
    - rewrite lookup_insert_eq. split; [intros (u & [= <-] & Hu)|].
      + simpl in Hu. apply elem_of_app in Hu as [Hu|Hu%list_elem_of_singleton]; [left; by exists t|by right].
      + intros [(u & Hu & Hz)|[_ ->]]; (eexists; split; [done|]); simpl; apply elem_of_app; [left; congruence|right].
        by apply list_elem_of_singleton.
    - rewrite lookup_insert_ne by done. split; [by left|]. by intros [?|[-> _]]. }
  assert (Hlook : forall n u, <[s := src']> (<[d := e']> (endpoints p)) !! n = Some u ->
    (n = s /\ u = src') \/ (n <> s /\ n = d /\ u = e') \/ (n <> s /\ n <> d /\ endpoints p !! n = Some u)).
  { intros n u Hn. apply lookup_insert_Some in Hn as [[<- <-]|[? Hn]]; [by left|].
    apply lookup_insert_Some in Hn as [[<- <-]|[? Hn]]; [right; left|right; right]; done. }
  assert (Hold : forall z r0, routes_ p !! z = Some r0 -> <[y := r]> (routes_ p) !! z = Some r0).
  { intros z r0 Hz. rewrite lookup_insert_ne; [done|]. intros <-. by destruct (Hy _ _ Hz). }
  destruct (A _ _ Hs) as [OKs Qs]. destruct (A _ _ Hd) as [OKd Qd]. constructor; cbn [endpoints routes_ next_route_].
  - intros n u [[-> ->]|[(_ & -> & ->)|(_ & _ & Hn)]]%Hlook; [split; [by eapply update_track_ok|]|split; [by apply (frame_ok e)|done]|by eapply A].
    split; [apply Qs|]. intros k v Hv. simpl in Hv. apply lookup_insert_Some in Hv as [[<- <-]|[_ Hv]]; [|by apply (proj2 Qs k)].
    simpl. apply NoDup_app. split; [by apply (proj2 Qs track)|]. split; [|apply NoDup_singleton].
    intros z Hz Hzy%list_elem_of_singleton. destruct (D _ _ track z Hs) as (r0 & Hr0 & _); [by exists t|]. by destruct (Hy _ _ Hr0).
  - intros n u k z Hn Hz. apply Hlook in Hn as [[-> ->]|[(_ & -> & ->)|(_ & _ & Hn)]].
    + destruct (B _ _ _ _ Hs Hz) as (r0 & Hr0 & ?). exists r0. auto.
    + simpl in Hz. apply lookup_insert_Some in Hz as [[<- <-]|[_ Hz]]; [exists r; by rewrite lookup_insert_eq|].
      destruct (B _ _ _ _ Hd Hz) as (r0 & Hr0 & ?). exists r0. auto.
    + destruct (B _ _ _ _ Hn Hz) as (r0 & Hr0 & ?). exists r0. auto.
  - intros n u k j z Hn Hk Hj. apply Hlook in Hn as [[-> ->]|[(_ & -> & ->)|(_ & _ & Hn)]]; [by eapply C| |by eapply C].
    simpl in Hk, Hj. apply lookup_insert_Some in Hk as [[<- <-]|[_ Hk]]; apply lookup_insert_Some in Hj as [[<- Hj]|[_ Hj]]; try done.
    + destruct (B _ _ _ _ Hd Hj) as (r0 & Hr0 & _). by destruct (Hy _ _ Hr0).
    + subst z. destruct (B _ _ _ _ Hd Hk) as (r0 & Hr0 & _). by destruct (Hy _ _ Hr0).
    + by apply (C d e k j z).
  - intros n u k z Hn Hz. apply Hlook in Hn as [[-> ->]|[(_ & -> & ->)|(_ & _ & Hn)]].
    + apply Hlist in Hz as [Hz|[-> ->]]; [|exists r; by rewrite lookup_insert_eq].
      destruct (D _ _ _ _ Hs Hz) as (r0 & Hr0 & ?). exists r0. auto.
    + destruct (D _ _ _ _ Hd Hz) as (r0 & Hr0 & ?). exists r0. auto.
    + destruct (D _ _ _ _ Hn Hz) as (r0 & Hr0 & ?). exists r0. auto.
  - intros z r0 Hz Ho. apply lookup_insert_Some in Hz as [[<- <-]|[Hzy Hz]].
    + rewrite E1, E2, E3. split.
      * exists src'. rewrite lookup_insert_eq. split; [done|]. split; [done|]. apply Hlist. by right.
      * exists e', id. rewrite lookup_insert_ne, lookup_insert_eq by done. split; [done|]. split; [done|]. simpl. apply lookup_insert_eq.
    + destruct (E _ _ Hz Ho) as [(e1 & G1 & G2 & G3) (e2 & id2 & K1 & K2 & K3)]. split.
      * destruct (decide (s = source r0)) as [Hn|Hn]; [rewrite <- Hn in *; exists src'; rewrite lookup_insert_eq; split; [done|]|].
        { split; [done|]. apply Hlist. left. congruence. }
        rewrite lookup_insert_ne by done. destruct (decide (d = source r0)) as [Hn2|Hn2]; [|rewrite lookup_insert_ne by done; by exists e1].
        rewrite <- Hn2 in *. exists e'. rewrite lookup_insert_eq. rewrite Hd in G1. by simplify_eq.
      * destruct (decide (s = destination r0)) as [Hn|Hn]; [rewrite <- Hn in *; exists src', id2; rewrite lookup_insert_eq; split; [done|]|].
        { split; [done|]. simpl. congruence. }
        rewrite lookup_insert_ne by done. destruct (decide (d = destination r0)) as [Hn2|Hn2]; [|rewrite lookup_insert_ne by done; by exists e2, id2].
        rewrite <- Hn2 in *. exists e', id2. rewrite lookup_insert_eq. rewrite Hd in K1. simplify_eq. split; [done|]. split; [done|]. simpl.
        rewrite lookup_insert_ne; [done|]. congruence.
  - intros z r0 Hz. apply lookup_insert_Some in Hz as [[<- <-]|[_ Hz]]; [split; [unfold y; lia|congruence]|].
    destruct (F _ _ Hz). split; [unfold y; lia|done].
Qed.

(** What [Subscribe] does: the destination prunes, or nothing; and on success a route is added. *)
Lemma pool_Subscribe_spec ord attach p d id s track ref p' ok :
  pool_Subscribe ord attach p d id s track ref = (p', ok) ->
  (ok = false /\ p' = p) \/
  exists e src t e1 m1, s <> d /\ endpoints p !! d = Some e /\ endpoints p !! s = Some src /\ published_tracks_ src !! track = Some t /\
    IsRunning e = true /\ IsRunning src = true /\ Prune ord (alive p) e (routes_ p) = (e1, m1) /\
    ((ok = false /\ p' = put p d e1 m1 []) \/
     (ok = true /\ subscriptions_ e1 !! id = None /\ exists a b r,
        p' = mkPool (<[s := with_tracks (<[track := set_subscribers (subscribers t ++ [next_route_ p]) t]> (published_tracks_ src)) src]>
                      (<[d := with_downlinks a (<[id := next_route_ p]> (subscriptions_ e1)) b e1]> (endpoints p)))
               (<[next_route_ p := r]> m1) (next_route_ p + 1) (posted_ p ++ []) /\
        source r = s /\ destination r = d /\ source_track_id r = track /\ Closed r = false /\ active r = true /\
        source_ssrc r = (if info_ssrc (description t) =? 0 then None else Some (info_ssrc (description t))))).
Proof.
  unfold pool_Subscribe. destruct (s =? d) eqn:Es; [intros [= <- <-]; by left|]. bool_hyps.
  destruct (endpoints p !! d) as [e|] eqn:Ed; [|intros [= <- <-]; by left].
  destruct (endpoints p !! s) as [src|] eqn:Esrc; [|intros [= <- <-]; by left].
  destruct (published_tracks_ src !! track) as [t|] eqn:Et; [|intros [= <- <-]; by left].
  destruct (negb (IsRunning e) || negb (IsRunning src)) eqn:Er; [intros [= <- <-]; by left|]. bool_hyps.
  destruct (downlink_subscribe _ _ _ _ _ _ _ _ _ _) as [[e' m'] ok'] eqn:E.
  destruct (downlink_subscribe_spec _ _ _ _ _ _ _ _ _ _ _ _ _ E) as (e1 & m1 & Ep & Hcase). intros Hres. right.
  exists e, src, t, e1, m1. do 7 (split; [done|]). destruct Hcase as [(-> & -> & ->)|(-> & Hid & a & b & r & -> & -> & H1 & H2 & H3 & H4 & H5 & H6)].
  - left. by simplify_eq/=.
  - right. simpl in Hres. injection Hres as <- <-. split; [done|]. split; [done|]. by exists a, b, r.
Qed.

Lemma pool_step_ok p p' : pool_step p p' -> pool_ok p -> pool_ok p'.
Proof.
  intros [q n stream Hn|q n e e' m' posts He Ho|ord attach q d id s track ref|q y r c closed paused Hr Hc Hcl] OK.
  - by apply pool_create.
  - destruct (po_ep _ OK _ _ He) as [O1 Q1]. destruct (own_local _ _ _ _ _ Ho O1 Q1) as [L O2]. by eapply pool_own.
  - destruct (pool_Subscribe ord attach q d id s track ref) as [p1 ok] eqn:E. simpl.
    destruct (pool_Subscribe_spec _ _ _ _ _ _ _ _ _ _ E) as [[_ ->]|(e & src & t & e1 & m1 & Hne & Hd & Hs & Ht & Re & Rs & Ep & Hcase)]; [done|].
    destruct (po_ep _ OK _ _ Hd) as [O1 Q1]. pose proof (Prune_local _ _ _ _ _ _ Ep) as L.
    pose proof (prune_keys_only _ _ _ _ _ _ Ep) as Ho. pose proof (only_downlinks_ok _ _ Ho O1) as O2.
    assert (R1 : IsRunning e1 = true) by (destruct Ho as (? & ? & ? & ->); done).
    pose proof (pool_own _ _ _ _ _ [] OK Hd L O2) as OK1.
    destruct Hcase as [(-> & ->)|(-> & Hid & a & b & r & -> & H1 & H2 & H3 & _)]; [done|].
    pose proof (pool_link (put q d e1 m1 []) d e1 id s src track t a b r OK1) as G. simpl in G.
    rewrite insert_insert_eq in G. apply G; auto; [apply lookup_insert_eq|by rewrite lookup_insert_ne].
  - apply pool_routes; [done|]. eapply routes_evolve_insert; [done|]. repeat split. unfold Closed. simpl. rewrite Hc.
    destruct (active r); simpl; [|done]. done.
Qed.

Lemma pool_reachable_ok p : pool_reachable p -> pool_ok p.
Proof.
  unfold pool_reachable. assert (OK : pool_ok empty_pool).
  { constructor; simpl; intros *; by rewrite ?lookup_empty. }
  intros H. revert OK. induction H as [p|p1 p2 p3 Hs _ IH]; [done|]. intros OK. apply IH. by eapply pool_step_ok.
Qed.
