(* ===== verification/SfuPoolProps.v ===== *)
(** * What the endpoints guarantee together

    The two ends of a route agree in every run of the pool, a packet reaches exactly the
    routes of its track, a subscription that is given up stays silent, and the removal of a
    track reaches its subscribers. *)
From S2P Require Import Prelude Bytes RtpWire Affinity Names SfuEndpoint SfuInv SfuReplace SfuProps SfuLocal SfuPool.

Lemma CanDeliver_open r : CanDeliver r = true -> Closed r = false.
Proof.
  unfold CanDeliver, Closed. destruct (active r); [|done]. simpl. destruct (consumer r) as [c|]; [|done].
  by destruct (consumer_closed c).
Qed.

(** C9. Both ends of a route agree. In every run of the pool in which no track is added one by one
    under the identity or the index of a paused one, an open route joins
    two different running endpoints: the publisher lists it, once, at the track it names, and the
    subscriber has it in its table; a listed route names the track that lists it, and every
    entry of a subscriber's table has a route of its own that leads to this subscriber. *)
Theorem routes_agree p : pool_reachable p ->
  (forall y r, routes_ p !! y = Some r -> Closed r = false -> source r <> destination r /\
     (exists e t, endpoints p !! source r = Some e /\ IsRunning e = true /\
        published_tracks_ e !! source_track_id r = Some t /\ y ∈ subscribers t /\ NoDup (subscribers t)) /\
     (exists e id, endpoints p !! destination r = Some e /\ IsRunning e = true /\ subscriptions_ e !! id = Some y)) /\
  (forall n e k t y, endpoints p !! n = Some e -> published_tracks_ e !! k = Some t -> y ∈ subscribers t ->
     exists r, routes_ p !! y = Some r /\ source r = n /\ source_track_id r = k) /\
  (forall d e id y, endpoints p !! d = Some e -> subscriptions_ e !! id = Some y ->
     (exists r, routes_ p !! y = Some r /\ destination r = d) /\
     (forall d' e' id', endpoints p !! d' = Some e' -> subscriptions_ e' !! id' = Some y -> d' = d /\ id' = id)).
Proof.
  intros H. apply pool_reachable_ok in H as [A B C D E F]. repeat apply conj.
  - intros y r Hr Ho. destruct (E _ _ Hr Ho) as [(e & He & Re & t & Ht & Hy) K]. destruct (F _ _ Hr) as [_ Hne].
    split; [done|]. split; [|done]. exists e, t. do 4 (split; [done|]). by apply (proj2 (proj2 (A _ _ He)) (source_track_id r)).
  - intros n e k t y He Ht Hy. apply (D _ _ _ _ He). by exists t.
  - intros d e id y Hd Hy. destruct (B _ _ _ _ Hd Hy) as (r & Hr & Hrd). split; [by exists r|].
    intros d' e' id' Hd' Hy'. destruct (B _ _ _ _ Hd' Hy') as (r' & Hr' & Hrd').
    assert (d' = d) as -> by congruence. split; [done|]. rewrite Hd in Hd'. injection Hd' as ->. by apply (C d e' id' id y).
Qed.

(** C38. Delivery is exact. In a run of the pool in which no track is added one by one under the
    identity or the index of a paused one, a packet that an endpoint forwards is assigned to one
    published track that has its payload type and agrees with the hint, its SSRC is bound
    to the track, and it reaches, once each, exactly the routes in the pool that come from this track,
    can deliver and carry this source or none yet; each leads to a running endpoint that has
    the subscription, and from then on carries this source only.  A packet that is not
    forwarded reaches nobody and changes no route; one that is assigned to a track and
    accepted by its receiver is forwarded. *)
Theorem delivery_exact ord sup acc cp p n e packet hint e' m' out x :
  pool_reachable p -> endpoints p !! n = Some e -> bytes_ok packet -> ReadUint32BE packet 8 = Ret x ->
  OnRtp ord sup acc cp e (routes_ p) packet hint = Ret (e', m', out) ->
  exists forwarded : bool,
    (forwarded = false -> m' = routes_ p /\ out = []) /\
    (forwarded = true -> NoDup out /\ exists id t, (hint = [] \/ hint = id) /\ published_tracks_ e !! id = Some t /\
       payload_type (description t) = Z.land (bget packet 1) 127 /\ ssrc_bindings_ e' !! x = Some id /\
       (forall y, y ∈ out <-> exists r, routes_ p !! y = Some r /\ source r = n /\ source_track_id r = id /\
          CanDeliver r = true /\ (source_ssrc r = None \/ source_ssrc r = Some x)) /\
       (forall y, y ∈ out -> exists r d sid, m' !! y = Some r /\ source_ssrc r = Some x /\
          endpoints p !! destination r = Some d /\ IsRunning d = true /\ subscriptions_ d !! sid = Some y)) /\
    (IsRunning e = true -> (exists e1, ResolveRtpTrack ord e packet hint = Ret (e1, true)) ->
       acc = true -> cp = true -> (forall i, sup i = true) -> forwarded = true).
Proof.
  intros OK He Hb Hx H. apply pool_reachable_ok in OK as [A B C D E F]. destruct (A _ _ He) as [OK Q].
  destruct (OnRtp_forwards _ _ _ _ _ _ _ _ _ _ _ _ OK Hb Hx H) as (b & H1 & H2 & H3). exists b. split; [done|]. split; [|done].
  intros Hf. destruct (H2 Hf) as (id & t & G1 & G2 & G3 & G4 & G5 & G6 & G7). split; [by apply G7, (proj2 Q id)|].
  exists id, t. do 4 (split; [done|]).
  assert (Hiff : forall y, y ∈ out <-> exists r, routes_ p !! y = Some r /\ source r = n /\ source_track_id r = id /\
    CanDeliver r = true /\ (source_ssrc r = None \/ source_ssrc r = Some x)).
  { intros y. rewrite G5. split.
    - intros [Hy (r & Hr & Hd & Hs)]. destruct (D _ _ id y He) as (r' & Hr' & Es & Et); [by exists t|].
      rewrite Hr in Hr'. simplify_eq. by exists r'.
    - intros (r & Hr & Es & Et & Hd & Hs). split; [|by exists r].
      destruct (E _ _ Hr (CanDeliver_open _ Hd)) as [(e1 & He1 & _ & t1 & Ht1 & Hy) _]. congruence. }
  split; [exact Hiff|]. intros y Hy. destruct (proj1 (Hiff y) Hy) as (r & Hr & _ & _ & Hd & _).
  destruct (E _ _ Hr (CanDeliver_open _ Hd)) as [_ (d & sid & K1 & K2 & K3)].
  exists (lock_source x r), d, sid. rewrite G6, Hr, decide_True by done. done.
Qed.

(** ** Closed routes *)

Lemma OnRtp_out ord sup acc cp e m packet hint e' m' out y :
  OnRtp ord sup acc cp e m packet hint = Ret (e', m', out) -> y ∈ out -> is_open m y.
Proof.
  intros H Hy. unfold OnRtp in H. destruct packet as [|b0 packet]; [simplify_eq; by apply not_elem_of_nil in Hy|].
  destruct (negb (IsRunning e)); [simplify_eq; by apply not_elem_of_nil in Hy|].
  destruct (ResolveRtpTrack ord e (b0 :: packet) hint) as [[e1 ok1]| |]; simpl in H; try done.
  destruct (negb ok1); [simplify_eq; by apply not_elem_of_nil in Hy|]. unfold HandleRtpPacket in H.
  destruct (negb (IsRunning e1)); [simplify_eq; by apply not_elem_of_nil in Hy|].
  destruct (ResolveRtpTrack ord e1 (b0 :: packet) []) as [[e2 ok2]| |]; simpl in H; try done.
  destruct (negb ok2); [simplify_eq; by apply not_elem_of_nil in Hy|].
  destruct (blen _ <? 12); [simplify_eq; by apply not_elem_of_nil in Hy|].
  destruct (ReadUint32BE (b0 :: packet) 8) as [x| |]; simpl in H; try done.
  destruct (GetOrCreateReceiverTrack sup e2 x) as [e3 ok3].
  destruct (_ || _); [simplify_eq; by apply not_elem_of_nil in Hy|]. unfold ForwardRtpToSubscribers in H.
  destruct (ssrc_bindings_ e3 !! x) as [id|]; [|simplify_eq; by apply not_elem_of_nil in Hy].
  destruct (published_tracks_ e3 !! id) as [t|]; [|done]. destruct (negb cp); [simplify_eq; by apply not_elem_of_nil in Hy|].
  destruct (fan_out x m _) as [r1 o1] eqn:Ef. simplify_eq. destruct (fan_out_spec _ _ _ _ _ Ef) as [F1 _].
  apply F1 in Hy as (_ & r & Hr & Hd & _). exists r. split; [done|by apply CanDeliver_open].
Qed.

Lemma pool_step_open p p' y : pool_step p p' -> pool_ok p -> is_Some (routes_ p !! y) -> is_open (routes_ p') y -> is_open (routes_ p) y.
Proof.
  intros [q n stream Hn|q n e e' m' posts He Ho|ord attach q d id s track ref|q z r c closed paused Hr Hc Hcl] OK Hy Hop; simpl in *.
  - done.
  - destruct (po_ep _ OK _ _ He) as [O1 Q1]. destruct (own_local _ _ _ _ _ Ho O1 Q1) as [L _]. by eapply is_open_back; [apply L|].
  - destruct (pool_Subscribe ord attach q d id s track ref) as [p1 ok] eqn:E. simpl in *.
    destruct (pool_Subscribe_spec _ _ _ _ _ _ _ _ _ _ E) as [[_ ->]|(e & src & t & e1 & m1 & Hne & Hd & Hs & Ht & Re & Rs & Ep & Hcase)]; [done|].
    pose proof (l_routes _ _ _ _ (Prune_local _ _ _ _ _ _ Ep)) as L.
    destruct Hcase as [(-> & ->)|(-> & Hid & a & b & r & -> & _)]; simpl in Hop; [by eapply is_open_back|].
    eapply is_open_back; [done|]. destruct Hop as (r' & Hr' & Hc'). destruct Hy as [r0 Hr0]. destruct (po_fresh _ OK _ _ Hr0) as [Hlt _].
    rewrite lookup_insert_ne in Hr' by lia. by exists r'.
  - eapply is_open_back; [|done]. eapply routes_evolve_insert; [done|]. repeat split. unfold Closed. simpl. rewrite Hc.
    destruct (active r); simpl; [|done]. done.
Qed.

Lemma pool_step_route p p' y : pool_step p p' -> pool_ok p -> is_Some (routes_ p !! y) -> is_Some (routes_ p' !! y).
Proof.
  intros [q n stream Hn|q n e e' m' posts He Ho|ord attach q d id s track ref|q z r c closed paused Hr Hc Hcl] OK [r0 Hy]; simpl in *.
  - by exists r0.
  - destruct (po_ep _ OK _ _ He) as [O1 Q1]. destruct (own_local _ _ _ _ _ Ho O1 Q1) as [L _]. destruct (l_routes _ _ _ _ L) as [M1 _].
    destruct (M1 _ _ Hy) as (r' & Hr' & _). by exists r'.
  - destruct (pool_Subscribe ord attach q d id s track ref) as [p1 ok] eqn:E. simpl in *.
    destruct (pool_Subscribe_spec _ _ _ _ _ _ _ _ _ _ E) as [[_ ->]|(e & src & t & e1 & m1 & Hne & Hd & Hs & Ht & Re & Rs & Ep & Hcase)]; [by exists r0|].
    destruct (l_routes _ _ _ _ (Prune_local _ _ _ _ _ _ Ep)) as [M1 _]. destruct (M1 _ _ Hy) as (r' & Hr' & _).
    destruct Hcase as [(-> & ->)|(-> & Hid & a & b & r & -> & _)]; simpl; [by exists r'|].
    apply lookup_insert_is_Some. destruct (decide (next_route_ q = y)); [by left|right]. split; [done|]. by exists r'.
  - apply lookup_insert_is_Some. destruct (decide (z = y)); [by left|right]. split; [done|]. by exists r0.
Qed.

(** A closed route stays closed. *)
Lemma closed_stays p p' y : rtc pool_step p p' -> pool_ok p -> is_Some (routes_ p !! y) -> ~ is_open (routes_ p) y ->
  pool_ok p' /\ is_Some (routes_ p' !! y) /\ ~ is_open (routes_ p') y.
Proof.
  intros H. induction H as [p|p1 p2 p3 Hs _ IH]; intros OK Hy Hn; [done|].
  apply IH; [by eapply pool_step_ok|by eapply pool_step_route|]. intros Ho. apply Hn. by eapply pool_step_open.
Qed.

(** C19. A subscription that is given up stays silent. [Unsubscribe] succeeds and
    frees the name; whatever happens afterwards, no endpoint ever forwards a packet to the
    route again. (Tracks are added one by one only under identities and indices that no paused
    track has.) *)
Theorem unsubscribed_silent p d e id y p1 ok p2 :
  pool_reachable p -> endpoints p !! d = Some e -> subscriptions_ e !! id = Some y -> pool_Unsubscribe p d id = (p1, ok) ->
  rtc pool_step p1 p2 ->
  ok = true /\ (exists e1, endpoints p1 !! d = Some e1 /\ subscriptions_ e1 !! id = None) /\
  (forall ord sup acc cp n src packet hint src' m' out, endpoints p2 !! n = Some src ->
     OnRtp ord sup acc cp src (routes_ p2) packet hint = Ret (src', m', out) -> y ∉ out).
Proof.
  intros R He Hy H Hs. pose proof (pool_reachable_ok _ R) as OK. unfold pool_Unsubscribe in H. rewrite He in H.
  destruct (Unsubscribe e (routes_ p) id) as [[e1 m1] ok1] eqn:E. injection H as <- <-.
  destruct (downlink_Unsubscribe_local _ _ _ _ _ _ E) as (L & S & Hc & ->). rewrite Hy. split; [done|]. split.
  { exists e1. simpl. rewrite lookup_insert_eq, S, lookup_delete_eq. done. }
  assert (OK1 : pool_ok (put p d e1 m1 [])).
  { eapply pool_own; [done|done|done|]. eapply only_downlinks_ok; [by eapply Unsubscribe_only|by apply (po_ep _ OK d)]. }
  destruct (po_down _ OK _ _ _ _ He Hy) as (r & Hr & _). destruct (l_routes _ _ _ _ L) as [M1 _]. destruct (M1 _ _ Hr) as (r' & Hr' & _).
  destruct (closed_stays _ _ y Hs OK1) as (_ & _ & Hn); [by exists r'|by apply Hc|].
  intros ord sup acc cp n src packet hint src' m' out _ Ho Hin. apply Hn. by eapply OnRtp_out.
Qed.

(** ** Removal *)

Lemma close_routes_posts xs m m' prune y r :
  close_routes xs m = (m', prune) -> y ∈ xs -> m !! y = Some r -> destination r ∈ prune.
Proof.
  revert m prune r. induction xs as [|x xs IH]; intros m prune r H Hy Hr; simpl in H; [by apply not_elem_of_nil in Hy|].
  destruct (decide (y = x)) as [->|Hne].
  - rewrite Hr in H. destruct (close_routes xs _). simplify_eq. apply list_elem_of_here.
  - apply elem_of_cons in Hy as [|Hy]; [done|]. destruct (m !! x) as [s|]; [|by eapply IH].
    destruct (close_routes xs _) as [r1 p1] eqn:E. simplify_eq. apply list_elem_of_further. eapply IH; [done|done|].
    by rewrite lookup_insert_ne.
Qed.

(** C39. The removal of a track reaches its subscribers. Every open route of the
    track is closed and a task is posted to its destination; when the task has run, at
    whatever time, no subscription of the destination uses the route. (Tracks are added one by
    one only under identities and indices that no paused track has.) *)
Theorem removed_track_pruned p n e id t ret p1 ok y r ord p2 :
  pool_reachable p -> endpoints p !! n = Some e -> published_tracks_ e !! id = Some t ->
  pool_RemovePublishedTrack p n id ret = (p1, ok) ->
  routes_ p !! y = Some r -> Closed r = false -> source r = n -> source_track_id r = id ->
  (forall l, ord l ≡ₚ l) -> rtc pool_step p1 p2 ->
  ok = true /\ ~ is_open (routes_ p1) y /\ destination r ∈ posted_ p1 /\
  (forall d sid, endpoints (pool_Prune ord p2 (destination r)) !! destination r = Some d -> subscriptions_ d !! sid <> Some y).
Proof.
  intros R He Ht H Hr Hop Es Et Hord Hs. pose proof (pool_reachable_ok _ R) as OK. unfold pool_RemovePublishedTrack in H. rewrite He in H.
  destruct (RemovePublishedTrack e (routes_ p) id ret) as [[[e1 m1] ok1] prune] eqn:E. injection H as <- <-.
  pose proof (Remove_local _ _ _ _ _ _ _ _ E) as L. destruct (po_ep _ OK _ _ He) as [O1 Q1].
  destruct (RemovePublishedTrack_ok _ _ _ _ _ _ _ _ O1 E) as (O2 & _).
  assert (OK1 : pool_ok (put p n e1 m1 prune)) by (by eapply pool_own).
  destruct (po_live _ OK _ _ Hr Hop) as [(e0 & He0 & _ & t0 & Ht0 & Hy) _]. rewrite Es, He in He0. injection He0 as <-.
  rewrite Et, Ht in Ht0. injection Ht0 as <-.
  assert (Hc : ok1 = true /\ ~ is_open m1 y /\ destination r ∈ prune).
  { unfold RemovePublishedTrack in E. rewrite Ht in E. destruct (close_routes _ _) as [m2 p3] eqn:Ec. simplify_eq. split; [done|].
    split; [by eapply close_routes_closed|by eapply close_routes_posts]. }
  destruct Hc as (-> & Hc & Hpost). split; [done|]. split; [done|]. split; [simpl; apply elem_of_app; by right|].
  destruct (l_routes _ _ _ _ L) as [M1 _]. destruct (M1 _ _ Hr) as (r' & Hr' & _).
  destruct (closed_stays _ _ y Hs OK1) as (OK2 & [r2 Hr2] & Hn); [by exists r'|done|].
  intros d sid Hd Hsid. unfold pool_Prune in Hd. destruct (endpoints p2 !! destination r) as [d0|] eqn:Ed0; [|congruence].
  destruct (Prune ord (alive p2) d0 (routes_ p2)) as [d1 m3] eqn:Ep. simpl in Hd. rewrite lookup_insert_eq in Hd. injection Hd as <-.
  destruct (prune_keys_local _ _ _ _ _ _ Ep) as [Lp Sp]. apply Hn. exists r2. split; [done|]. apply (Sp sid y); [|done|done].
  rewrite Hord. apply elem_of_elements, elem_of_dom. exists y. by apply (l_subs _ _ _ _ Lp).
Qed.
