(* ===== verification/SfuExamples.v ===== *)
(** * Endpoints on concrete inputs

    Two endpoints: the first negotiates a video and an audio section, the second subscribes
    to the video; packets, a second offer and a removal follow.  The properties of
    endpoints and of the pool are applied to this run. *)
From S2P Require Import Prelude Bytes RtpWire Affinity Names SfuEndpoint SfuInv SfuReplace SfuProps SfuLocal SfuPool SfuPoolProps.

Definition video_info : TrackInfo := mkTrackInfo 0 TrackVideo CodecH264 96 90000 0 [] 0 0.
Definition audio_info : TrackInfo := mkTrackInfo 0 TrackAudio CodecOPUS 111 48000 2 [] 0 0.
(** MIDs "v" and "a", SSRCs 1000 and 2000. *)
Definition video_media : Media := mkMedia [118] [(96, 90000, 0)] [] [1000] (Some video_info) 4.
Definition audio_media : Media := mkMedia [97] [(111, 48000, 2)] [] [2000] (Some audio_info) 4.
Definition video_downlink : SubscriptionParameters := mkParameters 55 100 90000 0 [] 0 3 None CodecH264.

Definition keep_order (l : list str) : list str := l.
Lemma keep_order_perm l : keep_order l ≡ₚ l.
Proof. done. Qed.
Definition no_registry (_ : Z * Z) : option ConsumerView := None.

Definition member (p : Pool) (n : Z) : Endpoint := default (new_Endpoint 0) (endpoints p !! n).

Definition pool_1 : Pool := put (put empty_pool 1 (new_Endpoint 0) ∅ []) 2 (new_Endpoint 0) ∅ [].
Definition pool_2 : Pool := put pool_1 1 (fst (Start (member pool_1 1))) (routes_ pool_1) [].
Definition pool_3 : Pool := put pool_2 2 (fst (Start (member pool_2 2))) (routes_ pool_2) [].
Definition offer (p : Pool) (medias : list Media) : Endpoint * store * bool * list Z :=
  ReplacePublishedTracks keep_order (member p 1) (routes_ p) medias.
Definition pool_4 : Pool :=
  put pool_3 1 (fst (fst (fst (offer pool_3 [video_media; audio_media])))) (snd (fst (fst (offer pool_3 [video_media; audio_media]))))
    (snd (offer pool_3 [video_media; audio_media])).
Definition configured : Endpoint * store * bool :=
  ConfigureSubscription keep_order (alive pool_4) (member pool_4 2) (routes_ pool_4) [118] video_downlink.
Definition pool_5 : Pool := put pool_4 2 (fst (fst configured)) (snd (fst configured)) [].
Definition pool_6 : Pool := fst (pool_Subscribe keep_order no_registry pool_5 2 [118] 1 [118] (0, 0)).

(** A packet of SSRC 1000, payload type 96. *)
Definition video_packet : list Z := [128; 96; 0; 1; 0; 0; 0; 0; 0; 0; 3; 232; 65].
Definition receive (p : Pool) : mres (Endpoint * store * list Z) :=
  OnRtp keep_order (fun _ => true) true true (member p 1) (routes_ p) video_packet [].
Definition received (a : mres (Endpoint * store * list Z)) : Endpoint * store :=
  match a with Ret (e, m, _) => (e, m) | _ => (new_Endpoint 0, ∅) end.
Definition pool_7 : Pool := put pool_6 1 (fst (received (receive pool_6))) (snd (received (receive pool_6))) [].

Lemma video_packet_ok : bytes_ok video_packet.
Proof. repeat constructor; vm_compute; intuition congruence. Qed.

Lemma video_ssrc : ReadUint32BE video_packet 8 = Ret 1000.
Proof. vm_compute. reflexivity. Qed.

Lemma receive_6 : receive pool_6 = Ret (fst (received (receive pool_6)), snd (received (receive pool_6)), [0]).
Proof. vm_compute. reflexivity. Qed.

Lemma member_lookup p n : is_Some (endpoints p !! n) -> endpoints p !! n = Some (member p n).
Proof. unfold member. by intros [e ->]. Qed.

Ltac member_tac := apply member_lookup; vm_compute; eexists; reflexivity.

Lemma pool_5_run : rtc pool_step empty_pool pool_5.
Proof.
  eapply rtc_l; [apply (ps_create empty_pool 1 0); reflexivity|]. eapply rtc_l; [apply (ps_create _ 2 0); reflexivity|]. fold pool_1.
  eapply rtc_l; [apply (ps_own pool_1 1 (member pool_1 1)); [member_tac|apply os_start]|]. fold pool_2.
  eapply rtc_l; [apply (ps_own pool_2 2 (member pool_2 2)); [member_tac|apply os_start]|]. fold pool_3.
  eapply rtc_l; [eapply (ps_own pool_3 1 (member pool_3 1) (fst (fst (fst (offer pool_3 [video_media; audio_media]))))
    (snd (fst (fst (offer pool_3 [video_media; audio_media])))) (snd (offer pool_3 [video_media; audio_media]))); [member_tac|]|].
  { eapply (os_replace keep_order _ _ [video_media; audio_media] _ _ (snd (fst (offer pool_3 [video_media; audio_media])))). fold (offer pool_3 [video_media; audio_media]). by destruct (offer pool_3 [video_media; audio_media]) as [[[? ?] ?] ?]. }
  fold pool_4.
  apply rtc_once. apply (ps_own pool_4 2 (member pool_4 2) (fst (fst configured)) (snd (fst configured)) []); [member_tac|].
  eapply (os_configure keep_order (alive pool_4) _ _ [118] video_downlink _ _ (snd configured)). fold configured. by destruct configured as [[? ?] ?].
Qed.

Lemma pool_6_reachable : pool_reachable pool_6.
Proof. eapply rtc_r; [exact pool_5_run|apply ps_subscribe]. Qed.

Lemma pool_7_reachable : pool_reachable pool_7.
Proof.
  eapply rtc_r; [exact pool_6_reachable|]. apply (ps_own pool_6 1 (member pool_6 1)); [member_tac|].
  eapply os_rtp; [exact video_packet_ok|exact receive_6].
Qed.

(** The packet reached the route, which now carries only this source. *)
Example video_reaches_route : source_ssrc <$> routes_ pool_7 !! 0 = Some (Some 1000).
Proof. vm_compute. reflexivity. Qed.

Lemma routes_agree_witness : exists e id, endpoints pool_7 !! 2 = Some e /\ subscriptions_ e !! id = Some 0.
Proof.
  destruct (routes_agree pool_7 pool_7_reachable) as (H & _).
  assert (E : exists r, routes_ pool_7 !! 0 = Some r /\ Closed r = false /\ destination r = 2) by (eexists; vm_compute; eauto).
  destruct E as (r & Hr & Hc & Hd). destruct (H 0 r Hr Hc) as (_ & _ & e & id & He & _ & Hs). rewrite Hd in He. exists e, id. split; [exact He|exact Hs].
Defined.

Lemma delivery_exact_witness : exists id, ssrc_bindings_ (fst (received (receive pool_6))) !! 1000 = Some id /\
  forall y, y ∈ [0] <-> exists r, routes_ pool_6 !! y = Some r /\ source r = 1 /\
  source_track_id r = id /\ CanDeliver r = true /\ (source_ssrc r = None \/ source_ssrc r = Some 1000).
Proof.
  assert (He : endpoints pool_6 !! 1 = Some (member pool_6 1)) by member_tac.
  destruct (delivery_exact keep_order (fun _ => true) true true pool_6 1 (member pool_6 1) video_packet []
    (fst (received (receive pool_6))) (snd (received (receive pool_6))) [0] 1000 pool_6_reachable He video_packet_ok video_ssrc receive_6)
    as (b & _ & H2 & H3).
  assert (Hb : b = true).
  { apply H3; [vm_compute; reflexivity|eexists; vm_compute; reflexivity|reflexivity|reflexivity|reflexivity]. }
  destruct (H2 Hb) as (_ & id & t & _ & _ & _ & Hid & Hy & _).
  exists id. exact (conj Hid Hy).
Defined.

Definition pool_8 : Pool := fst (pool_Unsubscribe pool_7 2 [118]).

(** After it is given up, the same packet reaches nobody. *)
Lemma unsubscribed_silent_witness : 0 ∉ match receive pool_8 with Ret (_, _, out) => out | _ => [] end.
Proof.
  assert (Hs : exists e, endpoints pool_7 !! 2 = Some e /\ subscriptions_ e !! [118] = Some 0) by (eexists; vm_compute; eauto).
  destruct Hs as (e & He & Hy).
  assert (E : pool_Unsubscribe pool_7 2 [118] = (pool_8, true)) by (vm_compute; reflexivity).
  destruct (unsubscribed_silent pool_7 2 e [118] 0 pool_8 true pool_8 pool_7_reachable He Hy E (rtc_refl _ _)) as (_ & _ & H).
  assert (Hm : endpoints pool_8 !! 1 = Some (member pool_8 1)) by member_tac.
  destruct (receive pool_8) as [[[e' m'] out]| |] eqn:Er; [|apply not_elem_of_nil|apply not_elem_of_nil].
  exact (H _ _ _ _ _ _ _ _ _ _ _ Hm Er).
Defined.

Definition pool_9 : Pool := fst (pool_RemovePublishedTrack pool_7 1 [118] true).

Lemma removed_track_pruned_witness : 2 ∈ posted_ pool_9 /\
  forall d sid, endpoints (pool_Prune keep_order pool_9 2) !! 2 = Some d -> subscriptions_ d !! sid <> Some 0.
Proof.
  assert (Ht : exists t, published_tracks_ (member pool_7 1) !! [118] = Some t) by (eexists; vm_compute; reflexivity).
  destruct Ht as (t & Ht).
  assert (Hr : exists r, routes_ pool_7 !! 0 = Some r /\ Closed r = false /\ source r = 1 /\ source_track_id r = [118] /\ destination r = 2)
    by (eexists; vm_compute; eauto 10).
  destruct Hr as (r & Hr & Hc & Hs & Hk & Hd).
  assert (He : endpoints pool_7 !! 1 = Some (member pool_7 1)) by member_tac.
  assert (E : pool_RemovePublishedTrack pool_7 1 [118] true = (pool_9, true)) by (vm_compute; reflexivity).
  destruct (removed_track_pruned pool_7 1 (member pool_7 1) [118] t true pool_9 true 0 r keep_order pool_9 pool_7_reachable He Ht E Hr Hc Hs Hk
    keep_order_perm (rtc_refl _ _)) as (_ & _ & H1 & H2). rewrite Hd in H1, H2. split; [exact H1|exact H2].
Defined.

(** ** One endpoint *)

Definition routes_0 : store := {[ 7 := mkRoute true 1 2 [118] None 55 None 3 ]}.
Definition endpoint_1 : Endpoint := fst (Start (new_Endpoint 1)).
Definition endpoint_2 : Endpoint * store := fst (fst (ReplacePublishedTracks keep_order endpoint_1 routes_0 [video_media; audio_media])).
Definition video_track : PublishedTrack :=
  default (mkPublishedTrack video_info [] 0 None [] None) (published_tracks_ (fst endpoint_2) !! [118]).
Definition endpoint_3 : Endpoint :=
  with_tracks (<[[118] := set_subscribers (subscribers video_track ++ [7]) video_track]>
    (published_tracks_ (fst endpoint_2))) (fst endpoint_2).

Lemma endpoint_3_reachable : endpoint_reachable True (endpoint_3, snd endpoint_2).
Proof.
  exists 1, routes_0. eapply rtc_l; [apply es_start|]. fold endpoint_1.
  eapply rtc_l; [apply (es_replace _ keep_order endpoint_1 routes_0 [video_media; audio_media])|]. fold endpoint_2.
  rewrite (surjective_pairing endpoint_2). apply rtc_once. apply (es_subscriber _ _ _ [118] video_track 7).
  vm_compute. reflexivity.
Qed.

Lemma endpoint_tables_witness :
  is_Some (ssrc_bindings_ endpoint_3 !! 1000) /\
  (forall x id, ssrc_bindings_ endpoint_3 !! x = Some id -> is_Some (published_tracks_ endpoint_3 !! id) /\ x ∉ retired_ssrcs_ endpoint_3).
Proof.
  split; [by exists [118]; vm_compute|]. apply (endpoint_tables True endpoint_3 (snd endpoint_2)). exact endpoint_3_reachable.
Defined.

Definition removal : Endpoint * store * bool * list Z := RemovePublishedTrack endpoint_3 (snd endpoint_2) [118] true.

(** After the removal of its track the packet is dropped. *)
Lemma late_packets_ignored_witness :
  OnRtp keep_order (fun _ => true) true true (fst (fst (fst removal))) (snd (fst (fst removal))) video_packet [] =
  Ret (fst (fst (fst removal)), snd (fst (fst removal)), []).
Proof.
  assert (Ht : exists t, published_tracks_ endpoint_3 !! [118] = Some t) by (eexists; vm_compute; reflexivity).
  destruct Ht as (t & Ht).
  refine (proj2 (proj2 (late_packets_ignored True endpoint_3 (snd endpoint_2) [118] t (fst (fst (fst removal)))
    (snd (fst (fst removal))) [2] 1000 _ _ endpoint_3_reachable Ht _ _ (rtc_refl _ _))) keep_order _ true true video_packet []
    video_packet_ok video_ssrc); vm_compute; reflexivity.
Defined.

Definition second_offer : Endpoint * store * bool * list Z :=
  ReplacePublishedTracks keep_order endpoint_3 (snd endpoint_2) [audio_media].


(** ** Adding a track beside a paused one

    The video is paused as "v" with index 0.  [AddPublishedTrack] looks at the published tracks
    only, so that it lets another track in under the identity "v" (here with the MID "w"). *)
Definition video_paused : Endpoint := fst (fst (fst second_offer)).
Definition doubled : Endpoint * bool := AddPublishedTrack video_paused [118] (set_index 5 video_info) [119] 0.

Example doubled_identity :
  (snd doubled, mid <$> published_tracks_ (fst doubled) !! [118], mid ∘ paused_track <$> paused_published_tracks_ (fst doubled) !! [118])
  = (true, Some [119], Some [118]).
Proof. vm_compute. reflexivity. Qed.

(** Route 8 then listens to that track.  When the video comes back, it takes its place: the
    route stays open, and no track has it any more. *)
Definition doubled_routes : store := {[ 8 := mkRoute true 1 2 [118] None 56 None 3 ]}.
Definition doubled_listened : Endpoint :=
  with_tracks (alter (set_subscribers [8]) [118] (published_tracks_ (fst doubled))) (fst doubled).
Definition video_back : Endpoint * store * bool * list Z :=
  ReplacePublishedTracks keep_order doubled_listened doubled_routes [video_media].

Example doubled_identity_loses_route :
  (snd (fst video_back), subscribers <$> published_tracks_ (fst (fst (fst video_back))) !! [118],
   Closed <$> snd (fst (fst video_back)) !! 8)
  = (true, Some [], Some false).
Proof. vm_compute. reflexivity. Qed.

(** A track of another identity may be let in with the index of the paused one; when the video
    comes back, two published tracks have the index 0. *)
Definition same_index : Endpoint := fst (AddPublishedTrack video_paused [119] (set_index 0 video_info) [119] 0).
Definition screen_media : Media := mkMedia [119] [(96, 90000, 0)] [] [3000] (Some video_info) 4.
Definition both_back : Endpoint * store * bool * list Z :=
  ReplacePublishedTracks keep_order same_index ∅ [video_media; screen_media].

Example doubled_index :
  (snd (fst both_back), index_of <$> published_tracks_ (fst (fst (fst both_back))) !! [118],
   index_of <$> published_tracks_ (fst (fst (fst both_back))) !! [119])
  = (true, Some 0, Some 0).
Proof. vm_compute. reflexivity. Qed.
