(* ===== verification/RoomEndpoints.v ===== *)
(** * What the rooms do to the endpoints

    The rooms reach the endpoints through [SfuEndpointOps] only.  A relation on the state of
    the endpoints that every operation of the interface respects is respected by every
    operation of a room and by every command; the leaving participant's endpoints are
    stopped. *)
From S2P Require Import Prelude Names Participant Room RoomInv RoomLoops.

(** Relations that the operations of the interface respect. *)
Class EndpointLaw {W : Type} (EP : SfuEndpointOps W) (R : W -> W -> Prop) := {
  law_refl : forall w, R w w;
  law_trans : forall a b c, R a b -> R b c -> R a c;
  law_bind : forall w e t x, R w (fst (ep_BindSsrc w e t x));
  law_subscribe : forall w d t s u ref, R w (fst (ep_Subscribe w d t s u ref));
  law_unsubscribe : forall w d t, R w (ep_Unsubscribe w d t);
  law_remove : forall w e t, R w (ep_RemovePublishedTrack w e t);
  law_stop : forall w e, R w (ep_Stop w e) }.

Section Moves.
Context {W : Type} {EP : SfuEndpointOps W} (R : W -> W -> Prop) {L : EndpointLaw EP R}.
Implicit Types (w : World W).

Lemma establish_moves w p q t i : R (eps w) (eps (fst (establish w p q t i))).
Proof.
  unfold establish. destruct (_ || _); [|apply law_refl].
  destruct (GetPublishEndpoint p) as [s|]; [|apply law_refl]. destruct (GetSubscribeEndpoint q) as [d|]; [|apply law_refl].
  match goal with |- context [ep_Subscribe ?a ?b ?c ?d ?e ?f] => pose proof (law_subscribe a b c d e f) as H; destruct (ep_Subscribe a b c d e f) end.
  exact H.
Qed.

Lemma subscribe_moves r w s t : R (eps w) (eps (snd (fst (SubscribeTrackLocked r w s t)))).
Proof.
  unfold SubscribeTrackLocked. destruct (_ || _); [apply law_refl|].
  destruct (find_participant r w s) as [[ptr p]|]; [|apply law_refl]. destruct (published_tracks_ r !! t) as [i|]; [|apply law_refl].
  do 2 (destruct (bool_decide _); [apply law_refl|]).
  destruct (find_participant r w (publisher_id i)) as [[pptr pp]|]; [|apply law_refl].
  pose proof (establish_moves w pp p t i) as H. destruct (establish w pp p t i) as [w1 ok]. by destruct ok.
Qed.

Lemma unsubscribe_moves r w s t : R (eps w) (eps (snd (UnsubscribeTrackLocked r w s t))).
Proof.
  unfold UnsubscribeTrackLocked. destruct (find_participant r w s) as [[ptr p]|]; [|apply law_refl]. simpl.
  destruct (GetSubscribeEndpoint p); [apply law_unsubscribe|apply law_refl].
Qed.

Lemma subscribe_all_moves pairs r w : R (eps w) (eps (snd (subscribe_all r w pairs))).
Proof.
  revert r w. induction pairs as [|[s t] pairs IH]; intros r w; [apply law_refl|]. cbn [subscribe_all].
  pose proof (subscribe_moves r w s t) as H. destruct (SubscribeTrackLocked r w s t) as [[r1 w1] ok].
  by eapply law_trans; [exact H|apply IH].
Qed.

Lemma unsubscribe_all_moves pairs r w : R (eps w) (eps (snd (unsubscribe_all r w pairs))).
Proof.
  revert r w. induction pairs as [|[s t] pairs IH]; intros r w; [apply law_refl|]. cbn [unsubscribe_all].
  pose proof (unsubscribe_moves r w s t) as H. destruct (UnsubscribeTrackLocked r w s t) as [r1 w1].
  by eapply law_trans; [exact H|apply IH].
Qed.

Lemma Join_moves ord now r w ptr r' w' ok ev : Join ord now r w ptr = (r', w', ok, ev) -> R (eps w) (eps w').
Proof.
  unfold Join. destruct (people w !! ptr) as [p|]; [|intros [= <- <- <- <-]; apply law_refl].
  destruct (negb _); [intros [= <- <- <- <-]; apply law_refl|].
  match goal with |- context [subscribe_all ?r1 w ?l] =>
    pose proof (subscribe_all_moves l r1 w) as H; destruct (subscribe_all r1 w l) as [r2 w2] end.
  destruct (SetState _ _ _). destruct (NotifyParticipantChanged _ _ _). intros Heq. by injection Heq as <- <- <- <-.
Qed.

Lemma remove_tracks_moves ord tracks r w r' w' l : remove_tracks ord r w tracks = (r', w', l) -> R (eps w) (eps w').
Proof.
  revert r w r' w' l. induction tracks as [|t tracks IH]; intros r w r' w' l H; cbn [remove_tracks] in H; [simplify_eq; apply law_refl|].
  match type of H with context [unsubscribe_all r w ?x] =>
    pose proof (unsubscribe_all_moves x r w) as G; destruct (unsubscribe_all r w x) as [r1 w1] end.
  destruct (published_tracks_ r1 !! t) as [i|]; [|by simplify_eq].
  destruct (TrackSnapshotLocked r1 w1 t i) as [r2 snap]. destruct (remove_tracks _ _ _ _) as [[r3 w3] rest] eqn:E. simplify_eq.
  eapply law_trans; [exact G|by eapply IH].
Qed.

Lemma stop_opt_moves (x : W) e : R x (stop_opt x e).
Proof. destruct e; [apply law_stop|apply law_refl]. Qed.

Lemma stop_endpoints_moves (x : W) a b c : R x (stop_endpoints x a b c).
Proof.
  unfold stop_endpoints. eapply law_trans; [apply (stop_opt_moves x a)|].
  destruct (bool_decide (b = a)); destruct (_ || _); try apply law_refl; try apply stop_opt_moves.
  eapply law_trans; apply stop_opt_moves.
Qed.

Lemma person_leave_moves (x : W) ptr p : R x (fst (fst (Participant.Leave x ptr p))).
Proof. unfold Participant.Leave. destruct (IsDisconnected p); [apply law_refl|apply stop_endpoints_moves]. Qed.

Lemma Leave_moves ord now r w id r' w' ok ev : Room.Leave ord now r w id = (r', w', ok, ev) -> R (eps w) (eps w').
Proof.
  unfold Room.Leave. destruct (find_participant r w id) as [[ptr p]|]; [|intros [= <- <- <- <-]; apply law_refl].
  match goal with |- context [unsubscribe_all r w ?x] =>
    pose proof (unsubscribe_all_moves x r w) as G; destruct (unsubscribe_all r w x) as [r1 w1] end.
  destruct (remove_tracks _ _ _ _) as [[r2 w2] removed] eqn:E. apply remove_tracks_moves in E.
  match goal with |- context [Participant.Leave ?x ?y ?z] =>
    pose proof (person_leave_moves x y z) as K; destruct (Participant.Leave x y z) as [[e q] calls] end.
  intros Heq. injection Heq as <- <- <- <-. simpl in *. eapply law_trans; [exact G|]. by eapply law_trans.
Qed.

Lemma endpoint_accepts_moves w p t x pt : R (eps w) (eps (fst (endpoint_accepts w p t x pt))).
Proof.
  unfold endpoint_accepts. destruct (GetPublishEndpoint p) as [e|]; [|apply law_refl]. destruct (negb _); [apply law_refl|].
  destruct (ep_PublishedPayloadType _ _ _); [|apply law_refl]. destruct (negb _); [apply law_refl|]. destruct (x =? 0); [apply law_refl|].
  pose proof (law_bind (eps w) e t x) as H. by destruct (ep_BindSsrc (eps w) e t x).
Qed.

Lemma PublishTrack_moves ord r w pid tr x pt src r' w' ok ev :
  PublishTrack ord r w pid tr x pt src = (r', w', ok, ev) -> R (eps w) (eps w').
Proof.
  unfold PublishTrack. destruct (pubs w !! tr) as [pub|]; [|intros [= <- <- <- <-]; apply law_refl].
  destruct (empty (sid pub)); [intros [= <- <- <- <-]; apply law_refl|].
  destruct (find_participant r w pid) as [[ptr p]|]; [|intros [= <- <- <- <-]; apply law_refl].
  destruct (IsClosed r); [intros [= <- <- <- <-]; apply law_refl|].
  destruct (bool_decide _); [intros [= <- <- <- <-]; apply law_refl|].
  match goal with |- context [endpoint_accepts w p ?t x pt] =>
    pose proof (endpoint_accepts_moves w p t x pt) as H; destruct (endpoint_accepts w p t x pt) as [w1 ok1] end.
  destruct (negb ok1); [intros Heq; by injection Heq as <- <- <- <-|].
  destruct (AddPublishedTrack _ _ _ _ _) as [[q added] c]. destruct (negb added); [intros Heq; by injection Heq as <- <- <- <-|].
  destruct (TrackSnapshotLocked _ _ _ _) as [r2 snap].
  match goal with |- context [subscribe_all ?r1 ?w2 ?l] =>
    pose proof (subscribe_all_moves l r1 w2) as G; destruct (subscribe_all r1 w2 l) as [r3 w3] end.
  intros Heq. injection Heq as <- <- <- <-. simpl in *. by eapply law_trans.
Qed.

Lemma UnpublishTrack_moves ord r w t r' w' ok ev : UnpublishTrack ord r w t = (r', w', ok, ev) -> R (eps w) (eps w').
Proof.
  unfold UnpublishTrack. destruct (empty t); [intros [= <- <- <- <-]; apply law_refl|].
  destruct (published_tracks_ r !! t) as [i|]; [|intros [= <- <- <- <-]; apply law_refl].
  match goal with |- context [unsubscribe_all r w ?x] =>
    pose proof (unsubscribe_all_moves x r w) as G; destruct (unsubscribe_all r w x) as [r1 w1] end.
  destruct (TrackSnapshotLocked r1 w1 t i) as [r2 snap].
  destruct (find_participant _ w1 _) as [[ptr p]|]; [|intros Heq; by injection Heq as <- <- <- <-].
  destruct (RemovePublishedTrack ptr p t) as [[q a] calls]. intros Heq. injection Heq as <- <- <- <-. simpl in *.
  destruct (GetPublishEndpoint p) as [e|]; [|done]. eapply law_trans; [exact G|apply law_remove].
Qed.

Lemma leave_all_moves ptrs w : R (eps w) (eps (fst (leave_all w ptrs))).
Proof.
  revert w. induction ptrs as [|ptr ptrs IH]; intros w; [apply law_refl|]. cbn [leave_all].
  destruct (people w !! ptr) as [p|]; [|apply IH].
  pose proof (person_leave_moves (eps w) ptr p) as K. destruct (Participant.Leave (eps w) ptr p) as [[e q] calls]. simpl in K.
  specialize (IH (set_person ptr q (set_eps e w))). destruct (leave_all _ ptrs) as [w2 more]. simpl in *. by eapply law_trans.
Qed.

Lemma Close_moves ord r w r' w' ev : Close ord r w = (r', w', ev) -> R (eps w) (eps w').
Proof.
  unfold Close. destruct (IsClosed r); [intros [= <- <- <-]; apply law_refl|].
  destruct (snapshot_all _ _ _) as [r1 removed].
  match goal with |- context [leave_all w ?l] => pose proof (leave_all_moves l w) as H; destruct (leave_all w l) as [w1 calls] end.
  intros Heq. by injection Heq as <- <- <-.
Qed.

Lemma join_new_moves ord now s room r id s' r' ok ev :
  join_new ord now s room r id = (s', r', ok, ev) -> R (eps (world s)) (eps (world s')).
Proof.
  unfold join_new. destruct (Join _ _ _ _ _) as [[[r1 w1] ok1] ev1] eqn:E. apply Join_moves in E.
  intros Heq. by injection Heq as <- <- <- <-.
Qed.

Lemma ensure_joined_moves ord now s room r id s' r' ok ev :
  ensure_joined ord now s room r id = (s', r', ok, ev) -> R (eps (world s)) (eps (world s')).
Proof.
  unfold ensure_joined. destruct (GetParticipant r id); [intros [= <- <- <- <-]; apply law_refl|]. by apply join_new_moves.
Qed.

Lemma GetOrCreateRoom_world now (s : System W) id n : world (fst (GetOrCreateRoom now s id n)) = world s.
Proof. unfold GetOrCreateRoom. by repeat case_match. Qed.

(** Every command respects the relation. *)
Lemma Handle_moves ord now s cmd : R (eps (world s)) (eps (world (fst (Handle ord now s cmd)))).
Proof.
  unfold Handle.
  assert (H : exists s1 found, (if creates (cmd_type cmd) then GetOrCreateRoom now s (cmd_room_id cmd) (cmd_room_name cmd)
    else (s, FindRoom s (cmd_room_id cmd))) = (s1, found) /\ world s1 = world s).
  { destruct (creates (cmd_type cmd)); [|by eexists _, _].
    pose proof (GetOrCreateRoom_world now s (cmd_room_id cmd) (cmd_room_name cmd)) as H.
    destruct (GetOrCreateRoom _ _ _ _) as [s1 found]. by exists s1, found. }
  destruct H as (s1 & found & -> & <-). destruct found as [room|]; [|apply law_refl].
  destruct (rooms s1 !! room) as [r|]; [|apply law_refl]. destruct (cmd_type cmd).
  - unfold HandleJoin. destruct (empty _); [apply law_refl|]. destruct (GetParticipant _ _); [apply law_refl|].
    destruct (join_new _ _ _ _ _ _) as [[[s2 r2] ok2] ev2] eqn:E. by eapply join_new_moves.
  - destruct (Room.Leave _ _ _ _ _) as [[[r2 w2] ok2] ev2] eqn:E. by eapply Leave_moves.
  - unfold HandlePublish. destruct (empty _); [apply law_refl|]. destruct (cmd_track cmd) as [tr|]; [|apply law_refl].
    destruct (ensure_joined _ _ _ _ _ _) as [[[s2 r2] ok2] ev2] eqn:E. apply ensure_joined_moves in E.
    destruct (negb ok2); [done|]. destruct (PublishTrack _ _ _ _ _ _ _ _) as [[[r3 w3] ok3] ev3] eqn:E3. apply PublishTrack_moves in E3.
    by eapply law_trans.
  - unfold HandleSubscribe. destruct (_ || _); [apply law_refl|].
    destruct (ensure_joined _ _ _ _ _ _) as [[[s2 r2] ok2] ev2] eqn:E. apply ensure_joined_moves in E.
    destruct (negb ok2); [done|]. unfold SubscribeTrack.
    pose proof (subscribe_moves r2 (world s2) (cmd_participant_id cmd) (cmd_track_id cmd)) as G.
    destruct (SubscribeTrackLocked _ _ _ _) as [[r3 w3] ok3]. by eapply law_trans.
  - destruct (UnpublishTrack _ _ _ _) as [[[r2 w2] ok2] ev2] eqn:E. by eapply UnpublishTrack_moves.
  - unfold UnsubscribeTrack. pose proof (unsubscribe_moves r (world s1) (cmd_participant_id cmd) (cmd_track_id cmd)) as G.
    by destruct (UnsubscribeTrackLocked _ _ _ _) as [r3 w3].
  - destruct (Close _ _ _) as [[r2 w2] ev2] eqn:E. by eapply Close_moves.
Qed.

(** ** The endpoints of a member that leaves are stopped *)

Lemma unsubscribe_all_people pairs r w :
  participants_ (fst (unsubscribe_all r w pairs)) = participants_ r /\
  people_frame r (people w) (people (snd (unsubscribe_all r w pairs))).
Proof.
  revert r w. induction pairs as [|[s t] pairs IH]; intros r w; [split; [done|apply people_frame_refl]|]. cbn [unsubscribe_all].
  destruct (UnsubscribeTrackLocked r w s t) as [r1 w1] eqn:E. pose proof (unsubscribe_frame _ _ _ _ _ _ E) as F.
  assert (P : participants_ r1 = participants_ r) by (unfold UnsubscribeTrackLocked in E; by repeat case_match; simplify_eq).
  destruct (IH r1 w1) as [P1 F1]. split; [congruence|]. by eapply people_frame_trans.
Qed.

Lemma remove_tracks_people ord tracks r w r' w' l :
  remove_tracks ord r w tracks = (r', w', l) -> people_frame r (people w) (people w').
Proof.
  revert r w r' w' l. induction tracks as [|t tracks IH]; intros r w r' w' l H; cbn [remove_tracks] in H; [simplify_eq; apply people_frame_refl|].
  match type of H with context [unsubscribe_all r w ?x] =>
    pose proof (unsubscribe_all_people x r w) as [P G]; destruct (unsubscribe_all r w x) as [r1 w1] end.
  destruct (published_tracks_ r1 !! t) as [i|]; [|by simplify_eq]. unfold TrackSnapshotLocked in H.
  destruct (remove_tracks _ _ _ _) as [[r3 w3] rest] eqn:E. simplify_eq.
  eapply people_frame_trans; [exact P|exact G|]. apply IH in E. exact E.
Qed.

(** The endpoints a participant uses. *)
Definition uses_endpoint (p : Participant) (n : Z) : Prop :=
  session_ep (publish_session_ p) = Some n \/ session_ep (subscribe_session_ p) = Some n \/ legacy_endpoint_ p = Some n.

Lemma stop_endpoints_stops (x : W) a b c n : a = Some n \/ b = Some n \/ c = Some n ->
  exists y, R x y /\ R (ep_Stop y n) (stop_endpoints x a b c).
Proof.
  intros H. unfold stop_endpoints. destruct (decide (a = Some n)) as [->|Ha].
  { exists x. split; [apply law_refl|]. simpl. destruct (bool_decide (b = Some n)); destruct (_ || _); try apply law_refl; try apply stop_opt_moves.
    eapply law_trans; apply stop_opt_moves. }
  destruct (decide (b = Some n)) as [->|Hb].
  { rewrite (bool_decide_eq_false_2 (Some n = a)) by congruence. exists (stop_opt x a). split; [apply stop_opt_moves|]. simpl.
    destruct (_ || _); [apply law_refl|apply stop_opt_moves]. }
  destruct H as [H|[H|H]]; [done|done|]. subst c. rewrite (bool_decide_eq_false_2 (Some n = a)), (bool_decide_eq_false_2 (Some n = b)) by congruence. simpl.
  eexists. split; [|apply law_refl]. destruct (bool_decide (b = a)); [apply stop_opt_moves|]. eapply law_trans; apply stop_opt_moves.
Qed.

Lemma Leave_stops ord now r w id ptr p n r' w' ok ev :
  participants_ r !! id = Some ptr -> people w !! ptr = Some p -> IsDisconnected p = false -> uses_endpoint p n ->
  Room.Leave ord now r w id = (r', w', ok, ev) -> exists y, R (eps w) y /\ R (ep_Stop y n) (eps w').
Proof.
  intros Hid Hp Hd Hn. unfold Room.Leave, find_participant. rewrite Hid, Hp.
  match goal with |- context [unsubscribe_all r w ?x] =>
    pose proof (unsubscribe_all_moves x r w) as G; pose proof (unsubscribe_all_people x r w) as [P1 F1];
    destruct (unsubscribe_all r w x) as [r1 w1] end.
  destruct (remove_tracks _ _ _ _) as [[r2 w2] removed] eqn:E. pose proof (remove_tracks_people _ _ _ _ _ _ _ E) as F2.
  apply remove_tracks_moves in E. simpl in *.
  destruct (people_frame_person _ _ _ _ _ (people_frame_trans _ _ _ _ _ P1 F1 F2) Hp) as (x & Hx). rewrite Hx. simpl.
  unfold Participant.Leave. replace (IsDisconnected (set_subscribed x p)) with false by done.
  intros Heq. injection Heq as <- <- <- <-. simpl.
  destruct (stop_endpoints_stops (eps w2) (session_ep (publish_session_ p)) (session_ep (subscribe_session_ p)) (legacy_endpoint_ p) n Hn)
    as (y & H1 & H2). exists y. split; [|exact H2]. eapply law_trans; [exact G|]. by eapply law_trans.
Qed.

End Moves.
