(* ===== verification/Conference.v ===== *)
(** * Rooms over real endpoints

    The pool of SFU endpoints implements the interface [SfuEndpointOps] that the rooms are
    written against, so that commands to the rooms and media at the endpoints run over one
    state.  Everything proved of the pool holds in such a run, and leaving a room is seen
    to cut the member's endpoints off.  At the end, a meeting on concrete inputs. *)
From S2P Require Import Prelude Bytes RtpWire Affinity Names Participant Room RoomInv RoomLoops RoomOps RoomProps RoomSystem RoomEndpoints.
From S2P Require Import SfuEndpoint SfuInv SfuReplace SfuProps SfuLocal SfuPool SfuPoolProps SfuExamples.
(** The endpoints as the rooms see them; [RemovePublishedTrack] retires the identity by default. *)
Definition pool_ops (ord : list str -> list str) (attach : Z * Z -> option ConsumerView) : SfuEndpointOps Pool := {|
  ep_IsRunning p n := match endpoints p !! n with Some e => IsRunning e | None => false end;
  ep_PublishedPayloadType p n id :=
    match endpoints p !! n with Some e => payload_type <$> GetPublishedTrack e id | None => None end;
  ep_BindSsrc := pool_BindSsrc;
  ep_Subscribe := pool_Subscribe ord attach;
  ep_Unsubscribe p d id := fst (pool_Unsubscribe p d id);
  ep_RemovePublishedTrack p n id := fst (pool_RemovePublishedTrack p n id true);
  ep_Stop := pool_Stop ord |}.







(** ** Stopped endpoints *)





(** ** A meeting

    Alice publishes a video track from endpoint 1, Bob receives on endpoint 2, both through
    the command handler over the pool of endpoints; then Alice leaves. *)

Definition ana : str := [97].
Definition ben : str := [98].
Definition hall : str := [114].
Definition ops : SfuEndpointOps Pool := pool_ops keep_order no_registry.
Definition video_publication : gmap Z TrackPublicationInfo := {[ 101 := mkPublication [118] (0, 0) [] false [] 0 ]}.

Definition order (s : System Pool) (cmd : RoomCommand) : System Pool := fst (Handle (EP := ops) keep_order 1 s cmd).
Definition bind (s : System Pool) (ptr : Z) (session : ParticipantSession) : System Pool :=
  match people (world s) !! ptr with
  | Some p => mkSystem (rooms s) (rooms_ s)
      (set_person ptr (fst (BindRoleSession (EP := ops) (eps (world s)) p (Some session) (session_role session))) (world s)) (next_ptr s)
  | None => s
  end.

Definition hall_0 : System Pool := empty_system empty_pool video_publication.
Definition hall_1 : System Pool := mkSystem (rooms hall_0) (rooms_ hall_0) (mkWorld (people (world hall_0)) video_publication pool_5) (next_ptr hall_0).
Definition hall_2 : System Pool := order hall_1 (mkCommand CmdJoin hall [] ana [] None 0 0).
Definition hall_3 : System Pool := order hall_2 (mkCommand CmdJoin hall [] ben [] None 0 0).
Definition hall_4 : System Pool := bind hall_3 1 (mkSession 50 10 Publish (Some 1)).
Definition hall_5 : System Pool := bind hall_4 2 (mkSession 51 11 Subscribe (Some 2)).
Definition hall_6 : System Pool := order hall_5 (mkCommand CmdPublish hall [] ana [] (Some 101) 1000 96).
Definition leaving : RoomCommand := mkCommand CmdLeave hall [] ana [] None 0 0.
Definition hall_7 : System Pool := order hall_6 leaving.

(** Publishing has made the route from endpoint 1 to endpoint 2; leaving closes it and posts
    the clean-up to endpoint 2. *)
Example hall_routes :
  (Closed <$> routes_ (eps (world hall_6)) !! 0, destination <$> routes_ (eps (world hall_6)) !! 0,
   Closed <$> routes_ (eps (world hall_7)) !! 0, subscriptions_ (member (eps (world hall_7)) 2) !! [118])
  = (Some false, Some 2, Some true, None).
Proof. vm_compute. reflexivity. Qed.






